(* ===== verification/_CoqProject ===== *)
-Q . S2P
Prelude.v
Prefix.v
Text.v
Table.v
TableFacts.v
TableRep.v
TableWalk.v
TableGet.v
TableDelete.v
TableIter.v
TableSpec.v
TableView.v
Stream.v
StreamCalc.v
Pqueue.v
Dlist.v
Linklist.v
Plist.v
Filter.v
Hash.v
Aspath.v
Community.v
CommunityFacts.v
CommunityText.v
CommunityIntern.v
Decision.v
BgpAttr.v
BgpAttrFacts.v
BgpAttrSafe.v
BgpAttrRound.v
BgpAttrSession.v
BgpAttrErrors.v
BgpFsm.v
BgpSession.v
BgpFsmFacts.v
BgpFsmRun.v
BgpSessionRun.v
BgpSessionSteps.v
BgpSessionClaims.v
BgpSessionWorld.v
BgpSessionProps.v
OspfLsa.v
Thread.v
ThreadFacts.v
ThreadRun.v
ThreadMove.v
ThreadClaims.v
OspfIf.v
OspfElection.v
OspfMachine.v
OspfSafety.v
OspfSpf.v
OspfSpfGraph.v
OspfSpfRead.v
OspfSpfRun.v
OspfSpfTree.v
OspfSpfStub.v
OspfSpfClaims.v
OspfRoute.v
OspfInstall.v
OspfRouteFacts.v
OspfRouteClaims.v
Rib.v
RibLookup.v
RibProcess.v
RibState.v
Zapi.v
ZapiFacts.v
ZapiRib.v
ZapiErrors.v
ZservQueue.v
Rip.v
RipInv.v
RipProcess.v
RipOps.v
RipRun.v
RipOutput.v
RipFit.v
RipClaims.v
RipZebra.v
