(* ===== verification/Prelude.v ===== *)
(** * GNU Zebra: a verification library

    GNU Zebra is a set of routing daemons.  Each protocol daemon (bgpd, ospfd, ripd
    and their IPv6 twins) speaks its protocol, keeps its routes in tables of the
    common library lib/, and hands its best routes to zebra, which keeps the routing
    information base, selects one route per prefix, installs it in the kernel and
    redistributes it to the other daemons.  All state is C structures linked by
    pointers and freed by hand; everything is driven by one event loop.

    This library models parts of that code as executable functions, and proves what
    makes them correct: that they never touch freed or missing memory, that they keep
    the invariants of their data, and what they compute.

    ** How C is modelled

    A run of C code is a value of [res]: it returns, or stops at a [fault] (access out
    of bounds, use after free, failed assertion, signed overflow, or fuel that ran
    out).  Code that works on a state is a function of the monad [ST].  A structure is
    a record, an enumeration or tagged union an inductive type, memory shared through
    pointers a finite map from addresses to records ([gmap]), and a pointer that is not
    in the map any more a use after free.  An unsigned integer of [w] bits is a [Z] with
    its wrap-around written out ([u8], [u16], [u32], [u64]); addresses are their octets
    in memory, or their value where only comparisons matter.  Loops that are not
    structural take fuel: the number of nodes of the heap for walks in a table, the
    number of octets for packets, the number of excess seconds for times.  The two OSPF
    machines call each other only a bounded number of levels deep, so their calls are
    nested definitions, and the one that would close the cycle is [OutOfFuel].  The
    theorems are total: they say that the code returns a result, so [OutOfFuel] is
    excluded like any other fault.

    System calls and other parties are arguments: what [read] and [write] return, the
    answer of the kernel to a netlink message, the time of day, the C library's
    [inet_aton].  Calls that leave the modelled part (messages to send, redistribution,
    hooks) are recorded in a log.

    ** Parts

    The common library:
    - [Prelude]: outcomes, the state monad, machine integers, octets, flags.
    - [Prefix] (lib/prefix.c): matching is inclusion of the addresses covered
      ([prefix_match_covers]), masking is canonical ([apply_mask_canonical]), text
      conversion round trips; masks are read one byte too far.
    - [Table] (lib/table.c), the radix tree with its reference counts: [Table] has the
      operations, [TableFacts] the tree a heap stands for, [TableRep] the invariant,
      [TableWalk], [TableGet], [TableDelete] and [TableIter] what the walks, insertion,
      removal and iteration do, and [TableSpec] the contract: a table is a finite map
      from bit strings to information, and every operation refines one on that map
      ([route_node_match_longest], [store_insert], [withdraw_delete], [visit_all]);
      lookups of 128-bit IPv6 addresses are left out, they can read past the address.
      [TableView] says node by node what the operations do to information and locks;
      the daemons are proved against it.
    - [Text]: decimal numbers and growing text buffers, shared by AS paths and communities.
    - [Hash] (lib/hash.c): chained hash tables are finite maps for any hash function that
      respects the comparison ([hash_refines_map]); the class [HashLaws] is what a client
      of the table owes it.
    - [Stream] (lib/stream.c): packet buffers; what is put is got back, whole or not at
      all, within the block ([stream_roundtrip], [put_item_all_or_nothing]).
      [StreamCalc] composes such statements call by call for whole messages.
    - [Pqueue] (lib/pqueue.c): the binary heap; [Dlist] and [Linklist]
      (lib/linklist.c): linked lists; [Plist] (lib/plist.c): prefix lists, whose
      application is first match by sequence number ([entries_apply_first_match]).
    - [Filter] (lib/filter.c): access lists, applied by first match of wildcards and
      prefixes ([access_list_apply_first_match]) and kept in sorted lists
      ([access_list_get_lookup]); their delete hook is given freed lists.

    - [Thread] (lib/thread.c): the event loop, with all threads in one heap and select as an
      argument.  [ThreadFacts]: the lists of a master; [ThreadRun] and [ThreadMove]: its
      invariant, and what adding, cancelling and fetching do.  [ThreadClaims]: no program
      that keeps the limits of the interface breaks the lists ([threads_safe]), and threads
      are fetched by priority and in order ([thread_fetch_refines], [fetch_in_order]).  It
      uses the times of [OspfLsa], which have the same loops.

    zebra:
    - [Rib] (zebra/zebra_rib.c, IPv4, and the route message of zebra/rt_netlink.c) has
      the operations on the routing information base.  [RibLookup]: lookups are longest
      match over the selected routes of other protocols than BGP
      ([rib_match_ipv4_longest]).  [RibProcess]: rib_process selects exactly the best
      usable route and tells the clients exactly the change ([rib_process_selects]);
      deleting names the nexthops that were added ([netlink_route_multipath_same]).
      [RibState]: the invariant of the whole base, every route in one list of one node,
      every lock accounted for, and what rib_add_ipv4 and rib_delete_ipv4 do to it on
      every branch ([rib_add_ipv4_adds], [rib_delete_ipv4_deletes]).  They are proved
      against the contract of the table, not its code.

    zebra and its clients:
    - [Zapi] (lib/zclient.c, zebra/zserv.c): the route messages in both directions, their
      reception, and the commands about routes.  [ZapiFacts] says what is written and
      read, [ZapiRib] the composition with [Stream] and [Rib]: a route a daemon
      sends is in the routing information base afterwards ([zapi_add_reaches_rib]).
      [ZapiErrors]: lengths that overrun the buffers ([zread_long_prefix_overflows]).
    - [ZservQueue] (zebra/zserv.c): the messages held back for slow clients, which are
      complete and in order with one client, in pieces of any size ([queue_drains]), and go
      to the wrong client with several ([queue_crosses_clients]).
    - [RipZebra] (ripd/rip_zebra.c): the messages of ripd, and what ripd makes of zebra's
      ([redistribution_reaches_rip]).

    bgpd:
    - [Community], [CommunityFacts], [CommunityText], [CommunityIntern]
      (bgpd/bgp_community.c): communities on their octets; sorting and matching are sorting
      and inclusion of sets ([community_uniq_sort_equiv], [community_match_subset]), text
      is read back ([community_text_roundtrip]), and the table of shared values, proved
      against the contract of [Hash], holds exactly the values in use and counts their
      users ([community_intern_safe]).
    - [Aspath] (bgpd/bgp_aspath.c): AS paths on their octets, accepted exactly when
      well-formed ([aspath_make_str_count_sound]); prepending, loop check.
    - [Decision] (bgpd/bgp_route.c): the decision process marks exactly the best route, by a
      key of preference stated on its own, when MED is always compared
      ([bgp_process_selects]); with MED compared between neighbors only, the preference
      has cycles ([med_cycle]).
    - [BgpAttr] (bgpd/bgp_attr.c, bgp_update_receive of bgpd/bgp_packet.c, bgp_nlri_parse
      and its check of bgpd/bgp_route.c): UPDATE messages.  Structures that are shared
      through hash tables are their values, pointers into the input buffer are offsets,
      and what is asked of the rest of bgpd is recorded.  [BgpAttrFacts] and [BgpAttrSafe]:
      without multiprotocol attributes and without an AS path of one empty sequence no
      message makes bgpd read more than two octets behind it, or announce routes of a
      message it refuses ([bgp_update_receive_safe]).
      [BgpAttrRound] and [BgpAttrSession]: attributes arrive as they were sent
      ([attributes_arrive]).  [BgpAttrErrors]: the messages that do harm
      ([mp_unreach_short_overreads]).
    - [BgpFsm] (bgpd/bgp_fsm.c, and the output of messages in bgpd/bgp_packet.c): the state
      machine of a peer with its table, timers and waiting events; time only passes as
      timers that run out, and what rand, the socket and write return are arguments.
      [BgpSession] (the input half of bgpd/bgp_packet.c, bgpd/bgp_network.c and the peers of
      bgpd/bgpd.c): the peers of an instance, messages, collisions, connections from
      outside and the commands that reset a peer.  The optional parameters of OPEN and the
      other messages are arguments ([Speaker], [Receiver]), which can fault, with their
      laws, which say that they do not.  [BgpFsmFacts]
      and [BgpFsmRun]: the invariant of a session, and what the functions of the table do to
      it.  [BgpSessionRun] and [BgpSessionSteps]: the input buffer, messages, reading and
      writing.  [BgpSessionClaims]: the steps of a configured peer keep the invariant; the
      events a step adds are handled before the next one, which is the order of [Thread].
      [BgpSessionWorld]: reading in the instance.  [BgpSessionProps]: a configured peer never
      faults or gets stuck, and its counters, routes and timers fit its state
      ([bgp_session_safe]), for inputs within the limits stated there (commands before the
      first start and while a restart is waited for are restricted); reading one peer leaves the others alone ([bgp_read_configured]);
      connections that collide are both lost ([collision_loses_both]).

    ospfd:
    - [OspfLsa] (ospfd/ospf_lsa.c): the Fletcher checksum verifies and detects the
      change of an octet, recency is an order, the refresh delay is least.
    - [OspfIf] (ospfd/ospf_ism.c, ospfd/ospf_nsm.c, ospfd/ospf_neighbor.c and the hello
      packets of ospfd/ospf_packet.c): one interface with its neighbors, both state
      machines, their timers and events.  [OspfElection]: the designated router
      election, its outcome and exactly what it changes ([ospf_dr_election_elects]).
      [OspfMachine] and [OspfSafety]: for an interface that is not NBMA, after any
      sequence of events, timers and hello packets the machines run without a fault and
      the invariant holds ([ospf_machines_safe], [ospf_interface_consistent]); left out
      are LLDown, which nothing raises and which uses a freed neighbor
      ([ll_down_use_after_free]), and hello packets with a /32 mask, which ip_masklen
      reads too far.
    - [OspfSpf] (ospfd/ospf_spf.c): the shortest-path calculation of an area on the octets
      of its LSAs, with vertices in a heap.  [OspfSpfGraph]: the graph the LSAs describe,
      and Dijkstra's algorithm on finite maps of distances with its invariant.
      [OspfSpfRead]: what the code reads in LSAs.  [OspfSpfRun] and [OspfSpfTree]: the code
      simulates the algorithm.  [OspfSpfStub]: the second stage and the freeing of the
      tree.  [OspfSpfClaims]: the calculation adds exactly the reachable vertices with
      their shortest distances and first hops of shortest ways as nexthops
      ([ospf_spf_calculate_correct]) and each stub network once
      ([ospf_spf_stubs_once]), and its timer respects the hold time ([spf_timer_bounds]).
      The LSAs have the length their contents need and no metrics for types of service;
      an area has less than 65536 of them, so that distances do not wrap.
    - [OspfRoute] (ospfd/ospf_route.c): the routing tables of ospfd.  [OspfRouteFacts] and
      [OspfRouteClaims]: the routes of an area, composed with the calculation, have the
      least cost offered for each prefix ([ospf_intra_routes_least]); a nearer stub network
      of the router itself is lost.  [OspfInstall]: zebra is in step with the current
      table ([ospf_zebra_in_step]), but for the interfaces of nexthops
      ([install_misses_interface]) and for ranges that lose their specific routes
      ([discard_delete_breaks]), and the comparison of routes is an order.

    ripd:
    - [Rip] (ripd/ripd.c, if_valid_neighbor of ripd/rip_interface.c, if_lookup_address of
      lib/if.c): the table of routes, the timers of the routes, responses with the checks
      of their entries, redistribution, and when updates are triggered.  The filters, the
      offset lists and the distances are arguments.  [RipInv]: the invariant,
      and what a change of one route does to it.  [RipProcess]: an entry of a response
      against the rule of RFC 2453.  [RipOps]: timers, redistribution, walks over the
      table.  [RipRun]: whole datagrams, and any sequence of inputs, for any output that
      leaves the state alone ([output_ok]).  [RipOutput]: the output, periodic and
      triggered, with passwords and MD5 signatures; it reads the state, stays within its
      buffer and meets no fault on routes that are fit for it.  [RipFit]: every input keeps
      the routes fit.  [RipClaims]: the
      daemon runs without a fault and zebra has been told exactly the usable routes
      ([ripd_runs], [ripd_zebra_in_step]), rip_rte_process implements the rule
      ([rip_rte_process_rfc2453]), routes that are not refreshed go away
      ([rip_route_expires]).  Entries for hosts are left out, because ip_masklen reads
      past their mask; the number of entries and redistributions in a run is below 2^32,
      because some of them leave a lock on a node; requests are not an input.

    ** Not modelled

    Terminals, commands and the integrated shell (lib/vty.c, lib/command.c, the
    [*_vty.c] files, vtysh), which are input and output; regular expressions, MD5 and
    SNMP, which are other programs' code or protocols of their own; sockets and the
    kernel interfaces other than the netlink route message, which are system calls around
    the code modelled here; the IPv6 twins of zebra's functions and
    of the daemons (ripngd, ospf6d), which repeat the structure of the IPv4 code.  Not
    reached yet: capabilities, policy and announcements of bgpd, flooding,
    inter-area and external routes of ospfd, the requests of ripd, route
    maps and key chains, the vector and buffers of lib/, the interface messages of
    zebra. *)

From stdpp Require Export base numbers list gmap.
From stdpp Require Import strings.

#[global] Open Scope Z_scope.
#[global] Arguments Nat.div : simpl never.
#[global] Arguments Nat.modulo : simpl never.

(** * Outcomes of C code

    A run of C code either returns a value or stops at a fault.  [OutOfBounds],
    [NullDeref] and [UseAfterFree] are accesses the C program must never make,
    [AssertFailed] is a failing [assert ()], [Overflow] is an overflow of a signed
    integer, [DivByZero] a division or remainder by zero, [OutOfFuel] marks a loop that
    did not finish within the fuel given to it. *)

Inductive fault :=
  | OutOfBounds
  | NullDeref
  | UseAfterFree
  | AssertFailed
  | Overflow
  | DivByZero
  | OutOfFuel.

#[export] Instance fault_eq_dec : EqDecision fault.
Proof. solve_decision. Defined.

Inductive res (A : Type) : Type :=
  | Ok (a : A)
  | Fail (e : fault).
Arguments Ok {A} a.
Arguments Fail {A} e.

#[export] Instance res_ret : MRet res := @Ok.
#[export] Instance res_bind : MBind res := λ A B f m,
  match m with
  | Ok a => f a
  | Fail e => Fail e
  end.
#[export] Instance res_fmap : FMap res := λ A B f m,
  match m with
  | Ok a => Ok (f a)
  | Fail e => Fail e
  end.

(** The value of an [option], or the fault [e]. *)
Definition of_option {A} (e : fault) (o : option A) : res A :=
  match o with
  | Some a => Ok a
  | None => Fail e
  end.

(** [assert (b)]. *)
Definition c_assert (b : bool) : res unit :=
  if b then Ok tt else Fail AssertFailed.

Lemma res_bind_Ok {A B} (m : res A) (f : A → res B) (b : B) :
  m ≫= f = Ok b ↔ ∃ a, m = Ok a ∧ f a = Ok b.
Proof.
  destruct m as [a|e]; cbn; split; [eauto|naive_solver|done|naive_solver].
Qed.

Lemma of_option_Ok {A} e (o : option A) a : of_option e o = Ok a ↔ o = Some a.
Proof. destruct o; cbn; naive_solver. Qed.

(** * State-passing computations

    [ST S A] is a computation that reads and writes a state [S] and may stop at
    a fault. *)

Definition ST (S A : Type) : Type := S → res (A * S).

#[export] Instance ST_ret {S} : MRet (ST S) := λ A a s, Ok (a, s).
#[export] Instance ST_bind {S} : MBind (ST S) := λ A B f m s,
  match m s with
  | Ok (a, s') => f a s'
  | Fail e => Fail e
  end.

Definition st_fail {S A} (e : fault) : ST S A := λ _, Fail e.
Definition st_get {S} : ST S S := λ s, Ok (s, s).
Definition st_put {S} (s : S) : ST S unit := λ _, Ok (tt, s).
Definition st_lift {S A} (m : res A) : ST S A := λ s,
  match m with
  | Ok a => Ok (a, s)
  | Fail e => Fail e
  end.

(** One step of a run: the computation [m] returns [a] in the state [s']. *)
Lemma st_bind_Ok {S X Y} (m : ST S X) (f : X → ST S Y) s a s' :
  m s = Ok (a, s') → (m ≫= f) s = f a s'.
Proof. intros H. unfold mbind, ST_bind. by rewrite H. Qed.

Lemma st_bind_Fail {S X Y} (m : ST S X) (f : X → ST S Y) s e :
  m s = Fail e → (m ≫= f) s = Fail e.
Proof. intros H. unfold mbind, ST_bind. by rewrite H. Qed.

(** * Machine integers *)

Definition u8 (x : Z) : Z := x mod 2^8.
Definition u16 (x : Z) : Z := x mod 2^16.
Definition u32 (x : Z) : Z := x mod 2^32.
Definition u64 (x : Z) : Z := x mod 2^64.

Definition is_u8 (x : Z) : Prop := 0 ≤ x < 2^8.
Definition is_u16 (x : Z) : Prop := 0 ≤ x < 2^16.
Definition is_u32 (x : Z) : Prop := 0 ≤ x < 2^32.
Definition is_u64 (x : Z) : Prop := 0 ≤ x < 2^64.

(** Signed ints; arithmetic on them is kept in range by the theorems that use it. *)
Definition s32 (x : Z) : Z := (x + 2^31) mod 2^32 - 2^31.
Definition is_s32 (x : Z) : Prop := - 2^31 ≤ x < 2^31.

Lemma s32_id x : is_s32 x → s32 x = x.
Proof. unfold is_s32, s32. intros ?. rewrite Z.mod_small by lia. lia. Qed.

(** The value of an arithmetic expression of type [int]. *)
Definition int_of (x : Z) : res Z :=
  if (- 2^31 <=? x) && (x <? 2^31) then Ok x else Fail Overflow.

Lemma int_of_Ok x : is_s32 x → int_of x = Ok x.
Proof.
  unfold is_s32, int_of. intros ?.
  by rewrite (proj2 (Z.leb_le _ _)), (proj2 (Z.ltb_lt _ _)) by lia.
Qed.

Lemma u8_range x : is_u8 (u8 x).
Proof. apply Z.mod_pos_bound. lia. Qed.
Lemma u16_range x : is_u16 (u16 x).
Proof. apply Z.mod_pos_bound. lia. Qed.
Lemma u32_range x : is_u32 (u32 x).
Proof. apply Z.mod_pos_bound. lia. Qed.
Lemma u64_range x : is_u64 (u64 x).
Proof. apply Z.mod_pos_bound. lia. Qed.
Lemma u8_id x : is_u8 x → u8 x = x.
Proof. apply Z.mod_small. Qed.
Lemma u16_id x : is_u16 x → u16 x = x.
Proof. apply Z.mod_small. Qed.
Lemma u32_id x : is_u32 x → u32 x = x.
Proof. apply Z.mod_small. Qed.
Lemma u64_id x : is_u64 x → u64 x = x.
Proof. apply Z.mod_small. Qed.

(** * Flags in the bits of an integer

    The macros CHECK_FLAG, SET_FLAG and UNSET_FLAG of lib/zebra.h. *)

Definition CHECK_FLAG (v f : Z) : bool := negb (Z.land v f =? 0).
Definition SET_FLAG (v f : Z) : Z := Z.lor v f.
Definition UNSET_FLAG (v f : Z) : Z := Z.land v (Z.lnot f).

Lemma CHECK_FLAG_UNSET v f g : Z.land f g = 0 → CHECK_FLAG (UNSET_FLAG v f) g = CHECK_FLAG v g.
Proof.
  intros H. unfold CHECK_FLAG, UNSET_FLAG. f_equal. f_equal.
  rewrite <- Z.land_assoc. f_equal. apply Z.bits_inj'. intros n Hn.
  rewrite Z.land_spec, Z.lnot_spec by done.
  assert (E : Z.testbit (Z.land f g) n = false) by (rewrite H; apply Z.bits_0).
  rewrite Z.land_spec in E. by destruct (Z.testbit f n), (Z.testbit g n).
Qed.

Lemma CHECK_FLAG_UNSET_same v f : CHECK_FLAG (UNSET_FLAG v f) f = false.
Proof.
  unfold CHECK_FLAG, UNSET_FLAG. rewrite <- Z.land_assoc, (Z.land_comm (Z.lnot f)).
  by rewrite Z.land_lnot_diag, Z.land_0_r.
Qed.

Lemma CHECK_FLAG_SET v f g : Z.land f g = 0 → CHECK_FLAG (SET_FLAG v f) g = CHECK_FLAG v g.
Proof.
  intros H. unfold CHECK_FLAG, SET_FLAG. by rewrite Z.land_lor_distr_l, H, Z.lor_0_r.
Qed.

Lemma CHECK_FLAG_SET_same v f : f ≠ 0 → CHECK_FLAG (SET_FLAG v f) f = true.
Proof.
  intros H. unfold CHECK_FLAG, SET_FLAG. rewrite Z.land_lor_distr_l, Z.land_diag.
  destruct (_ =? 0) eqn:E; [|done]. apply Z.eqb_eq in E.
  by apply Z.lor_eq_0_iff in E as [_ ?].
Qed.

Create HintDb zebra.
#[export] Hint Resolve u8_range u16_range u32_range u64_range : zebra.

(** The values of a byte, for proofs that check all of them. *)
Definition all_bytes : list Z := seqZ 0 256.

Lemma byte_forall (P : Z → bool) :
  forallb P all_bytes = true → ∀ b, is_u8 b → P b = true.
Proof.
  rewrite forallb_forall. intros H b Hb. apply H.
  apply list_elem_of_In, elem_of_seqZ. unfold is_u8 in Hb. lia.
Qed.

(** * Tactics *)

(** Case analysis on every boolean integer comparison in the goal. *)
Ltac case_bool :=
  repeat match goal with
  | |- context [?a <? ?b] => destruct (Z.ltb_spec a b)
  | |- context [?a <=? ?b] => destruct (Z.leb_spec a b)
  | |- context [?a =? ?b] => destruct (Z.eqb_spec a b)
  | |- context [Z.gtb ?a ?b] => rewrite (Z.gtb_ltb a b)
  | |- context [Z.geb ?a ?b] => rewrite (Z.geb_leb a b)
  end; cbn [andb orb negb].

(** Turn boolean facts of the context into propositions. *)
Ltac bool_to_prop :=
  repeat match goal with
  | H : (_ && _) = true |- _ => apply andb_true_iff in H as [? ?]
  | H : (_ || _) = false |- _ => apply orb_false_iff in H as [? ?]
  | H : negb _ = true |- _ => apply negb_true_iff in H
  | H : negb _ = false |- _ => apply negb_false_iff in H
  | H : (_ <? _) = true |- _ => apply Z.ltb_lt in H
  | H : (_ <? _) = false |- _ => apply Z.ltb_ge in H
  | H : (_ <=? _) = true |- _ => apply Z.leb_le in H
  | H : (_ <=? _) = false |- _ => apply Z.leb_gt in H
  | H : (_ =? _) = true |- _ => apply Z.eqb_eq in H
  | H : (_ =? _) = false |- _ => apply Z.eqb_neq in H
  end.

(** Linear arithmetic with division and remainder by constants. *)
Ltac dm_lia := Z.to_euclidean_division_equations; lia.

(** Open up a successful monadic run in the hypothesis [H]. *)
Ltac run_in H :=
  repeat (apply res_bind_Ok in H as (? & ? & H)).

(** * Byte arrays

    An array of bytes is a list; an access outside of it is a fault. *)

Definition get_byte (a : list Z) (i : Z) : res Z :=
  if i <? 0 then Fail OutOfBounds else of_option OutOfBounds (a !! Z.to_nat i).

Definition set_byte (a : list Z) (i : Z) (b : Z) : res (list Z) :=
  if (0 <=? i) && (i <? Z.of_nat (length a))
  then Ok (<[Z.to_nat i := u8 b]> a)
  else Fail OutOfBounds.

Definition bytes_ok (a : list Z) : Prop := Forall is_u8 a.

Lemma get_byte_Ok a i b :
  get_byte a i = Ok b ↔ 0 ≤ i ∧ a !! Z.to_nat i = Some b.
Proof.
  unfold get_byte. case (Z.ltb_spec i 0); intros Hi.
  - split; [done|lia].
  - rewrite of_option_Ok. naive_solver.
Qed.

Lemma get_byte_in a i :
  0 ≤ i < Z.of_nat (length a) → ∃ b, get_byte a i = Ok b ∧ a !! Z.to_nat i = Some b.
Proof.
  intros Hi. destruct (lookup_lt_is_Some_2 a (Z.to_nat i)) as [b Hb]; [lia|].
  exists b. rewrite get_byte_Ok. split_and!; [lia|done|done].
Qed.

Lemma get_byte_out a i :
  Z.of_nat (length a) ≤ i → get_byte a i = Fail OutOfBounds.
Proof.
  intros Hi. unfold get_byte. case (Z.ltb_spec i 0); [lia|]. intros _.
  rewrite (lookup_ge_None_2 a); [done|lia].
Qed.

Lemma set_byte_in a i b :
  0 ≤ i < Z.of_nat (length a) → set_byte a i b = Ok (<[Z.to_nat i := u8 b]> a).
Proof.
  intros Hi. unfold set_byte.
  rewrite (proj2 (Z.leb_le 0 i)), (proj2 (Z.ltb_lt i _)) by lia. done.
Qed.

Lemma bytes_ok_lookup a i b : bytes_ok a → a !! i = Some b → is_u8 b.
Proof. intros Ha Hi. exact (Forall_lookup_1 _ _ _ _ Ha Hi). Qed.

Lemma bytes_ok_insert a i b : bytes_ok a → bytes_ok (<[i := u8 b]> a).
Proof. intros Ha. apply Forall_insert; [done|apply u8_range]. Qed.
#[export] Hint Resolve bytes_ok_insert : zebra.

(** Arrays of other elements. *)
Definition arr_get {A} (a : list A) (i : Z) : res A :=
  if i <? 0 then Fail OutOfBounds else of_option OutOfBounds (a !! Z.to_nat i).

Definition arr_set {A} (a : list A) (i : Z) (x : A) : res (list A) :=
  if (0 <=? i) && (i <? Z.of_nat (length a))
  then Ok (<[Z.to_nat i := x]> a)
  else Fail OutOfBounds.

Lemma arr_get_in {A} (a : list A) (i : nat) x :
  a !! i = Some x → arr_get a (Z.of_nat i) = Ok x.
Proof.
  intros H. unfold arr_get. rewrite (proj2 (Z.ltb_ge _ 0)) by lia. by rewrite Nat2Z.id, H.
Qed.

Lemma arr_set_in {A} (a : list A) (i : nat) x :
  (i < length a)%nat → arr_set a (Z.of_nat i) x = Ok (<[i := x]> a).
Proof.
  intros H. unfold arr_set.
  rewrite (proj2 (Z.leb_le 0 _)), (proj2 (Z.ltb_lt _ _)) by lia. cbn. by rewrite Nat2Z.id.
Qed.

(** Swapping one element of an array for another. *)
Lemma insert_perm {A} (l : list A) i x y :
  l !! i = Some y → y :: <[i := x]> l ≡ₚ x :: l.
Proof.
  revert i. induction l as [|z l IH]; intros [|i] H; cbn in *; simplify_eq; [apply perm_swap|].
  rewrite perm_swap, (IH i H). apply perm_swap.
Qed.

(** One element more in one of several lists. *)
Lemma concat_insert_perm {A} (ls : list (list A)) i c c' x :
  ls !! i = Some c → c' ≡ₚ x :: c → concat (<[i := c']> ls) ≡ₚ x :: concat ls.
Proof.
  revert i. induction ls as [|l ls IH]; intros [|i] Hi Hc; cbn in *; simplify_eq.
  - by rewrite Hc.
  - rewrite (IH i Hi Hc). symmetry. apply Permutation_middle.
Qed.

(** [memcpy] out of and into an array: [n] bytes from offset [off]. *)
Definition get_bytes (a : list Z) (off n : Z) : res (list Z) :=
  if (0 <=? off) && (0 <=? n) && (off + n <=? Z.of_nat (length a))
  then Ok (take (Z.to_nat n) (drop (Z.to_nat off) a))
  else Fail OutOfBounds.

Definition put_bytes (a : list Z) (off : Z) (bs : list Z) : res (list Z) :=
  if (0 <=? off) && (off + Z.of_nat (length bs) <=? Z.of_nat (length a))
  then Ok (take (Z.to_nat off) a ++ bs ++ drop (Z.to_nat off + length bs) a)
  else Fail OutOfBounds.

Lemma get_bytes_in a off n :
  0 ≤ off → 0 ≤ n → off + n ≤ Z.of_nat (length a) →
  get_bytes a off n = Ok (take (Z.to_nat n) (drop (Z.to_nat off) a)).
Proof.
  intros ???. unfold get_bytes.
  by rewrite (proj2 (Z.leb_le 0 off)), (proj2 (Z.leb_le 0 n)), (proj2 (Z.leb_le (_ + _) _)) by lia.
Qed.

Lemma put_bytes_in a off bs :
  0 ≤ off → off + Z.of_nat (length bs) ≤ Z.of_nat (length a) →
  put_bytes a off bs = Ok (take (Z.to_nat off) a ++ bs ++ drop (Z.to_nat off + length bs) a).
Proof.
  intros ??. unfold put_bytes.
  by rewrite (proj2 (Z.leb_le 0 off)), (proj2 (Z.leb_le (_ + _) _)) by lia.
Qed.

Lemma put_bytes_out a off bs :
  Z.of_nat (length a) < off + Z.of_nat (length bs) → put_bytes a off bs = Fail OutOfBounds.
Proof.
  intros ?. unfold put_bytes.
  rewrite (proj2 (Z.leb_gt (_ + _) _)) by lia. by rewrite andb_false_r.
Qed.

(** A check of every byte of a concrete array. *)
Lemma bytes_ok_decide (a : list Z) :
  forallb (λ b, (0 <=? b) && (b <? 256)) a = true → bytes_ok a.
Proof.
  rewrite forallb_forall. intros H. apply Forall_forall. intros b Hb.
  apply list_elem_of_In, H in Hb. bool_to_prop. split; lia.
Qed.

(** * Bit strings

    The bits of a byte array in network order, most significant bit first. *)

Definition byte_bits (b : Z) : list bool :=
  (λ i, Z.testbit b (7 - Z.of_nat i)) <$> seq 0 8.

Definition bits_of (a : list Z) : list bool := a ≫= byte_bits.

Lemma length_bits_of a : length (bits_of a) = (8 * length a)%nat.
Proof.
  induction a as [|b a IH]; [done|].
  unfold bits_of in *. cbn [mbind list_bind length]. rewrite length_app, IH.
  cbn. lia.
Qed.

Lemma bits_of_lookup a k :
  bits_of a !! k =
    (λ b, Z.testbit b (7 - Z.of_nat (k `mod` 8))) <$> (a !! (k `div` 8)%nat).
Proof.
  revert k. induction a as [|b a IH]; intros k.
  - unfold bits_of. cbn. by rewrite lookup_nil.
  - unfold bits_of in *. cbn [mbind list_bind].
    destruct (decide (k < 8)%nat) as [Hk|Hk].
    + rewrite lookup_app_l by (cbn; lia).
      rewrite Nat.div_small, Nat.mod_small by lia. cbn [lookup list_lookup].
      unfold byte_bits. rewrite list_lookup_fmap, lookup_seq_lt by lia. done.
    + rewrite lookup_app_r by (cbn; lia).
      change (length (byte_bits b)) with 8%nat. rewrite IH.
      assert (∃ j, k = (j + 1 * 8)%nat) as [j ->] by (exists (k - 8)%nat; lia).
      replace (j + 1 * 8 - 8)%nat with j by lia.
      rewrite Nat.div_add, Nat.Div0.mod_add by lia.
      replace (j `div` 8 + 1)%nat with (S (j `div` 8)) by lia. done.
Qed.

(** * Callbacks *)

(** What the containers rely on in a comparison callback: a total preorder, [cmp a b <= 0] for "a before b". *)
Class Comparison {A} (cmp : A → A → Z) : Prop := {
  cmp_trans a b c : cmp a b ≤ 0 → cmp b c ≤ 0 → cmp a c ≤ 0;
  cmp_flip a b : cmp a b < 0 ↔ 0 < cmp b a;
}.

(** Numbers compared by subtraction. *)
#[export] Instance Z_sub_comparison : Comparison Z.sub.
Proof. split; lia. Qed.
