(* ===== verification/Prefix.v ===== *)
(** Prefixes: lib/prefix.c and lib/prefix.h.

    A [struct prefix] is a family, a length and the bytes of the union [u]; the
    structures [prefix_ipv4] and [prefix_ipv6], which the C code casts to it and
    back, are the same record with a shorter or longer [u].  An [int] used as a
    truth value is a [bool]. *)

From Stdlib Require Import Ascii.
From stdpp Require Import strings pretty.
From S2P Require Import Prelude.

(** ** Constants of the socket headers and of lib/zebra.h *)

Definition AF_UNSPEC : Z := 0.
Definition AF_INET : Z := 2.
Definition AF_INET6 : Z := 10.
Definition AFI_IP : Z := 1.
Definition AFI_IP6 : Z := 2.

Definition IPV4_MAX_BYTELEN : Z := 4.
Definition IPV4_MAX_BITLEN : Z := 32.
Definition IPV6_MAX_BYTELEN : Z := 16.
Definition IPV6_MAX_BITLEN : Z := 128.

(** ** Data *)

Record prefix := Prefix {
  family : Z;
  prefixlen : Z;
  u : list Z;
}.

#[export] Instance prefix_eq_dec : EqDecision prefix.
Proof. solve_decision. Defined.

Definition maskbit : list Z :=
  [0x00; 0x80; 0xc0; 0xe0; 0xf0; 0xf8; 0xfc; 0xfe; 0xff].

Definition PNBBY : Z := 8.

(** ** Address families *)

Definition afi2family (afi : Z) : Z :=
  if afi =? AFI_IP then AF_INET
  else if afi =? AFI_IP6 then AF_INET6
  else 0.

Definition family2afi (family : Z) : Z :=
  if family =? AF_INET then AFI_IP
  else if family =? AF_INET6 then AFI_IP6
  else 0.

(** ** Comparisons *)

(** [while (offset--) if (np[offset] != pp[offset]) return 0; return 1;] *)
Fixpoint same_bytes (np pp : list Z) (offset : nat) : res bool :=
  match offset with
  | O => Ok true
  | S o =>
      a ← get_byte np (Z.of_nat o);
      b ← get_byte pp (Z.of_nat o);
      if a =? b then same_bytes np pp o else Ok false
  end.

(** [maskbit[shift] & (np[offset] ^ pp[offset])], tested when [shift] is not 0. *)
Definition masked_differ (np pp : list Z) (offset shift : Z) : res bool :=
  if shift =? 0 then Ok false
  else
    m ← get_byte maskbit shift;
    a ← get_byte np offset;
    b ← get_byte pp offset;
    Ok (negb (Z.land m (Z.lxor a b) =? 0)).

Definition prefix_match (n p : prefix) : res bool :=
  if prefixlen n >? prefixlen p then Ok false
  else
    let offset := prefixlen n / PNBBY in
    let shift := prefixlen n mod PNBBY in
    d ← masked_differ (u n) (u p) offset shift;
    if (d : bool) then Ok false
    else same_bytes (u n) (u p) (Z.to_nat offset).

(** The first [n] bytes of [src] over those of [dest]. *)
Definition copy_bytes (dest src : list Z) (n : nat) : list Z :=
  take n src ++ drop n dest.

Definition prefix_copy (dest src : prefix) : res prefix :=
  if family src =? AF_INET then
    Ok (Prefix (family src) (prefixlen src) (copy_bytes (u dest) (u src) 4))
  else if family src =? AF_INET6 then
    Ok (Prefix (family src) (prefixlen src) (copy_bytes (u dest) (u src) 16))
  else if family src =? AF_UNSPEC then
    Ok (Prefix (family src) (prefixlen src) (copy_bytes (u dest) (u src) 8))
  else Fail AssertFailed.

(** [memcmp (d, s, n) == 0]. *)
Definition memsame (d s : list Z) (n : nat) : bool :=
  bool_decide (take n d = take n s).

Definition prefix_same (p1 p2 : prefix) : bool :=
  if (family p1 =? family p2) && (prefixlen p1 =? prefixlen p2) then
    if (family p1 =? AF_INET) && memsame (u p1) (u p2) 4 then true
    else (family p1 =? AF_INET6) && memsame (u p1) (u p2) 16
  else false.

(** Returns 1 (here [true]) when the prefixes differ. *)
Definition prefix_cmp (p1 p2 : prefix) : res bool :=
  if negb (family p1 =? family p2) || negb (prefixlen p1 =? prefixlen p2)
  then Ok true
  else
    let offset := prefixlen p1 / 8 in
    let shift := prefixlen p1 mod 8 in
    d ← masked_differ (u p1) (u p2) offset shift;
    if (d : bool) then Ok true
    else
      s ← same_bytes (u p1) (u p2) (Z.to_nat offset);
      Ok (negb s).

Definition prefix_family_str (p : prefix) : string :=
  if family p =? AF_INET then "inet"
  else if family p =? AF_INET6 then "inet6"
  else "unspec".

Definition prefix_blen (p : prefix) : Z :=
  if family p =? AF_INET then IPV4_MAX_BYTELEN
  else if family p =? AF_INET6 then IPV6_MAX_BYTELEN
  else 0.

Definition prefix_new : prefix := Prefix 0 0 (replicate 16 0).
Definition prefix_ipv4_new : prefix := Prefix AF_INET 0 (replicate 8 0).
Definition prefix_ipv6_new : prefix := Prefix AF_INET6 0 (replicate 16 0).

(** ** Netmasks *)

(** [while (offset--) pnt[0] = 0xff, pnt++;] from position [pnt]. *)
Fixpoint fill_ff (a : list Z) (pnt : Z) (offset : nat) : res (list Z * Z) :=
  match offset with
  | O => Ok (a, pnt)
  | S o => a' ← set_byte a pnt 0xff; fill_ff a' (pnt + 1) o
  end.

Definition masklen2bytes (masklen : Z) (size : nat) : res (list Z) :=
  let offset := masklen / 8 in
  let bit := masklen mod 8 in
  '(a, pnt) ← fill_ff (replicate size 0) 0 (Z.to_nat offset);
  if bit =? 0 then Ok a
  else m ← get_byte maskbit bit; set_byte a pnt m.

Definition masklen2ip (masklen : Z) : res (list Z) := masklen2bytes masklen 4.
Definition masklen2ip6 (masklen : Z) : res (list Z) := masklen2bytes masklen 16.

(** [while (val) { len++; val <<= 1; }] with [val] and [len] of type [u_char]. *)
Fixpoint count_bits (fuel : nat) (val len : Z) : res Z :=
  if val =? 0 then Ok len
  else match fuel with
       | O => Fail OutOfFuel
       | S f => count_bits f (u8 (Z.shiftl val 1)) (u8 (len + 1))
       end.

(** [while (pnt[0] == 0xff && pnt < end) { len += 8; pnt++; }]: the byte at
    [pnt] is read before [pnt] is compared with [end]. *)
Fixpoint count_ff (fuel : nat) (a : list Z) (pnt fin len : Z) : res (Z * Z) :=
  b ← get_byte a pnt;
  if (b =? 0xff) && (pnt <? fin) then
    match fuel with
    | O => Fail OutOfFuel
    | S f => count_ff f a (pnt + 1) fin (u8 (len + 8))
    end
  else Ok (pnt, len).

Definition ip_masklen (netmask : list Z) : res Z :=
  '(pnt, len) ← count_ff 4 netmask 0 4 0;
  if pnt <? 4 then val ← get_byte netmask pnt; count_bits 8 val len
  else Ok len.

(** [while (pnt[0] == 0xff && len < 128) { len += 8; pnt++; }], [len] an [int]. *)
Fixpoint count_ff6 (fuel : nat) (a : list Z) (pnt len : Z) : res (Z * Z) :=
  b ← get_byte a pnt;
  if (b =? 0xff) && (len <? 128) then
    match fuel with
    | O => Fail OutOfFuel
    | S f => count_ff6 f a (pnt + 1) (len + 8)
    end
  else Ok (pnt, len).

Definition ip6_masklen (netmask : list Z) : res Z :=
  '(pnt, len) ← count_ff6 16 netmask 0 0;
  if len <? 128 then val ← get_byte netmask pnt; count_bits 8 val len
  else Ok len.

(** [while (index < limit) pnt[index++] = 0;] *)
Fixpoint clear_bytes (fuel : nat) (a : list Z) (index limit : Z) : res (list Z) :=
  if index <? limit then
    match fuel with
    | O => Fail OutOfFuel
    | S f => a' ← set_byte a index 0; clear_bytes f a' (index + 1) limit
    end
  else Ok a.

(** The common body of [apply_mask_ipv4] (4 bytes) and [apply_mask_ipv6] (16). *)
Definition mask_bytes (a : list Z) (len limit : Z) : res (list Z) :=
  let index := len / 8 in
  if index <? limit then
    let offset := len mod 8 in
    b ← get_byte a index;
    m ← get_byte maskbit offset;
    a' ← set_byte a index (Z.land b m);
    clear_bytes (Z.to_nat limit) a' (index + 1) limit
  else Ok a.

Definition apply_mask_ipv4 (p : prefix) : res prefix :=
  a ← mask_bytes (u p) (prefixlen p) 4;
  Ok (Prefix (family p) (prefixlen p) a).

Definition apply_mask_ipv6 (p : prefix) : res prefix :=
  a ← mask_bytes (u p) (prefixlen p) 16;
  Ok (Prefix (family p) (prefixlen p) a).

Definition apply_mask (p : prefix) : res prefix :=
  if family p =? AF_INET then apply_mask_ipv4 p
  else if family p =? AF_INET6 then apply_mask_ipv6 p
  else Ok p.

(** [ntohl] of an address kept in network byte order. *)
Definition ntohl (a : list Z) : Z :=
  match a with
  | b0 :: b1 :: b2 :: b3 :: _ =>
      Z.lor (Z.shiftl b0 24) (Z.lor (Z.shiftl b1 16) (Z.lor (Z.shiftl b2 8) b3))
  | _ => 0
  end.

(** Macros of <netinet/in.h>. *)
Definition IN_CLASSA (a : Z) : bool := Z.land a 0x80000000 =? 0.
Definition IN_CLASSB (a : Z) : bool := Z.land a 0xc0000000 =? 0x80000000.
Definition IN_CLASSC (a : Z) : bool := Z.land a 0xe0000000 =? 0xc0000000.

Definition prefix_ipv4_any (p : prefix) : bool :=
  (ntohl (u p) =? 0) && (prefixlen p =? 0).

Definition apply_classful_mask_ipv4 (p : prefix) : res prefix :=
  let destination := ntohl (u p) in
  if prefixlen p =? 32 then Ok p
  else if IN_CLASSC destination then apply_mask_ipv4 (Prefix (family p) 24 (u p))
  else if IN_CLASSB destination then apply_mask_ipv4 (Prefix (family p) 16 (u p))
  else apply_mask_ipv4 (Prefix (family p) 8 (u p)).

(** ** Socket addresses

    The members of [union sockunion] the conversions read. *)

Record sockunion := Sockunion {
  sa_family : Z;
  sin_addr : list Z;
  sin6_addr : list Z;
}.

Definition sockunion2prefix (dest mask : sockunion) : res (option prefix) :=
  if sa_family dest =? AF_INET then
    len ← ip_masklen (sin_addr mask);
    Ok (Some (Prefix AF_INET len (copy_bytes (u prefix_ipv4_new) (sin_addr dest) 4)))
  else if sa_family dest =? AF_INET6 then
    len ← ip6_masklen (sin6_addr mask);
    Ok (Some (Prefix AF_INET6 (u8 len)
                (copy_bytes (u prefix_ipv6_new) (sin6_addr dest) 16)))
  else Ok None.

Definition sockunion2hostprefix (su : sockunion) : option prefix :=
  if sa_family su =? AF_INET then
    Some (Prefix AF_INET IPV4_MAX_BITLEN
            (copy_bytes (u prefix_ipv4_new) (sin_addr su) 4))
  else if sa_family su =? AF_INET6 then
    Some (Prefix AF_INET6 IPV6_MAX_BITLEN
            (copy_bytes (u prefix_ipv6_new) (sin6_addr su) 16))
  else None.

(** ** Strings *)

Definition isdigit (c : ascii) : bool :=
  let n := Z.of_nat (nat_of_ascii c) in (48 <=? n) && (n <=? 57).

Definition isspace (c : ascii) : bool :=
  let n := Z.of_nat (nat_of_ascii c) in (n =? 32) || ((9 <=? n) && (n <=? 13)).

Fixpoint all_digit (str : string) : bool :=
  match str with
  | EmptyString => true
  | String c str' => if isdigit c then all_digit str' else false
  end.

(** [strchr (str, '/')]: the text before and after the first slash. *)
Fixpoint split_slash (str : string) : option (string * string) :=
  match str with
  | EmptyString => None
  | String c str' =>
      if bool_decide (c = "/"%char) then Some (EmptyString, str')
      else prod_map (String c) id <$> split_slash str'
  end.

(** [atoi] of the C library: white space, a sign, decimal digits. *)
Fixpoint digits_value (acc : Z) (s : string) : Z :=
  match s with
  | EmptyString => acc
  | String c s' =>
      if isdigit c then digits_value (acc * 10 + (Z.of_nat (nat_of_ascii c) - 48)) s'
      else acc
  end.

Fixpoint atoi (s : string) : Z :=
  match s with
  | EmptyString => 0
  | String c s' =>
      if isspace c then atoi s'
      else if bool_decide (c = "-"%char) then - digits_value 0 s'
      else if bool_decide (c = "+"%char) then digits_value 0 s'
      else digits_value 0 s
  end.

(** [strcmp], byte by byte. *)
Fixpoint strcmp (s1 s2 : string) : Z :=
  match s1, s2 with
  | EmptyString, EmptyString => 0
  | EmptyString, String _ _ => -1
  | String _ _, EmptyString => 1
  | String c1 s1, String c2 s2 =>
      let d := Z.of_nat (nat_of_ascii c1) - Z.of_nat (nat_of_ascii c2) in
      if d =? 0 then strcmp s1 s2 else d
  end.

(** The address parsers and printers are the C library's: [inet_aton] and
    [inet_pton] give the bytes of a valid address, [inet_ntop] its text. *)
Section Strings.
Context (inet_aton : string → option (list Z)).
Context (inet_pton6 : string → option (list Z)).
Context (inet_ntop : Z → list Z → string).

(** The return value (0 or not) and the structure [*p] afterwards, which is
    written in part on some of the paths that return 0. *)
Definition str2prefix_ipv4 (str : string) (p : prefix) : bool * prefix :=
  match split_slash str with
  | None =>
      match inet_aton str with
      | None => (false, p)
      | Some a => (true, Prefix AF_INET IPV4_MAX_BITLEN (copy_bytes (u p) a 4))
      end
  | Some (cp, pnt) =>
      let ret := inet_aton cp in
      let a := match ret with Some a => copy_bytes (u p) a 4 | None => u p end in
      let plen := u8 (atoi pnt) in
      if plen >? 32 then (false, Prefix (family p) (prefixlen p) a)
      else (bool_decide (is_Some ret), Prefix AF_INET plen a)
  end.

Definition str2prefix_ipv6 (str : string) (p : prefix) : bool * prefix :=
  match split_slash str with
  | None =>
      match inet_pton6 str with
      | None => (false, p)
      | Some a => (true, Prefix AF_INET6 IPV6_MAX_BITLEN (copy_bytes (u p) a 16))
      end
  | Some (cp, pnt) =>
      match inet_pton6 cp with
      | None => (false, p)
      | Some a =>
          let plen := u8 (atoi pnt) in
          if plen >? 128
          then (false, Prefix (family p) (prefixlen p) (copy_bytes (u p) a 16))
          else (true, Prefix AF_INET6 plen (copy_bytes (u p) a 16))
      end
  end.

Definition str2prefix (str : string) (p : prefix) : bool * prefix :=
  let '(ret, p1) := str2prefix_ipv4 str p in
  if ret then (ret, p1)
  else
    let '(ret, p2) := str2prefix_ipv6 str p1 in
    if ret then (ret, p2) else (false, p2).

(** [snprintf (str, size, ...)] keeps at most [size - 1] characters. *)
Definition prefix2str (p : prefix) (size : nat) : string :=
  String.substring 0 (size - 1)
    (inet_ntop (family p) (u p) +:+ "/" +:+ pretty (prefixlen p)).

Definition netmask_str2prefix_str (net_str : string) (mask_str : option string)
    : res (option string) :=
  match inet_aton net_str with
  | None => Ok None
  | Some network =>
      let put (prefixlen : Z) := Some (net_str +:+ "/" +:+ pretty prefixlen) in
      match mask_str with
      | Some ms =>
          match inet_aton ms with
          | None => Ok None
          | Some mask => len ← ip_masklen mask; Ok (put len)
          end
      | None =>
          let destination := ntohl network in
          Ok (if destination =? 0 then put 0
              else if IN_CLASSC destination then put 24
              else if IN_CLASSB destination then put 16
              else if IN_CLASSA destination then put 8
              else None)
      end
  end.
End Strings.

(** * Bits of a prefix *)

(** The significant bits of a prefix: what it denotes as a set of addresses. *)
Definition pbits (p : prefix) : list bool :=
  take (Z.to_nat (prefixlen p)) (bits_of (u p)).

(** A prefix whose length fits its address. *)
Definition prefix_wf (p : prefix) : Prop :=
  bytes_ok (u p) ∧ 0 ≤ prefixlen p ≤ 8 * Z.of_nat (length (u p)).

Lemma length_pbits p : prefix_wf p → length (pbits p) = Z.to_nat (prefixlen p).
Proof. intros [_ ?]. unfold pbits. rewrite length_take, length_bits_of. lia. Qed.

Lemma take_eq_lookup {A} (l1 l2 : list A) n :
  (n ≤ length l1)%nat → (n ≤ length l2)%nat →
  take n l1 = take n l2 ↔ ∀ k, (k < n)%nat → l1 !! k = l2 !! k.
Proof.
  intros H1 H2. split.
  - intros Heq k Hk. rewrite <-(lookup_take_lt l1 n k), <-(lookup_take_lt l2 n k) by lia.
    by rewrite Heq.
  - intros Heq. apply list_eq. intros k. destruct (decide (k < n)%nat).
    + rewrite !lookup_take_lt by lia. auto.
    + rewrite !lookup_take_ge by lia. done.
Qed.

(** Two bytes with the same bits are equal. *)
Lemma byte_bits_inj a b :
  is_u8 a → is_u8 b →
  (∀ i, (i < 8)%nat → Z.testbit a (7 - Z.of_nat i) = Z.testbit b (7 - Z.of_nat i)) →
  a = b.
Proof.
  intros Ha Hb Heq. apply Z.bits_inj_iff'. intros n Hn.
  destruct (decide (n < 8)) as [Hlt|Hge].
  - specialize (Heq (Z.to_nat (7 - n))).
    replace (7 - Z.of_nat (Z.to_nat (7 - n))) with n in Heq by lia.
    apply Heq. lia.
  - unfold is_u8 in *.
    rewrite <-(Z.mod_small a (2^8)), <-(Z.mod_small b (2^8)) by lia.
    rewrite !Z.mod_pow2_bits_high by lia. done.
Qed.

(** The check behind [maskbit[shift] & (a ^ b)]. *)
Lemma maskbit_lookup s m b :
  (s ≤ 8)%nat → is_u8 b → maskbit !! s = Some m →
  (Z.land m b =? 0) = forallb (λ i, negb (Z.testbit b (7 - Z.of_nat i))) (seq 0 s).
Proof.
  intros Hs Hb Hm.
  assert (forallb (λ b, forallb (λ s,
    match maskbit !! s with
    | None => true
    | Some m => eqb (Z.land m b =? 0)
                    (forallb (λ i, negb (Z.testbit b (7 - Z.of_nat i))) (seq 0 s))
    end) (seq 0 9)) all_bytes = true) as Hall by (vm_compute; reflexivity).
  pose proof (byte_forall _ Hall b Hb) as Hb'. cbv beta in Hb'.
  rewrite forallb_forall in Hb'. specialize (Hb' s). rewrite Hm in Hb'.
  apply eqb_prop, Hb', in_seq. lia.
Qed.

Lemma lxor_u8 a b : is_u8 a → is_u8 b → is_u8 (Z.lxor a b).
Proof.
  unfold is_u8. intros Ha Hb.
  assert (0 ≤ Z.lxor a b) by (apply Z.lxor_nonneg; lia).
  split; [done|]. destruct (Z.eq_dec (Z.lxor a b) 0) as [->|Hne]; [lia|].
  apply Z.log2_lt_pow2; [lia|].
  eapply Z.le_lt_trans; [apply Z.log2_lxor; lia|].
  apply Z.max_lub_lt.
  - destruct (Z.eq_dec a 0) as [->|]; [done|]. apply Z.log2_lt_pow2; lia.
  - destruct (Z.eq_dec b 0) as [->|]; [done|]. apply Z.log2_lt_pow2; lia.
Qed.

Lemma masked_same_bits s m a b :
  (s ≤ 8)%nat → is_u8 a → is_u8 b → maskbit !! s = Some m →
  Z.land m (Z.lxor a b) = 0 ↔
  ∀ i, (i < s)%nat → Z.testbit a (7 - Z.of_nat i) = Z.testbit b (7 - Z.of_nat i).
Proof.
  intros Hs Ha Hb Hm. rewrite <-Z.eqb_eq.
  rewrite (maskbit_lookup s m _ Hs (lxor_u8 _ _ Ha Hb) Hm), forallb_forall.
  split; intros H i Hi.
  - specialize (H i (proj2 (in_seq _ _ _) (conj (Nat.le_0_l _) Hi))).
    rewrite Z.lxor_spec in H. by destruct (Z.testbit a _), (Z.testbit b _).
  - apply in_seq in Hi. rewrite Z.lxor_spec, H by lia. by rewrite xorb_nilpotent.
Qed.

(** Splitting bit strings at a byte boundary. *)
Lemma bits_take_iff a1 a2 o s :
  bytes_ok a1 → bytes_ok a2 → (s < 8)%nat →
  (8 * o + s ≤ 8 * length a1)%nat → (8 * o + s ≤ 8 * length a2)%nat →
  take (8 * o + s) (bits_of a1) = take (8 * o + s) (bits_of a2) ↔
  take o a1 = take o a2 ∧
  ∀ i, (i < s)%nat → bits_of a1 !! (8 * o + i)%nat = bits_of a2 !! (8 * o + i)%nat.
Proof.
  intros Ha1 Ha2 Hs H1 H2.
  rewrite !take_eq_lookup by (rewrite ?length_bits_of; lia).
  split.
  - intros Heq. split; [|intros i Hi; apply Heq; lia].
    intros k Hk.
    destruct (lookup_lt_is_Some_2 a1 k) as [x Hx]; [lia|].
    destruct (lookup_lt_is_Some_2 a2 k) as [y Hy]; [lia|].
    rewrite Hx, Hy. f_equal.
    apply byte_bits_inj; [eauto using bytes_ok_lookup..|].
    intros i Hi. specialize (Heq (k * 8 + i)%nat).
    rewrite !bits_of_lookup in Heq.
    rewrite Nat.div_add_l, (Nat.div_small i 8), Nat.add_0_r in Heq by lia.
    rewrite Nat.add_comm, Nat.Div0.mod_add, Nat.mod_small in Heq by lia.
    rewrite Hx, Hy in Heq. cbn in Heq.
    assert (Some (Z.testbit x (7 - Z.of_nat i)) = Some (Z.testbit y (7 - Z.of_nat i)))
      by (apply Heq; lia). by simplify_eq.
  - intros [Hb Ht] k Hk. destruct (decide (k < 8 * o)%nat) as [Hlt|Hge].
    + rewrite !bits_of_lookup, Hb; [done|]. apply Nat.Div0.div_lt_upper_bound; lia.
    + replace k with (8 * o + (k - 8 * o))%nat by lia. apply Ht. lia.
Qed.

(** ** Loops of the comparison functions *)

Lemma same_bytes_spec np pp o :
  (o ≤ length np)%nat → (o ≤ length pp)%nat →
  same_bytes np pp o = Ok (bool_decide (take o np = take o pp)).
Proof.
  induction o as [|o IH]; intros Hn Hp; cbn [same_bytes].
  - by rewrite bool_decide_eq_true_2.
  - destruct (get_byte_in np (Z.of_nat o)) as (a & -> & Ha); [lia|].
    destruct (get_byte_in pp (Z.of_nat o)) as (b & -> & Hb); [lia|].
    rewrite Nat2Z.id in Ha, Hb. cbn [mbind res_bind].
    rewrite (take_S_r np o a Ha), (take_S_r pp o b Hb).
    destruct (Z.eqb_spec a b) as [->|Hne].
    + rewrite IH by lia. f_equal. apply bool_decide_ext.
      split; [by intros ->|]. intros Heq.
      by apply app_inj_2 in Heq as [? _].
    + f_equal. symmetry. apply bool_decide_eq_false_2. intros Heq.
      apply app_inj_2 in Heq as [_ ?]; [|done]. by simplify_eq.
Qed.

Lemma masked_differ_spec np pp o s :
  bytes_ok np → bytes_ok pp → 0 ≤ o → 0 ≤ s < 8 →
  8 * o + s ≤ 8 * Z.of_nat (length np) → 8 * o + s ≤ 8 * Z.of_nat (length pp) →
  ∃ d, masked_differ np pp o s = Ok d ∧
    (d = false ↔ ∀ i, (i < Z.to_nat s)%nat →
      bits_of np !! (8 * Z.to_nat o + i)%nat = bits_of pp !! (8 * Z.to_nat o + i)%nat).
Proof.
  intros Hn Hp Ho Hs H1 H2. unfold masked_differ.
  destruct (Z.eqb_spec s 0) as [->|Hs0].
  { exists false. split; [done|]. split; [intros _ i Hi; lia|done]. }
  destruct (get_byte_in maskbit s) as (m & -> & Hm); [cbn; lia|].
  destruct (get_byte_in np o) as (a & -> & Ha); [lia|].
  destruct (get_byte_in pp o) as (b & -> & Hb); [lia|].
  eexists. split; [reflexivity|].
  rewrite negb_false_iff, Z.eqb_eq.
  rewrite (masked_same_bits (Z.to_nat s) m a b);
    [|lia|eauto using bytes_ok_lookup..|done].
  assert (∀ l x i, (i < 8)%nat → l !! Z.to_nat o = Some x →
    bits_of l !! (8 * Z.to_nat o + i)%nat = Some (Z.testbit x (7 - Z.of_nat i))) as Hbit.
  { intros l x i Hi Hx. rewrite bits_of_lookup.
    rewrite (Nat.mul_comm 8), Nat.div_add_l, (Nat.div_small i 8), Nat.add_0_r by lia.
    rewrite (Nat.add_comm _ i), Nat.Div0.mod_add, Nat.mod_small by lia.
    by rewrite Hx. }
  split; intros H i Hi.
  - rewrite (Hbit np a), (Hbit pp b) by (done || lia). by rewrite H.
  - specialize (H i Hi). rewrite (Hbit np a), (Hbit pp b) in H by (done || lia).
    by simplify_eq.
Qed.

(** The two steps of the comparison at the first [len] bits of two addresses. *)
Lemma compare_bits_spec a1 a2 len :
  bytes_ok a1 → bytes_ok a2 → 0 ≤ len →
  len ≤ 8 * Z.of_nat (length a1) → len ≤ 8 * Z.of_nat (length a2) →
  ∃ d, masked_differ a1 a2 (len / 8) (len mod 8) = Ok d ∧
    same_bytes a1 a2 (Z.to_nat (len / 8)) =
      Ok (bool_decide (take (Z.to_nat (len / 8)) a1 = take (Z.to_nat (len / 8)) a2)) ∧
    (take (Z.to_nat len) (bits_of a1) = take (Z.to_nat len) (bits_of a2) ↔
     d = false ∧ take (Z.to_nat (len / 8)) a1 = take (Z.to_nat (len / 8)) a2).
Proof.
  intros Ha1 Ha2 Hlen H1 H2.
  pose proof (Z.div_mod len 8 ltac:(lia)) as Hdm.
  pose proof (Z.mod_pos_bound len 8 ltac:(lia)) as Hm.
  assert (0 ≤ len / 8) as Hd by (apply Z.div_pos; lia).
  destruct (masked_differ_spec a1 a2 (len / 8) (len mod 8)) as (d & -> & Hiff);
    [done|done|lia..|].
  exists d. split; [done|]. rewrite same_bytes_spec by lia. split; [done|].
  replace (Z.to_nat len) with (8 * Z.to_nat (len / 8) + Z.to_nat (len mod 8))%nat by lia.
  rewrite bits_take_iff by (done || lia). rewrite Hiff. tauto.
Qed.

Lemma pbits_prefix_of n p :
  prefix_wf n → prefix_wf p → prefixlen n ≤ prefixlen p →
  pbits n `prefix_of` pbits p ↔
  take (Z.to_nat (prefixlen n)) (bits_of (u n)) =
  take (Z.to_nat (prefixlen n)) (bits_of (u p)).
Proof.
  intros Hn Hp Hle. unfold pbits. split.
  - intros [k Hk].
    apply (f_equal (take (Z.to_nat (prefixlen n)))) in Hk.
    rewrite take_take, Nat.min_l in Hk by lia. rewrite Hk.
    rewrite take_app_le.
    + by rewrite take_take, Nat.min_id.
    + destruct Hn as [_ ?]. rewrite length_take, length_bits_of. lia.
  - intros ->. exists (drop (Z.to_nat (prefixlen n)) (take (Z.to_nat (prefixlen p)) (bits_of (u p)))).
    rewrite <-(take_drop (Z.to_nat (prefixlen n)) (take _ _)) at 1.
    by rewrite take_take, Nat.min_l by lia.
Qed.

Lemma prefix_match_pbits n p :
  prefix_wf n → prefix_wf p →
  prefix_match n p = Ok (bool_decide (pbits n `prefix_of` pbits p)).
Proof.
  intros Hn Hp. unfold prefix_match. rewrite Z.gtb_ltb.
  destruct (Z.ltb_spec (prefixlen p) (prefixlen n)) as [Hlt|Hle].
  - f_equal. symmetry. apply bool_decide_eq_false_2. intros Hpre.
    apply prefix_length in Hpre. rewrite !length_pbits in Hpre by done.
    destruct Hn, Hp. lia.
  - destruct (Hn) as [Hbn ?], (Hp) as [Hbp ?].
    destruct (compare_bits_spec (u n) (u p) (prefixlen n)) as (d & Hd & Hs & Hiff); [done|done|lia..|].
    unfold PNBBY. rewrite Hd. cbn [mbind res_bind]. rewrite Hs.
    destruct d; f_equal; symmetry.
    + apply bool_decide_eq_false_2. rewrite pbits_prefix_of, Hiff by done. naive_solver.
    + apply bool_decide_ext. rewrite pbits_prefix_of, Hiff by done. naive_solver.
Qed.

(** ** Masks *)

Lemma clear_bytes_spec fuel a index limit :
  0 ≤ index → limit ≤ Z.of_nat (length a) → limit - index ≤ Z.of_nat fuel →
  clear_bytes fuel a index limit =
    Ok (take (Z.to_nat index) a ++
        replicate (Z.to_nat limit - Z.to_nat index) 0 ++
        drop (Z.to_nat index `max` Z.to_nat limit) a).
Proof.
  revert a index. induction fuel as [|fuel IH]; intros a index Hi Hl Hf; cbn [clear_bytes].
  - destruct (Z.ltb_spec index limit); [lia|].
    replace (Z.to_nat limit - Z.to_nat index)%nat with 0%nat by lia.
    rewrite Nat.max_l by lia. cbn. by rewrite take_drop.
  - destruct (Z.ltb_spec index limit) as [Hlt|Hge].
    + rewrite set_byte_in by lia. cbn [mbind res_bind]. rewrite IH by (rewrite ?length_insert; lia).
      f_equal. change (u8 0) with 0. replace (Z.to_nat (index + 1)) with (S (Z.to_nat index)) by lia.
      rewrite (take_S_r _ _ 0) by (apply list_lookup_insert_eq; lia).
      rewrite take_insert_ge by lia. rewrite drop_insert_lt by lia.
      replace (Z.to_nat limit - Z.to_nat index)%nat
        with (S (Z.to_nat limit - S (Z.to_nat index))) by lia.
      cbn [replicate]. rewrite <-app_assoc. cbn.
      by rewrite !Nat.max_r by lia.
    + replace (Z.to_nat limit - Z.to_nat index)%nat with 0%nat by lia.
      rewrite Nat.max_l by lia. cbn. by rewrite take_drop.
Qed.

Lemma land_maskbit_bits s m b i :
  is_u8 b → (s < 8)%nat → (i < 8)%nat → maskbit !! s = Some m →
  Z.testbit (Z.land b m) (7 - Z.of_nat i) =
    (if decide (i < s)%nat then Z.testbit b (7 - Z.of_nat i) else false).
Proof.
  intros Hb Hs Hi Hm. rewrite Z.land_spec.
  assert (forallb (λ s, forallb (λ i, eqb
     (match maskbit !! s with Some m => Z.testbit m (7 - Z.of_nat i) | None => false end)
     (bool_decide (i < s)%nat)) (seq 0 8)) (seq 0 8) = true) as Hall
    by (vm_compute; reflexivity).
  rewrite forallb_forall in Hall. specialize (Hall s).
  rewrite forallb_forall in Hall. specialize (Hall ltac:(apply in_seq; lia) i).
  rewrite Hm in Hall. apply eqb_prop in Hall; [|apply in_seq; lia]. rewrite Hall.
  case_decide; [rewrite bool_decide_eq_true_2 by done|rewrite bool_decide_eq_false_2 by done].
  - apply andb_true_r.
  - apply andb_false_r.
Qed.

Lemma land_u8 b m : is_u8 b → 0 ≤ m → is_u8 (Z.land b m).
Proof.
  unfold is_u8. intros Hb Hm.
  assert (0 ≤ Z.land b m) by (apply Z.land_nonneg; lia).
  split; [done|]. destruct (Z.eq_dec (Z.land b m) 0) as [->|]; [lia|].
  apply Z.log2_lt_pow2; [lia|].
  eapply Z.le_lt_trans; [apply Z.log2_land; lia|].
  eapply Z.le_lt_trans; [apply Z.le_min_l|].
  destruct (Z.eq_dec b 0) as [->|]; [done|]. apply Z.log2_lt_pow2; lia.
Qed.

Lemma maskbit_nonneg s m : maskbit !! s = Some m → 0 ≤ m.
Proof.
  assert (Forall (λ z, 0 ≤ z) maskbit) as Hpos by (repeat constructor; lia).
  exact (Forall_lookup_1 _ _ _ _ Hpos).
Qed.

Lemma land_maskbit_u8 b s m : is_u8 b → maskbit !! s = Some m → is_u8 (Z.land b m).
Proof. intros. apply land_u8; [done|by eapply maskbit_nonneg]. Qed.

Lemma mask_bytes_lookup a len limit :
  bytes_ok a → 0 ≤ len → limit ≤ Z.of_nat (length a) → len / 8 < limit →
  ∃ a' b m, mask_bytes a len limit = Ok a' ∧
    a !! Z.to_nat (len / 8) = Some b ∧ maskbit !! Z.to_nat (len mod 8) = Some m ∧
    length a' = length a ∧
    ∀ j, a' !! j =
      if decide (j < Z.to_nat (len / 8))%nat then a !! j
      else if decide (j = Z.to_nat (len / 8)) then Some (Z.land b m)
      else if decide (j < Z.to_nat limit)%nat then Some 0
      else a !! j.
Proof.
  intros Ha Hlen Hl Hi. unfold mask_bytes.
  pose proof (Z.mod_pos_bound len 8 ltac:(lia)) as Hmod.
  assert (0 ≤ len / 8) as Hd by (apply Z.div_pos; lia).
  destruct (Z.ltb_spec (len / 8) limit); [|lia].
  destruct (get_byte_in a (len / 8)) as (b & -> & Hb); [lia|].
  destruct (get_byte_in maskbit (len mod 8)) as (m & -> & Hm); [cbn; lia|].
  cbn [mbind res_bind]. rewrite set_byte_in by lia. cbn [mbind res_bind].
  rewrite clear_bytes_spec by (rewrite ?length_insert; lia).
  assert (u8 (Z.land b m) = Z.land b m) as ->.
  { eapply u8_id, land_maskbit_u8; eauto using bytes_ok_lookup. }
  eexists _, b, m. split_and!; [reflexivity|done|done| |].
  { rewrite !length_app, length_take, length_replicate, length_drop, length_insert. lia. }
  intros j. replace (Z.to_nat (len / 8 + 1)) with (S (Z.to_nat (len / 8))) by lia.
  set (k := Z.to_nat (len / 8)) in *.
  rewrite Nat.max_r by lia. rewrite drop_insert_lt by lia.
  destruct (decide (j < S k)%nat) as [Hj|Hj].
  - rewrite lookup_app_l by (rewrite length_take, length_insert; lia).
    rewrite lookup_take_lt by lia.
    repeat case_decide; try lia.
    + rewrite list_lookup_insert_ne by lia. done.
    + subst j. rewrite list_lookup_insert_eq by lia. done.
  - rewrite lookup_app_r by (rewrite length_take, length_insert; lia).
    rewrite length_take, length_insert, Nat.min_l by lia.
    repeat case_decide; try lia.
    + rewrite lookup_app_l by (rewrite length_replicate; lia).
      apply lookup_replicate. split; [done|lia].
    + rewrite lookup_app_r by (rewrite length_replicate; lia).
      rewrite length_replicate, lookup_drop. f_equal. lia.
Qed.

(** Masking keeps the first [len] bits, clears the other bits of the address and
    leaves what follows the address alone. *)
Lemma mask_bytes_bits a len limit :
  bytes_ok a → 0 ≤ len ≤ 8 * limit → limit ≤ Z.of_nat (length a) →
  ∃ a', mask_bytes a len limit = Ok a' ∧ bytes_ok a' ∧ length a' = length a ∧
    (∀ k, (k < Z.to_nat len)%nat → bits_of a' !! k = bits_of a !! k) ∧
    (∀ k, (Z.to_nat len ≤ k < 8 * Z.to_nat limit)%nat → bits_of a' !! k = Some false).
Proof.
  intros Ha Hlen Hl.
  pose proof (Z.div_mod len 8 ltac:(lia)) as Hdm.
  pose proof (Z.mod_pos_bound len 8 ltac:(lia)) as Hmod.
  assert (0 ≤ len / 8) as Hd by (apply Z.div_pos; lia).
  destruct (decide (len / 8 < limit)) as [Hi|Hi].
  - destruct (mask_bytes_lookup a len limit) as (a' & b & m & -> & Hb & Hm & Hlen' & Hlk); [done|lia..|].
    exists a'. split_and!; [done| |done| |].
    + apply Forall_lookup_2. intros j x. rewrite Hlk.
      repeat case_decide; intros Hx; simplify_eq; eauto using bytes_ok_lookup.
      * eapply land_maskbit_u8; eauto using bytes_ok_lookup.
      * unfold is_u8; lia.
    + intros k Hk. rewrite !bits_of_lookup, Hlk.
      pose proof (Nat.div_mod_eq k 8). pose proof (Nat.mod_upper_bound k 8 ltac:(lia)).
      case_decide as Hj; [done|]. case_decide as He; [|lia].
      rewrite He, Hb. cbn. f_equal.
      rewrite (land_maskbit_bits (Z.to_nat (len mod 8))) by (eauto using bytes_ok_lookup || lia).
      rewrite decide_True by lia. done.
    + intros k Hk. rewrite !bits_of_lookup, Hlk.
      pose proof (Nat.div_mod_eq k 8). pose proof (Nat.mod_upper_bound k 8 ltac:(lia)).
      case_decide as Hj; [exfalso; lia|]. case_decide as He.
      * cbn. f_equal.
        rewrite (land_maskbit_bits (Z.to_nat (len mod 8))) by (eauto using bytes_ok_lookup || lia).
        rewrite decide_False by lia. done.
      * rewrite decide_True by (apply Nat.Div0.div_lt_upper_bound; lia). cbn. by rewrite Z.testbit_0_l.
  - exists a. unfold mask_bytes. destruct (Z.ltb_spec (len / 8) limit); [lia|].
    split_and!; [done..|]. intros k Hk. lia.
Qed.

(** The octets of an IPv4 address. *)
Definition ipv4_ok (addr : list Z) : Prop := bytes_ok addr ∧ length addr = 4%nat.

(** A prefix of one of the two address families, with its whole union. *)
Definition af_bytes (f : Z) : Z := if f =? AF_INET then 4 else 16.

Definition prefix_af (p : prefix) : Prop :=
  (family p = AF_INET ∨ family p = AF_INET6) ∧ bytes_ok (u p) ∧
  0 ≤ prefixlen p ≤ 8 * af_bytes (family p) ∧
  af_bytes (family p) ≤ Z.of_nat (length (u p)).

Lemma prefix_af_wf p : prefix_af p → prefix_wf p.
Proof. intros (? & ? & ? & ?). split; [done|lia]. Qed.

Lemma apply_mask_eq p :
  prefix_af p →
  apply_mask p =
    (a ← mask_bytes (u p) (prefixlen p) (af_bytes (family p));
     Ok (Prefix (family p) (prefixlen p) a)).
Proof.
  intros ([Hf|Hf] & _). all: unfold apply_mask, apply_mask_ipv4, apply_mask_ipv6, af_bytes.
  all: rewrite Hf; reflexivity.
Qed.
#[export] Hint Resolve prefix_af_wf : zebra.

(** What [apply_mask] does to a prefix: nothing but clear its host bits. *)
Lemma apply_mask_spec p :
  prefix_af p →
  ∃ q, apply_mask p = Ok q ∧ prefix_af q ∧ family q = family p ∧
    prefixlen q = prefixlen p ∧ length (u q) = length (u p) ∧ pbits q = pbits p ∧
    (∀ k, (Z.to_nat (prefixlen p) ≤ k < 8 * Z.to_nat (af_bytes (family p)))%nat →
      bits_of (u q) !! k = Some false).
Proof.
  intros Hp. rewrite apply_mask_eq by done. destruct Hp as (Hf & Hb & Hlen & Hu).
  destruct (mask_bytes_bits (u p) (prefixlen p) (af_bytes (family p)))
    as (a' & -> & Hok & Hl & Hlow & Hhigh); [done|lia|lia|].
  eexists. split; [reflexivity|]. unfold prefix_af, pbits. cbn [family prefixlen u].
  rewrite Hl. split_and!; try done; try lia.
  apply take_eq_lookup; rewrite ?length_bits_of, ?Hl; try lia. done.
Qed.

(** Addresses with the same significant bits and no host bits are the same. *)
Lemma masked_same q1 q2 :
  prefix_af q1 → prefix_af q2 → family q1 = family q2 → prefixlen q1 = prefixlen q2 →
  (∀ k, (Z.to_nat (prefixlen q1) ≤ k < 8 * Z.to_nat (af_bytes (family q1)))%nat →
      bits_of (u q1) !! k = bits_of (u q2) !! k) →
  pbits q1 = pbits q2 ↔
  take (Z.to_nat (af_bytes (family q1))) (u q1) = take (Z.to_nat (af_bytes (family q1))) (u q2).
Proof.
  intros (Hf1 & Hb1 & Hl1 & Hu1) (Hf2 & Hb2 & Hl2 & Hu2) Hf Hl Hhost.
  rewrite <-Hf, <-Hl in *.
  pose proof (bits_take_iff (u q1) (u q2) (Z.to_nat (af_bytes (family q1))) 0) as Hiff.
  rewrite !Nat.add_0_r in Hiff.
  transitivity (take (8 * Z.to_nat (af_bytes (family q1))) (bits_of (u q1)) =
                take (8 * Z.to_nat (af_bytes (family q1))) (bits_of (u q2))).
  - unfold pbits. rewrite <-Hl.
    rewrite !take_eq_lookup by (rewrite length_bits_of; lia). split; [|naive_solver lia].
    intros H k Hk. destruct (decide (k < Z.to_nat (prefixlen q1))%nat); [auto|].
    apply Hhost. lia.
  - rewrite Hiff by (done || lia). split; [naive_solver|]. intros ?. split; [done|lia].
Qed.

Lemma prefix_same_af p1 p2 :
  prefix_af p1 →
  prefix_same p1 p2 = true ↔
  family p1 = family p2 ∧ prefixlen p1 = prefixlen p2 ∧
  take (Z.to_nat (af_bytes (family p1))) (u p1) = take (Z.to_nat (af_bytes (family p1))) (u p2).
Proof.
  intros (Hf & _). unfold prefix_same, memsame, af_bytes.
  destruct (Z.eqb_spec (family p1) (family p2)), (Z.eqb_spec (prefixlen p1) (prefixlen p2));
    cbn [andb]; try (split; [done|tauto]).
  destruct Hf as [Hf|Hf]; rewrite Hf in *; cbn; case_bool_decide; cbn;
    (split; [try done|]); intros; done || tauto.
Qed.

Lemma prefix_cmp_pbits p1 p2 :
  prefix_wf p1 → prefix_wf p2 →
  prefix_cmp p1 p2 =
    Ok (negb (bool_decide (family p1 = family p2 ∧ prefixlen p1 = prefixlen p2 ∧
                           pbits p1 = pbits p2))).
Proof.
  intros [Hb1 Hl1] [Hb2 Hl2]. unfold prefix_cmp.
  destruct (Z.eqb_spec (family p1) (family p2)), (Z.eqb_spec (prefixlen p1) (prefixlen p2));
    cbn [negb orb];
    try (rewrite bool_decide_eq_false_2 by naive_solver; reflexivity).
  destruct (compare_bits_spec (u p1) (u p2) (prefixlen p1)) as (d & -> & -> & Hiff);
    [done|done|lia..|].
  cbn [mbind res_bind].
  assert (pbits p1 = pbits p2 ↔ d = false ∧
    take (Z.to_nat (prefixlen p1 / 8)) (u p1) = take (Z.to_nat (prefixlen p1 / 8)) (u p2)) as Hpb
    by (unfold pbits; by rewrite <-e0).
  destruct d; f_equal.
  - rewrite bool_decide_eq_false_2; [done|]. rewrite Hpb. naive_solver.
  - f_equal. apply bool_decide_ext. rewrite Hpb. naive_solver.
Qed.

(** * Properties *)

(** The addresses of [w] bits that a prefix covers. *)
Definition covers (p : prefix) (w : nat) (addr : list bool) : Prop :=
  length addr = w ∧ pbits p `prefix_of` addr.

Lemma covers_subset n p w :
  prefix_wf n → prefix_wf p →
  prefixlen n ≤ Z.of_nat w → prefixlen p ≤ Z.of_nat w →
  pbits n `prefix_of` pbits p ↔ ∀ addr, covers p w addr → covers n w addr.
Proof.
  intros Hn Hp Hwn Hwp. split.
  - intros Hnp addr [Hl Hpa]. split; [done|]. by etransitivity.
  - intros Hall.
    pose proof (length_pbits n Hn) as Hln. pose proof (length_pbits p Hp) as Hlp.
    assert (∀ b, pbits n `prefix_of`
      pbits p ++ replicate (w - Z.to_nat (prefixlen p)) b) as Hb.
    { intros b. apply Hall. split; [|by apply prefix_app_r].
      rewrite length_app, length_replicate, Hlp. lia. }
    destruct (decide (length (pbits n) ≤ length (pbits p))%nat) as [Hle|Hgt].
    + destruct (prefix_weak_total (pbits n) (pbits p) _ (Hb true)) as [?|Hpn];
        [by apply prefix_app_r|done|].
      by rewrite (prefix_length_eq _ _ Hpn) by lia.
    + destruct (Hb true) as [k1 Hk1], (Hb false) as [k2 Hk2]. exfalso.
      assert (∀ b k, pbits p ++ replicate (w - Z.to_nat (prefixlen p)) b = pbits n ++ k →
        pbits n !! length (pbits p) = Some b) as Hx.
      { intros b k Hk. rewrite <-(lookup_app_l (pbits n) k) by lia. rewrite <-Hk.
        rewrite lookup_app_r, Nat.sub_diag by lia. apply lookup_replicate. split; [done|lia]. }
      pose proof (Hx _ _ Hk1) as E1. rewrite (Hx _ _ Hk2) in E1. done.
Qed.

(** C31: prefix_match (n, p) never faults on well-formed prefixes and returns 1
    exactly when every address covered by [p] is covered by [n]. *)
Theorem prefix_match_covers n p w :
  prefix_wf n → prefix_wf p →
  prefixlen n ≤ Z.of_nat w → prefixlen p ≤ Z.of_nat w →
  ∃ b, prefix_match n p = Ok b ∧
    (b = true ↔ ∀ addr, covers p w addr → covers n w addr).
Proof.
  intros. eexists. split; [by apply prefix_match_pbits|].
  rewrite bool_decide_eq_true. by apply covers_subset.
Qed.

Definition ex_10_8 : prefix := Prefix AF_INET 8 [10; 0; 0; 0].
Definition ex_10_1_16 : prefix := Prefix AF_INET 16 [10; 1; 2; 3].

Ltac solve_prefix_wf :=
  split; [repeat constructor; unfold is_u8; cbn; lia|cbn; lia].

Lemma prefix_match_covers_witness :
  ∃ b, prefix_match ex_10_8 ex_10_1_16 = Ok b ∧
    (b = true ↔ ∀ addr, covers ex_10_1_16 32 addr → covers ex_10_8 32 addr).
Proof.
  apply prefix_match_covers; [solve_prefix_wf|solve_prefix_wf|cbn; lia|cbn; lia].
Defined.

(** prefix_cmp returns 0 exactly when the two prefixes are the same
    (prefix_same) after apply_mask, which is what its comment promises. *)
Theorem prefix_cmp_masked_same p1 p2 :
  prefix_af p1 → prefix_af p2 →
  ∃ d q1 q2, prefix_cmp p1 p2 = Ok d ∧ apply_mask p1 = Ok q1 ∧ apply_mask p2 = Ok q2 ∧
    (d = false ↔ prefix_same q1 q2 = true).
Proof.
  intros H1 H2.
  destruct (apply_mask_spec p1 H1) as (q1 & -> & Hq1 & Hf1 & Hl1 & _ & Hb1 & Hz1).
  destruct (apply_mask_spec p2 H2) as (q2 & -> & Hq2 & Hf2 & Hl2 & _ & Hb2 & Hz2).
  rewrite prefix_cmp_pbits by auto with zebra.
  eexists _, q1, q2. split_and!; [reflexivity..|].
  rewrite negb_false_iff, bool_decide_eq_true, prefix_same_af, Hf1, Hf2, Hl1, Hl2 by done.
  split; intros (Hf & Hl & Heq); (split_and!; [done..|]).
  - rewrite <-Hf1. apply masked_same; [done|done|congruence..| |congruence].
    rewrite Hl1, Hf1. intros k Hk. rewrite Hz1, Hz2 by (rewrite <-?Hf, <-?Hl; lia). done.
  - rewrite <-Hb1, <-Hb2. apply masked_same; [done|done|congruence..| |by rewrite Hf1].
    rewrite Hl1, Hf1. intros k Hk. rewrite Hz1, Hz2 by (rewrite <-?Hf, <-?Hl; lia). done.
Qed.

Lemma prefix_cmp_masked_same_witness :
  ∃ d q1 q2, prefix_cmp ex_10_8 ex_10_1_16 = Ok d ∧
    apply_mask ex_10_8 = Ok q1 ∧ apply_mask ex_10_1_16 = Ok q2 ∧
    (d = false ↔ prefix_same q1 q2 = true).
Proof.
  apply prefix_cmp_masked_same;
    (split_and!; [by left|repeat constructor; unfold is_u8; cbn; lia|cbn; lia..]).
Defined.

(** apply_mask succeeds on every IPv4 and IPv6 prefix, keeps its family, its
    length and the set of addresses it covers, clears every host bit, and
    applying it again changes nothing. *)
Theorem apply_mask_canonical p :
  prefix_af p →
  ∃ q, apply_mask p = Ok q ∧ family q = family p ∧ prefixlen q = prefixlen p ∧
    (∀ w addr, covers q w addr ↔ covers p w addr) ∧
    (∀ k, (Z.to_nat (prefixlen p) ≤ k < 8 * Z.to_nat (af_bytes (family p)))%nat →
      bits_of (u q) !! k = Some false) ∧
    apply_mask q = Ok q.
Proof.
  intros Hp.
  destruct (apply_mask_spec p Hp) as (q & -> & Hq & Hf & Hl & Hlu & Hb & Hz).
  exists q. split_and!; try done.
  { intros w addr. unfold covers. by rewrite Hb. }
  destruct (Hq) as (_ & Hbq & Hlq & Huq).
  rewrite apply_mask_eq by done.
  destruct (mask_bytes_bits (u q) (prefixlen q) (af_bytes (family q)))
    as (a' & Ha' & Hok & Hl' & Hlow & Hhigh); [done|lia|lia|].
  rewrite Ha'. cbn. f_equal.
  enough (a' = u q) as -> by (by destruct q).
  destruct (decide (prefixlen q / 8 < af_bytes (family q))) as [Hi|Hi].
  - destruct (mask_bytes_lookup (u q) (prefixlen q) (af_bytes (family q)))
      as (a'' & b & m & Ha'' & _ & _ & _ & Hlk); [done|lia..|].
    rewrite Ha' in Ha''. injection Ha'' as <-.
    assert (take (Z.to_nat (af_bytes (family q))) a' =
            take (Z.to_nat (af_bytes (family q))) (u q)) as Ht.
    { pose proof (bits_take_iff a' (u q) (Z.to_nat (af_bytes (family q))) 0) as Hiff.
      rewrite !Nat.add_0_r in Hiff. apply (Hiff Hok Hbq ltac:(lia) ltac:(lia) ltac:(lia)).
      apply take_eq_lookup; [rewrite length_bits_of; lia..|].
      intros k Hk. destruct (decide (k < Z.to_nat (prefixlen q))%nat); [auto|].
      rewrite Hhigh by lia. symmetry. apply Hz. rewrite <-Hf, <-Hl. lia. }
    apply list_eq. intros j. destruct (decide (j < Z.to_nat (af_bytes (family q)))%nat).
    + rewrite take_eq_lookup in Ht by lia. auto.
    + assert (0 ≤ prefixlen q / 8) by (apply Z.div_pos; lia).
      rewrite Hlk, !decide_False by lia. done.
  - unfold mask_bytes in Ha'. destruct (Z.ltb_spec (prefixlen q / 8) (af_bytes (family q))); [lia|].
    congruence.
Qed.

Lemma apply_mask_canonical_witness :
  ∃ q, apply_mask ex_10_1_16 = Ok q ∧ family q = AF_INET ∧ prefixlen q = 16 ∧
    (∀ w addr, covers q w addr ↔ covers ex_10_1_16 w addr) ∧
    (∀ k, (16 ≤ k < 32)%nat → bits_of (u q) !! k = Some false) ∧
    apply_mask q = Ok q.
Proof.
  apply (apply_mask_canonical ex_10_1_16).
  split_and!; [by left|repeat constructor; unfold is_u8; cbn; lia|cbn; lia..].
Defined.

(** ** Netmask round trip *)

#[export] Instance res_eq_dec `{EqDecision A} : EqDecision (res A).
Proof. solve_decision. Defined.

Definition masklen_check (w : nat) (of_len : Z → res (list Z)) (to_len : list Z → res Z)
    (n : nat) : bool :=
  match of_len (Z.of_nat n) with
  | Ok m =>
      bool_decide (bits_of m = replicate n true ++ replicate (w - n) false) &&
      bool_decide (to_len m = if decide (n = w) then Fail OutOfBounds else Ok (Z.of_nat n))
  | Fail _ => false
  end.

Lemma masklen_check_all w of_len to_len :
  forallb (masklen_check w of_len to_len) (seq 0 (S w)) = true →
  ∀ n, 0 ≤ n ≤ Z.of_nat w →
  ∃ m, of_len n = Ok m ∧
    bits_of m = replicate (Z.to_nat n) true ++ replicate (w - Z.to_nat n) false ∧
    to_len m = if decide (n = Z.of_nat w) then Fail OutOfBounds else Ok n.
Proof.
  rewrite forallb_forall. intros Hall n Hn. specialize (Hall (Z.to_nat n)).
  unfold masklen_check in Hall. rewrite Z2Nat.id in Hall by lia.
  destruct (of_len n) as [m|e]; [|by discriminate Hall; apply in_seq; lia].
  exists m. apply andb_true_iff in Hall as [H1 H2]; [|apply in_seq; lia].
  apply bool_decide_eq_true in H1, H2. split_and!; [done|done|].
  rewrite H2. repeat case_decide; done || lia.
Qed.

(** For every length 0..32 masklen2ip builds the mask of that many leading
    ones, and ip_masklen reads the length back from it for every length below
    32; on 255.255.255.255 ip_masklen reads the byte after the address, because
    its loop tests the byte before the bound. *)
Theorem masklen2ip_roundtrip n :
  0 ≤ n ≤ 32 →
  ∃ m, masklen2ip n = Ok m ∧
    bits_of m = replicate (Z.to_nat n) true ++ replicate (32 - Z.to_nat n) false ∧
    ip_masklen m = if decide (n = 32) then Fail OutOfBounds else Ok n.
Proof. apply (masklen_check_all 32 masklen2ip ip_masklen). vm_compute. reflexivity. Qed.

Lemma masklen2ip_roundtrip_witness :
  ∃ m, masklen2ip 20 = Ok m ∧
    bits_of m = replicate 20 true ++ replicate 12 false ∧ ip_masklen m = Ok 20.
Proof. apply (masklen2ip_roundtrip 20). lia. Defined.

(** The same for IPv6 masks of 0..128 bits: masklen2ip6 and ip6_masklen are
    inverse below 128 bits, and the mask of 128 bits makes ip6_masklen read past
    the address. *)
Theorem masklen2ip6_roundtrip n :
  0 ≤ n ≤ 128 →
  ∃ m, masklen2ip6 n = Ok m ∧
    bits_of m = replicate (Z.to_nat n) true ++ replicate (128 - Z.to_nat n) false ∧
    ip6_masklen m = if decide (n = 128) then Fail OutOfBounds else Ok n.
Proof. apply (masklen_check_all 128 masklen2ip6 ip6_masklen). vm_compute. reflexivity. Qed.

Lemma masklen2ip6_roundtrip_witness :
  ∃ m, masklen2ip6 64 = Ok m ∧
    bits_of m = replicate 64 true ++ replicate 64 false ∧ ip6_masklen m = Ok 64.
Proof. apply (masklen2ip6_roundtrip 64). lia. Defined.

(** ** Text round trip *)

Lemma split_slash_app s t :
  split_slash s = None → split_slash (s +:+ String "/"%char t) = Some (s, t).
Proof.
  induction s as [|c s IH]; [done|].
  change (String c s +:+ String "/"%char t) with (String c (s +:+ String "/"%char t)).
  cbn [split_slash]. destruct (bool_decide (c = "/"%char)); [done|].
  destruct (split_slash s) eqn:E; [done|]. intros _. by rewrite IH.
Qed.

Lemma str_length_app s t :
  String.length (s +:+ t) = (String.length s + String.length t)%nat.
Proof.
  induction s as [|c s IH]; [done|].
  change (String c s +:+ t) with (String c (s +:+ t)).
  cbn [String.length]. by rewrite IH.
Qed.

Lemma substring_all s n : (String.length s ≤ n)%nat → String.substring 0 n s = s.
Proof.
  revert n. induction s as [|c s IH]; intros [|n] Hn; cbn in *; try done; try lia.
  f_equal. apply IH. lia.
Qed.

Lemma atoi_pretty n : is_u8 n → u8 (atoi (pretty n)) = n.
Proof.
  intros Hn. apply Z.eqb_eq.
  apply (byte_forall (λ n, u8 (atoi (pretty n)) =? n)); [|done].
  vm_compute. reflexivity.
Qed.

(** A prefix printed by prefix2str into a large enough buffer is read back by
    str2prefix_ipv4, for every C library whose inet_aton inverts inet_ntop and
    whose inet_ntop prints no slash. *)
Theorem prefix2str_str2prefix
    (inet_aton : string → option (list Z)) (inet_ntop : Z → list Z → string)
    (p q : prefix) (size : nat) :
  (∀ a, bytes_ok a → (4 ≤ length a)%nat →
     inet_aton (inet_ntop AF_INET a) = Some (take 4 a)) →
  (∀ a, bytes_ok a → (4 ≤ length a)%nat → split_slash (inet_ntop AF_INET a) = None) →
  prefix_af p → family p = AF_INET →
  (String.length (inet_ntop AF_INET (u p)) + 4 < size)%nat →
  str2prefix_ipv4 inet_aton (prefix2str inet_ntop p size) q =
    (true, Prefix AF_INET (prefixlen p) (copy_bytes (u q) (u p) 4)).
Proof.
  intros Haton Hslash (_ & Hok & Hlen & Hu) Hf Hsize.
  rewrite Hf in *. change (af_bytes AF_INET) with 4 in *.
  unfold str2prefix_ipv4, prefix2str. rewrite Hf.
  assert (String.length (pretty (prefixlen p)) ≤ 3)%nat as Hp3.
  { apply Nat.leb_le.
    apply (byte_forall (λ n, Nat.leb (String.length (pretty n)) 3)); [vm_compute; reflexivity|].
    unfold is_u8. lia. }
  rewrite substring_all.
  2:{ rewrite !str_length_app. cbn. lia. }
  change ("/" +:+ pretty (prefixlen p)) with (String "/"%char (pretty (prefixlen p))).
  rewrite split_slash_app by (apply Hslash; [done|lia]).
  rewrite atoi_pretty by (unfold is_u8; lia).
  rewrite Z.gtb_ltb. destruct (Z.ltb_spec 32 (prefixlen p)); [lia|].
  rewrite Haton by (done || lia). unfold copy_bytes. by rewrite take_take.
Qed.

(** A printer and a parser of dotted quads, to instantiate the theorem above. *)
Definition quad_ntop (f : Z) (a : list Z) : string :=
  match a with
  | b0 :: b1 :: b2 :: b3 :: _ =>
      pretty b0 +:+ String "."%char (pretty b1 +:+ String "."%char
        (pretty b2 +:+ String "."%char (pretty b3)))
  | _ => ""
  end.

Fixpoint split_dot (s : string) : string * option string :=
  match s with
  | EmptyString => (EmptyString, None)
  | String c s' =>
      if bool_decide (c = "."%char) then (EmptyString, Some s')
      else prod_map (String c) id (split_dot s')
  end.

Definition quad_aton (s : string) : option (list Z) :=
  match split_dot s with
  | (s0, Some r0) =>
      match split_dot r0 with
      | (s1, Some r1) =>
          match split_dot r1 with
          | (s2, Some s3) => Some [atoi s0; atoi s1; atoi s2; atoi s3]
          | _ => None
          end
      | _ => None
      end
  | _ => None
  end.

Definition octet_ok (b : Z) : bool :=
  bool_decide (split_dot (pretty b) = (pretty b, None)) &&
  bool_decide (split_slash (pretty b) = None) && (atoi (pretty b) =? b).

Lemma octet_text b :
  is_u8 b →
  split_dot (pretty b) = (pretty b, None) ∧ split_slash (pretty b) = None ∧
  atoi (pretty b) = b.
Proof.
  intros Hb. assert (octet_ok b = true) as H.
  { apply byte_forall; [vm_compute; reflexivity|done]. }
  unfold octet_ok in H. bool_to_prop.
  repeat match goal with H : bool_decide _ = true |- _ => apply bool_decide_eq_true in H end.
  done.
Qed.

Lemma split_dot_app s t :
  split_dot s = (s, None) → split_dot (s +:+ String "."%char t) = (s, Some t).
Proof.
  induction s as [|c s IH]; [done|].
  change (String c s +:+ String "."%char t) with (String c (s +:+ String "."%char t)).
  cbn [split_dot]. destruct (bool_decide (c = "."%char)); [done|].
  destruct (split_dot s) as [s' o] eqn:E. cbn. intros [= -> ->]. by rewrite IH.
Qed.

Lemma split_slash_app_None s t :
  split_slash s = None → split_slash t = None → split_slash (s +:+ t) = None.
Proof.
  induction s as [|c s IH]; [done|].
  change (String c s +:+ t) with (String c (s +:+ t)). cbn [split_slash].
  destruct (bool_decide (c = "/"%char)); [done|].
  destruct (split_slash s) eqn:E; [done|]. intros _ Ht. by rewrite IH.
Qed.

Lemma split_slash_dot s : split_slash s = None → split_slash (String "."%char s) = None.
Proof. intros Hs. cbn. by rewrite Hs. Qed.

Lemma quad_aton_ntop a :
  bytes_ok a → (4 ≤ length a)%nat → quad_aton (quad_ntop AF_INET a) = Some (take 4 a).
Proof.
  intros Ha Hl. destruct a as [|b0 [|b1 [|b2 [|b3 a]]]]; cbn in Hl; try lia.
  unfold bytes_ok in Ha. rewrite !List.Forall_cons_iff in Ha. destruct Ha as (H0 & H1 & H2 & H3 & _).
  destruct (octet_text b0 H0) as (D0 & _ & A0). destruct (octet_text b1 H1) as (D1 & _ & A1).
  destruct (octet_text b2 H2) as (D2 & _ & A2). destruct (octet_text b3 H3) as (D3 & _ & A3).
  unfold quad_aton, quad_ntop.
  rewrite (split_dot_app _ _ D0), (split_dot_app _ _ D1), (split_dot_app _ _ D2).
  by rewrite A0, A1, A2, A3.
Qed.

Lemma quad_ntop_no_slash a :
  bytes_ok a → (4 ≤ length a)%nat → split_slash (quad_ntop AF_INET a) = None.
Proof.
  intros Ha Hl. destruct a as [|b0 [|b1 [|b2 [|b3 a]]]]; cbn in Hl; try lia.
  unfold bytes_ok in Ha. rewrite !List.Forall_cons_iff in Ha. destruct Ha as (H0 & H1 & H2 & H3 & _).
  unfold quad_ntop.
  repeat first [apply split_slash_app_None | apply split_slash_dot]; by apply octet_text.
Qed.

Lemma prefix2str_str2prefix_witness :
  str2prefix_ipv4 quad_aton (prefix2str quad_ntop ex_10_1_16 51) prefix_new =
    (true, Prefix AF_INET 16 (copy_bytes (u prefix_new) [10; 1; 2; 3] 4)).
Proof.
  apply (prefix2str_str2prefix quad_aton quad_ntop ex_10_1_16 prefix_new 51).
  - exact quad_aton_ntop.
  - exact quad_ntop_no_slash.
  - split_and!; [by left|repeat constructor; unfold is_u8; cbn; lia|cbn; lia..].
  - reflexivity.
  - vm_compute. lia.
Defined.

(** A slash followed by a number above 255 is not refused: the number is
    truncated to eight bits first, so "10.0.0.0/264" is read as 10.0.0.0/8. *)
Theorem str2prefix_ipv4_truncates :
  str2prefix_ipv4 quad_aton "10.0.0.0/264" prefix_new =
  str2prefix_ipv4 quad_aton "10.0.0.0/8" prefix_new ∧
  (str2prefix_ipv4 quad_aton "10.0.0.0/264" prefix_new).1 = true.
Proof. split; vm_compute; reflexivity. Qed.
