(* ===== verification/Text.v ===== *)
(** Text: the character buffers that are filled by sprintf and strcpy, and decimal
    numbers, shared by the files that print and parse attributes.

    A string is the list of its characters without the final null. *)

From Stdlib Require Import Ascii.
From stdpp Require Import strings pretty.
From S2P Require Import Prelude Prefix.

(** The text buffer: what is written so far and the size of the block. *)
Abbreviation strbuf := (list ascii * Z)%type.

(** [str_buf[str_pnt++] = c]. *)
Definition buf_put (c : ascii) (b : strbuf) : res strbuf :=
  if Z.of_nat (length (fst b)) <? snd b then Ok (fst b ++ [c], snd b) else Fail OutOfBounds.

(** [strcpy (str_buf + str_pnt, s)] writes the characters and a null. *)
Definition buf_puts (s : list ascii) (b : strbuf) : res strbuf :=
  if Z.of_nat (length (fst b)) + Z.of_nat (length s) <? snd b
  then Ok (fst b ++ s, snd b) else Fail OutOfBounds.

(** The decimal digits of a number, as "%d" prints them. *)
Definition dec (v : Z) : list ascii := String.list_ascii_of_string (pretty v).

(** [sprintf (str_buf + str_pnt, "%d", v)]. *)
Definition buf_printf (v : Z) (b : strbuf) : res strbuf := buf_puts (dec v) b.

Lemma pretty_N_go_length k x s :
  (x < 10 ^ N.of_nat k)%N → (String.length (pretty_N_go x s) ≤ k + String.length s)%nat.
Proof.
  revert x s. induction k as [|k IH]; intros x s Hx.
  - assert (x = 0%N) as -> by (cbn in Hx; lia). by rewrite pretty_N_go_0.
  - destruct (decide (x = 0%N)) as [->|H0]; [rewrite pretty_N_go_0; lia|].
    rewrite pretty_N_go_step by lia. etransitivity; [apply IH|cbn; lia].
    apply N.Div0.div_lt_upper_bound. rewrite Nat2N.inj_succ, N.pow_succ_r in Hx by lia. lia.
Qed.

Lemma pretty_u16_length v :
  is_u16 v → (length (dec v) ≤ 5)%nat.
Proof.
  unfold dec.
  intros Hv. assert (∀ s, length (String.list_ascii_of_string s) = String.length s) as Hlen.
  { induction s; cbn; congruence. }
  rewrite Hlen. unfold is_u16 in Hv.
  destruct v as [|p|p]; [by cbn; lia| |lia].
  change (pretty (Z.pos p)) with (pretty (N.pos p)). unfold pretty, pretty_N.
  rewrite decide_False by done. etransitivity; [apply (pretty_N_go_length 5)|cbn; lia]. cbn. lia.
Qed.

Definition buf_len (b : strbuf) : Z := Z.of_nat (length (fst b)).

Lemma buf_put_ok c b : buf_len b < snd b → buf_put c b = Ok (fst b ++ [c], snd b).
Proof. intros H. unfold buf_put. by rewrite (proj2 (Z.ltb_lt _ _)) by done. Qed.

(** A write that is made under a condition takes one octet at most. *)
Lemma buf_put_if (w : bool) c b :
  buf_len b < snd b →
  ∃ b', (if w then buf_put c b else Ok b) = Ok b' ∧ snd b' = snd b ∧ buf_len b' ≤ buf_len b + 1.
Proof.
  intros H. destruct w.
  - rewrite buf_put_ok by done. eexists. split_and!; [done..|]. unfold buf_len. cbn.
    rewrite length_app. cbn. lia.
  - exists b. split_and!; [done..|lia].
Qed.

Lemma buf_puts_ok s b :
  buf_len b + Z.of_nat (length s) < snd b → buf_puts s b = Ok (fst b ++ s, snd b).
Proof. intros H. unfold buf_puts. by rewrite (proj2 (Z.ltb_lt _ _)) by done. Qed.

(** * Decimal numbers *)

Definition digit_of (c : ascii) : Z := Z.of_nat (nat_of_ascii c) - 48.

(** The value of a string of digits behind those worth [acc]. *)
Definition dec_value (acc : Z) (l : list ascii) : Z := foldl (λ a c, a * 10 + digit_of c) acc l.

Lemma digit_char (d : N) :
  (d < 10)%N → isdigit (pretty_N_char d) = true ∧ digit_of (pretty_N_char d) = Z.of_N d.
Proof.
  intros Hd. assert (d ∈ [0; 1; 2; 3; 4; 5; 6; 7; 8; 9]%N) as Hin.
  { assert (d = 0 ∨ d = 1 ∨ d = 2 ∨ d = 3 ∨ d = 4 ∨ d = 5 ∨ d = 6 ∨ d = 7 ∨ d = 8 ∨ d = 9)%N by lia.
    set_solver. }
  repeat (apply elem_of_cons in Hin as [->|Hin]; [done|]). by apply elem_of_nil in Hin.
Qed.

Lemma pretty_N_go_digits (x : N) s :
  ∃ ds, String.list_ascii_of_string (pretty_N_go x s) = ds ++ String.list_ascii_of_string s ∧
        Forall (λ c, isdigit c = true) ds ∧ dec_value 0 ds = Z.of_N x ∧ (ds = [] → x = 0%N).
Proof.
  revert s. induction x as [x IH] using (well_founded_induction N.lt_wf_0). intros s.
  destruct (decide (x = 0%N)) as [->|H0].
  { exists []. by rewrite pretty_N_go_0. }
  rewrite pretty_N_go_step by lia.
  destruct (IH (x `div` 10)%N ltac:(apply N.div_lt; lia)
    (String (pretty_N_char (x `mod` 10)) s)) as (ds & Hl & Hd & Hv & _).
  pose proof (N.mod_lt x 10 ltac:(lia)) as Hm. destruct (digit_char _ Hm) as [Hc1 Hc2].
  exists (ds ++ [pretty_N_char (x `mod` 10)]). split_and!.
  - rewrite Hl, <- app_assoc. done.
  - apply Forall_app. split; [done|]. by constructor.
  - unfold dec_value in *. rewrite foldl_app, Hv. cbn. rewrite Hc2.
    rewrite N2Z.inj_mod, N2Z.inj_div. dm_lia.
  - by destruct ds.
Qed.

(** The digits printed for a number are digits, one at least, and worth the number. *)
Lemma dec_spec v :
  0 ≤ v → dec v ≠ [] ∧ Forall (λ c, isdigit c = true) (dec v) ∧ dec_value 0 (dec v) = v.
Proof.
  intros Hv. unfold dec. destruct v as [|p|p]; [split_and!; [done|by repeat constructor|done]| |lia].
  change (pretty (Z.pos p)) with (pretty (N.pos p)). unfold pretty, pretty_N.
  rewrite decide_False by done.
  destruct (pretty_N_go_digits (N.pos p) "") as (ds & Hl & Hd & Hval & Hn).
  rewrite Hl. cbn. rewrite app_nil_r. split_and!; [|done|done]. intros ->. by specialize (Hn eq_refl).
Qed.

(** A value kept in 32 bits while it is read is right up to a multiple of 2^32. *)
Lemma dec_value_u32 l acc :
  u32 (dec_value acc l) = foldl (λ a c, u32 (u32 (a * 10) + digit_of c)) (u32 acc) l.
Proof.
  revert acc. unfold dec_value. induction l as [|c l IH]; intros acc; [done|].
  cbn. rewrite IH. f_equal. unfold u32.
  rewrite Zplus_mod_idemp_l, <- (Zplus_mod_idemp_l (acc mod 2^32 * 10)), Zmult_mod_idemp_l.
  by rewrite Zplus_mod_idemp_l.
Qed.
