(* ===== verification/Table.v ===== *)
(** The routing table: lib/table.c and lib/table.h, operations.

    A table is the pointer [top] and the heap of its nodes; a node's address is
    a [positive].  Reading a node that is not in the heap is a use after free.
    Every node of the heap belongs to the one table of the state, so the field
    [table] of the C structure is not kept, nor is [aggregate], which table.c
    never touches. *)

From S2P Require Import Prelude Prefix.

Abbreviation ptr := positive.

Record route_node (A : Type) := RouteNode {
  n_p : prefix;
  n_parent : option ptr;
  n_left : option ptr;
  n_right : option ptr;
  n_lock : Z;
  n_info : option A;
}.
Arguments RouteNode {A}.
Arguments n_p {A}.
Arguments n_parent {A}.
Arguments n_left {A}.
Arguments n_right {A}.
Arguments n_lock {A}.
Arguments n_info {A}.

Record route_table (A : Type) := RouteTable {
  top : option ptr;
  heap : gmap ptr (route_node A);
}.
Arguments RouteTable {A}.
Arguments top {A}.
Arguments heap {A}.

Section Table.
Context {A : Type}.
Implicit Types (n : route_node A) (t : route_table A).

(** ** Field updates *)

Definition set_p (q : prefix) n := RouteNode q (n_parent n) (n_left n) (n_right n) (n_lock n) (n_info n).
Definition set_parent (x : option ptr) n := RouteNode (n_p n) x (n_left n) (n_right n) (n_lock n) (n_info n).
Definition set_left (x : option ptr) n := RouteNode (n_p n) (n_parent n) x (n_right n) (n_lock n) (n_info n).
Definition set_right (x : option ptr) n := RouteNode (n_p n) (n_parent n) (n_left n) x (n_lock n) (n_info n).
Definition set_lock (x : Z) n := RouteNode (n_p n) (n_parent n) (n_left n) (n_right n) x (n_info n).
Definition set_info (x : option A) n := RouteNode (n_p n) (n_parent n) (n_left n) (n_right n) (n_lock n) x.

(** [node->link[bit]]. *)
Definition n_link n (bit : bool) : option ptr := if bit then n_right n else n_left n.
Definition set_link_field (bit : bool) (x : option ptr) n :=
  if bit then set_right x n else set_left x n.

(** ** Memory *)

Definition read_node (id : ptr) : ST (route_table A) (route_node A) := λ t,
  match heap t !! id with
  | Some n => Ok (n, t)
  | None => Fail UseAfterFree
  end.

Definition update_node (id : ptr) (f : route_node A → route_node A)
    : ST (route_table A) unit := λ t,
  match heap t !! id with
  | Some n => Ok (tt, RouteTable (top t) (<[id := f n]> (heap t)))
  | None => Fail UseAfterFree
  end.

Definition set_top (x : option ptr) : ST (route_table A) unit := λ t,
  Ok (tt, RouteTable x (heap t)).

Definition route_table_init : route_table A := RouteTable None ∅.

(** XCALLOC: a zeroed node at a fresh address. *)
Definition route_node_new : ST (route_table A) ptr := λ t,
  let id := fresh (dom (heap t)) in
  Ok (id, RouteTable (top t)
            (<[id := RouteNode prefix_new None None None 0 None]> (heap t))).

Definition route_node_set (prefix : prefix) : ST (route_table A) ptr :=
  node ← route_node_new;
  n ← read_node node;
  q ← st_lift (prefix_copy (n_p n) prefix);
  update_node node (set_p q);;
  mret node.

Definition route_node_free (node : ptr) : ST (route_table A) unit := λ t,
  match heap t !! node with
  | Some _ => Ok (tt, RouteTable (top t) (delete node (heap t)))
  | None => Fail UseAfterFree
  end.

(** ** Bits *)

(** [for (i = 0; i < p->prefixlen / 8; i++) if (np[i] == pp[i]) newp[i] = np[i];
    else break;], [k] iterations left. *)
Fixpoint common_bytes (np pp newp : list Z) (i : Z) (k : nat) : res (list Z * Z) :=
  match k with
  | O => Ok (newp, i)
  | S k' =>
      a ← get_byte np i;
      b ← get_byte pp i;
      if a =? b then
        newp' ← set_byte newp i a;
        common_bytes np pp newp' (i + 1) k'
      else Ok (newp, i)
  end.

(** [while (new->prefixlen < p->prefixlen && !(mask & diff)) { mask >>= 1;
    new->prefixlen++; }] *)
Fixpoint common_bits (fuel : nat) (newlen plen mask diff : Z) : res Z :=
  if (newlen <? plen) && (Z.land mask diff =? 0) then
    match fuel with
    | O => Fail OutOfFuel
    | S f => common_bits f (u8 (newlen + 1)) plen (Z.shiftr mask 1) diff
    end
  else Ok newlen.

Definition route_common (n p new : prefix) : res prefix :=
  '(newp, i) ← common_bytes (u n) (u p) (u new) 0 (Z.to_nat (prefixlen p / 8));
  let newlen := u8 (i * 8) in
  if newlen =? prefixlen p then Ok (Prefix (family new) newlen newp)
  else
    a ← get_byte (u n) i;
    b ← get_byte (u p) i;
    newlen' ← common_bits 8 newlen (prefixlen p) 0x80 (Z.lxor a b);
    m ← get_byte maskbit (newlen' mod 8);
    newp' ← set_byte newp i (Z.land a m);
    Ok (Prefix (family new) newlen' newp').

Definition check_bit (prefix : list Z) (prefixlen : Z) : res bool :=
  c_assert (prefixlen <=? 128);;
  let offset := prefixlen / 8 in
  let shift := 7 - prefixlen mod 8 in
  b ← get_byte prefix offset;
  Ok (Z.land (Z.shiftr b shift) 1 =? 1).

Definition set_link (node new : ptr) : ST (route_table A) unit :=
  nn ← read_node new;
  n ← read_node node;
  bit ← st_lift (check_bit (u (n_p nn)) (prefixlen (n_p n)));
  update_node node (set_link_field bit (Some new));;
  update_node new (set_parent (Some node)).

(** ** Locks *)

Definition route_lock_node (node : ptr) : ST (route_table A) ptr :=
  update_node node (λ n, set_lock (u32 (n_lock n + 1)) n);;
  mret node.

(** [route_node_delete], with the recursive call on the parent. *)
Fixpoint route_node_delete_fuel (fuel : nat) (node : ptr) : ST (route_table A) unit :=
  n ← read_node node;
  st_lift (c_assert (n_lock n =? 0));;
  st_lift (c_assert (bool_decide (n_info n = None)));;
  match n_left n, n_right n with
  | Some _, Some _ => mret tt
  | l, r =>
      let child := match l with Some _ => l | None => r end in
      let parent := n_parent n in
      match child with
      | Some c => update_node c (set_parent parent)
      | None => mret tt
      end;;
      match parent with
      | Some pa =>
          np ← read_node pa;
          (if bool_decide (n_left np = Some node)
           then update_node pa (set_left child)
           else update_node pa (set_right child))
      | None => set_top child
      end;;
      route_node_free node;;
      match parent with
      | Some pa =>
          np ← read_node pa;
          if n_lock np =? 0 then
            match fuel with
            | O => st_fail OutOfFuel
            | S f => route_node_delete_fuel f pa
            end
          else mret tt
      | None => mret tt
      end
  end.

Definition route_node_delete (node : ptr) : ST (route_table A) unit := λ t,
  route_node_delete_fuel (size (heap t)) node t.

Definition route_unlock_node (node : ptr) : ST (route_table A) unit :=
  update_node node (λ n, set_lock (u32 (n_lock n - 1)) n);;
  n ← read_node node;
  if n_lock n =? 0 then route_node_delete node else mret tt.

(** ** Walks from the top *)

(** The loop condition [node && node->p.prefixlen <= p->prefixlen &&
    prefix_match (&node->p, p)]; the node when it holds. *)
Definition walk_cond (h : gmap ptr (route_node A)) (node : option ptr) (p : prefix)
    : res (option (ptr * route_node A)) :=
  match node with
  | None => Ok None
  | Some id =>
      n ← of_option UseAfterFree (h !! id);
      if prefixlen (n_p n) <=? prefixlen p then
        m ← prefix_match (n_p n) p;
        Ok (if (m : bool) then Some (id, n) else None)
      else Ok None
  end.

Fixpoint match_loop (fuel : nat) h (node matched : option ptr) (p : prefix)
    : res (option ptr) :=
  c ← walk_cond h node p;
  match c with
  | None => Ok matched
  | Some (id, n) =>
      let matched := match n_info n with Some _ => Some id | None => matched end in
      bit ← check_bit (u p) (prefixlen (n_p n));
      match fuel with
      | O => Fail OutOfFuel
      | S f => match_loop f h (n_link n bit) matched p
      end
  end.

Definition route_node_match (p : prefix) : ST (route_table A) (option ptr) :=
  t ← st_get;
  matched ← st_lift (match_loop (size (heap t)) (heap t) (top t) None p);
  match matched with
  | Some m => id ← route_lock_node m; mret (Some id)
  | None => mret None
  end.

Definition route_node_match_ipv4 (addr : list Z) : ST (route_table A) (option ptr) :=
  route_node_match (Prefix AF_INET 32 (copy_bytes (u prefix_ipv4_new) addr 4)).

Definition route_node_match_ipv6 (addr : list Z) : ST (route_table A) (option ptr) :=
  route_node_match (Prefix AF_INET6 128 (copy_bytes (u prefix_ipv6_new) addr 16)).

Fixpoint lookup_loop (fuel : nat) h (node : option ptr) (p : prefix)
    : res (option ptr) :=
  c ← walk_cond h node p;
  match c with
  | None => Ok None
  | Some (id, n) =>
      if (prefixlen (n_p n) =? prefixlen p) && bool_decide (is_Some (n_info n))
      then Ok (Some id)
      else
        bit ← check_bit (u p) (prefixlen (n_p n));
        match fuel with
        | O => Fail OutOfFuel
        | S f => lookup_loop f h (n_link n bit) p
        end
  end.

Definition route_node_lookup (p : prefix) : ST (route_table A) (option ptr) :=
  t ← st_get;
  found ← st_lift (lookup_loop (size (heap t)) (heap t) (top t) p);
  match found with
  | Some m => id ← route_lock_node m; mret (Some id)
  | None => mret None
  end.

(** The loop of [route_node_get]: the node it returns at once ([inl]), or the
    values of [match] and [node] after the loop ([inr]). *)
Fixpoint get_loop (fuel : nat) h (node mat : option ptr) (p : prefix)
    : res (ptr + (option ptr * option ptr)) :=
  c ← walk_cond h node p;
  match c with
  | None => Ok (inr (mat, node))
  | Some (id, n) =>
      if prefixlen (n_p n) =? prefixlen p then Ok (inl id)
      else
        bit ← check_bit (u p) (prefixlen (n_p n));
        match fuel with
        | O => Fail OutOfFuel
        | S f => get_loop f h (n_link n bit) (Some id) p
        end
  end.

Definition route_node_get (p : prefix) : ST (route_table A) ptr :=
  t ← st_get;
  r ← st_lift (get_loop (size (heap t)) (heap t) (top t) None p);
  match r with
  | inl node => route_lock_node node;; mret node
  | inr (mat, None) =>
      new ← route_node_set p;
      match mat with
      | Some m => set_link m new
      | None => set_top (Some new)
      end;;
      route_lock_node new;; mret new
  | inr (mat, Some node) =>
      new ← route_node_new;
      n ← read_node node;
      nw ← read_node new;
      q ← st_lift (route_common (n_p n) p (n_p nw));
      update_node new (set_p (Prefix (family p) (prefixlen q) (u q)));;
      set_link new node;;
      match mat with
      | Some m => set_link m new
      | None => set_top (Some new)
      end;;
      (if prefixlen q =? prefixlen p then
         route_lock_node new;; mret new
       else
         new2 ← route_node_set p;
         set_link new new2;;
         route_lock_node new2;; mret new2)
  end.

(** ** Iteration *)

Definition route_top : ST (route_table A) (option ptr) :=
  t ← st_get;
  match top t with
  | None => mret None
  | Some id => route_lock_node id;; mret (Some id)
  end.

(** [while (node->parent && node != limit) ...]: the right sibling to visit
    next, on the way up.  [limit = None] is [route_next], whose loop has no
    limit. *)
Fixpoint next_up (fuel : nat) (h : gmap ptr (route_node A)) (node : ptr) (limit : option ptr)
    : res (option ptr) :=
  n ← of_option UseAfterFree (h !! node);
  match n_parent n with
  | None => Ok None
  | Some pa =>
      if bool_decide (Some node = limit) then Ok None
      else
        np ← of_option UseAfterFree (h !! pa);
        match n_right np with
        | Some r =>
            if bool_decide (n_left np = Some node) then Ok (Some r)
            else match fuel with O => Fail OutOfFuel | S f => next_up f h pa limit end
        | None =>
            match fuel with O => Fail OutOfFuel | S f => next_up f h pa limit end
        end
  end.

Definition next_node (node : ptr) (limit : option ptr) : ST (route_table A) (option ptr) :=
  n ← read_node node;
  match n_left n with
  | Some next => route_lock_node next;; route_unlock_node node;; mret (Some next)
  | None =>
      match n_right n with
      | Some next => route_lock_node next;; route_unlock_node node;; mret (Some next)
      | None =>
          t ← st_get;
          r ← st_lift (next_up (size (heap t)) (heap t) node limit);
          match r with
          | Some next => route_lock_node next;; route_unlock_node node;; mret (Some next)
          | None => route_unlock_node node;; mret None
          end
      end
  end.

Definition route_next (node : ptr) : ST (route_table A) (option ptr) :=
  next_node node None.

Definition route_next_until (node limit : ptr) : ST (route_table A) (option ptr) :=
  next_node node (Some limit).

(** ** Release of a whole table *)

Fixpoint free_loop (fuel : nat) (node : option ptr) : ST (route_table A) unit :=
  match node with
  | None => mret tt
  | Some id =>
      match fuel with
      | O => st_fail OutOfFuel
      | S f =>
          n ← read_node id;
          match n_left n, n_right n with
          | Some l, _ => free_loop f (Some l)
          | None, Some r => free_loop f (Some r)
          | None, None =>
              match n_parent n with
              | Some pa =>
                  np ← read_node pa;
                  (if bool_decide (n_left np = Some id)
                   then update_node pa (set_left None)
                   else update_node pa (set_right None));;
                  route_node_free id;;
                  free_loop f (Some pa)
              | None => route_node_free id
              end
          end
      end
  end.

(** The heap that is left; the table structure itself is released after it. *)
Definition route_table_free : ST (route_table A) unit := λ t,
  free_loop (2 * size (heap t)) (top t) t.

Definition route_table_finish : ST (route_table A) unit := route_table_free.
End Table.
