(* ===== verification/TableFacts.v ===== *)
(** The routing table: bit-level lemmas, and the tree a heap of nodes stands for.

    [check_bit] and [route_common] are related to the bits of the prefixes they
    read.  The nodes of a table form a binary tree of bit strings; [flat] lists
    the fields every node must have, and a [path] is a place inside a tree, so
    that the pointer updates of lib/table.c become updates at one place. *)

From S2P Require Import Prelude Prefix Table.

(** * Bits *)

Lemma shiftr_land_1 b s : 0 ≤ s → (Z.land (Z.shiftr b s) 1 =? 1) = Z.testbit b s.
Proof.
  intros Hs. change 1 with (Z.ones 1). rewrite Z.land_ones by lia. change (2 ^ 1) with 2.
  rewrite Zmod_odd, <-Z.bit0_odd, Z.shiftr_spec, Z.add_0_l by lia.
  by destruct (Z.testbit b s).
Qed.

Lemma check_bit_spec a len :
  0 ≤ len ≤ 128 → len < 8 * Z.of_nat (length a) →
  ∃ b, check_bit a len = Ok b ∧ bits_of a !! Z.to_nat len = Some b.
Proof.
  intros H1 H2. unfold check_bit.
  pose proof (Z.mod_pos_bound len 8 ltac:(lia)) as Hm.
  pose proof (Z.div_mod len 8 ltac:(lia)) as Hdm.
  assert (0 ≤ len / 8) as Hd by (apply Z.div_pos; lia).
  rewrite (proj2 (Z.leb_le len 128)) by lia. cbn [mbind res_bind c_assert].
  destruct (get_byte_in a (len / 8)) as (b & -> & Hb); [lia|].
  eexists. split; [reflexivity|].
  rewrite bits_of_lookup.
  replace (Z.to_nat len `div` 8)%nat with (Z.to_nat (len / 8))
    by (rewrite Z2Nat.inj_div; done || lia).
  rewrite Hb. cbn. f_equal. rewrite shiftr_land_1 by lia. f_equal.
  replace (Z.to_nat len `mod` 8)%nat with (Z.to_nat (len mod 8))
    by (rewrite Z2Nat.inj_mod; done || lia). lia.
Qed.

Lemma common_bytes_spec np pp newp i k :
  0 ≤ i → bytes_ok np →
  i + Z.of_nat k ≤ Z.of_nat (length np) → i + Z.of_nat k ≤ Z.of_nat (length pp) →
  i + Z.of_nat k ≤ Z.of_nat (length newp) →
  take (Z.to_nat i) newp = take (Z.to_nat i) np →
  take (Z.to_nat i) np = take (Z.to_nat i) pp →
  ∃ newp' i', common_bytes np pp newp i k = Ok (newp', i') ∧
    i ≤ i' ≤ i + Z.of_nat k ∧ length newp' = length newp ∧
    (bytes_ok newp → bytes_ok newp') ∧
    take (Z.to_nat i') newp' = take (Z.to_nat i') np ∧
    take (Z.to_nat i') np = take (Z.to_nat i') pp ∧
    (i' = i + Z.of_nat k ∨ np !! Z.to_nat i' ≠ pp !! Z.to_nat i').
Proof.
  revert newp i. induction k as [|k IH]; intros newp i Hi Hok H1 H2 H3 Ht1 Ht2; cbn [common_bytes].
  - exists newp, i. split_and!; try done; lia.
  - destruct (get_byte_in np i) as (a & -> & Ha); [lia|].
    destruct (get_byte_in pp i) as (b & -> & Hb); [lia|]. cbn [mbind res_bind].
    destruct (Z.eqb_spec a b) as [->|Hne].
    + rewrite set_byte_in by lia. cbn [mbind res_bind].
      rewrite u8_id by eauto using bytes_ok_lookup.
      assert (Z.to_nat (i + 1) = S (Z.to_nat i)) as HS by lia.
      edestruct (IH (<[Z.to_nat i := b]> newp) (i + 1)) as (newp' & i' & -> & Hi' & Hl & Hbo & Hx & Hy & Hz);
        rewrite ?length_insert, ?HS; try done; try lia.
      * rewrite (take_S_r _ _ b) by (apply list_lookup_insert_eq; lia).
        rewrite take_insert_ge, (take_S_r np _ b) by (done || lia). by rewrite Ht1.
      * by rewrite (take_S_r np _ b), (take_S_r pp _ b), Ht2 by done.
      * exists newp', i'. rewrite length_insert in Hl. split_and!; try done; try lia.
        { intros Hnew. apply Hbo, Forall_insert; [done|]. eauto using bytes_ok_lookup. }
        destruct Hz; [left; lia|by right].
    + exists newp, i. split_and!; try done; try lia. right. congruence.
Qed.

Lemma land_shifted_mask diff j :
  is_u8 diff → (j < 8)%nat →
  (Z.land (Z.shiftr 0x80 (Z.of_nat j)) diff =? 0) = negb (Z.testbit diff (7 - Z.of_nat j)).
Proof.
  intros Hd Hj.
  assert (forallb (λ d, forallb (λ j, eqb
    (Z.land (Z.shiftr 0x80 (Z.of_nat j)) d =? 0) (negb (Z.testbit d (7 - Z.of_nat j))))
    (seq 0 8)) all_bytes = true) as Hall by (vm_compute; reflexivity).
  pose proof (byte_forall _ Hall diff Hd) as H. cbv beta in H.
  rewrite forallb_forall in H. apply eqb_prop, H, in_seq. lia.
Qed.

Lemma zero_byte_bits diff :
  is_u8 diff → (∀ x, (x < 8)%nat → Z.testbit diff (7 - Z.of_nat x) = false) → diff = 0.
Proof.
  intros Hd H. apply byte_bits_inj; [done|unfold is_u8; lia|].
  intros i Hi. by rewrite H, Z.testbit_0_l.
Qed.

Lemma common_bits_spec fuel base plen diff j :
  0 ≤ base → base + 8 < 256 → is_u8 diff → (plen < base + 8 ∨ diff ≠ 0) →
  (j ≤ 8)%nat → (8 ≤ fuel + j)%nat → base + Z.of_nat j ≤ plen →
  (∀ x, (x < j)%nat → Z.testbit diff (7 - Z.of_nat x) = false) →
  ∃ j', common_bits fuel (base + Z.of_nat j) plen (Z.shiftr 0x80 (Z.of_nat j)) diff =
          Ok (base + Z.of_nat j') ∧ (j' < 8)%nat ∧ base + Z.of_nat j' ≤ plen ∧
    (∀ x, (x < j')%nat → Z.testbit diff (7 - Z.of_nat x) = false) ∧
    (base + Z.of_nat j' = plen ∨ Z.testbit diff (7 - Z.of_nat j') = true).
Proof.
  intros Hb0 Hb1 Hd Hpd.
  assert (∀ j, (j ≤ 8)%nat → base + Z.of_nat j < plen →
    (∀ x, (x < j)%nat → Z.testbit diff (7 - Z.of_nat x) = false) → (j < 8)%nat) as Hlt8.
  { intros k Hk Hkp Hz. destruct (decide (k = 8%nat)) as [->|]; [|lia].
    destruct Hpd as [?|Hne]; [lia|]. by destruct Hne; apply zero_byte_bits. }
  revert j. induction fuel as [|fuel IH]; intros j Hj Hf Hle Hz; cbn [common_bits].
  all: destruct (Z.ltb_spec (base + Z.of_nat j) plen) as [Hlt|Hge]; cbn [andb].
  - specialize (Hlt8 j Hj Hlt Hz). lia.
  - assert (j < 8)%nat.
    { destruct (decide (j = 8%nat)) as [->|]; [|lia]. destruct Hpd as [?|Hne]; [lia|].
      by destruct Hne; apply zero_byte_bits. }
    exists j. split_and!; try done. left. lia.
  - specialize (Hlt8 j Hj Hlt Hz). rewrite land_shifted_mask by done.
    destruct (Z.testbit diff (7 - Z.of_nat j)) eqn:Ht; cbn [negb].
    + exists j. split_and!; try done; auto.
    + rewrite u8_id by (unfold is_u8; lia).
      rewrite Z.shiftr_shiftr by lia.
      replace (base + Z.of_nat j + 1) with (base + Z.of_nat (S j)) by lia.
      replace (Z.of_nat j + 1) with (Z.of_nat (S j)) by lia.
      apply IH; try lia. intros x Hx. destruct (decide (x = j)) as [->|]; [done|]. apply Hz. lia.
  - assert (j < 8)%nat.
    { destruct (decide (j = 8%nat)) as [->|]; [|lia]. destruct Hpd as [?|Hne]; [lia|].
      by destruct Hne; apply zero_byte_bits. }
    exists j. split_and!; try done. left. lia.
Qed.

Lemma bits_of_byte a i j :
  (j < 8)%nat → bits_of a !! (8 * i + j)%nat = (λ b, Z.testbit b (7 - Z.of_nat j)) <$> a !! i.
Proof.
  intros Hj. rewrite bits_of_lookup.
  rewrite (Nat.mul_comm 8), Nat.div_add_l, (Nat.div_small j 8), Nat.add_0_r by lia.
  by rewrite (Nat.add_comm _ j), Nat.Div0.mod_add, Nat.mod_small by lia.
Qed.

(** Agreement of two addresses on the first [i] bytes and [j] more bits. *)
Lemma bits_agree a1 a2 i j x y :
  take i a1 = take i a2 → (i < length a1)%nat → (i < length a2)%nat →
  a1 !! i = Some x → a2 !! i = Some y → (j ≤ 8)%nat →
  (∀ k, (k < j)%nat → Z.testbit x (7 - Z.of_nat k) = Z.testbit y (7 - Z.of_nat k)) →
  ∀ k, (k < 8 * i + j)%nat → bits_of a1 !! k = bits_of a2 !! k.
Proof.
  intros Ht H1 H2 Hx Hy Hj Hb k Hk.
  destruct (decide (k < 8 * i)%nat) as [Hlt|Hge].
  - rewrite !bits_of_lookup. rewrite take_eq_lookup in Ht by lia.
    rewrite Ht; [done|]. apply Nat.Div0.div_lt_upper_bound. lia.
  - replace k with (8 * i + (k - 8 * i))%nat by lia.
    rewrite !bits_of_byte, Hx, Hy by lia. cbn. rewrite Hb by lia. done.
Qed.

(** What [route_common] leaves in the new node, as bits. *)
Lemma route_common_bits n p :
  bytes_ok (u n) → bytes_ok (u p) → length (u n) = 16%nat → (length (u p) ≤ 16)%nat →
  0 ≤ prefixlen p ≤ 8 * Z.of_nat (length (u p)) →
  ∃ q, route_common n p prefix_new = Ok q ∧ bytes_ok (u q) ∧ length (u q) = 16%nat ∧
    0 ≤ prefixlen q ≤ prefixlen p ∧
    (∀ k, (k < Z.to_nat (prefixlen q))%nat → bits_of (u q) !! k = bits_of (u n) !! k) ∧
    (∀ k, (k < Z.to_nat (prefixlen q))%nat → bits_of (u n) !! k = bits_of (u p) !! k) ∧
    (prefixlen q < prefixlen p →
       bits_of (u n) !! Z.to_nat (prefixlen q) ≠ bits_of (u p) !! Z.to_nat (prefixlen q)).
Proof.
  intros Hn Hp Hln Hlp Hplen. unfold route_common.
  pose proof (Z.div_mod (prefixlen p) 8 ltac:(lia)) as Hdm.
  pose proof (Z.mod_pos_bound (prefixlen p) 8 ltac:(lia)) as Hm.
  assert (0 ≤ prefixlen p / 8) as Hd by (apply Z.div_pos; lia).
  destruct (common_bytes_spec (u n) (u p) (u prefix_new) 0 (Z.to_nat (prefixlen p / 8)))
    as (newp & i & -> & Hi & Hlnew & Hbo & Ht1 & Ht2 & Hstop); [lia|done|cbn; lia..|done|done|].
  cbn [mbind res_bind]. change (length (u prefix_new)) with 16%nat in Hlnew.
  assert (bytes_ok newp) as Hok by (apply Hbo; repeat constructor; unfold is_u8; lia).
  rewrite u8_id by (unfold is_u8; lia).
  destruct (Z.eqb_spec (i * 8) (prefixlen p)) as [Heq|Hne].
  - eexists. split; [reflexivity|]. cbn [prefixlen u]. rewrite !take_eq_lookup in Ht1, Ht2 by lia.
    assert (∀ k, (k < Z.to_nat (i * 8))%nat → (k `div` 8 < Z.to_nat i)%nat) as Hdiv
      by (intros k Hk; apply Nat.Div0.div_lt_upper_bound; lia).
    split_and!; try done; try lia; intros k Hk; rewrite !bits_of_lookup.
    + by rewrite Ht1 by auto.
    + by rewrite Ht2 by auto.
  - destruct (get_byte_in (u n) i) as (a & -> & Ha); [lia|].
    destruct (get_byte_in (u p) i) as (b & -> & Hb); [lia|]. cbn [mbind res_bind].
    assert (is_u8 a) as Hua by eauto using bytes_ok_lookup.
    assert (is_u8 b) as Hub by eauto using bytes_ok_lookup.
    destruct (common_bits_spec 8 (i * 8) (prefixlen p) (Z.lxor a b) 0)
      as (j & Hj & Hj8 & Hjp & Hz & Hend); try lia.
    { by apply lxor_u8. }
    { destruct Hstop as [->|Hdiff]; [left; lia|right].
      intros Hx. apply Z.lxor_eq in Hx. subst. congruence. }
    cbn [Z.of_nat] in Hj. rewrite Z.add_0_r, Z.shiftr_0_r in Hj. rewrite Hj. cbn [mbind res_bind].
    assert (Z.to_nat ((i * 8 + Z.of_nat j) mod 8) = j) as Hmod.
    { rewrite Z.add_comm, Z.mod_add, Z.mod_small by lia. lia. }
    destruct (get_byte_in maskbit ((i * 8 + Z.of_nat j) mod 8)) as (m & -> & Hmm).
    { pose proof (Z.mod_pos_bound (i * 8 + Z.of_nat j) 8 ltac:(lia)). cbn. lia. }
    rewrite Hmod in Hmm. cbn [mbind res_bind]. rewrite set_byte_in by lia.
    cbn [mbind res_bind]. rewrite u8_id by eauto using land_maskbit_u8.
    assert (∀ k, (k < j)%nat → Z.testbit a (7 - Z.of_nat k) = Z.testbit b (7 - Z.of_nat k)) as Hab.
    { intros k Hk. specialize (Hz k Hk). rewrite Z.lxor_spec in Hz.
      by destruct (Z.testbit a _), (Z.testbit b _). }
    eexists. split; [reflexivity|]. cbn [prefixlen u].
    replace (Z.to_nat (i * 8 + Z.of_nat j)) with (8 * Z.to_nat i + j)%nat by lia.
    split_and!; try lia.
    + apply Forall_insert; eauto using land_maskbit_u8.
    + by rewrite length_insert.
    + apply (bits_agree _ _ _ _ (Z.land a m) a); rewrite ?length_insert; try lia; try done.
      * by rewrite take_insert_ge by lia.
      * apply list_lookup_insert_eq. lia.
      * intros k Hk. rewrite (land_maskbit_bits j) by (done || lia).
        by rewrite decide_True by lia.
    + apply (bits_agree _ _ _ _ a b); try lia; done.
    + intros Hlt. rewrite !bits_of_byte, Ha, Hb by lia. cbn.
      destruct Hend as [?|Hend]; [lia|]. rewrite Z.lxor_spec in Hend.
      intros [= He]. rewrite He, xorb_nilpotent in Hend. done.
Qed.

(** * Trees *)

(** The shape of a table: addresses of nodes with the bits of their prefixes. *)
Inductive tree :=
  | Leaf
  | Tree (id : ptr) (key : list bool) (l r : tree).

Definition root (x : tree) : option ptr :=
  match x with Leaf => None | Tree id _ _ _ => Some id end.

(** One step of the way from a place in a tree up to its root: the place is the
    left or the right subtree of a node, whose other subtree is given. *)
Inductive frame :=
  | FL (id : ptr) (key : list bool) (r : tree)
  | FR (id : ptr) (key : list bool) (l : tree).

Definition path := list frame.

Definition frame_id (f : frame) : ptr :=
  match f with FL id _ _ => id | FR id _ _ => id end.

Definition plug1 (f : frame) (x : tree) : tree :=
  match f with FL id k r => Tree id k x r | FR id k l => Tree id k l x end.

Fixpoint plug (c : path) (x : tree) : tree :=
  match c with [] => x | f :: c' => plug c' (plug1 f x) end.

Definition up (c : path) : option ptr := frame_id <$> head c.

(** The fields the node at [e_id] must have. *)
Record entry := Entry {
  e_id : ptr;
  e_key : list bool;
  e_parent : option ptr;
  e_left : option ptr;
  e_right : option ptr;
}.

Fixpoint flat (par : option ptr) (x : tree) : list entry :=
  match x with
  | Leaf => []
  | Tree id k l r =>
      Entry id k par (root l) (root r) :: flat (Some id) l ++ flat (Some id) r
  end.

Definition flat_frame (f : frame) (par hole : option ptr) : list entry :=
  match f with
  | FL id k r => Entry id k par hole (root r) :: flat (Some id) r
  | FR id k l => Entry id k par (root l) hole :: flat (Some id) l
  end.

Fixpoint flat_path (c : path) (hole : option ptr) : list entry :=
  match c with
  | [] => []
  | f :: c' => flat_frame f (up c') hole ++ flat_path c' (Some (frame_id f))
  end.

Definition ids (es : list entry) : list ptr := e_id <$> es.

Lemma flat_plug1 par f x :
  flat par (plug1 f x) ≡ₚ flat (Some (frame_id f)) x ++ flat_frame f par (root x).
Proof.
  destruct f as [id k r|id k l]; cbn.
  - rewrite <-Permutation_middle. constructor. done.
  - rewrite <-Permutation_middle. constructor. apply Permutation_app_comm.
Qed.

Lemma root_plug1 f x : root (plug1 f x) = Some (frame_id f).
Proof. by destruct f. Qed.

Lemma flat_plug c x : flat None (plug c x) ≡ₚ flat (up c) x ++ flat_path c (root x).
Proof.
  revert x. induction c as [|f c IH]; intros x; cbn [plug flat_path].
  - by rewrite app_nil_r.
  - rewrite IH, flat_plug1, root_plug1. by rewrite app_assoc.
Qed.

(** The order of a radix tree: below a node are the keys that extend it, on the
    side of their next bit. *)
Fixpoint keyed (pre : list bool) (x : tree) : Prop :=
  match x with
  | Leaf => True
  | Tree _ k l r => pre `prefix_of` k ∧ keyed (k ++ [false]) l ∧ keyed (k ++ [true]) r
  end.

Definition hole_pre (c : path) : list bool :=
  match c with
  | [] => []
  | FL _ k _ :: _ => k ++ [false]
  | FR _ k _ :: _ => k ++ [true]
  end.

Fixpoint keyed_path (c : path) : Prop :=
  match c with
  | [] => True
  | FL _ k r :: c' => hole_pre c' `prefix_of` k ∧ keyed (k ++ [true]) r ∧ keyed_path c'
  | FR _ k l :: c' => hole_pre c' `prefix_of` k ∧ keyed (k ++ [false]) l ∧ keyed_path c'
  end.

Lemma keyed_plug c x : keyed [] (plug c x) ↔ keyed_path c ∧ keyed (hole_pre c) x.
Proof.
  revert x. induction c as [|[id k r|id k l] c IH]; intros x; cbn [plug keyed_path hole_pre].
  - naive_solver.
  - rewrite IH. cbn. naive_solver.
  - rewrite IH. cbn. naive_solver.
Qed.

Lemma keyed_weaken pre pre' x : pre' `prefix_of` pre → keyed pre x → keyed pre' x.
Proof.
  destruct x as [|id k l r]; cbn; [done|]. intros Hp (Hk & Hl & Hr).
  split_and!; try done. by etransitivity.
Qed.

Lemma keyed_root pre id k l r : keyed pre (Tree id k l r) → pre `prefix_of` k.
Proof. by intros [? _]. Qed.

(** All keys of a tree extend its bound. *)
Lemma keyed_elem pre par x e : keyed pre x → e ∈ flat par x → pre `prefix_of` e_key e.
Proof.
  revert pre par. induction x as [|id k l IHl r IHr]; intros pre par Hx He; cbn in *.
  { by apply not_elem_of_nil in He. }
  destruct Hx as (Hk & Hl & Hr). apply elem_of_cons in He as [->|He]; [done|].
  apply elem_of_app in He as [He|He].
  - etransitivity; [exact Hk|]. etransitivity; [|by eapply IHl]. by apply prefix_app_r.
  - etransitivity; [exact Hk|]. etransitivity; [|by eapply IHr]. by apply prefix_app_r.
Qed.
