(* ===== verification/TableRep.v ===== *)
(** The routing table: the invariant of its heap.

    [rep t x]: the heap of [t] holds exactly the nodes of the tree [x], linked
    as [x] says, and the keys of [x] are in radix order.  [locks t]: a node that
    nobody holds carries no information and has two children. *)

From S2P Require Import Prelude Prefix Table TableFacts.

Section Rep.
Context {A : Type}.
Implicit Types (t : route_table A) (n : route_node A) (h : gmap ptr (route_node A)).

Definition node_ok n (e : entry) : Prop :=
  pbits (n_p n) = e_key e ∧ n_parent n = e_parent e ∧
  n_left n = e_left e ∧ n_right n = e_right e ∧
  prefix_wf (n_p n) ∧ length (u (n_p n)) = 16%nat.

Definition entry_ok h (e : entry) : Prop := ∃ n, h !! e_id e = Some n ∧ node_ok n e.

Record rep t (x : tree) : Prop := Rep {
  rep_top : top t = root x;
  rep_entries : Forall (entry_ok (heap t)) (flat None x);
  rep_nodup : NoDup (ids (flat None x));
  rep_dom : ∀ id, is_Some (heap t !! id) → id ∈ ids (flat None x);
  rep_keyed : keyed [] x;
}.

Definition lock_ok n : Prop :=
  is_u32 (n_lock n) ∧
  (n_lock n = 0 → n_info n = None ∧ is_Some (n_left n) ∧ is_Some (n_right n)).

Definition locks t : Prop := ∀ id n, heap t !! id = Some n → lock_ok n.

Definition table_inv t : Prop := (∃ x, rep t x) ∧ locks t.

(** ** Entries *)

Lemma entry_ok_same h h' es :
  Forall (entry_ok h) es → (∀ id, id ∈ ids es → h' !! id = h !! id) →
  Forall (entry_ok h') es.
Proof.
  rewrite !Forall_forall. intros Hes Heq e He.
  destruct (Hes e He) as (n & Hn & Hok). exists n. split; [|done].
  rewrite Heq; [done|]. apply list_elem_of_fmap. eauto.
Qed.

Lemma ids_perm es es' : es ≡ₚ es' → ids es ≡ₚ ids es'.
Proof. intros H. unfold ids. by rewrite H. Qed.

Lemma ids_app es es' : ids (es ++ es') = ids es ++ ids es'.
Proof. apply fmap_app. Qed.

Definition path_ids (c : path) : list ptr := ids (flat_path c None).

Lemma ids_flat_path c hole : ids (flat_path c hole) = path_ids c.
Proof. unfold path_ids. destruct c as [|[] c]; reflexivity. Qed.

Lemma ids_flat par x : ids (flat par x) = ids (flat None x).
Proof. by destruct x. Qed.

Lemma ids_plug c x : ids (flat None (plug c x)) ≡ₚ ids (flat None x) ++ path_ids c.
Proof. rewrite (ids_perm _ _ (flat_plug c x)), ids_app, ids_flat_path, ids_flat. done. Qed.

Lemma length_path_ids c : (length c ≤ length (path_ids c))%nat.
Proof.
  induction c as [|f c IH]; [cbn; lia|].
  unfold path_ids in *. cbn [flat_path]. rewrite ids_app, length_app.
  rewrite ids_flat_path. unfold path_ids. destruct f; cbn; lia.
Qed.

Lemma root_plug c x x' :
  root (plug c x') = if decide (c = []) then root x' else root (plug c x).
Proof.
  revert x x'. induction c as [|f c IH]; intros x x'; cbn [plug]; [done|].
  rewrite decide_False by done. rewrite (IH (plug1 f x)), !root_plug1.
  case_decide; subst; cbn; [by rewrite root_plug1|done].
Qed.

(** ** Reading nodes under [rep] *)

Lemma rep_path t c x :
  rep t (plug c x) →
  Forall (entry_ok (heap t)) (flat (up c) x) ∧
  Forall (entry_ok (heap t)) (flat_path c (root x)) ∧
  NoDup (ids (flat None x)) ∧ NoDup (path_ids c) ∧
  (∀ id, id ∈ ids (flat None x) → id ∉ path_ids c) ∧
  keyed_path c ∧ keyed (hole_pre c) x.
Proof.
  intros H. destruct H as [_ He Hn _ Hk].
  rewrite flat_plug in He. apply Forall_app in He as [He1 He2].
  rewrite (ids_plug c x) in Hn. apply NoDup_app in Hn as (Hn1 & Hd & Hn2).
  apply keyed_plug in Hk as [Hk1 Hk2]. split_and!; done.
Qed.

Lemma rep_node t c id k l r :
  rep t (plug c (Tree id k l r)) →
  ∃ n, heap t !! id = Some n ∧ node_ok n (Entry id k (up c) (root l) (root r)).
Proof.
  intros H. destruct (rep_path _ _ _ H) as (He & _).
  cbn in He. apply Forall_cons_1 in He as [He _]. exact He.
Qed.

Lemma rep_size t x : rep t x → size (heap t) = length (ids (flat None x)).
Proof.
  intros H. rewrite <-size_dom.
  assert (dom (heap t) = list_to_set (ids (flat None x))) as ->.
  { apply set_eq. intros id. rewrite elem_of_dom, elem_of_list_to_set. split.
    - apply (rep_dom _ _ H).
    - intros (e & -> & He)%list_elem_of_fmap. pose proof (rep_entries _ _ H) as Hf.
      rewrite Forall_forall in Hf. destruct (Hf e He) as (n & Hn & _). eauto. }
  rewrite size_list_to_set; [done|]. apply (rep_nodup _ _ H).
Qed.

Lemma rep_depth t c id k l r :
  rep t (plug c (Tree id k l r)) → (length c < size (heap t))%nat.
Proof.
  intros H. rewrite (rep_size _ _ H), (Permutation_length (ids_plug _ _)).
  rewrite length_app. cbn. pose proof (length_path_ids c). lia.
Qed.

(** Every node of the heap is somewhere in the tree. *)
Lemma plug_locate x par e :
  e ∈ flat par x →
  ∃ c l r, x = plug c (Tree (e_id e) (e_key e) l r) ∧
    e_left e = root l ∧ e_right e = root r ∧
    e_parent e = match c with [] => par | f :: _ => Some (frame_id f) end.
Proof.
  revert par. induction x as [|id k l IHl r IHr]; intros par He; cbn in He.
  { by apply not_elem_of_nil in He. }
  apply elem_of_cons in He as [->|He]; [by exists [], l, r|].
  apply elem_of_app in He as [He|He].
  - destruct (IHl _ He) as (c & l' & r' & Hx & Hl & Hr & Hp).
    exists (c ++ [FL id k r]), l', r'. rewrite Hx. split_and!; try done.
    + clear. generalize (Tree (e_id e) (e_key e) l' r').
      induction c as [|f c IH]; intros x; cbn; [done|]. by rewrite <-IH.
    + rewrite Hp. by destruct c.
  - destruct (IHr _ He) as (c & l' & r' & Hx & Hl & Hr & Hp).
    exists (c ++ [FR id k l]), l', r'. rewrite Hx. split_and!; try done.
    + clear. generalize (Tree (e_id e) (e_key e) l' r').
      induction c as [|f c IH]; intros x; cbn; [done|]. by rewrite <-IH.
    + rewrite Hp. by destruct c.
Qed.

Lemma rep_locate t x id n :
  rep t x → heap t !! id = Some n →
  ∃ c l r, x = plug c (Tree id (pbits (n_p n)) l r).
Proof.
  intros H Hn. assert (id ∈ ids (flat None x)) as Hid by (apply (rep_dom _ _ H); eauto).
  apply list_elem_of_fmap in Hid as (e & -> & He).
  pose proof (rep_entries _ _ H) as Hf. rewrite Forall_forall in Hf.
  destruct (Hf e He) as (n' & Hn' & Hk & _). simplify_eq.
  destruct (plug_locate _ _ _ He) as (c & l & r & Hx & _).
  exists c, l, r. by rewrite Hk.
Qed.

(** ** Replacing the subtree at a place *)

Definition frame_entry (f : frame) (par hole : option ptr) : entry :=
  match f with
  | FL id k r => Entry id k par hole (root r)
  | FR id k l => Entry id k par (root l) hole
  end.

Definition frame_rest (f : frame) : list entry :=
  match f with
  | FL id _ r => flat (Some id) r
  | FR id _ l => flat (Some id) l
  end.

Lemma flat_path_cons f c hole :
  flat_path (f :: c) hole =
    frame_entry f (up c) hole :: frame_rest f ++ flat_path c (Some (frame_id f)).
Proof. by destruct f. Qed.

Lemma path_ids_cons f c : path_ids (f :: c) = frame_id f :: ids (frame_rest f) ++ path_ids c.
Proof.
  unfold path_ids. rewrite flat_path_cons. cbn. rewrite ids_app, ids_flat_path.
  by destruct f.
Qed.

Lemma rep_replace t t' c x x' :
  rep t (plug c x) →
  top t' = (if decide (c = []) then root x' else top t) →
  Forall (entry_ok (heap t')) (flat (up c) x') →
  (∀ f c0, c = f :: c0 → entry_ok (heap t') (frame_entry f (up c0) (root x'))) →
  (∀ id, id ∈ path_ids c → Some id ≠ up c → heap t' !! id = heap t !! id) →
  NoDup (ids (flat None x')) →
  (∀ id, id ∈ ids (flat None x') → id ∉ path_ids c) →
  (∀ id, is_Some (heap t' !! id) →
     id ∈ ids (flat None x') ∨ (is_Some (heap t !! id) ∧ id ∉ ids (flat None x))) →
  keyed (hole_pre c) x' →
  rep t' (plug c x').
Proof.
  intros H Htop Hx' Hf Hsame Hnd Hdisj Hdom Hk.
  destruct (rep_path _ _ _ H) as (_ & Hpath & Hnx & Hnp & _ & Hkp & _).
  split.
  - rewrite (root_plug c x x'), Htop, (rep_top _ _ H). done.
  - rewrite flat_plug. apply Forall_app. split; [done|].
    destruct c as [|f c]; [constructor|].
    rewrite flat_path_cons in Hpath |- *. apply Forall_cons_1 in Hpath as [_ Hrest].
    constructor; [by apply Hf|].
    eapply entry_ok_same; [exact Hrest|]. intros id Hid.
    rewrite ids_app, ids_flat_path in Hid. rewrite path_ids_cons in Hnp, Hsame.
    apply Hsame; [by right|]. apply NoDup_cons in Hnp as [Hnot _]. cbn. congruence.
  - rewrite (ids_plug c x'). apply NoDup_app. split_and!; done.
  - intros id Hid. rewrite (ids_plug c x'), elem_of_app.
    destruct (Hdom id Hid) as [?|[Hold Hnot]]; [by left|].
    apply (rep_dom _ _ H) in Hold. rewrite (ids_plug c x), elem_of_app in Hold. naive_solver.
  - apply keyed_plug. done.
Qed.

(** A change of locks and information only keeps the tree. *)
Definition same_links n n' : Prop :=
  n_p n' = n_p n ∧ n_parent n' = n_parent n ∧ n_left n' = n_left n ∧ n_right n' = n_right n.

Lemma rep_update t x id n n' :
  rep t x → heap t !! id = Some n → same_links n n' →
  rep (RouteTable (top t) (<[id := n']> (heap t))) x.
Proof.
  intros H Hn (Hp & Hpa & Hl & Hr). destruct H as [Htop He Hnd Hdom Hk].
  split; cbn; try done.
  - eapply Forall_impl; [exact He|]. intros e (m & Hm & Hok).
    destruct (decide (e_id e = id)) as [Heq|Hne].
    + exists n'. rewrite Heq, lookup_insert_eq. split; [done|].
      rewrite Heq, Hn in Hm. injection Hm as <-. unfold node_ok in *.
      by rewrite Hp, Hpa, Hl, Hr.
    + exists m. by rewrite lookup_insert_ne.
  - intros id' Hid. apply Hdom. destruct (decide (id' = id)) as [->|]; [eauto|].
    by rewrite lookup_insert_ne in Hid.
Qed.
End Rep.
