(* ===== verification/TableWalk.v ===== *)
(** The routing table: what the three walks from the top find.

    [match_loop], [lookup_loop] and [get_loop] of a table in good order return
    the longest key with information, the exact key with information, and the
    place of a key in the tree. *)

From S2P Require Import Prelude Prefix Table TableFacts TableRep.

Section Walk.
Context {A : Type}.
Implicit Types (t : route_table A) (n : route_node A) (h : gmap ptr (route_node A)).

Definition info_at h (id : ptr) : option A := h !! id ≫= n_info.

Lemma node_ok_len n e : node_ok n e → prefixlen (n_p n) = Z.of_nat (length (e_key e)).
Proof.
  intros (<- & _ & _ & _ & Hwf & _). rewrite length_pbits by done. destruct Hwf. lia.
Qed.

Lemma walk_cond_entry h e n p :
  h !! e_id e = Some n → node_ok n e → prefix_wf p →
  walk_cond h (Some (e_id e)) p =
    Ok (if decide (e_key e `prefix_of` pbits p) then Some (e_id e, n) else None).
Proof.
  intros Hn Hok Hp. pose proof (node_ok_len _ _ Hok) as Hlen.
  destruct Hok as (Hk & _ & _ & _ & Hwf & _).
  unfold walk_cond. rewrite Hn. cbn [of_option mbind res_bind].
  rewrite prefix_match_pbits, Hk by done. cbn [mbind res_bind].
  destruct (Z.leb_spec (prefixlen (n_p n)) (prefixlen p)).
  - f_equal. case_decide; case_bool_decide; done.
  - rewrite decide_False; [done|]. intros Hpre%prefix_length.
    rewrite length_pbits in Hpre by done. destruct Hp. lia.
Qed.

(** The bit at which the walk turns, and what lies on the other side. *)
Lemma walk_bit h e n p :
  h !! e_id e = Some n → node_ok n e → prefix_wf p →
  e_key e `prefix_of` pbits p → prefixlen p ≤ 128 →
  Z.of_nat (length (e_key e)) < 8 * Z.of_nat (length (u p)) →
  ∃ b, check_bit (u p) (prefixlen (n_p n)) = Ok b ∧
    bits_of (u p) !! length (e_key e) = Some b.
Proof.
  intros Hn Hok Hp Hpre H128 Hlt. rewrite (node_ok_len _ _ Hok).
  apply prefix_length in Hpre. rewrite length_pbits in Hpre by done.
  destruct (check_bit_spec (u p) (Z.of_nat (length (e_key e)))) as (b & -> & Hb); [lia|lia|].
  rewrite Nat2Z.id in Hb. eauto.
Qed.

Lemma pbits_lookup p i b :
  prefix_wf p → (i < length (pbits p))%nat →
  bits_of (u p) !! i = Some b → pbits p !! i = Some b.
Proof.
  intros Hp Hi Hb. rewrite length_pbits in Hi by done.
  unfold pbits. by rewrite lookup_take_lt by lia.
Qed.

Lemma prefix_of_snoc (k l : list bool) b :
  k `prefix_of` l → l !! length k = Some b → (k ++ [b]) `prefix_of` l.
Proof.
  intros [m ->] Hb. rewrite lookup_app_r, Nat.sub_diag in Hb by lia.
  destruct m as [|b' m]; [done|]. cbn in Hb. simplify_eq.
  exists m. by rewrite <-app_assoc.
Qed.

Lemma other_side k b p key :
  prefix_wf p → k `prefix_of` pbits p → bits_of (u p) !! length k = Some b →
  (k ++ [negb b]) `prefix_of` key → ¬ key `prefix_of` pbits p.
Proof.
  intros Hp Hk Hb Hkey Hpre.
  assert ((k ++ [negb b]) `prefix_of` pbits p) as Hx by (by etransitivity).
  assert (length k < length (pbits p))%nat as Hlt.
  { apply prefix_length in Hx. rewrite length_app in Hx. cbn in Hx. lia. }
  pose proof (pbits_lookup p _ _ Hp Hlt Hb) as Hl. destruct Hx as [m Hm]. rewrite Hm in Hl.
  rewrite <-app_assoc, lookup_app_r, Nat.sub_diag in Hl by lia. cbn in Hl.
  by destruct b.
Qed.

Fixpoint height (x : tree) : nat :=
  match x with Leaf => 0 | Tree _ _ l r => S (height l `max` height r) end.

Lemma height_flat par x : (height x ≤ length (ids (flat par x)))%nat.
Proof.
  revert par. induction x as [|id k l IHl r IHr]; intros par; [cbn; lia|].
  cbn [flat height]. cbn. rewrite ids_app, length_app.
  specialize (IHl (Some id)). specialize (IHr (Some id)). lia.
Qed.

(** The child on the side of bit [b], and the other one. *)
Definition child (b : bool) (l r : tree) : tree := if b then r else l.

Lemma flat_children par id k l r b e :
  e ∈ flat par (Tree id k l r) ↔
    e = Entry id k par (root l) (root r) ∨
    e ∈ flat (Some id) (child b l r) ∨ e ∈ flat (Some id) (child (negb b) l r).
Proof.
  cbn. rewrite elem_of_cons, elem_of_app. destruct b; cbn; tauto.
Qed.

Lemma n_link_child n id k par l r b :
  node_ok n (Entry id k par (root l) (root r)) → n_link n b = root (child b l r).
Proof. intros (_ & _ & Hl & Hr & _). by destruct b. Qed.

Lemma keyed_child pre id k l r b :
  keyed pre (Tree id k l r) → keyed (k ++ [b]) (child b l r).
Proof. intros (_ & Hl & Hr). by destruct b. Qed.

Lemma height_child l r b : (height (child b l r) ≤ height l `max` height r)%nat.
Proof. destruct b; cbn; lia. Qed.

Lemma flat_child_ok h par id k l r b :
  Forall (entry_ok h) (flat par (Tree id k l r)) →
  Forall (entry_ok h) (flat (Some id) (child b l r)).
Proof.
  cbn. intros [_ H]%Forall_cons_1. apply Forall_app in H. destruct b; cbn; tauto.
Qed.

(** No key on the other side of the walk is a prefix of [p]. *)
Lemma sibling_not_prefix pre id k l r b p e :
  keyed pre (Tree id k l r) → prefix_wf p → k `prefix_of` pbits p →
  bits_of (u p) !! length k = Some b →
  e ∈ flat (Some id) (child (negb b) l r) → ¬ e_key e `prefix_of` pbits p.
Proof.
  intros Hk Hp Hpre Hb He. eapply other_side; [done..|].
  eapply keyed_elem; [by eapply keyed_child|done].
Qed.

Lemma child_case (P : tree → Prop) l r b : P l → P r → P (child b l r).
Proof. by destruct b. Qed.

(** One turn of a walk: it stops at a key that is not a prefix of [p], else it
    goes to the child on the side of the next bit of [p]. *)
Lemma walk_step h par pre id k l r p :
  Forall (entry_ok h) (flat par (Tree id k l r)) → keyed pre (Tree id k l r) →
  prefix_wf p → prefixlen p ≤ 128 →
  ∃ n, h !! id = Some n ∧ node_ok n (Entry id k par (root l) (root r)) ∧
    ((¬ k `prefix_of` pbits p ∧ walk_cond h (Some id) p = Ok None) ∨
     (k `prefix_of` pbits p ∧ walk_cond h (Some id) p = Ok (Some (id, n)) ∧
      (Z.of_nat (length k) < 8 * Z.of_nat (length (u p)) →
       ∃ b, check_bit (u p) (prefixlen (n_p n)) = Ok b ∧
         bits_of (u p) !! length k = Some b ∧ n_link n b = root (child b l r)))).
Proof.
  intros Hes Hkey Hp H128. set (e0 := Entry id k par (root l) (root r)).
  assert (entry_ok h e0) as (n & Hn & Hok)
    by (cbn in Hes; by apply Forall_cons_1 in Hes as [? _]).
  exists n. split_and!; [done..|]. pose proof (walk_cond_entry h e0 n p Hn Hok Hp) as Hw.
  cbn [e_id e_key e0] in Hw. rewrite Hw. case_decide as Hpre; [right|by left]. split_and!; [done..|].
  intros Hlt. destruct (walk_bit h e0 n p) as (b & Hc & Hb); [done..|].
  exists b. split_and!; [done..|by eapply n_link_child].
Qed.

(** [r] is the node with information whose key is the longest prefix of [p]
    among the nodes of [x]; [m] when there is none. *)
Definition best_match h par x (m : option ptr) p (r : option ptr) : Prop :=
  (r = m ∧ ∀ e, e ∈ flat par x → e_key e `prefix_of` pbits p → info_at h (e_id e) = None) ∨
  (∃ e, e ∈ flat par x ∧ r = Some (e_id e) ∧ is_Some (info_at h (e_id e)) ∧
     e_key e `prefix_of` pbits p ∧
     ∀ e', e' ∈ flat par x → e_key e' `prefix_of` pbits p →
       is_Some (info_at h (e_id e')) → e_key e' `prefix_of` e_key e).

Lemma best_match_step h par pre id k l r n b m p res :
  keyed pre (Tree id k l r) → h !! id = Some n → prefix_wf p →
  k `prefix_of` pbits p → bits_of (u p) !! length k = Some b →
  best_match h (Some id) (child b l r)
    (match n_info n with Some _ => Some id | None => m end) p res →
  best_match h par (Tree id k l r) m p res.
Proof.
  intros Hkey Hn Hp Hpre Hb Hres.
  assert (∀ e, e ∈ flat (Some id) (child (negb b) l r) → e_key e `prefix_of` pbits p → False)
    as Hsib by (intros e He Hpe; by eapply sibling_not_prefix in He).
  assert (info_at h id = n_info n) as Hi by (unfold info_at; by rewrite Hn).
  unfold best_match. setoid_rewrite (flat_children par id k l r b).
  destruct Hres as [[-> Hnone]|(e & He & -> & Hinf & Hpe & Hmax)].
  - destruct (n_info n) as [v|] eqn:Hv.
    + right. exists (Entry id k par (root l) (root r)). cbn. rewrite Hi.
      split_and!; [by left|done|done|done|].
      intros e' [->|[He'|He']] Hpe' Hinf'; cbn; [done| |by destruct (Hsib e')].
      rewrite (Hnone e') in Hinf' by done. by destruct Hinf'.
    + left. split; [done|]. intros e [->|[He|He]] Hpe; cbn; [done|by apply Hnone|].
      by destruct (Hsib e).
  - right. exists e. split_and!; [by right; left|done..|].
    intros e' [->|[He'|He']] Hpe' Hinf'; cbn; [|by apply Hmax|by destruct (Hsib e')].
    trans (k ++ [b]); [by apply prefix_app_r|].
    eapply keyed_elem; [by eapply keyed_child|done].
Qed.

Lemma match_loop_spec fuel h par pre x m p :
  Forall (entry_ok h) (flat par x) → keyed pre x → (height x ≤ fuel)%nat →
  prefix_wf p → prefixlen p ≤ 128 → prefixlen p < 8 * Z.of_nat (length (u p)) →
  ∃ r, match_loop fuel h (root x) m p = Ok r ∧ best_match h par x m p r.
Proof.
  intros Hes Hkey Hh Hp H128 Hlt. revert fuel par pre m Hes Hkey Hh.
  induction x as [|id k l IHl r IHr]; intros fuel par pre m Hes Hkey Hh.
  { exists m. destruct fuel; cbn; (split; [done|]); left; (split; [done|]);
      intros e He; by apply not_elem_of_nil in He. }
  destruct fuel as [|fuel]; [cbn in Hh; lia|].
  destruct (walk_step h par pre id k l r p)
    as (n & Hn & Hok & [[Hpre Hw]|(Hpre & Hw & Hbit)]); [done..| |];
    cbn [root match_loop]; rewrite Hw; cbn [mbind res_bind].
  - exists m. split; [done|]. left. split; [done|]. intros e He Hpe. exfalso. apply Hpre.
    trans (e_key e); [|done]. eapply (keyed_elem k par (Tree id k l r)); [|done].
    destruct Hkey as (_ & ? & ?). by split.
  - destruct Hbit as (b & Hc & Hb & Hl).
    { apply prefix_length in Hpre. rewrite length_pbits in Hpre by done. pose proof (proj2 Hp). lia. }
    rewrite Hc. cbn [mbind res_bind]. rewrite Hl.
    edestruct (child_case (λ x, ∀ fuel par pre m, Forall (entry_ok h) (flat par x) →
      keyed pre x → (height x ≤ fuel)%nat → ∃ r, match_loop fuel h (root x) m p = Ok r ∧
      best_match h par x m p r) l r b IHl IHr fuel (Some id)) as (res & -> & Hres);
      [by eapply flat_child_ok|by eapply keyed_child| |].
    { pose proof (height_child l r b). cbn in Hh. lia. }
    exists res. split; [done|]. by eapply best_match_step.
Qed.

(** [r] is the node of [x] with key [p] and information, if there is one. *)
Definition exact_match h par x p (r : option ptr) : Prop :=
  match r with
  | Some id => ∃ e, e ∈ flat par x ∧ e_id e = id ∧ e_key e = pbits p ∧ is_Some (info_at h id)
  | None => ∀ e, e ∈ flat par x → e_key e = pbits p → info_at h (e_id e) = None
  end.

Lemma exact_match_step h par pre id k l r n b p res :
  keyed pre (Tree id k l r) → h !! id = Some n → prefix_wf p →
  k `prefix_of` pbits p → bits_of (u p) !! length k = Some b →
  (k = pbits p → n_info n = None) →
  exact_match h (Some id) (child b l r) p res →
  exact_match h par (Tree id k l r) p res.
Proof.
  intros Hkey Hn Hp Hpre Hb Hno Hres.
  unfold exact_match in *. destruct res as [i|].
  - destruct Hres as (e & He & ?). exists e. split; [|done].
    apply (flat_children par id k l r b). auto.
  - intros e He Heq. apply (flat_children par id k l r b) in He as [->|[He|He]].
    + cbn in *. unfold info_at. rewrite Hn. cbn. auto.
    + auto.
    + eapply sibling_not_prefix in He; [|done..]. by rewrite Heq in He.
Qed.

Lemma lookup_loop_spec fuel h par pre x p :
  Forall (entry_ok h) (flat par x) → keyed pre x → (height x ≤ fuel)%nat →
  prefix_wf p → prefixlen p ≤ 128 → prefixlen p < 8 * Z.of_nat (length (u p)) →
  ∃ r, lookup_loop fuel h (root x) p = Ok r ∧ exact_match h par x p r.
Proof.
  intros Hes Hkey Hh Hp H128 Hlt. revert fuel par pre Hes Hkey Hh.
  induction x as [|id k l IHl r IHr]; intros fuel par pre Hes Hkey Hh.
  { exists None. destruct fuel; cbn; (split; [done|]); intros e He;
      by apply not_elem_of_nil in He. }
  destruct fuel as [|fuel]; [cbn in Hh; lia|].
  destruct (walk_step h par pre id k l r p)
    as (n & Hn & Hok & [[Hpre Hw]|(Hpre & Hw & Hbit)]); [done..| |];
    cbn [root lookup_loop]; rewrite Hw; cbn [mbind res_bind].
  - exists None. split; [done|]. intros e He Hpe. exfalso. apply Hpre. rewrite <-Hpe.
    eapply (keyed_elem k par (Tree id k l r)); [|done].
    destruct Hkey as (_ & ? & ?). by split.
  - pose proof (node_ok_len _ _ Hok) as Hlen. cbn in Hlen.
    assert (prefixlen (n_p n) = prefixlen p ↔ k = pbits p) as Hkp.
    { rewrite Hlen. split; [|intros ->; rewrite length_pbits by done; destruct Hp; lia].
      intros Heq. apply prefix_length_eq; [done|]. rewrite length_pbits by done. lia. }
    destruct (Z.eqb_spec (prefixlen (n_p n)) (prefixlen p)) as [Heq|Hne]; cbn [andb];
      [case_bool_decide as Hinf|].
    + exists (Some id). split; [done|]. exists (Entry id k par (root l) (root r)).
      split_and!; [by left|done|by apply Hkp|]. unfold info_at. by rewrite Hn.
    + destruct Hbit as (b & Hc & Hb & Hl); [lia|].
      rewrite Hc. cbn [mbind res_bind]. rewrite Hl.
      edestruct (child_case (λ x, ∀ fuel par pre, Forall (entry_ok h) (flat par x) →
        keyed pre x → (height x ≤ fuel)%nat → ∃ r, lookup_loop fuel h (root x) p = Ok r ∧
        exact_match h par x p r) l r b IHl IHr fuel (Some id)) as (res & -> & Hres);
        [by eapply flat_child_ok|by eapply keyed_child| |].
      { pose proof (height_child l r b). cbn in Hh. lia. }
      exists res. split; [done|]. eapply exact_match_step; try done.
      intros _. destruct (n_info n); [|done]. by destruct Hinf.
    + destruct Hbit as (b & Hc & Hb & Hl).
      { apply prefix_length in Hpre. rewrite length_pbits in Hpre by done. pose proof (proj2 Hp). lia. }
      rewrite Hc. cbn [mbind res_bind]. rewrite Hl.
      edestruct (child_case (λ x, ∀ fuel par pre, Forall (entry_ok h) (flat par x) →
        keyed pre x → (height x ≤ fuel)%nat → ∃ r, lookup_loop fuel h (root x) p = Ok r ∧
        exact_match h par x p r) l r b IHl IHr fuel (Some id)) as (res & -> & Hres);
        [by eapply flat_child_ok|by eapply keyed_child| |].
      { pose proof (height_child l r b). cbn in Hh. lia. }
      exists res. split; [done|]. eapply exact_match_step; try done.
      intros Hk. by apply Hkp in Hk.
Qed.
End Walk.
