(* ===== verification/TableGet.v ===== *)
(** The routing table: route_node_get keeps the table in good order.

    [route_node_get] finds the place of a prefix in the tree and grows the tree
    there by one leaf, by one inner node, or by both. *)

From S2P Require Import Prelude Prefix Table TableFacts TableRep TableWalk.

Section Get.
Context {A : Type}.
Implicit Types (t : route_table A) (n : route_node A) (h : gmap ptr (route_node A)).

(** ** Single steps *)

Lemma read_node_ok t id n : heap t !! id = Some n → read_node id t = Ok (n, t).
Proof. intros H. unfold read_node. by rewrite H. Qed.

Lemma update_node_ok t id n f :
  heap t !! id = Some n →
  update_node id f t = Ok (tt, RouteTable (top t) (<[id := f n]> (heap t))).
Proof. intros H. unfold update_node. by rewrite H. Qed.

Lemma route_lock_node_ok t id n :
  heap t !! id = Some n →
  route_lock_node id t =
    Ok (id, RouteTable (top t) (<[id := set_lock (u32 (n_lock n + 1)) n]> (heap t))).
Proof.
  intros H. unfold route_lock_node. erewrite st_bind_Ok by (by apply update_node_ok). done.
Qed.

Lemma set_link_ok t node new n nn b :
  heap t !! node = Some n → heap t !! new = Some nn → node ≠ new →
  check_bit (u (n_p nn)) (prefixlen (n_p n)) = Ok b →
  set_link node new t =
    Ok (tt, RouteTable (top t)
              (<[new := set_parent (Some node) nn]>
                (<[node := set_link_field b (Some new) n]> (heap t)))).
Proof.
  intros Hn Hnn Hne Hb. unfold set_link.
  erewrite st_bind_Ok by (by apply read_node_ok).
  erewrite st_bind_Ok by (by apply read_node_ok).
  erewrite st_bind_Ok by (by rewrite Hb).
  erewrite st_bind_Ok by (by apply update_node_ok).
  by erewrite update_node_ok by (cbn; by rewrite lookup_insert_ne).
Qed.

(** The copy of a prefix into a zeroed node. *)
Lemma prefix_copy_new p :
  prefix_af p → (length (u p) ≤ 16)%nat →
  ∃ q, prefix_copy prefix_new p = Ok q ∧ prefix_wf q ∧ length (u q) = 16%nat ∧
    family q = family p ∧ prefixlen q = prefixlen p ∧ pbits q = pbits p.
Proof.
  intros (Hf & Hok & Hlen & Hu) H16.
  assert (∀ w, Z.of_nat w = af_bytes (family p) → (w ≤ 16)%nat →
    let q := Prefix (family p) (prefixlen p) (copy_bytes (u prefix_new) (u p) w) in
    prefix_wf q ∧ length (u q) = 16%nat ∧ pbits q = pbits p) as Hcopy.
  { intros w Hw H16w q. subst q.
    assert (length (copy_bytes (u prefix_new) (u p) w) = 16%nat) as Hl.
    { unfold copy_bytes. rewrite length_app, length_take, length_drop. cbn. lia. }
    split_and!; [|done|].
    - split; cbn [u prefixlen]; [|rewrite Hl; lia]. apply Forall_app. split; [by apply Forall_take|].
      apply Forall_drop. repeat constructor; unfold is_u8; lia.
    - unfold pbits. cbn [u prefixlen]. apply take_eq_lookup; rewrite ?length_bits_of, ?Hl; [lia..|].
      intros k Hk. rewrite !bits_of_lookup. f_equal. unfold copy_bytes.
      assert (k `div` 8 < w)%nat by (apply Nat.Div0.div_lt_upper_bound; lia).
      rewrite lookup_app_l by (rewrite length_take; lia). apply lookup_take_lt. lia. }
  unfold prefix_copy. destruct Hf as [Hf|Hf]; rewrite Hf in *; cbn.
  - destruct (Hcopy 4%nat) as (? & ? & ?); [done|lia|]. eexists. split; [reflexivity|]. done.
  - destruct (Hcopy 16%nat) as (? & ? & ?); [done|lia|]. eexists. split; [reflexivity|]. done.
Qed.

Lemma route_node_new_ok t :
  ∃ id, heap t !! id = None ∧
    route_node_new t = Ok (id, RouteTable (top t)
      (<[id := RouteNode prefix_new None None None 0 None]> (heap t))).
Proof.
  exists (fresh (dom (heap t))). split; [|done].
  apply not_elem_of_dom, is_fresh.
Qed.

Lemma route_node_set_ok t p :
  prefix_af p → (length (u p) ≤ 16)%nat →
  ∃ id q, heap t !! id = None ∧
    route_node_set p t = Ok (id, RouteTable (top t)
      (<[id := RouteNode q None None None 0 None]> (heap t))) ∧
    prefix_wf q ∧ length (u q) = 16%nat ∧ prefixlen q = prefixlen p ∧ pbits q = pbits p.
Proof.
  intros Hp H16. destruct (route_node_new_ok t) as (id & Hid & Hnew).
  destruct (prefix_copy_new p Hp H16) as (q & Hq & Hwf & Hl & _ & Hlen & Hb).
  exists id, q. split_and!; try done.
  unfold route_node_set. erewrite st_bind_Ok by done.
  erewrite st_bind_Ok by (apply read_node_ok; cbn; apply lookup_insert_eq). cbn [n_p].
  erewrite st_bind_Ok by (by rewrite Hq).
  erewrite st_bind_Ok by (apply update_node_ok; cbn; apply lookup_insert_eq).
  cbn. by rewrite insert_insert_eq.
Qed.

(** ** The loop of route_node_get *)

Definition get_place x p (c : path) (y : tree) : Prop :=
  x = plug c y ∧ hole_pre c `prefix_of` pbits p.

Lemma get_loop_spec fuel t c x p :
  rep t (plug c x) → (size (heap t) ≤ fuel + length c)%nat →
  prefix_wf p → prefixlen p ≤ 128 → hole_pre c `prefix_of` pbits p →
  ∃ c' y res, get_loop fuel (heap t) (root x) (up c) p = Ok res ∧
    get_place (plug c x) p c' y ∧
    ((∃ id l r, y = Tree id (pbits p) l r ∧ res = inl id) ∨
     (res = inr (up c', root y) ∧
      (y = Leaf ∨ ∃ id k l r, y = Tree id k l r ∧ ¬ k `prefix_of` pbits p))).
Proof.
  intros Hrep Hfuel Hp H128. revert fuel c Hrep Hfuel.
  induction x as [|id k l IHl r IHr]; intros fuel c Hrep Hfuel Hpre.
  { exists c, Leaf. eexists. split; [by destruct fuel|]. split; [done|]. right. auto. }
  destruct (rep_path _ _ _ Hrep) as (Hes & _ & _ & _ & _ & _ & Hkey).
  destruct (walk_step (heap t) (up c) (hole_pre c) id k l r p)
    as (n & Hn & Hok & [[Hnp Hw]|(Hkp & Hw & Hbit)]); [done..| |].
  - exists c, (Tree id k l r). eexists.
    split; [destruct fuel; cbn [root get_loop]; rewrite Hw; reflexivity|].
    split; [done|]. right. split; [done|]. right. by eexists _, _, _, _.
  - pose proof (node_ok_len _ _ Hok) as Hlen. cbn in Hlen.
    pose proof (rep_depth _ _ _ _ _ _ Hrep) as Hdepth.
    destruct fuel as [|fuel]; [lia|]. cbn [root get_loop]. rewrite Hw. cbn [mbind res_bind].
    destruct (Z.eqb_spec (prefixlen (n_p n)) (prefixlen p)) as [Heq|Hne].
    + exists c, (Tree id k l r), (inl id). split; [done|]. split; [done|]. left.
      exists id, l, r. split; [|done]. f_equal.
      apply prefix_length_eq; [done|]. rewrite length_pbits by done. lia.
    + assert (length k < length (pbits p))%nat as Hlt.
      { pose proof (prefix_length _ _ Hkp) as Hl. rewrite length_pbits in Hl |- * by done.
        pose proof (proj2 Hp). lia. }
      destruct Hbit as (b & Hc & Hb & Hl).
      { rewrite length_pbits in Hlt by done. pose proof (proj2 Hp). lia. }
      rewrite Hc. cbn [mbind res_bind]. rewrite Hl.
      assert ((k ++ [b]) `prefix_of` pbits p) as Hkb
        by (apply prefix_of_snoc; [done|by apply pbits_lookup]).
      destruct b; cbn [child] in *.
      * apply (IHr fuel (FR id k l :: c)); [done|cbn; lia|done].
      * apply (IHl fuel (FL id k r :: c)); [done|cbn; lia|done].
Qed.
(** ** Linking a node below a place *)

(** A node keeps its prefix, lock and information and loses no child. *)
Definition grown (n n' : route_node A) : Prop :=
  n_p n' = n_p n ∧ n_lock n' = n_lock n ∧ n_info n' = n_info n ∧
  (is_Some (n_left n) → is_Some (n_left n')) ∧
  (is_Some (n_right n) → is_Some (n_right n')).

Definition hgrown (h h' : gmap ptr (route_node A)) : Prop :=
  ∀ i n, h !! i = Some n → ∃ n', h' !! i = Some n' ∧ grown n n'.

Lemma grown_refl n : grown n n.
Proof. done. Qed.

Lemma hgrown_trans h1 h2 h3 : hgrown h1 h2 → hgrown h2 h3 → hgrown h1 h3.
Proof.
  intros H1 H2 i n Hn. destruct (H1 i n Hn) as (n' & Hn' & ? & ? & ? & ? & ?).
  destruct (H2 i n' Hn') as (n'' & Hn'' & ? & ? & ? & ? & ?).
  exists n''. split; [done|]. unfold grown. split_and!; (congruence || auto).
Qed.

Lemma grown_lock_ok n n' : grown n n' → lock_ok n → lock_ok n'.
Proof.
  intros (_ & Hlk & Hi & Hl & Hr) [Hu H0]. unfold lock_ok. rewrite Hlk, Hi.
  split; [done|]. intros Hz. destruct (H0 Hz) as (? & ? & ?). auto.
Qed.

Lemma hgrown_fresh h i n : h !! i = None → hgrown h (<[i := n]> h).
Proof.
  intros Hi j m Hm. exists m. split; [|apply grown_refl].
  rewrite lookup_insert_ne; [done|]. congruence.
Qed.

Definition frame_bit (f : frame) : bool := match f with FL _ _ _ => false | FR _ _ _ => true end.
Definition frame_key (f : frame) : list bool := match f with FL _ k _ => k | FR _ k _ => k end.

Lemma hole_pre_cons f c : hole_pre (f :: c) = frame_key f ++ [frame_bit f].
Proof. by destruct f. Qed.

(** The bit test of [set_link], from the keys. *)
Lemma set_link_bit (n nn : route_node A) k b :
  pbits (n_p n) = k → prefix_wf (n_p n) → length (u (n_p n)) = 16%nat →
  prefix_wf (n_p nn) → length (u (n_p nn)) = 16%nat →
  (k ++ [b]) `prefix_of` pbits (n_p nn) →
  check_bit (u (n_p nn)) (prefixlen (n_p n)) = Ok b.
Proof.
  intros Hk Hwf H16 Hwfn H16n Hpre.
  assert (prefixlen (n_p n) = Z.of_nat (length k)) as Hl.
  { rewrite <-Hk, length_pbits by done. destruct Hwf. lia. }
  assert (pbits (n_p nn) !! length k = Some b) as Hb.
  { destruct Hpre as [m ->]. rewrite <-app_assoc, lookup_app_r, Nat.sub_diag by lia. done. }
  assert (length k < length (pbits (n_p nn)))%nat as Hlt by (by eapply lookup_lt_Some).
  rewrite length_pbits in Hlt by done. destruct Hwf, Hwfn.
  destruct (check_bit_spec (u (n_p nn)) (prefixlen (n_p n))) as (b' & -> & Hb'); [lia|lia|].
  rewrite Hl, Nat2Z.id in Hb'. unfold pbits in Hb. rewrite lookup_take_lt in Hb by lia.
  congruence.
Qed.

(** [if (match) set_link (match, new); else table->top = new;] *)
Definition link_at (m : option ptr) (new : ptr) : ST (route_table A) unit :=
  match m with
  | Some m => set_link m new
  | None => set_top (Some new)
  end.

Lemma link_at_ok t t1 c x id nn :
  rep t (plug c x) → hgrown (heap t) (heap t1) →
  (∀ i, i ∈ path_ids c → heap t1 !! i = heap t !! i) →
  heap t1 !! id = Some nn → id ∉ path_ids c →
  prefix_wf (n_p nn) → length (u (n_p nn)) = 16%nat →
  hole_pre c `prefix_of` pbits (n_p nn) → n_parent nn = None →
  ∃ t2, link_at (up c) id t1 = Ok (tt, t2) ∧
    top t2 = (if decide (c = []) then Some id else top t1) ∧
    heap t2 !! id = Some (set_parent (up c) nn) ∧
    (∀ f c0, c = f :: c0 → entry_ok (heap t2) (frame_entry f (up c0) (Some id))) ∧
    (∀ i, i ≠ id → Some i ≠ up c → heap t2 !! i = heap t1 !! i) ∧
    hgrown (heap t1) (heap t2) ∧
    (∀ i, is_Some (heap t2 !! i) → is_Some (heap t1 !! i)).
Proof.
  intros Hrep Hgr Hsame Hid Hnot Hwf H16 Hpre Hpar.
  destruct c as [|f c]; cbn [up head fmap option_fmap option_map link_at].
  { eexists. split; [reflexivity|]. cbn. split_and!; try done.
    - rewrite Hid. destruct nn. cbn in Hpar. by subst.
    - intros i n Hn. eauto using grown_refl. }
  rewrite path_ids_cons in Hsame, Hnot.
  destruct (rep_path _ _ _ Hrep) as (_ & Hpath & _).
  rewrite flat_path_cons in Hpath. apply Forall_cons_1 in Hpath as [(n & Hn & Hok) _].
  assert (e_id (frame_entry f (up c) (root x)) = frame_id f) as Hfid by (by destruct f).
  rewrite Hfid in Hn. rewrite <-Hsame in Hn by (by left).
  assert (frame_id f ≠ id) as Hne by set_solver.
  assert (check_bit (u (n_p nn)) (prefixlen (n_p n)) = Ok (frame_bit f)) as Hb.
  { destruct Hok as (Hk & _ & _ & _ & Hwfn & H16n).
    eapply set_link_bit; try done. rewrite hole_pre_cons in Hpre.
    by replace (e_key (frame_entry f (up c) (root x))) with (frame_key f) by (by destruct f). }
  erewrite set_link_ok by done.
  eexists. split; [reflexivity|]. cbn [top heap]. split_and!.
  - done.
  - apply lookup_insert_eq.
  - intros f' c0 [= <- <-].
    exists (set_link_field (frame_bit f) (Some id) n).
    replace (e_id (frame_entry f (up c) (Some id))) with (frame_id f) by (by destruct f).
    rewrite lookup_insert_ne, lookup_insert_eq by done. split; [done|].
    unfold node_ok in *. destruct f; cbn in *; naive_solver.
  - intros i Hi1 Hi2. rewrite !lookup_insert_ne; [done|congruence|congruence].
  - intros i m Hm. destruct (decide (i = id)) as [->|Hi1].
    { rewrite lookup_insert_eq. simplify_eq. eexists. split; [done|]. done. }
    rewrite lookup_insert_ne by done.
    destruct (decide (i = frame_id f)) as [->|Hi2].
    { rewrite lookup_insert_eq. simplify_eq. eexists. split; [done|].
      unfold grown. destruct (frame_bit f); cbn; naive_solver. }
    rewrite lookup_insert_ne by done. eauto using grown_refl.
  - intros i. rewrite !lookup_insert. repeat case_decide; subst; eauto.
Qed.

(** A new leaf at an empty place. *)
Lemma insert_leaf t c p :
  rep t (plug c Leaf) → prefix_af p → (length (u p) ≤ 16)%nat →
  hole_pre c `prefix_of` pbits p →
  ∃ id t1 t', route_node_set p t = Ok (id, t1) ∧ link_at (up c) id t1 = Ok (tt, t') ∧
    rep t' (plug c (Tree id (pbits p) Leaf Leaf)) ∧ heap t !! id = None ∧
    (∃ n, heap t' !! id = Some n ∧ n_lock n = 0 ∧ n_info n = None ∧ pbits (n_p n) = pbits p) ∧
    hgrown (heap t) (heap t') ∧
    (∀ i, i ≠ id → Some i ≠ up c → heap t' !! i = heap t !! i) ∧
    (∀ i, is_Some (heap t' !! i) → i = id ∨ is_Some (heap t !! i)).
Proof.
  intros Hrep Hp H16 Hpre.
  destruct (route_node_set_ok t p Hp H16) as (id & q & Hid & Hset & Hwf & Hl16 & Hlen & Hq).
  set (nn := RouteNode q None None None 0 None) in *.
  set (t1 := RouteTable (top t) (<[id := nn]> (heap t))) in *.
  assert (id ∉ path_ids c) as Hnot.
  { intros Hin. destruct (rep_path _ _ _ Hrep) as (_ & Hpath & _).
    rewrite <-(ids_flat_path c (root Leaf)) in Hin.
    apply list_elem_of_fmap in Hin as (e & -> & He). rewrite Forall_forall in Hpath.
    destruct (Hpath e He) as (n & Hn & _). congruence. }
  destruct (link_at_ok t t1 c Leaf id nn) as (t2 & Hlink & Htop & Hid2 & Hf & Hsame & Hgr & Hdom);
    try done.
  { by apply hgrown_fresh. }
  { intros i Hi. cbn. rewrite lookup_insert_ne; [done|]. intros ->. done. }
  { cbn. apply lookup_insert_eq. }
  { cbn. by rewrite Hq. }
  assert (∀ i, is_Some (heap t2 !! i) → i = id ∨ is_Some (heap t !! i)) as Hdom'.
  { intros i Hi. apply Hdom in Hi. cbn in Hi. destruct (decide (i = id)); [by left|].
    rewrite lookup_insert_ne in Hi by done. by right. }
  exists id, t1, t2. split_and!; try done.
  - apply (rep_replace t t2 c Leaf); try done.
    + constructor; [|constructor]. exists (set_parent (up c) nn). split; [done|].
      unfold node_ok. cbn. by rewrite Hq.
    + intros i Hi Hup. rewrite Hsame; [|by intros ->|done]. cbn.
      rewrite lookup_insert_ne; [done|]. by intros ->.
    + repeat constructor. set_solver.
    + intros i Hi. cbn in Hi. apply list_elem_of_singleton in Hi as ->. done.
    + intros i Hi. destruct (Hdom' i Hi) as [->|?]; [left; by left|right].
      split; [done|]. apply not_elem_of_nil.
  - eexists. split; [done|]. cbn. by rewrite Hq.
  - eapply hgrown_trans; [|done]. by apply hgrown_fresh.
  - intros i Hi Hup. rewrite Hsame by done. cbn. by rewrite lookup_insert_ne.
Qed.
(** ** The common prefix of two keys *)

Lemma route_common_keys (n p : prefix) :
  prefix_wf n → length (u n) = 16%nat → prefix_af p → (length (u p) ≤ 16)%nat →
  ¬ pbits n `prefix_of` pbits p →
  ∃ q b, route_common n p prefix_new = Ok q ∧
    prefix_wf q ∧ length (u q) = 16%nat ∧ prefixlen q ≤ prefixlen p ∧
    (pbits q ++ [b]) `prefix_of` pbits n ∧
    (if decide (prefixlen q = prefixlen p) then pbits q = pbits p
     else (pbits q ++ [negb b]) `prefix_of` pbits p).
Proof.
  intros Hn H16 Hp Hl Hnot. pose proof (prefix_af_wf _ Hp) as Hpw.
  destruct (route_common_bits n p) as (q & Hq & Hok & Hlq & Hlen & Hqn & Hnp & Hdiff);
    [apply Hn|apply Hpw|done|done|apply Hpw|].
  pose proof (proj2 Hn) as Hn2. pose proof (proj2 Hpw) as Hp2.
  assert (prefix_wf q) as Hqw by (split; [done|]; rewrite Hlq; lia).
  assert (∀ k, (k < Z.to_nat (prefixlen q))%nat → bits_of (u q) !! k = bits_of (u p) !! k)
    as Hqp by (intros k Hk; by rewrite Hqn, Hnp).
  assert (pbits q `prefix_of` pbits p) as Hpre.
  { apply pbits_prefix_of; [done..|lia|]. apply take_eq_lookup;
      rewrite ?length_bits_of; [lia..|done]. }
  assert (prefixlen q < prefixlen n) as Hlt.
  { destruct (decide (prefixlen n ≤ prefixlen q)) as [Hle|]; [|lia]. exfalso. apply Hnot.
    apply pbits_prefix_of; [done|done|lia|].
    apply take_eq_lookup; rewrite ?length_bits_of; [lia..|]. intros k Hk. apply Hnp. lia. }
  assert (pbits q `prefix_of` pbits n) as Hpren.
  { apply pbits_prefix_of; [done..|lia|]. apply take_eq_lookup;
      rewrite ?length_bits_of; [lia..|done]. }
  destruct (lookup_lt_is_Some_2 (pbits n) (Z.to_nat (prefixlen q))) as [b Hb].
  { rewrite length_pbits by done. lia. }
  exists q, b. split_and!; try done; [lia| |].
  { apply prefix_of_snoc; [done|]. by rewrite length_pbits. }
  case_decide as Heq.
  { apply prefix_length_eq; [done|]. rewrite !length_pbits by done. lia. }
  apply prefix_of_snoc; [done|]. rewrite length_pbits by done.
  unfold pbits in Hb |- *. rewrite lookup_take_lt in Hb |- * by lia.
  destruct (lookup_lt_is_Some_2 (bits_of (u p)) (Z.to_nat (prefixlen q))) as [b' Hb'].
  { rewrite length_bits_of. lia. }
  rewrite Hb'. f_equal. rewrite Hb, Hb' in Hdiff. destruct b, b'; try done; by destruct Hdiff; lia || done.
Qed.

(** The branching node over [y], on side [b]. *)
Definition branch (id : ptr) (k : list bool) (b : bool) (y z : tree) : tree :=
  if b then Tree id k z y else Tree id k y z.

Lemma common_above (pre k kp kq : list bool) b :
  pre `prefix_of` k → pre `prefix_of` kp →
  (kq ++ [b]) `prefix_of` k → (kq = kp ∨ (kq ++ [negb b]) `prefix_of` kp) →
  pre `prefix_of` kq.
Proof.
  intros Hk Hkp Hqb [->|Hqb']; [done|].
  assert (∀ (l : list bool) x, (kq ++ [x]) `prefix_of` l → l !! length kq = Some x) as Hlk.
  { intros l x [m ->]. by rewrite <-app_assoc, lookup_app_r, Nat.sub_diag by lia. }
  destruct (decide (length pre ≤ length kq)%nat) as [Hle|Hgt].
  - destruct (prefix_weak_total pre kq k) as [?|Hq]; [done| |done|].
    { trans (kq ++ [b]); [by apply prefix_app_r|done]. }
    by rewrite (prefix_length_eq _ _ Hq) by lia.
  - exfalso. pose proof (Hlk _ _ Hqb) as H1. pose proof (Hlk _ _ Hqb') as H2.
    destruct Hk as [m1 ->], Hkp as [m2 ->].
    rewrite lookup_app_l in H1, H2 by lia. rewrite H1 in H2. by destruct b.
Qed.
Lemma rep_fresh t x id : rep t x → heap t !! id = None → id ∉ ids (flat None x).
Proof.
  intros Hrep Hid Hin. apply list_elem_of_fmap in Hin as (e & -> & He).
  pose proof (rep_entries _ _ Hrep) as Hes. rewrite Forall_forall in Hes.
  destruct (Hes e He) as (n & Hn & _). congruence.
Qed.

Lemma flat_branch par id k b y :
  flat par (branch id k b y Leaf) =
    Entry id k par (if b then None else root y) (if b then root y else None) ::
    flat (Some id) y.
Proof. destruct b; cbn; [done|]. by rewrite app_nil_r. Qed.

Lemma ids_branch par id k b y :
  ids (flat par (branch id k b y Leaf)) = id :: ids (flat None y).
Proof. rewrite flat_branch. cbn. by rewrite <-(ids_flat (Some id) y). Qed.

(** Putting a branching node between a place and its subtree. *)
Lemma rep_branch t t' c id k l r new kq b n :
  let y := Tree id k l r in
  rep t (plug c y) → heap t !! id = Some n → heap t !! new = None →
  (kq ++ [b]) `prefix_of` k → hole_pre c `prefix_of` kq →
  top t' = (if decide (c = []) then Some new else top t) →
  heap t' !! id = Some (set_parent (Some new) n) →
  (∃ nq, heap t' !! new = Some nq ∧
     node_ok nq (Entry new kq (up c) (if b then None else Some id) (if b then Some id else None))) →
  (∀ f c0, c = f :: c0 → entry_ok (heap t') (frame_entry f (up c0) (Some new))) →
  (∀ i, i ≠ id → i ≠ new → Some i ≠ up c → heap t' !! i = heap t !! i) →
  (∀ i, is_Some (heap t' !! i) → i = new ∨ is_Some (heap t !! i)) →
  rep t' (plug c (branch new kq b y Leaf)).
Proof.
  intros y Hrep Hn Hnew Hqk Hcq Htop Hid' Hnew' Hframe Hsame Hdom.
  destruct (rep_path _ _ _ Hrep) as (Hes & _ & Hnd & _ & Hdisj & _ & Hky).
  pose proof (rep_fresh _ _ _ Hrep Hnew) as Hfresh.
  rewrite (ids_plug c y), elem_of_app in Hfresh.
  assert (id ∈ ids (flat None y)) as Hidy by (by left).
  assert (root (branch new kq b y Leaf) = Some new) as Hroot by (by destruct b).
  apply (rep_replace t t' c y); rewrite ?Hroot; try done.
  - rewrite flat_branch. constructor.
    { destruct Hnew' as (nq & Hq & Hok). exists nq. split; [done|].
      destruct b; apply Hok. }
    subst y. cbn [flat] in Hes |- *. apply Forall_cons_1 in Hes as [(n' & Hn' & Hok') Hrest].
    cbn in Hn'. rewrite Hn in Hn'. injection Hn' as <-.
    constructor.
    { exists (set_parent (Some new) n). split; [done|].
      destruct Hok' as (? & ? & ? & ? & ? & ?). by split_and!. }
    eapply entry_ok_same; [exact Hrest|]. intros i Hi.
    assert (i ∈ ids (flat None (Tree id k l r))) as Hiy by (by right).
    cbn in Hnd. apply NoDup_cons in Hnd as [Hnotid _].
    apply Hsame; [by intros ->|by intros ->; tauto|].
    intros Hup. apply (Hdisj i Hiy). destruct c as [|f c]; [done|].
    cbn in Hup. injection Hup as ->. rewrite path_ids_cons. by left.
  - intros i Hi Hup. apply Hsame; [|by intros ->; tauto|done]. intros ->. by apply (Hdisj id).
  - rewrite ids_branch. apply NoDup_cons. split; [tauto|done].
  - intros i. rewrite ids_branch, elem_of_cons. intros [->|Hi]; [tauto|by apply Hdisj].
  - intros i Hi. rewrite ids_branch, elem_of_cons.
    destruct (Hdom i Hi) as [->|Hold]; [by left; left|].
    destruct (decide (i ∈ ids (flat None y))); [left; by right|by right].
  - destruct Hky as (_ & ? & ?). destruct b; cbn; by split_and!.
Qed.

Lemma insert_branch t c id k l r p :
  rep t (plug c (Tree id k l r)) → prefix_af p → (length (u p) ≤ 16)%nat →
  hole_pre c `prefix_of` pbits p → ¬ k `prefix_of` pbits p →
  ∃ n new q b t1 t2 t3 t',
    route_node_new t = Ok (new, t1) ∧ heap t1 !! id = Some n ∧
    heap t1 !! new = Some (RouteNode prefix_new None None None 0 None) ∧
    route_common (n_p n) p prefix_new = Ok q ∧
    update_node new (set_p (Prefix (family p) (prefixlen q) (u q))) t1 = Ok (tt, t2) ∧
    set_link new id t2 = Ok (tt, t3) ∧ link_at (up c) new t3 = Ok (tt, t') ∧
    rep t' (plug c (branch new (pbits q) b (Tree id k l r) Leaf)) ∧
    heap t !! new = None ∧
    (∃ nq, heap t' !! new = Some nq ∧ n_lock nq = 0 ∧ n_info nq = None ∧
       pbits (n_p nq) = pbits q) ∧
    hgrown (heap t) (heap t') ∧
    (∀ i, is_Some (heap t' !! i) → i = new ∨ is_Some (heap t !! i)) ∧
    (if decide (prefixlen q = prefixlen p) then pbits q = pbits p
     else (pbits q ++ [negb b]) `prefix_of` pbits p).
Proof.
  intros Hrep Hp H16 Hcp Hnot.
  destruct (rep_node _ _ _ _ _ _ Hrep) as (n & Hn & Hok).
  destruct (Hok) as (Hnk & _ & _ & _ & Hnw & Hn16). cbn in Hnk.
  destruct (rep_path _ _ _ Hrep) as (_ & _ & _ & _ & Hdisj & _ & Hky).
  destruct (route_node_new_ok t) as (new & Hnew & Hnewop).
  destruct (route_common_keys (n_p n) p) as (q & b & Hq & Hqw & Hq16 & Hqlen & Hqb & Hqp);
    [done..|by rewrite Hnk|]. rewrite Hnk in Hqb.
  set (Q := Prefix (family p) (prefixlen q) (u q)).
  set (NQ := RouteNode Q None None None 0 (@None A)).
  set (t2 := RouteTable (top t) (<[new := NQ]> (heap t))).
  set (t3 := RouteTable (top t) (<[id := set_parent (Some new) n]>
               (<[new := set_link_field b (Some id) NQ]> (<[new := NQ]> (heap t))))).
  assert (new ≠ id) as Hne by congruence.
  pose proof (rep_fresh _ _ _ Hrep Hnew) as Hfresh.
  rewrite (ids_plug c _), elem_of_app in Hfresh.
  assert (hole_pre c `prefix_of` pbits q) as Hcq.
  { eapply (common_above _ k (pbits p)); [by destruct Hky|done|done|].
    case_decide; auto. }
  assert (hgrown (heap t) (heap t3)) as Hg3.
  { intros i m Hm. cbn. destruct (decide (i = id)) as [->|].
    { rewrite lookup_insert_eq. simplify_eq. by eexists. }
    rewrite !lookup_insert_ne by congruence. eauto using grown_refl. }
  destruct (link_at_ok t t3 c (Tree id k l r) new (set_link_field b (Some id) NQ))
    as (t' & Hlink & Htop & Hnew' & Hfr & Hsame & Hgr & Hdom); try done.
  { intros i Hi. cbn. rewrite !lookup_insert_ne; [done|..]; intros <-; [tauto..|].
    apply (Hdisj id); [by left|done]. }
  { cbn. by rewrite lookup_insert_ne, lookup_insert_eq. }
  { tauto. }
  { by destruct b. } { by destruct b. } { by destruct b. } { by destruct b. }
  assert (∀ i, is_Some (heap t' !! i) → i = new ∨ is_Some (heap t !! i)) as Hdom'.
  { intros i Hi. apply Hdom in Hi. cbn in Hi. rewrite !lookup_insert in Hi.
    repeat case_decide; subst; eauto. }
  assert (Some id ≠ up c) as Hidup.
  { intros Hup. apply (Hdisj id); [by left|]. destruct c as [|f c]; [done|].
    cbn in Hup. injection Hup as ->. rewrite path_ids_cons. by left. }
  eexists n, new, q, b, _, t2, t3, t'. split_and!; try done.
  - cbn. by rewrite lookup_insert_ne.
  - cbn. by rewrite lookup_insert_eq.
  - erewrite update_node_ok by (cbn; apply lookup_insert_eq). cbn. by rewrite insert_insert_eq.
  - erewrite set_link_ok; [reflexivity|cbn; apply lookup_insert_eq| |done|].
    { cbn. by rewrite lookup_insert_ne. }
    apply (set_link_bit _ _ (pbits q)); try done. by rewrite Hnk.
  - apply (rep_branch t t' c id k l r new (pbits q) b n); try done.
    + rewrite Hsame by done. cbn. apply lookup_insert_eq.
    + eexists. split; [exact Hnew'|]. by destruct b.
    + intros i H1 H2 H3. rewrite Hsame by done. cbn. by rewrite !lookup_insert_ne.
  - eexists. split; [exact Hnew'|]. by destruct b.
  - by eapply hgrown_trans.
Qed.
(** ** route_node_get *)

Lemma hgrown_locks h h' :
  hgrown h h' → (∀ i n, h !! i = Some n → lock_ok n) →
  ∀ i n, is_Some (h !! i) → h' !! i = Some n → lock_ok n.
Proof.
  intros Hg Hl i n [m Hm] Hn. destruct (Hg i m Hm) as (n' & Hn' & Hgr). simplify_eq.
  eapply grown_lock_ok; eauto.
Qed.

(** Taking a lock on a node repairs the one node that was not in order. *)
Lemma lock_step t x id n :
  rep t x → heap t !! id = Some n → 0 ≤ n_lock n < 2^32 - 1 →
  (∀ i m, i ≠ id → heap t !! i = Some m → lock_ok m) →
  ∃ t', route_lock_node id t = Ok (id, t') ∧ rep t' x ∧ locks t' ∧
    heap t' = <[id := set_lock (n_lock n + 1) n]> (heap t).
Proof.
  intros Hrep Hn Hlk Hoth.
  assert (u32 (n_lock n + 1) = n_lock n + 1) as Hu by (apply u32_id; unfold is_u32; lia).
  eexists. split; [by apply route_lock_node_ok|]. rewrite Hu. split_and!.
  - by eapply rep_update.
  - intros i m. cbn. rewrite lookup_insert. case_decide; [|by eauto].
    intros [= <-]. split; cbn; [unfold is_u32; lia|lia].
  - done.
Qed.

Definition branch_frame (id : ptr) (k : list bool) (b : bool) (y : tree) : frame :=
  if b then FL id k y else FR id k y.

Lemma plug_branch_frame c id k b y z :
  plug (branch_frame id k b y :: c) z = plug c (branch id k b y z).
Proof. by destruct b. Qed.

(** What [route_node_get] returns and leaves behind. *)
Definition get_post t p id t' : Prop :=
  table_inv t' ∧
  (∃ n', heap t' !! id = Some n' ∧ pbits (n_p n') = pbits p ∧
     match heap t !! id with
     | Some n => n' = set_lock (n_lock n + 1) n
     | None => n_lock n' = 1 ∧ n_info n' = None
     end) ∧
  (∀ i n, i ≠ id → heap t !! i = Some n → ∃ n', heap t' !! i = Some n' ∧ grown n n') ∧
  (∀ i n, heap t' !! i = Some n → heap t !! i = None → n_info n = None ∧ n_lock n ≤ 1).

Lemma get_leaf t c p :
  rep t (plug c Leaf) → locks t → prefix_af p → (length (u p) ≤ 16)%nat →
  hole_pre c `prefix_of` pbits p →
  ∃ id t1 t2 t', route_node_set p t = Ok (id, t1) ∧ link_at (up c) id t1 = Ok (tt, t2) ∧
    route_lock_node id t2 = Ok (id, t') ∧ get_post t p id t'.
Proof.
  intros Hrep Hlk Hp H16 Hcp.
  destruct (insert_leaf t c p) as (id & t1 & t2 & Hset & Hlink & Hrep2 & Hid & (n & Hn & Hn0 & Hni & Hnk) & Hgr & _ & Hdom);
    [done..|].
  destruct (lock_step t2 _ id n Hrep2 Hn) as (t' & Hlock & Hrep' & Hlk' & Hh'); [lia| |].
  { intros i m Hi Hm. destruct (Hdom i) as [?|Hold]; [eauto|done|].
    by eapply hgrown_locks. }
  unfold get_post. exists id, t1, t2, t'. split_and!; try done.
  - split; [by eexists|done].
  - exists (set_lock (n_lock n + 1) n). rewrite Hh', lookup_insert_eq, Hid. cbn.
    by rewrite Hn0.
  - intros i m Hi Hm. rewrite Hh', lookup_insert_ne by done. by apply Hgr.
  - intros i m. rewrite Hh', lookup_insert. case_decide; [intros [= <-] _; cbn; rewrite Hn0; by split|].
    intros Hm Hnone. destruct (Hdom i) as [?|[? ?]]; [eauto|congruence..].
Qed.

Lemma get_branch_equal t t4 c y new nq p kq b :
  rep t4 (plug c (branch new kq b y Leaf)) → locks t → heap t !! new = None →
  heap t4 !! new = Some nq → n_lock nq = 0 → n_info nq = None →
  pbits (n_p nq) = pbits p → hgrown (heap t) (heap t4) →
  (∀ i, is_Some (heap t4 !! i) → i = new ∨ is_Some (heap t !! i)) →
  ∃ t', route_lock_node new t4 = Ok (new, t') ∧ get_post t p new t'.
Proof.
  intros Hrep Hlk Hnew Hnq Hq0 Hqi Hqk Hgr Hdom.
  destruct (lock_step t4 _ new nq Hrep Hnq) as (t' & Hlock & Hrep' & Hlk' & Hh'); [lia| |].
  { intros i m Hi Hm. destruct (Hdom i) as [?|Hold]; [eauto|done|].
    by eapply hgrown_locks. }
  exists t'. split; [done|]. unfold get_post. split_and!.
  - split; [by eexists|done].
  - exists (set_lock (n_lock nq + 1) nq). rewrite Hh', lookup_insert_eq, Hnew. cbn.
    by rewrite Hq0.
  - intros i m Hi Hm. rewrite Hh', lookup_insert_ne by done. by apply Hgr.
  - intros i m. rewrite Hh', lookup_insert. case_decide; [intros [= <-] _; cbn; rewrite Hq0; by split|].
    intros Hm Hnone. destruct (Hdom i) as [?|[? ?]]; [eauto|congruence..].
Qed.

Lemma get_branch_leaf t t4 c y new nq p kq b :
  rep t4 (plug c (branch new kq b y Leaf)) → locks t → heap t !! new = None →
  is_Some (root y) →
  heap t4 !! new = Some nq → n_lock nq = 0 → n_info nq = None →
  hgrown (heap t) (heap t4) →
  (∀ i, is_Some (heap t4 !! i) → i = new ∨ is_Some (heap t !! i)) →
  prefix_af p → (length (u p) ≤ 16)%nat → (kq ++ [negb b]) `prefix_of` pbits p →
  ∃ id t5 t6 t', route_node_set p t4 = Ok (id, t5) ∧ set_link new id t5 = Ok (tt, t6) ∧
    route_lock_node id t6 = Ok (id, t') ∧ get_post t p id t'.
Proof.
  intros Hrep Hlk Hnew Hy Hnq Hq0 Hqi Hgr Hdom Hp H16 Hqp.
  rewrite <-plug_branch_frame in Hrep.
  destruct (insert_leaf t4 _ p Hrep Hp H16)
    as (id & t5 & t6 & Hset & Hlink & Hrep6 & Hid & (n & Hn & Hn0 & Hni & Hnk) & Hgr6 & _ & Hdom6).
  { rewrite hole_pre_cons. by destruct b. }
  assert (new ≠ id) as Hne by congruence.
  destruct (Hgr6 new nq Hnq) as (nq' & Hnq' & Hgrq).
  assert (lock_ok nq') as Hlkq.
  { rewrite plug_branch_frame in Hrep6. unfold branch in Hrep6.
    destruct Hgrq as (_ & Hl & Hi & _). unfold lock_ok. rewrite Hl, Hi, Hq0, Hqi.
    split; [unfold is_u32; lia|]. intros _.
    destruct b; destruct (rep_node _ _ _ _ _ _ Hrep6) as (m & Hm & _ & _ & Hml & Hmr & _);
      rewrite Hnq' in Hm; injection Hm as <-; rewrite Hml, Hmr; cbn; eauto. }
  assert (heap t !! id = None) as Hidt.
  { destruct (heap t !! id) as [m|] eqn:E; [|done]. destruct (Hgr _ _ E) as (? & ? & _). congruence. }
  destruct (lock_step t6 _ id n Hrep6 Hn) as (t' & Hlock & Hrep' & Hlk' & Hh'); [lia| |].
  { intros i m Hi Hm. destruct (decide (i = new)) as [->|Hin]; [congruence|].
    destruct (Hdom6 i) as [?|Hold]; [eauto|done|]. destruct (Hdom i Hold) as [?|Hold']; [done|].
    eapply (hgrown_locks (heap t)); [by eapply hgrown_trans|done..]. }
  exists id, t5, t6, t'. split_and!; try done.
  { by destruct b. }
  unfold get_post. split_and!.
  - split; [by eexists|done].
  - exists (set_lock (n_lock n + 1) n). rewrite Hh', lookup_insert_eq, Hidt. cbn.
    by rewrite Hn0.
  - intros i m Hi Hm. rewrite Hh', lookup_insert_ne by done.
    by apply (hgrown_trans _ _ _ Hgr Hgr6).
  - intros i m. rewrite Hh', lookup_insert. case_decide; [intros [= <-] _; cbn; rewrite Hn0; by split|].
    intros Hm Hnone. destruct (decide (i = new)) as [->|Hin].
    { rewrite Hnq' in Hm. injection Hm as <-. destruct Hgrq as (_ & -> & -> & _). split; [done|lia]. }
    destruct (Hdom6 i) as [?|Hold]; [eauto|congruence|].
    destruct (Hdom i Hold) as [?|[? ?]]; congruence.
Qed.

Lemma route_node_get_post t p :
  table_inv t → prefix_af p → (length (u p) ≤ 16)%nat →
  (∀ id n, heap t !! id = Some n → pbits (n_p n) = pbits p → n_lock n < 2^32 - 1) →
  ∃ id t', route_node_get p t = Ok (id, t') ∧ get_post t p id t'.
Proof.
  intros [[x Hrep] Hlk] Hp H16 Hmax. pose proof (prefix_af_wf _ Hp) as Hpw.
  assert (prefixlen p ≤ 128) as H128 by (destruct Hpw; lia).
  destruct (get_loop_spec (size (heap t)) t [] x p Hrep)
    as (c & y & res & Hloop & [Hx Hcp] & Hres); [lia|done|done|by apply prefix_nil|].
  cbn [plug] in Hx. subst x. unfold route_node_get.
  erewrite st_bind_Ok by reflexivity. rewrite (rep_top _ _ Hrep).
  change (up []) with (@None ptr) in Hloop.
  erewrite st_bind_Ok by (by rewrite Hloop).
  destruct Hres as [(id & l & r & -> & ->)|[-> [->|(id & k & l & r & -> & Hnot)]]].
  - destruct (rep_node _ _ _ _ _ _ Hrep) as (n & Hn & Hok).
    assert (pbits (n_p n) = pbits p) as Hk by apply Hok.
    destruct (Hlk id n Hn) as [Hu _]. specialize (Hmax id n Hn Hk).
    destruct (lock_step t _ id n Hrep Hn) as (t' & Hlock & Hrep' & Hlk' & Hh').
    { unfold is_u32 in Hu. lia. }
    { intros i m _. apply Hlk. }
    erewrite st_bind_Ok by done. exists id, t'. split; [done|]. unfold get_post. split_and!.
    + split; [by eexists|done].
    + exists (set_lock (n_lock n + 1) n). by rewrite Hh', lookup_insert_eq, Hn.
    + intros i m Hi Hm. rewrite Hh', lookup_insert_ne by done. eauto using grown_refl.
    + intros i m. rewrite Hh', lookup_insert. case_decide; congruence.
  - destruct (get_leaf t c p) as (id & t1 & t2 & t' & Hset & Hlink & Hlock & Hpost); [done..|].
    exists id, t'. split; [|done]. cbn [root].
    erewrite st_bind_Ok by done. erewrite st_bind_Ok by exact Hlink.
    by erewrite st_bind_Ok by done.
  - destruct (insert_branch t c id k l r p)
      as (n & new & q & b & t1 & t2 & t3 & t4 & H1 & H2 & H3 & H4 & H5 & H6 & H7 & Hrep4
          & Hnew & (nq & Hnq & Hq0 & Hqi & Hqk) & Hgr & Hdom & Hqp); [done..|].
    cbn [root]. erewrite st_bind_Ok by done.
    erewrite st_bind_Ok by (by apply read_node_ok).
    erewrite st_bind_Ok by (by apply read_node_ok). cbn [n_p].
    erewrite st_bind_Ok by (by rewrite H4).
    erewrite st_bind_Ok by done. erewrite st_bind_Ok by done.
    erewrite st_bind_Ok by exact H7.
    case_decide as Heq.
    + rewrite (proj2 (Z.eqb_eq _ _) Heq).
      destruct (get_branch_equal t t4 c (Tree id k l r) new nq p (pbits q) b)
        as (t' & Hlock & Hpost); [done..|congruence|done|done|].
      erewrite st_bind_Ok by done. eauto.
    + rewrite (proj2 (Z.eqb_neq _ _) Heq).
      destruct (get_branch_leaf t t4 c (Tree id k l r) new nq p (pbits q) b)
        as (id' & t5 & t6 & t' & Hset & Hlink & Hlock & Hpost); [done..|].
      erewrite st_bind_Ok by done. erewrite st_bind_Ok by done.
      erewrite st_bind_Ok by done. eauto.
Qed.
End Get.
