(* ===== verification/TableDelete.v ===== *)
(** The routing table: route_node_delete and route_unlock_node.

    Dropping the last lock of a node removes it, and every stub above it that is
    no longer needed, without touching what other nodes hold. *)

From S2P Require Import Prelude Prefix Table TableFacts TableRep TableWalk TableGet.

Section Delete.
Context {A : Type}.
Implicit Types (t : route_table A) (n : route_node A) (h : gmap ptr (route_node A)).

Definition same_data (n n' : route_node A) : Prop :=
  n_p n' = n_p n ∧ n_lock n' = n_lock n ∧ n_info n' = n_info n.

Lemma same_data_trans n1 n2 n3 : same_data n1 n2 → same_data n2 n3 → same_data n1 n3.
Proof. intros (? & ? & ?) (? & ? & ?). unfold same_data. split_and!; congruence. Qed.

(** ** Taking one node out *)

Definition only_child (l r : tree) : tree := match l with Leaf => r | _ => l end.

(** [if (child) child->parent = parent;] *)
Definition unlink_child (child parent : option ptr) : ST (route_table A) unit :=
  match child with
  | Some c => update_node c (set_parent parent)
  | None => mret tt
  end.

(** [if (parent) ... else node->table->top = child;] *)
Definition unlink_parent (node : ptr) (child parent : option ptr) : ST (route_table A) unit :=
  match parent with
  | Some pa =>
      np ← read_node pa;
      (if bool_decide (n_left np = Some node)
       then update_node pa (set_left child)
       else update_node pa (set_right child))
  | None => set_top child
  end.

Lemma unlink_child_ok t z par :
  Forall (entry_ok (heap t)) (flat par z) →
  ∀ newpar, ∃ t1, unlink_child (root z) newpar t = Ok (tt, t1) ∧ top t1 = top t ∧
    (∀ i, Some i ≠ root z → heap t1 !! i = heap t !! i) ∧
    (∀ i n, root z = Some i → heap t !! i = Some n →
       heap t1 !! i = Some (set_parent newpar n)) ∧
    (∀ i, is_Some (heap t1 !! i) ↔ is_Some (heap t !! i)).
Proof.
  intros Hes newpar. destruct z as [|zid zk zl zr]; cbn [root unlink_child].
  { exists t. split_and!; done. }
  cbn in Hes. apply Forall_cons_1 in Hes as [(nz & Hnz & _) _]. cbn in Hnz.
  eexists. split; [by apply update_node_ok|]. cbn. split_and!; [done|..].
  - intros i Hi. rewrite lookup_insert_ne; [done|congruence].
  - intros i n [= <-] Hn. simplify_eq. apply lookup_insert_eq.
  - intros i. rewrite lookup_insert. case_decide; subst; [|done]. split; eauto.
Qed.

Lemma unlink_parent_ok t t1 c id k l r newch :
  rep t (plug c (Tree id k l r)) →
  (∀ i, i ∈ path_ids c → heap t1 !! i = heap t !! i) →
  top t1 = top t →
  ∃ t2, unlink_parent id newch (up c) t1 = Ok (tt, t2) ∧
    top t2 = (if decide (c = []) then newch else top t1) ∧
    (∀ f c0, c = f :: c0 → entry_ok (heap t2) (frame_entry f (up c0) newch)) ∧
    (∀ i, Some i ≠ up c → heap t2 !! i = heap t1 !! i) ∧
    (∀ i n, heap t1 !! i = Some n → ∃ n', heap t2 !! i = Some n' ∧ same_data n n') ∧
    (∀ i, is_Some (heap t2 !! i) ↔ is_Some (heap t1 !! i)).
Proof.
  intros Hrep Hsame Htop. destruct c as [|f c]; cbn [up head fmap option_fmap option_map unlink_parent].
  { eexists. split; [reflexivity|]. cbn. split_and!; try done. intros i n Hn. by exists n. }
  destruct (rep_path _ _ _ Hrep) as (_ & Hpath & _ & Hnp & Hdisj & _).
  rewrite flat_path_cons in Hpath. apply Forall_cons_1 in Hpath as [(n & Hn & Hok) _].
  rewrite path_ids_cons in Hsame, Hdisj.
  assert (e_id (frame_entry f (up c) (Some id)) = frame_id f) as Hfid by (by destruct f).
  cbn [root] in Hn. rewrite Hfid in Hn. rewrite <-Hsame in Hn by (by left).
  erewrite st_bind_Ok by (by apply read_node_ok).
  assert (bool_decide (n_left n = Some id) = negb (frame_bit f)) as Hside.
  { destruct Hok as (_ & _ & Hl & _). rewrite Hl. destruct f as [fid fk fr|fid fk fl]; cbn.
    - by apply bool_decide_eq_true.
    - apply bool_decide_eq_false. intros Hroot. apply (Hdisj id); [by left|].
      right. apply elem_of_app. left. cbn. destruct fl as [|flid flk fll flr]; [done|].
      cbn in Hroot |- *. injection Hroot as ->. by left. }
  rewrite Hside.
  assert (∃ g, (if negb (frame_bit f) then update_node (frame_id f) (set_left newch)
                else update_node (frame_id f) (set_right newch)) = update_node (frame_id f) g ∧
    g n = set_link_field (frame_bit f) newch n) as (g & -> & Hg)
    by (destruct (frame_bit f); by eexists).
  erewrite update_node_ok by done. rewrite Hg.
  eexists. split; [reflexivity|]. cbn [top heap]. split_and!.
  - done.
  - intros f' c0 [= <- <-]. exists (set_link_field (frame_bit f) newch n).
    replace (e_id (frame_entry f (up c) newch)) with (frame_id f) by (by destruct f).
    rewrite lookup_insert_eq. split; [done|].
    unfold node_ok in *. destruct f; cbn in *; naive_solver.
  - intros i Hi. rewrite lookup_insert_ne; [done|congruence].
  - intros i m Hm. rewrite lookup_insert.
    destruct (decide (frame_id f = i)); [|by exists m].
    subst i. rewrite Hn in Hm. injection Hm as <-. eexists. split; [done|]. by destruct (frame_bit f).
  - intros i. rewrite lookup_insert.
    destruct (decide (frame_id f = i)); [|done]. subst i. split; eauto.
Qed.

Lemma unlink_ok t c id k l r :
  let z := only_child l r in
  rep t (plug c (Tree id k l r)) → l = Leaf ∨ r = Leaf →
  ∃ t1 t2 t3, unlink_child (root z) (up c) t = Ok (tt, t1) ∧
    unlink_parent id (root z) (up c) t1 = Ok (tt, t2) ∧
    route_node_free id t2 = Ok (tt, t3) ∧ rep t3 (plug c z) ∧
    heap t3 !! id = None ∧
    (∀ i n, i ≠ id → heap t !! i = Some n → ∃ n', heap t3 !! i = Some n' ∧ same_data n n') ∧
    (∀ i, i ≠ id → Some i ≠ up c → (n_left <$> heap t3 !! i) = (n_left <$> heap t !! i) ∧
       (n_right <$> heap t3 !! i) = (n_right <$> heap t !! i)) ∧
    (∀ i, is_Some (heap t3 !! i) → i ≠ id ∧ is_Some (heap t !! i)).
Proof.
  intros z Hrep Hone.
  destruct (rep_path _ _ _ Hrep) as (Hes & _ & Hnd & _ & Hdisj & _ & Hky).
  assert (Forall (entry_ok (heap t)) (flat (Some id) z)) as Hz.
  { cbn in Hes. apply Forall_cons_1 in Hes as [_ Hes]. apply Forall_app in Hes as [? ?].
    subst z. by destruct l. }
  assert (ids (flat None (Tree id k l r)) = id :: ids (flat None z)) as Hids.
  { cbn. f_equal. rewrite ids_app, !(ids_flat (Some id)). subst z.
    destruct Hone as [->| ->]; cbn; [done|]. rewrite app_nil_r. by destruct l. }
  rewrite Hids in Hnd, Hdisj. apply NoDup_cons in Hnd as [Hidz Hnd].
  assert (∀ i, root z = Some i → i ∈ ids (flat None z)) as Hroot.
  { intros i Hi. destruct z; [done|]. cbn in *. injection Hi as ->. by left. }
  destruct (rep_node _ _ _ _ _ _ Hrep) as (n & Hn & _). cbn in Hn.
  destruct (unlink_child_ok t z (Some id) Hz (up c)) as (t1 & H1 & Htop1 & Hs1 & Hr1 & Hd1).
  destruct (unlink_parent_ok t t1 c id k l r (root z)) as (t2 & H2 & Htop2 & Hf2 & Hs2 & Hg2 & Hd2);
    [done| |done|].
  { intros i Hi. apply Hs1. intros Hri. apply (Hdisj i); [right; by apply Hroot|done]. }
  assert (∀ i, i ∈ id :: ids (flat None z) → Some i ≠ up c) as Hup.
  { intros i Hi Hup. apply (Hdisj i Hi). destruct c as [|f c]; [done|].
    cbn in Hup. injection Hup as ->. rewrite path_ids_cons. by left. }
  assert (is_Some (heap t2 !! id)) as [n2 Hn2] by (apply Hd2, Hd1; eauto).
  exists t1, t2, (RouteTable (top t2) (delete id (heap t2))). split_and!; try done.
  - unfold route_node_free. by rewrite Hn2.
  - apply (rep_replace t _ c (Tree id k l r)); cbn [top heap]; try done.
    + rewrite Htop2. case_decide; [done|]. by rewrite Htop1.
    + destruct z as [|zid zk zl zr]; [constructor|]. cbn [flat] in Hz |- *.
      apply Forall_cons_1 in Hz as [(nz & Hnz & Hokz) Hz]. cbn in Hnz.
      constructor.
      * exists (set_parent (up c) nz). cbn [e_id]. split.
        { rewrite lookup_delete_ne by (intros ->; apply Hidz; by left).
          rewrite Hs2 by (apply Hup; right; by left). by apply Hr1. }
        destruct Hokz as (? & ? & ? & ? & ? & ?). by split_and!.
      * eapply entry_ok_same; [exact Hz|]. intros i Hi.
        assert (i ∈ ids (flat None (Tree zid zk zl zr))) as Hiz by (by right).
        cbn in Hnd. apply NoDup_cons in Hnd as [Hnz' _].
        rewrite lookup_delete_ne by (intros ->; done).
        rewrite Hs2 by (apply Hup; by right). apply Hs1. intros [= ->]. done.
    + intros f c0 ->. destruct (Hf2 f c0 eq_refl) as (m & Hm & Hok).
      exists m. split; [|done]. rewrite lookup_delete_ne; [done|].
      intros Heq. apply (Hup id); [by left|]. cbn. rewrite Heq. f_equal. by destruct f.
    + intros i Hi Hnup. rewrite lookup_delete_ne by (intros <-; apply (Hdisj id); [by left|done]).
      rewrite Hs2 by done. apply Hs1. intros Hri. apply (Hdisj i); [right; by apply Hroot|done].
    + intros i Hi. by apply Hdisj; right.
    + intros i Hi. destruct (decide (i = id)) as [->|Hne]; [by rewrite lookup_delete_eq in Hi; destruct Hi|].
      rewrite lookup_delete_ne in Hi by done. apply Hd2, Hd1 in Hi.
      destruct (decide (i ∈ ids (flat None z))); [by left|right]. split; [done|].
      rewrite Hids, elem_of_cons. naive_solver.
    + destruct Hky as (Hck & Hl & Hr). subst z. destruct l; cbn [only_child].
      * eapply keyed_weaken; [|done]. trans k; [done|by apply prefix_app_r].
      * eapply keyed_weaken; [|done]. trans k; [done|by apply prefix_app_r].
  - cbn. apply lookup_delete_eq.
  - cbn. intros i m Hi Hm. rewrite lookup_delete_ne by done.
    assert (∃ m1, heap t1 !! i = Some m1 ∧ same_data m m1) as (m1 & Hm1 & Hsd1).
    { destruct (decide (Some i = root z)) as [Hri|Hri].
      - exists (set_parent (up c) m). split; [by apply Hr1|done].
      - exists m. by rewrite Hs1. }
    destruct (Hg2 i m1 Hm1) as (m2 & Hm2 & Hsd2). exists m2. split; [done|].
    by eapply same_data_trans.
  - cbn. intros i Hi Hnup. rewrite lookup_delete_ne, Hs2 by done.
    destruct (decide (Some i = root z)) as [Hri|Hri]; [|by rewrite Hs1].
    assert (is_Some (heap t !! i)) as [m Hm].
    { destruct z; [done|]. cbn in Hri. injection Hri as ->. cbn in Hz.
      apply Forall_cons_1 in Hz as [(m & Hm & _) _]. eauto. }
    rewrite (Hr1 i m), Hm by done. done.
  - cbn. intros i Hi. destruct (decide (i = id)) as [->|Hne].
    { rewrite lookup_delete_eq in Hi. by destruct Hi. }
    rewrite lookup_delete_ne in Hi by done. split; [done|]. by apply Hd1, Hd2.
Qed.
(** ** Deletion up the tree *)

Definition delete_post t t' : Prop :=
  table_inv t' ∧
  (∀ i m, heap t !! i = Some m → n_lock m ≠ 0 → ∃ m', heap t' !! i = Some m' ∧ same_data m m') ∧
  (∀ i m', heap t' !! i = Some m' → ∃ m, heap t !! i = Some m ∧ same_data m m').

Lemma delete_post_step t t3 t' id n :
  heap t !! id = Some n → n_lock n = 0 → heap t3 !! id = None →
  (∀ i m, i ≠ id → heap t !! i = Some m → ∃ m', heap t3 !! i = Some m' ∧ same_data m m') →
  (∀ i, is_Some (heap t3 !! i) → i ≠ id ∧ is_Some (heap t !! i)) →
  delete_post t3 t' → delete_post t t'.
Proof.
  intros Hn Hn0 Hid Hdata Hdom (Hinv & Hkeep & Hback). split_and!; [done|..].
  - intros i m Hm Hlk. assert (i ≠ id) as Hne by congruence.
    destruct (Hdata i m Hne Hm) as (m3 & Hm3 & Hsd).
    destruct (Hkeep i m3 Hm3) as (m' & Hm' & Hsd'); [by destruct Hsd as (_ & -> & _)|].
    exists m'. split; [done|]. by eapply same_data_trans.
  - intros i m' Hm'. destruct (Hback i m' Hm') as (m3 & Hm3 & Hsd').
    destruct (Hdom i) as [Hne [m Hm]]; [eauto|].
    destruct (Hdata i m Hne Hm) as (m3' & Hm3' & Hsd). simplify_eq.
    exists m. split; [done|]. by eapply same_data_trans.
Qed.

Lemma delete_post_refl t : table_inv t → delete_post t t.
Proof. intros H. split_and!; [done|..]; intros i m Hm; by exists m. Qed.

Lemma lock_ok_unlinked (m m' : route_node A) :
  same_data m m' → n_left m' = n_left m → n_right m' = n_right m → lock_ok m → lock_ok m'.
Proof. intros (_ & Hl & Hi) Hle Hri. unfold lock_ok. by rewrite Hl, Hi, Hle, Hri. Qed.

(** The nodes off the parent keep their order when one node is taken out. *)
Lemma unlink_locks t t3 id up :
  (∀ i m, i ≠ id → heap t !! i = Some m → lock_ok m) →
  (∀ i n, i ≠ id → heap t !! i = Some n → ∃ n', heap t3 !! i = Some n' ∧ same_data n n') →
  (∀ i, i ≠ id → Some i ≠ up → (n_left <$> heap t3 !! i) = (n_left <$> heap t !! i) ∧
     (n_right <$> heap t3 !! i) = (n_right <$> heap t !! i)) →
  (∀ i, is_Some (heap t3 !! i) → i ≠ id ∧ is_Some (heap t !! i)) →
  ∀ i m, Some i ≠ up → heap t3 !! i = Some m → lock_ok m.
Proof.
  intros Hlk Hdata Hlinks Hdom i m Hup Hm.
  destruct (Hdom i) as [Hne [m0 Hm0]]; [eauto|].
  destruct (Hdata i m0 Hne Hm0) as (m' & Hm' & Hsd). simplify_eq.
  destruct (Hlinks i Hne Hup) as [Hl Hr]. rewrite Hm, Hm0 in Hl, Hr. cbn in Hl, Hr.
  eapply lock_ok_unlinked; [done|congruence|congruence|by eapply Hlk].
Qed.

Lemma delete_unfold fuel t id n c k l r :
  heap t !! id = Some n → n_lock n = 0 → n_info n = None →
  node_ok n (Entry id k (up c) (root l) (root r)) → l = Leaf ∨ r = Leaf →
  route_node_delete_fuel fuel id t =
    (unlink_child (root (only_child l r)) (up c);;
     unlink_parent id (root (only_child l r)) (up c);;
     route_node_free id;;
     match up c with
     | Some pa =>
         np ← read_node pa;
         if n_lock np =? 0 then
           match fuel with
           | O => st_fail OutOfFuel
           | S f => route_node_delete_fuel f pa
           end
         else mret tt
     | None => mret tt
     end) t.
Proof.
  intros Hn Hlk Hi (_ & Hpar & Hl & Hr & _) Hone. cbn in Hpar, Hl, Hr.
  destruct fuel; cbn [route_node_delete_fuel];
    (erewrite st_bind_Ok by (by apply read_node_ok));
    rewrite Hlk, Hi, Hl, Hr, Hpar;
    (erewrite st_bind_Ok by reflexivity); (erewrite st_bind_Ok by reflexivity);
    destruct Hone as [->| ->]; cbn [root only_child]; try (by destruct (root r));
    by destruct l.
Qed.

Lemma delete_both fuel t id n :
  heap t !! id = Some n → n_lock n = 0 → n_info n = None →
  is_Some (n_left n) → is_Some (n_right n) →
  route_node_delete_fuel fuel id t = Ok (tt, t).
Proof.
  intros Hn Hlk Hi [l Hl] [r Hr].
  destruct fuel; cbn [route_node_delete_fuel];
    (erewrite st_bind_Ok by (by apply read_node_ok));
    rewrite Hlk, Hi, Hl, Hr;
    (erewrite st_bind_Ok by reflexivity); by (erewrite st_bind_Ok by reflexivity).
Qed.

(** One round: nothing to do, or the node is out and its parent is next. *)
Lemma delete_round fuel t c id k l r n :
  rep t (plug c (Tree id k l r)) → heap t !! id = Some n →
  n_lock n = 0 → n_info n = None →
  (∀ i m, i ≠ id → heap t !! i = Some m → lock_ok m) →
  (route_node_delete_fuel fuel id t = Ok (tt, t) ∧ delete_post t t) ∨
  (∃ t3, route_node_delete_fuel fuel id t =
       match up c with
       | Some pa =>
           np ← read_node pa;
           if n_lock np =? 0 then
             match fuel with
             | O => st_fail OutOfFuel
             | S f => route_node_delete_fuel f pa
             end
           else mret tt
       | None => mret tt
       end t3 ∧
     rep t3 (plug c (only_child l r)) ∧
     (∀ t', delete_post t3 t' → delete_post t t') ∧
     (∀ i m, Some i ≠ up c → heap t3 !! i = Some m → lock_ok m) ∧
     (∀ i m, heap t3 !! i = Some m →
        ∃ m0, i ≠ id ∧ heap t !! i = Some m0 ∧ same_data m0 m)).
Proof.
  intros Hrep Hn Hn0 Hni Hlk.
  destruct (rep_node _ _ _ _ _ _ Hrep) as (n' & Hn' & Hok). cbn in Hn'.
  rewrite Hn in Hn'. injection Hn' as <-.
  assert (n_left n = root l ∧ n_right n = root r) as [Hl Hr]
    by (destruct Hok as (_ & _ & ? & ? & _); done).
  destruct (decide (is_Some (root l) ∧ is_Some (root r))) as [[Hsl Hsr]|Hone].
  - left. rewrite <-Hl, <-Hr in *. split; [by eapply delete_both|].
    apply delete_post_refl. split; [by eexists|].
    intros i m Hm. destruct (decide (i = id)) as [->|]; [|by eauto].
    rewrite Hn in Hm. injection Hm as <-. split; [rewrite Hn0; unfold is_u32; lia|done].
  - right. assert (l = Leaf ∨ r = Leaf) as Hleaf
      by (destruct l, r; auto; destruct Hone; split; by eexists).
    destruct (unlink_ok t c id k l r Hrep Hleaf)
      as (t1 & t2 & t3 & H1 & H2 & H3 & Hrep3 & Hid3 & Hdata & Hlinks & Hdom).
    exists t3. split_and!; [|done|..].
    + rewrite (delete_unfold _ _ _ _ _ _ _ _ Hn Hn0 Hni Hok Hleaf).
      erewrite st_bind_Ok by exact H1. erewrite st_bind_Ok by exact H2.
      by erewrite st_bind_Ok by exact H3.
    + intros t'. by eapply delete_post_step.
    + by eapply unlink_locks.
    + intros i m Hm. destruct (Hdom i) as [Hne [m0 Hm0]]; [eauto|].
      destruct (Hdata i m0 Hne Hm0) as (m' & Hm' & Hsd).
      rewrite Hm in Hm'. injection Hm' as <-. eauto.
Qed.

Lemma delete_spec fuel t c id k l r n :
  rep t (plug c (Tree id k l r)) → heap t !! id = Some n →
  n_lock n = 0 → n_info n = None →
  (∀ i m, i ≠ id → heap t !! i = Some m → lock_ok m) → (length c ≤ fuel)%nat →
  ∃ t', route_node_delete_fuel fuel id t = Ok (tt, t') ∧ delete_post t t'.
Proof.
  revert fuel t id k l r n.
  induction c as [|f c IH]; intros fuel t id k l r n Hrep Hn Hn0 Hni Hlk Hfuel;
    destruct (delete_round fuel t _ id k l r n Hrep Hn Hn0 Hni Hlk)
      as [[Hrun Hpost]|(t3 & -> & Hrep3 & Hstep & Hlk3 & Hback)]; [by eauto| |by eauto|].
  - exists t3. split; [done|]. apply Hstep, delete_post_refl. split; [by eexists|].
    intros i m. by apply Hlk3.
  - cbn [up head fmap option_fmap option_map].
    assert (∃ fk fl fr, plug1 f (only_child l r) = Tree (frame_id f) fk fl fr) as (fk & fl & fr & Hf)
      by (destruct f; by eexists _, _, _).
    cbn [plug] in Hrep3. rewrite Hf in Hrep3.
    destruct (rep_node _ _ _ _ _ _ Hrep3) as (np & Hnp & Hokp). cbn in Hnp.
    erewrite st_bind_Ok by (by apply read_node_ok).
    destruct (Hback _ _ Hnp) as (m & Hne & Hm & _ & Hsl & Hsi).
    pose proof (Hlk _ m Hne Hm) as [Hu32 Hstub].
    destruct (Z.eqb_spec (n_lock np) 0) as [Hz|Hz].
    + cbn in Hfuel. destruct fuel as [|fuel]; [lia|].
      destruct (IH fuel t3 (frame_id f) fk fl fr np) as (t' & Hdel & Hpost); try done.
      * rewrite Hsi. apply Hstub. congruence.
      * intros i mi Hi. apply Hlk3. cbn. congruence.
      * lia.
      * exists t'. split; [done|]. by apply Hstep.
    + exists t3. split; [done|]. apply Hstep, delete_post_refl. split; [by eexists|].
      intros i mi Hmi. destruct (decide (i = frame_id f)) as [->|].
      * rewrite Hnp in Hmi. injection Hmi as <-. split; [by rewrite Hsl|done].
      * eapply Hlk3; [|done]. cbn. congruence.
Qed.

(** [route_unlock_node] on a node that is held. *)
Lemma route_unlock_node_post t id n :
  table_inv t → heap t !! id = Some n → 0 < n_lock n →
  (n_lock n = 1 → n_info n = None) →
  ∃ t', route_unlock_node id t = Ok (tt, t') ∧
    delete_post (RouteTable (top t) (<[id := set_lock (n_lock n - 1) n]> (heap t))) t'.
Proof.
  intros [[x Hrep] Hlk] Hn Hpos Hinfo.
  pose proof (Hlk id n Hn) as [Hu32 _].
  assert (u32 (n_lock n - 1) = n_lock n - 1) as Hu
    by (apply u32_id; unfold is_u32 in *; lia).
  unfold route_unlock_node. erewrite st_bind_Ok by (by apply update_node_ok). cbv beta. rewrite Hu.
  set (n1 := set_lock (n_lock n - 1) n).
  set (t1 := RouteTable (top t) (<[id := n1]> (heap t))).
  assert (heap t1 !! id = Some n1) as Hn1 by apply lookup_insert_eq.
  erewrite st_bind_Ok by (by apply read_node_ok).
  assert (rep t1 x) as Hrep1 by (by eapply rep_update).
  assert (∀ i m, i ≠ id → heap t1 !! i = Some m → lock_ok m) as Hlk1.
  { intros i m Hi. cbn. rewrite lookup_insert_ne by done. apply Hlk. }
  cbn [n_lock n1]. change (n_lock n1) with (n_lock n - 1).
  destruct (Z.eqb_spec (n_lock n - 1) 0) as [Hz|Hz].
  - destruct (rep_locate t1 x id n1 Hrep1 Hn1) as (c & l & r & ->).
    pose proof (rep_depth _ _ _ _ _ _ Hrep1) as Hd.
    unfold route_node_delete.
    apply (delete_spec (size (heap t1)) t1 c id (pbits (n_p n1)) l r n1); try done; [|lia].
    apply Hinfo. lia.
  - exists t1. split; [done|]. apply delete_post_refl. split; [by eexists|].
    intros i m Hm. destruct (decide (i = id)) as [->|]; [|by eauto].
    rewrite Hn1 in Hm. injection Hm as <-. split; cbn; [unfold is_u32 in *; lia|lia].
Qed.
End Delete.
