(* ===== verification/TableIter.v ===== *)
(** The routing table: iteration with route_top and route_next. *)

From S2P Require Import Prelude Prefix Table TableFacts TableRep TableWalk TableGet TableDelete.

Section Iter.
Context {A : Type}.
Implicit Types (t : route_table A) (n : route_node A) (h : gmap ptr (route_node A)).

(** The nodes of a tree in the order the tree is walked. *)
Definition preorder (x : tree) : list ptr := ids (flat None x).

Fixpoint before (c : path) : list ptr :=
  match c with
  | [] => []
  | FL id _ _ :: c' => before c' ++ [id]
  | FR id _ l :: c' => before c' ++ id :: preorder l
  end.

Fixpoint after (c : path) : list ptr :=
  match c with
  | [] => []
  | FL _ _ r :: c' => preorder r ++ after c'
  | FR _ _ _ :: c' => after c'
  end.

Lemma preorder_Tree id k l r :
  preorder (Tree id k l r) = id :: preorder l ++ preorder r.
Proof. unfold preorder. cbn. by rewrite ids_app, !(ids_flat (Some id)). Qed.

Lemma preorder_plug c x : preorder (plug c x) = before c ++ preorder x ++ after c.
Proof.
  revert x. induction c as [|[id k r|id k l] c IH]; intros x; cbn [plug plug1 before after].
  - by rewrite app_nil_r.
  - rewrite IH, preorder_Tree. cbn. by rewrite <-!app_assoc.
  - rewrite IH, preorder_Tree. cbn. by rewrite <-!app_assoc.
Qed.

Lemma root_preorder x : root x = head (preorder x).
Proof. by destruct x. Qed.

(** The walk up finds what follows a whole subtree. *)
Lemma next_up_spec fuel t c id k l r :
  rep t (plug c (Tree id k l r)) → (length c ≤ fuel)%nat →
  next_up fuel (heap t) id None = Ok (head (after c)).
Proof.
  revert fuel id k l r. induction c as [|f c IH]; intros fuel id k l r Hrep Hfuel;
    destruct (rep_node _ _ _ _ _ _ Hrep) as (n & Hn & _ & Hpar & _); cbn in Hn, Hpar.
  { destruct fuel; cbn [next_up]; rewrite Hn; cbn; by rewrite Hpar. }
  destruct fuel as [|fuel]; [cbn in Hfuel; lia|].
  assert (∃ fk fl fr, plug1 f (Tree id k l r) = Tree (frame_id f) fk fl fr ∧
    fl = (match f with FL _ _ _ => Tree id k l r | FR _ _ l => l end) ∧
    fr = (match f with FL _ _ r => r | FR _ _ _ => Tree id k l r end))
    as (fk & fl & fr & Hf & Hfl & Hfr) by (destruct f; by eexists _, _, _).
  pose proof (rep_nodup _ _ Hrep) as Hnd. change (ids ?z) with (preorder (plug (f :: c) (Tree id k l r))) in Hnd.
  cbn [plug] in Hrep, Hnd. rewrite Hf in Hrep, Hnd.
  destruct (rep_node _ _ _ _ _ _ Hrep) as (np & Hnp & _ & _ & Hnl & Hnr & _). cbn in Hnp, Hnl, Hnr.
  cbn [next_up]. rewrite Hn. cbn [of_option mbind res_bind]. rewrite Hpar.
  rewrite bool_decide_eq_false_2 by done. rewrite Hnp. cbn [of_option mbind res_bind].
  rewrite Hnr, Hnl.
  specialize (IH fuel _ _ _ _ Hrep ltac:(cbn in Hfuel; lia)).
  destruct f as [fid fk' fr'|fid fk' fl']; subst fl fr; cbn [root frame_id after] in *.
  - destruct fr' as [|rid rk rl rr]; cbn [root]; [done|].
    by rewrite bool_decide_eq_true_2.
  - rewrite bool_decide_eq_false_2; [done|]. intros Hl.
    rewrite preorder_plug, preorder_Tree in Hnd. apply NoDup_app in Hnd as (_ & _ & Hnd).
    apply NoDup_app in Hnd as (Hnd & _ & _). apply NoDup_cons in Hnd as [_ Hnd].
    apply NoDup_app in Hnd as (_ & Hd & _). apply (Hd id).
    + destruct fl'; [done|]. cbn in Hl |- *. injection Hl as ->. by left.
    + by left.
Qed.

(** A table with one more lock on a node. *)
Definition hold (id : ptr) t : route_table A :=
  match heap t !! id with
  | Some n => RouteTable (top t) (<[id := set_lock (n_lock n + 1) n]> (heap t))
  | None => t
  end.

Definition hold_opt (o : option ptr) t : route_table A :=
  match o with Some id => hold id t | None => t end.

Lemma set_lock_id n : set_lock (n_lock n) n = n.
Proof. by destruct n. Qed.

Lemma hold_rep t x id : rep t x → rep (hold id t) x.
Proof.
  intros H. unfold hold. destruct (heap t !! id) as [n|] eqn:E; [|done].
  by eapply rep_update.
Qed.

(** Giving the lock back restores the table, stubs included. *)
Lemma unlock_hold t x id n :
  rep t x → locks t → heap t !! id = Some n → n_lock n < 2^32 - 1 →
  route_unlock_node id (hold id t) = Ok (tt, t).
Proof.
  intros Hrep Hlk Hn Hmax. pose proof (Hlk id n Hn) as [Hu Hstub]. unfold is_u32 in Hu.
  unfold hold. rewrite Hn. unfold route_unlock_node.
  erewrite st_bind_Ok by (apply update_node_ok; cbn; apply lookup_insert_eq).
  cbv beta. cbn [n_lock set_lock heap top].
  replace (n_lock n + 1 - 1) with (n_lock n) by lia.
  rewrite u32_id by (unfold is_u32; lia). rewrite insert_insert_eq.
  assert (set_lock (n_lock n) (set_lock (n_lock n + 1) n) = n) as -> by (by destruct n).
  rewrite insert_id by done.
  assert (RouteTable (top t) (heap t) = t) as -> by (by destruct t).
  erewrite st_bind_Ok by (by apply read_node_ok).
  destruct (Z.eqb_spec (n_lock n) 0) as [Hz|Hz]; [|done].
  destruct (Hstub Hz) as (? & ? & ?). by eapply delete_both.
Qed.

Lemma hold_other t id i : i ≠ id → heap (hold id t) !! i = heap t !! i.
Proof.
  intros Hne. unfold hold. destruct (heap t !! id); [|done]. cbn. by rewrite lookup_insert_ne.
Qed.

Lemma hold_comm t i j : i ≠ j → hold i (hold j t) = hold j (hold i t).
Proof.
  intros Hne. unfold hold at 1 3. rewrite !hold_other by congruence. unfold hold.
  destruct (heap t !! i) as [ni|] eqn:Ei, (heap t !! j) as [nj|] eqn:Ej; cbn; try done.
  f_equal. by rewrite insert_insert_ne.
Qed.

Lemma lock_hold t id n :
  heap t !! id = Some n → is_u32 (n_lock n) → n_lock n < 2^32 - 1 →
  route_lock_node id t = Ok (id, hold id t).
Proof.
  intros Hn Hu Hmax. unfold is_u32 in Hu. erewrite route_lock_node_ok by done.
  unfold hold. rewrite Hn, u32_id by (unfold is_u32; lia). done.
Qed.

Definition locks_room t : Prop := ∀ id n, heap t !! id = Some n → n_lock n < 2^32 - 1.

(** Moving on from [id] to [next]: the code common to the exits of route_next. *)
Lemma step_hold t x id next :
  rep t x → locks t → locks_room t → id ∈ preorder x → next ∈ preorder x → id ≠ next →
  (route_lock_node next;; route_unlock_node id;; mret (Some next)) (hold id t) =
    Ok (Some next, hold next t).
Proof.
  intros Hrep Hlk Hroom Hid Hnext Hne.
  assert (∀ i, i ∈ preorder x → is_Some (heap t !! i)) as Hin.
  { intros i (e & -> & He)%list_elem_of_fmap. pose proof (rep_entries _ _ Hrep) as Hes.
    rewrite Forall_forall in Hes. destruct (Hes e He) as (n & Hn & _). eauto. }
  destruct (Hin id Hid) as [n Hn], (Hin next Hnext) as [m Hm].
  assert (heap (hold id t) !! next = Some m) as Hm' by (by rewrite hold_other).
  assert (locks (hold next t)) as Hlk'.
  { intros i k. unfold hold. rewrite Hm. cbn. rewrite lookup_insert.
    case_decide; [|apply Hlk]. intros [= <-]. destruct (Hlk _ _ Hm) as [Hu _].
    specialize (Hroom _ _ Hm). unfold is_u32 in Hu. split; cbn; [unfold is_u32; lia|lia]. }
  erewrite st_bind_Ok by (eapply lock_hold; [done|by eapply Hlk|by eapply Hroom]).
  rewrite hold_comm by done.
  erewrite st_bind_Ok; [done|].
  apply (unlock_hold (hold next t) x id n); [by apply hold_rep|done| |by eapply Hroom].
  by rewrite hold_other by done.
Qed.

Lemma route_next_hold t x id pre post :
  rep t x → locks t → locks_room t → preorder x = pre ++ id :: post →
  route_next id (hold id t) = Ok (head post, hold_opt (head post) t).
Proof.
  intros Hrep Hlk Hroom Hpre.
  assert (id ∈ preorder x) as Hid by (rewrite Hpre; set_solver).
  assert (is_Some (heap t !! id)) as [n0 Hn0].
  { apply list_elem_of_fmap in Hid as (e & -> & He). pose proof (rep_entries _ _ Hrep) as Hes.
    rewrite Forall_forall in Hes. destruct (Hes e He) as (n & Hn & _). eauto. }
  destruct (rep_locate t x id n0 Hrep Hn0) as (c & l & r & ->).
  pose proof (rep_nodup _ _ Hrep) as Hnd. fold (preorder (plug c (Tree id (pbits (n_p n0)) l r))) in Hnd.
  assert (post = preorder l ++ preorder r ++ after c) as ->.
  { rewrite preorder_plug, preorder_Tree in Hpre, Hnd. cbn in Hpre, Hnd.
    rewrite <-app_assoc in Hpre, Hnd. rewrite Hpre in Hnd.
    assert (∀ (l1 l1' l2 l2' : list ptr) a, NoDup (l1' ++ a :: l2') →
      l1 ++ a :: l2 = l1' ++ a :: l2' → l2 = l2') as Huniq.
    { clear. induction l1 as [|b l1 IH]; intros [|b' l1'] l2 l2' a Hnd Heq; cbn in *; simplify_eq.
      - done.
      - apply NoDup_cons in Hnd as [Hnot _]. destruct Hnot. set_solver.
      - apply NoDup_cons in Hnd as [Hnot _]. destruct Hnot. set_solver.
      - apply NoDup_cons in Hnd as [_ Hnd]. by eapply IH. }
    symmetry. by eapply Huniq. }
  pose proof (hold_rep t _ id Hrep) as Hrep'.
  destruct (rep_node _ _ _ _ _ _ Hrep') as (n & Hn & _ & _ & Hl & Hr & _). cbn in Hn, Hl, Hr.
  assert (∀ next, next ∈ preorder l ++ preorder r ++ after c → id ≠ next ∧
    next ∈ preorder (plug c (Tree id (pbits (n_p n0)) l r))) as Hnext.
  { intros next Hin. rewrite preorder_plug, preorder_Tree in Hnd |- *. cbn in Hnd |- *.
    rewrite <-app_assoc in Hnd |- *. split.
    - intros ->. apply NoDup_app in Hnd as (_ & _ & Hnd). by apply NoDup_cons in Hnd as [? _].
    - set_solver. }
  unfold route_next, next_node. erewrite st_bind_Ok by (by apply read_node_ok).
  rewrite Hl. destruct l as [|lid lk ll lr]; cbn [root].
  2:{ destruct (Hnext lid) as [Hne Hin]; [rewrite preorder_Tree; set_solver|].
      rewrite (step_hold t _ id lid Hrep Hlk Hroom) by done. done. }
  rewrite Hr. destruct r as [|rid rk rl rr]; cbn [root].
  2:{ destruct (Hnext rid) as [Hne Hin]; [rewrite preorder_Tree; set_solver|].
      rewrite (step_hold t _ id rid Hrep Hlk Hroom) by done. done. }
  erewrite st_bind_Ok by reflexivity.
  erewrite st_bind_Ok by (erewrite next_up_spec; [reflexivity|done|];
    pose proof (rep_depth _ _ _ _ _ _ Hrep'); lia).
  cbn [preorder ids flat fmap list_fmap app] in Hnext |- *.
  change (preorder Leaf ++ preorder Leaf ++ after c) with (after c) in *.
  destruct (after c) as [|nx rest] eqn:Ha; cbn [head hold_opt].
  - erewrite st_bind_Ok; [done|]. by eapply unlock_hold; eauto.
  - destruct (Hnext nx) as [Hne Hin]; [by left|].
    by rewrite (step_hold t _ id nx Hrep Hlk Hroom).
Qed.
End Iter.
