(* ===== verification/TableSpec.v ===== *)
(** The routing table: its contract.

    A table stands for a finite map from bit strings to information ([abs]).
    Lookup, longest match, insertion, unlocking and iteration are stated against
    that map; every operation keeps the invariant [table_inv] and none of them
    runs into a fault. *)

From S2P Require Import Prelude Prefix Table TableFacts TableRep TableWalk TableGet TableDelete TableIter.

Section Spec.
Context {A : Type}.
Implicit Types (t : route_table A) (n : route_node A) (h : gmap ptr (route_node A)).

(** * The map a table stands for *)

Definition bindings t : list (list bool * A) :=
  omap (λ '(_, n), (λ v, (pbits (n_p n), v)) <$> n_info n) (map_to_list (heap t)).

Definition abs t : gmap (list bool) A := list_to_map (bindings t).

Lemma elem_of_bindings t k v :
  (k, v) ∈ bindings t ↔ ∃ id n, heap t !! id = Some n ∧ pbits (n_p n) = k ∧ n_info n = Some v.
Proof.
  unfold bindings. rewrite list_elem_of_omap. split.
  - intros ([id n] & Hin & Hn). apply elem_of_map_to_list in Hin.
    destruct (n_info n) eqn:E; cbn in Hn; simplify_eq. eauto.
  - intros (id & n & Hin & Hk & Hv). exists (id, n). split; [by apply elem_of_map_to_list|].
    rewrite Hv. cbn. by rewrite Hk.
Qed.

(** Keys are unique in a tree in radix order. *)
Lemma keyed_unique pre par x e e' :
  keyed pre x → e ∈ flat par x → e' ∈ flat par x → e_key e = e_key e' → e = e'.
Proof.
  revert pre par. induction x as [|id k l IHl r IHr]; intros pre par Hk He He' Heq.
  { by apply not_elem_of_nil in He. }
  assert (∀ b e, e ∈ flat (Some id) (child b l r) → (k ++ [b]) `prefix_of` e_key e) as Hb.
  { intros b e0 He0. eapply keyed_elem; [by eapply keyed_child|done]. }
  assert (∀ b e, e ∈ flat (Some id) (child b l r) → k ≠ e_key e) as Hroot.
  { intros b e0 He0 Hke. apply Hb, prefix_length in He0. rewrite <-Hke, length_app in He0.
    cbn in He0. lia. }
  assert (∀ (l1 : list bool), (k ++ [true]) `prefix_of` l1 → ¬ (k ++ [false]) `prefix_of` l1) as Hlr.
  { intros l1 [m1 ->] [m2 Hm]. rewrite <-!app_assoc in Hm. by apply app_inv_head in Hm. }
  apply (flat_children par id k l r true) in He as [->|[He|He]], He' as [->|[He'|He']];
    cbn [e_key child negb] in *; try done.
  - by destruct (Hroot true e').
  - by destruct (Hroot false e').
  - by destruct (Hroot true e).
  - destruct Hk as (_ & _ & Hk). by eapply IHr.
  - destruct (Hlr (e_key e)); [by apply Hb|]. rewrite Heq. by apply (Hb false).
  - by destruct (Hroot false e).
  - destruct (Hlr (e_key e')); [by apply Hb|]. rewrite <-Heq. by apply (Hb false).
  - destruct Hk as (_ & Hk & _). by eapply IHl.
Qed.

Lemma rep_unique t x i j n m :
  rep t x → heap t !! i = Some n → heap t !! j = Some m →
  pbits (n_p n) = pbits (n_p m) → i = j.
Proof.
  intros Hrep Hi Hj Heq. destruct Hrep as [_ Hes _ Hdom Hk].
  assert (∀ a na, heap t !! a = Some na → ∃ e, e ∈ flat None x ∧ e_id e = a ∧
    e_key e = pbits (n_p na)) as Hfind.
  { intros a na Ha. assert (a ∈ ids (flat None x)) as Hin by (apply Hdom; eauto).
    apply list_elem_of_fmap in Hin as (e & -> & He). exists e. split_and!; [done..|].
    rewrite Forall_forall in Hes. destruct (Hes e He) as (n' & Hn' & Hk' & _). congruence. }
  destruct (Hfind i n Hi) as (e & He & <- & Hke), (Hfind j m Hj) as (e' & He' & <- & Hke').
  f_equal. eapply keyed_unique; [done..|congruence].
Qed.

Lemma abs_lookup t k v :
  table_inv t →
  abs t !! k = Some v ↔
  ∃ id n, heap t !! id = Some n ∧ pbits (n_p n) = k ∧ n_info n = Some v.
Proof.
  intros [[x Hrep] _]. rewrite <-elem_of_bindings. split.
  - apply elem_of_list_to_map_2.
  - intros Hin. apply elem_of_list_to_map_1'; [|done].
    intros w Hw. apply elem_of_bindings in Hw as (i & n & Hi & Hk & Hv).
    apply elem_of_bindings in Hin as (j & m & Hj & Hk' & Hv').
    assert (i = j) as -> by (eapply rep_unique; [done..|congruence]). congruence.
Qed.

(** A change that keeps the keys and the information of the nodes keeps the map. *)
Lemma abs_eq t t' :
  table_inv t → table_inv t' →
  (∀ i n v, heap t !! i = Some n → n_info n = Some v →
     ∃ n', heap t' !! i = Some n' ∧ pbits (n_p n') = pbits (n_p n) ∧ n_info n' = n_info n) →
  (∀ i n' v, heap t' !! i = Some n' → n_info n' = Some v →
     ∃ n, heap t !! i = Some n ∧ pbits (n_p n) = pbits (n_p n') ∧ n_info n = n_info n') →
  abs t' = abs t.
Proof.
  intros Hinv Hinv' Hfw Hbw. apply map_eq. intros k. apply option_eq. intros v.
  rewrite !abs_lookup by done. split; intros (i & n & Hi & Hk & Hv).
  - destruct (Hbw i n v Hi Hv) as (m & Hm & Hp & Hinf). exists i, m. split_and!; congruence.
  - destruct (Hfw i n v Hi Hv) as (m & Hm & Hp & Hinf). exists i, m. split_and!; congruence.
Qed.

Lemma get_post_abs t p id t' : table_inv t → get_post t p id t' → abs t' = abs t.
Proof.
  intros Hinv (Hinv' & (n' & Hn' & Hk & Hid) & Hoth & Hnew). apply abs_eq; [done..| |].
  - intros i n v Hn Hv. destruct (decide (i = id)) as [->|Hne].
    + rewrite Hn in Hid. subst n'. by eexists.
    + destruct (Hoth i n Hne Hn) as (m & Hm & Hp & _ & Hinf & _). exists m. by rewrite Hp.
  - intros i m v Hm Hv. destruct (heap t !! i) as [n|] eqn:Hn.
    2:{ destruct (Hnew i m Hm Hn) as [E _]. by rewrite E in Hv. }
    exists n. split; [done|]. destruct (decide (i = id)) as [->|Hne].
    + rewrite Hn in Hid. rewrite Hm in Hn'. injection Hn' as ->. by subst n'.
    + destruct (Hoth i n Hne Hn) as (m' & Hm' & Hp & _ & Hinf & _).
      rewrite Hm in Hm'. injection Hm' as <-. by rewrite Hp.
Qed.

Lemma delete_post_abs t t' :
  table_inv t → (∀ i n, heap t !! i = Some n → is_Some (n_info n) → n_lock n ≠ 0) →
  delete_post t t' → abs t' = abs t.
Proof.
  intros Hinv Hheld (Hinv' & Hkeep & Hback). apply abs_eq; [done..| |].
  - intros i n v Hn Hv. destruct (Hkeep i n Hn) as (m & Hm & Hp & _ & Hi); [eauto|].
    exists m. by rewrite Hp.
  - intros i m v Hm Hv. destruct (Hback i m Hm) as (n & Hn & Hp & _ & Hi).
    exists n. by rewrite Hp.
Qed.

(** A node that carries information is held. *)
Lemma table_inv_held t i n : table_inv t → heap t !! i = Some n → is_Some (n_info n) → n_lock n ≠ 0.
Proof.
  intros [_ Hlk] Hn [v Hv] H0. destruct (Hlk i n Hn) as [_ Hs].
  destruct (Hs H0) as [Hnone _]. congruence.
Qed.

(** ** Locking keeps everything else *)

Lemma hold_inv t id :
  table_inv t → (∀ n, heap t !! id = Some n → n_lock n < 2^32 - 1) → table_inv (hold id t).
Proof.
  intros [[x Hrep] Hlk] Hmax. split; [exists x; by apply hold_rep|].
  intros i m. unfold hold. destruct (heap t !! id) as [n|] eqn:E; [|apply Hlk].
  cbn. rewrite lookup_insert. case_decide; [|apply Hlk]. intros [= <-].
  destruct (Hlk _ _ E) as [Hu _]. specialize (Hmax n eq_refl). unfold is_u32 in Hu.
  split; cbn; [unfold is_u32; lia|lia].
Qed.

Lemma hold_abs t id :
  table_inv t → (∀ n, heap t !! id = Some n → n_lock n < 2^32 - 1) → abs (hold id t) = abs t.
Proof.
  intros Hinv Hmax. apply abs_eq; [done|by apply hold_inv|..];
    intros i n v; unfold hold; destruct (heap t !! id) as [m|] eqn:E; try by eauto.
  - cbn. intros Hn Hv. rewrite lookup_insert. case_decide; subst; simplify_eq; eauto.
  - cbn. rewrite lookup_insert. case_decide; subst; [|by eauto]. intros [= <-] Hv. eauto.
Qed.

(** * Contract *)

(** A prefix that the walks can look up without reading past its address. *)
Definition lookup_key (p : prefix) : Prop :=
  prefix_wf p ∧ prefixlen p ≤ 128 ∧ prefixlen p < 8 * Z.of_nat (length (u p)).

Lemma flat_heap t x e :
  rep t x → e ∈ flat None x → ∃ n, heap t !! e_id e = Some n ∧ pbits (n_p n) = e_key e.
Proof.
  intros Hrep He. pose proof (rep_entries _ _ Hrep) as Hes. rewrite Forall_forall in Hes.
  destruct (Hes e He) as (n & Hn & Hk & _). eauto.
Qed.

Lemma heap_flat t x i n :
  rep t x → heap t !! i = Some n → ∃ e, e ∈ flat None x ∧ e_id e = i ∧ e_key e = pbits (n_p n).
Proof.
  intros Hrep Hn. assert (i ∈ ids (flat None x)) as Hin by (apply (rep_dom _ _ Hrep); eauto).
  apply list_elem_of_fmap in Hin as (e & -> & He). exists e. split_and!; [done..|].
  destruct (flat_heap _ _ _ Hrep He) as (m & Hm & Hk). congruence.
Qed.

Lemma top_height t x : rep t x → (height x ≤ size (heap t))%nat.
Proof. intros Hrep. rewrite (rep_size _ _ Hrep). apply height_flat. Qed.
End Spec.

(** What a lookup returns. *)
Lemma route_node_lookup_post {A} (t : route_table A) p :
  table_inv t → lookup_key p → locks_room t →
  ∃ r t', route_node_lookup p t = Ok (r, t') ∧ table_inv t' ∧ abs t' = abs t ∧
    t' = hold_opt r t ∧
    match r with
    | Some id => ∃ n, heap t !! id = Some n ∧ pbits (n_p n) = pbits p ∧
                   is_Some (n_info n) ∧ abs t !! pbits p = n_info n
    | None => abs t !! pbits p = None
    end.
Proof.
  intros Hinv (Hwf & H128 & Hlt) Hroom. destruct (Hinv) as [[x Hrep] Hlk].
  destruct (lookup_loop_spec (size (heap t)) (heap t) None [] x p) as (r & Hr & Hex);
    [apply (rep_entries _ _ Hrep)|apply (rep_keyed _ _ Hrep)|by apply top_height|done..|].
  unfold route_node_lookup. erewrite st_bind_Ok by reflexivity. rewrite (rep_top _ _ Hrep).
  erewrite st_bind_Ok by (by rewrite Hr). destruct r as [id|].
  - destruct Hex as (e & He & <- & Hk & Hinf).
    destruct (flat_heap _ _ _ Hrep He) as (n & Hn & Hnk).
    exists (Some (e_id e)), (hold (e_id e) t).
    assert (∀ m, heap t !! e_id e = Some m → n_lock m < 2^32 - 1) as Hmax by (intros m; apply Hroom).
    erewrite st_bind_Ok by (eapply lock_hold; [done|by eapply Hlk|by eapply Hroom]).
    split_and!; [done|by apply hold_inv|by apply hold_abs|done|].
    exists n. unfold info_at in Hinf. rewrite Hn in Hinf. cbn in Hinf.
    split_and!; [done|congruence|done|]. destruct Hinf as [v Hv]. rewrite Hv.
    apply abs_lookup; [done|]. exists (e_id e), n. split_and!; [done|congruence|done].
  - exists None, t. split_and!; try done. apply eq_None_not_Some. intros [v Hv].
    apply abs_lookup in Hv as (i & n & Hn & Hk & Hi); [|done].
    destruct (heap_flat _ _ _ _ Hrep Hn) as (e & He & <- & Hke).
    specialize (Hex e He ltac:(congruence)). unfold info_at in Hex. rewrite Hn in Hex.
    cbn in Hex. congruence.
Qed.

(** route_node_lookup finds a prefix exactly when the map of the table has
    information for its bits: it returns the node that holds it, with one more
    lock, and NULL otherwise; the map and the invariant are kept. *)
Theorem route_node_lookup_correct {A} (t : route_table A) p :
  table_inv t → lookup_key p → locks_room t →
  ∃ r t', route_node_lookup p t = Ok (r, t') ∧ table_inv t' ∧ abs t' = abs t ∧
    t' = hold_opt r t ∧
    match r with
    | Some id => ∃ n, heap t !! id = Some n ∧ pbits (n_p n) = pbits p ∧
                   is_Some (n_info n) ∧ abs t !! pbits p = n_info n
    | None => abs t !! pbits p = None
    end.
Proof. apply route_node_lookup_post. Qed.

(** What a match returns. *)
Lemma route_node_match_post {A} (t : route_table A) p :
  table_inv t → lookup_key p → locks_room t →
  ∃ r t', route_node_match p t = Ok (r, t') ∧ table_inv t' ∧ abs t' = abs t ∧
    t' = hold_opt r t ∧
    match r with
    | Some id => ∃ n, heap t !! id = Some n ∧ is_Some (n_info n) ∧
        abs t !! pbits (n_p n) = n_info n ∧ pbits (n_p n) `prefix_of` pbits p ∧
        ∀ k, is_Some (abs t !! k) → k `prefix_of` pbits p → k `prefix_of` pbits (n_p n)
    | None => ∀ k, is_Some (abs t !! k) → ¬ k `prefix_of` pbits p
    end.
Proof.
  intros Hinv (Hwf & H128 & Hlt) Hroom. destruct (Hinv) as [[x Hrep] Hlk].
  destruct (match_loop_spec (size (heap t)) (heap t) None [] x None p) as (r & Hr & Hbest);
    [apply (rep_entries _ _ Hrep)|apply (rep_keyed _ _ Hrep)|by apply top_height|done..|].
  unfold route_node_match. erewrite st_bind_Ok by reflexivity. rewrite (rep_top _ _ Hrep).
  erewrite st_bind_Ok by (by rewrite Hr).
  assert (∀ k, is_Some (abs t !! k) → ∃ e, e ∈ flat None x ∧ e_key e = k ∧
    is_Some (info_at (heap t) (e_id e))) as Habs.
  { intros k [v Hv]. apply abs_lookup in Hv as (i & n & Hn & Hk & Hi); [|done].
    destruct (heap_flat _ _ _ _ Hrep Hn) as (e & He & <- & Hke). exists e.
    split_and!; [done|congruence|]. unfold info_at. rewrite Hn. cbn. rewrite Hi. eauto. }
  destruct Hbest as [[-> Hnone]|(e & He & -> & Hinf & Hpe & Hmax)].
  - exists None, t. split_and!; try done. intros k Hk Hpre.
    destruct (Habs k Hk) as (e & He & <- & [v Hv]). rewrite (Hnone e He Hpre) in Hv. done.
  - destruct (flat_heap _ _ _ Hrep He) as (n & Hn & Hnk).
    exists (Some (e_id e)), (hold (e_id e) t).
    assert (∀ m, heap t !! e_id e = Some m → n_lock m < 2^32 - 1) as Hmx by (intros m; apply Hroom).
    erewrite st_bind_Ok by (eapply lock_hold; [done|by eapply Hlk|by eapply Hroom]).
    split_and!; [done|by apply hold_inv|by apply hold_abs|done|].
    unfold info_at in Hinf. rewrite Hn in Hinf. cbn in Hinf. destruct Hinf as [v Hv].
    exists n. rewrite Hv. split_and!; [done|eauto| |congruence|].
    + apply abs_lookup; [done|]. by exists (e_id e), n.
    + intros k Hk Hpre. destruct (Habs k Hk) as (e' & He' & <- & Hinf').
      rewrite Hnk. by apply Hmax.
Qed.

(** C1: route_node_match is longest-prefix match on the map of the table: it
    returns a node with information whose key is a prefix of the bits of [p] and
    extends every other such key, or NULL when no key of the map is a prefix of
    [p]; the map and the invariant are kept.  The table is in good order, its lock
    counters have room for one more, and [p] has fewer bits than its address field
    ([lookup_key]): that is every IPv4 prefix, whose field is followed by padding, and
    every IPv6 prefix but those of all 128 bits, on which the walk can read past the
    address ([route_node_match_ipv6_overread]). *)
Theorem route_node_match_longest {A} (t : route_table A) p :
  table_inv t → lookup_key p → locks_room t →
  ∃ r t', route_node_match p t = Ok (r, t') ∧ table_inv t' ∧ abs t' = abs t ∧
    t' = hold_opt r t ∧
    match r with
    | Some id => ∃ n, heap t !! id = Some n ∧ is_Some (n_info n) ∧
        abs t !! pbits (n_p n) = n_info n ∧ pbits (n_p n) `prefix_of` pbits p ∧
        ∀ k, is_Some (abs t !! k) → k `prefix_of` pbits p → k `prefix_of` pbits (n_p n)
    | None => ∀ k, is_Some (abs t !! k) → ¬ k `prefix_of` pbits p
    end.
Proof. apply route_node_match_post. Qed.

(** route_node_get terminates without a fault on every table in good order,
    returns a node for exactly the bits of [p] holding one more lock, leaves
    prefix, lock and information of every other node alone, and keeps the map of
    the table and its invariant (radix order, back pointers, no idle stub). *)
Theorem route_node_get_correct {A} (t : route_table A) p :
  table_inv t → prefix_af p → (length (u p) ≤ 16)%nat → locks_room t →
  ∃ id t' n', route_node_get p t = Ok (id, t') ∧ table_inv t' ∧ abs t' = abs t ∧
    heap t' !! id = Some n' ∧ pbits (n_p n') = pbits p ∧
    match heap t !! id with
    | Some n => n' = set_lock (n_lock n + 1) n
    | None => n_lock n' = 1 ∧ n_info n' = None
    end ∧
    (∀ i n, i ≠ id → heap t !! i = Some n →
       ∃ m, heap t' !! i = Some m ∧ n_p m = n_p n ∧ n_lock m = n_lock n ∧ n_info m = n_info n).
Proof.
  intros Hinv Hp H16 Hroom.
  destruct (route_node_get_post t p Hinv Hp H16) as (id & t' & Hget & Hpost).
  { intros i n Hn _. by eapply Hroom. }
  pose proof (get_post_abs _ _ _ _ Hinv Hpost) as Habs.
  destruct Hpost as (Hinv' & (n' & Hn' & Hk & Hid) & Hoth & _).
  exists id, t', n'. split_and!; try done.
  intros i n Hne Hn. destruct (Hoth i n Hne Hn) as (m & ? & ? & ? & ? & _). eauto.
Qed.

Section Clients.
Context {A : Type}.
Implicit Types (t : route_table A) (n : route_node A).

(** How the daemons store information: [rn = route_node_get (table, p);
    rn->info = v;]. *)
Definition store (p : prefix) (v : A) : ST (route_table A) ptr :=
  rn ← route_node_get p;
  update_node rn (set_info (Some v));;
  mret rn.

(** How they withdraw it: [rn->info = NULL; route_unlock_node (rn);]. *)
Definition withdraw (rn : ptr) : ST (route_table A) unit :=
  update_node rn (set_info None);;
  route_unlock_node rn.

Lemma set_info_inv t id n o :
  table_inv t → heap t !! id = Some n → n_lock n ≠ 0 →
  table_inv (RouteTable (top t) (<[id := set_info o n]> (heap t))).
Proof.
  intros [[x Hrep] Hlk] Hn H0. split; [exists x; by eapply rep_update|].
  intros i m. cbn. rewrite lookup_insert. case_decide; [|apply Hlk]. intros [= <-].
  destruct (Hlk id n Hn) as [Hu _]. by split.
Qed.

Lemma set_info_abs t id n o :
  table_inv t → heap t !! id = Some n → n_lock n ≠ 0 →
  abs (RouteTable (top t) (<[id := set_info o n]> (heap t))) =
    match o with
    | Some v => <[pbits (n_p n) := v]> (abs t)
    | None => delete (pbits (n_p n)) (abs t)
    end.
Proof.
  intros Hinv Hn H0. pose proof (set_info_inv t id n o Hinv Hn H0) as Hinv'.
  destruct (Hinv) as [[x Hrep] _].
  apply map_eq. intros k. destruct (decide (pbits (n_p n) = k)) as [<-|Hne].
  - transitivity o.
    + apply option_eq. intros w. rewrite abs_lookup by done. cbn. split.
      * intros (i & m & Hi & Hk & Hv). rewrite lookup_insert in Hi. case_decide; simplify_eq; [done|].
        pose proof (rep_unique t x i id m n Hrep Hi Hn Hk). congruence.
      * intros ->. exists id, (set_info (Some w) n). by rewrite lookup_insert_eq.
    + destruct o; by rewrite ?lookup_insert_eq, ?lookup_delete_eq.
  - transitivity (abs t !! k); [|destruct o; by rewrite ?lookup_insert_ne, ?lookup_delete_ne].
    apply option_eq. intros w. rewrite !abs_lookup by done. cbn.
    split; intros (i & m & Hi & Hk & Hv).
    + rewrite lookup_insert in Hi. case_decide; simplify_eq; eauto.
    + exists i, m. rewrite lookup_insert_ne; [done|]. intros <-. congruence.
Qed.
End Clients.

Lemma store_post {A} (t : route_table A) p (v : A) :
  table_inv t → prefix_af p → (length (u p) ≤ 16)%nat → locks_room t →
  ∃ id t', store p v t = Ok (id, t') ∧ table_inv t' ∧ abs t' = <[pbits p := v]> (abs t).
Proof.
  intros Hinv Hp H16 Hroom.
  destruct (route_node_get_post t p Hinv Hp H16) as (id & t' & Hget & Hpost).
  { intros i n Hn _. by eapply Hroom. }
  pose proof (get_post_abs _ _ _ _ Hinv Hpost) as Habs.
  destruct Hpost as (Hinv' & (n' & Hn' & Hk & Hid) & _).
  assert (n_lock n' ≠ 0) as H0.
  { destruct (heap t !! id) as [n|] eqn:E; [|destruct Hid; lia]. subst n'. cbn.
    destruct (Hinv) as [_ Hlk]. destruct (Hlk id n E) as [Hu _]. unfold is_u32 in Hu. lia. }
  unfold store. erewrite st_bind_Ok by done.
  erewrite st_bind_Ok by (by apply update_node_ok).
  eexists _, _. split_and!; [reflexivity|by apply set_info_inv|].
  rewrite (set_info_abs t' id n' (Some v)) by done. by rewrite Hk, Habs.
Qed.

(** C24: storing information through route_node_get is insertion into the map of
    the table, whatever the table held before. *)
Theorem store_insert {A} (t : route_table A) p (v : A) :
  table_inv t → prefix_af p → (length (u p) ≤ 16)%nat → locks_room t →
  ∃ id t', store p v t = Ok (id, t') ∧ table_inv t' ∧ abs t' = <[pbits p := v]> (abs t).
Proof. apply store_post. Qed.

(** C25: withdrawing the information of a held node removes exactly its key from
    the map; dropping the last lock prunes the node and the stubs above it, with
    no fault, no leak of other nodes and the invariant kept. *)
Theorem withdraw_delete {A} (t : route_table A) id n :
  table_inv t → heap t !! id = Some n → n_lock n ≠ 0 →
  ∃ t', withdraw id t = Ok (tt, t') ∧ table_inv t' ∧
    abs t' = delete (pbits (n_p n)) (abs t) ∧
    (∀ i m, i ≠ id → heap t !! i = Some m → n_lock m ≠ 0 →
       ∃ m', heap t' !! i = Some m' ∧ n_p m' = n_p m ∧ n_lock m' = n_lock m ∧ n_info m' = n_info m).
Proof.
  intros Hinv Hn H0.
  set (t1 := RouteTable (top t) (<[id := set_info None n]> (heap t))).
  pose proof (set_info_inv t id n None Hinv Hn H0) as Hinv1. fold t1 in Hinv1.
  pose proof (set_info_abs t id n None Hinv Hn H0) as Habs1. fold t1 in Habs1.
  assert (heap t1 !! id = Some (set_info None n)) as Hn1 by apply lookup_insert_eq.
  assert (is_u32 (n_lock n)) as Hu by (destruct Hinv as [_ Hlk]; apply (Hlk id n Hn)).
  unfold is_u32 in Hu.
  destruct (route_unlock_node_post t1 id (set_info None n)) as (t' & Hun & Hpost);
    [done|done|cbn; lia|done|].
  unfold withdraw. erewrite st_bind_Ok by (by apply update_node_ok).
  exists t'. split; [done|].
  destruct (Hpost) as (Hinv' & Hkeep & Hback). split_and!; [done| |].
  - rewrite <-Habs1. apply abs_eq; [done..| |].
    + intros i m w Hm Hw. destruct (decide (i = id)) as [->|Hne].
      { rewrite Hn1 in Hm. by injection Hm as <-. }
      pose proof (table_inv_held t1 i m Hinv1 Hm ltac:(eauto)) as Hm0.
      destruct (Hkeep i m) as (m' & Hm' & Hp & _ & Hi).
      { cbn [heap]. by rewrite lookup_insert_ne. } { done. }
      exists m'. by rewrite Hp.
    + intros i m' w Hm' Hw. destruct (Hback i m' Hm') as (m & Hm & Hp & _ & Hi).
      cbn [heap] in Hm. destruct (decide (i = id)) as [->|Hne].
      { rewrite lookup_insert_eq in Hm. injection Hm as <-. by rewrite Hi in Hw. }
      rewrite lookup_insert_ne in Hm by done. exists m. by rewrite Hp.
  - intros i m Hne Hm Hm0. destruct (Hkeep i m) as (m' & Hm' & Hp & Hl & Hi).
    { cbn. by rewrite !lookup_insert_ne. } { done. } eauto.
Qed.

(** route_unlock_node on a held node keeps the invariant and the map of the
    table and terminates without a fault, as long as a node with information is
    not given its last unlock. *)
Theorem route_unlock_node_correct {A} (t : route_table A) id n :
  table_inv t → heap t !! id = Some n → 0 < n_lock n →
  (n_lock n = 1 → n_info n = None) →
  ∃ t', route_unlock_node id t = Ok (tt, t') ∧ table_inv t' ∧ abs t' = abs t.
Proof.
  intros Hinv Hn Hpos Hinfo.
  destruct (route_unlock_node_post t id n Hinv Hn Hpos Hinfo) as (t' & Hun & Hinv' & Hkeep & Hback).
  exists t'. split_and!; [done..|]. apply abs_eq; [done..| |].
  - intros i m w Hm Hw. destruct (decide (i = id)) as [->|Hne].
    + rewrite Hn in Hm. injection Hm as <-.
      destruct (Hkeep id (set_lock (n_lock n - 1) n)) as (m' & Hm' & Hp & _ & Hi).
      { apply lookup_insert_eq. }
      { cbn. intros Hz. rewrite Hinfo in Hw by lia. done. }
      exists m'. by rewrite Hp.
    + destruct (Hkeep i m) as (m' & Hm' & Hp & _ & Hi).
      { cbn. by rewrite lookup_insert_ne. } { apply (table_inv_held t i m); eauto. }
      exists m'. by rewrite Hp.
  - intros i m' w Hm' Hw. destruct (Hback i m' Hm') as (m & Hm & Hp & _ & Hi).
    cbn [heap] in Hm. destruct (decide (i = id)) as [->|Hne].
    + rewrite lookup_insert_eq in Hm. injection Hm as <-. exists n. by rewrite Hp.
    + rewrite lookup_insert_ne in Hm by done. exists m. by rewrite Hp.
Qed.

(** ** Iteration *)

(** [for (rn = route_top (t); rn; rn = route_next (rn)) ...]: the nodes visited. *)
Fixpoint visit_from {A} (fuel : nat) (rn : option ptr) : ST (route_table A) (list ptr) :=
  match rn with
  | None => mret []
  | Some id =>
      match fuel with
      | O => st_fail OutOfFuel
      | S f =>
          next ← route_next id;
          rest ← visit_from f next;
          mret (id :: rest)
      end
  end.

Definition visit {A} : ST (route_table A) (list ptr) :=
  t ← st_get;
  rn ← route_top;
  visit_from (size (heap t)) rn.

Lemma visit_from_spec {A} (t : route_table A) x pre post fuel :
  rep t x → locks t → locks_room t → preorder x = pre ++ post → (length post ≤ fuel)%nat →
  visit_from fuel (head post) (hold_opt (head post) t) = Ok (post, t).
Proof.
  intros Hrep Hlk Hroom. revert pre fuel.
  induction post as [|id post IH]; intros pre fuel Hpre Hf; [by destruct fuel|].
  destruct fuel as [|fuel]; [cbn in Hf; lia|]. cbn [head hold_opt visit_from].
  erewrite st_bind_Ok by (by eapply route_next_hold).
  erewrite st_bind_Ok; [done|].
  apply (IH (pre ++ [id])); [by rewrite <-app_assoc|cbn in Hf; lia].
Qed.

Lemma route_top_hold {A} (t : route_table A) x :
  rep t x → locks t → locks_room t → route_top t = Ok (head (preorder x), hold_opt (head (preorder x)) t).
Proof.
  intros Hrep Hlk Hroom. unfold route_top. erewrite st_bind_Ok by reflexivity.
  rewrite (rep_top _ _ Hrep), root_preorder. destruct (preorder x) as [|id l] eqn:E; [done|].
  cbn [head hold_opt]. assert (is_Some (heap t !! id)) as [n Hn].
  { assert (id ∈ preorder x) as Hin by (rewrite E; by left).
    apply list_elem_of_fmap in Hin as (e & -> & He).
    destruct (flat_heap _ _ _ Hrep He) as (n & Hn & _). eauto. }
  by erewrite st_bind_Ok by (eapply lock_hold; [done|by eapply Hlk|by eapply Hroom]).
Qed.

(** C35: Walking a table with route_top and route_next terminates, visits every
    node exactly once, a node before the nodes below it, and leaves the table as
    it was. *)
Theorem visit_all {A} (t : route_table A) :
  table_inv t → locks_room t →
  ∃ ns, visit t = Ok (ns, t) ∧ NoDup ns ∧ (∀ i, i ∈ ns ↔ is_Some (heap t !! i)) ∧
    (∀ i n pa, heap t !! i = Some n → n_parent n = Some pa →
       ∃ l1 l2 l3, ns = l1 ++ pa :: l2 ++ i :: l3).
Proof.
  intros [[x Hrep] Hlk] Hroom. exists (preorder x). split_and!.
  - unfold visit. erewrite st_bind_Ok by reflexivity.
    erewrite st_bind_Ok by (by apply route_top_hold).
    apply (visit_from_spec t x []); [done..|]. by rewrite (rep_size _ _ Hrep).
  - apply (rep_nodup _ _ Hrep).
  - intros i. split; [|apply (rep_dom _ _ Hrep)].
    intros (e & -> & He)%list_elem_of_fmap. destruct (flat_heap _ _ _ Hrep He) as (n & Hn & _). eauto.
  - intros i n pa Hn Hpa. destruct (rep_locate _ _ _ _ Hrep Hn) as (c & l & r & ->).
    destruct (rep_node _ _ _ _ _ _ Hrep) as (n' & Hn' & _ & Hpar & _). cbn in Hn', Hpar.
    rewrite Hn in Hn'. injection Hn' as <-. rewrite Hpar in Hpa.
    destruct c as [|f c]; [done|]. cbn in Hpa. injection Hpa as <-.
    rewrite preorder_plug, preorder_Tree.
    destruct f as [fid fk fr|fid fk fl]; cbn [before after frame_id].
    + exists (before c), [], (preorder l ++ preorder r ++ preorder fr ++ after c).
      cbn. by rewrite <-!app_assoc.
    + exists (before c), (preorder fl), (preorder l ++ preorder r ++ after c).
      cbn. by rewrite <-!app_assoc.
Qed.

(** ** Release *)

(** A whole subtree is freed, and the loop goes on at the node above it. *)
Lemma free_subtree {A} (x : tree) (t : route_table A) f c fuel :
  x ≠ Leaf → rep t (plug (f :: c) x) →
  ∃ t', rep t' (plug (f :: c) Leaf) ∧
    free_loop (2 * length (preorder x) - 1 + fuel) (root x) t =
    free_loop fuel (Some (frame_id f)) t'.
Proof.
  revert t f c fuel. induction x as [|id k l IHl r IHr]; intros t f c fuel Hx Hrep; [done|].
  assert (∀ y : tree, y ≠ Leaf → (1 ≤ length (preorder y))%nat) as Hpos
    by (intros [] ?; [done|rewrite preorder_Tree; cbn; lia]).
  rewrite preorder_Tree. cbn [length root]. rewrite length_app.
  assert (∃ t1, rep t1 (plug (f :: c) (Tree id k Leaf r)) ∧
    free_loop (2 * S (length (preorder l) + length (preorder r)) - 1 + fuel) (Some id) t =
    free_loop (2 * S (length (preorder r)) - 1 + fuel) (Some id) t1) as (t1 & Hrep1 & ->).
  { destruct l as [|lid lk ll lr]; [exists t; split; [done|f_equal; cbn; lia]|].
    destruct (rep_node _ _ _ _ _ _ Hrep) as (n & Hn & _ & _ & Hl & _). cbn in Hn, Hl.
    specialize (Hpos (Tree lid lk ll lr) ltac:(done)).
    destruct (IHl t (FL id k r) (f :: c) (2 * S (length (preorder r)) - 1 + fuel)%nat)
      as (t1 & Hrep1 & Hrun); [done..|].
    exists t1. split; [done|]. cbn [frame_id] in Hrun. rewrite <-Hrun.
    replace (2 * S (length (preorder (Tree lid lk ll lr)) + length (preorder r)) - 1 + fuel)%nat
      with (S (2 * length (preorder (Tree lid lk ll lr)) - 1 +
              (2 * S (length (preorder r)) - 1 + fuel)))%nat by lia.
    cbn [free_loop]. erewrite st_bind_Ok by (by apply read_node_ok). by rewrite Hl. }
  assert (∃ t2, rep t2 (plug (f :: c) (Tree id k Leaf Leaf)) ∧
    free_loop (2 * S (length (preorder r)) - 1 + fuel) (Some id) t1 =
    free_loop (1 + fuel) (Some id) t2) as (t2 & Hrep2 & Hrun2).
  { destruct r as [|rid rk rl rr]; [exists t1; split; [done|f_equal]|].
    destruct (rep_node _ _ _ _ _ _ Hrep1) as (n & Hn & _ & _ & Hl & Hr & _). cbn in Hn, Hl, Hr.
    specialize (Hpos (Tree rid rk rl rr) ltac:(done)).
    destruct (IHr t1 (FR id k Leaf) (f :: c) (1 + fuel)%nat) as (t2 & Hrep2 & Hrun); [done..|].
    exists t2. split; [done|]. cbn [frame_id] in Hrun. rewrite <-Hrun.
    replace (2 * S (length (preorder (Tree rid rk rl rr))) - 1 + fuel)%nat
      with (S (2 * length (preorder (Tree rid rk rl rr)) - 1 + (1 + fuel)))%nat by lia.
    cbn [free_loop]. erewrite st_bind_Ok by (by apply read_node_ok). by rewrite Hl, Hr. }
  cbn [root]. rewrite Hrun2. clear Hrun2.
  destruct (rep_node _ _ _ _ _ _ Hrep2) as (n & Hn & _ & Hp & Hl & Hr & _). cbn in Hn, Hp, Hl, Hr.
  destruct (unlink_ok t2 (f :: c) id k Leaf Leaf Hrep2 ltac:(by left))
    as (ta & tb & tc & Ha & Hb & Hc & Hrep3 & _).
  cbn in Ha. injection Ha as <-. exists tc. split; [done|].
  cbn [Nat.add free_loop]. erewrite st_bind_Ok by (by apply read_node_ok).
  rewrite Hl, Hr, Hp. unfold unlink_parent in Hb. cbn [up head fmap option_fmap option_map root only_child] in Hb.
  unfold mbind, ST_bind in Hb |- *.
  destruct (read_node (frame_id f) t2) as [[np tp]|] eqn:Erd; [|done].
  rewrite Hb. by rewrite Hc.
Qed.

(** Emptying the table: the loop frees the children of the top, then the top. *)
Lemma free_top {A} (t : route_table A) id k l r :
  rep t (Tree id k l r) →
  ∃ t', rep t' (Tree id k Leaf Leaf) ∧
    free_loop (2 * length (preorder (Tree id k l r))) (Some id) t = free_loop 2 (Some id) t'.
Proof.
  intros Hrep. rewrite preorder_Tree. cbn [length]. rewrite length_app.
  assert (∀ y : tree, y ≠ Leaf → (1 ≤ length (preorder y))%nat) as Hpos
    by (intros [] ?; [done|rewrite preorder_Tree; cbn; lia]).
  assert (∃ t1, rep t1 (Tree id k Leaf r) ∧
    free_loop (2 * S (length (preorder l) + length (preorder r))) (Some id) t =
    free_loop (2 * S (length (preorder r))) (Some id) t1) as (t1 & Hrep1 & ->).
  { destruct l as [|lid lk ll lr]; [exists t; split; [done|f_equal; cbn; lia]|].
    destruct (rep_node _ [] _ _ _ _ Hrep) as (n & Hn & _ & _ & Hl & _). cbn in Hn, Hl.
    specialize (Hpos (Tree lid lk ll lr) ltac:(done)).
    destruct (free_subtree (Tree lid lk ll lr) t (FL id k r) [] (2 * S (length (preorder r))))
      as (t1 & Hrep1 & Hrun); [done..|].
    exists t1. split; [done|]. cbn [frame_id] in Hrun. rewrite <-Hrun.
    replace (2 * S (length (preorder (Tree lid lk ll lr)) + length (preorder r)))%nat
      with (S (2 * length (preorder (Tree lid lk ll lr)) - 1 +
              2 * S (length (preorder r))))%nat by lia.
    cbn [free_loop]. erewrite st_bind_Ok by (by apply read_node_ok). by rewrite Hl. }
  destruct r as [|rid rk rl rr]; [exists t1; by split|].
  destruct (rep_node _ [] _ _ _ _ Hrep1) as (n & Hn & _ & _ & Hl & Hr & _). cbn in Hn, Hl, Hr.
  specialize (Hpos (Tree rid rk rl rr) ltac:(done)).
  destruct (free_subtree (Tree rid rk rl rr) t1 (FR id k Leaf) [] 2) as (t2 & Hrep2 & Hrun); [done..|].
  exists t2. split; [done|]. cbn [frame_id] in Hrun. rewrite <-Hrun.
  replace (2 * S (length (preorder (Tree rid rk rl rr))))%nat
    with (S (2 * length (preorder (Tree rid rk rl rr)) - 1 + 2))%nat by lia.
  cbn [free_loop]. erewrite st_bind_Ok by (by apply read_node_ok). by rewrite Hl, Hr.
Qed.

(** route_table_free terminates and frees every node of a table in good
    order, each once: it touches no freed node and leaves none behind. *)
Theorem route_table_free_all {A} (t : route_table A) :
  table_inv t → ∃ t', route_table_free t = Ok (tt, t') ∧ heap t' = ∅.
Proof.
  intros [[x Hrep] _]. unfold route_table_free.
  rewrite (rep_top _ _ Hrep), (rep_size _ _ Hrep). fold (preorder x).
  destruct x as [|id k l r].
  - exists t. split; [done|]. apply map_empty. intros i.
    apply eq_None_not_Some. intros Hi. apply (rep_dom _ _ Hrep) in Hi. by apply not_elem_of_nil in Hi.
  - destruct (free_top t id k l r Hrep) as (t1 & Hrep1 & Hrun). cbn [root]. rewrite Hrun.
    destruct (rep_node _ [] _ _ _ _ Hrep1) as (n & Hn & _ & Hp & Hl & Hr & _). cbn in Hn, Hp, Hl, Hr.
    cbn [free_loop]. erewrite st_bind_Ok by (by apply read_node_ok). rewrite Hl, Hr, Hp.
    unfold route_node_free. rewrite Hn. eexists. split; [reflexivity|]. cbn.
    apply map_empty. intros i. destruct (decide (i = id)) as [->|Hne]; [apply lookup_delete_eq|].
    rewrite lookup_delete_ne by done. apply eq_None_not_Some. intros Hi.
    apply (rep_dom _ _ Hrep1) in Hi. cbn in Hi. apply list_elem_of_singleton in Hi. done.
Qed.

(** ** Host routes of IPv6 *)

Lemma match_loop_overread {A} fuel (h : gmap ptr (route_node A)) par pre x m p e :
  Forall (entry_ok h) (flat par x) → keyed pre x → (height x ≤ fuel)%nat →
  prefix_wf p → prefixlen p = 128 → length (u p) = 16%nat →
  e ∈ flat par x → e_key e = pbits p →
  match_loop fuel h (root x) m p = Fail OutOfBounds.
Proof.
  intros Hes Hkey Hh Hp H128 H16 He Heq. revert fuel par pre m Hes Hkey Hh He.
  induction x as [|id k l IHl r IHr]; intros fuel par pre m Hes Hkey Hh He.
  { by apply not_elem_of_nil in He. }
  destruct fuel as [|fuel]; [cbn in Hh; lia|].
  assert (k `prefix_of` pbits p) as Hk.
  { rewrite <-Heq. eapply (keyed_elem k par (Tree id k l r)); [|done].
    destruct Hkey as (_ & ? & ?). by split. }
  destruct (walk_step h par pre id k l r p)
    as (n & Hn & Hok & [[Hpre _]|(_ & Hw & Hbit)]); [done|done|done|lia|done|].
  cbn [root match_loop]. rewrite Hw. cbn [mbind res_bind].
  pose proof (node_ok_len _ _ Hok) as Hlen. cbn in Hlen.
  destruct (decide (length k < 128)%nat) as [Hlt|Hge].
  - destruct Hbit as (b & -> & Hb & Hl); [lia|]. cbn [mbind res_bind]. rewrite Hl.
    apply (flat_children par id k l r b) in He as [->|[He|He]].
    + cbn in Heq. subst k. rewrite length_pbits in Hlt by done. lia.
    + pose proof (height_child l r b). cbn in Hh.
      revert He. apply (child_case (λ x, ∀ fuel par pre m, Forall (entry_ok h) (flat par x) →
        keyed pre x → (height x ≤ fuel)%nat → e ∈ flat par x →
        match_loop fuel h (root x) m p = Fail OutOfBounds) l r b IHl IHr fuel (Some id) (k ++ [b]));
        [by eapply flat_child_ok|by eapply keyed_child|lia].
    + eapply sibling_not_prefix in He; [|done..]. by rewrite Heq in He.
  - apply prefix_length in Hk. rewrite length_pbits in Hk by done.
    assert (prefixlen (n_p n) = 128) as -> by lia.
    unfold check_bit. cbn [Z.leb Z.compare c_assert mbind res_bind].
    rewrite get_byte_out by (rewrite H16; done). done.
Qed.

(** Looking up an IPv6 address whose host route (128 bits) has a node in the
    table reads one byte past the address: check_bit is called with the length
    of that node, 128, on a 16-byte address. *)
Theorem route_node_match_ipv6_overread {A} (t : route_table A) addr id n :
  table_inv t → bytes_ok addr → length addr = 16%nat →
  heap t !! id = Some n → pbits (n_p n) = bits_of addr →
  route_node_match_ipv6 addr t = Fail OutOfBounds.
Proof.
  intros [[x Hrep] _] Hok H16 Hn Hk. unfold route_node_match_ipv6, route_node_match.
  erewrite st_bind_Ok by reflexivity. rewrite (rep_top _ _ Hrep).
  assert (copy_bytes (u prefix_ipv6_new) addr 16 = addr) as ->.
  { unfold copy_bytes. rewrite take_ge by lia. by rewrite app_nil_r. }
  destruct (heap_flat _ _ _ _ Hrep Hn) as (e & He & <- & Hke).
  unfold mbind at 1, ST_bind.
  erewrite match_loop_overread; [done|apply (rep_entries _ _ Hrep)|apply (rep_keyed _ _ Hrep)
    |by apply top_height|split; cbn; [done|lia]|done|done|done|].
  rewrite Hke, Hk. unfold pbits. cbn. rewrite take_ge; [done|]. rewrite length_bits_of. lia.
Qed.

(** * Examples

    A table that holds 10.1.0.0/16, 10.2.0.0/16 and the stub 10.0.0.0/14 above
    them, and one that holds an IPv6 host route. *)

Definition ex_p1 : prefix := Prefix AF_INET 16 ([10; 1] ++ replicate 14 0).
Definition ex_p2 : prefix := Prefix AF_INET 16 ([10; 2] ++ replicate 14 0).
Definition ex_host : prefix := Prefix AF_INET 32 ([10; 2; 3; 4] ++ replicate 12 0).
Definition ex_p6 : prefix := Prefix AF_INET6 128 (replicate 15 0 ++ [1]).

Definition run_state {A B} (m : res (A * route_table B)) : route_table B :=
  match m with Ok (_, t) => t | Fail _ => route_table_init end.

Definition ex_table1 : route_table Z := Eval vm_compute in run_state (store ex_p1 7 route_table_init).
Definition ex_table : route_table Z := Eval vm_compute in run_state (store ex_p2 8 ex_table1).
Definition ex_table6 : route_table Z := Eval vm_compute in run_state (store ex_p6 9 route_table_init).

(** Room for one more lock on every node, decided by evaluation. *)
Lemma locks_room_decide {A} (t : route_table A) :
  forallb (λ '(_, n), n_lock n <? 2^32 - 1) (map_to_list (heap t)) = true → locks_room t.
Proof.
  intros H i n Hn. rewrite forallb_forall in H.
  specialize (H (i, n)). cbn in H. apply Z.ltb_lt, H, list_elem_of_In. by apply elem_of_map_to_list.
Qed.

Lemma prefix_af_ex : prefix_af ex_p1 ∧ prefix_af ex_p2 ∧ prefix_af ex_p6.
Proof.
  split_and!; (split; [by vm_compute; eauto|split; [by apply bytes_ok_decide|by vm_compute]]).
Qed.

Lemma lookup_key_ex : lookup_key ex_host.
Proof. split; [split; [by apply bytes_ok_decide|by vm_compute]|by vm_compute]. Qed.

Lemma store_reach (t t' : route_table Z) p v id :
  table_inv t → prefix_af p → (length (u p) ≤ 16)%nat → locks_room t →
  store p v t = Ok (id, t') → table_inv t'.
Proof.
  intros ???? H. destruct (store_post t p v) as (? & ? & H' & Hinv & _); [done..|].
  rewrite H in H'. by injection H' as -> ->.
Qed.

Lemma init_inv {A} : table_inv (route_table_init : route_table A).
Proof.
  split; [exists Leaf|by intros ??].
  constructor; [done|by constructor|by constructor| |done]. intros id [n Hn]. done.
Qed.

Lemma ex_table1_inv : table_inv ex_table1.
Proof.
  eapply (store_reach route_table_init _ ex_p1 7 1%positive);
    [apply init_inv|apply prefix_af_ex|by vm_compute; lia|by apply locks_room_decide|by vm_compute].
Qed.

Lemma ex_table_inv : table_inv ex_table.
Proof.
  eapply (store_reach ex_table1 _ ex_p2 8);
    [apply ex_table1_inv|apply prefix_af_ex|by vm_compute; lia|by apply locks_room_decide|by vm_compute].
Qed.

Lemma ex_table6_inv : table_inv ex_table6.
Proof.
  eapply (store_reach route_table_init _ ex_p6 9);
    [apply init_inv|apply prefix_af_ex|by vm_compute; lia|by apply locks_room_decide|by vm_compute].
Qed.

Lemma ex_table_room : locks_room ex_table.
Proof. by apply locks_room_decide. Qed.

Lemma route_node_lookup_correct_witness :
  ∃ r t', route_node_lookup ex_host ex_table = Ok (r, t') ∧ table_inv t' ∧ abs t' = abs ex_table.
Proof.
  destruct (route_node_lookup_correct ex_table ex_host ex_table_inv lookup_key_ex ex_table_room)
    as (r & t' & Hr & Hinv & Habs & _).
  exists r, t'. exact (conj Hr (conj Hinv Habs)).
Defined.

Lemma route_node_match_longest_witness :
  ∃ r t', route_node_match ex_host ex_table = Ok (r, t') ∧ t' = hold_opt r ex_table.
Proof.
  destruct (route_node_match_longest ex_table ex_host ex_table_inv lookup_key_ex ex_table_room)
    as (r & t' & Hr & _ & _ & Ht & _).
  exists r, t'. exact (conj Hr Ht).
Defined.

Lemma route_node_get_correct_witness :
  ∃ id t', route_node_get ex_p1 ex_table = Ok (id, t') ∧ table_inv t' ∧ abs t' = abs ex_table.
Proof.
  destruct (route_node_get_correct ex_table ex_p1 ex_table_inv (proj1 prefix_af_ex)
    ltac:(vm_compute; lia) ex_table_room) as (id & t' & n' & Hg & Hinv & Habs & _).
  exists id, t'. exact (conj Hg (conj Hinv Habs)).
Defined.

Lemma store_insert_witness :
  ∃ id t', store ex_p1 5 ex_table = Ok (id, t') ∧ table_inv t' ∧
    abs t' = <[pbits ex_p1 := 5]> (abs ex_table).
Proof.
  exact (store_insert ex_table ex_p1 5 ex_table_inv (proj1 prefix_af_ex)
    ltac:(vm_compute; lia) ex_table_room).
Defined.

Lemma withdraw_delete_witness :
  ∃ n t', heap ex_table !! 1%positive = Some n ∧ withdraw 1%positive ex_table = Ok (tt, t') ∧
    table_inv t' ∧ abs t' = delete (pbits (n_p n)) (abs ex_table).
Proof.
  destruct (withdraw_delete ex_table 1%positive _ ex_table_inv eq_refl ltac:(by vm_compute))
    as (t' & Hw & Hinv & Habs & _).
  eexists _, t'. exact (conj eq_refl (conj Hw (conj Hinv Habs))).
Defined.

Lemma route_unlock_node_correct_witness :
  ∃ t', route_unlock_node 1%positive (hold 1%positive ex_table) = Ok (tt, t') ∧ table_inv t'.
Proof.
  assert (table_inv (hold 1%positive ex_table)) as Hinv.
  { apply hold_inv; [apply ex_table_inv|]. intros n Hn. exact (ex_table_room _ _ Hn). }
  destruct (route_unlock_node_correct (hold 1%positive ex_table) 1%positive _ Hinv eq_refl
    ltac:(by vm_compute) ltac:(by vm_compute)) as (t' & Hu & Hinv' & _).
  exists t'. exact (conj Hu Hinv').
Defined.

Lemma visit_all_witness :
  ∃ ns, visit ex_table = Ok (ns, ex_table) ∧ NoDup ns.
Proof.
  destruct (visit_all ex_table ex_table_inv ex_table_room) as (ns & Hv & Hnd & _).
  exists ns. exact (conj Hv Hnd).
Defined.

Lemma route_table_free_all_witness : ∃ t', route_table_free ex_table = Ok (tt, t') ∧ heap t' = ∅.
Proof. exact (route_table_free_all ex_table ex_table_inv). Defined.

Lemma route_node_match_ipv6_overread_witness :
  route_node_match_ipv6 (replicate 15 0 ++ [1]) ex_table6 = Fail OutOfBounds.
Proof.
  refine (route_node_match_ipv6_overread ex_table6 (replicate 15 0 ++ [1]) 1%positive _
    ex_table6_inv _ eq_refl eq_refl _); [by apply bytes_ok_decide|by vm_compute].
Defined.
