(* ===== verification/TableView.v ===== *)
(** The routing table, node by node: what locking, unlocking and assigning to the
    information of a node do to the information and the locks of all nodes.  The
    daemons that keep their routes in a table are proved against these. *)

From S2P Require Import Prelude Prefix Table TableFacts TableRep TableWalk TableGet TableDelete TableIter TableSpec.

Section View.
Context {A : Type}.
Implicit Types (t : route_table A) (n : route_node A) (h : gmap ptr (route_node A)) (id : ptr).

(** The key of a node. *)
Definition key_at h (id : ptr) : list bool := match h !! id with Some n => pbits (n_p n) | None => [] end.

Definition lock_at t id : Z := match heap t !! id with Some n => n_lock n | None => 0 end.
Abbreviation info t id := (info_at (heap t) id).

Definition locks_below (c : Z) t : Prop := ∀ id n, heap t !! id = Some n → n_lock n < c.

Lemma info_in t id rs : info t id = Some rs → ∃ n, heap t !! id = Some n ∧ n_info n = Some rs.
Proof. unfold info_at. destruct (heap t !! id) as [n|]; [|done]. intros H. by exists n. Qed.

Lemma info_abs t id n rs : table_inv t → heap t !! id = Some n → n_info n = Some rs → abs t !! pbits (n_p n) = Some rs.
Proof. intros Hinv Hn Hi. apply abs_lookup; [done|]. by exists id, n. Qed.

(** A node with the key of [p], when the table has it. *)
Record got t p id n t' : Prop := Got {
  gt_inv : table_inv t';
  gt_abs : abs t' = abs t;
  gt_node : heap t' !! id = Some n;
  gt_key : pbits (n_p n) = pbits p;
  gt_info : n_info n = abs t !! pbits p;
  gt_infos : ∀ i, info t' i = info t i;
  gt_lock : n_lock n = lock_at t id + 1;
  gt_locks : ∀ i, i ≠ id → is_Some (info t i) → lock_at t' i = lock_at t i;
  gt_below : ∀ c, 0 < c → locks_below c t → locks_below (c + 1) t';
}.

Lemma node_get_run t p :
  table_inv t → prefix_af p → (length (u p) ≤ 16)%nat → locks_room t →
  ∃ id n t', route_node_get p t = Ok (id, t') ∧ got t p id n t'.
Proof.
  intros Hinv Hp H16 Hroom. destruct (route_node_get_post t p Hinv Hp H16) as (id & t' & Hget & Hpost).
  { intros i n Hn _. by eapply Hroom. }
  pose proof (get_post_abs _ _ _ _ Hinv Hpost) as Habs.
  destruct Hpost as (Hinv' & (n & Hn & Hk & Hid) & Hoth & Hnew).
  assert (Hinfos : ∀ i, info t' i = info t i).
  { intros i. unfold info_at. destruct (decide (i = id)) as [->|Hne].
    - rewrite Hn. destruct (heap t !! id) as [m|]; [by subst n|]. cbn. apply Hid.
    - destruct (heap t !! i) as [m|] eqn:E.
      + destruct (Hoth i m Hne E) as (m' & -> & _ & _ & Hi & _). done.
      + destruct (heap t' !! i) as [m'|] eqn:E'; [|done]. by destruct (Hnew i m' E' E). }
  exists id, n, t'. split; [done|]. split; try done.
  - rewrite <- Habs. destruct (n_info n) as [rs|] eqn:E; [rewrite <- Hk; symmetry; by eapply info_abs|].
    symmetry. apply eq_None_not_Some. intros [rs Hrs].
    apply abs_lookup in Hrs as (i & m & Hm & Hkm & Hi); [|done]. destruct (Hinv') as [[x' Hrep] _].
    assert (i = id) as -> by (eapply rep_unique; [done|done|done|congruence]). congruence.
  - unfold lock_at. destruct (heap t !! id) as [m|]; [by subst n|]. lia.
  - intros i Hne [rs Hi]. destruct (info_in _ _ _ Hi) as (m & Hm & _). destruct (Hoth i m Hne Hm) as (m' & Hm' & _ & Hl & _).
    unfold lock_at. by rewrite Hm, Hm'.
  - intros c Hc Hb i m Hm. destruct (heap t !! i) as [mi|] eqn:E; [|destruct (Hnew i m Hm E); lia].
    pose proof (Hb i mi E). destruct (decide (i = id)) as [->|Hne].
    + rewrite E in Hid. rewrite Hn in Hm. simplify_eq. cbn. lia.
    + destruct (Hoth i mi Hne E) as (m' & Hm' & _ & Hl & _). rewrite Hm in Hm'. simplify_eq. lia.
Qed.

(** After an unlock. *)
Record unlocked t id n t' : Prop := Unlocked {
  ul_inv : table_inv t';
  ul_abs : abs t' = abs t;
  ul_infos : ∀ i, info t' i = info t i;
  ul_locks : ∀ i, i ≠ id → is_Some (info t i) → lock_at t' i = lock_at t i;
  ul_lock : 1 < n_lock n → ∃ n', heap t' !! id = Some n' ∧ n_p n' = n_p n ∧ n_lock n' = n_lock n - 1 ∧ n_info n' = n_info n;
  ul_below : ∀ c, locks_below c t → locks_below c t';
  ul_keys : ∀ i, is_Some (info t i) → key_at (heap t') i = key_at (heap t) i;
}.

Lemma node_unlock_run t id n :
  table_inv t → heap t !! id = Some n → 0 < n_lock n → (n_lock n = 1 → n_info n = None) →
  ∃ t', route_unlock_node id t = Ok (tt, t') ∧ unlocked t id n t'.
Proof.
  intros Hinv Hn Hpos H1. destruct (route_unlock_node_post t id n Hinv Hn Hpos H1) as (t' & Hrun & Hinv' & Hkeep & Hback).
  cbn [heap] in Hkeep, Hback.
  assert (Hat : ∀ i m, i ≠ id → heap t !! i = Some m → is_Some (n_info m) →
    ∃ m', heap t' !! i = Some m' ∧ same_data m m').
  { intros i m Hne Hm Hi. apply Hkeep; [by rewrite lookup_insert_ne|]. by apply (table_inv_held t i m). }
  assert (Hinfos : ∀ i, info t' i = info t i).
  { intros i. unfold info_at. destruct (heap t' !! i) as [m'|] eqn:E'.
    - destruct (Hback i m' E') as (m & Hm & _ & _ & Hi). destruct (decide (i = id)) as [->|Hne].
      + rewrite lookup_insert_eq in Hm. simplify_eq. rewrite Hn. done.
      + rewrite lookup_insert_ne in Hm by done. by rewrite Hm.
    - destruct (heap t !! i) as [m|] eqn:E; [|done]. cbn. destruct (n_info m) as [rs|] eqn:Ei; [|done]. exfalso.
      destruct (decide (i = id)) as [->|Hne].
      + rewrite Hn in E. simplify_eq. destruct (Hkeep id (set_lock (n_lock m - 1) m)) as (m' & Hm' & _);
          [by rewrite lookup_insert_eq| |congruence]. cbn. intros H0. rewrite H1 in Ei by lia. done.
      + destruct (Hat i m Hne E) as (m' & Hm' & _); [by eexists|congruence]. }
  exists t'. split; [done|]. split; try done.
  - apply map_eq. intros k. apply option_eq. intros rs. rewrite !abs_lookup by done. split; intros (i & m & Hm & Hk & Hi).
    + destruct (Hback i m Hm) as (m0 & Hm0 & Hp & _ & Hi0). destruct (decide (i = id)) as [->|Hne].
      * rewrite lookup_insert_eq in Hm0. simplify_eq. exists id, n. split; [done|]. cbn in Hp, Hi0. by rewrite <- Hp, <- Hi0.
      * rewrite lookup_insert_ne in Hm0 by done. exists i, m0. by rewrite <- Hp, <- Hi0.
    + destruct (decide (i = id)) as [->|Hne].
      * rewrite Hn in Hm. simplify_eq. destruct (Hkeep id (set_lock (n_lock m - 1) m)) as (m' & Hm' & Hp & _ & Hi');
          [by rewrite lookup_insert_eq| |exists id, m'; by rewrite Hp, Hi']. cbn. intros H0. rewrite H1 in Hi by lia. done.
      * destruct (Hat i m Hne Hm) as (m' & Hm' & Hp & _ & Hi'); [by eexists|]. exists i, m'. by rewrite Hp, Hi'.
  - intros i Hne [rs Hi]. destruct (info_in _ _ _ Hi) as (m & Hm & Hmi).
    destruct (Hat i m Hne Hm) as (m' & Hm' & _ & Hl & _); [by eexists|]. unfold lock_at. by rewrite Hm, Hm'.
  - intros Hgt. destruct (Hkeep id (set_lock (n_lock n - 1) n)) as (m' & Hm' & ? & ? & ?);
      [by rewrite lookup_insert_eq|cbn; lia|]. by exists m'.
  - intros c Hc i m Hm. destruct (Hback i m Hm) as (m0 & Hm0 & _ & Hl & _). rewrite Hl.
    rewrite lookup_insert in Hm0. case_decide; simplify_eq; cbn; [pose proof (Hc _ _ Hn); lia|by eapply Hc].
  - intros i [rs Hi]. pose proof Hi as Hi'. rewrite <- Hinfos in Hi'. destruct (info_in _ _ _ Hi') as (m & Hm & _).
    destruct (Hback i m Hm) as (m0 & Hm0 & Hp & _). unfold key_at. rewrite Hm, Hp.
    rewrite lookup_insert in Hm0. case_decide; simplify_eq; [by rewrite Hn|by rewrite Hm0].
Qed.

(** After an assignment to the information of a node. *)
Record relabelled t id n (o : option A) t' : Prop := Relabelled {
  lb_inv : table_inv t';
  lb_abs : abs t' = match o with Some v => <[pbits (n_p n) := v]> (abs t) | None => delete (pbits (n_p n)) (abs t) end;
  lb_node : heap t' !! id = Some (set_info o n);
  lb_infos : ∀ i, i ≠ id → info t' i = info t i;
  lb_locks : ∀ i, lock_at t' i = lock_at t i;
  lb_below : ∀ c, locks_below c t → locks_below c t';
}.

Lemma node_relabel_run t id n f :
  table_inv t → heap t !! id = Some n → n_lock n ≠ 0 →
  ∃ t', update_node id (λ n, set_info (f n) n) t = Ok (tt, t') ∧ relabelled t id n (f n) t'.
Proof.
  intros Hinv Hn H0. eexists. split; [by apply update_node_ok|]. split.
  - by apply set_info_inv.
  - by apply set_info_abs.
  - cbn. by rewrite lookup_insert_eq.
  - intros i Hne. unfold info_at. cbn. by rewrite lookup_insert_ne.
  - intros i. unfold lock_at. cbn. rewrite lookup_insert. case_decide; [|done]. subst. by rewrite Hn.
  - intros c Hc i m. cbn. rewrite lookup_insert. case_decide; [|by apply Hc]. intros [= <-]. cbn. by eapply Hc.
Qed.

Lemma hold_got t p id n :
  table_inv t → locks_room t → heap t !! id = Some n → pbits (n_p n) = pbits p → abs t !! pbits p = n_info n →
  got t p id (set_lock (n_lock n + 1) n) (hold id t).
Proof.
  intros Hinv Hroom Hn Hk Ha.
  assert (Hmax : ∀ m, heap t !! id = Some m → n_lock m < 2^32 - 1) by (intros m; apply Hroom).
  assert (Hh : heap (hold id t) = <[id := set_lock (n_lock n + 1) n]> (heap t)) by (unfold hold; by rewrite Hn).
  split.
  - by apply hold_inv.
  - by apply hold_abs.
  - by rewrite Hh, lookup_insert_eq.
  - done.
  - done.
  - intros i. unfold info_at. rewrite Hh, lookup_insert. case_decide; [|done]. subst. by rewrite Hn.
  - unfold lock_at. by rewrite Hn.
  - intros i Hne _. unfold lock_at. by rewrite Hh, lookup_insert_ne.
  - intros c _ Hc i m. rewrite Hh, lookup_insert. case_decide; [intros [= <-]; cbn; pose proof (Hc _ _ Hn); lia|].
    intros Hm. pose proof (Hc _ _ Hm). lia.
Qed.

End View.

Abbreviation info t id := (info_at (heap t) id).

(** A prefix in a [struct prefix_ipv4]. *)
Definition ipv4_prefix (p : prefix) : Prop :=
  family p = AF_INET ∧ bytes_ok (u p) ∧ 0 ≤ prefixlen p ≤ 32 ∧ length (u p) = 8%nat.

Lemma ipv4_prefix_of addr len :
  ipv4_ok addr → 0 ≤ len ≤ 32 → ipv4_prefix (Prefix AF_INET len (copy_bytes (u prefix_ipv4_new) addr 4)).
Proof.
  intros [Hb Hl] Hlen. destruct addr as [|a [|b [|c [|d [|]]]]]; try done.
  unfold ipv4_prefix. cbn. split_and!; try done; try lia.
  change (bytes_ok ([a; b; c; d] ++ replicate 4 0)). apply Forall_app. split; [done|]. by apply bytes_ok_decide.
Qed.

Lemma ipv4_prefix_key p : ipv4_prefix p → prefix_af p ∧ (length (u p) ≤ 16)%nat ∧ lookup_key p.
Proof.
  intros (Hf & Hb & Hl & Hu).
  assert (Hp : prefix_af p) by (unfold prefix_af, af_bytes; rewrite Hf, Hu; cbn; split_and!; [by left|done|lia..]).
  split_and!; [done|lia|split_and!; [by apply prefix_af_wf|lia|lia]].
Qed.

Lemma apply_mask_ipv4_run p :
  ipv4_prefix p → ∃ q, apply_mask_ipv4 p = Ok q ∧ prefix_af q ∧ (length (u q) ≤ 16)%nat ∧ lookup_key q ∧ pbits q = pbits p.
Proof.
  intros Hip. destruct (ipv4_prefix_key p Hip) as (Hp & _). destruct Hip as (Hf & Hb & Hl & Hu).
  destruct (apply_mask_spec p Hp) as (q & Hq & Haf & Hfq & Hlq & Huq & Hbits & _).
  unfold apply_mask in Hq. rewrite Hf in Hq. cbn in Hq. exists q.
  split_and!; [done|done|lia|split_and!; [by apply prefix_af_wf|lia|lia]|done].
Qed.
