(* ===== verification/Stream.v ===== *)
(** Streams: the fixed length buffers packets are built in and read from.

    Models lib/stream.c, with readn and writen of lib/network.c.  A stream is the
    C struct: its data block and the put, get and end pointers, which are
    unsigned longs of 64 bits.  Addresses handed over as [u_int32_t] in network
    order are the four bytes they have in memory.  What [read] and [write]
    return is an argument of the functions that call them. *)

From S2P Require Import Prelude Prefix.

(** * The stream *)

Record stream := Stream {
  s_next : option positive;
  s_data : list Z;
  s_putp : Z;
  s_getp : Z;
  s_endp : Z;
  s_size : Z;
}.

Definition set_data (d : list Z) (s : stream) : stream :=
  Stream (s_next s) d (s_putp s) (s_getp s) (s_endp s) (s_size s).
Definition set_putp (p : Z) (s : stream) : stream :=
  Stream (s_next s) (s_data s) p (s_getp s) (s_endp s) (s_size s).
Definition set_getp (p : Z) (s : stream) : stream :=
  Stream (s_next s) (s_data s) (s_putp s) p (s_endp s) (s_size s).
Definition set_endp (p : Z) (s : stream) : stream :=
  Stream (s_next s) (s_data s) (s_putp s) (s_getp s) p (s_size s).
Definition set_next (n : option positive) (s : stream) : stream :=
  Stream n (s_data s) (s_putp s) (s_getp s) (s_endp s) (s_size s).

(** stream_new: the block is cleared by XCALLOC. *)
Definition stream_new (size : Z) : stream :=
  Stream None (replicate (Z.to_nat size) 0) 0 0 0 size.

Definition stream_get_getp (s : stream) : Z := s_getp s.
Definition stream_get_putp (s : stream) : Z := s_putp s.
Definition stream_get_endp (s : stream) : Z := s_endp s.
Definition stream_get_size (s : stream) : Z := s_size s.
Definition stream_set_getp (pos : Z) (s : stream) : stream := set_getp (u64 pos) s.
Definition stream_set_putp (pos : Z) (s : stream) : stream := set_putp (u64 pos) s.

(** stream_forward: the int is converted to unsigned long before the addition. *)
Definition stream_forward (n : Z) (s : stream) : stream := set_getp (u64 (s_getp s + n)) s.

(** ** Reading *)

Definition stream_get (n : Z) : ST stream (list Z) := λ s,
  bs ← get_bytes (s_data s) (s_getp s) n;
  Ok (bs, set_getp (u64 (s_getp s + n)) s).

Definition stream_getc : ST stream Z := λ s,
  c ← get_byte (s_data s) (s_getp s);
  Ok (c, set_getp (u64 (s_getp s + 1)) s).

Definition stream_getc_from (from : Z) (s : stream) : res Z :=
  get_byte (s_data s) from.

(** [s->data[s->getp++]]. *)
Definition next_byte : ST stream Z := λ s,
  b ← get_byte (s_data s) (s_getp s);
  Ok (b, set_getp (u64 (s_getp s + 1)) s).

Definition stream_getw : ST stream Z :=
  b1 ← next_byte;
  let w := u16 (Z.shiftl b1 8) in
  b2 ← next_byte;
  mret (u16 (Z.lor w b2)).

Definition stream_getw_from (from : Z) (s : stream) : res Z :=
  b1 ← get_byte (s_data s) from;
  let w := u16 (Z.shiftl b1 8) in
  b2 ← get_byte (s_data s) (u64 (from + 1));
  Ok (u16 (Z.lor w b2)).

Definition stream_getl : ST stream Z :=
  b1 ← next_byte;
  let l := u32 (Z.shiftl b1 24) in
  b2 ← next_byte;
  let l := u32 (Z.lor l (Z.shiftl b2 16)) in
  b3 ← next_byte;
  let l := u32 (Z.lor l (Z.shiftl b3 8)) in
  b4 ← next_byte;
  mret (u32 (Z.lor l b4)).

Definition stream_get_ipv4 : ST stream (list Z) := λ s,
  l ← get_bytes (s_data s) (s_getp s) 4;
  Ok (l, set_getp (u64 (s_getp s + 4)) s).

(** ** Writing *)

(** CHECK_SIZE: the size of a write, cut down to what is left of the block. *)
Definition CHECK_SIZE (s : stream) (z : Z) : Z :=
  if s_size s <? u64 (s_putp s + z) then u64 (s_size s - s_putp s) else z.

(** [if (s->putp > s->endp) s->endp = s->putp;] *)
Definition push_endp (s : stream) : stream :=
  if s_endp s <? s_putp s then set_endp (s_putp s) s else s.

(** [memcpy (s->data + s->putp, src, n); s->putp += n;] and the end pointer;
    [src] is the array the bytes come from. *)
Definition copy_in (src : list Z) (n : Z) (s : stream) : res stream :=
  bs ← get_bytes src 0 n;
  d ← put_bytes (s_data s) (s_putp s) bs;
  Ok (push_endp (set_putp (u64 (s_putp s + n)) (set_data d s))).

(** stream_put: [src] is [None] for a null pointer, which writes zeros. *)
Definition stream_put (src : option (list Z)) (size : Z) : ST stream unit := λ s,
  let size := CHECK_SIZE s size in
  s' ← copy_in (default (replicate (Z.to_nat size) 0) src) size s;
  Ok (tt, s').

(** [s->data[s->putp++] = (u_char) c;] *)
Definition store_byte (c : Z) : ST stream unit := λ s,
  d ← set_byte (s_data s) (s_putp s) c;
  Ok (tt, set_putp (u64 (s_putp s + 1)) (set_data d s)).

Definition close_put (r : Z) : ST stream Z := λ s, Ok (r, push_endp s).

Definition stream_putc (c : Z) : ST stream Z := λ s,
  if s_size s <=? s_putp s then Ok (0, s)
  else (store_byte c;; close_put 1) s.

Definition stream_putw (w : Z) : ST stream Z := λ s,
  if u64 (s_size s - s_putp s) <? 2 then Ok (0, s)
  else (store_byte (Z.shiftr w 8);; store_byte w;; close_put 2) s.

Definition stream_putl (l : Z) : ST stream Z := λ s,
  if u64 (s_size s - s_putp s) <? 4 then Ok (0, s)
  else (store_byte (Z.shiftr l 24);; store_byte (Z.shiftr l 16);;
        store_byte (Z.shiftr l 8);; store_byte l;; close_put 4) s.

Definition stream_putc_at (putp c : Z) : ST stream Z := λ s,
  d ← set_byte (s_data s) putp c;
  Ok (1, set_data d s).

Definition stream_putw_at (putp w : Z) : ST stream Z := λ s,
  d ← set_byte (s_data s) putp (Z.shiftr w 8);
  d ← set_byte d (u64 (putp + 1)) w;
  Ok (2, set_data d s).

Definition stream_putl_at (putp l : Z) : ST stream Z := λ s,
  d ← set_byte (s_data s) putp (Z.shiftr l 24);
  d ← set_byte d (u64 (putp + 1)) (Z.shiftr l 16);
  d ← set_byte d (u64 (putp + 2)) (Z.shiftr l 8);
  d ← set_byte d (u64 (putp + 3)) l;
  Ok (4, set_data d s).

Definition stream_put_ipv4 (l : list Z) : ST stream Z := λ s,
  if u64 (s_size s - s_putp s) <? 4 then Ok (0, s)
  else s' ← copy_in l 4 s; Ok (4, s').

Definition stream_put_in_addr (addr : list Z) : ST stream Z := λ s,
  if u64 (s_size s - s_putp s) <? 4 then Ok (0, s)
  else s' ← copy_in addr 4 s; Ok (4, s').

Definition PSIZE (a : Z) : Z := (a + 7) / 8.

Definition stream_put_prefix (p : prefix) : ST stream Z := λ s,
  let psize := u8 (PSIZE (prefixlen p)) in
  if u64 (s_size s - s_putp s) <? psize then Ok (0, s)
  else
    '(_, s) ← stream_putc (prefixlen p) s;
    s ← copy_in (u p) psize s;
    Ok (psize, s).

(** stream_write returns the size after CHECK_SIZE. *)
Definition stream_write (src : list Z) (size : Z) : ST stream Z := λ s,
  let size := CHECK_SIZE s size in
  s' ← copy_in src size s;
  Ok (size, s').

Definition stream_pnt (s : stream) : list Z := drop (Z.to_nat (s_getp s)) (s_data s).

Definition stream_empty (s : stream) : bool :=
  (s_putp s =? 0) && (s_endp s =? 0) && (s_getp s =? 0).

Definition stream_reset (s : stream) : stream :=
  set_getp 0 (set_endp 0 (set_putp 0 s)).

(** ** Input and output

    What [read] returns is an argument: for each call an error ([None]) or the
    bytes it has, of which it hands over as many as were asked for; a list that
    is used up stands for the end of the file. *)

Definition read_calls := list (option (list Z)).

(** readn: the bytes go into the array [a] at [ptr]; the result, the array and
    the calls that are left. *)
Fixpoint readn (calls : read_calls) (a : list Z) (ptr nleft nbytes : Z) :
    res (Z * list Z * read_calls) :=
  if nleft <=? 0 then Ok (nbytes - nleft, a, calls) else
  match calls with
  | [] => Ok (nbytes - nleft, a, [])
  | None :: calls => Ok (-1, a, calls)
  | Some bs :: calls =>
      let got := take (Z.to_nat nleft) bs in
      let nread := Z.of_nat (length got) in
      a ← put_bytes a ptr got;
      if nread =? 0 then Ok (nbytes - nleft, a, calls)
      else readn calls a (ptr + nread) (nleft - nread) nbytes
  end.

(** writen: the results [write] gives, call by call. *)
Fixpoint writen (calls : list Z) (nleft nbytes : Z) : Z :=
  if nleft <=? 0 then nbytes - nleft else
  match calls with
  | [] => 0
  | nwritten :: calls =>
      if nwritten <=? 0 then nwritten else writen calls (nleft - nwritten) nbytes
  end.

(** [if (nbytes > 0) { s->putp += nbytes; s->endp += nbytes; }] *)
Definition advance (nbytes : Z) (s : stream) : stream :=
  if 0 <? nbytes
  then set_endp (u64 (s_endp s + nbytes)) (set_putp (u64 (s_putp s + nbytes)) s)
  else s.

Definition stream_read (calls : read_calls) (size : Z) : ST stream Z := λ s,
  '(nbytes, d, _) ← readn calls (s_data s) (s_putp s) size size;
  Ok (nbytes, advance nbytes (set_data d s)).

(** stream_read_unblock: one call of [read]. *)
Definition stream_read_unblock (call : option (list Z)) (size : Z) : ST stream Z := λ s,
  match call with
  | None => Ok (-1, s)
  | Some bs =>
      let got := take (Z.to_nat size) bs in
      d ← put_bytes (s_data s) (s_putp s) got;
      let nbytes := Z.of_nat (length got) in
      Ok (nbytes, advance nbytes (set_data d s))
  end.

(** stream_flush: the bytes offered to [write]. *)
Definition stream_flush (s : stream) : res (list Z) :=
  get_bytes (s_data s) (s_getp s) (u64 (s_endp s - s_getp s)).

(** ** Queues of streams

    The streams live on a heap; the queue links them by their [next] pointer. *)

Record stream_fifo := Fifo {
  f_count : Z;
  f_head : option positive;
  f_tail : option positive;
  f_streams : gmap positive stream;
}.

(** stream_fifo_new, beside the streams that exist. *)
Definition stream_fifo_new (streams : gmap positive stream) : stream_fifo :=
  Fifo 0 None None streams.

Definition stream_fifo_push (id : positive) : ST stream_fifo unit := λ f,
  match f_tail f with
  | Some tail =>
      st ← of_option UseAfterFree (f_streams f !! tail);
      Ok (tt, Fifo (u64 (f_count f + 1)) (f_head f) (Some id)
                (<[tail := set_next (Some id) st]> (f_streams f)))
  | None => Ok (tt, Fifo (u64 (f_count f + 1)) (Some id) (Some id) (f_streams f))
  end.

Definition stream_fifo_pop : ST stream_fifo (option positive) := λ f,
  match f_head f with
  | Some id =>
      st ← of_option UseAfterFree (f_streams f !! id);
      let tail := match s_next st with None => None | Some _ => f_tail f end in
      Ok (Some id, Fifo (u64 (f_count f - 1)) (s_next st) tail (f_streams f))
  | None => Ok (None, Fifo (u64 (f_count f - 1)) None (f_tail f) (f_streams f))
  end.

Definition stream_fifo_head (f : stream_fifo) : option positive := f_head f.

Definition stream_free (id : positive) (h : gmap positive stream) : res (gmap positive stream) :=
  if h !! id is Some _ then Ok (delete id h) else Fail UseAfterFree.

(** The loop of stream_fifo_clean; one turn for each stream, so the number of
    streams is fuel enough. *)
Fixpoint clean_loop (fuel : nat) (s : option positive) (h : gmap positive stream) :
    res (gmap positive stream) :=
  match s, fuel with
  | None, _ => Ok h
  | Some _, O => Fail OutOfFuel
  | Some id, S fuel =>
      st ← of_option UseAfterFree (h !! id);
      h ← stream_free id h;
      clean_loop fuel (s_next st) h
  end.

Definition stream_fifo_clean : ST stream_fifo unit := λ f,
  h ← clean_loop (size (f_streams f)) (f_head f) (f_streams f);
  Ok (tt, Fifo 0 None None h).

(** stream_fifo_free: the queue itself goes; the streams that are left. *)
Definition stream_fifo_free (f : stream_fifo) : res (gmap positive stream) :=
  '(_, f) ← stream_fifo_clean f;
  Ok (f_streams f).

(** * Facts *)

(** ** Words in network order *)

Definition be16 (w : Z) : list Z := [u8 (Z.shiftr w 8); u8 w].
Definition be32 (l : Z) : list Z :=
  [u8 (Z.shiftr l 24); u8 (Z.shiftr l 16); u8 (Z.shiftr l 8); u8 l].

Lemma lor_shiftl a b k : 0 ≤ k → 0 ≤ b < 2^k → Z.lor (Z.shiftl a k) b = a * 2^k + b.
Proof.
  intros Hk Hb. rewrite Z.shiftl_mul_pow2 by done. symmetry.
  apply Z.add_nocarry_lor. rewrite <-Z.shiftl_mul_pow2 by done.
  apply Z.bits_inj'. intros i Hi. rewrite Z.land_spec, Z.bits_0, Z.shiftl_spec by done.
  destruct (decide (i < k)); [by rewrite Z.testbit_neg_r by lia|].
  rewrite andb_comm. destruct (decide (b = 0)) as [->|]; [by rewrite Z.bits_0|].
  rewrite Z.bits_above_log2; [done|lia|].
  apply Z.lt_le_trans with k; [apply Z.log2_lt_pow2; lia|lia].
Qed.

Lemma be16_value w : is_u16 w →
  u16 (Z.lor (u16 (Z.shiftl (u8 (Z.shiftr w 8)) 8)) (u8 w)) = w.
Proof.
  intros Hw. unfold is_u16, u16, u8 in *. rewrite !Z.shiftr_div_pow2 by lia.
  assert (0 ≤ w / 2^8 < 2^8) by dm_lia.
  rewrite (Z.mod_small (w / 2^8)) by lia.
  rewrite (Z.mod_small (Z.shiftl _ _)) by (rewrite Z.shiftl_mul_pow2; lia).
  rewrite lor_shiftl by dm_lia. rewrite Z.mod_small by dm_lia. dm_lia.
Qed.

Lemma be32_value l : is_u32 l →
  u32 (Z.lor (u32 (Z.lor (u32 (Z.lor (u32 (Z.shiftl (u8 (Z.shiftr l 24)) 24))
    (Z.shiftl (u8 (Z.shiftr l 16)) 16))) (Z.shiftl (u8 (Z.shiftr l 8)) 8))) (u8 l)) = l.
Proof.
  intros Hl. unfold is_u32, u32, u8 in *. rewrite !Z.shiftr_div_pow2 by lia.
  set (b3 := (l / 2^24) mod 2^8). set (b2 := (l / 2^16) mod 2^8).
  set (b1 := (l / 2^8) mod 2^8). set (b0 := l mod 2^8).
  assert (l = b3 * 2^24 + b2 * 2^16 + b1 * 2^8 + b0 ∧ 0 ≤ b3 < 2^8 ∧ 0 ≤ b2 < 2^8 ∧ 0 ≤ b1 < 2^8
    ∧ 0 ≤ b0 < 2^8) as (Heq & H3 & H2 & H1 & H0) by (unfold b3, b2, b1, b0; dm_lia).
  clearbody b3 b2 b1 b0. subst l.
  rewrite (Z.mod_small (Z.shiftl b3 24)) by (rewrite Z.shiftl_mul_pow2; lia).
  replace (Z.shiftl b3 24) with (Z.shiftl (b3 * 2^8) 16) by (rewrite !Z.shiftl_mul_pow2; lia).
  rewrite <-Z.shiftl_lor, <-(Z.shiftl_mul_pow2 b3), (lor_shiftl b3 b2 8) by lia.
  rewrite (Z.mod_small (Z.shiftl _ 16)) by (rewrite Z.shiftl_mul_pow2; lia).
  replace (Z.shiftl (b3 * 2^8 + b2) 16) with (Z.shiftl ((b3 * 2^8 + b2) * 2^8) 8)
    by (rewrite !Z.shiftl_mul_pow2; lia).
  rewrite <-Z.shiftl_lor, <-(Z.shiftl_mul_pow2 (b3 * 2^8 + b2)), (lor_shiftl _ b1 8) by lia.
  rewrite (Z.mod_small (Z.shiftl _ 8)) by (rewrite Z.shiftl_mul_pow2; lia).
  rewrite lor_shiftl by lia. rewrite Z.mod_small by lia. lia.
Qed.

(** ** Writing at the put pointer *)

(** The array [a] with [bs] written at [off]. *)
Definition splice (a : list Z) (off : nat) (bs : list Z) : list Z :=
  take off a ++ bs ++ drop (off + length bs) a.

Lemma length_splice a off bs :
  (off + length bs ≤ length a)%nat → length (splice a off bs) = length a.
Proof. intros ?. unfold splice. rewrite !length_app, length_take, length_drop. lia. Qed.

Lemma splice_splice a off b1 b2 :
  (off + length b1 + length b2 ≤ length a)%nat →
  splice (splice a off b1) (off + length b1) b2 = splice a off (b1 ++ b2).
Proof.
  intros ?. unfold splice.
  assert (length (take off a ++ b1) = (off + length b1)%nat) as Hl
    by (rewrite length_app, length_take; lia).
  rewrite (app_assoc (take off a) b1), take_app_length' by done.
  rewrite drop_app_ge by lia. rewrite Hl, drop_drop, length_app, <-!app_assoc.
  do 4 f_equal. lia.
Qed.

Lemma splice_insert a off b : (off < length a)%nat → <[off := b]> a = splice a off [b].
Proof.
  intros H. unfold splice. cbn [length app]. rewrite insert_take_drop by done.
  by rewrite Nat.add_1_r.
Qed.

Lemma bytes_ok_splice a off bs : bytes_ok a → bytes_ok bs → bytes_ok (splice a off bs).
Proof.
  intros Ha Hb. unfold splice, bytes_ok. rewrite !Forall_app.
  auto using Forall_take, Forall_drop.
Qed.

(** A stream in good order. *)
Record stream_ok (s : stream) : Prop := StreamOk {
  ok_size : s_size s = Z.of_nat (length (s_data s));
  ok_max : s_size s < 2^63;
  ok_putp : 0 ≤ s_putp s ≤ s_size s;
  ok_endp : 0 ≤ s_endp s ≤ s_size s;
  ok_getp : 0 ≤ s_getp s ≤ s_size s;
  ok_bytes : bytes_ok (s_data s);
}.

Lemma stream_new_ok size : 0 ≤ size < 2^63 → stream_ok (stream_new size).
Proof.
  intros ?. split; cbn; try lia; [rewrite length_replicate; lia|].
  apply Forall_replicate. unfold is_u8. lia.
Qed.

(** What is left of the block. *)
Definition room (s : stream) : Z := s_size s - s_putp s.

(** The stream after [bs] has been written at the put pointer. *)
Definition append (bs : list Z) (s : stream) : stream :=
  let p := s_putp s + Z.of_nat (length bs) in
  Stream (s_next s) (splice (s_data s) (Z.to_nat (s_putp s)) bs) p (s_getp s)
    (Z.max (s_endp s) p) (s_size s).

Lemma append_ok bs s :
  stream_ok s → bytes_ok bs → Z.of_nat (length bs) ≤ room s → stream_ok (append bs s).
Proof.
  intros [] Hbs Hr. unfold room in Hr. split; cbn; try lia.
  - rewrite length_splice by lia. lia.
  - by apply bytes_ok_splice.
Qed.

Lemma room_u64 s : stream_ok s → u64 (s_size s - s_putp s) = room s.
Proof. intros []. apply u64_id. unfold room, is_u64. lia. Qed.

Lemma push_endp_eq s : push_endp s = set_endp (Z.max (s_endp s) (s_putp s)) s.
Proof.
  unfold push_endp. case_bool; [|destruct s]; unfold set_endp; cbn in *; f_equal; lia.
Qed.

Lemma copy_in_append src n s :
  stream_ok s → 0 ≤ n ≤ room s → n ≤ Z.of_nat (length src) →
  copy_in src n s = Ok (append (take (Z.to_nat n) src) s).
Proof.
  intros Hs Hn Hsrc. pose proof Hs as []. unfold copy_in, room in *.
  rewrite get_bytes_in by lia. cbn [mbind res_bind]. rewrite drop_0.
  rewrite put_bytes_in by (rewrite ?length_take; lia). cbn [mbind res_bind].
  rewrite push_endp_eq. unfold append, splice, set_endp, set_putp, set_data. cbn.
  rewrite u64_id by (unfold is_u64; lia). rewrite length_take, Nat.min_l by lia.
  by rewrite Z2Nat.id by lia.
Qed.

Lemma store_byte_ok b s :
  stream_ok s → 1 ≤ room s →
  ∃ s', store_byte b s = Ok (tt, s') ∧ push_endp s' = append [u8 b] s ∧
    s' = set_endp (s_endp s) (append [u8 b] s).
Proof.
  intros [] Hr. unfold room in Hr. unfold store_byte. rewrite set_byte_in by lia.
  cbn [mbind res_bind]. eexists. split; [reflexivity|].
  rewrite splice_insert by lia. rewrite u64_id by (unfold is_u64; lia).
  rewrite push_endp_eq. done.
Qed.

Lemma append_endp b1 e s : append b1 (set_endp e s) =
  set_endp (Z.max e (s_putp s + Z.of_nat (length b1))) (append b1 s).
Proof. done. Qed.

Lemma append_append b1 b2 s :
  stream_ok s → Z.of_nat (length b1) + Z.of_nat (length b2) ≤ room s →
  append b2 (append b1 s) = append (b1 ++ b2) s.
Proof.
  intros [] Hr. unfold room in Hr. unfold append. cbn. rewrite length_app.
  replace (Z.to_nat (s_putp s + Z.of_nat (length b1)))
    with (Z.to_nat (s_putp s) + length b1)%nat by lia.
  rewrite splice_splice by lia. f_equal; lia.
Qed.

Lemma set_endp_ok e s : stream_ok s → 0 ≤ e ≤ s_size s → stream_ok (set_endp e s).
Proof. intros [] ?. by split. Qed.

(** A run of stores followed by the end pointer is one append. *)
Lemma stores_append bs r s :
  stream_ok s → (0 < length bs)%nat → Z.of_nat (length bs) ≤ room s →
  (foldr (λ b k, store_byte b;; k) (close_put r) bs) s = Ok (r, append (u8 <$> bs) s).
Proof.
  revert s. induction bs as [|b bs IH]; intros s Hs Hl Hr; [cbn in Hl; lia|].
  cbn [length] in Hr. destruct (store_byte_ok b s Hs) as (s' & Hst & Hpush & Heq); [lia|].
  cbn [foldr]. erewrite st_bind_Ok by done. destruct bs as [|b' bs].
  - cbn. unfold close_put. by rewrite Hpush.
  - assert (stream_ok (append [u8 b] s)) as Hs1.
    { apply append_ok; [done|constructor; [apply u8_range|constructor]|cbn in *; lia]. }
    rewrite IH; [|subst s'; apply set_endp_ok; [done|destruct Hs; cbn; lia]|cbn; lia
      |subst s'; unfold room in *; cbn in *; lia].
    f_equal. f_equal. subst s'. rewrite append_endp.
    rewrite append_append by (rewrite ?length_fmap; cbn in *; done || lia).
    change (u8 <$> b :: b' :: bs) with ([u8 b] ++ (u8 <$> b' :: bs)).
    unfold append, set_endp. cbn. f_equal. rewrite length_fmap. lia.
Qed.

Lemma stream_putc_spec c s :
  stream_ok s →
  stream_putc c s = if room s <? 1 then Ok (0, s) else Ok (1, append [u8 c] s).
Proof.
  intros Hs. unfold stream_putc. destruct (Z.ltb_spec (room s) 1); unfold room in *.
  - by rewrite (proj2 (Z.leb_le _ _)) by lia.
  - rewrite (proj2 (Z.leb_gt _ _)) by lia. apply (stores_append [c]); [done|cbn; lia|unfold room; cbn; lia].
Qed.

Lemma stream_putw_spec w s :
  stream_ok s →
  stream_putw w s = if room s <? 2 then Ok (0, s) else Ok (2, append (be16 w) s).
Proof.
  intros Hs. unfold stream_putw. rewrite room_u64 by done. case_bool; [done|].
  apply (stores_append [_; w]); [done|cbn; lia|cbn; lia].
Qed.

Lemma stream_putl_spec l s :
  stream_ok s →
  stream_putl l s = if room s <? 4 then Ok (0, s) else Ok (4, append (be32 l) s).
Proof.
  intros Hs. unfold stream_putl. rewrite room_u64 by done. case_bool; [done|].
  apply (stores_append [_; _; _; l]); [done|cbn; lia|cbn; lia].
Qed.

Lemma stream_put_ipv4_spec l s :
  stream_ok s → length l = 4%nat →
  stream_put_ipv4 l s = if room s <? 4 then Ok (0, s) else Ok (4, append l s).
Proof.
  intros Hs Hl. unfold stream_put_ipv4. rewrite room_u64 by done. case_bool; [done|].
  rewrite copy_in_append by (rewrite ?Hl; done || lia). cbn. by rewrite take_ge by (rewrite Hl; lia).
Qed.

(** ** Reading at the get pointer *)

(** What lies at the get pointer. *)
Definition ahead (s : stream) : list Z := drop (Z.to_nat (s_getp s)) (s_data s).

Definition skip (n : nat) (s : stream) : stream := set_getp (s_getp s + Z.of_nat n) s.

Lemma ahead_length s bs rest :
  stream_ok s → ahead s = bs ++ rest → s_getp s + Z.of_nat (length bs) ≤ s_size s.
Proof.
  intros [] Ha. apply (f_equal length) in Ha. unfold ahead in Ha.
  rewrite length_drop, length_app in Ha. lia.
Qed.

Lemma skip_ok s bs rest : stream_ok s → ahead s = bs ++ rest → stream_ok (skip (length bs) s).
Proof. intros Hs Ha. pose proof (ahead_length _ _ _ Hs Ha). destruct Hs. split; cbn; try done; lia. Qed.

Lemma ahead_skip s bs rest : stream_ok s → ahead s = bs ++ rest → ahead (skip (length bs) s) = rest.
Proof.
  intros [] Ha. unfold ahead, skip in *. cbn.
  replace (Z.to_nat (s_getp s + Z.of_nat (length bs)))
    with (Z.to_nat (s_getp s) + length bs)%nat by lia.
  rewrite <-drop_drop, Ha. by rewrite drop_app_length.
Qed.

Lemma skip_skip n m s : skip m (skip n s) = skip (n + m) s.
Proof. unfold skip, set_getp. cbn. f_equal. lia. Qed.

Lemma next_byte_ahead s b rest :
  stream_ok s → ahead s = b :: rest → next_byte s = Ok (b, skip 1 s).
Proof.
  intros Hs Ha. pose proof (ahead_length s [b] rest Hs Ha) as Hl. cbn in Hl. destruct Hs.
  assert (s_data s !! Z.to_nat (s_getp s) = Some b) as Hb.
  { transitivity (ahead s !! 0%nat); [|by rewrite Ha].
    unfold ahead. by rewrite lookup_drop, Nat.add_0_r. }
  unfold next_byte. rewrite (proj2 (get_byte_Ok _ _ b)) by (split; [lia|done]). cbn.
  by rewrite u64_id by (unfold is_u64; lia).
Qed.

Lemma next_byte_step {X} s b rest (k : Z → ST stream X) :
  stream_ok s → ahead s = b :: rest →
  (next_byte ≫= k) s = k b (skip 1 s) ∧ stream_ok (skip 1 s) ∧ ahead (skip 1 s) = rest.
Proof.
  intros Hs Ha. split_and!; [by erewrite st_bind_Ok by (by eapply next_byte_ahead)
    |exact (skip_ok s [b] rest Hs Ha)|exact (ahead_skip s [b] rest Hs Ha)].
Qed.

Ltac step_bytes :=
  repeat match goal with
  | Hs : stream_ok ?s, Ha : ahead ?s = _ :: _ |- context [(next_byte ≫= ?k) ?s] =>
      let H := fresh in
      destruct (next_byte_step s _ _ k Hs Ha) as (H & ? & ?); rewrite H; clear H; cbv beta zeta
  end.

Lemma stream_getw_ahead s w rest :
  stream_ok s → is_u16 w → ahead s = be16 w ++ rest → stream_getw s = Ok (w, skip 2 s).
Proof.
  intros Hs Hw Ha. unfold be16 in Ha. cbn [app] in Ha. unfold stream_getw. step_bytes.
  unfold mret, ST_ret. rewrite be16_value by done. by rewrite skip_skip.
Qed.

Lemma stream_getl_ahead s l rest :
  stream_ok s → is_u32 l → ahead s = be32 l ++ rest → stream_getl s = Ok (l, skip 4 s).
Proof.
  intros Hs Hl Ha. unfold be32 in Ha. cbn [app] in Ha. unfold stream_getl. step_bytes.
  unfold mret, ST_ret. rewrite be32_value by done. by rewrite !skip_skip.
Qed.

Lemma stream_get_ahead s bs rest n :
  stream_ok s → ahead s = bs ++ rest → length bs = n →
  stream_get (Z.of_nat n) s = Ok (bs, skip n s).
Proof.
  intros Hs Ha <-. pose proof (ahead_length _ _ _ Hs Ha). destruct Hs.
  unfold stream_get. rewrite get_bytes_in by lia. fold (ahead s). rewrite Ha.
  cbn [mbind res_bind]. rewrite Nat2Z.id, take_app_length.
  by rewrite u64_id by (unfold is_u64; lia).
Qed.

(** * Contract *)

(** The units packets are made of, with the calls that write and read them. *)
Inductive item :=
  | ItemC (c : Z)
  | ItemW (w : Z)
  | ItemL (l : Z)
  | ItemA (addr : list Z).

Definition item_ok (it : item) : Prop :=
  match it with
  | ItemC c => is_u8 c
  | ItemW w => is_u16 w
  | ItemL l => is_u32 l
  | ItemA a => bytes_ok a ∧ length a = 4%nat
  end.

Definition item_bytes (it : item) : list Z :=
  match it with
  | ItemC c => [c]
  | ItemW w => be16 w
  | ItemL l => be32 l
  | ItemA a => a
  end.

Definition put_item (it : item) : ST stream Z :=
  match it with
  | ItemC c => stream_putc c
  | ItemW w => stream_putw w
  | ItemL l => stream_putl l
  | ItemA a => stream_put_ipv4 a
  end.

(** Read an item of the kind of [it]. *)
Definition get_like (it : item) : ST stream item :=
  match it with
  | ItemC _ => c ← stream_getc; mret (ItemC c)
  | ItemW _ => w ← stream_getw; mret (ItemW w)
  | ItemL _ => l ← stream_getl; mret (ItemL l)
  | ItemA _ => a ← stream_get_ipv4; mret (ItemA a)
  end.

Definition put_items (its : list item) : ST stream (list Z) :=
  foldr (λ it k, n ← put_item it; ns ← k; mret (n :: ns)) (mret []) its.

Definition get_items (its : list item) : ST stream (list item) :=
  foldr (λ it k, x ← get_like it; xs ← k; mret (x :: xs)) (mret []) its.

Definition item_len (it : item) : Z := Z.of_nat (length (item_bytes it)).
Definition items_bytes (its : list item) : list Z := its ≫= item_bytes.

Lemma item_bytes_ok it : item_ok it → bytes_ok (item_bytes it).
Proof.
  destruct it; cbn; intros H; [by apply Forall_singleton| | |apply H];
    unfold be16, be32, bytes_ok; rewrite !Forall_cons; auto 10 with zebra.
Qed.

Lemma put_item_spec it s :
  stream_ok s → item_ok it →
  put_item it s = if room s <? item_len it then Ok (0, s)
                  else Ok (item_len it, append (item_bytes it) s).
Proof.
  intros Hs Hit. destruct it as [c|w|l|a]; cbn [put_item item_bytes item_len].
  - rewrite stream_putc_spec by done. by rewrite u8_id.
  - by rewrite stream_putw_spec.
  - by rewrite stream_putl_spec.
  - destruct Hit as [_ Ha]. rewrite stream_put_ipv4_spec by done.
    unfold item_len. cbn [item_bytes]. by rewrite Ha.
Qed.

Lemma get_like_spec it s rest :
  stream_ok s → item_ok it → ahead s = item_bytes it ++ rest →
  get_like it s = Ok (it, skip (length (item_bytes it)) s).
Proof.
  intros Hs Hit Ha. destruct it as [c|w|l|a]; cbn [get_like item_bytes item_ok] in *.
  - change stream_getc with next_byte. by erewrite st_bind_Ok by (by eapply next_byte_ahead).
  - by erewrite st_bind_Ok by (by eapply stream_getw_ahead).
  - by erewrite st_bind_Ok by (by eapply stream_getl_ahead).
  - destruct Hit as [_ Hl]. change stream_get_ipv4 with (stream_get (Z.of_nat 4)).
    erewrite st_bind_Ok by (by eapply stream_get_ahead). by rewrite Hl.
Qed.

(** Writing an item is all or nothing: when the block has room the whole item
    is written at the put pointer and its length returned, otherwise 0 is
    returned and the stream is as it was; never a fault, and the pointers stay
    inside the block. *)
Theorem put_item_all_or_nothing it s :
  stream_ok s → item_ok it →
  ∃ r s', put_item it s = Ok (r, s') ∧ stream_ok s' ∧
    (item_len it ≤ room s ∧ r = item_len it ∧ s' = append (item_bytes it) s ∨
     room s < item_len it ∧ r = 0 ∧ s' = s).
Proof.
  intros Hs Hit. rewrite put_item_spec by done. unfold item_len. case_bool.
  - eexists _, _. split_and!; [done..|]. right. by split_and!.
  - eexists _, _. split_and!; [done|apply append_ok; [done|by apply item_bytes_ok|lia]|].
    left. by split_and!.
Qed.

Lemma put_items_append its s :
  stream_ok s → s_putp s ≤ s_endp s → Forall item_ok its → Z.of_nat (length (items_bytes its)) ≤ room s →
  put_items its s = Ok (item_len <$> its, append (items_bytes its) s) ∧
  stream_ok (append (items_bytes its) s).
Proof.
  intros Hs Hpe Hits. revert s Hs Hpe.
  induction Hits as [|it its Hit Hits IH]; intros s Hs Hpe Hr.
  - cbn. assert (append [] s = s) as ->; [|done]. destruct s, Hs. unfold append, splice. cbn in *.
    rewrite Nat.add_0_r, take_drop. f_equal; lia.
  - unfold items_bytes in *. cbn [mbind list_bind] in *. rewrite length_app in Hr.
    assert (stream_ok (append (item_bytes it) s)) as Hs1
      by (apply append_ok; [done|by apply item_bytes_ok|lia]).
    destruct (IH _ Hs1) as [Hrun Hok]; [cbn; lia|unfold room in *; cbn; lia|].
    rewrite append_append in Hrun, Hok by (done || lia). split; [|done].
    cbn [put_items foldr]. erewrite st_bind_Ok.
    2:{ rewrite put_item_spec by done. unfold item_len. by rewrite (proj2 (Z.ltb_ge _ _)) by lia. }
    by erewrite st_bind_Ok by exact Hrun.
Qed.

Lemma get_items_ahead its s rest :
  stream_ok s → Forall item_ok its → ahead s = items_bytes its ++ rest →
  get_items its s = Ok (its, skip (length (items_bytes its)) s).
Proof.
  intros Hs Hits. revert s Hs. induction Hits as [|it its Hit Hits IH]; intros s Hs Ha.
  - cbn. unfold skip, set_getp. cbn. rewrite Z.add_0_r. by destruct s.
  - unfold items_bytes in *. cbn [mbind list_bind] in *. rewrite <-app_assoc in Ha.
    cbn [get_items foldr]. erewrite st_bind_Ok by (by eapply get_like_spec).
    erewrite st_bind_Ok by (apply IH; [by eapply skip_ok|by eapply ahead_skip]).
    by rewrite skip_skip, length_app.
Qed.

(** C32: what is put comes back: a list of items that fits is written into a new
    stream with every call returning the length of its item, and the get calls
    of the same kinds return the same items and stop at the end pointer. *)
Theorem stream_roundtrip size its :
  0 ≤ size < 2^63 → Forall item_ok its → Z.of_nat (length (items_bytes its)) ≤ size →
  ∃ s s', put_items its (stream_new size) = Ok (item_len <$> its, s) ∧ stream_ok s ∧
    s_endp s = Z.of_nat (length (items_bytes its)) ∧
    get_items its s = Ok (its, s') ∧ s_getp s' = s_endp s'.
Proof.
  intros Hsize Hits Hlen.
  pose proof (stream_new_ok size Hsize) as Hnew.
  destruct (put_items_append its (stream_new size)) as [Hput Hok]; [done..|unfold room; cbn; lia|].
  eexists _, _. split_and!; [exact Hput|done|cbn; lia| |].
  - eapply get_items_ahead; [done..|]. unfold ahead, append, splice. cbn. reflexivity.
  - cbn. lia.
Qed.

(** stream_put and stream_write never run past the block: they copy as many
    of the bytes asked for as fit, and stream_write returns that number. *)
Theorem stream_write_clips src n s :
  stream_ok s → 0 ≤ n < 2^63 → n ≤ Z.of_nat (length src) → bytes_ok src →
  let m := Z.min n (room s) in
  let s' := append (take (Z.to_nat m) src) s in
  stream_write src n s = Ok (m, s') ∧ stream_put (Some src) n s = Ok (tt, s') ∧ stream_ok s'.
Proof.
  intros Hs Hn Hsrc Hb m s'.
  assert (CHECK_SIZE s n = m) as Hm.
  { unfold CHECK_SIZE, m. rewrite room_u64 by done. destruct Hs. unfold room.
    rewrite u64_id by (unfold is_u64; lia). case_bool; lia. }
  assert (0 ≤ m ≤ room s) by (destruct Hs; unfold m, room in *; lia).
  unfold stream_write, stream_put. rewrite Hm. cbn [from_option id].
  rewrite (copy_in_append src m) by (done || (unfold m; lia)). split_and!; [done..|].
 
  apply append_ok; [done|by apply Forall_take|rewrite length_take; lia].
Qed.

(** stream_put_prefix on a stream with room for the length byte and the
    address bytes writes both, and returns the number of address bytes. *)
Theorem stream_put_prefix_writes p s :
  stream_ok s → prefix_wf p → is_u8 (prefixlen p) → PSIZE (prefixlen p) + 1 ≤ room s →
  let n := PSIZE (prefixlen p) in
  let s' := append (prefixlen p :: take (Z.to_nat n) (u p)) s in
  stream_put_prefix p s = Ok (n, s') ∧ stream_ok s'.
Proof.
  intros Hs [Hb Hl] Hu8 Hr n s'. fold n in Hr.
  assert (0 ≤ n ≤ 32 ∧ n ≤ Z.of_nat (length (u p))) as [Hn Hnl]
    by (unfold n, PSIZE; unfold is_u8 in Hu8; dm_lia).
  unfold stream_put_prefix. fold n. rewrite u8_id by (unfold is_u8; lia).
  rewrite room_u64, (proj2 (Z.ltb_ge _ _)) by (done || lia).
  rewrite stream_putc_spec, (proj2 (Z.ltb_ge _ _)) by (done || lia). cbn [mbind res_bind].
  assert (bytes_ok [prefixlen p]) as H1 by (by apply Forall_singleton).
  assert (stream_ok (append [prefixlen p] s)) by (apply append_ok; [done..|cbn; lia]).
  rewrite u8_id by done.
  rewrite copy_in_append by (done || unfold room in *; cbn; lia). cbn [mbind res_bind].
  rewrite append_append by (rewrite ?length_take; done || cbn; lia).
  split; [done|]. apply append_ok; [done|apply Forall_cons; split; [done|by apply Forall_take]|].
  cbn. rewrite length_take. lia.
Qed.

(** The guard of stream_put_prefix forgets the length byte: when exactly the
    address bytes fit, the copy runs one byte past the block. *)
Theorem stream_put_prefix_overflow p s :
  stream_ok s → prefix_wf p → is_u8 (prefixlen p) → 0 < prefixlen p →
  PSIZE (prefixlen p) = room s →
  stream_put_prefix p s = Fail OutOfBounds.
Proof.
  intros Hs [Hb Hl] Hu8 H0 Hr. set (n := PSIZE (prefixlen p)) in *.
  assert (1 ≤ n ≤ 32 ∧ n ≤ Z.of_nat (length (u p))) as [Hn Hnl]
    by (unfold n, PSIZE; unfold is_u8 in Hu8; dm_lia).
  unfold stream_put_prefix. fold n. rewrite u8_id by (unfold is_u8; lia).
  rewrite room_u64, (proj2 (Z.ltb_ge _ _)) by (done || lia).
  rewrite stream_putc_spec, (proj2 (Z.ltb_ge _ _)) by (done || lia). cbn [mbind res_bind].
  unfold copy_in. rewrite get_bytes_in by lia. cbn [mbind res_bind]. rewrite drop_0.
  rewrite put_bytes_out; [done|]. destruct Hs. unfold append, room in *. cbn.
  rewrite length_splice, length_take by (cbn; lia). lia.
Qed.

(** ** Reading from a descriptor *)

Lemma readn_spec chunks a ptr nleft nbytes :
  Forall (λ c, c ≠ []) chunks → 0 ≤ ptr →
  Z.of_nat (length (concat chunks)) ≤ nleft → ptr + nleft ≤ Z.of_nat (length a) →
  ∃ rest, readn (Some <$> chunks) a ptr nleft nbytes =
    Ok (nbytes - nleft + Z.of_nat (length (concat chunks)),
        splice a (Z.to_nat ptr) (concat chunks), rest).
Proof.
  intros Hc. revert a ptr nleft. induction Hc as [|c chunks Hne Hc IH]; intros a ptr nleft Hp Hn Ha.
  - exists []. cbn. unfold splice. cbn. rewrite Nat.add_0_r, take_drop.
    destruct (nleft <=? 0); by rewrite Z.add_0_r.
  - cbn [concat fmap list_fmap readn] in *. rewrite length_app in Hn.
    assert (0 < length c)%nat by (destruct c; [done|cbn; lia]).
    rewrite (proj2 (Z.leb_gt nleft 0)), take_ge by lia.
    rewrite put_bytes_in by lia. cbn [mbind res_bind].
    rewrite (proj2 (Z.eqb_neq _ 0)) by lia.
    fold (splice a (Z.to_nat ptr) c).
    destruct (IH (splice a (Z.to_nat ptr) c) (ptr + Z.of_nat (length c)) (nleft - Z.of_nat (length c)))
      as [rest Hrest]; [lia|lia|rewrite length_splice by lia; lia|].
    exists rest. rewrite Hrest.
    replace (Z.to_nat (ptr + Z.of_nat (length c))) with (Z.to_nat ptr + length c)%nat by lia.
    rewrite splice_splice by lia. rewrite length_app. do 3 f_equal. lia.
Qed.

(** stream_read collects what the descriptor delivers in any number of
    pieces: the bytes land one after the other at the put pointer, inside the
    block, and both pointers move past them. *)
Theorem stream_read_collects chunks size s :
  stream_ok s → s_putp s = s_endp s → Forall (λ c, c ≠ []) chunks → bytes_ok (concat chunks) →
  Z.of_nat (length (concat chunks)) ≤ size ≤ room s →
  stream_read (Some <$> chunks) size s =
    Ok (Z.of_nat (length (concat chunks)), append (concat chunks) s) ∧
  stream_ok (append (concat chunks) s).
Proof.
  intros Hs Hpe Hne Hb Hsize. split; [|apply append_ok; [done..|lia]].
  destruct Hs. unfold room in *. unfold stream_read.
  destruct (readn_spec chunks (s_data s) (s_putp s) size size) as [rest ->]; [done|lia..|].
  cbn [mbind res_bind]. rewrite Z.sub_diag, Z.add_0_l. do 2 f_equal. unfold advance.
  case_bool; unfold append, set_endp, set_putp, set_data; cbn.
  - rewrite !u64_id by (unfold is_u64; lia). f_equal. lia.
  - assert (concat chunks = []) as -> by (destruct (concat chunks); [done|cbn in *; lia]).
    cbn. f_equal; lia.
Qed.

(** ** The queue of streams *)

(** The streams [ns] hang together by their [next] pointers. *)
Fixpoint linked (h : gmap positive stream) (ns : list positive) : Prop :=
  match ns with
  | [] => True
  | i :: rest => (∃ s, h !! i = Some s ∧ s_next s = head rest) ∧ linked h rest
  end.

Record fifo_ok (f : stream_fifo) (ns : list positive) : Prop := FifoOk {
  fifo_head : f_head f = head ns;
  fifo_tail : f_tail f = last ns;
  fifo_linked : linked (f_streams f) ns;
  fifo_nodup : NoDup ns;
  fifo_count : f_count f = u64 (Z.of_nat (length ns));
}.

Lemma linked_elem h ns i : linked h ns → i ∈ ns → is_Some (h !! i).
Proof.
  induction ns as [|j ns IH]; [by intros _ ?%not_elem_of_nil|].
  intros [(s & Hs & _) Hl] [->|Hi]%elem_of_cons; eauto.
Qed.

Lemma linked_ne h i s ns : i ∉ ns → linked h ns → linked (<[i := s]> h) ns.
Proof.
  induction ns as [|j ns IH]; [done|]. rewrite not_elem_of_cons. intros [Hij Hi] [Hs Hl].
  split; [by rewrite lookup_insert_ne by done|by apply IH].
Qed.

Lemma linked_delete h i ns : i ∉ ns → linked h ns → linked (delete i h) ns.
Proof.
  induction ns as [|j ns IH]; [done|]. rewrite not_elem_of_cons. intros [Hij Hi] [Hs Hl].
  split; [by rewrite lookup_delete_ne by done|by apply IH].
Qed.

Lemma linked_push h ns tail id st s :
  linked h (ns ++ [tail]) → NoDup (ns ++ [tail]) → h !! tail = Some st →
  h !! id = Some s → s_next s = None → id ≠ tail →
  linked (<[tail := set_next (Some id) st]> h) ((ns ++ [tail]) ++ [id]).
Proof.
  intros Hl Hnd Ht Hid Hn Hne. induction ns as [|i ns IH]; cbn in *.
  - split; [rewrite lookup_insert_eq; by eexists|]. split; [|done].
    rewrite lookup_insert_ne by done. eauto.
  - apply NoDup_cons in Hnd as [Hi Hnd]. destruct Hl as [(si & Hsi & Hnext) Hl].
    split; [|by apply IH]. exists si. rewrite lookup_insert_ne by set_solver.
    split; [done|]. rewrite Hnext. by destruct ns.
Qed.

Lemma u64_step x y : u64 (u64 x + y) = u64 (x + y).
Proof. apply Z.add_mod_idemp_l. done. Qed.

(** The queue is first in, first out: a push of a stream that is in no queue
    puts it at the end, a pop takes the stream at the front, and the count follows. *)
Theorem stream_fifo_order f ns id s :
  fifo_ok f ns → f_streams f !! id = Some s → s_next s = None → id ∉ ns →
  ∃ f' f'' front, stream_fifo_push id f = Ok (tt, f') ∧ fifo_ok f' (ns ++ [id]) ∧
    head (ns ++ [id]) = Some front ∧
    stream_fifo_pop f' = Ok (Some front, f'') ∧ fifo_ok f'' (tail (ns ++ [id])).
Proof.
  intros [Hh Ht Hl Hnd Hc] Hs Hn Hid.
  assert (∃ f', stream_fifo_push id f = Ok (tt, f') ∧ fifo_ok f' (ns ++ [id])) as (f' & Hp & Hok).
  { assert (NoDup (ns ++ [id])) as Hnd' by (apply NoDup_app; split_and!;
      [done|set_solver|apply NoDup_singleton]).
    unfold stream_fifo_push. rewrite Ht, Hc.
    assert (u64 (u64 (Z.of_nat (length ns)) + 1) = u64 (Z.of_nat (length (ns ++ [id])))) as Hcount
      by (rewrite u64_step, length_app; f_equal; cbn; lia).
    destruct ns as [|tl ns _] using rev_ind.
    - cbn. eexists. split; [done|]. split; cbn; try done. eauto.
    - rewrite last_snoc. assert (is_Some (f_streams f !! tl)) as [st Hst].
      { apply (linked_elem _ (ns ++ [tl])); [done|set_solver]. }
      rewrite Hst. cbn [of_option mbind res_bind]. eexists. split; [done|].
      split; cbn [f_head f_tail f_streams f_count]; [rewrite Hh; by destruct ns|by rewrite last_snoc| |done..].
      apply (linked_push _ _ _ _ _ s); set_solver. }
  destruct (ns ++ [id]) as [|front rest] eqn:E; [by destruct ns|].
  pose proof Hok as [Hh' Ht' Hl' Hnd' Hc']. cbn in Hh'. destruct Hl' as [(sf & Hsf & Hnext) Hl'].
  exists f'. eexists _, front. split_and!; [done..| |].
  { unfold stream_fifo_pop. rewrite Hh', Hsf. cbn [of_option mbind res_bind]. reflexivity. }
  apply NoDup_cons in Hnd' as [_ Hnd']. split; cbn; try done.
  - rewrite Hnext, Ht'. by destruct rest.
  - rewrite Hc'. unfold Z.sub. rewrite u64_step. f_equal. cbn. lia.
Qed.

(** stream_fifo_pop counts down even when the queue is empty: the count of an
    empty queue becomes the largest unsigned long. *)
Theorem stream_fifo_pop_empty f :
  fifo_ok f [] → ∃ f', stream_fifo_pop f = Ok (None, f') ∧ f_head f' = None ∧ f_count f' = 2^64 - 1.
Proof.
  intros [Hh _ _ _ Hc]. unfold stream_fifo_pop. rewrite Hh, Hc. by eexists.
Qed.

Lemma clean_loop_ok fuel ns h :
  linked h ns → NoDup ns → (length ns ≤ fuel)%nat →
  ∃ h', clean_loop fuel (head ns) h = Ok h' ∧
    ∀ i, h' !! i = if decide (i ∈ ns) then None else h !! i.
Proof.
  revert ns h. induction fuel as [|fuel IH]; intros [|i ns] h Hl Hnd Hf; cbn in Hf; try lia;
    [by exists h..|].
  destruct Hl as [(s & Hs & Hnext) Hl]. apply NoDup_cons in Hnd as [Hi Hnd].
  cbn [head clean_loop]. unfold stream_free. rewrite Hs. cbn [of_option mbind res_bind]. rewrite Hnext.
  destruct (IH ns (delete i h)) as (h' & Hrun & Hh'); [by apply linked_delete|done|lia|].
  exists h'. split; [done|]. intros j. rewrite Hh'.
  destruct (decide (j ∈ ns)) as [Hj|Hj]; [by rewrite decide_True by (by right)|].
  destruct (decide (j = i)) as [->|Hne].
  - rewrite lookup_delete_eq, decide_True by left. done.
  - rewrite lookup_delete_ne, decide_False by set_solver. done.
Qed.

(** stream_fifo_clean frees the streams of the queue, each once, and no other
    stream, and leaves an empty queue. *)
Theorem stream_fifo_clean_frees f ns :
  fifo_ok f ns →
  ∃ f', stream_fifo_clean f = Ok (tt, f') ∧ fifo_ok f' [] ∧
    ∀ i, f_streams f' !! i = if decide (i ∈ ns) then None else f_streams f !! i.
Proof.
  intros [Hh _ Hl Hnd _]. unfold stream_fifo_clean. rewrite Hh.
  destruct (clean_loop_ok (size (f_streams f)) ns (f_streams f)) as (h' & Hrun & Hh'); [done..| |].
  { rewrite <-(size_list_to_set (C := gset positive)) by done. rewrite <-size_dom.
    apply subseteq_size. intros i Hi%elem_of_list_to_set. apply elem_of_dom. by eapply linked_elem. }
  rewrite Hrun. cbn [mbind res_bind]. eexists. split_and!; [done|by split; try constructor|done].
Qed.

(** * Examples *)

Definition ex_items : list item := [ItemC 4; ItemW 179; ItemA [10; 0; 0; 1]; ItemL 4294967295].
Definition ex_stream : stream := stream_new 16.
Definition ex_prefix : prefix := Prefix AF_INET 20 ([10; 1; 16] ++ replicate 13 0).

Lemma ex_stream_ok : stream_ok ex_stream.
Proof. by apply stream_new_ok. Qed.

Lemma ex_items_ok : Forall item_ok ex_items.
Proof. unfold ex_items. rewrite !Forall_cons. split_and!; try done. split; [by apply bytes_ok_decide|done]. Qed.

Lemma ex_prefix_wf : prefix_wf ex_prefix.
Proof. split; [by apply bytes_ok_decide|by vm_compute]. Qed.

Lemma put_item_all_or_nothing_witness :
  ∃ r s', put_item (ItemL 4294967295) ex_stream = Ok (r, s') ∧ stream_ok s'.
Proof.
  destruct (put_item_all_or_nothing (ItemL 4294967295) ex_stream ex_stream_ok ltac:(by vm_compute))
    as (r & s' & Hp & Hok & _).
  exists r, s'. exact (conj Hp Hok).
Defined.

Lemma stream_roundtrip_witness :
  ∃ s s', put_items ex_items (stream_new 16) = Ok ([1; 2; 4; 4], s) ∧
    get_items ex_items s = Ok (ex_items, s').
Proof.
  destruct (stream_roundtrip 16 ex_items ltac:(by vm_compute) ex_items_ok ltac:(by vm_compute))
    as (s & s' & Hp & _ & _ & Hg & _).
  exists s, s'. exact (conj Hp Hg).
Defined.

Lemma stream_write_clips_witness :
  stream_write (replicate 20 7) 20 ex_stream =
    Ok (16, append (take 16 (replicate 20 7)) ex_stream).
Proof.
  exact (proj1 (stream_write_clips (replicate 20 7) 20 ex_stream ex_stream_ok
    ltac:(by vm_compute) ltac:(by vm_compute) (bytes_ok_decide (replicate 20 7) eq_refl))).
Defined.

Lemma stream_put_prefix_writes_witness :
  stream_put_prefix ex_prefix ex_stream = Ok (3, append [20; 10; 1; 16] ex_stream).
Proof.
  exact (proj1 (stream_put_prefix_writes ex_prefix ex_stream ex_stream_ok ex_prefix_wf
    ltac:(by vm_compute) ltac:(by vm_compute))).
Defined.

Lemma stream_put_prefix_overflow_witness :
  stream_put_prefix ex_prefix (stream_new 3) = Fail OutOfBounds.
Proof.
  exact (stream_put_prefix_overflow ex_prefix (stream_new 3) (stream_new_ok 3 ltac:(by vm_compute))
    ex_prefix_wf ltac:(by vm_compute) ltac:(by vm_compute) ltac:(by vm_compute)).
Defined.

Lemma stream_read_collects_witness :
  stream_read (Some <$> [[1; 2]; [3]]) 10 ex_stream = Ok (3, append [1; 2; 3] ex_stream).
Proof.
  refine (proj1 (stream_read_collects [[1; 2]; [3]] 10 ex_stream ex_stream_ok eq_refl _
    (bytes_ok_decide [1; 2; 3] eq_refl) ltac:(by vm_compute))).
  by repeat constructor.
Defined.

Definition ex_fifo : stream_fifo := Fifo 1 (Some 1%positive) (Some 1%positive)
  {[1%positive := ex_stream; 2%positive := ex_stream]}.

Lemma ex_fifo_ok : fifo_ok ex_fifo [1%positive].
Proof.
  split; cbn; try done; [|apply NoDup_singleton].
  split; [|done]. exists ex_stream. by rewrite lookup_insert_eq.
Qed.

Lemma stream_fifo_order_witness :
  ∃ f' f'', stream_fifo_push 2%positive ex_fifo = Ok (tt, f') ∧
    stream_fifo_pop f' = Ok (Some 1%positive, f'') ∧ fifo_ok f'' [2%positive].
Proof.
  destruct (stream_fifo_order ex_fifo [1%positive] 2%positive ex_stream ex_fifo_ok
    ltac:(by vm_compute) eq_refl ltac:(set_solver)) as (f' & f'' & fr & Hp & _ & Hfr & Hpop & Hok).
  exists f', f''. injection Hfr as <-. exact (conj Hp (conj Hpop Hok)).
Defined.

Lemma stream_fifo_pop_empty_witness :
  ∃ f', stream_fifo_pop (stream_fifo_new ∅) = Ok (None, f') ∧ f_head f' = None ∧ f_count f' = 2^64 - 1.
Proof. apply (stream_fifo_pop_empty (stream_fifo_new ∅)). by split; try constructor. Defined.

Lemma stream_fifo_clean_frees_witness :
  ∃ f', stream_fifo_clean ex_fifo = Ok (tt, f') ∧ fifo_ok f' [].
Proof.
  destruct (stream_fifo_clean_frees ex_fifo [1%positive] ex_fifo_ok) as (f' & Hc & Hok & _).
  exists f'. exact (conj Hc Hok).
Defined.
