(* ===== verification/StreamCalc.v ===== *)
(** A calculus of streams.  [writes m bs] says that the program [m] appends the octets
    [bs] to its stream, [reads m bs a] that it takes [bs] from its stream and returns
    [a]; both are proved call by call and composed. *)

From stdpp Require Import strings.
From S2P Require Import Prelude Prefix Stream.

(** A part of a message that is there on a condition. *)
Definition put_when {A} (b : bool) (m : ST stream A) : ST stream unit :=
  if b then m;; mret tt else mret tt.

(** * Writing *)

Definition writes {A} (m : ST stream A) (bs : list Z) : Prop :=
  ∀ s, stream_ok s → s_putp s ≤ s_endp s → Z.of_nat (length bs) ≤ room s →
    ∃ a, m s = Ok (a, append bs s) ∧ stream_ok (append bs s).

Lemma append_nil s : stream_ok s → s_putp s ≤ s_endp s → append [] s = s.
Proof.
  intros [] Hpe. destruct s. unfold append, splice. cbn in *.
  rewrite Nat.add_0_r, take_drop. f_equal; lia.
Qed.

Lemma writes_ret {A} (a : A) : writes (mret a) [].
Proof. intros s Hs Hpe _. exists a. by rewrite append_nil. Qed.

Lemma writes_bind {A B} (m : ST stream A) (f : A → ST stream B) b1 b2 :
  writes m b1 → (∀ a, writes (f a) b2) → writes (m ≫= f) (b1 ++ b2).
Proof.
  intros Hm Hf s Hs Hpe Hr. rewrite length_app in Hr.
  destruct (Hm s Hs Hpe) as (a & Ha & Hok); [lia|].
  destruct (Hf a (append b1 s) Hok) as (b & Hb & Hok2); [cbn; lia|unfold room in *; cbn; lia|].
  rewrite append_append in Hb, Hok2 by (done || lia).
  exists b. by erewrite st_bind_Ok by done.
Qed.

Lemma writes_putc c : is_u8 c → writes (stream_putc c) [c].
Proof.
  intros Hc s Hs _ Hr. cbn in Hr. rewrite stream_putc_spec, u8_id by done.
  rewrite (proj2 (Z.ltb_ge _ _)) by lia. eexists. split; [done|].
  apply append_ok; [done|by constructor|cbn; lia].
Qed.

Lemma be_bytes_ok16 w : bytes_ok (be16 w).
Proof. unfold be16, bytes_ok. rewrite !Forall_cons. auto 10 with zebra. Qed.
Lemma be_bytes_ok32 l : bytes_ok (be32 l).
Proof. unfold be32, bytes_ok. rewrite !Forall_cons. auto 10 with zebra. Qed.
#[export] Hint Resolve be_bytes_ok16 be_bytes_ok32 : zebra.

Lemma writes_putw w : writes (stream_putw w) (be16 w).
Proof.
  intros s Hs _ Hr. cbn in Hr. rewrite stream_putw_spec by done.
  rewrite (proj2 (Z.ltb_ge _ _)) by lia. eexists. split; [done|].
  apply append_ok; [done|auto with zebra|cbn; lia].
Qed.

Lemma writes_putl l : writes (stream_putl l) (be32 l).
Proof.
  intros s Hs _ Hr. cbn in Hr. rewrite stream_putl_spec by done.
  rewrite (proj2 (Z.ltb_ge _ _)) by lia. eexists. split; [done|].
  apply append_ok; [done|auto with zebra|cbn; lia].
Qed.

Lemma writes_put_in_addr a : bytes_ok a → length a = 4%nat → writes (stream_put_in_addr a) a.
Proof.
  intros Ha Hl s Hs _ Hr. change (stream_put_in_addr a) with (stream_put_ipv4 a).
  rewrite stream_put_ipv4_spec by done. rewrite (proj2 (Z.ltb_ge _ _)) by lia.
  eexists. split; [done|]. apply append_ok; [done|done|lia].
Qed.

Lemma writes_write src n :
  bytes_ok src → (n ≤ length src)%nat → Z.of_nat n < 2^63 →
  writes (stream_write src (Z.of_nat n)) (take n src).
Proof.
  intros Hb Hn H63 s Hs _ Hr. rewrite length_take in Hr.
  assert (0 ≤ room s) by (destruct Hs; unfold room; lia).
  assert (CHECK_SIZE s (Z.of_nat n) = Z.of_nat n) as Hm.
  { unfold CHECK_SIZE. rewrite room_u64 by done. destruct Hs. unfold room in *.
    rewrite u64_id by (unfold is_u64; lia). case_bool; lia. }
  unfold stream_write. rewrite Hm, copy_in_append by (done || lia). rewrite Nat2Z.id.
  eexists. split; [done|]. apply append_ok; [done|by apply Forall_take|rewrite length_take; lia].
Qed.

Lemma writes_when {A} (b : bool) (m : ST stream A) bs :
  (b = true → writes m bs) → writes (put_when b m) (if b then bs else []).
Proof.
  intros Hm. unfold put_when. destruct b; [|apply writes_ret].
  rewrite <- (app_nil_r bs). apply writes_bind; [by apply Hm|]. intros. apply writes_ret.
Qed.

Lemma writes_eq {A} (m : ST stream A) bs bs' : bs = bs' → writes m bs → writes m bs'.
Proof. by intros ->. Qed.

Lemma writes_lift_ret {A B} (a : A) (f : A → ST stream B) r bs :
  r = Ok a → writes (f a) bs → writes (st_lift r ≫= f) bs.
Proof.
  intros -> Hf s Hs Hpe Hr. destruct (Hf s Hs Hpe Hr) as (b & Hb & Hok).
  exists b. by erewrite st_bind_Ok by done.
Qed.

Ltac wstep c := apply (writes_bind _ _ [c]); [by apply writes_putc|]; intros _.

(** * Reading *)

Definition reads {A} (m : ST stream A) (bs : list Z) (a : A) : Prop :=
  ∀ s rest, stream_ok s → ahead s = bs ++ rest → m s = Ok (a, skip (length bs) s).

Lemma skip_0 s : skip 0 s = s.
Proof. destruct s. unfold skip, set_getp. cbn. f_equal. lia. Qed.

Lemma reads_ret {A} (a : A) : reads (mret a) [] a.
Proof. intros s rest Hs Ha. by rewrite skip_0. Qed.

Lemma reads_bind {A B} (m : ST stream A) (f : A → ST stream B) b1 b2 a b :
  reads m b1 a → reads (f a) b2 b → reads (m ≫= f) (b1 ++ b2) b.
Proof.
  intros Hm Hf s rest Hs Ha. rewrite <- app_assoc in Ha.
  rewrite (st_bind_Ok _ _ _ _ _ (Hm s _ Hs Ha)).
  rewrite (Hf _ rest (skip_ok _ _ _ Hs Ha) (ahead_skip _ _ _ Hs Ha)).
  by rewrite skip_skip, length_app.
Qed.

Lemma reads_getc c : reads stream_getc [c] c.
Proof. intros s rest Hs Ha. by apply (next_byte_ahead s c rest). Qed.

Lemma reads_getl l : is_u32 l → reads stream_getl (be32 l) l.
Proof. intros Hl s rest Hs Ha. by apply (stream_getl_ahead s l rest). Qed.

Lemma reads_get bs n : length bs = n → reads (stream_get (Z.of_nat n)) bs bs.
Proof. intros Hn s rest Hs Ha. rewrite Hn. by apply (stream_get_ahead s bs rest). Qed.

Lemma reads_get_ipv4 a : length a = 4%nat → reads stream_get_ipv4 a a.
Proof. intros Ha. change stream_get_ipv4 with (stream_get (Z.of_nat 4)). by apply reads_get. Qed.

Lemma reads_lift {A B} (a : A) (f : A → ST stream B) r bs b :
  r = Ok a → reads (f a) bs b → reads (st_lift r ≫= f) bs b.
Proof. intros -> Hf s rest Hs Ha. erewrite st_bind_Ok by done. by apply (Hf s rest). Qed.

Lemma reads_map {A B} (m : ST stream A) (f : A → B) bs a :
  reads m bs a → reads (x ← m; mret (f x)) bs (f a).
Proof.
  intros Hm. rewrite <- (app_nil_r bs). apply (reads_bind _ _ _ _ a); [done|apply reads_ret].
Qed.

Lemma reads_eq {A} (m : ST stream A) bs bs' a : bs = bs' → reads m bs a → reads m bs' a.
Proof. by intros ->. Qed.
