(* ===== verification/Pqueue.v ===== *)
(** Priority queues: binary heaps in an array that grows.

    Models lib/pqueue.c.  The array holds pointers: elements of a type [A] with a
    null pointer; [cmp] is the comparison of the queue.  Whether malloc succeeds
    is an argument of the calls that grow the array. *)

From S2P Require Import Prelude.

Section Pqueue.
Context {A : Type} {null : Inhabited A} (cmp : A → A → Z).

Record pqueue := Pqueue {
  q_array : list A;
  q_array_size : Z;
  q_size : Z;
}.

Definition PARENT_OF (x : Z) : Z := Z.quot (x - 1) 2.
Definition LEFT_OF (x : Z) : Z := 2 * x + 1.
Definition RIGHT_OF (x : Z) : Z := 2 * x + 2.
Definition HAVE_CHILD (x size : Z) : bool := x <? Z.quot size 2.

(** The loop of trickle_up and the store after it.  The index drops at every
    turn. *)
Fixpoint up_loop (fuel : nat) (index : Z) (tmp : A) (a : list A) : res (list A) :=
  if index >? 0 then
    parent ← arr_get a (PARENT_OF index);
    if cmp tmp parent <? 0 then
      match fuel with
      | O => Fail OutOfFuel
      | S fuel =>
          a ← arr_set a index parent;
          up_loop fuel (PARENT_OF index) tmp a
      end
    else arr_set a index tmp
  else arr_set a index tmp.

Definition trickle_up (index : Z) (a : list A) : res (list A) :=
  tmp ← arr_get a index;
  up_loop (Z.to_nat index) index tmp a.

(** The loop of trickle_down and the store after it.  The index grows at every
    turn and stays below [size]. *)
Fixpoint down_loop (fuel : nat) (size index : Z) (tmp : A) (a : list A) : res (list A) :=
  if HAVE_CHILD index size then
    which ←
      (if RIGHT_OF index <? size then
         l ← arr_get a (LEFT_OF index);
         r ← arr_get a (RIGHT_OF index);
         Ok (if cmp l r >? 0 then RIGHT_OF index else LEFT_OF index)
       else Ok (LEFT_OF index));
    w ← arr_get a which;
    if cmp w tmp >? 0 then arr_set a index tmp
    else
      match fuel with
      | O => Fail OutOfFuel
      | S fuel =>
          a ← arr_set a index w;
          down_loop fuel size which tmp a
      end
  else arr_set a index tmp.

Definition trickle_down (index size : Z) (a : list A) : res (list A) :=
  tmp ← arr_get a index;
  down_loop (Z.to_nat size) size index tmp a.

Definition PQUEUE_INIT_ARRAYSIZE : Z := 32.

Definition pqueue_create : pqueue :=
  Pqueue (replicate (Z.to_nat PQUEUE_INIT_ARRAYSIZE) inhabitant) PQUEUE_INIT_ARRAYSIZE 0.

(** pqueue_expand: the new array is cleared and the old one copied to its front. *)
Definition pqueue_expand (malloc_ok : bool) (q : pqueue) : bool * pqueue :=
  if malloc_ok then
    (true, Pqueue (q_array q ++ replicate (Z.to_nat (q_array_size q)) inhabitant)
             (s32 (q_array_size q * 2)) (q_size q))
  else (false, q).

Definition pqueue_enqueue (malloc_ok : bool) (data : A) (q : pqueue) : res pqueue :=
  let '(ok, q) :=
    if q_array_size q <=? s32 (q_size q + 2) then pqueue_expand malloc_ok q else (true, q) in
  if ok then
    a ← arr_set (q_array q) (q_size q) data;
    a ← trickle_up (q_size q) a;
    Ok (Pqueue a (q_array_size q) (s32 (q_size q + 1)))
  else Ok q.

Definition pqueue_dequeue (q : pqueue) : res (A * pqueue) :=
  data ← arr_get (q_array q) 0;
  let size := s32 (q_size q - 1) in
  last ← arr_get (q_array q) size;
  a ← arr_set (q_array q) 0 last;
  a ← trickle_down 0 size a;
  Ok (data, Pqueue a (q_array_size q) size).
End Pqueue.
Arguments pqueue : clear implicits.

Section Facts.
Context {A : Type} {null : Inhabited A} (cmp : A → A → Z) {Hcmp : Comparison cmp}.
Implicit Types (a b r : list A) (i j n : nat) (q : pqueue A).

Definition before (x y : A) : Prop := cmp x y ≤ 0.
Local Infix "≼" := before (at level 70).

Definition parent i : nat := ((i - 1) / 2)%nat.

Lemma before_total x y : x ≼ y ∨ y ≼ x.
Proof. unfold before. pose proof (cmp_flip y x). lia. Qed.
Lemma before_refl x : x ≼ x.
Proof. by destruct (before_total x x). Qed.
Lemma not_less x y : ¬ cmp x y < 0 → y ≼ x.
Proof. unfold before. pose proof (cmp_flip x y). lia. Qed.

Lemma PARENT_OF_nat i : (0 < i)%nat → PARENT_OF (Z.of_nat i) = Z.of_nat (parent i).
Proof.
  intros ?. unfold PARENT_OF, parent. rewrite Z.quot_div_nonneg by lia.
  rewrite Nat2Z.inj_div. f_equal. lia.
Qed.

Lemma parent_lt i : (0 < i)%nat → (parent i < i)%nat.
Proof. intros ?. unfold parent. pose proof (Nat.Div0.div_le_upper_bound (i - 1) 2 (i - 1)). lia. Qed.

Lemma parent_cases c i : (0 < c)%nat → parent c = i → (c = 2 * i + 1 ∨ c = 2 * i + 2)%nat.
Proof.
  intros ? <-. unfold parent. pose proof (Nat.div_mod_eq (c - 1) 2).
  pose proof (Nat.mod_upper_bound (c - 1) 2). lia.
Qed.

Lemma parent_child i : parent (2 * i + 1) = i ∧ parent (2 * i + 2) = i.
Proof.
  unfold parent. split; symmetry; [apply (Nat.div_unique _ 2 _ 0)|apply (Nat.div_unique _ 2 _ 1)]; lia.
Qed.

Lemma arr_get_total a i : (i < length a)%nat → arr_get a (Z.of_nat i) = Ok (a !!! i).
Proof. intros ?. by apply arr_get_in, list_lookup_lookup_total_lt. Qed.

Lemma arr_get_0 a : (0 < length a)%nat → arr_get a 0 = Ok (a !!! 0%nat).
Proof. apply (arr_get_total a 0). Qed.
Lemma arr_set_0 a x : (0 < length a)%nat → arr_set a 0 x = Ok (<[0%nat := x]> a).
Proof. apply (arr_set_in a 0). Qed.

Lemma total_insert a i j x :
  (i < length a)%nat → <[i := x]> a !!! j = if decide (j = i) then x else a !!! j.
Proof.
  intros ?. destruct (decide (j = i)) as [->|].
  - by apply list_lookup_total_insert_eq.
  - by apply list_lookup_total_insert_ne.
Qed.

(** Moving the hole from [i] to [j] and refilling it swaps two elements. *)
Lemma move_hole_perm a i j x :
  (i < length a)%nat → (j < length a)%nat → i ≠ j →
  <[j := x]> (<[i := a !!! j]> a) ≡ₚ <[i := x]> a.
Proof.
  intros Hi Hj Hne.
  assert (∀ k, (k < length a)%nat → a !! k = Some (a !!! k)) as Hk
    by (intros; by apply list_lookup_lookup_total_lt).
  apply (Permutation_cons_inv (a := a !!! i)), (Permutation_cons_inv (a := a !!! j)).
  rewrite (insert_perm a i x) by auto.
  rewrite (perm_swap (a !!! i)), (insert_perm (<[i := a !!! j]> a) j x)
    by (rewrite list_lookup_insert_ne by done; auto).
  rewrite perm_swap, (insert_perm a i (a !!! j)) by auto. apply perm_swap.
Qed.

Lemma drop_insert_same a i x n : (i < n)%nat → drop n (<[i := x]> a) = drop n a.
Proof. intros ?. by apply drop_insert_lt. Qed.

(** The heap property of the first [n] elements, at the indices in [P]. *)
Definition heap_at n (P : nat → Prop) a : Prop :=
  ∀ i, (0 < i < n)%nat → P i → a !!! parent i ≼ a !!! i.

Lemma up_loop_spec fuel n i x a :
  (i < n)%nat → (n ≤ length a)%nat → (i ≤ fuel)%nat →
  heap_at n (λ j, j ≠ i) (<[i := x]> a) →
  (∀ c, (0 < i)%nat → (0 < c < n)%nat → parent c = i → <[i := x]> a !!! parent i ≼ <[i := x]> a !!! c) →
  ∃ r, up_loop cmp fuel (Z.of_nat i) x a = Ok r ∧ r ≡ₚ <[i := x]> a ∧ drop n r = drop n a ∧
    heap_at n (λ _, True) r.
Proof.
  revert i a. induction fuel as [|fuel IH]; intros i a Hi Hn Hf Hheap Hgrand.
  { assert (i = 0)%nat as -> by lia. eexists. cbn [up_loop Z.of_nat Z.gtb Z.compare].
    split_and!; [by apply (arr_set_in a 0); lia|done|by apply drop_insert_same|].
    intros j Hj _. apply Hheap; lia. }
  cbn [up_loop]. rewrite Z.gtb_ltb. destruct (Z.ltb_spec 0 (Z.of_nat i)) as [H0|H0].
  2:{ assert (i = 0)%nat as -> by lia. eexists.
      split_and!; [by apply (arr_set_in a 0); lia|done|by apply drop_insert_same|].
      intros j Hj _. apply Hheap; lia. }
  pose proof (parent_lt i ltac:(lia)) as Hp.
  rewrite PARENT_OF_nat, arr_get_total by lia. cbn [mbind res_bind].
  destruct (Z.ltb_spec (cmp x (a !!! parent i)) 0) as [Hlt|Hge].
  2:{ eexists. split_and!; [by apply arr_set_in; lia|done|by apply drop_insert_same|].
      intros j Hj _. destruct (decide (j = i)) as [->|]; [|by apply Hheap].
      rewrite !total_insert by lia.
      rewrite (decide_False (P := parent i = i)), (decide_True (P := i = i)) by lia.
      apply not_less. lia. }
  rewrite arr_set_in by lia. cbn [mbind res_bind].
  set (a' := <[i := a !!! parent i]> a).
  assert (∀ j, <[parent i := x]> a' !!! j =
    if decide (j = parent i) then x else if decide (j = i) then a !!! parent i else a !!! j) as Hl.
  { intros j. unfold a'. rewrite total_insert by (rewrite length_insert; lia).
    destruct (decide _); [done|]. by rewrite total_insert by lia. }
  assert (∀ j, <[i := x]> a !!! j = if decide (j = i) then x else a !!! j) as Hb
    by (intros; by apply total_insert; lia).
  destruct (IH (parent i) a') as (r & Hr & Hperm & Hdrop & Hall);
    [lia|unfold a'; rewrite length_insert; lia|lia| | |].
  - intros j Hj Hne. rewrite !Hl. specialize (Hheap j Hj). specialize (Hgrand j ltac:(lia) Hj).
    rewrite !Hb in Hheap, Hgrand. pose proof (parent_lt j ltac:(lia)).
    repeat (destruct (decide _)); subst; try lia; try done; try (by auto).
    + unfold before. lia.
    + unfold before in *. eapply (cmp_trans _ (a !!! parent i)); [lia|]. rewrite <-e. auto.
  - intros c H0' Hc Hpc. rewrite !Hl. pose proof (parent_lt (parent i) ltac:(lia)).
    pose proof (Hheap (parent i) ltac:(lia) ltac:(cbn; lia)) as Hgp. rewrite !Hb in Hgp.
    rewrite (decide_False (P := parent (parent i) = parent i)) by lia.
    rewrite (decide_False (P := parent (parent i) = i)) in * by lia.
    rewrite (decide_False (P := parent i = i)) in Hgp by lia.
    rewrite (decide_False (P := c = parent i)) by (pose proof (parent_lt c); lia).
    destruct (decide (c = i)) as [->|Hne]; [done|].
    specialize (Hheap c Hc Hne). rewrite !Hb, Hpc in Hheap.
    rewrite (decide_False (P := parent i = i)), (decide_False (P := c = i)) in Hheap by lia.
    by eapply cmp_trans.
  - exists r. split_and!; [done|rewrite Hperm; apply move_hole_perm; lia| |done].
    rewrite Hdrop. unfold a'. apply drop_insert_same. lia.
Qed.

Lemma LEFT_OF_nat i : LEFT_OF (Z.of_nat i) = Z.of_nat (2 * i + 1).
Proof. unfold LEFT_OF. lia. Qed.
Lemma RIGHT_OF_nat i : RIGHT_OF (Z.of_nat i) = Z.of_nat (2 * i + 2).
Proof. unfold RIGHT_OF. lia. Qed.
Lemma HAVE_CHILD_nat i n : HAVE_CHILD (Z.of_nat i) (Z.of_nat n) = true ↔ (2 * i + 1 < n)%nat.
Proof.
  unfold HAVE_CHILD. rewrite Z.quot_div_nonneg by lia. rewrite Z.ltb_lt. dm_lia.
Qed.

(** The child trickle_down picks: the smaller one. *)
Lemma which_spec n i a :
  (n ≤ length a)%nat → (2 * i + 1 < n)%nat →
  ∃ w, (if RIGHT_OF (Z.of_nat i) <? Z.of_nat n then
          l ← arr_get a (LEFT_OF (Z.of_nat i));
          r ← arr_get a (RIGHT_OF (Z.of_nat i));
          Ok (if cmp l r >? 0 then RIGHT_OF (Z.of_nat i) else LEFT_OF (Z.of_nat i))
        else Ok (LEFT_OF (Z.of_nat i))) = Ok (Z.of_nat w) ∧
    (w < n)%nat ∧ (i < w)%nat ∧ parent w = i ∧
    (∀ c, (0 < c < n)%nat → parent c = i → a !!! w ≼ a !!! c).
Proof.
  intros Hn Hi. rewrite LEFT_OF_nat, RIGHT_OF_nat. destruct (parent_child i) as [HL HR].
  destruct (Z.ltb_spec (Z.of_nat (2 * i + 2)) (Z.of_nat n)).
  - rewrite !arr_get_total by lia. cbn [mbind res_bind]. rewrite Z.gtb_ltb.
    destruct (Z.ltb_spec 0 (cmp (a !!! (2 * i + 1)%nat) (a !!! (2 * i + 2)%nat))) as [H0|H0].
    + exists (2 * i + 2)%nat. split_and!; [done|lia..|done|].
      intros c Hc [->| ->]%parent_cases; [|apply before_refl|lia].
      unfold before. apply cmp_flip in H0. lia.
    + exists (2 * i + 1)%nat. split_and!; [done|lia..|done|].
      intros c Hc [->| ->]%parent_cases; [apply before_refl|done|lia].
  - exists (2 * i + 1)%nat. split_and!; [done|lia..|done|].
    intros c Hc [->| ->]%parent_cases; [apply before_refl|lia|lia].
Qed.

Lemma down_loop_spec fuel n i x a :
  (i < n)%nat → (n ≤ length a)%nat → (n ≤ i + fuel)%nat →
  heap_at n (λ j, parent j ≠ i) (<[i := x]> a) →
  (∀ c, (0 < i)%nat → (0 < c < n)%nat → parent c = i → <[i := x]> a !!! parent i ≼ <[i := x]> a !!! c) →
  ∃ r, down_loop cmp fuel (Z.of_nat n) (Z.of_nat i) x a = Ok r ∧ r ≡ₚ <[i := x]> a ∧
    drop n r = drop n a ∧ heap_at n (λ _, True) r.
Proof.
  revert i a. induction fuel as [|fuel IH]; intros i a Hi Hn Hf Hheap Hgrand; [lia|].
  assert (∀ j, <[i := x]> a !!! j = if decide (j = i) then x else a !!! j) as Hb
    by (intros; by apply total_insert; lia).
  cbn [down_loop]. destruct (HAVE_CHILD (Z.of_nat i) (Z.of_nat n)) eqn:Hch.
  2:{ eexists. split_and!; [by apply arr_set_in; lia|done|by apply drop_insert_same|].
      intros j Hj _. apply Hheap; [done|]. intros Hpj. apply not_true_iff_false in Hch.
      rewrite HAVE_CHILD_nat in Hch. apply parent_cases in Hpj; lia. }
  apply HAVE_CHILD_nat in Hch.
  destruct (which_spec n i a) as (w & Hw & Hwn & Hiw & Hpw & Hmin); [done..|].
  rewrite Hw. cbn [mbind res_bind]. rewrite arr_get_total by lia. cbn [mbind res_bind].
  rewrite Z.gtb_ltb. destruct (Z.ltb_spec 0 (cmp (a !!! w) x)) as [Hgt|Hle].
  { eexists. split_and!; [by apply arr_set_in; lia|done|by apply drop_insert_same|].
    intros j Hj _. destruct (decide (parent j = i)) as [Hpj|]; [|by apply Hheap].
    rewrite !Hb, Hpj. pose proof (parent_lt j ltac:(lia)).
    rewrite (decide_True (P := i = i)), (decide_False (P := j = i)) by lia.
    apply cmp_flip in Hgt. unfold before in *. eapply cmp_trans; [|by apply Hmin]. lia. }
  rewrite arr_set_in by lia. cbn [mbind res_bind].
  set (a' := <[i := a !!! w]> a).
  assert (∀ j, <[w := x]> a' !!! j =
    if decide (j = w) then x else if decide (j = i) then a !!! w else a !!! j) as Hl.
  { intros j. unfold a'. rewrite total_insert by (rewrite length_insert; lia).
    destruct (decide _); [done|]. by rewrite total_insert by lia. }
  destruct (IH w a') as (r & Hr & Hperm & Hdrop & Hall);
    [lia|unfold a'; rewrite length_insert; lia|lia| | |].
  - intros j Hj Hne. rewrite !Hl. pose proof (parent_lt j ltac:(lia)).
    rewrite (decide_False (P := parent j = w)) by done.
    destruct (decide (parent j = i)) as [Hpj|Hpj].
    + destruct (decide (j = w)) as [->|]; [done|].
      rewrite (decide_False (P := j = i)) by lia. by apply Hmin.
    + rewrite (decide_False (P := j = w)) by congruence.
      specialize (Hheap j Hj Hpj). rewrite !Hb in Hheap.
      rewrite (decide_False (P := parent j = i)) in Hheap by done.
      destruct (decide (j = i)) as [->|]; [|done].
      specialize (Hgrand w ltac:(lia) ltac:(lia) Hpw). rewrite !Hb in Hgrand.
      by rewrite (decide_False (P := parent i = i)), (decide_False (P := w = i)) in Hgrand by lia.
  - intros c H0 Hc Hpc. rewrite !Hl, Hpw. pose proof (parent_lt c ltac:(lia)).
    rewrite (decide_False (P := i = w)), (decide_True (P := i = i)) by lia.
    rewrite (decide_False (P := c = w)), (decide_False (P := c = i)) by lia.
    specialize (Hheap c Hc ltac:(cbn; lia)). rewrite !Hb, Hpc in Hheap.
    by rewrite (decide_False (P := w = i)), (decide_False (P := c = i)) in Hheap by lia.
  - exists r. split_and!; [done|rewrite Hperm; apply move_hole_perm; lia| |done].
    rewrite Hdrop. unfold a'. apply drop_insert_same. lia.
Qed.

(** ** The queue *)

Definition elems q : list A := take (Z.to_nat (q_size q)) (q_array q).

Record pq_ok q : Prop := PqOk {
  pq_len : Z.of_nat (length (q_array q)) = q_array_size q;
  pq_size : 0 ≤ q_size q < q_array_size q;
  pq_max : q_array_size q < 2^31;
  pq_heap : heap_at (Z.to_nat (q_size q)) (λ _, True) (q_array q);
}.

Lemma root_first n a i : heap_at n (λ _, True) a → (i < n)%nat → a !!! 0%nat ≼ a !!! i.
Proof.
  intros Hh. induction (lt_wf i) as [i _ IH]. intros Hi.
  destruct (decide (i = 0)%nat) as [->|H0]; [apply before_refl|].
  pose proof (parent_lt i ltac:(lia)).
  unfold before in *. eapply cmp_trans; [apply (IH (parent i)); lia|]. apply Hh; [lia|done].
Qed.

(** A permutation of the array that leaves the rest alone permutes the front. *)
Lemma perm_take n a b : a ≡ₚ b → drop n a = drop n b → take n a ≡ₚ take n b.
Proof.
  intros Hp Hd. rewrite <-(take_drop n a), <-(take_drop n b), Hd in Hp.
  by apply Permutation_app_inv_r in Hp.
Qed.

Lemma take_total n a : (S n ≤ length a)%nat → take (S n) a = take n a ++ [a !!! n].
Proof. intros ?. apply take_S_r. apply list_lookup_lookup_total_lt. lia. Qed.

Lemma enqueue_ready q d :
  pq_ok q → q_size q + 1 < q_array_size q →
  ∃ a, (a ← arr_set (q_array q) (q_size q) d; trickle_up cmp (q_size q) a) = Ok a ∧
    length a = length (q_array q) ∧ heap_at (Z.to_nat (q_size q + 1)) (λ _, True) a ∧
    take (Z.to_nat (q_size q + 1)) a ≡ₚ d :: elems q.
Proof.
  intros [Hl Hs Hm Hh] Hr. set (n := Z.to_nat (q_size q)). set (b := <[n := d]> (q_array q)).
  assert (q_size q = Z.of_nat n) as Hn by lia. rewrite Hn, arr_set_in by lia.
  cbn [mbind res_bind]. unfold trickle_up. fold b.
  assert (length b = length (q_array q)) as Hlb by apply length_insert.
  assert (b !! n = Some d) as Hbn by (apply list_lookup_insert_eq; lia).
  rewrite (arr_get_in b n d) by done. cbn [mbind res_bind]. rewrite Nat2Z.id.
  assert (<[n := d]> b = b) as Hself by (by apply list_insert_id).
  assert (∀ j, (j < n)%nat → b !!! j = q_array q !!! j) as Hlow.
  { intros j Hj. unfold b. rewrite total_insert, decide_False by lia. done. }
  destruct (up_loop_spec n (S n) n d b) as (r & Hrun & Hp & Hd & Hall);
    [lia..| | |]; rewrite ?Hself in *.
  - intros j Hj Hne. pose proof (parent_lt j ltac:(lia)). rewrite !Hlow by lia. apply Hh; lia.
  - intros c _ Hc Hpc. pose proof (parent_lt c ltac:(lia)). lia.
  - exists r. replace (Z.to_nat (Z.of_nat n + 1)) with (S n) by lia. split_and!; [done| |done|].
    { by rewrite (Permutation_length Hp). }
    rewrite (perm_take (S n) r b) by done. rewrite take_total by lia.
    rewrite (list_lookup_total_correct _ _ _ Hbn). unfold b, elems. fold n.
    rewrite take_insert_ge by lia. by rewrite Permutation_app_comm.
Qed.
End Facts.

(** pqueue_enqueue adds the element and nothing else: it terminates without a
    fault, keeps the heap, grows the array when it is nearly full, and leaves the
    queue as it was when the array cannot grow. *)
Theorem pqueue_enqueue_adds {A} `{Inhabited A} (cmp : A → A → Z) `{!Comparison cmp} ok d q :
  pq_ok cmp q → q_array_size q < 2^30 →
  ∃ q', pqueue_enqueue cmp ok d q = Ok q' ∧ pq_ok cmp q' ∧
    if decide (ok = false ∧ q_array_size q ≤ q_size q + 2)
    then q' = q
    else elems q' ≡ₚ d :: elems q ∧ q_size q' = q_size q + 1.
Proof.
  intros Hok Hmax. pose proof Hok as [Hl Hs Hm Hh]. unfold pqueue_enqueue.
  rewrite s32_id by (unfold is_s32; lia).
  assert (∀ p, pq_ok cmp p → q_size p + 1 < q_array_size p →
    ∃ p', (a ← arr_set (q_array p) (q_size p) d; a ← trickle_up cmp (q_size p) a;
           Ok (Pqueue a (q_array_size p) (s32 (q_size p + 1)))) = Ok p' ∧ pq_ok cmp p' ∧
      elems p' ≡ₚ d :: elems p ∧ q_size p' = q_size p + 1) as Hins.
  { intros p Hp Hroom. destruct (enqueue_ready cmp p d Hp Hroom) as (a & Ha & Hla & Hha & Hpa).
    apply res_bind_Ok in Ha as (b & Hb & Ht). rewrite Hb. cbn [mbind res_bind]. rewrite Ht.
    destruct Hp. rewrite s32_id by (unfold is_s32; lia).
    eexists. split_and!; [done| |done|done]. split; cbn; (done || lia). }
  destruct (Z.leb_spec (q_array_size q) (q_size q + 2)) as [Hfull|Hroom].
  - destruct (decide _) as [[-> _]|Hex]; [by exists q|].
    destruct ok; [|naive_solver]. cbn [pqueue_expand].
    destruct (Hins (Pqueue (q_array q ++ replicate (Z.to_nat (q_array_size q)) inhabitant)
      (s32 (q_array_size q * 2)) (q_size q))) as (q' & Hq & Hok' & Hel & Hsz).
    + rewrite s32_id by (unfold is_s32; lia). split; cbn; try lia.
      * rewrite length_app, length_replicate. lia.
      * intros i Hi _. pose proof (parent_lt i ltac:(lia)).
        rewrite !lookup_total_app_l by lia. by apply Hh.
    + cbn. rewrite s32_id by (unfold is_s32; lia). lia.
    + exists q'. split_and!; [exact Hq|done| |done]. rewrite Hel. unfold elems. cbn.
      by rewrite take_app_le by lia.
  - destruct (decide _) as [[_ ?]|_]; [lia|]. apply Hins; [done|lia].
Qed.

(** pqueue_dequeue returns an element that no other comes before, removes
    exactly that element, and keeps the heap. *)
Theorem pqueue_dequeue_first {A} `{Inhabited A} (cmp : A → A → Z) `{!Comparison cmp} q :
  pq_ok cmp q → 0 < q_size q →
  ∃ d q', pqueue_dequeue cmp q = Ok (d, q') ∧ pq_ok cmp q' ∧ q_size q' = q_size q - 1 ∧
    elems q ≡ₚ d :: elems q' ∧ Forall (λ x, cmp d x ≤ 0) (elems q).
Proof.
  intros [Hl Hs Hm Hh] H0. unfold pqueue_dequeue. rewrite s32_id by (unfold is_s32; lia).
  set (a := q_array q) in *. set (n := Z.to_nat (q_size q - 1)).
  assert (q_size q - 1 = Z.of_nat n) as Hn by lia. rewrite Hn.
  assert (Z.to_nat (q_size q) = S n) as HSn by lia. rewrite HSn in Hh.
  rewrite arr_get_0, arr_get_total by lia. cbn [mbind res_bind].
  rewrite arr_set_0 by lia. cbn [mbind res_bind]. unfold trickle_down.
  set (b := <[0%nat := a !!! n]> a). assert (length b = length a) as Hlb by apply length_insert.
  assert (b !!! 0%nat = a !!! n) as Hb0 by (unfold b; rewrite total_insert by lia; done).
  rewrite arr_get_0 by lia. cbn [mbind res_bind]. rewrite Hb0, Nat2Z.id.
  assert (<[0%nat := a !!! n]> b = b) as Hself by (unfold b; by rewrite list_insert_insert_eq).
  assert (∃ r, down_loop cmp n (Z.of_nat n) 0 (a !!! n) b = Ok r ∧ r ≡ₚ b ∧ drop n r = drop n b ∧
    heap_at cmp n (λ _, True) r) as (r & Hrun & Hp & Hd & Hall).
  { destruct (decide (n = 0)%nat) as [->|Hn0].
    - exists b. split_and!; [|done|done|intros i Hi; lia]. cbn.
      rewrite arr_set_0 by lia. by rewrite Hself.
    - destruct (down_loop_spec cmp n n 0 (a !!! n) b) as (r & Hr); [lia..| |lia|];
        rewrite ?Hself in *; [|by exists r].
      intros j Hj Hpj. unfold b. rewrite !total_insert by lia.
      rewrite !decide_False by (done || lia). apply Hh; [lia|done]. }
  rewrite Hrun. cbn [mbind res_bind]. eexists _, _. split; [done|].
  pose proof (Permutation_length Hp) as Hlr. split_and!.
  - split; cbn; [lia|lia|lia|by rewrite Nat2Z.id].
  - cbn. lia.
  - unfold elems. cbn. rewrite Nat2Z.id, (perm_take n r b) by done. fold a. rewrite HSn.
    rewrite take_total by lia. unfold b. destruct n as [|n'].
    + done.
    + destruct a as [|a0 a']; [cbn in Hl; lia|]. cbn [take app insert list_insert].
      change ((a0 :: a') !!! 0%nat) with a0. apply perm_skip. symmetry.
      change ((a0 :: a') !!! S n') with (a' !!! n'). by rewrite Permutation_cons_append.
  - unfold elems. fold a. rewrite HSn. apply Forall_forall. intros x Hx.
    apply list_elem_of_lookup in Hx as [i Hi]. apply lookup_take_Some in Hi as [Hi Hlt].
    apply list_lookup_total_correct in Hi as <-. by apply (root_first cmp (S n)).
Qed.

(** pqueue_dequeue on an empty queue reads the array at index -1. *)
Theorem pqueue_dequeue_empty {A} `{Inhabited A} (cmp : A → A → Z) q :
  pq_ok cmp q → q_size q = 0 → pqueue_dequeue cmp q = Fail OutOfBounds.
Proof.
  intros [Hl Hs _ _] H0. unfold pqueue_dequeue. rewrite arr_get_0 by lia.
  rewrite H0. done.
Qed.

(** * Examples *)

Definition ex_queue : pqueue Z :=
  match pqueue_enqueue Z.sub true 5 pqueue_create with Ok q => q | Fail _ => pqueue_create end.

Lemma pqueue_create_ok : pq_ok Z.sub pqueue_create.
Proof. split; cbn; try done. intros i Hi. lia. Qed.

Lemma pqueue_enqueue_adds_witness :
  ∃ q', pqueue_enqueue Z.sub true 5 pqueue_create = Ok q' ∧ pq_ok Z.sub q'.
Proof.
  destruct (pqueue_enqueue_adds Z.sub true 5 pqueue_create pqueue_create_ok ltac:(by vm_compute))
    as (q' & Hq & Hok & _).
  exists q'. exact (conj Hq Hok).
Defined.

Lemma ex_queue_ok : pq_ok Z.sub ex_queue.
Proof. split; [done..|]. intros i Hi. vm_compute in Hi. lia. Qed.

Lemma pqueue_dequeue_first_witness : ∃ d q', pqueue_dequeue Z.sub ex_queue = Ok (d, q') ∧ pq_ok Z.sub q'.
Proof.
  destruct (pqueue_dequeue_first Z.sub ex_queue ex_queue_ok ltac:(by vm_compute))
    as (d & q' & Hq & Hok & _).
  exists d, q'. exact (conj Hq Hok).
Defined.

Lemma pqueue_dequeue_empty_witness : pqueue_dequeue Z.sub pqueue_create = Fail OutOfBounds.
Proof. exact (pqueue_dequeue_empty Z.sub pqueue_create pqueue_create_ok eq_refl). Defined.
