(* ===== verification/Dlist.v ===== *)
(** Doubly linked lists.

    The lists of the program (lib/linklist.c, the entries of prefix lists and
    access lists, ...) have the same shape: nodes with [next] and [prev]
    pointers, a head, a tail and a count.  This file gives the heap they live
    on, the pointer statements the functions are made of, and the facts that
    relate a heap to the sequence it stands for. *)

From S2P Require Import Prelude.

Record dnode (A : Type) := Dnode {
  d_data : A;
  d_next : option positive;
  d_prev : option positive;
}.
Arguments Dnode {A}.
Arguments d_data {A}.
Arguments d_next {A}.
Arguments d_prev {A}.

Record dlist (A : Type) := Dlist {
  d_head : option positive;
  d_tail : option positive;
  d_count : Z;
  d_nodes : gmap positive (dnode A);
}.
Arguments Dlist {A}.
Arguments d_head {A}.
Arguments d_tail {A}.
Arguments d_count {A}.
Arguments d_nodes {A}.

Section Dlist.
Context {A : Type}.
Implicit Types (l : dlist A) (n : dnode A) (h : gmap positive (dnode A)).

Definition with_next (v : option positive) n : dnode A := Dnode (d_data n) v (d_prev n).
Definition with_prev (v : option positive) n : dnode A := Dnode (d_data n) (d_next n) v.
Definition with_data (x : A) n : dnode A := Dnode x (d_next n) (d_prev n).

Definition dl_empty : dlist A := Dlist None None 0 ∅.

(** ** Statements *)

Definition dl_read (p : positive) : ST (dlist A) (dnode A) := λ l,
  match d_nodes l !! p with Some n => Ok (n, l) | None => Fail UseAfterFree end.

Definition dl_write (p : positive) (f : dnode A → dnode A) : ST (dlist A) unit := λ l,
  match d_nodes l !! p with
  | Some n => Ok (tt, Dlist (d_head l) (d_tail l) (d_count l) (<[p := f n]> (d_nodes l)))
  | None => Fail UseAfterFree
  end.

Definition dl_set_head (v : option positive) : ST (dlist A) unit := λ l,
  Ok (tt, Dlist v (d_tail l) (d_count l) (d_nodes l)).
Definition dl_set_tail (v : option positive) : ST (dlist A) unit := λ l,
  Ok (tt, Dlist (d_head l) v (d_count l) (d_nodes l)).
Definition dl_set_count (v : Z) : ST (dlist A) unit := λ l,
  Ok (tt, Dlist (d_head l) (d_tail l) v (d_nodes l)).

(** A fresh node with null pointers. *)
Definition dl_alloc (x : A) : ST (dlist A) positive := λ l,
  let p := fresh (dom (d_nodes l)) in
  Ok (p, Dlist (d_head l) (d_tail l) (d_count l) (<[p := Dnode x None None]> (d_nodes l))).

Definition dl_free (p : positive) : ST (dlist A) unit := λ l,
  match d_nodes l !! p with
  | Some _ => Ok (tt, Dlist (d_head l) (d_tail l) (d_count l) (delete p (d_nodes l)))
  | None => Fail UseAfterFree
  end.

(** [if (pv) pv->next = v; else list->head = v;] *)
Definition dl_link_next (pv v : option positive) : ST (dlist A) unit :=
  match pv with Some q => dl_write q (with_next v) | None => dl_set_head v end.

(** [if (nx) nx->prev = v; else list->tail = v;] *)
Definition dl_link_prev (nx v : option positive) : ST (dlist A) unit :=
  match nx with Some q => dl_write q (with_prev v) | None => dl_set_tail v end.

(** A new node goes before [point]: the four cases of prefix_list_insert and
    access_list_insert (the first node, the tail, the head, the middle). *)
Definition dl_link_at (p : positive) (point : option positive) : ST (dlist A) unit :=
  l ← st_get;
  match d_head l with
  | None => dl_set_head (Some p);; dl_set_tail (Some p)
  | Some head =>
      match point with
      | None =>
          dl_write p (with_prev (d_tail l));;
          match d_tail l with
          | Some tail => dl_write tail (with_next (Some p))
          | None => st_fail NullDeref
          end;;
          dl_set_tail (Some p)
      | Some pt =>
          if bool_decide (pt = head) then
            dl_write p (with_next (Some head));;
            dl_write head (with_prev (Some p));;
            dl_set_head (Some p)
          else
            dl_write p (with_next (Some pt));;
            n ← dl_read pt;
            dl_write p (with_prev (d_prev n));;
            match d_prev n with
            | Some q => dl_write q (with_next (Some p))
            | None => mret tt
            end;;
            dl_write pt (with_prev (Some p))
      end
  end.

(** ** The sequence a list stands for *)

Definition headp (ns : list (positive * A)) : option positive := fst <$> head ns.
Definition lastp (ns : list (positive * A)) : option positive := fst <$> last ns.

(** The nodes [ns], between the nodes [pv] and [nx]. *)
Fixpoint dseg h (pv : option positive) (ns : list (positive * A)) (nx : option positive) : Prop :=
  match ns with
  | [] => True
  | (p, x) :: rest =>
      h !! p = Some (Dnode x (from_option Some nx (headp rest)) pv) ∧ dseg h (Some p) rest nx
  end.

Record dl_rep l (ns : list (positive * A)) : Prop := DlRep {
  dl_head : d_head l = headp ns;
  dl_tail : d_tail l = lastp ns;
  dl_seg : dseg (d_nodes l) None ns None;
  dl_nodup : NoDup ns.*1;
  dl_dom : ∀ p, is_Some (d_nodes l !! p) → p ∈ ns.*1;
}.

Lemma headp_app ns ms : headp (ns ++ ms) = from_option Some (headp ms) (headp ns).
Proof. by destruct ns as [|[]]. Qed.
Lemma lastp_snoc ns p x : lastp (ns ++ [(p, x)]) = Some p.
Proof. unfold lastp. by rewrite last_snoc. Qed.
Lemma lastp_app_cons ns p x ms : lastp (ns ++ (p, x) :: ms) = lastp ((p, x) :: ms).
Proof. unfold lastp. by rewrite last_app_cons. Qed.
Lemma lastp_cons p x ns : lastp ((p, x) :: ns) = from_option Some (Some p) (lastp ns).
Proof.
  unfold lastp. destruct ns as [|y ns]; [done|]. rewrite last_cons_cons.
  destruct (last (y :: ns)) eqn:E; [done|]. by apply last_None in E.
Qed.
Lemma headp_elem ns p : headp ns = Some p → p ∈ ns.*1.
Proof. destruct ns as [|[]]; cbn; [done|]. intros [= ->]. left. Qed.
Lemma lastp_elem ns p : lastp ns = Some p → p ∈ ns.*1.
Proof.
  unfold lastp. rewrite fmap_Some. intros ([q x] & Hl & ->).
  apply last_Some in Hl as [l' ->]. rewrite fmap_app. set_solver.
Qed.

Lemma dseg_app h pv ns ms nx :
  dseg h pv (ns ++ ms) nx ↔
  dseg h pv ns (from_option Some nx (headp ms)) ∧ dseg h (from_option Some pv (lastp ns)) ms nx.
Proof.
  revert pv. induction ns as [|[p x] ns IH]; intros pv; [by cbn; naive_solver|].
  cbn [app dseg]. rewrite IH, lastp_cons, headp_app.
  destruct (headp ns), (lastp ns); cbn; naive_solver.
Qed.

Lemma dseg_lookup h pv ns nx p : dseg h pv ns nx → p ∈ ns.*1 → is_Some (h !! p).
Proof.
  revert pv. induction ns as [|[q x] ns IH]; intros pv; cbn; [by intros _ ?%not_elem_of_nil|].
  intros [Hq Hs] [->|Hp]%elem_of_cons; eauto.
Qed.

Lemma dseg_ext h h' pv ns nx :
  (∀ q, q ∈ ns.*1 → h' !! q = h !! q) → dseg h pv ns nx → dseg h' pv ns nx.
Proof.
  revert pv. induction ns as [|[p x] ns IH]; intros pv Hh; [done|]. cbn. intros [Hp Hs]. split.
  - rewrite Hh by left. done.
  - apply IH; [|done]. intros q Hq. apply Hh. by right.
Qed.

(** Redirecting the pointer that leaves a segment on the right, or on the left. *)
Lemma dseg_right h h' pv ns nx v :
  dseg h pv ns nx → NoDup ns.*1 →
  (∀ q n, q ∈ ns.*1 → h !! q = Some n →
     h' !! q = Some (if decide (lastp ns = Some q) then with_next v n else n)) →
  dseg h' pv ns v.
Proof.
  revert pv. induction ns as [|[p x] ns IH]; intros pv Hs Hnd Hh; [done|].
  cbn in Hs, Hnd. destruct Hs as [Hp Hs]. apply NoDup_cons in Hnd as [Hpn Hnd]. split.
  - rewrite (Hh p _ ltac:(left) Hp), lastp_cons. destruct (lastp ns) as [q|] eqn:El; cbn.
    + rewrite decide_False by (intros [= ->]; by apply lastp_elem in El).
      destruct ns as [|[] ns]; [done|]. done.
    + destruct ns as [|y ns]; [by rewrite decide_True|]. unfold lastp in El.
      apply fmap_None, last_None in El. done.
  - eapply IH; [done..|]. intros q n Hq Hn.
    rewrite (Hh q n ltac:(by right) Hn), lastp_cons.
    destruct (lastp ns) eqn:El; cbn; [done|].
    destruct ns as [|y ns]; [by apply not_elem_of_nil in Hq|]. unfold lastp in El.
    apply fmap_None, last_None in El. done.
Qed.

Lemma dseg_left h h' pv ns nx v :
  dseg h pv ns nx → NoDup ns.*1 →
  (∀ q n, q ∈ ns.*1 → h !! q = Some n →
     h' !! q = Some (if decide (headp ns = Some q) then with_prev v n else n)) →
  dseg h' v ns nx.
Proof.
  destruct ns as [|[p x] ns]; [done|]. cbn. intros [Hp Hs] [Hpn Hnd]%NoDup_cons Hh. split.
  - rewrite (Hh p _ ltac:(left) Hp). by rewrite decide_True.
  - eapply dseg_ext; [|done]. intros q Hq. destruct (dseg_lookup _ _ _ _ _ Hs Hq) as [n Hn].
    rewrite Hn, (Hh q n ltac:(by right) Hn). rewrite decide_False; [done|]. intros [= ->]. done.
Qed.

(** ** Insertion and removal *)

(** The change [f], at the node [o] only. *)
Definition if_at (o : option positive) (q : positive) (f : dnode A → dnode A) : dnode A → dnode A :=
  if decide (o = Some q) then f else id.

Lemma if_at_eq q f : if_at (Some q) q f = f.
Proof. unfold if_at. by rewrite decide_True. Qed.
Lemma if_at_ne o q f : o ≠ Some q → if_at o q f = id.
Proof. intros ?. unfold if_at. by rewrite decide_False. Qed.

Lemma insert_if_at h a n q f :
  h !! a = Some n → <[a := f n]> h !! q = if_at (Some a) q f <$> h !! q.
Proof.
  intros Hn. destruct (decide (a = q)) as [->|Hne].
  - by rewrite lookup_insert_eq, if_at_eq, Hn.
  - rewrite lookup_insert_ne, if_at_ne by congruence. by destruct (h !! q).
Qed.

(** The list [l'] is [l] with a new node [p] between [pv] and [nx]. *)
Definition inserted l l' (p : positive) (x : A) (pv nx : option positive) : Prop :=
  d_head l' = (if pv is Some _ then d_head l else Some p) ∧
  d_tail l' = (if nx is Some _ then d_tail l else Some p) ∧
  ∀ q, d_nodes l' !! q =
    if decide (q = p) then Some (Dnode x nx pv)
    else (λ n, if_at pv q (with_next (Some p)) (if_at nx q (with_prev (Some p)) n)) <$> d_nodes l !! q.

(** The list [l'] is [l] without the node [p] between [pv] and [nx]. *)
Definition removed l l' (p : positive) (pv nx : option positive) : Prop :=
  d_head l' = (if pv is Some _ then d_head l else nx) ∧
  d_tail l' = (if nx is Some _ then d_tail l else pv) ∧
  ∀ q, d_nodes l' !! q =
    if decide (q = p) then None
    else (λ n, if_at pv q (with_next nx) (if_at nx q (with_prev pv) n)) <$> d_nodes l !! q.

Lemma from_option_None (o : option positive) : from_option Some None o = o.
Proof. by destruct o. Qed.

(** The shape of a list in a heap that may have other nodes too. *)
Record dl_shape l (ns : list (positive * A)) : Prop := DlShape {
  sh_head : d_head l = headp ns;
  sh_tail : d_tail l = lastp ns;
  sh_seg : dseg (d_nodes l) None ns None;
  sh_nodup : NoDup ns.*1;
}.

Lemma rep_shape l ns : dl_rep l ns → dl_shape l ns.
Proof. by intros []. Qed.

Lemma shape_inserted l l' ns ms p x :
  dl_shape l (ns ++ ms) → p ∉ (ns ++ ms).*1 →
  inserted l l' p x (lastp ns) (headp ms) →
  dl_shape l' (ns ++ (p, x) :: ms).
Proof.
  intros [Hh Ht Hs Hnd] Hp (Hh' & Ht' & Hn').
  apply dseg_app in Hs as [Hs1 Hs2]. rewrite !from_option_None in Hs1, Hs2.
  assert (∀ q, q ∈ ns.*1 ∨ q ∈ ms.*1 → q ≠ p) as Hpq by (rewrite fmap_app in Hp; set_solver).
  rewrite fmap_app in Hnd. apply NoDup_app in Hnd as (Hnd1 & Hdisj & Hnd2). split.
  - rewrite Hh', Hh, headp_app. destruct ns as [|[] ns]; [done|]. rewrite lastp_cons.
    by destruct (lastp ns).
  - rewrite Ht', Ht. rewrite lastp_app_cons, lastp_cons.
    destruct ms as [|[m y] ms]; [done|]. rewrite lastp_app_cons. cbn [headp head fmap option_fmap option_map fst].
    rewrite lastp_cons. by destruct (lastp ms).
  - apply dseg_app. cbn [headp head fmap option_fmap option_map fst from_option]. split.
    + eapply dseg_right; [done..|]. intros q n Hq Hn. rewrite Hn'.
      rewrite decide_False by auto. rewrite Hn. cbn.
      rewrite (if_at_ne (headp ms)); [|intros ?%headp_elem; by eapply Hdisj].
      unfold if_at. by destruct (decide _).
    + cbn [dseg]. rewrite !from_option_None. split; [by rewrite Hn', decide_True|].
      eapply dseg_left; [done..|]. intros q n Hq Hn. rewrite Hn'.
      rewrite decide_False by auto. rewrite Hn. cbn.
      rewrite (if_at_ne (lastp ns)); [|intros ?%lastp_elem; by eapply Hdisj].
      unfold if_at. by destruct (decide _).
  - rewrite fmap_app. cbn. apply NoDup_app. split_and!; [done| |].
    + intros q Hq [->|?]%elem_of_cons; [by eapply Hpq; eauto|]. by eapply Hdisj.
    + apply NoDup_cons. split; [|done]. intros Hq. by eapply Hpq; eauto.
Qed.

Lemma rep_inserted l l' ns ms p x :
  dl_rep l (ns ++ ms) → d_nodes l !! p = None →
  inserted l l' p x (lastp ns) (headp ms) →
  dl_rep l' (ns ++ (p, x) :: ms).
Proof.
  intros Hrep Hp Hins. assert (p ∉ (ns ++ ms).*1) as Hpn.
  { intros Hin. eapply dseg_lookup in Hin as [n Hn]; [|apply Hrep]. congruence. }
  destruct (shape_inserted _ _ _ _ _ _ (rep_shape _ _ Hrep) Hpn Hins). split; [done..|].
  destruct Hins as (_ & _ & Hn'). intros q [n Hq]. rewrite Hn' in Hq. rewrite fmap_app. cbn.
  destruct (decide (q = p)) as [->|]; [set_solver|]. apply fmap_Some in Hq as (m0 & Hq & _).
  pose proof (dl_dom _ _ Hrep q ltac:(eauto)) as Hdom. rewrite fmap_app in Hdom. set_solver.
Qed.

(** The removed node itself may stay in the heap. *)
Lemma shape_removed l l' ns ms p x :
  dl_shape l (ns ++ (p, x) :: ms) →
  d_head l' = (if lastp ns is Some _ then d_head l else headp ms) →
  d_tail l' = (if headp ms is Some _ then d_tail l else lastp ns) →
  (∀ q, q ≠ p → d_nodes l' !! q = (λ n, if_at (lastp ns) q (with_next (headp ms)) (if_at (headp ms) q (with_prev (lastp ns)) n)) <$> d_nodes l !! q) →
  dl_shape l' (ns ++ ms).
Proof.
  intros [Hh Ht Hs Hnd] Hh' Ht' Hn'.
  apply dseg_app in Hs as [Hs1 [Hp Hs2]]. rewrite !from_option_None in Hp.
  rewrite fmap_app in Hnd. cbn in Hnd. apply NoDup_app in Hnd as (Hnd1 & Hdisj & Hnd2).
  apply NoDup_cons in Hnd2 as [Hpm Hnd2].
  assert (∀ q, q ∈ ns.*1 → q ≠ p ∧ q ∉ ms.*1) as Hq1.
  { intros q Hq. specialize (Hdisj q Hq). set_solver. }
  split.
  - rewrite Hh', Hh, !headp_app. destruct ns as [|[] ns]; [cbn|]; [by rewrite ?from_option_None|].
    rewrite lastp_cons. by destruct (lastp ns).
  - rewrite Ht', Ht. destruct ms as [|[m y] ms]; [by rewrite app_nil_r|].
    cbn [headp head fmap option_fmap option_map fst].
    rewrite !lastp_app_cons, !lastp_cons. by destruct (lastp ms).
  - apply dseg_app. rewrite !from_option_None. split.
    + eapply dseg_right; [done..|]. intros q n Hq Hn.
      destruct (Hq1 q Hq) as [? Hm]. rewrite Hn' by done. rewrite Hn. cbn.
      rewrite (if_at_ne (headp ms)) by (by intros ?%headp_elem).
      unfold if_at. by destruct (decide _).
    + eapply dseg_left; [done..|]. intros q n Hq Hn. rewrite Hn' by congruence. rewrite Hn. cbn.
      rewrite (if_at_ne (lastp ns)); [|intros Hl%lastp_elem; by apply (Hq1 q)].
      unfold if_at. by destruct (decide _).
  - rewrite fmap_app. apply NoDup_app. split_and!; [done| |done].
    intros q Hq. by apply Hq1.
Qed.

Lemma rep_removed l l' ns ms p x :
  dl_rep l (ns ++ (p, x) :: ms) → removed l l' p (lastp ns) (headp ms) → dl_rep l' (ns ++ ms).
Proof.
  intros Hrep (Hh' & Ht' & Hn').
  assert (dl_shape l' (ns ++ ms)) as [].
  { eapply (shape_removed l l' ns ms p x); [by apply rep_shape|done|done|]. intros q Hq. by rewrite Hn', decide_False. }
  split; [done..|]. intros q [n Hq]. rewrite Hn' in Hq. destruct (decide (q = p)) as [->|]; [done|].
  apply fmap_Some in Hq as (m0 & Hq & _). pose proof (dl_dom _ _ Hrep q ltac:(eauto)) as Hdom.
  rewrite fmap_app in Hdom |- *. cbn in Hdom. set_solver.
Qed.

(** ** Walks *)

(** [for (p = ...; p; p = p->next) if (test (p)) return p; return NULL;] *)
Fixpoint dl_find (fuel : nat) (test : dnode A → bool) (p : option positive) h :
    res (option positive) :=
  match p, fuel with
  | None, _ => Ok None
  | Some _, O => Fail OutOfFuel
  | Some p, S fuel =>
      n ← of_option UseAfterFree (h !! p);
      if test n then Ok (Some p) else dl_find fuel test (d_next n) h
  end.

(** The walk over a whole list, which has one turn for each node. *)
Definition dl_search (test : A → bool) : ST (dlist A) (option positive) := λ l,
  r ← dl_find (size (d_nodes l)) (test ∘ d_data) (d_head l) (d_nodes l);
  Ok (r, l).

Lemma dl_find_spec fuel test h pv ns :
  dseg h pv ns None → (length ns ≤ fuel)%nat →
  (∃ ns1 p x ns2, ns = ns1 ++ (p, x) :: ns2 ∧ Forall (λ e, test e.2 = false) ns1 ∧ test x = true ∧
     dl_find fuel (test ∘ d_data) (headp ns) h = Ok (Some p)) ∨
  (Forall (λ e, test e.2 = false) ns ∧ dl_find fuel (test ∘ d_data) (headp ns) h = Ok None).
Proof.
  revert fuel pv. induction ns as [|[p x] ns IH]; intros fuel pv Hs Hf.
  { right. split; [done|]. by destruct fuel. }
  destruct fuel as [|fuel]; [cbn in Hf; lia|]. destruct Hs as [Hp Hs]. cbn [headp head fmap option_fmap option_map fst dl_find].
  rewrite Hp. cbn [of_option mbind res_bind compose d_data d_next].
  destruct (test x) eqn:Ex.
  - left. exists [], p, x, ns. by split_and!.
  - rewrite from_option_None. destruct (IH fuel (Some p) Hs ltac:(cbn in Hf; lia))
      as [(n1 & q & y & n2 & -> & Hn1 & Hy & Hr)|[Hall Hr]]; [left|right].
    + exists ((p, x) :: n1), q, y, n2. split_and!; [done|by constructor|done|exact Hr].
    + split; [by constructor|exact Hr].
Qed.

Lemma dl_rep_size l ns : dl_rep l ns → (length ns ≤ size (d_nodes l))%nat.
Proof.
  intros [_ _ Hs Hnd _]. rewrite <-(length_fmap fst), <-(size_list_to_set (C := gset positive)) by done.
  rewrite <-size_dom. apply subseteq_size. intros q Hq%elem_of_list_to_set.
  apply elem_of_dom. by eapply dseg_lookup.
Qed.

Lemma dl_search_spec test l ns :
  dl_rep l ns →
  (∃ ns1 p x ns2, ns = ns1 ++ (p, x) :: ns2 ∧ Forall (λ e, test e.2 = false) ns1 ∧ test x = true ∧
     dl_search test l = Ok (Some p, l)) ∨
  (Forall (λ e, test e.2 = false) ns ∧ dl_search test l = Ok (None, l)).
Proof.
  intros Hrep. unfold dl_search. rewrite (dl_head _ _ Hrep).
  destruct (dl_find_spec (size (d_nodes l)) test (d_nodes l) None ns)
    as [(n1 & p & x & n2 & Hns & H1 & Hx & Hr)|[Hall Hr]];
    [apply (dl_seg _ _ Hrep)|by apply dl_rep_size|left|right].
  - exists n1, p, x, n2. by rewrite Hr.
  - by rewrite Hr.
Qed.

(** ** Unlinking a node *)

(** [if (node->prev) node->prev->next = node->next; else list->head = node->next;
     if (node->next) node->next->prev = node->prev; else list->tail = node->prev;] *)
Definition dl_unlink (p : positive) : ST (dlist A) unit :=
  n ← dl_read p;
  dl_link_next (d_prev n) (d_next n);;
  n ← dl_read p;
  dl_link_prev (d_next n) (d_prev n).

Definition counted (c : Z) l : dlist A := Dlist (d_head l) (d_tail l) c (d_nodes l).

Lemma shape_node_at l ns p x ms :
  dl_shape l (ns ++ (p, x) :: ms) →
  d_nodes l !! p = Some (Dnode x (headp ms) (lastp ns)) ∧
  lastp ns ≠ Some p ∧ headp ms ≠ Some p ∧
  (∀ q, lastp ns = Some q → is_Some (d_nodes l !! q)) ∧
  (∀ q, headp ms = Some q → is_Some (d_nodes l !! q)) ∧
  (∀ q, lastp ns = Some q → headp ms ≠ Some q).
Proof.
  intros [_ _ Hs Hnd]. apply dseg_app in Hs as [Hs1 [Hp Hs2]]. rewrite !from_option_None in Hp.
  rewrite fmap_app in Hnd. cbn in Hnd. apply NoDup_app in Hnd as (_ & Hd & Hnd).
  apply NoDup_cons in Hnd as [Hpm _]. split_and!; [done|..].
  - intros ?%lastp_elem. eapply Hd; [done|left].
  - by intros ?%headp_elem.
  - intros q ?%lastp_elem. by eapply (dseg_lookup _ _ ns).
  - intros q ?%headp_elem. by eapply (dseg_lookup _ _ ms).
  - intros q ?%lastp_elem ?%headp_elem. eapply Hd; [done|by right].
Qed.

(** The two link statements, by what a look at the heap shows afterwards. *)
Lemma dl_link_next_spec pv v l :
  (∀ q, pv = Some q → is_Some (d_nodes l !! q)) →
  ∃ l', dl_link_next pv v l = Ok (tt, l') ∧
    d_head l' = (if pv is Some _ then d_head l else v) ∧ d_tail l' = d_tail l ∧
    d_count l' = d_count l ∧
    ∀ q, d_nodes l' !! q = if_at pv q (with_next v) <$> d_nodes l !! q.
Proof.
  intros Hpv. destruct pv as [a|]; cbn.
  - destruct (Hpv a eq_refl) as [n Hn]. unfold dl_write. rewrite Hn.
    eexists. split_and!; [done..|]. intros q. cbn. by apply insert_if_at.
  - eexists. split_and!; [done..|]. intros q. cbn. by destruct (d_nodes l !! q).
Qed.

Lemma dl_link_prev_spec nx v l :
  (∀ q, nx = Some q → is_Some (d_nodes l !! q)) →
  ∃ l', dl_link_prev nx v l = Ok (tt, l') ∧
    d_tail l' = (if nx is Some _ then d_tail l else v) ∧ d_head l' = d_head l ∧
    d_count l' = d_count l ∧
    ∀ q, d_nodes l' !! q = if_at nx q (with_prev v) <$> d_nodes l !! q.
Proof.
  intros Hnx. destruct nx as [a|]; cbn.
  - destruct (Hnx a eq_refl) as [n Hn]. unfold dl_write. rewrite Hn.
    eexists. split_and!; [done..|]. intros q. cbn. by apply insert_if_at.
  - eexists. split_and!; [done..|]. intros q. cbn. by destruct (d_nodes l !! q).
Qed.

Lemma dl_write_spec p f l :
  is_Some (d_nodes l !! p) →
  ∃ l', dl_write p f l = Ok (tt, l') ∧ d_head l' = d_head l ∧ d_tail l' = d_tail l ∧
    d_count l' = d_count l ∧ ∀ q, d_nodes l' !! q = if_at (Some p) q f <$> d_nodes l !! q.
Proof.
  intros [n Hn]. unfold dl_write. rewrite Hn. eexists. split_and!; [done..|]. intros q. cbn.
  by apply insert_if_at.
Qed.

Lemma dl_alloc_spec x l :
  ∃ p l', dl_alloc x l = Ok (p, l') ∧ d_nodes l !! p = None ∧
    d_head l' = d_head l ∧ d_tail l' = d_tail l ∧ d_count l' = d_count l ∧
    ∀ q, d_nodes l' !! q = if decide (q = p) then Some (Dnode x None None) else d_nodes l !! q.
Proof.
  eexists _, _. split_and!; [reflexivity|..]; [|done..|].
  - apply not_elem_of_dom, is_fresh.
  - intros q. cbn. case_decide; subst; by simplify_map_eq.
Qed.

Lemma dl_unlink_spec l ns p x ms :
  dl_rep l (ns ++ (p, x) :: ms) →
  ∃ l1, dl_unlink p l = Ok (tt, l1) ∧ d_count l1 = d_count l ∧
    ∀ c, ∃ l2, dl_free p (counted c l1) = Ok (tt, l2) ∧ dl_rep l2 (ns ++ ms) ∧ d_count l2 = c.
Proof.
  intros Hrep. destruct (shape_node_at _ _ _ _ _ (rep_shape _ _ Hrep)) as (Hp & Hlp & Hhp & Hl & Hh & Hlh).
  unfold dl_unlink. erewrite st_bind_Ok by (unfold dl_read; by rewrite Hp). cbn [d_prev d_next].
  destruct (dl_link_next_spec (lastp ns) (headp ms) l Hl) as (la & Ha & Hah & Hat & Hac & Han).
  erewrite st_bind_Ok by exact Ha.
  assert (d_nodes la !! p = Some (Dnode x (headp ms) (lastp ns))) as Hpa
    by (rewrite Han, Hp, if_at_ne by done; done).
  erewrite st_bind_Ok by (unfold dl_read; by rewrite Hpa). cbn [d_prev d_next].
  destruct (dl_link_prev_spec (headp ms) (lastp ns) la) as (lb & Hb & Hbt & Hbh & Hbc & Hbn).
  { intros q Hq. rewrite Han. by apply fmap_is_Some, Hh. }
  exists lb. split_and!; [done|congruence|]. intros c. unfold dl_free, counted. cbn.
  rewrite Hbn, Hpa, if_at_ne by done. cbn. eexists. split_and!; [done| |done].
  eapply rep_removed; [done|]. split_and!; cbn; [by rewrite Hbh, Hah|by rewrite Hbt, Hat|].
  intros q. destruct (decide (q = p)) as [->|]; [by rewrite lookup_delete_eq|].
  rewrite lookup_delete_ne, Hbn, Han by done. destruct (d_nodes l !! q); [|done]. cbn. f_equal.
  unfold if_at. by destruct (decide (lastp ns = Some q)), (decide (headp ms = Some q)).
Qed.

(** The same with the pointers of the next node first, and the node freed. *)
Definition dl_remove (p : positive) : ST (dlist A) unit :=
  n ← dl_read p;
  dl_link_prev (d_next n) (d_prev n);;
  n ← dl_read p;
  dl_link_next (d_prev n) (d_next n);;
  dl_free p.

Lemma dl_remove_spec l ns p x ms :
  dl_rep l (ns ++ (p, x) :: ms) → ∃ l', dl_remove p l = Ok (tt, l') ∧ dl_rep l' (ns ++ ms) ∧ d_nodes l' !! p = None.
Proof.
  intros Hrep. destruct (shape_node_at _ _ _ _ _ (rep_shape _ _ Hrep)) as (Hp & Hlp & Hhp & Hl & Hh & Hlh).
  unfold dl_remove. erewrite st_bind_Ok by (unfold dl_read; by rewrite Hp). cbn [d_prev d_next].
  destruct (dl_link_prev_spec (headp ms) (lastp ns) l Hh) as (la & Ha & Hat & Hah & Hac & Han).
  rewrite (st_bind_Ok _ _ _ _ _ Ha).
  assert (d_nodes la !! p = Some (Dnode x (headp ms) (lastp ns))) as Hpa by (rewrite Han, Hp, if_at_ne by done; done).
  erewrite st_bind_Ok by (unfold dl_read; by rewrite Hpa). cbn [d_prev d_next].
  destruct (dl_link_next_spec (lastp ns) (headp ms) la) as (lb & Hb & Hbh & Hbt & Hbc & Hbn).
  { intros q Hq. rewrite Han. by apply fmap_is_Some, Hl. }
  rewrite (st_bind_Ok _ _ _ _ _ Hb). unfold dl_free. rewrite Hbn, Hpa, if_at_ne by done. cbn.
  eexists. split_and!; [done| |cbn; apply lookup_delete_eq].
  eapply rep_removed; [done|]. split_and!; cbn; [by rewrite Hbh, Hah|by rewrite Hbt, Hat|].
  intros q. destruct (decide (q = p)) as [->|]; [by rewrite lookup_delete_eq|].
  rewrite lookup_delete_ne, Hbn, Han by done. by destruct (d_nodes l !! q).
Qed.

Lemma rep_ends l ns : dl_rep l ns →
  (∀ q, lastp ns = Some q → is_Some (d_nodes l !! q)) ∧
  (∀ q, headp ns = Some q → is_Some (d_nodes l !! q)) ∧ (headp ns = None ↔ lastp ns = None).
Proof.
  intros [_ _ Hs _ _]. split_and!.
  - intros q ?%lastp_elem. by eapply dseg_lookup.
  - intros q ?%headp_elem. by eapply dseg_lookup.
  - destruct ns as [|[p x] ns]; [done|]. rewrite lastp_cons. by destruct (lastp ns).
Qed.

(** The list [l1] is [l] with a node [p] allocated that is not linked in yet. *)
Record allocated l l1 (p : positive) (x : A) : Prop := Allocated {
  al_fresh : d_nodes l !! p = None;
  al_head : d_head l1 = d_head l;
  al_tail : d_tail l1 = d_tail l;
  al_count : d_count l1 = d_count l;
  al_nodes q : d_nodes l1 !! q = if decide (q = p) then Some (Dnode x None None) else d_nodes l !! q;
}.

Lemma alloc_spec x l : ∃ p l1, dl_alloc x l = Ok (p, l1) ∧ allocated l l1 p x.
Proof. destruct (dl_alloc_spec x l) as (p & l1 & H & ? & ? & ? & ? & ?). exists p, l1. by split. Qed.

Lemma alloc_new l l1 p x : allocated l l1 p x → d_nodes l1 !! p = Some (Dnode x None None).
Proof. intros H. by rewrite (al_nodes _ _ _ _ H), decide_True. Qed.

Lemma alloc_other l l1 p x c :
  allocated l l1 p x → is_Some (d_nodes l !! c) → c ≠ p ∧ d_nodes l1 !! c = d_nodes l !! c.
Proof.
  intros H [n Hc]. pose proof (al_fresh _ _ _ _ H). assert (c ≠ p) as Hne by congruence.
  by rewrite (al_nodes _ _ _ _ H), decide_False.
Qed.

Lemma dl_link_at_spec l l1 ns ms p x :
  dl_rep l (ns ++ ms) → allocated l l1 p x →
  ∃ l', dl_link_at p (headp ms) l1 = Ok (tt, l') ∧ dl_rep l' (ns ++ (p, x) :: ms) ∧ d_count l' = d_count l.
Proof.
  intros Hrep Hal. pose proof (alloc_new _ _ _ _ Hal) as Hp.
  assert (Hins : ∀ l', d_head l' = (if lastp ns is Some _ then d_head l else Some p) →
    d_tail l' = (if headp ms is Some _ then d_tail l else Some p) →
    (∀ q, d_nodes l' !! q = if decide (q = p) then Some (Dnode x (headp ms) (lastp ns))
       else (λ n, if_at (lastp ns) q (with_next (Some p)) (if_at (headp ms) q (with_prev (Some p)) n)) <$> d_nodes l !! q) →
    dl_rep l' (ns ++ (p, x) :: ms)).
  { intros l' Hh Ht Hn. eapply rep_inserted; [done|apply Hal|by split_and!]. }
  assert (Hn1 : ∀ q, d_nodes l1 !! q = if decide (q = p) then Some (Dnode x None None) else d_nodes l !! q) by apply Hal.
  assert (Hwr : ∀ q f l2, is_Some (d_nodes l1 !! q) → (∀ i, is_Some (d_nodes l1 !! i) → is_Some (d_nodes l2 !! i)) →
    ∃ l', dl_write q f l2 = Ok (tt, l') ∧ d_head l' = d_head l2 ∧ d_tail l' = d_tail l2 ∧ d_count l' = d_count l2 ∧
      (∀ i, d_nodes l' !! i = if_at (Some q) i f <$> d_nodes l2 !! i) ∧ (∀ i, is_Some (d_nodes l1 !! i) → is_Some (d_nodes l' !! i))).
  { intros q f l2 Hq Hall. destruct (dl_write_spec q f l2 (Hall q Hq)) as (l' & Hw & H1 & H2 & H3 & H4). exists l'.
    split_and!; try done. intros i Hi. rewrite H4. by apply fmap_is_Some, Hall. }
  assert (Hin : ∀ q, q ∈ (ns ++ ms).*1 → is_Some (d_nodes l1 !! q) ∧ q ≠ p).
  { intros q Hq. destruct (dseg_lookup _ _ _ _ q (dl_seg _ _ Hrep) Hq) as [m Hm].
    destruct (alloc_other _ _ _ _ q Hal) as [? ->]; [by eexists|]. split; [by eexists|done]. }
  assert (Hp1 : is_Some (d_nodes l1 !! p)) by (rewrite Hp; by eexists).
  unfold dl_link_at. erewrite st_bind_Ok by reflexivity. rewrite (al_head _ _ _ _ Hal), (dl_head _ _ Hrep), headp_app.
  destruct ms as [|[pt y] ms]; cbn [headp head fmap option_fmap option_map fst] in *.
  - rewrite app_nil_r in *. destruct ns as [|[h z] ns] using rev_ind; [|clear IHns].
    + cbn. eexists. split; [done|]. split; [|by rewrite <- (al_count _ _ _ _ Hal)]. apply Hins; cbn; try done.
      intros q. rewrite Hn1. case_decide; [done|]. by destruct (d_nodes l !! q).
    + destruct (headp (ns ++ [(h, z)])) as [hd|] eqn:Eh; [cbn [from_option]|by destruct ns as [|[]]].
      rewrite (al_tail _ _ _ _ Hal), (dl_tail _ _ Hrep), lastp_snoc in *.
      destruct (Hwr p (with_prev (Some h)) l1) as (l2 & Hw2 & Hh2 & Ht2 & Hc2 & Hn2 & Hs2); [done|done|].
      destruct (Hin h) as [Hh1 Hhp]; [rewrite fmap_app; set_solver|].
      destruct (Hwr h (with_next (Some p)) l2) as (l3 & Hw3 & Hh3 & Ht3 & Hc3 & Hn3 & Hs3); [done|done|].
      rewrite (st_bind_Ok _ _ _ _ _ Hw2), (st_bind_Ok _ _ _ _ _ Hw3). eexists. split; [done|].
      split; [|cbn; rewrite Hc3, Hc2; apply Hal]. apply Hins; cbn; [by rewrite Hh3, Hh2; apply Hal|done|].
      intros q. rewrite Hn3, Hn2, Hn1. unfold if_at. repeat case_decide; simplify_eq; try done; by destruct (d_nodes l !! q).
  - destruct ns as [|[h z] ns0] eqn:Ens.
    + cbn. rewrite bool_decide_eq_true_2 by done. destruct (Hin pt) as [Hpt1 Hptp]; [left|].
      destruct (Hwr p (with_next (Some pt)) l1) as (l2 & Hw2 & Hh2 & Ht2 & Hc2 & Hn2 & Hs2); [done|done|].
      destruct (Hwr pt (with_prev (Some p)) l2) as (l3 & Hw3 & Hh3 & Ht3 & Hc3 & Hn3 & Hs3); [done|done|].
      rewrite (st_bind_Ok _ _ _ _ _ Hw2), (st_bind_Ok _ _ _ _ _ Hw3). eexists. split; [done|].
      split; [|cbn; rewrite Hc3, Hc2; apply Hal]. apply Hins; cbn; [done|by rewrite Ht3, Ht2; apply Hal|].
      intros q. rewrite Hn3, Hn2, Hn1. unfold if_at. repeat case_decide; simplify_eq; try done; by destruct (d_nodes l !! q).
    + rewrite <- Ens in *. destruct (shape_node_at _ _ _ _ _ (rep_shape _ _ Hrep)) as (Hpt & Hlp & _ & Hl & _ & _).
      assert (headp ns = Some h) as -> by (by rewrite Ens). cbn [from_option].
      assert (pt ≠ h) as Hne.
      { pose proof (dl_nodup _ _ Hrep) as Hnd. rewrite Ens in Hnd. cbn in Hnd. apply NoDup_cons in Hnd as [Hnd _].
        intros <-. apply Hnd. rewrite fmap_app. set_solver. }
      rewrite bool_decide_eq_false_2 by done. destruct (Hin pt) as [Hpt1 Hptp]; [rewrite fmap_app; set_solver|].
      destruct (lastp ns) as [t|] eqn:El; [|exfalso; rewrite Ens, lastp_cons in El; by destruct (lastp ns0)].
      destruct (Hin t) as [Ht1 Htp]; [rewrite fmap_app; apply elem_of_app; left; by apply lastp_elem|].
      destruct (Hwr p (with_next (Some pt)) l1) as (l2 & Hw2 & Hh2 & Ht2 & Hc2 & Hn2 & Hs2); [done|done|].
      destruct (Hwr p (with_prev (Some t)) l2) as (l3 & Hw3 & Hh3 & Ht3 & Hc3 & Hn3 & Hs3); [done|done|].
      destruct (Hwr t (with_next (Some p)) l3) as (l4 & Hw4 & Hh4 & Ht4 & Hc4 & Hn4 & Hs4); [done|done|].
      destruct (Hwr pt (with_prev (Some p)) l4) as (l5 & Hw5 & Hh5 & Ht5 & Hc5 & Hn5 & Hs5); [done|done|].
      rewrite (st_bind_Ok _ _ _ _ _ Hw2).
      assert (Hr : dl_read pt l2 = Ok (Dnode y (headp ms) (Some t), l2)).
      { unfold dl_read. rewrite Hn2, Hn1. rewrite decide_False by done. rewrite Hpt. cbn. by rewrite if_at_ne by congruence. }
      rewrite (st_bind_Ok _ _ _ _ _ Hr). cbn [d_prev]. rewrite (st_bind_Ok _ _ _ _ _ Hw3), (st_bind_Ok _ _ _ _ _ Hw4), Hw5.
      exists l5. split; [done|]. split; [|rewrite Hc5, Hc4, Hc3, Hc2; apply Hal].
      apply Hins; [by rewrite Hh5, Hh4, Hh3, Hh2; apply Hal|by rewrite Ht5, Ht4, Ht3, Ht2; apply Hal|].
      intros q. rewrite Hn5, Hn4, Hn3, Hn2, Hn1. unfold if_at.
      repeat case_decide; simplify_eq; try done; destruct (d_nodes l !! q); done.
Qed.

(** ** Changing the data of a node *)

Lemma dl_write_data l ns p x ms f :
  dl_rep l (ns ++ (p, x) :: ms) →
  ∃ l', dl_write p (λ n, with_data (f (d_data n)) n) l = Ok (tt, l') ∧
    dl_rep l' (ns ++ (p, f x) :: ms) ∧ d_count l' = d_count l ∧
    d_nodes l' !! p = Some (Dnode (f x) (headp ms) (lastp ns)).
Proof.
  intros Hrep. destruct (shape_node_at _ _ _ _ _ (rep_shape _ _ Hrep)) as (Hp & _).
  unfold dl_write. rewrite Hp. eexists. split; [done|]. cbn.
  destruct Hrep as [Hh Ht Hs Hnd Hdom].
  assert ((ns ++ (p, f x) :: ms).*1 = (ns ++ (p, x) :: ms).*1) as Hfst by (by rewrite !fmap_app).
  split_and!; [|done|by rewrite lookup_insert_eq].
  split; cbn; rewrite ?Hfst; [by rewrite Hh, !headp_app|by rewrite Ht, !lastp_app_cons, !lastp_cons| |done|].
  - apply dseg_app in Hs as [Hs1 [Hp' Hs2]]. rewrite fmap_app in Hnd. cbn in Hnd.
    apply NoDup_app in Hnd as (_ & Hd & Hnd). apply NoDup_cons in Hnd as [Hpm _].
    apply dseg_app. split; [|split].
    + eapply dseg_ext; [|exact Hs1]. intros q Hq. rewrite lookup_insert_ne; [done|].
      intros ->. eapply Hd; [done|left].
    + rewrite lookup_insert_eq, !from_option_None. done.
    + eapply dseg_ext; [|exact Hs2]. intros q Hq. by rewrite lookup_insert_ne by congruence.
  - intros q Hq. apply Hdom. destruct (decide (q = p)) as [->|]; [rewrite Hp; eauto|].
    by rewrite lookup_insert_ne in Hq.
Qed.
End Dlist.
