(* ===== verification/Linklist.v ===== *)
(** Lists: lib/linklist.c.

    A [struct list] is a doubly linked list whose nodes carry a pointer [data];
    [cmp] and [del] are the callbacks of the list.  The count is an unsigned
    int. *)

From stdpp Require Import sorting.
From S2P Require Import Prelude Dlist.

Section Linklist.
Context {A : Type} `{EqDecision A}.
Implicit Types (l : dlist A).

Definition list_new : dlist A := dl_empty.

(** [list->count++] and [list->count--]. *)
Definition count_add (d : Z) : ST (dlist A) unit :=
  l ← st_get;
  dl_set_count (u32 (d_count l + d)).

Definition listnode_add (val : A) : ST (dlist A) unit :=
  node ← dl_alloc val;
  l ← st_get;
  dl_write node (with_prev (d_tail l));;
  match d_head l with
  | None => dl_set_head (Some node)
  | Some _ =>
      match d_tail l with
      | Some tail => dl_write tail (with_next (Some node))
      | None => st_fail NullDeref
      end
  end;;
  dl_set_tail (Some node);;
  count_add 1.

(** The two ways listnode_add_sort links the node [new] in: before the node
    [n], and at the tail. *)
Definition add_before (new n : positive) : ST (dlist A) unit :=
  dl_write new (with_next (Some n));;
  nn ← dl_read n;
  dl_write new (with_prev (d_prev nn));;
  dl_link_next (d_prev nn) (Some new);;
  dl_write n (with_prev (Some new));;
  count_add 1.

Definition add_tail (new : positive) : ST (dlist A) unit :=
  l ← st_get;
  dl_write new (with_prev (d_tail l));;
  dl_link_next (d_tail l) (Some new);;
  dl_set_tail (Some new);;
  count_add 1.

(** The first node whose data [val] comes before; [cmp] is [None] for a list
    without a comparison. *)
Definition sort_point (cmp : option (A → A → Z)) (val : A) : ST (dlist A) (option positive) :=
  match cmp with
  | Some cmp => dl_search (λ x, cmp val x <? 0)
  | None => mret None
  end.

Definition listnode_add_sort (cmp : option (A → A → Z)) (val : A) : ST (dlist A) unit :=
  new ← dl_alloc val;
  n ← sort_point cmp val;
  match n with
  | Some n => add_before new n
  | None => add_tail new
  end.

(** listnode_add_after: the count is not touched. *)
Definition listnode_add_after (pp : option positive) (val : A) : ST (dlist A) unit :=
  nn ← dl_alloc val;
  match pp with
  | None =>
      l ← st_get;
      dl_link_prev (d_head l) (Some nn);;
      dl_write nn (with_next (d_head l));;
      dl_write nn (with_prev pp);;
      dl_set_head (Some nn)
  | Some p =>
      n ← dl_read p;
      dl_link_prev (d_next n) (Some nn);;
      dl_write nn (with_next (d_next n));;
      dl_write nn (with_prev pp);;
      dl_write p (with_next (Some nn))
  end.

(** list_delete_node. *)
Definition list_delete_node (node : positive) : ST (dlist A) unit :=
  dl_unlink node;;
  count_add (-1);;
  dl_free node.

(** listnode_delete: the first node whose data is [val]. *)
Definition listnode_delete (val : A) : ST (dlist A) unit :=
  node ← dl_search (λ x, bool_decide (x = val));
  match node with
  | Some node =>
      dl_unlink node;;
      count_add (-1);;
      dl_free node
  | None => mret tt
  end.

Definition listnode_head : ST (dlist A) (option A) :=
  l ← st_get;
  match d_head l with
  | Some node => n ← dl_read node; mret (Some (d_data n))
  | None => mret None
  end.

Definition listnode_lookup (data : A) : ST (dlist A) (option positive) :=
  dl_search (λ x, bool_decide (data = x)).

(** The loop of list_delete_all_node and list_delete: the data handed to
    [del], in order. *)
Fixpoint delete_loop (fuel : nat) (node : option positive) : ST (dlist A) (list A) :=
  match node, fuel with
  | None, _ => mret []
  | Some _, O => st_fail OutOfFuel
  | Some p, S fuel =>
      n ← dl_read p;
      dl_free p;;
      rest ← delete_loop fuel (d_next n);
      mret (d_data n :: rest)
  end.

Definition list_delete_all_node : ST (dlist A) (list A) :=
  l ← st_get;
  del ← delete_loop (size (d_nodes l)) (d_head l);
  dl_set_head None;;
  dl_set_tail None;;
  dl_set_count 0;;
  mret del.

(** list_delete: the list itself goes too; the nodes that are left. *)
Definition list_delete l : res (list A * gmap positive (dnode A)) :=
  '(del, l) ← delete_loop (size (d_nodes l)) (d_head l) l;
  Ok (del, d_nodes l).

Definition list_add_node_prev (current : positive) (val : A) : ST (dlist A) unit :=
  node ← dl_alloc val;
  dl_write node (with_next (Some current));;
  n ← dl_read current;
  dl_link_next (d_prev n) (Some node);;
  n ← dl_read current;
  dl_write node (with_prev (d_prev n));;
  dl_write current (with_prev (Some node));;
  count_add 1.

Definition list_add_node_next (current : positive) (val : A) : ST (dlist A) unit :=
  node ← dl_alloc val;
  dl_write node (with_prev (Some current));;
  n ← dl_read current;
  dl_link_prev (d_next n) (Some node);;
  n ← dl_read current;
  dl_write node (with_next (d_next n));;
  dl_write current (with_next (Some node));;
  count_add 1.

(** list_add_list: the data of the list [m] is added to [l] one by one. *)
Fixpoint add_list_loop (fuel : nat) (m : gmap positive (dnode A)) (n : option positive) :
    ST (dlist A) unit :=
  match n, fuel with
  | None, _ => mret tt
  | Some _, O => st_fail OutOfFuel
  | Some p, S fuel =>
      n ← st_lift (of_option UseAfterFree (m !! p));
      listnode_add (d_data n);;
      add_list_loop fuel m (d_next n)
  end.

Definition list_add_list (m : dlist A) : ST (dlist A) unit :=
  add_list_loop (size (d_nodes m)) (d_nodes m) (d_head m).

(** * Facts *)

(** The list stands for the data [xs] and its count is right. *)
Definition list_ok l (ns : list (positive * A)) : Prop :=
  dl_rep l ns ∧ d_count l = u32 (Z.of_nat (length ns)).

Lemma u32_step (x y : Z) : u32 (u32 x + y) = u32 (x + y).
Proof. apply Z.add_mod_idemp_l. done. Qed.

Lemma count_add_spec d l :
  count_add d l = Ok (tt, counted (u32 (d_count l + d)) l).
Proof. done. Qed.

Lemma rep_counted c l ns : dl_rep l ns → dl_rep (counted c l) ns.
Proof. by intros []. Qed.

(** A heap that shows the new node [p] linked in stands for the longer list. *)
Lemma ok_inserted l l' ns ms p x :
  list_ok l (ns ++ ms) → d_nodes l !! p = None → d_count l' = d_count l →
  inserted l l' p x (lastp ns) (headp ms) →
  list_ok (counted (u32 (d_count l' + 1)) l') (ns ++ (p, x) :: ms).
Proof.
  intros [Hrep Hc] Hp Hc' Hins. split; [by apply rep_counted; eapply rep_inserted|].
  cbn. rewrite Hc', Hc, u32_step, !length_app. f_equal. cbn. lia.
Qed.

Lemma listnode_add_spec l ns x :
  list_ok l ns → ∃ p l', listnode_add x l = Ok (tt, l') ∧ list_ok l' (ns ++ [(p, x)]).
Proof.
  intros [Hrep Hc]. destruct (rep_ends _ _ Hrep) as (Hlast & _ & Hnil).
  destruct (dl_alloc_spec x l) as (p & l1 & H1 & Hp & Hh1 & Ht1 & Hc1 & Hn1).
  unfold listnode_add. erewrite st_bind_Ok by exact H1. erewrite st_bind_Ok by reflexivity.
  destruct (dl_write_spec p (with_prev (d_tail l1)) l1) as (l2 & H2 & Hh2 & Ht2 & Hc2 & Hn2).
  { rewrite Hn1, decide_True by done. eauto. }
  erewrite st_bind_Ok by exact H2.
  assert (∀ q, lastp ns = Some q → q ≠ p) as Hqp
    by (intros q Hq ->; destruct (Hlast p Hq); congruence).
  destruct (dl_link_next_spec (lastp ns) (Some p) l2) as (l3 & H3 & Hh3 & Ht3 & Hc3 & Hn3).
  { intros q Hq. rewrite Hn2, Hn1, decide_False by auto. by apply fmap_is_Some, Hlast. }
  erewrite st_bind_Ok.
  2:{ rewrite Hh1, Ht1, (dl_head _ _ Hrep), (dl_tail _ _ Hrep).
      destruct (headp ns) eqn:E1, (lastp ns) eqn:E2; [exact H3|naive_solver|naive_solver|exact H3]. }
  unfold dl_set_tail. erewrite st_bind_Ok by reflexivity. rewrite count_add_spec.
  eexists p, _. split; [done|].
  apply (ok_inserted l _ ns []); [by rewrite app_nil_r|done|cbn; congruence|].
  split_and!; cbn; [by rewrite Hh3, Hh2, Hh1|done|].
  intros q. rewrite Hn3, Hn2, Hn1, Ht1, (dl_tail _ _ Hrep).
  destruct (decide (q = p)) as [->|Hne].
  - rewrite (if_at_ne (lastp ns)), if_at_eq by naive_solver. done.
  - rewrite (if_at_ne (Some p)), (if_at_ne None) by congruence. by destruct (d_nodes l !! q).
Qed.

Lemma add_tail_spec l l1 p x ns :
  allocated l l1 p x → list_ok l ns →
  ∃ l', add_tail p l1 = Ok (tt, l') ∧ list_ok l' (ns ++ [(p, x)]).
Proof.
  intros Hal Hok. pose proof Hok as [Hrep _]. destruct (rep_ends _ _ Hrep) as (Hlast & _ & _).
  unfold add_tail. erewrite st_bind_Ok by reflexivity.
  rewrite (al_tail _ _ _ _ Hal), (dl_tail _ _ Hrep).
  destruct (dl_write_spec p (with_prev (lastp ns)) l1) as (l2 & H2 & Hh2 & Ht2 & Hc2 & Hn2).
  { rewrite (alloc_new _ _ _ _ Hal). eauto. }
  erewrite st_bind_Ok by exact H2.
  destruct (dl_link_next_spec (lastp ns) (Some p) l2) as (l3 & H3 & Hh3 & Ht3 & Hc3 & Hn3).
  { intros q Hq. destruct (alloc_other _ _ _ _ q Hal (Hlast q Hq)) as [_ Hq1].
    rewrite Hn2, Hq1. by apply fmap_is_Some, Hlast. }
  assert (lastp ns ≠ Some p) as Hlp by (intros Hq; by destruct (alloc_other _ _ _ _ p Hal (Hlast p Hq))).
  erewrite st_bind_Ok by exact H3. unfold dl_set_tail. erewrite st_bind_Ok by reflexivity.
  rewrite count_add_spec. destruct Hal as [Hp0 Hh0 Ht0 Hc0 Hn0]. eexists. split; [done|].
  apply (ok_inserted l _ ns []); [by rewrite app_nil_r|done|cbn; congruence|].
  split_and!; cbn; [by rewrite Hh3, Hh2, Hh0|done|].
  intros q. rewrite Hn3, Hn2, Hn0. destruct (decide (q = p)) as [->|Hne].
  - rewrite (if_at_ne (lastp ns)), if_at_eq by done. done.
  - rewrite (if_at_ne (Some p)), (if_at_ne None) by congruence. by destruct (d_nodes l !! q).
Qed.

Lemma add_before_spec l l1 p x ns c y ms :
  allocated l l1 p x → list_ok l (ns ++ (c, y) :: ms) →
  ∃ l', add_before p c l1 = Ok (tt, l') ∧ list_ok l' (ns ++ (p, x) :: (c, y) :: ms).
Proof.
  intros Hal Hok. pose proof Hok as [Hrep _].
  destruct (shape_node_at _ _ _ _ _ (rep_shape _ _ Hrep)) as (Hcn & Hlc & _ & Hl & _ & _).
  destruct (alloc_other _ _ _ _ c Hal ltac:(eauto)) as [Hcp Hc1n].
  unfold add_before.
  destruct (dl_write_spec p (with_next (Some c)) l1) as (l2 & H2 & Hh2 & Ht2 & Hc2 & Hn2).
  { rewrite (alloc_new _ _ _ _ Hal). eauto. }
  erewrite st_bind_Ok by exact H2.
  assert (d_nodes l2 !! c = Some (Dnode y (headp ms) (lastp ns))) as H2c
    by (rewrite Hn2, Hc1n, Hcn, if_at_ne by congruence; done).
  erewrite st_bind_Ok by (unfold dl_read; by rewrite H2c). cbn [d_prev].
  destruct (dl_write_spec p (with_prev (lastp ns)) l2) as (l3 & H3 & Hh3 & Ht3 & Hc3 & Hn3).
  { rewrite Hn2, (alloc_new _ _ _ _ Hal). cbn. eauto. }
  erewrite st_bind_Ok by exact H3.
  destruct (dl_link_next_spec (lastp ns) (Some p) l3) as (l4 & H4 & Hh4 & Ht4 & Hc4 & Hn4).
  { intros q Hq. destruct (alloc_other _ _ _ _ q Hal (Hl q Hq)) as [_ Hq1].
    rewrite Hn3, Hn2, Hq1. by apply fmap_is_Some, fmap_is_Some, Hl. }
  assert (lastp ns ≠ Some p) as Hlp by (intros Hq; by destruct (alloc_other _ _ _ _ p Hal (Hl p Hq))).
  erewrite st_bind_Ok by exact H4.
  destruct (dl_write_spec c (with_prev (Some p)) l4) as (l5 & H5 & Hh5 & Ht5 & Hc5 & Hn5).
  { rewrite Hn4, Hn3, H2c. cbn. eauto. }
  erewrite st_bind_Ok by exact H5. rewrite count_add_spec. destruct Hal as [Hp0 Hh0 Ht0 Hc0 Hn0].
  eexists. split; [done|]. apply (ok_inserted l _ ns); [done..|congruence|].
  split_and!; cbn; [by rewrite Hh5, Hh4, Hh3, Hh2, Hh0|congruence|].
  intros q. rewrite Hn5, Hn4, Hn3, Hn2, Hn0. destruct (decide (q = p)) as [->|Hne].
  - rewrite (if_at_ne (Some c)), (if_at_ne (lastp ns)), !if_at_eq by congruence. done.
  - rewrite !(if_at_ne (Some p)) by congruence. destruct (d_nodes l !! q); [|done]. cbn. f_equal.
    unfold if_at. by repeat destruct (decide _).
Qed.

Lemma list_add_node_prev_spec l ns c y ms x :
  list_ok l (ns ++ (c, y) :: ms) →
  ∃ p l', list_add_node_prev c x l = Ok (tt, l') ∧ list_ok l' (ns ++ (p, x) :: (c, y) :: ms).
Proof.
  intros Hok. pose proof Hok as [Hrep _].
  destruct (shape_node_at _ _ _ _ _ (rep_shape _ _ Hrep)) as (Hcn & Hlc & _ & Hl & _ & _).
  destruct (alloc_spec x l) as (p & l1 & H1 & Hal). pose proof Hal as [Hp Hh1 Ht1 Hc1 Hn1].
  destruct (alloc_other l l1 p x c Hal ltac:(eauto)) as [Hcp Hc1n].
  unfold list_add_node_prev. erewrite st_bind_Ok by exact H1.
  destruct (dl_write_spec p (with_next (Some c)) l1) as (l2 & H2 & Hh2 & Ht2 & Hc2 & Hn2).
  { rewrite Hn1, decide_True by done. eauto. }
  erewrite st_bind_Ok by exact H2.
  assert (d_nodes l2 !! c = Some (Dnode y (headp ms) (lastp ns))) as H2c
    by (rewrite Hn2, Hc1n, Hcn, if_at_ne by congruence; done).
  erewrite st_bind_Ok by (unfold dl_read; by rewrite H2c). cbn [d_prev].
  destruct (dl_link_next_spec (lastp ns) (Some p) l2) as (l3 & H3 & Hh3 & Ht3 & Hc3 & Hn3).
  { intros q Hq. destruct (alloc_other l l1 p x q Hal (Hl q Hq)) as [_ Hq1].
    rewrite Hn2, Hq1. by apply fmap_is_Some, Hl. }
  assert (lastp ns ≠ Some p) as Hlp by (intros Hq; destruct (Hl p Hq); congruence).
  erewrite st_bind_Ok by exact H3.
  assert (d_nodes l3 !! c = Some (Dnode y (headp ms) (lastp ns))) as H3c
    by (rewrite Hn3, H2c, if_at_ne by done; done).
  erewrite st_bind_Ok by (unfold dl_read; by rewrite H3c). cbn [d_prev].
  destruct (dl_write_spec p (with_prev (lastp ns)) l3) as (l4 & H4 & Hh4 & Ht4 & Hc4 & Hn4).
  { rewrite Hn3, Hn2, Hn1, decide_True by done. cbn. eauto. }
  erewrite st_bind_Ok by exact H4.
  destruct (dl_write_spec c (with_prev (Some p)) l4) as (l5 & H5 & Hh5 & Ht5 & Hc5 & Hn5).
  { rewrite Hn4, H3c. cbn. eauto. }
  erewrite st_bind_Ok by exact H5. rewrite count_add_spec. eexists p, _. split; [done|].
  apply (ok_inserted l _ ns); [done..|congruence|].
  split_and!; cbn; [by rewrite Hh5, Hh4, Hh3, Hh2, Hh1|congruence|].
  intros q. rewrite Hn5, Hn4, Hn3, Hn2, Hn1.
  destruct (decide (q = p)) as [->|Hne].
  - rewrite (if_at_ne (Some c)), (if_at_ne (lastp ns)), !if_at_eq by congruence. done.
  - rewrite !(if_at_ne (Some p)) by congruence. destruct (d_nodes l !! q); [|done]. cbn. f_equal.
    unfold if_at. by repeat destruct (decide _).
Qed.

Lemma list_add_node_next_spec l ns c y ms x :
  list_ok l (ns ++ (c, y) :: ms) →
  ∃ p l', list_add_node_next c x l = Ok (tt, l') ∧ list_ok l' (ns ++ (c, y) :: (p, x) :: ms).
Proof.
  intros Hok. pose proof Hok as [Hrep _].
  destruct (shape_node_at _ _ _ _ _ (rep_shape _ _ Hrep)) as (Hcn & _ & Hhc & _ & Hh & _).
  destruct (alloc_spec x l) as (p & l1 & H1 & Hal). pose proof Hal as [Hp Hh1 Ht1 Hc1 Hn1].
  destruct (alloc_other l l1 p x c Hal ltac:(eauto)) as [Hcp Hc1n].
  unfold list_add_node_next. erewrite st_bind_Ok by exact H1.
  destruct (dl_write_spec p (with_prev (Some c)) l1) as (l2 & H2 & Hh2 & Ht2 & Hc2 & Hn2).
  { rewrite Hn1, decide_True by done. eauto. }
  erewrite st_bind_Ok by exact H2.
  assert (d_nodes l2 !! c = Some (Dnode y (headp ms) (lastp ns))) as H2c
    by (rewrite Hn2, Hc1n, Hcn, if_at_ne by congruence; done).
  erewrite st_bind_Ok by (unfold dl_read; by rewrite H2c). cbn [d_next].
  destruct (dl_link_prev_spec (headp ms) (Some p) l2) as (l3 & H3 & Ht3 & Hh3 & Hc3 & Hn3).
  { intros q Hq. destruct (alloc_other l l1 p x q Hal (Hh q Hq)) as [_ Hq1].
    rewrite Hn2, Hq1. by apply fmap_is_Some, Hh. }
  assert (headp ms ≠ Some p) as Hhp by (intros Hq; destruct (Hh p Hq); congruence).
  erewrite st_bind_Ok by exact H3.
  assert (d_nodes l3 !! c = Some (Dnode y (headp ms) (lastp ns))) as H3c
    by (rewrite Hn3, H2c, if_at_ne by done; done).
  erewrite st_bind_Ok by (unfold dl_read; by rewrite H3c). cbn [d_next].
  destruct (dl_write_spec p (with_next (headp ms)) l3) as (l4 & H4 & Hh4 & Ht4 & Hc4 & Hn4).
  { rewrite Hn3, Hn2, Hn1, decide_True by done. cbn. eauto. }
  erewrite st_bind_Ok by exact H4.
  destruct (dl_write_spec c (with_next (Some p)) l4) as (l5 & H5 & Hh5 & Ht5 & Hc5 & Hn5).
  { rewrite Hn4, H3c. cbn. eauto. }
  erewrite st_bind_Ok by exact H5. rewrite count_add_spec. eexists p, _. split; [done|].
  replace (ns ++ (c, y) :: (p, x) :: ms) with ((ns ++ [(c, y)]) ++ (p, x) :: ms)
    by (by rewrite <-app_assoc).
  apply (ok_inserted l _ (ns ++ [(c, y)])); [by rewrite <-app_assoc|done|congruence|].
  rewrite lastp_snoc. split_and!; cbn; [congruence|by rewrite Ht5, Ht4, Ht3, Ht2, Ht1|].
  intros q. rewrite Hn5, Hn4, Hn3, Hn2, Hn1.
  destruct (decide (q = p)) as [->|Hne].
  - rewrite (if_at_ne (Some c)), (if_at_ne (headp ms)), !if_at_eq by congruence. done.
  - rewrite !(if_at_ne (Some p)) by congruence. destruct (d_nodes l !! q); [|done]. done.
Qed.

Lemma sort_point_spec cmp l l1 p x ns :
  allocated l l1 p x → dl_rep l ns →
  ∃ ns1 ns2, ns = ns1 ++ ns2 ∧ sort_point cmp x l1 = Ok (headp ns2, l1) ∧
    match cmp with
    | Some cmp => Forall (λ e, 0 ≤ cmp x e.2) ns1 ∧ (∀ c y ns3, ns2 = (c, y) :: ns3 → cmp x y < 0)
    | None => ns2 = []
    end.
Proof.
  intros Hal Hrep. destruct cmp as [cmp|]; [|exists ns, []; by rewrite app_nil_r].
  cbn [sort_point]. unfold dl_search. rewrite (al_head _ _ _ _ Hal), (dl_head _ _ Hrep).
  destruct (dl_find_spec (size (d_nodes l1)) (λ y, cmp x y <? 0) (d_nodes l1) None ns)
    as [(n1 & c & y & n2 & -> & Hn & Hy & Hr)|[Hall Hr]].
  - eapply dseg_ext; [|apply (dl_seg _ _ Hrep)]. intros q Hq.
    eapply alloc_other; [done..|]. eapply dseg_lookup; [apply (dl_seg _ _ Hrep)|done].
  - rewrite (dl_rep_size _ _ Hrep). rewrite <-!size_dom. apply subseteq_size.
    intros q [n Hq]%elem_of_dom. apply elem_of_dom. rewrite (al_nodes _ _ _ _ Hal). case_decide; eauto.
  - exists n1, ((c, y) :: n2). rewrite Hr. split_and!; [done..| |].
    + eapply Forall_impl; [done|]. cbn. intros [] ?. bool_to_prop. lia.
    + intros ??? [= <- <- <-]. by bool_to_prop.
  - exists ns, []. rewrite Hr, app_nil_r. split_and!; [done..| |done].
    eapply Forall_impl; [done|]. cbn. intros [] ?. bool_to_prop. lia.
Qed.

Lemma listnode_add_sort_spec cmp l ns x :
  list_ok l ns →
  ∃ p l' ns1 ns2, ns = ns1 ++ ns2 ∧ listnode_add_sort cmp x l = Ok (tt, l') ∧
    list_ok l' (ns1 ++ (p, x) :: ns2) ∧
    match cmp with
    | Some cmp => Forall (λ e, 0 ≤ cmp x e.2) ns1 ∧ (∀ c y ns3, ns2 = (c, y) :: ns3 → cmp x y < 0)
    | None => ns2 = []
    end.
Proof.
  intros Hok. pose proof Hok as [Hrep _]. destruct (alloc_spec x l) as (p & l1 & H1 & Hal).
  destruct (sort_point_spec cmp l l1 p x ns Hal Hrep) as (ns1 & ns2 & -> & Hpt & Hcmp).
  assert (∃ l', (match headp ns2 with Some n => add_before p n | None => add_tail p end) l1 = Ok (tt, l') ∧
    list_ok l' (ns1 ++ (p, x) :: ns2)) as (l' & Hrun & Hok').
  { destruct ns2 as [|[c y] ns3]; [|by eapply add_before_spec].
    rewrite app_nil_r in Hok. by eapply add_tail_spec. }
  exists p, l', ns1, ns2. split_and!; [done| |done..].
  unfold listnode_add_sort. erewrite st_bind_Ok by exact H1. by erewrite st_bind_Ok by exact Hpt.
Qed.

(** Removal of a node, as list_delete_node and listnode_delete do it. *)
Lemma list_delete_node_spec l ns p x ms :
  list_ok l (ns ++ (p, x) :: ms) →
  ∃ l', list_delete_node p l = Ok (tt, l') ∧ list_ok l' (ns ++ ms).
Proof.
  intros [Hrep Hc]. destruct (dl_unlink_spec _ _ _ _ _ Hrep) as (l1 & H1 & Hc1 & Hfree).
  unfold list_delete_node. erewrite st_bind_Ok by exact H1.
  erewrite st_bind_Ok by apply count_add_spec.
  destruct (Hfree (u32 (d_count l1 + -1))) as (l2 & H2 & Hrep2 & Hc2).
  exists l2. split; [done|]. split; [done|]. rewrite Hc2, Hc1, Hc, u32_step, !length_app.
  f_equal. cbn. lia.
Qed.

Lemma delete_loop_spec fuel l ns pv :
  dseg (d_nodes l) pv ns None → NoDup ns.*1 → (length ns ≤ fuel)%nat →
  ∃ l', delete_loop fuel (headp ns) l = Ok (ns.*2, l') ∧
    ∀ q, d_nodes l' !! q = if decide (q ∈ ns.*1) then None else d_nodes l !! q.
Proof.
  revert l ns pv. induction fuel as [|fuel IH]; intros l [|[p x] ns] pv Hs Hnd Hf;
    cbn in Hf; try lia; [by exists l..|].
  destruct Hs as [Hp Hs]. cbn in Hnd. apply NoDup_cons in Hnd as [Hpn Hnd].
  cbn [headp head fmap option_fmap option_map fst delete_loop].
  erewrite st_bind_Ok by (unfold dl_read; by rewrite Hp).
  erewrite st_bind_Ok by (unfold dl_free; by rewrite Hp).
  cbn [d_next d_data]. rewrite from_option_None.
  set (l1 := Dlist _ _ _ _). destruct (IH l1 ns (Some p)) as (l' & Hrun & Hl').
  { eapply dseg_ext; [|done]. intros q Hq. cbn. rewrite lookup_delete_ne by congruence. done. }
  { done. } { lia. }
  exists l'. split; [by erewrite st_bind_Ok by exact Hrun|]. intros q. rewrite Hl'. cbn.
  destruct (decide (q ∈ ns.*1)); [by rewrite decide_True by (by right)|].
  destruct (decide (q = p)) as [->|].
  - rewrite decide_True by left. apply lookup_delete_eq.
  - rewrite decide_False, lookup_delete_ne by set_solver. done.
Qed.
End Linklist.

(** listnode_add_sort keeps a sorted list sorted: the new data goes behind all
    data that does not come after it, nothing else moves, and head, tail, back
    pointers and count stay right. *)
Theorem listnode_add_sort_sorted {A} (cmp : A → A → Z) `{!Comparison cmp} (l : dlist A) ns x :
  list_ok l ns → StronglySorted (λ a b, cmp a b ≤ 0) ns.*2 →
  ∃ p l' ns1 ns2, listnode_add_sort (Some cmp) x l = Ok (tt, l') ∧ ns = ns1 ++ ns2 ∧
    list_ok l' (ns1 ++ (p, x) :: ns2) ∧ Forall (λ y, 0 ≤ cmp x y) ns1.*2 ∧
    StronglySorted (λ a b, cmp a b ≤ 0) (ns1 ++ (p, x) :: ns2).*2.
Proof.
  intros Hok Hsort.
  destruct (listnode_add_sort_spec (Some cmp) l ns x Hok) as (p & l' & ns1 & ns2 & -> & Hrun & Hok' & H1 & H2).
  exists p, l', ns1, ns2. rewrite fmap_app in Hsort. rewrite fmap_app.
  assert (Forall (λ y, 0 ≤ cmp x y) ns1.*2) as H1' by (by apply Forall_fmap).
  split_and!; [done..|]. cbn.
  apply StronglySorted_app in Hsort as (Hcross & Hs1 & Hs2).
  apply StronglySorted_app. split_and!.
  - intros a b Ha Hb. apply elem_of_cons in Hb as [->|Hb]; [|by apply Hcross].
    rewrite Forall_forall in H1'. specialize (H1' a Ha). cbn in H1'. pose proof (cmp_flip x a). lia.
  - done.
  - constructor; [done|]. destruct ns2 as [|[c y] ns3]; [constructor|].
    specialize (H2 c y ns3 eq_refl). cbn in Hs2 |- *. apply StronglySorted_inv in Hs2 as [_ Hy].
    constructor; [lia|]. eapply Forall_impl; [exact Hy|]. intros z Hz. eapply cmp_trans; [|exact Hz]. lia.
Qed.

(** listnode_delete removes the first node that carries the data and leaves a
    list without the data alone; the count follows. *)
Theorem listnode_delete_first {A} `{EqDecision A} (l : dlist A) ns x :
  list_ok l ns →
  ∃ l', listnode_delete x l = Ok (tt, l') ∧
    ((∃ ns1 p ns2, ns = ns1 ++ (p, x) :: ns2 ∧ (x ∉ ns1.*2) ∧ list_ok l' (ns1 ++ ns2)) ∨
     ((x ∉ ns.*2) ∧ l' = l)).
Proof.
  intros Hok. pose proof Hok as [Hrep _].
  assert (∀ ms : list (positive * A), Forall (λ e, bool_decide (e.2 = x) = false) ms → x ∉ ms.*2) as Hno.
  { intros ms Hms (e & -> & He)%list_elem_of_fmap. rewrite Forall_forall in Hms.
    specialize (Hms e He). by apply bool_decide_eq_false in Hms. }
  unfold listnode_delete.
  destruct (dl_search_spec (λ y, bool_decide (y = x)) l ns Hrep)
    as [(n1 & p & y & n2 & -> & H1 & Hy & Hr)|[Hall Hr]]; erewrite st_bind_Ok by exact Hr.
  - apply bool_decide_eq_true in Hy as ->.
    destruct (list_delete_node_spec l n1 p x n2 Hok) as (l' & Hrun & Hok').
    exists l'. split; [exact Hrun|]. left. exists n1, p, n2. eauto.
  - exists l. split; [done|]. right. eauto.
Qed.

(** listnode_add_after at the front of a list puts the data first, but leaves
    the count as it was: the count no longer agrees with the list. *)
Theorem listnode_add_after_count {A} (l : dlist A) ns x :
  list_ok l ns →
  ∃ p l', listnode_add_after None x l = Ok (tt, l') ∧ dl_rep l' ((p, x) :: ns) ∧
    d_count l' = d_count l ∧ ¬ list_ok l' ((p, x) :: ns).
Proof.
  intros [Hrep Hc]. destruct (rep_ends _ _ Hrep) as (_ & Hhead & _).
  destruct (alloc_spec x l) as (p & l1 & H1 & Hal). pose proof Hal as [Hp Hh1 Ht1 Hc1 Hn1].
  unfold listnode_add_after. erewrite st_bind_Ok by exact H1. erewrite st_bind_Ok by reflexivity.
  rewrite Hh1, (dl_head _ _ Hrep).
  destruct (dl_link_prev_spec (headp ns) (Some p) l1) as (l2 & H2 & Ht2 & Hh2 & Hc2 & Hn2).
  { intros q Hq. destruct (alloc_other l l1 p x q Hal (Hhead q Hq)) as [_ ->]. by apply Hhead. }
  assert (headp ns ≠ Some p) as Hhp by (intros Hq; by destruct (alloc_other _ _ _ _ p Hal (Hhead p Hq))).
  erewrite st_bind_Ok by exact H2.
  destruct (dl_write_spec p (with_next (headp ns)) l2) as (l3 & H3 & Hh3 & Ht3 & Hc3 & Hn3).
  { rewrite Hn2, (alloc_new _ _ _ _ Hal). cbn. eauto. }
  erewrite st_bind_Ok by exact H3.
  destruct (dl_write_spec p (with_prev None) l3) as (l4 & H4 & Hh4 & Ht4 & Hc4 & Hn4).
  { rewrite Hn3, Hn2, (alloc_new _ _ _ _ Hal). cbn. eauto. }
  erewrite st_bind_Ok by exact H4. unfold dl_set_head. eexists p, _. split; [done|].
  assert (dl_rep (Dlist (Some p) (d_tail l4) (d_count l4) (d_nodes l4)) ((p, x) :: ns)) as Hrep'.
  { apply (rep_inserted l _ [] ns p x Hrep Hp). split_and!; cbn; [done|by rewrite Ht4, Ht3, Ht2, Ht1|].
    intros q. rewrite Hn4, Hn3, Hn2, Hn1. destruct (decide (q = p)) as [->|Hne].
    - rewrite (if_at_ne (headp ns)), !if_at_eq by done. done.
    - rewrite !(if_at_ne (Some p)), (if_at_ne None) by congruence. by destruct (d_nodes l !! q). }
  split_and!; [done|cbn; congruence|]. intros [_ Hbad]. cbn in Hbad.
  rewrite Hc4, Hc3, Hc2, Hc1, Hc in Hbad. unfold u32 in Hbad. dm_lia.
Qed.

(** list_delete_all_node hands the data to the callback in order and frees every node. *)
Theorem list_delete_all_node_frees {A} (l : dlist A) ns :
  list_ok l ns → ∃ l', list_delete_all_node l = Ok (ns.*2, l') ∧ list_ok l' [] ∧ d_nodes l' = ∅.
Proof.
  intros [Hrep _]. unfold list_delete_all_node. erewrite st_bind_Ok by reflexivity.
  rewrite (dl_head _ _ Hrep).
  destruct (delete_loop_spec (size (d_nodes l)) l ns None) as (l' & Hrun & Hl');
    [apply (dl_seg _ _ Hrep)|apply (dl_nodup _ _ Hrep)|by apply dl_rep_size|].
  erewrite st_bind_Ok by exact Hrun. unfold dl_set_head, dl_set_tail, dl_set_count.
  repeat erewrite st_bind_Ok by reflexivity.
  assert (d_nodes l' = ∅) as He.
  { apply map_empty. intros q. rewrite Hl'. destruct (decide _) as [|Hn]; [done|].
    apply eq_None_not_Some. intros Hq. by apply (dl_dom _ _ Hrep) in Hq. }
  eexists. split; [done|]. split; [|done]. split; [|done].
  split; cbn; try done; [constructor|]. rewrite He. by intros p [].
Qed.

(** * Examples *)

Definition ex_list : dlist Z :=
  match (listnode_add 3;; listnode_add 7) list_new with Ok (_, l) => l | Fail _ => list_new end.

Lemma list_new_ok : list_ok (list_new : dlist Z) [].
Proof. split; [|done]. split; cbn; try done; [constructor|by intros p []]. Qed.

Lemma ex_list_ok : ∃ p q, list_ok ex_list [(p, 3); (q, 7)].
Proof.
  destruct (listnode_add_spec list_new [] 3 list_new_ok) as (p & l1 & H1 & Hok1).
  destruct (listnode_add_spec l1 _ 7 Hok1) as (q & l2 & H2 & Hok2). exists p, q.
  assert ((listnode_add 3;; listnode_add 7) list_new = Ok (tt, l2)) as Hrun
    by (by erewrite st_bind_Ok by exact H1).
  unfold ex_list. by rewrite Hrun.
Qed.

Lemma listnode_add_sort_sorted_witness :
  ∃ l', listnode_add_sort (Some Z.sub) 5 ex_list = Ok (tt, l').
Proof.
  destruct ex_list_ok as (p & q & Hok).
  destruct (listnode_add_sort_sorted Z.sub ex_list _ 5 Hok) as (r & l' & _ & _ & Hrun & _).
  - cbn. repeat constructor; lia.
  - exists l'. exact Hrun.
Defined.

Lemma listnode_delete_first_witness : ∃ l', listnode_delete 7 ex_list = Ok (tt, l').
Proof.
  destruct ex_list_ok as (p & q & Hok).
  destruct (listnode_delete_first ex_list _ 7 Hok) as (l' & Hrun & _). exists l'. exact Hrun.
Defined.

Lemma listnode_add_after_count_witness :
  ∃ l', listnode_add_after None 1 ex_list = Ok (tt, l') ∧ d_count l' = 2.
Proof.
  destruct ex_list_ok as (p & q & Hok).
  destruct (listnode_add_after_count ex_list _ 1 Hok) as (r & l' & Hrun & _ & Hc & _).
  exists l'. split; [exact Hrun|]. rewrite Hc. by vm_compute.
Defined.
