(* ===== verification/Plist.v ===== *)
(** Prefix lists: lib/plist.c.

    A prefix list is a doubly linked list of entries in the order of their
    sequence numbers; the prefix lists of an address family hang off a master,
    in one list for names made of digits and one for the others.  The state of
    the functions below is the master.  The hooks are functions of the daemons:
    a call of one is recorded in [m_calls].  [seqnum] and [rangecount], which
    nothing here reads, are not kept. *)

From Stdlib Require Import Ascii.
From stdpp Require Import strings sorting.
From S2P Require Import Prelude Prefix Stream Dlist.

Inductive prefix_list_type := PREFIX_DENY | PREFIX_PERMIT.
Inductive prefix_name_type := PREFIX_TYPE_STRING | PREFIX_TYPE_NUMBER.

#[export] Instance prefix_list_type_eq_dec : EqDecision prefix_list_type.
Proof. solve_decision. Defined.

Record prefix_list_entry := Pentry {
  pe_seq : Z;
  pe_le : Z;
  pe_ge : Z;
  pe_type : prefix_list_type;
  pe_any : bool;
  pe_prefix : prefix;
  pe_refcnt : Z;
  pe_hitcnt : Z;
}.

Definition set_seq (s : Z) (e : prefix_list_entry) : prefix_list_entry :=
  Pentry s (pe_le e) (pe_ge e) (pe_type e) (pe_any e) (pe_prefix e) (pe_refcnt e) (pe_hitcnt e).
Definition bump_refcnt (e : prefix_list_entry) : prefix_list_entry :=
  Pentry (pe_seq e) (pe_le e) (pe_ge e) (pe_type e) (pe_any e) (pe_prefix e)
    (u64 (pe_refcnt e + 1)) (pe_hitcnt e).
Definition bump_hitcnt (e : prefix_list_entry) : prefix_list_entry :=
  Pentry (pe_seq e) (pe_le e) (pe_ge e) (pe_type e) (pe_any e) (pe_prefix e)
    (pe_refcnt e) (u64 (pe_hitcnt e + 1)).

Abbreviation entries := (dlist prefix_list_entry).

Record prefix_list := PrefixList {
  pl_name : string;
  pl_desc : option string;
  pl_type : prefix_name_type;
  pl_entries : entries;
}.

Definition set_entries (es : entries) (pl : prefix_list) : prefix_list :=
  PrefixList (pl_name pl) (pl_desc pl) (pl_type pl) es.

(** A prefix list, by the list of the master it is in and its address. *)
Definition plist_ref : Type := prefix_name_type * positive.

Inductive hook_call :=
  | AddHook (plist : plist_ref)
  | DeleteHook (plist : option plist_ref).

Record prefix_master := Master {
  m_num : dlist prefix_list;
  m_str : dlist prefix_list;
  m_recent : option plist_ref;
  m_add_hook : bool;
  m_delete_hook : bool;
  m_calls : list hook_call;
}.

(** ** Entries *)

(** [plist->count] is an int. *)
Definition count_step (d : Z) : ST entries unit :=
  l ← st_get;
  dl_set_count (s32 (d_count l + d)).

Definition prefix_list_entry_make (p : prefix) (type : prefix_list_type) (seq le ge : Z)
    (any : bool) : res prefix_list_entry :=
  q ← prefix_copy prefix_new p;
  Ok (Pentry seq le ge type any q 0 0).

(** A walk over the entries that folds a function over them. *)
Fixpoint fold_entries {X} (fuel : nat) (f : X → prefix_list_entry → X) (x : X)
    (p : option positive) (h : gmap positive (dnode prefix_list_entry)) : res X :=
  match p, fuel with
  | None, _ => Ok x
  | Some _, O => Fail OutOfFuel
  | Some p, S fuel =>
      n ← of_option UseAfterFree (h !! p);
      fold_entries fuel f (f x (d_data n)) (d_next n) h
  end.

Definition prefix_new_seq_get : ST entries Z := λ l,
  maxseq ← fold_entries (size (d_nodes l)) (λ m e, if m <? pe_seq e then pe_seq e else m) 0
             (d_head l) (d_nodes l);
  Ok (s32 (Z.quot maxseq 5 * 5 + 5), l).

Definition prefix_seq_check (seq : Z) : ST entries (option positive) :=
  dl_search (λ e, pe_seq e =? seq).

Definition prefix_list_entry_lookup (p : prefix) (type : prefix_list_type) (seq le ge : Z) :
    ST entries (option positive) :=
  dl_search (λ e,
    prefix_same (pe_prefix e) p && bool_decide (pe_type e = type) &&
    negb ((0 <=? seq) && negb (pe_seq e =? seq)) &&
    (pe_le e =? le) && (pe_ge e =? ge)).

(** prefix_list_entry_delete without the update of the list it is in: the
    unlinking, the free and the count. *)
Definition entry_remove (pentry : positive) : ST entries unit :=
  dl_unlink pentry;;
  dl_free pentry;;
  count_step (-1).

(** The pointer statements of prefix_list_entry_add: the entry goes before
    [point], or to the tail when there is none. *)
Definition entry_link (pentry : positive) (point : option positive) : ST entries unit :=
  dl_write pentry (with_next point);;
  match point with
  | Some pt =>
      n ← dl_read pt;
      dl_link_next (d_prev n) (Some pentry);;
      n ← dl_read pt;
      dl_write pentry (with_prev (d_prev n));;
      dl_write pt (with_prev (Some pentry))
  | None =>
      l ← st_get;
      dl_link_next (d_tail l) (Some pentry);;
      dl_write pentry (with_prev (d_tail l));;
      dl_set_tail (Some pentry)
  end.

(** prefix_list_entry_add up to the hook: the number, the entry it replaces, the
    place, the count.  The entry that prefix_list_entry_make returned is a value
    until it is linked in, which is where it gets its address here. *)
Definition entry_add (e : prefix_list_entry) : ST entries unit :=
  seq ← (if pe_seq e =? -1 then prefix_new_seq_get else mret (pe_seq e));
  let e := set_seq seq e in
  replace ← prefix_seq_check seq;
  match replace with
  | Some r => entry_remove r
  | None => mret tt
  end;;
  point ← dl_search (λ x, seq <=? pe_seq x);
  pentry ← dl_alloc e;
  entry_link pentry point;;
  count_step 1.

Definition prefix_list_entry_match (e : prefix_list_entry) (p : prefix) : res bool :=
  ret ← prefix_match (pe_prefix e) p;
  if negb ret then Ok false
  else if (pe_le e =? 0) && (pe_ge e =? 0) then
    Ok (prefixlen (pe_prefix e) =? prefixlen p)
  else if negb (pe_le e =? 0) && (prefixlen p >? pe_le e) then Ok false
  else if negb (pe_ge e =? 0) && (prefixlen p <? pe_ge e) then Ok false
  else Ok true.

(** The loop of prefix_list_apply. *)
Fixpoint apply_loop (fuel : nat) (p : prefix) (pentry : option positive) :
    ST entries prefix_list_type :=
  match pentry, fuel with
  | None, _ => mret PREFIX_DENY
  | Some _, O => st_fail OutOfFuel
  | Some id, S fuel =>
      dl_write id (λ n, with_data (bump_refcnt (d_data n)) n);;
      n ← dl_read id;
      m ← st_lift (prefix_list_entry_match (d_data n) p);
      if (m : bool) then
        dl_write id (λ n, with_data (bump_hitcnt (d_data n)) n);;
        mret (pe_type (d_data n))
      else apply_loop fuel p (d_next n)
  end.

(** prefix_list_apply on a list that exists. *)
Definition entries_apply (p : prefix) : ST entries prefix_list_type :=
  l ← st_get;
  if d_count l =? 0 then mret PREFIX_PERMIT
  else apply_loop (size (d_nodes l)) p (d_head l).

Definition prefix_entry_dup_check (new : prefix_list_entry) : ST entries (option positive) :=
  seq ← (if pe_seq new =? -1 then prefix_new_seq_get else mret (pe_seq new));
  dl_search (λ e,
    prefix_same (pe_prefix e) (pe_prefix new) && bool_decide (pe_type e = pe_type new) &&
    (pe_le e =? pe_le new) && (pe_ge e =? pe_ge new) && negb (pe_seq e =? seq)).

(** ** The lists of a master *)

Definition set_num (l : dlist prefix_list) (m : prefix_master) : prefix_master :=
  Master l (m_str m) (m_recent m) (m_add_hook m) (m_delete_hook m) (m_calls m).
Definition set_str (l : dlist prefix_list) (m : prefix_master) : prefix_master :=
  Master (m_num m) l (m_recent m) (m_add_hook m) (m_delete_hook m) (m_calls m).

(** Work on one of the two lists of the master. *)
Definition on_lists {X} (t : prefix_name_type) (f : ST (dlist prefix_list) X) : ST prefix_master X := λ m,
  match t with
  | PREFIX_TYPE_NUMBER => '(x, l) ← f (m_num m); Ok (x, set_num l m)
  | PREFIX_TYPE_STRING => '(x, l) ← f (m_str m); Ok (x, set_str l m)
  end.

(** Work on the entries of one prefix list. *)
Definition on_entries {X} (r : plist_ref) (f : ST entries X) : ST prefix_master X :=
  on_lists (fst r) (
    n ← dl_read (snd r);
    '(x, es) ← st_lift (f (pl_entries (d_data n)));
    dl_write (snd r) (λ n, with_data (set_entries es (d_data n)) n);;
    mret x).

Definition set_recent (r : option plist_ref) : ST prefix_master unit := λ m,
  Ok (tt, Master (m_num m) (m_str m) r (m_add_hook m) (m_delete_hook m) (m_calls m)).
Definition call_add_hook (r : plist_ref) : ST prefix_master unit := λ m,
  Ok (tt, if m_add_hook m
          then Master (m_num m) (m_str m) (m_recent m) true (m_delete_hook m) (m_calls m ++ [AddHook r])
          else m).
Definition call_delete_hook (r : option plist_ref) : ST prefix_master unit := λ m,
  Ok (tt, if m_delete_hook m
          then Master (m_num m) (m_str m) (m_recent m) (m_add_hook m) true (m_calls m ++ [DeleteHook r])
          else m).

Definition prefix_list_lookup (name : option string) : ST prefix_master (option plist_ref) :=
  match name with
  | None => mret None
  | Some name =>
      r ← on_lists PREFIX_TYPE_NUMBER (dl_search (λ pl, bool_decide (pl_name pl = name)));
      match r with
      | Some p => mret (Some (PREFIX_TYPE_NUMBER, p))
      | None =>
          r ← on_lists PREFIX_TYPE_STRING (dl_search (λ pl, bool_decide (pl_name pl = name)));
          mret ((λ p, (PREFIX_TYPE_STRING, p)) <$> r)
      end
  end.

(** The four ways prefix_list_insert links the new list in. *)
Definition plist_link (plist : positive) (point : option positive) : ST (dlist prefix_list) unit := dl_link_at plist point.

Definition prefix_list_insert (name : string) : ST prefix_master plist_ref :=
  let t := if all_digit name then PREFIX_TYPE_NUMBER else PREFIX_TYPE_STRING in
  p ← on_lists t (
    point ← dl_search (λ pl,
      match t with
      | PREFIX_TYPE_NUMBER => digits_value 0 name <=? atoi (pl_name pl)
      | PREFIX_TYPE_STRING => 0 <=? strcmp (pl_name pl) name
      end);
    p ← dl_alloc (PrefixList name None t dl_empty);
    plist_link p point;;
    mret p);
  mret (t, p).

Definition prefix_list_get (name : string) : ST prefix_master plist_ref :=
  r ← prefix_list_lookup (Some name);
  match r with
  | Some r => mret r
  | None => prefix_list_insert name
  end.

(** The loop of prefix_list_delete over the entries. *)
Fixpoint free_entries (fuel : nat) (pentry : option positive) : ST entries unit :=
  match pentry, fuel with
  | None, _ => mret tt
  | Some _, O => st_fail OutOfFuel
  | Some p, S fuel =>
      n ← dl_read p;
      dl_free p;;
      count_step (-1);;
      free_entries fuel (d_next n)
  end.

Definition prefix_list_delete (r : plist_ref) : ST prefix_master unit :=
  on_entries r (l ← st_get; free_entries (size (d_nodes l)) (d_head l));;
  on_lists (fst r) (
    n ← dl_read (snd r);
    dl_link_prev (d_next n) (d_prev n);;
    n ← dl_read (snd r);
    dl_link_next (d_prev n) (d_next n));;
  set_recent None;;
  on_lists (fst r) (dl_free (snd r));;
  call_delete_hook None.

Definition prefix_list_entry_delete (r : plist_ref) (pentry : positive) (update_list : bool) :
    ST prefix_master unit :=
  on_entries r (entry_remove pentry);;
  if update_list then
    call_delete_hook (Some r);;
    n ← on_lists (fst r) (dl_read (snd r));
    let pl := d_data n in
    match d_head (pl_entries pl), d_tail (pl_entries pl), pl_desc pl with
    | None, None, None => prefix_list_delete r
    | _, _, _ => set_recent (Some r)
    end
  else mret tt.

Definition prefix_list_entry_add (r : plist_ref) (e : prefix_list_entry) : ST prefix_master unit :=
  on_entries r (entry_add e);;
  call_add_hook r;;
  set_recent (Some r).

Definition prefix_list_apply (r : option plist_ref) (p : prefix) : ST prefix_master prefix_list_type :=
  match r with
  | None => mret PREFIX_DENY
  | Some r => on_entries r (entries_apply p)
  end.

(** ** Commands

    The text printed to the terminal is left out; [true] is CMD_SUCCESS and
    [false] CMD_WARNING. *)

Section Commands.
Context (inet_aton : string → option (list Z)).
Context (inet_pton6 : string → option (list Z)).

(** [strncmp ("permit", typestr, 1)] and [strncmp ("deny", typestr, 1)]. *)
Definition parse_type (typestr : string) : option prefix_list_type :=
  match typestr with
  | String "p" _ => Some PREFIX_PERMIT
  | String "d" _ => Some PREFIX_DENY
  | _ => None
  end.

(** [strncmp ("any", prefix, strlen (prefix)) == 0]. *)
Definition is_any (prefix : string) : bool := String.prefix prefix "any".

(** The prefix of a command, with its ge and le values: the token "any" sets
    them.  [None] for a malformed prefix. *)
Definition parse_prefix (afi : Z) (prefix : string) (genum lenum : Z) :
    option (Prefix.prefix * Z * Z * bool) :=
  if afi =? AFI_IP then
    if is_any prefix then
      let '(ret, p) := str2prefix_ipv4 inet_aton "0.0.0.0/0" prefix_new in
      if ret then Some (p, 0, IPV4_MAX_BITLEN, true) else None
    else
      let '(ret, p) := str2prefix_ipv4 inet_aton prefix prefix_new in
      if ret then Some (p, genum, lenum, false) else None
  else if afi =? AFI_IP6 then
    if is_any prefix then
      let '(ret, p) := str2prefix_ipv6 inet_pton6 "::/0" prefix_new in
      if ret then Some (p, 0, IPV6_MAX_BITLEN, true) else None
    else
      let '(ret, p) := str2prefix_ipv6 inet_pton6 prefix prefix_new in
      if ret then Some (p, genum, lenum, false) else None
  else Some (prefix_new, genum, lenum, false).

(** The checks of the ge and le values, [true] when they are in order. *)
Definition range_ok (len genum lenum : Z) : bool :=
  negb (negb (genum =? 0) && (genum <=? len)) &&
  negb (negb (lenum =? 0) && (lenum <=? len)) &&
  negb (negb (lenum =? 0) && (lenum <? genum)).

Definition vty_prefix_list_install (afi : Z) (name : string) (seq : option string)
    (typestr prefix : string) (ge le : option string) : ST prefix_master bool :=
  let seqnum := from_option atoi (-1) seq in
  let genum := from_option atoi 0 ge in
  let lenum := from_option atoi 0 le in
  match parse_type typestr with
  | None => mret false
  | Some type =>
      match parse_prefix afi prefix genum lenum with
      | None => mret false
      | Some (p, genum, lenum, any) =>
          if negb (range_ok (prefixlen p) genum lenum) then mret false
          else
            let lenum := if negb (genum =? 0) && (lenum =? (if afi =? AFI_IP then 32 else 128))
                         then 0 else lenum in
            plist ← prefix_list_get name;
            e ← st_lift (prefix_list_entry_make p type seqnum lenum genum any);
            dup ← on_entries plist (prefix_entry_dup_check e);
            match dup with
            | Some _ => mret false
            | None => prefix_list_entry_add plist e;; mret true
            end
      end
  end.

Definition vty_prefix_list_uninstall (afi : Z) (name : string) (seq : option string)
    (typestr prefix : option string) (ge le : option string) : ST prefix_master bool :=
  plist ← prefix_list_lookup (Some name);
  match plist with
  | None => mret false
  | Some plist =>
      match seq, typestr, prefix, ge, le with
      | None, None, None, None, None => prefix_list_delete plist;; mret true
      | _, _, _, _, _ =>
          let seqnum := from_option atoi (-1) seq in
          let genum := from_option atoi 0 ge in
          let lenum := from_option atoi 0 le in
          typestr ← st_lift (of_option NullDeref typestr);
          match parse_type typestr with
          | None => mret false
          | Some type =>
              prefix ← st_lift (of_option NullDeref prefix);
              match parse_prefix afi prefix genum lenum with
              | None => mret false
              | Some (p, genum, lenum, _) =>
                  pentry ← on_entries plist (prefix_list_entry_lookup p type seqnum lenum genum);
                  match pentry with
                  | None => mret false
                  | Some pentry => prefix_list_entry_delete plist pentry true;; mret true
                  end
              end
          end
      end
  end.

(** An entry of a route refresh message; the master is that of the ORF lists. *)
Record orf_prefix := Orf { o_seq : Z; o_ge : Z; o_le : Z; o_p : Prefix.prefix }.

Definition prefix_bgp_orf_set (name : string) (afi : Z) (orfp : orf_prefix) (permit set : bool) :
    ST prefix_master bool :=
  if negb (range_ok (prefixlen (o_p orfp)) (o_ge orfp) (o_le orfp)) then mret false
  else
    let le := if negb (o_ge orfp =? 0) && (o_le orfp =? (if afi =? AFI_IP then 32 else 128))
              then 0 else o_le orfp in
    let type := if permit then PREFIX_PERMIT else PREFIX_DENY in
    plist ← prefix_list_get name;
    if set then
      e ← st_lift (prefix_list_entry_make (o_p orfp) type (s32 (o_seq orfp)) le (o_ge orfp) false);
      dup ← on_entries plist (prefix_entry_dup_check e);
      match dup with
      | Some _ => mret false
      | None => prefix_list_entry_add plist e;; mret true
      end
    else
      pentry ← on_entries plist (prefix_list_entry_lookup (o_p orfp) type (s32 (o_seq orfp)) le (o_ge orfp));
      match pentry with
      | None => mret false
      | Some pentry => prefix_list_entry_delete plist pentry true;; mret true
      end.

Definition prefix_bgp_orf_remove_all (name : string) : ST prefix_master unit :=
  plist ← prefix_list_lookup (Some name);
  match plist with
  | Some plist => prefix_list_delete plist
  | None => mret tt
  end.

(** prefix_bgp_orf_entry: one entry of a message for each entry of the list. *)
Fixpoint orf_loop (fuel : nat) (init_flag permit_flag deny_flag : Z)
    (h : gmap positive (dnode prefix_list_entry)) (pentry : option positive) : ST stream unit :=
  match pentry, fuel with
  | None, _ => mret tt
  | Some _, O => st_fail OutOfFuel
  | Some id, S fuel =>
      n ← st_lift (of_option UseAfterFree (h !! id));
      let e := d_data n in
      let flag := u8 (Z.lor init_flag
        (match pe_type e with PREFIX_PERMIT => permit_flag | PREFIX_DENY => deny_flag end)) in
      stream_putc flag;;
      stream_putl (u32 (pe_seq e));;
      stream_putc (u8 (pe_ge e));;
      stream_putc (u8 (pe_le e));;
      stream_put_prefix (pe_prefix e);;
      orf_loop fuel init_flag permit_flag deny_flag h (d_next n)
  end.

Definition prefix_bgp_orf_entry (plist : option entries) (init_flag permit_flag deny_flag : Z) :
    ST stream unit :=
  match plist with
  | None => mret tt
  | Some l => orf_loop (size (d_nodes l)) init_flag permit_flag deny_flag (d_nodes l) (d_head l)
  end.
End Commands.

(** * Facts *)

(** An entry list in good order: linked, counted, in strictly ascending order of
    sequence numbers. *)
Record entries_ok (l : entries) (ns : list (positive * prefix_list_entry)) : Prop := EntriesOk {
  eo_rep : dl_rep l ns;
  eo_count : d_count l = Z.of_nat (length ns);
  eo_max : Z.of_nat (length ns) < 2^31 - 1;
  eo_sorted : StronglySorted Z.lt (pe_seq <$> ns.*2);
}.

Lemma counted_id {A} (l : dlist A) : counted (d_count l) l = l.
Proof. by destruct l. Qed.

Lemma entry_remove_spec l ns p x ms :
  dl_rep l (ns ++ (p, x) :: ms) →
  ∃ l', entry_remove p l = Ok (tt, l') ∧ dl_rep l' (ns ++ ms) ∧ d_count l' = s32 (d_count l - 1).
Proof.
  intros Hrep. destruct (dl_unlink_spec _ _ _ _ _ Hrep) as (l1 & H1 & Hc1 & Hfree).
  destruct (Hfree (d_count l1)) as (l2 & H2 & Hrep2 & Hc2). rewrite counted_id in H2.
  unfold entry_remove. erewrite st_bind_Ok by exact H1. erewrite st_bind_Ok by exact H2.
  unfold count_step. erewrite st_bind_Ok by reflexivity. unfold dl_set_count.
  eexists. split; [done|]. split; [by destruct Hrep2|]. cbn. by rewrite Hc2, Hc1.
Qed.

Lemma entry_link_spec l l1 p e ns ms :
  allocated l l1 p e → dl_rep l (ns ++ ms) →
  ∃ l', entry_link p (headp ms) l1 = Ok (tt, l') ∧ dl_rep l' (ns ++ (p, e) :: ms) ∧
    d_count l' = d_count l.
Proof.
  intros Hal Hrep. pose proof Hal as [Hp Hh1 Ht1 Hc1 Hn1]. unfold entry_link.
  destruct (dl_write_spec p (with_next (headp ms)) l1) as (l2 & H2 & Hh2 & Ht2 & Hc2 & Hn2).
  { rewrite (alloc_new _ _ _ _ Hal). eauto. }
  erewrite st_bind_Ok by exact H2.
  destruct (rep_ends _ _ Hrep) as (Hlast & _ & _).
  assert (∀ q, q ∈ (ns ++ ms).*1 → q ≠ p ∧ d_nodes l2 !! q = d_nodes l !! q) as Hold.
  { intros q Hq. destruct (alloc_other _ _ _ _ q Hal) as [Hne Hq1].
    { eapply dseg_lookup; [apply (dl_seg _ _ Hrep)|done]. }
    split; [done|]. rewrite Hn2, Hq1, if_at_ne by congruence. by destruct (d_nodes l !! q). }
  assert (∀ q, lastp ns = Some q → q ≠ p ∧ is_Some (d_nodes l2 !! q)) as Hlastns.
  { intros q Hq%lastp_elem. assert (q ∈ (ns ++ ms).*1) as Hq' by (rewrite fmap_app; set_solver).
    destruct (Hold q Hq') as [? ->]. split; [done|].
    eapply dseg_lookup; [apply (dl_seg _ _ Hrep)|done]. }
  destruct (dl_link_next_spec (lastp ns) (Some p) l2) as (l3 & H3 & Hh3 & Ht3 & Hc3 & Hn3).
  { intros q Hq. by apply Hlastns. }
  assert (lastp ns ≠ Some p) as Hlp by (intros Hq; by destruct (Hlastns p Hq)).
  assert (d_nodes l3 !! p = Some (Dnode e (headp ms) None)) as H3p.
  { rewrite Hn3, if_at_ne, Hn2, if_at_eq, (alloc_new _ _ _ _ Hal) by done. done. }
  destruct (dl_write_spec p (with_prev (lastp ns)) l3) as (l4 & H4 & Hh4 & Ht4 & Hc4 & Hn4);
    [rewrite H3p; eauto|].
  destruct ms as [|[c y] ms]; cbn [headp head fmap option_fmap option_map fst] in *.
  - rewrite app_nil_r in *. erewrite st_bind_Ok by reflexivity.
    rewrite Ht2, Ht1, (dl_tail _ _ Hrep). erewrite st_bind_Ok by exact H3.
    erewrite st_bind_Ok by exact H4. unfold dl_set_tail. eexists. split; [done|]. split; [|cbn; congruence].
    apply (rep_inserted l _ ns [] p e); [by rewrite app_nil_r|done|].
    split_and!; cbn; [by rewrite Hh4, Hh3, Hh2, Hh1|done|].
    intros q. rewrite Hn4, Hn3, Hn2, Hn1. destruct (decide (q = p)) as [->|Hne].
    + rewrite (if_at_ne (lastp ns)), !if_at_eq by done. done.
    + rewrite !(if_at_ne (Some p)), (if_at_ne None) by congruence. by destruct (d_nodes l !! q).
  - destruct (shape_node_at _ _ _ _ _ (rep_shape _ _ Hrep)) as (Hcn & Hlc & _).
    destruct (Hold c) as [Hcp H2c]; [rewrite fmap_app; set_solver|]. rewrite Hcn in H2c.
    erewrite st_bind_Ok by (unfold dl_read; by rewrite H2c). cbn [d_prev].
    erewrite st_bind_Ok by exact H3.
    assert (d_nodes l3 !! c = Some (Dnode y (headp ms) (lastp ns))) as H3c
      by (rewrite Hn3, H2c, if_at_ne by done; done).
    erewrite st_bind_Ok by (unfold dl_read; by rewrite H3c). cbn [d_prev].
    erewrite st_bind_Ok by exact H4.
    destruct (dl_write_spec c (with_prev (Some p)) l4) as (l5 & H5 & Hh5 & Ht5 & Hc5 & Hn5).
    { rewrite Hn4, H3c. cbn. eauto. }
    exists l5. split; [done|]. split; [|congruence]. apply (rep_inserted l _ ns); [done..|].
    split_and!; cbn; [by rewrite Hh5, Hh4, Hh3, Hh2, Hh1|congruence|].
    intros q. rewrite Hn5, Hn4, Hn3, Hn2, Hn1. destruct (decide (q = p)) as [->|Hne].
    + rewrite (if_at_ne (Some c)), (if_at_ne (lastp ns)), !if_at_eq by congruence. done.
    + rewrite !(if_at_ne (Some p)) by congruence. destruct (d_nodes l !! q); [|done]. cbn. f_equal.
      unfold if_at. by repeat destruct (decide _).
Qed.

(** ** Numbers *)

Lemma fold_entries_spec {X} (f : X → prefix_list_entry → X) fuel h pv ns x :
  dseg h pv ns None → (length ns ≤ fuel)%nat →
  fold_entries fuel f x (headp ns) h = Ok (foldl f x ns.*2).
Proof.
  revert fuel pv x. induction ns as [|[p e] ns IH]; intros fuel pv x Hs Hf; [by destruct fuel|].
  destruct fuel as [|fuel]; [cbn in Hf; lia|]. destruct Hs as [Hp Hs].
  cbn [headp head fmap option_fmap option_map fst fold_entries]. rewrite Hp.
  cbn [of_option mbind res_bind d_next d_data]. rewrite from_option_None.
  erewrite IH; [done|done|cbn in Hf; lia].
Qed.

Definition max_seq (es : list prefix_list_entry) : Z :=
  foldl (λ m e, if m <? pe_seq e then pe_seq e else m) 0 es.

Lemma max_seq_ge m es :
  let r := foldl (λ m e, if m <? pe_seq e then pe_seq e else m) m es in
  m ≤ r ∧ Forall (λ e, pe_seq e ≤ r) es.
Proof.
  revert m. induction es as [|e es IH]; intros m; cbn; [split; [lia|constructor]|].
  destruct (IH (if m <? pe_seq e then pe_seq e else m)) as [H1 H2].
  destruct (Z.ltb_spec m (pe_seq e)); (split; [lia|constructor; [lia|done]]).
Qed.

Lemma prefix_new_seq_get_spec l ns :
  dl_rep l ns → max_seq ns.*2 < 2^31 - 8 →
  ∃ s, prefix_new_seq_get l = Ok (s, l) ∧ 5 ≤ s ∧ s < 2^31 ∧ Forall (λ e, pe_seq e < s) ns.*2.
Proof.
  intros Hrep Hmax. unfold prefix_new_seq_get. rewrite (dl_head _ _ Hrep).
  erewrite fold_entries_spec; [|apply (dl_seg _ _ Hrep)|by apply dl_rep_size]. cbn [mbind res_bind].
  fold (max_seq ns.*2). destruct (max_seq_ge 0 ns.*2) as [H0 Hall]. fold (max_seq ns.*2) in H0, Hall.
  set (m := max_seq ns.*2) in *. rewrite Z.quot_div_nonneg by lia.
  assert (5 ≤ m / 5 * 5 + 5 ∧ m / 5 * 5 + 5 < 2^31 ∧ m < m / 5 * 5 + 5) as (H1 & H2 & H3) by dm_lia.
  rewrite s32_id by (unfold is_s32; lia). eexists. split_and!; [done|done|done|].
  eapply Forall_impl; [exact Hall|]. cbn. lia.
Qed.

(** ** Insertion *)

(** The entries with [e] put at its place, in place of an entry of its number. *)
Definition put_entry (e : prefix_list_entry) (es : list prefix_list_entry) : list prefix_list_entry :=
  filter (λ x, pe_seq x < pe_seq e) es ++ e :: filter (λ x, pe_seq e < pe_seq x) es.

Lemma filter_keep {A} (P : A → Prop) `{!∀ x, Decision (P x)} l : Forall P l → filter P l = l.
Proof. induction 1; [done|]. rewrite filter_cons, decide_True by done. congruence. Qed.
Lemma filter_drop {A} (P : A → Prop) `{!∀ x, Decision (P x)} l : Forall (λ x, ¬ P x) l → filter P l = [].
Proof. induction 1; [done|]. rewrite filter_cons, decide_False by done. congruence. Qed.

Lemma put_entry_split e es1 es2 :
  Forall (λ x, pe_seq x < pe_seq e) es1 → Forall (λ x, pe_seq e < pe_seq x) es2 →
  put_entry e (es1 ++ es2) = es1 ++ e :: es2.
Proof.
  intros H1 H2. unfold put_entry. rewrite !filter_app.
  rewrite (filter_keep _ es1), (filter_drop _ es2), (filter_drop _ es1), (filter_keep _ es2);
    [by rewrite app_nil_r|..]; try done; eapply Forall_impl; try done; cbn; lia.
Qed.

(** The entry that is replaced makes no difference. *)
Lemma put_entry_mid e es1 x es2 :
  pe_seq x = pe_seq e → put_entry e (es1 ++ x :: es2) = put_entry e (es1 ++ es2).
Proof.
  intros Hx. unfold put_entry. rewrite !filter_app, !filter_cons.
  by rewrite !decide_False by lia.
Qed.

Lemma sorted_mid (es1 es2 : list prefix_list_entry) x :
  StronglySorted Z.lt (pe_seq <$> (es1 ++ x :: es2)) →
  Forall (λ y, pe_seq y < pe_seq x) es1 ∧ Forall (λ y, pe_seq x < pe_seq y) es2 ∧
  StronglySorted Z.lt (pe_seq <$> (es1 ++ es2)).
Proof.
  rewrite !fmap_app. cbn. intros (Hc & H1 & H2)%StronglySorted_app.
  apply StronglySorted_inv in H2 as [H2 Hx]. split_and!.
  - apply Forall_forall. intros y Hy. apply Hc; [by apply list_elem_of_fmap_2|left].
  - by apply (Forall_fmap pe_seq (λ z, pe_seq x < z)).
  - apply StronglySorted_app. split_and!; [|done..]. intros a b Ha Hb. apply Hc; [done|by right].
Qed.

Lemma sorted_join (es1 es2 : list prefix_list_entry) e :
  StronglySorted Z.lt (pe_seq <$> (es1 ++ es2)) →
  Forall (λ y, pe_seq y < pe_seq e) es1 → Forall (λ y, pe_seq e < pe_seq y) es2 →
  StronglySorted Z.lt (pe_seq <$> (es1 ++ e :: es2)).
Proof.
  rewrite !fmap_app. intros (Hc & H1 & H2)%StronglySorted_app Hlt Hgt.
  apply StronglySorted_app. cbn. split_and!.
  - intros a b Ha [->|Hb]%elem_of_cons; [|by apply Hc].
    apply list_elem_of_fmap in Ha as (y & -> & Hy). rewrite Forall_forall in Hlt. by apply Hlt.
  - done.
  - constructor; [done|]. by apply (Forall_fmap pe_seq (λ z, pe_seq e < z)).
Qed.

(** The place prefix_list_entry_add finds in a list without the number [s]. *)
Lemma point_spec l ns s :
  dl_rep l ns → StronglySorted Z.lt (pe_seq <$> ns.*2) → Forall (λ x, pe_seq x ≠ s) ns.*2 →
  ∃ ns1 ns2, ns = ns1 ++ ns2 ∧ dl_search (λ x, s <=? pe_seq x) l = Ok (headp ns2, l) ∧
    Forall (λ x, pe_seq x < s) ns1.*2 ∧ Forall (λ x, s < pe_seq x) ns2.*2.
Proof.
  intros Hrep Hsort Hne.
  destruct (dl_search_spec (λ x, s <=? pe_seq x) l ns Hrep)
    as [(n1 & p & x & n2 & -> & H1 & Hx & Hr)|[Hall Hr]].
  - exists n1, ((p, x) :: n2). split_and!; [done..| |].
    + apply Forall_fmap. eapply Forall_impl; [exact H1|]. cbn. intros [] ?. bool_to_prop. cbn in *. lia.
    + bool_to_prop. rewrite fmap_app in Hsort. cbn in Hsort.
      destruct (sorted_mid n1.*2 n2.*2 x Hsort) as (_ & Hgt & _).
      rewrite fmap_app, Forall_app in Hne. cbn in Hne. destruct Hne as [_ [Hxs _]%Forall_cons].
      cbn. constructor; [lia|]. eapply Forall_impl; [exact Hgt|]. cbn. lia.
  - exists ns, []. rewrite app_nil_r. split_and!; [done..| |constructor].
    apply Forall_fmap. eapply Forall_impl; [exact Hall|]. cbn. intros [] ?. bool_to_prop. cbn in *. lia.
Qed.

(** The removal of the entry with the number [s], if there is one. *)
Lemma replace_spec l ns s :
  entries_ok l ns →
  ∃ l' ns', (replace ← prefix_seq_check s;
             match replace with Some r => entry_remove r | None => mret tt end) l = Ok (tt, l') ∧
    entries_ok l' ns' ∧ Forall (λ x, pe_seq x ≠ s) ns'.*2 ∧ (length ns' ≤ length ns)%nat ∧
    ∀ e, pe_seq e = s → put_entry e ns'.*2 = put_entry e ns.*2.
Proof.
  intros [Hrep Hc Hmax Hsort]. unfold prefix_seq_check.
  destruct (dl_search_spec (λ x, pe_seq x =? s) l ns Hrep)
    as [(n1 & r & x & n2 & -> & H1 & Hx & Hr)|[Hall Hr]].
  - destruct (entry_remove_spec l n1 r x n2 Hrep) as (la & Hrm & Hrepa & Hca).
    apply Z.eqb_eq in Hx. rewrite fmap_app in Hsort. cbn in Hsort.
    destruct (sorted_mid n1.*2 n2.*2 x Hsort) as (Hlt & Hgt & Hsort').
    rewrite <-fmap_app in Hsort'. rewrite !length_app in *. cbn [length] in *.
    exists la, (n1 ++ n2). split_and!.
    + by erewrite st_bind_Ok by exact Hr.
    + split; [done| |rewrite length_app; lia|done].
      rewrite Hca, Hc, length_app, s32_id by (unfold is_s32; lia). lia.
    + rewrite fmap_app. apply Forall_app. split; eapply Forall_impl; try done; cbn; lia.
    + rewrite length_app. lia.
    + intros e He. rewrite !fmap_app. cbn. symmetry. apply put_entry_mid. congruence.
  - exists l, ns. split_and!; [by erewrite st_bind_Ok by exact Hr|done| |done|done].
    apply Forall_fmap. eapply Forall_impl; [exact Hall|]. cbn. intros [] ?. by bool_to_prop.
Qed.

(** The part of prefix_list_entry_add that follows the choice of the number. *)
Lemma entry_add_at l ns s e :
  entries_ok l ns → Z.of_nat (length ns) < 2^31 - 2 →
  ∃ l' ns', (replace ← prefix_seq_check s;
             match replace with Some r => entry_remove r | None => mret tt end;;
             point ← dl_search (λ x, s <=? pe_seq x);
             pentry ← dl_alloc (set_seq s e);
             entry_link pentry point;;
             count_step 1) l = Ok (tt, l') ∧
    entries_ok l' ns' ∧ ns'.*2 = put_entry (set_seq s e) ns.*2.
Proof.
  intros Hok Hlen. destruct (replace_spec l ns s Hok) as (la & nsa & Ha & Hoka & Hna & Hla & Hput).
  destruct Hoka as [Hrepa Hca Hmaxa Hsa].
  destruct (point_spec la nsa s Hrepa Hsa Hna) as (a & b & -> & Hpt & Hlt & Hgt).
  destruct (alloc_spec (set_seq s e) la) as (p & lb & Hb & Hal).
  destruct (entry_link_spec la lb p _ a b Hal Hrepa) as (lc & Hlk & Hrepc & Hcc).
  exists (counted (s32 (d_count lc + 1)) lc), (a ++ (p, set_seq s e) :: b).
  rewrite length_app in *. split_and!.
  - unfold mbind, ST_bind in Ha |- *. destruct (prefix_seq_check s l) as [[r l0]|]; [|done].
    rewrite Ha, Hpt, Hb, Hlk. reflexivity.
  - split; cbn.
    + by destruct Hrepc.
    + rewrite Hcc, Hca, !length_app. cbn [length]. rewrite s32_id by (unfold is_s32; lia). lia.
    + rewrite length_app. cbn [length]. lia.
    + rewrite fmap_app in *. cbn. by apply sorted_join.
  - rewrite <-(Hput (set_seq s e) eq_refl), !fmap_app. symmetry. by apply put_entry_split.
Qed.

(** ** Matching *)

(** What an entry says of a prefix: it lies below the prefix of the entry, and
    its length is that of the entry, or in the range that ge and le give. *)
Definition entry_matches (e : prefix_list_entry) (p : prefix) : Prop :=
  pbits (pe_prefix e) `prefix_of` pbits p ∧
  if decide (pe_le e = 0 ∧ pe_ge e = 0) then prefixlen p = prefixlen (pe_prefix e)
  else (pe_le e ≠ 0 → prefixlen p ≤ pe_le e) ∧ (pe_ge e ≠ 0 → pe_ge e ≤ prefixlen p).

#[export] Instance entry_matches_dec e p : Decision (entry_matches e p).
Proof. apply and_dec; [apply _|]. destruct (decide (_ ∧ _)); apply _. Defined.

Lemma prefix_list_entry_match_spec e p :
  prefix_wf (pe_prefix e) → prefix_wf p →
  prefix_list_entry_match e p = Ok (bool_decide (entry_matches e p)).
Proof.
  intros He Hp. unfold prefix_list_entry_match. rewrite prefix_match_pbits by done.
  cbn [mbind res_bind]. unfold entry_matches.
  destruct (bool_decide_reflect (pbits (pe_prefix e) `prefix_of` pbits p)) as [Hin|Hout]; cbn [negb].
  2:{ rewrite bool_decide_eq_false_2; [done|]. naive_solver. }
  rewrite Z.gtb_ltb.
  destruct (Z.eqb_spec (pe_le e) 0), (Z.eqb_spec (pe_ge e) 0); cbn [andb negb].
  - destruct (Z.eqb_spec (prefixlen (pe_prefix e)) (prefixlen p)); f_equal; symmetry;
      [apply bool_decide_eq_true_2|apply bool_decide_eq_false_2]; destruct (decide _); naive_solver.
  - destruct (Z.ltb_spec (prefixlen p) (pe_ge e)); f_equal; symmetry;
      [apply bool_decide_eq_false_2|apply bool_decide_eq_true_2]; destruct (decide _); naive_solver lia.
  - destruct (Z.ltb_spec (pe_le e) (prefixlen p)); f_equal; symmetry;
      [apply bool_decide_eq_false_2|apply bool_decide_eq_true_2]; destruct (decide _); naive_solver lia.
  - destruct (Z.ltb_spec (pe_le e) (prefixlen p)), (Z.ltb_spec (prefixlen p) (pe_ge e)); f_equal; symmetry;
      (apply bool_decide_eq_false_2 || apply bool_decide_eq_true_2); destruct (decide _); naive_solver lia.
Qed.

(** The entries as a filter: the first one that matches decides. *)
Fixpoint first_match (es : list prefix_list_entry) (p : prefix) : option prefix_list_type :=
  match es with
  | [] => None
  | e :: es => if decide (entry_matches e p) then Some (pe_type e) else first_match es p
  end.

(** What does not change when the counters of an entry do. *)
Definition same_policy (e e' : prefix_list_entry) : Prop :=
  pe_seq e' = pe_seq e ∧ pe_le e' = pe_le e ∧ pe_ge e' = pe_ge e ∧ pe_type e' = pe_type e ∧
  pe_any e' = pe_any e ∧ pe_prefix e' = pe_prefix e.

Definition same_entries (ns ns' : list (positive * prefix_list_entry)) : Prop :=
  Forall2 (λ a b, fst b = fst a ∧ same_policy (snd a) (snd b)) ns ns'.

Lemma same_entries_refl ns : same_entries ns ns.
Proof. apply Forall2_same_length_lookup_2; [done|]. intros. simplify_eq. by split_and!. Qed.

Lemma apply_loop_spec fuel p l pre ns :
  dl_rep l (pre ++ ns) → (length ns ≤ fuel)%nat → prefix_wf p →
  Forall (λ e, prefix_wf (pe_prefix e)) ns.*2 →
  ∃ l' ns', apply_loop fuel p (headp ns) l = Ok (default PREFIX_DENY (first_match ns.*2 p), l') ∧
    dl_rep l' (pre ++ ns') ∧ same_entries ns ns' ∧ d_count l' = d_count l.
Proof.
  intros Hrep Hf Hp Hwf. revert fuel l pre Hrep Hf Hwf.
  induction ns as [|[id e] ns IH]; intros fuel l pre Hrep Hf Hwf.
  { exists l, []. split_and!; [by destruct fuel|done|constructor|done]. }
  destruct fuel as [|fuel]; [cbn in Hf; lia|].
  cbn in Hwf. apply Forall_cons in Hwf as [Hwe Hwf].
  destruct (dl_write_data l pre id e ns bump_refcnt Hrep) as (l1 & H1 & Hrep1 & Hc1 & Hn1).
  cbn [headp head fmap option_fmap option_map fst apply_loop].
  erewrite st_bind_Ok by exact H1. erewrite st_bind_Ok by (unfold dl_read; by rewrite Hn1).
  erewrite st_bind_Ok.
  2:{ unfold st_lift. cbn [d_data]. by rewrite prefix_list_entry_match_spec. }
  assert (entry_matches (bump_refcnt e) p ↔ entry_matches e p) as Hiff by done.
  cbn [list_fmap snd first_match].
  destruct (decide (entry_matches e p)) as [Hm|Hm].
  - rewrite bool_decide_eq_true_2 by done.
    destruct (dl_write_data l1 pre id _ ns bump_hitcnt Hrep1) as (l2 & H2 & Hrep2 & Hc2 & _).
    erewrite st_bind_Ok by exact H2.
    exists l2, ((id, bump_hitcnt (bump_refcnt e)) :: ns). split_and!; [done|done| |congruence].
    constructor; [by split_and!|apply same_entries_refl].
  - rewrite bool_decide_eq_false_2 by done. cbn [d_next].
    destruct (IH fuel l1 (pre ++ [(id, bump_refcnt e)])) as (l' & ns' & Hrun & Hrep' & Hsame & Hc');
      [by rewrite <-app_assoc|cbn in Hf; lia|done|].
    exists l', ((id, bump_refcnt e) :: ns'). split_and!; [exact Hrun|by rewrite <-app_assoc in Hrep'| |congruence].
    constructor; [by split_and!|done].
Qed.

(** * Properties *)

(** prefix_list_entry_add puts an entry at the place its sequence number
    gives, in place of an entry of the same number: the list stays linked,
    counted and in strictly ascending order. *)
Theorem entry_add_sorted l ns e :
  entries_ok l ns → Z.of_nat (length ns) < 2^31 - 2 → pe_seq e ≠ -1 →
  ∃ l' ns', entry_add e l = Ok (tt, l') ∧ entries_ok l' ns' ∧ ns'.*2 = put_entry e ns.*2.
Proof.
  intros Hok Hlen Hseq. destruct (entry_add_at l ns (pe_seq e) e Hok Hlen) as (l' & ns' & Hrun & Hok' & Hns).
  exists l', ns'. unfold entry_add. rewrite (proj2 (Z.eqb_neq _ _)) by done.
  erewrite st_bind_Ok by reflexivity. split_and!; [exact Hrun|done|]. rewrite Hns. by destruct e.
Qed.

(** An entry without a number gets one above all numbers of the list and so
    goes to the end. *)
Theorem entry_add_auto l ns e :
  entries_ok l ns → Z.of_nat (length ns) < 2^31 - 2 → pe_seq e = -1 → max_seq ns.*2 < 2^31 - 8 →
  ∃ l' ns' s, entry_add e l = Ok (tt, l') ∧ entries_ok l' ns' ∧ 5 ≤ s ∧
    ns'.*2 = ns.*2 ++ [set_seq s e].
Proof.
  intros Hok Hlen Hseq Hmax. pose proof Hok as [Hrep _ _ _].
  destruct (prefix_new_seq_get_spec l ns Hrep Hmax) as (s & Hs & H5 & _ & Hall).
  destruct (entry_add_at l ns s e Hok Hlen) as (l' & ns' & Hrun & Hok' & Hns).
  exists l', ns', s. unfold entry_add. rewrite (proj2 (Z.eqb_eq _ _)) by done.
  erewrite st_bind_Ok by exact Hs. split_and!; [exact Hrun|done|done|]. rewrite Hns.
  rewrite <-(app_nil_r ns.*2) at 1. by apply put_entry_split.
Qed.

(** C30: prefix_list_apply is first match in the order of the sequence numbers: the
    first entry whose prefix and length range fit decides, no fitting entry
    denies, an empty list permits; apart from the counters of the entries nothing
    changes. *)
Theorem entries_apply_first_match l ns p :
  entries_ok l ns → prefix_wf p → Forall (λ e, prefix_wf (pe_prefix e)) ns.*2 →
  ∃ l' ns', entries_apply p l =
      Ok (if decide (ns = []) then PREFIX_PERMIT else default PREFIX_DENY (first_match ns.*2 p), l') ∧
    dl_rep l' ns' ∧ same_entries ns ns' ∧ d_count l' = d_count l.
Proof.
  intros [Hrep Hc _ _] Hp Hwf. unfold entries_apply. erewrite st_bind_Ok by reflexivity. rewrite Hc.
  destruct (decide (ns = [])) as [->|Hne].
  - exists l, []. split_and!; [done|done|constructor|done].
  - rewrite (proj2 (Z.eqb_neq _ 0)) by (destruct ns; [done|cbn; lia]). rewrite <-Hc, (dl_head _ _ Hrep).
    apply (apply_loop_spec _ p l [] ns); [done|by apply dl_rep_size|done|done].
Qed.

(** ** Commands *)

Definition empty_master : prefix_master := Master dl_empty dl_empty None false false [].

(** The master after "ip prefix-list lab seq 5 permit 10.0.0.0/8 ge 24 le 32". *)
Definition lab_master : prefix_master := Eval vm_compute in
  match vty_prefix_list_install quad_aton (λ _, None) AFI_IP "lab" (Some "5") "permit" "10.0.0.0/8"
          (Some "24") (Some "32") empty_master with
  | Ok (_, m) => m
  | Fail _ => empty_master
  end.

(** The command that removes an entry does not find an entry that was given
    with both ge and the largest le: the command that makes it drops the le value
    (prefix_bgp_orf_set drops it on both paths), the one that removes it does
    not, and the entry stays. *)
Theorem uninstall_misses_max_le :
  ∃ m, vty_prefix_list_install quad_aton (λ _, None) AFI_IP "lab" (Some "5") "permit" "10.0.0.0/8"
         (Some "24") (Some "32") empty_master = Ok (true, m) ∧
    vty_prefix_list_uninstall quad_aton (λ _, None) AFI_IP "lab" (Some "5") (Some "permit")
      (Some "10.0.0.0/8") (Some "24") (Some "32") m = Ok (false, m) ∧
    size (d_nodes (m_str m)) = 1%nat.
Proof. exists lab_master. split_and!; by vm_compute. Qed.

(** * Examples *)

Definition ex_entry (s : Z) : prefix_list_entry :=
  Pentry s 24 0 PREFIX_PERMIT false (Prefix AF_INET 8 ([10] ++ replicate 15 0)) 0 0.

Lemma entries_empty_ok : entries_ok dl_empty [].
Proof.
  split; [|done|done|constructor]. split; cbn; try done; [constructor|by intros p []].
Qed.

Lemma entry_add_sorted_witness :
  ∃ l' ns', entry_add (ex_entry 10) dl_empty = Ok (tt, l') ∧ entries_ok l' ns' ∧ ns'.*2 = [ex_entry 10].
Proof.
  exact (entry_add_sorted dl_empty [] (ex_entry 10) entries_empty_ok ltac:(by vm_compute) ltac:(done)).
Defined.

Lemma entry_add_auto_witness : ∃ l' ns' s, entry_add (ex_entry (-1)) dl_empty = Ok (tt, l') ∧
  entries_ok l' ns' ∧ 5 ≤ s ∧ ns'.*2 = [set_seq s (ex_entry (-1))].
Proof.
  exact (entry_add_auto dl_empty [] (ex_entry (-1)) entries_empty_ok ltac:(by vm_compute) eq_refl
    ltac:(by vm_compute)).
Defined.

Lemma entries_apply_first_match_witness :
  ∃ l ns l', entries_ok l ns ∧ entries_apply (Prefix AF_INET 16 ([10; 1] ++ replicate 14 0)) l
    = Ok (PREFIX_PERMIT, l').
Proof.
  destruct (entry_add_at dl_empty [] 10 (ex_entry 10) entries_empty_ok ltac:(by vm_compute))
    as (l & ns & _ & Hok & Hns). exists l, ns.
  destruct (entries_apply_first_match l ns (Prefix AF_INET 16 ([10; 1] ++ replicate 14 0)) Hok)
    as (l' & _ & Hrun & _).
  - split; [by apply bytes_ok_decide|by vm_compute].
  - rewrite Hns. cbn. constructor; [|constructor]. split; [by apply bytes_ok_decide|by vm_compute].
  - exists l'. split; [exact Hok|]. rewrite Hrun. destruct ns; [discriminate Hns|].
    cbn [decide]. rewrite Hns. by vm_compute.
Defined.
