(* ===== verification/Filter.v ===== *)
(** Access lists: lib/filter.c.

    The access lists of an address family are kept in two sorted lists, by number and by
    name; each has its filters in the order in which they were configured.  The hook
    functions are recorded as calls. *)

From stdpp Require Import strings sorting.
From S2P Require Import Prelude Prefix Dlist.

(** * Data *)

Inductive filter_type := FILTER_DENY | FILTER_PERMIT | FILTER_DYNAMIC.
Inductive access_type := ACCESS_TYPE_STRING | ACCESS_TYPE_NUMBER.

#[export] Instance filter_type_eq_dec : EqDecision filter_type.
Proof. solve_decision. Defined.
#[export] Instance access_type_eq_dec : EqDecision access_type.
Proof. solve_decision. Defined.

Record filter_cisco := FilterCisco {
  fc_extended : bool;
  fc_addr : list Z;
  fc_addr_mask : list Z;
  fc_mask : list Z;
  fc_mask_mask : list Z;
}.

Record filter_zebra := FilterZebra {
  fz_exact : bool;
  fz_prefix : prefix;
}.

(** The flag [cisco] tells which member of the union is there. *)
Record filter := Filter {
  f_type : filter_type;
  f_u : filter_cisco + filter_zebra;
}.

Record access_list := AccessList {
  acl_name : string;
  acl_remark : option string;
  acl_type : access_type;
  acl_filters : dlist filter;
}.

(** An access list, by the list of the master it is in and its address. *)
Definition access_ref : Type := access_type * positive.

Inductive access_hook :=
  | AccessAdd (r : access_ref)
  | AccessDelete (r : access_ref).

Record access_master := AccessMaster {
  am_num : dlist access_list;
  am_str : dlist access_list;
  am_add_hook : bool;
  am_delete_hook : bool;
  am_calls : list access_hook;
}.

(** * Matching *)

(** [a & ~m], octet by octet. *)
Definition and_not (a m : list Z) : list Z := zip_with (λ x y, Z.land x (255 - y)) a m.

Definition filter_match_cisco (f : filter_cisco) (p : prefix) : res bool :=
  let check_addr := and_not (take 4 (u p)) (fc_addr_mask f) in
  if fc_extended f then
    mask ← masklen2ip (prefixlen p);
    let check_mask := and_not mask (fc_mask_mask f) in
    Ok (bool_decide (check_addr = fc_addr f) && bool_decide (check_mask = fc_mask f))
  else Ok (bool_decide (check_addr = fc_addr f)).

Definition filter_match_zebra (f : filter_zebra) (p : prefix) : res bool :=
  if family (fz_prefix f) =? family p then
    if fz_exact f then
      if prefixlen (fz_prefix f) =? prefixlen p then prefix_match (fz_prefix f) p else Ok false
    else prefix_match (fz_prefix f) p
  else Ok false.

Definition filter_match (f : filter) (p : prefix) : res bool :=
  match f_u f with inl c => filter_match_cisco c p | inr z => filter_match_zebra z p end.

(** The loop of access_list_apply. *)
Fixpoint access_loop (fuel : nat) (p : prefix) (f : option positive) (h : gmap positive (dnode filter)) : res filter_type :=
  match f, fuel with
  | None, _ => Ok FILTER_DENY
  | Some _, O => Fail OutOfFuel
  | Some id, S fuel =>
      n ← of_option UseAfterFree (h !! id);
      m ← filter_match (d_data n) p;
      if (m : bool) then Ok (f_type (d_data n)) else access_loop fuel p (d_next n) h
  end.

Definition access_list_apply (access : option access_list) (p : prefix) : res filter_type :=
  match access with
  | None => Ok FILTER_DENY
  | Some a => access_loop (size (d_nodes (acl_filters a))) p (d_head (acl_filters a)) (d_nodes (acl_filters a))
  end.

(** * The lists of a master *)

Definition set_am_num (l : dlist access_list) (m : access_master) : access_master :=
  AccessMaster l (am_str m) (am_add_hook m) (am_delete_hook m) (am_calls m).
Definition set_am_str (l : dlist access_list) (m : access_master) : access_master :=
  AccessMaster (am_num m) l (am_add_hook m) (am_delete_hook m) (am_calls m).
Definition lists_of (t : access_type) (m : access_master) : dlist access_list :=
  match t with ACCESS_TYPE_NUMBER => am_num m | ACCESS_TYPE_STRING => am_str m end.
Definition set_lists (t : access_type) (l : dlist access_list) (m : access_master) : access_master :=
  match t with ACCESS_TYPE_NUMBER => set_am_num l m | ACCESS_TYPE_STRING => set_am_str l m end.

(** Work on one of the two lists of the master. *)
Definition on_list {X} (t : access_type) (f : ST (dlist access_list) X) : ST access_master X := λ m,
  '(x, l) ← f (lists_of t m); Ok (x, set_lists t l m).

Definition set_filters (fs : dlist filter) (a : access_list) : access_list :=
  AccessList (acl_name a) (acl_remark a) (acl_type a) fs.

(** Work on the filters of one access list. *)
Definition on_filters {X} (r : access_ref) (f : ST (dlist filter) X) : ST access_master X :=
  on_list (fst r) (
    n ← dl_read (snd r);
    '(x, fs) ← st_lift (f (acl_filters (d_data n)));
    dl_write (snd r) (λ n, with_data (set_filters fs (d_data n)) n);;
    mret x).

Definition call_hook (b : access_master → bool) (c : access_hook) : ST access_master unit := λ m,
  Ok (tt, if b m then AccessMaster (am_num m) (am_str m) (am_add_hook m) (am_delete_hook m) (am_calls m ++ [c]) else m).

Definition access_list_insert (name : string) : ST access_master access_ref :=
  let t := if all_digit name then ACCESS_TYPE_NUMBER else ACCESS_TYPE_STRING in
  p ← on_list t (
    point ← dl_search (λ a,
      match t with
      | ACCESS_TYPE_NUMBER => digits_value 0 name <=? atoi (acl_name a)
      | ACCESS_TYPE_STRING => 0 <=? strcmp (acl_name a) name
      end);
    p ← dl_alloc (AccessList name None t dl_empty);
    dl_link_at p point;;
    mret p);
  mret (t, p).

Definition access_list_lookup (name : option string) : ST access_master (option access_ref) :=
  match name with
  | None => mret None
  | Some name =>
      r ← on_list ACCESS_TYPE_NUMBER (dl_search (λ a, bool_decide (acl_name a = name)));
      match r with
      | Some p => mret (Some (ACCESS_TYPE_NUMBER, p))
      | None =>
          r ← on_list ACCESS_TYPE_STRING (dl_search (λ a, bool_decide (acl_name a = name)));
          mret ((λ p, (ACCESS_TYPE_STRING, p)) <$> r)
      end
  end.

Definition access_list_get (name : string) : ST access_master access_ref :=
  r ← access_list_lookup (Some name);
  match r with
  | Some r => mret r
  | None => access_list_insert name
  end.

(** The loop of access_list_delete over the filters. *)
Fixpoint free_filters (fuel : nat) (f : option positive) : ST (dlist filter) unit :=
  match f, fuel with
  | None, _ => mret tt
  | Some _, O => st_fail OutOfFuel
  | Some p, S fuel =>
      n ← dl_read p;
      dl_free p;;
      free_filters fuel (d_next n)
  end.

Definition access_list_delete (r : access_ref) : ST access_master unit :=
  on_filters r (l ← st_get; free_filters (size (d_nodes l)) (d_head l));;
  on_list (fst r) (dl_remove (snd r)).

Definition access_list_filter_add (r : access_ref) (f : filter) : ST access_master unit :=
  on_filters r (
    p ← dl_alloc f;
    dl_write p (with_next None);;
    l ← st_get;
    dl_write p (with_prev (d_tail l));;
    dl_link_next (d_tail l) (Some p);;
    dl_set_tail (Some p));;
  call_hook am_add_hook (AccessAdd r).

Definition access_list_empty (a : access_list) : bool :=
  match d_head (acl_filters a), d_tail (acl_filters a) with None, None => true | _, _ => false end.

(** The hook is called with the list, which may have been freed. *)
Definition access_list_filter_delete (r : access_ref) (f : positive) : ST access_master unit :=
  on_filters r (dl_remove f);;
  n ← on_list (fst r) (dl_read (snd r));
  (if access_list_empty (d_data n) then access_list_delete r else mret tt);;
  call_hook am_delete_hook (AccessDelete r).

(** * What a filter is for *)

(** Two words agree in the bits that the wildcard leaves. *)
Definition agree (wild a b : list Z) : Prop :=
  ∀ k, bits_of wild !! k = Some false → bits_of a !! k = bits_of b !! k.

(** The mask of a length, as bits. *)
Definition covers_filter (f : filter) (p : prefix) : Prop :=
  match f_u f with
  | inl c => agree (fc_addr_mask c) (take 4 (u p)) (fc_addr c) ∧
      (fc_extended c = true → ∀ m, masklen2ip (prefixlen p) = Ok m → agree (fc_mask_mask c) m (fc_mask c))
  | inr z => family (fz_prefix z) = family p ∧ (fz_exact z = true → prefixlen (fz_prefix z) = prefixlen p) ∧
      pbits (fz_prefix z) `prefix_of` pbits p
  end.

(** A filter as the commands make it: no bit is set under the wildcard. *)
Definition masked (a m : list Z) : Prop := ipv4_ok a ∧ ipv4_ok m ∧ and_not a m = a.

Definition filter_ok (f : filter) : Prop :=
  match f_u f with
  | inl c => masked (fc_addr c) (fc_addr_mask c) ∧ (fc_extended c = true → masked (fc_mask c) (fc_mask_mask c))
  | inr z => prefix_wf (fz_prefix z)
  end.

(** ** One octet *)

Lemma complement_bit m i : is_u8 m → 0 ≤ i < 8 → Z.testbit (255 - m) i = negb (Z.testbit m i).
Proof.
  intros Hm Hi. pose proof (byte_forall (λ m, forallb (λ i, Bool.eqb (Z.testbit (255 - m) i) (negb (Z.testbit m i))) (seqZ 0 8)) ltac:(by vm_compute) m Hm) as H.
  cbn beta in H. rewrite forallb_forall in H. apply Bool.eqb_prop, H, list_elem_of_In, elem_of_seqZ. lia.
Qed.

Lemma octet_high x i : is_u8 x → 8 ≤ i → Z.testbit x i = false.
Proof.
  intros Hx Hi. unfold is_u8 in Hx. destruct (decide (x = 0)) as [->|]; [apply Z.bits_0|].
  apply Z.bits_above_log2; [lia|]. apply Z.log2_lt_pow2; [lia|]. apply (Z.lt_le_trans _ (2^8)); [lia|]. by apply Z.pow_le_mono_r.
Qed.

Lemma octet_agree x y m : is_u8 x → is_u8 y → is_u8 m → Z.land y (255 - m) = y →
  Z.land x (255 - m) = y ↔ ∀ i, 0 ≤ i < 8 → Z.testbit m i = false → Z.testbit x i = Z.testbit y i.
Proof.
  intros Hx Hy Hm Hmask. split.
  - intros <- i Hi Hb. by rewrite Z.land_spec, complement_bit, Hb, andb_true_r.
  - intros H. apply Z.bits_inj'. intros i Hi. rewrite Z.land_spec. destruct (decide (i < 8)) as [Hlt|Hge].
    + rewrite complement_bit by done. destruct (Z.testbit m i) eqn:Eb; [|rewrite andb_true_r; apply H; done].
      rewrite <- Hmask, Z.land_spec, complement_bit, Eb by done. by rewrite !andb_false_r.
    + by rewrite (octet_high x), (octet_high y) by (done || lia).
Qed.

Lemma bits_cons_lookup b a k : bits_of (b :: a) !! k = if decide (k < 8)%nat then Some (Z.testbit b (7 - Z.of_nat k)) else bits_of a !! (k - 8)%nat.
Proof.
  change (bits_of (b :: a)) with (byte_bits b ++ bits_of a). assert (Hl : length (byte_bits b) = 8%nat) by done.
  case_decide as Hk.
  - rewrite lookup_app_l by lia. unfold byte_bits. rewrite list_lookup_fmap, lookup_seq_lt by lia. done.
  - rewrite lookup_app_r by lia. by rewrite Hl.
Qed.

Lemma agree_cons m x y ms a c :
  agree (m :: ms) (x :: a) (y :: c) ↔ (∀ i, 0 ≤ i < 8 → Z.testbit m i = false → Z.testbit x i = Z.testbit y i) ∧ agree ms a c.
Proof.
  split.
  - intros H. split.
    + intros i Hi Hm. specialize (H (Z.to_nat (7 - i))). rewrite !bits_cons_lookup in H.
      rewrite !decide_True in H by lia. replace (7 - Z.of_nat (Z.to_nat (7 - i))) with i in H by lia. rewrite Hm in H. by injection (H eq_refl).
    + intros k Hk. specialize (H (k + 8)%nat). rewrite !bits_cons_lookup in H. rewrite !decide_False in H by lia.
      replace (k + 8 - 8)%nat with k in H by lia. auto.
  - intros [H1 H2] k. rewrite !bits_cons_lookup. case_decide; [|apply H2]. intros [= Hm]. f_equal. apply H1; [lia|done].
Qed.

(** Comparing what the wildcard leaves is comparing these bits. *)
Lemma and_not_agree a m c : bytes_ok a → bytes_ok m → bytes_ok c → length a = length m → length c = length m → and_not c m = c →
  and_not a m = c ↔ agree m a c.
Proof.
  revert m c. induction a as [|x a IH]; intros [|y m] [|w c] Ha Hm Hc H1 H2; try done.
  unfold bytes_ok in *. rewrite !Forall_cons in *. cbn in H1, H2. cbn. intros [= Hw Hrest]. rewrite agree_cons.
  rewrite <- (octet_agree x w y) by tauto. rewrite <- (IH m c) by (tauto || lia || done). unfold and_not.
  split; [intros H; by injection H|intros [E1 E2]; congruence].
Qed.

(** ** Matching *)

Definition addressed (p : prefix) : Prop := prefix_wf p ∧ (4 ≤ length (u p))%nat ∧ prefixlen p ≤ 32.

Lemma masklen2ip_ok n : 0 ≤ n ≤ 32 → ∃ m, masklen2ip n = Ok m ∧ ipv4_ok m.
Proof.
  intros Hn. assert (H : forallb (λ k, match masklen2ip (Z.of_nat k) with Ok m => bool_decide (bytes_ok m ∧ length m = 4%nat) | _ => false end) (seq 0 33) = true)
    by (by vm_compute).
  rewrite forallb_forall in H. specialize (H (Z.to_nat n)). rewrite Z2Nat.id in H by lia.
  destruct (masklen2ip n) as [m|]; [exists m|]; [split; [done|]|]; (ospecialize (H _); [apply in_seq; lia|]); [by apply bool_decide_eq_true in H|done].
Qed.

Lemma filter_match_run f p : filter_ok f → addressed p → ∃ b, filter_match f p = Ok b ∧ (b = true ↔ covers_filter f p).
Proof.
  intros Hf (Hp & Hl & H32). unfold filter_match, covers_filter, filter_ok in *. destruct (f_u f) as [c|zf].
  - destruct Hf as [(Ha & Hm & Hmask) Hext]. assert (Hu : ipv4_ok (take 4 (u p))).
    { split; [apply Forall_take; apply Hp|]. rewrite length_take. lia. }
    assert (Haddr : bool_decide (and_not (take 4 (u p)) (fc_addr_mask c) = fc_addr c) = true ↔ agree (fc_addr_mask c) (take 4 (u p)) (fc_addr c)).
    { rewrite bool_decide_eq_true. destruct Ha, Hm, Hu. apply and_not_agree; done || congruence. }
    unfold filter_match_cisco. destruct (fc_extended c).
    + destruct (masklen2ip_ok (prefixlen p)) as (m & Hmm & Hmok); [split; [apply Hp|done]|]. rewrite Hmm. cbn [mbind res_bind].
      destruct (Hext eq_refl) as (Ha' & Hm' & Hmask'). eexists. split; [done|]. rewrite andb_true_iff, Haddr, bool_decide_eq_true.
      assert (Hiff : and_not m (fc_mask_mask c) = fc_mask c ↔ agree (fc_mask_mask c) m (fc_mask c)).
      { destruct Ha', Hm', Hmok. apply and_not_agree; done || congruence. }
      rewrite Hiff. split; [intros [? ?]; split; [done|]; by intros _ ? [= <-]|]. intros [? H]. split; [done|]. by apply H.
    + eexists. split; [done|]. rewrite Haddr. split; [by intros ?|by intros [? _]].
  - unfold filter_match_zebra. destruct (Z.eqb_spec (family (fz_prefix zf)) (family p)) as [Ef|Ef]; [|exists false; split; [done|]; split; [done|by intros [? _]]].
    rewrite prefix_match_pbits by done. destruct (fz_exact zf).
    + destruct (Z.eqb_spec (prefixlen (fz_prefix zf)) (prefixlen p)) as [El|El].
      * eexists. split; [done|]. rewrite bool_decide_eq_true. split; [intros ?; by split_and!|by intros (_ & _ & ?)].
      * exists false. split; [done|]. split; [done|]. intros (_ & H & _). by destruct El, H.
    + eexists. split; [done|]. rewrite bool_decide_eq_true. split; [intros ?; by split_and!|by intros (_ & _ & ?)].
Qed.

(** What the first filter that covers a prefix says. *)
Definition decides (fs : list filter) (p : prefix) (t : filter_type) : Prop :=
  (∃ fs1 f fs2, fs = fs1 ++ f :: fs2 ∧ Forall (λ g, ¬ covers_filter g p) fs1 ∧ covers_filter f p ∧ t = f_type f) ∨
  (Forall (λ g, ¬ covers_filter g p) fs ∧ t = FILTER_DENY).

Lemma access_loop_run h p ns : ∀ pv fuel, dseg h pv ns None → (length ns ≤ fuel)%nat → Forall filter_ok ns.*2 → addressed p →
  ∃ t, access_loop fuel p (headp ns) h = Ok t ∧ decides ns.*2 p t.
Proof.
  induction ns as [|[id f] ns IH]; intros pv fuel Hs Hf Hok Hp.
  { exists FILTER_DENY. split; [by destruct fuel|by right]. }
  destruct fuel as [|fuel]; [cbn in Hf; lia|]. destruct Hs as [Hn Hs]. change (((id, f) :: ns).*2) with (f :: ns.*2) in *. apply Forall_cons in Hok as [Hf1 Hok].
  change (headp ((id, f) :: ns)) with (Some id). cbn [access_loop]. rewrite Hn. cbn [of_option mbind res_bind d_data d_next].
  destruct (filter_match_run f p Hf1 Hp) as (b & -> & Hb). cbn [mbind res_bind]. destruct b.
  - exists (f_type f). split; [done|]. left. exists [], f, (ns.*2). split_and!; try done. by apply Hb.
  - rewrite from_option_None. destruct (IH (Some id) fuel) as (t & Hrun & Hd); [done|cbn in Hf; lia|done|done|].
    exists t. split; [done|]. assert (¬ covers_filter f p) as Hn1 by (by rewrite <- Hb).
    destruct Hd as [(f1 & g & f2 & E & H1 & H2 & H3)|[H1 H2]]; [left; rewrite E|right; split; [by constructor|done]].
    exists (f :: f1), g, f2. split_and!; try done. by constructor.
Qed.

(** access_list_apply returns without a fault what the first filter that covers the
    prefix says, and denies what no filter covers; a filter with a wildcard covers the
    prefixes that agree with it in the bits outside of the wildcard (an extended filter in
    the bits of the mask, too), and a filter with a prefix covers the prefixes within it. *)
Theorem access_list_apply_first_match a ns p :
  dl_rep (acl_filters a) ns → Forall filter_ok ns.*2 → addressed p →
  ∃ t, access_list_apply (Some a) p = Ok t ∧ decides ns.*2 p t.
Proof.
  intros Hrep Hok Hp. cbn [access_list_apply]. rewrite (dl_head _ _ Hrep).
  eapply access_loop_run; [apply Hrep|by apply dl_rep_size|done|done].
Qed.

(** * The lists *)

Lemma ascii_eq c1 c2 : Z.of_nat (Ascii.nat_of_ascii c1) - Z.of_nat (Ascii.nat_of_ascii c2) = 0 → c1 = c2.
Proof.
  intros H. rewrite <- (Ascii.ascii_nat_embedding c1), <- (Ascii.ascii_nat_embedding c2). f_equal. lia.
Qed.

Lemma strcmp_refl s : strcmp s s = 0.
Proof. induction s as [|c s IH]; [done|]. cbn. by rewrite Z.sub_diag. Qed.

Lemma strcmp_eq s : ∀ t, strcmp s t = 0 → s = t.
Proof.
  induction s as [|c s IH]; intros [|d t]; cbn; try done. destruct (Z.eqb_spec (Z.of_nat (Ascii.nat_of_ascii c) - Z.of_nat (Ascii.nat_of_ascii d)) 0) as [E|E]; [|done].
  intros H. by rewrite (ascii_eq _ _ E), (IH t H).
Qed.

Lemma strcmp_trans s : ∀ t w, strcmp s t < 0 → strcmp t w < 0 → strcmp s w < 0.
Proof.
  induction s as [|c s IH]; intros [|d t] [|e w]; cbn; try lia.
  destruct (Z.eqb_spec (Z.of_nat (Ascii.nat_of_ascii c) - Z.of_nat (Ascii.nat_of_ascii d)) 0) as [E|E],
    (Z.eqb_spec (Z.of_nat (Ascii.nat_of_ascii d) - Z.of_nat (Ascii.nat_of_ascii e)) 0) as [E'|E'],
    (Z.eqb_spec (Z.of_nat (Ascii.nat_of_ascii c) - Z.of_nat (Ascii.nat_of_ascii e)) 0) as [E''|E'']; try lia. apply IH.
Qed.

Lemma strcmp_flip s : ∀ t, 0 < strcmp s t → strcmp t s < 0.
Proof.
  induction s as [|c s IH]; intros [|d t]; cbn; try lia.
  destruct (Z.eqb_spec (Z.of_nat (Ascii.nat_of_ascii c) - Z.of_nat (Ascii.nat_of_ascii d)) 0) as [E|E],
    (Z.eqb_spec (Z.of_nat (Ascii.nat_of_ascii d) - Z.of_nat (Ascii.nat_of_ascii c)) 0) as [E'|E']; try lia. apply IH.
Qed.

Lemma atoi_digits s : all_digit s = true → atoi s = digits_value 0 s.
Proof.
  destruct s as [|c s]; [done|]. cbn [all_digit]. destruct (isdigit c) eqn:Ed; [|done]. intros _. cbn [atoi].
  destruct c as [[] [] [] [] [] [] [] []]; try (vm_compute in Ed; discriminate Ed); reflexivity.
Qed.

Definition kind (name : string) : access_type := if all_digit name then ACCESS_TYPE_NUMBER else ACCESS_TYPE_STRING.

(** The order of the lists of a type. *)
Definition precedes (t : access_type) (a b : string) : Prop :=
  match t with ACCESS_TYPE_NUMBER => digits_value 0 a ≤ digits_value 0 b | ACCESS_TYPE_STRING => strcmp a b < 0 end.

Abbreviation names ns := (acl_name <$> ns.*2).

Record list_ok (t : access_type) (l : dlist access_list) (ns : list (positive * access_list)) : Prop := ListOk {
  lo_rep : dl_rep l ns;
  lo_kind : Forall (λ n, kind n = t) (names ns);
  lo_nodup : NoDup (names ns);
  lo_sorted : StronglySorted (precedes t) (names ns);
}.

(** The access lists of the two lists of the master, each of its kind, with names of its
    own, and sorted. *)
Definition master_ok (m : access_master) (ns : access_type → list (positive * access_list)) : Prop :=
  ∀ t, list_ok t (lists_of t m) (ns t).

Lemma on_list_run {X} t (f : ST (dlist access_list) X) m x l : f (lists_of t m) = Ok (x, l) → on_list t f m = Ok (x, set_lists t l m).
Proof. unfold on_list. by intros ->. Qed.

Lemma set_lists_id t m : set_lists t (lists_of t m) m = m.
Proof. by destruct t, m. Qed.

Lemma lists_set t l m t' : lists_of t' (set_lists t l m) = if decide (t' = t) then l else lists_of t' m.
Proof. by destruct t, t'. Qed.

Lemma search_name l ns name :
  dl_rep l ns → ∃ o, dl_search (λ a, bool_decide (acl_name a = name)) l = Ok (o, l) ∧
    match o with Some p => ∃ a, (p, a) ∈ ns ∧ acl_name a = name | None => name ∉ names ns end.
Proof.
  intros Hrep. destruct (dl_search_spec (λ a, bool_decide (acl_name a = name)) l ns Hrep)
    as [(n1 & p & a & n2 & -> & _ & Hx & Hr)|[Hall Hr]].
  - exists (Some p). split; [done|]. exists a. split; [set_solver|by apply bool_decide_eq_true in Hx].
  - exists None. split; [done|]. intros (b & -> & Hb)%list_elem_of_fmap. apply list_elem_of_fmap in Hb as ([q c] & -> & Hq).
    rewrite Forall_forall in Hall. specialize (Hall _ Hq). by apply bool_decide_eq_false in Hall.
Qed.

Lemma names_elem (ns : list (positive * access_list)) p a : (p, a) ∈ ns → acl_name a ∈ names ns.
Proof. intros H. apply list_elem_of_fmap. exists a. split; [done|]. apply list_elem_of_fmap. by exists (p, a). Qed.

Lemma names_unique (ns : list (positive * access_list)) p a q c : NoDup (names ns) → (p, a) ∈ ns → (q, c) ∈ ns → acl_name a = acl_name c → p = q.
Proof.
  induction ns as [|[r d] ns IH]; cbn; [by intros _ ?%not_elem_of_nil|]. intros [Hn Hnd]%NoDup_cons. rewrite !elem_of_cons.
  intros [[= -> ->]|Hp] [[= -> ->]|Hq] E; [done| | |by apply IH].
  - destruct Hn. rewrite E. by eapply names_elem.
  - destruct Hn. rewrite <- E. by eapply names_elem.
Qed.

(** Looking a name up finds the list of that name. *)
Lemma access_list_lookup_run m ns name :
  master_ok m ns → ∃ o, access_list_lookup (Some name) m = Ok (o, m) ∧
    ∀ t p, o = Some (t, p) ↔ ∃ a, (p, a) ∈ ns t ∧ acl_name a = name.
Proof.
  intros Hok. unfold access_list_lookup.
  assert (Hkind : ∀ t p a, (p, a) ∈ ns t → acl_name a = name → kind name = t).
  { intros t p a Hin <-. pose proof (lo_kind _ _ _ (Hok t)) as H. rewrite Forall_forall in H. apply H. by eapply names_elem. }
  assert (Huniq : ∀ t p q a, (p, a) ∈ ns t → acl_name a = name → (∃ c, (q, c) ∈ ns t ∧ acl_name c = name) → p = q).
  { intros t p q a Ha E (c & Hc & E'). eapply names_unique; [apply (Hok t)|done|done|congruence]. }
  destruct (search_name _ _ name (lo_rep _ _ _ (Hok ACCESS_TYPE_NUMBER))) as (o1 & H1 & Ho1).
  rewrite (st_bind_Ok _ _ _ _ _ (on_list_run _ _ _ _ _ H1)), set_lists_id. destruct o1 as [p1|].
  - destruct Ho1 as (a & Ha & E). exists (Some (ACCESS_TYPE_NUMBER, p1)). split; [done|]. intros t p. split; [intros [= <- <-]; by exists a|].
    intros (c & Hc & Ec). assert (t = ACCESS_TYPE_NUMBER) as -> by (rewrite <- (Hkind _ _ _ Hc Ec); by eapply Hkind).
    by rewrite (Huniq _ p1 p a Ha E) by eauto.
  - destruct (search_name _ _ name (lo_rep _ _ _ (Hok ACCESS_TYPE_STRING))) as (o2 & H2 & Ho2).
    rewrite (st_bind_Ok _ _ _ _ _ (on_list_run _ _ _ _ _ H2)), set_lists_id. eexists. split; [done|]. intros t p. split.
    + destruct o2 as [p2|]; [|done]. intros [= <- <-]. done.
    + intros (c & Hc & Ec). destruct t; [|destruct Ho1; rewrite <- Ec; by eapply names_elem].
      destruct o2 as [p2|]; [|destruct Ho2; rewrite <- Ec; by eapply names_elem]. destruct Ho2 as (a & Ha & E). cbn.
      by rewrite (Huniq _ p2 p a Ha E) by eauto.
Qed.

(** The search for the place of a new name. *)
Definition at_or_after (t : access_type) (name : string) (a : access_list) : bool :=
  match t with
  | ACCESS_TYPE_NUMBER => digits_value 0 name <=? atoi (acl_name a)
  | ACCESS_TYPE_STRING => 0 <=? strcmp (acl_name a) name
  end.

Lemma precedes_trans t a b c : precedes t a b → precedes t b c → precedes t a c.
Proof. destruct t; cbn; [apply strcmp_trans|lia]. Qed.

Lemma place_before t name a : kind (acl_name a) = t → acl_name a ≠ name →
  if at_or_after t name a then precedes t name (acl_name a) else precedes t (acl_name a) name.
Proof.
  intros Hk Hne. unfold at_or_after, precedes. destruct t.
  - destruct (Z.leb_spec 0 (strcmp (acl_name a) name)) as [H|H]; [|done]. apply strcmp_flip.
    assert (strcmp (acl_name a) name ≠ 0) by (intros E; by apply strcmp_eq in E). lia.
  - unfold kind in Hk. destruct (all_digit (acl_name a)) eqn:E; [|done]. rewrite atoi_digits by done.
    destruct (Z.leb_spec (digits_value 0 name) (digits_value 0 (acl_name a))); lia.
Qed.

(** The place of a new name splits the list. *)
Lemma place_split t name l ns : list_ok t l ns → name ∉ names ns →
  ∃ n1 n2, ns = n1 ++ n2 ∧ dl_search (at_or_after t name) l = Ok (headp n2, l) ∧
    Forall (λ b, precedes t b name) (names n1) ∧ Forall (precedes t name) (names n2).
Proof.
  intros [Hrep Hkind Hnd Hsort] Hno.
  assert (Hone : ∀ p a, (p, a) ∈ ns → kind (acl_name a) = t ∧ acl_name a ≠ name).
  { intros p a Hin. apply names_elem in Hin. split; [|intros E; by rewrite E in Hin]. rewrite Forall_forall in Hkind. by apply Hkind. }
  assert (Hbefore : ∀ n1 : list (positive * access_list), (∀ e, e ∈ n1 → e ∈ ns) → Forall (λ e, at_or_after t name e.2 = false) n1 →
    Forall (λ b, precedes t b name) (names n1)).
  { intros n1 Hsub Hall. rewrite !Forall_fmap. rewrite Forall_forall in Hall |- *. intros [p a] Hin. cbn.
    destruct (Hone p a (Hsub _ Hin)) as [Hk Hne]. pose proof (place_before t name a Hk Hne) as H. pose proof (Hall _ Hin) as E. cbn in E. by rewrite E in H. }
  destruct (dl_search_spec (at_or_after t name) l ns Hrep) as [(n1 & p & a & n2 & -> & Hall & Hx & Hr)|[Hall Hr]].
  - exists n1, ((p, a) :: n2). split_and!; [done|done|apply Hbefore; [set_solver|done]|].
    destruct (Hone p a) as [Hk Hne]; [set_solver|]. pose proof (place_before t name a Hk Hne) as H. rewrite Hx in H.
    rewrite !fmap_app in Hsort. cbn in Hsort. apply StronglySorted_app in Hsort as (_ & _ & [_ Hs]%StronglySorted_inv).
    cbn. constructor; [done|]. eapply Forall_impl; [exact Hs|]. intros c. by apply precedes_trans.
  - exists ns, []. rewrite app_nil_r. split_and!; [done|done|by apply Hbefore|constructor].
Qed.

Lemma access_list_insert_run m ns name :
  master_ok m ns → (∀ t, name ∉ names (ns t)) →
  ∃ p m' ns', access_list_insert name m = Ok ((kind name, p), m') ∧ master_ok m' ns' ∧
    (∀ t e, e ∈ ns' t ↔ e ∈ ns t ∨ t = kind name ∧ e = (p, AccessList name None (kind name) dl_empty)).
Proof.
  intros Hok Hno. unfold access_list_insert. fold (kind name). set (t := kind name). set (x := AccessList name None t dl_empty).
  destruct (place_split t name (lists_of t m) (ns t) (Hok t) (Hno t)) as (n1 & n2 & Hns & Hr & H1 & H2).
  destruct (alloc_spec x (lists_of t m)) as (p & l1 & Hal & Hall).
  pose proof (Hok t) as [Hrep Hkind Hnd Hsort]. rewrite Hns in Hrep, Hkind, Hnd, Hsort.
  destruct (dl_link_at_spec _ _ _ _ _ _ Hrep Hall) as (l2 & Hlink & Hrep2 & _).
  assert (Hrun : (point ← dl_search (at_or_after t name); q ← dl_alloc x; dl_link_at q point;; mret q) (lists_of t m) = Ok (p, l2)).
  { rewrite (st_bind_Ok _ _ _ _ _ Hr), (st_bind_Ok _ _ _ _ _ Hal), (st_bind_Ok _ _ _ _ _ Hlink). done. }
  exists p, (set_lists t l2 m), (λ t', if decide (t' = t) then n1 ++ (p, x) :: n2 else ns t'). split_and!.
  - erewrite st_bind_Ok by (apply on_list_run; exact Hrun). done.
  - intros t'. rewrite lists_set. case_decide as E; [|apply Hok]. subst t'.
    assert (Hperm : names (n1 ++ (p, x) :: n2) ≡ₚ name :: names (n1 ++ n2)).
    { rewrite !fmap_app. cbn. by rewrite Permutation_middle. }
    split; [done|..].
    + rewrite Hperm. by constructor.
    + rewrite Hperm. constructor; [|done]. rewrite <- Hns. apply Hno.
    + rewrite !fmap_app in Hsort |- *. cbn. apply StronglySorted_app in Hsort as (Hc & Hs1 & Hs2). apply StronglySorted_app. split_and!.
      * intros a b Ha [->|Hb]%elem_of_cons; [|by apply Hc]. rewrite Forall_forall in H1. by apply H1.
      * done.
      * by constructor.
  - intros t' e. case_decide as E; [|naive_solver]. subst t'. rewrite Hns. set_solver.
Qed.

(** access_list_get finds the list of a name or makes an empty one, in the sorted list
    of its kind; looking the name up then finds it, every other name is found as before,
    and names stay unique. *)
Theorem access_list_get_lookup m ns name :
  master_ok m ns →
  ∃ r m' ns', access_list_get name m = Ok (r, m') ∧ master_ok m' ns' ∧ access_list_lookup (Some name) m' = Ok (Some r, m') ∧
    (∀ n o, n ≠ name → access_list_lookup (Some n) m = Ok (o, m) → access_list_lookup (Some n) m' = Ok (o, m')) ∧
    (∀ t e, e ∈ ns t → e ∈ ns' t).
Proof.
  intros Hok. destruct (access_list_lookup_run m ns name Hok) as (o & Hl & Ho). unfold access_list_get.
  rewrite (st_bind_Ok _ _ _ _ _ Hl). destruct o as [r|].
  { exists r, m, ns. split_and!; done. }
  assert (Hno : ∀ t, name ∉ names (ns t)).
  { intros t (a & -> & Ha)%list_elem_of_fmap. apply list_elem_of_fmap in Ha as ([p b] & -> & Hin).
    destruct (Ho t p) as [_ H]. discriminate H. by exists b. }
  destruct (access_list_insert_run m ns name Hok Hno) as (p & m' & ns' & Hins & Hok' & Hel).
  exists (kind name, p), m', ns'. split_and!; [done|done|..].
  - destruct (access_list_lookup_run m' ns' name Hok') as (o' & Hl' & Ho'). rewrite Hl'. do 2 f_equal. apply Ho'.
    eexists. split; [apply Hel; right; done|done].
  - intros n o Hne Hlo. destruct (access_list_lookup_run m ns n Hok) as (o1 & Hl1 & Ho1). rewrite Hlo in Hl1. injection Hl1 as <-.
    destruct (access_list_lookup_run m' ns' n Hok') as (o2 & Hl2 & Ho2). rewrite Hl2. do 2 f_equal. apply option_eq. intros [t q].
    rewrite Ho1, Ho2. setoid_rewrite Hel. split; [|naive_solver].
    intros (a & [Ha|[-> [= -> ->]]] & E); [by exists a|]. by destruct Hne.
  - intros t e He. apply Hel. by left.
Qed.

(** ** Deleting a filter *)

Lemma on_filters_run {X} (r : access_ref) (g : ST (dlist filter) X) m n1 a n2 y fs :
  dl_rep (lists_of (fst r) m) (n1 ++ (snd r, a) :: n2) → g (acl_filters a) = Ok (y, fs) →
  ∃ l, on_filters r g m = Ok (y, set_lists (fst r) l m) ∧ dl_rep l (n1 ++ (snd r, set_filters fs a) :: n2).
Proof.
  intros Hrep Hg. destruct (shape_node_at _ _ _ _ _ (rep_shape _ _ Hrep)) as (Hp & _).
  destruct (dl_write_data _ _ _ _ _ (set_filters fs) Hrep) as (l & Hw & Hrep' & _). exists l. split; [|done].
  unfold on_filters. apply on_list_run. erewrite st_bind_Ok by (unfold dl_read; by rewrite Hp). cbn [d_data].
  erewrite st_bind_Ok by (unfold st_lift; by rewrite Hg). cbv beta iota. by rewrite (st_bind_Ok _ _ _ _ _ Hw).
Qed.

Lemma read_list_run (r : access_ref) m n1 a n2 : dl_rep (lists_of (fst r) m) (n1 ++ (snd r, a) :: n2) →
  on_list (fst r) (dl_read (snd r)) m = Ok (Dnode a (headp n2) (lastp n1), m).
Proof.
  intros Hrep. destruct (shape_node_at _ _ _ _ _ (rep_shape _ _ Hrep)) as (Hp & _). erewrite on_list_run by (unfold dl_read; by rewrite Hp). by rewrite set_lists_id.
Qed.

(** access_list_filter_delete takes the filter out of its list.  When it was the last
    one the list itself is taken out of the master and freed, but the hook is still called
    with the list: ospf_filter_update then reads the name of the freed list. *)
Theorem access_list_filter_delete_hook m t p n1 a n2 f1 f x f2 :
  dl_rep (lists_of t m) (n1 ++ (p, a) :: n2) → dl_rep (acl_filters a) (f1 ++ (f, x) :: f2) → am_delete_hook m = true →
  ∃ m' fs, access_list_filter_delete (t, p) f m = Ok (tt, m') ∧ dl_rep fs (f1 ++ f2) ∧
    am_calls m' = am_calls m ++ [AccessDelete (t, p)] ∧
    if bool_decide (f1 ++ f2 = []) then dl_rep (lists_of t m') (n1 ++ n2) ∧ d_nodes (lists_of t m') !! p = None
    else dl_rep (lists_of t m') (n1 ++ (p, set_filters fs a) :: n2).
Proof.
  intros Hrep Hfs Hhook. destruct (dl_remove_spec _ _ _ _ _ Hfs) as (fs & Hrm & Hfs' & _).
  destruct (on_filters_run (t, p) (dl_remove f) m n1 a n2 tt fs Hrep Hrm) as (l1 & Hrun1 & Hrep1). cbn [fst snd] in *.
  unfold access_list_filter_delete. rewrite (st_bind_Ok _ _ _ _ _ Hrun1).
  set (m1 := set_lists t l1 m). assert (Hm1 : lists_of t m1 = l1) by (unfold m1; rewrite lists_set; by rewrite decide_True).
  rewrite <- Hm1 in Hrep1. rewrite (st_bind_Ok _ _ _ _ _ (read_list_run (t, p) m1 _ _ _ Hrep1)). cbn [d_data].
  unfold access_list_empty. cbn [acl_filters set_filters]. rewrite (dl_head _ _ Hfs'), (dl_tail _ _ Hfs').
  assert (Hcall : ∀ m2, am_delete_hook m2 = true → am_calls m2 = am_calls m →
    ∃ m3, call_hook am_delete_hook (AccessDelete (t, p)) m2 = Ok (tt, m3) ∧ am_calls m3 = am_calls m ++ [AccessDelete (t, p)] ∧ lists_of t m3 = lists_of t m2).
  { intros m2 Hd Hc. unfold call_hook. rewrite Hd. eexists. split; [done|]. cbn. rewrite Hc. split; [done|]. by destruct t. }
  destruct (f1 ++ f2) as [|e fr] eqn:E.
  - cbn [headp lastp head last fmap option_fmap option_map].
    destruct (on_filters_run (t, p) (l ← st_get; free_filters (size (d_nodes l)) (d_head l)) m1 n1 (set_filters fs a) n2 tt fs Hrep1)
      as (l2 & Hrun2 & Hrep2).
    { cbn [acl_filters set_filters]. erewrite st_bind_Ok by reflexivity. rewrite (dl_head _ _ Hfs'). by destruct (size (d_nodes fs)). }
    destruct (dl_remove_spec _ _ _ _ _ Hrep2) as (l3 & Hrm3 & Hrep3 & Hgone). cbn [fst snd] in *.
    assert (Hdel : access_list_delete (t, p) m1 = Ok (tt, set_lists t l3 (set_lists t l2 m1))).
    { unfold access_list_delete. rewrite (st_bind_Ok _ _ _ _ _ Hrun2). apply on_list_run. cbn [fst snd]. by rewrite lists_set, decide_True. }
    rewrite (st_bind_Ok _ _ _ _ _ Hdel). destruct (Hcall (set_lists t l3 (set_lists t l2 m1))) as (m3 & -> & Hc & Hlists); [by destruct t..|].
    exists m3, fs. rewrite Hlists, lists_set, decide_True by done. by split_and!.
  - assert (∃ q, headp (e :: fr) = Some q) as [q ->] by (destruct e; by eexists). erewrite st_bind_Ok by reflexivity.
    destruct (Hcall m1) as (m3 & -> & Hc & Hlists); [by destruct t..|]. exists m3, fs. rewrite Hlists. by split_and!.
Qed.

(** ** Examples *)

Definition ex_filters : dlist filter :=
  Dlist (Some 1%positive) (Some 2%positive) 0
    {[ 1%positive := Dnode (Filter FILTER_DENY (inl (FilterCisco false [10; 1; 0; 0] [0; 0; 255; 255] [] []))) (Some 2%positive) None;
       2%positive := Dnode (Filter FILTER_PERMIT (inr (FilterZebra false (Prefix AF_INET 8 ([10; 0; 0; 0] ++ replicate 12 0))))) None (Some 1%positive) ]}.
Definition ex_access : access_list := AccessList "10" None ACCESS_TYPE_NUMBER ex_filters.

Definition ex_nodes : list (positive * filter) :=
  [(1%positive, Filter FILTER_DENY (inl (FilterCisco false [10; 1; 0; 0] [0; 0; 255; 255] [] [])));
   (2%positive, Filter FILTER_PERMIT (inr (FilterZebra false (Prefix AF_INET 8 ([10; 0; 0; 0] ++ replicate 12 0)))))].

Lemma ex_filters_rep : dl_rep ex_filters ex_nodes.
Proof.
  split; [done|done|by vm_compute|apply (bool_decide_eq_true_1 _); by vm_compute|].
  intros q [n Hq]. cbn in Hq. rewrite lookup_insert in Hq. case_decide; [subst; set_solver|].
  rewrite lookup_singleton in Hq. case_decide; [subst; set_solver|done].
Qed.

Lemma ex_filters_ok : Forall filter_ok ex_nodes.*2.
Proof.
  assert (H4 : ∀ a, bool_decide (bytes_ok a ∧ length a = 4%nat) = true → ipv4_ok a) by (intros a H; by apply bool_decide_eq_true in H).
  cbn. repeat constructor; try done; try (by apply H4); cbn; try lia.
Qed.

Lemma access_list_apply_first_match_witness :
  ∃ t, access_list_apply (Some ex_access) (Prefix AF_INET 24 ([10; 1; 7; 0] ++ replicate 12 0)) = Ok t ∧ t = FILTER_DENY.
Proof.
  destruct (access_list_apply_first_match ex_access ex_nodes (Prefix AF_INET 24 ([10; 1; 7; 0] ++ replicate 12 0))) as (t & Ht & _);
    [apply ex_filters_rep|apply ex_filters_ok|split_and!; [split; [by apply bytes_ok_decide|cbn; lia]|cbn; lia|cbn; lia]|].
  exists t. split; [exact Ht|]. vm_compute in Ht. by injection Ht.
Defined.

Definition ex_none : access_master := AccessMaster dl_empty dl_empty true true [].

Lemma dl_empty_rep {A} : dl_rep (@dl_empty A) [].
Proof. split; try done; [constructor|]. intros p [n Hn]. done. Qed.

Lemma ex_none_ok : master_ok ex_none (λ _, []).
Proof. intros t. split; [destruct t; apply dl_empty_rep|constructor|constructor|constructor]. Qed.

Lemma access_list_get_lookup_witness :
  ∃ r m', access_list_get "10" ex_none = Ok (r, m') ∧ access_list_lookup (Some "10"%string) m' = Ok (Some r, m').
Proof.
  destruct (access_list_get_lookup ex_none (λ _, []) "10" ex_none_ok) as (r & m' & ns' & H1 & _ & H2 & _).
  exists r, m'. exact (conj H1 H2).
Defined.

Lemma dl_rep_single {A} (p : positive) (x : A) c : dl_rep (Dlist (Some p) (Some p) c {[p := Dnode x None None]}) [(p, x)].
Proof.
  split; try done; cbn.
  - split; [by rewrite lookup_singleton_eq|done].
  - apply NoDup_singleton.
  - intros q [n Hq]. rewrite lookup_singleton in Hq. case_decide; [subst; set_solver|done].
Qed.

Definition ex_single : access_list :=
  AccessList "10" None ACCESS_TYPE_NUMBER
    (Dlist (Some 1%positive) (Some 1%positive) 0 {[1%positive := Dnode (Filter FILTER_PERMIT (inr (FilterZebra false prefix_new))) None None]}).
Definition ex_one : access_master :=
  AccessMaster (Dlist (Some 7%positive) (Some 7%positive) 0 {[7%positive := Dnode ex_single None None]}) dl_empty true true [].

Lemma access_list_filter_delete_hook_witness :
  ∃ m', access_list_filter_delete (ACCESS_TYPE_NUMBER, 7%positive) 1%positive ex_one = Ok (tt, m') ∧
    am_calls m' = [AccessDelete (ACCESS_TYPE_NUMBER, 7%positive)] ∧ d_nodes (am_num m') !! 7%positive = None.
Proof.
  destruct (access_list_filter_delete_hook ex_one ACCESS_TYPE_NUMBER 7%positive [] ex_single [] [] 1%positive
    (Filter FILTER_PERMIT (inr (FilterZebra false prefix_new))) []) as (m' & fs & H1 & _ & H2 & H3);
    [apply dl_rep_single|apply dl_rep_single|done|].
  rewrite bool_decide_eq_true_2 in H3 by done. destruct H3 as [_ H3]. exists m'. exact (conj H1 (conj H2 H3)).
Defined.
