(* ===== verification/Hash.v ===== *)
(** Hash tables: lib/hash.c.

    A table is an array of chains of buckets; a bucket keeps the 32-bit key of its
    datum.  The data are pointers of a type [D] into a memory [W] of the client,
    which the key function, the comparison and the allocation function read: these
    callbacks are arguments, as they are in the C code.  The client promises
    [HashLaws], and the table implements a finite map from the values of the data
    to the pointers that hold them ([hash_rep]). *)

From S2P Require Import Prelude.

Definition HASHTABSIZE : Z := 1024.

Record backet (D : Type) := Backet {
  b_key : Z;
  b_data : D;
}.
Arguments Backet {D} b_key b_data.
Arguments b_key {D} _.
Arguments b_data {D} _.

Record hash (D : Type) := Hash {
  h_index : list (list (backet D));
  h_size : Z;
  h_count : Z;
}.
Arguments Hash {D} h_index h_size h_count.
Arguments h_index {D} _.
Arguments h_size {D} _.
Arguments h_count {D} _.

(** * Operations *)

Section operations.
Context {W D : Type} (hash_key : D → W → res Z) (hash_cmp : D → D → W → res bool).
Implicit Types (h : hash D) (c : list (backet D)) (w : W).

Definition hash_create_size (size : Z) : hash D :=
  Hash (replicate (Z.to_nat size) []) size 0.

Definition hash_create : hash D := hash_create_size HASHTABSIZE.

Definition hash_alloc_intern (arg : D) : ST W (option D) := mret (Some arg).

(** [index = key % hash->size] and the chain behind it. *)
Definition hash_slot h (key : Z) : res (nat * list (backet D)) :=
  if h_size h =? 0 then Fail DivByZero
  else
    let index := Z.to_nat (key mod h_size h) in
    c ← of_option OutOfBounds (h_index h !! index);
    Ok (index, c).

(** The test of the loops: the keys are equal and the comparison accepts. *)
Definition backet_match (key : Z) (data : D) (b : backet D) w : res bool :=
  if b_key b =? key then hash_cmp (b_data b) data w else Ok false.

Fixpoint chain_find (key : Z) (data : D) c w : res (option D) :=
  match c with
  | [] => Ok None
  | b :: c =>
      found ← backet_match key data b w;
      if (found : bool) then Ok (Some (b_data b)) else chain_find key data c w
  end.

Definition hash_get h (data : D) (alloc_func : option (D → ST W (option D))) :
    ST W (option D * hash D) := λ w,
  key ← hash_key data w;
  '(index, c) ← hash_slot h key;
  found ← chain_find key data c w;
  match found, alloc_func with
  | Some d, _ => Ok (Some d, h, w)
  | None, None => Ok (None, h, w)
  | None, Some alloc =>
      '(newdata, w) ← alloc data w;
      match newdata with
      | None => Ok (None, h, w)
      | Some d =>
          Ok (Some d, Hash (<[index := Backet key d :: c]> (h_index h)) (h_size h) (u64 (h_count h + 1)), w)
      end
  end.

Definition hash_lookup h (data : D) : ST W (option D * hash D) := hash_get h data None.

(** The loop of hash_release: the datum found and the chain without its bucket;
    [pp] is what the loop has passed. *)
Fixpoint chain_release (key : Z) (data : D) (pp c : list (backet D)) w :
    res (option (D * list (backet D))) :=
  match c with
  | [] => Ok None
  | b :: c =>
      found ← backet_match key data b w;
      if (found : bool) then Ok (Some (b_data b, pp ++ c))
      else chain_release key data (pp ++ [b]) c w
  end.

Definition hash_release h (data : D) : ST W (option D * hash D) := λ w,
  key ← hash_key data w;
  '(index, c) ← hash_slot h key;
  found ← chain_release key data [] c w;
  match found with
  | None => Ok (None, h, w)
  | Some (d, c') =>
      Ok (Some d, Hash (<[index := c']> (h_index h)) (h_size h) (u64 (h_count h - 1)), w)
  end.

Fixpoint chain_iterate (func : backet D → ST W unit) c : ST W unit :=
  match c with
  | [] => mret tt
  | hb :: c => func hb ≫= λ _, chain_iterate func c
  end.

Fixpoint index_iterate (func : backet D → ST W unit) (cs : list (list (backet D))) : ST W unit :=
  match cs with
  | [] => mret tt
  | c :: cs => chain_iterate func c ≫= λ _, index_iterate func cs
  end.

Definition hash_iterate h (func : backet D → ST W unit) : ST W unit :=
  index_iterate func (h_index h).

(** The two loops of hash_clean: the buckets are freed one by one, each after the
    client's function on its datum, and every chain is left empty. *)
Fixpoint chain_clean (free_func : option (D → ST W unit)) c (count : Z) : ST W Z :=
  match c with
  | [] => mret count
  | hb :: c =>
      (match free_func with Some f => f (b_data hb) | None => mret tt end) ≫= λ _,
      chain_clean free_func c (u64 (count - 1))
  end.

Fixpoint index_clean (free_func : option (D → ST W unit)) (cs : list (list (backet D))) (count : Z) :
    ST W (list (list (backet D)) * Z) :=
  match cs with
  | [] => mret ([], count)
  | c :: cs =>
      chain_clean free_func c count ≫= λ count,
      index_clean free_func cs count ≫= λ r,
      mret ([] :: r.1, r.2)
  end.

Definition hash_clean h (free_func : option (D → ST W unit)) : ST W (hash D) :=
  index_clean free_func (h_index h) (h_count h) ≫= λ r,
  mret (Hash r.1 (h_size h) r.2).

End operations.

(** * What the table promises *)

(** A client's callbacks: [hval w d] is the value of the datum [d] in the memory
    [w], if [d] may be read there; the key depends on the value only and the
    comparison decides equality of values. *)
Class HashLaws {W D V : Type} `{EqDecision V} (hash_key : D → W → res Z)
    (hash_cmp : D → D → W → res bool) (hval : W → D → option V) (hk : V → Z) : Prop := {
  hl_key w d v : hval w d = Some v → hash_key d w = Ok (hk v);
  hl_range v : is_u32 (hk v);
  hl_cmp w d1 d2 v1 v2 :
    hval w d1 = Some v1 → hval w d2 = Some v2 → hash_cmp d1 d2 w = Ok (bool_decide (v1 = v2));
}.

Section refinement.
Context {W D V : Type} `{Countable V} (hash_key : D → W → res Z)
  (hash_cmp : D → D → W → res bool) (hval : W → D → option V) (hk : V → Z)
  {laws : HashLaws hash_key hash_cmp hval hk}.
Implicit Types (h : hash D) (c : list (backet D)) (w : W) (m : gmap V D).

Definition backet_of (vd : V * D) : backet D := Backet (hk vd.1) vd.2.

(** The table [h] holds the map [m] in the memory [w]. *)
Record hash_rep w h m : Prop := HashRep {
  hr_size : is_u32 (h_size h) ∧ h_size h ≠ 0;
  hr_length : length (h_index h) = Z.to_nat (h_size h);
  hr_count : h_count h = u64 (Z.of_nat (size m));
  hr_perm : concat (h_index h) ≡ₚ backet_of <$> map_to_list m;
  hr_place i c b : h_index h !! i = Some c → b ∈ c → Z.to_nat (b_key b mod h_size h) = i;
  hr_val v d : m !! v = Some d → hval w d = Some v;
}.

Lemma hash_create_rep w size : is_u32 size → size ≠ 0 → hash_rep w (hash_create_size size) ∅.
Proof.
  intros Hs H0. split; cbn.
  - done.
  - apply length_replicate.
  - by rewrite map_size_empty.
  - rewrite map_to_list_empty. cbn. by induction (Z.to_nat size).
  - intros i c b [-> _]%lookup_replicate Hb. by apply elem_of_nil in Hb.
  - intros v d. by rewrite lookup_empty.
Qed.

(** The memory may change as long as the data of the table keep their values. *)
Lemma hash_rep_memory w w' h m :
  hash_rep w h m → (∀ v d, m !! v = Some d → hval w' d = Some v) → hash_rep w' h m.
Proof. intros [] ?. by split. Qed.

Lemma slot_spec w h m v :
  hash_rep w h m →
  ∃ c, hash_slot h (hk v) = Ok (Z.to_nat (hk v mod h_size h), c) ∧
       h_index h !! Z.to_nat (hk v mod h_size h) = Some c.
Proof.
  intros Hh. destruct (hr_size _ _ _ Hh) as [[Hs1 Hs2] Hs0].
  pose proof (Z.mod_pos_bound (hk v) (h_size h) ltac:(lia)).
  destruct (lookup_lt_is_Some_2 (h_index h) (Z.to_nat (hk v mod h_size h))) as [c Hc].
  { rewrite (hr_length _ _ _ Hh). lia. }
  exists c. split; [|done]. unfold hash_slot. rewrite (proj2 (Z.eqb_neq _ _)) by done.
  by rewrite Hc.
Qed.

(** Every bucket stands for an entry of the map. *)
Lemma backet_entry w h m i c b :
  hash_rep w h m → h_index h !! i = Some c → b ∈ c →
  ∃ v, m !! v = Some (b_data b) ∧ b_key b = hk v.
Proof.
  intros Hh Hi Hb.
  assert (b ∈ backet_of <$> map_to_list m) as ([v d] & -> & Hm)%list_elem_of_fmap.
  { rewrite <- (hr_perm _ _ _ Hh). apply list_elem_of_In, in_concat. exists c.
    split; apply list_elem_of_In; [by eapply list_elem_of_lookup_2|done]. }
  exists v. by rewrite elem_of_map_to_list in Hm.
Qed.

(** The entry of a value is in the chain its key selects. *)
Lemma entry_backet w h m v d :
  hash_rep w h m → m !! v = Some d →
  ∃ c, h_index h !! Z.to_nat (hk v mod h_size h) = Some c ∧ Backet (hk v) d ∈ c.
Proof.
  intros Hh Hm.
  assert (backet_of (v, d) ∈ concat (h_index h)) as Hin.
  { rewrite (hr_perm _ _ _ Hh). apply list_elem_of_fmap_2, elem_of_map_to_list, Hm. }
  apply list_elem_of_In, in_concat in Hin as (c & Hc & Hb).
  apply list_elem_of_In in Hc, Hb. apply list_elem_of_lookup in Hc as [i Hi].
  pose proof (hr_place _ _ _ Hh _ _ _ Hi Hb) as Hp. cbn in Hp. exists c. by rewrite Hp.
Qed.

(** The test of a bucket decides whether it holds the value looked for. *)
Lemma match_spec w m v d v' d' :
  hval w d = Some v → hval w d' = Some v' →
  backet_match hash_cmp (hk v) d (Backet (hk v') d') w = Ok (bool_decide (v' = v)).
Proof.
  intros Hv Hv'. unfold backet_match. cbn. destruct (Z.eqb_spec (hk v') (hk v)) as [He|He].
  - by apply hl_cmp.
  - rewrite bool_decide_eq_false_2; [done|congruence].
Qed.

(** A chain either splits at the bucket of the value or has none for it. *)
Lemma chain_scan w h m v d i c :
  hash_rep w h m → hval w d = Some v → h_index h !! i = Some c →
  (∃ c1 d' c2, c = c1 ++ Backet (hk v) d' :: c2 ∧ m !! v = Some d' ∧
     Forall (λ b, backet_match hash_cmp (hk v) d b w = Ok false) c1 ∧
     backet_match hash_cmp (hk v) d (Backet (hk v) d') w = Ok true) ∨
  (Forall (λ b, backet_match hash_cmp (hk v) d b w = Ok false) c ∧
   ∀ d', m !! v = Some d' → Backet (hk v) d' ∉ c).
Proof.
  intros Hh Hv Hi.
  assert (Forall (λ b, ∃ v', m !! v' = Some (b_data b) ∧ b_key b = hk v') c) as Hc.
  { apply Forall_forall. intros b Hb. by eapply backet_entry. }
  clear Hi. induction Hc as [|[k d'] c (v' & Hm & Hk) Hc IH]; cbn in *.
  { right. split; [done|]. intros. apply not_elem_of_nil. }
  subst k. pose proof (match_spec w m v d v' d' Hv (hr_val _ _ _ Hh _ _ Hm)) as Ht.
  destruct (decide (v' = v)) as [->|Hne].
  - left. exists [], d', c. rewrite bool_decide_eq_true_2 in Ht by done. by split_and!.
  - rewrite bool_decide_eq_false_2 in Ht by done.
    destruct IH as [(c1 & d1 & c2 & -> & H1 & H2 & H3)|[H1 H2]].
    + left. exists (Backet (hk v') d' :: c1), d1, c2. split_and!; [done|done|by constructor|done].
    + right. split; [by constructor|]. intros d1 Hd1 [[= He <-]|Hin]%elem_of_cons.
      * apply (hr_val _ _ _ Hh) in Hm, Hd1. congruence.
      * by eapply H2.
Qed.

Lemma chain_find_pass key d w c1 c :
  Forall (λ b, backet_match hash_cmp key d b w = Ok false) c1 →
  chain_find hash_cmp key d (c1 ++ c) w = chain_find hash_cmp key d c w.
Proof. induction 1 as [|b c1 Hb _ IH]; [done|]. cbn. by rewrite Hb. Qed.

Lemma chain_release_pass key d w pp c1 c :
  Forall (λ b, backet_match hash_cmp key d b w = Ok false) c1 →
  chain_release hash_cmp key d pp (c1 ++ c) w = chain_release hash_cmp key d (pp ++ c1) c w.
Proof.
  intros Hc. revert pp. induction Hc as [|b c1 Hb _ IH]; intros pp; [by rewrite app_nil_r|].
  cbn. rewrite Hb. cbn. by rewrite IH, <- app_assoc.
Qed.

(** Looking a value up finds its pointer in the map, and nothing else happens. *)
Lemma chain_find_spec w h m v d c :
  hash_rep w h m → hval w d = Some v →
  h_index h !! Z.to_nat (hk v mod h_size h) = Some c →
  chain_find hash_cmp (hk v) d c w = Ok (m !! v).
Proof.
  intros Hh Hv Hc. destruct (chain_scan w h m v d _ c Hh Hv Hc)
    as [(c1 & d' & c2 & -> & Hm & Hf & Ht)|[Hf Hn]].
  - rewrite chain_find_pass by done. cbn [chain_find]. by rewrite Ht, Hm.
  - rewrite <- (app_nil_r c), chain_find_pass by done. cbn. f_equal.
    destruct (m !! v) as [d'|] eqn:Hm; [|done]. exfalso.
    destruct (entry_backet _ _ _ _ _ Hh Hm) as (c0 & Hc0 & Hin). rewrite Hc in Hc0.
    simplify_eq. by eapply Hn.
Qed.

(** ** Lookup *)

Lemma hash_get_found w h m v d d' alloc :
  hash_rep w h m → hval w d = Some v → m !! v = Some d' →
  hash_get hash_key hash_cmp h d alloc w = Ok (Some d', h, w).
Proof.
  intros Hh Hv Hm. destruct (slot_spec _ _ _ v Hh) as (c & Hs & Hc).
  unfold hash_get. rewrite (hl_key _ _ _ Hv). cbn [mbind res_bind]. rewrite Hs.
  cbn [mbind res_bind]. by rewrite (chain_find_spec _ _ _ _ _ _ Hh Hv Hc), Hm.
Qed.

Lemma hash_lookup_spec w h m v d :
  hash_rep w h m → hval w d = Some v →
  hash_lookup hash_key hash_cmp h d w = Ok (m !! v, h, w).
Proof.
  intros Hh Hv. destruct (m !! v) as [d'|] eqn:Hm; [by eapply hash_get_found|].
  destruct (slot_spec _ _ _ v Hh) as (c & Hs & Hc).
  unfold hash_lookup, hash_get. rewrite (hl_key _ _ _ Hv). cbn [mbind res_bind]. rewrite Hs.
  cbn [mbind res_bind]. by rewrite (chain_find_spec _ _ _ _ _ _ Hh Hv Hc), Hm.
Qed.

(** ** Insertion *)

Lemma u64_add_idemp n k : u64 (u64 n + k) = u64 (n + k).
Proof. unfold u64. by rewrite Zplus_mod_idemp_l. Qed.

Lemma rep_insert w w' h m v d c :
  hash_rep w h m → m !! v = None →
  (∀ v0 d0, m !! v0 = Some d0 → hval w' d0 = Some v0) → hval w' d = Some v →
  h_index h !! Z.to_nat (hk v mod h_size h) = Some c →
  hash_rep w' (Hash (<[Z.to_nat (hk v mod h_size h) := Backet (hk v) d :: c]> (h_index h))
                 (h_size h) (u64 (h_count h + 1))) (<[v := d]> m).
Proof.
  intros Hh Hm Hw' Hd Hc. split; cbn.
  - apply Hh.
  - rewrite length_insert. apply Hh.
  - rewrite (hr_count _ _ _ Hh), u64_add_idemp, map_size_insert_None by done. f_equal. lia.
  - rewrite map_to_list_insert by done. cbn.
    rewrite (concat_insert_perm _ _ _ _ _ Hc (Permutation_refl _)). by rewrite (hr_perm _ _ _ Hh).
  - intros i c' b [(<- & <- & _)|[_ Hi]]%list_lookup_insert_Some.
    + intros [->|Hb]%elem_of_cons; [done|]. by apply (hr_place _ _ _ Hh _ c).
    + by apply (hr_place _ _ _ Hh).
  - intros v0 d0 [[-> ->]|[_ Hv0]]%lookup_insert_Some; [done|auto].
Qed.

Lemma hash_get_alloc w w' h m v d d' alloc :
  hash_rep w h m → hval w d = Some v → m !! v = None →
  alloc d w = Ok (Some d', w') →
  (∀ v0 d0, m !! v0 = Some d0 → hval w' d0 = Some v0) → hval w' d' = Some v →
  ∃ h', hash_get hash_key hash_cmp h d (Some alloc) w = Ok (Some d', h', w') ∧
        hash_rep w' h' (<[v := d']> m).
Proof.
  intros Hh Hv Hm Ha Hw' Hd'. destruct (slot_spec _ _ _ v Hh) as (c & Hs & Hc).
  eexists. split; [|by eapply rep_insert].
  unfold hash_get. rewrite (hl_key _ _ _ Hv). cbn [mbind res_bind]. rewrite Hs.
  cbn [mbind res_bind]. rewrite (chain_find_spec _ _ _ _ _ _ Hh Hv Hc), Hm.
  cbn [mbind res_bind]. by rewrite Ha.
Qed.

(** ** Removal *)

Lemma rep_delete w h m v d c1 c2 :
  hash_rep w h m → m !! v = Some d →
  h_index h !! Z.to_nat (hk v mod h_size h) = Some (c1 ++ Backet (hk v) d :: c2) →
  hash_rep w (Hash (<[Z.to_nat (hk v mod h_size h) := c1 ++ c2]> (h_index h))
                (h_size h) (u64 (h_count h - 1))) (delete v m).
Proof.
  intros Hh Hm Hc. set (i := Z.to_nat (hk v mod h_size h)) in *.
  assert (concat (h_index h) ≡ₚ Backet (hk v) d :: concat (<[i := c1 ++ c2]> (h_index h))) as Hp.
  { rewrite <- (list_insert_id _ _ _ Hc) at 1.
    rewrite <- (list_insert_insert_eq _ i (c1 ++ Backet (hk v) d :: c2) (c1 ++ c2)).
    apply concat_insert_perm with (c1 ++ c2).
    - apply list_lookup_insert_eq, lookup_lt_is_Some. eauto.
    - symmetry. apply Permutation_middle. }
  split; cbn.
  - apply Hh.
  - rewrite length_insert. apply Hh.
  - rewrite (hr_count _ _ _ Hh). change (u64 (Z.of_nat (size m)) - 1) with (u64 (Z.of_nat (size m)) + -1).
    rewrite u64_add_idemp, map_size_delete, Hm. f_equal. cbn.
    assert (size m ≠ 0%nat); [|lia]. intros ->%map_size_empty_iff. by rewrite lookup_empty in Hm.
  - apply (Permutation_cons_inv (a := Backet (hk v) d)). rewrite <- Hp, (hr_perm _ _ _ Hh).
    rewrite <- (map_to_list_delete m v d) by done. done.
  - intros j c' b [(<- & <- & _)|[_ Hj]]%list_lookup_insert_Some Hb.
    + apply (hr_place _ _ _ Hh _ _ b Hc). apply elem_of_app in Hb as []; set_solver.
    + by apply (hr_place _ _ _ Hh _ c').
  - intros v0 d0 [_ Hv0]%lookup_delete_Some. by apply Hh.
Qed.

Lemma hash_release_spec w h m v d :
  hash_rep w h m → hval w d = Some v →
  ∃ h', hash_release hash_key hash_cmp h d w = Ok (m !! v, h', w) ∧ hash_rep w h' (delete v m).
Proof.
  intros Hh Hv. destruct (slot_spec _ _ _ v Hh) as (c & Hs & Hc).
  unfold hash_release. rewrite (hl_key _ _ _ Hv). cbn [mbind res_bind]. rewrite Hs.
  cbn [mbind res_bind].
  destruct (chain_scan w h m v d _ c Hh Hv Hc) as [(c1 & d' & c2 & -> & Hm & Hf & Ht)|[Hf Hn]].
  - rewrite chain_release_pass by done. cbn [chain_release app]. rewrite Ht. cbn [mbind res_bind].
    rewrite Hm. eexists. split; [done|]. by eapply rep_delete.
  - pose proof (chain_release_pass (hk v) d w [] c [] Hf) as Hp. rewrite app_nil_r in Hp.
    rewrite Hp. cbn [chain_release mbind res_bind].
    assert (m !! v = None) as Hm.
    { destruct (m !! v) as [d'|] eqn:Hm; [|done].
      destruct (entry_backet _ _ _ _ _ Hh Hm) as (c0 & Hc0 & Hin). rewrite Hc in Hc0.
      simplify_eq. exfalso. by eapply Hn. }
    rewrite Hm. exists h. split; [done|]. by rewrite delete_id.
Qed.

(** ** Iteration *)

Lemma chain_iterate_app (func : backet D → ST W unit) c1 c2 w :
  chain_iterate func (c1 ++ c2) w = (chain_iterate func c1 ≫= λ _, chain_iterate func c2) w.
Proof.
  revert w. induction c1 as [|b c1 IH]; intros w; [done|].
  cbn. unfold mbind, ST_bind in *. destruct (func b w) as [[[] w']|]; [apply IH|done].
Qed.

Lemma index_iterate_concat (func : backet D → ST W unit) cs w :
  index_iterate func cs w = chain_iterate func (concat cs) w.
Proof.
  revert w. induction cs as [|c cs IH]; intros w; [done|].
  cbn. rewrite chain_iterate_app. unfold mbind, ST_bind.
  destruct (chain_iterate func c w) as [[[] w']|]; [apply IH|done].
Qed.

(** The function is called once for each entry of the map, in some order. *)
Lemma hash_iterate_spec w h m func :
  hash_rep w h m →
  ∃ l, l ≡ₚ map_to_list m ∧
       ∀ w', hash_iterate h func w' = chain_iterate func (backet_of <$> l) w'.
Proof.
  intros Hh. destruct (Permutation_map_inv _ _ (hr_perm _ _ _ Hh)) as (l & Hl & Hp).
  exists l. split; [by symmetry|]. intros w'. unfold hash_iterate.
  rewrite index_iterate_concat. by rewrite Hl.
Qed.

(** ** Cleaning up *)

Definition free_all (f : D → ST W unit) : list (backet D) → ST W unit :=
  chain_iterate (λ b, f (b_data b)).

Lemma chain_clean_run f c count w w' :
  free_all f c w = Ok (tt, w') →
  chain_clean (Some f) c (u64 count) w = Ok (u64 (count - Z.of_nat (length c)), w').
Proof.
  revert count w. induction c as [|b c IH]; intros count w Hr.
  { cbn in *. unfold mret, ST_ret in *. simplify_eq. by rewrite Z.sub_0_r. }
  cbn [chain_clean free_all chain_iterate] in *. unfold mbind, ST_bind in *.
  destruct (f (b_data b) w) as [[[] w1]|]; [|done].
  change (u64 count - 1) with (u64 count + -1). rewrite u64_add_idemp, (IH _ _ Hr).
  do 3 f_equal. cbn [length]. lia.
Qed.

Lemma index_clean_run f cs count w w' :
  free_all f (concat cs) w = Ok (tt, w') →
  index_clean (Some f) cs (u64 count) w =
    Ok (replicate (length cs) [], u64 (count - Z.of_nat (length (concat cs))), w').
Proof.
  revert count w. induction cs as [|c cs IH]; intros count w Hr.
  { cbn in *. unfold mret, ST_ret in *. simplify_eq. by rewrite Z.sub_0_r. }
  cbn [concat] in Hr. unfold free_all in Hr. rewrite chain_iterate_app in Hr.
  unfold mbind, ST_bind in Hr. fold (free_all f) in Hr.
  destruct (free_all f c w) as [[[] w1]|] eqn:Hc; [|done].
  cbn [index_clean]. erewrite st_bind_Ok by by apply chain_clean_run.
  erewrite st_bind_Ok by by apply IH. cbn. unfold mret, ST_ret.
  rewrite length_app. do 4 f_equal. lia.
Qed.

(** Every datum is freed once, and the table is empty afterwards. *)
Lemma hash_clean_spec w h m f :
  hash_rep w h m →
  ∃ l, l ≡ₚ map_to_list m ∧
    ∀ w1 w2, free_all f (backet_of <$> l) w1 = Ok (tt, w2) →
      ∃ h', hash_clean h (Some f) w1 = Ok (h', w2) ∧ hash_rep w2 h' ∅.
Proof.
  intros Hh. destruct (Permutation_map_inv _ _ (hr_perm _ _ _ Hh)) as (l & Hl & Hp).
  exists l. split; [by symmetry|]. intros w1 w2 Hr. unfold hash_clean.
  rewrite (hr_count _ _ _ Hh). eexists. split.
  { erewrite st_bind_Ok; [done|]. apply index_clean_run. by rewrite Hl. }
  rewrite Hl, length_fmap. cbn. assert (length l = size m) as ->.
  { rewrite <- length_map_to_list. by rewrite Hp. }
  rewrite Z.sub_diag, (hr_length _ _ _ Hh).
  by apply (hash_create_rep w2 (h_size h)); apply Hh.
Qed.

(** * Sequences of operations *)

(** The calls a client makes on a table of data that are already allocated. *)
Inductive hash_op :=
  | OpIntern (d : D)
  | OpLookup (d : D)
  | OpRelease (d : D).

Definition op_data (o : hash_op) : D :=
  match o with OpIntern d | OpLookup d | OpRelease d => d end.

Definition run_op h (o : hash_op) : ST W (option D * hash D) :=
  match o with
  | OpIntern d => hash_get hash_key hash_cmp h d (Some hash_alloc_intern)
  | OpLookup d => hash_lookup hash_key hash_cmp h d
  | OpRelease d => hash_release hash_key hash_cmp h d
  end.

Fixpoint run_ops h (os : list hash_op) : ST W (list (option D) * hash D) :=
  match os with
  | [] => mret ([], h)
  | o :: os => run_op h o ≫= λ r, run_ops r.2 os ≫= λ rs, mret (r.1 :: rs.1, rs.2)
  end.

(** The same calls on the map from values to pointers. *)
Definition map_op w m (o : hash_op) : option D * gmap V D :=
  match hval w (op_data o) with
  | None => (None, m)
  | Some v =>
      match o with
      | OpIntern d =>
          match m !! v with
          | Some d' => (Some d', m)
          | None => (Some d, <[v := d]> m)
          end
      | OpLookup _ => (m !! v, m)
      | OpRelease _ => (m !! v, delete v m)
      end
  end.

Fixpoint map_ops w m (os : list hash_op) : list (option D) * gmap V D :=
  match os with
  | [] => ([], m)
  | o :: os =>
      let r := map_op w m o in
      let rs := map_ops w r.2 os in
      (r.1 :: rs.1, rs.2)
  end.

Lemma run_op_spec w h m o :
  hash_rep w h m → is_Some (hval w (op_data o)) →
  ∃ h', run_op h o w = Ok ((map_op w m o).1, h', w) ∧ hash_rep w h' (map_op w m o).2.
Proof.
  intros Hh [v Hv]. unfold map_op. rewrite Hv. destruct o as [d|d|d]; cbn in *.
  - destruct (m !! v) as [d'|] eqn:Hm; cbn.
    + exists h. split; [by eapply hash_get_found|done].
    + apply (hash_get_alloc w w); [done..| |done]. apply Hh.
  - exists h. split; [by apply hash_lookup_spec|done].
  - by apply hash_release_spec.
Qed.

Lemma run_ops_spec w h m os :
  hash_rep w h m → Forall (λ o, is_Some (hval w (op_data o))) os →
  ∃ h', run_ops h os w = Ok ((map_ops w m os).1, h', w) ∧ hash_rep w h' (map_ops w m os).2.
Proof.
  intros Hh Hos. revert h m Hh. induction Hos as [|o os Ho Hos IH]; intros h m Hh.
  { by exists h. }
  destruct (run_op_spec w h m o Hh Ho) as (h1 & H1 & Hh1).
  destruct (IH _ _ Hh1) as (h2 & H2 & Hh2). exists h2. split; [|done].
  cbn [run_ops map_ops]. erewrite st_bind_Ok by done. cbn. by erewrite st_bind_Ok by done.
Qed.

(** C23: on a table made by hash_create, any sequence of interning, lookup and
    release calls on readable data returns, without a fault, exactly the pointers
    the same calls return on a finite map from values to pointers, whatever the
    keys that collide, and the table has the map's contents and count afterwards. *)
Theorem hash_refines_map w os :
  Forall (λ o, is_Some (hval w (op_data o))) os →
  ∃ h', run_ops hash_create os w = Ok ((map_ops w ∅ os).1, h', w) ∧
        hash_rep w h' (map_ops w ∅ os).2.
Proof. intros Hos. apply run_ops_spec; [|done]. by apply hash_create_rep. Qed.

End refinement.

(** * A table of small numbers *)

(** Data that are numbers below 1000, found by their value modulo 7: the keys
    collide. *)
Definition mod7_val (w : unit) (d : Z) : option Z := if (0 <=? d) && (d <? 1000) then Some d else None.

#[export] Instance mod7_laws :
  HashLaws (λ (d : Z) (_ : unit), Ok (d mod 7)) (λ d1 d2 _, Ok (bool_decide (d1 = d2)))
    mod7_val (λ v, v mod 7).
Proof.
  unfold mod7_val. split.
  - intros w d v. case_match; naive_solver.
  - intros v. pose proof (Z.mod_pos_bound v 7). split; lia.
  - intros w d1 d2 v1 v2. repeat case_match; naive_solver.
Qed.

Lemma hash_refines_map_witness :
  ∃ h', run_ops (λ (d : Z) (_ : unit), Ok (d mod 7)) (λ d1 d2 _, Ok (bool_decide (d1 = d2)))
          hash_create [OpIntern 3; OpIntern 10; OpLookup 17; OpRelease 3; OpLookup 10; OpLookup 3] tt =
        Ok ([Some 3; Some 10; None; Some 3; Some 10; None], h', tt).
Proof.
  destruct (hash_refines_map _ _ mod7_val (λ v, v mod 7) tt
    [OpIntern 3; OpIntern 10; OpLookup 17; OpRelease 3; OpLookup 10; OpLookup 3]) as (h' & H & _).
  - repeat constructor; by eexists.
  - exists h'. exact H.
Defined.
