(* ===== verification/Aspath.v ===== *)
(** AS paths: bgpd/bgp_aspath.c.

    An AS path keeps the raw octets of the attribute: segments of a type octet, a
    length octet and as many two-octet AS numbers in network order.  A pointer
    into them is an offset; a null data pointer is [None].  An AS number is
    taken in host order, so a comparison with [htons (asno)] is one with [asno].
    Freshly allocated octets that are not written yet are zero here. *)

From Stdlib Require Import Ascii.
From stdpp Require Import strings pretty.
From S2P Require Import Prelude Prefix Text Stream.

Definition AS_SET : Z := 1.
Definition AS_SEQUENCE : Z := 2.
Definition AS_CONFED_SEQUENCE : Z := 3.
Definition AS_CONFED_SET : Z := 4.
Definition BGP_PRIVATE_AS_MIN : Z := 64512.
Definition BGP_PRIVATE_AS_MAX : Z := 65535.
Definition AS_HEADER_SIZE : Z := 2.
Definition AS_VALUE_SIZE : Z := 2.
Definition ASPATH_STR_DEFAULT_LEN : Z := 32.
Definition ASSEGMENT_SIZE (n : Z) : Z := AS_HEADER_SIZE + n * AS_VALUE_SIZE.

Record aspath := Aspath {
  a_refcnt : Z;
  a_length : Z;
  a_count : Z;
  a_data : option (list Z);
  a_str : option string;
}.

Definition aspath_new : aspath := Aspath 0 0 0 None None.

Definition set_adata (d : option (list Z)) (len : Z) (a : aspath) : aspath :=
  Aspath (a_refcnt a) len (a_count a) d (a_str a).
Definition set_count (c : Z) (a : aspath) : aspath :=
  Aspath (a_refcnt a) (a_length a) c (a_data a) (a_str a).
Definition set_str (s : option string) (a : aspath) : aspath :=
  Aspath (a_refcnt a) (a_length a) (a_count a) (a_data a) s.

(** The octets behind the data pointer. *)
Definition octets (a : aspath) : list Z := default [] (a_data a).

(** The fields of the segment at the offset [pnt]. *)
Definition seg_type (d : list Z) (pnt : Z) : res Z := get_byte d pnt.
Definition seg_length (d : list Z) (pnt : Z) : res Z := get_byte d (pnt + 1).
Definition seg_asval (d : list Z) (pnt i : Z) : res Z :=
  hi ← get_byte d (pnt + AS_HEADER_SIZE + i * AS_VALUE_SIZE);
  lo ← get_byte d (pnt + AS_HEADER_SIZE + i * AS_VALUE_SIZE + 1);
  Ok (hi * 256 + lo).

(** The AS numbers [asval[i] .. asval[i + n - 1]] of a segment. *)
Fixpoint seg_values (d : list Z) (pnt i : Z) (n : nat) : res (list Z) :=
  match n with
  | O => Ok []
  | S n =>
      v ← seg_asval d pnt i;
      vs ← seg_values d pnt (i + 1) n;
      Ok (v :: vs)
  end.

(** Store an AS number at the offset [off]. *)
Definition put_as (d : list Z) (off v : Z) : res (list Z) := put_bytes d off (be16 v).

(** ** Text *)

Definition AS_SEG_START : Z := 0.
Definition AS_SEG_END : Z := 1.

(** The table aspath_delim_char, as the loop over it finds a type. *)
Definition aspath_delimiter_char (type which : Z) : ascii :=
  let pick (s e : ascii) :=
    if which =? AS_SEG_START then s else if which =? AS_SEG_END then e else " "%char in
  if type =? AS_SET then pick "{"%char "}"%char
  else if type =? AS_SEQUENCE then pick " "%char " "%char
  else if type =? AS_CONFED_SET then pick "["%char "]"%char
  else if type =? AS_CONFED_SEQUENCE then pick "("%char ")"%char
  else " "%char.

(** [while (str_pnt + estimate_len >= str_size) str_size *= 2;] *)
Fixpoint buf_grow (fuel : nat) (need : Z) (b : strbuf) : res strbuf :=
  if Z.of_nat (length (fst b)) + need >=? snd b then
    match fuel with
    | O => Fail OutOfFuel
    | S fuel => buf_grow fuel need (fst b, snd b * 2)
    end
  else Ok b.

(** The loop over the AS numbers of one segment. *)
Fixpoint print_values (type : Z) (space : bool) (vs : list Z) (b : strbuf) : res (bool * strbuf) :=
  match vs with
  | [] => Ok (space, b)
  | v :: vs =>
      b ← (if space then
             buf_put (if (type =? AS_SET) || (type =? AS_CONFED_SET) then ","%char else " "%char) b
           else Ok b);
      b ← buf_printf v b;
      print_values type true vs b
  end.

Definition valid_type (type : Z) : bool :=
  (type =? AS_SET) || (type =? AS_SEQUENCE) || (type =? AS_CONFED_SET) ||
  (type =? AS_CONFED_SEQUENCE).

(** What one turn of aspath_make_str_count prints for a segment of the type
    [stype] behind one of the type [type]. *)
Definition print_segment (type : Z) (space : bool) (stype : Z) (vs : list Z) (b : strbuf) :
    res (bool * strbuf) :=
  let estimate_len := Z.of_nat (length vs) * 6 + 4 in
  b ← buf_grow (Z.to_nat (Z.of_nat (length (fst b)) + estimate_len)) estimate_len b;
  b ← (if negb (type =? AS_SEQUENCE) then buf_put (aspath_delimiter_char type AS_SEG_END) b else Ok b);
  b ← (if space then buf_put " "%char b else Ok b);
  b ← (if negb (stype =? AS_SEQUENCE) then buf_put (aspath_delimiter_char stype AS_SEG_START) b else Ok b);
  print_values stype false vs b.

(** What a segment adds to the count. *)
Definition seg_count (stype slen : Z) : Z :=
  if negb (stype =? AS_CONFED_SEQUENCE) && negb (stype =? AS_CONFED_SET) then
    if stype =? AS_SEQUENCE then slen
    else if stype =? AS_SET then 1 else 0
  else 0.

(** The loop of aspath_make_str_count: [None] for a malformed path, otherwise
    the type of the last segment, the text and the count.  A turn moves on by two
    octets at least, so the number of octets is fuel enough. *)
Fixpoint make_str_loop (fuel : nat) (d : list Z) (pnt fin type : Z) (space : bool) (count : Z)
    (b : strbuf) : res (option (Z * strbuf * Z)) :=
  if pnt <? fin then
    match fuel with
    | O => Fail OutOfFuel
    | S fuel =>
        stype ← seg_type d pnt;
        if negb (valid_type stype) then Ok None else
        slen ← seg_length d pnt;
        if pnt + slen * AS_VALUE_SIZE + AS_HEADER_SIZE >? fin then Ok None else
        vs ← seg_values d pnt 0 (Z.to_nat slen);
        '(space, b) ← print_segment type space stype vs b;
        make_str_loop fuel d (pnt + slen * AS_VALUE_SIZE + AS_HEADER_SIZE) fin stype space
          (count + seg_count stype slen) b
    end
  else Ok (Some (type, b, count)).

(** aspath_make_str_count: the text, or [None] for a null pointer, and the path
    with its count set. *)
Definition aspath_make_str_count (a : aspath) : res (option string * aspath) :=
  if a_length a =? 0 then Ok (Some "", set_count 0 a)
  else
    r ← make_str_loop (length (octets a)) (octets a) 0 (a_length a) AS_SEQUENCE false 0
          ([], ASPATH_STR_DEFAULT_LEN);
    match r with
    | None => Ok (None, a)
    | Some (type, b, count) =>
        b ← (if negb (type =? AS_SEQUENCE) then buf_put (aspath_delimiter_char type AS_SEG_END) b else Ok b);
        b' ← buf_put "000"%char b;
        Ok (Some (String.string_of_list_ascii (fst b)), set_count count a)
    end.

(** ** Copies *)

Definition aspath_dup (a : aspath) : res aspath :=
  if a_length a =? 0 then Ok (Aspath 0 0 0 None None)
  else
    d ← get_bytes (octets a) 0 (a_length a);
    Ok (Aspath 0 (a_length a) 0 (Some d) None).

Definition aspath_hash_alloc (arg : aspath) : res (option aspath) :=
  new ← aspath_dup arg;
  '(str, new) ← aspath_make_str_count new;
  match str with
  | None => Ok None
  | Some str => Ok (Some (set_str (Some str) new))
  end.

Definition aspath_empty_get : res aspath :=
  '(str, a) ← aspath_make_str_count aspath_new;
  Ok (set_str str a).

(** ** Aggregation *)

Definition aspath_aggregate_segment_copy (a : aspath) (d : list Z) (pnt i : Z) : res aspath :=
  type ← seg_type d pnt;
  vals ← get_bytes d (pnt + AS_HEADER_SIZE) (i * AS_VALUE_SIZE);
  let newseg := type :: u8 i :: vals in
  match a_data a with
  | None => Ok (set_adata (Some newseg) (ASSEGMENT_SIZE i) a)
  | Some old => Ok (set_adata (Some (old ++ newseg)) (a_length a + ASSEGMENT_SIZE i) a)
  end.

(** The set under construction is at the offset [asset]. *)
Definition aspath_aggregate_as_set_add (a : aspath) (asset : option Z) (as_ : Z) :
    res (aspath * option Z) :=
  match asset with
  | None =>
      let newseg := [AS_SET; 1] ++ be16 as_ in
      match a_data a with
      | None => Ok (set_adata (Some newseg) (ASSEGMENT_SIZE 1) a, Some 0)
      | Some old => Ok (set_adata (Some (old ++ newseg)) (a_length a + ASSEGMENT_SIZE 1) a,
                        Some (a_length a))
      end
  | Some off =>
      len ← seg_length (octets a) off;
      vs ← seg_values (octets a) off 0 (Z.to_nat len);
      if bool_decide (as_ ∈ vs) then Ok (a, Some off)
      else
        let d := octets a ++ [0; 0] in
        d ← put_as d (off + AS_HEADER_SIZE + len * AS_VALUE_SIZE) as_;
        d ← set_byte d (off + 1) (len + 1);
        Ok (set_adata (Some d) (a_length a + AS_VALUE_SIZE) a, Some off)
  end.

(** [for (match = 0; match < minlen; match++) if (...) break;]: the number of
    leading values that agree. *)
Fixpoint count_match (vs1 vs2 : list Z) : nat :=
  match vs1, vs2 with
  | v1 :: vs1, v2 :: vs2 => if v1 =? v2 then S (count_match vs1 vs2) else O
  | _, _ => O
  end.

(** The common leading sequence: the aggregate so far, the two offsets and the
    last value of [match]. *)
Fixpoint common_lead (fuel : nat) (d1 d2 : list Z) (cp1 end1 cp2 end2 mtch : Z) (a : option aspath) :
    res (option aspath * Z * Z * Z) :=
  if (cp1 <? end1) && (cp2 <? end2) then
    match fuel with
    | O => Fail OutOfFuel
    | S fuel =>
        t1 ← seg_type d1 cp1;
        t2 ← seg_type d2 cp2;
        if negb (t1 =? t2) then Ok (a, cp1, cp2, mtch) else
        len1 ← seg_length d1 cp1;
        len2 ← seg_length d2 cp2;
        let minlen := Z.min len1 len2 in
        vs1 ← seg_values d1 cp1 0 (Z.to_nat minlen);
        vs2 ← seg_values d2 cp2 0 (Z.to_nat minlen);
        let mtch := Z.of_nat (count_match vs1 vs2) in
        a ← (if mtch =? 0 then Ok a
             else a' ← aspath_aggregate_segment_copy (default aspath_new a) d1 cp1 mtch; Ok (Some a'));
        if negb (mtch =? minlen) || negb (mtch =? len1) || negb (len1 =? len2)
        then Ok (a, cp1, cp2, mtch)
        else common_lead fuel d1 d2 (cp1 + len1 * AS_VALUE_SIZE + AS_HEADER_SIZE) end1
               (cp2 + len2 * AS_VALUE_SIZE + AS_HEADER_SIZE) end2 mtch a
    end
  else Ok (a, cp1, cp2, mtch).

Fixpoint set_add_all (vs : list Z) (a : aspath) (asset : option Z) : res (aspath * option Z) :=
  match vs with
  | [] => Ok (a, asset)
  | v :: vs =>
      '(a, asset) ← aspath_aggregate_as_set_add a asset v;
      set_add_all vs a asset
  end.

(** The rest of a path goes into the set; the first [mtch] values of the first
    segment are left out. *)
Fixpoint rest_to_set (fuel : nat) (d : list Z) (cp fin mtch : Z) (a : aspath) (asset : option Z) :
    res (aspath * option Z) :=
  if cp <? fin then
    match fuel with
    | O => Fail OutOfFuel
    | S fuel =>
        len ← seg_length d cp;
        vs ← seg_values d cp mtch (Z.to_nat (len - mtch));
        '(a, asset) ← set_add_all vs a asset;
        rest_to_set fuel d (cp + len * AS_VALUE_SIZE + AS_HEADER_SIZE) fin 0 a asset
    end
  else Ok (a, asset).

Definition aspath_aggregate (as1 as2 : aspath) : res aspath :=
  let d1 := octets as1 in
  let d2 := octets as2 in
  '(a, cp1, cp2, mtch) ← common_lead (length d1) d1 d2 0 (a_length as1) 0 (a_length as2) 0 None;
  let a := default aspath_new a in
  '(a, asset) ← rest_to_set (length d1) d1 cp1 (a_length as1) mtch a None;
  '(a, _) ← rest_to_set (length d2) d2 cp2 (a_length as2) mtch a asset;
  Ok a.

(** ** Checks *)

Definition aspath_firstas_check (a : option aspath) (asno : Z) : res bool :=
  match a with
  | None => Ok false
  | Some a =>
      match a_data a with
      | None => Ok false
      | Some d =>
          t ← seg_type d 0;
          if t =? AS_SEQUENCE then v ← seg_asval d 0 0; Ok (v =? asno) else Ok false
      end
  end.

Fixpoint loop_check_loop (fuel : nat) (d : list Z) (pnt fin asno count : Z) : res Z :=
  if pnt <? fin then
    match fuel with
    | O => Fail OutOfFuel
    | S fuel =>
        len ← seg_length d pnt;
        vs ← seg_values d pnt 0 (Z.to_nat len);
        loop_check_loop fuel d (pnt + len * AS_VALUE_SIZE + AS_HEADER_SIZE) fin asno
          (count + Z.of_nat (length (filter (λ v, v = asno) vs)))
    end
  else Ok count.

Definition aspath_loop_check (a : option aspath) (asno : Z) : res Z :=
  match a with
  | None => Ok 0
  | Some a => loop_check_loop (length (octets a)) (octets a) 0 (a_length a) asno 0
  end.

Definition is_private (v : Z) : bool := negb ((v <? BGP_PRIVATE_AS_MIN) || (v >? BGP_PRIVATE_AS_MAX)).

Fixpoint private_loop (fuel : nat) (d : list Z) (pnt fin : Z) : res bool :=
  if pnt <? fin then
    match fuel with
    | O => Fail OutOfFuel
    | S fuel =>
        len ← seg_length d pnt;
        vs ← seg_values d pnt 0 (Z.to_nat len);
        if forallb is_private vs
        then private_loop fuel d (pnt + len * AS_VALUE_SIZE + AS_HEADER_SIZE) fin
        else Ok false
    end
  else Ok true.

Definition aspath_private_as_check (a : option aspath) : res bool :=
  match a with
  | None => Ok false
  | Some a =>
      if a_length a =? 0 then Ok false
      else private_loop (length (octets a)) (octets a) 0 (a_length a)
  end.

(** ** Prepending *)

Definition aspath_merge (as1 as2 : option aspath) : res (option aspath) :=
  match as1, as2 with
  | Some as1, Some as2 =>
      d1 ← get_bytes (octets as1) 0 (a_length as1);
      d2 ← get_bytes (octets as2) 0 (a_length as2);
      Ok (Some (set_count (a_count as2 + a_count as1)
                  (set_adata (Some (d1 ++ d2)) (a_length as2 + a_length as1) as2)))
  | _, _ => Ok None
  end.

(** The last segment of a path. *)
Fixpoint last_segment (fuel : nat) (d : list Z) (pnt fin : Z) (seg : option Z) : res (option Z) :=
  if pnt <? fin then
    match fuel with
    | O => Fail OutOfFuel
    | S fuel =>
        len ← seg_length d pnt;
        last_segment fuel d (pnt + len * AS_VALUE_SIZE + AS_HEADER_SIZE) fin (Some pnt)
    end
  else Ok seg.

Definition aspath_prepend (as1 as2 : option aspath) : res (option aspath) :=
  match as1, as2 with
  | Some a1, Some a2 =>
      match a_data a2 with
      | None =>
          d ← get_bytes (octets a1) 0 (a_length a1);
          Ok (Some (set_count (a_count a1) (set_adata (Some d) (a_length a1) a2)))
      | Some d2 =>
          seg1 ← last_segment (length (octets a1)) (octets a1) 0 (a_length a1) None;
          match seg1 with
          | None => Ok (Some a2)
          | Some seg1 =>
              t1 ← seg_type (octets a1) seg1;
              t2 ← seg_type d2 0;
              if negb (t1 =? t2) then aspath_merge as1 as2
              else if t1 =? AS_SEQUENCE then
                front ← get_bytes (octets a1) 0 (a_length a1);
                len1 ← seg_length front seg1;
                len2 ← seg_length d2 0;
                front ← set_byte front (seg1 + 1) (len1 + len2);
                back ← get_bytes d2 AS_HEADER_SIZE (a_length a2 - AS_HEADER_SIZE);
                Ok (Some (set_count (a_count a2 + a_count a1)
                      (set_adata (Some (front ++ back)) (a_length a2 + (a_length a1 - AS_HEADER_SIZE)) a2)))
              else aspath_merge as1 as2
          end
      end
  | _, _ => Ok None
  end.

Definition aspath_add_one_as (a : aspath) (asno type : Z) : res aspath :=
  let fresh_segment :=
    set_adata (Some ([type; 1] ++ be16 asno)) (AS_HEADER_SIZE + AS_VALUE_SIZE) a in
  match a_data a with
  | None => Ok fresh_segment
  | Some d =>
      len ← seg_length d 0;
      if len =? 0 then Ok fresh_segment else
      t ← seg_type d 0;
      if t =? type then
        rest ← get_bytes d AS_HEADER_SIZE (a_length a - AS_HEADER_SIZE);
        Ok (set_adata (Some ([type; u8 (len + 1)] ++ be16 asno ++ rest)) (a_length a + AS_VALUE_SIZE) a)
      else
        rest ← get_bytes d 0 (a_length a);
        Ok (set_adata (Some ([type; 1] ++ be16 asno ++ rest))
              (a_length a + (AS_HEADER_SIZE + AS_VALUE_SIZE)) a)
  end.

Definition aspath_add_seq (a : aspath) (asno : Z) : res aspath :=
  aspath_add_one_as a asno AS_SEQUENCE.

Definition aspath_add_confed_seq (a : aspath) (asno : Z) : res aspath :=
  aspath_add_one_as a asno AS_CONFED_SEQUENCE.

(** ** Leftmost AS *)

(** [while (seg && seg->length && (seg is a confederation segment)) ...]: the loop
    stops at no end pointer. *)
Fixpoint skip_confed (fuel : nat) (d : list Z) (seg : Z) : res Z :=
  len ← seg_length d seg;
  if len =? 0 then Ok seg else
  t ← seg_type d seg;
  if (t =? AS_CONFED_SEQUENCE) || (t =? AS_CONFED_SET) then
    match fuel with
    | O => Fail OutOfFuel
    | S fuel => skip_confed fuel d (seg + ASSEGMENT_SIZE len)
    end
  else Ok seg.

(** The first AS number of a segment of the type [type] at [seg]. *)
Definition leftmost (d : list Z) (seg type : Z) : res (option Z) :=
  len ← seg_length d seg;
  if len =? 0 then Ok None else
  t ← seg_type d seg;
  if negb (t =? type) then Ok None
  else v ← seg_asval d seg 0; Ok (Some v).

Definition aspath_cmp_left (as1 as2 : aspath) : res bool :=
  seg1 ← match a_data as1 with
         | None => Ok None
         | Some d => s ← skip_confed (length d) d 0; Ok (Some s)
         end;
  seg2 ← match a_data as2 with
         | None => Ok None
         | Some d => s ← skip_confed (length d) d 0; Ok (Some s)
         end;
  v1 ← match seg1 with None => Ok None | Some s => leftmost (octets as1) s AS_SEQUENCE end;
  match v1 with
  | None => Ok false
  | Some v1 =>
      v2 ← match seg2 with None => Ok None | Some s => leftmost (octets as2) s AS_SEQUENCE end;
      match v2 with None => Ok false | Some v2 => Ok (v1 =? v2) end
  end.

Definition aspath_cmp_left_confed (as1 as2 : aspath) : res bool :=
  if negb (a_count as1 =? 0) || negb (a_count as2 =? 0) then Ok false
  else
    v1 ← match a_data as1 with None => Ok None | Some d => leftmost d 0 AS_CONFED_SEQUENCE end;
    match v1 with
    | None => Ok false
    | Some v1 =>
        v2 ← match a_data as2 with None => Ok None | Some d => leftmost d 0 AS_CONFED_SEQUENCE end;
        match v2 with None => Ok false | Some v2 => Ok (v1 =? v2) end
    end.

(** The loop of aspath_delete_confed_seq; every turn drops a segment. *)
Fixpoint delete_confed_loop (fuel : nat) (a : aspath) : res aspath :=
  match a_data a with
  | None => Ok a
  | Some d =>
      t ← seg_type d 0;
      if negb (t =? AS_CONFED_SEQUENCE) then Ok a else
      len ← seg_length d 0;
      let seglen := len * AS_VALUE_SIZE + AS_HEADER_SIZE in
      match fuel with
      | O => Fail OutOfFuel
      | S fuel =>
          if seglen =? a_length a then delete_confed_loop fuel (set_adata None 0 a)
          else
            d ← get_bytes d seglen (a_length a - seglen);
            delete_confed_loop fuel (set_adata (Some d) (a_length a - seglen) a)
      end
  end.

Definition aspath_delete_confed_seq (a : option aspath) : res (option aspath) :=
  match a with
  | None => Ok None
  | Some a => a ← delete_confed_loop (length (octets a)) a; Ok (Some a)
  end.

(** ** Parsing text *)

(** The segment found by the loop of aspath_as_add. *)
Fixpoint as_add_search (fuel : nat) (d : list Z) (pnt fin seg : Z) : res Z :=
  if pnt + 2 <? fin then
    match fuel with
    | O => Fail OutOfFuel
    | S fuel =>
        len ← seg_length d pnt;
        as_add_search fuel d (pnt + (AS_HEADER_SIZE + len * AS_VALUE_SIZE)) fin pnt
    end
  else Ok seg.

Definition aspath_as_add (a : aspath) (asno : Z) : res aspath :=
  let d := octets a ++ [0; 0] in
  let len := a_length a + 2 in
  seg ← as_add_search (length d) d 0 len 0;
  n ← seg_length d seg;
  d ← put_as d (seg + AS_HEADER_SIZE + n * AS_VALUE_SIZE) asno;
  d ← set_byte d (seg + 1) (n + 1);
  Ok (set_adata (Some d) len a).

Definition aspath_segment_add (a : aspath) (type : Z) : aspath :=
  match a_data a with
  | None => set_adata (Some [u8 type; 0]) 2 a
  | Some d => set_adata (Some (d ++ [u8 type; 0])) (a_length a + 2) a
  end.

Inductive as_token :=
  | as_token_asval (asno : Z)
  | as_token_set_start
  | as_token_set_end
  | as_token_confed_start
  | as_token_confed_end
  | as_token_unknown.

(** The digits of a number; the value is kept in 16 bits. *)
Fixpoint gettoken_digits (asval : Z) (s : string) : Z * string :=
  match s with
  | String c s' =>
      if isdigit c
      then gettoken_digits (u16 (u16 (asval * 10) + (Z.of_nat (nat_of_ascii c) - 48))) s'
      else (asval, s)
  | EmptyString => (asval, EmptyString)
  end.

(** The next token and the text behind it, [None] at the end of the text. *)
Fixpoint aspath_gettoken (s : string) : option (as_token * string) :=
  match s with
  | EmptyString => None
  | String c s' =>
      if isspace c then aspath_gettoken s'
      else if bool_decide (c = "{"%char) then Some (as_token_set_start, s')
      else if bool_decide (c = "}"%char) then Some (as_token_set_end, s')
      else if bool_decide (c = "("%char) then Some (as_token_confed_start, s')
      else if bool_decide (c = ")"%char) then Some (as_token_confed_end, s')
      else if isdigit c then
        let '(v, s'') := gettoken_digits (Z.of_nat (nat_of_ascii c) - 48) s' in
        Some (as_token_asval v, s'')
      else Some (as_token_unknown, s)
  end.

(** The loop of aspath_str2aspath; a token takes a character at least. *)
Fixpoint str2aspath_loop (fuel : nat) (s : string) (a : aspath) (as_type : Z) (needtype : bool) :
    res (option aspath) :=
  match aspath_gettoken s with
  | None => Ok (Some a)
  | Some (token, s) =>
      match fuel with
      | O => Fail OutOfFuel
      | S fuel =>
          match token with
          | as_token_asval asno =>
              let a := if needtype then aspath_segment_add a as_type else a in
              a ← aspath_as_add a asno;
              str2aspath_loop fuel s a as_type false
          | as_token_set_start =>
              str2aspath_loop fuel s (aspath_segment_add a AS_SET) AS_SET false
          | as_token_set_end => str2aspath_loop fuel s a AS_SEQUENCE true
          | as_token_confed_start =>
              str2aspath_loop fuel s (aspath_segment_add a AS_CONFED_SEQUENCE) AS_CONFED_SEQUENCE false
          | as_token_confed_end => str2aspath_loop fuel s a AS_SEQUENCE true
          | as_token_unknown => Ok None
          end
      end
  end.

Definition aspath_str2aspath (str : string) : res (option aspath) :=
  a ← str2aspath_loop (String.length str) str aspath_new AS_SEQUENCE true;
  match a with
  | None => Ok None
  | Some a =>
      '(s, a) ← aspath_make_str_count a;
      Ok (Some (set_str s a))
  end.

(** ** Hash keys *)

(** aspath_key_make sums 16-bit words as the machine reads them; [word] gives the
    value of two octets in memory. *)
Fixpoint key_loop (word : Z → Z → Z) (length : nat) (d : list Z) (key : Z) : res Z :=
  match length, d with
  | O, _ => Ok key
  | S length, a :: b :: d => key_loop word length d (u32 (key + word a b))
  | S _, _ => Fail OutOfBounds
  end.

Definition aspath_key_make (word : Z → Z → Z) (a : aspath) : res Z :=
  key_loop word (Z.to_nat (a_length a / 2)) (octets a) 0.

Definition aspath_cmp (as1 as2 : aspath) : bool :=
  (a_length as1 =? a_length as2) &&
  memsame (octets as1) (octets as2) (Z.to_nat (a_length as1)).

(** * Segments

    A well-formed path is the encoding of a list of segments. *)

Abbreviation seg := (Z * list Z)%type.

Definition vals_bytes (vs : list Z) : list Z := vs ≫= be16.
Definition seg_bytes (s : seg) : list Z := s.1 :: Z.of_nat (length s.2) :: vals_bytes s.2.
Definition segs_bytes (ss : list seg) : list Z := ss ≫= seg_bytes.

(** The types of RFC 1771 and RFC 3065: 1 is a set, 2 a sequence, 3 a confederation
    set, 4 a confederation sequence. *)
Definition type_ok (t : Z) : Prop := 1 ≤ t ≤ 4.

Definition seg_ok (s : seg) : Prop :=
  type_ok s.1 ∧ (length s.2 ≤ 255)%nat ∧ Forall is_u16 s.2.

(** The path [a] holds the segments [ss]. *)
Record path_ok (a : aspath) (ss : list seg) : Prop := PathOk {
  po_octets : octets a = segs_bytes ss;
  po_length : a_length a = Z.of_nat (length (octets a));
  po_segs : Forall seg_ok ss;
}.

Definition all_values (ss : list seg) : list Z := ss ≫= snd.

Lemma be16_bytes v : is_u16 v → be16 v = [v / 256; v mod 256].
Proof.
  intros Hv. unfold be16, u8, is_u16 in *. rewrite Z.shiftr_div_pow2 by lia.
  change (2^8) with 256. rewrite (Z.mod_small (v / 256)) by dm_lia. done.
Qed.

Lemma length_vals_bytes vs : length (vals_bytes vs) = (2 * length vs)%nat.
Proof. induction vs as [|v vs IH]; [done|]. unfold vals_bytes in *. cbn. lia. Qed.

Lemma length_seg_bytes s : length (seg_bytes s) = (2 + 2 * length s.2)%nat.
Proof. unfold seg_bytes. cbn [length]. rewrite length_vals_bytes. lia. Qed.

Lemma valid_type_range t : valid_type t = true ↔ type_ok t.
Proof. unfold type_ok,  valid_type, AS_SET, AS_SEQUENCE, AS_CONFED_SET, AS_CONFED_SEQUENCE. lia. Qed.

Lemma seg_valid_u8 t : type_ok t → is_u8 t.
Proof. unfold type_ok, is_u8. lia. Qed.

Lemma get_byte_app pre x rest i :
  i = Z.of_nat (length pre) → get_byte (pre ++ x :: rest) i = Ok x.
Proof.
  intros ->. apply get_byte_Ok. split; [lia|]. rewrite Nat2Z.id. by apply list_lookup_middle.
Qed.

Lemma seg_asval_app pre v rest pnt i :
  is_u16 v → pnt + AS_HEADER_SIZE + i * AS_VALUE_SIZE = Z.of_nat (length pre) →
  seg_asval (pre ++ be16 v ++ rest) pnt i = Ok v.
Proof.
  intros Hv Hoff. unfold seg_asval. rewrite Hoff, be16_bytes by done. cbn [app].
  rewrite (get_byte_app pre (v / 256) _ (Z.of_nat (length pre))) by done. cbn [mbind res_bind].
  replace (pre ++ v / 256 :: v mod 256 :: rest) with ((pre ++ [v / 256]) ++ v mod 256 :: rest)
    by (by rewrite <-app_assoc).
  rewrite get_byte_app by (rewrite length_app; cbn; lia). cbn. f_equal. dm_lia.
Qed.

Lemma seg_values_app pre vs rest pnt i :
  Forall is_u16 vs → pnt + AS_HEADER_SIZE + i * AS_VALUE_SIZE = Z.of_nat (length pre) →
  seg_values (pre ++ vals_bytes vs ++ rest) pnt i (length vs) = Ok vs.
Proof.
  intros Hvs. revert pre i. induction Hvs as [|v vs Hv Hvs IH]; intros pre i Hoff; [done|].
  unfold vals_bytes in *. cbn [length seg_values mbind list_bind]. rewrite <-app_assoc.
  rewrite seg_asval_app by done. cbn [mbind res_bind].
  specialize (IH (pre ++ be16 v) (i + 1)). rewrite <-app_assoc in IH. rewrite IH; [done|].
  rewrite length_app. unfold AS_HEADER_SIZE, AS_VALUE_SIZE in *. cbn. lia.
Qed.

(** The three reads of a segment that lies behind [pre]. *)
Lemma read_segment pre s rest pnt :
  seg_ok s → pnt = Z.of_nat (length pre) →
  let d := pre ++ seg_bytes s ++ rest in
  seg_type d pnt = Ok s.1 ∧ seg_length d pnt = Ok (Z.of_nat (length s.2)) ∧
  seg_values d pnt 0 (length s.2) = Ok s.2.
Proof.
  intros (Ht & Hl & Hv) -> d. unfold d, seg_bytes. split_and!.
  - by apply get_byte_app.
  - unfold seg_length. cbn [app].
    replace (pre ++ s.1 :: Z.of_nat (length s.2) :: vals_bytes s.2 ++ rest)
      with ((pre ++ [s.1]) ++ Z.of_nat (length s.2) :: vals_bytes s.2 ++ rest) by (by rewrite <-app_assoc).
    apply get_byte_app. rewrite length_app. cbn. lia.
  - replace (pre ++ (s.1 :: Z.of_nat (length s.2) :: vals_bytes s.2) ++ rest)
      with ((pre ++ [s.1; Z.of_nat (length s.2)]) ++ vals_bytes s.2 ++ rest) by (by rewrite <-app_assoc).
    apply seg_values_app; [done|]. rewrite length_app. unfold AS_HEADER_SIZE, AS_VALUE_SIZE. cbn. lia.
Qed.

Lemma next_segment pre s rest :
  Z.of_nat (length pre) + Z.of_nat (length s.2) * AS_VALUE_SIZE + AS_HEADER_SIZE =
    Z.of_nat (length (pre ++ seg_bytes s)) ∧
  pre ++ seg_bytes s ++ rest = (pre ++ seg_bytes s) ++ rest.
Proof.
  rewrite length_app, length_seg_bytes, app_assoc. unfold AS_VALUE_SIZE, AS_HEADER_SIZE. split; [lia|done].
Qed.

Lemma segs_bytes_cons s ss : segs_bytes (s :: ss) = seg_bytes s ++ segs_bytes ss.
Proof. done. Qed.

Lemma segs_length ss : (2 * length ss ≤ length (segs_bytes ss))%nat.
Proof.
  induction ss as [|s ss IH]; [done|]. rewrite segs_bytes_cons, length_app, length_seg_bytes. cbn. lia.
Qed.

(** ** Checks *)

Lemma loop_check_spec fuel pre ss asno count :
  Forall seg_ok ss → (length ss ≤ fuel)%nat →
  loop_check_loop fuel (pre ++ segs_bytes ss) (Z.of_nat (length pre))
    (Z.of_nat (length (pre ++ segs_bytes ss))) asno count =
  Ok (count + Z.of_nat (length (filter (λ v, v = asno) (all_values ss)))).
Proof.
  intros Hss. revert fuel pre count. induction Hss as [|s ss Hs Hss IH]; intros fuel pre count Hf.
  - cbn [segs_bytes mbind list_bind]. rewrite app_nil_r. unfold all_values. cbn [mbind list_bind].
    destruct fuel; cbn [loop_check_loop]; rewrite Z.ltb_irrefl; f_equal; cbn; lia.
  - destruct fuel as [|fuel]; [cbn in Hf; lia|]. rewrite segs_bytes_cons.
    cbn [loop_check_loop].
    rewrite (proj2 (Z.ltb_lt _ _)) by (rewrite !length_app, length_seg_bytes; lia).
    destruct (read_segment pre s (segs_bytes ss) _ Hs eq_refl) as (_ & Hl & Hv).
    rewrite Hl. cbn [mbind res_bind]. rewrite Nat2Z.id, Hv. cbn [mbind res_bind].
    destruct (next_segment pre s (segs_bytes ss)) as [-> ->].
    rewrite IH by (cbn in Hf; lia). f_equal. unfold all_values. cbn [mbind list_bind].
    rewrite filter_app, length_app. lia.
Qed.

(** aspath_loop_check terminates without a fault on a well-formed path and
    counts the occurrences of the AS number in all its segments. *)
Theorem aspath_loop_check_counts a ss asno :
  path_ok a ss →
  aspath_loop_check (Some a) asno = Ok (Z.of_nat (length (filter (λ v, v = asno) (all_values ss)))).
Proof.
  intros [Ho Hl Hs]. unfold aspath_loop_check. rewrite Hl, Ho.
  rewrite (loop_check_spec _ [] ss) by (done || (pose proof (segs_length ss); cbn; lia)).
  f_equal.
Qed.

(** ** Adding an AS number at the left *)

(** The segments after an AS number is put in front. *)
Definition add_left (asno type : Z) (ss : list seg) : list seg :=
  match ss with
  | [] => [(type, [asno])]
  | (t, vs) :: rest => if t =? type then (t, asno :: vs) :: rest else (type, [asno]) :: ss
  end.

Lemma get_bytes_all d n : n = Z.of_nat (length d) → get_bytes d 0 n = Ok d.
Proof. intros ->. rewrite get_bytes_in by lia. rewrite drop_0, Nat2Z.id. by rewrite firstn_all. Qed.

Lemma get_bytes_tail pre d off n :
  off = Z.of_nat (length pre) → n = Z.of_nat (length d) → get_bytes (pre ++ d) off n = Ok d.
Proof.
  intros -> ->. rewrite get_bytes_in by (rewrite ?length_app; lia).
  rewrite !Nat2Z.id, drop_app_length. by rewrite firstn_all.
Qed.

(** aspath_add_one_as puts the AS number in front of the first segment when it
    has the type asked for, and in a segment of its own otherwise; the path stays
    well-formed as long as the first segment is not full. *)
Theorem aspath_add_one_as_left a ss asno type :
  path_ok a ss → type_ok type → is_u16 asno →
  (∀ t vs rest, ss = (t, vs) :: rest → (1 ≤ length vs ≤ 254)%nat) →
  (a_data a = None ↔ ss = []) →
  ∃ a', aspath_add_one_as a asno type = Ok a' ∧ path_ok a' (add_left asno type ss) ∧
    all_values (add_left asno type ss) = asno :: all_values ss.
Proof.
  intros [Ho Hl Hs] Ht Ha Hfirst Hnone. unfold aspath_add_one_as.
  assert (is_u8 1) as H1 by done.
  destruct ss as [|[t vs] rest].
  - rewrite (proj2 Hnone eq_refl). eexists. split_and!; [reflexivity| |done].
    split; [done|done|]. constructor; [|constructor]. split_and!; [done|cbn; lia|by constructor].
  - destruct (a_data a) as [d|] eqn:Ed; [|by specialize (proj1 Hnone eq_refl)].
    assert (d = segs_bytes ((t, vs) :: rest)) as -> by (unfold octets in Ho; by rewrite Ed in Ho).
    destruct (Hfirst t vs rest eq_refl) as [Hv1 Hv2].
    pose proof Hs as Hs'. apply Forall_cons in Hs' as [Hseg Hrest]. pose proof Hseg as (Htv & _ & Hvs).
    destruct (read_segment [] (t, vs) (segs_bytes rest) 0 Hseg eq_refl) as (Hty & Hln & _).
    cbn [app fst snd] in Hty, Hln. rewrite segs_bytes_cons, Hln. cbn [mbind res_bind].
    rewrite (proj2 (Z.eqb_neq _ 0)) by lia. rewrite Hty. cbn [mbind res_bind add_left].
    rewrite Hl, Ho, segs_bytes_cons. destruct (Z.eqb_spec t type) as [->|Hne].
    + change (seg_bytes (type, vs)) with ([type; Z.of_nat (length vs)] ++ vals_bytes vs).
      rewrite <-app_assoc, get_bytes_tail
        by (unfold AS_HEADER_SIZE; rewrite ?length_app; cbn [length]; lia). cbn [mbind res_bind].
      rewrite u8_id by (unfold is_u8; lia).
      eexists. split_and!; [reflexivity| |done]. split.
      * unfold octets. cbn [a_data set_adata default from_option]. rewrite segs_bytes_cons.
        unfold seg_bytes, vals_bytes. cbn [fst snd length mbind list_bind]. unfold id.
        cbn [app]. rewrite <-app_assoc. do 2 f_equal. lia.
      * cbn. rewrite !length_app. cbn. unfold AS_VALUE_SIZE. lia.
      * constructor; [|done]. split_and!; [done|cbn; lia|by constructor].
    + rewrite get_bytes_all by done. cbn [mbind res_bind]. eexists. split_and!; [reflexivity| |done]. split.
      * done.
      * cbn. rewrite !length_app. unfold AS_HEADER_SIZE, AS_VALUE_SIZE. cbn. lia.
      * constructor; [|done]. split_and!; [done|cbn; lia|by constructor].
Qed.

(** The length octet of a full segment wraps: an AS number put in front of a
    first segment of 255 gives a segment that says it is empty. *)
Theorem aspath_add_one_as_wraps a vs rest asno type :
  path_ok a ((type, vs) :: rest) → a_data a ≠ None → length vs = 255%nat →
  ∃ a', aspath_add_one_as a asno type = Ok a' ∧ seg_length (octets a') 0 = Ok 0.
Proof.
  intros [Ho Hl Hs] Hd H255. unfold aspath_add_one_as.
  destruct (a_data a) as [d|] eqn:Ed; [|done].
  assert (d = segs_bytes ((type, vs) :: rest)) as -> by (unfold octets in Ho; by rewrite Ed in Ho).
  apply Forall_cons in Hs as [Hseg Hrest].
  destruct (read_segment [] (type, vs) (segs_bytes rest) 0 Hseg eq_refl) as (Hty & Hln & _).
  cbn [app fst snd] in Hty, Hln. rewrite segs_bytes_cons, Hln. cbn [mbind res_bind].
  rewrite (proj2 (Z.eqb_neq _ 0)) by lia. rewrite Hty. cbn [mbind res_bind]. rewrite Z.eqb_refl.
  change (seg_bytes (type, vs)) with ([type; Z.of_nat (length vs)] ++ vals_bytes vs).
  rewrite Hl, Ho, segs_bytes_cons.
  change (seg_bytes (type, vs)) with ([type; Z.of_nat (length vs)] ++ vals_bytes vs).
  rewrite <-!app_assoc, get_bytes_tail
        by (unfold AS_HEADER_SIZE; rewrite ?length_app; cbn [length]; lia). cbn [mbind res_bind].
  rewrite H255. eexists. split; [reflexivity|]. done.
Qed.

(** ** Prepending a path *)

Lemma last_segment_spec fuel pre ss s o :
  Forall seg_ok (ss ++ [s]) → (length (ss ++ [s]) ≤ fuel)%nat →
  last_segment fuel (pre ++ segs_bytes (ss ++ [s])) (Z.of_nat (length pre))
    (Z.of_nat (length (pre ++ segs_bytes (ss ++ [s])))) o =
  Ok (Some (Z.of_nat (length (pre ++ segs_bytes ss)))).
Proof.
  revert fuel pre o. induction ss as [|s0 ss IH]; intros fuel pre o Hs Hf;
    (destruct fuel as [|fuel]; [cbn in Hf; lia|]); apply Forall_cons in Hs as [Hs0 Hs];
    cbn [app last_segment]; rewrite segs_bytes_cons;
    rewrite (proj2 (Z.ltb_lt _ _)) by (rewrite !length_app, length_seg_bytes; lia).
  - destruct (read_segment pre s (segs_bytes []) _ Hs0 eq_refl) as (_ & -> & _). cbn [mbind res_bind].
    destruct (next_segment pre s (segs_bytes [])) as [-> ->]. cbn [segs_bytes mbind list_bind].
    rewrite !app_nil_r. destruct fuel; cbn [last_segment]; by rewrite Z.ltb_irrefl.
  - destruct (read_segment pre s0 (segs_bytes (ss ++ [s])) _ Hs0 eq_refl) as (_ & -> & _).
    cbn [mbind res_bind]. destruct (next_segment pre s0 (segs_bytes (ss ++ [s]))) as [-> ->].
    rewrite IH by (done || (cbn in Hf; lia)). by rewrite segs_bytes_cons, app_assoc.
Qed.

Lemma segs_bytes_app ss1 ss2 : segs_bytes (ss1 ++ ss2) = segs_bytes ss1 ++ segs_bytes ss2.
Proof. apply bind_app. Qed.

(** The segments of two paths put together: two sequences that meet become one. *)
Definition join_segs (ss1 ss2 : list seg) : list seg :=
  match last ss1, ss2 with
  | Some (t1, vs1), (t2, vs2) :: rest =>
      if (t1 =? t2) && (t1 =? AS_SEQUENCE)
      then take (length ss1 - 1) ss1 ++ (t1, vs1 ++ vs2) :: rest
      else ss1 ++ ss2
  | _, _ => ss1 ++ ss2
  end.

Lemma aspath_merge_spec a1 a2 ss1 ss2 :
  path_ok a1 ss1 → path_ok a2 ss2 →
  ∃ a, aspath_merge (Some a1) (Some a2) = Ok (Some a) ∧ path_ok a (ss1 ++ ss2).
Proof.
  intros [Ho1 Hl1 Hs1] [Ho2 Hl2 Hs2]. unfold aspath_merge.
  rewrite !get_bytes_all by done. cbn [mbind res_bind]. eexists. split; [done|]. split; cbn.
  - by rewrite Ho1, Ho2, segs_bytes_app.
  - rewrite Hl1, Hl2, length_app. lia.
  - by apply Forall_app.
Qed.

(** aspath_prepend puts the segments of the first path before those of the
    second, and makes one sequence of two that meet; the AS numbers are those of
    the first path followed by those of the second. *)
Theorem aspath_prepend_joins a1 a2 ss1 ss2 :
  path_ok a1 ss1 → path_ok a2 ss2 → (a_data a2 = None ↔ ss2 = []) →
  (∀ t1 vs1 t2 vs2 rest, last ss1 = Some (t1, vs1) → ss2 = (t2, vs2) :: rest →
     (length vs1 + length vs2 ≤ 255)%nat) →
  ∃ a, aspath_prepend (Some a1) (Some a2) = Ok (Some a) ∧ path_ok a (join_segs ss1 ss2) ∧
    all_values (join_segs ss1 ss2) = all_values ss1 ++ all_values ss2.
Proof.
  intros Hp1 Hp2 Hnone Hfit. pose proof Hp1 as [Ho1 Hl1 Hs1]. pose proof Hp2 as [Ho2 Hl2 Hs2].
  assert (all_values (ss1 ++ ss2) = all_values ss1 ++ all_values ss2) as Hall by apply bind_app.
  unfold aspath_prepend. destruct (a_data a2) as [d2|] eqn:Ed.
  2:{ rewrite (proj1 Hnone eq_refl) in *. rewrite get_bytes_all by done. cbn [mbind res_bind].
      assert (join_segs ss1 [] = ss1) as Hj
        by (unfold join_segs; destruct (last ss1) as [[]|]; by rewrite app_nil_r).
      rewrite Hj, app_nil_r in *. eexists. split_and!; [reflexivity|by split|done]. }
  assert (d2 = segs_bytes ss2) as -> by (unfold octets in Ho2; by rewrite Ed in Ho2).
  destruct ss2 as [|[t2 vs2] rest2]; [by specialize (proj2 Hnone eq_refl)|].
  rewrite Hl1, Ho1. destruct ss1 as [|[t1 vs1] ss1 _] using rev_ind.
  { cbn. eexists. split_and!; [reflexivity|done|done]. }
  pose proof (segs_length (ss1 ++ [(t1, vs1)])) as Hlen.
  pose proof (last_segment_spec (length (segs_bytes (ss1 ++ [(t1, vs1)]))) [] ss1 (t1, vs1) None Hs1
    ltac:(lia)) as Hls. cbn [app length] in Hls. change (Z.of_nat 0) with 0 in Hls. rewrite Hls. clear Hls Hlen.
  cbn [mbind res_bind]. pose proof Hs1 as Hs1'. apply Forall_app in Hs1' as [Hs1a Hs1b].
  apply Forall_cons in Hs1b as [Hsg1 _]. pose proof Hs2 as Hs2'. apply Forall_cons in Hs2' as [Hsg2 Hs2r].
  rewrite segs_bytes_app.
  change (segs_bytes [(t1, vs1)]) with (seg_bytes (t1, vs1) ++ segs_bytes []).
  destruct (read_segment (segs_bytes ss1) (t1, vs1) (segs_bytes []) _ Hsg1 eq_refl) as (Ht1 & Hn1 & _).
  destruct (read_segment [] (t2, vs2) (segs_bytes rest2) 0 Hsg2 eq_refl) as (Ht2 & Hn2 & _).
  cbn [app fst snd] in Ht2, Hn2, Ht1, Hn1. rewrite Ht1. cbn [mbind res_bind].
  rewrite segs_bytes_cons, Ht2. cbn [mbind res_bind].
  destruct (aspath_merge_spec a1 a2 _ _ Hp1 Hp2) as (am & Hm & Hpm).
  unfold join_segs. rewrite last_snoc. destruct (Z.eqb_spec t1 t2) as [<-|Hne]; cbn [negb andb].
  2:{ exists am. by split_and!. }
  destruct (Z.eqb_spec t1 AS_SEQUENCE) as [->|Hns]; [|exists am; by split_and!].
  rewrite get_bytes_all by done. cbn [mbind res_bind].
  rewrite Hn1. cbn [mbind res_bind]. rewrite Hn2. cbn [mbind res_bind].
  specialize (Hfit AS_SEQUENCE vs1 AS_SEQUENCE vs2 rest2 ltac:(by rewrite last_snoc) eq_refl).
  rewrite set_byte_in by (rewrite !length_app, length_seg_bytes; lia). cbn [mbind res_bind].
  rewrite Hl2, Ho2, segs_bytes_cons.
  change (seg_bytes (AS_SEQUENCE, vs2)) with ([AS_SEQUENCE; Z.of_nat (length vs2)] ++ vals_bytes vs2).
  rewrite <-!app_assoc, get_bytes_tail
        by (unfold AS_HEADER_SIZE; rewrite ?length_app; cbn [length]; lia). cbn [mbind res_bind].
  eexists. split; [reflexivity|].
  assert (take (length (ss1 ++ [(AS_SEQUENCE, vs1)]) - 1) (ss1 ++ [(AS_SEQUENCE, vs1)]) = ss1) as ->.
  { rewrite length_app. cbn. rewrite Nat.add_sub. apply take_app_length. }
  split; [split|].
  - unfold octets. cbn [set_count set_adata a_data default from_option]. unfold id.
    rewrite segs_bytes_app, segs_bytes_cons. unfold seg_bytes, segs_bytes at 2. cbn [fst snd mbind list_bind].
    rewrite app_nil_r.
    replace (Z.to_nat (Z.of_nat (length (segs_bytes ss1)) + 1)) with (length (segs_bytes ss1) + 1)%nat by lia.
    rewrite insert_app_r. cbn. rewrite <-!app_assoc. cbn. do 3 f_equal.
    + rewrite u8_id by (unfold is_u8; lia). rewrite length_app. lia.
    + unfold vals_bytes. rewrite bind_app. by rewrite <-app_assoc.
  - cbn. unfold AS_HEADER_SIZE. rewrite (length_app (<[_ := _]> _)), length_insert.
    cbn [length]. rewrite !length_app. lia.
  - apply Forall_app. split; [done|]. constructor; [|done]. destruct Hsg1 as (? & ? & ?), Hsg2 as (? & ? & ?).
    split_and!; cbn in *; [done|rewrite length_app; lia|by apply Forall_app].
  - unfold all_values. rewrite !bind_app. cbn. by rewrite app_nil_r, <-!app_assoc.
Qed.

(** ** Text *)


Lemma buf_grow_ok fuel need b :
  0 ≤ need → 1 ≤ snd b → buf_len b + need < snd b * 2 ^ Z.of_nat fuel →
  ∃ size, buf_grow fuel need b = Ok (fst b, size) ∧ snd b ≤ size ∧ buf_len b + need < size.
Proof.
  unfold buf_len. intros Hneed. revert b. induction fuel as [|fuel IH]; intros b H1 Hlt.
  - cbn in Hlt. cbn [buf_grow]. rewrite Z.geb_leb, (proj2 (Z.leb_gt _ _)) by lia.
    exists (snd b). split_and!; [by destruct b|lia|lia].
  - cbn [buf_grow]. rewrite Z.geb_leb. case (Z.leb_spec (snd b) (Z.of_nat (length b.1) + need)); intros Hc.
    + destruct (IH (fst b, snd b * 2)) as (size & Hg & Hs & Hb); cbn [fst snd] in *; [lia| |].
      * rewrite Nat2Z.inj_succ, Z.pow_succ_r in Hlt by lia. lia.
      * exists size. split_and!; [done|lia|lia].
    + exists (snd b). split_and!; [by destruct b|lia|lia].
Qed.

Lemma print_values_ok type space vs b :
  Forall is_u16 vs → buf_len b + 6 * Z.of_nat (length vs) < snd b →
  ∃ space' b', print_values type space vs b = Ok (space', b') ∧ snd b' = snd b ∧
    buf_len b' ≤ buf_len b + 6 * Z.of_nat (length vs).
Proof.
  intros Hvs. revert space b. induction Hvs as [|v vs Hv Hvs IH]; intros space b Hb.
  - eexists _, _. split_and!; [done..|lia].
  - cbn [length] in *. cbn [print_values].
    destruct (buf_put_if space (if (type =? AS_SET) || (type =? AS_CONFED_SET) then ","%char else " "%char) b)
      as (b1 & -> & Hs1 & Hl1); [lia|]. cbn [mbind res_bind].
    unfold buf_printf, buf_puts. fold (buf_len b1). pose proof (pretty_u16_length v Hv) as H5.
    rewrite (proj2 (Z.ltb_lt _ _)) by lia. cbn [mbind res_bind].
    destruct (IH true (b1.1 ++ dec v, b1.2)) as (sp & b' & Hp & Hs & Hl).
    + unfold buf_len in *. cbn [fst snd]. rewrite length_app. lia.
    + exists sp, b'. split_and!; [done|by rewrite Hs|]. unfold buf_len in *. cbn [fst snd] in Hl.
      rewrite length_app in Hl. lia.
Qed.

(** Room for the closing delimiter and the null at any time. *)
Definition buf_ok (b : strbuf) : Prop := 1 ≤ snd b ∧ buf_len b + 2 ≤ snd b.

Lemma print_segment_ok type space stype vs b :
  Forall is_u16 vs → buf_ok b →
  ∃ space' b', print_segment type space stype vs b = Ok (space', b') ∧ buf_ok b'.
Proof.
  intros Hvs [H1 H2]. unfold print_segment. fold (buf_len b).
  set (need := Z.of_nat (length vs) * 6 + 4).
  destruct (buf_grow_ok (Z.to_nat (buf_len b + need)) need b) as (size & -> & Hs & Hn); [lia|lia| |].
  { rewrite Z2Nat.id by (unfold buf_len; lia).
    pose proof (Z.pow_gt_lin_r 2 (buf_len b + need) ltac:(lia) ltac:(unfold buf_len; lia)). nia. }
  cbn [mbind res_bind]. assert (buf_len (fst b, size) = buf_len b) as Hlb by done.
  destruct (buf_put_if (negb (type =? AS_SEQUENCE)) (aspath_delimiter_char type AS_SEG_END) (fst b, size))
    as (b1 & -> & Hs1 & Hl1); [cbn; lia|]. cbn [mbind res_bind snd] in *.
  destruct (buf_put_if space " "%char b1) as (b2 & -> & Hs2 & Hl2); [lia|]. cbn [mbind res_bind].
  destruct (buf_put_if (negb (stype =? AS_SEQUENCE)) (aspath_delimiter_char stype AS_SEG_START) b2)
    as (b3 & -> & Hs3 & Hl3); [lia|]. cbn [mbind res_bind].
  destruct (print_values_ok stype false vs b3 Hvs) as (sp & b' & Hp & Hs' & Hl'); [lia|].
  exists sp, b'. split; [done|]. split; lia.
Qed.

(** The hop count of a path, section 9.1.2.2 of RFC 1771 and section 6 of RFC 3065: a
    sequence (2) counts its members, a set (1) counts once, confederation segments (3
    and 4) do not count. *)
Definition hops (ss : list seg) : Z :=
  foldr (λ s n, match s.1 with 2 => Z.of_nat (length s.2) | 1 => 1 | _ => 0 end + n) 0 ss.

Lemma hops_cons s ss :
  seg_ok s → hops (s :: ss) = seg_count s.1 (Z.of_nat (length s.2)) + hops ss.
Proof.
  destruct s as [t vs]. intros [Ht _]. unfold type_ok in Ht. cbn [fst snd] in *.
  assert (t = 1 ∨ t = 2 ∨ t = 3 ∨ t = 4) as [-> | [-> | [-> | ->]]] by lia; reflexivity.
Qed.

Lemma make_str_valid fuel pre ss type space count b :
  Forall seg_ok ss → (length ss ≤ fuel)%nat → buf_ok b →
  ∃ t b', make_str_loop fuel (pre ++ segs_bytes ss) (Z.of_nat (length pre))
    (Z.of_nat (length (pre ++ segs_bytes ss))) type space count b = Ok (Some (t, b', count + hops ss)) ∧
    buf_ok b'.
Proof.
  intros Hss. revert fuel pre type space count b.
  induction Hss as [|s ss Hs Hss IH]; intros fuel pre type space count b Hf Hb.
  - cbn [segs_bytes mbind list_bind]. rewrite app_nil_r. exists type, b. cbn [hops foldr]. rewrite Z.add_0_r.
    destruct fuel; cbn [make_str_loop]; by rewrite Z.ltb_irrefl.
  - destruct fuel as [|fuel]; [cbn in Hf; lia|]. rewrite segs_bytes_cons. cbn [make_str_loop].
    rewrite (proj2 (Z.ltb_lt _ _)) by (rewrite !length_app, length_seg_bytes; lia).
    destruct (read_segment pre s (segs_bytes ss) _ Hs eq_refl) as (Ht & Hl & Hv).
    pose proof Hs as (Hty & _ & Hu). rewrite Ht. cbn [mbind res_bind].
    rewrite (proj2 (valid_type_range _) Hty). cbn [negb]. rewrite Hl. cbn [mbind res_bind]. destruct (next_segment pre s (segs_bytes ss)) as [Hnx Happ].
    rewrite Hnx, Z.gtb_ltb, (proj2 (Z.ltb_ge _ _)) by (rewrite !length_app; lia).
    rewrite Nat2Z.id, Hv. cbn [mbind res_bind].
    destruct (print_segment_ok type space s.1 s.2 b Hu Hb) as (sp & b1 & -> & Hb1). cbn [mbind res_bind].
    rewrite Happ. destruct (IH fuel (pre ++ seg_bytes s) s.1 sp
      (count + seg_count s.1 (Z.of_nat (length s.2))) b1) as (t & b' & -> & Hb'); [cbn in Hf; lia|done|].
    exists t, b'. split; [|done]. rewrite (hops_cons s ss Hs). by rewrite Z.add_assoc.
Qed.

(** Any octets with a whole number of AS values behind a header are a segment. *)
Lemma take_segment t n rest :
  bytes_ok (t :: n :: rest) → type_ok t → 2 * n ≤ Z.of_nat (length rest) →
  ∃ vs rest', seg_ok (t, vs) ∧ t :: n :: rest = seg_bytes (t, vs) ++ rest' ∧
    length vs = Z.to_nat n ∧ bytes_ok rest'.
Proof.
  intros Hb Ht Hn. apply Forall_cons in Hb as [_ [Hu8 Hb]%Forall_cons]. unfold is_u8 in Hu8.
  assert (∃ vs rest', length vs = Z.to_nat n ∧ Forall is_u16 vs ∧ rest = vals_bytes vs ++ rest' ∧
    bytes_ok rest') as (vs & rest' & Hl & Hv & -> & Hb').
  { assert (2 * Z.to_nat n ≤ length rest)%nat as Hlen by lia. clear Hn Hu8. revert rest Hb Hlen.
    induction (Z.to_nat n) as [|k IH]; intros rest Hb Hlen; [exists [], rest; by split_and!|].
    destruct rest as [|x [|y rest]]; [cbn in Hlen; lia|cbn in Hlen; lia|].
    apply Forall_cons in Hb as [Hx [Hy Hb]%Forall_cons]. unfold is_u8 in Hx, Hy.
    destruct (IH rest Hb) as (vs & rest' & Hl & Hv & -> & Hb'); [cbn in Hlen; lia|].
    assert (is_u16 (x * 256 + y)) as Hxy by (unfold is_u16; lia).
    exists (x * 256 + y :: vs), rest'. split_and!; [cbn; lia|by constructor| |done].
    unfold vals_bytes. cbn [mbind list_bind]. rewrite be16_bytes by done. cbn [app]. f_equal; [dm_lia|].
    f_equal. dm_lia. }
  exists vs, rest'. split_and!; [|unfold seg_bytes; cbn; rewrite Hl; do 2 f_equal; lia|done|done].
  split_and!; [done|cbn; lia|done].
Qed.

Lemma make_str_sound fuel pre rest type space count b :
  bytes_ok rest → (length rest ≤ 2 * fuel)%nat → (∃ k, length rest = (2 * k)%nat) → buf_ok b →
  make_str_loop fuel (pre ++ rest) (Z.of_nat (length pre)) (Z.of_nat (length (pre ++ rest)))
    type space count b = Ok None ∨
  ∃ ss, rest = segs_bytes ss ∧ Forall seg_ok ss.
Proof.
  revert pre rest type space count b.
  induction fuel as [|fuel IH]; intros pre rest type space count b Hb Hf [k Hk] Hbuf.
  { destruct rest; [|cbn in Hf; lia]. right. by exists []. }
  destruct rest as [|t [|n rest]]; [right; by exists []|cbn in Hk; lia|]. cbn [make_str_loop].
  rewrite (proj2 (Z.ltb_lt _ _)) by (rewrite length_app; cbn; lia).
  assert (seg_type (pre ++ t :: n :: rest) (Z.of_nat (length pre)) = Ok t) as -> by (by apply get_byte_app).
  cbn [mbind res_bind]. destruct (valid_type t) eqn:Ht; [|by left]. cbn [negb].
  apply valid_type_range in Ht.
  assert (seg_length (pre ++ t :: n :: rest) (Z.of_nat (length pre)) = Ok n) as ->.
  { unfold seg_length. replace (pre ++ t :: n :: rest) with ((pre ++ [t]) ++ n :: rest) by (by rewrite <-app_assoc).
    apply get_byte_app. rewrite length_app. cbn. lia. }
  cbn [mbind res_bind]. rewrite Z.gtb_ltb. case (Z.ltb_spec (Z.of_nat (length (pre ++ t :: n :: rest)))
    (Z.of_nat (length pre) + n * AS_VALUE_SIZE + AS_HEADER_SIZE)); intros Hc; [by left|].
  unfold AS_VALUE_SIZE, AS_HEADER_SIZE in Hc. rewrite length_app in Hc. cbn [length] in Hc, Hk, Hf.
  destruct (take_segment t n rest Hb Ht) as (vs & rest' & Hs & Heq & Hl & Hb'); [lia|].
  assert (0 ≤ n) as Hn0 by (apply Forall_cons in Hb as [_ [[? _] _]%Forall_cons]; done).
  pose proof (f_equal length Heq) as Hlen. rewrite length_app, length_seg_bytes in Hlen.
  cbn [length snd] in Hlen. rewrite Heq. destruct (next_segment pre (t, vs) rest') as [Hnx Happ].
  destruct (read_segment pre (t, vs) rest' _ Hs eq_refl) as (_ & _ & Hv). cbn [snd fst] in *.
  rewrite <-Hl, Hv. cbn [mbind res_bind]. pose proof Hs as (_ & _ & Hu). cbn [snd] in Hu.
  destruct (print_segment_ok type space t vs b Hu Hbuf) as (sp & b1 & -> & Hb1). cbn [mbind res_bind].
  replace n with (Z.of_nat (length vs)) by lia. rewrite Hnx, Happ.
  destruct (IH (pre ++ seg_bytes (t, vs)) rest' t sp (count + seg_count t (Z.of_nat (length vs))) b1)
    as [Hrun|(ss & -> & Hss)]; [done|lia|exists (k - 1 - length vs)%nat; lia|done| |].
  - by left.
  - right. exists ((t, vs) :: ss). split; [done|by constructor].
Qed.

Lemma make_str_valid_path a ss :
  path_ok a ss → ∃ s, aspath_make_str_count a = Ok (Some s, set_count (hops ss) a).
Proof.
  intros [Ho Hl Hs]. unfold aspath_make_str_count. rewrite Hl, Ho.
  destruct (Z.eqb_spec (Z.of_nat (length (segs_bytes ss))) 0) as [H0|H0].
  - pose proof (segs_length ss). destruct ss; [by eexists|cbn in *; lia].
  - destruct (make_str_valid (length (segs_bytes ss)) [] ss AS_SEQUENCE false 0 ([], ASPATH_STR_DEFAULT_LEN))
      as (t & b & Hrun & [Hb1 Hb2]); [done|pose proof (segs_length ss); lia|done|].
    cbn [app length] in Hrun. change (Z.of_nat 0) with 0 in Hrun. rewrite Hrun. cbn [mbind res_bind].
    destruct (buf_put_if (negb (t =? AS_SEQUENCE)) (aspath_delimiter_char t AS_SEG_END) b)
      as (b1 & -> & Hs1 & Hl1); [lia|]. cbn [mbind res_bind].
    rewrite buf_put_ok by lia. by eexists.
Qed.

(** Well-formed or given up. *)
Lemma aspath_make_str_count_cases a :
  bytes_ok (octets a) → a_length a = Z.of_nat (length (octets a)) →
  (∃ k, length (octets a) = (2 * k)%nat) →
  (∃ ss s, path_ok a ss ∧ aspath_make_str_count a = Ok (Some s, set_count (hops ss) a)) ∨
  ((∀ ss, ¬ path_ok a ss) ∧ aspath_make_str_count a = Ok (None, a)).
Proof.
  intros Hb Hl [k Hk].
  assert ((∃ ss, path_ok a ss) ∨ aspath_make_str_count a = Ok (None, a)) as [[ss Hss]|Hnone].
  { destruct (decide (octets a = [])) as [He|He]; [left; exists []; by split|].
    destruct (make_str_sound (length (octets a)) [] (octets a) AS_SEQUENCE false 0
      ([], ASPATH_STR_DEFAULT_LEN)) as [Hrun|(ss & Heq & Hss)]; [done|lia|eauto|done| |].
    - right. unfold aspath_make_str_count. cbn [app length] in Hrun. change (Z.of_nat 0) with 0 in Hrun.
      rewrite Hl, (proj2 (Z.eqb_neq _ 0)), Hrun by (destruct (octets a); [done|cbn; lia]). done.
    - left. exists ss. by split. }
  - left. destruct (make_str_valid_path a ss Hss) as [s Hs]. eauto.
  - right. split; [|done]. intros ss Hss. destruct (make_str_valid_path a ss Hss) as [s Hs]. congruence.
Qed.

(** C33: on a path whose length field is the number of its octets and that number is
    even, aspath_make_str_count returns without writing past its buffer, and tells
    well-formed octets from malformed ones.  When the octets are a list of segments (type
    1 to 4, at most 255 members) the count becomes the number of hops, a sequence (2)
    counting its members, a set (1) once and confederation segments (3, 4) nothing; when
    they are no list of segments it gives up and leaves the path as it is. *)
Theorem aspath_make_str_count_sound a :
  bytes_ok (octets a) → a_length a = Z.of_nat (length (octets a)) →
  (∃ k, length (octets a) = (2 * k)%nat) →
  (∃ ss s, path_ok a ss ∧ aspath_make_str_count a = Ok (Some s, set_count (hops ss) a)) ∨
  ((∀ ss, ¬ path_ok a ss) ∧ aspath_make_str_count a = Ok (None, a)).
Proof. apply aspath_make_str_count_cases. Qed.

(** ** Defects *)

(** The path a text stands for. *)
Definition of_text (s : string) : aspath :=
  match aspath_str2aspath s with Ok (Some a) => a | _ => aspath_new end.

(** aspath_aggregate loses AS numbers: when one path is used up at a segment
    boundary, the number of values that matched in the last segment is skipped in
    the next segment of the other path. *)
Theorem aspath_aggregate_loses :
  ∃ a, aspath_aggregate (of_text "1 2") (of_text "1 2 {3 4}") = Ok a ∧
    aspath_loop_check (Some (of_text "1 2 {3 4}")) 3 = Ok 1 ∧
    aspath_loop_check (Some a) 3 = Ok 0 ∧ aspath_loop_check (Some a) 4 = Ok 0.
Proof. eexists. split; [vm_compute; reflexivity|]. by vm_compute. Qed.

(** aspath_cmp_left has no end check: on a path of confederation segments only
    it reads past the octets of the path. *)
Theorem aspath_cmp_left_overread a1 a2 ss :
  path_ok a1 ss → a_data a1 ≠ None →
  Forall (λ s, s.2 ≠ [] ∧ (s.1 = AS_CONFED_SEQUENCE ∨ s.1 = AS_CONFED_SET)) ss →
  aspath_cmp_left a1 a2 = Fail OutOfBounds.
Proof.
  intros [Ho Hl Hs] Hd Hc. unfold aspath_cmp_left.
  destruct (a_data a1) as [d|] eqn:Ed; [|done]. assert (d = segs_bytes ss) as ->
    by (unfold octets in Ho; by rewrite Ed in Ho).
  assert (∀ fuel pre, (length ss ≤ fuel)%nat →
    skip_confed fuel (pre ++ segs_bytes ss) (Z.of_nat (length pre)) = Fail OutOfBounds) as Hskip.
  { clear Ho Hl Ed Hd. induction ss as [|s ss IH]; intros fuel pre Hf.
    - cbn [segs_bytes mbind list_bind]. rewrite app_nil_r.
      destruct fuel; cbn [skip_confed]; unfold seg_length;
        by rewrite (get_byte_out _ (_ + 1)) by lia.
    - destruct fuel as [|fuel]; [cbn in Hf; lia|].
      apply Forall_cons in Hs as [Hs0 Hs]. apply Forall_cons in Hc as [[Hne Hty] Hc].
      rewrite segs_bytes_cons. cbn [skip_confed].
      destruct (read_segment pre s (segs_bytes ss) _ Hs0 eq_refl) as (Ht & Hln & _).
      rewrite Hln. cbn [mbind res_bind].
      rewrite (proj2 (Z.eqb_neq _ 0)) by (destruct s.2; [done|cbn; lia]). rewrite Ht. cbn [mbind res_bind].
      assert ((s.1 =? AS_CONFED_SEQUENCE) || (s.1 =? AS_CONFED_SET) = true) as ->
        by (destruct Hty as [-> | ->]; done).
      destruct (next_segment pre s (segs_bytes ss)) as [Hnx ->].
      unfold ASSEGMENT_SIZE. rewrite (Z.add_comm AS_HEADER_SIZE), Z.add_assoc, Hnx.
      apply IH; [done|done|cbn in Hf; lia]. }
  specialize (Hskip (length (segs_bytes ss)) []). cbn [app length] in Hskip.
  change (Z.of_nat 0) with 0 in Hskip. rewrite Hskip; [done|]. pose proof (segs_length ss). lia.
Qed.

(** The text of a path does not always parse: a set of more than one AS is
    printed with commas, which the scanner does not know. *)
Theorem aspath_text_not_parsed :
  a_str (of_text "{3 4}") = Some "{3,4}" ∧ aspath_str2aspath "{3,4}" = Ok None.
Proof. by vm_compute. Qed.

(** * Examples *)

Definition ex_segs : list seg := [(AS_SEQUENCE, [7675; 65001]); (AS_SET, [4])].
Definition ex_path : aspath := Aspath 0 10 3 (Some (segs_bytes ex_segs)) None.
Definition ex_confed : aspath := Aspath 0 4 0 (Some (segs_bytes [(AS_CONFED_SEQUENCE, [65001])])) None.

Lemma ex_segs_ok : Forall seg_ok ex_segs.
Proof.
  unfold ex_segs. rewrite !Forall_cons.
  split_and!; try done; cbn; try lia; repeat constructor; done.
Qed.

Lemma ex_path_ok : path_ok ex_path ex_segs.
Proof. split; [done|done|apply ex_segs_ok]. Qed.

Lemma aspath_loop_check_counts_witness : aspath_loop_check (Some ex_path) 65001 = Ok 1.
Proof. exact (aspath_loop_check_counts ex_path ex_segs 65001 ex_path_ok). Defined.

Lemma aspath_add_one_as_left_witness :
  ∃ a', aspath_add_one_as ex_path 300 AS_SEQUENCE = Ok a' ∧
    path_ok a' [(AS_SEQUENCE, [300; 7675; 65001]); (AS_SET, [4])].
Proof.
  destruct (aspath_add_one_as_left ex_path ex_segs 300 AS_SEQUENCE ex_path_ok ltac:(done) ltac:(done)
    ltac:(intros ??? [= <- <- <-]; cbn; lia) ltac:(done)) as (a' & Ha & Hok & _).
  exists a'. exact (conj Ha Hok).
Defined.

Definition ex_full : aspath :=
  Aspath 0 512 255 (Some (segs_bytes [(AS_SEQUENCE, replicate 255 1)])) None.

Lemma aspath_add_one_as_wraps_witness :
  ∃ a', aspath_add_one_as ex_full 300 AS_SEQUENCE = Ok a' ∧ seg_length (octets a') 0 = Ok 0.
Proof.
  refine (aspath_add_one_as_wraps ex_full (replicate 255 1) [] 300 AS_SEQUENCE _ ltac:(done) eq_refl).
  split; [done|done|]. constructor; [|constructor].
  split_and!; [done|cbn; lia|by apply Forall_replicate].
Defined.

Lemma aspath_prepend_joins_witness :
  ∃ a, aspath_prepend (Some ex_path) (Some ex_path) = Ok (Some a) ∧ path_ok a (ex_segs ++ ex_segs).
Proof.
  destruct (aspath_prepend_joins ex_path ex_path ex_segs ex_segs ex_path_ok ex_path_ok ltac:(done)
    ltac:(intros ????? [= <- <-] [= <- <- <-]; cbn; lia)) as (a & Ha & Hok & _).
  exists a. exact (conj Ha Hok).
Defined.

Lemma aspath_make_str_count_sound_witness :
  (∃ ss s, path_ok ex_path ss ∧
     aspath_make_str_count ex_path = Ok (Some s, set_count (hops ss) ex_path)) ∨
  ((∀ ss, ¬ path_ok ex_path ss) ∧ aspath_make_str_count ex_path = Ok (None, ex_path)).
Proof.
  exact (aspath_make_str_count_sound ex_path (bytes_ok_decide (segs_bytes ex_segs) eq_refl) eq_refl
    (ex_intro _ 5%nat eq_refl)).
Defined.

Lemma aspath_cmp_left_overread_witness : aspath_cmp_left ex_confed ex_path = Fail OutOfBounds.
Proof.
  refine (aspath_cmp_left_overread ex_confed ex_path [(AS_CONFED_SEQUENCE, [65001])] _ ltac:(done) _).
  - split; [done|done|]. constructor; [|constructor].
    split_and!; [done|cbn; lia|by repeat constructor].
  - constructor; [|constructor]. split; [done|by left].
Defined.
