(* ===== verification/Community.v ===== *)
(** Communities attributes: bgpd/bgp_community.c.

    The values of a communities attribute are kept in network order, as four octets
    each; a null pointer is [None].  Interned attributes live in a memory of
    pointers, each with the number of its users, and the hash table of lib/hash.c
    finds the one of a given value.  Octets that are allocated and not yet written
    are zero here; sizes are taken below the range of int, and [memcpy] between
    overlapping blocks copies as if through a buffer.  The size of a pointer, which
    community_del_val depends on, is the argument [sizeof_ptr]. *)

From Stdlib Require Import Ascii.
From stdpp Require Import strings pretty sorting.
From S2P Require Import Prelude Prefix Text Stream Hash.

Definition COMMUNITY_INTERNET : Z := 0.
Definition COMMUNITY_NO_EXPORT : Z := 0xFFFFFF01.
Definition COMMUNITY_NO_ADVERTISE : Z := 0xFFFFFF02.
Definition COMMUNITY_LOCAL_AS : Z := 0xFFFFFF03.

Record community := Community {
  c_refcnt : Z;
  c_size : Z;
  c_val : option (list Z);
  c_str : option (list ascii);
}.

Definition community_new : community := Community 0 0 None None.

Definition set_c_refcnt (v : Z) (x : community) : community :=
  Community v (c_size x) (c_val x) (c_str x).
Definition set_c_str (v : option (list ascii)) (x : community) : community :=
  Community (c_refcnt x) (c_size x) (c_val x) v.
Definition set_c_vals (size : Z) (v : option (list Z)) (x : community) : community :=
  Community (c_refcnt x) size v (c_str x).

Definition com_length (com : community) : Z := c_size com * 4.

(** The octets behind the pointer. *)
Definition octets (com : community) : list Z := default [] (c_val com).

(** The four octets of [com->val + i]. *)
Definition com_nthval (com : community) (i : Z) : res (list Z) := get_bytes (octets com) (i * 4) 4.

(** [ntohl] of four octets in memory. *)
Definition ntohl4 (bs : list Z) : Z :=
  match bs with
  | [a; b; c; d] => ((a * 256 + b) * 256 + c) * 256 + d
  | _ => 0
  end.

(** [XREALLOC] or [XMALLOC] to [n] octets. *)
Definition realloc (v : option (list Z)) (n : Z) : list Z := resize (Z.to_nat n) 0 (default [] v).

Definition community_add_val (com : community) (val : Z) : res community :=
  let size := c_size com + 1 in
  v ← put_bytes (realloc (c_val com) (size * 4)) ((size - 1) * 4) (be32 val);
  Ok (set_c_vals size (Some v) com).

Section delete.
Context (sizeof_ptr : Z).

(** The loop of community_del_val at the index [i], with [n] turns left. *)
Fixpoint del_loop (n : nat) (i : Z) (val : list Z) (com : community) : res community :=
  match n with
  | O => Ok com
  | S n =>
      x ← com_nthval com i;
      if bool_decide (x = val) then
        let c := c_size com - i - 1 in
        v ← (if c >? 0 then
               bs ← get_bytes (octets com) ((i + 1) * 4) (c * sizeof_ptr);
               put_bytes (octets com) (i * 4) bs
             else Ok (octets com));
        let size := c_size com - 1 in
        if size >? 0 then Ok (set_c_vals size (Some (realloc (Some v) (size * 4))) com)
        else Ok (set_c_vals size None com)
      else del_loop n (i + 1) val com
  end.

Definition community_del_val (com : community) (val : list Z) : res community :=
  match c_val com with
  | None => Ok com
  | Some _ => del_loop (Z.to_nat (c_size com)) 0 val com
  end.

Fixpoint com_delete_loop (n : nat) (i : Z) (com1 com2 : community) : res community :=
  match n with
  | O => Ok com1
  | S n =>
      val ← com_nthval com2 i;
      com1 ← community_del_val com1 val;
      com_delete_loop n (i + 1) com1 com2
  end.

Definition community_delete (com1 com2 : community) : res community :=
  com_delete_loop (Z.to_nat (c_size com2)) 0 com1 com2.

End delete.

Definition community_compare (a1 a2 : list Z) : Z :=
  let v1 := ntohl4 a1 in
  let v2 := ntohl4 a2 in
  if v1 <? v2 then -1 else if v1 >? v2 then 1 else 0.

Fixpoint include_loop (n : nat) (i : Z) (com : community) (val : list Z) : res bool :=
  match n with
  | O => Ok false
  | S n =>
      x ← com_nthval com i;
      if bool_decide (val = x) then Ok true else include_loop n (i + 1) com val
  end.

Definition community_include (com : community) (val : Z) : res bool :=
  include_loop (Z.to_nat (c_size com)) 0 com (be32 val).

Definition community_val_get (com : community) (i : Z) : res Z :=
  bs ← get_bytes (octets com) (i * 4) 4;
  Ok (ntohl4 bs).

(** [qsort (base, n, 4, cmp)]: the elements of four octets in the order of [cmp]. *)
Fixpoint quads (n : nat) (bs : list Z) : list (list Z) :=
  match n with
  | O => []
  | S n => take 4 bs :: quads n (drop 4 bs)
  end.

Definition before (cmp : list Z → list Z → Z) (a b : list Z) : Prop := cmp a b ≤ 0.
#[export] Instance before_dec cmp : RelDecision (before cmp).
Proof. intros a b. unfold before. apply _. Defined.

Definition qsort4 (cmp : list Z → list Z → Z) (base : list Z) (n : Z) : list Z :=
  let k := Z.to_nat n in
  concat (merge_sort (before cmp) (quads k base)) ++ drop (4 * k) base.

Fixpoint uniq_loop (n : nat) (i : Z) (com new : community) : res community :=
  match n with
  | O => Ok new
  | S n =>
      val ← community_val_get com i;
      inc ← community_include new val;
      new ← (if (inc : bool) then Ok new else community_add_val new val);
      uniq_loop n (i + 1) com new
  end.

Definition community_uniq_sort (com : option community) : res (option community) :=
  match com with
  | None => Ok None
  | Some com =>
      new ← uniq_loop (Z.to_nat (c_size com)) 0 com community_new;
      Ok (Some (set_c_vals (c_size new)
        ((λ v, qsort4 community_compare v (c_size new)) <$> c_val new) new))
  end.

(** ** Text *)

Definition chars (s : string) : list ascii := String.list_ascii_of_string s.

(** The keyword of a well-known community. *)
Definition com_keyword (comval : Z) : option (list ascii) :=
  if comval =? COMMUNITY_INTERNET then Some (chars "internet")
  else if comval =? COMMUNITY_NO_EXPORT then Some (chars "no-export")
  else if comval =? COMMUNITY_NO_ADVERTISE then Some (chars "no-advertise")
  else if comval =? COMMUNITY_LOCAL_AS then Some (chars "local-AS")
  else None.

(** The first loop of community_com2str, which computes the length of the text. *)
Fixpoint com2str_length (n : nat) (i : Z) (com : community) (len : Z) : res Z :=
  match n with
  | O => Ok len
  | S n =>
      bs ← com_nthval com i;
      com2str_length n (i + 1) com
        (len + match com_keyword (ntohl4 bs) with
               | Some kw => 1 + Z.of_nat (length kw)
               | None => Z.of_nat (length (chars " 65536:65535"))
               end)
  end.

(** The second loop, which fills the text in; the block has room for [snd b]
    characters. *)
Fixpoint com2str_fill (n : nat) (i : Z) (com : community) (first : bool) (b : strbuf) : res strbuf :=
  match n with
  | O => Ok b
  | S n =>
      bs ← com_nthval com i;
      let comval := ntohl4 bs in
      b ← (if first then Ok b else buf_put " "%char b);
      b ← match com_keyword comval with
          | Some kw => buf_puts kw b
          | None =>
              let as_ := u16 (Z.land (Z.shiftr comval 16) 0xFFFF) in
              let val := u16 (Z.land comval 0xFFFF) in
              buf_puts (dec as_ ++ ":"%char :: dec val) b
          end;
      com2str_fill n (i + 1) com false b
  end.

Definition community_com2str (com : community) : res (list ascii) :=
  if c_size com =? 0 then Ok []
  else
    len ← com2str_length (Z.to_nat (c_size com)) 0 com 0;
    b ← com2str_fill (Z.to_nat (c_size com)) 0 com true ([], len);
    (* *pnt = 0 *)
    if Z.of_nat (length (fst b)) <? len then Ok (fst b) else Fail OutOfBounds.

(** ** Callbacks of the hash table *)

Fixpoint hash_sum (n : nat) (c : Z) (pnt : list Z) (key : Z) : res Z :=
  match n with
  | O => Ok key
  | S n => x ← get_byte pnt c; hash_sum n (c + 1) pnt (u32 (key + x))
  end.

Definition community_hash_make (com : community) : res Z :=
  hash_sum (Z.to_nat (c_size com * 4)) 0 (octets com) 0.

Definition community_cmp (com1 com2 : option community) : res bool :=
  match com1, com2 with
  | None, None => Ok true
  | None, _ | _, None => Ok false
  | Some com1, Some com2 =>
      if c_size com1 =? c_size com2 then
        b1 ← get_bytes (octets com1) 0 (c_size com1 * 4);
        b2 ← get_bytes (octets com2) 0 (c_size com1 * 4);
        Ok (bool_decide (b1 = b2))
      else Ok false
  end.

(** ** Matching and merging *)

(** The loop over both arrays; a turn always advances [i]. *)
Fixpoint com_match_loop (n : nat) (i j : Z) (com1 com2 : community) : res Z :=
  match n with
  | O => Ok j
  | S n =>
      if (i <? c_size com1) && (j <? c_size com2) then
        x1 ← com_nthval com1 i;
        x2 ← com_nthval com2 j;
        com_match_loop n (i + 1) (if bool_decide (x1 = x2) then j + 1 else j) com1 com2
      else Ok j
  end.

Definition community_match (com1 com2 : option community) : res bool :=
  match com1, com2 with
  | None, None => Ok true
  | None, _ | _, None => Ok false
  | Some com1, Some com2 =>
      if c_size com1 <? c_size com2 then Ok false
      else
        j ← com_match_loop (Z.to_nat (c_size com1)) 0 0 com1 com2;
        Ok (j =? c_size com2)
  end.

Definition community_merge (com1 com2 : community) : res community :=
  let v := realloc (c_val com1) ((c_size com1 + c_size com2) * 4) in
  bs ← get_bytes (octets com2) 0 (c_size com2 * 4);
  v ← put_bytes v (c_size com1 * 4) bs;
  Ok (set_c_vals (c_size com1 + c_size com2) (Some v) com1).

Definition community_dup (com : community) : res community :=
  if c_size com =? 0 then Ok (Community 0 (c_size com) None None)
  else
    bs ← get_bytes (octets com) 0 (c_size com * 4);
    Ok (Community 0 (c_size com) (Some bs) None).

(** ** Interning *)

Record com_state := ComState {
  cs_mem : gmap nat community;
  cs_fresh : nat;
  comhash : hash nat;
}.

Abbreviation M := (ST com_state).

Definition set_cs_mem (v : gmap nat community) (x : com_state) : com_state :=
  ComState v (cs_fresh x) (comhash x).
Definition set_comhash (v : hash nat) (x : com_state) : com_state :=
  ComState (cs_mem x) (cs_fresh x) v.

Definition com_get (p : nat) : M community := λ s,
  of_option UseAfterFree (cs_mem s !! p) ≫= λ x, Ok (x, s).
Definition com_put (p : nat) (x : community) : M unit := λ s,
  Ok (tt, set_cs_mem (<[p := x]> (cs_mem s)) s).
Definition com_alloc (x : community) : M nat := λ s,
  Ok (cs_fresh s, ComState (<[cs_fresh s := x]> (cs_mem s)) (S (cs_fresh s)) (comhash s)).

(** Using a freed pointer again is a fault, freeing it too. *)
Definition community_free (p : nat) : M unit := λ s,
  _ ← of_option UseAfterFree (cs_mem s !! p);
  Ok (tt, set_cs_mem (delete p (cs_mem s)) s).

Definition com_key (p : nat) (mem : gmap nat community) : res Z :=
  com ← of_option UseAfterFree (mem !! p);
  community_hash_make com.
Definition com_cmp (p1 p2 : nat) (mem : gmap nat community) : res bool :=
  com1 ← of_option UseAfterFree (mem !! p1);
  com2 ← of_option UseAfterFree (mem !! p2);
  community_cmp (Some com1) (Some com2).

Definition community_intern (com : nat) : M nat :=
  x ← com_get com;
  _ ← st_lift (c_assert (c_refcnt x =? 0));
  s ← st_get;
  '(find, h, _) ← st_lift (hash_get com_key com_cmp (comhash s) com (Some hash_alloc_intern) (cs_mem s));
  _ ← st_put (set_comhash h s);
  find ← st_lift (of_option NullDeref find);
  _ ← (if bool_decide (find = com) then mret tt else community_free com);
  y ← com_get find;
  let y := set_c_refcnt (u64 (c_refcnt y + 1)) y in
  y ← (match c_str y with
       | Some _ => mret y
       | None => str ← st_lift (community_com2str y); mret (set_c_str (Some str) y)
       end);
  _ ← com_put find y;
  mret find.

Definition community_unintern (com : nat) : M unit :=
  x ← com_get com;
  let x := if c_refcnt x =? 0 then x else set_c_refcnt (c_refcnt x - 1) x in
  _ ← com_put com x;
  if c_refcnt x =? 0 then
    s ← st_get;
    '(ret, h, _) ← st_lift (hash_release com_key com_cmp (comhash s) com (cs_mem s));
    _ ← st_put (set_comhash h s);
    _ ← st_lift (c_assert (bool_decide (is_Some ret)));
    community_free com
  else mret tt.

(** [pnt] is what is left of the packet, [length] the length of the attribute. *)
Definition community_parse (pnt : list Z) (length : Z) : M (option nat) :=
  if negb (length mod 4 =? 0) then mret None
  else
    let tmp := Community 0 (length / 4) (Some pnt) None in
    new ← st_lift (community_uniq_sort (Some tmp));
    new ← st_lift (of_option NullDeref new);
    p ← com_alloc new;
    q ← community_intern p;
    mret (Some q).

Definition community_str (com : nat) : M (list ascii) :=
  x ← com_get com;
  match c_str x with
  | Some str => mret str
  | None =>
      str ← st_lift (community_com2str x);
      _ ← com_put com (set_c_str (Some str) x);
      mret str
  end.

Definition community_count (s : com_state) : Z := h_count (comhash s).

Definition community_init : com_state := ComState ∅ 0 hash_create.

(** ** Parsing *)

Inductive community_token :=
  | community_token_val
  | community_token_no_export
  | community_token_no_advertise
  | community_token_local_as
  | community_token_unknown.

Definition isalpha (c : ascii) : bool :=
  let n := Z.of_nat (nat_of_ascii c) in
  ((65 <=? n) && (n <=? 90)) || ((97 <=? n) && (n <=? 122)).

(** [strncmp (p, kw, strlen (kw)) == 0], and the text behind the keyword. *)
Definition keyword (kw : string) (p : list ascii) : option (list ascii) :=
  if bool_decide (take (length (chars kw)) p = chars kw)
  then Some (drop (length (chars kw)) p) else None.

(** The loop over digits and the separator; the numbers are kept in 32 bits. *)
Fixpoint gettoken_value (p : list ascii) (separator digit : bool) (low high val : Z) :
    community_token * Z * list ascii :=
  let stop :=
    if digit then (community_token_val, u32 (high + low), p)
    else (community_token_unknown, val, p) in
  match p with
  | [] => stop
  | c :: p' =>
      if isdigit c || bool_decide (c = ":"%char) then
        if bool_decide (c = ":"%char) then
          if separator then (community_token_unknown, val, p)
          else gettoken_value p' true false 0 (u32 (Z.shiftl low 16)) val
        else gettoken_value p' separator true (u32 (u32 (low * 10) + digit_of c)) high val
      else stop
  end.

(** The next token, the value behind [val] and the text behind the token; [None]
    at the end of the text. *)
Fixpoint community_gettoken (p : list ascii) (val : Z) :
    option (community_token * Z * list ascii) :=
  match p with
  | [] => None
  | c :: p' =>
      if isspace c then community_gettoken p' val
      else if isalpha c then
        match keyword "internet" p with
        | Some q => Some (community_token_no_export, COMMUNITY_INTERNET, q)
        | None =>
        match keyword "no-export" p with
        | Some q => Some (community_token_no_export, COMMUNITY_NO_EXPORT, q)
        | None =>
        match keyword "no-advertise" p with
        | Some q => Some (community_token_no_advertise, COMMUNITY_NO_ADVERTISE, q)
        | None =>
        match keyword "local-AS" p with
        | Some q => Some (community_token_local_as, COMMUNITY_LOCAL_AS, q)
        | None => Some (community_token_unknown, val, p)
        end end end end
      else if isdigit c then Some (gettoken_value p false false 0 0 val)
      else Some (community_token_unknown, val, p)
  end.

(** The loop of community_str2com; every turn but the last takes a character. *)
Fixpoint str2com_loop (fuel : nat) (str : list ascii) (val : Z) (com : option community) :
    res (option community) :=
  match community_gettoken str val with
  | None => Ok com
  | Some (token, val, str) =>
      match fuel with
      | O => Fail OutOfFuel
      | S fuel =>
          match token with
          | community_token_unknown => Ok None
          | _ =>
              com ← community_add_val (default community_new com) val;
              str2com_loop fuel str val (Some com)
          end
      end
  end.

Definition community_str2com (str : list ascii) : res (option community) :=
  com ← str2com_loop (S (length str)) str 0 None;
  match com with
  | None => Ok None
  | Some com => community_uniq_sort (Some com)
  end.

Example str2com_example :
  community_str2com (chars "65000:2 no-export 65000:1 65000:2") =
    Ok (Some (Community 0 3 (Some [253; 232; 0; 1; 253; 232; 0; 2; 255; 255; 255; 1]) None)).
Proof. by vm_compute. Qed.
