(* ===== verification/CommunityFacts.v ===== *)
(** What the operations on communities attributes compute: each is related to a
    function on the list of the values ([com_ok]). *)

From Stdlib Require Import Ascii.
From stdpp Require Import strings pretty sorting.
From S2P Require Import Prelude Prefix Text Stream Hash Community.

Implicit Types (com : community) (vs : list Z).

(** * Values in memory *)

Definition val_bytes (vs : list Z) : list Z := vs ≫= be32.

(** The attribute holds [vs], in a block of exactly their octets. *)
Record com_ok com vs : Prop := ComOk {
  co_size : c_size com = Z.of_nat (length vs);
  co_val : octets com = val_bytes vs;
  co_range : Forall is_u32 vs;
}.

(** The same when more octets may follow, as in a packet. *)
Record com_view com vs : Prop := ComView {
  cv_size : c_size com = Z.of_nat (length vs);
  cv_val : val_bytes vs `prefix_of` octets com;
  cv_range : Forall is_u32 vs;
}.

Lemma com_ok_view com vs : com_ok com vs → com_view com vs.
Proof. intros []. split; [done| |done]. by rewrite co_val0. Qed.
#[export] Hint Resolve com_ok_view : zebra.

Lemma com_new_ok : com_ok community_new [].
Proof. by split. Qed.

Lemma ntohl_be32 v : is_u32 v → ntohl4 (be32 v) = v.
Proof.
  unfold is_u32, ntohl4, be32, u8. intros Hv. rewrite !Z.shiftr_div_pow2 by lia. dm_lia.
Qed.

Lemma be32_inj v1 v2 : is_u32 v1 → is_u32 v2 → be32 v1 = be32 v2 → v1 = v2.
Proof. intros H1 H2 He. by rewrite <- (ntohl_be32 v1), He, ntohl_be32. Qed.

Lemma length_val_bytes vs : length (val_bytes vs) = (4 * length vs)%nat.
Proof. induction vs as [|v vs IH]; [done|]. unfold val_bytes in *. cbn in *. lia. Qed.

Lemma val_bytes_app vs1 vs2 : val_bytes (vs1 ++ vs2) = val_bytes vs1 ++ val_bytes vs2.
Proof. apply bind_app. Qed.

Lemma val_bytes_cons v vs : val_bytes (v :: vs) = be32 v ++ val_bytes vs.
Proof. done. Qed.

Lemma val_bytes_inj vs1 vs2 :
  Forall is_u32 vs1 → Forall is_u32 vs2 → length vs1 = length vs2 →
  val_bytes vs1 = val_bytes vs2 → vs1 = vs2.
Proof.
  intros H1. revert vs2. induction H1 as [|v1 vs1 Hv1 H1 IH]; intros [|v2 vs2] H2 Hl He; try done.
  apply Forall_cons in H2 as [Hv2 H2]. rewrite !val_bytes_cons in He.
  apply app_inj_1 in He as [Hb He]; [|done]. f_equal; [by apply be32_inj|]. apply IH; auto.
Qed.

(** The octets of the [i]-th value, in a list that goes on. *)
Lemma take_drop_middle_bytes vs rest i v :
  vs !! i = Some v → take 4 (drop (i * 4) (val_bytes vs ++ rest)) = be32 v.
Proof.
  intros Hi. rewrite <- (take_drop_middle vs i v Hi), val_bytes_app, val_bytes_cons, <- app_assoc.
  rewrite drop_app_length'; [done|]. rewrite length_val_bytes, length_take.
  apply lookup_lt_Some in Hi. lia.
Qed.

Lemma nthval_view com vs i v :
  com_view com vs → vs !! i = Some v → com_nthval com (Z.of_nat i) = Ok (be32 v).
Proof.
  intros [_ [rest Hr] _] Hi. pose proof (lookup_lt_Some _ _ _ Hi). unfold com_nthval.
  rewrite get_bytes_in; [|lia..|].
  - rewrite Hr. replace (Z.to_nat (Z.of_nat i * 4)) with (i * 4)%nat by lia.
    f_equal. by apply take_drop_middle_bytes.
  - rewrite Hr, length_app, length_val_bytes. lia.
Qed.

Lemma view_range com vs i v : com_view com vs → vs !! i = Some v → is_u32 v.
Proof. intros [_ _ Hr] Hi. exact (Forall_lookup_1 _ _ _ _ Hr Hi). Qed.

Lemma val_get_view com vs i v :
  com_view com vs → vs !! i = Some v → community_val_get com (Z.of_nat i) = Ok v.
Proof.
  intros Hc Hi. pose proof (nthval_view _ _ _ _ Hc Hi) as Hn. unfold com_nthval in Hn.
  unfold community_val_get. rewrite Hn. cbn [mbind res_bind]. by rewrite ntohl_be32 by by eapply view_range.
Qed.

(** All the octets of the values. *)
Lemma get_all_view com vs :
  com_view com vs → get_bytes (octets com) 0 (c_size com * 4) = Ok (val_bytes vs).
Proof.
  intros [Hs [rest Hr] _]. rewrite Hs, Hr, get_bytes_in; [|lia..|].
  - rewrite drop_0. f_equal. apply take_app_length'. rewrite length_val_bytes. lia.
  - rewrite length_app, length_val_bytes. lia.
Qed.

(** * Adding, looking for and merging values *)

Lemma add_val_ok com vs v :
  com_ok com vs → is_u32 v →
  ∃ com', community_add_val com v = Ok com' ∧ com_ok com' (vs ++ [v]) ∧
          c_refcnt com' = c_refcnt com ∧ c_str com' = c_str com.
Proof.
  intros [Hs Ho Hr] Hv. unfold community_add_val, realloc. fold (octets com).
  rewrite Hs, Ho, put_bytes_in; [|lia|rewrite length_resize; cbn; lia].
  eexists. split; [done|]. split_and!; [|done|done].
  split; cbn [octets set_c_vals c_val c_size from_option id].
  - rewrite length_app. cbn. lia.
  - assert (length (val_bytes vs) = Z.to_nat ((Z.of_nat (length vs) + 1 - 1) * 4)) as Hl
      by (rewrite length_val_bytes; lia).
    rewrite resize_ge by lia. rewrite take_app_length' by done.
    rewrite drop_ge, app_nil_r by (rewrite length_app, length_replicate; cbn; lia).
    by rewrite val_bytes_app.
  - apply Forall_app. auto.
Qed.

Lemma include_loop_view com vs v i n :
  com_view com vs → is_u32 v → (i + n = length vs)%nat →
  include_loop n (Z.of_nat i) com (be32 v) = Ok (bool_decide (v ∈ drop i vs)).
Proof.
  intros Hc Hv. revert i. induction n as [|n IH]; intros i Hi.
  { rewrite drop_ge by lia. done. }
  destruct (lookup_lt_is_Some_2 vs i) as [x Hx]; [lia|].
  cbn [include_loop]. rewrite (nthval_view _ _ _ _ Hc Hx). cbn [mbind res_bind].
  rewrite (drop_S _ _ _ Hx). destruct (bool_decide_reflect (be32 v = be32 x)) as [He|He].
  - apply be32_inj in He; [|done|by eapply view_range]. subst x.
    by rewrite bool_decide_eq_true_2 by set_solver.
  - replace (Z.of_nat i + 1) with (Z.of_nat (S i)) by lia. rewrite IH by lia. f_equal.
    apply bool_decide_ext. rewrite elem_of_cons. naive_solver.
Qed.

Lemma include_view com vs v :
  com_view com vs → is_u32 v → community_include com v = Ok (bool_decide (v ∈ vs)).
Proof.
  intros Hc Hv. unfold community_include. rewrite (cv_size _ _ Hc).
  rewrite (include_loop_view com vs v 0) by (done || lia). by rewrite drop_0.
Qed.

Lemma dup_ok com vs :
  com_view com vs →
  ∃ com', community_dup com = Ok com' ∧ com_ok com' vs ∧ c_refcnt com' = 0 ∧ c_str com' = None.
Proof.
  intros Hc. pose proof (cv_size _ _ Hc) as Hs. unfold community_dup.
  destruct (Z.eqb_spec (c_size com) 0) as [H0|H0].
  - assert (vs = []) as -> by (apply length_zero_iff_nil; lia). eexists. by split_and!.
  - rewrite (get_all_view _ _ Hc). eexists. split_and!; [done| |done|done].
    split; [done|done|apply Hc].
Qed.

Lemma merge_ok com1 com2 vs1 vs2 :
  com_ok com1 vs1 → com_view com2 vs2 →
  ∃ com', community_merge com1 com2 = Ok com' ∧ com_ok com' (vs1 ++ vs2).
Proof.
  intros [Hs Ho Hr] Hc2. unfold community_merge, realloc. rewrite (get_all_view _ _ Hc2).
  cbn [mbind res_bind]. fold (octets com1). rewrite Hs, Ho, (cv_size _ _ Hc2).
  rewrite put_bytes_in; [|lia|rewrite length_resize, length_val_bytes; lia].
  eexists. split; [done|]. split; cbn.
  - rewrite length_app. lia.
  - rewrite resize_ge by (rewrite length_val_bytes; lia).
    rewrite take_app_length' by (rewrite length_val_bytes; lia).
    rewrite drop_ge, app_nil_r by (rewrite length_app, length_replicate, !length_val_bytes; lia).
    by rewrite val_bytes_app.
  - apply Forall_app. split; [done|apply Hc2].
Qed.

(** * Sorting *)

(** The values in increasing order, each once. *)
Definition uniq_sorted (vs : list Z) : list Z := merge_sort Z.le (remove_dups vs).

#[export] Instance before_compare_trans : Transitive (before community_compare).
Proof.
  intros a b c. unfold before, community_compare. rewrite !Z.gtb_ltb. case_bool; lia.
Qed.
#[export] Instance before_compare_total : Total (before community_compare).
Proof. intros a b. unfold before, community_compare. rewrite !Z.gtb_ltb. case_bool; lia. Qed.

Lemma before_be32 v1 v2 :
  is_u32 v1 → is_u32 v2 → before community_compare (be32 v1) (be32 v2) → v1 ≤ v2.
Proof.
  intros H1 H2. unfold before, community_compare. rewrite !ntohl_be32, Z.gtb_ltb by done.
  case_bool; lia.
Qed.

Lemma quads_bytes vs rest : quads (length vs) (val_bytes vs ++ rest) = be32 <$> vs.
Proof. induction vs as [|v vs IH]; [done|]. cbn. f_equal. apply IH. Qed.

(** The sort of the C library on values of four octets. *)
Lemma qsort4_spec vs :
  Forall is_u32 vs →
  ∃ ws, qsort4 community_compare (val_bytes vs) (Z.of_nat (length vs)) = val_bytes ws ∧
        ws ≡ₚ vs ∧ StronglySorted Z.le ws.
Proof.
  intros Hr. unfold qsort4. rewrite Nat2Z.id.
  pose proof (quads_bytes vs []) as Hq. rewrite app_nil_r in Hq. rewrite Hq.
  pose proof (merge_sort_Permutation (before community_compare) (be32 <$> vs)) as Hp.
  pose proof (StronglySorted_merge_sort (before community_compare) (be32 <$> vs)) as Hs.
  destruct (Permutation_map_inv _ _ Hp) as (ws & Hm & Hws).
  exists ws. rewrite drop_ge, app_nil_r by (rewrite length_val_bytes; lia). split_and!.
  - rewrite Hm. unfold val_bytes. clear. induction ws as [|w ws IH]; [done|]. cbn. by rewrite <- IH.
  - by symmetry.
  - rewrite Hm in Hs. rewrite Hws in Hr. clear -Hs Hr.
    induction ws as [|w ws IH]; [constructor|]. apply Forall_cons in Hr as [Hw Hr].
    apply StronglySorted_inv in Hs as [Hs Hall]. constructor; [auto|].
    apply Forall_forall. intros x Hx. change (Forall (before community_compare (be32 w)) (be32 <$> ws)) in Hall.
    rewrite Forall_fmap, Forall_forall in Hall.
    rewrite Forall_forall in Hr. apply before_be32; [done|by apply Hr|by apply Hall].
Qed.

Lemma uniq_loop_ok com vs new ns i n :
  com_view com vs → com_ok new ns → NoDup ns → (i + n = length vs)%nat →
  ∃ new' ns', uniq_loop n (Z.of_nat i) com new = Ok new' ∧ com_ok new' ns' ∧ NoDup ns' ∧
    (∀ v, v ∈ ns' ↔ v ∈ ns ∨ v ∈ drop i vs) ∧
    c_refcnt new' = c_refcnt new ∧ c_str new' = c_str new.
Proof.
  intros Hc. revert new ns i. induction n as [|n IH]; intros new ns i Hn Hd Hi.
  { exists new, ns. rewrite drop_ge by lia. split_and!; try done. set_solver. }
  destruct (lookup_lt_is_Some_2 vs i) as [x Hx]; [lia|].
  pose proof (view_range _ _ _ _ Hc Hx) as Hxr. cbn [uniq_loop].
  rewrite (val_get_view _ _ _ _ Hc Hx). cbn [mbind res_bind].
  rewrite (include_view new ns) by auto with zebra. cbn [mbind res_bind].
  replace (Z.of_nat i + 1) with (Z.of_nat (S i)) by lia. rewrite (drop_S _ _ _ Hx).
  destruct (bool_decide_reflect (x ∈ ns)) as [Hin|Hin]; cbn [mbind res_bind].
  - destruct (IH new ns (S i)) as (new' & ns' & Hr & Hok & Hd' & Hel & Hrest); [done..|lia|].
    exists new', ns'. split_and!; [done..| |apply Hrest|apply Hrest]. intros v. rewrite Hel. set_solver.
  - destruct (add_val_ok _ _ x Hn Hxr) as (new1 & -> & Hn1 & Hrc1 & Hst1). cbn [mbind res_bind].
    destruct (IH new1 (ns ++ [x]) (S i)) as (new' & ns' & Hr & Hok & Hd' & Hel & Hrc & Hst).
    + done.
    + apply NoDup_app. split_and!; [done|set_solver|apply NoDup_singleton].
    + lia.
    + exists new', ns'. split_and!; [done..| |congruence|congruence]. intros v. rewrite Hel. set_solver.
Qed.

Lemma uniq_sorted_unique ws vs :
  NoDup ws → StronglySorted Z.le ws → (∀ v, v ∈ ws ↔ v ∈ vs) → ws = uniq_sorted vs.
Proof.
  intros Hd Hs He. unfold uniq_sorted. apply (StronglySorted_unique Z.le).
  - done.
  - apply StronglySorted_merge_sort; apply _.
  - rewrite merge_sort_Permutation. apply NoDup_Permutation; [done|apply NoDup_remove_dups|].
    intros v. by rewrite elem_of_remove_dups.
Qed.

Lemma uniq_sort_ok com vs :
  com_view com vs →
  ∃ com', community_uniq_sort (Some com) = Ok (Some com') ∧ com_ok com' (uniq_sorted vs) ∧
          c_refcnt com' = 0 ∧ c_str com' = None.
Proof.
  intros Hc. unfold community_uniq_sort. rewrite (cv_size _ _ Hc), Nat2Z.id.
  destruct (uniq_loop_ok com vs community_new [] 0 (length vs)) as
    (new & ns & Hr & [Hs Ho Hrn] & Hd & Hel & Hrc & Hst); [done|apply com_new_ok|constructor|lia|].
  change (Z.of_nat 0) with 0 in Hr. rewrite Hr. cbn [mbind res_bind].
  destruct (qsort4_spec ns Hrn) as (ws & Hq & Hp & Hss).
  eexists. split; [done|]. split_and!; [|done|done].
  assert (ws = uniq_sorted vs) as <-.
  { apply uniq_sorted_unique; [by rewrite Hp|done|]. intros v. rewrite Hp, Hel, drop_0. set_solver. }
  split; cbn [set_c_vals c_size].
  - by rewrite Hp.
  - unfold octets in *. cbn [set_c_vals c_val]. rewrite Hs.
    destruct (c_val new) as [b|]; cbn in *; [by subst b|].
    destruct ns as [|x ns]; [|done]. apply Permutation_nil_r in Hp. by subst ws.
  - by rewrite Hp.
Qed.

Lemma uniq_sorted_elem v vs : v ∈ uniq_sorted vs ↔ v ∈ vs.
Proof. unfold uniq_sorted. by rewrite merge_sort_Permutation, elem_of_remove_dups. Qed.

Lemma uniq_sorted_NoDup vs : NoDup (uniq_sorted vs).
Proof. unfold uniq_sorted. rewrite merge_sort_Permutation. apply NoDup_remove_dups. Qed.

Lemma uniq_sorted_le vs : StronglySorted Z.le (uniq_sorted vs).
Proof. apply StronglySorted_merge_sort; apply _. Qed.

Lemma uniq_sorted_idemp vs : uniq_sorted (uniq_sorted vs) = uniq_sorted vs.
Proof.
  symmetry. apply uniq_sorted_unique; [apply uniq_sorted_NoDup|apply uniq_sorted_le|done].
Qed.

Lemma uniq_sorted_u32 vs : Forall is_u32 vs → Forall is_u32 (uniq_sorted vs).
Proof. rewrite !Forall_forall. intros H v Hv. apply H. by apply uniq_sorted_elem. Qed.

(** * Matching *)

Lemma sublist_cons_same (x : Z) xs ys : x :: ys `sublist_of` x :: xs ↔ ys `sublist_of` xs.
Proof.
  split; [|by apply sublist_skip]. intros Hs. inversion Hs; subst; [done|].
  etransitivity; [|done]. by apply sublist_cons.
Qed.

Lemma sublist_cons_ne (x y : Z) xs ys :
  x ≠ y → y :: ys `sublist_of` x :: xs ↔ y :: ys `sublist_of` xs.
Proof.
  intros Hne. split; [|by apply sublist_cons]. intros Hs. by inversion Hs; subst.
Qed.

Lemma match_loop_view com1 com2 vs1 vs2 i j n :
  com_view com1 vs1 → com_view com2 vs2 → (i + n = length vs1)%nat → (j ≤ length vs2)%nat →
  ∃ j', com_match_loop n (Z.of_nat i) (Z.of_nat j) com1 com2 = Ok (Z.of_nat j') ∧
        (j' = length vs2 ↔ drop j vs2 `sublist_of` drop i vs1).
Proof.
  intros H1 H2. revert i j. induction n as [|n IH]; intros i j Hi Hj.
  { exists j. split; [done|]. rewrite (drop_ge vs1) by lia. split.
    - intros ->. rewrite drop_ge by lia. apply sublist_nil_l.
    - intros Hn%sublist_nil_r. apply (f_equal length) in Hn. rewrite length_drop in Hn. cbn in Hn. lia. }
  cbn [com_match_loop]. rewrite (cv_size _ _ H1), (cv_size _ _ H2).
  rewrite (proj2 (Z.ltb_lt (Z.of_nat i) _)) by lia. cbn [andb].
  destruct (Z.ltb_spec (Z.of_nat j) (Z.of_nat (length vs2))) as [Hlt|Hge].
  2:{ exists j. split; [done|]. rewrite (drop_ge vs2) by lia. split; [intros _; apply sublist_nil_l|lia]. }
  destruct (lookup_lt_is_Some_2 vs1 i) as [x Hx]; [lia|].
  destruct (lookup_lt_is_Some_2 vs2 j) as [y Hy]; [lia|].
  rewrite (nthval_view _ _ _ _ H1 Hx), (nthval_view _ _ _ _ H2 Hy). cbn [mbind res_bind].
  replace (Z.of_nat i + 1) with (Z.of_nat (S i)) by lia.
  rewrite (drop_S _ _ _ Hx), (drop_S _ _ _ Hy).
  destruct (bool_decide_reflect (be32 x = be32 y)) as [He|He].
  - apply be32_inj in He; [|by eauto using view_range..]. subst y.
    replace (Z.of_nat j + 1) with (Z.of_nat (S j)) by lia.
    destruct (IH (S i) (S j)) as (j' & Hr & Hj'); [lia..|]. exists j'. by rewrite sublist_cons_same.
  - destruct (IH (S i) j) as (j' & Hr & Hj'); [lia..|]. exists j'. split; [done|].
    rewrite Hj', (drop_S _ _ _ Hy). symmetry. apply sublist_cons_ne. congruence.
Qed.

(** The walk over both arrays decides whether the second is a subsequence. *)
Lemma match_view com1 com2 vs1 vs2 :
  com_view com1 vs1 → com_view com2 vs2 →
  ∃ b, community_match (Some com1) (Some com2) = Ok b ∧ (b = true ↔ vs2 `sublist_of` vs1).
Proof.
  intros H1 H2. unfold community_match. rewrite (cv_size _ _ H1), (cv_size _ _ H2).
  destruct (Z.ltb_spec (Z.of_nat (length vs1)) (Z.of_nat (length vs2))) as [Hlt|Hge].
  { exists false. split; [done|]. split; [done|]. intros Hs%sublist_length. lia. }
  rewrite Nat2Z.id. destruct (match_loop_view com1 com2 vs1 vs2 0 0 (length vs1)) as (j & Hr & Hj);
    [done|done|lia|lia|]. change (Z.of_nat 0) with 0 in Hr. rewrite Hr. cbn [mbind res_bind].
  eexists. split; [done|]. rewrite Z.eqb_eq. rewrite !drop_0 in Hj. rewrite <- Hj. lia.
Qed.

Lemma StronglySorted_lt_of_le l : NoDup l → StronglySorted Z.le l → StronglySorted Z.lt l.
Proof.
  intros Hd Hs. induction Hs as [|x l Hs IH Hall]; [constructor|].
  apply NoDup_cons in Hd as [Hx Hd]. constructor; [auto|].
  apply Forall_forall. intros y Hy. rewrite Forall_forall in Hall. specialize (Hall y Hy).
  assert (x ≠ y) by congruence. lia.
Qed.

(** In increasing lists a subset is a subsequence. *)
Lemma sorted_sublist l1 l2 :
  StronglySorted Z.lt l1 → StronglySorted Z.lt l2 → (l2 `sublist_of` l1 ↔ l2 ⊆ l1).
Proof.
  intros H1. revert l2. induction H1 as [|x l1 Hs1 IH Hx]; intros l2 H2.
  { split; [intros ->%sublist_nil_r; done|]. destruct l2 as [|y l2]; [done|].
    intros Hsub. specialize (Hsub y ltac:(set_solver)). by apply elem_of_nil in Hsub. }
  destruct H2 as [|y l2 Hs2 Hy]; [split; [set_solver|intros _; apply sublist_nil_l]|].
  rewrite Forall_forall in Hx, Hy. destruct (decide (x = y)) as [->|Hne].
  - rewrite sublist_cons_same, IH by done. split; intros Hsub z Hz.
    + set_solver.
    + assert (z ∈ y :: l1) as [->|]%elem_of_cons by set_solver; [|done].
      specialize (Hy y Hz). lia.
  - rewrite sublist_cons_ne by done. rewrite IH by (constructor; [done|by apply Forall_forall]).
    split; [set_solver|]. intros Hsub z Hz.
    assert (z ∈ x :: l1) as [->|]%elem_of_cons by set_solver; [|done]. exfalso.
    assert (y ∈ x :: l1) as [?|Hin]%elem_of_cons by set_solver; [done|].
    specialize (Hx y Hin). apply elem_of_cons in Hz as [?|Hz]; [done|]. specialize (Hy x Hz). lia.
Qed.

(** * Keys and comparison *)

Definition com_hk (bs : list Z) : Z := foldl (λ k b, u32 (k + b)) 0 bs.

Lemma com_hk_range bs : is_u32 (com_hk bs).
Proof.
  unfold com_hk. induction bs as [|b bs _] using rev_ind; [done|].
  rewrite foldl_app. apply u32_range.
Qed.

Lemma hash_sum_run bs i key n :
  (i + n = length bs)%nat →
  hash_sum n (Z.of_nat i) bs key = Ok (foldl (λ k b, u32 (k + b)) key (drop i bs)).
Proof.
  revert i key. induction n as [|n IH]; intros i key Hi.
  { by rewrite drop_ge by lia. }
  destruct (lookup_lt_is_Some_2 bs i) as [x Hx]; [lia|]. cbn [hash_sum].
  assert (get_byte bs (Z.of_nat i) = Ok x) as -> by (apply get_byte_Ok; rewrite Nat2Z.id; split; [lia|done]).
  cbn [mbind res_bind]. replace (Z.of_nat i + 1) with (Z.of_nat (S i)) by lia.
  rewrite IH by lia. by rewrite (drop_S _ _ _ Hx).
Qed.

(** The value the hash table sees behind a pointer: the octets of the attribute, when
    the block has the size the attribute says. *)
Definition com_hval (mem : gmap nat community) (p : nat) : option (list Z) :=
  com ← mem !! p;
  if c_size com * 4 =? Z.of_nat (length (octets com)) then Some (octets com) else None.

Lemma com_hval_ok mem p com vs :
  mem !! p = Some com → com_ok com vs → com_hval mem p = Some (val_bytes vs).
Proof.
  intros Hp [Hs Ho _]. unfold com_hval. rewrite Hp. cbn. rewrite Ho, Hs, length_val_bytes.
  by rewrite (proj2 (Z.eqb_eq _ _)) by lia.
Qed.

#[export] Instance community_hash_laws : HashLaws com_key com_cmp com_hval com_hk.
Proof.
  unfold com_key, com_cmp, com_hval. split.
  - intros w d v. destruct (w !! d) as [com|]; cbn; [|done].
    destruct (Z.eqb_spec (c_size com * 4) (Z.of_nat (length (octets com)))) as [He|]; [|done].
    intros [= <-]. unfold community_hash_make. rewrite He, Nat2Z.id.
    by apply (hash_sum_run _ 0).
  - apply com_hk_range.
  - intros w d1 d2 v1 v2. destruct (w !! d1) as [com1|]; cbn; [|done].
    destruct (w !! d2) as [com2|]; cbn; [|by case_match].
    destruct (Z.eqb_spec (c_size com1 * 4) (Z.of_nat (length (octets com1)))) as [H1|]; [|done].
    destruct (Z.eqb_spec (c_size com2 * 4) (Z.of_nat (length (octets com2)))) as [H2|]; [|done].
    intros [= <-] [= <-]. destruct (Z.eqb_spec (c_size com1) (c_size com2)) as [Hs|Hs].
    + rewrite !get_bytes_in by lia. cbn [mbind res_bind]. change (Z.to_nat 0) with 0%nat.
      by rewrite !drop_0, !take_ge by lia.
    + rewrite bool_decide_eq_false_2; [done|]. intros He. rewrite He in H1. lia.
Qed.

(** * Deleting values *)

Lemma del_loop_pass sz com vs l1 l2 v i :
  com_view com vs → is_u32 v → vs = l1 ++ l2 → v ∉ l1 → (i ≤ length l1)%nat →
  del_loop sz (length vs - i) (Z.of_nat i) (be32 v) com =
  del_loop sz (length l2) (Z.of_nat (length l1)) (be32 v) com.
Proof.
  intros Hc Hv -> Hn Hi. remember (length l1 - i)%nat as k eqn:Hk. revert i Hi Hk.
  induction k as [|k IH]; intros i Hi Hk.
  { replace i with (length l1) by lia. f_equal. rewrite length_app. lia. }
  destruct (lookup_lt_is_Some_2 l1 i) as [x Hx]; [lia|].
  assert ((l1 ++ l2) !! i = Some x) as Hx' by by apply lookup_app_l_Some.
  replace (length (l1 ++ l2) - i)%nat with (S (length (l1 ++ l2) - S i)) by (rewrite length_app; lia).
  cbn [del_loop]. rewrite (nthval_view _ _ _ _ Hc Hx'). cbn [mbind res_bind].
  rewrite bool_decide_eq_false_2.
  - replace (Z.of_nat i + 1) with (Z.of_nat (S i)) by lia. apply IH; lia.
  - intros He%be32_inj; [|by eapply view_range|done]. subst x. by apply Hn, (list_elem_of_lookup_2 _ i).
Qed.

Lemma del_val_unfold sz com vs l1 v l2 :
  com_ok com vs → is_u32 v → vs = l1 ++ v :: l2 → v ∉ l1 →
  community_del_val sz com (be32 v) =
  del_loop sz (S (length l2)) (Z.of_nat (length l1)) (be32 v) com.
Proof.
  intros Hc Hv Hvs Hn. unfold community_del_val. destruct (c_val com) as [b|] eqn:Hb.
  - rewrite (co_size _ _ Hc), Nat2Z.id.
    pose proof (del_loop_pass sz com vs l1 (v :: l2) v 0 (com_ok_view _ _ Hc) Hv Hvs Hn) as Hp.
    rewrite Nat.sub_0_r in Hp. apply Hp. lia.
  - exfalso. pose proof (co_val _ _ Hc) as Ho. unfold octets in Ho. rewrite Hb, Hvs in Ho.
    apply (f_equal length) in Ho. rewrite length_val_bytes, length_app in Ho. cbn in Ho. lia.
Qed.

(** The copy over the deleted value, when as many octets are copied as remain. *)
Lemma del_copy l1 v l2 c :
  c = Z.of_nat (length l2) →
  ∃ bs, (if c >? 0 then
           bs ← get_bytes (val_bytes (l1 ++ v :: l2)) ((Z.of_nat (length l1) + 1) * 4) (c * 4);
           put_bytes (val_bytes (l1 ++ v :: l2)) (Z.of_nat (length l1) * 4) bs
         else Ok (val_bytes (l1 ++ v :: l2))) = Ok bs ∧
    take (4 * (length l1 + length l2)) bs = val_bytes (l1 ++ l2).
Proof.
  intros ->. rewrite Z.gtb_ltb. case_bool.
  - rewrite get_bytes_in by (rewrite ?length_val_bytes, ?length_app; cbn; lia). cbn [mbind res_bind].
    rewrite val_bytes_app, val_bytes_cons.
    replace (Z.to_nat ((Z.of_nat (length l1) + 1) * 4)) with (length (val_bytes l1 ++ be32 v))
      by (rewrite length_app, length_val_bytes; cbn; lia).
    rewrite app_assoc, drop_app_length, take_ge by (rewrite length_val_bytes; lia).
    rewrite put_bytes_in; [|lia|rewrite !length_app, !length_val_bytes; cbn; lia].
    eexists. split; [done|]. rewrite <- app_assoc.
    rewrite (take_app_length' (val_bytes l1)) by (rewrite length_val_bytes; lia).
    rewrite app_assoc, <- val_bytes_app. apply take_app_length'.
    rewrite length_val_bytes, length_app. lia.
  - assert (l2 = []) as -> by (apply length_zero_iff_nil; lia).
    eexists. split; [done|]. rewrite val_bytes_app, app_nil_r. apply take_app_length'.
    rewrite length_val_bytes. cbn. lia.
Qed.

(** With pointers of four octets the value is taken out. *)
Lemma del_val_ilp32 com l1 v l2 :
  com_ok com (l1 ++ v :: l2) → v ∉ l1 →
  ∃ com', community_del_val 4 com (be32 v) = Ok com' ∧ com_ok com' (l1 ++ l2).
Proof.
  intros Hc Hn. pose proof Hc as [Hs Ho [Hr1 [Hv Hr2]%Forall_cons]%Forall_app].
  rewrite (del_val_unfold 4 com _ l1 v l2) by done. cbn [del_loop].
  rewrite (nthval_view com (l1 ++ v :: l2) _ v) by (auto with zebra; by apply list_lookup_middle).
  cbn [mbind res_bind]. rewrite bool_decide_eq_true_2, Ho by done.
  destruct (del_copy l1 v l2 (c_size com - Z.of_nat (length l1) - 1)) as (bs & -> & Hbs).
  { rewrite Hs, length_app. cbn. lia. }
  cbn [mbind res_bind]. assert (c_size com - 1 = Z.of_nat (length (l1 ++ l2))) as ->
    by (rewrite Hs, !length_app; cbn; lia).
  rewrite Z.gtb_ltb. case_bool.
  - eexists. split; [done|]. split; [done| |by apply Forall_app].
    cbn [octets set_c_vals c_val from_option id]. unfold realloc. cbn [from_option id].
    rewrite length_app. replace (Z.to_nat (Z.of_nat (length l1 + length l2) * 4))
      with (4 * (length l1 + length l2))%nat by lia.
    rewrite resize_le; [done|]. apply (f_equal length) in Hbs.
    rewrite length_take, length_val_bytes, length_app in Hbs. lia.
  - assert (l1 ++ l2 = []) as -> by (apply length_zero_iff_nil; lia).
    eexists. split; [done|]. by split.
Qed.

(** With pointers of eight octets the copy leaves the block, unless the value is the
    last one. *)
Lemma del_val_lp64 com l1 v l2 :
  com_ok com (l1 ++ v :: l2) → v ∉ l1 → l2 ≠ [] →
  community_del_val 8 com (be32 v) = Fail OutOfBounds.
Proof.
  intros Hc Hn Hl2. pose proof Hc as [Hs Ho Hr].
  assert (is_u32 v) as Hv by (apply Forall_app in Hr as [_ Hr]; by apply Forall_cons in Hr as [? _]).
  rewrite (del_val_unfold 8 com _ l1 v l2) by done. cbn [del_loop].
  rewrite (nthval_view com (l1 ++ v :: l2) _ v) by (auto with zebra; by apply list_lookup_middle).
  cbn [mbind res_bind]. rewrite bool_decide_eq_true_2 by done.
  assert (0 < length l2)%nat by (destruct l2; [done|cbn; lia]).
  assert (c_size com - Z.of_nat (length l1) - 1 = Z.of_nat (length l2)) as ->
    by (rewrite Hs, length_app; cbn; lia).
  assert ((Z.of_nat (length l2) >? 0) = true) as -> by lia.
  unfold get_bytes. rewrite Ho, length_val_bytes, length_app. cbn [length].
  rewrite (proj2 (Z.leb_gt (_ + _) _)) by lia. by rewrite andb_false_r.
Qed.

(** * Claims *)

(** C34: for an attribute with any values, in any order and with repetitions (in a
    block of its own or in a packet), community_uniq_sort returns a new attribute
    with exactly those values, in increasing order and each once: its quadratic
    search followed by qsort on network order octets equals sorting the set. *)
Theorem community_uniq_sort_equiv com vs :
  com_view com vs →
  ∃ com', community_uniq_sort (Some com) = Ok (Some com') ∧ com_ok com' (uniq_sorted vs) ∧
          StronglySorted Z.lt (uniq_sorted vs) ∧ (∀ v, v ∈ uniq_sorted vs ↔ v ∈ vs).
Proof.
  intros Hc. destruct (uniq_sort_ok com vs Hc) as (com' & Hr & Hok & _). exists com'.
  split_and!; [done..| |intros v; apply uniq_sorted_elem].
  apply StronglySorted_lt_of_le; [apply uniq_sorted_NoDup|apply uniq_sorted_le].
Qed.

Definition three_vals : community :=
  Community 0 3 (Some [0; 2; 0; 1; 0; 1; 0; 1; 0; 2; 0; 1]) None.

Lemma community_uniq_sort_equiv_witness :
  ∃ com', community_uniq_sort (Some three_vals) = Ok (Some com') ∧ octets com' = [0; 1; 0; 1; 0; 2; 0; 1].
Proof.
  destruct (community_uniq_sort_equiv three_vals [131073; 65537; 131073]) as (com' & Hr & Hok & _).
  - split; [done|by exists []|]. repeat constructor; by vm_compute.
  - exists com'. split; [done|]. rewrite (co_val _ _ Hok). by vm_compute.
Defined.

(** on attributes made by community_uniq_sort, community_match, which walks both
    arrays once, accepts exactly when every value of the second attribute is a
    value of the first. *)
Theorem community_match_subset com1 com2 vs1 vs2 :
  com_view com1 (uniq_sorted vs1) → com_view com2 (uniq_sorted vs2) →
  community_match (Some com1) (Some com2) = Ok (bool_decide (Forall (λ v, v ∈ vs1) vs2)).
Proof.
  intros H1 H2. destruct (match_view com1 com2 _ _ H1 H2) as (b & Hr & Hb). rewrite Hr. f_equal.
  assert (∀ vs, StronglySorted Z.lt (uniq_sorted vs)) as Hs.
  { intros vs. apply StronglySorted_lt_of_le; [apply uniq_sorted_NoDup|apply uniq_sorted_le]. }
  rewrite sorted_sublist in Hb by done. destruct b; symmetry.
  - apply bool_decide_eq_true_2, Forall_forall. intros v Hv.
    apply uniq_sorted_elem, (proj1 Hb eq_refl). by apply uniq_sorted_elem.
  - apply bool_decide_eq_false_2. rewrite Forall_forall. intros Hsub.
    assert (false = true); [|done]. apply Hb. intros v Hv.
    apply uniq_sorted_elem, Hsub. by rewrite uniq_sorted_elem in Hv.
Qed.

Lemma community_match_subset_witness :
  community_match (Some (Community 0 2 (Some [0; 1; 0; 1; 0; 2; 0; 1]) None))
                  (Some (Community 0 1 (Some [0; 2; 0; 1]) None)) = Ok true.
Proof.
  rewrite (community_match_subset _ _ [131073; 65537] [131073]).
  - by vm_compute.
  - split; [done|by exists []|]. repeat constructor; by vm_compute.
  - split; [done|by exists []|]. repeat constructor; by vm_compute.
Defined.
