(* ===== verification/CommunityText.v ===== *)
(** The text of communities attributes: what community_com2str prints, that it stays
    in the block it allocates, and that community_str2com reads it back. *)

From Stdlib Require Import Ascii.
From stdpp Require Import strings pretty sorting.
From S2P Require Import Prelude Prefix Text Stream Hash Community CommunityFacts.

Implicit Types (com : community) (vs : list Z).

(** * Printing *)

(** The text of one value, and the room the first loop counts for it. *)
Definition item_text (v : Z) : list ascii :=
  match com_keyword v with
  | Some kw => kw
  | None => dec (v / 2^16) ++ ":"%char :: dec (v mod 2^16)
  end.

Definition item_room (v : Z) : Z :=
  match com_keyword v with
  | Some kw => 1 + Z.of_nat (length kw)
  | None => 12
  end.

Definition rooms (vs : list Z) : Z := foldr (λ v n, item_room v + n) 0 vs.

(** The texts of the values with a blank between them. *)
Fixpoint com_text (vs : list Z) : list ascii :=
  match vs with
  | [] => []
  | [v] => item_text v
  | v :: vs => item_text v ++ " "%char :: com_text vs
  end.

(** The texts of [vs], each behind a blank. *)
Definition blank_text (vs : list Z) : list ascii := vs ≫= λ v, " "%char :: item_text v.

Lemma com_text_cons v vs : com_text (v :: vs) = item_text v ++ blank_text vs.
Proof.
  revert v. induction vs as [|w vs IH]; intros v; [by rewrite app_nil_r|].
  change (com_text (v :: w :: vs)) with (item_text v ++ " "%char :: com_text (w :: vs)).
  by rewrite IH.
Qed.

Lemma item_halves v :
  is_u32 v →
  u16 (Z.land (Z.shiftr v 16) 0xFFFF) = v / 2^16 ∧ u16 (Z.land v 0xFFFF) = v mod 2^16 ∧
  is_u16 (v / 2^16) ∧ is_u16 (v mod 2^16).
Proof.
  unfold is_u32, u16, is_u16. intros Hv. change 0xFFFF with (Z.ones 16).
  rewrite !Z.land_ones, Z.shiftr_div_pow2 by lia.
  split_and!; dm_lia.
Qed.

Lemma item_text_room v : is_u32 v → Z.of_nat (length (item_text v)) + 1 ≤ item_room v.
Proof.
  intros Hv. unfold item_text, item_room. destruct (com_keyword v); [lia|].
  destruct (item_halves v Hv) as (_ & _ & H1 & H2). rewrite length_app. cbn [length].
  apply pretty_u16_length in H1, H2. lia.
Qed.

Lemma rooms_nonneg vs : 0 ≤ rooms vs.
Proof.
  induction vs as [|v vs IH]; [done|]. cbn. fold (rooms vs).
  assert (0 ≤ item_room v) by (unfold item_room; case_match; lia). lia.
Qed.

Lemma com2str_length_view com vs i n len :
  com_view com vs → (i + n = length vs)%nat →
  com2str_length n (Z.of_nat i) com len = Ok (len + rooms (drop i vs)).
Proof.
  intros Hc. revert i len. induction n as [|n IH]; intros i len Hi.
  { rewrite drop_ge by lia. cbn. f_equal. lia. }
  destruct (lookup_lt_is_Some_2 vs i) as [x Hx]; [lia|]. cbn [com2str_length].
  rewrite (nthval_view _ _ _ _ Hc Hx). cbn [mbind res_bind].
  replace (Z.of_nat i + 1) with (Z.of_nat (S i)) by lia.
  rewrite IH, (drop_S _ _ _ Hx), ntohl_be32 by (lia || by eapply view_range).
  cbn [rooms foldr]. fold (rooms (drop (S i) vs)). f_equal. unfold item_room.
  change (Z.of_nat (length (chars " 65536:65535"))) with 12. case_match; lia.
Qed.

Lemma fill_item v b :
  is_u32 v → buf_len b + item_room v ≤ snd b →
  match com_keyword v with
  | Some kw => buf_puts kw b
  | None => buf_puts (dec (u16 (Z.land (Z.shiftr v 16) 0xFFFF)) ++
                      ":"%char :: dec (u16 (Z.land v 0xFFFF))) b
  end = Ok (fst b ++ item_text v, snd b).
Proof.
  intros Hv Hb. pose proof (item_text_room v Hv) as Hr. unfold item_text in *.
  destruct (item_halves v Hv) as (-> & -> & _). destruct (com_keyword v); rewrite buf_puts_ok; lia || done.
Qed.

(** The second loop behind the first value. *)
Lemma com2str_fill_view com vs i n b :
  com_view com vs → (i + n = length vs)%nat → buf_len b + 1 + rooms (drop i vs) ≤ snd b →
  com2str_fill n (Z.of_nat i) com false b = Ok (fst b ++ blank_text (drop i vs), snd b) ∧
  Z.of_nat (length (fst b ++ blank_text (drop i vs))) < snd b.
Proof.
  intros Hc. revert i b. induction n as [|n IH]; intros i b Hi Hb.
  { rewrite drop_ge in * by lia. cbn in *. rewrite app_nil_r. unfold buf_len in Hb.
    split; [by destruct b|lia]. }
  destruct (lookup_lt_is_Some_2 vs i) as [x Hx]; [lia|].
  pose proof (view_range _ _ _ _ Hc Hx) as Hxr. rewrite (drop_S _ _ _ Hx) in *.
  cbn [rooms foldr] in Hb. fold (rooms (drop (S i) vs)) in Hb.
  pose proof (rooms_nonneg (drop (S i) vs)). pose proof (item_text_room x Hxr).
  cbn [com2str_fill]. rewrite (nthval_view _ _ _ _ Hc Hx). cbn [mbind res_bind].
  rewrite buf_put_ok by lia. cbn [mbind res_bind]. rewrite ntohl_be32 by done.
  rewrite fill_item; [|done|].
  2:{ unfold buf_len in *. cbn [fst snd]. rewrite length_app. cbn [length]. lia. }
  cbn [mbind res_bind fst snd]. replace (Z.of_nat i + 1) with (Z.of_nat (S i)) by lia.
  destruct (IH (S i) ((fst b ++ [" "%char]) ++ item_text x, snd b)) as [Hf Hl]; [lia| |].
  { unfold buf_len in *. cbn [fst snd]. rewrite !length_app. cbn [length]. lia. }
  cbn [fst snd] in *. change (blank_text (x :: drop (S i) vs)) with
    (" "%char :: item_text x ++ blank_text (drop (S i) vs)).
  rewrite Hf. rewrite <- !app_assoc in *. cbn [app] in *. done.
Qed.

(** The text fits the block whose size the first loop computes. *)
Lemma com2str_view com vs : com_view com vs → community_com2str com = Ok (com_text vs).
Proof.
  intros Hc. unfold community_com2str. rewrite (cv_size _ _ Hc).
  destruct vs as [|v vs]; [done|]. rewrite (proj2 (Z.eqb_neq _ _)) by (cbn; lia).
  rewrite Nat2Z.id. pose proof (com2str_length_view com (v :: vs) 0 _ 0 Hc eq_refl) as Hl.
  change (Z.of_nat 0) with 0 in Hl. rewrite Hl. cbn [mbind res_bind drop].
  pose proof (view_range _ _ 0 v Hc eq_refl) as Hv. pose proof (rooms_nonneg vs).
  pose proof (item_text_room v Hv). cbn [length com2str_fill].
  pose proof (nthval_view com (v :: vs) 0 v Hc eq_refl) as Hn. change (Z.of_nat 0) with 0 in Hn.
  rewrite Hn. cbn [mbind res_bind].
  rewrite ntohl_be32 by done. cbn [rooms foldr]. fold (rooms vs).
  rewrite fill_item; [|done|unfold buf_len; cbn [fst snd length]; lia]. cbn [mbind res_bind fst snd app].
  destruct (com2str_fill_view com (v :: vs) 1 (length vs) (item_text v, 0 + (item_room v + rooms vs)))
    as [Hf Hb]; change (drop 1 (v :: vs)) with vs in *;
    [done|done|unfold buf_len; cbn [fst snd]; lia|].
  cbn [fst snd] in *. change (0 + 1) with (Z.of_nat 1). rewrite Hf. cbn [mbind res_bind fst].
  rewrite com_text_cons. by rewrite (proj2 (Z.ltb_lt _ _)) by done.
Qed.

(** * Parsing *)

Lemma digit_class c : isdigit c = true → isspace c = false ∧ isalpha c = false ∧ c ≠ ":"%char.
Proof.
  unfold isdigit, isspace, isalpha. intros Hd.
  split_and!; [lia|lia|]. intros ->. done.
Qed.

Lemma gettoken_digits ds p separator digit low high val :
  Forall (λ c, isdigit c = true) ds →
  gettoken_value (ds ++ p) separator digit low high val =
  gettoken_value p separator (digit || negb (bool_decide (ds = [])))
    (foldl (λ a c, u32 (u32 (a * 10) + digit_of c)) low ds) high val.
Proof.
  intros Hds. revert digit low. induction Hds as [|c ds Hc Hds IH]; intros digit low.
  { cbn. by rewrite orb_false_r. }
  destruct (digit_class c Hc) as (_ & _ & Hne). cbn [app gettoken_value foldl].
  rewrite Hc, bool_decide_eq_false_2 by done. cbn [orb]. rewrite IH.
  rewrite orb_true_r. by destruct digit.
Qed.

Lemma gettoken_dec v p separator digit high val :
  is_u16 v →
  gettoken_value (dec v ++ p) separator digit 0 high val =
  gettoken_value p separator true v high val.
Proof.
  intros Hv. destruct (dec_spec v) as (Hn & Hd & Hval); [unfold is_u16 in Hv; lia|].
  rewrite gettoken_digits by done. rewrite bool_decide_eq_false_2 by done.
  rewrite orb_true_r. f_equal. pose proof (dec_value_u32 (dec v) 0) as Hu. rewrite Hval in Hu.
  change (u32 0) with 0 in Hu. rewrite <- Hu. apply u32_id. unfold is_u16, is_u32 in *. lia.
Qed.

(** What may follow a value: the end or a blank. *)
Definition at_blank (p : list ascii) : Prop := p = [] ∨ ∃ q, p = " "%char :: q.

Lemma gettoken_value_stop p separator low high val :
  at_blank p →
  gettoken_value p separator true low high val = (community_token_val, u32 (high + low), p).
Proof. by intros [->|[q ->]]. Qed.

(** The token at a printed value is the value. *)
Lemma gettoken_item v p val :
  is_u32 v → at_blank p →
  ∃ token, community_gettoken (item_text v ++ p) val = Some (token, v, p) ∧
           token ≠ community_token_unknown.
Proof.
  intros Hv Hp. unfold item_text, com_keyword.
  destruct (Z.eqb_spec v COMMUNITY_INTERNET) as [->|H1].
  { by eexists. }
  destruct (Z.eqb_spec v COMMUNITY_NO_EXPORT) as [->|H2].
  { by eexists. }
  destruct (Z.eqb_spec v COMMUNITY_NO_ADVERTISE) as [->|H3].
  { by eexists. }
  destruct (Z.eqb_spec v COMMUNITY_LOCAL_AS) as [->|H4].
  { by eexists. }
  destruct (item_halves v Hv) as (_ & _ & Hhi & Hlo).
  destruct (dec_spec (v / 2^16)) as (Hn & Hd & _); [unfold is_u16 in Hhi; lia|].
  exists community_token_val. split; [|done]. rewrite <- app_assoc.
  pose proof (gettoken_dec (v / 2^16) (":"%char :: dec (v mod 2^16) ++ p) false false 0 val Hhi) as Hg.
  destruct (dec (v / 2^16)) as [|c ds]; [done|]. apply Forall_cons in Hd as [Hc _].
  destruct (digit_class c Hc) as (Hs & Ha & _). cbn [app] in *. cbn [community_gettoken].
  rewrite Hs, Ha, Hc, Hg. cbn [gettoken_value]. rewrite orb_true_r, bool_decide_eq_true_2 by done.
  rewrite gettoken_dec, gettoken_value_stop by done. do 3 f_equal.
  unfold is_u32, is_u16, u32 in *. rewrite Z.shiftl_mul_pow2 by lia.
  rewrite (Z.mod_small (v / 2^16 * 2^16)) by lia. rewrite Z.mod_small by dm_lia. dm_lia.
Qed.

Lemma gettoken_blank v vs val :
  Forall is_u32 (v :: vs) →
  ∃ token, community_gettoken (blank_text (v :: vs)) val = Some (token, v, blank_text vs) ∧
           token ≠ community_token_unknown.
Proof.
  intros [Hv Hvs]%Forall_cons. apply gettoken_item; [done|].
  destruct vs as [|w vs]; [by left|right]. by eexists.
Qed.

Lemma str2com_loop_text fuel vs val com ns :
  com_ok com ns → Forall is_u32 vs → (length vs ≤ fuel)%nat →
  ∃ com', str2com_loop fuel (blank_text vs) val (Some com) = Ok (Some com') ∧ com_ok com' (ns ++ vs).
Proof.
  revert fuel val com ns. induction vs as [|v vs IH]; intros fuel val com ns Hc Hvs Hf.
  { exists com. rewrite app_nil_r. by destruct fuel. }
  destruct fuel as [|fuel]; [cbn in Hf; lia|].
  destruct (gettoken_blank v vs val Hvs) as (token & Hg & Ht).
  apply Forall_cons in Hvs as [Hv Hvs]. cbn [str2com_loop]. rewrite Hg.
  destruct (add_val_ok _ _ v Hc Hv) as (com1 & Ha & Hc1 & _).
  destruct (IH fuel v com1 (ns ++ [v]) Hc1 Hvs) as (com' & Hr & Hc'); [cbn in Hf; lia|].
  exists com'. rewrite <- app_assoc in Hc'. split; [|done].
  destruct token; try done; cbn [from_option id]; by rewrite Ha.
Qed.

(** Printing and parsing again gives the values, sorted and each once. *)
Lemma str2com_text vs :
  vs ≠ [] → Forall is_u32 vs →
  ∃ com, community_str2com (com_text vs) = Ok (Some com) ∧ com_ok com (uniq_sorted vs).
Proof.
  intros Hne Hvs. destruct vs as [|v vs]; [done|]. rewrite com_text_cons.
  pose proof (gettoken_blank v vs 0 Hvs) as (token & Hg & Ht).
  change (community_gettoken (blank_text (v :: vs)) 0)
    with (community_gettoken (item_text v ++ blank_text vs) 0) in Hg.
  apply Forall_cons in Hvs as [Hv Hvs'].
  destruct (add_val_ok _ _ v com_new_ok Hv) as (com1 & Ha & Hc1 & _).
  assert (length vs ≤ length (item_text v ++ blank_text vs))%nat as Hl.
  { rewrite length_app. clear. induction vs as [|w vs IH]; cbn in *; [lia|].
    unfold blank_text in IH. rewrite length_app. lia. }
  destruct (str2com_loop_text _ vs v com1 ([] ++ [v]) Hc1 Hvs' Hl) as (com2 & Hr & Hc2).
  unfold community_str2com. cbn [str2com_loop]. rewrite Hg.
  destruct (uniq_sort_ok com2 (v :: vs)) as (com3 & Hu & Hc3 & _); [by auto with zebra|].
  exists com3. split; [|done]. destruct token; try done; cbn [from_option id]; rewrite Ha;
    cbn [mbind res_bind]; rewrite Hr; exact Hu.
Qed.

(** * Any text *)

Lemma gettoken_value_shrinks p separator digit low high val token v q :
  gettoken_value p separator digit low high val = (token, v, q) →
  (length q ≤ length p)%nat ∧ (token ≠ community_token_unknown → is_u32 v).
Proof.
  revert separator digit low high. induction p as [|c p IH]; intros separator digit low high Hg.
  { cbn in Hg. destruct digit; simplify_eq; split; [done|auto with zebra|done|done]. }
  cbn [gettoken_value] in Hg. cbn [length].
  destruct (isdigit c || _).
  - destruct (bool_decide (c = ":"%char)).
    + destruct separator; [simplify_eq; split; [done|done]|].
      apply IH in Hg as [? ?]. split; [lia|done].
    + apply IH in Hg as [? ?]. split; [lia|done].
  - destruct digit; simplify_eq; split; [done|auto with zebra|done|done].
Qed.

Lemma keyword_shrinks kw p q :
  keyword kw p = Some q → chars kw ≠ [] → p ≠ [] → (length q < length p)%nat.
Proof.
  unfold keyword. intros Hk Hn Hp. case_bool_decide; simplify_eq.
  rewrite length_drop. destruct (chars kw), p; cbn in *; try done. lia.
Qed.

(** A token that is known takes a character at least and has a value of 32 bits. *)
Lemma gettoken_shrinks p val token v q :
  community_gettoken p val = Some (token, v, q) → token ≠ community_token_unknown →
  (length q < length p)%nat ∧ is_u32 v.
Proof.
  induction p as [|c p IH]; intros Hg Ht; [done|]. cbn [community_gettoken] in Hg.
  destruct (isspace c); [destruct (IH Hg Ht); cbn; split; [lia|done]|].
  destruct (isalpha c).
  { do 4 (case_match; [simplify_eq; split; [by eapply keyword_shrinks|done]|]). by simplify_eq. }
  destruct (isdigit c) eqn:Hd; [|by simplify_eq].
  destruct (digit_class c Hd) as (_ & _ & Hne). injection Hg as Hg.
  cbn [gettoken_value] in Hg. rewrite Hd, bool_decide_eq_false_2 in Hg by done. cbn [orb] in Hg.
  apply gettoken_value_shrinks in Hg as [? ?]. split; [cbn; lia|auto].
Qed.

Lemma str2com_loop_total fuel p val com ns :
  com_ok com ns → (length p < fuel)%nat →
  ∃ r, str2com_loop fuel p val (Some com) = Ok r ∧
       match r with Some com' => ∃ ns', com_ok com' ns' | None => True end.
Proof.
  revert p val com ns. induction fuel as [|fuel IH]; intros p val com ns Hc Hf; [lia|].
  cbn [str2com_loop]. destruct (community_gettoken p val) as [[[token v] q]|] eqn:Hg;
    [|exists (Some com); eauto].
  assert (token = community_token_unknown ∨ token ≠ community_token_unknown) as [->|Ht]
    by (destruct token; auto); [by exists None|].
  destruct (gettoken_shrinks _ _ _ _ _ Hg Ht) as [Hq Hv].
  destruct (add_val_ok _ _ v Hc Hv) as (com1 & Ha & Hc1 & _).
  destruct (IH q v com1 _ Hc1) as (r & Hr & Hc'); [lia|]. exists r. split; [|done].
  destruct token; try done; cbn [from_option id]; by rewrite Ha.
Qed.

(** Any text is refused or gives a sorted attribute. *)
Lemma str2com_total p :
  ∃ r, community_str2com p = Ok r ∧
       match r with Some com => ∃ vs, com_ok com (uniq_sorted vs) | None => True end.
Proof.
  unfold community_str2com. cbn [str2com_loop].
  destruct (community_gettoken p 0) as [[[token v] q]|] eqn:Hg; [|by exists None].
  assert (token = community_token_unknown ∨ token ≠ community_token_unknown) as [->|Ht]
    by (destruct token; auto); [by exists None|].
  destruct (gettoken_shrinks _ _ _ _ _ Hg Ht) as [Hq Hv].
  destruct (add_val_ok _ _ v com_new_ok Hv) as (com1 & Ha & Hc1 & _).
  destruct (str2com_loop_total (length p) q v com1 _ Hc1 Hq) as (r & Hr & Hc').
  assert (∃ r', match r with None => Ok None | Some com => community_uniq_sort (Some com) end = Ok r' ∧
    match r' with Some com => ∃ vs, com_ok com (uniq_sorted vs) | None => True end) as (r' & He & Hp).
  { destruct r as [com2|]; [|by exists None]. destruct Hc' as [ns Hns].
    destruct (uniq_sort_ok com2 ns) as (com3 & Hu & Hc3 & _); [by auto with zebra|].
    exists (Some com3). eauto. }
  exists r'. split; [|done].
  destruct token; try done; cbn [from_option id]; rewrite Ha; cbn [mbind res_bind]; rewrite Hr;
    exact He.
Qed.

(** * Claims *)

(** for an interned attribute (sorted, each value once, one at least) the text
    community_com2str prints stays inside the block it allocates, final null
    included, and community_str2com reads exactly the attribute's values back from
    it, well-known names included. *)
Theorem community_text_roundtrip com vs :
  com_ok com (uniq_sorted vs) → vs ≠ [] →
  ∃ str com', community_com2str com = Ok str ∧ community_str2com str = Ok (Some com') ∧
              com_ok com' (uniq_sorted vs).
Proof.
  intros Hc Hne. exists (com_text (uniq_sorted vs)).
  assert (uniq_sorted vs ≠ []) as Hne'.
  { destruct vs as [|v vs]; [done|]. intros He. apply (not_elem_of_nil v). rewrite <- He.
    apply uniq_sorted_elem. set_solver. }
  destruct (str2com_text _ Hne' (co_range _ _ Hc)) as (com' & Hr & Hok).
  rewrite uniq_sorted_idemp in Hok. exists com'. split_and!; [|done|done].
  apply com2str_view. auto with zebra.
Qed.

Lemma community_text_roundtrip_witness :
  ∃ com', community_str2com (chars "internet 1:1 no-export") = Ok (Some com') ∧
          octets com' = [0; 0; 0; 0; 0; 1; 0; 1; 255; 255; 255; 1].
Proof.
  destruct (community_text_roundtrip
    (Community 0 3 (Some [0; 0; 0; 0; 0; 1; 0; 1; 255; 255; 255; 1]) None)
    [COMMUNITY_NO_EXPORT; 65537; 0]) as (str & com' & Hp & Hr & Hok).
  - split; [done|done|]. repeat constructor; by vm_compute.
  - done.
  - exists com'. vm_compute in Hp. injection Hp as <-. split; [exact Hr|].
    rewrite (co_val _ _ Hok). by vm_compute.
Defined.

(** community_str2com returns on every text, without a fault: it refuses the text
    or gives an attribute whose values are sorted and distinct. *)
Theorem community_str2com_total p :
  ∃ r, community_str2com p = Ok r ∧
       match r with Some com => ∃ vs, com_ok com (uniq_sorted vs) | None => True end.
Proof. apply str2com_total. Qed.
