(* ===== verification/CommunityIntern.v ===== *)
(** Interned communities: the hash table finds one attribute for each value, and the
    count of each attribute is the number of its users, so that it is freed with its
    last user and never before. *)

From Stdlib Require Import Ascii.
From stdpp Require Import strings pretty sorting gmultiset.
From S2P Require Import Prelude Prefix Text Stream Hash Community CommunityFacts CommunityText.

Implicit Types (com : community) (vs : list Z) (s : com_state) (p q : nat) (held : gmultiset nat).

(** * The invariant *)

(** [held] are the pointers that interning has handed out, as often as it did, and
    [m] is what the hash table holds. *)
Record intern_ok s held (m : gmap (list Z) nat) : Prop := InternOk {
  io_rep : hash_rep com_hval com_hk (cs_mem s) (comhash s) m;
  io_mem p com : cs_mem s !! p = Some com →
    ∃ vs, com_ok com vs ∧ m !! val_bytes vs = Some p ∧ c_str com = Some (com_text vs) ∧
          c_refcnt com = Z.of_nat (multiplicity p held) ∧ p ∈ held;
  io_held p : p ∈ held → is_Some (cs_mem s !! p);
  io_fresh p : is_Some (cs_mem s !! p) → (p < cs_fresh s)%nat;
}.

Lemma intern_ok_init : intern_ok community_init ∅ ∅.
Proof.
  split.
  - by apply hash_create_rep.
  - intros p com. cbn. by rewrite lookup_empty.
  - intros p Hp. set_solver.
  - intros p. cbn. rewrite lookup_empty. by intros [??].
Qed.

(** An update that leaves the values of an attribute alone. *)
Lemma com_hval_update mem q y y' r :
  mem !! q = Some y → c_size y' = c_size y → c_val y' = c_val y →
  com_hval (<[q := y']> mem) r = com_hval mem r.
Proof.
  intros Hq Hs Hv. unfold com_hval. destruct (decide (q = r)) as [<-|Hne].
  - rewrite lookup_insert_eq, Hq. cbn. unfold octets. by rewrite Hs, Hv.
  - by rewrite lookup_insert_ne.
Qed.

Lemma com_ok_update y y' vs : c_size y' = c_size y → c_val y' = c_val y → com_ok y vs → com_ok y' vs.
Proof. intros Hs Hv []. split; [by rewrite Hs|by unfold octets in *; rewrite Hv|done]. Qed.

Lemma com_hval_ne mem r x p : r ≠ p → com_hval (<[r := x]> mem) p = com_hval mem p.
Proof. intros Hne. unfold com_hval. by rewrite lookup_insert_ne. Qed.

Lemma com_hval_delete_ne mem r p : r ≠ p → com_hval (delete r mem) p = com_hval mem p.
Proof. intros Hne. unfold com_hval. by rewrite lookup_delete_ne. Qed.

Lemma com_hval_Some mem p v : com_hval mem p = Some v → is_Some (mem !! p).
Proof. unfold com_hval. destruct (mem !! p); [by eexists|done]. Qed.

(** The attribute an entry of the table stands for. *)
Lemma entry_mem s held m k p :
  intern_ok s held m → m !! k = Some p →
  ∃ com vs, cs_mem s !! p = Some com ∧ com_ok com vs ∧ val_bytes vs = k ∧
    c_str com = Some (com_text vs) ∧ c_refcnt com = Z.of_nat (multiplicity p held) ∧ p ∈ held.
Proof.
  intros Hi Hm. pose proof (hr_val _ _ _ _ _ (io_rep _ _ _ Hi) _ _ Hm) as Hv.
  destruct (com_hval_Some _ _ _ Hv) as [com Hc].
  destruct (io_mem _ _ _ Hi _ _ Hc) as (vs & Hok & _ & Hst & Hrc & Hin).
  exists com, vs. split_and!; try done. rewrite (com_hval_ok _ _ _ _ Hc Hok) in Hv. congruence.
Qed.

(** The attribute of the table with the values [vs]. *)
Lemma entry_values s held m vs p :
  intern_ok s held m → Forall is_u32 vs → m !! val_bytes vs = Some p →
  p ∈ held ∧ ∃ com, cs_mem s !! p = Some com ∧ com_ok com vs.
Proof.
  intros Hi Hu Hm. destruct (entry_mem _ _ _ _ _ Hi Hm) as (com & ws & Hc & Hok & Hws & _ & _ & Hin).
  split; [done|]. exists com. split; [done|]. replace vs with ws; [done|].
  apply val_bytes_inj; [apply Hok|done| |done]. apply (f_equal length) in Hws.
  rewrite !length_val_bytes in Hws. lia.
Qed.

(** ** The hash table *)

(** The pointers in the chains of the hash table. *)
Definition entries s : list nat := b_data <$> concat (h_index (comhash s)).

(** The table holds each pointer that interning has handed out once, and no other. *)
Lemma entries_held s held m :
  intern_ok s held m →
  NoDup (entries s) ∧ (∀ p, p ∈ entries s ↔ p ∈ held) ∧ community_count s = u64 (Z.of_nat (length (entries s))).
Proof.
  intros Hi. pose proof (io_rep _ _ _ Hi) as Hrep.
  assert (Hp : entries s ≡ₚ snd <$> map_to_list m).
  { unfold entries. rewrite (hr_perm _ _ _ _ _ Hrep), <- list_fmap_compose. done. }
  split_and!.
  - rewrite Hp. apply NoDup_fmap_2_strong; [|apply NoDup_map_to_list]. intros [k1 p1] [k2 p2] H1 H2 He.
    apply elem_of_map_to_list in H1, H2. cbn in He. subst p2. f_equal.
    pose proof (hr_val _ _ _ _ _ Hrep _ _ H1). pose proof (hr_val _ _ _ _ _ Hrep _ _ H2). congruence.
  - intros p. rewrite Hp, list_elem_of_fmap. split.
    + intros ([k q] & -> & Hk%elem_of_map_to_list). by destruct (entry_mem _ _ _ _ _ Hi Hk) as (? & ? & ? & ? & ? & ? & ? & ?).
    + intros [com Hc]%(io_held _ _ _ Hi). destruct (io_mem _ _ _ Hi _ _ Hc) as (vs & _ & Hm & _).
      exists (val_bytes vs, p). split; [done|]. by apply elem_of_map_to_list.
  - unfold community_count. rewrite (hr_count _ _ _ _ _ Hrep), Hp, length_fmap. by rewrite length_map_to_list.
Qed.

(** * Interning a new attribute *)

(** The last steps of community_intern on the pointer found. *)
Definition intern_finish (find : nat) : M nat :=
  y ← com_get find;
  let y := set_c_refcnt (u64 (c_refcnt y + 1)) y in
  y ← (match c_str y with
       | Some _ => mret y
       | None => str ← st_lift (community_com2str y); mret (set_c_str (Some str) y)
       end);
  _ ← com_put find y;
  mret find.

Lemma intern_finish_run s find y vs :
  cs_mem s !! find = Some y → com_ok y vs → c_str y = None ∨ c_str y = Some (com_text vs) →
  0 ≤ c_refcnt y < 2^64 - 1 →
  intern_finish find s =
    Ok (find, set_cs_mem (<[find := Community (c_refcnt y + 1) (c_size y) (c_val y) (Some (com_text vs))]>
                            (cs_mem s)) s).
Proof.
  intros Hy Hok Hst Hrc. unfold intern_finish, com_get.
  erewrite st_bind_Ok by (rewrite Hy; done). cbn [set_c_refcnt c_str].
  rewrite u64_id by (unfold is_u64; lia).
  destruct (c_str y) as [str|] eqn:Hs.
  - destruct Hst as [|[= ->]]; [done|]. erewrite st_bind_Ok by done.
    unfold set_c_refcnt. rewrite Hs. by erewrite st_bind_Ok by done.
  - erewrite st_bind_Ok.
    2:{ erewrite st_bind_Ok; [done|]. unfold st_lift. rewrite (com2str_view _ vs); [done|].
        apply com_ok_view. by apply (com_ok_update y). }
    by erewrite st_bind_Ok by done.
Qed.

(** Counting one user more of the attribute at [find]. *)
Lemma intern_ok_count s held m find y vs :
  (* the state before [find] is counted; only [find] may lack its text and user *)
  hash_rep com_hval com_hk (cs_mem s) (comhash s) m →
  cs_mem s !! find = Some y → com_ok y vs → m !! val_bytes vs = Some find →
  c_refcnt y = Z.of_nat (multiplicity find held) →
  (∀ p com, p ≠ find → cs_mem s !! p = Some com →
    ∃ vs, com_ok com vs ∧ m !! val_bytes vs = Some p ∧ c_str com = Some (com_text vs) ∧
          c_refcnt com = Z.of_nat (multiplicity p held) ∧ p ∈ held) →
  (∀ p, p ∈ held → is_Some (cs_mem s !! p)) → (∀ p, is_Some (cs_mem s !! p) → (p < cs_fresh s)%nat) →
  intern_ok (set_cs_mem (<[find := Community (c_refcnt y + 1) (c_size y) (c_val y) (Some (com_text vs))]>
    (cs_mem s)) s) (held ⊎ {[+ find +]}) m.
Proof.
  intros Hrep Hy Hok Hm Hrc Hmem Hheld Hfr. split; cbn.
  - apply (hash_rep_memory _ _ (cs_mem s)); [done|]. intros v d Hv.
    rewrite (com_hval_update _ _ y) by done. by apply (hr_val _ _ _ _ _ Hrep).
  - intros p com [(<- & <-)|[Hne Hp]]%lookup_insert_Some.
    + exists vs. split_and!; [by apply (com_ok_update y)|done|done| |set_solver].
      cbn. rewrite Hrc, multiplicity_disj_union, multiplicity_singleton. rewrite decide_True by done. lia.
    + destruct (Hmem p com) as (vs' & ? & ? & ? & Hr & ?); [done..|]. exists vs'. split_and!; [done..| |set_solver].
      rewrite Hr, multiplicity_disj_union, multiplicity_singleton_ne by done. lia.
  - intros p Hp. rewrite lookup_insert_is_Some'. destruct (decide (find = p)); [by left|right].
    apply Hheld. set_solver.
  - intros p [->|Hp]%lookup_insert_is_Some'; apply Hfr; [by eexists|done].
Qed.

(** Room for one user more. *)
Definition room_for_one held : Prop := Z.of_nat (size held) < 2^64 - 1.

Lemma multiplicity_size p held : (multiplicity p held ≤ size held)%nat.
Proof.
  induction held as [|x held IH] using gmultiset_ind; [by rewrite multiplicity_empty|].
  rewrite multiplicity_disj_union, gmultiset_size_disj_union, gmultiset_size_singleton.
  rewrite multiplicity_singleton. case_decide; lia.
Qed.

(** A state in which the pointer [p] holds a new attribute that is not interned yet. *)
Record pending s held m p x vs : Prop := Pending {
  pd_base : intern_ok (set_cs_mem (delete p (cs_mem s)) s) held m;
  pd_mem : cs_mem s !! p = Some x;
  pd_ok : com_ok x vs;
  pd_refcnt : c_refcnt x = 0;
  pd_str : c_str x = None;
  pd_fresh : (p < cs_fresh s)%nat;
}.

Lemma pending_alloc s held m x vs :
  intern_ok s held m → com_ok x vs → c_refcnt x = 0 → c_str x = None →
  ∃ p s1, com_alloc x s = Ok (p, s1) ∧ pending s1 held m p x vs.
Proof.
  intros Hi Hx Hrc Hst. eexists _, _. split; [done|].
  assert (cs_mem s !! cs_fresh s = None) as Hp.
  { apply eq_None_not_Some. intros Hp%(io_fresh _ _ _ Hi). lia. }
  split; cbn; [|by rewrite lookup_insert_eq|done..|lia].
  unfold set_cs_mem. cbn. rewrite delete_insert_id by done.
  split; cbn; try apply Hi. intros q Hq%(io_fresh _ _ _ Hi). lia.
Qed.

(** What the hash table sees while the attribute is pending. *)
Lemma pending_rep s held m p x vs :
  pending s held m p x vs →
  hash_rep com_hval com_hk (cs_mem s) (comhash s) m ∧ com_hval (cs_mem s) p = Some (val_bytes vs).
Proof.
  intros Hp. split; [|by eapply com_hval_ok; apply Hp].
  pose proof (io_rep _ _ _ (pd_base _ _ _ _ _ _ Hp)) as Hr. cbn in Hr.
  apply (hash_rep_memory _ _ (delete p (cs_mem s))); [done|]. intros v d Hv.
  pose proof (hr_val _ _ _ _ _ Hr _ _ Hv) as Hd. rewrite com_hval_delete_ne in Hd; [done|].
  intros <-. apply com_hval_Some in Hd. by rewrite lookup_delete_eq in Hd; destruct Hd.
Qed.

(** community_intern, after the attribute is looked up. *)
Definition intern_found (com find : nat) : M nat :=
  _ ← (if bool_decide (find = com) then mret tt else community_free com);
  intern_finish find.

Lemma intern_lookup s held m p x vs find h' :
  pending s held m p x vs →
  hash_get com_key com_cmp (comhash s) p (Some hash_alloc_intern) (cs_mem s) =
    Ok (Some find, h', cs_mem s) →
  community_intern p s = intern_found p find (set_comhash h' s).
Proof.
  intros Hp Hg. unfold community_intern. erewrite st_bind_Ok.
  2:{ unfold com_get. by rewrite (pd_mem _ _ _ _ _ _ Hp). }
  rewrite (pd_refcnt _ _ _ _ _ _ Hp). erewrite st_bind_Ok by done.
  erewrite st_bind_Ok by done. erewrite st_bind_Ok by (by rewrite Hg). cbv beta iota.
  erewrite st_bind_Ok by done. by erewrite st_bind_Ok by done.
Qed.

(** The value is interned already: the new attribute is freed. *)
Lemma intern_old s held m p x vs q :
  pending s held m p x vs → room_for_one held → m !! val_bytes vs = Some q →
  ∃ s', community_intern p s = Ok (q, s') ∧ intern_ok s' (held ⊎ {[+ q +]}) m.
Proof.
  intros Hp Hroom Hm. pose proof (pd_base _ _ _ _ _ _ Hp) as Hi.
  destruct (pending_rep _ _ _ _ _ _ Hp) as [Hrep Hval].
  destruct (entry_mem _ _ _ _ _ Hi Hm) as (y & ws & Hy & Hyok & Hws & Hyst & Hyrc & Hyin). cbn in Hy.
  assert (vs = ws) as <-.
  { apply val_bytes_inj; [apply Hp|apply Hyok| |done]. apply (f_equal length) in Hws.
    rewrite !length_val_bytes in Hws. lia. }
  apply lookup_delete_Some in Hy as [Hqp Hy].
  rewrite (intern_lookup _ _ _ _ _ _ q (comhash s) Hp) by exact (hash_get_found _ _ _ _ _ _ _ _ _ _ _ Hrep Hval Hm).
  unfold intern_found. rewrite bool_decide_eq_false_2 by done. erewrite st_bind_Ok.
  2:{ unfold community_free. cbn. by rewrite (pd_mem _ _ _ _ _ _ Hp). }
  eexists. split; [apply (intern_finish_run _ q y vs)|].
  - cbn. by rewrite lookup_delete_ne.
  - done.
  - by right.
  - pose proof (multiplicity_size q held). unfold room_for_one in Hroom. lia.
  - apply intern_ok_count; try done; cbn; try apply Hi.
    + by rewrite lookup_delete_ne.
    + intros. by apply Hi.
Qed.

(** The value is new: the attribute enters the table. *)
Lemma intern_insert s held m p x vs :
  pending s held m p x vs → m !! val_bytes vs = None →
  ∃ s', community_intern p s = Ok (p, s') ∧
        intern_ok s' (held ⊎ {[+ p +]}) (<[val_bytes vs := p]> m).
Proof.
  intros Hp Hm. pose proof (pd_base _ _ _ _ _ _ Hp) as Hi.
  destruct (pending_rep _ _ _ _ _ _ Hp) as [Hrep Hval].
  destruct (hash_get_alloc _ _ _ _ (cs_mem s) (cs_mem s) (comhash s) m _ p p hash_alloc_intern Hrep Hval Hm)
    as (h' & Hg & Hh'); [done|apply Hrep|done|].
  rewrite (intern_lookup _ _ _ _ _ _ _ _ Hp Hg). unfold intern_found.
  rewrite bool_decide_eq_true_2 by done. erewrite st_bind_Ok by done.
  assert (multiplicity p held = 0%nat) as Hmul.
  { apply not_elem_of_multiplicity. intros [? Hin]%(io_held _ _ _ Hi). cbn in Hin.
    by rewrite lookup_delete_eq in Hin. }
  eexists. split; [apply (intern_finish_run _ p x vs)|].
  - apply Hp.
  - apply Hp.
  - left. apply Hp.
  - rewrite (pd_refcnt _ _ _ _ _ _ Hp). lia.
  - apply intern_ok_count; cbn; try apply Hp; try done.
    + apply lookup_insert_eq.
    + by rewrite (pd_refcnt _ _ _ _ _ _ Hp), Hmul.
    + intros r com Hne Hr.
      destruct (io_mem _ _ _ Hi r com) as (ws & ? & Hmw & ?); [cbn; by rewrite lookup_delete_ne|].
      exists ws. split_and!; try naive_solver.
      rewrite lookup_insert_ne; [done|]. intros He. congruence.
    + intros r Hr%(io_held _ _ _ Hi). cbn in Hr. by apply lookup_delete_is_Some in Hr as [_ ?].
    + intros r Hr. destruct (decide (p = r)) as [<-|Hne]; [exact (pd_fresh _ _ _ _ _ _ Hp)|].
      apply (io_fresh _ _ _ Hi). cbn. by rewrite lookup_delete_ne.
Qed.

(** community_intern returns the one attribute with the values of the new one. *)
Lemma intern_pending s held m p x vs :
  pending s held m p x vs → room_for_one held →
  ∃ q s' m', community_intern p s = Ok (q, s') ∧ intern_ok s' (held ⊎ {[+ q +]}) m' ∧
    m' !! val_bytes vs = Some q ∧ m ⊆ m'.
Proof.
  intros Hp Hroom. destruct (m !! val_bytes vs) as [q|] eqn:Hm.
  - destruct (intern_old _ _ _ _ _ _ _ Hp Hroom Hm) as (s' & Hr & Hi'). by exists q, s', m.
  - destruct (intern_insert _ _ _ _ _ _ Hp Hm) as (s' & Hr & Hi'). exists p, s', (<[val_bytes vs := p]> m).
    split_and!; [done|done|apply lookup_insert_eq|by apply insert_subseteq].
Qed.

(** * Giving an attribute back *)

(** The steps of community_unintern behind the decrement. *)
Definition unintern_drop (com : nat) : M unit :=
  s ← st_get;
  '(ret, h, _) ← st_lift (hash_release com_key com_cmp (comhash s) com (cs_mem s));
  _ ← st_put (set_comhash h s);
  _ ← st_lift (c_assert (bool_decide (is_Some ret)));
  community_free com.

Lemma unintern_count s held m p :
  intern_ok s held m → p ∈ held →
  ∃ com vs, cs_mem s !! p = Some com ∧ com_ok com vs ∧ m !! val_bytes vs = Some p ∧
    c_str com = Some (com_text vs) ∧ c_refcnt com = Z.of_nat (multiplicity p held) ∧
    (0 < multiplicity p held)%nat.
Proof.
  intros Hi Hp. destruct (io_held _ _ _ Hi _ Hp) as [com Hc].
  destruct (io_mem _ _ _ Hi _ _ Hc) as (vs & ? & ? & ? & ? & _). exists com, vs. split_and!; try done.
Qed.

Lemma multiplicity_take p q held :
  multiplicity q (held ∖ {[+ p +]}) = (multiplicity q held - if decide (q = p) then 1 else 0)%nat.
Proof. by rewrite multiplicity_difference, multiplicity_singleton. Qed.

Lemma held_take_ne p q held : p ≠ q → q ∈ held → q ∈ held ∖ {[+ p +]}.
Proof.
  intros Hne Hq. apply elem_of_multiplicity. rewrite multiplicity_take, decide_False by done.
  rewrite elem_of_multiplicity in Hq. lia.
Qed.

(** Another user remains. *)
Lemma unintern_keep s held m p :
  intern_ok s held m → (1 < multiplicity p held)%nat →
  ∃ s', community_unintern p s = Ok (tt, s') ∧ intern_ok s' (held ∖ {[+ p +]}) m.
Proof.
  intros Hi Hmul. assert (p ∈ held) as Hp by (apply elem_of_multiplicity; lia).
  destruct (unintern_count _ _ _ _ Hi Hp) as (com & vs & Hc & Hok & Hm & Hst & Hrc & _).
  unfold community_unintern. erewrite st_bind_Ok by (unfold com_get; by rewrite Hc).
  rewrite (proj2 (Z.eqb_neq (c_refcnt com) 0)) by lia. erewrite st_bind_Ok by done.
  cbn [c_refcnt set_c_refcnt]. rewrite (proj2 (Z.eqb_neq (c_refcnt com - 1) 0)) by lia.
  eexists. split; [done|]. split; cbn.
  - apply (hash_rep_memory _ _ (cs_mem s)); [apply Hi|]. intros v d Hv.
    rewrite (com_hval_update _ _ com) by done. by apply (hr_val _ _ _ _ _ (io_rep _ _ _ Hi)).
  - intros q com' [(<- & <-)|[Hne Hq]]%lookup_insert_Some.
    + exists vs. split_and!; [by apply (com_ok_update com)|done|done| |].
      * cbn. rewrite multiplicity_take, decide_True by done. lia.
      * apply elem_of_multiplicity. rewrite multiplicity_take, decide_True by done. lia.
    + destruct (io_mem _ _ _ Hi _ _ Hq) as (vs' & ? & ? & ? & Hr & Hq'). exists vs'. split_and!; try done.
      * rewrite multiplicity_take, decide_False by done. lia.
      * by apply held_take_ne.
  - intros q Hq. apply lookup_insert_is_Some'. right. apply (io_held _ _ _ Hi).
    rewrite elem_of_multiplicity, multiplicity_take in Hq. apply elem_of_multiplicity. lia.
  - intros q [<-|Hq]%lookup_insert_is_Some'; apply (io_fresh _ _ _ Hi); [by eexists|done].
Qed.

(** The last user is gone: the attribute leaves the table and is freed. *)
Lemma unintern_last s held m p com vs :
  intern_ok s held m → multiplicity p held = 1%nat →
  cs_mem s !! p = Some com → com_ok com vs →
  ∃ s', community_unintern p s = Ok (tt, s') ∧ cs_mem s' = delete p (cs_mem s) ∧
        intern_ok s' (held ∖ {[+ p +]}) (delete (val_bytes vs) m).
Proof.
  intros Hi Hmul Hc Hok. destruct (io_mem _ _ _ Hi _ _ Hc) as (ws & Hok' & Hm & Hst & Hrc & Hp).
  assert (val_bytes ws = val_bytes vs) as Hws by (by rewrite <- (co_val _ _ Hok), <- (co_val _ _ Hok')).
  rewrite Hws in Hm.
  unfold community_unintern. erewrite st_bind_Ok by (unfold com_get; by rewrite Hc).
  rewrite (proj2 (Z.eqb_neq (c_refcnt com) 0)) by lia. erewrite st_bind_Ok by done.
  cbn [c_refcnt set_c_refcnt]. rewrite (proj2 (Z.eqb_eq (c_refcnt com - 1) 0)) by lia.
  set (mem1 := <[p := set_c_refcnt (c_refcnt com - 1) com]> (cs_mem s)).
  assert (hash_rep com_hval com_hk mem1 (comhash s) m) as Hrep.
  { apply (hash_rep_memory _ _ (cs_mem s)); [apply Hi|]. intros v d Hv. unfold mem1.
    rewrite (com_hval_update _ _ com) by done. by apply (hr_val _ _ _ _ _ (io_rep _ _ _ Hi)). }
  assert (com_hval mem1 p = Some (val_bytes vs)) as Hval.
  { eapply com_hval_ok; [apply lookup_insert_eq|]. by apply (com_ok_update com). }
  destruct (hash_release_spec com_key com_cmp com_hval com_hk mem1 _ m _ p Hrep Hval) as (h' & Hrel & Hrep').
  erewrite st_bind_Ok by done. cbn [comhash cs_mem set_cs_mem]. fold mem1.
  erewrite st_bind_Ok by (by rewrite Hrel). cbv beta iota. erewrite st_bind_Ok by done.
  rewrite Hm. erewrite st_bind_Ok by done.
  assert (mem1 !! p = Some (set_c_refcnt (c_refcnt com - 1) com)) as Hp1 by apply lookup_insert_eq.
  unfold community_free. cbn [cs_mem set_comhash set_cs_mem]. rewrite Hp1. cbn [of_option mbind res_bind].
  assert (delete p mem1 = delete p (cs_mem s)) as Hdel by apply delete_insert_eq.
  eexists. split; [done|]. split; [done|]. split; cbn; rewrite Hdel.
  - apply (hash_rep_memory _ _ mem1); [done|]. intros v d Hv. rewrite <- Hdel.
    pose proof (hr_val _ _ _ _ _ Hrep' _ _ Hv) as Hd. rewrite com_hval_delete_ne; [done|].
    intros <-. apply lookup_delete_Some in Hv as [? _]. congruence.
  - intros q com' [Hne Hq]%lookup_delete_Some.
    destruct (io_mem _ _ _ Hi _ _ Hq) as (vs' & ? & Hm' & ? & Hr & Hq'). exists vs'. split_and!; try done.
    + rewrite lookup_delete_ne; [done|]. intros He. rewrite <- He in Hm'. congruence.
    + rewrite multiplicity_take, decide_False by done. lia.
    + by apply held_take_ne.
  - intros q Hq. rewrite elem_of_multiplicity, multiplicity_take in Hq.
    rewrite lookup_delete_is_Some. destruct (decide (q = p)) as [->|Hne]; [lia|]. split; [done|].
    apply (io_held _ _ _ Hi), elem_of_multiplicity. lia.
  - intros q [_ Hq]%lookup_delete_is_Some. by apply (io_fresh _ _ _ Hi).
Qed.

Lemma unintern_held s held m p :
  intern_ok s held m → p ∈ held →
  ∃ s' m', community_unintern p s = Ok (tt, s') ∧ intern_ok s' (held ∖ {[+ p +]}) m' ∧
    (is_Some (cs_mem s' !! p) ↔ p ∈ held ∖ {[+ p +]}).
Proof.
  intros Hi Hp. destruct (unintern_count _ _ _ _ Hi Hp) as (com & vs & Hc & Hok & Hm & _ & _ & Hmul).
  assert (∃ s' m', community_unintern p s = Ok (tt, s') ∧ intern_ok s' (held ∖ {[+ p +]}) m') as (s' & m' & Hr & Hi').
  { destruct (decide (multiplicity p held = 1%nat)) as [H1|H1].
    - destruct (unintern_last _ _ _ _ _ _ Hi H1 Hc Hok) as (s' & Hr & _ & Hi'). eauto.
    - destruct (unintern_keep _ _ _ p Hi) as (s' & Hr & Hi'); [lia|]. eauto. }
  exists s', m'. split_and!; [done|done|]. split; [|apply Hi'].
  intros [x Hx]. by destruct (io_mem _ _ _ Hi' _ _ Hx) as (? & ? & ? & ? & ? & ?).
Qed.

(** Interning a fresh attribute made elsewhere. *)
Lemma intern_fresh s held m x vs :
  intern_ok s held m → room_for_one held → com_ok x vs → c_refcnt x = 0 → c_str x = None →
  ∃ q s' m', (com_alloc x ≫= community_intern) s = Ok (q, s') ∧ intern_ok s' (held ⊎ {[+ q +]}) m' ∧
    m' !! val_bytes vs = Some q.
Proof.
  intros Hi Hroom Hok Hrc Hst. destruct (pending_alloc s held m x _ Hi Hok Hrc Hst) as (p & s1 & Ha & Hp).
  destruct (intern_pending _ _ _ _ _ _ Hp Hroom) as (q & s2 & m' & Hq & Hi' & Hm' & _).
  exists q, s2, m'. split_and!; [|done|done]. by erewrite st_bind_Ok by done.
Qed.

(** * Attributes from the network *)

(** The values in the first [4 * n] octets of a packet. *)
Definition packet_vals (n : nat) (pnt : list Z) : list Z := ntohl4 <$> quads n pnt.

Lemma be32_ntohl a b c d :
  is_u8 a → is_u8 b → is_u8 c → is_u8 d →
  is_u32 (ntohl4 [a; b; c; d]) ∧ be32 (ntohl4 [a; b; c; d]) = [a; b; c; d].
Proof.
  unfold is_u8, is_u32, ntohl4, be32, u8. intros. rewrite !Z.shiftr_div_pow2 by lia.
  split; [lia|]. f_equal; [|f_equal; [|f_equal; [|f_equal]]]; dm_lia.
Qed.

Lemma packet_vals_bytes n pnt :
  bytes_ok pnt → (4 * n ≤ length pnt)%nat →
  val_bytes (packet_vals n pnt) `prefix_of` pnt ∧ Forall is_u32 (packet_vals n pnt) ∧
  length (packet_vals n pnt) = n.
Proof.
  revert pnt. induction n as [|n IH]; intros pnt Hb Hl; [split_and!; [by exists pnt|constructor|done]|].
  destruct pnt as [|a [|b [|c [|d pnt]]]]; try (cbn in Hl; lia).
  apply Forall_cons in Hb as [Ha Hb]. apply Forall_cons in Hb as [Hb' Hb].
  apply Forall_cons in Hb as [Hc Hb]. apply Forall_cons in Hb as [Hd Hb].
  destruct (be32_ntohl a b c d Ha Hb' Hc Hd) as [Hu He].
  destruct (IH pnt Hb) as ([rest Hr] & Hall & Hlen); [cbn in Hl; lia|].
  change (packet_vals (S n) (a :: b :: c :: d :: pnt)) with (ntohl4 [a; b; c; d] :: packet_vals n pnt).
  split_and!; [|by constructor|by f_equal/=].
  exists rest. rewrite val_bytes_cons, He. cbn. by rewrite <- Hr.
Qed.

(** community_parse on an attribute inside the packet. *)
Lemma parse_ok s held m pnt length :
  intern_ok s held m → room_for_one held → bytes_ok pnt → 0 ≤ length ≤ Z.of_nat (List.length pnt) →
  (length mod 4 ≠ 0 ∧ community_parse pnt length s = Ok (None, s)) ∨
  (length mod 4 = 0 ∧ ∃ p s' m', community_parse pnt length s = Ok (Some p, s') ∧
     intern_ok s' (held ⊎ {[+ p +]}) m' ∧
     m' !! val_bytes (uniq_sorted (packet_vals (Z.to_nat (length / 4)) pnt)) = Some p).
Proof.
  intros Hi Hroom Hb Hl. unfold community_parse.
  destruct (Z.eqb_spec (length mod 4) 0) as [H4|H4]; cbn [negb]; [right|left; done].
  split; [done|]. destruct (packet_vals_bytes (Z.to_nat (length / 4)) pnt Hb) as (Hpre & Hu & Hlen); [dm_lia|].
  set (vs := packet_vals (Z.to_nat (length / 4)) pnt) in *.
  destruct (uniq_sort_ok (Community 0 (length / 4) (Some pnt) None) vs) as (x & Hx & Hok & Hrc & Hst).
  { split; [cbn; dm_lia|done|done]. }
  destruct (pending_alloc s held m x _ Hi Hok Hrc Hst) as (p & s1 & Ha & Hp).
  destruct (intern_pending _ _ _ _ _ _ Hp Hroom) as (q & s' & m' & Hr & Hi' & Hm' & _).
  exists q, s', m'. split_and!; [|done|done].
  erewrite st_bind_Ok by (by rewrite Hx). erewrite st_bind_Ok by done.
  erewrite st_bind_Ok by done. by erewrite st_bind_Ok by done.
Qed.

Lemma uniq_packet_u32 pnt length :
  length mod 4 = 0 → bytes_ok pnt → 0 ≤ length ≤ Z.of_nat (List.length pnt) →
  Forall is_u32 (uniq_sorted (packet_vals (Z.to_nat (length / 4)) pnt)).
Proof.
  intros H4 Hb Hl. destruct (packet_vals_bytes (Z.to_nat (length / 4)) pnt Hb) as (_ & Hu & _); [dm_lia|].
  rewrite Forall_forall in *. intros v Hv. by apply Hu, uniq_sorted_elem.
Qed.

(** * Runs *)

(** The states bgpd reaches by parsing attributes from packets, interning attributes
    made elsewhere and giving interned ones back, with the pointers it holds. *)
Inductive reach : com_state → gmultiset nat → Prop :=
  | reach_init : reach community_init ∅
  | reach_parse s held pnt length p s' :
      reach s held → room_for_one held → bytes_ok pnt → 0 ≤ length ≤ Z.of_nat (List.length pnt) →
      community_parse pnt length s = Ok (Some p, s') → reach s' (held ⊎ {[+ p +]})
  | reach_refuse s held pnt length s' :
      reach s held → room_for_one held → bytes_ok pnt → 0 ≤ length ≤ Z.of_nat (List.length pnt) →
      community_parse pnt length s = Ok (None, s') → reach s' held
  | reach_intern s held x vs p s' :
      reach s held → room_for_one held → com_ok x vs → c_refcnt x = 0 → c_str x = None →
      (com_alloc x ≫= community_intern) s = Ok (p, s') → reach s' (held ⊎ {[+ p +]})
  | reach_unintern s held p s' :
      reach s held → p ∈ held → community_unintern p s = Ok (tt, s') →
      reach s' (held ∖ {[+ p +]}).

Lemma reach_ok s held : reach s held → ∃ m, intern_ok s held m.
Proof.
  induction 1 as [|s held pnt length p s' _ [m Hi] Hroom Hb Hl Hr|s held pnt length s' _ [m Hi] Hroom Hb Hl Hr
    |s held x vs p s' _ [m Hi] Hroom Hok Hrc Hst Hr|s held p s' _ [m Hi] Hp Hr].
  - exists ∅. apply intern_ok_init.
  - destruct (parse_ok _ _ _ _ _ Hi Hroom Hb Hl) as [[_ He]|(_ & q & s1 & m1 & He & Hi' & _)];
      rewrite He in Hr; simplify_eq. eauto.
  - destruct (parse_ok _ _ _ _ _ Hi Hroom Hb Hl) as [[_ He]|(_ & q & s1 & m1 & He & Hi' & _)];
      rewrite He in Hr; simplify_eq. eauto.
  - destruct (intern_fresh _ _ _ _ _ Hi Hroom Hok Hrc Hst) as (q & s2 & m' & Hq & Hi' & _).
    rewrite Hq in Hr. simplify_eq. eauto.
  - destruct (unintern_held _ _ _ _ Hi Hp) as (s1 & m1 & He & Hi' & _). rewrite He in Hr.
    simplify_eq. eauto.
Qed.

(** C19: in every state reached from community_init by parsing, interning and giving back
    communities attributes, with fewer than 2^64 - 1 pointers held:
    - a pointer that is still held is readable, its reference count is the number of times
      it is held and its text is the text of its values; held pointers with the same values
      are the same pointer;
    - the hash table holds exactly the held pointers, each once;
    - parsing octets that lie in the packet returns: nothing when their number is no
      multiple of four, and otherwise a held pointer, in the table, to their values sorted
      and without duplicates; interning a fresh attribute returns a held pointer, in the
      table, to its values;
    - giving a held pointer back succeeds (no failing assertion, no use after free), and
      frees the attribute and takes it out of the table exactly when that was its last
      holder. *)
Theorem community_intern_safe s held :
  reach s held →
  (∀ p, p ∈ held → ∃ com vs, cs_mem s !! p = Some com ∧ com_ok com vs ∧
     c_refcnt com = Z.of_nat (multiplicity p held) ∧ c_str com = Some (com_text vs)) ∧
  (∀ p q com1 com2, p ∈ held → q ∈ held → cs_mem s !! p = Some com1 → cs_mem s !! q = Some com2 →
     octets com1 = octets com2 → p = q) ∧
  (NoDup (entries s) ∧ (∀ p, p ∈ entries s ↔ p ∈ held) ∧ community_count s = u64 (Z.of_nat (length (entries s)))) ∧
  (∀ pnt length, room_for_one held → bytes_ok pnt → 0 ≤ length ≤ Z.of_nat (List.length pnt) →
     if length mod 4 =? 0 then
       ∃ p s' com, community_parse pnt length s = Ok (Some p, s') ∧ reach s' (held ⊎ {[+ p +]}) ∧ p ∈ entries s' ∧
         cs_mem s' !! p = Some com ∧ com_ok com (uniq_sorted (packet_vals (Z.to_nat (length / 4)) pnt))
     else community_parse pnt length s = Ok (None, s)) ∧
  (∀ x vs, room_for_one held → com_ok x vs → c_refcnt x = 0 → c_str x = None →
     ∃ p s' com, (com_alloc x ≫= community_intern) s = Ok (p, s') ∧ reach s' (held ⊎ {[+ p +]}) ∧ p ∈ entries s' ∧
       cs_mem s' !! p = Some com ∧ com_ok com vs) ∧
  (∀ p, p ∈ held → ∃ s', community_unintern p s = Ok (tt, s') ∧ reach s' (held ∖ {[+ p +]}) ∧
     (is_Some (cs_mem s' !! p) ↔ p ∈ held ∖ {[+ p +]}) ∧ (p ∈ entries s' ↔ p ∈ held ∖ {[+ p +]})).
Proof.
  intros Hreach. destruct (reach_ok _ _ Hreach) as [m Hi]. split_and!.
  - intros p Hp. destruct (unintern_count _ _ _ _ Hi Hp) as (com & vs & ? & ? & _ & ? & ? & _). eauto 10.
  - intros p q com1 com2 _ _ H1 H2 He.
    destruct (io_mem _ _ _ Hi _ _ H1) as (vs1 & Hok1 & Hm1 & _).
    destruct (io_mem _ _ _ Hi _ _ H2) as (vs2 & Hok2 & Hm2 & _).
    rewrite <- (co_val _ _ Hok1), He, (co_val _ _ Hok2) in Hm1. congruence.
  - by eapply entries_held.
  - by eapply entries_held.
  - by eapply entries_held.
  - intros pnt len Hroom Hb Hl. destruct (parse_ok _ _ _ _ _ Hi Hroom Hb Hl) as [[H4 He]|(H4 & p & s' & m' & He & Hi' & Hm')].
    + by rewrite (proj2 (Z.eqb_neq _ _) H4).
    + rewrite (proj2 (Z.eqb_eq _ _) H4). destruct (entry_values _ _ _ _ _ Hi' (uniq_packet_u32 _ _ H4 Hb Hl) Hm') as (Hin & com & Hc & Hok).
      exists p, s', com. split_and!; [done|by eapply reach_parse|by apply (entries_held _ _ _ Hi')|done..].
  - intros x vs Hroom Hok Hrc Hst. destruct (intern_fresh _ _ _ _ _ Hi Hroom Hok Hrc Hst) as (p & s' & m' & He & Hi' & Hm').
    destruct (entry_values _ _ _ _ _ Hi' (co_range _ _ Hok) Hm') as (Hin & com & Hc & Hok').
    exists p, s', com. split_and!; [done|by apply (reach_intern s held x vs)|by apply (entries_held _ _ _ Hi')|done..].
  - intros p Hp. destruct (unintern_held _ _ _ _ Hi Hp) as (s' & m' & He & Hi' & ?).
    exists s'. split_and!; [done|by eapply reach_unintern|done|apply (entries_held _ _ _ Hi')].
Qed.

(** Two parses of the same values in different order. *)
Definition state1 : com_state :=
  match community_parse [0; 1; 0; 2; 0; 1; 0; 1] 8 community_init with
  | Ok (_, s) => s
  | Fail _ => community_init
  end.
Definition state2 : com_state :=
  match community_parse [0; 1; 0; 1; 0; 1; 0; 2; 0; 1; 0; 1] 12 state1 with
  | Ok (_, s) => s
  | Fail _ => community_init
  end.

Lemma community_intern_safe_witness :
  c_refcnt <$> cs_mem state2 !! 0%nat = Some 2 ∧ community_count state2 = 1 ∧
  ∃ s', community_unintern 0 state2 = Ok (tt, s') ∧ is_Some (cs_mem s' !! 0%nat).
Proof.
  split; [by vm_compute|]. split; [by vm_compute|].
  destruct (community_intern_safe state2 (∅ ⊎ {[+ 0%nat +]} ⊎ {[+ 0%nat +]})) as (_ & _ & _ & _ & _ & H).
  - apply (reach_parse state1 _ [0; 1; 0; 1; 0; 1; 0; 2; 0; 1; 0; 1] 12 0).
    + apply (reach_parse community_init _ [0; 1; 0; 2; 0; 1; 0; 1] 8 0).
      * apply reach_init.
      * done.
      * by apply bytes_ok_decide.
      * done.
      * by vm_compute.
    + done.
    + by apply bytes_ok_decide.
    + done.
    + by vm_compute.
  - destruct (H 0%nat) as (s' & Hr & _ & Hs & _); [apply elem_of_multiplicity; vm_compute; lia|].
    exists s'. split; [exact Hr|].
    apply Hs. apply elem_of_multiplicity. by vm_compute.
Defined.
