(* ===== verification/Decision.v ===== *)
(** The BGP decision process: bgp_info_cmp and bgp_process of bgpd/bgp_route.c,
    with peer_sort (bgpd/bgpd.c), ecommunity_cost_cmp (bgpd/bgp_ecommunity.c) and
    sockunion_cmp (lib/sockunion.c).

    The routes of a prefix are the list [rn->info]; a route is named by its
    position.  IPv4 addresses are their value in host order.  What a run of
    bgp_process asks of other components (the RIB of zebra, the advertisements to
    peers) is the list of its actions; bgp_announce_check, the outbound policy,
    is an argument. *)

From stdpp Require Import strings.
From S2P Require Import Prelude Prefix Aspath.

(** ** Flags *)

Definition BGP_CONFIG_CONFEDERATION : Z := 2^2.
Definition BGP_FLAG_ALWAYS_COMPARE_MED : Z := 2^0.
Definition BGP_FLAG_DETERMINISTIC_MED : Z := 2^1.
Definition BGP_FLAG_MED_MISSING_AS_WORST : Z := 2^2.
Definition BGP_FLAG_MED_CONFED : Z := 2^3.
Definition BGP_FLAG_COMPARE_ROUTER_ID : Z := 2^7.
Definition BGP_FLAG_ASPATH_IGNORE : Z := 2^8.
Definition BGP_FLAG_COST_COMMUNITY_IGNORE : Z := 2^13.

Definition BGP_INFO_IGP_CHANGED : Z := 2^0.
Definition BGP_INFO_DAMPED : Z := 2^1.
Definition BGP_INFO_HISTORY : Z := 2^2.
Definition BGP_INFO_SELECTED : Z := 2^3.
Definition BGP_INFO_VALID : Z := 2^4.
Definition BGP_INFO_ATTR_CHANGED : Z := 2^5.
Definition BGP_INFO_DMED_CHECK : Z := 2^6.
Definition BGP_INFO_DMED_SELECTED : Z := 2^7.

Definition ATTR_FLAG_BIT (x : Z) : Z := Z.shiftl 1 (x - 1).
Definition BGP_ATTR_MULTI_EXIT_DISC : Z := 4.
Definition BGP_ATTR_LOCAL_PREF : Z := 5.
Definition BGP_ATTR_ORIGINATOR_ID : Z := 9.
Definition BGP_ATTR_CLUSTER_LIST : Z := 10.

Definition BGP_ROUTE_NORMAL : Z := 0.
Definition BGP_ROUTE_STATIC : Z := 1.
Definition BGP_ROUTE_AGGREGATE : Z := 2.
Definition BGP_ROUTE_REDISTRIBUTE : Z := 3.
Definition ZEBRA_ROUTE_BGP : Z := 8.

(** ** Data *)

Inductive peer_type := BGP_PEER_IBGP | BGP_PEER_EBGP | BGP_PEER_INTERNAL | BGP_PEER_CONFED.

#[export] Instance peer_type_eq_dec : EqDecision peer_type.
Proof. solve_decision. Defined.

Record ecommunity := Ecommunity { ec_size : Z; ec_val : list Z }.

Record attr := Attr {
  at_flag : Z;
  at_origin : Z;
  at_med : Z;
  at_local_pref : Z;
  at_weight : Z;
  at_originator_id : Z;
  at_cluster_length : Z;
  at_aspath : aspath;
  at_ecommunity : option ecommunity;
}.

(** [p_group_first] is the first member of the group of a peer group. *)
Record peer := Peer {
  p_group : bool;
  p_as : Z;
  p_local_as : Z;
  p_group_first : option (Z * Z);
  p_remote_id : Z;
  p_su_remote : sockunion;
}.

Record bgp := Bgp {
  b_as : Z;
  b_config : Z;
  b_confed_id : Z;
  b_confed_peers : list Z;
  b_default_local_pref : Z;
  b_flags : Z;
}.

Record bgp_info := Info {
  i_type : Z;
  i_sub_type : Z;
  i_flags : Z;
  i_peer : peer;
  i_attr : attr;
  i_igpmetric : Z;
}.

Definition set_flags (f : Z) (r : bgp_info) : bgp_info :=
  Info (i_type r) (i_sub_type r) f (i_peer r) (i_attr r) (i_igpmetric r).

Definition bgp_flag_check (b : bgp) (flag : Z) : bool := CHECK_FLAG (b_flags b) flag.

(** BGP_INFO_HOLDDOWN: a route that cannot be selected. *)
Definition BGP_INFO_HOLDDOWN (r : bgp_info) : bool :=
  negb (CHECK_FLAG (i_flags r) BGP_INFO_VALID) || CHECK_FLAG (i_flags r) BGP_INFO_DAMPED ||
  CHECK_FLAG (i_flags r) BGP_INFO_HISTORY.

(** ** Peers and addresses *)

Definition bgp_confederation_peers_check (b : bgp) (as_ : Z) : bool :=
  existsb (λ x, x =? as_) (b_confed_peers b).

Definition peer_sort (b : bgp) (p : peer) : peer_type :=
  if p_group p then
    if negb (p_as p =? 0) then
      if b_as b =? p_as p then BGP_PEER_IBGP else BGP_PEER_EBGP
    else
      match p_group_first p with
      | Some (as1, local_as1) => if local_as1 =? as1 then BGP_PEER_IBGP else BGP_PEER_EBGP
      | None => BGP_PEER_INTERNAL
      end
  else if CHECK_FLAG (b_config b) BGP_CONFIG_CONFEDERATION then
    if p_local_as p =? 0 then BGP_PEER_INTERNAL
    else if p_local_as p =? p_as p then
      if p_local_as p =? b_confed_id b then BGP_PEER_EBGP else BGP_PEER_IBGP
    else if bgp_confederation_peers_check b (p_as p) then BGP_PEER_CONFED
    else BGP_PEER_EBGP
  else
    if p_local_as p =? 0 then BGP_PEER_INTERNAL
    else if p_local_as p =? p_as p then BGP_PEER_IBGP
    else BGP_PEER_EBGP.

Fixpoint in6addr_cmp (p1 p2 : list Z) : Z :=
  match p1, p2 with
  | a :: p1, b :: p2 => if b <? a then 1 else if a <? b then -1 else in6addr_cmp p1 p2
  | _, _ => 0
  end.

Definition sockunion_cmp (su1 su2 : sockunion) : Z :=
  if sa_family su1 >? sa_family su2 then 1
  else if sa_family su1 <? sa_family su2 then -1
  else if sa_family su1 =? AF_INET then
    if ntohl (sin_addr su1) =? ntohl (sin_addr su2) then 0
    else if ntohl (sin_addr su1) >? ntohl (sin_addr su2) then 1 else -1
  else if sa_family su1 =? AF_INET6 then in6addr_cmp (sin6_addr su1) (sin6_addr su2)
  else 0.

(** ** Cost communities *)

Definition ECOMMUNITY_COST_COMMUNITY : Z := 0x4301.
Definition ECOMMUNITY_COST_POI_IGP : Z := 129.
Definition COST_COMMUNITY_DEFAULT_COST : Z := 0x7FFFFFFF.

(** The next cost community of [ecom] at index [i] or later: the index it is at,
    its id and its value. *)
Fixpoint next_cost (fuel : nat) (ecom : option ecommunity) (poi i : Z) : res (Z * option (Z * Z)) :=
  match ecom with
  | None => Ok (i, None)
  | Some ec =>
      if i <? ec_size ec then
        match fuel with
        | O => Fail OutOfFuel
        | S fuel =>
            e ← get_bytes (ec_val ec) (i * 8) 8;
            match e with
            | [t1; t2; p; id; v1; v2; v3; v4] =>
                if (t1 * 256 + t2 =? ECOMMUNITY_COST_COMMUNITY) && (p =? poi)
                then Ok (i, Some (id, ntohl [v1; v2; v3; v4]))
                else next_cost fuel ecom poi (i + 1)
            | _ => Fail OutOfBounds
            end
        end
      else Ok (i, None)
  end.

Definition ecom_fuel (ecom : option ecommunity) : nat :=
  match ecom with Some ec => Z.to_nat (ec_size ec) | None => O end.

(** The outer loop: the communities of the two lists it stops at, [None] where the
    list is exhausted. *)
Fixpoint cost_loop (fuel : nat) (ecom1 ecom2 : option ecommunity) (poi i j : Z) :
    res (option (Z * Z) * option (Z * Z)) :=
  '(i, f1) ← next_cost (ecom_fuel ecom1) ecom1 poi i;
  '(j, f2) ← next_cost (ecom_fuel ecom2) ecom2 poi j;
  match f1, f2 with
  | Some (id1, val1), Some (id2, val2) =>
      if negb (id1 =? id2) || negb (val1 =? val2) then Ok (f1, f2)
      else
        match fuel with
        | O => Fail OutOfFuel
        | S fuel => cost_loop fuel ecom1 ecom2 poi (i + 1) (j + 1)
        end
  | _, _ => Ok (f1, f2)
  end.

Definition ecommunity_cost_cmp (ecom1 ecom2 : option ecommunity) (poi : Z) : res Z :=
  match ecom1, ecom2 with
  | None, None => Ok 0
  | _, _ =>
      '(f1, f2) ← cost_loop (ecom_fuel ecom1 + ecom_fuel ecom2) ecom1 ecom2 poi 0 0;
      let val1 := from_option snd COST_COMMUNITY_DEFAULT_COST f1 in
      let val2 := from_option snd COST_COMMUNITY_DEFAULT_COST f2 in
      let by_val := if val1 <? val2 then 1 else if val1 >? val2 then -1 else 0 in
      match f1, f2 with
      | Some (id1, _), Some (id2, _) =>
          Ok (if id1 <? id2 then 1 else if id1 >? id2 then -1 else by_val)
      | _, _ => Ok by_val
      end
  end.

(** ** Comparison of two routes *)

Definition bgp_med_value (a : attr) (b : bgp) : Z :=
  if CHECK_FLAG (at_flag a) (ATTR_FLAG_BIT BGP_ATTR_MULTI_EXIT_DISC) then at_med a
  else if bgp_flag_check b BGP_FLAG_MED_MISSING_AS_WORST then 4294967295 else 0.

(** The local preference, router id and cluster length of a route as steps 2, 12
    and 13 take them. *)
Definition local_pref (b : bgp) (r : bgp_info) : Z :=
  if CHECK_FLAG (at_flag (i_attr r)) (ATTR_FLAG_BIT BGP_ATTR_LOCAL_PREF)
  then at_local_pref (i_attr r) else b_default_local_pref b.

Definition router_id (r : bgp_info) : Z :=
  if CHECK_FLAG (at_flag (i_attr r)) (ATTR_FLAG_BIT BGP_ATTR_ORIGINATOR_ID)
  then at_originator_id (i_attr r) else p_remote_id (i_peer r).

Definition cluster_length (r : bgp_info) : Z :=
  if CHECK_FLAG (at_flag (i_attr r)) (ATTR_FLAG_BIT BGP_ATTR_CLUSTER_LIST)
  then at_cluster_length (i_attr r) else 0.

(** The condition of step 6; the comparisons of AS paths are made only when the
    tests before them fail. *)
Definition med_comparable (b : bgp) (new old : bgp_info) : res bool :=
  let np := at_aspath (i_attr new) in
  let ep := at_aspath (i_attr old) in
  let internal_as_route := (a_length np =? 0) && (a_length ep =? 0) in
  let confed_as_route := (a_length np >? 0) && (a_length ep >? 0) && (a_count np =? 0) && (a_count ep =? 0) in
  if bgp_flag_check b BGP_FLAG_ALWAYS_COMPARE_MED then Ok true
  else if bgp_flag_check b BGP_FLAG_MED_CONFED && confed_as_route then Ok true
  else
    left ← aspath_cmp_left np ep;
    if (left : bool) then Ok true else
    left ← aspath_cmp_left_confed np ep;
    if (left : bool) then Ok true else Ok internal_as_route.

(** Steps 11 to 14. *)
Definition cmp_tail (b : bgp) (new old : bgp_info) : bool :=
  let by_id :=
    if router_id new <? router_id old then true
    else if router_id new >? router_id old then false
    else if cluster_length new <? cluster_length old then true
    else if cluster_length new >? cluster_length old then false
    else negb (sockunion_cmp (p_su_remote (i_peer new)) (p_su_remote (i_peer old)) =? 1) in
  if negb (bgp_flag_check b BGP_FLAG_COMPARE_ROUTER_ID) &&
     bool_decide (peer_sort b (i_peer new) = BGP_PEER_EBGP) &&
     bool_decide (peer_sort b (i_peer old) = BGP_PEER_EBGP) then
    if CHECK_FLAG (i_flags new) BGP_INFO_SELECTED then true
    else if CHECK_FLAG (i_flags old) BGP_INFO_SELECTED then false
    else by_id
  else by_id.

(** Steps 7 to 10. *)
Definition cmp_peer (b : bgp) (new old : bgp_info) : res bool :=
  match peer_sort b (i_peer new), peer_sort b (i_peer old) with
  | BGP_PEER_EBGP, BGP_PEER_IBGP | BGP_PEER_EBGP, BGP_PEER_CONFED => Ok true
  | BGP_PEER_IBGP, BGP_PEER_EBGP | BGP_PEER_CONFED, BGP_PEER_EBGP => Ok false
  | _, _ =>
      if i_igpmetric new <? i_igpmetric old then Ok true
      else if i_igpmetric new >? i_igpmetric old then Ok false
      else if negb (bgp_flag_check b BGP_FLAG_COST_COMMUNITY_IGNORE) then
        c ← ecommunity_cost_cmp (at_ecommunity (i_attr new)) (at_ecommunity (i_attr old))
              ECOMMUNITY_COST_POI_IGP;
        Ok (if c >? 0 then true else if c <? 0 then false else cmp_tail b new old)
      else Ok (cmp_tail b new old)
  end.

(** Steps 5 and 6. *)
Definition cmp_med (b : bgp) (new old : bgp_info) : res bool :=
  if at_origin (i_attr new) <? at_origin (i_attr old) then Ok true
  else if at_origin (i_attr new) >? at_origin (i_attr old) then Ok false
  else
    comparable ← med_comparable b new old;
    let new_med := bgp_med_value (i_attr new) b in
    let exist_med := bgp_med_value (i_attr old) b in
    if (comparable : bool) && (new_med <? exist_med) then Ok true
    else if (comparable : bool) && (new_med >? exist_med) then Ok false
    else cmp_peer b new old.

(** bgp_info_cmp: [true] when [new] is preferred. *)
Definition bgp_info_cmp (b : bgp) (new old : option bgp_info) : res bool :=
  match new, old with
  | None, _ => Ok false
  | Some _, None => Ok true
  | Some new, Some old =>
      if at_weight (i_attr new) >? at_weight (i_attr old) then Ok true
      else if at_weight (i_attr new) <? at_weight (i_attr old) then Ok false
      else if local_pref b new >? local_pref b old then Ok true
      else if local_pref b new <? local_pref b old then Ok false
      else if i_sub_type new =? BGP_ROUTE_STATIC then Ok true
      else if i_sub_type old =? BGP_ROUTE_STATIC then Ok false
      else if i_sub_type new =? BGP_ROUTE_REDISTRIBUTE then Ok true
      else if i_sub_type old =? BGP_ROUTE_REDISTRIBUTE then Ok false
      else if i_sub_type new =? BGP_ROUTE_AGGREGATE then Ok true
      else if i_sub_type old =? BGP_ROUTE_AGGREGATE then Ok false
      else
        let ignore := bgp_flag_check b BGP_FLAG_ASPATH_IGNORE in
        let nc := a_count (at_aspath (i_attr new)) in
        let ec := a_count (at_aspath (i_attr old)) in
        if negb ignore && (nc <? ec) then Ok true
        else if negb ignore && (nc >? ec) then Ok false
        else cmp_med b new old
  end.

(** ** Selection *)

(** The routes of a prefix; what is done with a route is done at its position. *)
Definition get_info (rs : list bgp_info) (i : nat) : res bgp_info := of_option UseAfterFree (rs !! i).
Definition flag_info (f : Z → Z) (i : nat) (rs : list bgp_info) : list bgp_info :=
  alter (λ r, set_flags (f (i_flags r)) r) i rs.

(** Whether two routes come from the same neighbor AS. *)
Definition same_neighbor (r1 r2 : bgp_info) : res bool :=
  l ← aspath_cmp_left (at_aspath (i_attr r1)) (at_aspath (i_attr r2));
  if (l : bool) then Ok true
  else aspath_cmp_left_confed (at_aspath (i_attr r1)) (at_aspath (i_attr r2)).

(** Deterministic MED, inner loop: the best route of the neighbor AS of [i1]
    among the positions [js]. *)
Fixpoint dmed_inner (b : bgp) (i1 : nat) (js : list nat) (sel : nat) (rs : list bgp_info) :
    res (nat * list bgp_info) :=
  match js with
  | [] => Ok (sel, rs)
  | j :: js =>
      ri2 ← get_info rs j;
      if CHECK_FLAG (i_flags ri2) BGP_INFO_DMED_CHECK || BGP_INFO_HOLDDOWN ri2
      then dmed_inner b i1 js sel rs
      else
        ri1 ← get_info rs i1;
        same ← same_neighbor ri1 ri2;
        if (same : bool) then
          rsel ← get_info rs sel;
          better ← bgp_info_cmp b (Some ri2) (Some rsel);
          let '(sel, rs) :=
            if (better : bool)
            then (j, flag_info (λ f, UNSET_FLAG f BGP_INFO_DMED_SELECTED) sel rs)
            else (sel, rs) in
          dmed_inner b i1 js sel (flag_info (λ f, SET_FLAG f BGP_INFO_DMED_CHECK) j rs)
        else dmed_inner b i1 js sel rs
  end.

(** Deterministic MED, outer loop over the positions [idx]. *)
Fixpoint dmed_outer (b : bgp) (idx : list nat) (rs : list bgp_info) : res (list bgp_info) :=
  match idx with
  | [] => Ok rs
  | i :: idx =>
      ri1 ← get_info rs i;
      if CHECK_FLAG (i_flags ri1) BGP_INFO_DMED_CHECK || BGP_INFO_HOLDDOWN ri1
      then dmed_outer b idx rs
      else
        '(sel, rs) ← dmed_inner b i idx i rs;
        let rs := flag_info (λ f, SET_FLAG f BGP_INFO_DMED_CHECK) sel rs in
        let rs := flag_info (λ f, SET_FLAG f BGP_INFO_DMED_SELECTED) sel rs in
        dmed_outer b idx rs
  end.

(** The loop that looks for the old and the new selection. *)
Fixpoint select_loop (b : bgp) (idx : list nat) (old_select new_select : option nat)
    (rs : list bgp_info) : res (option nat * option nat * list bgp_info) :=
  match idx with
  | [] => Ok (old_select, new_select, rs)
  | i :: idx =>
      ri ← get_info rs i;
      let old_select := if CHECK_FLAG (i_flags ri) BGP_INFO_SELECTED then Some i else old_select in
      if BGP_INFO_HOLDDOWN ri then select_loop b idx old_select new_select rs
      else if bgp_flag_check b BGP_FLAG_DETERMINISTIC_MED &&
              negb (CHECK_FLAG (i_flags ri) BGP_INFO_DMED_SELECTED)
      then select_loop b idx old_select new_select
             (flag_info (λ f, UNSET_FLAG f BGP_INFO_DMED_CHECK) i rs)
      else
        let rs := flag_info (λ f, UNSET_FLAG f BGP_INFO_DMED_CHECK) i rs in
        let rs := flag_info (λ f, UNSET_FLAG f BGP_INFO_DMED_SELECTED) i rs in
        ri ← get_info rs i;
        sel ← match new_select with None => Ok None | Some j => r ← get_info rs j; Ok (Some r) end;
        better ← bgp_info_cmp b (Some ri) sel;
        select_loop b idx old_select (if (better : bool) then Some i else new_select) rs
  end.

Inductive action :=
  | AdjOutSet (peer : nat) (i : nat)
  | AdjOutUnset (peer : nat)
  | ZebraAnnounce (i : nat)
  | ZebraWithdraw (i : nat).

Section Process.
(** The peers a route is offered to (established, with the address family
    negotiated and no deferred update), the outbound policy, and whether the
    routes go to the FIB. *)
Context (b : bgp) (peers : list nat) (announce_check : bgp_info → nat → bool) (fib : bool).

Definition to_zebra (r : bgp_info) : bool :=
  (i_type r =? ZEBRA_ROUTE_BGP) && (i_sub_type r =? BGP_ROUTE_NORMAL).

(** The announcements at the end of bgp_process. *)
Definition announcements (rs : list bgp_info) (old_select new_select : option nat) :
    res (list action) :=
  new ← match new_select with None => Ok None | Some i => r ← get_info rs i; Ok (Some (i, r)) end;
  old ← match old_select with None => Ok None | Some i => r ← get_info rs i; Ok (Some (i, r)) end;
  let adj := (λ p, match new with
                   | Some (i, r) => if announce_check r p then AdjOutSet p i else AdjOutUnset p
                   | None => AdjOutUnset p
                   end) <$> peers in
  let withdraw := match old with
                  | Some (i, r) => if to_zebra r then [ZebraWithdraw i] else []
                  | None => []
                  end in
  Ok (adj ++ if fib then
               match new with
               | Some (i, r) => if to_zebra r then [ZebraAnnounce i] else withdraw
               | None => withdraw
               end
             else []).

Definition bgp_process (rs : list bgp_info) : res (list action * list bgp_info) :=
  rs ← (if bgp_flag_check b BGP_FLAG_DETERMINISTIC_MED
        then dmed_outer b (seq 0 (length rs)) rs else Ok rs);
  '(old_select, new_select, rs) ← select_loop b (seq 0 (length rs)) None None rs;
  unchanged ← match old_select with
              | Some o =>
                  r ← get_info rs o;
                  Ok (bool_decide (old_select = new_select) &&
                      negb (CHECK_FLAG (i_flags r) BGP_INFO_ATTR_CHANGED))
              | None => Ok false
              end;
  if (unchanged : bool) then
    match old_select with
    | Some o =>
        r ← get_info rs o;
        Ok (if CHECK_FLAG (i_flags r) BGP_INFO_IGP_CHANGED then [ZebraAnnounce o] else [], rs)
    | None => Ok ([], rs)
    end
  else
    let rs := match old_select with
              | Some o => flag_info (λ f, UNSET_FLAG f BGP_INFO_SELECTED) o rs
              | None => rs
              end in
    let rs := match new_select with
              | Some n => flag_info (λ f, UNSET_FLAG f BGP_INFO_ATTR_CHANGED) n
                            (flag_info (λ f, SET_FLAG f BGP_INFO_SELECTED) n rs)
              | None => rs
              end in
    acts ← announcements rs old_select new_select;
    Ok (acts, rs).
End Process.

(** ** The preference order

    Routes are compared by a list of integers, smaller first. *)

Fixpoint lex_le (a b : list Z) : bool :=
  match a, b with
  | x :: a, y :: b => if x <? y then true else if x >? y then false else lex_le a b
  | _, _ => true
  end.

Lemma lex_le_cons x y a b :
  lex_le (x :: a) (y :: b) = if x <? y then true else if x >? y then false else lex_le a b.
Proof. done. Qed.

Lemma lex_le_refl a : lex_le a a = true.
Proof. induction a as [|x a IH]; [done|]. cbn. case_bool; [lia..|done]. Qed.

Lemma lex_le_mono a b : Forall2 Z.le a b → lex_le a b = true.
Proof. induction 1 as [|x y a b H _ IH]; [done|]. cbn. case_bool; [done|lia|done]. Qed.

Lemma lex_le_total a b : lex_le a b = true ∨ lex_le b a = true.
Proof.
  revert b. induction a as [|x a IH]; intros [|y b]; [by left..|by right|by left|].
  cbn. destruct (IH b); case_bool; auto; lia.
Qed.

Lemma lex_le_trans a b c :
  length a = length b → length b = length c →
  lex_le a b = true → lex_le b c = true → lex_le a c = true.
Proof.
  revert b c. induction a as [|x a IH]; intros [|y b] [|z c]; try done.
  cbn. intros [= H1] [= H2]. specialize (IH b c H1 H2).
  repeat case_bool; try done; try lia; auto.
Qed.

Lemma lex_le_antisym a b :
  length a = length b → lex_le a b = true → lex_le b a = true → a = b.
Proof.
  revert b. induction a as [|x a IH]; intros [|y b]; try done.
  cbn. intros [= Hl]. specialize (IH b Hl).
  case_bool; try done; intros; try lia. f_equal; [lia|auto].
Qed.

(** The place of local routes, of peer types and of addresses in the order. *)
Definition local_rank (r : bgp_info) : Z :=
  if i_sub_type r =? BGP_ROUTE_STATIC then 0
  else if i_sub_type r =? BGP_ROUTE_REDISTRIBUTE then 1
  else if i_sub_type r =? BGP_ROUTE_AGGREGATE then 2 else 3.

Definition peer_rank (b : bgp) (r : bgp_info) : Z :=
  if decide (peer_sort b (i_peer r) = BGP_PEER_EBGP) then 0 else 1.

Definition selected (r : bgp_info) : bool := CHECK_FLAG (i_flags r) BGP_INFO_SELECTED.

Definition oldest_rank (b : bgp) (r : bgp_info) : Z :=
  if bgp_flag_check b BGP_FLAG_COMPARE_ROUTER_ID then 0
  else if selected r then (if decide (peer_sort b (i_peer r) = BGP_PEER_EBGP) then 0 else 1) else 1.

Definition su_key (su : sockunion) : list Z :=
  sa_family su ::
  if sa_family su =? AF_INET then ntohl (sin_addr su) :: replicate 15 0
  else if sa_family su =? AF_INET6 then sin6_addr su else replicate 16 0.

Definition normal_key (b : bgp) (r : bgp_info) : list Z :=
  (if bgp_flag_check b BGP_FLAG_ASPATH_IGNORE then 0 else a_count (at_aspath (i_attr r)))
  :: at_origin (i_attr r) :: bgp_med_value (i_attr r) b :: peer_rank b r :: i_igpmetric r
  :: oldest_rank b r :: router_id r :: cluster_length r :: su_key (p_su_remote (i_peer r)).

Definition route_key (b : bgp) (r : bgp_info) : list Z :=
  - at_weight (i_attr r) :: - local_pref b r :: local_rank r
  :: if local_rank r =? 3 then normal_key b r else replicate 25 0.

(** What the order asks of a route: a remote address of its size, a peer that is
    not the router itself for a route that was received, and no cost community
    unless they are ignored. *)
Definition ordered_route (b : bgp) (r : bgp_info) : Prop :=
  length (sin6_addr (p_su_remote (i_peer r))) = 16%nat ∧
  (local_rank r = 3 → peer_sort b (i_peer r) ≠ BGP_PEER_INTERNAL) ∧
  (bgp_flag_check b BGP_FLAG_COST_COMMUNITY_IGNORE = true ∨ at_ecommunity (i_attr r) = None).

Lemma route_key_length b r : ordered_route b r → length (route_key b r) = 28%nat.
Proof.
  intros (H & _). unfold route_key, normal_key, su_key.
  repeat case_match; cbn [length]; by rewrite ?H, ?length_replicate.
Qed.

Lemma in6addr_cmp_lex p1 p2 : lex_le p1 p2 = negb (in6addr_cmp p1 p2 =? 1).
Proof.
  revert p2. induction p1 as [|x p1 IH]; intros [|y p2]; try done.
  cbn [lex_le in6addr_cmp]. rewrite IH, Z.gtb_ltb.
  destruct (Z.ltb_spec x y), (Z.ltb_spec y x); done || lia.
Qed.

Lemma sockunion_cmp_lex su1 su2 :
  lex_le (su_key su1) (su_key su2) = negb (sockunion_cmp su1 su2 =? 1).
Proof.
  unfold su_key, sockunion_cmp. rewrite lex_le_cons.
  case (Z.ltb_spec (sa_family su1) (sa_family su2)), (Z.gtb_spec (sa_family su1) (sa_family su2));
    try lia; try done.
  assert (sa_family su2 = sa_family su1) as -> by lia.
  case (Z.eqb_spec (sa_family su1) AF_INET); [|case (Z.eqb_spec (sa_family su1) AF_INET6)]; intros.
  - rewrite lex_le_cons, lex_le_refl.
    generalize (ntohl (sin_addr su1)), (ntohl (sin_addr su2)). intros x y. rewrite !Z.gtb_ltb.
    destruct (Z.eqb_spec x y), (Z.ltb_spec x y), (Z.ltb_spec y x); done || lia.
  - apply in6addr_cmp_lex.
  - by rewrite lex_le_refl.
Qed.

Lemma cost_cmp_None poi : ecommunity_cost_cmp None None poi = Ok 0.
Proof. done. Qed.

Lemma cmp_tail_lex b n o :
  peer_rank b n = peer_rank b o → selected n && selected o = false →
  cmp_tail b n o =
    lex_le (oldest_rank b n :: router_id n :: cluster_length n :: su_key (p_su_remote (i_peer n)))
           (oldest_rank b o :: router_id o :: cluster_length o :: su_key (p_su_remote (i_peer o))).
Proof.
  intros Hp Hs. rewrite !lex_le_cons, sockunion_cmp_lex.
  unfold cmp_tail, oldest_rank, peer_rank, selected in *.
  destruct (bgp_flag_check b BGP_FLAG_COMPARE_ROUTER_ID); [done|].
  do 2 case_decide; try done.
  all: rewrite ?bool_decide_true, ?bool_decide_false by done; cbn [negb andb].
  all: do 2 destruct (CHECK_FLAG _ _); try done; by destruct (router_id n <? router_id o).
Qed.

Lemma cmp_peer_lex b n o :
  ordered_route b n → ordered_route b o → local_rank n = 3 → local_rank o = 3 →
  selected n && selected o = false →
  cmp_peer b n o =
    Ok (lex_le (peer_rank b n :: i_igpmetric n :: oldest_rank b n :: router_id n
                :: cluster_length n :: su_key (p_su_remote (i_peer n)))
               (peer_rank b o :: i_igpmetric o :: oldest_rank b o :: router_id o
                :: cluster_length o :: su_key (p_su_remote (i_peer o)))).
Proof.
  intros (_ & Hin & Hcn) (_ & Hio & Hco) Hrn Hro Hs.
  specialize (Hin Hrn). specialize (Hio Hro).
  assert (Hcost : bgp_flag_check b BGP_FLAG_COST_COMMUNITY_IGNORE = true ∨
    at_ecommunity (i_attr n) = None ∧ at_ecommunity (i_attr o) = None) by naive_solver.
  rewrite lex_le_cons, lex_le_cons.
  pose proof (cmp_tail_lex b n o) as Ht. unfold peer_rank in Ht |- *.
  unfold cmp_peer. destruct (peer_sort b (i_peer n)) eqn:En, (peer_sort b (i_peer o)) eqn:Eo;
    try done; cbn [decide]; repeat case_decide; try done.
  all: rewrite Z.ltb_irrefl, <- Ht by done; clear Ht.
  all: try change (1 >? 1) with false; try change (0 >? 0) with false; cbv iota.
  all: destruct (i_igpmetric n <? i_igpmetric o); [done|];
    destruct (i_igpmetric n >? i_igpmetric o); [done|].
  all: by destruct Hcost as [->|[-> ->]]; [|rewrite cost_cmp_None; destruct (bgp_flag_check _ _)].
Qed.

Lemma cmp_med_lex b n o :
  bgp_flag_check b BGP_FLAG_ALWAYS_COMPARE_MED = true →
  ordered_route b n → ordered_route b o → local_rank n = 3 → local_rank o = 3 →
  selected n && selected o = false →
  cmp_med b n o = Ok (lex_le (tail (normal_key b n)) (tail (normal_key b o))).
Proof.
  intros Hm Hn Ho Hrn Hro Hs. unfold cmp_med, med_comparable, normal_key. rewrite Hm.
  cbn [mbind res_bind tail andb]. rewrite 2!lex_le_cons, (cmp_peer_lex b n o) by done.
  destruct (at_origin (i_attr n) <? at_origin (i_attr o)); [done|].
  destruct (at_origin (i_attr n) >? at_origin (i_attr o)); [done|].
  destruct (bgp_med_value (i_attr n) b <? bgp_med_value (i_attr o) b); [done|].
  by destruct (bgp_med_value (i_attr n) b >? bgp_med_value (i_attr o) b).
Qed.

(** The decision process compares routes by a total order, the lexicographic order
    of their keys, when MED is always compared. *)
Lemma bgp_info_cmp_lex b n o :
  bgp_flag_check b BGP_FLAG_ALWAYS_COMPARE_MED = true →
  ordered_route b n → ordered_route b o → selected n && selected o = false →
  bgp_info_cmp b (Some n) (Some o) = Ok (lex_le (route_key b n) (route_key b o)).
Proof.
  intros Hm Hn Ho Hs.
  assert (Hmed : local_rank n = 3 → local_rank o = 3 →
    cmp_med b n o = Ok (lex_le (tail (normal_key b n)) (tail (normal_key b o))))
    by (intros; by apply cmp_med_lex).
  unfold bgp_info_cmp, route_key. rewrite 3!lex_le_cons.
  generalize (at_weight (i_attr n)) (at_weight (i_attr o)) (local_pref b n) (local_pref b o).
  intros w1 w2 p1 p2. rewrite !Z.gtb_ltb.
  replace (- w1 <? - w2) with (w2 <? w1) by (apply eq_true_iff_eq; rewrite !Z.ltb_lt; lia).
  replace (- w2 <? - w1) with (w1 <? w2) by (apply eq_true_iff_eq; rewrite !Z.ltb_lt; lia).
  replace (- p1 <? - p2) with (p2 <? p1) by (apply eq_true_iff_eq; rewrite !Z.ltb_lt; lia).
  replace (- p2 <? - p1) with (p1 <? p2) by (apply eq_true_iff_eq; rewrite !Z.ltb_lt; lia).
  destruct (w2 <? w1); [done|]. destruct (w1 <? w2); [done|].
  destruct (p2 <? p1); [done|]. destruct (p1 <? p2); [done|].
  unfold local_rank in Hmed |- *.
  destruct (i_sub_type n =? BGP_ROUTE_STATIC); [by repeat case_match|].
  destruct (i_sub_type o =? BGP_ROUTE_STATIC); [by repeat case_match|].
  destruct (i_sub_type n =? BGP_ROUTE_REDISTRIBUTE); [by repeat case_match|].
  destruct (i_sub_type o =? BGP_ROUTE_REDISTRIBUTE); [by repeat case_match|].
  destruct (i_sub_type n =? BGP_ROUTE_AGGREGATE); [by repeat case_match|].
  destruct (i_sub_type o =? BGP_ROUTE_AGGREGATE); [by repeat case_match|].
  rewrite Hmed by done. change (3 <? 3) with false. change (3 =? 3) with true. cbv iota.
  unfold normal_key at 3 4. rewrite lex_le_cons. cbn [tail normal_key].
  destruct (bgp_flag_check b BGP_FLAG_ASPATH_IGNORE); [done|]. cbn [negb andb].
  rewrite Z.gtb_ltb.
  destruct (a_count (at_aspath (i_attr n)) <? a_count (at_aspath (i_attr o))); [done|].
  by destruct (a_count (at_aspath (i_attr o)) <? a_count (at_aspath (i_attr n))).
Qed.

(** ** The selection loop *)

(** [r'] is [r] up to the flags of deterministic MED. *)
Definition dmed_same (r r' : bgp_info) : Prop :=
  r' = set_flags (i_flags r') r ∧
  ∀ g, Z.land BGP_INFO_DMED_CHECK g = 0 → Z.land BGP_INFO_DMED_SELECTED g = 0 →
       CHECK_FLAG (i_flags r') g = CHECK_FLAG (i_flags r) g.

Lemma dmed_same_refl r : dmed_same r r.
Proof. by destruct r. Qed.

Lemma dmed_same_unset r r' f :
  f = BGP_INFO_DMED_CHECK ∨ f = BGP_INFO_DMED_SELECTED →
  dmed_same r r' → dmed_same r (set_flags (UNSET_FLAG (i_flags r') f) r').
Proof.
  intros Hf [He Hg]. split; [by rewrite He|]. intros g H1 H2. cbn.
  rewrite CHECK_FLAG_UNSET by naive_solver. auto.
Qed.

Section DmedSame.
Context (b : bgp) (r r' : bgp_info) (H : dmed_same r r').

Lemma dmed_same_selected : selected r' = selected r.
Proof. destruct H as [_ Hg]. by apply Hg. Qed.

Lemma dmed_same_holddown : BGP_INFO_HOLDDOWN r' = BGP_INFO_HOLDDOWN r.
Proof. destruct H as [_ Hg]. unfold BGP_INFO_HOLDDOWN. by rewrite !Hg. Qed.

Lemma dmed_same_key : route_key b r' = route_key b r.
Proof.
  pose proof dmed_same_selected as Hs. destruct H as [He _].
  unfold route_key, normal_key, oldest_rank. rewrite Hs. by rewrite He.
Qed.

Lemma dmed_same_ordered : ordered_route b r → ordered_route b r'.
Proof. destruct H as [-> _]. done. Qed.
End DmedSame.

Lemma flag_info_dmed rs0 rs f i :
  f = BGP_INFO_DMED_CHECK ∨ f = BGP_INFO_DMED_SELECTED →
  Forall2 dmed_same rs0 rs → Forall2 dmed_same rs0 (flag_info (λ v, UNSET_FLAG v f) i rs).
Proof.
  intros Hf H. unfold flag_info. revert i. induction H; intros [|i]; constructor; try done.
  by apply dmed_same_unset.
Qed.

Lemma dmed_lookup rs0 rs i r0 :
  Forall2 dmed_same rs0 rs → rs0 !! i = Some r0 → ∃ r, get_info rs i = Ok r ∧ dmed_same r0 r.
Proof.
  intros H Hi. destruct (Forall2_lookup_l _ _ _ _ _ H Hi) as (r & Hr & ?).
  exists r. split; [|done]. unfold get_info. by rewrite Hr.
Qed.

(** The routes of a prefix that can be selected. *)
Definition candidate (rs : list bgp_info) (i : nat) (r : bgp_info) : Prop :=
  rs !! i = Some r ∧ BGP_INFO_HOLDDOWN r = false.

(** [sel] is the best of the candidates at the positions [done]. *)
Definition best_of (b : bgp) (rs : list bgp_info) (done : list nat) (sel : option nat) : Prop :=
  match sel with
  | None => ∀ i r, i ∈ done → ¬ candidate rs i r
  | Some n => n ∈ done ∧ ∃ rn, candidate rs n rn ∧
      ∀ i r, i ∈ done → candidate rs i r → lex_le (route_key b rn) (route_key b r) = true
  end.

Definition selected_at (rs : list bgp_info) (i : nat) : Prop :=
  ∃ r, rs !! i = Some r ∧ selected r = true.

Definition one_selected (rs : list bgp_info) : Prop :=
  ∀ i j, selected_at rs i → selected_at rs j → i = j.

Definition old_of (rs : list bgp_info) (done : list nat) (old : option nat) : Prop :=
  ∀ i, i ∈ done → selected_at rs i ↔ old = Some i.

Section Select.
Context (b : bgp) (rs0 : list bgp_info).
Context (Hmed : bgp_flag_check b BGP_FLAG_ALWAYS_COMPARE_MED = true).
Context (Hdet : bgp_flag_check b BGP_FLAG_DETERMINISTIC_MED = false).
Context (Hord : Forall (ordered_route b) rs0) (Hone : one_selected rs0).

Lemma best_of_skip d i r sel :
  best_of b rs0 d sel → rs0 !! i = Some r → BGP_INFO_HOLDDOWN r = true →
  best_of b rs0 (d ++ [i]) sel.
Proof.
  intros Hb Hi Hh.
  assert (Hno : ∀ r', ¬ candidate rs0 i r') by (intros r' [? ?]; congruence).
  destruct sel as [n|]; cbn in *.
  - destruct Hb as (? & rn & ? & Hmin). split; [apply elem_of_app; by left|]. exists rn. split; [done|].
    intros j r' [Hj| ->%list_elem_of_singleton]%elem_of_app Hc; [by apply (Hmin j)|].
    by destruct (Hno r').
  - intros j r' [Hj| ->%list_elem_of_singleton]%elem_of_app; [by apply Hb|apply Hno].
Qed.

Lemma key_length r i : rs0 !! i = Some r → length (route_key b r) = 28%nat.
Proof. intros. apply route_key_length. by eapply Forall_lookup_1. Qed.

(** A turn of the loop on a candidate. *)
Lemma best_of_step d i r sel :
  best_of b rs0 d sel → candidate rs0 i r →
  best_of b rs0 (d ++ [i])
    (match sel with
     | None => Some i
     | Some n => match rs0 !! n with
                 | Some rn => if lex_le (route_key b r) (route_key b rn) then Some i else Some n
                 | None => None
                 end
     end).
Proof.
  intros Hb Hc. destruct sel as [n|]; cbn in Hb.
  - destruct Hb as (Hin & rn & Hn & Hmin). rewrite (proj1 Hn).
    destruct (lex_le (route_key b r) (route_key b rn)) eqn:E;
      (split; [apply elem_of_app; first [by left|right; by left]|]).
    + exists r. split; [done|]. intros j r' [Hj| ->%list_elem_of_singleton]%elem_of_app Hc'.
      * pose proof (key_length _ _ (proj1 Hc)). pose proof (key_length _ _ (proj1 Hn)).
        pose proof (key_length _ _ (proj1 Hc')).
        apply (lex_le_trans _ (route_key b rn)); [congruence..|done|]. by apply (Hmin j).
      * assert (r' = r) as -> by (destruct Hc, Hc'; congruence). apply lex_le_refl.
    + exists rn. split; [done|]. intros j r' [Hj| ->%list_elem_of_singleton]%elem_of_app Hc'.
      * by apply (Hmin j).
      * assert (r' = r) as -> by (destruct Hc, Hc'; congruence).
        destruct (lex_le_total (route_key b r) (route_key b rn)); congruence.
  - split; [apply elem_of_app; right; by left|]. exists r. split; [done|].
    intros j r' [Hj| ->%list_elem_of_singleton]%elem_of_app Hc'; [by destruct (Hb j r')|].
    assert (r' = r) as -> by (destruct Hc, Hc'; congruence). apply lex_le_refl.
Qed.

Lemma old_of_step d i r0 old :
  old_of rs0 d old → (∀ o, old = Some o → o ∈ d) → rs0 !! i = Some r0 → i ∉ d →
  old_of rs0 (d ++ [i]) (if selected r0 then Some i else old) ∧
  (∀ o, (if selected r0 then Some i else old) = Some o → o ∈ d ++ [i]).
Proof.
  intros Hold Hin Hi Hnd. destruct (selected r0) eqn:E.
  - assert (Hs : selected_at rs0 i) by (by exists r0). split.
    + intros j _. split; [intros Hj; f_equal; by apply Hone|by intros [= ->]].
    + intros o [= ->]. apply elem_of_app. right. by left.
  - split.
    + intros j [Hj| ->%list_elem_of_singleton]%elem_of_app; [by apply Hold|].
      split; [intros (r & ? & ?); congruence|intros Ho; by apply Hin in Ho].
    + intros o Ho. apply elem_of_app. left. auto.
Qed.

(** What the loop finds at a candidate it compares. *)
Lemma compare_step d i r0 sel rs r :
  best_of b rs0 d sel → i ∉ d → Forall2 dmed_same rs0 rs → rs0 !! i = Some r0 →
  dmed_same r0 r →
  (s ← match sel with None => Ok None | Some j => r ← get_info rs j; Ok (Some r) end;
   bgp_info_cmp b (Some r) s) =
  Ok (match sel with
      | None => true
      | Some n => match rs0 !! n with
                  | Some rn => lex_le (route_key b r0) (route_key b rn)
                  | None => true
                  end
      end).
Proof.
  intros Hb Hi Hsame Hr0 Hr. destruct sel as [n|]; [|done].
  destruct Hb as (Hin & rn & Hn & _). rewrite (proj1 Hn).
  destruct (dmed_lookup _ _ _ _ Hsame (proj1 Hn)) as (rn' & -> & Hrn). cbn [mbind res_bind].
  rewrite bgp_info_cmp_lex; [|done|..].
  - by rewrite (dmed_same_key b _ _ Hr), (dmed_same_key b _ _ Hrn).
  - apply (dmed_same_ordered b _ _ Hr). by eapply Forall_lookup_1.
  - apply (dmed_same_ordered b _ _ Hrn). eapply Forall_lookup_1; [done|apply Hn].
  - rewrite (dmed_same_selected _ _ Hr), (dmed_same_selected _ _ Hrn).
    destruct (selected r0) eqn:E1, (selected rn) eqn:E2; try done.
    assert (i = n) as ->; [|done]. apply Hone; [by exists r0|by exists rn; destruct Hn].
Qed.

Lemma select_loop_correct idx d old sel rs :
  Forall2 dmed_same rs0 rs → NoDup (d ++ idx) → Forall (λ i, (i < length rs0)%nat) idx →
  best_of b rs0 d sel → old_of rs0 d old → (∀ o, old = Some o → o ∈ d) →
  ∃ old' sel' rs', select_loop b idx old sel rs = Ok (old', sel', rs') ∧
    Forall2 dmed_same rs0 rs' ∧ best_of b rs0 (d ++ idx) sel' ∧ old_of rs0 (d ++ idx) old' ∧
    (∀ o, old' = Some o → o ∈ d ++ idx).
Proof.
  revert d old sel rs. induction idx as [|i idx IH]; intros d old sel rs Hsame Hnd Hidx Hbest Hold Hin.
  { rewrite app_nil_r. by exists old, sel, rs. }
  apply Forall_cons in Hidx as [Hi Hidx]. apply lookup_lt_is_Some_2 in Hi as [r0 Hr0].
  assert (Hid : i ∉ d) by (apply NoDup_app in Hnd as (_ & Hx & _); intros ?; by eapply Hx; [|left]).
  rewrite (assoc_L (++) d [i] idx : d ++ i :: idx = (d ++ [i]) ++ idx) in Hnd |- *.
  destruct (dmed_lookup _ _ _ _ Hsame Hr0) as (r & Hr & Hrr).
  cbn [select_loop]. rewrite Hr. cbn [mbind res_bind].
  rewrite (dmed_same_holddown _ _ Hrr), Hdet. cbn [andb]. fold (selected r).
  rewrite (dmed_same_selected _ _ Hrr).
  destruct (old_of_step d i r0 old Hold Hin Hr0 Hid) as [Hold1 Hin1].
  destruct (BGP_INFO_HOLDDOWN r0) eqn:Hh.
  { apply IH; try done. by eapply best_of_skip. }
  set (rs1 := flag_info _ i (flag_info _ i rs)).
  assert (Hsame1 : Forall2 dmed_same rs0 rs1) by (apply flag_info_dmed, flag_info_dmed; auto).
  destruct (dmed_lookup _ _ _ _ Hsame1 Hr0) as (r1 & -> & Hrr1). cbn [mbind res_bind].
  pose proof (compare_step d i r0 sel rs1 r1 Hbest Hid Hsame1 Hr0 Hrr1) as Hcmp.
  pose proof (best_of_step d i r0 sel Hbest (conj Hr0 Hh)) as Hbest1.
  apply res_bind_Ok in Hcmp as (s & -> & Hcmp). cbn [mbind res_bind]. rewrite Hcmp.
  cbn [mbind res_bind]. apply IH; try done. destruct sel as [n|]; [|done].
  destruct Hbest as (_ & rn & Hn & _). rewrite (proj1 Hn) in Hbest1 |- *.
  by destruct (lex_le _ _).
Qed.
End Select.

(** Which routes are selected after a flag of one of them is changed. *)
Lemma selected_at_flag f i rs j :
  selected_at (flag_info f i rs) j ↔
  ∃ r, rs !! j = Some r ∧
    CHECK_FLAG (if decide (i = j) then f (i_flags r) else i_flags r) BGP_INFO_SELECTED = true.
Proof.
  unfold selected_at, flag_info, selected. destruct (decide (i = j)) as [->|Hne].
  - rewrite list_lookup_alter_eq. split.
    + intros (r' & Hr' & Hs). apply fmap_Some in Hr' as (r & Hr & ->). by exists r.
    + intros (r & Hr & Hs). eexists. by rewrite Hr.
  - by rewrite list_lookup_alter_ne.
Qed.

Lemma selected_at_unset o rs j :
  selected_at (flag_info (λ f, UNSET_FLAG f BGP_INFO_SELECTED) o rs) j ↔ selected_at rs j ∧ o ≠ j.
Proof.
  rewrite selected_at_flag. unfold selected_at. case_decide.
  - split; [|naive_solver]. intros (r & _ & Hc). by rewrite CHECK_FLAG_UNSET_same in Hc.
  - unfold selected. naive_solver.
Qed.

Lemma selected_at_set n rs j :
  selected_at (flag_info (λ f, SET_FLAG f BGP_INFO_SELECTED) n rs) j ↔
  selected_at rs j ∨ (n = j ∧ is_Some (rs !! j)).
Proof.
  rewrite selected_at_flag. unfold selected_at, selected. case_decide.
  - split; [naive_solver|]. intros [(r & Hr & _)|[_ [r Hr]]]; exists r; split; try done;
      by apply CHECK_FLAG_SET_same.
  - naive_solver.
Qed.

Lemma selected_at_attr_changed n rs j :
  selected_at (flag_info (λ f, UNSET_FLAG f BGP_INFO_ATTR_CHANGED) n rs) j ↔ selected_at rs j.
Proof.
  rewrite selected_at_flag. unfold selected_at, selected. case_decide; [|done].
  by setoid_rewrite (λ v, CHECK_FLAG_UNSET v BGP_INFO_ATTR_CHANGED BGP_INFO_SELECTED eq_refl).
Qed.

Lemma selected_at_dmed rs0 rs i : Forall2 dmed_same rs0 rs → selected_at rs i ↔ selected_at rs0 i.
Proof.
  intros H. unfold selected_at. split.
  - intros (r & Hr & Hs). destruct (Forall2_lookup_r _ _ _ _ _ H Hr) as (r0 & ? & Hsame).
    exists r0. by rewrite <- (dmed_same_selected _ _ Hsame).
  - intros (r & Hr & Hs). destruct (Forall2_lookup_l _ _ _ _ _ H Hr) as (r0 & ? & Hsame).
    exists r0. by rewrite (dmed_same_selected _ _ Hsame).
Qed.

(** [r'] is [r] with other flags. *)
Definition same_route (r r' : bgp_info) : Prop := r' = set_flags (i_flags r') r.

Lemma flag_info_same rs0 rs f i :
  Forall2 same_route rs0 rs → Forall2 same_route rs0 (flag_info f i rs).
Proof.
  intros H. unfold flag_info. revert i. induction H as [|r0 r ?? Hr]; intros [|i]; constructor; try done.
  unfold same_route. by rewrite Hr.
Qed.

Lemma announcements_Ok peers ac fib rs old sel :
  (∀ o, old = Some o → is_Some (rs !! o)) → (∀ n, sel = Some n → is_Some (rs !! n)) →
  ∃ acts, announcements peers ac fib rs old sel = Ok acts.
Proof.
  intros Ho Hn. unfold announcements, get_info.
  destruct sel as [n|]; [destruct (Hn n eq_refl) as [rn ->]|];
    (destruct old as [o|]; [destruct (Ho o eq_refl) as [ro ->]|]); by eexists.
Qed.

(** The preference of a route, smallest first, from its attributes: [type] is the type
    code of an attribute (5 is LOCAL_PREF, 4 MULTI_EXIT_DISC, 9 ORIGINATOR_ID, 10
    CLUSTER_LIST), [n] the number of an option of the router (2 is "med missing-as-worst",
    8 "as-path ignore"). *)
Definition has_attr (r : bgp_info) (type : Z) : bool := Z.testbit (at_flag (i_attr r)) (type - 1).
Definition has_option (b : bgp) (n : Z) : bool := Z.testbit (b_flags b) n.

Definition preference (b : bgp) (r : bgp_info) : list Z :=
  - at_weight (i_attr r)
  :: - (if has_attr r 5 then at_local_pref (i_attr r) else b_default_local_pref b)
  :: local_rank r
  :: if local_rank r =? 3 then
       (if has_option b 8 then 0 else a_count (at_aspath (i_attr r)))
       :: at_origin (i_attr r)
       :: (if has_attr r 4 then at_med (i_attr r) else if has_option b 2 then 2^32 - 1 else 0)
       :: peer_rank b r
       :: i_igpmetric r
       :: oldest_rank b r
       :: (if has_attr r 9 then at_originator_id (i_attr r) else p_remote_id (i_peer r))
       :: (if has_attr r 10 then at_cluster_length (i_attr r) else 0)
       :: su_key (p_su_remote (i_peer r))
     else replicate 25 0.

Lemma CHECK_FLAG_bit v n : 0 ≤ n → CHECK_FLAG v (2 ^ n) = Z.testbit v n.
Proof.
  intros Hn. unfold CHECK_FLAG.
  assert (Z.land v (2 ^ n) = if Z.testbit v n then 2 ^ n else 0) as ->.
  { apply Z.bits_inj'. intros m Hm. rewrite Z.land_spec, Z.pow2_bits_eqb by lia.
    destruct (Z.eqb_spec n m) as [<-|Hne]; [|rewrite andb_false_r].
    - destruct (Z.testbit v n); [by rewrite Z.pow2_bits_true by lia|by rewrite Z.bits_0].
    - destruct (Z.testbit v n); [by rewrite Z.pow2_bits_false|by rewrite Z.bits_0]. }
  destruct (Z.testbit v n); [|done]. pose proof (Z.pow_pos_nonneg 2 n). by rewrite (proj2 (Z.eqb_neq _ _)) by lia.
Qed.

(** The key of the comparison is the preference. *)
Lemma route_key_preference b r : route_key b r = preference b r.
Proof.
  unfold route_key, preference, normal_key, local_pref, router_id, cluster_length, bgp_med_value, has_attr, has_option, bgp_flag_check.
  unfold BGP_FLAG_ASPATH_IGNORE, BGP_FLAG_MED_MISSING_AS_WORST, ATTR_FLAG_BIT, BGP_ATTR_LOCAL_PREF, BGP_ATTR_MULTI_EXIT_DISC,
    BGP_ATTR_ORIGINATOR_ID, BGP_ATTR_CLUSTER_LIST. rewrite !Z.shiftl_1_l. by rewrite !CHECK_FLAG_bit by lia.
Qed.

(** The best route of a prefix: no other usable one is preferred. *)
Definition best (b : bgp) (rs : list bgp_info) (sel : option nat) : Prop :=
  match sel with
  | None => ∀ i r, ¬ candidate rs i r
  | Some n => ∃ rn, candidate rs n rn ∧
      ∀ i r, candidate rs i r → lex_le (preference b rn) (preference b r) = true
  end.

Lemma best_of_all b rs sel : best_of b rs (seq 0 (length rs)) sel → best b rs sel.
Proof.
  assert (Hseq : ∀ i r, candidate rs i r → i ∈ seq 0 (length rs)).
  { intros i r [Hi _]. apply elem_of_seq. apply lookup_lt_Some in Hi. lia. }
  destruct sel as [n|]; cbn [best best_of].
  - intros (_ & rn & Hc & Hmin). exists rn. split; [done|]. intros i r Hi.
    rewrite <- !route_key_preference. eapply Hmin; [|done]. by eapply Hseq.
  - intros H i r Hi. eapply H; [|done]. by eapply Hseq.
Qed.

Lemma flag_info_length f i rs : length (flag_info f i rs) = length rs.
Proof. apply length_alter. Qed.

Lemma is_Some_lt (rs : list bgp_info) i n : length rs = n → (i < n)%nat → is_Some (rs !! i).
Proof. intros <-. apply lookup_lt_is_Some_2. Qed.

(** The flags bgp_process leaves when the selection changes. *)
Definition mark_selected (old sel : option nat) (rs : list bgp_info) : list bgp_info :=
  let rs := match old with
            | Some o => flag_info (λ f, UNSET_FLAG f BGP_INFO_SELECTED) o rs
            | None => rs
            end in
  match sel with
  | Some n => flag_info (λ f, UNSET_FLAG f BGP_INFO_ATTR_CHANGED) n
                (flag_info (λ f, SET_FLAG f BGP_INFO_SELECTED) n rs)
  | None => rs
  end.

Lemma mark_selected_length old sel rs : length (mark_selected old sel rs) = length rs.
Proof. destruct old, sel; cbn; by rewrite ?flag_info_length. Qed.

Lemma mark_selected_same old sel rs0 rs :
  Forall2 same_route rs0 rs → Forall2 same_route rs0 (mark_selected old sel rs).
Proof. intros H. destruct old, sel; cbn; auto using flag_info_same. Qed.

Lemma mark_selected_at old sel rs :
  (∀ i, selected_at rs i ↔ old = Some i) → (∀ n, sel = Some n → is_Some (rs !! n)) →
  ∀ i, selected_at (mark_selected old sel rs) i ↔ sel = Some i.
Proof.
  intros Hold Hsel i. unfold mark_selected.
  set (rs1 := match old with Some o => flag_info _ o rs | None => rs end).
  assert (Hno : ∀ j, ¬ selected_at rs1 j).
  { intros j Hj. subst rs1. destruct old as [o|].
    - apply selected_at_unset in Hj as [Hj ?]. apply Hold in Hj. congruence.
    - by apply Hold in Hj. }
  assert (Hl : length rs1 = length rs) by (subst rs1; destruct old; by rewrite ?flag_info_length).
  destruct sel as [n|].
  - rewrite selected_at_attr_changed, selected_at_set.
    destruct (Hsel n eq_refl) as [rn Hrn]. apply lookup_lt_Some in Hrn.
    split; [naive_solver|]. intros [= ->]. right. split; [done|]. by eapply is_Some_lt.
  - split; [by intros ?%Hno|done].
Qed.

(** The part of bgp_process after the selection loop. *)
Lemma bgp_process_end b peers ac fib rs old sel rs1 :
  bgp_flag_check b BGP_FLAG_DETERMINISTIC_MED = false →
  select_loop b (seq 0 (length rs)) None None rs = Ok (old, sel, rs1) →
  (∀ o, old = Some o → is_Some (rs1 !! o)) → (∀ n, sel = Some n → is_Some (rs1 !! n)) →
  ∃ acts rs', bgp_process b peers ac fib rs = Ok (acts, rs') ∧
    (rs' = rs1 ∧ old = sel ∨ rs' = mark_selected old sel rs1).
Proof.
  intros Hdet Hloop Ho Hn. unfold bgp_process. rewrite Hdet. cbn [mbind res_bind]. rewrite Hloop.
  cbn [mbind res_bind]. fold (mark_selected old sel rs1).
  destruct (announcements_Ok peers ac fib (mark_selected old sel rs1) old sel) as [acts Hacts].
  { intros o Hlt%Ho. apply lookup_lt_is_Some in Hlt. eapply is_Some_lt; [apply mark_selected_length|done]. }
  { intros o Hlt%Hn. apply lookup_lt_is_Some in Hlt. eapply is_Some_lt; [apply mark_selected_length|done]. }
  destruct old as [o|].
  - destruct (Ho o eq_refl) as [ro Hro]. unfold get_info. rewrite Hro. cbn [of_option mbind res_bind].
    match goal with |- context [if bool_decide ?P && ?c then _ else _] =>
      destruct (bool_decide P && c) eqn:E end.
    + apply andb_true_iff in E as [E%bool_decide_eq_true _].
      do 2 eexists. split; [done|]. by left.
    + rewrite Hacts. do 2 eexists. split; [done|]. by right.
  - cbn [mbind res_bind]. rewrite Hacts. do 2 eexists. split; [done|]. by right.
Qed.

(** C12: with "always compare MED" and without deterministic MED, when at most one route
    of the prefix is marked as selected before, no received route comes from the router
    itself as its peer, and cost communities are ignored or no route has extended
    communities: bgp_process meets no fault and selects the best route.  Afterwards exactly
    the route is marked whose preference (weight, local preference, local origination, AS
    path length, origin, MED, peer type, IGP metric, age, router id, cluster length,
    neighbor address, in this order) no other usable route beats, and no route is marked
    when none is usable.  Nothing but the flags of routes changes. *)
Theorem bgp_process_selects b peers ac fib rs :
  bgp_flag_check b BGP_FLAG_ALWAYS_COMPARE_MED = true →
  bgp_flag_check b BGP_FLAG_DETERMINISTIC_MED = false →
  Forall (ordered_route b) rs → one_selected rs →
  ∃ sel acts rs', bgp_process b peers ac fib rs = Ok (acts, rs') ∧ best b rs sel ∧
    (∀ i, selected_at rs' i ↔ sel = Some i) ∧ Forall2 same_route rs rs'.
Proof.
  intros Hmed Hdet Hord Hone.
  destruct (select_loop_correct b rs Hmed Hdet Hord Hone (seq 0 (length rs)) [] None None rs)
    as (old & sel & rs1 & Hloop & Hsame & Hbest & Hold & Hin).
  { apply Forall_Forall2_diag, Forall_true, dmed_same_refl. }
  { apply NoDup_seq. }
  { apply Forall_seq. lia. }
  { by intros i r ?%not_elem_of_nil. }
  { by intros i ?%not_elem_of_nil. }
  { done. }
  cbn [app] in *. pose proof (Forall2_length _ _ _ Hsame) as Hlen.
  assert (Hrange : ∀ i, i ∈ seq 0 (length rs) → is_Some (rs1 !! i)).
  { intros i Hi%elem_of_seq. eapply is_Some_lt; [done|lia]. }
  assert (Hsel : ∀ n, sel = Some n → is_Some (rs1 !! n)).
  { intros n ->. apply Hrange, Hbest. }
  assert (Hold1 : ∀ i, selected_at rs1 i ↔ old = Some i).
  { intros i. rewrite (selected_at_dmed _ _ _ Hsame). split.
    - intros Hs. apply Hold; [|done]. destruct Hs as (r & ?%lookup_lt_Some & _). apply elem_of_seq. lia.
    - intros Ho. apply Hold; [by apply Hin|done]. }
  destruct (bgp_process_end b peers ac fib rs old sel rs1) as (acts & rs' & Hrun & Hrs'); try done.
  { intros o Ho. apply Hrange, Hin, Ho. }
  assert (Hroute : Forall2 same_route rs rs1).
  { eapply Forall2_impl; [exact Hsame|]. by intros ? ? [? _]. }
  exists sel, acts, rs'. split; [done|]. split; [by apply best_of_all|].
  destruct Hrs' as [[-> <-]| ->]; [done|].
  split; [by apply mark_selected_at|by apply mark_selected_same].
Qed.

(** ** Transitivity *)

#[local] Instance Ok_inj {A} : Inj (=) (=) (@Ok A).
Proof. by intros x y [= ->]. Qed.

(** With "always compare MED" the preference of bgp_info_cmp is transitive. *)
Theorem bgp_info_cmp_transitive b r1 r2 r3 :
  bgp_flag_check b BGP_FLAG_ALWAYS_COMPARE_MED = true →
  ordered_route b r1 → ordered_route b r2 → ordered_route b r3 →
  selected r1 && selected r2 = false → selected r2 && selected r3 = false →
  selected r1 && selected r3 = false →
  bgp_info_cmp b (Some r1) (Some r2) = Ok true →
  bgp_info_cmp b (Some r2) (Some r3) = Ok true →
  bgp_info_cmp b (Some r1) (Some r3) = Ok true.
Proof.
  intros Hm H1 H2 H3 S12 S23 S13. rewrite !bgp_info_cmp_lex by done. intros E1 E2.
  apply (inj Ok) in E1, E2. f_equal.
  pose proof (route_key_length _ _ H1). pose proof (route_key_length _ _ H2).
  pose proof (route_key_length _ _ H3).
  eapply lex_le_trans; [| |exact E1|exact E2]; congruence.
Qed.

(** ** Examples *)

(** A router of AS 65000 with the given flags, a neighbor of AS [as_], and a route
    from it. *)
Definition router (flags : Z) : bgp := Bgp 65000 0 0 [] 100 flags.

Definition neighbor (as_ id : Z) : peer :=
  Peer false as_ 65000 None id (Sockunion AF_INET [10; 0; 0; id] (replicate 16 0)).

Definition route_from (as_ id med metric flags : Z) (path : string) : bgp_info :=
  Info ZEBRA_ROUTE_BGP BGP_ROUTE_NORMAL (Z.lor BGP_INFO_VALID flags) (neighbor as_ id)
    (Attr (ATTR_FLAG_BIT BGP_ATTR_MULTI_EXIT_DISC) 0 med 0 0 0 0
       (match aspath_str2aspath path with Ok (Some a) => a | _ => aspath_new end) None)
    metric.

Definition route_a : bgp_info := Eval vm_compute in route_from 1 1 0 30 BGP_INFO_SELECTED "1 7".
Definition route_b : bgp_info := Eval vm_compute in route_from 1 2 10 10 0 "1 7".
Definition route_c : bgp_info := Eval vm_compute in route_from 2 3 5 20 0 "2 7".
Definition route_down : bgp_info := Eval vm_compute in route_from 2 4 0 1 BGP_INFO_DAMPED "2 7".

(** The position of the selected route. *)
Definition selection (r : res (list action * list bgp_info)) : option nat :=
  match r with
  | Ok (_, rs) => fst <$> list_find (λ r, selected r = true) rs
  | Fail _ => None
  end.

#[export] Instance ordered_route_dec b r : Decision (ordered_route b r).
Proof. unfold ordered_route. apply _. Defined.

Lemma one_selected_cons r rs :
  forallb (λ r, negb (selected r)) rs = true → one_selected (r :: rs).
Proof.
  intros H. assert (Hno : ∀ i, ¬ selected_at rs i).
  { intros i (x & Hx & Hs). rewrite forallb_forall in H.
    apply list_elem_of_lookup_2, list_elem_of_In, H in Hx. by rewrite Hs in Hx. }
  intros [|i] [|j] Hi Hj; [done|by destruct (Hno j)|by destruct (Hno i)..].
Qed.

Lemma bgp_process_selects_witness :
  ∃ sel acts rs', bgp_process (router BGP_FLAG_ALWAYS_COMPARE_MED) [0%nat] (λ _ _, true) true
      [route_a; route_b; route_c; route_down] = Ok (acts, rs') ∧
    best (router BGP_FLAG_ALWAYS_COMPARE_MED) [route_a; route_b; route_c; route_down] sel ∧
    (∀ i, selected_at rs' i ↔ sel = Some i) ∧
    Forall2 same_route [route_a; route_b; route_c; route_down] rs'.
Proof.
  apply (bgp_process_selects (router BGP_FLAG_ALWAYS_COMPARE_MED)).
  - reflexivity.
  - reflexivity.
  - repeat (apply Forall_cons_2; [by apply (bool_decide_eq_true_1 _); vm_compute|]). by apply Forall_nil_2.
  - by apply one_selected_cons.
Defined.

Lemma bgp_info_cmp_transitive_witness :
  bgp_info_cmp (router BGP_FLAG_ALWAYS_COMPARE_MED) (Some route_a) (Some route_b) = Ok true.
Proof.
  apply (bgp_info_cmp_transitive (router BGP_FLAG_ALWAYS_COMPARE_MED) route_a route_c route_b);
    try reflexivity; apply (bool_decide_eq_true_1 _); by vm_compute.
Defined.

(** Without "always compare MED" the preference has cycles: of three routes, two
    from the same neighbor AS, each is preferred to the next, so that the route
    bgp_process selects depends on the order in which the routes were received.
    Deterministic MED, which compares the routes of a neighbor AS first, selects
    the same route in every order. *)
Theorem med_cycle :
  let sel flags rs := selection (bgp_process (router flags) [] (λ _ _, true) true rs) in
  let a := set_flags BGP_INFO_VALID route_a in
  (bgp_info_cmp (router 0) (Some a) (Some route_b) = Ok true ∧
   bgp_info_cmp (router 0) (Some route_b) (Some route_c) = Ok true ∧
   bgp_info_cmp (router 0) (Some route_c) (Some a) = Ok true) ∧
  (sel 0 [a; route_b; route_c] = Some 2%nat ∧ sel 0 [route_b; route_c; a] = Some 2%nat) ∧
  (sel BGP_FLAG_DETERMINISTIC_MED [a; route_b; route_c] = Some 2%nat ∧
   sel BGP_FLAG_DETERMINISTIC_MED [route_b; route_c; a] = Some 1%nat ∧
   sel BGP_FLAG_DETERMINISTIC_MED [route_c; a; route_b] = Some 0%nat).
Proof. vm_compute. tauto. Qed.
