(* ===== verification/BgpAttr.v ===== *)
(** BGP UPDATE messages: bgpd/bgp_attr.c, bgp_nlri_sanity_check and bgp_nlri_parse of
    bgpd/bgp_route.c, bgp_update_receive of bgpd/bgp_packet.c.

    The input buffer is a stream of lib/stream.c, pointers into it are offsets.  A
    structure that bgpd shares through a hash table (AS paths, communities, cluster
    lists, unknown attributes) is its value here: interning gives back an equal one.
    A function that returns -1 gives [Refused] with the notifications it has sent.
    Addresses are their octets; IPv6 is compiled in. *)

From stdpp Require Import strings.
From S2P Require Import Prelude Prefix Text Stream StreamCalc Aspath Community Decision.

(** * Constants *)

Definition BGP_MAX_PACKET_SIZE : Z := 4096.
Definition BGP_ATTR_FLAG_OPTIONAL : Z := 0x80.
Definition BGP_ATTR_FLAG_TRANS : Z := 0x40.
Definition BGP_ATTR_FLAG_PARTIAL : Z := 0x20.
Definition BGP_ATTR_FLAG_EXTLEN : Z := 0x10.
Definition BGP_ATTR_MIN_LEN : Z := 2.

Definition BGP_ATTR_ORIGIN : Z := 1.
Definition BGP_ATTR_AS_PATH : Z := 2.
Definition BGP_ATTR_NEXT_HOP : Z := 3.
Definition BGP_ATTR_ATOMIC_AGGREGATE : Z := 6.
Definition BGP_ATTR_AGGREGATOR : Z := 7.
Definition BGP_ATTR_COMMUNITIES : Z := 8.
Definition BGP_ATTR_MP_REACH_NLRI : Z := 14.
Definition BGP_ATTR_MP_UNREACH_NLRI : Z := 15.
Definition BGP_ATTR_EXT_COMMUNITIES : Z := 16.

Definition BGP_ORIGIN_IGP : Z := 0.
Definition BGP_ORIGIN_EGP : Z := 1.
Definition BGP_ORIGIN_INCOMPLETE : Z := 2.

Definition BGP_NOTIFY_UPDATE_ERR : Z := 3.
Definition BGP_NOTIFY_FSM_ERR : Z := 5.
Definition BGP_NOTIFY_UPDATE_MAL_ATTR : Z := 1.
Definition BGP_NOTIFY_UPDATE_UNREC_ATTR : Z := 2.
Definition BGP_NOTIFY_UPDATE_MISS_ATTR : Z := 3.
Definition BGP_NOTIFY_UPDATE_ATTR_FLAG_ERR : Z := 4.
Definition BGP_NOTIFY_UPDATE_ATTR_LENG_ERR : Z := 5.
Definition BGP_NOTIFY_UPDATE_INVAL_ORIGIN : Z := 6.
Definition BGP_NOTIFY_UPDATE_INVAL_NETWORK : Z := 10.
Definition BGP_NOTIFY_UPDATE_MAL_AS_PATH : Z := 11.

Definition BGP_CONFIG_CLUSTER_ID : Z := 2^1.
Definition BGP_FLAG_NO_ENFORCE_FIRST_AS : Z := 2^6.
Definition PEER_FLAG_LOCAL_AS_NO_PREPEND : Z := 2^8.
Definition PEER_FLAG_SEND_COMMUNITY : Z := 2^0.
Definition PEER_FLAG_SEND_EXT_COMMUNITY : Z := 2^1.
Definition PEER_FLAG_RSERVER_CLIENT : Z := 2^4.
Definition PEER_FLAG_AS_PATH_UNCHANGED : Z := 2^6.

Definition SAFI_UNICAST : Z := 1.
Definition SAFI_MULTICAST : Z := 2.
Definition SAFI_MPLS_VPN : Z := 4.
Definition BGP_SAFI_VPNV4 : Z := 128.
Definition ECOMMUNITY_FLAG_NON_TRANSITIVE : Z := 0x40.
Definition ECOMMUNITY_SIZE : Z := 8.

(** * Data *)

Record attr := Attr {
  ar_flag : Z;
  ar_origin : Z;
  ar_nexthop : list Z;
  ar_med : Z;
  ar_local_pref : Z;
  ar_aggregator_as : Z;
  ar_aggregator_addr : list Z;
  ar_weight : Z;
  ar_originator_id : list Z;
  ar_cluster : option (list Z);
  ar_mp_nexthop_len : Z;
  ar_mp_nexthop_global : list Z;
  ar_mp_nexthop_local : list Z;
  ar_mp_nexthop_global_in : list Z;
  ar_aspath : option aspath;
  ar_community : option community;
  ar_ecommunity : option ecommunity;
  ar_transit : option (list Z);
}.

Definition set_ar_flag (v : Z) (x : attr) : attr :=
  Attr v (ar_origin x) (ar_nexthop x) (ar_med x) (ar_local_pref x) (ar_aggregator_as x)
    (ar_aggregator_addr x) (ar_weight x) (ar_originator_id x) (ar_cluster x) (ar_mp_nexthop_len x)
    (ar_mp_nexthop_global x) (ar_mp_nexthop_local x) (ar_mp_nexthop_global_in x) (ar_aspath x)
    (ar_community x) (ar_ecommunity x) (ar_transit x) .
Definition set_ar_origin (v : Z) (x : attr) : attr :=
  Attr (ar_flag x) v (ar_nexthop x) (ar_med x) (ar_local_pref x) (ar_aggregator_as x)
    (ar_aggregator_addr x) (ar_weight x) (ar_originator_id x) (ar_cluster x) (ar_mp_nexthop_len x)
    (ar_mp_nexthop_global x) (ar_mp_nexthop_local x) (ar_mp_nexthop_global_in x) (ar_aspath x)
    (ar_community x) (ar_ecommunity x) (ar_transit x) .
Definition set_ar_nexthop (v : list Z) (x : attr) : attr :=
  Attr (ar_flag x) (ar_origin x) v (ar_med x) (ar_local_pref x) (ar_aggregator_as x)
    (ar_aggregator_addr x) (ar_weight x) (ar_originator_id x) (ar_cluster x) (ar_mp_nexthop_len x)
    (ar_mp_nexthop_global x) (ar_mp_nexthop_local x) (ar_mp_nexthop_global_in x) (ar_aspath x)
    (ar_community x) (ar_ecommunity x) (ar_transit x) .
Definition set_ar_med (v : Z) (x : attr) : attr :=
  Attr (ar_flag x) (ar_origin x) (ar_nexthop x) v (ar_local_pref x) (ar_aggregator_as x)
    (ar_aggregator_addr x) (ar_weight x) (ar_originator_id x) (ar_cluster x) (ar_mp_nexthop_len x)
    (ar_mp_nexthop_global x) (ar_mp_nexthop_local x) (ar_mp_nexthop_global_in x) (ar_aspath x)
    (ar_community x) (ar_ecommunity x) (ar_transit x) .
Definition set_ar_local_pref (v : Z) (x : attr) : attr :=
  Attr (ar_flag x) (ar_origin x) (ar_nexthop x) (ar_med x) v (ar_aggregator_as x)
    (ar_aggregator_addr x) (ar_weight x) (ar_originator_id x) (ar_cluster x) (ar_mp_nexthop_len x)
    (ar_mp_nexthop_global x) (ar_mp_nexthop_local x) (ar_mp_nexthop_global_in x) (ar_aspath x)
    (ar_community x) (ar_ecommunity x) (ar_transit x) .
Definition set_ar_aggregator_as (v : Z) (x : attr) : attr :=
  Attr (ar_flag x) (ar_origin x) (ar_nexthop x) (ar_med x) (ar_local_pref x) v
    (ar_aggregator_addr x) (ar_weight x) (ar_originator_id x) (ar_cluster x) (ar_mp_nexthop_len x)
    (ar_mp_nexthop_global x) (ar_mp_nexthop_local x) (ar_mp_nexthop_global_in x) (ar_aspath x)
    (ar_community x) (ar_ecommunity x) (ar_transit x) .
Definition set_ar_aggregator_addr (v : list Z) (x : attr) : attr :=
  Attr (ar_flag x) (ar_origin x) (ar_nexthop x) (ar_med x) (ar_local_pref x) (ar_aggregator_as x)
    v (ar_weight x) (ar_originator_id x) (ar_cluster x) (ar_mp_nexthop_len x)
    (ar_mp_nexthop_global x) (ar_mp_nexthop_local x) (ar_mp_nexthop_global_in x) (ar_aspath x)
    (ar_community x) (ar_ecommunity x) (ar_transit x) .
Definition set_ar_originator_id (v : list Z) (x : attr) : attr :=
  Attr (ar_flag x) (ar_origin x) (ar_nexthop x) (ar_med x) (ar_local_pref x) (ar_aggregator_as x)
    (ar_aggregator_addr x) (ar_weight x) v (ar_cluster x) (ar_mp_nexthop_len x)
    (ar_mp_nexthop_global x) (ar_mp_nexthop_local x) (ar_mp_nexthop_global_in x) (ar_aspath x)
    (ar_community x) (ar_ecommunity x) (ar_transit x) .
Definition set_ar_cluster (v : option (list Z)) (x : attr) : attr :=
  Attr (ar_flag x) (ar_origin x) (ar_nexthop x) (ar_med x) (ar_local_pref x) (ar_aggregator_as x)
    (ar_aggregator_addr x) (ar_weight x) (ar_originator_id x) v (ar_mp_nexthop_len x)
    (ar_mp_nexthop_global x) (ar_mp_nexthop_local x) (ar_mp_nexthop_global_in x) (ar_aspath x)
    (ar_community x) (ar_ecommunity x) (ar_transit x) .
Definition set_ar_mp_nexthop_len (v : Z) (x : attr) : attr :=
  Attr (ar_flag x) (ar_origin x) (ar_nexthop x) (ar_med x) (ar_local_pref x) (ar_aggregator_as x)
    (ar_aggregator_addr x) (ar_weight x) (ar_originator_id x) (ar_cluster x) v
    (ar_mp_nexthop_global x) (ar_mp_nexthop_local x) (ar_mp_nexthop_global_in x) (ar_aspath x)
    (ar_community x) (ar_ecommunity x) (ar_transit x) .
Definition set_ar_mp_nexthop_global (v : list Z) (x : attr) : attr :=
  Attr (ar_flag x) (ar_origin x) (ar_nexthop x) (ar_med x) (ar_local_pref x) (ar_aggregator_as x)
    (ar_aggregator_addr x) (ar_weight x) (ar_originator_id x) (ar_cluster x) (ar_mp_nexthop_len x)
    v (ar_mp_nexthop_local x) (ar_mp_nexthop_global_in x) (ar_aspath x) (ar_community x)
    (ar_ecommunity x) (ar_transit x) .
Definition set_ar_mp_nexthop_local (v : list Z) (x : attr) : attr :=
  Attr (ar_flag x) (ar_origin x) (ar_nexthop x) (ar_med x) (ar_local_pref x) (ar_aggregator_as x)
    (ar_aggregator_addr x) (ar_weight x) (ar_originator_id x) (ar_cluster x) (ar_mp_nexthop_len x)
    (ar_mp_nexthop_global x) v (ar_mp_nexthop_global_in x) (ar_aspath x) (ar_community x)
    (ar_ecommunity x) (ar_transit x) .
Definition set_ar_mp_nexthop_global_in (v : list Z) (x : attr) : attr :=
  Attr (ar_flag x) (ar_origin x) (ar_nexthop x) (ar_med x) (ar_local_pref x) (ar_aggregator_as x)
    (ar_aggregator_addr x) (ar_weight x) (ar_originator_id x) (ar_cluster x) (ar_mp_nexthop_len x)
    (ar_mp_nexthop_global x) (ar_mp_nexthop_local x) v (ar_aspath x) (ar_community x)
    (ar_ecommunity x) (ar_transit x) .
Definition set_ar_aspath (v : option aspath) (x : attr) : attr :=
  Attr (ar_flag x) (ar_origin x) (ar_nexthop x) (ar_med x) (ar_local_pref x) (ar_aggregator_as x)
    (ar_aggregator_addr x) (ar_weight x) (ar_originator_id x) (ar_cluster x) (ar_mp_nexthop_len x)
    (ar_mp_nexthop_global x) (ar_mp_nexthop_local x) (ar_mp_nexthop_global_in x) v
    (ar_community x) (ar_ecommunity x) (ar_transit x) .
Definition set_ar_community (v : option community) (x : attr) : attr :=
  Attr (ar_flag x) (ar_origin x) (ar_nexthop x) (ar_med x) (ar_local_pref x) (ar_aggregator_as x)
    (ar_aggregator_addr x) (ar_weight x) (ar_originator_id x) (ar_cluster x) (ar_mp_nexthop_len x)
    (ar_mp_nexthop_global x) (ar_mp_nexthop_local x) (ar_mp_nexthop_global_in x) (ar_aspath x) v
    (ar_ecommunity x) (ar_transit x) .
Definition set_ar_ecommunity (v : option ecommunity) (x : attr) : attr :=
  Attr (ar_flag x) (ar_origin x) (ar_nexthop x) (ar_med x) (ar_local_pref x) (ar_aggregator_as x)
    (ar_aggregator_addr x) (ar_weight x) (ar_originator_id x) (ar_cluster x) (ar_mp_nexthop_len x)
    (ar_mp_nexthop_global x) (ar_mp_nexthop_local x) (ar_mp_nexthop_global_in x) (ar_aspath x)
    (ar_community x) v (ar_transit x) .
Definition set_ar_transit (v : option (list Z)) (x : attr) : attr :=
  Attr (ar_flag x) (ar_origin x) (ar_nexthop x) (ar_med x) (ar_local_pref x) (ar_aggregator_as x)
    (ar_aggregator_addr x) (ar_weight x) (ar_originator_id x) (ar_cluster x) (ar_mp_nexthop_len x)
    (ar_mp_nexthop_global x) (ar_mp_nexthop_local x) (ar_mp_nexthop_global_in x) (ar_aspath x)
    (ar_community x) (ar_ecommunity x) v.

Definition attr_zero : attr :=
  Attr 0 0 (replicate 4 0) 0 0 0 (replicate 4 0) 0 (replicate 4 0) None 0 (replicate 16 0) (replicate 16 0)
    (replicate 4 0) None None None None.

(** [attr->flag |= ATTR_FLAG_BIT (type)]. *)
Definition mark (type : Z) (a : attr) : attr := set_ar_flag (SET_FLAG (ar_flag a) (ATTR_FLAG_BIT type)) a.
Definition marked (type : Z) (a : attr) : bool := CHECK_FLAG (ar_flag a) (ATTR_FLAG_BIT type).

Record notify := Notify { nt_code : Z; nt_subcode : Z; nt_data : list Z }.

Inductive outcome (A : Type) :=
  | Fine (a : A)
  | Refused (n : list notify).
Arguments Fine {A} a.
Arguments Refused {A} n.

(** [nlri] is the offset of the first octet in the input buffer. *)
Record bgp_nlri := Nlri { nl_afi : Z; nl_safi : Z; nl_nlri : Z; nl_length : Z }.
Definition nlri_zero : bgp_nlri := Nlri 0 0 0 0.

Record bpeer := BPeer {
  bp_peer : peer;
  bp_change_local_as : Z;
  bp_flags : Z;
  bp_af_flags : Z → Z → Z;
  bp_afc : Z → Z → bool;
  bp_nsf : Z → Z → bool;
  bp_established : bool;
  bp_nexthop_v4 : list Z;
  bp_remote_id : list Z;
}.

Record bconf := BConf { bc_bgp : bgp; bc_router_id : list Z; bc_cluster_id : list Z }.

(** * Shared values *)

(** aspath_parse: the path that is interned for the attribute. *)
Definition aspath_parse (pnt : list Z) (length : Z) : res (option aspath) :=
  if negb (length mod 2 =? 0) then Ok None
  else aspath_hash_alloc (Aspath 0 length 0 (Some pnt) None).

(** community_parse: the community that is interned for the attribute. *)
Definition community_parse_value (pnt : list Z) (length : Z) : res (option community) :=
  if negb (length mod 4 =? 0) then Ok None
  else community_uniq_sort (Some (Community 0 (length / 4) (Some pnt) None)).

(** The loop of ecommunity_add_val: the place of a new value, or [None] when the value
    is there. *)
Fixpoint ecom_place (n : nat) (c : Z) (val eval : list Z) : res (option Z) :=
  match n with
  | O => Ok (Some c)
  | S n =>
      p ← get_bytes val (c * ECOMMUNITY_SIZE) ECOMMUNITY_SIZE;
      let ret := in6addr_cmp p eval in
      if ret =? 0 then Ok None
      else if 0 <? ret then Ok (Some c)
      else ecom_place n (c + 1) val eval
  end.

(** [val] is null as long as the structure is empty. *)
Definition ecommunity_add_val (e : ecommunity) (eval : list Z) : res ecommunity :=
  if ec_size e =? 0 then Ok (Ecommunity 1 eval)
  else
    c ← ecom_place (Z.to_nat (ec_size e)) 0 (ec_val e) eval;
    match c with
    | None => Ok e
    | Some c =>
        let i := Z.to_nat (c * ECOMMUNITY_SIZE) in
        Ok (Ecommunity (ec_size e + 1) (take i (ec_val e) ++ eval ++ drop i (ec_val e)))
    end.

Fixpoint ecom_uniq_loop (n : nat) (i : Z) (val : list Z) (new : ecommunity) : res ecommunity :=
  match n with
  | O => Ok new
  | S n =>
      eval ← get_bytes val (i * ECOMMUNITY_SIZE) ECOMMUNITY_SIZE;
      new ← ecommunity_add_val new eval;
      ecom_uniq_loop n (i + 1) val new
  end.

Definition ecommunity_parse (pnt : list Z) (length : Z) : res (option ecommunity) :=
  if negb (length mod ECOMMUNITY_SIZE =? 0) then Ok None
  else
    e ← ecom_uniq_loop (Z.to_nat (length / ECOMMUNITY_SIZE)) 0 pnt (Ecommunity 0 []);
    Ok (Some e).

(** cluster_parse: the list that is interned. *)
Definition cluster_parse (pnt : list Z) (length : Z) : res (list Z) := get_bytes pnt 0 length.

Fixpoint cluster_loop (n : nat) (i : Z) (cluster originator : list Z) : res bool :=
  match n with
  | O => Ok false
  | S n =>
      a ← get_bytes cluster (i * 4) 4;
      if bool_decide (a = originator) then Ok true else cluster_loop n (i + 1) cluster originator
  end.

Definition cluster_loop_check (cluster originator : list Z) : res bool :=
  cluster_loop (length cluster / 4) 0 cluster originator.

(** * Receiving attributes *)

Definition header_len (flag : Z) : Z := if CHECK_FLAG flag BGP_ATTR_FLAG_EXTLEN then 4 else 3.

Definition refuse {A} (subcode : Z) : ST stream (outcome A) :=
  mret (Refused [Notify BGP_NOTIFY_UPDATE_ERR subcode []]).

(** bgp_notify_send_with_data, with the octets of the attribute. *)
Definition refuse_with {A} (subcode startp total : Z) : ST stream (outcome A) :=
  s ← st_get;
  d ← st_lift (get_bytes (s_data s) startp total);
  mret (Refused [Notify BGP_NOTIFY_UPDATE_ERR subcode d]).

Definition forward (n : Z) : ST stream unit := s ← st_get; st_put (stream_forward n s).

Section Receive.
Context (bc : bconf) (pr : bpeer).

Definition sort_is (t : peer_type) : bool := bool_decide (peer_sort (bc_bgp bc) (bp_peer pr) = t).

Definition bgp_attr_origin (length : Z) (a : attr) (flag startp : Z) : ST stream (outcome attr) :=
  let total := u16 (length + header_len flag) in
  if negb (flag =? BGP_ATTR_FLAG_TRANS) then refuse_with BGP_NOTIFY_UPDATE_ATTR_FLAG_ERR startp total
  else if negb (length =? 1) then refuse_with BGP_NOTIFY_UPDATE_ATTR_LENG_ERR startp total
  else
    origin ← stream_getc;
    if negb (origin =? BGP_ORIGIN_IGP) && negb (origin =? BGP_ORIGIN_EGP) && negb (origin =? BGP_ORIGIN_INCOMPLETE)
    then refuse_with BGP_NOTIFY_UPDATE_INVAL_ORIGIN startp total
    else mret (Fine (mark BGP_ATTR_ORIGIN (set_ar_origin origin a))).

(** The flags of a well-known attribute. *)
Definition not_well_known (flag : Z) : bool :=
  CHECK_FLAG flag BGP_ATTR_FLAG_OPTIONAL || negb (CHECK_FLAG flag BGP_ATTR_FLAG_TRANS).

Definition bgp_attr_aspath (length : Z) (a : attr) (flag startp : Z) : ST stream (outcome attr) :=
  let total := u16 (length + header_len flag) in
  if not_well_known flag then refuse_with BGP_NOTIFY_UPDATE_ATTR_FLAG_ERR startp total
  else
    s ← st_get;
    path ← st_lift (aspath_parse (stream_pnt s) length);
    match path with
    | None => refuse BGP_NOTIFY_UPDATE_MAL_AS_PATH
    | Some path =>
        first ← (if negb (bgp_flag_check (bc_bgp bc) BGP_FLAG_NO_ENFORCE_FIRST_AS) && sort_is BGP_PEER_EBGP
                 then st_lift (aspath_firstas_check (Some path) (p_as (bp_peer pr)))
                 else mret true);
        if negb first then refuse BGP_NOTIFY_UPDATE_MAL_AS_PATH
        else
          path ← (if negb (bp_change_local_as pr =? 0) && negb (CHECK_FLAG (bp_flags pr) PEER_FLAG_LOCAL_AS_NO_PREPEND)
                  then
                    path ← st_lift (aspath_dup path);
                    st_lift (aspath_add_seq path (bp_change_local_as pr))
                  else mret path);
          forward length;;
          mret (Fine (mark BGP_ATTR_AS_PATH (set_ar_aspath (Some path) a)))
    end.

Definition bgp_attr_nexthop (length : Z) (a : attr) (flag startp : Z) : ST stream (outcome attr) :=
  let total := u16 (length + header_len flag) in
  if not_well_known flag then refuse_with BGP_NOTIFY_UPDATE_ATTR_FLAG_ERR startp total
  else if negb (length =? 4) then refuse_with BGP_NOTIFY_UPDATE_ATTR_LENG_ERR startp total
  else
    nexthop ← stream_get_ipv4;
    mret (Fine (mark BGP_ATTR_NEXT_HOP (set_ar_nexthop nexthop a))).

Definition bgp_attr_med (length : Z) (a : attr) (flag startp : Z) : ST stream (outcome attr) :=
  let total := u16 (length + header_len flag) in
  if negb (length =? 4) then refuse_with BGP_NOTIFY_UPDATE_ATTR_LENG_ERR startp total
  else
    med ← stream_getl;
    mret (Fine (mark BGP_ATTR_MULTI_EXIT_DISC (set_ar_med med a))).

Definition bgp_attr_local_pref (length : Z) (a : attr) : ST stream (outcome attr) :=
  if sort_is BGP_PEER_EBGP then forward length;; mret (Fine a)
  else
    local_pref ← (if length =? 4 then stream_getl else mret 0);
    mret (Fine (mark BGP_ATTR_LOCAL_PREF (set_ar_local_pref local_pref a))).

Definition bgp_attr_atomic (length : Z) (a : attr) : ST stream (outcome attr) :=
  if negb (length =? 0) then refuse BGP_NOTIFY_UPDATE_ATTR_LENG_ERR
  else mret (Fine (mark BGP_ATTR_ATOMIC_AGGREGATE a)).

Definition bgp_attr_aggregator (length : Z) (a : attr) : ST stream (outcome attr) :=
  if negb (length =? 6) then refuse BGP_NOTIFY_UPDATE_ATTR_LENG_ERR
  else
    as_ ← stream_getw;
    addr ← stream_get_ipv4;
    mret (Fine (mark BGP_ATTR_AGGREGATOR (set_ar_aggregator_addr addr (set_ar_aggregator_as as_ a)))).

Definition bgp_attr_community (length : Z) (a : attr) : ST stream (outcome attr) :=
  community ← (if length =? 0 then mret None
               else
                 s ← st_get;
                 c ← st_lift (community_parse_value (stream_pnt s) length);
                 forward length;;
                 mret c);
  mret (Fine (mark BGP_ATTR_COMMUNITIES (set_ar_community community a))).

Definition bgp_attr_originator_id (length : Z) (a : attr) : ST stream (outcome attr) :=
  if negb (length =? 4) then refuse BGP_NOTIFY_UPDATE_ATTR_LENG_ERR
  else
    id ← stream_get_ipv4;
    mret (Fine (mark BGP_ATTR_ORIGINATOR_ID (set_ar_originator_id id a))).

Definition bgp_attr_cluster_list (length : Z) (a : attr) : ST stream (outcome attr) :=
  if negb (length mod 4 =? 0) then refuse BGP_NOTIFY_UPDATE_ATTR_LENG_ERR
  else
    s ← st_get;
    cluster ← st_lift (cluster_parse (stream_pnt s) length);
    forward length;;
    mret (Fine (mark BGP_ATTR_CLUSTER_LIST (set_ar_cluster (Some cluster) a))).

Definition bgp_attr_ext_communities (length : Z) (a : attr) : ST stream (outcome attr) :=
  ecommunity ← (if length =? 0 then mret None
                else
                  s ← st_get;
                  e ← st_lift (ecommunity_parse (stream_pnt s) length);
                  forward length;;
                  mret e);
  mret (Fine (mark BGP_ATTR_EXT_COMMUNITIES (set_ar_ecommunity ecommunity a))).

(** [SET_FLAG] of the flag octet in the buffer, and the octets of the attribute behind
    those of earlier ones. *)
Definition bgp_attr_unknown (a : attr) (flag length startp : Z) : ST stream (outcome attr) :=
  forward length;;
  let total := u16 (length + header_len flag) in
  if negb (CHECK_FLAG flag BGP_ATTR_FLAG_OPTIONAL) then refuse_with BGP_NOTIFY_UPDATE_UNREC_ATTR startp total
  else if negb (CHECK_FLAG flag BGP_ATTR_FLAG_TRANS) then mret (Fine a)
  else
    s ← st_get;
    c ← st_lift (get_byte (s_data s) startp);
    d ← st_lift (set_byte (s_data s) startp (SET_FLAG c BGP_ATTR_FLAG_PARTIAL));
    st_put (set_data d s);;
    bs ← st_lift (get_bytes d startp total);
    mret (Fine (set_ar_transit (Some (default [] (ar_transit a) ++ bs)) a)).

(** ** Reachability *)

Fixpoint sanity_loop (fuel : nat) (d : list Z) (afi pnt fin : Z) : res bool :=
  if pnt <? fin then
    match fuel with
    | O => Fail OutOfFuel
    | S fuel =>
        prefixlen ← get_byte d pnt;
        let pnt := pnt + 1 in
        if (afi =? AFI_IP) && (32 <? prefixlen) || (afi =? AFI_IP6) && (128 <? prefixlen) then Ok false
        else
          let psize := PSIZE prefixlen in
          if fin <? pnt + psize then Ok false
          else sanity_loop fuel d afi (pnt + psize) fin
    end
  else Ok (pnt =? fin).

(** [false] when the octets are refused, with a notification of an invalid network. *)
Definition bgp_nlri_sanity_check (afi pnt length : Z) : ST stream bool :=
  s ← st_get;
  st_lift (sanity_loop (S (Z.to_nat length)) (s_data s) afi pnt (pnt + length)).

Definition IN6_IS_ADDR_LINKLOCAL (a : list Z) : res bool :=
  a0 ← get_byte a 0;
  a1 ← get_byte a 1;
  Ok ((a0 =? 0xfe) && (Z.land a1 0xc0 =? 0x80)).

(** [while (snpa_num--)]. *)
Fixpoint skip_snpa (n : nat) : ST stream unit :=
  match n with
  | O => mret tt
  | S n =>
      snpa_len ← stream_getc;
      forward (Z.shiftr (snpa_len + 1) 1);;
      skip_snpa n
  end.

(** The nexthop of a multiprotocol attribute; [None] for a length that is not known. *)
Definition mp_nexthop (a : attr) : ST stream (option attr) :=
  let len := ar_mp_nexthop_len a in
  if len =? 4 then
    h ← stream_get 4; mret (Some (set_ar_mp_nexthop_global_in h a))
  else if len =? 12 then
    _ ← stream_getl;
    _ ← stream_getl;
    h ← stream_get 4; mret (Some (set_ar_mp_nexthop_global_in h a))
  else if len =? 16 then
    h ← stream_get 16; mret (Some (set_ar_mp_nexthop_global h a))
  else if len =? 32 then
    g ← stream_get 16;
    l ← stream_get 16;
    let a := set_ar_mp_nexthop_local l (set_ar_mp_nexthop_global g a) in
    ll ← st_lift (IN6_IS_ADDR_LINKLOCAL l);
    mret (Some (if (ll : bool) then a else set_ar_mp_nexthop_len 16 a))
  else mret None.

(** The octets up to [lim], which are checked except for VPN routes. *)
Definition take_nlri (afi safi lim : Z) : ST stream (outcome bgp_nlri) :=
  s ← st_get;
  let pnt := s_getp s in
  let nlri_len := u16 (lim - pnt) in
  ok ← (if safi =? BGP_SAFI_VPNV4 then mret true else bgp_nlri_sanity_check afi pnt nlri_len);
  if negb ok then refuse BGP_NOTIFY_UPDATE_INVAL_NETWORK
  else
    forward nlri_len;;
    mret (Fine (Nlri afi safi pnt nlri_len)).

Definition bgp_mp_reach_parse (length : Z) (a : attr) : ST stream (outcome (attr * bgp_nlri)) :=
  s ← st_get;
  let lim := s_getp s + length in
  afi ← stream_getw;
  safi ← stream_getc;
  len ← stream_getc;
  a ← mp_nexthop (set_ar_mp_nexthop_len len a);
  match a with
  | None => mret (Refused [])
  | Some a =>
      snpa_num ← stream_getc;
      skip_snpa (Z.to_nat snpa_num);;
      n ← take_nlri afi safi lim;
      mret match n with Fine n => Fine (a, n) | Refused e => Refused e end
  end.

Definition bgp_mp_unreach_parse (length : Z) : ST stream (outcome bgp_nlri) :=
  s ← st_get;
  let lim := s_getp s + length in
  afi ← stream_getw;
  safi ← stream_getc;
  take_nlri afi safi lim.

(** ** The list of attributes *)

Definition BITMAP_NBBY : Z := 8.
Definition BGP_ATTR_BITMAP_SIZE : Z := 32.

Definition CHECK_BITMAP (map : list Z) (num : Z) : res bool :=
  c ← get_byte map (num / BITMAP_NBBY);
  Ok (CHECK_FLAG c (Z.shiftl 1 (num mod BITMAP_NBBY))).
Definition SET_BITMAP (map : list Z) (num : Z) : res (list Z) :=
  c ← get_byte map (num / BITMAP_NBBY);
  set_byte map (num / BITMAP_NBBY) (SET_FLAG c (Z.shiftl 1 (num mod BITMAP_NBBY))).

(** What the attributes read so far have given. *)
Record parsed := Parsed { pd_attr : attr; pd_update : bgp_nlri; pd_withdraw : bgp_nlri }.

Definition with_attr (p : parsed) (o : outcome attr) : outcome parsed :=
  match o with Fine a => Fine (Parsed a (pd_update p) (pd_withdraw p)) | Refused e => Refused e end.

(** The switch over the types. *)
Definition attr_value (type flag length startp : Z) (p : parsed) : ST stream (outcome parsed) :=
  let a := pd_attr p in
  if type =? BGP_ATTR_MP_REACH_NLRI then
    o ← bgp_mp_reach_parse length a;
    mret match o with Fine (a, n) => Fine (Parsed a n (pd_withdraw p)) | Refused e => Refused e end
  else if type =? BGP_ATTR_MP_UNREACH_NLRI then
    o ← bgp_mp_unreach_parse length;
    mret match o with Fine n => Fine (Parsed a (pd_update p) n) | Refused e => Refused e end
  else
    o ← (if type =? BGP_ATTR_ORIGIN then bgp_attr_origin length a flag startp
         else if type =? BGP_ATTR_AS_PATH then bgp_attr_aspath length a flag startp
         else if type =? BGP_ATTR_NEXT_HOP then bgp_attr_nexthop length a flag startp
         else if type =? BGP_ATTR_MULTI_EXIT_DISC then bgp_attr_med length a flag startp
         else if type =? BGP_ATTR_LOCAL_PREF then bgp_attr_local_pref length a
         else if type =? BGP_ATTR_ATOMIC_AGGREGATE then bgp_attr_atomic length a
         else if type =? BGP_ATTR_AGGREGATOR then bgp_attr_aggregator length a
         else if type =? BGP_ATTR_COMMUNITIES then bgp_attr_community length a
         else if type =? BGP_ATTR_ORIGINATOR_ID then bgp_attr_originator_id length a
         else if type =? BGP_ATTR_CLUSTER_LIST then bgp_attr_cluster_list length a
         else if type =? BGP_ATTR_EXT_COMMUNITIES then bgp_attr_ext_communities length a
         else bgp_attr_unknown a flag length startp);
    mret (with_attr p o).

Fixpoint attr_loop (fuel : nat) (endp : Z) (seen : list Z) (p : parsed) : ST stream (outcome parsed) :=
  s ← st_get;
  let startp := s_getp s in
  if startp <? endp then
    match fuel with
    | O => st_lift (Fail OutOfFuel)
    | S fuel =>
        if endp - startp <? BGP_ATTR_MIN_LEN then refuse BGP_NOTIFY_UPDATE_ATTR_LENG_ERR
        else
          flag ← stream_getc;
          type ← stream_getc;
          length ← (if CHECK_FLAG flag BGP_ATTR_FLAG_EXTLEN then stream_getw else stream_getc);
          twice ← st_lift (CHECK_BITMAP seen type);
          if (twice : bool) then refuse BGP_NOTIFY_UPDATE_MAL_ATTR
          else
            seen ← st_lift (SET_BITMAP seen type);
            s ← st_get;
            let attr_endp := s_getp s + length in
            if endp <? attr_endp then refuse BGP_NOTIFY_UPDATE_ATTR_LENG_ERR
            else
              o ← attr_value type flag length startp p;
              match o with
              | Refused e => mret (Refused e)
              | Fine p =>
                  s ← st_get;
                  if negb (s_getp s =? attr_endp) then refuse BGP_NOTIFY_UPDATE_ATTR_LENG_ERR
                  else attr_loop fuel endp seen p
              end
    end
  else if negb (startp =? endp) then refuse BGP_NOTIFY_UPDATE_ATTR_LENG_ERR
  else mret (Fine p).

Definition bgp_attr_parse (size : Z) (p : parsed) : ST stream (outcome parsed) :=
  s ← st_get;
  attr_loop (S (Z.to_nat size)) (s_getp s + size) (replicate (Z.to_nat BGP_ATTR_BITMAP_SIZE) 0) p.

(** bgp_attr_check: the last missing attribute is reported. *)
Definition bgp_attr_check (a : attr) : option Z :=
  let type := 0 in
  let type := if negb (marked BGP_ATTR_ORIGIN a) then BGP_ATTR_ORIGIN else type in
  let type := if negb (marked BGP_ATTR_AS_PATH a) then BGP_ATTR_AS_PATH else type in
  let type := if negb (marked BGP_ATTR_NEXT_HOP a) then BGP_ATTR_NEXT_HOP else type in
  let type := if sort_is BGP_PEER_IBGP && negb (marked BGP_ATTR_LOCAL_PREF a) then BGP_ATTR_LOCAL_PREF else type in
  if negb (type =? 0) then Some type else None.
(** * The UPDATE message *)

(** What bgp_update_receive asks of the rest of bgpd. *)
Inductive call :=
  | bgp_update (p : prefix) (a : attr) (afi safi : Z)
  | bgp_withdraw (p : prefix) (afi safi : Z)
  | bgp_nlri_parse_vpnv4 (a : option attr) (n : bgp_nlri)
  | end_of_rib (afi safi : Z)
  | bgp_clear_stale_route (afi safi : Z)
  | Receive_UPDATE_message.

Record urun := URun { ur_ibuf : stream; ur_calls : list call; ur_notifies : list notify }.

Definition on_input {A} (m : ST stream A) : ST urun A := λ x,
  '(a, s) ← m (ur_ibuf x);
  Ok (a, URun s (ur_calls x) (ur_notifies x)).
Definition emit (c : call) : ST urun unit := λ x, Ok (tt, URun (ur_ibuf x) (ur_calls x ++ [c]) (ur_notifies x)).
Definition notified (n : list notify) : ST urun unit := λ x, Ok (tt, URun (ur_ibuf x) (ur_calls x) (ur_notifies x ++ n)).
Definition update_err (subcode : Z) : notify := Notify BGP_NOTIFY_UPDATE_ERR subcode [].

(** What bgp_update and bgp_withdraw return, after the calls made so far. *)
Context (answer : list call → call → Z).

Definition IN_CLASSD (a : list Z) : res bool :=
  b ← get_byte a 0;
  Ok (Z.land b 0xf0 =? 0xe0).

(** The loop of bgp_nlri_parse.  [struct prefix] has room for an IPv6 address. *)
Fixpoint nlri_loop (fuel : nat) (d : list Z) (a : option attr) (n : bgp_nlri) (pnt lim : Z) : ST urun Z :=
  if pnt <? lim then
    match fuel with
    | O => st_lift (Fail OutOfFuel)
    | S fuel =>
        plen ← st_lift (get_byte d pnt);
        let pnt := pnt + 1 in
        if (nl_afi n =? AFI_IP) && (32 <? plen) || (nl_afi n =? AFI_IP6) && (128 <? plen) then mret (-1)
        else
          let psize := PSIZE plen in
          if lim <? pnt + psize then mret (-1)
          else
            bs ← st_lift (get_bytes d pnt psize);
            addr ← st_lift (put_bytes (replicate 16 0) 0 bs);
            let p := Prefix (afi2family (nl_afi n)) plen addr in
            multicast ← st_lift (if (nl_afi n =? AFI_IP) && (nl_safi n =? SAFI_UNICAST) then IN_CLASSD addr else Ok false);
            if (multicast : bool) then notified [update_err BGP_NOTIFY_UPDATE_INVAL_NETWORK];; mret (-1)
            else
              linklocal ← st_lift (if (nl_afi n =? AFI_IP6) && (nl_safi n =? SAFI_UNICAST)
                                   then IN6_IS_ADDR_LINKLOCAL addr else Ok false);
              if (linklocal : bool) then nlri_loop fuel d a n (pnt + psize) lim
              else
                let c := match a with
                         | Some a => bgp_update p a (nl_afi n) (nl_safi n)
                         | None => bgp_withdraw p (nl_afi n) (nl_safi n)
                         end in
                x ← st_get;
                emit c;;
                if answer (ur_calls x) c <? 0 then mret (-1)
                else nlri_loop fuel d a n (pnt + psize) lim
    end
  else mret (if pnt =? lim then 0 else -1).

Definition bgp_nlri_parse (a : option attr) (n : bgp_nlri) : ST urun Z :=
  if negb (bp_established pr) then mret 0
  else
    x ← st_get;
    nlri_loop (S (Z.to_nat (nl_length n))) (s_data (ur_ibuf x)) a n (nl_nlri n) (nl_nlri n + nl_length n).

(** The withdrawn routes and the reachable routes outside of the attributes:
    [bgp_nlri_sanity_check], and the structure for bgp_nlri_parse. *)
Definition plain_nlri (len : Z) : ST urun (option bgp_nlri) :=
  x ← st_get;
  let pnt := s_getp (ur_ibuf x) in
  ok ← on_input (bgp_nlri_sanity_check AFI_IP pnt len);
  if negb ok then notified [update_err BGP_NOTIFY_UPDATE_INVAL_NETWORK];; mret None
  else
    on_input (forward len);;
    mret (Some (Nlri AFI_IP SAFI_UNICAST pnt len)).

Definition nlri_is (afi safi : Z) (n : bgp_nlri) : bool := (nl_afi n =? afi) && (nl_safi n =? safi).

(** A family with the routes of the multiprotocol attributes, and its end-of-RIB. *)
Definition mp_family (afi safi : Z) (mp : parsed) : ST urun unit :=
  (if negb (nl_length (pd_update mp) =? 0) && nlri_is afi safi (pd_update mp)
   then _ ← bgp_nlri_parse (Some (pd_attr mp)) (pd_update mp); mret tt else mret tt);;
  (if negb (nl_length (pd_withdraw mp) =? 0) && nlri_is afi safi (pd_withdraw mp)
   then _ ← bgp_nlri_parse None (pd_withdraw mp); mret tt else mret tt).

Definition eor (afi safi : Z) : ST urun unit :=
  emit (end_of_rib afi safi);;
  if bp_nsf pr afi safi then emit (bgp_clear_stale_route afi safi) else mret tt.

Definition mp_family_eor (afi safi : Z) (withdraw_len : Z) (mp : parsed) : ST urun unit :=
  if bp_afc pr afi safi then
    mp_family afi safi mp;;
    (if (withdraw_len =? 0) && nlri_is afi safi (pd_withdraw mp) && (nl_length (pd_withdraw mp) =? 0)
     then eor afi safi else mret tt)
  else mret tt.

(** Everything after the message has been taken apart.  [false] when the well-known
    attributes are incomplete. *)
Definition update_process (withdraw_len attribute_len : Z) (withdraw update : bgp_nlri) (mp : parsed) : ST urun bool :=
  ok ← (if bp_afc pr AFI_IP SAFI_UNICAST then
    (if negb (nl_length withdraw =? 0) then _ ← bgp_nlri_parse None withdraw; mret tt else mret tt);;
    missing ← (if negb (nl_length update =? 0) then
                 match bgp_attr_check (pd_attr mp) with
                 | Some type => notified [Notify BGP_NOTIFY_UPDATE_ERR BGP_NOTIFY_UPDATE_MISS_ATTR [type]];; mret true
                 | None => _ ← bgp_nlri_parse (Some (pd_attr mp)) update; mret false
                 end
               else mret false);
    if (missing : bool) then mret false
    else
      mp_family AFI_IP SAFI_UNICAST mp;;
      (if (attribute_len =? 0) && (withdraw_len =? 0) then eor AFI_IP SAFI_UNICAST else mret tt);;
      mret true
   else mret true);
  if negb ok then mret false
  else
    mp_family_eor AFI_IP SAFI_MULTICAST withdraw_len mp;;
    mp_family_eor AFI_IP6 SAFI_UNICAST withdraw_len mp;;
    mp_family_eor AFI_IP6 SAFI_MULTICAST withdraw_len mp;;
    (if bp_afc pr AFI_IP SAFI_MPLS_VPN then
       (if negb (nl_length (pd_update mp) =? 0) && nlri_is AFI_IP BGP_SAFI_VPNV4 (pd_update mp)
        then emit (bgp_nlri_parse_vpnv4 (Some (pd_attr mp)) (pd_update mp)) else mret tt);;
       (if negb (nl_length (pd_withdraw mp) =? 0) && nlri_is AFI_IP BGP_SAFI_VPNV4 (pd_withdraw mp)
        then emit (bgp_nlri_parse_vpnv4 None (pd_withdraw mp)) else mret tt)
     else mret tt);;
    mret true.

Definition refuse_update (subcode : Z) : ST urun Z := notified [update_err subcode];; mret (-1).

(** bgp_update_receive: the result of the function. *)
Definition bgp_update_receive (size : Z) : ST urun Z :=
  if negb (bp_established pr) then notified [Notify BGP_NOTIFY_FSM_ERR 0 []];; mret (-1)
  else
    x ← st_get;
    let fin := s_getp (ur_ibuf x) + size in
    if fin <? s_getp (ur_ibuf x) + 2 then refuse_update BGP_NOTIFY_UPDATE_MAL_ATTR
    else
      withdraw_len ← on_input stream_getw;
      x ← st_get;
      if fin <? s_getp (ur_ibuf x) + withdraw_len then refuse_update BGP_NOTIFY_UPDATE_MAL_ATTR
      else
        withdraw ← (if 0 <? withdraw_len then plain_nlri withdraw_len else mret (Some nlri_zero));
        match withdraw with
        | None => mret (-1)
        | Some withdraw =>
            x ← st_get;
            if fin <? s_getp (ur_ibuf x) + 2 then refuse_update BGP_NOTIFY_UPDATE_MAL_ATTR
            else
              attribute_len ← on_input stream_getw;
              x ← st_get;
              if fin <? s_getp (ur_ibuf x) + attribute_len then refuse_update BGP_NOTIFY_UPDATE_MAL_ATTR
              else
                let none := Parsed attr_zero nlri_zero nlri_zero in
                mp ← (if negb (attribute_len =? 0) then on_input (bgp_attr_parse attribute_len none)
                      else mret (Fine none));
                match mp with
                | Refused e => notified e;; mret (-1)
                | Fine mp =>
                    x ← st_get;
                    let update_len := u16 (fin - s_getp (ur_ibuf x)) in
                    update ← (if negb (update_len =? 0) then plain_nlri update_len else mret (Some nlri_zero));
                    match update with
                    | None => mret (-1)
                    | Some update =>
                        ok ← update_process withdraw_len attribute_len withdraw update mp;
                        if negb ok then mret (-1)
                        else emit Receive_UPDATE_message;; mret 0
                    end
                end
        end.

End Receive.

(** * Sending attributes *)

(** The header of an attribute whose length may need two octets. *)
Definition put_header (flags type len : Z) : ST stream unit :=
  if 255 <? len then
    stream_putc (Z.lor flags BGP_ATTR_FLAG_EXTLEN);; stream_putc type;; stream_putw len;; mret tt
  else
    stream_putc flags;; stream_putc type;; stream_putc len;; mret tt.

(** [sizep], the octets, and [stream_putc_at (s, sizep, putp - sizep - 1)]. *)
Definition put_sized {A} (body : ST stream A) : ST stream unit :=
  s ← st_get;
  let sizep := stream_get_putp s in
  stream_putc 0;;
  body;;
  s ← st_get;
  stream_putc_at sizep (stream_get_putp s - sizep - 1);;
  mret tt.

Section Send.
Context (bc : bconf).

Definition sort_of (p : bpeer) : peer_type := peer_sort (bc_bgp bc) (bp_peer p).

(** The AS path for the peer: [from] is where the route was learned. *)
Definition packet_aspath (pr : bpeer) (from : option bpeer) (afi safi : Z) (path : aspath) : res aspath :=
  rserver ← (if bool_decide (sort_of pr = BGP_PEER_EBGP) &&
                (negb (CHECK_FLAG (bp_af_flags pr afi safi) PEER_FLAG_AS_PATH_UNCHANGED) || (a_length path =? 0))
             then
               from ← of_option NullDeref from;
               Ok (negb (CHECK_FLAG (bp_af_flags from afi safi) PEER_FLAG_RSERVER_CLIENT &&
                         CHECK_FLAG (bp_af_flags pr afi safi) PEER_FLAG_RSERVER_CLIENT))
             else Ok false);
  if (rserver : bool) then
    path ← aspath_dup path;
    if CHECK_FLAG (b_config (bc_bgp bc)) BGP_CONFIG_CONFEDERATION then
      path ← aspath_delete_confed_seq (Some path);
      path ← of_option NullDeref path;
      aspath_add_seq path (b_confed_id (bc_bgp bc))
    else
      path ← aspath_add_seq path (p_local_as (bp_peer pr));
      if negb (bp_change_local_as pr =? 0) then aspath_add_seq path (bp_change_local_as pr) else Ok path
  else if bool_decide (sort_of pr = BGP_PEER_CONFED) then
    path ← aspath_dup path;
    aspath_add_confed_seq path (p_local_as (bp_peer pr))
  else Ok path.

Definition put_cluster_id : ST stream unit :=
  (if CHECK_FLAG (b_config (bc_bgp bc)) BGP_CONFIG_CLUSTER_ID
   then stream_put_in_addr (bc_cluster_id bc)
   else stream_put_in_addr (bc_router_id bc));;
  mret tt.

(** Reflected routes carry the originator and the clusters they have passed. *)
Definition put_reflector (from : bpeer) (a : attr) : ST stream unit :=
  stream_putc BGP_ATTR_FLAG_OPTIONAL;;
  stream_putc BGP_ATTR_ORIGINATOR_ID;;
  stream_putc 4;;
  (if marked BGP_ATTR_ORIGINATOR_ID a then stream_put_in_addr (ar_originator_id a)
   else stream_put_in_addr (bp_remote_id from));;
  stream_putc BGP_ATTR_FLAG_OPTIONAL;;
  stream_putc BGP_ATTR_CLUSTER_LIST;;
  match ar_cluster a with
  | Some cluster =>
      stream_putc (Z.of_nat (length cluster) + 4);;
      put_cluster_id;;
      stream_put (Some cluster) (Z.of_nat (length cluster))
  | None =>
      stream_putc 4;;
      put_cluster_id
  end.

(** The routes of other families than IPv4 unicast are in the attributes. *)
Definition put_mp_reach (a : attr) (p : prefix) (safi : Z) (prd tag : list Z) : ST stream unit :=
  put_when (family p =? AF_INET6)
    (stream_putc BGP_ATTR_FLAG_OPTIONAL;;
     stream_putc BGP_ATTR_MP_REACH_NLRI;;
     put_sized
       (stream_putw AFI_IP6;;
        stream_putc safi;;
        stream_putc (ar_mp_nexthop_len a);;
        (if ar_mp_nexthop_len a =? 16 then stream_put (Some (ar_mp_nexthop_global a)) 16
         else if ar_mp_nexthop_len a =? 32 then
           stream_put (Some (ar_mp_nexthop_global a)) 16;;
           stream_put (Some (ar_mp_nexthop_local a)) 16
         else mret tt);;
        stream_putc 0;;
        stream_put_prefix p));;
  put_when ((family p =? AF_INET) && (safi =? SAFI_MULTICAST))
    (stream_putc BGP_ATTR_FLAG_OPTIONAL;;
     stream_putc BGP_ATTR_MP_REACH_NLRI;;
     put_sized
       (stream_putw AFI_IP;;
        stream_putc SAFI_MULTICAST;;
        stream_putc 4;;
        stream_put_ipv4 (ar_nexthop a);;
        stream_putc 0;;
        stream_put_prefix p));;
  put_when ((family p =? AF_INET) && (safi =? SAFI_MPLS_VPN))
    (stream_putc BGP_ATTR_FLAG_OPTIONAL;;
     stream_putc BGP_ATTR_MP_REACH_NLRI;;
     put_sized
       (stream_putw AFI_IP;;
        stream_putc BGP_SAFI_VPNV4;;
        stream_putc 12;;
        stream_putl 0;;
        stream_putl 0;;
        stream_put (Some (ar_mp_nexthop_global_in a)) 4;;
        stream_putc 0;;
        stream_putc (prefixlen p + 88);;
        stream_put (Some tag) 3;;
        stream_put (Some prd) 8;;
        stream_put (Some (u p)) (PSIZE (prefixlen p)))).

(** The communities whose first octet has not the flag of a non-transitive one. *)
Fixpoint transitive_ecoms (n : nat) (i : Z) (val : list Z) : res (list Z) :=
  match n with
  | O => Ok []
  | S n =>
      e ← get_bytes val (i * ECOMMUNITY_SIZE) ECOMMUNITY_SIZE;
      tbit ← get_byte e 0;
      rest ← transitive_ecoms n (i + 1) val;
      Ok (if CHECK_FLAG tbit ECOMMUNITY_FLAG_NON_TRANSITIVE then rest else e ++ rest)
  end.

Definition put_ecommunity (pr : bpeer) (a : attr) : ST stream unit :=
  e ← st_lift (of_option NullDeref (ar_ecommunity a));
  let flags := Z.lor BGP_ATTR_FLAG_OPTIONAL BGP_ATTR_FLAG_TRANS in
  if bool_decide (sort_of pr = BGP_PEER_IBGP) || bool_decide (sort_of pr = BGP_PEER_CONFED) then
    put_header flags BGP_ATTR_EXT_COMMUNITIES (ec_size e * ECOMMUNITY_SIZE);;
    stream_put (Some (ec_val e)) (ec_size e * ECOMMUNITY_SIZE)
  else
    bs ← st_lift (transitive_ecoms (Z.to_nat (ec_size e)) 0 (ec_val e));
    put_when (negb (Z.of_nat (length bs) =? 0))
      (put_header flags BGP_ATTR_EXT_COMMUNITIES (Z.of_nat (length bs));;
       stream_put (Some bs) (Z.of_nat (length bs))).

Definition put_community (a : attr) : ST stream unit :=
  c ← st_lift (of_option NullDeref (ar_community a));
  put_header (Z.lor BGP_ATTR_FLAG_OPTIONAL BGP_ATTR_FLAG_TRANS) BGP_ATTR_COMMUNITIES (com_length c);;
  stream_put (c_val c) (com_length c).

Definition put_origin (a : attr) : ST stream unit :=
  stream_putc BGP_ATTR_FLAG_TRANS;; stream_putc BGP_ATTR_ORIGIN;; stream_putc 1;; stream_putc (ar_origin a);; mret tt.

Definition put_aspath (path : aspath) : ST stream unit :=
  put_header BGP_ATTR_FLAG_TRANS BGP_ATTR_AS_PATH (a_length path);;
  stream_put (a_data path) (a_length path).

Definition put_nexthop (nexthop : list Z) : ST stream unit :=
  stream_putc BGP_ATTR_FLAG_TRANS;; stream_putc BGP_ATTR_NEXT_HOP;; stream_putc 4;; stream_put_ipv4 nexthop;; mret tt.

Definition put_med (a : attr) : ST stream unit :=
  stream_putc BGP_ATTR_FLAG_OPTIONAL;; stream_putc BGP_ATTR_MULTI_EXIT_DISC;; stream_putc 4;; stream_putl (ar_med a);; mret tt.

Definition put_local_pref (a : attr) : ST stream unit :=
  stream_putc BGP_ATTR_FLAG_TRANS;; stream_putc BGP_ATTR_LOCAL_PREF;; stream_putc 4;; stream_putl (ar_local_pref a);; mret tt.

Definition put_atomic : ST stream unit :=
  stream_putc BGP_ATTR_FLAG_TRANS;; stream_putc BGP_ATTR_ATOMIC_AGGREGATE;; stream_putc 0;; mret tt.

Definition put_aggregator (a : attr) : ST stream unit :=
  stream_putc (Z.lor BGP_ATTR_FLAG_OPTIONAL BGP_ATTR_FLAG_TRANS);; stream_putc BGP_ATTR_AGGREGATOR;; stream_putc 6;;
  stream_putw (ar_aggregator_as a);; stream_put_ipv4 (ar_aggregator_addr a);; mret tt.

Definition bgp_packet_attribute (pr : bpeer) (a : attr) (p : prefix) (afi safi : Z) (from : option bpeer)
    (prd tag : list Z) : ST stream Z :=
  s ← st_get;
  let cp := stream_get_putp s in
  put_origin a;;
  own ← st_lift (of_option NullDeref (ar_aspath a));
  path ← st_lift (packet_aspath pr from afi safi own);
  put_aspath path;;
  put_when (marked BGP_ATTR_NEXT_HOP a && (afi =? AFI_IP))
    (put_nexthop (if (safi =? SAFI_MPLS_VPN) && bool_decide (ar_nexthop a = replicate 4 0)
                  then bp_nexthop_v4 pr else ar_nexthop a));;
  put_when (marked BGP_ATTR_MULTI_EXIT_DISC a) (put_med a);;
  put_when (bool_decide (sort_of pr = BGP_PEER_IBGP) || bool_decide (sort_of pr = BGP_PEER_CONFED)) (put_local_pref a);;
  put_when (marked BGP_ATTR_ATOMIC_AGGREGATE a) put_atomic;;
  put_when (marked BGP_ATTR_AGGREGATOR a) (put_aggregator a);;
  put_when (CHECK_FLAG (bp_af_flags pr afi safi) PEER_FLAG_SEND_COMMUNITY && marked BGP_ATTR_COMMUNITIES a)
    (put_community a);;
  (match from with
   | Some from =>
       put_when (bool_decide (sort_of pr = BGP_PEER_IBGP) && bool_decide (sort_of from = BGP_PEER_IBGP))
         (put_reflector from a)
   | None => mret tt
   end);;
  put_mp_reach a p safi prd tag;;
  put_when (CHECK_FLAG (bp_af_flags pr afi safi) PEER_FLAG_SEND_EXT_COMMUNITY && marked BGP_ATTR_EXT_COMMUNITIES a)
    (put_ecommunity pr a);;
  (match ar_transit a with
   | Some bs => stream_put (Some bs) (Z.of_nat (length bs))
   | None => mret tt
   end);;
  s ← st_get;
  mret (u16 (stream_get_putp s - cp)).

End Send.

Definition bgp_packet_withdraw (p : prefix) (safi : Z) (prd tag : list Z) : ST stream Z :=
  s ← st_get;
  let cp := stream_get_putp s in
  stream_putc BGP_ATTR_FLAG_OPTIONAL;;
  stream_putc BGP_ATTR_MP_UNREACH_NLRI;;
  put_sized
    (stream_putw (family2afi (family p));;
     if safi =? SAFI_MPLS_VPN then
       stream_putc BGP_SAFI_VPNV4;;
       stream_putc (prefixlen p + 88);;
       stream_put (Some tag) 3;;
       stream_put (Some prd) 8;;
       stream_put (Some (u p)) (PSIZE (prefixlen p))
     else
       stream_putc safi;;
       stream_put_prefix p;;
       mret tt);;
  s ← st_get;
  mret (u16 (stream_get_putp s - cp)).

(** The attributes as they are dumped to a file. *)
Definition bgp_dump_routes_attr (a : attr) : ST stream unit :=
  s ← st_get;
  let cp := stream_get_putp s in
  stream_putw 0;;
  put_origin a;;
  path ← st_lift (of_option NullDeref (ar_aspath a));
  put_aspath path;;
  put_nexthop (ar_nexthop a);;
  put_when (marked BGP_ATTR_MULTI_EXIT_DISC a) (put_med a);;
  put_when (marked BGP_ATTR_LOCAL_PREF a) (put_local_pref a);;
  put_when (marked BGP_ATTR_ATOMIC_AGGREGATE a) put_atomic;;
  put_when (marked BGP_ATTR_AGGREGATOR a) (put_aggregator a);;
  put_when (marked BGP_ATTR_COMMUNITIES a) (put_community a);;
  s ← st_get;
  let len := stream_get_putp s - cp - 2 in
  stream_putw_at cp len;;
  mret tt.
