(* ===== verification/BgpAttrFacts.v ===== *)
(** The values of attributes: what the parsers of AS paths, communities, extended
    communities and cluster lists make of the octets of an attribute. *)

From stdpp Require Import strings sorting.
From S2P Require Import Prelude Prefix Text Stream StreamCalc Hash Aspath Community CommunityFacts CommunityIntern Decision BgpAttr.

(** * AS paths *)

Lemma segs_bytes_even ss : ∃ k, length (segs_bytes ss) = (2 * k)%nat.
Proof.
  induction ss as [|s ss [k IH]]; [by exists 0%nat|]. exists (1 + length s.2 + k)%nat.
  rewrite segs_bytes_cons, length_app, length_seg_bytes. lia.
Qed.

Lemma aspath_parse_cases pnt n :
  bytes_ok pnt → (n ≤ length pnt)%nat →
  (∃ ss a, take n pnt = segs_bytes ss ∧ Forall seg_ok ss ∧
     aspath_parse pnt (Z.of_nat n) = Ok (Some a) ∧ path_ok a ss ∧ (a_data a = None ↔ ss = [])) ∨
  (aspath_parse pnt (Z.of_nat n) = Ok None ∧ ∀ ss, Forall seg_ok ss → take n pnt ≠ segs_bytes ss).
Proof.
  intros Hb Hn. assert (Hln : length (take n pnt) = n) by (rewrite length_take; lia).
  unfold aspath_parse. destruct (Z.eqb_spec (Z.of_nat n mod 2) 0) as [H2|H2]; cbn [negb].
  2:{ right. split; [done|]. intros ss _ E. destruct (segs_bytes_even ss) as [k Hk]. rewrite <- E, Hln in Hk.
      apply H2. rewrite Hk. rewrite Nat2Z.inj_mul. dm_lia. }
  set (a := if Z.of_nat n =? 0 then Aspath 0 0 0 None None
            else Aspath 0 (Z.of_nat n) 0 (Some (take (Z.to_nat (Z.of_nat n)) pnt)) None).
  assert (aspath_dup (Aspath 0 (Z.of_nat n) 0 (Some pnt) None) = Ok a) as Hdup.
  { unfold aspath_dup, a. cbn [a_length]. destruct (Z.eqb_spec (Z.of_nat n) 0); [done|].
    unfold Aspath.octets. cbn [a_data default from_option id]. by rewrite get_bytes_in, drop_0 by lia. }
  assert (Aspath.octets a = take n pnt ∧ a_length a = Z.of_nat n ∧ (a_data a = None ↔ n = 0%nat)) as (Ho & Hl & Hd).
  { unfold a, Aspath.octets. destruct (Z.eqb_spec (Z.of_nat n) 0) as [E|E]; cbn; rewrite ?Nat2Z.id.
    - assert (n = 0%nat) as -> by lia. done.
    - split_and!; [done|done|]. split; [done|lia]. }
  unfold aspath_hash_alloc. rewrite Hdup. cbn [mbind res_bind].
  destruct (aspath_make_str_count_cases a) as [(ss & str & Hok & Hrun)|[Hno Hrun]].
  - rewrite Ho. by apply Forall_take.
  - by rewrite Ho, Hln.
  - rewrite Ho, Hln. exists (Z.to_nat (Z.of_nat n / 2)). dm_lia.
  - left. exists ss. rewrite Hrun. cbn [mbind res_bind]. destruct Hok as [Hso Hsl Hss].
    eexists. split_and!; [congruence|done|done|by split|]. cbn. rewrite Hd. split.
    + intros ->. destruct ss as [|s ss]; [done|]. rewrite Ho in Hso. apply (f_equal length) in Hso.
      rewrite segs_bytes_cons, length_app, length_seg_bytes in Hso. cbn in Hso. lia.
    + intros ->. rewrite Ho in Hso. apply (f_equal length) in Hso. by rewrite Hln in Hso.
  - right. rewrite Hrun. split; [done|]. intros ss Hss E. apply (Hno ss). split; [congruence|by rewrite Ho, Hln|done].
Qed.

(** aspath_dup gives the octets again. *)
Lemma aspath_dup_ok a ss :
  path_ok a ss → ∃ a', aspath_dup a = Ok a' ∧ path_ok a' ss ∧ (a_data a' = None ↔ ss = []).
Proof.
  intros [Ho Hl Hs]. unfold aspath_dup. destruct (Z.eqb_spec (a_length a) 0) as [E|E].
  - assert (ss = []) as ->.
    { destruct ss as [|s ss]; [done|]. rewrite Hl, Ho, segs_bytes_cons, length_app, length_seg_bytes in E. lia. }
    eexists. split; [done|]. by split; [split|].
  - rewrite get_bytes_all by done. cbn [mbind res_bind]. eexists. split; [done|]. split; [by split|].
    split; [done|]. intros ->. rewrite Hl, Ho in E. by destruct E.
Qed.

(** Putting an AS number in front reads nothing beyond the path. *)
Lemma aspath_add_one_as_runs a ss asno type :
  path_ok a ss → (a_data a = None ↔ ss = []) → ∃ a', aspath_add_one_as a asno type = Ok a'.
Proof.
  intros [Ho Hl Hs] Hn. unfold aspath_add_one_as. destruct (a_data a) as [d|] eqn:Ed; [|by eexists].
  assert (d = segs_bytes ss) as -> by (unfold Aspath.octets in Ho; by rewrite Ed in Ho).
  destruct ss as [|s rest]; [by specialize (proj2 Hn eq_refl)|].
  apply Forall_cons in Hs as [Hseg Hrest].
  destruct (read_segment [] s (segs_bytes rest) 0 Hseg eq_refl) as (Hty & Hln & _).
  cbn [app] in Hty, Hln. rewrite segs_bytes_cons, Hln. cbn [mbind res_bind].
  destruct (_ =? 0); [by eexists|]. rewrite Hty. cbn [mbind res_bind].
  rewrite Hl, Ho, segs_bytes_cons. destruct (_ =? type).
  - rewrite get_bytes_in; [by eexists|unfold AS_HEADER_SIZE; lia| |lia].
    rewrite length_app, length_seg_bytes. unfold AS_HEADER_SIZE. lia.
  - rewrite get_bytes_all by done. by eexists.
Qed.

(** The first AS number is read inside of the path, except for a path that is one
    empty sequence. *)
Lemma aspath_firstas_check_runs a ss asno :
  path_ok a ss → (a_data a = None ↔ ss = []) → segs_bytes ss ≠ [AS_SEQUENCE; 0] →
  ∃ b, aspath_firstas_check (Some a) asno = Ok b.
Proof.
  intros [Ho Hl Hs] Hn Hne. unfold aspath_firstas_check. destruct (a_data a) as [d|] eqn:Ed; [|by eexists].
  assert (d = segs_bytes ss) as -> by (unfold Aspath.octets in Ho; by rewrite Ed in Ho).
  destruct ss as [|[t vs] rest]; [by specialize (proj2 Hn eq_refl)|].
  apply Forall_cons in Hs as [Hseg Hrest].
  destruct (read_segment [] (t, vs) (segs_bytes rest) 0 Hseg eq_refl) as (Hty & _ & _).
  cbn [app fst] in Hty. rewrite segs_bytes_cons in *. rewrite Hty. cbn [mbind res_bind].
  destruct (Z.eqb_spec t AS_SEQUENCE) as [->|]; [|by eexists].
  assert (4 ≤ length (seg_bytes (AS_SEQUENCE, vs) ++ segs_bytes rest))%nat as H4.
  { rewrite length_app, length_seg_bytes. destruct vs as [|v vs]; [|cbn; lia].
    destruct rest as [|s rest]; [done|]. rewrite segs_bytes_cons, length_app, length_seg_bytes. cbn. lia. }
  unfold seg_asval, AS_HEADER_SIZE, AS_VALUE_SIZE.
  destruct (get_byte_in (seg_bytes (AS_SEQUENCE, vs) ++ segs_bytes rest) (0 + 2 + 0 * 2)) as (b1 & -> & _); [lia|].
  destruct (get_byte_in (seg_bytes (AS_SEQUENCE, vs) ++ segs_bytes rest) (0 + 2 + 0 * 2 + 1)) as (b2 & -> & _); [lia|].
  by eexists.
Qed.

(** * Communities *)

Lemma community_parse_value_cases pnt n :
  bytes_ok pnt → (n ≤ length pnt)%nat →
  (Z.of_nat n mod 4 ≠ 0 ∧ community_parse_value pnt (Z.of_nat n) = Ok None) ∨
  (Z.of_nat n mod 4 = 0 ∧ ∃ com, community_parse_value pnt (Z.of_nat n) = Ok (Some com) ∧
     com_ok com (uniq_sorted (packet_vals (Z.to_nat (Z.of_nat n / 4)) pnt)) ∧ c_refcnt com = 0 ∧ c_str com = None).
Proof.
  intros Hb Hn. unfold community_parse_value.
  destruct (Z.eqb_spec (Z.of_nat n mod 4) 0) as [H4|H4]; cbn [negb]; [right|by left]. split; [done|].
  destruct (packet_vals_bytes (Z.to_nat (Z.of_nat n / 4)) pnt Hb) as (Hpre & Hu & Hlen); [dm_lia|].
  apply uniq_sort_ok. split; [cbn; dm_lia|done|done].
Qed.

(** The value is that of the shared structure community_parse gives. *)
Lemma community_parse_shares s held m pnt n :
  intern_ok s held m → room_for_one held → bytes_ok pnt → (n ≤ length pnt)%nat → Z.of_nat n mod 4 = 0 →
  ∃ p s' shared own, community_parse pnt (Z.of_nat n) s = Ok (Some p, s') ∧ cs_mem s' !! p = Some shared ∧
    community_parse_value pnt (Z.of_nat n) = Ok (Some own) ∧
    c_size shared = c_size own ∧ Community.octets shared = Community.octets own.
Proof.
  intros Hi Hroom Hb Hn H4.
  destruct (parse_ok s held m pnt (Z.of_nat n) Hi Hroom Hb) as [[? _]|(_ & p & s' & m' & Hr & Hi' & Hm)]; [lia|done|].
  destruct (community_parse_value_cases pnt n Hb Hn) as [[? _]|(_ & own & Hv & [Hs Ho _] & _)]; [done|].
  destruct (io_held _ _ _ Hi' p) as [shared Hsh]; [set_solver|].
  destruct (io_mem _ _ _ Hi' _ _ Hsh) as (vs & [Hs' Ho' Hr'] & Hm' & _).
  assert (val_bytes vs = val_bytes (uniq_sorted (packet_vals (Z.to_nat (Z.of_nat n / 4)) pnt))) as E.
  { pose proof (hr_val _ _ _ _ _ (io_rep _ _ _ Hi') _ _ Hm). pose proof (hr_val _ _ _ _ _ (io_rep _ _ _ Hi') _ _ Hm').
    congruence. }
  exists p, s', shared, own. split_and!; [done..| |congruence].
  apply (f_equal length) in E. rewrite !length_val_bytes in E. lia.
Qed.

(** * Extended communities *)

(** The structure holds the values [es]. *)
Record ecom_ok (e : ecommunity) (es : list (list Z)) : Prop := EcomOk {
  eo_size : ec_size e = Z.of_nat (length es);
  eo_val : ec_val e = concat es;
  eo_each : Forall (λ x, length x = 8%nat) es;
}.

Definition ecom_lt (x y : list Z) : Prop := in6addr_cmp x y < 0.

Lemma concat8_length (es : list (list Z)) : Forall (λ x, length x = 8%nat) es → length (concat es) = (8 * length es)%nat.
Proof. induction 1 as [|x es Hx _ IH]; [done|]. cbn [concat]. rewrite length_app. cbn [length]. lia. Qed.

Lemma ecom_nth es i e rest :
  Forall (λ x, length x = 8%nat) es → es !! i = Some e →
  get_bytes (concat es ++ rest) (Z.of_nat i * ECOMMUNITY_SIZE) ECOMMUNITY_SIZE = Ok e.
Proof.
  intros Hall Hi. pose proof (concat8_length _ Hall) as Hc. pose proof (lookup_lt_Some _ _ _ Hi).
  unfold ECOMMUNITY_SIZE. rewrite get_bytes_in; [|lia|lia|rewrite length_app; lia].
  assert (length (concat (take i es)) = Z.to_nat (Z.of_nat i * 8)) as Hl.
  { rewrite concat8_length by (by apply Forall_take). rewrite length_take. lia. }
  rewrite <- (take_drop_middle es i e Hi) at 1. rewrite concat_app. cbn [concat].
  rewrite <- !app_assoc, (drop_app_length' (concat (take i es))) by done.
  rewrite take_app_length'; [done|]. change (Z.to_nat 8) with 8%nat. rewrite Forall_lookup in Hall. symmetry. by eapply Hall.
Qed.

Lemma ecom_place_runs es eval rest n i :
  Forall (λ x, length x = 8%nat) es → (i + n = length es)%nat →
  ∃ r, ecom_place n (Z.of_nat i) (concat es ++ rest) eval = Ok r ∧
    match r with Some c => Z.of_nat i ≤ c ≤ Z.of_nat (length es) | None => True end.
Proof.
  intros Hall. revert i. induction n as [|n IH]; intros i Hi; cbn [ecom_place]; [eexists; split; [done|cbn; lia]|].
  destruct (lookup_lt_is_Some_2 es i) as [e He]; [lia|]. rewrite (ecom_nth es i e rest Hall He). cbn [mbind res_bind].
  destruct (_ =? 0); [by eexists|]. destruct (0 <? _); [eexists; split; [done|cbn; lia]|].
  destruct (IH (S i)) as (r & Hr & Hb); [lia|]. replace (Z.of_nat i + 1) with (Z.of_nat (S i)) by lia.
  exists r. split; [done|]. destruct r; [lia|done].
Qed.

(** A value above all others goes to the end. *)
Lemma ecom_place_last es eval n i :
  Forall (λ x, length x = 8%nat) es → Forall (λ x, ecom_lt x eval) es → (i + n = length es)%nat →
  ecom_place n (Z.of_nat i) (concat es) eval = Ok (Some (Z.of_nat (length es))).
Proof.
  intros Hall Hlt. revert i. induction n as [|n IH]; intros i Hi; cbn [ecom_place]; [do 2 f_equal; lia|].
  destruct (lookup_lt_is_Some_2 es i) as [e He]; [lia|]. pose proof (ecom_nth es i e [] Hall He) as Hg.
  rewrite app_nil_r in Hg. rewrite Hg. cbn [mbind res_bind].
  rewrite Forall_lookup in Hlt. specialize (Hlt _ _ He). unfold ecom_lt in Hlt.
  rewrite (proj2 (Z.eqb_neq _ 0)), (proj2 (Z.ltb_ge _ _)) by lia.
  replace (Z.of_nat i + 1) with (Z.of_nat (S i)) by lia. apply IH. lia.
Qed.

Lemma ecom_add_runs e es eval :
  ecom_ok e es → length eval = 8%nat → ∃ e' es', ecommunity_add_val e eval = Ok e' ∧ ecom_ok e' es'.
Proof.
  intros [Hs Hv Hall] He. unfold ecommunity_add_val. destruct (Z.eqb_spec (ec_size e) 0) as [H0|H0].
  - exists (Ecommunity 1 eval), [eval]. split; [done|]. split; [done|cbn; by rewrite app_nil_r|by constructor].
  - rewrite Hs, Nat2Z.id, Hv. destruct (ecom_place_runs es eval [] (length es) 0 Hall eq_refl) as (r & Hr & Hb).
    rewrite app_nil_r in Hr. change (Z.of_nat 0) with 0 in Hr, Hb. rewrite Hr. cbn [mbind res_bind].
    destruct r as [c|]; [|by exists e, es].
    exists (Ecommunity (Z.of_nat (length es) + 1) (take (Z.to_nat (c * 8)) (concat es) ++ eval ++ drop (Z.to_nat (c * 8)) (concat es))),
      (take (Z.to_nat c) es ++ eval :: drop (Z.to_nat c) es).
    split; [done|]. split; cbn.
    + rewrite length_app. cbn. rewrite length_take, length_drop. lia.
    + rewrite concat_app. cbn.
      assert (length (concat (take (Z.to_nat c) es)) = Z.to_nat (c * 8)) as Hl.
      { rewrite concat8_length by (by apply Forall_take). rewrite length_take. lia. }
      assert (concat es = concat (take (Z.to_nat c) es) ++ concat (drop (Z.to_nat c) es)) as ->
        by (by rewrite <- concat_app, take_drop).
      by rewrite take_app_length', drop_app_length' by done.
    + apply Forall_app. split; [by apply Forall_take|]. constructor; [done|by apply Forall_drop].
Qed.

Lemma ecom_uniq_runs pnt n i e es :
  (8 * (i + n) ≤ length pnt)%nat → ecom_ok e es →
  ∃ e' es', ecom_uniq_loop n (Z.of_nat i) pnt e = Ok e' ∧ ecom_ok e' es'.
Proof.
  revert i e es. induction n as [|n IH]; intros i e es Hn He; cbn [ecom_uniq_loop]; [by exists e, es|].
  unfold ECOMMUNITY_SIZE. rewrite get_bytes_in by lia. cbn [mbind res_bind].
  destruct (ecom_add_runs e es (take (Z.to_nat 8) (drop (Z.to_nat (Z.of_nat i * 8)) pnt)) He) as (e1 & es1 & Hr & He1).
  { rewrite length_take, length_drop. lia. }
  rewrite Hr. cbn [mbind res_bind]. replace (Z.of_nat i + 1) with (Z.of_nat (S i)) by lia. apply (IH (S i) e1 es1); [lia|done].
Qed.

Lemma ecommunity_parse_runs pnt n :
  (n ≤ length pnt)%nat → ∃ o, ecommunity_parse pnt (Z.of_nat n) = Ok o.
Proof.
  intros Hn. unfold ecommunity_parse, ECOMMUNITY_SIZE. destruct (negb _); [by eexists|].
  destruct (ecom_uniq_runs pnt (Z.to_nat (Z.of_nat n / 8)) 0 (Ecommunity 0 []) []) as (e & es & Hr & _); [dm_lia|by split|].
  change (Z.of_nat 0) with 0 in Hr. rewrite Hr. by eexists.
Qed.
