(* ===== verification/BgpAttrSafe.v ===== *)
(** Receiving UPDATE messages is safe: on any octets without multiprotocol attributes
    bgp_update_receive returns, and never reads outside of the input buffer. *)

From stdpp Require Import strings sorting.
From S2P Require Import Prelude Prefix Text Stream StreamCalc Hash Aspath Community CommunityFacts CommunityIntern Decision BgpAttr BgpAttrFacts.

(** * Reading inside of the buffer *)

Lemma ahead_length_all s : stream_ok s → Z.of_nat (length (ahead s)) = s_size s - s_getp s.
Proof. intros []. unfold ahead. rewrite length_drop. lia. Qed.

Lemma ahead_bytes s : stream_ok s → bytes_ok (ahead s).
Proof. intros []. by apply Forall_drop. Qed.

Lemma ahead_cut s n :
  stream_ok s → s_getp s + Z.of_nat n ≤ s_size s →
  ∃ bs, length bs = n ∧ bytes_ok bs ∧ ahead s = bs ++ ahead (skip n s) ∧ stream_ok (skip n s) ∧ take n (ahead s) = bs.
Proof.
  intros Hs Hn. pose proof (ahead_length_all s Hs). exists (take n (ahead s)).
  assert (Hl : length (take n (ahead s)) = n) by (rewrite length_take; lia).
  assert (Hc : ahead s = take n (ahead s) ++ drop n (ahead s)) by (by rewrite take_drop).
  pose proof (ahead_skip _ _ _ Hs Hc) as Ha. pose proof (skip_ok _ _ _ Hs Hc) as Hk. rewrite Hl in Ha, Hk.
  split_and!; [done|by apply Forall_take, ahead_bytes|by rewrite Ha|done|done].
Qed.

Lemma getc_in s :
  stream_ok s → s_getp s + 1 ≤ s_size s →
  ∃ c, is_u8 c ∧ stream_getc s = Ok (c, skip 1 s) ∧ ahead s = c :: ahead (skip 1 s) ∧ stream_ok (skip 1 s).
Proof.
  intros Hs Hn. destruct (ahead_cut s 1 Hs) as ([|c [|]] & Hl & Hb & Ha & Hk & _); try lia; try done.
  exists c. apply Forall_cons in Hb as [Hc _]. split_and!; [done| |done|done]. by eapply next_byte_ahead.
Qed.

Lemma be16_of a b : is_u8 a → is_u8 b → is_u16 (a * 256 + b) ∧ be16 (a * 256 + b) = [a; b].
Proof.
  unfold is_u8, is_u16, be16, u8. intros. rewrite Z.shiftr_div_pow2 by lia. split; [lia|]. f_equal; [|f_equal]; dm_lia.
Qed.

Lemma getw_in s :
  stream_ok s → s_getp s + 2 ≤ s_size s →
  ∃ a b, is_u8 a ∧ is_u8 b ∧ stream_getw s = Ok (a * 256 + b, skip 2 s) ∧ ahead s = a :: b :: ahead (skip 2 s) ∧
    stream_ok (skip 2 s).
Proof.
  intros Hs Hn. destruct (ahead_cut s 2 Hs) as ([|a [|b [|]]] & Hl & Hb & Ha & Hk & _); try lia; try done.
  apply Forall_cons in Hb as [Ha' Hb]. apply Forall_cons in Hb as [Hb' _].
  destruct (be16_of a b Ha' Hb') as [Hw He]. exists a, b. split_and!; try done.
  eapply stream_getw_ahead; [done|done|]. by rewrite He.
Qed.

Lemma getl_in s :
  stream_ok s → s_getp s + 4 ≤ s_size s →
  ∃ l, is_u32 l ∧ stream_getl s = Ok (l, skip 4 s) ∧ stream_ok (skip 4 s).
Proof.
  intros Hs Hn. destruct (ahead_cut s 4 Hs) as ([|a [|b [|c [|d [|]]]]] & Hl & Hb & Ha & Hk & _); try lia; try done.
  unfold bytes_ok in Hb. rewrite !Forall_cons in Hb. destruct Hb as (Ha' & Hb' & Hc' & Hd' & _).
  destruct (be32_ntohl a b c d Ha' Hb' Hc' Hd') as [Hu He]. exists (ntohl4 [a; b; c; d]). split_and!; [done| |done].
  eapply stream_getl_ahead; [done|done|]. by rewrite He.
Qed.

Lemma get_in s n :
  stream_ok s → s_getp s + Z.of_nat n ≤ s_size s →
  ∃ bs, length bs = n ∧ bytes_ok bs ∧ stream_get (Z.of_nat n) s = Ok (bs, skip n s) ∧ stream_ok (skip n s).
Proof.
  intros Hs Hn. destruct (ahead_cut s n Hs Hn) as (bs & Hl & Hb & Ha & Hk & _).
  exists bs. split_and!; try done. by eapply stream_get_ahead.
Qed.

Lemma get_ipv4_in s :
  stream_ok s → s_getp s + 4 ≤ s_size s → ∃ a, stream_get_ipv4 s = Ok (a, skip 4 s) ∧ stream_ok (skip 4 s).
Proof. intros Hs Hn. destruct (get_in s 4 Hs) as (a & _ & _ & Hr & Hk); [lia|]. by exists a. Qed.

Lemma forward_in s n :
  stream_ok s → s_getp s + Z.of_nat n ≤ s_size s → forward (Z.of_nat n) s = Ok (tt, skip n s) ∧ stream_ok (skip n s).
Proof.
  intros Hs Hn. destruct (ahead_cut s n Hs Hn) as (_ & _ & _ & _ & Hk & _). split; [|done].
  unfold forward. erewrite st_bind_Ok by done. unfold st_put, stream_forward, skip. destruct Hs.
  by rewrite u64_id by (unfold is_u64; lia).
Qed.

(** * Handlers *)

(** What a handler leaves alone: the octets behind the start of the attribute. *)
Record kept (lo : nat) (s s' : stream) : Prop := Kept {
  kp_ok : stream_ok s';
  kp_size : s_size s' = s_size s;
  kp_data k : (lo < k)%nat → drop k (s_data s') = drop k (s_data s);
}.

Definition runs {A} (lo : nat) (m : ST stream A) (s : stream) : Prop := ∃ o s', m s = Ok (o, s') ∧ kept lo s s'.

Lemma kept_refl lo s : stream_ok s → kept lo s s.
Proof. by split. Qed.

Lemma kept_trans lo s1 s2 s3 : kept lo s1 s2 → kept lo s2 s3 → kept lo s1 s3.
Proof. intros [] []. split; [done|congruence|]. intros k Hk. by rewrite kp_data1, kp_data0. Qed.

Lemma kept_skip lo s n : stream_ok (skip n s) → kept lo s (skip n s).
Proof. by split. Qed.

Lemma runs_ret {A} lo (a : A) s : stream_ok s → runs lo (mret a) s.
Proof. intros Hs. eexists _, s. split; [done|by apply kept_refl]. Qed.

Lemma runs_bind {A B} lo (m : ST stream A) (f : A → ST stream B) s a s1 :
  m s = Ok (a, s1) → kept lo s s1 → runs lo (f a) s1 → runs lo (m ≫= f) s.
Proof.
  intros Hm Hk (o & s2 & Hf & Hk2). exists o, s2. split; [by erewrite st_bind_Ok by done|by eapply kept_trans].
Qed.

Lemma runs_then {A B} lo (m : ST stream A) (f : A → ST stream B) s :
  runs lo m s → (∀ a s', kept lo s s' → runs lo (f a) s') → runs lo (m ≫= f) s.
Proof. intros (a & s1 & Hm & Hk) Hf. by eapply runs_bind; [| |apply Hf]. Qed.

Lemma runs_refuse {A} lo sub s : stream_ok s → runs lo (refuse (A := A) sub) s.
Proof. apply runs_ret. Qed.

Lemma runs_refuse_with {A} lo sub startp total s :
  stream_ok s → 0 ≤ startp → 0 ≤ total → startp + total ≤ s_size s → runs lo (refuse_with (A := A) sub startp total) s.
Proof.
  intros Hs H0 Ht Hb. eexists _, s. split; [|by apply kept_refl]. unfold refuse_with. erewrite st_bind_Ok by done.
  unfold st_lift. rewrite get_bytes_in; [done|done|done|]. destruct Hs. lia.
Qed.

Lemma runs_lift {A B} lo (r : res A) (f : A → ST stream B) s a :
  stream_ok s → r = Ok a → runs lo (f a) s → runs lo (st_lift r ≫= f) s.
Proof. intros Hs -> Hf. eapply runs_bind; [done|by apply kept_refl|done]. Qed.

Lemma runs_get {B} lo (f : stream → ST stream B) s : stream_ok s → runs lo (f s) s → runs lo (st_get ≫= f) s.
Proof. intros Hs Hf. eapply runs_bind; [done|by apply kept_refl|done]. Qed.

Lemma header_len_cases flag : header_len flag = 3 ∨ header_len flag = 4.
Proof. unfold header_len. destruct (CHECK_FLAG flag BGP_ATTR_FLAG_EXTLEN); auto. Qed.

Section Handlers.
Context (bc : bconf) (pr : bpeer).

(** At the value of an attribute of [n] octets that lies in the buffer. *)
Record at_value (s : stream) (startp flag : Z) (n : nat) : Prop := AtValue {
  av_ok : stream_ok s;
  av_small : s_size s < 2^16;
  av_start : 0 ≤ startp;
  av_getp : s_getp s = startp + header_len flag;
  av_in : s_getp s + Z.of_nat n ≤ s_size s;
}.

Lemma at_total s startp flag n :
  at_value s startp flag n → u16 (Z.of_nat n + header_len flag) = Z.of_nat n + header_len flag ∧
  startp + (Z.of_nat n + header_len flag) ≤ s_size s ∧ 0 ≤ Z.of_nat n + header_len flag.
Proof. intros []. destruct (header_len_cases flag) as [E|E]; rewrite E in *; rewrite u16_id by (unfold is_u16; lia); lia. Qed.

Ltac refuse_here :=
  match goal with
  | Hat : at_value ?s ?startp ?flag ?n |- runs _ (refuse_with _ _ _) _ =>
      destruct (at_total _ _ _ _ Hat) as (-> & ? & ?); destruct Hat; apply runs_refuse_with; first [done|lia|cbn; lia]
  | |- runs _ (refuse _) _ => apply runs_refuse
  end.

Lemma origin_runs lo s startp flag n a :
  at_value s startp flag n → runs lo (bgp_attr_origin (Z.of_nat n) a flag startp) s.
Proof.
  intros Hat. unfold bgp_attr_origin. destruct (negb (flag =? _)); [refuse_here|].
  destruct (Z.eqb_spec (Z.of_nat n) 1) as [H1|H1]; cbn [negb]; [|refuse_here].
  destruct (getc_in s) as (c & _ & Hr & _ & Hk); [apply Hat|destruct Hat; lia|].
  eapply runs_bind; [exact Hr|by apply kept_skip|].
  destruct (_ && _); [|by apply runs_ret]. destruct (at_total _ _ _ _ Hat) as (-> & ? & ?). destruct Hat.
  apply runs_refuse_with; first [done|lia|cbn; lia].
Qed.

Lemma aspath_runs lo s startp flag n a :
  at_value s startp flag n → take n (ahead s) ≠ [AS_SEQUENCE; 0] →
  runs lo (bgp_attr_aspath bc pr (Z.of_nat n) a flag startp) s.
Proof.
  intros Hat Hne. unfold bgp_attr_aspath. destruct (not_well_known flag); [refuse_here|].
  pose proof Hat as [Hs _ _ _ Hin]. apply runs_get; [done|]. change (stream_pnt s) with (ahead s).
  destruct (aspath_parse_cases (ahead s) n) as [(ss & path & Htk & Hss & Hp & Hok & Hnone)|[Hp _]].
  { by apply ahead_bytes. }
  { pose proof (ahead_length_all s Hs). lia. }
  2:{ eapply runs_lift; [done|exact Hp|]. by apply runs_refuse. }
  eapply runs_lift; [done|exact Hp|].
  assert (∃ b, (if negb (bgp_flag_check (bc_bgp bc) BGP_FLAG_NO_ENFORCE_FIRST_AS) && sort_is bc pr BGP_PEER_EBGP
    then st_lift (aspath_firstas_check (Some path) (p_as (bp_peer pr))) else mret true) s = Ok (b, s)) as [first Hfirst].
  { destruct (_ && _); [|by eexists].
    destruct (aspath_firstas_check_runs path ss (p_as (bp_peer pr)) Hok Hnone) as [b Hb]; [by rewrite <- Htk|].
    exists b. unfold st_lift. by rewrite Hb. }
  eapply runs_bind; [exact Hfirst|by apply kept_refl|]. destruct (negb first); [by apply runs_refuse|].
  assert (∃ path', (if negb (bp_change_local_as pr =? 0) && negb (CHECK_FLAG (bp_flags pr) PEER_FLAG_LOCAL_AS_NO_PREPEND)
    then path ← st_lift (aspath_dup path); st_lift (aspath_add_seq path (bp_change_local_as pr)) else mret path) s =
      Ok (path', s)) as [path' Hpath].
  { destruct (negb (bp_change_local_as pr =? 0) && _); [|by exists path]. destruct (aspath_dup_ok path ss Hok) as (p1 & H1 & Hok1 & Hn1).
    destruct (aspath_add_one_as_runs p1 ss (bp_change_local_as pr) AS_SEQUENCE Hok1 Hn1) as [p2 H2].
    exists p2. rewrite (st_bind_Ok _ _ _ p1 s) by (unfold st_lift; by rewrite H1).
    unfold st_lift, aspath_add_seq. by rewrite H2. }
  eapply runs_bind; [exact Hpath|by apply kept_refl|].
  destruct (forward_in s n Hs Hin) as [Hf Hk]. eapply runs_bind; [exact Hf|by apply kept_skip|]. by apply runs_ret.
Qed.

Lemma nexthop_runs lo s startp flag n a :
  at_value s startp flag n → runs lo (bgp_attr_nexthop (Z.of_nat n) a flag startp) s.
Proof.
  intros Hat. unfold bgp_attr_nexthop. destruct (not_well_known flag); [refuse_here|].
  destruct (Z.eqb_spec (Z.of_nat n) 4) as [H4|H4]; cbn [negb]; [|refuse_here].
  destruct Hat. destruct (get_ipv4_in s) as (x & Hr & Hk); [done|lia|].
  eapply runs_bind; [exact Hr|by apply kept_skip|]. by apply runs_ret.
Qed.

Lemma med_runs lo s startp flag n a :
  at_value s startp flag n → runs lo (bgp_attr_med (Z.of_nat n) a flag startp) s.
Proof.
  intros Hat. unfold bgp_attr_med.
  destruct (Z.eqb_spec (Z.of_nat n) 4) as [H4|H4]; cbn [negb]; [|refuse_here].
  destruct Hat. destruct (getl_in s) as (x & _ & Hr & Hk); [done|lia|].
  eapply runs_bind; [exact Hr|by apply kept_skip|]. by apply runs_ret.
Qed.

Lemma local_pref_runs lo s startp flag n a :
  at_value s startp flag n → runs lo (bgp_attr_local_pref bc pr (Z.of_nat n) a) s.
Proof.
  intros []. unfold bgp_attr_local_pref. destruct (sort_is bc pr BGP_PEER_EBGP).
  - destruct (forward_in s n) as [Hf Hk]; [done..|]. eapply runs_bind; [exact Hf|by apply kept_skip|]. by apply runs_ret.
  - destruct (Z.eqb_spec (Z.of_nat n) 4) as [H4|H4].
    + destruct (getl_in s) as (x & _ & Hr & Hk); [done|lia|].
      eapply runs_bind; [exact Hr|by apply kept_skip|]. by apply runs_ret.
    + eapply runs_bind; [done|by apply kept_refl|]. by apply runs_ret.
Qed.

Lemma atomic_runs lo s startp flag n a :
  at_value s startp flag n → runs lo (bgp_attr_atomic (Z.of_nat n) a) s.
Proof. intros []. unfold bgp_attr_atomic. destruct (negb _); [by apply runs_refuse|by apply runs_ret]. Qed.

Lemma aggregator_runs lo s startp flag n a :
  at_value s startp flag n → runs lo (bgp_attr_aggregator (Z.of_nat n) a) s.
Proof.
  intros []. unfold bgp_attr_aggregator.
  destruct (Z.eqb_spec (Z.of_nat n) 6) as [H6|H6]; cbn [negb]; [|by apply runs_refuse].
  destruct (getw_in s) as (x & y & _ & _ & Hr & _ & Hk); [done|lia|]. eapply runs_bind; [exact Hr|by apply kept_skip|].
  destruct (get_ipv4_in (skip 2 s)) as (z & Hr2 & Hk2); [done|cbn; lia|].
  eapply runs_bind; [exact Hr2|by apply kept_skip|]. by apply runs_ret.
Qed.

(** A value that is parsed where it lies, and then passed over. *)
Lemma in_place_runs {A B} lo s startp flag n (parse : list Z → Z → res A) (f : A → ST stream B) :
  at_value s startp flag n → (∃ x, parse (ahead s) (Z.of_nat n) = Ok x) → (∀ x s', stream_ok s' → runs lo (f x) s') →
  runs lo (s ← st_get; x ← st_lift (parse (stream_pnt s) (Z.of_nat n)); forward (Z.of_nat n);; f x) s.
Proof.
  intros [] [x Hx] Hf. apply runs_get; [done|]. eapply runs_lift; [done|exact Hx|].
  destruct (forward_in s n) as [Hr Hk]; [done..|]. eapply runs_bind; [exact Hr|by apply kept_skip|]. by apply Hf.
Qed.

Lemma community_runs lo s startp flag n a :
  at_value s startp flag n → runs lo (bgp_attr_community (Z.of_nat n) a) s.
Proof.
  intros Hat. pose proof Hat as [Hs _ _ _ Hin]. unfold bgp_attr_community.
  eapply runs_then; [|intros x s' []; by apply runs_ret].
  destruct (Z.of_nat n =? 0); [by apply runs_ret|].
  apply (in_place_runs lo s startp flag n community_parse_value (λ c, mret c) Hat); [|intros; by apply runs_ret].
  destruct (community_parse_value_cases (ahead s) n) as [[_ H]|(_ & c & H & _)];
    [by apply ahead_bytes|pose proof (ahead_length_all s Hs); lia|eauto..].
Qed.

Lemma originator_id_runs lo s startp flag n a :
  at_value s startp flag n → runs lo (bgp_attr_originator_id (Z.of_nat n) a) s.
Proof.
  intros []. unfold bgp_attr_originator_id.
  destruct (Z.eqb_spec (Z.of_nat n) 4) as [H4|H4]; cbn [negb]; [|by apply runs_refuse].
  destruct (get_ipv4_in s) as (x & Hr & Hk); [done|lia|].
  eapply runs_bind; [exact Hr|by apply kept_skip|]. by apply runs_ret.
Qed.

Lemma cluster_list_runs lo s startp flag n a :
  at_value s startp flag n → runs lo (bgp_attr_cluster_list (Z.of_nat n) a) s.
Proof.
  intros Hat. pose proof Hat as [Hs _ _ _ Hin]. unfold bgp_attr_cluster_list. destruct (negb _); [by apply runs_refuse|].
  apply (in_place_runs lo s startp flag n cluster_parse
    (λ c, mret (Fine (mark BGP_ATTR_CLUSTER_LIST (set_ar_cluster (Some c) a)))) Hat); [|intros; by apply runs_ret].
  unfold cluster_parse. rewrite get_bytes_in; [by eexists|lia|lia|]. pose proof (ahead_length_all s Hs). lia.
Qed.

Lemma ext_communities_runs lo s startp flag n a :
  at_value s startp flag n → runs lo (bgp_attr_ext_communities (Z.of_nat n) a) s.
Proof.
  intros Hat. pose proof Hat as [Hs _ _ _ Hin]. unfold bgp_attr_ext_communities.
  eapply runs_then; [|intros x s' []; by apply runs_ret].
  destruct (Z.of_nat n =? 0); [by apply runs_ret|].
  apply (in_place_runs lo s startp flag n ecommunity_parse (λ c, mret c) Hat); [|intros; by apply runs_ret].
  apply ecommunity_parse_runs. pose proof (ahead_length_all s Hs). lia.
Qed.

(** The flag octet is the one octet a handler changes. *)
Lemma unknown_runs s startp flag n a :
  at_value s startp flag n → runs (Z.to_nat startp) (bgp_attr_unknown a flag (Z.of_nat n) startp) s.
Proof.
  intros Hat. pose proof Hat as [Hs _ H0 Hg Hin]. destruct (at_total _ _ _ _ Hat) as (Ht & Hle & Hpos).
  unfold bgp_attr_unknown. destruct (forward_in s n) as [Hr Hk]; [done..|].
  eapply runs_bind; [exact Hr|by apply kept_skip|]. cbv zeta. rewrite Ht.
  destruct (negb (CHECK_FLAG flag BGP_ATTR_FLAG_OPTIONAL)); [apply runs_refuse_with; first [done|lia|cbn; lia]|].
  destruct (negb (CHECK_FLAG flag BGP_ATTR_FLAG_TRANS)); [by apply runs_ret|].
  apply runs_get; [done|]. change (s_data (skip n s)) with (s_data s).
  assert (startp < Z.of_nat (length (s_data s))) as Hlt by (destruct Hs, (header_len_cases flag); lia).
  destruct (get_byte_in (s_data s) startp) as (c & Hc & _); [lia|]. eapply runs_lift; [done|exact Hc|].
  eapply runs_lift; [done|apply set_byte_in; lia|].
  set (d := <[Z.to_nat startp := _]> (s_data s)).
  assert (length d = length (s_data s)) as Hld by apply length_insert.
  assert (stream_ok (set_data d (skip n s))) as Hok.
  { destruct Hk. split; cbn in *; try done; [lia|]. apply bytes_ok_insert; auto with zebra. }
  eapply runs_bind; [done| |].
  { split; [exact Hok|done|]. intros k Hlo. cbn. unfold d. by rewrite drop_insert_lt by lia. }
  eapply runs_lift; [done|apply get_bytes_in; [lia|lia|destruct Hs; lia]|]. by apply runs_ret.
Qed.

Lemma attr_value_runs s startp flag n type p :
  at_value s startp flag n → type ≠ BGP_ATTR_MP_REACH_NLRI → type ≠ BGP_ATTR_MP_UNREACH_NLRI →
  (type = BGP_ATTR_AS_PATH → take n (ahead s) ≠ [AS_SEQUENCE; 0]) →
  runs (Z.to_nat startp) (attr_value bc pr type flag (Z.of_nat n) startp p) s.
Proof.
  intros Hat H14 H15 H2. unfold attr_value. rewrite (proj2 (Z.eqb_neq _ _) H14), (proj2 (Z.eqb_neq _ _) H15).
  eapply runs_then; [|intros o s' []; by apply runs_ret].
  destruct (type =? BGP_ATTR_ORIGIN); [by apply origin_runs|].
  destruct (Z.eqb_spec type BGP_ATTR_AS_PATH); [by apply aspath_runs; [|apply H2]|].
  destruct (type =? BGP_ATTR_NEXT_HOP); [by apply nexthop_runs|].
  destruct (type =? BGP_ATTR_MULTI_EXIT_DISC); [by apply med_runs|].
  destruct (type =? BGP_ATTR_LOCAL_PREF); [by eapply local_pref_runs|].
  destruct (type =? BGP_ATTR_ATOMIC_AGGREGATE); [by eapply atomic_runs|].
  destruct (type =? BGP_ATTR_AGGREGATOR); [by eapply aggregator_runs|].
  destruct (type =? BGP_ATTR_COMMUNITIES); [by eapply community_runs|].
  destruct (type =? BGP_ATTR_ORIGINATOR_ID); [by eapply originator_id_runs|].
  destruct (type =? BGP_ATTR_CLUSTER_LIST); [by eapply cluster_list_runs|].
  destruct (type =? BGP_ATTR_EXT_COMMUNITIES); [by eapply ext_communities_runs|].
  by apply unknown_runs.
Qed.

End Handlers.

(** * The list of attributes *)

(** The attributes as RFC 1771 reads them: flags, type and value.  What does not fit
    ends the list. *)
Definition tlv_length (flag : Z) (rest : list Z) : option (Z * list Z) :=
  if CHECK_FLAG flag BGP_ATTR_FLAG_EXTLEN
  then match rest with a :: b :: r => Some (a * 256 + b, r) | _ => None end
  else match rest with a :: r => Some (a, r) | _ => None end.

Fixpoint tlvs (fuel : nat) (bs : list Z) : list (Z * Z * list Z) :=
  match fuel, bs with
  | S fuel, flag :: type :: rest =>
      match tlv_length flag rest with
      | Some (len, r) =>
          if Z.of_nat (length r) <? len then []
          else (flag, type, take (Z.to_nat len) r) :: tlvs fuel (drop (Z.to_nat len) r)
      | None => []
      end
  | _, _ => []
  end.

(** No multiprotocol attribute, and no AS path that is one empty sequence. *)
Definition benign (x : Z * Z * list Z) : Prop :=
  x.1.2 ≠ BGP_ATTR_MP_REACH_NLRI ∧ x.1.2 ≠ BGP_ATTR_MP_UNREACH_NLRI ∧
  (x.1.2 = BGP_ATTR_AS_PATH → x.2 ≠ [AS_SEQUENCE; 0]).

#[export] Instance benign_dec x : Decision (benign x).
Proof. unfold benign. apply _. Defined.

Lemma bitmap_runs seen type :
  length seen = 32%nat → is_u8 type →
  ∃ b seen', CHECK_BITMAP seen type = Ok b ∧ SET_BITMAP seen type = Ok seen' ∧ length seen' = 32%nat.
Proof.
  intros Hl Ht. unfold CHECK_BITMAP, SET_BITMAP, BITMAP_NBBY. unfold is_u8 in Ht.
  destruct (get_byte_in seen (type / 8)) as (c & Hc & _); [dm_lia|]. rewrite Hc. cbn [mbind res_bind].
  rewrite set_byte_in by dm_lia. eexists _, _. split_and!; [done|done|]. by rewrite length_insert.
Qed.

(** The header of an attribute, two octets of which are inside of the list. *)
Lemma header_in s :
  stream_ok s → s_getp s + 4 ≤ s_size s →
  ∃ flag type len lbs, is_u8 flag ∧ is_u8 type ∧ 0 ≤ len < 2^16 ∧
    stream_getc s = Ok (flag, skip 1 s) ∧ stream_getc (skip 1 s) = Ok (type, skip 2 s) ∧
    (if CHECK_FLAG flag BGP_ATTR_FLAG_EXTLEN then stream_getw else stream_getc) (skip 2 s) =
      Ok (len, skip (Z.to_nat (header_len flag)) s) ∧
    stream_ok (skip (Z.to_nat (header_len flag)) s) ∧
    Z.of_nat (length lbs) = header_len flag - 2 ∧
    ahead s = flag :: type :: lbs ++ ahead (skip (Z.to_nat (header_len flag)) s) ∧
    ∀ r, tlv_length flag (lbs ++ r) = Some (len, r).
Proof.
  intros Hs Hin. destruct (getc_in s Hs) as (flag & Hf & R1 & A1 & K1); [lia|].
  destruct (getc_in (skip 1 s) K1) as (type & Ht & R2 & A2 & K2); [cbn; lia|].
  rewrite skip_skip in R2, A2, K2. cbn [Nat.add] in *.
  unfold header_len, tlv_length. destruct (CHECK_FLAG flag BGP_ATTR_FLAG_EXTLEN) eqn:E.
  - destruct (getw_in (skip 2 s) K2) as (a & b & Ha & Hb & R3 & A3 & K3); [cbn; lia|].
    rewrite skip_skip in R3, A3, K3. exists flag, type, (a * 256 + b), [a; b].
    rewrite E. split_and!; first [done|by rewrite A1, A2, A3|unfold is_u8 in *; lia].
  - destruct (getc_in (skip 2 s) K2) as (a & Ha & R3 & A3 & K3); [cbn; lia|].
    rewrite skip_skip in R3, A3, K3. exists flag, type, a, [a].
    rewrite E. split_and!; first [done|by rewrite A1, A2, A3|unfold is_u8 in *; lia].
Qed.

Lemma attr_value_keeps bc pr type flag n startp p s p' s' :
  type ≠ BGP_ATTR_MP_REACH_NLRI → type ≠ BGP_ATTR_MP_UNREACH_NLRI →
  attr_value bc pr type flag n startp p s = Ok (Fine p', s') →
  pd_update p' = pd_update p ∧ pd_withdraw p' = pd_withdraw p.
Proof.
  intros H14 H15. unfold attr_value. rewrite (proj2 (Z.eqb_neq _ _) H14), (proj2 (Z.eqb_neq _ _) H15).
  match goal with |- (?m ≫= _) s = _ → _ => generalize m; intros m' end.
  unfold mbind, ST_bind. destruct (m' s) as [[[a|e] s1]|]; [|done..]. cbn. by intros [= <- _].
Qed.

Section Loop.
Context (bc : bconf) (pr : bpeer).

Lemma ahead_kept s s' (lo k n : nat) :
  kept lo s s' → s_getp s' = Z.of_nat k → (lo < k)%nat → (n ≤ k)%nat → s_getp s = Z.of_nat n →
  ahead s' = drop (k - n) (ahead s).
Proof.
  intros [] Hg Hlo Hnk Hn. unfold ahead. rewrite Hg, Hn, !Nat2Z.id, kp_data0 by done.
  rewrite drop_drop. f_equal. lia.
Qed.

Lemma attr_loop_runs fuel endp seen p s :
  stream_ok s → s_size s < 2^16 → length seen = 32%nat → s_getp s ≤ endp → endp + 2 ≤ s_size s →
  endp - s_getp s < Z.of_nat fuel →
  Forall benign (tlvs fuel (take (Z.to_nat (endp - s_getp s)) (ahead s))) →
  ∃ o s', attr_loop bc pr fuel endp seen p s = Ok (o, s') ∧ stream_ok s' ∧ s_size s' = s_size s ∧
    match o with
    | Fine p' => s_getp s' = endp ∧ pd_update p' = pd_update p ∧ pd_withdraw p' = pd_withdraw p
    | Refused _ => True
    end.
Proof.
  revert seen p s. induction fuel as [|fuel IH]; intros seen p s Hs Hsz Hseen Hge Hend Hfuel Hben; [lia|].
  cbn [attr_loop]. rewrite (st_bind_Ok _ _ _ s s) by done. cbv beta zeta.
  destruct (Z.ltb_spec (s_getp s) endp) as [Hlt|Hle].
  2:{ assert (s_getp s = endp) as E by lia. rewrite (proj2 (Z.eqb_eq _ _) E). cbn [negb]. by eexists _, s. }
  destruct (Z.ltb_spec (endp - s_getp s) BGP_ATTR_MIN_LEN) as [Hmin|Hmin]; [by eexists _, s|].
  unfold BGP_ATTR_MIN_LEN in Hmin.
  destruct (header_in s Hs) as (flag & type & len & lbs & Hf & Ht & Hlen & R1 & R2 & R3 & Hk & Hl & Hah & Htlv); [lia|].
  rewrite (st_bind_Ok _ _ _ _ _ R1), (st_bind_Ok _ _ _ _ _ R2), (st_bind_Ok _ _ _ _ _ R3).
  set (h := Z.to_nat (header_len flag)) in *. set (s1 := skip h s) in *.
  assert (Hh : Z.of_nat h = header_len flag ∧ 3 ≤ Z.of_nat h ≤ 4).
  { unfold h. destruct (header_len_cases flag) as [E|E]; rewrite E; lia. }
  destruct (bitmap_runs seen type Hseen Ht) as (twice & seen' & Hc & Hset & Hseen').
  rewrite (st_bind_Ok _ _ _ twice s1) by (unfold st_lift; by rewrite Hc).
  destruct twice; [by eexists _, s1|].
  rewrite (st_bind_Ok _ _ _ seen' s1) by (unfold st_lift; by rewrite Hset).
  rewrite (st_bind_Ok _ _ _ s1 s1) by done. cbv zeta.
  assert (Hg1 : s_getp s1 = s_getp s + Z.of_nat h) by done. rewrite Hg1.
  destruct (Z.ltb_spec endp (s_getp s + Z.of_nat h + len)) as [Hover|Hfits]; [by eexists _, s1|].
  set (n := Z.to_nat len). assert (Hn : len = Z.of_nat n) by lia. rewrite Hn.
  set (rest := take (Z.to_nat (endp - s_getp s - Z.of_nat h)) (ahead s1)).
  assert (take (Z.to_nat (endp - s_getp s)) (ahead s) = flag :: type :: lbs ++ rest) as Hreg.
  { rewrite Hah. replace (Z.to_nat (endp - s_getp s)) with (S (S (length lbs + Z.to_nat (endp - s_getp s - Z.of_nat h)))) by lia.
    cbn [take]. do 2 f_equal. by rewrite take_app_add. }
  pose proof (ahead_length_all s1 Hk) as Hla. change (s_size s1) with (s_size s) in Hla.
  assert (Hlr : Z.of_nat (length rest) = endp - s_getp s - Z.of_nat h) by (unfold rest; rewrite length_take; lia).
  rewrite Hreg in Hben. cbn [tlvs] in Hben. rewrite Htlv in Hben.
  rewrite (proj2 (Z.ltb_ge _ _)) in Hben by lia. fold n in Hben. apply Forall_cons in Hben as [(B1 & B2 & B3) Hben].
  cbn [fst snd] in B1, B2, B3.
  assert (take n rest = take n (ahead s1)) as Htk by (unfold rest; rewrite take_take; f_equal; lia).
  rewrite Htk in B3.
  destruct (attr_value_runs bc pr s1 (s_getp s) flag n type p) as (o & s2 & Hrun & Hkept); [|done..|].
  { split; [done|done|destruct Hs; lia|lia|]. change (s_size s1) with (s_size s). lia. }
  rewrite (st_bind_Ok _ _ _ _ _ Hrun). pose proof (kp_size _ _ _ Hkept) as Hsz2. change (s_size s1) with (s_size s) in Hsz2.
  destruct o as [p'|e]; [|eexists _, s2; split_and!; [done|apply Hkept|done|done]].
  rewrite (st_bind_Ok _ _ _ s2 s2) by done.
  destruct (Z.eqb_spec (s_getp s2) (s_getp s + Z.of_nat h + Z.of_nat n)) as [Hg2|Hg2]; cbn [negb].
  2:{ eexists _, s2. split_and!; [done|apply Hkept|done|done]. }
  assert (0 ≤ s_getp s) by (destruct Hs; lia).
  assert (ahead s2 = drop n (ahead s1)) as Ha2.
  { rewrite (ahead_kept s1 s2 (Z.to_nat (s_getp s)) (Z.to_nat (s_getp s) + h + n) (Z.to_nat (s_getp s) + h) Hkept);
      [f_equal; lia|lia..]. }
  destruct (IH seen' p' s2) as (o & s3 & Hrun3 & Hok3 & Hsz3 & Hg3); [apply Hkept|lia|done|lia|lia|lia| |].
  { rewrite Ha2. replace (take (Z.to_nat (endp - s_getp s2)) (drop n (ahead s1))) with (drop n rest); [done|].
    unfold rest. rewrite skipn_firstn_comm. f_equal. lia. }
  destruct (attr_value_keeps _ _ _ _ _ _ _ _ _ _ B1 B2 Hrun) as [<- <-].
  exists o, s3. split_and!; [done|done|congruence|done].
Qed.

End Loop.

(** * Reachability *)

Lemma psize_range plen : is_u8 plen → 0 ≤ PSIZE plen ≤ 32 ∧ (plen ≤ 32 → PSIZE plen ≤ 4).
Proof. unfold is_u8, PSIZE. intros. dm_lia. Qed.

Lemma sanity_loop_runs fuel d afi pnt fin :
  bytes_ok d → 0 ≤ pnt → fin ≤ Z.of_nat (length d) → fin - pnt < Z.of_nat fuel → ∃ b, sanity_loop fuel d afi pnt fin = Ok b.
Proof.
  intros Hb. revert pnt. induction fuel as [|fuel IH]; intros pnt H0 Hf Hfu; cbn [sanity_loop];
    (destruct (Z.ltb_spec pnt fin); [|by eexists]); [lia|].
  destruct (get_byte_in d pnt) as (plen & Hg & Hl); [lia|]. rewrite Hg. cbn [mbind res_bind].
  destruct (_ || _); [by eexists|]. destruct (_ <? _); [by eexists|].
  assert (is_u8 plen) as Hp by (by eapply bytes_ok_lookup).
  destruct (psize_range plen Hp). apply IH; lia.
Qed.

(** A run that leaves the buffer alone; without [upd] no route is announced. *)
Definition went (upd : bool) (x x' : urun) : Prop :=
  ur_ibuf x' = ur_ibuf x ∧ ∃ cs ns, ur_calls x' = ur_calls x ++ cs ∧ ur_notifies x' = ur_notifies x ++ ns ∧
  (upd = false → ∀ p a afi safi, bgp_update p a afi safi ∉ cs).

Lemma went_refl upd x : went upd x x.
Proof. split; [done|]. exists [], []. split_and!; [by rewrite app_nil_r..|]. set_solver. Qed.

Lemma went_trans upd x1 x2 x3 : went upd x1 x2 → went upd x2 x3 → went upd x1 x3.
Proof.
  intros [B1 (c1 & n1 & C1 & N1 & U1)] [B2 (c2 & n2 & C2 & N2 & U2)]. split; [congruence|].
  exists (c1 ++ c2), (n1 ++ n2). rewrite C2, C1, N2, N1, !app_assoc. split_and!; [done..|].
  intros E p a afi safi. rewrite elem_of_app. intros [?|?]; [by eapply U1|by eapply U2].
Qed.

Lemma went_emit upd c x :
  (upd = false → ∀ p a afi safi, c ≠ bgp_update p a afi safi) →
  ∃ x', emit c x = Ok (tt, x') ∧ went upd x x'.
Proof.
  intros Hc. eexists. split; [done|]. split; [done|]. exists [c], []. rewrite app_nil_r. split_and!; [done..|].
  intros E p a afi safi [= <-]%list_elem_of_singleton. by eapply (Hc E).
Qed.

Lemma went_notified upd n x : ∃ x', notified n x = Ok (tt, x') ∧ went upd x x'.
Proof.
  eexists. split; [done|]. split; [done|]. exists [], n. rewrite app_nil_r. split_and!; [done..|]. set_solver.
Qed.

Section Message.
Context (bc : bconf) (pr : bpeer) (answer : list call → call → Z).

Definition is_update (a : option attr) : bool := match a with Some _ => true | None => false end.

Lemma nlri_loop_runs fuel d a n pnt lim x :
  nl_afi n = AFI_IP → bytes_ok d → 0 ≤ pnt → lim ≤ Z.of_nat (length d) → lim - pnt < Z.of_nat fuel →
  ∃ r x', nlri_loop answer fuel d a n pnt lim x = Ok (r, x') ∧ went (is_update a) x x'.
Proof.
  intros Hafi Hb. revert pnt x. induction fuel as [|fuel IH]; intros pnt x H0 Hf Hfu; cbn [nlri_loop];
    (destruct (Z.ltb_spec pnt lim); [|eexists _, x; split; [done|apply went_refl]]); [lia|].
  destruct (get_byte_in d pnt) as (plen & Hg & Hl); [lia|].
  assert (is_u8 plen) as Hp by (by eapply bytes_ok_lookup). destruct (psize_range plen Hp) as [Hps H4].
  rewrite (st_bind_Ok _ _ _ plen x) by (unfold st_lift; by rewrite Hg). cbv zeta. rewrite Hafi.
  change (AFI_IP =? AFI_IP) with true. change (AFI_IP =? AFI_IP6) with false. cbn [andb].
  destruct (Z.ltb_spec 32 plen) as [H32|H32]; cbn [orb]; [eexists _, x; split; [done|apply went_refl]|].
  destruct (Z.ltb_spec lim (pnt + 1 + PSIZE plen)) as [Hov|Hfit]; [eexists _, x; split; [done|apply went_refl]|].
  pose proof (get_bytes_in d (pnt + 1) (PSIZE plen) ltac:(lia) ltac:(lia) ltac:(lia)) as Hbs.
  set (bs := take _ (drop _ d)) in Hbs. rewrite (st_bind_Ok _ _ _ bs x) by (unfold st_lift; by rewrite Hbs). assert (Z.of_nat (length bs) ≤ 4) as Hlb by (unfold bs; rewrite length_take; lia).
  assert (∃ addr, put_bytes (replicate 16 0) 0 bs = Ok addr ∧ length addr = 16%nat) as (addr & Hput & Hla).
  { rewrite put_bytes_in by (rewrite ?length_replicate; lia). eexists. split; [done|].
    rewrite !length_app, length_take, length_drop, length_replicate. lia. }
  rewrite (st_bind_Ok _ _ _ addr x) by (unfold st_lift; by rewrite Hput).
  assert (∃ m, (if nl_safi n =? SAFI_UNICAST then IN_CLASSD addr else Ok false) = Ok m) as [m Hm].
  { destruct (_ =? SAFI_UNICAST); [|by eexists]. unfold IN_CLASSD.
    destruct (get_byte_in addr 0) as (c & -> & _); [lia|]. by eexists. }
  rewrite (st_bind_Ok _ _ _ m x) by (unfold st_lift; by rewrite Hm).
  destruct m.
  { destruct (went_notified (is_update a) [update_err BGP_NOTIFY_UPDATE_INVAL_NETWORK] x) as (x1 & H1 & Hw).
    eexists _, x1. rewrite (st_bind_Ok _ _ _ _ _ H1). by split. }
  rewrite (st_bind_Ok _ _ _ false x) by done. cbv iota. rewrite (st_bind_Ok _ _ _ x x) by done.
  set (c := match a with Some a => _ | None => _ end).
  destruct (went_emit (is_update a) c x) as (x1 & H1 & Hw1).
  { unfold c. by destruct a. }
  rewrite (st_bind_Ok _ _ _ _ _ H1). destruct (_ <? 0); [by eexists _, x1|].
  destruct (IH (pnt + 1 + PSIZE plen) x1) as (r & x2 & H2 & Hw2); [lia..|].
  exists r, x2. split; [done|by eapply went_trans].
Qed.

Lemma bgp_nlri_parse_runs a n x :
  nl_afi n = AFI_IP → stream_ok (ur_ibuf x) → 0 ≤ nl_nlri n → 0 ≤ nl_length n → nl_nlri n + nl_length n ≤ s_size (ur_ibuf x) →
  ∃ r x', bgp_nlri_parse pr answer a n x = Ok (r, x') ∧ went (is_update a) x x'.
Proof.
  intros Hafi Hs H0 Hl Hin. unfold bgp_nlri_parse. destruct (negb _); [eexists _, x; split; [done|apply went_refl]|].
  rewrite (st_bind_Ok _ _ _ x x) by done. destruct Hs. apply nlri_loop_runs; [done|done|done|lia|lia].
Qed.

(** Without multiprotocol routes only IPv4 unicast is processed. *)
Lemma mp_family_none afi safi mp x :
  nl_length (pd_update mp) = 0 → nl_length (pd_withdraw mp) = 0 → mp_family pr answer afi safi mp x = Ok (tt, x).
Proof. intros H1 H2. unfold mp_family. by rewrite H1, H2. Qed.

Lemma eor_runs afi safi x : ∃ x', eor pr afi safi x = Ok (tt, x') ∧ went false x x'.
Proof.
  unfold eor. destruct (went_emit false (end_of_rib afi safi) x) as (x1 & H1 & Hw1); [done|].
  rewrite (st_bind_Ok _ _ _ _ _ H1). destruct (bp_nsf pr afi safi); [|by exists x1].
  destruct (went_emit false (bgp_clear_stale_route afi safi) x1) as (x2 & H2 & Hw2); [done|].
  exists x2. split; [done|by eapply went_trans].
Qed.

Lemma mp_family_eor_none afi safi wlen mp x :
  pd_update mp = nlri_zero → pd_withdraw mp = nlri_zero → afi ≠ 0 → mp_family_eor pr answer afi safi wlen mp x = Ok (tt, x).
Proof.
  intros H1 H2 Hafi. unfold mp_family_eor. destruct (bp_afc pr afi safi); [|done].
  rewrite (st_bind_Ok _ _ _ tt x) by (apply mp_family_none; by rewrite ?H1, ?H2).
  rewrite H2. unfold nlri_is. cbn [nl_afi nlri_zero]. rewrite (proj2 (Z.eqb_neq 0 afi)) by done.
  cbn [andb]. by rewrite andb_false_r.
Qed.

(** IPv4 routes inside of the buffer, or none. *)
Definition nlri_in (s : stream) (n : bgp_nlri) : Prop :=
  nl_length n = 0 ∨ (nl_afi n = AFI_IP ∧ 0 ≤ nl_nlri n ∧ 0 ≤ nl_length n ∧ nl_nlri n + nl_length n ≤ s_size s).

Lemma went_true x x' : went false x x' → went true x x'.
Proof. intros [Hb (cs & ns & Hc & Hn & _)]. split; [done|]. by exists cs, ns. Qed.

Lemma parse_when_runs a n x :
  stream_ok (ur_ibuf x) → nlri_in (ur_ibuf x) n →
  ∃ x', (if negb (nl_length n =? 0) then _ ← bgp_nlri_parse pr answer a n; mret tt else mret tt) x = Ok (tt, x') ∧
    went (is_update a) x x'.
Proof.
  intros Hs Hn. destruct (Z.eqb_spec (nl_length n) 0) as [E|E]; cbn [negb]; [exists x; split; [done|apply went_refl]|].
  destruct Hn as [Hn|(Ha & H0 & Hl & Hin)]; [done|].
  destruct (bgp_nlri_parse_runs a n x Ha Hs H0 Hl Hin) as (r & x' & Hr & Hw). exists x'.
  by rewrite (st_bind_Ok _ _ _ _ _ Hr).
Qed.

Lemma update_process_runs wlen alen withdraw update mp x :
  stream_ok (ur_ibuf x) → nlri_in (ur_ibuf x) withdraw → nlri_in (ur_ibuf x) update →
  pd_update mp = nlri_zero → pd_withdraw mp = nlri_zero →
  ∃ ok x', update_process bc pr answer wlen alen withdraw update mp x = Ok (ok, x') ∧ went ok x x'.
Proof.
  intros Hs Hw Hu Hm1 Hm2. unfold update_process.
  assert (∀ ok x1, went ok x x1 → ∃ ok' x', (if negb ok then mret false else
      mp_family_eor pr answer AFI_IP SAFI_MULTICAST wlen mp;;
      mp_family_eor pr answer AFI_IP6 SAFI_UNICAST wlen mp;;
      mp_family_eor pr answer AFI_IP6 SAFI_MULTICAST wlen mp;;
      (if bp_afc pr AFI_IP SAFI_MPLS_VPN then
         (if negb (nl_length (pd_update mp) =? 0) && nlri_is AFI_IP BGP_SAFI_VPNV4 (pd_update mp)
          then emit (bgp_nlri_parse_vpnv4 (Some (pd_attr mp)) (pd_update mp)) else mret tt);;
         (if negb (nl_length (pd_withdraw mp) =? 0) && nlri_is AFI_IP BGP_SAFI_VPNV4 (pd_withdraw mp)
          then emit (bgp_nlri_parse_vpnv4 None (pd_withdraw mp)) else mret tt)
       else mret tt);; mret true) x1 = Ok (ok', x') ∧ went ok' x x') as Hrest.
  { intros ok x1 Hx1. destruct ok; cbn [negb]; [|by exists false, x1]. exists true, x1. split; [|done].
    rewrite !(st_bind_Ok _ _ _ tt x1) by (by apply mp_family_eor_none). rewrite Hm1, Hm2. cbn.
    by destruct (bp_afc pr AFI_IP SAFI_MPLS_VPN). }
  destruct (bp_afc pr AFI_IP SAFI_UNICAST).
  2:{ rewrite (st_bind_Ok _ _ _ true x) by done. apply Hrest, went_refl. }
  destruct (parse_when_runs None withdraw x Hs Hw) as (x1 & H1 & W1).
  pose proof W1 as [B1 _].
  match goal with |- ∃ ok x', ((?first ≫= λ _, ?rest) ≫= ?k) x = _ ∧ _ =>
    assert (∃ ok x2, rest x1 = Ok (ok, x2) ∧ went ok x x2) as (ok & x2 & H2 & W2) end.
  2:{ erewrite st_bind_Ok; [by apply (Hrest ok x2)|]. erewrite st_bind_Ok; [exact H2|exact H1]. }
  destruct (Z.eqb_spec (nl_length update) 0) as [E|E]; cbn [negb].
  - rewrite (st_bind_Ok _ _ _ false x1) by done. cbv iota.
    rewrite (st_bind_Ok _ _ _ tt x1) by (apply mp_family_none; by rewrite ?Hm1, ?Hm2).
    destruct ((alen =? 0) && (wlen =? 0)).
    + destruct (eor_runs AFI_IP SAFI_UNICAST x1) as (x2 & H2 & W2). rewrite (st_bind_Ok _ _ _ _ _ H2).
      exists true, x2. split; [done|]. apply went_true. by eapply went_trans.
    + rewrite (st_bind_Ok _ _ _ tt x1) by done. exists true, x1. split; [done|by apply went_true].
  - destruct (bgp_attr_check bc pr (pd_attr mp)) as [type|].
    + destruct (went_notified false [Notify BGP_NOTIFY_UPDATE_ERR BGP_NOTIFY_UPDATE_MISS_ATTR [type]] x1) as (x2 & H2 & W2).
      exists false, x2. split; [|by eapply went_trans].
      rewrite (st_bind_Ok _ _ _ true x2) by (by rewrite (st_bind_Ok _ _ _ _ _ H2)). done.
    + destruct Hu as [Hu|(Ha & H0 & Hl & Hin)]; [done|].
      destruct (bgp_nlri_parse_runs (Some (pd_attr mp)) update x1 Ha) as (r & x2 & H2 & W2); [by rewrite B1|done..|by rewrite B1|].
      rewrite (st_bind_Ok _ _ _ false x2) by (by rewrite (st_bind_Ok _ _ _ _ _ H2)). cbv iota.
      rewrite (st_bind_Ok _ _ _ tt x2) by (apply mp_family_none; by rewrite ?Hm1, ?Hm2).
      assert (went true x x2) as W by (eapply went_trans; [by apply went_true|done]).
      destruct ((alen =? 0) && (wlen =? 0)).
      * destruct (eor_runs AFI_IP SAFI_UNICAST x2) as (x3 & H3 & W3). rewrite (st_bind_Ok _ _ _ _ _ H3).
        exists true, x3. split; [done|]. eapply went_trans; [done|by apply went_true].
      * rewrite (st_bind_Ok _ _ _ tt x2) by done. by exists true, x2.
Qed.

Lemma on_input_Ok {A} (m : ST stream A) x a s' :
  m (ur_ibuf x) = Ok (a, s') → on_input m x = Ok (a, URun s' (ur_calls x) (ur_notifies x)).
Proof. intros Hm. unfold on_input. by rewrite Hm. Qed.

(** No route is announced between [x] and [x']. *)
Definition announces_none (x x' : urun) : Prop :=
  ∃ cs, ur_calls x' = ur_calls x ++ cs ∧ ∀ p a afi safi, bgp_update p a afi safi ∉ cs.

Lemma announces_none_same x x' : ur_calls x' = ur_calls x → announces_none x x'.
Proof. intros H. exists []. rewrite app_nil_r. split; [done|]. set_solver. Qed.

Definition ends (x : urun) (r : Z) (x' : urun) : Prop := r = 0 ∨ (r = -1 ∧ announces_none x x').

Lemma plain_nlri_runs (n : nat) x :
  stream_ok (ur_ibuf x) → s_getp (ur_ibuf x) + Z.of_nat n ≤ s_size (ur_ibuf x) →
  ∃ o x', plain_nlri (Z.of_nat n) x = Ok (o, x') ∧ ur_calls x' = ur_calls x ∧
    match o with
    | Some l => ur_ibuf x' = skip n (ur_ibuf x) ∧ stream_ok (ur_ibuf x') ∧ nlri_in (ur_ibuf x) l
    | None => True
    end.
Proof.
  intros Hs Hin. unfold plain_nlri. rewrite (st_bind_Ok _ _ _ x x) by done. cbv zeta.
  pose proof Hs as [Hd _ _ _ Hg Hb].
  destruct (sanity_loop_runs (S n) (s_data (ur_ibuf x)) AFI_IP (s_getp (ur_ibuf x)) (s_getp (ur_ibuf x) + Z.of_nat n))
    as [ok Hok]; [done|lia|lia|lia|].
  assert (on_input (bgp_nlri_sanity_check AFI_IP (s_getp (ur_ibuf x)) (Z.of_nat n)) x = Ok (ok, x)) as H1.
  { rewrite (on_input_Ok _ _ ok (ur_ibuf x)); [by destruct x|]. unfold bgp_nlri_sanity_check. rewrite (st_bind_Ok _ _ _ (ur_ibuf x) (ur_ibuf x)) by done.
    unfold st_lift. by rewrite Nat2Z.id, Hok. }
  rewrite (st_bind_Ok _ _ _ _ _ H1). destruct ok; cbn [negb].
  - destruct (forward_in (ur_ibuf x) n Hs Hin) as [Hf Hk].
    rewrite (st_bind_Ok _ _ _ _ _ (on_input_Ok _ _ _ _ Hf)). eexists _, _. split; [done|]. split; [done|].
    split_and!; [done|done|]. right. cbn. split_and!; [done|lia..].
  - eexists _, _. split; [by erewrite st_bind_Ok by done|]. done.
Qed.

(** The attributes of an UPDATE message. *)
Definition update_attrs (bs : list Z) : list (Z * Z * list Z) :=
  match bs with
  | a :: b :: r =>
      match drop (Z.to_nat (a * 256 + b)) r with
      | c :: d :: r => tlvs (S (Z.to_nat (c * 256 + d))) (take (Z.to_nat (c * 256 + d)) r)
      | _ => []
      end
  | _ => []
  end.

Lemma update_tail wlen alen withdraw mp x (n : nat) :
  stream_ok (ur_ibuf x) → s_size (ur_ibuf x) < 2^16 → s_getp (ur_ibuf x) + Z.of_nat n ≤ s_size (ur_ibuf x) →
  nlri_in (ur_ibuf x) withdraw → pd_update mp = nlri_zero → pd_withdraw mp = nlri_zero →
  ∃ r x', (update ← (if negb (Z.of_nat n =? 0) then plain_nlri (Z.of_nat n) else mret (Some nlri_zero));
    match update with
    | None => mret (-1)
    | Some update =>
        ok ← update_process bc pr answer wlen alen withdraw update mp;
        if negb ok then mret (-1) else emit Receive_UPDATE_message;; mret 0
    end) x = Ok (r, x') ∧ ends x r x'.
Proof.
  intros Hs H16 Hin Hw Hm1 Hm2.
  assert (∃ o x1, (if negb (Z.of_nat n =? 0) then plain_nlri (Z.of_nat n) else mret (Some nlri_zero)) x = Ok (o, x1) ∧
    ur_calls x1 = ur_calls x ∧
    match o with
    | Some l => stream_ok (ur_ibuf x1) ∧ s_size (ur_ibuf x1) = s_size (ur_ibuf x) ∧ nlri_in (ur_ibuf x) l
    | None => True end) as (o & x1 & H1 & Hc1 & Ho).
  { destruct (Z.eqb_spec (Z.of_nat n) 0) as [E|E]; cbn [negb].
    - exists (Some nlri_zero), x. split_and!; [done..|by left].
    - destruct (plain_nlri_runs n x Hs Hin) as (o & x1 & H1 & Hc & Ho). exists o, x1. split_and!; [done|done|].
      destruct o as [l|]; [|done]. destruct Ho as (Hb & Hok & Hn). by rewrite Hb in *. }
  rewrite (st_bind_Ok _ _ _ _ _ H1). destruct o as [l|].
  2:{ exists (-1), x1. split; [done|]. right. split; [done|by apply announces_none_same]. }
  destruct Ho as (Hok & Hsz & Hl).
  destruct (update_process_runs wlen alen withdraw l mp x1) as (ok & x2 & H2 & [_ (cs & ns & Hc2 & _ & Hu)]); try done.
  { unfold nlri_in in *. by rewrite Hsz. } { unfold nlri_in in *. by rewrite Hsz. }
  rewrite (st_bind_Ok _ _ _ _ _ H2). destruct ok; cbn [negb].
  - eexists 0, _. split; [by erewrite st_bind_Ok by done|by left].
  - exists (-1), x2. split; [done|]. right. split; [done|]. exists cs. split; [congruence|by apply Hu].
Qed.

Lemma ends_refuse x y sub : ur_calls y = ur_calls x → ∃ r x', refuse_update sub y = Ok (r, x') ∧ ends x r x'.
Proof.
  intros Hc. eexists (-1), _. split; [done|]. right. split; [done|]. by apply announces_none_same.
Qed.

Lemma ends_from x y r x' : ur_calls y = ur_calls x → ends y r x' → ends x r x'.
Proof. intros Hc [?|(? & cs & ? & ?)]; [by left|right]. split; [done|]. exists cs. by rewrite <- Hc. Qed.

(** The part of the message from the length of the attributes on. *)
Definition update_mid (fin wlen : Z) (withdraw : bgp_nlri) : ST urun Z :=
  x ← st_get;
  if fin <? s_getp (ur_ibuf x) + 2 then refuse_update BGP_NOTIFY_UPDATE_MAL_ATTR
  else
    attribute_len ← on_input stream_getw;
    x ← st_get;
    if fin <? s_getp (ur_ibuf x) + attribute_len then refuse_update BGP_NOTIFY_UPDATE_MAL_ATTR
    else
      let none := Parsed attr_zero nlri_zero nlri_zero in
      mp ← (if negb (attribute_len =? 0) then on_input (bgp_attr_parse bc pr attribute_len none)
            else mret (Fine none));
      match mp with
      | Refused e => notified e;; mret (-1)
      | Fine mp =>
          x ← st_get;
          let update_len := u16 (fin - s_getp (ur_ibuf x)) in
          update ← (if negb (update_len =? 0) then plain_nlri update_len else mret (Some nlri_zero));
          match update with
          | None => mret (-1)
          | Some update =>
              ok ← update_process bc pr answer wlen attribute_len withdraw update mp;
              if negb ok then mret (-1)
              else emit Receive_UPDATE_message;; mret 0
          end
      end.

Lemma update_mid_runs fin wlen withdraw x :
  stream_ok (ur_ibuf x) → s_size (ur_ibuf x) < 2^16 → s_getp (ur_ibuf x) ≤ fin → fin + 2 ≤ s_size (ur_ibuf x) →
  nlri_in (ur_ibuf x) withdraw →
  Forall benign match take (Z.to_nat (fin - s_getp (ur_ibuf x))) (ahead (ur_ibuf x)) with
    | c :: d :: r => tlvs (S (Z.to_nat (c * 256 + d))) (take (Z.to_nat (c * 256 + d)) r) | _ => [] end →
  ∃ r x', update_mid fin wlen withdraw x = Ok (r, x') ∧ ends x r x'.
Proof.
  destruct x as [s calls nots]. intros Hs H16 Hfin Hend Hw Hben. cbn [ur_ibuf] in *. unfold update_mid.
  rewrite (st_bind_Ok _ _ _ (URun s calls nots) (URun s calls nots)) by done. cbn [ur_ibuf].
  destruct (Z.ltb_spec fin (s_getp s + 2)); [by apply ends_refuse|].
  destruct (getw_in s Hs) as (a & b & Ha & Hb & Hr & Hah & Hk); [lia|].
  rewrite (st_bind_Ok _ _ _ _ _ (on_input_Ok _ (URun s calls nots) _ _ Hr)). cbn [ur_ibuf ur_calls ur_notifies].
  set (alen := a * 256 + b) in *. assert (0 ≤ alen) by (unfold is_u8 in *; unfold alen; lia).
  set (s1 := skip 2 s) in *. rewrite (st_bind_Ok _ _ _ (URun s1 calls nots) (URun s1 calls nots)) by done. cbn [ur_ibuf].
  assert (Hg1 : s_getp s1 = s_getp s + 2) by done.
  destruct (Z.ltb_spec fin (s_getp s1 + alen)); [by apply ends_refuse|].
  rewrite Hah in Hben. replace (Z.to_nat (fin - s_getp s)) with (S (S (Z.to_nat (fin - s_getp s1)))) in Hben by lia.
  cbn [take] in Hben. fold alen in Hben. rewrite take_take, Nat.min_l in Hben by lia.
  assert (∃ o s2, (if negb (alen =? 0) then on_input (bgp_attr_parse bc pr alen (Parsed attr_zero nlri_zero nlri_zero))
      else mret (Fine (Parsed attr_zero nlri_zero nlri_zero))) (URun s1 calls nots) = Ok (o, URun s2 calls nots) ∧
    stream_ok s2 ∧ s_size s2 = s_size s ∧
    match o with Fine p => s_getp s2 = s_getp s1 + alen ∧ pd_update p = nlri_zero ∧ pd_withdraw p = nlri_zero
    | Refused _ => True end) as (o & s2 & Hrun & Hs2 & Hsz2 & Ho).
  { destruct (Z.eqb_spec alen 0) as [E|E]; cbn [negb].
    { exists (Fine (Parsed attr_zero nlri_zero nlri_zero)), s1. split_and!; (done || lia). }
    destruct (attr_loop_runs bc pr (S (Z.to_nat alen)) (s_getp s1 + alen) (replicate 32 0)
      (Parsed attr_zero nlri_zero nlri_zero) s1) as (o & s2 & Hr2 & Hok & Hsz & Ho); try done; try (cbn; lia).
    { by replace (s_getp s1 + alen - s_getp s1) with alen by lia. }
    exists o, s2. split_and!; [|done..]. apply on_input_Ok. cbn [ur_ibuf]. unfold bgp_attr_parse.
    by rewrite (st_bind_Ok _ _ _ s1 s1). }
  cbv zeta. rewrite (st_bind_Ok _ _ _ _ _ Hrun). destruct o as [mp|e].
  2:{ eexists (-1), _. split; [by erewrite st_bind_Ok by done|]. right. split; [done|by apply announces_none_same]. }
  destruct Ho as (Hg2 & Hm1 & Hm2).
  rewrite (st_bind_Ok _ _ _ (URun s2 calls nots) (URun s2 calls nots)) by done. cbn [ur_ibuf].
  assert (0 ≤ s_getp s2) by (destruct Hs2; lia).
  rewrite u16_id by (unfold is_u16; lia). replace (fin - s_getp s2) with (Z.of_nat (Z.to_nat (fin - s_getp s2))) by lia.
  destruct (update_tail wlen alen withdraw mp (URun s2 calls nots) (Z.to_nat (fin - s_getp s2))) as (r & x' & Hr3 & He);
    cbn [ur_ibuf]; try done; try lia; [unfold nlri_in in *; by rewrite Hsz2|].
  exists r, x'. split; [exact Hr3|by eapply ends_from].
Qed.

(** C20: on an UPDATE message of any octets, with the exceptions below, bgp_update_receive
    returns 0 or -1: it never reads outside of the input buffer, every loop ends, and when
    the message is refused no route is announced.  The exceptions: the message has no
    multiprotocol attributes; no AS path of it is a single empty sequence, which
    aspath_firstas_check reads too far ([empty_sequence_overreads]); and the buffer, of less
    than 64 KiB, has two more octets behind the message, for without them the header of a
    last attribute is read past its end ([attr_header_overreads]). *)
Theorem bgp_update_receive_safe x (size : nat) :
  stream_ok (ur_ibuf x) → s_size (ur_ibuf x) < 2^16 →
  s_getp (ur_ibuf x) + Z.of_nat size + 2 ≤ s_size (ur_ibuf x) →
  Forall benign (update_attrs (take size (ahead (ur_ibuf x)))) →
  ∃ r x', bgp_update_receive bc pr answer (Z.of_nat size) x = Ok (r, x') ∧
    (r = 0 ∨ (r = -1 ∧ announces_none x x')).
Proof.
  destruct x as [s calls nots]. intros Hs H16 Hin Hben. cbn [ur_ibuf] in *. unfold bgp_update_receive.
  destruct (negb (bp_established pr)).
  { eexists (-1), _. split; [by erewrite st_bind_Ok by done|]. right. split; [done|by apply announces_none_same]. }
  rewrite (st_bind_Ok _ _ _ (URun s calls nots) (URun s calls nots)) by done. cbn [ur_ibuf].
  destruct (Z.ltb_spec (s_getp s + Z.of_nat size) (s_getp s + 2)); [by apply ends_refuse|].
  destruct (getw_in s Hs) as (a & b & Ha & Hb & Hr & Hah & Hk); [lia|].
  rewrite (st_bind_Ok _ _ _ _ _ (on_input_Ok _ (URun s calls nots) _ _ Hr)). cbn [ur_ibuf ur_calls ur_notifies].
  assert (0 ≤ a * 256 + b) by (unfold is_u8 in *; lia).
  set (n := Z.to_nat (a * 256 + b)) in *. assert (Hn : a * 256 + b = Z.of_nat n) by (unfold n; lia). rewrite Hn.
  set (s1 := skip 2 s) in *. rewrite (st_bind_Ok _ _ _ (URun s1 calls nots) (URun s1 calls nots)) by done. cbn [ur_ibuf].
  assert (Hg1 : s_getp s1 = s_getp s + 2) by done. assert (Hsz1 : s_size s1 = s_size s) by done.
  destruct (Z.ltb_spec (s_getp s + Z.of_nat size) (s_getp s1 + Z.of_nat n)); [by apply ends_refuse|].
  assert (∃ o x2, (if 0 <? Z.of_nat n then plain_nlri (Z.of_nat n) else mret (Some nlri_zero)) (URun s1 calls nots) = Ok (o, x2) ∧
    ur_calls x2 = calls ∧ match o with Some l => ur_ibuf x2 = skip n s1 ∧ nlri_in s1 l | None => True end)
    as (o & x2 & H2 & Hc2 & Ho).
  { destruct (Z.ltb_spec 0 (Z.of_nat n)) as [E|E].
    - destruct (plain_nlri_runs n (URun s1 calls nots)) as (o & x2 & H2 & Hc & Ho); cbn [ur_ibuf]; [done|lia|].
      exists o, x2. split_and!; [done|done|]. destruct o; [|done]. by destruct Ho as (? & ? & ?).
    - exists (Some nlri_zero), (URun s1 calls nots). split_and!; [done..| |by left].
      replace n with 0%nat by lia. by rewrite skip_0. }
  rewrite (st_bind_Ok _ _ _ _ _ H2). destruct o as [l|].
  2:{ exists (-1), x2. split; [done|]. right. split; [done|by apply announces_none_same]. }
  destruct Ho as [Hb2 Hl].
  destruct (forward_in s1 n Hk) as [_ Hk2]; [lia|].
  assert (Ha2 : ahead (skip n s1) = drop n (ahead s1)).
  { unfold ahead. rewrite drop_drop. f_equal. cbn. destruct Hs. lia. }
  assert (Hg2 : s_getp (skip n s1) = s_getp s + 2 + Z.of_nat n) by done.
  assert (Hsz2 : s_size (skip n s1) = s_size s) by done.
  destruct (update_mid_runs (s_getp s + Z.of_nat size) (Z.of_nat n) l x2) as (r & x' & Hr3 & He);
    rewrite ?Hb2, ?Hsz2, ?Hg2; try done; try lia.
  { rewrite Ha2. replace size with (S (S (size - 2))) in Hben by lia. rewrite Hah in Hben.
    cbn [take update_attrs] in Hben. fold n in Hben. rewrite skipn_firstn_comm in Hben.
    by replace (Z.to_nat (s_getp s + Z.of_nat size - (s_getp s + 2 + Z.of_nat n))) with (size - 2 - n)%nat by lia. }
  exists r, x'. split; [exact Hr3|by eapply ends_from].
Qed.

End Message.
