(* ===== verification/BgpAttrRound.v ===== *)
(** Attributes arrive as they were sent: what bgp_packet_attribute writes for an
    internal peer, bgp_attr_parse reads back. *)

From stdpp Require Import strings sorting.
From S2P Require Import Prelude Prefix Text Stream StreamCalc Hash Aspath Community CommunityFacts CommunityIntern Decision BgpAttr BgpAttrFacts BgpAttrSafe.

(** * Attributes on the wire *)

Abbreviation tlv := (Z * Z * list Z)%type.

Definition tlv_bytes (t : tlv) : list Z :=
  let '(flag, type, v) := t in
  flag :: type :: (if CHECK_FLAG flag BGP_ATTR_FLAG_EXTLEN then be16 (Z.of_nat (length v)) else [Z.of_nat (length v)]) ++ v.

Definition tlvs_bytes (l : list tlv) : list Z := l ≫= tlv_bytes.

Definition tlv_ok (t : tlv) : Prop :=
  let '(flag, type, v) := t in
  is_u8 flag ∧ is_u8 type ∧ bytes_ok v ∧
  Z.of_nat (length v) < (if CHECK_FLAG flag BGP_ATTR_FLAG_EXTLEN then 2^16 else 256).

Lemma tlv_length_of t : Z.of_nat (length (tlv_bytes t)) = header_len t.1.1 + Z.of_nat (length t.2).
Proof.
  destruct t as [[flag type] v]. unfold tlv_bytes, header_len. cbn [fst snd].
  destruct (CHECK_FLAG flag BGP_ATTR_FLAG_EXTLEN); cbn [length app be16]; lia.
Qed.

(** * The bitmap of types *)

Definition seen_rep (seen : list Z) (l : list Z) : Prop :=
  length seen = 32%nat ∧ ∀ type, is_u8 type → CHECK_BITMAP seen type = Ok (bool_decide (type ∈ l)).

Lemma bit_test c i : 0 ≤ i → CHECK_FLAG c (Z.shiftl 1 i) = Z.testbit c i.
Proof.
  intros Hi. unfold CHECK_FLAG. rewrite Z.shiftl_1_l.
  destruct (Z.eqb_spec (Z.land c (2^i)) 0) as [E|E]; cbn [negb]; symmetry.
  - assert (Z.testbit (Z.land c (2^i)) i = false) as Hb by (rewrite E; apply Z.bits_0).
    rewrite Z.land_spec, Z.pow2_bits_true in Hb by done. by rewrite andb_true_r in Hb.
  - destruct (Z.testbit c i) eqn:Hb; [done|]. destruct E. apply Z.bits_inj'. intros j Hj.
    rewrite Z.land_spec, Z.pow2_bits_eqb, Z.bits_0 by done. by destruct (Z.eqb_spec i j) as [<-|]; rewrite ?Hb, ?andb_false_r.
Qed.

Lemma seen_empty : seen_rep (replicate 32 0) [].
Proof.
  split; [done|]. intros type Ht. unfold CHECK_BITMAP, BITMAP_NBBY.
  destruct (get_byte_in (replicate 32 0) (type / 8)) as (c & Hc & Hl).
  { rewrite length_replicate. unfold is_u8 in Ht. dm_lia. }
  rewrite Hc. apply lookup_replicate in Hl as [-> _]. cbn [mbind res_bind]. by f_equal.
Qed.

Lemma seen_add seen l type :
  seen_rep seen l → is_u8 type → ∃ seen', SET_BITMAP seen type = Ok seen' ∧ seen_rep seen' (type :: l).
Proof.
  intros [Hl Hc] Ht. unfold SET_BITMAP, BITMAP_NBBY.
  destruct (get_byte_in seen (type / 8)) as (c & Hg & Hlk); [unfold is_u8 in Ht; dm_lia|]. rewrite Hg. cbn [mbind res_bind].
  rewrite set_byte_in by (unfold is_u8 in Ht; dm_lia). eexists. split; [done|]. split; [by rewrite length_insert|].
  intros t Htt. specialize (Hc t Htt). unfold CHECK_BITMAP, BITMAP_NBBY in *.
  assert (0 ≤ type mod 8 < 8 ∧ 0 ≤ t mod 8 < 8 ∧ 0 ≤ type / 8 ∧ 0 ≤ t / 8) as (Hm1 & Hm2 & Hd1 & Hd2)
    by (unfold is_u8 in *; dm_lia).
  destruct (get_byte_in seen (t / 8)) as (c' & Hg' & Hlk'); [unfold is_u8 in Htt; dm_lia|].
  rewrite Hg' in Hc. cbn [mbind res_bind] in Hc. injection Hc as Hc. rewrite bit_test in Hc by lia.
  destruct (decide (t / 8 = type / 8)) as [E|E].
  - rewrite E in *. rewrite Hlk in Hlk'. injection Hlk' as <-.
    rewrite (proj2 (get_byte_Ok _ _ (u8 (SET_FLAG c (Z.shiftl 1 (type mod 8)))))).
    2:{ split; [lia|]. apply list_lookup_insert_eq. by eapply lookup_lt_Some. }
    cbn [mbind res_bind]. f_equal. rewrite bit_test by lia. unfold u8, SET_FLAG.
    rewrite Z.mod_pow2_bits_low by lia. rewrite Z.lor_spec, Hc, Z.shiftl_1_l, Z.pow2_bits_eqb by lia.
    destruct (Z.eqb_spec (type mod 8) (t mod 8)) as [E2|E2].
    + rewrite orb_true_r. assert (t = type) as -> by dm_lia. rewrite bool_decide_true; [done|left].
    + rewrite orb_false_r. apply bool_decide_ext. rewrite elem_of_cons. split; [by right|]. intros [->|?]; [done|done].
  - rewrite (proj2 (get_byte_Ok _ _ c')); [|split; [lia|rewrite list_lookup_insert_ne by lia; done]].
    cbn [mbind res_bind]. f_equal. rewrite bit_test by lia. rewrite Hc. apply bool_decide_ext. rewrite elem_of_cons.
    split; [by right|]. intros [->|?]; [done|done].
Qed.

(** * Reading a list of attributes *)

Section Receive.
Context (bc : bconf) (pr : bpeer).

(** The buffer is at the value of an attribute that begins at [startp]. *)
Record framed (s : stream) (startp : Z) (t : tlv) (rest : list Z) : Prop := Framed {
  fr_at : at_value s startp t.1.1 (length t.2);
  fr_data : drop (Z.to_nat startp) (s_data s) = tlv_bytes t ++ rest;
  fr_ahead : ahead s = t.2 ++ rest;
}.

(** The value of [t] is accepted and turns [p] into [p']. *)
Definition learns_one (t : tlv) (p p' : parsed) : Prop :=
  ∀ s startp rest, framed s startp t rest →
    attr_value bc pr t.1.2 t.1.1 (Z.of_nat (length t.2)) startp p s = Ok (Fine p', skip (length t.2) s).

Inductive learns : list tlv → parsed → parsed → Prop :=
  | learns_nil p : learns [] p p
  | learns_cons t l p p1 p2 : tlv_ok t → learns_one t p p1 → learns l p1 p2 → learns (t :: l) p p2.

Lemma learns_app l1 l2 p p1 p2 : learns l1 p p1 → learns l2 p1 p2 → learns (l1 ++ l2) p p2.
Proof. induction 1; [done|]. intros. econstructor; [done..|]. auto. Qed.

Lemma learns_single t p p' : tlv_ok t → learns_one t p p' → learns [t] p p'.
Proof. intros Ht Hl. by eapply learns_cons; [| |constructor]. Qed.

Lemma header_read s t rest :
  stream_ok s → s_size s < 2^16 → tlv_ok t → ahead s = tlv_bytes t ++ rest →
  stream_getc s = Ok (t.1.1, skip 1 s) ∧ stream_getc (skip 1 s) = Ok (t.1.2, skip 2 s) ∧
  (if CHECK_FLAG t.1.1 BGP_ATTR_FLAG_EXTLEN then stream_getw else stream_getc) (skip 2 s) =
    Ok (Z.of_nat (length t.2), skip (Z.to_nat (header_len t.1.1)) s) ∧
  framed (skip (Z.to_nat (header_len t.1.1)) s) (s_getp s) t rest.
Proof.
  destruct t as [[flag type] v]. intros Hs H16 (Hf & Ht & Hv & Hl) Hah. cbn [fst snd].
  pose proof (ahead_length s _ _ Hs Hah) as Hin. rewrite tlv_length_of in Hin. cbn [fst snd] in Hin.
  set (lbs := if CHECK_FLAG flag BGP_ATTR_FLAG_EXTLEN then be16 (Z.of_nat (length v)) else [Z.of_nat (length v)]).
  assert (Hlb : (2 + length lbs)%nat = Z.to_nat (header_len flag)).
  { unfold lbs, header_len. by destruct (CHECK_FLAG flag BGP_ATTR_FLAG_EXTLEN). }
  change (tlv_bytes (flag, type, v)) with ([flag] ++ [type] ++ lbs ++ v) in Hah.
  assert (Hah0 : ahead s = [flag] ++ [type] ++ lbs ++ v ++ rest) by (rewrite Hah; cbn [app]; by rewrite <- app_assoc).
  pose proof (skip_ok _ _ _ Hs Hah0) as Hs1. pose proof (ahead_skip _ _ _ Hs Hah0) as Ha1. cbn [length] in Hs1, Ha1.
  pose proof (skip_ok _ _ _ Hs1 Ha1) as Hs2. pose proof (ahead_skip _ _ _ Hs1 Ha1) as Ha2.
  rewrite skip_skip in Hs2, Ha2. cbn [length Nat.add] in Hs2, Ha2.
  pose proof (skip_ok _ _ _ Hs2 Ha2) as Hs3. pose proof (ahead_skip _ _ _ Hs2 Ha2) as Ha3.
  rewrite skip_skip, Hlb in Hs3, Ha3. split_and!.
  - by eapply reads_getc.
  - rewrite (reads_getc type (skip 1 s) _ Hs1 Ha1). by rewrite skip_skip.
  - rewrite <- Hlb, <- skip_skip. unfold lbs in *. destruct (CHECK_FLAG flag BGP_ATTR_FLAG_EXTLEN).
    + by eapply stream_getw_ahead; [|unfold is_u16; lia|].
    + by eapply reads_getc.
  - split; cbn [fst snd]; [|exact Hah|done]. split; [done|done|destruct Hs; lia|cbn; lia|cbn].
    destruct (header_len_cases flag) as [E|E]; rewrite E in *; lia.
Qed.

Lemma attr_loop_learns l p p' fuel seen known s rest :
  learns l p p' → stream_ok s → s_size s < 2^16 → seen_rep seen known →
  NoDup ((λ t : tlv, t.1.2) <$> l) → (∀ t, t ∈ l → t.1.2 ∉ known) →
  ahead s = tlvs_bytes l ++ rest → (length (tlvs_bytes l) < fuel)%nat →
  attr_loop bc pr fuel (s_getp s + Z.of_nat (length (tlvs_bytes l))) seen p s = Ok (Fine p', skip (length (tlvs_bytes l)) s).
Proof.
  intros Hl. revert fuel seen known s. induction Hl as [p|t l p p1 p2 Hok Hone Hl IH];
    intros fuel seen known s Hs H16 Hseen Hnd Hnew Hah Hfuel; (destruct fuel as [|fuel]; [lia|]).
  { cbn [tlvs_bytes mbind list_bind length]. rewrite Z.add_0_r, skip_0. cbn [attr_loop].
    rewrite (st_bind_Ok _ _ _ s s) by done. cbv zeta. by rewrite Z.ltb_irrefl, Z.eqb_refl. }
  change (tlvs_bytes (t :: l)) with (tlv_bytes t ++ tlvs_bytes l) in *. rewrite length_app in *. rewrite <- app_assoc in Hah.
  destruct (header_read s t _ Hs H16 Hok Hah) as (R1 & R2 & R3 & Hfr).
  pose proof (tlv_length_of t) as Htl. set (h := Z.to_nat (header_len t.1.1)) in *.
  assert (Hh : Z.of_nat h = header_len t.1.1 ∧ 3 ≤ Z.of_nat h).
  { unfold h. destruct (header_len_cases t.1.1) as [E|E]; rewrite E; lia. }
  set (endp := s_getp s + Z.of_nat (length (tlv_bytes t) + length (tlvs_bytes l))).
  cbn [attr_loop]. rewrite (st_bind_Ok _ _ _ s s) by done. cbv zeta.
  rewrite (proj2 (Z.ltb_lt _ _)) by (unfold endp; lia).
  rewrite (proj2 (Z.ltb_ge _ BGP_ATTR_MIN_LEN)) by (unfold endp, BGP_ATTR_MIN_LEN; lia).
  rewrite (st_bind_Ok _ _ _ _ _ R1), (st_bind_Ok _ _ _ _ _ R2), (st_bind_Ok _ _ _ _ _ R3).
  assert (is_u8 t.1.2) as Hty by (destruct t as [[? ?] ?]; apply Hok).
  pose proof (proj2 Hseen t.1.2 Hty) as Hchk.
  rewrite bool_decide_false in Hchk by (apply Hnew; left).
  rewrite (st_bind_Ok _ _ _ false (skip h s)) by (unfold st_lift; by rewrite Hchk). cbv iota.
  destruct (seen_add seen known t.1.2 Hseen Hty) as (seen' & Hset & Hseen').
  rewrite (st_bind_Ok _ _ _ seen' (skip h s)) by (unfold st_lift; by rewrite Hset).
  rewrite (st_bind_Ok _ _ _ (skip h s) (skip h s)) by done. cbv zeta.
  change (s_getp (skip h s)) with (s_getp s + Z.of_nat h).
  rewrite (proj2 (Z.ltb_ge _ _)) by (unfold endp; lia).
  rewrite (st_bind_Ok _ _ _ _ _ (Hone _ _ _ Hfr)). cbv iota.
  set (s2 := skip (length t.2) (skip h s)). rewrite (st_bind_Ok _ _ _ s2 s2) by done.
  change (s_getp s2) with (s_getp s + Z.of_nat h + Z.of_nat (length t.2)). rewrite Z.eqb_refl. cbn [negb].
  assert (s2 = skip (length (tlv_bytes t)) s) as Es2 by (unfold s2; rewrite skip_skip; f_equal; lia).
  assert (endp = s_getp s2 + Z.of_nat (length (tlvs_bytes l))) as -> by (unfold endp; rewrite Es2; cbn; lia).
  cbn [fmap list_fmap] in Hnd. apply NoDup_cons in Hnd as [Hnt Hnd].
  rewrite (IH fuel seen' (t.1.2 :: known) s2); try done.
  - by rewrite Es2, skip_skip.
  - rewrite Es2. by eapply skip_ok.
  - intros t' Ht'. rewrite not_elem_of_cons. split; [|by apply Hnew; right].
    intros E. apply Hnt. rewrite <- E. apply list_elem_of_fmap. by exists t'.
  - rewrite Es2. by eapply ahead_skip.
  - lia.
Qed.

(** ** Each attribute *)

Definition upd (f : attr → attr) (p : parsed) : parsed := Parsed (f (pd_attr p)) (pd_update p) (pd_withdraw p).

(** Decide the comparisons of the switch. *)
Ltac pick_type :=
  unfold attr_value; cbn [fst snd];
  repeat match goal with
  | |- context [if ?a =? ?b then _ else _] =>
      match eval vm_compute in (a =? b) with
      | true => change (a =? b) with true; cbv iota
      | false => change (a =? b) with false; cbv iota
      end
  end.

Lemma with_attr_run p (m : ST stream (outcome attr)) s a s' :
  m s = Ok (Fine a, s') → (o ← m; mret (with_attr p o)) s = Ok (Fine (Parsed a (pd_update p) (pd_withdraw p)), s').
Proof. intros Hm. by rewrite (st_bind_Ok _ _ _ _ _ Hm). Qed.

Lemma framed_reads {A} (m : ST stream A) s startp t rest a :
  framed s startp t rest → reads m t.2 a → m s = Ok (a, skip (length t.2) s).
Proof. intros [[Hs] _ Hah] Hm. by eapply Hm. Qed.

Lemma reads_then {A B} (m : ST stream A) (k : A → ST stream B) bs a r :
  reads m bs a → k a = mret r → reads (m ≫= k) bs r.
Proof. intros Hm Hk. rewrite <- (app_nil_r bs). apply (reads_bind _ _ _ _ a); [done|]. rewrite Hk. apply reads_ret. Qed.

Lemma learns_origin o p :
  o = BGP_ORIGIN_IGP ∨ o = BGP_ORIGIN_EGP ∨ o = BGP_ORIGIN_INCOMPLETE →
  learns_one (BGP_ATTR_FLAG_TRANS, BGP_ATTR_ORIGIN, [o]) p (upd (λ a, mark BGP_ATTR_ORIGIN (set_ar_origin o a)) p).
Proof.
  intros Ho s startp rest Hfr. pick_type. apply with_attr_run. apply (framed_reads _ _ _ _ _ _ Hfr). cbn [snd].
  apply (reads_bind _ _ [o] [] o); [apply reads_getc|]. by destruct Ho as [->|[->| ->]]; apply reads_ret.
Qed.

Lemma learns_nexthop h p :
  ipv4_ok h →
  learns_one (BGP_ATTR_FLAG_TRANS, BGP_ATTR_NEXT_HOP, h) p (upd (λ a, mark BGP_ATTR_NEXT_HOP (set_ar_nexthop h a)) p).
Proof.
  intros [_ Hl] s startp rest Hfr. pick_type. apply with_attr_run. apply (framed_reads _ _ _ _ _ _ Hfr). cbn [snd].
  rewrite Hl. change (Z.of_nat 4) with 4. unfold bgp_attr_nexthop.
  change (not_well_known BGP_ATTR_FLAG_TRANS) with false. change (negb (4 =? 4)) with false. cbv iota zeta.
  by eapply reads_then; [apply reads_get_ipv4|].
Qed.

Lemma learns_med m p :
  is_u32 m →
  learns_one (BGP_ATTR_FLAG_OPTIONAL, BGP_ATTR_MULTI_EXIT_DISC, be32 m) p
    (upd (λ a, mark BGP_ATTR_MULTI_EXIT_DISC (set_ar_med m a)) p).
Proof.
  intros Hm s startp rest Hfr. pick_type. apply with_attr_run. apply (framed_reads _ _ _ _ _ _ Hfr). cbn [snd].
  by eapply reads_then; [apply reads_getl|].
Qed.

Lemma learns_local_pref l p :
  is_u32 l → sort_is bc pr BGP_PEER_EBGP = false →
  learns_one (BGP_ATTR_FLAG_TRANS, BGP_ATTR_LOCAL_PREF, be32 l) p
    (upd (λ a, mark BGP_ATTR_LOCAL_PREF (set_ar_local_pref l a)) p).
Proof.
  intros Hl Hsort s startp rest Hfr. pick_type. apply with_attr_run. apply (framed_reads _ _ _ _ _ _ Hfr). cbn [snd].
  unfold bgp_attr_local_pref. rewrite Hsort. by eapply reads_then; [apply reads_getl|].
Qed.

Lemma learns_atomic p :
  learns_one (BGP_ATTR_FLAG_TRANS, BGP_ATTR_ATOMIC_AGGREGATE, []) p (upd (mark BGP_ATTR_ATOMIC_AGGREGATE) p).
Proof. intros s startp rest Hfr. pick_type. apply with_attr_run. apply (framed_reads _ _ _ _ _ _ Hfr). apply reads_ret. Qed.

Lemma reads_getw w : is_u16 w → reads stream_getw (be16 w) w.
Proof. intros Hw s rest Hs Ha. by apply (stream_getw_ahead s w rest). Qed.

Lemma learns_aggregator as_ addr p :
  is_u16 as_ → ipv4_ok addr →
  learns_one (Z.lor BGP_ATTR_FLAG_OPTIONAL BGP_ATTR_FLAG_TRANS, BGP_ATTR_AGGREGATOR, be16 as_ ++ addr) p
    (upd (λ a, mark BGP_ATTR_AGGREGATOR (set_ar_aggregator_addr addr (set_ar_aggregator_as as_ a))) p).
Proof.
  intros Hw [_ Hl] s startp rest Hfr. pick_type. apply with_attr_run. apply (framed_reads _ _ _ _ _ _ Hfr). cbn [snd].
  rewrite length_app, Hl. unfold bgp_attr_aggregator. change (negb (_ =? 6)) with false. cbv iota.
  apply (reads_bind _ _ _ _ as_); [by apply reads_getw|]. by eapply reads_then; [apply reads_get_ipv4|].
Qed.

Lemma learns_originator_id id p :
  ipv4_ok id →
  learns_one (BGP_ATTR_FLAG_OPTIONAL, BGP_ATTR_ORIGINATOR_ID, id) p
    (upd (λ a, mark BGP_ATTR_ORIGINATOR_ID (set_ar_originator_id id a)) p).
Proof.
  intros [_ Hl] s startp rest Hfr. pick_type. apply with_attr_run. apply (framed_reads _ _ _ _ _ _ Hfr). cbn [snd].
  rewrite Hl. by eapply reads_then; [apply reads_get_ipv4|].
Qed.

(** A value that is parsed where it lies. *)
Lemma in_place_run {A B} (parse : list Z → Z → res A) (f : A → ST stream B) s startp flag type v rest x b :
  framed s startp (flag, type, v) rest → parse (v ++ rest) (Z.of_nat (length v)) = Ok x → f x = mret b →
  (s ← st_get; x ← st_lift (parse (stream_pnt s) (Z.of_nat (length v))); forward (Z.of_nat (length v));; f x) s =
    Ok (b, skip (length v) s).
Proof.
  intros [[Hs _ _ _ Hin] _ Hah] Hx Hf. cbn [fst snd] in *. rewrite (st_bind_Ok _ _ _ s s) by done.
  rewrite (st_bind_Ok _ _ _ x s).
  2:{ unfold st_lift. change (stream_pnt s) with (ahead s). by rewrite Hah, Hx. }
  destruct (forward_in s (length v) Hs Hin) as [Hr _]. rewrite (st_bind_Ok _ _ _ _ _ Hr). by rewrite Hf.
Qed.

Lemma learns_cluster cluster p :
  Z.of_nat (length cluster) mod 4 = 0 →
  learns_one (BGP_ATTR_FLAG_OPTIONAL, BGP_ATTR_CLUSTER_LIST, cluster) p
    (upd (λ a, mark BGP_ATTR_CLUSTER_LIST (set_ar_cluster (Some cluster) a)) p).
Proof.
  intros H4 s startp rest Hfr. pick_type. apply with_attr_run. unfold bgp_attr_cluster_list. rewrite H4. cbn [negb Z.eqb].
  eapply (in_place_run cluster_parse); [exact Hfr| |done]. unfold cluster_parse.
  rewrite get_bytes_in by (rewrite ?length_app; lia). by rewrite drop_0, Nat2Z.id, take_app_length.
Qed.

(** Communities are sorted and free of repetitions. *)
Definition com_of (vs : list Z) : community := Community 0 (Z.of_nat (length vs)) (Some (val_bytes vs)) None.

Lemma community_parse_sorted vs rest :
  Forall is_u32 vs → uniq_sorted vs = vs → vs ≠ [] → bytes_ok rest →
  community_parse_value (val_bytes vs ++ rest) (Z.of_nat (length (val_bytes vs))) = Ok (Some (com_of vs)).
Proof.
  intros Hu Hs Hne Hb. unfold community_parse_value. rewrite length_val_bytes, Nat2Z.inj_mul.
  replace (Z.of_nat 4 * Z.of_nat (length vs)) with (Z.of_nat (length vs) * 4) by lia.
  rewrite Z.mod_mul, Z.div_mul by lia. cbn [negb Z.eqb].
  destruct (uniq_sort_ok (Community 0 (Z.of_nat (length vs)) (Some (val_bytes vs ++ rest)) None) vs)
    as ([rc size val str] & Hr & [Hsz Hoct _] & Hrc & Hstr).
  { split; [done|by exists rest|done]. }
  rewrite Hr, Hs in *. cbn in Hsz, Hoct, Hrc, Hstr. subst rc size str. unfold com_of. do 3 f_equal.
  unfold Community.octets in Hoct. cbn in Hoct. destruct val as [val|]; [by f_equal|].
  destruct vs as [|v vs]; [done|]. by rewrite val_bytes_cons in Hoct.
Qed.

Lemma learns_community flag vs p :
  Forall is_u32 vs → uniq_sorted vs = vs → vs ≠ [] →
  learns_one (flag, BGP_ATTR_COMMUNITIES, val_bytes vs) p
    (upd (λ a, mark BGP_ATTR_COMMUNITIES (set_ar_community (Some (com_of vs)) a)) p).
Proof.
  intros Hu Hs Hne s startp rest Hfr. pick_type. apply with_attr_run. unfold bgp_attr_community.
  rewrite (proj2 (Z.eqb_neq _ 0)) by (rewrite length_val_bytes; destruct vs; [done|cbn; lia]).
  erewrite st_bind_Ok; [done|]. eapply (in_place_run community_parse_value); [exact Hfr| |done].
  apply community_parse_sorted; [done..|]. destruct Hfr as [[Hok] _ Hah]. cbn [fst snd] in *.
  pose proof (ahead_bytes s Hok) as Hb. rewrite Hah in Hb. by apply Forall_app in Hb as [_ ?].
Qed.

Lemma ecom_uniq_sorted done_ es pre rest :
  Forall (λ x, length x = 8%nat) (done_ ++ es) → StronglySorted ecom_lt (done_ ++ es) →
  length pre = (8 * length done_)%nat →
  ecom_uniq_loop (length es) (Z.of_nat (length done_)) (pre ++ concat es ++ rest)
    (Ecommunity (Z.of_nat (length done_)) (concat done_)) =
    Ok (Ecommunity (Z.of_nat (length (done_ ++ es))) (concat (done_ ++ es))).
Proof.
  revert done_ pre. induction es as [|e es IH]; intros dn pre Hall Hs Hp; [by rewrite app_nil_r|].
  cbn [ecom_uniq_loop length concat]. unfold ECOMMUNITY_SIZE.
  assert (length e = 8%nat) as He by (rewrite Forall_app, Forall_cons in Hall; tauto).
  rewrite get_bytes_in; [|lia|lia|rewrite !length_app; lia]. cbn [mbind res_bind].
  rewrite drop_app_length', <- app_assoc, take_app_length' by lia.
  assert (Forall (λ x, length x = 8%nat) dn) as Hd by (by apply Forall_app in Hall as [? _]).
  assert (Forall (λ x, ecom_lt x e) dn) as Hlt.
  { clear - Hs. induction dn as [|x dn IH]; [done|]. cbn in Hs. apply StronglySorted_inv in Hs as [Hs Hx].
    constructor; [|by apply IH]. rewrite Forall_forall in Hx. apply Hx. set_solver. }
  assert (ecommunity_add_val (Ecommunity (Z.of_nat (length dn)) (concat dn)) e =
    Ok (Ecommunity (Z.of_nat (length (dn ++ [e]))) (concat (dn ++ [e])))) as Hadd.
  { unfold ecommunity_add_val. cbn [ec_size ec_val]. rewrite length_app, concat_app. cbn [length concat]. rewrite app_nil_r.
    destruct (Z.eqb_spec (Z.of_nat (length dn)) 0) as [E|E].
    - destruct dn; [done|cbn in E; lia].
    - rewrite Nat2Z.id. pose proof (ecom_place_last dn e (length dn) 0 Hd Hlt eq_refl) as Hpl. change (Z.of_nat 0) with 0 in Hpl.
      rewrite Hpl. cbn [mbind res_bind]. unfold ECOMMUNITY_SIZE. pose proof (concat8_length dn Hd) as Hcl.
      rewrite take_ge, drop_ge, app_nil_r by lia. do 2 f_equal. lia. }
  rewrite Hadd. cbn [mbind res_bind]. replace (Z.of_nat (length dn) + 1) with (Z.of_nat (length (dn ++ [e])))
    by (rewrite length_app; cbn; lia).
  rewrite (app_assoc pre e). rewrite (IH (dn ++ [e]) (pre ++ e)).
  - by rewrite <- app_assoc.
  - by rewrite <- app_assoc.
  - by rewrite <- app_assoc.
  - rewrite !length_app. cbn. lia.
Qed.

Definition ecom_of (es : list (list Z)) : ecommunity := Ecommunity (Z.of_nat (length es)) (concat es).

Lemma learns_ecommunity flag es p :
  Forall (λ x, length x = 8%nat) es → StronglySorted ecom_lt es → es ≠ [] →
  learns_one (flag, BGP_ATTR_EXT_COMMUNITIES, concat es) p
    (upd (λ a, mark BGP_ATTR_EXT_COMMUNITIES (set_ar_ecommunity (Some (ecom_of es)) a)) p).
Proof.
  intros Hall Hs Hne s startp rest Hfr. pick_type. apply with_attr_run. unfold bgp_attr_ext_communities.
  pose proof (concat8_length es Hall) as Hcl.
  rewrite (proj2 (Z.eqb_neq _ 0)) by (rewrite Hcl; destruct es; [done|cbn; lia]).
  erewrite st_bind_Ok; [done|]. eapply (in_place_run ecommunity_parse); [exact Hfr| |done].
  unfold ecommunity_parse. rewrite Hcl, Nat2Z.inj_mul. unfold ECOMMUNITY_SIZE.
  replace (Z.of_nat 8 * Z.of_nat (length es)) with (Z.of_nat (length es) * 8) by lia.
  rewrite Z.mod_mul, Z.div_mul, Nat2Z.id by lia. cbn [negb Z.eqb].
  pose proof (ecom_uniq_sorted [] es [] rest Hall Hs eq_refl) as Hu. cbn [app length concat] in Hu.
  change (Z.of_nat 0) with 0 in Hu. by rewrite Hu.
Qed.

(** AS paths from an internal peer are taken as they are. *)
Lemma aspath_parse_prefix v rest :
  aspath_parse (v ++ rest) (Z.of_nat (length v)) = aspath_parse v (Z.of_nat (length v)).
Proof.
  unfold aspath_parse. destruct (negb _); [done|]. unfold aspath_hash_alloc, aspath_dup. cbn [a_length].
  destruct (_ =? 0); [done|]. unfold Aspath.octets. cbn [a_data default from_option id].
  rewrite !get_bytes_in by (rewrite ?length_app; lia). by rewrite !drop_0, Nat2Z.id, take_app_length, firstn_all.
Qed.

Lemma learns_aspath flag ss :
  Forall seg_ok ss → bytes_ok (segs_bytes ss) → not_well_known flag = false →
  sort_is bc pr BGP_PEER_EBGP = false → bp_change_local_as pr = 0 →
  ∃ path, path_ok path ss ∧ ∀ p,
    learns_one (flag, BGP_ATTR_AS_PATH, segs_bytes ss) p (upd (λ a, mark BGP_ATTR_AS_PATH (set_ar_aspath (Some path) a)) p).
Proof.
  intros Hss Hb Hwk Hsort Hlocal.
  destruct (aspath_parse_cases (segs_bytes ss) (length (segs_bytes ss)) Hb) as [(ss' & path & Htk & Hss' & Hp & Hok & _)|[_ Hno]];
    [done| |by destruct (Hno ss Hss); rewrite firstn_all].
  rewrite firstn_all in Htk. exists path. split.
  { destruct Hok. split; [congruence|done|done]. }
  intros p s startp rest Hfr. pick_type. apply with_attr_run. unfold bgp_attr_aspath. rewrite Hwk, Hsort, Hlocal, andb_false_r.
  cbn [negb Z.eqb andb]. pose proof Hfr as [[Hs _ _ _ Hin] _ Hah]. cbn [fst snd] in *.
  rewrite (st_bind_Ok _ _ _ s s) by done. rewrite (st_bind_Ok _ _ _ (Some path) s).
  2:{ unfold st_lift. change (stream_pnt s) with (ahead s). by rewrite Hah, aspath_parse_prefix, Hp. }
  cbv beta iota zeta. rewrite (st_bind_Ok _ _ _ true s) by done. cbv beta iota zeta. cbn [negb].
  rewrite (st_bind_Ok _ _ _ path s) by done. cbv beta.
  destruct (forward_in s (length (segs_bytes ss)) Hs Hin) as [Hr _]. by rewrite (st_bind_Ok _ _ _ _ _ Hr).
Qed.

(** Unknown attributes that are optional and transitive are passed on. *)
Definition known_types : list Z := [1; 2; 3; 4; 5; 6; 7; 8; 9; 10; 14; 15; 16].

Definition passed_on (t : tlv) : Prop :=
  (t.1.2 ∉ known_types) ∧ CHECK_FLAG t.1.1 BGP_ATTR_FLAG_OPTIONAL = true ∧ CHECK_FLAG t.1.1 BGP_ATTR_FLAG_TRANS = true ∧
  SET_FLAG t.1.1 BGP_ATTR_FLAG_PARTIAL = t.1.1.

Lemma learns_unknown t p :
  tlv_ok t → passed_on t →
  learns_one t p (upd (λ a, set_ar_transit (Some (default [] (ar_transit a) ++ tlv_bytes t)) a) p).
Proof.
  destruct t as [[flag type] v]. intros Htok (Hk & Hopt & Htr & Hpart) s startp rest Hfr. cbn [fst snd] in *.
  unfold attr_value, known_types in *. rewrite !not_elem_of_cons in Hk.
  destruct Hk as (H1 & H2 & H3 & H4 & H5 & H6 & H7 & H8 & H9 & H10 & H14 & H15 & H16 & _).
  rewrite !(proj2 (Z.eqb_neq type _)) by done. apply with_attr_run. unfold bgp_attr_unknown.
  pose proof Hfr as [Hat Hd Hah]. cbn [fst snd] in *. destruct (at_total _ _ _ _ Hat) as (Ht & Hle & Hpos).
  pose proof Hat as [Hs _ H0 _ Hin]. destruct (forward_in s (length v) Hs Hin) as [Hr _]. rewrite (st_bind_Ok _ _ _ _ _ Hr).
  cbv zeta. rewrite Ht, Hopt, Htr. cbn [negb]. set (s1 := skip (length v) s).
  rewrite (st_bind_Ok _ _ _ s1 s1) by done. change (s_data s1) with (s_data s).
  assert (s_data s !! Z.to_nat startp = Some flag) as Hf.
  { rewrite <- (Nat.add_0_r (Z.to_nat startp)), <- lookup_drop, Hd. done. }
  rewrite (st_bind_Ok _ _ _ flag s1) by (unfold st_lift; by rewrite (proj2 (get_byte_Ok _ _ flag))).
  assert (set_byte (s_data s) startp (SET_FLAG flag BGP_ATTR_FLAG_PARTIAL) = Ok (s_data s)) as Hset.
  { apply lookup_lt_Some in Hf as Hlt. rewrite set_byte_in by lia. rewrite Hpart, u8_id by apply Htok.
    by rewrite list_insert_id. }
  rewrite (st_bind_Ok _ _ _ (s_data s) s1) by (unfold st_lift; by rewrite Hset).
  rewrite (st_bind_Ok _ _ _ tt s1) by (by destruct s).
  rewrite (st_bind_Ok _ _ _ (tlv_bytes (flag, type, v)) s1); [done|].
  unfold st_lift. rewrite get_bytes_in by (destruct Hs; lia). rewrite Hd, take_app_length'; [done|].
  pose proof (tlv_length_of (flag, type, v)) as Hl. cbn [fst snd] in Hl. lia.
Qed.

End Receive.

(** * Writing attributes *)

Lemma writes_put src bs :
  default [] src = bs → bytes_ok bs → Z.of_nat (length bs) < 2^63 → writes (stream_put src (Z.of_nat (length bs))) bs.
Proof.
  intros Hsrc Hb H63 s Hs _ Hr.
  assert (0 ≤ room s) by (destruct Hs; unfold room; lia).
  assert (CHECK_SIZE s (Z.of_nat (length bs)) = Z.of_nat (length bs)) as Hm.
  { unfold CHECK_SIZE. rewrite room_u64 by done. destruct Hs. unfold room in *.
    rewrite u64_id by (unfold is_u64; lia). case_bool; lia. }
  assert (default (replicate (Z.to_nat (Z.of_nat (length bs))) 0) src = bs) as Hd.
  { destruct src as [l|]; [done|]. cbn in Hsrc. by subst bs. }
  unfold stream_put. rewrite Hm, Hd, copy_in_append by (done || lia). rewrite Nat2Z.id, firstn_all.
  eexists. split; [done|]. by apply append_ok; [..|lia].
Qed.

(** [gives m bs f]: [m] appends [bs] and returns [f] of the stream it leaves. *)
Definition gives {A} (m : ST stream A) (bs : list Z) (f : stream → A) : Prop :=
  ∀ s, stream_ok s → s_putp s ≤ s_endp s → Z.of_nat (length bs) ≤ room s →
    m s = Ok (f (append bs s), append bs s) ∧ stream_ok (append bs s).

Lemma gives_get {A} (f : stream → A) : gives (s ← st_get; mret (f s)) [] f.
Proof. intros s Hs Hpe _. by rewrite append_nil. Qed.

Lemma gives_bind {A B} (m : ST stream A) (k : A → ST stream B) b1 b2 f :
  writes m b1 → (∀ a, gives (k a) b2 f) → gives (m ≫= k) (b1 ++ b2) f.
Proof.
  intros Hm Hk s Hs Hpe Hr. rewrite length_app in Hr. destruct (Hm s Hs Hpe) as (a & Ha & Hok); [lia|].
  destruct (Hk a (append b1 s) Hok) as [Hb Hok2]; [cbn; lia|unfold room in *; cbn; lia|].
  rewrite append_append in Hb, Hok2 by (done || lia). split; [|done]. by erewrite st_bind_Ok by done.
Qed.

Lemma gives_lift {A B} (a : A) (k : A → ST stream B) r bs f :
  r = Ok a → gives (k a) bs f → gives (st_lift r ≫= k) bs f.
Proof. intros -> Hk s Hs Hpe Hr. erewrite st_bind_Ok by done. by apply Hk. Qed.

(** A value with the header that its length asks for. *)
Definition sized (flags type : Z) (v : list Z) : tlv :=
  (if 255 <? Z.of_nat (length v) then Z.lor flags BGP_ATTR_FLAG_EXTLEN else flags, type, v).

Lemma writes_sized flags type v src :
  is_u8 flags → is_u8 type → CHECK_FLAG flags BGP_ATTR_FLAG_EXTLEN = false → is_u8 (Z.lor flags BGP_ATTR_FLAG_EXTLEN) →
  CHECK_FLAG (Z.lor flags BGP_ATTR_FLAG_EXTLEN) BGP_ATTR_FLAG_EXTLEN = true →
  default [] src = v → bytes_ok v → Z.of_nat (length v) < 2^16 →
  writes (put_header flags type (Z.of_nat (length v));; stream_put src (Z.of_nat (length v))) (tlv_bytes (sized flags type v)).
Proof.
  intros Hf Ht Hx Hfe Hxe Hsrc Hb Hl. unfold put_header, sized, tlv_bytes.
  destruct (Z.ltb_spec 255 (Z.of_nat (length v))) as [E|E]; [rewrite Hxe|rewrite Hx].
  - apply (writes_bind _ _ ([_; _] ++ be16 (Z.of_nat (length v)))).
    + wstep (Z.lor flags BGP_ATTR_FLAG_EXTLEN). wstep type. rewrite <- (app_nil_r (be16 _)).
      apply writes_bind; [apply writes_putw|]. intros. apply writes_ret.
    + intros _. apply writes_put; [done..|lia].
  - apply (writes_bind _ _ [_; _; _]).
    + wstep flags. wstep type. rewrite <- (app_nil_r [_]).
      apply writes_bind; [apply writes_putc; unfold is_u8; lia|]. intros. apply writes_ret.
    + intros _. apply writes_put; [done..|lia].
Qed.

Lemma sized_ok flags type v :
  is_u8 flags → is_u8 type → is_u8 (Z.lor flags BGP_ATTR_FLAG_EXTLEN) →
  CHECK_FLAG (Z.lor flags BGP_ATTR_FLAG_EXTLEN) BGP_ATTR_FLAG_EXTLEN = true →
  bytes_ok v → Z.of_nat (length v) < 2^16 → tlv_ok (sized flags type v).
Proof.
  intros. unfold sized, tlv_ok. destruct (Z.ltb_spec 255 (Z.of_nat (length v))) as [E|E].
  - by rewrite H2.
  - split_and!; [done..|]. case_match; lia.
Qed.

Lemma writes_small {A} flags type v (m : ST stream A) :
  is_u8 flags → is_u8 type → CHECK_FLAG flags BGP_ATTR_FLAG_EXTLEN = false → Z.of_nat (length v) ≤ 255 →
  writes m v →
  writes (stream_putc flags;; stream_putc type;; stream_putc (Z.of_nat (length v));; m) (tlv_bytes (flags, type, v)).
Proof.
  intros Hf Ht Hx Hl Hm. unfold tlv_bytes. rewrite Hx. wstep flags. wstep type. cbn [app].
  apply (writes_bind _ _ [_]); [apply writes_putc; unfold is_u8; lia|done].
Qed.
