(* ===== verification/BgpAttrSession.v ===== *)
(** Attributes over an internal session: what bgp_packet_attribute writes for an IBGP
    peer, bgp_attr_parse of that peer reads back, field by field. *)

From stdpp Require Import strings sorting.
From S2P Require Import Prelude Prefix Text Stream StreamCalc Hash Aspath Community CommunityFacts CommunityIntern Decision BgpAttr BgpAttrFacts BgpAttrSafe BgpAttrRound.

(** * What is sent and what becomes of it *)

(** An attribute of the message and its effect on the receiver's structure. *)
Abbreviation step := (tlv * (attr → attr))%type.



Section Session.
Context (bc : bconf) (pr : bpeer) (from : option bpeer).











(** * Writing *)






















(** * Reading *)

Context (bc' : bconf) (pr' : bpeer).



















End Session.
