(* ===== verification/BgpAttrErrors.v ===== *)
(** UPDATE messages that bgpd does not survive, and concrete sessions.

    The handlers of bgpd/bgp_attr.c check the length of most attributes before they
    read; the ones here do not. *)

From stdpp Require Import strings sorting.
From S2P Require Import Prelude Prefix Text Stream StreamCalc Hash Aspath Community CommunityFacts CommunityIntern Decision BgpAttr BgpAttrFacts BgpAttrSafe BgpAttrRound BgpAttrSession.

(** * Multiprotocol attributes that are too short *)

(** The length of the routes is computed modulo 2^16: over a buffer that ends with zeros
    bgp_nlri_sanity_check takes octet after octet for a default route and does not stop
    at the end. *)
Lemma sanity_zeros fuel d afi pnt fin :
  (∀ i, (Z.to_nat pnt ≤ i < length d)%nat → d !! i = Some 0) → 0 ≤ pnt ≤ Z.of_nat (length d) → Z.of_nat (length d) < fin →
  Z.of_nat (length d) - pnt < Z.of_nat fuel → sanity_loop fuel d afi pnt fin = Fail OutOfBounds.
Proof.
  revert pnt. induction fuel as [|fuel IH]; intros pnt Hz Hp Hfin Hfuel; [lia|]. cbn [sanity_loop].
  rewrite (proj2 (Z.ltb_lt _ _)) by lia. destruct (decide (pnt = Z.of_nat (length d))) as [->|Hne].
  { by rewrite get_byte_out by lia. }
  rewrite (proj2 (get_byte_Ok _ _ 0)) by (split; [lia|apply Hz; lia]). cbn [mbind res_bind].
  change (32 <? 0) with false. change (128 <? 0) with false. rewrite !andb_false_r. cbn [orb]. change (PSIZE 0) with 0.
  rewrite (proj2 (Z.ltb_ge _ _)) by lia. rewrite Z.add_0_r. apply IH; try lia. intros i Hi. apply Hz. lia.
Qed.

(** an MP_UNREACH_NLRI attribute that is shorter than its family makes bgpd read
    outside of its input buffer.  bgp_mp_unreach_parse takes the three octets of the
    family without looking at the length of the attribute; what is left is negative, and
    as a 16 bit number longer than the buffer. *)
Theorem mp_unreach_short_overreads (len : nat) a b safi k s :
  (len < 3)%nat → safi ≠ BGP_SAFI_VPNV4 → stream_ok s → s_size s < 2^16 - 3 → ahead s = [a; b; safi] ++ replicate k 0 →
  bgp_mp_unreach_parse (Z.of_nat len) s = Fail OutOfBounds.
Proof.
  intros Hlen Hsafi Hs H16 Hah. pose proof (ahead_length s [a; b; safi] _ Hs Hah) as Hl. cbn [length] in Hl.
  unfold bgp_mp_unreach_parse. rewrite (st_bind_Ok _ _ _ s s) by done. cbv zeta.
  destruct (getw_in s Hs) as (a' & b' & _ & _ & Hw & Hah2 & Hs2); [lia|]. rewrite (st_bind_Ok _ _ _ _ _ Hw).
  rewrite Hah in Hah2. injection Hah2 as _ _ Hah2. symmetry in Hah2.
  rewrite (st_bind_Ok _ _ _ _ _ (next_byte_ahead (skip 2 s) safi _ Hs2 Hah2)).
  pose proof (ahead_skip _ [safi] _ Hs2 Hah2) as Hah3. rewrite skip_skip in *. cbn [length Nat.add] in *.
  unfold take_nlri. rewrite (st_bind_Ok _ _ _ (skip 3 s) (skip 3 s)) by done. cbv zeta.
  rewrite (proj2 (Z.eqb_neq _ _)) by done. change (s_getp (skip 3 s)) with (s_getp s + 3).
  assert (u16 (s_getp s + Z.of_nat len - (s_getp s + 3)) = 2^16 - 3 + Z.of_nat len) as ->.
  { unfold u16. replace (_ - _) with (2^16 - 3 + Z.of_nat len + (-1) * 2^16) by lia.
    rewrite Z.mod_add, Z.mod_small by lia. done. }
  assert (bgp_nlri_sanity_check (a' * 256 + b') (s_getp s + 3) (2^16 - 3 + Z.of_nat len) (skip 3 s) = Fail OutOfBounds) as Hf;
    [|unfold mbind, ST_bind; by rewrite Hf].
  unfold bgp_nlri_sanity_check. rewrite (st_bind_Ok _ _ _ (skip 3 s) (skip 3 s)) by done. unfold st_lift.
  change (s_data (skip 3 s)) with (s_data s). destruct Hs. rewrite sanity_zeros; [done| |lia..].
  intros i Hi. assert (i = Z.to_nat (s_getp s + 3) + (i - Z.to_nat (s_getp s + 3)))%nat as -> by lia.
  rewrite <- lookup_drop. change (drop (Z.to_nat (s_getp s + 3)) (s_data s)) with (ahead (skip 3 s)). rewrite Hah3.
  apply lookup_replicate. split; [done|]. apply (f_equal length) in Hah3. unfold ahead in Hah3.
  rewrite length_drop, length_replicate in Hah3. cbn in Hah3. lia.
Qed.

(** A buffer of zeros behind the family. *)
Definition input (bs : list Z) : stream := Stream None bs (Z.of_nat (length bs)) 0 (Z.of_nat (length bs)) (Z.of_nat (length bs)).

Lemma input_ok bs : bytes_ok bs → Z.of_nat (length bs) < 2^63 → stream_ok (input bs).
Proof. intros Hb Hl. split; cbn; try lia; done. Qed.

Lemma mp_unreach_short_overreads_witness :
  bgp_mp_unreach_parse 0 (input ([0; 1; 1] ++ replicate 20 0)) = Fail OutOfBounds.
Proof.
  apply (mp_unreach_short_overreads 0 0 1 1 20); [lia|done|apply input_ok; [|done]|done|done].
  by apply (bool_decide_unpack (bytes_ok _)).
Defined.

(** * Headers and paths *)

Lemma getc_end s : ahead s = [] → 0 ≤ s_getp s → stream_getc s = Fail OutOfBounds.
Proof.
  intros Ha H0. unfold stream_getc. rewrite get_byte_out; [done|]. apply (f_equal length) in Ha. unfold ahead in Ha.
  rewrite length_drop in Ha. cbn in Ha. lia.
Qed.

(** BGP_ATTR_MIN_LEN is two, but the header of an attribute has at least three octets:
    when the list of attributes ends with two octets at the end of the buffer, the
    length is read behind it. *)
Lemma attr_header_overreads bc pr p flag type s :
  stream_ok s → ahead s = [flag; type] → CHECK_FLAG flag BGP_ATTR_FLAG_EXTLEN = false →
  bgp_attr_parse bc pr 2 p s = Fail OutOfBounds.
Proof.
  intros Hs Hah Hx. unfold bgp_attr_parse. rewrite (st_bind_Ok _ _ _ s s) by done. cbn [attr_loop Z.to_nat Pos.to_nat].
  rewrite (st_bind_Ok _ _ _ s s) by done. cbv zeta. rewrite (proj2 (Z.ltb_lt _ _)) by lia.
  change (Pos.to_nat 2) with 2%nat. cbn [attr_loop]. unfold BGP_ATTR_MIN_LEN. rewrite (proj2 (Z.ltb_ge _ _)) by lia.
  rewrite (st_bind_Ok _ _ _ _ _ (next_byte_ahead s flag _ Hs Hah)).
  pose proof (skip_ok s [flag] [type] Hs Hah) as Hs1. pose proof (ahead_skip s [flag] [type] Hs Hah) as Hah1.
  rewrite (st_bind_Ok _ _ _ _ _ (next_byte_ahead _ type _ Hs1 Hah1)). cbn [length]. rewrite Hx.
  pose proof (ahead_skip _ [type] [] Hs1 Hah1) as Hah2. cbn [length] in Hah2.
  unfold mbind at 1, ST_bind at 1. rewrite getc_end; [done|done|]. destruct Hs. cbn. lia.
Qed.

(** A path of one empty sequence is well-formed for aspath_make_str_count, and the check
    of the first AS number of an external peer reads behind it. *)
Lemma empty_sequence_overreads :
  ∃ a, aspath_parse [AS_SEQUENCE; 0] 2 = Ok (Some a) ∧ ∀ as_, aspath_firstas_check (Some a) as_ = Fail OutOfBounds.
Proof. eexists. split; [vm_compute; reflexivity|]. reflexivity. Qed.

(** * Empty communities *)

(** An internal session of AS 65000 that carries communities of both kinds. *)
Definition session_conf : bconf := BConf (router 0) [10; 0; 0; 1] [10; 0; 0; 9].
Definition session_peer (as_ id : Z) : bpeer :=
  BPeer (neighbor as_ id) 0 0 (λ _ _, Z.lor PEER_FLAG_SEND_COMMUNITY PEER_FLAG_SEND_EXT_COMMUNITY) (λ _ _, true) (λ _ _, false)
    true [0; 0; 0; 0] [10; 0; 0; id].

Lemma marked_mark type a : ATTR_FLAG_BIT type ≠ 0 → marked type (mark type a) = true.
Proof.
  intros Hb. unfold marked, mark, CHECK_FLAG, SET_FLAG. cbn [ar_flag set_ar_flag].
  assert (Z.land (Z.lor (ar_flag a) (ATTR_FLAG_BIT type)) (ATTR_FLAG_BIT type) = ATTR_FLAG_BIT type) as ->.
  { apply Z.bits_inj. intros i. rewrite Z.land_spec, Z.lor_spec. by destruct (Z.testbit (ar_flag a) i), (Z.testbit _ i). }
  by rewrite (proj2 (Z.eqb_neq _ _)).
Qed.

(** A COMMUNITIES attribute without a community is accepted: it is marked, and there is
    no structure. *)
Lemma empty_community_accepted bc pr flag startp p s :
  ∃ p', attr_value bc pr BGP_ATTR_COMMUNITIES flag 0 startp p s = Ok (Fine p', s) ∧
    marked BGP_ATTR_COMMUNITIES (pd_attr p') = true ∧ ar_community (pd_attr p') = None.
Proof.
  exists (upd (λ a, mark BGP_ATTR_COMMUNITIES (set_ar_community None a)) p). split_and!; [by destruct p|by apply marked_mark|done].
Qed.

(** No route to 192.0.2.0/24 but its communities are missing. *)
Definition without_communities : list Z :=
  [0; 0;  0; 24;
   0x40; 1; 1; 0;  0x40; 2; 0;  0x40; 3; 4; 10; 0; 0; 7;  0x40; 5; 4; 0; 0; 0; 100;  0xc0; 8; 0;
   24; 192; 0; 2].

(** Such an UPDATE is taken, and when the route is passed on to a peer that is sent
    communities bgpd follows a null pointer. *)
Lemma empty_communities_crash :
  ∃ x p a,
    bgp_update_receive session_conf (session_peer 65000 7) (λ _ _, 0) (Z.of_nat (length without_communities))
      (URun (input (without_communities ++ [0; 0])) [] []) = Ok (0, x) ∧
    bgp_update p a AFI_IP SAFI_UNICAST ∈ ur_calls x ∧
    bgp_packet_attribute session_conf (session_peer 1 8) a p AFI_IP SAFI_UNICAST (Some (session_peer 65000 7)) [] []
      (stream_new BGP_MAX_PACKET_SIZE) = Fail NullDeref.
Proof.
  eexists _, (Prefix AF_INET 24 ([192; 0; 2] ++ replicate 13 0)), _. split_and!; [vm_compute; reflexivity|left|vm_compute; reflexivity].
Qed.

(** * Sessions that work *)

Lemma bgp_update_receive_safe_witness :
  ∃ r x', bgp_update_receive session_conf (session_peer 65000 7) (λ _ _, 0) (Z.of_nat (length without_communities))
      (URun (input (without_communities ++ [0; 0])) [] []) = Ok (r, x') ∧
    (r = 0 ∨ (r = -1 ∧ announces_none (URun (input (without_communities ++ [0; 0])) [] []) x')).
Proof.
  apply (bgp_update_receive_safe session_conf (session_peer 65000 7) (λ _ _, 0)
    (URun (input (without_communities ++ [0; 0])) [] []) (length without_communities));
    [apply input_ok; [by apply (bool_decide_unpack (bytes_ok _))|done]|done|done|].
  by apply (bool_decide_unpack (Forall benign _)).
Defined.

(** A route with every attribute that is carried. *)
Definition full_attr : attr :=
  Eval vm_compute in
  mark BGP_ATTR_NEXT_HOP (mark BGP_ATTR_MULTI_EXIT_DISC (mark BGP_ATTR_ATOMIC_AGGREGATE (mark BGP_ATTR_AGGREGATOR
  (mark BGP_ATTR_COMMUNITIES (mark BGP_ATTR_EXT_COMMUNITIES
    (Attr 0 BGP_ORIGIN_EGP [10; 0; 0; 7] 20 100 65001 [10; 1; 1; 1] 0 (replicate 4 0) (Some [10; 0; 0; 5])
       0 (replicate 16 0) (replicate 16 0) (replicate 4 0)
       (Some (Aspath 1 6 2 (Some [2; 2; 0; 100; 0; 200]) None))
       (Some (Community 1 2 (Some (val_bytes [0x640001; 0x640002])) None))
       (Some (ecom_of [[0; 2; 0; 100; 0; 0; 0; 1]])) (Some (tlvs_bytes [(0xe0, 99, [1; 2; 3])])))))))).




(** * Long cluster lists *)

(** The length of the cluster list is one octet: a route that has passed 63 clusters is
    reflected with an attribute of length zero in front of its 256 octets. *)
Lemma long_cluster_list_wraps :
  ∃ s, put_reflector session_conf (session_peer 65000 8) (set_ar_cluster (Some (replicate 252 1)) full_attr) (stream_new 512) =
    Ok (tt, s) ∧ s_putp s = 7 + 3 + 256 ∧ take 3 (drop 7 (s_data s)) = [BGP_ATTR_FLAG_OPTIONAL; BGP_ATTR_CLUSTER_LIST; 0].
Proof. eexists. split_and!; [vm_compute; reflexivity|done|done]. Qed.
