(* ===== verification/BgpFsm.v ===== *)
(** The BGP session: bgpd/bgp_fsm.c, and the output half of bgpd/bgp_packet.c.

    The state is one peer with its threads and its own part of the event queue: a timer is
    the number of seconds it was set to, the read and write threads the descriptor they wait
    for.  What is asked of the rest of bgpd and of the system (routes to announce or clear,
    sockets, octets to write) is recorded in [p_acts]; [p_rands] are the next results of rand.
    Counters of messages, times that are only shown, the addresses of the connection and the
    debug output are left out. *)

From S2P Require Import Prelude Prefix Stream BgpAttr.

(** * Constants *)

Definition Idle : Z := 1.
Definition Connect : Z := 2.
Definition Active : Z := 3.
Definition OpenSent : Z := 4.
Definition OpenConfirm : Z := 5.
Definition Established : Z := 6.

Definition BGP_Start : Z := 1.
Definition BGP_Stop : Z := 2.
Definition TCP_connection_open : Z := 3.
Definition TCP_connection_closed : Z := 4.
Definition TCP_connection_open_failed : Z := 5.
Definition TCP_fatal_error : Z := 6.
Definition ConnectRetry_timer_expired : Z := 7.
Definition Hold_Timer_expired : Z := 8.
Definition KeepAlive_timer_expired : Z := 9.
Definition Receive_OPEN_message : Z := 10.
Definition Receive_KEEPALIVE_message : Z := 11.
Definition Receive_UPDATE_message : Z := 12.
Definition Receive_NOTIFICATION_message : Z := 13.

Definition BGP_PEER_FIRST_CREATE_TIMER : Z := 20.
Definition BGP_ACTIVE_DELAY_TIMER : Z := 5.
Definition BGP_DEFAULT_CONNECT_RETRY : Z := 120.

Definition PEER_FLAG_CONNECT_MODE_PASSIVE : Z := 2^0.
Definition PEER_FLAG_CONNECT_MODE_ACTIVE : Z := 2^1.
Definition PEER_FLAG_SHUTDOWN : Z := 2^2.
Definition PEER_FLAG_OVERRIDE_CAPABILITY : Z := 2^4.
Definition PEER_STATUS_ACCEPT_PEER : Z := 2^0.
Definition PEER_STATUS_PREFIX_OVERFLOW : Z := 2^1.
Definition PEER_STATUS_CAPABILITY_OPEN : Z := 2^2.
Definition PEER_STATUS_CREATE_INIT : Z := 2^5.
Definition PEER_STATUS_NSF_MODE : Z := 2^6.
Definition PEER_STATUS_NSF_WAIT : Z := 2^7.
Definition PEER_CONFIG_TIMER : Z := 2^1.
Definition PEER_CAP_RESTART_ADV : Z := 2^5.
Definition PEER_CAP_ORF_PREFIX_SM_ADV : Z := 2^0.
Definition PEER_CAP_ORF_PREFIX_RM_ADV : Z := 2^1.
Definition PEER_CAP_ORF_PREFIX_SM_RCV : Z := 2^2.
Definition PEER_CAP_ORF_PREFIX_RM_RCV : Z := 2^3.
Definition PEER_CAP_ORF_PREFIX_SM_OLD_RCV : Z := 2^4.
Definition PEER_CAP_ORF_PREFIX_RM_OLD_RCV : Z := 2^5.
Definition PEER_CAP_RESTART_AF_RCV : Z := 2^6.
Definition PEER_CAP_RESTART_AF_PRESERVE_RCV : Z := 2^7.
Definition PEER_STATUS_ORF_WAIT_REFRESH : Z := 2^1.
Definition PEER_DOWN_USER_SHUTDOWN : Z := 11.
Definition PEER_DOWN_USER_RESET : Z := 12.
Definition PEER_DOWN_NOTIFY_SEND : Z := 14.
Definition PEER_DOWN_NEIGHBOR_DELETE : Z := 16.

Definition BGP_MARKER_SIZE : Z := 16.
Definition BGP_HEADER_SIZE : Z := 19.
Definition BGP_MSG_OPEN : Z := 1.
Definition BGP_MSG_UPDATE : Z := 2.
Definition BGP_MSG_NOTIFY : Z := 3.
Definition BGP_MSG_KEEPALIVE : Z := 4.
Definition BGP_VERSION_4 : Z := 4.
Definition BGP_WRITE_PACKET_MAX : Z := 10.
Definition BGP_NOTIFY_HOLD_ERR : Z := 4.
Definition BGP_NOTIFY_CEASE : Z := 6.
Definition BGP_NOTIFY_CEASE_ADMIN_SHUTDOWN : Z := 2.
Definition BGP_NOTIFY_CEASE_PEER_UNCONFIG : Z := 3.
Definition BGP_NOTIFY_CEASE_ADMIN_RESET : Z := 4.
Definition BGP_NOTIFY_CEASE_CONFIG_CHANGE : Z := 6.

Definition connect_error : Z := 0.
Definition connect_success : Z := 1.
Definition connect_in_progress : Z := 2.
Definition ORF_TYPE_PREFIX : Z := 64.
Definition ORF_TYPE_PREFIX_OLD : Z := 128.

(** * Address families *)

(** The indices of an array that the loops over address families visit; [top] is the end of
    the inner loop. *)
Definition in_af (top afi safi : Z) : bool := (1 <=? afi) && (afi <? 3) && (1 <=? safi) && (safi <? top).

Definition fill {X} (top : Z) (v : X) (f : Z → Z → X) : Z → Z → X := λ a s, if in_af top a s then v else f a s.

(** The loops, in their order, to SAFI_MAX and to SAFI_UNICAST_MULTICAST. *)
Definition all_af : list (Z * Z) := [(1, 1); (1, 2); (1, 3); (1, 4); (2, 1); (2, 2); (2, 3); (2, 4)].
Definition nsf_af : list (Z * Z) := [(1, 1); (1, 2); (2, 1); (2, 2)].

(** * The peer *)

(** What the commands set, of the peer and of its instance. *)
Record conf := Conf {
  c_su : list Z;
  c_as : Z;
  c_local_as : Z;
  c_change_local_as : Z;
  c_local_id : list Z;
  c_afc : Z → Z → Z;
  c_config : Z;
  c_holdtime : Z;
  c_keepalive : Z;
  c_default_holdtime : Z;
  c_default_keepalive : Z;
  c_stalepath_time : Z;
  c_v_start : Z;
  c_v_connect : Z;
  c_v_routeadv : Z;
}.

(** What the two sides have told each other. *)
Record nego := Nego {
  n_remote_id : list Z;
  n_cap : Z;
  n_afc_nego : Z → Z → Z;
  n_afc_adv : Z → Z → Z;
  n_afc_recv : Z → Z → Z;
  n_af_cap : Z → Z → Z;
  n_af_sflags : Z → Z → Z;
}.

Inductive tm := TStart | TConnect | THoldtime | TKeepalive | TAsorig | TRouteadv (afi safi : Z) | TGrRestart | TGrStale.

#[export] Instance tm_eq_dec : EqDecision tm.
Proof. solve_decision. Defined.

Inductive act :=
  | ASocket (fd : Z)
  | AClose (fd : Z)
  | AWrite (fd : Z) (bs : list Z)
  | AAnnounce
  | AClearRoutes
  | AClearStale (afi safi : Z)
  | AOrfRemove
  | ADelete.

#[export] Instance act_eq_dec : EqDecision act.
Proof. solve_decision. Defined.

Record peer := Peer {
  p_conf : conf;
  p_status : Z;
  p_ostatus : Z;
  p_fd : Z;
  p_read : option Z;
  p_write : option Z;
  p_timers : tm → option Z;
  p_flags : Z;
  p_sflags : Z;
  v_holdtime : Z;
  v_keepalive : Z;
  v_active_delay : Z;
  v_gr_restart : Z;
  p_nsf : Z → Z → Z;
  p_synctime : Z → Z → Z;
  p_nego : nego;
  p_ibuf : option stream;
  p_obuf : list stream;
  p_packet_size : Z;
  p_established : Z;
  p_dropped : Z;
  p_last_reset : Z;
  p_events : list Z;
  p_rands : list Z;
  p_acts : list act;
}.

Definition with_status (x : Z) (p : peer) : peer :=
  Peer (p_conf p) x (p_ostatus p) (p_fd p) (p_read p) (p_write p) (p_timers p) (p_flags p) (p_sflags p) (v_holdtime p) (v_keepalive p) (v_active_delay p) (v_gr_restart p) (p_nsf p) (p_synctime p) (p_nego p) (p_ibuf p) (p_obuf p) (p_packet_size p) (p_established p) (p_dropped p) (p_last_reset p) (p_events p) (p_rands p) (p_acts p).
Definition with_ostatus (x : Z) (p : peer) : peer :=
  Peer (p_conf p) (p_status p) x (p_fd p) (p_read p) (p_write p) (p_timers p) (p_flags p) (p_sflags p) (v_holdtime p) (v_keepalive p) (v_active_delay p) (v_gr_restart p) (p_nsf p) (p_synctime p) (p_nego p) (p_ibuf p) (p_obuf p) (p_packet_size p) (p_established p) (p_dropped p) (p_last_reset p) (p_events p) (p_rands p) (p_acts p).
Definition with_fd (x : Z) (p : peer) : peer :=
  Peer (p_conf p) (p_status p) (p_ostatus p) x (p_read p) (p_write p) (p_timers p) (p_flags p) (p_sflags p) (v_holdtime p) (v_keepalive p) (v_active_delay p) (v_gr_restart p) (p_nsf p) (p_synctime p) (p_nego p) (p_ibuf p) (p_obuf p) (p_packet_size p) (p_established p) (p_dropped p) (p_last_reset p) (p_events p) (p_rands p) (p_acts p).
Definition with_read (x : option Z) (p : peer) : peer :=
  Peer (p_conf p) (p_status p) (p_ostatus p) (p_fd p) x (p_write p) (p_timers p) (p_flags p) (p_sflags p) (v_holdtime p) (v_keepalive p) (v_active_delay p) (v_gr_restart p) (p_nsf p) (p_synctime p) (p_nego p) (p_ibuf p) (p_obuf p) (p_packet_size p) (p_established p) (p_dropped p) (p_last_reset p) (p_events p) (p_rands p) (p_acts p).
Definition with_write (x : option Z) (p : peer) : peer :=
  Peer (p_conf p) (p_status p) (p_ostatus p) (p_fd p) (p_read p) x (p_timers p) (p_flags p) (p_sflags p) (v_holdtime p) (v_keepalive p) (v_active_delay p) (v_gr_restart p) (p_nsf p) (p_synctime p) (p_nego p) (p_ibuf p) (p_obuf p) (p_packet_size p) (p_established p) (p_dropped p) (p_last_reset p) (p_events p) (p_rands p) (p_acts p).
Definition with_timers (x : tm → option Z) (p : peer) : peer :=
  Peer (p_conf p) (p_status p) (p_ostatus p) (p_fd p) (p_read p) (p_write p) x (p_flags p) (p_sflags p) (v_holdtime p) (v_keepalive p) (v_active_delay p) (v_gr_restart p) (p_nsf p) (p_synctime p) (p_nego p) (p_ibuf p) (p_obuf p) (p_packet_size p) (p_established p) (p_dropped p) (p_last_reset p) (p_events p) (p_rands p) (p_acts p).
Definition with_flags (x : Z) (p : peer) : peer :=
  Peer (p_conf p) (p_status p) (p_ostatus p) (p_fd p) (p_read p) (p_write p) (p_timers p) x (p_sflags p) (v_holdtime p) (v_keepalive p) (v_active_delay p) (v_gr_restart p) (p_nsf p) (p_synctime p) (p_nego p) (p_ibuf p) (p_obuf p) (p_packet_size p) (p_established p) (p_dropped p) (p_last_reset p) (p_events p) (p_rands p) (p_acts p).
Definition with_sflags (x : Z) (p : peer) : peer :=
  Peer (p_conf p) (p_status p) (p_ostatus p) (p_fd p) (p_read p) (p_write p) (p_timers p) (p_flags p) x (v_holdtime p) (v_keepalive p) (v_active_delay p) (v_gr_restart p) (p_nsf p) (p_synctime p) (p_nego p) (p_ibuf p) (p_obuf p) (p_packet_size p) (p_established p) (p_dropped p) (p_last_reset p) (p_events p) (p_rands p) (p_acts p).
Definition with_v_holdtime (x : Z) (p : peer) : peer :=
  Peer (p_conf p) (p_status p) (p_ostatus p) (p_fd p) (p_read p) (p_write p) (p_timers p) (p_flags p) (p_sflags p) x (v_keepalive p) (v_active_delay p) (v_gr_restart p) (p_nsf p) (p_synctime p) (p_nego p) (p_ibuf p) (p_obuf p) (p_packet_size p) (p_established p) (p_dropped p) (p_last_reset p) (p_events p) (p_rands p) (p_acts p).
Definition with_v_keepalive (x : Z) (p : peer) : peer :=
  Peer (p_conf p) (p_status p) (p_ostatus p) (p_fd p) (p_read p) (p_write p) (p_timers p) (p_flags p) (p_sflags p) (v_holdtime p) x (v_active_delay p) (v_gr_restart p) (p_nsf p) (p_synctime p) (p_nego p) (p_ibuf p) (p_obuf p) (p_packet_size p) (p_established p) (p_dropped p) (p_last_reset p) (p_events p) (p_rands p) (p_acts p).
Definition with_v_active_delay (x : Z) (p : peer) : peer :=
  Peer (p_conf p) (p_status p) (p_ostatus p) (p_fd p) (p_read p) (p_write p) (p_timers p) (p_flags p) (p_sflags p) (v_holdtime p) (v_keepalive p) x (v_gr_restart p) (p_nsf p) (p_synctime p) (p_nego p) (p_ibuf p) (p_obuf p) (p_packet_size p) (p_established p) (p_dropped p) (p_last_reset p) (p_events p) (p_rands p) (p_acts p).
Definition with_v_gr_restart (x : Z) (p : peer) : peer :=
  Peer (p_conf p) (p_status p) (p_ostatus p) (p_fd p) (p_read p) (p_write p) (p_timers p) (p_flags p) (p_sflags p) (v_holdtime p) (v_keepalive p) (v_active_delay p) x (p_nsf p) (p_synctime p) (p_nego p) (p_ibuf p) (p_obuf p) (p_packet_size p) (p_established p) (p_dropped p) (p_last_reset p) (p_events p) (p_rands p) (p_acts p).
Definition with_nsf (x : Z → Z → Z) (p : peer) : peer :=
  Peer (p_conf p) (p_status p) (p_ostatus p) (p_fd p) (p_read p) (p_write p) (p_timers p) (p_flags p) (p_sflags p) (v_holdtime p) (v_keepalive p) (v_active_delay p) (v_gr_restart p) x (p_synctime p) (p_nego p) (p_ibuf p) (p_obuf p) (p_packet_size p) (p_established p) (p_dropped p) (p_last_reset p) (p_events p) (p_rands p) (p_acts p).
Definition with_synctime (x : Z → Z → Z) (p : peer) : peer :=
  Peer (p_conf p) (p_status p) (p_ostatus p) (p_fd p) (p_read p) (p_write p) (p_timers p) (p_flags p) (p_sflags p) (v_holdtime p) (v_keepalive p) (v_active_delay p) (v_gr_restart p) (p_nsf p) x (p_nego p) (p_ibuf p) (p_obuf p) (p_packet_size p) (p_established p) (p_dropped p) (p_last_reset p) (p_events p) (p_rands p) (p_acts p).
Definition with_nego (x : nego) (p : peer) : peer :=
  Peer (p_conf p) (p_status p) (p_ostatus p) (p_fd p) (p_read p) (p_write p) (p_timers p) (p_flags p) (p_sflags p) (v_holdtime p) (v_keepalive p) (v_active_delay p) (v_gr_restart p) (p_nsf p) (p_synctime p) x (p_ibuf p) (p_obuf p) (p_packet_size p) (p_established p) (p_dropped p) (p_last_reset p) (p_events p) (p_rands p) (p_acts p).
Definition with_ibuf (x : option stream) (p : peer) : peer :=
  Peer (p_conf p) (p_status p) (p_ostatus p) (p_fd p) (p_read p) (p_write p) (p_timers p) (p_flags p) (p_sflags p) (v_holdtime p) (v_keepalive p) (v_active_delay p) (v_gr_restart p) (p_nsf p) (p_synctime p) (p_nego p) x (p_obuf p) (p_packet_size p) (p_established p) (p_dropped p) (p_last_reset p) (p_events p) (p_rands p) (p_acts p).
Definition with_obuf (x : list stream) (p : peer) : peer :=
  Peer (p_conf p) (p_status p) (p_ostatus p) (p_fd p) (p_read p) (p_write p) (p_timers p) (p_flags p) (p_sflags p) (v_holdtime p) (v_keepalive p) (v_active_delay p) (v_gr_restart p) (p_nsf p) (p_synctime p) (p_nego p) (p_ibuf p) x (p_packet_size p) (p_established p) (p_dropped p) (p_last_reset p) (p_events p) (p_rands p) (p_acts p).
Definition with_packet_size (x : Z) (p : peer) : peer :=
  Peer (p_conf p) (p_status p) (p_ostatus p) (p_fd p) (p_read p) (p_write p) (p_timers p) (p_flags p) (p_sflags p) (v_holdtime p) (v_keepalive p) (v_active_delay p) (v_gr_restart p) (p_nsf p) (p_synctime p) (p_nego p) (p_ibuf p) (p_obuf p) x (p_established p) (p_dropped p) (p_last_reset p) (p_events p) (p_rands p) (p_acts p).
Definition with_established (x : Z) (p : peer) : peer :=
  Peer (p_conf p) (p_status p) (p_ostatus p) (p_fd p) (p_read p) (p_write p) (p_timers p) (p_flags p) (p_sflags p) (v_holdtime p) (v_keepalive p) (v_active_delay p) (v_gr_restart p) (p_nsf p) (p_synctime p) (p_nego p) (p_ibuf p) (p_obuf p) (p_packet_size p) x (p_dropped p) (p_last_reset p) (p_events p) (p_rands p) (p_acts p).
Definition with_dropped (x : Z) (p : peer) : peer :=
  Peer (p_conf p) (p_status p) (p_ostatus p) (p_fd p) (p_read p) (p_write p) (p_timers p) (p_flags p) (p_sflags p) (v_holdtime p) (v_keepalive p) (v_active_delay p) (v_gr_restart p) (p_nsf p) (p_synctime p) (p_nego p) (p_ibuf p) (p_obuf p) (p_packet_size p) (p_established p) x (p_last_reset p) (p_events p) (p_rands p) (p_acts p).
Definition with_last_reset (x : Z) (p : peer) : peer :=
  Peer (p_conf p) (p_status p) (p_ostatus p) (p_fd p) (p_read p) (p_write p) (p_timers p) (p_flags p) (p_sflags p) (v_holdtime p) (v_keepalive p) (v_active_delay p) (v_gr_restart p) (p_nsf p) (p_synctime p) (p_nego p) (p_ibuf p) (p_obuf p) (p_packet_size p) (p_established p) (p_dropped p) x (p_events p) (p_rands p) (p_acts p).
Definition with_events (x : list Z) (p : peer) : peer :=
  Peer (p_conf p) (p_status p) (p_ostatus p) (p_fd p) (p_read p) (p_write p) (p_timers p) (p_flags p) (p_sflags p) (v_holdtime p) (v_keepalive p) (v_active_delay p) (v_gr_restart p) (p_nsf p) (p_synctime p) (p_nego p) (p_ibuf p) (p_obuf p) (p_packet_size p) (p_established p) (p_dropped p) (p_last_reset p) x (p_rands p) (p_acts p).
Definition with_rands (x : list Z) (p : peer) : peer :=
  Peer (p_conf p) (p_status p) (p_ostatus p) (p_fd p) (p_read p) (p_write p) (p_timers p) (p_flags p) (p_sflags p) (v_holdtime p) (v_keepalive p) (v_active_delay p) (v_gr_restart p) (p_nsf p) (p_synctime p) (p_nego p) (p_ibuf p) (p_obuf p) (p_packet_size p) (p_established p) (p_dropped p) (p_last_reset p) (p_events p) x (p_acts p).
Definition with_acts (x : list act) (p : peer) : peer :=
  Peer (p_conf p) (p_status p) (p_ostatus p) (p_fd p) (p_read p) (p_write p) (p_timers p) (p_flags p) (p_sflags p) (v_holdtime p) (v_keepalive p) (v_active_delay p) (v_gr_restart p) (p_nsf p) (p_synctime p) (p_nego p) (p_ibuf p) (p_obuf p) (p_packet_size p) (p_established p) (p_dropped p) (p_last_reset p) (p_events p) (p_rands p) x.

Definition modify (f : peer → peer) : ST peer unit := λ p, Ok (tt, f p).

Definition act_add (a : act) : ST peer unit := modify (λ p, with_acts (p_acts p ++ [a]) p).

(** ** Threads *)

(** A timer or thread that is on stays as it is. *)
Definition set_timer (t : tm) (v : option Z) (f : tm → option Z) : tm → option Z := λ t', if decide (t' = t) then v else f t'.

Definition timer_on (t : tm) (v : Z) : ST peer unit :=
  modify (λ p, with_timers (set_timer t (Some (default v (p_timers p t))) (p_timers p)) p).
Definition timer_off (t : tm) : ST peer unit := modify (λ p, with_timers (set_timer t None (p_timers p)) p).

Definition BGP_READ_ON (fd : Z) : ST peer unit := modify (λ p, with_read (Some (default fd (p_read p))) p).
Definition BGP_READ_OFF : ST peer unit := modify (with_read None).
Definition BGP_WRITE_ON (fd : Z) : ST peer unit := modify (λ p, with_write (Some (default fd (p_write p))) p).
Definition BGP_WRITE_OFF : ST peer unit := modify (with_write None).

Definition BGP_EVENT_ADD (e : Z) : ST peer unit := modify (λ p, with_events (p_events p ++ [e]) p).
Definition BGP_EVENT_DELETE : ST peer unit := modify (with_events []).

(** The loop that turns off the timers of route advertisement. *)
Definition routeadv_off : ST peer unit := foldr (λ af m, timer_off (TRouteadv af.1 af.2);; m) (mret tt) all_af.

Definition has_flag (f : Z) (p : peer) : bool := CHECK_FLAG (p_flags p) f.
Definition has_sflag (f : Z) (p : peer) : bool := CHECK_FLAG (p_sflags p) f.
Definition set_sflag (f : Z) : ST peer unit := modify (λ p, with_sflags (SET_FLAG (p_sflags p) f) p).
Definition unset_sflag (f : Z) : ST peer unit := modify (λ p, with_sflags (UNSET_FLAG (p_sflags p) f) p).

Definition peer_active (p : peer) : bool :=
  let afc := c_afc (p_conf p) in
  negb ((afc 1 1 =? 0) && (afc 1 2 =? 0) && (afc 1 4 =? 0) && (afc 2 1 =? 0) && (afc 2 2 =? 0)).

(** * Timers *)

Definition next_rand : ST peer Z := λ p,
  match p_rands p with
  | r :: rs => Ok (r, with_rands rs p)
  | [] => Ok (0, p)
  end.

Definition bgp_active_delay_jitter (rand time : Z) : Z := rand mod (time + 1) - time / 2.

(** The timers that are off in every state but the ones named. *)
Definition hold_keepalive : ST peer unit :=
  p ← st_get;
  if v_holdtime p =? 0 then timer_off THoldtime;; timer_off TKeepalive
  else timer_on THoldtime (v_holdtime p);; timer_on TKeepalive (v_keepalive p).

Definition bgp_timer_set : ST peer unit :=
  p ← st_get;
  if p_status p =? Idle then
    (if has_flag PEER_FLAG_SHUTDOWN p || has_sflag PEER_STATUS_PREFIX_OVERFLOW p || negb (peer_active p)
     then timer_off TStart
     else if has_sflag PEER_STATUS_CREATE_INIT p then timer_on TStart BGP_PEER_FIRST_CREATE_TIMER
     else timer_on TStart (c_v_start (p_conf p)));;
    timer_off TConnect;; timer_off THoldtime;; timer_off TKeepalive;; timer_off TAsorig;; routeadv_off
  else if p_status p =? Connect then
    timer_off TStart;; timer_on TConnect (c_v_connect (p_conf p));;
    timer_off THoldtime;; timer_off TKeepalive;; timer_off TAsorig;; routeadv_off
  else if p_status p =? Active then
    timer_off TStart;;
    (if has_flag PEER_FLAG_CONNECT_MODE_PASSIVE p then timer_off TConnect
     else if (p_ostatus p =? Idle) && negb (has_sflag PEER_STATUS_NSF_WAIT p) then
       r ← next_rand;
       timer_on TConnect (s32 (s32 (v_active_delay p) + bgp_active_delay_jitter r BGP_ACTIVE_DELAY_TIMER))
     else timer_on TConnect (c_v_connect (p_conf p)));;
    timer_off THoldtime;; timer_off TKeepalive;; timer_off TAsorig;; routeadv_off
  else if p_status p =? OpenSent then
    timer_off TStart;; timer_off TConnect;;
    (if negb (v_holdtime p =? 0) then timer_on THoldtime (v_holdtime p) else timer_off THoldtime);;
    timer_off TKeepalive;; timer_off TAsorig;; routeadv_off
  else if p_status p =? OpenConfirm then
    timer_off TStart;; timer_off TConnect;; hold_keepalive;; timer_off TAsorig;; routeadv_off
  else if p_status p =? Established then
    timer_off TStart;; timer_off TConnect;; hold_keepalive;; timer_off TAsorig
  else mret tt.

(** * Stopping *)

Definition bgp_fsm_change_status (status : Z) : ST peer unit :=
  modify (λ p, with_status status (with_ostatus (p_status p) p)).

Definition nego_none : nego :=
  Nego [0; 0; 0; 0] 0 (λ _ _, 0) (λ _ _, 0) (λ _ _, 0) (λ _ _, 0) (λ _ _, 0).

Definition nego_reset (n : nego) : nego :=
  Nego [0; 0; 0; 0] 0 (fill 5 0 (n_afc_nego n)) (fill 5 0 (n_afc_adv n)) (fill 5 0 (n_afc_recv n))
    (fill 5 0 (n_af_cap n)) (fill 5 0 (n_af_sflags n)).

(** The part of bgp_stop for a session that was up. *)
Definition stop_established : ST peer unit :=
  bgp_fsm_change_status Idle;;
  modify (λ p, with_dropped (u32 (p_dropped p + 1)) p);;
  timer_off TGrStale;;
  p ← st_get;
  (if has_sflag PEER_STATUS_NSF_WAIT p then
     timer_on TGrRestart (v_gr_restart p);;
     timer_on TGrStale (c_stalepath_time (p_conf p))
   else
     unset_sflag PEER_STATUS_NSF_MODE;;
     modify (λ p, with_nsf (fill 3 0 (p_nsf p)) p));;
  act_add AClearRoutes;;
  modify (λ p, with_synctime (fill 5 0 (p_synctime p)) p).

Definition close_fd : ST peer unit :=
  p ← st_get;
  if 0 <=? p_fd p then act_add (AClose (p_fd p));; modify (with_fd (-1)) else mret tt.

Definition reset_times : ST peer unit :=
  modify (λ p,
    let c := p_conf p in
    if CHECK_FLAG (c_config c) PEER_CONFIG_TIMER
    then with_v_holdtime (c_holdtime c) (with_v_keepalive (c_keepalive c) p)
    else with_v_holdtime (c_default_holdtime c) (with_v_keepalive (c_default_keepalive c) p)).

(** The part of bgp_stop for every session: threads, buffers, descriptor, negotiation. *)
Definition stop_session : ST peer unit :=
  BGP_READ_OFF;; BGP_WRITE_OFF;;
  timer_off TStart;; timer_off TConnect;; timer_off THoldtime;; timer_off TKeepalive;; timer_off TAsorig;;
  routeadv_off;;
  BGP_EVENT_DELETE;;
  modify (with_packet_size 0);;
  modify (λ p, with_ibuf (stream_reset <$> p_ibuf p) p);;
  modify (with_obuf []);;
  close_fd;;
  modify (λ p, with_nego (nego_reset (p_nego p)) p);;
  act_add AOrfRemove;;
  reset_times.

Definition bgp_stop : ST peer Z :=
  p ← st_get;
  if has_sflag PEER_STATUS_CREATE_INIT p then mret 0
  else
    (if p_status p =? Established then stop_established else mret tt);;
    stop_session;;
    mret 0.

Definition bgp_stop_with_error : ST peer Z :=
  modify (λ p, let d := u32 (v_active_delay p * 2) in
    with_v_active_delay (if BGP_DEFAULT_CONNECT_RETRY <? d then BGP_DEFAULT_CONNECT_RETRY else d) p);;
  bgp_stop;;
  mret 0.

(** * Packets *)

Definition bgp_packet_set_marker (type : Z) : ST stream Z :=
  foldr (λ _ m, stream_putc 0xff;; m) (mret tt) (seq 0 (Z.to_nat BGP_MARKER_SIZE));;
  stream_putw 0;;
  stream_putc type;;
  s ← st_get;
  mret (stream_get_putp s).

Definition bgp_packet_set_size : ST stream Z :=
  s ← st_get;
  let cp := stream_get_putp s in
  st_put (stream_set_putp BGP_MARKER_SIZE s);;
  stream_putw cp;;
  s ← st_get;
  st_put (stream_set_putp cp s);;
  mret cp.

(** A packet: its type and what follows the header. *)
Definition make_packet (type : Z) (body : ST stream unit) : res stream :=
  r ← (bgp_packet_set_marker type;; body;; bgp_packet_set_size) (stream_new BGP_MAX_PACKET_SIZE);
  Ok r.2.

Definition bgp_packet_add (s : stream) : ST peer unit := modify (λ p, with_obuf (p_obuf p ++ [s]) p).
Definition bgp_packet_delete : ST peer unit := modify (λ p, with_obuf (tail (p_obuf p)) p).

Definition send_packet (s : stream) : ST peer unit :=
  bgp_packet_add s;;
  p ← st_get;
  BGP_WRITE_ON (p_fd p).

Definition bgp_keepalive_send : ST peer unit :=
  s ← st_lift (make_packet BGP_MSG_KEEPALIVE (mret tt));
  send_packet s.

(** bgp_write_notify: [writes] is what write returns, call by call. *)
Definition bgp_write_notify (writes : list Z) : ST peer unit :=
  p ← st_get;
  match p_obuf p with
  | [] => mret tt
  | s :: _ =>
      st_lift (c_assert (BGP_HEADER_SIZE <=? stream_get_endp s));;
      bs ← st_lift (get_bytes (s_data s) 0 (stream_get_endp s));
      let ret := writen writes (stream_get_endp s) (stream_get_endp s) in
      if ret <=? 0 then
        bgp_stop;; modify (with_status Idle);; bgp_timer_set
      else
        act_add (AWrite (p_fd p) bs);;
        type ← st_lift (stream_getc_from (BGP_MARKER_SIZE + 2) s);
        st_lift (c_assert (type =? BGP_MSG_NOTIFY));;
        (if p_status p =? Established then bgp_stop;; mret tt
         else bgp_stop_with_error;; bgp_fsm_change_status Idle);;
        bgp_timer_set
  end.

Definition last_reset_of (sub_code : Z) : ST peer unit :=
  if sub_code =? BGP_NOTIFY_CEASE_CONFIG_CHANGE then mret tt
  else modify (with_last_reset (
    if sub_code =? BGP_NOTIFY_CEASE_ADMIN_RESET then PEER_DOWN_USER_RESET
    else if sub_code =? BGP_NOTIFY_CEASE_ADMIN_SHUTDOWN then PEER_DOWN_USER_SHUTDOWN
    else if sub_code =? BGP_NOTIFY_CEASE_PEER_UNCONFIG then PEER_DOWN_NEIGHBOR_DELETE
    else PEER_DOWN_NOTIFY_SEND)).

Definition bgp_notify_send_with_data (writes : list Z) (code sub_code : Z) (data : list Z) : ST peer unit :=
  s ← st_lift (make_packet BGP_MSG_NOTIFY (
    stream_putc code;;
    stream_putc sub_code;;
    (if decide (data = []) then mret tt else stream_write data (Z.of_nat (length data));; mret tt)));
  modify (with_obuf []);;
  bgp_packet_add s;;
  last_reset_of sub_code;;
  BGP_WRITE_OFF;;
  bgp_write_notify writes.

Definition bgp_notify_send (writes : list Z) (code sub_code : Z) : ST peer unit :=
  bgp_notify_send_with_data writes code sub_code [].

(** * The rest of bgpd *)

(** What the machine asks of code that is not modelled: the capabilities of an OPEN message,
    with what they record of the negotiation, and ROUTE-REFRESH messages. *)
Class Speaker := {
  open_capability : peer → list Z * nego;
  route_refresh : Z → Z → Z → peer → stream * nego;
}.

(** What the system does in one step: the socket and the result of connect (bgp_connect), and
    what write returns for a NOTIFICATION. *)
Record env := Env { e_socket : Z; e_connect : Z; e_writes : list Z }.

Section machine.
Context `{Speaker} (e : env).

Definition bgp_open_send : ST peer unit :=
  p ← st_get;
  let c := p_conf p in
  let send_holdtime := u16 (if CHECK_FLAG (c_config c) PEER_CONFIG_TIMER then c_holdtime c else c_default_holdtime c) in
  let local_as := if negb (c_change_local_as c =? 0) then c_change_local_as c else c_local_as c in
  let '(caps, n) := open_capability p in
  s ← st_lift (make_packet BGP_MSG_OPEN (
    stream_putc BGP_VERSION_4;;
    stream_putw local_as;;
    stream_putw send_holdtime;;
    stream_put_in_addr (c_local_id c);;
    foldr (λ o m, stream_putc o;; m) (mret tt) caps));
  modify (with_nego n);;
  send_packet s.

(** bgp_route_refresh_send, the packet of which is an argument. *)
Definition bgp_route_refresh_send (afi safi orf_type : Z) : ST peer unit :=
  p ← st_get;
  let '(s, n) := route_refresh afi safi orf_type p in
  modify (with_nego n);;
  send_packet s.

(** * The functions of the machine *)

Definition bgp_connect_success : ST peer Z :=
  p ← st_get;
  if p_fd p <? 0 then mret (-1)
  else
    BGP_READ_ON (p_fd p);;
    (if negb (has_sflag PEER_STATUS_ACCEPT_PEER p) then bgp_open_send else mret tt);;
    mret 0.

Definition bgp_connect_fail : ST peer Z := bgp_stop;; mret 0.

(** bgp_connect: the options of the socket are left out. *)
Definition bgp_connect : ST peer Z :=
  modify (with_fd (e_socket e));;
  if e_socket e <? 0 then mret (-1)
  else act_add (ASocket (e_socket e));; mret (e_connect e).

Definition bgp_start : ST peer Z :=
  status ← bgp_connect;
  if status =? connect_error then BGP_EVENT_ADD TCP_connection_open_failed;; mret 0
  else if status =? connect_success then BGP_EVENT_ADD TCP_connection_open;; mret 0
  else if status =? connect_in_progress then
    p ← st_get;
    if p_fd p <? 0 then mret (-1)
    else BGP_READ_ON (p_fd p);; BGP_WRITE_ON (p_fd p);; mret 0
  else mret 0.

Definition bgp_reconnect : ST peer Z := bgp_stop;; bgp_start;; mret 0.

Definition bgp_fsm_open : ST peer Z := bgp_keepalive_send;; timer_off THoldtime;; mret 0.

Definition bgp_fsm_keepalive_expire : ST peer Z := bgp_keepalive_send;; mret 0.

Definition peer_nsf_stop : ST peer unit :=
  unset_sflag PEER_STATUS_NSF_WAIT;;
  unset_sflag PEER_STATUS_NSF_MODE;;
  modify (λ p, with_nsf (fill 3 0 (p_nsf p)) p);;
  timer_off TGrRestart;;
  timer_off TGrStale;;
  act_add AClearRoutes.

(** peer_delete, up to the structure itself. *)
Definition peer_delete : ST peer unit :=
  p ← st_get;
  (if has_sflag PEER_STATUS_NSF_WAIT p then peer_nsf_stop else mret tt);;
  p ← st_get;
  (if p_status p =? Established then bgp_notify_send (e_writes e) BGP_NOTIFY_CEASE BGP_NOTIFY_CEASE_PEER_UNCONFIG
   else bgp_stop;; bgp_fsm_change_status Idle);;
  timer_off TStart;; timer_off TConnect;; timer_off THoldtime;; timer_off TKeepalive;; timer_off TAsorig;;
  timer_off TGrRestart;; timer_off TGrStale;;
  routeadv_off;;
  modify (with_ibuf None);;
  act_add ADelete.

Definition bgp_fsm_holdtime_expire : ST peer Z :=
  bgp_notify_send (e_writes e) BGP_NOTIFY_HOLD_ERR 0;;
  p ← st_get;
  if has_sflag PEER_STATUS_ACCEPT_PEER p then peer_delete;; mret (-1)
  else mret 0.

(** The graceful restart of one address family; the result counts those that take part. *)
Definition establish_nsf (afi safi : Z) (count : Z) : ST peer Z :=
  p ← st_get;
  let n := p_nego p in
  let set v := modify (λ p, with_nsf (λ a s, if (a =? afi) && (s =? safi) then v else p_nsf p a s) p) in
  let has := negb (p_nsf p afi safi =? 0) in
  if negb (n_afc_nego n afi safi =? 0) && CHECK_FLAG (n_cap n) PEER_CAP_RESTART_ADV
     && CHECK_FLAG (n_af_cap n afi safi) PEER_CAP_RESTART_AF_RCV
  then
    (if has && negb (CHECK_FLAG (n_af_cap n afi safi) PEER_CAP_RESTART_AF_PRESERVE_RCV)
     then act_add (AClearStale afi safi) else mret tt);;
    set 1;;
    mret (count + 1)
  else
    (if has then act_add (AClearStale afi safi) else mret tt);;
    set 0;;
    mret count.

Definition establish_refresh (afi safi : Z) : ST peer unit :=
  p ← st_get;
  let cap := n_af_cap (p_nego p) afi safi in
  if CHECK_FLAG cap PEER_CAP_ORF_PREFIX_SM_ADV then
    if CHECK_FLAG cap PEER_CAP_ORF_PREFIX_RM_RCV then bgp_route_refresh_send afi safi ORF_TYPE_PREFIX
    else if CHECK_FLAG cap PEER_CAP_ORF_PREFIX_RM_OLD_RCV then bgp_route_refresh_send afi safi ORF_TYPE_PREFIX_OLD
    else mret tt
  else mret tt.

Definition set_af_sflags (afi safi v : Z) (n : nego) : nego :=
  Nego (n_remote_id n) (n_cap n) (n_afc_nego n) (n_afc_adv n) (n_afc_recv n) (n_af_cap n)
    (λ a s, if (a =? afi) && (s =? safi) then v else n_af_sflags n a s).

Definition establish_wait (afi safi : Z) : ST peer unit :=
  p ← st_get;
  let cap := n_af_cap (p_nego p) afi safi in
  if CHECK_FLAG cap PEER_CAP_ORF_PREFIX_RM_ADV
     && (CHECK_FLAG cap PEER_CAP_ORF_PREFIX_SM_RCV || CHECK_FLAG cap PEER_CAP_ORF_PREFIX_SM_OLD_RCV)
  then modify (λ p, with_nego (set_af_sflags afi safi (SET_FLAG (n_af_sflags (p_nego p) afi safi) PEER_STATUS_ORF_WAIT_REFRESH) (p_nego p)) p)
  else mret tt.

(** The part of bgp_establish between the change of the state and the announcement. *)
Definition establish_middle : ST peer unit :=
  unset_sflag PEER_STATUS_NSF_WAIT;;
  nsf_af_count ← foldl (λ m af, c ← m; establish_nsf af.1 af.2 c) (mret 0) nsf_af;
  (if negb (nsf_af_count =? 0) then set_sflag PEER_STATUS_NSF_MODE
   else unset_sflag PEER_STATUS_NSF_MODE;; timer_off TGrStale);;
  timer_off TGrRestart;;
  foldr (λ af m, establish_refresh af.1 af.2;; m) (mret tt) all_af;;
  p ← st_get;
  (if negb (v_keepalive p =? 0) then bgp_keepalive_send else mret tt);;
  foldr (λ af m, establish_wait af.1 af.2;; m) (mret tt) all_af.

Definition bgp_establish : ST peer Z :=
  set_sflag PEER_STATUS_CAPABILITY_OPEN;;
  modify (with_v_active_delay BGP_ACTIVE_DELAY_TIMER);;
  modify (λ p, with_established (u32 (p_established p + 1)) p);;
  bgp_fsm_change_status Established;;
  establish_middle;;
  act_add AAnnounce;;
  mret 0.

Definition bgp_fsm_keepalive : ST peer Z := timer_off THoldtime;; mret 0.
Definition bgp_fsm_update : ST peer Z := timer_off THoldtime;; mret 0.
Definition bgp_ignore : ST peer Z := mret 0.

(** ** The table *)

Inductive fsm_func :=
  | FIgnore | FStop | FStopWithError | FConnectSuccess | FConnectFail | FStart | FReconnect
  | FOpen | FHoldtimeExpire | FKeepaliveExpire | FEstablish | FKeepalive | FUpdate.

Definition fsm_run (f : fsm_func) : ST peer Z :=
  match f with
  | FIgnore => bgp_ignore
  | FStop => bgp_stop
  | FStopWithError => bgp_stop_with_error
  | FConnectSuccess => bgp_connect_success
  | FConnectFail => bgp_connect_fail
  | FStart => bgp_start
  | FReconnect => bgp_reconnect
  | FOpen => bgp_fsm_open
  | FHoldtimeExpire => bgp_fsm_holdtime_expire
  | FKeepaliveExpire => bgp_fsm_keepalive_expire
  | FEstablish => bgp_establish
  | FKeepalive => bgp_fsm_keepalive
  | FUpdate => bgp_fsm_update
  end.

Definition FSM : list (list (fsm_func * Z)) := [
  [(FIgnore, Active); (FStop, Idle); (FStop, Idle); (FStop, Idle); (FIgnore, Idle); (FStop, Idle); (FIgnore, Idle);
   (FIgnore, Idle); (FIgnore, Idle); (FIgnore, Idle); (FIgnore, Idle); (FIgnore, Idle); (FIgnore, Idle)];
  [(FIgnore, Connect); (FStop, Idle); (FConnectSuccess, OpenSent); (FStop, Idle); (FConnectFail, Active); (FConnectFail, Idle); (FReconnect, Connect);
   (FIgnore, Idle); (FIgnore, Idle); (FIgnore, Idle); (FIgnore, Idle); (FIgnore, Idle); (FStop, Idle)];
  [(FIgnore, Active); (FStop, Idle); (FConnectSuccess, OpenSent); (FStop, Idle); (FIgnore, Active); (FIgnore, Idle); (FStart, Connect);
   (FIgnore, Idle); (FIgnore, Idle); (FIgnore, Idle); (FIgnore, Idle); (FIgnore, Idle); (FStopWithError, Idle)];
  [(FIgnore, OpenSent); (FStop, Idle); (FStop, Idle); (FStop, Active); (FIgnore, Idle); (FStop, Idle); (FIgnore, Idle);
   (FHoldtimeExpire, Idle); (FIgnore, Idle); (FOpen, OpenConfirm); (FIgnore, Idle); (FIgnore, Idle); (FStopWithError, Idle)];
  [(FIgnore, OpenConfirm); (FStop, Idle); (FStop, Idle); (FStop, Idle); (FStop, Idle); (FStop, Idle); (FIgnore, Idle);
   (FHoldtimeExpire, Idle); (FIgnore, OpenConfirm); (FIgnore, Idle); (FEstablish, Established); (FIgnore, Idle); (FStopWithError, Idle)];
  [(FIgnore, Established); (FStop, Idle); (FStop, Idle); (FStop, Idle); (FIgnore, Idle); (FStop, Idle); (FIgnore, Idle);
   (FHoldtimeExpire, Idle); (FKeepaliveExpire, Established); (FStop, Idle); (FKeepalive, Established); (FUpdate, Established); (FStopWithError, Idle)]].

Definition fsm_entry (status event : Z) : res (fsm_func * Z) :=
  row ← arr_get FSM (status - 1);
  arr_get row (event - 1).

Definition bgp_event (event : Z) : ST peer Z :=
  p ← st_get;
  '(func, next) ← st_lift (fsm_entry (p_status p) event);
  ret ← fsm_run func;
  if ret <? 0 then mret ret
  else
    p ← st_get;
    (if negb (next =? p_status p) then bgp_fsm_change_status next else mret tt);;
    bgp_timer_set;;
    mret 0.

(** The events that wait; handling one adds none. *)
Fixpoint run_events (n : nat) : ST peer unit :=
  p ← st_get;
  match p_events p, n with
  | [], _ => mret tt
  | _ :: _, O => st_fail OutOfFuel
  | ev :: evs, S n => modify (with_events evs);; bgp_event ev;; run_events n
  end.

(** ** Timers that have run out *)

Definition bgp_start_timer : ST peer Z :=
  timer_off TStart;; unset_sflag PEER_STATUS_CREATE_INIT;; bgp_event BGP_Start.
Definition bgp_connect_timer : ST peer Z := timer_off TConnect;; bgp_event ConnectRetry_timer_expired.
Definition bgp_holdtime_timer : ST peer Z := timer_off THoldtime;; bgp_event Hold_Timer_expired.
Definition bgp_keepalive_timer : ST peer Z := timer_off TKeepalive;; bgp_event KeepAlive_timer_expired.

(** The four functions bgp_routeadv_timer_ipv4_unicast and so on, at time [now]. *)
Definition bgp_routeadv_timer_expire (now afi safi : Z) : ST peer unit :=
  timer_off (TRouteadv afi safi);;
  modify (λ p, with_synctime (λ a s, if (a =? afi) && (s =? safi) then now else p_synctime p a s) p);;
  p ← st_get;
  BGP_WRITE_ON (p_fd p);;
  timer_on (TRouteadv afi safi) (c_v_routeadv (p_conf p)).

Definition bgp_routeadv_timer (afi safi : Z) : ST peer unit :=
  if ((afi =? 1) && (safi =? 1)) || ((afi =? 1) && (safi =? 2)) || ((afi =? 2) && (safi =? 1)) || ((afi =? 1) && (safi =? 4))
  then timer_on (TRouteadv afi safi) 1 else mret tt.

Definition clear_stale : ST peer unit :=
  foldr (λ af m, (p ← st_get; if negb (p_nsf p af.1 af.2 =? 0) then act_add (AClearStale af.1 af.2) else mret tt);; m) (mret tt) nsf_af.

Definition bgp_graceful_restart_timer_expire : ST peer unit :=
  timer_off TGrRestart;; clear_stale;; unset_sflag PEER_STATUS_NSF_WAIT;; timer_off TGrStale.
Definition bgp_graceful_stale_timer_expire : ST peer unit := timer_off TGrStale;; clear_stale.

(** ** The descriptor *)

(** bgp_connect_check: the error of the socket, [None] when getsockopt fails. *)
Definition bgp_connect_check (sockerr : option Z) : ST peer unit :=
  BGP_READ_OFF;; BGP_WRITE_OFF;;
  match sockerr with
  | None => BGP_EVENT_ADD TCP_fatal_error
  | Some status => BGP_EVENT_ADD (if status =? 0 then TCP_connection_open else TCP_connection_open_failed)
  end.

(** What write returns, which is at most what it is given, and whether errno is EAGAIN then. *)
Record wcall := Wcall { wc_num : Z; wc_again : bool }.

(** bgp_write_packet: the first packet that waits, or the next of the UPDATE messages
    [updates] the routes of the peer give. *)
Definition bgp_write_packet (updates : list stream) : ST peer (option stream * list stream) :=
  p ← st_get;
  match p_obuf p, updates with
  | s :: _, _ => mret (Some s, updates)
  | [], s :: updates => bgp_packet_add s;; mret (Some s, updates)
  | [], [] => mret (None, [])
  end.

Definition set_head (s : stream) : ST peer unit := modify (λ p, with_obuf (s :: tail (p_obuf p)) p).

(** The loop of bgp_write; the result tells whether it was left by break. *)
Fixpoint write_loop (calls : list wcall) (updates : list stream) (count : Z) : ST peer bool :=
  '(s, updates) ← bgp_write_packet updates;
  match s with
  | None => mret false
  | Some s =>
      let writenum := s32 (stream_get_endp s - stream_get_getp s) in
      match calls with
      | [] => mret true
      | call :: calls =>
          p ← st_get;
          let num := Z.min (wc_num call) writenum in
          if num <=? 0 then
            if wc_again call then mret true
            else bgp_stop;; modify (with_status Idle);; bgp_timer_set;; mret false
          else
            bs ← st_lift (get_bytes (s_data s) (stream_get_getp s) num);
            act_add (AWrite (p_fd p) bs);;
            if negb (num =? writenum) then
              set_head (stream_forward num s);;
              if wc_again call then mret true else write_loop calls updates count
            else
              type ← st_lift (stream_getc_from (BGP_MARKER_SIZE + 2) s);
              if type =? BGP_MSG_NOTIFY then
                bgp_stop_with_error;; bgp_fsm_change_status Idle;; bgp_timer_set;; mret false
              else
                bgp_packet_delete;;
                if BGP_WRITE_PACKET_MAX <=? count + 1 then mret true else write_loop calls updates (count + 1)
      end
  end.

(** bgp_write; [more] is whether bgp_write_proceed finds routes to send. *)
Definition bgp_write (sockerr : option Z) (calls : list wcall) (updates : list stream) (more : bool) : ST peer unit :=
  BGP_WRITE_OFF;;
  p ← st_get;
  if p_status p =? Connect then bgp_connect_check sockerr
  else
    broke ← write_loop calls updates 0;
    if (broke : bool) then
      p ← st_get;
      if negb (bool_decide (p_obuf p = [])) || more then BGP_WRITE_ON (p_fd p) else mret tt
    else mret tt.

End machine.
