(* ===== verification/BgpSession.v ===== *)
(** BGP connections: the peers of an instance, the reception of messages
    (bgpd/bgp_packet.c), connections from outside (bgp_accept of bgpd/bgp_network.c) and the
    lookups of peers in bgpd/bgpd.c.

    The peers live in a heap; [w_list] is the list of the instance in its order.  The events
    of the peers are kept with each of them.  The address of a peer is its octets.  What read
    returns is an argument; so are the functions for messages other than OPEN, KEEPALIVE and
    NOTIFICATION and for the optional parameters of OPEN. *)

From S2P Require Import Prelude Prefix Stream BgpAttr BgpFsm.

(** * Constants *)

Definition BGP_MSG_ROUTE_REFRESH_NEW : Z := 5.
Definition BGP_MSG_CAPABILITY : Z := 6.
Definition BGP_MSG_ROUTE_REFRESH_OLD : Z := 128.
Definition BGP_MSG_OPEN_MIN_SIZE : Z := BGP_HEADER_SIZE + 10.
Definition BGP_MSG_UPDATE_MIN_SIZE : Z := BGP_HEADER_SIZE + 4.
Definition BGP_MSG_NOTIFY_MIN_SIZE : Z := BGP_HEADER_SIZE + 2.
Definition BGP_MSG_KEEPALIVE_MIN_SIZE : Z := BGP_HEADER_SIZE.
Definition BGP_MSG_ROUTE_REFRESH_MIN_SIZE : Z := BGP_HEADER_SIZE + 4.
Definition BGP_MSG_CAPABILITY_MIN_SIZE : Z := BGP_HEADER_SIZE + 3.
Definition BGP_NOTIFY_HEADER_ERR : Z := 1.
Definition BGP_NOTIFY_OPEN_ERR : Z := 2.
Definition BGP_NOTIFY_HEADER_NOT_SYNC : Z := 1.
Definition BGP_NOTIFY_HEADER_BAD_MESLEN : Z := 2.
Definition BGP_NOTIFY_HEADER_BAD_MESTYPE : Z := 3.
Definition BGP_NOTIFY_OPEN_UNSUP_VERSION : Z := 1.
Definition BGP_NOTIFY_OPEN_BAD_PEER_AS : Z := 2.
Definition BGP_NOTIFY_OPEN_BAD_BGP_IDENT : Z := 3.
Definition BGP_NOTIFY_OPEN_UNSUP_PARAM : Z := 4.
Definition BGP_NOTIFY_OPEN_UNACEP_HOLDTIME : Z := 6.
Definition BGP_NOTIFY_OPEN_UNSUP_CAPBL : Z := 7.
Definition BGP_NOTIFY_CEASE_CONNECT_REJECT : Z := 5.
Definition BGP_NOTIFY_CEASE_CONNECT_COLLISION : Z := 7.
Definition PEER_DOWN_NOTIFY_RECEIVED : Z := 13.
Definition PEER_DOWN_CLOSE_SESSION : Z := 15.
Definition PEER_DOWN_NSF_CLOSE_SESSION : Z := 22.

(** * The instance *)

Record world := World { w_peers : gmap positive peer; w_list : list positive }.

Definition on_peer {X} (id : positive) (m : ST peer X) : ST world X := λ w,
  p ← of_option UseAfterFree (w_peers w !! id);
  r ← m p;
  Ok (r.1, World (<[id := r.2]> (w_peers w)) (w_list w)).

Definition get_peer (id : positive) : ST world peer := on_peer id st_get.

Definition w_remove (id : positive) : ST world unit := λ w,
  Ok (tt, World (delete id (w_peers w)) (filter (λ i, i ≠ id) (w_list w))).

(** A peer that its own function has deleted leaves the instance. *)
Definition sweep (id : positive) : ST world unit :=
  p ← get_peer id;
  if bool_decide (ADelete ∈ p_acts p) then w_remove id else mret tt.

(** What the messages that are not modelled ask for. *)
Inductive rx := RxNone | RxUpdate | RxStop | RxNotify (code sub_code : Z) (data : list Z).

(** What the optional parameters of OPEN lead to: an error, or the capabilities. *)
Inductive opt_result := OptRefused (code sub_code : Z) (data : list Z) | OptOk (capability : bool) (n : nego).

(** The functions for the messages that are not part of the session, which may fault.  One of
    them, bgp_update_receive, is in [BgpAttr]. *)
Class Receiver := {
  receive_other : Z → Z → peer → res rx;
  bgp_open_option_parse : Z → peer → res opt_result;
}.

(** What read returns: EAGAIN, another error, or octets, none at the end of the connection. *)
Inductive rcall := RAgain | RError | RData (bs : list Z).

(** * Flags of a peer *)

Definition PEER_FLAG_DYNAMIC_CAPABILITY : Z := 2^6.
Definition PEER_FLAG_DISABLE_CONNECTED_CHECK : Z := 2^7.
Definition PEER_DOWN_CAPABILITY_CHANGE : Z := 19.
Definition PEER_DOWN_MULTIHOP_CHANGE : Z := 20.

Definition PEER_FLAG_DONT_CAPABILITY : Z := 2^3.
Definition PEER_FLAG_STRICT_CAP_MATCH : Z := 2^5.
Definition BGP_ERR_INVALID_FLAG : Z := -2.
Definition BGP_ERR_PEER_FLAG_CONFLICT : Z := -19.

Inductive peer_change_type := peer_change_none | peer_change_reset | peer_change_reset_in | peer_change_reset_out.

#[export] Instance peer_change_type_eq_dec : EqDecision peer_change_type.
Proof. solve_decision. Defined.

Definition peer_flag_action_list : list (Z * peer_change_type) := [
  (PEER_FLAG_CONNECT_MODE_PASSIVE, peer_change_reset);
  (PEER_FLAG_CONNECT_MODE_ACTIVE, peer_change_reset);
  (PEER_FLAG_SHUTDOWN, peer_change_reset);
  (PEER_FLAG_DONT_CAPABILITY, peer_change_none);
  (PEER_FLAG_OVERRIDE_CAPABILITY, peer_change_none);
  (PEER_FLAG_STRICT_CAP_MATCH, peer_change_none);
  (PEER_FLAG_DYNAMIC_CAPABILITY, peer_change_reset);
  (PEER_FLAG_DISABLE_CONNECTED_CHECK, peer_change_reset)].

(** Whether the flag is found, and what to do; not_for_member is for groups. *)
Definition peer_flag_action_set (actions : list (Z * peer_change_type)) (flag : Z) : bool * peer_change_type :=
  let '(found, reset_in, reset_out) := foldl (λ '(f, i, o) '(fl, ty),
    if negb (Z.land fl flag =? 0) then
      (true, i || bool_decide (ty = peer_change_reset_in) || bool_decide (ty = peer_change_reset),
       o || bool_decide (ty = peer_change_reset_out) || bool_decide (ty = peer_change_reset))
    else (f, i, o)) (false, false, false) actions in
  (found,
   if reset_in && reset_out then peer_change_reset
   else if reset_in then peer_change_reset_in
   else if reset_out then peer_change_reset_out
   else peer_change_none).

Section session.
Context `{Speaker} `{Receiver} (e : env).

Definition notify_with (id : positive) (code sub_code : Z) (data : list Z) : ST world unit :=
  on_peer id (bgp_notify_send_with_data (e_writes e) code sub_code data).

(** * Looking for peers *)

Fixpoint find_peer (f : peer → bool) (ids : list positive) (w : world) : res (option positive) :=
  match ids with
  | [] => Ok None
  | id :: ids =>
      p ← of_option UseAfterFree (w_peers w !! id);
      if f p then Ok (Some id) else find_peer f ids w
  end.

Definition configured (su : list Z) (p : peer) : bool :=
  bool_decide (c_su (p_conf p) = su) && negb (has_sflag PEER_STATUS_ACCEPT_PEER p).

Definition peer_lookup (su : list Z) (w : world) : res (option positive) := find_peer (configured su) (w_list w) w.

(** The peer, and whether one with the AS number was seen on the way. *)
Definition peer_lookup_with_open (su : list Z) (remote_as : Z) (remote_id : list Z) (w : world) : res (option positive * bool) :=
  let same p := configured su p && (c_as (p_conf p) =? remote_as) in
  first ← find_peer (λ p, same p && bool_decide (n_remote_id (p_nego p) = remote_id)) (w_list w) w;
  match first with
  | Some id => Ok (Some id, false)
  | None =>
      second ← find_peer (λ p, same p && bool_decide (n_remote_id (p_nego p) = [0; 0; 0; 0])) (w_list w) w;
      as_seen ← find_peer same (w_list w) w;
      Ok (second, bool_decide (is_Some as_seen))
  end.

(** ** Collisions *)

Definition collides (su : list Z) (p : peer) : bool :=
  ((p_status p =? OpenConfirm) || (p_status p =? OpenSent)) && bool_decide (c_su (p_conf p) = su).

Definition bgp_collision_detect (new : positive) (remote_id : list Z) : ST world Z :=
  n ← get_peer new;
  w ← st_get;
  other ← st_lift (find_peer (collides (c_su (p_conf n))) (filter (λ i, i ≠ new) (w_list w)) w);
  match other with
  | None => mret 0
  | Some id =>
      p ← get_peer id;
      if ntohl (c_local_id (p_conf p)) <? ntohl remote_id then
        (if 0 <=? p_fd p then notify_with id BGP_NOTIFY_CEASE BGP_NOTIFY_CEASE_CONNECT_COLLISION [] else mret tt);;
        mret 1
      else
        (if 0 <=? p_fd n then notify_with id BGP_NOTIFY_CEASE BGP_NOTIFY_CEASE_CONNECT_COLLISION [] else mret tt);;
        mret (-1)
  end.

(** * Messages *)

Definition on_ibuf {X} (m : ST stream X) : ST peer X := λ p,
  s ← of_option NullDeref (p_ibuf p);
  r ← m s;
  Ok (r.1, with_ibuf (Some r.2) p).

(** [memcpy (d, stream_pnt (peer->ibuf), n)] *)
Definition peek (n : Z) : ST stream (list Z) := λ s,
  bs ← get_bytes (s_data s) (s_getp s) n;
  Ok (bs, s).

Definition set_remote_id (id : list Z) (n : nego) : nego :=
  Nego id (n_cap n) (n_afc_nego n) (n_afc_adv n) (n_afc_recv n) (n_af_cap n) (n_af_sflags n).

(** afc_nego of the unicast and multicast families as configured. *)
Definition override_capability (p : peer) (n : nego) : nego :=
  Nego (n_remote_id n) (n_cap n)
    (λ a s, if in_af 3 a s then c_afc (p_conf p) a s else n_afc_nego n a s)
    (n_afc_adv n) (n_afc_recv n) (n_af_cap n) (n_af_sflags n).

(** The hold time of the configuration. *)
Definition send_holdtime (p : peer) : Z :=
  let c := p_conf p in u16 (if CHECK_FLAG (c_config c) PEER_CONFIG_TIMER then c_holdtime c else c_default_holdtime c).

(** bgp_open_receive from the check of the router identifier on. *)
Definition open_check (version remote_as holdtime : Z) (as_data remote_id : list Z) : ST peer Z :=
  let refuse sub_code data := bgp_notify_send_with_data (e_writes e) BGP_NOTIFY_OPEN_ERR sub_code data;; mret (-1) in
  p ← st_get;
  if bool_decide (remote_id = [0; 0; 0; 0]) || (0xe0000000 <=? ntohl remote_id) || (ntohl (c_local_id (p_conf p)) =? ntohl remote_id)
  then refuse BGP_NOTIFY_OPEN_BAD_BGP_IDENT remote_id
  else
    modify (λ p, with_nego (set_remote_id remote_id (p_nego p)) p);;
    if negb (version =? BGP_VERSION_4) then refuse BGP_NOTIFY_OPEN_UNSUP_VERSION [4]
    else if negb (remote_as =? c_as (p_conf p)) then refuse BGP_NOTIFY_OPEN_BAD_PEER_AS as_data
    else if (holdtime <? 3) && negb (holdtime =? 0) then refuse BGP_NOTIFY_OPEN_UNACEP_HOLDTIME []
    else
      modify (λ p, let h := if holdtime <? send_holdtime p then holdtime else send_holdtime p in
        with_v_keepalive (h / 3) (with_v_holdtime h p));;
      optlen ← on_ibuf stream_getc;
      capability ← (if negb (optlen =? 0) then
          p ← st_get;
          options ← st_lift (bgp_open_option_parse optlen p);
          match options with
          | OptRefused code sub_code data =>
              bgp_notify_send_with_data (e_writes e) code sub_code data;; mret None
          | OptOk capability n =>
              modify (with_nego n);;
              on_ibuf (λ s, Ok (tt, stream_forward optlen s));;
              mret (Some capability)
          end
        else mret (Some false));
      match capability with
      | None => mret (-1)
      | Some capability =>
          p ← st_get;
          (if negb capability || has_flag PEER_FLAG_OVERRIDE_CAPABILITY p
           then modify (λ p, with_nego (override_capability p (p_nego p)) p) else mret tt);;
          BGP_EVENT_ADD Receive_OPEN_message;;
          modify (with_packet_size 0);;
          modify (λ p, with_ibuf (stream_reset <$> p_ibuf p) p);;
          mret 0
      end.

(** The accepted connection of [id] goes to the configured peer [real]; [None] when it is
    refused. *)
Definition open_transfer (id real : positive) (ret : Z) : ST world (option positive) :=
  r ← get_peer real;
  if has_flag PEER_FLAG_CONNECT_MODE_ACTIVE r then
    notify_with id BGP_NOTIFY_CEASE BGP_NOTIFY_CEASE_CONNECT_REJECT [];; mret None
  else
    let waits := (p_status r =? Established) && has_sflag PEER_STATUS_NSF_MODE r in
    if negb waits && (ret =? 0) && negb (p_status r =? Active) && negb (p_status r =? OpenSent) && negb (p_status r =? OpenConfirm) then
      notify_with id BGP_NOTIFY_CEASE BGP_NOTIFY_CEASE_CONNECT_REJECT [];; mret None
    else
      (if waits then on_peer real (modify (with_last_reset PEER_DOWN_NSF_CLOSE_SESSION);; set_sflag PEER_STATUS_NSF_WAIT) else mret tt);;
      on_peer real bgp_stop;;
      p ← get_peer id;
      on_peer real (modify (with_fd (p_fd p)));;
      on_peer id (modify (with_fd (-1)));;
      on_peer real (modify (λ r, with_packet_size (p_packet_size p) (with_ibuf (p_ibuf p) r)));;
      on_peer id (modify (with_ibuf None));;
      on_peer real (bgp_fsm_change_status (p_status p));;
      on_peer id bgp_stop;;
      on_peer real bgp_open_send;;
      r ← get_peer real;
      if p_fd r <? 0 then mret None
      else on_peer real (BGP_READ_ON (p_fd r));; mret (Some real).

Definition bgp_open_receive (id : positive) : ST world Z :=
  version ← on_peer id (on_ibuf stream_getc);
  as_data ← on_peer id (on_ibuf (peek 2));
  remote_as ← on_peer id (on_ibuf stream_getw);
  holdtime ← on_peer id (on_ibuf stream_getw);
  remote_id ← on_peer id (on_ibuf stream_get_ipv4);
  p ← get_peer id;
  let accepted := has_sflag PEER_STATUS_ACCEPT_PEER p in
  w ← st_get;
  '(real, as_seen) ← st_lift (if accepted then peer_lookup_with_open (c_su (p_conf p)) remote_as remote_id w else Ok (Some id, false));
  match real with
  | None =>
      (if (as_seen : bool) then notify_with id BGP_NOTIFY_OPEN_ERR BGP_NOTIFY_OPEN_BAD_BGP_IDENT remote_id
       else notify_with id BGP_NOTIFY_OPEN_ERR BGP_NOTIFY_OPEN_BAD_PEER_AS as_data);;
      mret (-1)
  | Some real =>
      ret ← bgp_collision_detect id remote_id;
      if ret <? 0 then mret ret
      else
        target ← (if accepted then open_transfer id real ret else mret (Some id));
        match target with
        | None => mret (-1)
        | Some target => on_peer target (open_check version remote_as holdtime as_data remote_id)
        end
  end.

(** The text of the diagnostic data is left out. *)
Definition bgp_notify_receive (size : Z) : ST peer unit :=
  code ← on_ibuf stream_getc;
  subcode ← on_ibuf stream_getc;
  on_ibuf (peek (s32 (size - 2)));;
  p ← st_get;
  (if p_status p =? Established then modify (with_last_reset PEER_DOWN_NOTIFY_RECEIVED) else mret tt);;
  (if (code =? BGP_NOTIFY_OPEN_ERR) && ((subcode =? BGP_NOTIFY_OPEN_UNSUP_PARAM) || (subcode =? BGP_NOTIFY_OPEN_UNSUP_CAPBL))
   then unset_sflag PEER_STATUS_CAPABILITY_OPEN else mret tt);;
  BGP_EVENT_ADD Receive_NOTIFICATION_message.

Definition bgp_keepalive_receive : ST peer unit := BGP_EVENT_ADD Receive_KEEPALIVE_message.

(** UPDATE, ROUTE-REFRESH and CAPABILITY messages. *)
Definition other_receive (type size : Z) : ST peer unit :=
  p ← st_get;
  answer ← st_lift (receive_other type size p);
  match answer with
  | RxNone => mret tt
  | RxUpdate => BGP_EVENT_ADD Receive_UPDATE_message
  | RxStop => BGP_EVENT_ADD BGP_Stop
  | RxNotify code sub_code data => bgp_notify_send_with_data (e_writes e) code sub_code data
  end.

(** * Reading *)

(** A session that was up has ended. *)
Definition closed_session : ST peer unit :=
  p ← st_get;
  if p_status p =? Established then
    if has_sflag PEER_STATUS_NSF_MODE p
    then modify (with_last_reset PEER_DOWN_NSF_CLOSE_SESSION);; set_sflag PEER_STATUS_NSF_WAIT
    else modify (with_last_reset PEER_DOWN_CLOSE_SESSION)
  else mret tt.

Definition bgp_read_packet (call : rcall) : ST peer Z :=
  p ← st_get;
  s ← st_lift (of_option NullDeref (p_ibuf p));
  let readsize := s32 (p_packet_size p - s_putp s) in
  if readsize =? 0 then mret 0
  else
    nbytes ← on_ibuf (stream_read_unblock (match call with RData bs => Some bs | _ => None end) readsize);
    if nbytes <? 0 then
      match call with
      | RAgain => mret (-1)
      | _ => closed_session;; BGP_EVENT_ADD TCP_fatal_error;; mret (-1)
      end
    else if nbytes =? 0 then closed_session;; BGP_EVENT_ADD TCP_connection_closed;; mret (-1)
    else
      p ← st_get;
      s ← st_lift (of_option NullDeref (p_ibuf p));
      if negb (s_putp s =? p_packet_size p) then mret (-1) else mret 0.

Definition bgp_marker_all_one (length : Z) (s : stream) : res bool :=
  bs ← get_bytes (s_data s) 0 length;
  Ok (forallb (λ b, b =? 0xff) bs).

Definition known_type (type : Z) : bool :=
  (type =? BGP_MSG_OPEN) || (type =? BGP_MSG_UPDATE) || (type =? BGP_MSG_NOTIFY) || (type =? BGP_MSG_KEEPALIVE)
  || (type =? BGP_MSG_ROUTE_REFRESH_NEW) || (type =? BGP_MSG_ROUTE_REFRESH_OLD) || (type =? BGP_MSG_CAPABILITY).

Definition bad_length (type size : Z) : bool :=
  (size <? BGP_HEADER_SIZE) || (BGP_MAX_PACKET_SIZE <? size)
  || ((type =? BGP_MSG_OPEN) && (size <? BGP_MSG_OPEN_MIN_SIZE))
  || ((type =? BGP_MSG_UPDATE) && (size <? BGP_MSG_UPDATE_MIN_SIZE))
  || ((type =? BGP_MSG_NOTIFY) && (size <? BGP_MSG_NOTIFY_MIN_SIZE))
  || ((type =? BGP_MSG_KEEPALIVE) && negb (size =? BGP_MSG_KEEPALIVE_MIN_SIZE))
  || ((type =? BGP_MSG_ROUTE_REFRESH_NEW) && (size <? BGP_MSG_ROUTE_REFRESH_MIN_SIZE))
  || ((type =? BGP_MSG_ROUTE_REFRESH_OLD) && (size <? BGP_MSG_ROUTE_REFRESH_MIN_SIZE))
  || ((type =? BGP_MSG_CAPABILITY) && (size <? BGP_MSG_CAPABILITY_MIN_SIZE)).

(** The header; [false] when there is nothing more to do. *)
Definition read_header (call : rcall) : ST peer bool :=
  ret ← bgp_read_packet call;
  if ret <? 0 then mret false
  else
    on_ibuf (λ s, Ok (tt, stream_forward BGP_MARKER_SIZE s));;
    length_data ← on_ibuf (peek 2);
    size ← on_ibuf stream_getw;
    type ← on_ibuf stream_getc;
    all_one ← on_ibuf (λ s, b ← bgp_marker_all_one BGP_MARKER_SIZE s; Ok (b, s));
    let refuse sub_code data := bgp_notify_send_with_data (e_writes e) BGP_NOTIFY_HEADER_ERR sub_code data;; mret false in
    if (type =? BGP_MSG_OPEN) && negb all_one then refuse BGP_NOTIFY_HEADER_NOT_SYNC []
    else if negb (known_type type) then refuse BGP_NOTIFY_HEADER_BAD_MESTYPE [type]
    else if bad_length type size then refuse BGP_NOTIFY_HEADER_BAD_MESLEN length_data
    else modify (with_packet_size size);; mret true.

(** The message up to the call of its function: its type and size. *)
Definition read_message (header body : rcall) : ST peer (option (Z * Z)) :=
  modify (λ p, if p_packet_size p =? 0 then with_packet_size BGP_HEADER_SIZE p else p);;
  p ← st_get;
  s ← st_lift (of_option NullDeref (p_ibuf p));
  go ← (if s_putp s <? BGP_HEADER_SIZE then read_header header else mret true);
  if negb go then mret None
  else
    ret ← bgp_read_packet body;
    if ret <? 0 then mret None
    else
      type ← on_ibuf (λ s, t ← stream_getc_from (BGP_MARKER_SIZE + 2) s; Ok (t, s));
      p ← st_get;
      mret (Some (type, u16 (p_packet_size p - BGP_HEADER_SIZE))).

Definition w_peer_delete (id : positive) : ST world unit := on_peer id (peer_delete e);; sweep id.

(** bgp_read; [sockerr] is for a connection that is being made. *)
Definition bgp_read (id : positive) (sockerr : option Z) (header body : rcall) : ST world Z :=
  on_peer id BGP_READ_OFF;;
  p ← get_peer id;
  let finish := p ← get_peer id; (if has_sflag PEER_STATUS_ACCEPT_PEER p then w_peer_delete id else mret tt);; mret 0 in
  if p_status p =? Connect then on_peer id (bgp_connect_check sockerr);; finish
  else if p_fd p <? 0 then mret (-1)
  else
    on_peer id (BGP_READ_ON (p_fd p));;
    m ← on_peer id (read_message header body);
    match m with
    | None => finish
    | Some (type, size) =>
        (if type =? BGP_MSG_OPEN then bgp_open_receive id;; mret tt
         else if type =? BGP_MSG_NOTIFY then on_peer id (bgp_notify_receive size)
         else if type =? BGP_MSG_KEEPALIVE then on_peer id bgp_keepalive_receive
         else on_peer id (other_receive type size));;
        on_peer id (modify (with_packet_size 0);; modify (λ p, with_ibuf (stream_reset <$> p_ibuf p) p));;
        finish
    end.

(** * Connections from outside *)

Definition peer_new (c : conf) (rands : list Z) : peer :=
  Peer c Idle Idle (-1) None None (λ _, None) 0 PEER_STATUS_CAPABILITY_OPEN 0 0 BGP_ACTIVE_DELAY_TIMER 0
    (λ _ _, 0) (λ _ _, 0) nego_none (Some (stream_new BGP_MAX_PACKET_SIZE)) [] 0 0 0 0 [] rands [].

(** bgp_accept: [sock] is the result of accept, [su] its address, [rands] is for the new peer
    and [pos] its place in the list, which is sorted by address. *)
Definition bgp_accept (sock : Z) (su : list Z) (rands : list Z) (pos : nat) : ST world Z :=
  if sock <? 0 then mret (-1)
  else
    w ← st_get;
    found ← st_lift (peer_lookup su w);
    match found with
    | None => mret (-1)
    | Some id1 =>
        p1 ← get_peer id1;
        if p_status p1 =? Idle then mret (-1)
        else
          let id := fresh (dom (w_peers w)) in
          let c := Conf su 0 0 0 (c_local_id (p_conf p1)) (λ _ _, 0) 0 0 0
                     (c_default_holdtime (p_conf p1)) (c_default_keepalive (p_conf p1)) (c_stalepath_time (p_conf p1)) 0 BGP_DEFAULT_CONNECT_RETRY 0 in
          let p := with_events [TCP_connection_open] (with_status Active (with_fd sock
                     (with_sflags (SET_FLAG PEER_STATUS_CAPABILITY_OPEN PEER_STATUS_ACCEPT_PEER) (peer_new c rands)))) in
          st_put (World (<[id := p]> (w_peers w)) (take pos (w_list w) ++ id :: drop pos (w_list w)));;
          mret 0
    end.

(** * Commands *)

(** peer_create, but for the list of the instance. *)
Definition peer_create (c : conf) (rands : list Z) : ST unit peer := λ _,
  let p := peer_new c rands in
  let p := with_v_keepalive (c_default_keepalive c) (with_v_holdtime (c_default_holdtime c) p) in
  let p := with_sflags (SET_FLAG (p_sflags p) PEER_STATUS_CREATE_INIT) p in
  r ← (if peer_active p then bgp_timer_set p else Ok (tt, p));
  Ok (r.2, tt).

(** The timer of the limit on prefixes is left out, here and below. *)
Definition peer_clear : ST peer unit :=
  p ← st_get;
  if has_flag PEER_FLAG_SHUTDOWN p then mret tt
  else
    modify (with_v_active_delay BGP_ACTIVE_DELAY_TIMER);;
    if has_sflag PEER_STATUS_PREFIX_OVERFLOW p then
      unset_sflag PEER_STATUS_PREFIX_OVERFLOW;; BGP_EVENT_ADD BGP_Start
    else
      (if has_sflag PEER_STATUS_NSF_WAIT p then peer_nsf_stop else mret tt);;
      p ← st_get;
      if p_status p =? Established then bgp_notify_send (e_writes e) BGP_NOTIFY_CEASE BGP_NOTIFY_CEASE_ADMIN_RESET
      else BGP_EVENT_ADD BGP_Stop.

Definition peer_flag_modify_action (flag : Z) : ST peer unit :=
  p ← st_get;
  if flag =? PEER_FLAG_SHUTDOWN then
    if has_flag flag p then
      (if has_sflag PEER_STATUS_NSF_WAIT p then peer_nsf_stop else mret tt);;
      unset_sflag PEER_STATUS_PREFIX_OVERFLOW;;
      p ← st_get;
      if p_status p =? Established then bgp_notify_send (e_writes e) BGP_NOTIFY_CEASE BGP_NOTIFY_CEASE_ADMIN_SHUTDOWN
      else BGP_EVENT_ADD BGP_Stop
    else BGP_EVENT_ADD BGP_Start
  else if p_status p =? Established then
    (if flag =? PEER_FLAG_DYNAMIC_CAPABILITY then modify (with_last_reset PEER_DOWN_CAPABILITY_CHANGE)
     else if flag =? PEER_FLAG_DISABLE_CONNECTED_CHECK then modify (with_last_reset PEER_DOWN_MULTIHOP_CHANGE)
     else mret tt);;
    if negb (flag =? PEER_FLAG_CONNECT_MODE_ACTIVE) && negb (flag =? PEER_FLAG_CONNECT_MODE_PASSIVE)
    then bgp_notify_send (e_writes e) BGP_NOTIFY_CEASE BGP_NOTIFY_CEASE_CONFIG_CHANGE
    else mret tt
  else BGP_EVENT_ADD BGP_Stop.

(** peer_flag_modify for a peer that is not a group and not in one. *)
Definition peer_flag_modify (flag : Z) (set : bool) : ST peer Z :=
  let '(found, type) := peer_flag_action_set peer_flag_action_list flag in
  p ← st_get;
  let flags := Z.lor (p_flags p) flag in
  if negb found then mret BGP_ERR_INVALID_FLAG
  else if set && CHECK_FLAG flags PEER_FLAG_STRICT_CAP_MATCH && CHECK_FLAG flags PEER_FLAG_OVERRIDE_CAPABILITY then mret BGP_ERR_PEER_FLAG_CONFLICT
  else if set && (Z.land (p_flags p) flag =? flag) then mret 0
  else if negb set && negb (has_flag flag p) then mret 0
  else
    modify (λ p, with_flags (if set then SET_FLAG (p_flags p) flag else UNSET_FLAG (p_flags p) flag) p);;
    (if bool_decide (type = peer_change_reset) then peer_flag_modify_action flag else mret tt);;
    mret 0.

End session.
