(* ===== verification/BgpFsmFacts.v ===== *)
(** The BGP session: what the functions of the machine do to a peer. *)

From S2P Require Import Prelude Prefix Stream StreamCalc BgpAttr BgpFsm.

(** * Timers *)

Lemma set_timer_eq t v f : set_timer t v f t = v.
Proof. unfold set_timer. by rewrite decide_True. Qed.
Lemma set_timer_ne t t' v f : t' ≠ t → set_timer t v f t' = f t'.
Proof. intros. unfold set_timer. by rewrite decide_False. Qed.

Ltac timers := repeat first [rewrite set_timer_eq | rewrite set_timer_ne by done].

Definition not_routeadv (t : tm) : Prop := match t with TRouteadv _ _ => False | _ => True end.

Lemma routeadv_run p : ∃ T, routeadv_off p = Ok (tt, with_timers T p) ∧ ∀ t, not_routeadv t → T t = p_timers p t.
Proof.
  eexists. split; [reflexivity|]. intros t Ht. cbn [p_timers with_timers]. by rewrite !set_timer_ne by (by intros ->).
Qed.

(** The timers fit the state: the session cannot get stuck. *)
Definition may_start (p : peer) : bool :=
  negb (has_flag PEER_FLAG_SHUTDOWN p || has_sflag PEER_STATUS_PREFIX_OVERFLOW p || negb (peer_active p)).

Record fits (p : peer) : Prop := Fits {
  ft_start : is_Some (p_timers p TStart) ↔ p_status p = Idle ∧ may_start p = true;
  ft_connect : is_Some (p_timers p TConnect) ↔
    p_status p = Connect ∨ p_status p = Active ∧ has_flag PEER_FLAG_CONNECT_MODE_PASSIVE p = false;
  ft_hold : is_Some (p_timers p THoldtime) ↔ OpenSent ≤ p_status p ≤ Established ∧ v_holdtime p ≠ 0;
  ft_keepalive : is_Some (p_timers p TKeepalive) ↔ OpenConfirm ≤ p_status p ≤ Established ∧ v_holdtime p ≠ 0;
}.

(** Everything but the timers and the random numbers. *)
Definition retimed (p p' : peer) : Prop := ∃ T R, p' = with_timers T (with_rands R p).

Lemma with_timers_id p : with_timers (p_timers p) (with_rands (p_rands p) p) = p.
Proof. by destruct p. Qed.

(** Steps on a peer that is only known up to its timers. *)
Lemma off_step {X} t T p (m : ST peer X) : (timer_off t;; m) (with_timers T p) = m (with_timers (set_timer t None T) p).
Proof. done. Qed.
Lemma on_step {X} t v T p (m : ST peer X) :
  (timer_on t v;; m) (with_timers T p) = m (with_timers (set_timer t (Some (default v (T t))) T) p).
Proof. done. Qed.
Lemma off_last t T p : timer_off t (with_timers T p) = Ok (tt, with_timers (set_timer t None T) p).
Proof. done. Qed.
Lemma on_last t v T p : timer_on t v (with_timers T p) = Ok (tt, with_timers (set_timer t (Some (default v (T t))) T) p).
Proof. done. Qed.
Lemma routeadv_last T p :
  ∃ T', routeadv_off (with_timers T p) = Ok (tt, with_timers T' p) ∧ ∀ t, not_routeadv t → T' t = T t.
Proof. destruct (routeadv_run (with_timers T p)) as (T' & Hr & HT). exists T'. split; [done|]. intros t Ht. by rewrite HT. Qed.
Lemma assoc_step {X Y Z} (m : ST peer X) (k : X → ST peer Y) (k' : Y → ST peer Z) p :
  ((m ≫= k) ≫= k') p = (m ≫= λ x, k x ≫= k') p.
Proof. unfold mbind, ST_bind. by destruct (m p) as [[x p1]|]. Qed.

Ltac tstep := repeat first [rewrite assoc_step | rewrite off_step | rewrite on_step].

(** What the states ask of the timers. *)
Lemma fits_with (p : peer) T R T' :
  (∀ t, not_routeadv t → T' t = T t) →
  (is_Some (T TStart) ↔ p_status p = Idle ∧ may_start p = true) →
  (is_Some (T TConnect) ↔ p_status p = Connect ∨ p_status p = Active ∧ has_flag PEER_FLAG_CONNECT_MODE_PASSIVE p = false) →
  (is_Some (T THoldtime) ↔ OpenSent ≤ p_status p ≤ Established ∧ v_holdtime p ≠ 0) →
  (is_Some (T TKeepalive) ↔ OpenConfirm ≤ p_status p ≤ Established ∧ v_holdtime p ≠ 0) →
  fits (with_timers T' (with_rands R p)).
Proof. intros HT H1 H2 H3 H4. by split; cbn [p_timers with_timers]; rewrite HT. Qed.

Lemma on_iff (v : Z) (P : Prop) : P → is_Some (Some v) ↔ P.
Proof. intros HP. split; [done|by eexists]. Qed.
Lemma off_iff (P : Prop) : ¬ P → is_Some (@None Z) ↔ P.
Proof. intros HP. split; [by intros []|done]. Qed.

Ltac states := unfold Idle, Connect, Active, OpenSent, OpenConfirm, Established in *.
Ltac fit := timers; first [apply on_iff | apply off_iff]; states; first [lia | naive_solver lia | intuition congruence].

Lemma timer_set_with T R p : 1 ≤ p_status p ≤ 6 →
  ∃ T' R', bgp_timer_set (with_timers T (with_rands R p)) = Ok (tt, with_timers T' (with_rands R' p)) ∧ fits (with_timers T' (with_rands R' p)).
Proof.
  intros Hs. unfold bgp_timer_set. set (q := with_timers T (with_rands R p)). rewrite (st_bind_Ok _ _ _ q q) by done.
  change (p_status q) with (p_status p). change (p_ostatus q) with (p_ostatus p). change (p_conf q) with (p_conf p).
  change (v_holdtime q) with (v_holdtime p). change (v_active_delay q) with (v_active_delay p).
  change (has_flag PEER_FLAG_SHUTDOWN q || has_sflag PEER_STATUS_PREFIX_OVERFLOW q || negb (peer_active q))
    with (has_flag PEER_FLAG_SHUTDOWN p || has_sflag PEER_STATUS_PREFIX_OVERFLOW p || negb (peer_active p)).
  change (has_sflag PEER_STATUS_CREATE_INIT q) with (has_sflag PEER_STATUS_CREATE_INIT p).
  change (has_sflag PEER_STATUS_NSF_WAIT q) with (has_sflag PEER_STATUS_NSF_WAIT p).
  change (has_flag PEER_FLAG_CONNECT_MODE_PASSIVE q) with (has_flag PEER_FLAG_CONNECT_MODE_PASSIVE p).
  assert (Hend : ∀ T1 R1, (∀ T2, (∀ t, not_routeadv t → T2 t = T1 t) → fits (with_timers T2 (with_rands R1 p))) →
    ∃ T' R', routeadv_off (with_timers T1 (with_rands R1 p)) = Ok (tt, with_timers T' (with_rands R' p)) ∧ fits (with_timers T' (with_rands R' p))).
  { intros T1 R1 Hf. destruct (routeadv_last T1 (with_rands R1 p)) as (T2 & Hr & HT). exists T2, R1. split; [done|by apply Hf]. }
  assert (Hms : may_start p = negb (has_flag PEER_FLAG_SHUTDOWN p || has_sflag PEER_STATUS_PREFIX_OVERFLOW p || negb (peer_active p))) by done.
  unfold q. clear q.
  destruct (Z.eqb_spec (p_status p) Idle) as [E|E].
  { destruct (has_flag PEER_FLAG_SHUTDOWN p || _ || _) eqn:Em; [|destruct (has_sflag PEER_STATUS_CREATE_INIT p)]; cbn [negb] in Hms;
      tstep; apply Hend; intros T2 HT; (eapply fits_with; [exact HT|fit..]). }
  destruct (Z.eqb_spec (p_status p) Connect) as [E1|E1].
  { tstep; apply Hend; intros T2 HT; (eapply fits_with; [exact HT|fit..]). }
  destruct (Z.eqb_spec (p_status p) Active) as [E2|E2].
  { rewrite off_step. destruct (has_flag PEER_FLAG_CONNECT_MODE_PASSIVE p) eqn:Ep.
    { tstep; apply Hend; intros T2 HT; (eapply fits_with; [exact HT|fit..]). }
    destruct ((p_ostatus p =? Idle) && _).
    - rewrite assoc_step. assert (∃ r R1, next_rand (with_timers (set_timer TStart None T) (with_rands R p)) = Ok (r, with_timers (set_timer TStart None T) (with_rands R1 p)))
        as (r & R1 & Hr) by (unfold next_rand; destruct R as [|r R]; [by exists 0, []|by exists r, R]).
      rewrite (st_bind_Ok _ _ _ _ _ Hr). tstep; apply Hend; intros T2 HT; (eapply fits_with; [exact HT|fit..]).
    - tstep; apply Hend; intros T2 HT; (eapply fits_with; [exact HT|fit..]). }
  destruct (Z.eqb_spec (p_status p) OpenSent) as [E3|E3].
  { do 2 rewrite off_step. destruct (Z.eqb_spec (v_holdtime p) 0) as [Eh|Eh]; cbn [negb];
      tstep; apply Hend; intros T2 HT; (eapply fits_with; [exact HT|fit..]). }
  assert (Hhk : ∀ X (m : ST peer X) T1, (hold_keepalive;; m) (with_timers T1 (with_rands R p)) =
    m (with_timers (if v_holdtime p =? 0 then set_timer TKeepalive None (set_timer THoldtime None T1)
                    else let T2 := set_timer THoldtime (Some (default (v_holdtime p) (T1 THoldtime))) T1 in set_timer TKeepalive (Some (default (v_keepalive p) (T2 TKeepalive))) T2) (with_rands R p))).
  { intros X m T1. unfold hold_keepalive. rewrite assoc_step. rewrite (st_bind_Ok _ _ _ (with_timers T1 (with_rands R p)) (with_timers T1 (with_rands R p))) by done.
    change (v_holdtime (with_timers T1 (with_rands R p))) with (v_holdtime p). destruct (v_holdtime p =? 0); tstep; done. }
  destruct (Z.eqb_spec (p_status p) OpenConfirm) as [E4|E4].
  { do 2 rewrite off_step. rewrite Hhk. cbn zeta. destruct (Z.eqb_spec (v_holdtime p) 0) as [Eh|Eh];
      tstep; apply Hend; intros T2 HT; (eapply fits_with; [exact HT|fit..]). }
  destruct (Z.eqb_spec (p_status p) Established) as [E5|E5]; [|states; lia].
  do 2 rewrite off_step. rewrite Hhk. cbn zeta. destruct (Z.eqb_spec (v_holdtime p) 0) as [Eh|Eh];
    (rewrite off_last; eexists _, R; split; [reflexivity|]; (eapply fits_with; [done|fit..])).
Qed.

Lemma timer_set_run p : 1 ≤ p_status p ≤ 6 → ∃ p', bgp_timer_set p = Ok (tt, p') ∧ retimed p p' ∧ fits p'.
Proof.
  intros Hs. destruct (timer_set_with (p_timers p) (p_rands p) p Hs) as (T & R & Hr & Hf). rewrite with_timers_id in Hr.
  eexists. split; [exact Hr|]. split; [by exists T, R|done].
Qed.

(** * The invariant of a session *)

(** Whether the routes of the peer are in the tables, from what was asked of the rest of bgpd. *)
Definition routes_up (l : list act) : bool :=
  foldl (λ b a, match a with AAnnounce => true | AClearRoutes => false | _ => b end) false l.

Lemma routes_up_snoc l a :
  routes_up (l ++ [a]) = match a with AAnnounce => true | AClearRoutes => false | _ => routes_up l end.
Proof. unfold routes_up. by rewrite foldl_app. Qed.

Definition pkt_ok (s : stream) : Prop := stream_ok s ∧ BGP_HEADER_SIZE ≤ s_endp s ∧ s_getp s ≤ s_endp s ∧ s_size s ≤ BGP_MAX_PACKET_SIZE.

(** What has been read: nothing, a part of a header, or a header and a part of the message. *)
Definition in_ok (good : list Z → Z → Prop) (ibuf : option stream) (packet_size : Z) : Prop :=
  match ibuf with
  | None => False
  | Some s => stream_ok s ∧ s_size s = BGP_MAX_PACKET_SIZE ∧ s_endp s = s_putp s ∧
      (s_getp s = 0 ∧ s_putp s = 0 ∧ packet_size = 0 ∨
       s_getp s = 0 ∧ s_putp s < BGP_HEADER_SIZE ∧ packet_size = BGP_HEADER_SIZE ∨
       s_getp s = BGP_HEADER_SIZE ∧ BGP_HEADER_SIZE ≤ s_putp s ≤ packet_size ∧ packet_size ≤ BGP_MAX_PACKET_SIZE ∧ good (s_data s) packet_size)
  end.

(** A buffer in the middle of a message. *)
Definition loose (ibuf : option stream) (_ : Z) : Prop := ∃ s, ibuf = Some s ∧ stream_ok s ∧ s_size s = BGP_MAX_PACKET_SIZE.

(** [inp] is what holds of the input buffer and the size of the message, [up] whether the routes
    of the peer are in the tables. *)
Definition conf_ok (c : conf) : Prop := bytes_ok (c_local_id c) ∧ length (c_local_id c) = 4%nat.

Record coreb (inp : option stream → Z → Prop) (up : bool) (p : peer) : Prop := Core {
  co_status : 1 ≤ p_status p ≤ 6;
  co_count : p_established p = u32 (p_dropped p + Z.b2z (p_status p =? Established));
  co_routes : routes_up (p_acts p) = up;
  co_init : has_sflag PEER_STATUS_CREATE_INIT p = true → p_status p = Idle ∧ p_read p = None ∧ p_write p = None;
  co_accept : has_sflag PEER_STATUS_ACCEPT_PEER p = false;
  co_delay : BGP_ACTIVE_DELAY_TIMER ≤ v_active_delay p ≤ BGP_DEFAULT_CONNECT_RETRY;
  co_obuf : Forall pkt_ok (p_obuf p);
  co_ibuf : inp (p_ibuf p) (p_packet_size p);
  co_conf : conf_ok (p_conf p);
}.

Definition core (inp : option stream → Z → Prop) (p : peer) : Prop := coreb inp (p_status p =? Established) p.

(** A peer as its fields, and the evaluation of steps on it. *)
Ltac open_peer p := destruct p as [co st ost fd rd wr ti fl sf vh vk va vg nsf sy ne ib ob ps es dr lr ev ra ac].

Ltac peer_run :=
  cbv [stop_session stop_established close_fd reset_times routeadv_off timer_on timer_off BGP_READ_OFF BGP_WRITE_OFF BGP_READ_ON BGP_WRITE_ON
    BGP_EVENT_ADD BGP_EVENT_DELETE act_add modify all_af bgp_fsm_change_status set_sflag unset_sflag has_sflag has_flag
    mbind ST_bind res_bind foldr mret ST_ret st_get fst snd
    with_status with_ostatus with_fd with_read with_write with_timers with_flags with_sflags with_v_holdtime with_v_keepalive with_v_active_delay
    with_v_gr_restart with_nsf with_synctime with_nego with_ibuf with_obuf with_packet_size with_established with_dropped with_last_reset
    with_events with_rands with_acts
    p_conf p_status p_ostatus p_fd p_read p_write p_timers p_flags p_sflags v_holdtime v_keepalive v_active_delay v_gr_restart p_nsf p_synctime
    p_nego p_ibuf p_obuf p_packet_size p_established p_dropped p_last_reset p_events p_rands p_acts].

Lemma core_retimed inp p p' : retimed p p' → core inp p → core inp p'.
Proof. intros (T & R & ->) []. by split. Qed.

Lemma core_mono (inp inp' : option stream → Z → Prop) p : (inp (p_ibuf p) (p_packet_size p) → inp' (p_ibuf p) (p_packet_size p)) → core inp p → core inp' p.
Proof. intros H []. split; auto. Qed.

Lemma fit_retimed p p' : retimed p p' → p_status p' = p_status p ∧ p_events p' = p_events p ∧ p_sflags p' = p_sflags p ∧ p_fd p' = p_fd p ∧ p_flags p' = p_flags p.
Proof. by intros (T & R & ->). Qed.

(** ** Stopping *)

Definition closed_fd (p : peer) : peer :=
  if 0 <=? p_fd p then with_fd (-1) (with_acts (p_acts p ++ [AClose (p_fd p)]) p) else p.

Lemma close_run p : close_fd p = Ok (tt, closed_fd p).
Proof. unfold close_fd, closed_fd. rewrite (st_bind_Ok _ _ _ p p) by done. by destruct (0 <=? p_fd p). Qed.

Lemma reset_ok s : stream_ok s → stream_ok (stream_reset s).
Proof. intros []. split; cbn; done || lia. Qed.

Lemma reset_in_ok good ibuf ps : loose ibuf ps → in_ok good (stream_reset <$> ibuf) 0.
Proof. intros (s & -> & Hs & Hz). cbn. split; [by apply reset_ok|]. split; [done|]. split; [done|]. by left. Qed.

Lemma in_ok_loose good ibuf ps : in_ok good ibuf ps → loose ibuf ps.
Proof. destruct ibuf as [s|]; [|done]. intros (Hs & Hz & _). by exists s. Qed.

(** What every stop does. *)
Record ended (p p' : peer) : Prop := Ended {
  en_status : p_status p' = p_status p;
  en_established : p_established p' = p_established p;
  en_dropped : p_dropped p' = p_dropped p;
  en_routes : routes_up (p_acts p') = routes_up (p_acts p);
  en_sflags : p_sflags p' = p_sflags p;
  en_flags : p_flags p' = p_flags p;
  en_delay : v_active_delay p' = v_active_delay p;
  en_obuf : p_obuf p' = [];
  en_ibuf : p_ibuf p' = stream_reset <$> p_ibuf p;
  en_size : p_packet_size p' = 0;
  en_events : p_events p' = [];
  en_fd : p_fd p' < 0;
  en_read : p_read p' = None;
  en_conf : p_conf p' = p_conf p;
}.

Lemma stop_session_run p : ∃ p', stop_session p = Ok (tt, p') ∧ ended p p'.
Proof.
  open_peer p. peer_run. destruct (Z.leb_spec 0 fd), (CHECK_FLAG (c_config co) PEER_CONFIG_TIMER);
    (eexists; split; [reflexivity|]; split; cbn; rewrite ?routes_up_snoc; done).
Qed.

(** A session that was up goes down. *)
Record dropped (p p' : peer) : Prop := Dropped {
  dr_status : p_status p' = Idle;
  dr_established : p_established p' = p_established p;
  dr_dropped : p_dropped p' = u32 (p_dropped p + 1);
  dr_routes : routes_up (p_acts p') = false;
  dr_init : has_sflag PEER_STATUS_CREATE_INIT p' = has_sflag PEER_STATUS_CREATE_INIT p;
  dr_accept : has_sflag PEER_STATUS_ACCEPT_PEER p' = has_sflag PEER_STATUS_ACCEPT_PEER p;
  dr_delay : v_active_delay p' = v_active_delay p;
  dr_ibuf : p_ibuf p' = p_ibuf p;
  dr_conf : p_conf p' = p_conf p;
}.

Lemma stop_established_run p : ∃ p', stop_established p = Ok (tt, p') ∧ dropped p p'.
Proof.
  open_peer p. peer_run. destruct (CHECK_FLAG sf PEER_STATUS_NSF_WAIT);
    (eexists; split; [reflexivity|]; split; cbn; rewrite ?routes_up_snoc; first [done | by apply CHECK_FLAG_UNSET]).
Qed.

Lemma stop_mid good p :
  core loose p → has_sflag PEER_STATUS_CREATE_INIT p = false →
  ∃ p', bgp_stop p = Ok (0, p') ∧ core (in_ok good) p' ∧ p_status p' ≠ Established ∧ (p_status p = Established → p_status p' = Idle) ∧
    has_sflag PEER_STATUS_CREATE_INIT p' = false ∧ p_events p' = [] ∧ p_fd p' < 0.
Proof.
  intros [Hs Hn Hr _ Hac Hd Ho Hb Hcf] Ei. unfold bgp_stop. rewrite (st_bind_Ok _ _ _ p p) by done. rewrite Ei.
  assert (∃ p1, (if p_status p =? Established then stop_established else mret tt) p = Ok (tt, p1) ∧
    1 ≤ p_status p1 ≤ 6 ∧ p_status p1 ≠ Established ∧ (p_status p = Established → p_status p1 = Idle) ∧ has_sflag PEER_STATUS_ACCEPT_PEER p1 = false ∧ p_established p1 = u32 (p_dropped p1) ∧ routes_up (p_acts p1) = false ∧
    has_sflag PEER_STATUS_CREATE_INIT p1 = false ∧ v_active_delay p1 = v_active_delay p ∧ p_ibuf p1 = p_ibuf p ∧ p_conf p1 = p_conf p) as (p1 & H1 & Hs1 & Hne & Hest & Hac1 & Hn1 & Hr1 & Hi1 & Hd1 & Hb1 & Hcf1).
  { destruct (Z.eqb_spec (p_status p) Established) as [E|E].
    - destruct (stop_established_run p) as (p1 & H1 & [E1 E2 E3 E4 E5 E5' E6 E7 E8]). exists p1. rewrite H1, E1, E2, E3, E4, E5, E5', E6, E7, E8. states.
      split_and!; try done. rewrite Hn. cbn [Z.b2z]. symmetry. apply u32_id, u32_range.
    - cbn [Z.b2z] in Hn. rewrite Z.add_0_r in Hn. exists p. do 6 (split; [done|]). split; [exact Hr|]. split; [exact Ei|]. done. }
  rewrite (st_bind_Ok _ _ _ _ _ H1). destruct (stop_session_run p1) as (p2 & H2 & [E1 E2 E3 E4 E5 E6 E7 E8 E9 E10 E11 E12 E13 E14]).
  rewrite (st_bind_Ok _ _ _ _ _ H2). exists p2. split; [done|]. apply Z.eqb_neq in Hne as Hne'.
  assert (has_sflag PEER_STATUS_CREATE_INIT p2 = false) as Hi2 by (unfold has_sflag in *; by rewrite E5).
  split; [|split; [by rewrite E1|split; [by rewrite E1|done]]].
  split; rewrite ?E1, ?E2, ?E3, ?E4, ?E7, ?E8, ?E9, ?E10, ?E14, ?Hcf1, ?Hne', ?Hr1, ?Hd1, ?Hb1; try done.
  - cbn [Z.b2z]. by rewrite Z.add_0_r.
  - by rewrite Hi2.
  - unfold has_sflag in *. by rewrite E5.
  - by eapply reset_in_ok.
Qed.

(** The flag of sessions that have not been started yet is never set. *)
Definition same_init (p p' : peer) : Prop := has_sflag PEER_STATUS_CREATE_INIT p' = has_sflag PEER_STATUS_CREATE_INIT p.

Lemma stop_run good p :
  core (in_ok good) p →
  ∃ p', bgp_stop p = Ok (0, p') ∧ core (in_ok good) p' ∧ p_status p' ≠ Established ∧ same_init p p' ∧ (p_status p = Established → p_status p' = Idle) ∧
    (has_sflag PEER_STATUS_CREATE_INIT p = true ∧ p' = p ∨ p_events p' = [] ∧ p_fd p' < 0).
Proof.
  intros Hc. destruct (has_sflag PEER_STATUS_CREATE_INIT p) eqn:Ei.
  - exists p. unfold bgp_stop. rewrite (st_bind_Ok _ _ _ p p) by done. rewrite Ei. split; [done|]. split; [done|].
    destruct (co_init _ _ _ Hc Ei) as [-> _]. split; [done|]. split; [done|]. split; [done|]. by left.
  - destruct (stop_mid good p) as (p' & H & Hc' & Hs & Hest & Hi & He & Hf); [|done|].
    { eapply core_mono; [apply in_ok_loose|done]. }
    exists p'. split; [done|]. split; [done|]. split; [done|]. split; [by unfold same_init; rewrite Hi, Ei|]. split; [done|by right].
Qed.
