(* ===== verification/BgpFsmRun.v ===== *)
(** The BGP session: packets, and every function of the machine keeps the invariant. *)

From S2P Require Import Prelude Prefix Stream StreamCalc BgpAttr BgpFsm BgpFsmFacts.

(** * Packets *)

(** The octets of a message. *)
Definition message (type : Z) (bs : list Z) : list Z :=
  replicate 16 255 ++ be16 (BGP_HEADER_SIZE + Z.of_nat (length bs)) ++ [type] ++ bs.

Lemma writes_foldr {X} (l : list X) (f : X → ST stream Z) (g : X → list Z) :
  (∀ x, x ∈ l → writes (f x) (g x)) → writes (foldr (λ x m, f x;; m) (mret tt) l) (concat (g <$> l)).
Proof.
  induction l as [|x l IH]; intros Hf; [apply writes_ret|]. cbn. apply writes_bind; [apply Hf; set_solver|].
  intros _. apply IH. intros y Hy. apply Hf. set_solver.
Qed.

Lemma writes_marker type : is_u8 type → writes (bgp_packet_set_marker type) (replicate 16 255 ++ be16 0 ++ [type]).
Proof.
  intros Ht. unfold bgp_packet_set_marker. apply writes_bind.
  { eapply writes_eq; [|apply (writes_foldr _ _ (λ _, [255])); intros; by apply writes_putc]. done. }
  intros _. apply writes_bind; [apply writes_putw|]. intros _. eapply writes_eq; [apply app_nil_r|]. apply writes_bind; [by apply writes_putc|].
  intros _ s Hs Hp _. exists (stream_get_putp s). rewrite append_nil by done. done.
Qed.

Lemma set_putp_ok n s : stream_ok s → 0 ≤ n ≤ s_size s → stream_ok (stream_set_putp n s).
Proof. intros [] Hn. split; cbn; try done. rewrite u64_id; [done|]. unfold is_u64. lia. Qed.

Lemma make_packet_run type (body : ST stream unit) bs :
  is_u8 type → writes body bs → bytes_ok bs → Z.of_nat (length bs) ≤ 4077 →
  ∃ s, make_packet type body = Ok s ∧ pkt_ok s ∧ s_getp s = 0 ∧ s_endp s = BGP_HEADER_SIZE + Z.of_nat (length bs) ∧
    ∃ rest, s_data s = message type bs ++ rest.
Proof.
  intros Ht Hb Hbs Hlen. unfold make_packet.
  assert (∃ s0, stream_new BGP_MAX_PACKET_SIZE = s0 ∧ stream_ok s0 ∧ s_putp s0 = 0 ∧ s_getp s0 = 0 ∧ s_endp s0 = 0 ∧ s_size s0 = 4096)
    as (s0 & -> & Hs0 & Hp0 & Hg0 & He0 & Hz0).
  { eexists. split; [reflexivity|]. split; [apply stream_new_ok; unfold BGP_MAX_PACKET_SIZE; lia|]. by repeat split. }
  assert (Hr0 : room s0 = 4096) by (unfold room; lia).
  set (hd := replicate 16 255 ++ be16 0 ++ [type]). assert (Hhd : length hd = 19%nat) by done.
  destruct (writes_marker type Ht s0 Hs0) as (a1 & H1 & Hok1); [lia|rewrite Hr0; fold hd; rewrite Hhd; lia|]. fold hd in H1, Hok1.
  rewrite (st_bind_Ok _ _ _ _ _ H1).
  destruct (Hb (append hd s0) Hok1) as (a2 & H2 & Hok2); [cbn [append s_putp s_endp]; lia|unfold room; cbn [append s_size s_putp]; rewrite Hhd; lia|].
  rewrite (st_bind_Ok _ _ _ _ _ H2). rewrite append_append in Hok2 by (try done; rewrite Hr0, Hhd; lia). rewrite append_append by (try done; rewrite Hr0, Hhd; lia).
  set (n := BGP_HEADER_SIZE + Z.of_nat (length bs)). assert (Hn : 19 ≤ n ≤ 4096) by (unfold n, BGP_HEADER_SIZE; lia).
  remember (append (hd ++ bs) s0) as s1 eqn:E1.
  assert (Hp1 : s_putp s1 = n) by (rewrite E1; cbn [append s_putp]; rewrite length_app, Hhd; unfold n, BGP_HEADER_SIZE; lia).
  assert (He1 : s_endp s1 = n) by (rewrite E1; cbn [append s_endp]; rewrite length_app, Hhd; unfold n, BGP_HEADER_SIZE; lia).
  assert (Hg1 : s_getp s1 = 0) by (by rewrite E1). assert (Hz1 : s_size s1 = 4096) by (by rewrite E1).
  assert (Hd1 : s_data s1 = hd ++ bs ++ drop (19 + length bs) (s_data s0)).
  { rewrite E1. cbn [append s_data]. unfold splice. rewrite Hp0. change (Z.to_nat 0) with 0%nat. rewrite take_0. cbn [app]. by rewrite <- app_assoc, length_app, Hhd. }
  clear E1. unfold bgp_packet_set_size. rewrite (st_bind_Ok _ _ _ s1 s1) by done. unfold stream_get_putp. rewrite Hp1.
  remember (stream_set_putp BGP_MARKER_SIZE s1) as s2 eqn:E2. rewrite (st_bind_Ok _ _ _ tt s2) by done.
  assert (stream_ok s2) as Hok3 by (rewrite E2; apply set_putp_ok; [done|unfold BGP_MARKER_SIZE; lia]).
  assert (Hp2 : s_putp s2 = 16) by (by rewrite E2). assert (He2 : s_endp s2 = n) by (by rewrite E2). assert (Hg2 : s_getp s2 = 0) by (by rewrite E2).
  assert (Hz2 : s_size s2 = 4096) by (by rewrite E2). assert (Hd2 : s_data s2 = s_data s1) by (by rewrite E2). clear E2.
  assert (H3 : stream_putw n s2 = Ok (2, append (be16 n) s2)).
  { rewrite stream_putw_spec by done. unfold room. rewrite Hz2, Hp2. done. }
  rewrite (st_bind_Ok _ _ _ _ _ H3). remember (append (be16 n) s2) as s3 eqn:E3. rewrite (st_bind_Ok _ _ _ s3 s3) by done.
  rewrite (st_bind_Ok _ _ _ tt (stream_set_putp n s3)) by done. eexists. split; [reflexivity|].
  assert (stream_ok s3) as Hok4 by (rewrite E3; apply append_ok; [done|auto with zebra|unfold room; rewrite Hz2, Hp2; cbn; lia]).
  assert (He3 : s_endp s3 = n) by (rewrite E3; cbn [append s_endp]; rewrite He2, Hp2; cbn; lia).
  assert (Hg3 : s_getp s3 = 0) by (by rewrite E3). assert (Hz3 : s_size s3 = 4096) by (by rewrite E3).
  assert (stream_ok (stream_set_putp n s3)) as Hok5 by (apply set_putp_ok; [done|lia]).
  cbn [snd stream_set_putp set_putp s_getp s_endp s_data].
  split; [split; [done|]; cbn [stream_set_putp set_putp s_endp s_getp s_size]; unfold BGP_HEADER_SIZE, BGP_MAX_PACKET_SIZE; lia|].
  split; [done|]. split; [done|]. exists (drop (19 + length bs) (s_data s0)). rewrite E3. cbn [append s_data]. unfold splice. rewrite Hp2, Hd2, Hd1. done.
Qed.

Lemma packet_type s type bs : pkt_ok s → (∃ rest, s_data s = message type bs ++ rest) → stream_getc_from (BGP_MARKER_SIZE + 2) s = Ok type.
Proof. intros _ (rest & Hd). unfold stream_getc_from. rewrite Hd. done. Qed.

Lemma packet_octets s : pkt_ok s → get_bytes (s_data s) 0 (stream_get_endp s) = Ok (take (Z.to_nat (s_endp s)) (s_data s)).
Proof. intros ([Hz _ _ He _ _] & _). unfold stream_get_endp. rewrite get_bytes_in by lia. done. Qed.

(** * Steps that leave the state of the session alone *)

Record quiet (p p' : peer) : Prop := Quiet {
  qu_conf : p_conf p' = p_conf p;
  qu_status : p_status p' = p_status p;
  qu_established : p_established p' = p_established p;
  qu_dropped : p_dropped p' = p_dropped p;
  qu_routes : routes_up (p_acts p') = routes_up (p_acts p);
  qu_init : has_sflag PEER_STATUS_CREATE_INIT p' = has_sflag PEER_STATUS_CREATE_INIT p;
  qu_accept : has_sflag PEER_STATUS_ACCEPT_PEER p' = has_sflag PEER_STATUS_ACCEPT_PEER p;
  qu_delay : v_active_delay p' = v_active_delay p;
  qu_ibuf : p_ibuf p' = p_ibuf p;
  qu_size : p_packet_size p' = p_packet_size p;
  qu_events : p_events p' = p_events p;
  qu_fd : p_fd p' = p_fd p;
}.

Lemma quiet_refl p : quiet p p.
Proof. done. Qed.
Lemma quiet_trans p1 p2 p3 : quiet p1 p2 → quiet p2 p3 → quiet p1 p3.
Proof. intros [] []. split; congruence. Qed.
Lemma quiet_retimed p p' : retimed p p' → quiet p p'.
Proof. by intros (T & R & ->). Qed.

(** The session is not waiting to be started. *)
Abbreviation started p := (has_sflag PEER_STATUS_CREATE_INIT p = false).

Lemma core_quiet inp up p p' : coreb inp up p → quiet p p' → started p → Forall pkt_ok (p_obuf p') → coreb inp up p'.
Proof. intros [] [] Hst Ho. split; congruence. Qed.

(** [m] keeps the invariant, whatever the input buffer is, and the state of the session. *)
Definition calm (m : ST peer unit) : Prop :=
  ∀ inp up p, coreb inp up p → started p → ∃ p', m p = Ok (tt, p') ∧ coreb inp up p' ∧ quiet p p'.

Lemma calm_started m : calm m → ∀ inp up p, coreb inp up p → started p → ∃ p', m p = Ok (tt, p') ∧ coreb inp up p' ∧ quiet p p' ∧ started p'.
Proof. intros Hm inp up p Hc Hs. destruct (Hm inp up p Hc Hs) as (p' & H & Hc' & Hq). exists p'. split_and!; try done. by rewrite (qu_init _ _ Hq). Qed.

Lemma core_calm m inp p : calm m → core inp p → started p → ∃ p', m p = Ok (tt, p') ∧ core inp p' ∧ quiet p p'.
Proof.
  intros Hm Hc Hs. destruct (Hm inp _ p Hc Hs) as (p' & H & Hc' & Hq). exists p'. split; [done|]. split; [|done]. unfold core. by rewrite (qu_status _ _ Hq).
Qed.

Lemma calm_bind m1 m2 : calm m1 → calm m2 → calm (m1;; m2).
Proof.
  intros H1 H2 inp up p Hc Hs. destruct (calm_started m1 H1 inp up p Hc Hs) as (p1 & E1 & Hc1 & Hq1 & Hs1).
  destruct (H2 inp up p1 Hc1 Hs1) as (p2 & E2 & Hc2 & Hq2). exists p2. rewrite (st_bind_Ok _ _ _ _ _ E1). split; [done|]. split; [done|]. by eapply quiet_trans.
Qed.

Lemma calm_ret : calm (mret tt).
Proof. intros inp up p Hc _. by exists p. Qed.

Lemma calm_get (f : peer → ST peer unit) : (∀ p, calm (f p)) → calm (p ← st_get; f p).
Proof. intros Hf inp up p Hc Hs. destruct (Hf p inp up p Hc Hs) as (p' & ?). exists p'. by rewrite (st_bind_Ok _ _ _ p p). Qed.

Lemma calm_if (b : bool) m1 m2 : calm m1 → calm m2 → calm (if b then m1 else m2).
Proof. by destruct b. Qed.

(** A change of the fields that do not matter here. *)
Lemma calm_modify f : (∀ p, quiet p (f p) ∧ p_obuf (f p) = p_obuf p) → calm (modify f).
Proof.
  intros Hf inp up p Hc Hs. destruct (Hf p) as [Hq Ho]. exists (f p). split; [done|]. split; [|done]. eapply core_quiet; [done..|]. rewrite Ho. apply Hc.
Qed.

Ltac calm_field := apply calm_modify; intros p; split; [split; try done|done].

Lemma calm_on t v : calm (timer_on t v).
Proof. calm_field. Qed.
Lemma calm_off t : calm (timer_off t).
Proof. calm_field. Qed.
Lemma calm_read_on fd : calm (BGP_READ_ON fd).
Proof. calm_field. Qed.
Lemma calm_read_off : calm BGP_READ_OFF.
Proof. calm_field. Qed.
Lemma calm_write_on fd : calm (BGP_WRITE_ON fd).
Proof. calm_field. Qed.
Lemma calm_write_off : calm BGP_WRITE_OFF.
Proof. calm_field. Qed.
Lemma calm_nego f : calm (modify (λ p, with_nego (f p) p)).
Proof. calm_field. Qed.
Lemma calm_nsf f : calm (modify (λ p, with_nsf (f p) p)).
Proof. calm_field. Qed.
Lemma calm_synctime f : calm (modify (λ p, with_synctime (f p) p)).
Proof. calm_field. Qed.
Lemma calm_last_reset v : calm (modify (with_last_reset v)).
Proof. calm_field. Qed.
Lemma calm_times f g : calm (modify (λ p, with_v_keepalive (f p) (with_v_holdtime (g p) p))).
Proof. calm_field. Qed.
Lemma other_flags f :
  Z.land f (PEER_STATUS_CREATE_INIT + PEER_STATUS_ACCEPT_PEER) = 0 → Z.land f PEER_STATUS_CREATE_INIT = 0 ∧ Z.land f PEER_STATUS_ACCEPT_PEER = 0.
Proof.
  intros Hf. rewrite <- (Z.land_0_l PEER_STATUS_CREATE_INIT) at 1. rewrite <- (Z.land_0_l PEER_STATUS_ACCEPT_PEER) at 2.
  rewrite <- Hf, <- !Z.land_assoc. done.
Qed.
Lemma calm_set_sflag f : Z.land f (PEER_STATUS_CREATE_INIT + PEER_STATUS_ACCEPT_PEER) = 0 → calm (set_sflag f).
Proof.
  intros [H1 H2]%other_flags.
  calm_field; unfold has_sflag; cbn; by apply CHECK_FLAG_SET.
Qed.
Lemma calm_unset_sflag f : Z.land f (PEER_STATUS_CREATE_INIT + PEER_STATUS_ACCEPT_PEER) = 0 → calm (unset_sflag f).
Proof.
  intros [H1 H2]%other_flags.
  calm_field; unfold has_sflag; cbn; by apply CHECK_FLAG_UNSET.
Qed.
Lemma calm_act a : match a with AAnnounce | AClearRoutes => False | _ => True end → calm (act_add a).
Proof. intros Ha. calm_field. cbn. rewrite routes_up_snoc. by destruct a. Qed.

Lemma calm_send s : pkt_ok s → calm (send_packet s).
Proof.
  intros Hs. apply calm_bind; [|apply calm_get; intros; apply calm_write_on]. intros inp up p Hc Hst.
  eexists. split; [reflexivity|]. split; [|by split]. eapply core_quiet; [done|by split|done|]. cbn. apply Forall_app. split; [apply Hc|by apply Forall_singleton].
Qed.

Lemma calm_foldr {X} (l : list X) (f : X → ST peer unit) : (∀ x, calm (f x)) → calm (foldr (λ x m, f x;; m) (mret tt) l).
Proof. intros Hf. induction l as [|x l IH]; [apply calm_ret|]. by apply calm_bind. Qed.

Create HintDb calm.
#[export] Hint Resolve calm_bind calm_ret calm_get calm_if calm_on calm_off calm_read_on calm_read_off calm_write_on calm_write_off calm_nego calm_nsf
  calm_synctime calm_last_reset calm_times calm_set_sflag calm_unset_sflag calm_act calm_send calm_foldr : calm.

(** [m] as a whole, after [st_lift] of something that returns. *)
Lemma calm_lift {X} (r : res X) (x : X) f : r = Ok x → calm (f x) → calm (x ← st_lift r; f x).
Proof. intros -> Hf inp up p Hc Hs. destruct (Hf inp up p Hc Hs) as (p' & ?). exists p'. by rewrite (st_bind_Ok _ _ _ x p). Qed.

Lemma calm_keepalive_send : calm bgp_keepalive_send.
Proof.
  destruct (make_packet_run BGP_MSG_KEEPALIVE (mret tt) []) as (s & Hs & Hok & _); [done|apply writes_ret|by constructor|done|].
  eapply calm_lift; [exact Hs|auto with calm].
Qed.
#[export] Hint Resolve calm_keepalive_send : calm.

(** * Stopping *)

(** A session that is down changes its state. *)
Lemma core_change inp p n :
  core inp p → p_status p ≠ Established → 1 ≤ n ≤ 5 → (n ≠ Idle → started p) → core inp (with_status n p).
Proof.
  intros [Hs Hn Hr Hi Ha Hd Ho Hb Hcf] Hne Hlt Hst. apply Z.eqb_neq in Hne as Hne'. rewrite Hne' in Hn, Hr.
  assert ((n =? Established) = false) as Hn' by (apply Z.eqb_neq; states; lia).
  split; cbn [p_status p_established p_dropped p_acts v_active_delay p_obuf p_ibuf p_packet_size p_read p_write with_status]; rewrite ?Hn'; try done; [states; lia|].
  intros Hini. destruct (decide (n = Idle)) as [->|Hni]; [split; [done|]; by apply Hi|]. unfold has_sflag in *. cbn in Hini. rewrite Hst in Hini by done. done.
Qed.

Lemma core_ostatus inp p n : core inp p → core inp (with_ostatus n p).
Proof. by intros []. Qed.

Lemma change_status_run inp p n :
  core inp p → p_status p ≠ Established → 1 ≤ n ≤ 5 → (n ≠ Idle → started p) →
  ∃ p', bgp_fsm_change_status n p = Ok (tt, p') ∧ core inp p' ∧ p_status p' = n ∧ same_init p p' ∧ p_events p' = p_events p ∧ p_fd p' = p_fd p.
Proof. intros Hc Hne Hn Hst. eexists. split; [reflexivity|]. split; [apply core_change; [by apply core_ostatus|done..]|done]. Qed.

Lemma core_obuf inp p l : core inp p → Forall pkt_ok l → core inp (with_obuf l p).
Proof. intros [Hs Hn Hr Hi Ha Hd Ho Hb Hcf] Hl. by split. Qed.

Lemma core_last_reset inp p v : core inp p → core inp (with_last_reset v p).
Proof. by intros []. Qed.

Lemma core_write_off inp p : core inp p → core inp (with_write None p).
Proof. intros [Hs Hn Hr Hi Ha Hd Ho Hb Hcf]. split; try done. intros Hini. by destruct (Hi Hini) as (? & ? & _). Qed.

(** A doubled delay is within its bounds. *)
Lemma core_delay inp p :
  core inp p →
  core inp (let d := u32 (v_active_delay p * 2) in with_v_active_delay (if BGP_DEFAULT_CONNECT_RETRY <? d then BGP_DEFAULT_CONNECT_RETRY else d) p).
Proof.
  intros [Hs Hn Hr Hi Ha Hd Ho Hb Hcf]. cbn zeta. split; try done. cbn. unfold BGP_ACTIVE_DELAY_TIMER, BGP_DEFAULT_CONNECT_RETRY in *.
  rewrite u32_id by (unfold is_u32; lia). case_bool; lia.
Qed.

Lemma stop_error_mid good p :
  core loose p → started p →
  ∃ p', bgp_stop_with_error p = Ok (0, p') ∧ core (in_ok good) p' ∧ p_status p' ≠ Established ∧ started p' ∧ p_events p' = [] ∧ p_fd p' < 0.
Proof.
  intros Hc Hst. apply core_delay in Hc. cbn zeta in Hc. unfold bgp_stop_with_error.
  set (q := with_v_active_delay _ p) in Hc. rewrite (st_bind_Ok _ _ _ tt q) by done.
  destruct (stop_mid good q Hc Hst) as (p' & H & Hc' & Hs & _ & Hi & He & Hfd). rewrite (st_bind_Ok _ _ _ _ _ H). by exists p'.
Qed.

(** The end of a session in one of the ways bgp_packet.c has for it. *)
Record down (good : list Z → Z → Prop) (p' : peer) : Prop := Down {
  dn_core : core (in_ok good) p';
  dn_status : p_status p' = Idle;
  dn_started : started p';
  dn_events : p_events p' = [];
  dn_fits : fits p';
  dn_fd : p_fd p' < 0;
}.

Lemma timer_set_down good p : core (in_ok good) p → p_status p = Idle → started p → p_events p = [] → p_fd p < 0 → ∃ p', bgp_timer_set p = Ok (tt, p') ∧ down good p'.
Proof.
  intros Hc Hs Hst He Hfd. destruct (timer_set_run p (co_status _ _ _ Hc)) as (p' & H & Hr & Hf). exists p'. split; [done|].
  destruct (fit_retimed _ _ Hr) as (E1 & E2 & E3 & E4 & _). split; [by eapply core_retimed|congruence| |congruence|done|lia]. unfold has_sflag in *. by rewrite E3.
Qed.

Lemma write_notify_run good writes s p obuf' :
  core loose p → started p → p_obuf p = s :: obuf' → stream_getc_from (BGP_MARKER_SIZE + 2) s = Ok BGP_MSG_NOTIFY →
  ∃ p', bgp_write_notify writes p = Ok (tt, p') ∧ down good p'.
Proof.
  intros Hc Hst Ho Ht. unfold bgp_write_notify. rewrite (st_bind_Ok _ _ _ p p) by done. rewrite Ho.
  pose proof (co_obuf _ _ _ Hc) as Hok. rewrite Ho in Hok. apply Forall_inv in Hok. pose proof Hok as (_ & He & _).
  rewrite (st_bind_Ok _ _ _ tt p) by (unfold stream_get_endp, c_assert; by rewrite (proj2 (Z.leb_le _ _))).
  rewrite (st_bind_Ok _ _ _ _ p (eq_trans (f_equal (λ r, st_lift r p) (packet_octets s Hok)) eq_refl)).
  destruct (writen writes _ _ <=? 0).
  - destruct (stop_mid good p Hc Hst) as (p1 & H1 & Hc1 & Hs1 & _ & Hi1 & He1 & Hfd1). rewrite (st_bind_Ok _ _ _ _ _ H1).
    rewrite (st_bind_Ok _ _ _ tt (with_status Idle p1)) by done. apply timer_set_down; [|done|done|done|done]. apply core_change; [done|done|states; lia|done].
  - set (a := AWrite _ _). destruct (core_calm _ _ _ (calm_act a I) Hc Hst) as (p1 & H1 & Hc1 & Hq1). rewrite (st_bind_Ok _ _ _ _ _ H1).
    assert (Hst1 : started p1) by (by rewrite (qu_init _ _ Hq1)).
    rewrite (st_bind_Ok _ _ _ BGP_MSG_NOTIFY p1) by (by rewrite Ht). rewrite (st_bind_Ok _ _ _ tt p1) by done.
    destruct (Z.eqb_spec (p_status p) Established) as [E|E].
    + destruct (stop_mid good p1 Hc1 Hst1) as (p2 & H2 & Hc2 & _ & Hs2 & Hi2 & He2 & Hfd2). rewrite assoc_step, (st_bind_Ok _ _ _ _ _ H2).
      rewrite (st_bind_Ok _ _ _ tt p2) by done. apply timer_set_down; [done| |done|done|done]. apply Hs2. by rewrite (qu_status _ _ Hq1).
    + destruct (stop_error_mid good p1 Hc1 Hst1) as (p2 & H2 & Hc2 & Hs2 & Hi2 & He2 & Hfd2). rewrite assoc_step, (st_bind_Ok _ _ _ _ _ H2).
      destruct (change_status_run _ p2 Idle Hc2 Hs2) as (p3 & H3 & Hc3 & Hs3 & Hi3 & He3 & Hfd3); [states; lia|done|]. rewrite (st_bind_Ok _ _ _ _ _ H3).
      apply timer_set_down; [done|done|by unfold same_init in Hi3; rewrite Hi3|congruence|lia].
Qed.

(** A NOTIFICATION message ends the session, wherever the input buffer stands. *)
Lemma notify_run good writes code sub_code data p :
  core loose p → started p → is_u8 code → is_u8 sub_code → bytes_ok data → Z.of_nat (length data) ≤ 4075 →
  ∃ p', bgp_notify_send_with_data writes code sub_code data p = Ok (tt, p') ∧ down good p'.
Proof.
  intros Hc Hst H1 H2 Hd Hl. unfold bgp_notify_send_with_data.
  destruct (make_packet_run BGP_MSG_NOTIFY (stream_putc code;; stream_putc sub_code;;
    (if decide (data = []) then mret tt else stream_write data (Z.of_nat (length data));; mret tt)) ([code] ++ [sub_code] ++ data)) as (s & Hs & Hok & _ & _ & rest & Hdat).
  { done. }
  { apply writes_bind; [by apply writes_putc|]. intros _. apply writes_bind; [by apply writes_putc|]. intros _.
    destruct (decide (data = [])) as [->|Hne]; [apply writes_ret|]. eapply writes_eq; [apply app_nil_r|]. apply writes_bind; [|intros; apply writes_ret].
    eapply writes_eq; [|apply writes_write; [done|done|lia]]. apply firstn_all. }
  { constructor; [done|]. constructor; done. }
  { rewrite !length_app. cbn. lia. }
  rewrite (st_bind_Ok _ _ _ s p) by (by rewrite Hs). clear Hs. rewrite (st_bind_Ok _ _ _ tt (with_obuf [] p)) by done.
  rewrite (st_bind_Ok _ _ _ tt (with_obuf [s] (with_obuf [] p))) by done. set (q := with_obuf [s] _).
  assert (Hq : core loose q) by (apply core_obuf; [by apply core_obuf|by apply Forall_singleton]).
  assert (∃ q1, last_reset_of sub_code q = Ok (tt, q1) ∧ core loose q1 ∧ started q1 ∧ p_obuf q1 = [s]) as (q1 & E1 & Hc1 & Hst1 & Ho1).
  { unfold last_reset_of. destruct (sub_code =? _); [by exists q|]. eexists. split; [reflexivity|]. split; [by apply core_last_reset|done]. }
  rewrite (st_bind_Ok _ _ _ _ _ E1). rewrite (st_bind_Ok _ _ _ tt (with_write None q1)) by done.
  apply (write_notify_run good writes s _ []); [by apply core_write_off|done|done|]. eapply packet_type; [done|]. by exists rest.
Qed.

(** * The functions of the machine *)

Lemma concat_singles (l : list Z) : concat ((λ o, [o]) <$> l) = l.
Proof. induction l as [|o l IH]; [done|cbn; by f_equal]. Qed.

(** What the rest of bgpd owes the machine. *)
Class SpeakerLaws `{Speaker} : Prop := {
  open_capability_ok : ∀ p, bytes_ok (open_capability p).1 ∧ (length (open_capability p).1 ≤ 2000)%nat;
  route_refresh_ok : ∀ afi safi orf_type p, pkt_ok (route_refresh afi safi orf_type p).1;
}.

Section functions.
Context `{SpeakerLaws} (e : env) (good : list Z → Z → Prop).

Lemma calm_open_send : calm bgp_open_send.
Proof.
  intros inp up p Hc Hst. unfold bgp_open_send. rewrite (st_bind_Ok _ _ _ p p) by done. destruct (co_conf _ _ _ Hc) as [Hl1 Hl2].
  destruct (open_capability_ok p) as [Hcap Hlen]. destruct (open_capability p) as [caps n]. cbn in Hcap, Hlen. cbn zeta.
  set (as_n := if negb _ then _ else _). set (hold := u16 _).
  destruct (make_packet_run BGP_MSG_OPEN (stream_putc BGP_VERSION_4;; stream_putw as_n;; stream_putw hold;; stream_put_in_addr (c_local_id (p_conf p));;
    foldr (λ o m, stream_putc o;; m) (mret tt) caps) ([BGP_VERSION_4] ++ be16 as_n ++ be16 hold ++ c_local_id (p_conf p) ++ concat ((λ o, [o]) <$> caps))) as (s & Hs & Hok & _).
  { done. }
  { apply writes_bind; [by apply writes_putc|]. intros _. apply writes_bind; [apply writes_putw|]. intros _. apply writes_bind; [apply writes_putw|]. intros _.
    apply writes_bind; [by apply writes_put_in_addr|]. intros _. apply writes_foldr. intros x Hx. apply writes_putc. unfold bytes_ok in Hcap. rewrite Forall_forall in Hcap. by apply Hcap. }
  { rewrite concat_singles. unfold bytes_ok. rewrite !Forall_app. split_and!; [constructor; [done|constructor]|apply be_bytes_ok16|apply be_bytes_ok16|done|done]. }
  { rewrite concat_singles, !length_app, Hl2. cbn. lia. }
  rewrite (st_bind_Ok _ _ _ s p) by (by rewrite Hs). clear Hs.
  assert (calm (modify (with_nego n);; send_packet s)) as Hm by (apply calm_bind; [apply calm_nego|by apply calm_send]). by apply Hm.
Qed.

Lemma calm_refresh afi safi orf_type : calm (bgp_route_refresh_send afi safi orf_type).
Proof.
  unfold bgp_route_refresh_send. apply calm_get. intros p. pose proof (route_refresh_ok afi safi orf_type p) as Hok.
  destruct (route_refresh afi safi orf_type p) as [s n]. cbn in Hok. apply calm_bind; [apply calm_nego|by apply calm_send].
Qed.
Hint Resolve calm_open_send calm_refresh : calm.

Lemma calm_establish_refresh afi safi : calm (establish_refresh afi safi).
Proof. unfold establish_refresh. auto 10 with calm. Qed.
Lemma calm_establish_wait afi safi : calm (establish_wait afi safi).
Proof. unfold establish_wait. auto 10 with calm. Qed.
Hint Resolve calm_establish_refresh calm_establish_wait : calm.

(** A program that returns a number. *)
Definition calmz (m : ST peer Z) : Prop :=
  ∀ inp up p, coreb inp up p → started p → ∃ z p', m p = Ok (z, p') ∧ coreb inp up p' ∧ quiet p p' ∧ started p'.

Lemma calmz_ret m z : calm m → calmz (m;; mret z).
Proof.
  intros Hm inp up p Hc Hs. destruct (calm_started m Hm inp up p Hc Hs) as (p' & H' & ?). exists z, p'. by rewrite (st_bind_Ok _ _ _ _ _ H').
Qed.

Lemma calmz_bind (m : ST peer Z) (f : Z → ST peer Z) : calmz m → (∀ z, calmz (f z)) → calmz (m ≫= f).
Proof.
  intros Hm Hf inp up p Hc Hs. destruct (Hm inp up p Hc Hs) as (z & p1 & H1 & Hc1 & Hq1 & Hs1).
  destruct (Hf z inp up p1 Hc1 Hs1) as (z' & p2 & H2 & Hc2 & Hq2 & Hs2). exists z', p2. rewrite (st_bind_Ok _ _ _ _ _ H1).
  split; [done|]. split; [done|]. split; [by eapply quiet_trans|done].
Qed.

Lemma calmz_get (f : peer → ST peer Z) : (∀ p, calmz (f p)) → calmz (p ← st_get; f p).
Proof. intros Hf inp up p Hc Hs. destruct (Hf p inp up p Hc Hs) as (z & p' & ?). exists z, p'. by rewrite (st_bind_Ok _ _ _ p p). Qed.

Lemma calmz_seq (m : ST peer unit) (m' : ST peer Z) : calm m → calmz m' → calmz (m;; m').
Proof.
  intros Hm Hm' inp up p Hc Hs. destruct (calm_started m Hm inp up p Hc Hs) as (p1 & H1 & Hc1 & Hq1 & Hs1).
  destruct (Hm' inp up p1 Hc1 Hs1) as (z & p2 & H2 & Hc2 & Hq2 & Hs2). exists z, p2. rewrite (st_bind_Ok _ _ _ _ _ H1).
  split; [done|]. split; [done|]. split; [by eapply quiet_trans|done].
Qed.

Lemma calmz_establish_nsf afi safi count : calmz (establish_nsf afi safi count).
Proof.
  unfold establish_nsf. apply calmz_get. intros p. cbn zeta. destruct (_ && _ && _).
  - apply calmz_seq; [auto with calm|]. apply calmz_ret. apply calm_nsf.
  - apply calmz_seq; [auto with calm|]. apply calmz_ret. apply calm_nsf.
Qed.

Lemma calmz_foldl l : ∀ m, calmz m → calmz (foldl (λ m (af : Z * Z), c ← m; establish_nsf af.1 af.2 c) m l).
Proof. induction l as [|af l IH]; intros m Hm; [done|]. cbn. apply IH. apply calmz_bind; [done|]. intros. apply calmz_establish_nsf. Qed.

Lemma calm_establish_middle : calm establish_middle.
Proof.
  unfold establish_middle. apply calm_bind; [by apply calm_unset_sflag|]. intros inp up p Hc Hs.
  destruct (calmz_foldl nsf_af (mret 0)) with (inp := inp) (up := up) (p := p) as (n & p1 & H1 & Hc1 & Hq1 & Hs1); [|done|done|].
  { intros inp' up' p' ? ?. by exists 0, p'. }
  rewrite (st_bind_Ok _ _ _ _ _ H1).
  assert (calm ((if negb (n =? 0) then set_sflag PEER_STATUS_NSF_MODE else unset_sflag PEER_STATUS_NSF_MODE;; timer_off TGrStale);;
    timer_off TGrRestart;; foldr (λ (af : Z * Z) m, establish_refresh af.1 af.2;; m) (mret tt) all_af;;
    p ← st_get; (if negb (v_keepalive p =? 0) then bgp_keepalive_send else mret tt);;
    foldr (λ (af : Z * Z) m, establish_wait af.1 af.2;; m) (mret tt) all_af)) as Hm.
  { apply calm_bind; [apply calm_if; [by apply calm_set_sflag|apply calm_bind; [by apply calm_unset_sflag|apply calm_off]]|].
    apply calm_bind; [apply calm_off|]. apply calm_bind; [apply calm_foldr; auto with calm|]. apply calm_get. intros q.
    apply calm_bind; [auto with calm|]. apply calm_foldr. auto with calm. }
  destruct (Hm inp up p1 Hc1 Hs1) as (p2 & H2 & Hc2 & Hq2). exists p2. split; [done|]. split; [done|]. by eapply quiet_trans.
Qed.

Lemma establish_run p :
  core (in_ok good) p → started p → p_status p ≠ Established →
  ∃ p', bgp_establish p = Ok (0, p') ∧ core (in_ok good) p' ∧ p_status p' = Established ∧ started p' ∧ p_events p' = p_events p.
Proof.
  intros Hc Hst Hne. unfold bgp_establish.
  destruct (core_calm (set_sflag PEER_STATUS_CAPABILITY_OPEN) (in_ok good) p) as (p1 & H1 & Hc1 & Hq1); [by apply calm_set_sflag|done|done|].
  rewrite (st_bind_Ok _ _ _ _ _ H1). assert (started p1) as Hst1 by (by rewrite (qu_init _ _ Hq1)).
  rewrite <- (qu_status _ _ Hq1) in Hne. rewrite <- (qu_events _ _ Hq1). clear H1 Hq1 Hc Hst p.
  do 3 (rewrite (st_bind_Ok _ _ _ tt _) by reflexivity).
  set (q := with_status Established _). assert (coreb (in_ok good) false q) as Hcq.
  { destruct Hc1 as [Hs Hn Hr Hi Ha Hd Ho Hb Hcf]. apply Z.eqb_neq in Hne. rewrite Hne in Hn, Hr. cbn [Z.b2z] in Hn. rewrite Z.add_0_r in Hn.
    split; try done.
    - change (u32 (p_established p1 + 1) = u32 (p_dropped p1 + 1)). rewrite Hn. unfold u32. by rewrite Zplus_mod_idemp_l.
    - intros Hini. change (has_sflag PEER_STATUS_CREATE_INIT p1 = true) in Hini. by rewrite Hst1 in Hini. }
  destruct (calm_started _ calm_establish_middle _ _ q Hcq Hst1) as (q1 & H1 & Hc2 & Hq & Hst2). rewrite (st_bind_Ok _ _ _ _ _ H1).
  eexists. split; [reflexivity|]. pose proof (qu_status _ _ Hq) as Hsq. change (p_status q) with Established in Hsq.
  split; [|split; [done|split; [done|apply (qu_events _ _ Hq)]]]. destruct Hc2 as [Hs Hn Hr Hi Ha Hd Ho Hb Hcf].
  unfold core. cbn [p_status with_acts]. rewrite Hsq. split; try done. cbn. by rewrite routes_up_snoc.
Qed.

Lemma bgp_start_run p :
  core (in_ok good) p → started p →
  ∃ p', bgp_start e p = Ok (0, p') ∧ core (in_ok good) p' ∧ p_status p' = p_status p ∧ started p' ∧
    (p_events p' = p_events p ∨ ∃ x, (x = TCP_connection_open ∨ x = TCP_connection_open_failed) ∧ p_events p' = p_events p ++ [x]).
Proof.
  intros Hc Hst.
  assert (∃ st p1, bgp_connect e p = Ok (st, p1) ∧ core (in_ok good) p1 ∧ p_status p1 = p_status p ∧ started p1 ∧ p_events p1 = p_events p ∧ (st < 0 ∨ 0 ≤ p_fd p1))
    as (st & p1 & H1 & Hc1 & Hs1 & Hst1 & He1 & Hfd).
  { unfold bgp_connect. rewrite (st_bind_Ok _ _ _ tt (with_fd (e_socket e) p)) by done. set (q := with_fd _ p).
    assert (Hcq : core (in_ok good) q) by (by destruct Hc). destruct (Z.ltb_spec (e_socket e) 0) as [Hlt|Hge]; [exists (-1), q; by split_and!; try done; left|].
    destruct (core_calm (act_add (ASocket (e_socket e))) (in_ok good) q) as (p1 & H1 & Hc1 & Hq1); [by apply calm_act|done|done|].
    rewrite (st_bind_Ok _ _ _ _ _ H1). exists (e_connect e), p1. split; [done|]. split; [done|]. rewrite (qu_status _ _ Hq1), (qu_init _ _ Hq1), (qu_events _ _ Hq1), (qu_fd _ _ Hq1).
    split_and!; try done. by right. }
  unfold bgp_start. rewrite (st_bind_Ok _ _ _ _ _ H1).
  assert (Hadd : ∀ x, core (in_ok good) (with_events (p_events p1 ++ [x]) p1)) by (intros; by destruct Hc1).
  destruct (Z.eqb_spec st connect_error) as [E1|E1].
  { eexists. split; [reflexivity|]. split; [apply Hadd|]. split; [done|]. split; [done|]. right. exists TCP_connection_open_failed. cbn. rewrite He1. auto. }
  destruct (Z.eqb_spec st connect_success) as [E2|E2].
  { eexists. split; [reflexivity|]. split; [apply Hadd|]. split; [done|]. split; [done|]. right. exists TCP_connection_open. cbn. rewrite He1. auto. }
  destruct (Z.eqb_spec st connect_in_progress) as [E3|E3].
  { rewrite (st_bind_Ok _ _ _ p1 p1) by done. rewrite (proj2 (Z.ltb_ge _ _)) by (unfold connect_in_progress in *; lia).
    assert (calm (BGP_READ_ON (p_fd p1);; BGP_WRITE_ON (p_fd p1))) as Hm by auto with calm.
    destruct (core_calm _ _ p1 Hm Hc1 Hst1) as (p2 & H2 & Hc2 & Hq2). exists p2. split.
    { rewrite <- assoc_step. by rewrite (st_bind_Ok _ _ _ _ _ H2). }
    split; [done|]. rewrite (qu_status _ _ Hq2), (qu_init _ _ Hq2), (qu_events _ _ Hq2). split_and!; try done. left. done. }
  exists p1. split_and!; try done. by left.
Qed.

(** ** The table *)

Definition entry_ok (s ev : Z) (f : fsm_func) (next : Z) : bool :=
  (1 <=? next) && (next <=? 6) &&
  match f with
  | FIgnore => (next =? s) || negb (s =? Established) && negb (next =? Established) && ((next =? Idle) || negb (s =? Idle) || (ev =? BGP_Start))
               || (s =? Established) && ((ev =? TCP_connection_open_failed) || (ev =? ConnectRetry_timer_expired))
  | FStop => negb (next =? Established) && ((next =? Idle) || negb (s =? Idle))
  | FStopWithError | FConnectFail => negb (next =? Established) && negb (s =? Idle)
  | FHoldtimeExpire => (next =? Idle) && negb (s =? Idle)
  | FStart | FReconnect => (ev =? ConnectRetry_timer_expired) && negb (s =? Established) && negb (s =? Idle) && negb (next =? Established)
  | FConnectSuccess => (ev =? TCP_connection_open) && negb (s =? Established) && negb (s =? Idle) && negb (next =? Established)
  | FOpen => negb (s =? Established) && negb (s =? Idle) && negb (next =? Established)
  | FEstablish => negb (s =? Established) && negb (s =? Idle) && (next =? Established)
  | FKeepaliveExpire | FKeepalive | FUpdate => (s =? Established) && (next =? Established)
  end.

Lemma fsm_entry_ok s ev : 1 ≤ s ≤ 6 → 1 ≤ ev ≤ 13 → ∃ f next, fsm_entry s ev = Ok (f, next) ∧ entry_ok s ev f next = true.
Proof.
  intros Hs He. assert (s = 1 ∨ s = 2 ∨ s = 3 ∨ s = 4 ∨ s = 5 ∨ s = 6) as Hs' by lia.
  assert (ev = 1 ∨ ev = 2 ∨ ev = 3 ∨ ev = 4 ∨ ev = 5 ∨ ev = 6 ∨ ev = 7 ∨ ev = 8 ∨ ev = 9 ∨ ev = 10 ∨ ev = 11 ∨ ev = 12 ∨ ev = 13) as He' by lia.
  clear Hs He. destruct_or! Hs'; subst s; destruct_or! He'; subst ev; (eexists _, _; split; [reflexivity|reflexivity]).
Qed.

Definition ev_fine (p : peer) (ev : Z) : Prop :=
  1 ≤ ev ≤ 13 ∧ (ev = BGP_Start → started p) ∧
  (p_status p = Established → ev ≠ TCP_connection_open_failed ∧ ev ≠ ConnectRetry_timer_expired).

(** The end of bgp_event. *)
Lemma event_end p next :
  core (in_ok good) p → 1 ≤ next ≤ 6 →
  p_status p = next ∨ p_status p ≠ Established ∧ next ≠ Established ∧ (next ≠ Idle → started p) →
  ∃ p', (q ← st_get; (if negb (next =? p_status q) then bgp_fsm_change_status next else mret tt);; bgp_timer_set;; mret 0) p = Ok (0, p') ∧
    core (in_ok good) p' ∧ same_init p p' ∧ fits p' ∧ p_events p' = p_events p ∧ p_status p' = next.
Proof.
  intros Hc Hn Hor. rewrite (st_bind_Ok _ _ _ p p) by done.
  assert (∃ p1, (if negb (next =? p_status p) then bgp_fsm_change_status next else mret tt) p = Ok (tt, p1) ∧ core (in_ok good) p1 ∧ p_status p1 = next ∧ same_init p p1 ∧ p_events p1 = p_events p)
    as (p1 & H1 & Hc1 & Hs1 & Hi1 & He1).
  { destruct (Z.eqb_spec next (p_status p)) as [E|E]; [by exists p|]. destruct Hor as [?|(Hne & Hne' & Hst)]; [congruence|].
    destruct (change_status_run (in_ok good) p next) as (p1 & ? & ? & ? & ? & ? & _); [done|done|states; lia|done|by exists p1]. }
  rewrite (st_bind_Ok _ _ _ _ _ H1). destruct (timer_set_run p1 (co_status _ _ _ Hc1)) as (p2 & H2 & Hr & Hf). rewrite (st_bind_Ok _ _ _ _ _ H2).
  exists p2. split; [done|]. split; [by eapply core_retimed|]. pose proof (quiet_retimed _ _ Hr) as Hq.
  split; [unfold same_init in *; by rewrite (qu_init _ _ Hq)|]. split; [done|]. rewrite (qu_events _ _ Hq), (qu_status _ _ Hq). done.
Qed.

(** What an event leaves: the timers fit, unless nothing has happened at all. *)
Definition event_post (p : peer) (ev : Z) (p' : peer) : Prop :=
  core (in_ok good) p' ∧ same_init p p' ∧ (fits p' ∨ p' = p ∧ ev = TCP_connection_open) ∧
  (p_events p' = p_events p ∨ p_events p' = [] ∨
   ev = ConnectRetry_timer_expired ∧ p_status p' ≠ Established ∧
     ∃ x, (x = TCP_connection_open ∨ x = TCP_connection_open_failed) ∧ (p_events p' = p_events p ++ [x] ∨ p_events p' = [x])).

Lemma not_idle_started p : core (in_ok good) p → p_status p ≠ Idle → started p.
Proof. intros Hc Hn. destruct (has_sflag PEER_STATUS_CREATE_INIT p) eqn:E; [|done]. by destruct (co_init _ _ _ Hc E). Qed.

Lemma core_loose p : core (in_ok good) p → core loose p.
Proof. apply core_mono, in_ok_loose. Qed.

(** What a function of the table does before the state changes. *)
Definition func_post (p : peer) (ev next : Z) (p1 : peer) : Prop :=
  core (in_ok good) p1 ∧ same_init p p1 ∧
  (p_status p1 = next ∨ p_status p1 ≠ Established ∧ next ≠ Established ∧ (next ≠ Idle → started p1)) ∧
  (p_events p1 = p_events p ∨ p_events p1 = [] ∨
   ev = ConnectRetry_timer_expired ∧ next ≠ Established ∧
     ∃ x, (x = TCP_connection_open ∨ x = TCP_connection_open_failed) ∧ (p_events p1 = p_events p ++ [x] ∨ p_events p1 = [x])).

(** A function that leaves the state alone. *)
Lemma calm_func m p ev next :
  calm m → core (in_ok good) p → started p →
  (p_status p = next ∨ p_status p ≠ Established ∧ next ≠ Established) →
  ∃ p1, (m;; mret 0) p = Ok (0, p1) ∧ func_post p ev next p1.
Proof.
  intros Hm Hc Hst Hn. destruct (core_calm m _ p Hm Hc Hst) as (p1 & H1 & Hc1 & Hq). exists p1. rewrite (st_bind_Ok _ _ _ _ _ H1). split; [done|].
  split; [done|]. split; [apply Hq|]. rewrite (qu_status _ _ Hq), (qu_events _ _ Hq), (qu_init _ _ Hq). split; [naive_solver|by left].
Qed.

Lemma stop_func p ev next :
  core (in_ok good) p → next ≠ Established → (next ≠ Idle → started p) →
  ∃ p1, bgp_stop p = Ok (0, p1) ∧ func_post p ev next p1.
Proof.
  intros Hc Hn Hst. destruct (stop_run good p Hc) as (p1 & H1 & Hc1 & Hs1 & Hi1 & _ & Hor). exists p1. split; [done|]. split; [done|]. split; [done|].
  split; [right; split; [done|]; split; [done|]; intros Hne; unfold same_init in Hi1; rewrite Hi1; by apply Hst|].
  destruct Hor as [[_ ->]|[He _]]; [by left|by right; left].
Qed.

Lemma func_run p ev f next :
  core (in_ok good) p → ev_fine p ev → entry_ok (p_status p) ev f next = true →
  (∃ p1, fsm_run e f p = Ok (0, p1) ∧ func_post p ev next p1) ∨ fsm_run e f p = Ok (-1, p) ∧ ev = TCP_connection_open.
Proof.
  intros Hc (_ & Hst & Hest) Hok. unfold entry_ok in Hok. rewrite !andb_true_iff in Hok. destruct Hok as [_ Hok].
  assert (Hni : ∀ b, negb (p_status p =? Idle) && b = true → started p) by (intros b [Hb _]%andb_true_iff; apply not_idle_started; [done|]; by apply Z.eqb_neq, negb_true_iff).
  destruct f; cbn [fsm_run]; rewrite ?andb_true_iff, ?negb_true_iff, ?Z.eqb_eq, ?Z.eqb_neq in Hok.
  - left. exists p. split; [done|]. split; [done|]. split; [done|]. split; [|by left]. rewrite !orb_true_iff, !andb_true_iff, !negb_true_iff, !orb_true_iff, !Z.eqb_eq, !Z.eqb_neq in Hok.
    rewrite negb_true_iff, Z.eqb_neq in Hok. destruct Hok as [[->|[[H1 H2] H3]]|[H1 H2]]; [by left| |destruct (Hest H1); naive_solver].
    right. split; [done|]. split; [done|]. intros Hne. destruct H3 as [[H3|H3]|H3]; [done|by apply not_idle_started|by apply Hst].
  - left. rewrite orb_true_iff, negb_true_iff, Z.eqb_eq, Z.eqb_neq in Hok. destruct Hok as [H1 H2]. apply stop_func; [done|done|]. intros Hne. destruct H2 as [?|H2]; [done|by apply not_idle_started].
  - left. destruct Hok as [H1 H2]. apply not_idle_started in H2 as Hs; [|done].
    destruct (stop_error_mid good p (core_loose p Hc) Hs) as (p1 & E1 & Hc1 & Hs1 & Hi1 & He1 & _). exists p1. split; [done|]. split; [done|]. unfold same_init. rewrite Hs, Hi1.
    split; [done|]. split; [by right|by right; left].
  - destruct Hok as [[[H3e H1] H2] H3]. apply not_idle_started in H2 as Hs; [|done]. unfold bgp_connect_success. rewrite (st_bind_Ok _ _ _ p p) by done.
    destruct (p_fd p <? 0); [by right|]. left. rewrite (co_accept _ _ _ Hc). cbn [negb]. rewrite <- assoc_step. apply calm_func; [auto with calm|done|done|by right].
  - left. destruct Hok as [H1 H2]. destruct (stop_func p ev next Hc H1) as (p1 & E1 & Hp1); [intros; by apply not_idle_started|].
    exists p1. unfold bgp_connect_fail. by rewrite (st_bind_Ok _ _ _ _ _ E1).
  - left. destruct Hok as [[[H1 H2] H3] H4]. apply not_idle_started in H3 as Hs; [|done].
    destruct (bgp_start_run p Hc Hs) as (p1 & E1 & Hc1 & Hs1 & Hi1 & He1). exists p1. split; [done|]. split; [done|]. unfold same_init. rewrite Hs, Hi1, Hs1.
    split; [done|]. split; [by right|]. destruct He1 as [?|(x & Hx & He)]; [by left|right; right]. naive_solver.
  - left. destruct Hok as [[[H1 H2] H3] H4]. apply not_idle_started in H3 as Hs; [|done]. unfold bgp_reconnect.
    destruct (stop_mid good p (core_loose p Hc) Hs) as (p1 & E1 & Hc1 & Hs1 & _ & Hi1 & He1 & _). rewrite (st_bind_Ok _ _ _ _ _ E1).
    destruct (bgp_start_run p1 Hc1 Hi1) as (p2 & E2 & Hc2 & Hs2 & Hi2 & He2). rewrite (st_bind_Ok _ _ _ _ _ E2). exists p2. split; [done|]. split; [done|]. unfold same_init.
    rewrite Hs, Hi2, Hs2. split; [done|]. split; [by right|]. rewrite He1 in He2. destruct He2 as [?|(x & Hx & He)]; [by right; left|right; right]. naive_solver.
  - left. destruct Hok as [[H1 H2] H3]. unfold bgp_fsm_open. rewrite <- assoc_step.
    refine (calm_func (bgp_keepalive_send;; timer_off THoldtime) p ev next (calm_bind _ _ calm_keepalive_send (calm_off THoldtime)) Hc (not_idle_started p Hc H2) (or_intror (conj H1 H3))).
  - left. destruct Hok as [H1 H2]. apply not_idle_started in H2 as Hs; [|done]. unfold bgp_fsm_holdtime_expire.
    destruct (notify_run good (e_writes e) BGP_NOTIFY_HOLD_ERR 0 [] p) as (p1 & E1 & [Hc1 Hs1 Hi1 He1 _ _]); [by apply core_loose|done|done|done|by constructor|done|].
    unfold bgp_notify_send. rewrite (st_bind_Ok _ _ _ _ _ E1). rewrite (st_bind_Ok _ _ _ p1 p1) by done. rewrite (co_accept _ _ _ Hc1).
    exists p1. split; [done|]. split; [done|]. unfold same_init. rewrite Hs, Hi1. split; [done|]. split; [left; congruence|by right; left].
  - left. destruct Hok as [H1 H2]. unfold bgp_fsm_keepalive_expire.
    refine (calm_func bgp_keepalive_send p ev next calm_keepalive_send Hc (not_idle_started p Hc _) (or_introl _)); [rewrite H1|rewrite H2]; easy.
  - left. destruct Hok as [[H1 H2] H3]. apply not_idle_started in H2 as Hs; [|done]. destruct (establish_run p Hc Hs H1) as (p1 & E1 & Hc1 & Hs1 & Hi1 & He1).
    exists p1. split; [done|]. split; [done|]. unfold same_init. rewrite Hs, Hi1. split; [done|]. split; [left; congruence|by left].
  - left. destruct Hok as [H1 H2]. unfold bgp_fsm_keepalive, bgp_fsm_update. apply calm_func; [auto with calm|done|apply not_idle_started; [done|]; states; lia|left; congruence].
  - left. destruct Hok as [H1 H2]. unfold bgp_fsm_keepalive, bgp_fsm_update. apply calm_func; [auto with calm|done|apply not_idle_started; [done|]; states; lia|left; congruence].
Qed.

Lemma event_run p ev : core (in_ok good) p → ev_fine p ev → ∃ ret p', bgp_event e ev p = Ok (ret, p') ∧ event_post p ev p'.
Proof.
  intros Hc Hev. unfold bgp_event. rewrite (st_bind_Ok _ _ _ p p) by done.
  destruct (fsm_entry_ok (p_status p) ev (co_status _ _ _ Hc)) as (f & next & Hent & Hok); [apply Hev|].
  rewrite (st_bind_Ok _ _ _ (f, next) p) by (by rewrite Hent).
  destruct (func_run p ev f next Hc Hev Hok) as [(p1 & H1 & Hc1 & Hi1 & Hor & He1)|[H1 H3]]; rewrite (st_bind_Ok _ _ _ _ _ H1).
  - change (0 <? 0) with false. cbn match. destruct (event_end p1 next Hc1) as (p2 & H2 & Hc2 & Hi2 & Hf2 & He2 & Hs2); [|done|].
    { unfold entry_ok in Hok. rewrite !andb_true_iff, !Z.leb_le in Hok. lia. }
    exists 0, p2. split; [done|]. split; [done|]. unfold same_init in *. split; [congruence|]. split; [by left|]. rewrite He2, Hs2. done.
  - exists (-1), p. split; [done|]. split; [done|]. split; [done|]. split; [by right|by left].
Qed.

End functions.
