(* ===== verification/BgpSessionRun.v ===== *)
(** The BGP session: the events that wait, reading and writing, for a configured peer.

    [peer_read] is bgp_read for such a peer, with the result of the search for a colliding
    connection as an argument; [bgp_read_peer] relates it to bgp_read. *)

From S2P Require Import Prelude Prefix Stream StreamCalc BgpAttr BgpFsm BgpSession BgpFsmFacts BgpFsmRun.

(** * The messages the header lets pass *)

Definition good (d : list Z) (size : Z) : Prop := ∃ t, d !! 18%nat = Some t ∧ known_type t = true ∧ bad_length t size = false.

(** What the rest of bgpd may answer with. *)
Definition notify_ok (code sub_code : Z) (data : list Z) : Prop :=
  is_u8 code ∧ is_u8 sub_code ∧ bytes_ok data ∧ Z.of_nat (length data) ≤ 4075.

Ltac notify_fine :=
  split; [done|]; split; [done|]; split; [first [done | constructor; [done|constructor] | constructor]|cbn; lia].

(** The assumption on the functions of [Receiver]: they do not fault, and their NOTIFICATIONs
    are octets that fit in a packet. *)
Class ReceiverLaws `{Receiver} : Prop := {
  receive_other_ok : ∀ type size p, ∃ r, receive_other type size p = Ok r ∧
    ∀ code sub_code data, r = RxNotify code sub_code data → notify_ok code sub_code data;
  option_parse_ok : ∀ optlen p, ∃ r, bgp_open_option_parse optlen p = Ok r ∧
    ∀ code sub_code data, r = OptRefused code sub_code data → notify_ok code sub_code data;
}.

(** * The events that wait *)

Definition settle `{Speaker} (e : env) : ST peer unit := λ p, run_events e (length (p_events p)) p.

Definition waits_ok (p : peer) (x : Z) : Prop :=
  1 ≤ x ≤ 13 ∧ x ≠ TCP_connection_open_failed ∧ x ≠ ConnectRetry_timer_expired ∧ (x = BGP_Start → started p).

Section queue.
Context `{SpeakerLaws} (e : env).

(** A queue that can be worked through: only a lone failure to connect may wait. *)
Definition queue_ok (p : peer) : Prop :=
  Forall (waits_ok p) (p_events p) ∨ p_events p = [TCP_connection_open_failed] ∧ p_status p ≠ Established.

(** Either the timers fit already or an event that sets them will. *)
Definition to_fit (p : peer) : Prop := fits p ∨ p_events p ≠ [] ∧ TCP_connection_open ∉ p_events p.

Lemma fine_of p x l : queue_ok p → p_events p = x :: l → ev_fine p x ∧ x ≠ ConnectRetry_timer_expired.
Proof.
  intros [Hq|[Hq Hne]] E; rewrite E in Hq.
  - inversion Hq as [|? ? (H1 & H2 & H3 & H4)]; subst. split; [|done]. split; [done|]. split; [done|]. done.
  - injection Hq as -> ->. split; [|done]. split; [done|]. split; [done|]. intros ?. done.
Qed.

Lemma settle_loop n : ∀ p,
  core (in_ok good) p → queue_ok p → to_fit p → (length (p_events p) ≤ n)%nat →
  ∃ p', run_events e n p = Ok (tt, p') ∧ core (in_ok good) p' ∧ same_init p p' ∧ fits p' ∧ p_events p' = [].
Proof.
  induction n as [|n IH]; intros p Hc Hq Hf Hl.
  { destruct (p_events p) as [|x l] eqn:E; [|cbn in Hl; lia]. exists p. cbn [run_events]. rewrite (st_bind_Ok _ _ _ p p) by done. rewrite E.
    split; [done|]. split; [done|]. split; [done|]. split; [|done]. by destruct Hf as [|[? _]]. }
  cbn [run_events]. rewrite (st_bind_Ok _ _ _ p p) by done. destruct (p_events p) as [|x l] eqn:E.
  { exists p. split; [done|]. split; [done|]. split; [done|]. split; [|done]. by destruct Hf as [|[? _]]. }
  destruct (fine_of p x l Hq E) as [Hfine Hx7]. rewrite (st_bind_Ok _ _ _ tt (with_events l p)) by done. set (q := with_events l p).
  assert (Hcq : core (in_ok good) q) by (by destruct Hc).
  destruct (event_run e good q x Hcq Hfine) as (ret & p1 & H1 & Hc1 & Hi1 & Hf1 & He1). rewrite (st_bind_Ok _ _ _ _ _ H1).
  assert (He : p_events p1 = l ∨ p_events p1 = []) by (destruct He1 as [?|[?|[? _]]]; [by left|by right|done]). clear He1.
  assert (Hq1 : queue_ok p1).
  { left. destruct He as [-> | ->]; [|constructor]. destruct Hq as [Hq|[Hq _]]; rewrite E in Hq; [|by injection Hq as -> ->].
    apply Forall_inv_tail in Hq. eapply Forall_impl; [exact Hq|]. intros y (? & ? & ? & Hst). repeat split; try done; try lia. intros Hy. unfold same_init in Hi1. rewrite Hi1. by apply Hst. }
  destruct (IH p1 Hc1 Hq1) as (p2 & H2 & Hc2 & Hi2 & Hf2 & He2).
  { destruct Hf1 as [?|[-> ->]]; [by left|]. left. destruct Hf as [Hf|[_ Hni]]; [by destruct Hf|]. rewrite E in Hni. set_solver. }
  { destruct He as [-> | ->]; cbn in *; lia. }
  exists p2. split; [done|]. split; [done|]. split; [exact (eq_trans Hi2 Hi1)|done].
Qed.

Lemma settle_run p :
  core (in_ok good) p → queue_ok p → to_fit p →
  ∃ p', settle e p = Ok (tt, p') ∧ core (in_ok good) p' ∧ same_init p p' ∧ fits p' ∧ p_events p' = [].
Proof. intros Hc Hq Hf. unfold settle. by apply settle_loop. Qed.

(** A timer that has run out. *)
Lemma event_settle p ev :
  core (in_ok good) p → ev_fine p ev → ev ≠ TCP_connection_open → p_events p = [] →
  ∃ p', (bgp_event e ev;; settle e) p = Ok (tt, p') ∧ core (in_ok good) p' ∧ same_init p p' ∧ fits p' ∧ p_events p' = [].
Proof.
  intros Hc Hev Hne He. destruct (event_run e good p ev Hc Hev) as (ret & p1 & H1 & Hc1 & Hi1 & Hf1 & He1). rewrite (st_bind_Ok _ _ _ _ _ H1).
  destruct Hf1 as [Hf1|[_ ?]]; [|done]. rewrite He in He1. destruct (settle_run p1 Hc1) as (p2 & H2 & Hc2 & Hi2 & Hf2 & He2); [|by left|].
  { destruct He1 as [E|[E|(_ & Hs & x & [-> | ->] & [E|E])]]; rewrite ?app_nil_l in E.
    1,2: left; rewrite E; constructor. 1,2: left; rewrite E; by repeat constructor. 1,2: by right. }
  exists p2. split; [done|]. split; [done|]. split; [unfold same_init in *; congruence|done].
Qed.

End queue.

(** * The input buffer *)

(** The buffer is there and [Q] holds of it and of the size of the message. *)
Definition cur (Q : stream → Z → Prop) (ibuf : option stream) (ps : Z) : Prop :=
  ∃ s, ibuf = Some s ∧ stream_ok s ∧ s_size s = BGP_MAX_PACKET_SIZE ∧ Q s ps.

Lemma cur_loose Q ibuf ps : cur Q ibuf ps → loose ibuf ps.
Proof. intros (s & ? & ? & ? & _). by exists s. Qed.

Lemma core_cur Q p : core (cur Q) p → core loose p.
Proof. apply core_mono, cur_loose. Qed.

Lemma core_ibuf inp inp' p s' : core inp p → inp' (Some s') (p_packet_size p) → core inp' (with_ibuf (Some s') p).
Proof. intros [] ?. by split. Qed.

Lemma core_psize inp inp' p n : core inp p → inp' (p_ibuf p) n → core inp' (with_packet_size n p).
Proof. intros [] ?. by split. Qed.

Lemma on_ibuf_run {X} (m : ST stream X) Q (Q' : X → stream → Z → Prop) p :
  core (cur Q) p →
  (∀ s, stream_ok s → s_size s = BGP_MAX_PACKET_SIZE → Q s (p_packet_size p) →
    ∃ a s', m s = Ok (a, s') ∧ stream_ok s' ∧ s_size s' = BGP_MAX_PACKET_SIZE ∧ Q' a s' (p_packet_size p)) →
  ∃ a s', on_ibuf m p = Ok (a, with_ibuf (Some s') p) ∧ core (cur (Q' a)) (with_ibuf (Some s') p) ∧ Q' a s' (p_packet_size p).
Proof.
  intros Hc Hm. destruct (co_ibuf _ _ _ Hc) as (s & Hs & Hok & Hz & HQ). destruct (Hm s Hok Hz HQ) as (a & s' & E & Hok' & Hz' & HQ').
  exists a, s'. split; [unfold on_ibuf; rewrite Hs; cbn [of_option mbind res_bind]; by rewrite E|]. split; [|done]. eapply core_ibuf; [done|]. by exists s'.
Qed.

(** Reading from the buffer moves its cursor. *)
Definition takes {X} (m : ST stream X) (k : Z) (P : X → Prop) : Prop :=
  ∀ s, stream_ok s → s_size s = BGP_MAX_PACKET_SIZE → s_getp s + k ≤ BGP_MAX_PACKET_SIZE →
    ∃ a, m s = Ok (a, set_getp (s_getp s + k) s) ∧ P a.

Lemma getp_ok n s : stream_ok s → 0 ≤ n ≤ s_size s → stream_ok (set_getp n s).
Proof. intros [] ?. by split. Qed.

Lemma takes_getc : takes stream_getc 1 is_u8.
Proof.
  intros s Hok Hz Hk. pose proof Hok as [H1 H2 H3 H4 H5 H6]. unfold BGP_MAX_PACKET_SIZE in *. destruct (get_byte_in (s_data s) (s_getp s)) as (b & Hb & Hl); [lia|].
  exists b. unfold stream_getc. rewrite Hb. cbn [mbind res_bind]. rewrite u64_id by (unfold is_u64; lia). split; [done|]. unfold bytes_ok in H6. rewrite Forall_lookup in H6. by eapply H6.
Qed.

Lemma next_byte_getc : next_byte = stream_getc.
Proof. done. Qed.

Lemma takes_getw : takes stream_getw 2 (λ _, True).
Proof.
  intros s Hok Hz Hk. pose proof Hok as [H1 H2 H3 H4 H5 H6]. unfold BGP_MAX_PACKET_SIZE in *. unfold stream_getw. rewrite next_byte_getc.
  destruct (takes_getc s Hok) as (b1 & E1 & _); [done|unfold BGP_MAX_PACKET_SIZE; lia|]. rewrite (st_bind_Ok _ _ _ _ _ E1). cbn zeta.
  destruct (takes_getc (set_getp (s_getp s + 1) s)) as (b2 & E2 & _); [apply getp_ok; [done|lia]|done|cbn; unfold BGP_MAX_PACKET_SIZE; lia|].
  rewrite (st_bind_Ok _ _ _ _ _ E2). eexists. split; [|done]. cbn. unfold set_getp. cbn. by rewrite <- Z.add_assoc.
Qed.

Lemma cut_bytes s n :
  stream_ok s → s_size s = BGP_MAX_PACKET_SIZE → 0 ≤ n → s_getp s + n ≤ BGP_MAX_PACKET_SIZE →
  ∃ bs, get_bytes (s_data s) (s_getp s) n = Ok bs ∧ bytes_ok bs ∧ Z.of_nat (length bs) = n.
Proof.
  intros [H1 H2 H3 H4 H5 H6] Hz Hn Hk. rewrite get_bytes_in by lia. eexists. split; [done|]. split; [apply Forall_take; by apply Forall_drop|].
  rewrite length_take, length_drop. lia.
Qed.

Lemma takes_ipv4 : takes stream_get_ipv4 4 (λ l, bytes_ok l ∧ Z.of_nat (length l) = 4).
Proof.
  intros s Hok Hz Hk. destruct (cut_bytes s 4 Hok Hz) as (bs & E & ?); [lia|done|]. exists bs. unfold stream_get_ipv4. rewrite E. cbn [mbind res_bind].
  pose proof (ok_getp _ Hok). unfold BGP_MAX_PACKET_SIZE in *. rewrite u64_id by (unfold is_u64; lia). done.
Qed.

Lemma peek_run n s :
  stream_ok s → s_size s = BGP_MAX_PACKET_SIZE → 0 ≤ n → s_getp s + n ≤ BGP_MAX_PACKET_SIZE →
  ∃ bs, peek n s = Ok (bs, s) ∧ bytes_ok bs ∧ Z.of_nat (length bs) = n.
Proof. intros Hok Hz Hn Hk. destruct (cut_bytes s n Hok Hz Hn Hk) as (bs & E & ?). exists bs. unfold peek. by rewrite E. Qed.

(** The cursor is at [g] in a buffer of which [P] holds but for the cursor. *)
Definition at_pos (P : list Z → Z → Z → Prop) (g : Z) (s : stream) (ps : Z) : Prop :=
  s_getp s = g ∧ s_endp s = s_putp s ∧ P (s_data s) (s_putp s) ps.

Lemma ibuf_takes {X} (m : ST stream X) k R P g p :
  takes m k R → core (cur (at_pos P g)) p → 0 ≤ k → g + k ≤ BGP_MAX_PACKET_SIZE →
  ∃ a s', on_ibuf m p = Ok (a, with_ibuf (Some s') p) ∧ core (cur (at_pos P (g + k))) (with_ibuf (Some s') p) ∧ R a.
Proof.
  intros Hm Hc Hk Hg. destruct (on_ibuf_run m (at_pos P g) (λ a s ps, at_pos P (g + k) s ps ∧ R a) p Hc) as (a & s' & E & Hc' & H').
  { intros s Hok Hz [Hs HP]. destruct (Hm s Hok Hz) as (a & E & Ha); [lia|]. exists a, (set_getp (s_getp s + k) s). split; [done|].
    split; [apply getp_ok; [done|]; pose proof (ok_getp _ Hok); lia|]. split; [done|]. split; [split; [cbn; lia|done]|done]. }
  exists a, s'. split; [done|]. split; [|apply H']. eapply core_mono; [|exact Hc']. intros (s1 & ? & ? & ? & [? _]). by exists s1.
Qed.

Lemma ibuf_peek P g n p :
  core (cur (at_pos P g)) p → 0 ≤ n → g + n ≤ BGP_MAX_PACKET_SIZE →
  ∃ bs s', on_ibuf (peek n) p = Ok (bs, with_ibuf (Some s') p) ∧ core (cur (at_pos P g)) (with_ibuf (Some s') p) ∧ bytes_ok bs ∧ Z.of_nat (length bs) = n.
Proof.
  intros Hc Hn Hg. destruct (on_ibuf_run (peek n) (at_pos P g) (λ bs s ps, at_pos P g s ps ∧ bytes_ok bs ∧ Z.of_nat (length bs) = n) p Hc) as (bs & s' & E & Hc' & H').
  { intros s Hok Hz [Hs HP]. destruct (peek_run n s Hok Hz) as (bs & E & ?); [done|lia|]. by exists bs, s. }
  exists bs, s'. split; [done|]. split; [|apply H']. eapply core_mono; [|exact Hc']. intros (s1 & ? & ? & ? & [? _]). by exists s1.
Qed.

Lemma takes_forward n : 0 ≤ n → takes (λ s, Ok (tt, stream_forward n s)) n (λ _, True).
Proof.
  intros Hn s Hok Hz Hk. exists tt. unfold stream_forward. pose proof (ok_getp _ Hok). unfold BGP_MAX_PACKET_SIZE in *. rewrite u64_id by (unfold is_u64; lia). done.
Qed.

(** * Reading from the descriptor *)

Definition rcall_ok (call : rcall) : Prop := match call with RData bs => bytes_ok bs | _ => True end.

(** A buffer into which the rest of [ps] octets are read: the first [lo] are there. *)
Definition filling (g lo : Z) (P : list Z → Z → Prop) (s : stream) (ps : Z) : Prop :=
  s_getp s = g ∧ s_endp s = s_putp s ∧ 0 ≤ lo ≤ s_putp s ∧ s_putp s ≤ ps ≤ BGP_MAX_PACKET_SIZE ∧ P (take (Z.to_nat lo) (s_data s)) ps.

Definition filled (p : peer) : Prop := ∀ s, p_ibuf p = Some s → s_putp s = p_packet_size p.
Definition unfilled (p : peer) : Prop := ∀ s, p_ibuf p = Some s → s_putp s ≠ p_packet_size p.

Lemma take_splice (d bs : list Z) lo off : (lo ≤ off)%nat → (off ≤ length d)%nat → take lo (splice d off bs) = take lo d.
Proof. intros H1 H2. unfold splice. rewrite take_app_le by (rewrite length_take; lia). by rewrite take_take, Nat.min_l. Qed.

Lemma fill_run bs g lo P s ps :
  stream_ok s → s_size s = BGP_MAX_PACKET_SIZE → bytes_ok bs → filling g lo P s ps →
  ∃ s', stream_read_unblock (Some bs) (ps - s_putp s) s = Ok (Z.of_nat (length (take (Z.to_nat (ps - s_putp s)) bs)), s') ∧
    stream_ok s' ∧ s_size s' = BGP_MAX_PACKET_SIZE ∧ filling g lo P s' ps ∧ s_putp s' = s_putp s + Z.of_nat (length (take (Z.to_nat (ps - s_putp s)) bs)).
Proof.
  intros Hok Hz Hbs (Hg & He & Hlo & Hps & HP). pose proof Hok as [H1 H2 H3 H4 H5 H6]. set (got := take _ bs).
  assert (Hgot : Z.of_nat (length got) ≤ ps - s_putp s) by (unfold got; rewrite length_take; lia). assert (Hgb : bytes_ok got) by (by apply Forall_take).
  unfold BGP_MAX_PACKET_SIZE in *. unfold stream_read_unblock. fold got. rewrite put_bytes_in by lia. cbn [mbind res_bind]. eexists. split; [reflexivity|].
  assert (E : advance (Z.of_nat (length got)) (set_data (take (Z.to_nat (s_putp s)) (s_data s) ++ got ++ drop (Z.to_nat (s_putp s) + length got) (s_data s)) s) = append got s).
  { unfold advance, append, splice. cbn [s_endp s_putp set_data set_putp set_endp]. destruct (Z.ltb_spec 0 (Z.of_nat (length got))).
    - rewrite !u64_id by (unfold is_u64; lia). unfold set_endp, set_putp, set_data. cbn. rewrite He, Z.max_r by lia. done.
    - unfold set_data. f_equal; lia. }
  rewrite E. split; [apply append_ok; [done|done|unfold room; lia]|]. split; [done|]. split; [|done].
  split; [done|]. cbn. split; [lia|]. split; [lia|]. split; [unfold BGP_MAX_PACKET_SIZE; lia|]. rewrite take_splice by lia. done.
Qed.

Lemma calm_closed_session : calm closed_session.
Proof.
  unfold closed_session. apply calm_get. intros p. apply calm_if; [|apply calm_ret]. apply calm_if; [|apply calm_last_reset].
  apply calm_bind; [apply calm_last_reset|by apply calm_set_sflag].
Qed.

Lemma quiet_unfilled p p' : quiet p p' → unfilled p → unfilled p'.
Proof. intros Hq Hu s. rewrite (qu_ibuf _ _ Hq), (qu_size _ _ Hq). apply Hu. Qed.

(** A closed connection. *)
Lemma closed_run x inp p :
  core inp p → started p → p_events p = [] → unfilled p →
  ∃ p', (closed_session;; BGP_EVENT_ADD x;; mret (-1)) p = Ok (-1, p') ∧ core inp p' ∧ started p' ∧ p_packet_size p' = p_packet_size p ∧
    p_status p' = p_status p ∧ unfilled p' ∧ p_events p' = [x].
Proof.
  intros Hc Hst He Hu. destruct (core_calm _ _ p calm_closed_session Hc Hst) as (p1 & H1 & Hc1 & Hq). rewrite (st_bind_Ok _ _ _ _ _ H1).
  eexists. split; [reflexivity|]. split; [by destruct Hc1|]. split; [exact (eq_trans (qu_init _ _ Hq) Hst)|]. split; [exact (qu_size _ _ Hq)|].
  split; [exact (qu_status _ _ Hq)|]. split; [exact (quiet_unfilled _ _ Hq Hu)|]. cbn. by rewrite (qu_events _ _ Hq), He.
Qed.

Record read_end (p p' : peer) : Prop := ReadEnd {
  re_started : started p';
  re_size : p_packet_size p' = p_packet_size p;
  re_status : p_status p' = p_status p;
}.

Lemma read_packet_run call g lo P p :
  rcall_ok call → core (cur (filling g lo P)) p → started p → p_events p = [] →
  ∃ ret p', bgp_read_packet call p = Ok (ret, p') ∧ core (cur (filling g lo P)) p' ∧ read_end p p' ∧
    (ret = 0 ∧ filled p' ∧ p_events p' = [] ∧ (fits p → fits p') ∨
     ret = -1 ∧ unfilled p' ∧ (p_events p' = [] ∧ (fits p → fits p') ∨ ∃ x, (x = TCP_connection_closed ∨ x = TCP_fatal_error) ∧ p_events p' = [x])).
Proof.
  intros Hcall Hc Hst He. destruct (co_ibuf _ _ _ Hc) as (s & Hs & Hok & Hz & HQ). pose proof HQ as (_ & _ & Hlo & Hps & _). unfold BGP_MAX_PACKET_SIZE in Hps.
  unfold bgp_read_packet. rewrite (st_bind_Ok _ _ _ p p) by done. rewrite (st_bind_Ok _ _ _ s p) by (by rewrite Hs).
  rewrite s32_id by (unfold is_s32; lia). cbn zeta. destruct (Z.eqb_spec (p_packet_size p - s_putp s) 0) as [E0|E0].
  { exists 0, p. split; [done|]. split; [done|]. split; [by split|]. left. split; [done|]. split; [|done]. intros s' Hs'. rewrite Hs in Hs'. injection Hs' as <-. lia. }
  assert (Hu : unfilled p) by (intros s' Hs'; rewrite Hs in Hs'; injection Hs' as <-; lia).
  assert (Hkeep : with_ibuf (Some s) p = p) by (rewrite <- Hs; by destruct p).
  destruct call as [| |bs].
  - rewrite (st_bind_Ok _ _ _ (-1) p) by (unfold on_ibuf; rewrite Hs; cbn [of_option mbind res_bind stream_read_unblock fst snd]; by rewrite Hkeep).
    exists (-1), p. split; [done|]. split; [done|]. split; [by split|]. right. split; [done|]. split; [done|]. by left.
  - rewrite (st_bind_Ok _ _ _ (-1) p) by (unfold on_ibuf; rewrite Hs; cbn [of_option mbind res_bind stream_read_unblock fst snd]; by rewrite Hkeep).
    destruct (closed_run TCP_fatal_error _ p Hc Hst He Hu) as (p' & E & Hc' & ? & ? & ? & Hu' & He'). exists (-1), p'. split; [exact E|]. split; [done|]. split; [by split|].
    right. split; [done|]. split; [done|]. right. eauto.
  - destruct (fill_run bs g lo P s (p_packet_size p) Hok Hz Hcall HQ) as (s' & Er & Hok' & Hz' & HQ' & Hput). set (n := Z.of_nat (length (take _ bs))) in *.
    assert (Hc' : core (cur (filling g lo P)) (with_ibuf (Some s') p)) by (eapply core_ibuf; [done|by exists s']).
    rewrite (st_bind_Ok _ _ _ n (with_ibuf (Some s') p)) by (unfold on_ibuf; rewrite Hs; cbn [of_option mbind res_bind]; by rewrite Er).
    rewrite (proj2 (Z.ltb_ge n 0)) by lia. destruct (Z.eqb_spec n 0) as [En|En].
    + destruct (closed_run TCP_connection_closed _ _ Hc' Hst He) as (p' & E & Hc'' & ? & ? & ? & Hu' & He'); [intros s1 [= <-]; cbn; lia|].
      exists (-1), p'. split; [exact E|]. split; [done|]. split; [by split|]. right. split; [done|]. split; [done|]. right. eauto.
    + rewrite (st_bind_Ok _ _ _ (with_ibuf (Some s') p) (with_ibuf (Some s') p)) by done. rewrite (st_bind_Ok _ _ _ s' (with_ibuf (Some s') p)) by done.
      destruct (Z.eqb_spec (s_putp s') (p_packet_size (with_ibuf (Some s') p))) as [Ef|Ef]; cbn [negb].
      * exists 0, (with_ibuf (Some s') p). split; [done|]. split; [done|]. split; [by split|]. left. split; [done|]. split; [by intros s1 [= <-]|]. split; [done|]. by intros [].
      * exists (-1), (with_ibuf (Some s') p). split; [done|]. split; [done|]. split; [by split|]. right. split; [done|]. split; [by intros s1 [= <-]|]. left. split; [done|]. by intros [].
Qed.

(** * The header *)

(** The octet at the cursor, which stays in the data. *)
Lemma ibuf_type P g p :
  core (cur (at_pos P g)) p → 0 ≤ g → g + 1 ≤ BGP_MAX_PACKET_SIZE →
  ∃ a s', on_ibuf stream_getc p = Ok (a, with_ibuf (Some s') p) ∧
    core (cur (at_pos (λ d u ps, P d u ps ∧ d !! Z.to_nat g = Some a) (g + 1))) (with_ibuf (Some s') p) ∧ is_u8 a.
Proof.
  intros Hc H0 Hg. destruct (on_ibuf_run stream_getc (at_pos P g) (λ a s ps, at_pos (λ d u ps, P d u ps ∧ d !! Z.to_nat g = Some a) (g + 1) s ps ∧ is_u8 a) p Hc) as (a & s' & E & Hc' & H').
  { intros s Hok Hz (Hs & He & HP). destruct (takes_getc s Hok Hz) as (a & E & Ha); [lia|]. exists a, (set_getp (s_getp s + 1) s). split; [done|].
    split; [apply getp_ok; [done|]; lia|]. split; [done|]. split; [|done]. split; [cbn; lia|]. split; [done|]. split; [done|]. cbn.
    unfold stream_getc in E. destruct (get_byte (s_data s) (s_getp s)) as [b|] eqn:Eb; [|done]. injection E as <- _. apply get_byte_Ok in Eb. rewrite <- Hs. apply Eb. }
  exists a, s'. split; [done|]. split; [|apply H']. eapply core_mono; [|exact Hc']. intros (s1 & ? & ? & ? & [? _]). by exists s1.
Qed.

Lemma takes_all_one : takes (λ s, b ← bgp_marker_all_one BGP_MARKER_SIZE s; Ok (b, s)) 0 (λ _, True).
Proof.
  intros s Hok Hz Hk. pose proof Hok as [H1 _ _ _ _ _]. unfold bgp_marker_all_one, BGP_MARKER_SIZE, BGP_MAX_PACKET_SIZE in *. rewrite get_bytes_in by lia.
  eexists. split; [|done]. cbn [mbind res_bind]. rewrite Z.add_0_r. by destruct s.
Qed.

Definition header_part : list Z → Z → Prop := λ _ ps, ps = BGP_HEADER_SIZE.

(** The events a message leads to. *)
Definition msg_event (x : Z) : Prop := x ∈ [2; 4; 6; 10; 11; 12; 13].

Record read_stop (p p' : peer) : Prop := ReadStop {
  rs_core : core (in_ok good) p';
  rs_started : started p';
  rs_events : p_events p' = [] ∧ (fits p → fits p') ∨ ∃ x, msg_event x ∧ p_events p' = [x];
}.

Lemma down_stop p p' : down good p' → read_stop p p'.
Proof. intros []. split; [done|done|]. by left. Qed.

Lemma header_in_ok p : core (cur (filling 0 0 header_part)) p → unfilled p → core (in_ok good) p.
Proof.
  intros Hc Hu. eapply core_mono; [|exact Hc]. intros (s & Hs & Hok & Hz & Hg & He & Hlo & Hps & HP). specialize (Hu s Hs). rewrite Hs. cbn. unfold header_part in HP.
  split; [done|]. split; [done|]. split; [done|]. right; left. unfold BGP_HEADER_SIZE in *. lia.
Qed.

Lemma good_take d ps : good (take 19 d) ps ↔ good d ps.
Proof. unfold good. split; intros (t & Ht & ?); exists t; (split; [|done]); [by apply lookup_take_Some in Ht as [? _]|by rewrite lookup_take_lt by lia]. Qed.

Lemma body_in_ok p : core (cur (filling 19 19 good)) p → core (in_ok good) p.
Proof.
  intros Hc. eapply core_mono; [|exact Hc]. intros (s & Hs & Hok & Hz & Hg & He & Hlo & Hps & HP). rewrite Hs. cbn.
  split; [done|]. split; [done|]. split; [done|]. right; right. unfold BGP_HEADER_SIZE in *. split; [done|]. split; [lia|]. split; [lia|]. change (Z.to_nat 19) with 19%nat in HP. by apply good_take.
Qed.

Section reading.
Context `{SpeakerLaws} `{ReceiverLaws} (e : env).

Lemma refuse_run {X} (x : X) code sub_code data p :
  core loose p → started p → notify_ok code sub_code data →
  ∃ p', (bgp_notify_send_with_data (e_writes e) code sub_code data;; mret x) p = Ok (x, p') ∧ down good p'.
Proof.
  intros Hc Hst (H1' & H2' & H3' & H4'). destruct (notify_run good (e_writes e) code sub_code data p Hc Hst H1' H2' H3' H4') as (p' & E & Hd).
  exists p'. rewrite (st_bind_Ok _ _ _ _ _ E). clear E. by split.
Qed.

Lemma read_header_run call p :
  rcall_ok call → core (cur (filling 0 0 header_part)) p → started p → p_events p = [] →
  ∃ b p', read_header e call p = Ok (b, p') ∧
    (b = true ∧ core (cur (filling 19 19 good)) p' ∧ started p' ∧ p_events p' = [] ∧ (fits p → fits p') ∨ b = false ∧ read_stop p p').
Proof.
  intros Hcall Hc Hst He. unfold read_header. destruct (read_packet_run call 0 0 header_part p Hcall Hc Hst He) as (ret & p1 & E1 & Hc1 & [Hst1 Hz1 Hs1] & Hor).
  rewrite (st_bind_Ok _ _ _ _ _ E1). destruct Hor as [(-> & Hfull & He1 & Hf1)|(-> & Hu & Hor)].
  2: { exists false, p1. split; [done|]. right. split; [done|]. split; [by apply header_in_ok|done|]. destruct Hor as [?|(x & Hx & ?)]; [by left|right]. exists x. split; [|done]. unfold msg_event, TCP_connection_closed, TCP_fatal_error in *. set_solver. }
  change (0 <? 0) with false. cbn match. clear E1.
  assert (Hc2 : core (cur (at_pos (λ _ u ps, u = 19 ∧ ps = 19) 0)) p1).
  { eapply core_mono; [|exact Hc1]. intros (s & Hs & Hok & Hz & Hg & Hen & Hlo & Hps & HP). specialize (Hfull s Hs). unfold header_part, BGP_HEADER_SIZE in HP. rewrite HP in *.
    exists s. split; [done|]. split; [done|]. split; [done|]. split; [done|]. done. }
  destruct (ibuf_takes _ 16 _ _ 0 p1 (takes_forward 16 ltac:(lia)) Hc2) as ([] & s2 & E2 & Hc3 & _); [lia|done|].
  change (on_ibuf (λ s, Ok (tt, stream_forward BGP_MARKER_SIZE s))) with (on_ibuf (λ s, Ok (tt, stream_forward 16 s))). rewrite (st_bind_Ok _ _ _ _ _ E2). clear E2.
  destruct (ibuf_peek _ (0 + 16) 2 _ Hc3) as (ld & s3 & E3 & Hc4 & Hld1 & Hld2); [lia|done|]. rewrite (st_bind_Ok _ _ _ _ _ E3). clear E3.
  destruct (ibuf_takes _ 2 _ _ _ _ takes_getw Hc4) as (size & s4 & E4 & Hc5 & _); [lia|done|]. rewrite (st_bind_Ok _ _ _ _ _ E4). clear E4.
  destruct (ibuf_type _ _ _ Hc5) as (type & s5 & E5 & Hc6 & Ht); [lia|done|]. rewrite (st_bind_Ok _ _ _ _ _ E5). clear E5.
  destruct (ibuf_takes _ 0 _ _ _ _ takes_all_one Hc6) as (all_one & s6 & E6 & Hc7 & _); [lia|done|]. rewrite (st_bind_Ok _ _ _ _ _ E6). clear E6.
  cbn zeta. set (q := with_ibuf (Some s6) _) in *. assert (Hstq : started q) by exact Hst1. assert (Hl : core loose q) by (by eapply core_cur).
  destruct ((type =? BGP_MSG_OPEN) && negb all_one).
  { destruct (refuse_run false BGP_NOTIFY_HEADER_ERR BGP_NOTIFY_HEADER_NOT_SYNC [] q Hl Hstq) as (p' & E' & Hd); [by notify_fine|].
    exists false, p'. split; [exact E'|]. clear E'. right. split; [done|by apply down_stop]. }
  destruct (known_type type) eqn:Hk; cbn [negb].
  2: { destruct (refuse_run false BGP_NOTIFY_HEADER_ERR BGP_NOTIFY_HEADER_BAD_MESTYPE [type] q Hl Hstq) as (p' & E' & Hd); [by notify_fine|].
    exists false, p'. split; [exact E'|]. clear E'. right. split; [done|by apply down_stop]. }
  destruct (bad_length type size) eqn:Hb.
  { destruct (refuse_run false BGP_NOTIFY_HEADER_ERR BGP_NOTIFY_HEADER_BAD_MESLEN ld q Hl Hstq) as (p' & E' & Hd); [by notify_fine|].
    exists false, p'. split; [exact E'|]. clear E'. right. split; [done|by apply down_stop]. }
  exists true, (with_packet_size size q). split; [done|]. left. split; [done|]. split; [|split; [done|]; split; [done|]; intros Hf; by destruct (Hf1 Hf)].
  eapply core_psize; [exact Hc7|]. pose proof (co_ibuf _ _ _ Hc7) as (s & Hs & Hok & Hz & Hg & Hen & [Hu Hps] & Ht18). exists s. split; [done|]. split; [done|]. split; [done|].
  unfold bad_length in Hb. rewrite !orb_false_iff, !Z.ltb_ge in Hb. unfold BGP_HEADER_SIZE in Hb.
  split; [rewrite Hg; lia|]. split; [done|]. split; [lia|]. split; [lia|]. apply good_take. exists type. split; [done|]. split; [done|].
  unfold bad_length. rewrite !orb_false_iff, !Z.ltb_ge. done.
Qed.

(** A message is complete. *)
Definition complete (size : Z) : list Z → Z → Z → Prop := λ _ _ _, 0 ≤ size ≤ 4077.

Lemma stop_events (p p' : peer) :
  p_events p' = [] ∧ (fits p → fits p') ∨ (∃ x, (x = TCP_connection_closed ∨ x = TCP_fatal_error) ∧ p_events p' = [x]) →
  p_events p' = [] ∧ (fits p → fits p') ∨ ∃ x, msg_event x ∧ p_events p' = [x].
Proof. intros [?|(x & Hx & ?)]; [by left|right]. exists x. split; [|done]. unfold msg_event, TCP_connection_closed, TCP_fatal_error in *. set_solver. Qed.

Lemma body_run call p :
  rcall_ok call → core (cur (filling 19 19 good)) p → started p → p_events p = [] →
  ∃ m p', (ret ← bgp_read_packet call;
      if ret <? 0 then mret None
      else type ← on_ibuf (λ s, t ← stream_getc_from (BGP_MARKER_SIZE + 2) s; Ok (t, s)); p ← st_get; mret (Some (type, u16 (p_packet_size p - BGP_HEADER_SIZE)))) p = Ok (m, p') ∧
    (m = None ∧ read_stop p p' ∨
     ∃ t size, m = Some (t, size) ∧ core (cur (at_pos (complete size) 19)) p' ∧ started p' ∧ p_events p' = [] ∧ (fits p → fits p') ∧ bad_length t (size + 19) = false).
Proof.
  intros Hcall Hc Hst He. destruct (read_packet_run call 19 19 good p Hcall Hc Hst He) as (ret & p1 & E1 & Hc1 & [Hst1 Hz1 Hs1] & Hor).
  rewrite (st_bind_Ok _ _ _ _ _ E1). clear E1. destruct Hor as [(-> & Hfull & He1 & Hf1)|(-> & Hu & Hor)].
  2: { exists None, p1. split; [done|]. left. split; [done|]. split; [by apply body_in_ok|done|by apply stop_events]. }
  change (0 <? 0) with false. cbn match. pose proof (co_ibuf _ _ _ Hc1) as (s & Hs & Hok & Hz & Hg & Hen & Hlo & Hps & Hgood). apply (proj1 (good_take _ _)) in Hgood as (t & Ht & Hk & Hb).
  assert (Hb' := Hb). unfold bad_length in Hb'. rewrite !orb_false_iff, !Z.ltb_ge in Hb'. unfold BGP_HEADER_SIZE, BGP_MAX_PACKET_SIZE in Hb'.
  assert (Hget : stream_getc_from (BGP_MARKER_SIZE + 2) s = Ok t).
  { unfold stream_getc_from. change (BGP_MARKER_SIZE + 2) with 18. apply get_byte_Ok. split; [lia|]. done. }
  assert (Hkeep : with_ibuf (Some s) p1 = p1) by (rewrite <- Hs; by destruct p1).
  rewrite (st_bind_Ok _ _ _ t p1) by (unfold on_ibuf; rewrite Hs; cbn [of_option mbind res_bind]; rewrite Hget; cbn [mbind res_bind fst snd]; by rewrite Hkeep).
  rewrite (st_bind_Ok _ _ _ p1 p1) by done. rewrite u16_id by (unfold is_u16, BGP_HEADER_SIZE; lia). unfold BGP_HEADER_SIZE.
  eexists _, p1. split; [reflexivity|]. right. eexists _, _. split; [reflexivity|]. split.
  { eapply core_mono; [|exact Hc1]. intros _. exists s. split; [done|]. split; [done|]. split; [done|]. split; [done|]. split; [done|]. unfold complete. lia. }
  rewrite Z.sub_add. done.
Qed.

Lemma read_message_run header body p :
  rcall_ok header → rcall_ok body → core (in_ok good) p → started p → p_events p = [] →
  ∃ m p', read_message e header body p = Ok (m, p') ∧
    (m = None ∧ read_stop p p' ∨
     ∃ t size, m = Some (t, size) ∧ core (cur (at_pos (complete size) 19)) p' ∧ started p' ∧ p_events p' = [] ∧ (fits p → fits p') ∧ bad_length t (size + 19) = false).
Proof.
  intros Hh Hb Hc Hst He. unfold read_message. rewrite (st_bind_Ok _ _ _ tt (if p_packet_size p =? 0 then with_packet_size BGP_HEADER_SIZE p else p)) by done.
  set (q := if p_packet_size p =? 0 then _ else _). assert (Hq : started q ∧ p_events q = [] ∧ p_ibuf q = p_ibuf p ∧ (fits p → fits q)).
  { unfold q. destruct (_ =? _); [|done]. split; [done|]. split; [done|]. split; [done|]. by intros []. }
  destruct Hq as (Hstq & Heq & Hiq & Hfq). rewrite (st_bind_Ok _ _ _ q q) by done.
  pose proof (co_ibuf _ _ _ Hc) as Hin. destruct (p_ibuf p) as [s|] eqn:Hs; [|done]. cbn in Hin. destruct Hin as (Hok & Hz & Hen & Hin).
  rewrite (st_bind_Ok _ _ _ s q) by (by rewrite Hiq). unfold BGP_HEADER_SIZE, BGP_MAX_PACKET_SIZE in *. pose proof (ok_putp _ Hok) as Hput.
  destruct (Z.ltb_spec (s_putp s) 19) as [Hlt|Hge].
  - assert (Hcq : core (cur (filling 0 0 header_part)) q).
    { assert (p_packet_size p = 0 ∨ p_packet_size p = 19) as Hps by lia.
      assert (cur (filling 0 0 header_part) (Some s) 19) as Hcur.
      { exists s. split; [done|]. split; [done|]. split; [done|]. split; [lia|]. split; [done|]. split; [lia|]. split; [unfold BGP_MAX_PACKET_SIZE; lia|]. done. }
      unfold q. destruct (Z.eqb_spec (p_packet_size p) 0) as [E0|E0]; [eapply core_psize; [exact Hc|]; by rewrite Hs|].
      eapply core_mono; [|exact Hc]. intros _. rewrite Hs. by assert (p_packet_size p = 19) as -> by lia. }
    destruct (read_header_run header q Hh Hcq Hstq Heq) as (b & p1 & E1 & Hor). rewrite (st_bind_Ok _ _ _ _ _ E1). clear E1.
    destruct Hor as [(-> & Hc1 & Hst1 & He1 & Hf1)|[-> Hstop]]; cbn [negb].
    + destruct (body_run body p1 Hb Hc1 Hst1 He1) as (m & p2 & E2 & Hor). exists m, p2. split; [exact E2|]. clear E2.
      destruct Hor as [[Hm [Hsc Hss Hse]]|(t & size & Hm & ? & ? & ? & ? & ?)]; [left|right; exists t, size; naive_solver].
      split; [done|]. split; [done|done|]. destruct Hse as [[? ?]|?]; [left; naive_solver|by right].
    + exists None, p1. split; [done|]. left. split; [done|]. destruct Hstop as [? ? Hse]. split; [done|done|]. destruct Hse as [[? ?]|?]; [left; naive_solver|by right].
  - assert (q = p) as -> by (unfold q; destruct (Z.eqb_spec (p_packet_size p) 0) as [E0|E0]; [lia|done]).
    rewrite (st_bind_Ok _ _ _ true p) by done. cbn [negb]. apply body_run; [done| |done|done]. eapply core_mono; [|exact Hc]. intros _. rewrite Hs. exists s.
    destruct Hin as [?|[?|(? & ? & ? & ?)]]; [lia|lia|]. split; [done|]. split; [done|]. split; [done|]. split; [done|]. split; [done|]. split; [lia|]. split; [unfold BGP_MAX_PACKET_SIZE; lia|].
    by apply good_take.
Qed.

End reading.
