(* ===== verification/BgpSessionSteps.v ===== *)
(** The BGP session of a configured peer: its messages, and the steps of a session. *)

From S2P Require Import Prelude Prefix Stream StreamCalc BgpAttr BgpFsm BgpSession BgpFsmFacts BgpFsmRun BgpSessionRun.

(** * Reading, for one peer *)

Section one_peer.
Context `{Speaker} `{Receiver} (e : env).

(** bgp_open_receive for a configured peer; [collision] is what bgp_collision_detect returns. *)
Definition peer_open_receive (collision : Z) : ST peer Z :=
  version ← on_ibuf stream_getc;
  as_data ← on_ibuf (peek 2);
  remote_as ← on_ibuf stream_getw;
  holdtime ← on_ibuf stream_getw;
  remote_id ← on_ibuf stream_get_ipv4;
  if collision <? 0 then mret collision else open_check e version remote_as holdtime as_data remote_id.

Definition peer_message (collision type size : Z) : ST peer unit :=
  if type =? BGP_MSG_OPEN then peer_open_receive collision;; mret tt
  else if type =? BGP_MSG_NOTIFY then bgp_notify_receive size
  else if type =? BGP_MSG_KEEPALIVE then bgp_keepalive_receive
  else other_receive e type size.

Definition peer_reset : ST peer unit := modify (with_packet_size 0);; modify (λ p, with_ibuf (stream_reset <$> p_ibuf p) p).

Definition peer_read (collision : Z) (sockerr : option Z) (header body : rcall) : ST peer Z :=
  BGP_READ_OFF;;
  p ← st_get;
  if p_status p =? Connect then bgp_connect_check sockerr;; mret 0
  else if p_fd p <? 0 then mret (-1)
  else
    BGP_READ_ON (p_fd p);;
    m ← read_message e header body;
    match m with
    | None => mret 0
    | Some (type, size) => peer_message collision type size;; peer_reset;; mret 0
    end.

End one_peer.

(** * The functions for messages *)

Record handled (p p' : peer) : Prop := Handled {
  ha_core : core loose p';
  ha_started : started p';
  ha_events : p_events p' = [] ∧ (fits p → fits p') ∨ ∃ x, msg_event x ∧ p_events p' = [x];
}.

Lemma down_handled p p' : down good p' → handled p p'.
Proof. intros [Hc _ ? ? ? _]. split; [|done|by left]. eapply core_mono; [|exact Hc]. apply in_ok_loose. Qed.

Lemma core_nego inp n p : core inp p → core inp (with_nego n p).
Proof. by intros []. Qed.
Lemma core_times inp h k p : core inp p → core inp (with_v_keepalive k (with_v_holdtime h p)).
Proof. by intros []. Qed.
Lemma core_events inp l p : core inp p → core inp (with_events l p).
Proof. by intros []. Qed.

Lemma core_reset p : core loose p → core (in_ok good) (with_ibuf (stream_reset <$> p_ibuf p) (with_packet_size 0 p)).
Proof. intros []. split; try done. by eapply reset_in_ok. Qed.

Lemma open_msg : msg_event Receive_OPEN_message.
Proof. unfold msg_event, Receive_OPEN_message. set_solver. Qed.

Section messages.
Context `{SpeakerLaws} `{ReceiverLaws} (e : env).

(** The end of an OPEN message that is accepted. *)
Lemma open_end p :
  core loose p → started p → p_events p = [] →
  ∃ p', (BGP_EVENT_ADD Receive_OPEN_message;; modify (with_packet_size 0);; modify (λ p, with_ibuf (stream_reset <$> p_ibuf p) p);; mret 0) p = Ok (0, p') ∧
    core loose p' ∧ started p' ∧ p_events p' = [Receive_OPEN_message].
Proof.
  intros Hc Hst He. eexists. split; [reflexivity|]. split; [|split; [done|]; cbn; by rewrite He].
  apply core_loose with (good := good). exact (core_reset (with_events (p_events p ++ [Receive_OPEN_message]) p) (core_events _ _ _ Hc)).
Qed.

Lemma open_check_run version remote_as holdtime as_data remote_id size p :
  core (cur (at_pos (complete size) 28)) p → started p → p_events p = [] →
  bytes_ok as_data → Z.of_nat (length as_data) = 2 → bytes_ok remote_id → Z.of_nat (length remote_id) = 4 →
  ∃ r p', open_check e version remote_as holdtime as_data remote_id p = Ok (r, p') ∧ handled p p'.
Proof.
  intros Hc Hst He Ha1 Ha2 Hr1 Hr2. unfold open_check. cbn zeta. rewrite (st_bind_Ok _ _ _ p p) by done.
  assert (Hrefuse : ∀ q sub_code data, core loose q → started q → notify_ok BGP_NOTIFY_OPEN_ERR sub_code data →
    ∃ r p', (bgp_notify_send_with_data (e_writes e) BGP_NOTIFY_OPEN_ERR sub_code data;; mret (-1)) q = Ok (r, p') ∧ handled p p').
  { intros q sub_code data Hl Hq Hn. destruct (refuse_run e (-1) BGP_NOTIFY_OPEN_ERR sub_code data q Hl Hq Hn) as (p' & E & Hd). exists (-1), p'. split; [exact E|]. clear E. by apply down_handled. }
  destruct (_ || _ || _); [apply Hrefuse; [by eapply core_cur|done|notify_fine]|].
  rewrite (st_bind_Ok _ _ _ tt (with_nego (set_remote_id remote_id (p_nego p)) p)) by done. set (q := with_nego _ p).
  assert (Hcq : core (cur (at_pos (complete size) 28)) q) by (by apply core_nego).
  destruct (negb (version =? BGP_VERSION_4)); [apply Hrefuse; [by eapply core_cur|done|notify_fine]|].
  destruct (negb (remote_as =? c_as (p_conf p))); [apply Hrefuse; [by eapply core_cur|done|notify_fine]|].
  destruct ((holdtime <? 3) && _); [apply Hrefuse; [by eapply core_cur|done|notify_fine]|].
  set (h := if holdtime <? send_holdtime q then holdtime else send_holdtime q). rewrite (st_bind_Ok _ _ _ tt (with_v_keepalive (h / 3) (with_v_holdtime h q))) by done.
  set (q2 := with_v_keepalive _ _). assert (Hc2 : core (cur (at_pos (complete size) 28)) q2) by (by apply core_times).
  destruct (ibuf_takes _ 1 _ _ _ _ takes_getc Hc2) as (optlen & s3 & E3 & Hc3 & Hopt); [lia|done|]. rewrite (st_bind_Ok _ _ _ _ _ E3). clear E3. set (q3 := with_ibuf _ q2) in *.
  assert (Hst3 : started q3) by exact Hst. assert (He3 : p_events q3 = []) by exact He. clearbody q3.
  assert (Hend : ∀ capability q, core loose q → started q → p_events q = [] → ∃ r p', (p ← st_get;
      (if negb capability || has_flag PEER_FLAG_OVERRIDE_CAPABILITY p then modify (λ p, with_nego (override_capability p (p_nego p)) p) else mret tt);;
      BGP_EVENT_ADD Receive_OPEN_message;; modify (with_packet_size 0);; modify (λ p, with_ibuf (stream_reset <$> p_ibuf p) p);; mret 0) q = Ok (r, p') ∧ handled p p').
  { intros capability q' Hc' Hst' He'. rewrite (st_bind_Ok _ _ _ q' q') by done.
    destruct (negb capability || _).
    - rewrite (st_bind_Ok _ _ _ tt (with_nego (override_capability q' (p_nego q')) q')) by done.
      destruct (open_end (with_nego (override_capability q' (p_nego q')) q')) as (p' & E' & ? & ? & ?); [by apply core_nego|done|done|].
      exists 0, p'. split; [exact E'|]. clear E'. split; [done|done|]. right. exists Receive_OPEN_message. split; [exact open_msg|done].
    - rewrite (st_bind_Ok _ _ _ tt q') by done. destruct (open_end q' Hc' Hst' He') as (p' & E' & ? & ? & ?).
      exists 0, p'. split; [exact E'|]. clear E'. split; [done|done|]. right. exists Receive_OPEN_message. split; [exact open_msg|done]. }
  destruct (optlen =? 0); cbn [negb].
  { rewrite (st_bind_Ok _ _ _ (Some false) q3) by done. apply Hend; [by eapply core_cur|done|done]. }
  rewrite assoc_step, (st_bind_Ok _ _ _ q3 q3) by done.
  destruct (option_parse_ok optlen q3) as (opts & Hopts & Hoptok).
  rewrite assoc_step, (st_bind_Ok _ _ _ opts q3) by (unfold st_lift; by rewrite Hopts).
  destruct opts as [code sub_code data|capability n].
  - destruct (refuse_run e (@None bool) code sub_code data q3) as (p' & E & Hd); [by eapply core_cur|done|by apply Hoptok|].
    rewrite (st_bind_Ok _ _ _ _ _ E). clear E. exists (-1), p'. split; [reflexivity|by apply down_handled].
  - rewrite assoc_step, (st_bind_Ok _ _ _ tt (with_nego n q3)) by done. unfold is_u8 in Hopt.
    destruct (ibuf_takes _ optlen _ _ _ (with_nego n q3) (takes_forward optlen ltac:(lia)) (core_nego _ n _ Hc3)) as ([] & s4 & E4 & Hc4 & _); [lia|unfold BGP_MAX_PACKET_SIZE; lia|].
    rewrite assoc_step, (st_bind_Ok _ _ _ _ _ E4). clear E4. rewrite (st_bind_Ok _ _ _ (Some capability) (with_ibuf (Some s4) (with_nego n q3))) by done.
    apply Hend; [by eapply core_cur|done|done].
Qed.

Lemma open_receive_run collision size p :
  core (cur (at_pos (complete size) 19)) p → started p → p_events p = [] →
  ∃ r p', peer_open_receive e collision p = Ok (r, p') ∧ handled p p'.
Proof.
  intros Hc Hst He. unfold peer_open_receive.
  destruct (ibuf_takes _ 1 _ _ _ _ takes_getc Hc) as (version & s1 & E1 & Hc1 & _); [lia|done|]. rewrite (st_bind_Ok _ _ _ _ _ E1). clear E1.
  destruct (ibuf_peek _ _ 2 _ Hc1) as (as_data & s2 & E2 & Hc2 & Ha1 & Ha2); [lia|done|]. rewrite (st_bind_Ok _ _ _ _ _ E2). clear E2.
  destruct (ibuf_takes _ 2 _ _ _ _ takes_getw Hc2) as (remote_as & s3 & E3 & Hc3 & _); [lia|done|]. rewrite (st_bind_Ok _ _ _ _ _ E3). clear E3.
  destruct (ibuf_takes _ 2 _ _ _ _ takes_getw Hc3) as (holdtime & s4 & E4 & Hc4 & _); [lia|done|]. rewrite (st_bind_Ok _ _ _ _ _ E4). clear E4.
  destruct (ibuf_takes _ 4 _ _ _ _ takes_ipv4 Hc4) as (remote_id & s5 & E5 & Hc5 & Hr1 & Hr2); [lia|done|]. rewrite (st_bind_Ok _ _ _ _ _ E5). clear E5.
  set (q := with_ibuf (Some s5) _) in *. assert (Hf : fits p → fits q) by (by intros []).
  assert (Hstq : started q) by exact Hst. assert (Heq : p_events q = []) by exact He. clearbody q.
  destruct (collision <? 0); [exists collision, q; split; [done|]; split; [by eapply core_cur|done|by left]|].
  destruct (open_check_run version remote_as holdtime as_data remote_id size q Hc5 Hstq Heq Ha1 Ha2 Hr1 Hr2) as (r & p' & E & [? ? Hev]).
  exists r, p'. split; [exact E|]. clear E. split; [done|done|]. destruct Hev as [[? ?]|?]; [left; naive_solver|by right].
Qed.

Lemma wait_event_run x p :
  core loose p → started p → p_events p = [] → msg_event x → ∃ p', BGP_EVENT_ADD x p = Ok (tt, p') ∧ ∀ p0, handled p0 p'.
Proof.
  intros Hc Hst He Hx. eexists. split; [reflexivity|]. intros p0. split; [by apply core_events|done|]. right. exists x. split; [done|]. cbn. by rewrite He.
Qed.

Lemma notify_receive_run size p :
  core (cur (at_pos (complete size) 19)) p → started p → p_events p = [] → 2 ≤ size ≤ 4077 →
  ∃ p', bgp_notify_receive size p = Ok (tt, p') ∧ handled p p'.
Proof.
  intros Hc Hst He Hsz. unfold bgp_notify_receive.
  destruct (ibuf_takes _ 1 _ _ _ _ takes_getc Hc) as (code & s1 & E1 & Hc1 & _); [lia|done|]. rewrite (st_bind_Ok _ _ _ _ _ E1). clear E1.
  destruct (ibuf_takes _ 1 _ _ _ _ takes_getc Hc1) as (subcode & s2 & E2 & Hc2 & _); [lia|done|]. rewrite (st_bind_Ok _ _ _ _ _ E2). clear E2.
  rewrite s32_id by (unfold is_s32; lia).
  destruct (ibuf_peek _ _ (size - 2) _ Hc2) as (data & s3 & E3 & Hc3 & _); [lia|unfold BGP_MAX_PACKET_SIZE; lia|]. rewrite (st_bind_Ok _ _ _ _ _ E3). clear E3.
  set (q := with_ibuf (Some s3) _) in *. assert (Hstq : started q) by exact Hst. assert (Heq : p_events q = []) by exact He. clearbody q.
  rewrite (st_bind_Ok _ _ _ q q) by done. set (b := _ && _).
  assert (calm ((if p_status q =? Established then modify (with_last_reset PEER_DOWN_NOTIFY_RECEIVED) else mret tt);;
    (if b then unset_sflag PEER_STATUS_CAPABILITY_OPEN else mret tt))) as Hm.
  { apply calm_bind; [apply calm_if; [apply calm_last_reset|apply calm_ret]|]. apply calm_if; [by apply calm_unset_sflag|apply calm_ret]. }
  destruct (core_calm _ _ q Hm Hc3 Hstq) as (q1 & E1 & Hcq1 & Hq). rewrite <- assoc_step, (st_bind_Ok _ _ _ _ _ E1). clear E1.
  destruct (wait_event_run Receive_NOTIFICATION_message q1) as (p' & E & Hh); [by eapply core_cur|exact (eq_trans (qu_init _ _ Hq) Hstq)|exact (eq_trans (qu_events _ _ Hq) Heq)|unfold msg_event, Receive_NOTIFICATION_message; set_solver|].
  exists p'. split; [exact E|apply Hh].
Qed.

Lemma other_receive_run type size p :
  core loose p → started p → p_events p = [] → ∃ p', other_receive e type size p = Ok (tt, p') ∧ handled p p'.
Proof.
  intros Hc Hst He. unfold other_receive. rewrite (st_bind_Ok _ _ _ p p) by done.
  destruct (receive_other_ok type size p) as (r & Er & Hr). rewrite (st_bind_Ok _ _ _ r p) by (unfold st_lift; by rewrite Er).
  destruct r as [| | |code sub_code data].
  - exists p. split; [done|]. split; [done|done|by left].
  - destruct (wait_event_run Receive_UPDATE_message p Hc Hst He) as (p' & E & Hh); [unfold msg_event, Receive_UPDATE_message; set_solver|]. by exists p'.
  - destruct (wait_event_run BGP_Stop p Hc Hst He) as (p' & E & Hh); [unfold msg_event, BGP_Stop; set_solver|]. by exists p'.
  - destruct (Hr _ _ _ eq_refl) as (H1' & H2' & H3' & H4').
    destruct (notify_run good (e_writes e) code sub_code data p Hc Hst H1' H2' H3' H4') as (p' & E & Hd). exists p'. split; [exact E|]. clear E. by apply down_handled.
Qed.

Lemma message_run collision type size p :
  core (cur (at_pos (complete size) 19)) p → started p → p_events p = [] → bad_length type (size + 19) = false →
  ∃ p', peer_message e collision type size p = Ok (tt, p') ∧ handled p p'.
Proof.
  intros Hc Hst He Hb. unfold peer_message. destruct (co_ibuf _ _ _ Hc) as (s & _ & _ & _ & _ & _ & Hsz). unfold complete in Hsz.
  destruct (Z.eqb_spec type BGP_MSG_OPEN) as [E1|E1].
  { destruct (open_receive_run collision size p Hc Hst He) as (r & p' & E & Hh). exists p'. rewrite (st_bind_Ok _ _ _ _ _ E). clear E. by split. }
  destruct (Z.eqb_spec type BGP_MSG_NOTIFY) as [E2|E2].
  { apply notify_receive_run; [done|done|done|]. subst type. unfold bad_length in Hb. rewrite !orb_false_iff in Hb. destruct Hb as [[[[[[[[_ _] _] _] Hb] _] _] _] _].
    rewrite andb_false_iff in Hb. destruct Hb as [Hb|Hb]; [done|]. apply Z.ltb_ge in Hb. unfold BGP_MSG_NOTIFY_MIN_SIZE, BGP_HEADER_SIZE in Hb. lia. }
  destruct (Z.eqb_spec type BGP_MSG_KEEPALIVE) as [E3|E3].
  { destruct (wait_event_run Receive_KEEPALIVE_message p) as (p' & E & Hh); [by eapply core_cur|done|done|unfold msg_event, Receive_KEEPALIVE_message; set_solver|]. by exists p'. }
  apply other_receive_run; [by eapply core_cur|done|done].
Qed.

(** ** A connection that is being made *)

Record ready (p : peer) : Prop := Ready {
  rd_core : core (in_ok good) p;
  rd_queue : queue_ok p;
  rd_fit : to_fit p;
  rd_started : started p;
}.

Lemma connect_check_run sockerr p :
  core (in_ok good) p → started p → p_events p = [] → fits p → p_status p = Connect →
  ∃ p', bgp_connect_check sockerr p = Ok (tt, p') ∧ ready p'.
Proof.
  intros Hc Hst He Hf Hs. unfold bgp_connect_check.
  assert (∀ x, x = TCP_fatal_error ∨ x = TCP_connection_open ∨ x = TCP_connection_open_failed →
    ready (with_events (p_events p ++ [x]) (with_write None (with_read None p)))) as Hr.
  { intros x Hx. rewrite He. split; [|  |left; by destruct Hf|done].
    - destruct Hc as [? ? ? Hi]. split; try done. intros Hini. by destruct (Hi Hini).
    - unfold queue_ok. cbn. rewrite Hs. destruct Hx as [-> |[-> | ->]]; [left|left|by right]; apply Forall_singleton; done. }
  destruct sockerr as [st|]; (eexists; split; [reflexivity|]; apply Hr); [|by left]. destruct (st =? 0); auto.
Qed.

Lemma msg_waits p x : msg_event x → waits_ok p x ∧ x ≠ TCP_connection_open.
Proof.
  unfold msg_event. rewrite !elem_of_cons, elem_of_nil. unfold waits_ok, TCP_connection_open_failed, ConnectRetry_timer_expired, BGP_Start, TCP_connection_open. lia.
Qed.

Lemma ready_of p0 p : fits p0 → core (in_ok good) p → started p → (p_events p = [] ∧ (fits p0 → fits p) ∨ ∃ x, msg_event x ∧ p_events p = [x]) → ready p.
Proof.
  intros Hf Hc Hst [[He Hf']|(x & Hx & He)].
  - split; [done| |left; auto|done]. left. rewrite He. constructor.
  - destruct (msg_waits p x Hx). split; [done| | |done]; [left|right]; rewrite He; [by apply Forall_singleton|]. split; [done|]. by rewrite list_elem_of_singleton.
Qed.

Lemma peer_read_run collision sockerr header body p :
  rcall_ok header → rcall_ok body → core (in_ok good) p → started p → p_events p = [] → fits p →
  ∃ r p', peer_read e collision sockerr header body p = Ok (r, p') ∧ ready p'.
Proof.
  intros Hh Hb Hc Hst He Hf. unfold peer_read. rewrite (st_bind_Ok _ _ _ tt (with_read None p)) by done. set (q := with_read None p). rewrite (st_bind_Ok _ _ _ q q) by done.
  assert (Hcq : core (in_ok good) q) by (destruct Hc as [? ? ? Hi]; split; try done; intros Hini; by destruct (Hi Hini) as (? & ? & ?)).
  assert (Hfq : fits q) by (by destruct Hf). assert (Hstq : started q) by exact Hst. assert (Heq : p_events q = []) by exact He. clearbody q. clear p Hc Hst He Hf.
  destruct (Z.eqb_spec (p_status q) Connect) as [Es|Es].
  { destruct (connect_check_run sockerr q Hcq Hstq Heq Hfq Es) as (p' & E & Hr). exists 0, p'. by rewrite (st_bind_Ok _ _ _ _ _ E). }
  destruct (p_fd q <? 0). { exists (-1), q. split; [done|]. apply (ready_of q); auto. }
  rewrite (st_bind_Ok _ _ _ tt (with_read (Some (default (p_fd q) (p_read q))) q)) by done. set (q1 := with_read _ q).
  assert (Hc1 : core (in_ok good) q1) by (destruct Hcq as [? ? ? Hi]; split; try done; intros Hini; exact (False_ind _ (diff_false_true (eq_trans (eq_sym Hstq) Hini)))).
  assert (Hf1 : fits q1) by (by destruct Hfq). assert (Hst1 : started q1) by exact Hstq. assert (He1 : p_events q1 = []) by exact Heq. clearbody q1. clear q Hcq Hfq Hstq Heq Es.
  destruct (read_message_run e header body q1 Hh Hb Hc1 Hst1 He1) as (m & p2 & E2 & Hor). rewrite (st_bind_Ok _ _ _ _ _ E2). clear E2.
  destruct Hor as [[-> [Hc2 Hst2 He2]]|(t & size & -> & Hc2 & Hst2 & He2 & Hf2 & Hbad)].
  { exists 0, p2. split; [done|]. by apply (ready_of q1). }
  destruct (message_run collision t size p2 Hc2 Hst2 He2 Hbad) as (p3 & E3 & [Hc3 Hst3 He3]). rewrite (st_bind_Ok _ _ _ _ _ E3). clear E3.
  exists 0, (with_ibuf (stream_reset <$> p_ibuf p3) (with_packet_size 0 p3)). split; [done|]. apply (ready_of p2); [auto|by apply core_reset|done|].
  destruct He3 as [[? Hf3]|?]; [left|by right]. split; [done|]. intros Hf2'. by destruct (Hf3 Hf2').
Qed.

End messages.

(** * Writing *)

Section writing.
Context `{SpeakerLaws} (e : env).

Lemma forward_ok n s : pkt_ok s → 0 ≤ n ≤ s_endp s - s_getp s → pkt_ok (stream_forward n s).
Proof.
  intros (Hok & H1' & H2' & H3') Hn. pose proof Hok as [H4 H5 H6 H7 H8 H9]. unfold BGP_MAX_PACKET_SIZE in *. unfold stream_forward. rewrite u64_id by (unfold is_u64; lia).
  split; [apply getp_ok; [done|lia]|]. cbn. split; [done|]. split; [lia|done].
Qed.

Lemma write_packet_run updates p :
  coreb (in_ok good) (p_status p =? Established) p → started p → Forall pkt_ok updates →
  ∃ o updates' p', bgp_write_packet updates p = Ok ((o, updates'), p') ∧ Forall pkt_ok updates' ∧ core (in_ok good) p' ∧ quiet p p' ∧ (fits p → fits p') ∧
    match o with None => True | Some s => ∃ l, p_obuf p' = s :: l end.
Proof.
  intros Hc Hst Hu. unfold bgp_write_packet. rewrite (st_bind_Ok _ _ _ p p) by done. destruct (p_obuf p) as [|s l] eqn:Eo.
  - destruct updates as [|s updates]; [by exists None, [], p|]. apply Forall_cons in Hu as [Hs Hu].
    exists (Some s), updates, (with_obuf (p_obuf p ++ [s]) p). split; [done|]. split; [done|]. split; [apply core_obuf; [done|rewrite Eo; by apply Forall_singleton]|].
    split; [done|]. split; [by intros []|]. exists []. cbn. by rewrite Eo.
  - exists (Some s), updates, p. split; [done|]. split; [done|]. split; [done|]. split; [done|]. split; [done|]. by exists l.
Qed.

(** The end of a session in bgp_write. *)
Lemma write_error p : core (in_ok good) p → started p → ∃ p', (bgp_stop;; modify (with_status Idle);; bgp_timer_set;; mret false) p = Ok (false, p') ∧ down good p'.
Proof.
  intros Hc Hst. destruct (stop_mid good p (core_loose good p Hc) Hst) as (p1 & E1 & Hc1 & Hs1 & _ & Hi1 & He1 & Hfd1). rewrite (st_bind_Ok _ _ _ _ _ E1). clear E1.
  rewrite (st_bind_Ok _ _ _ tt (with_status Idle p1)) by done.
  destruct (timer_set_down good (with_status Idle p1)) as (p2 & E2 & Hd); [apply core_change; [done|done|states; lia|done]|done|done|done|done|].
  rewrite (st_bind_Ok _ _ _ _ _ E2). by exists p2.
Qed.

Lemma write_notified p : core (in_ok good) p → started p → ∃ p', (bgp_stop_with_error;; bgp_fsm_change_status Idle;; bgp_timer_set;; mret false) p = Ok (false, p') ∧ down good p'.
Proof.
  intros Hc Hst. destruct (stop_error_mid good p (core_loose good p Hc) Hst) as (p1 & E1 & Hc1 & Hs1 & Hi1 & He1 & Hfd1). rewrite (st_bind_Ok _ _ _ _ _ E1). clear E1.
  destruct (change_status_run _ p1 Idle Hc1 Hs1) as (p2 & E2 & Hc2 & Hs2 & Hi2 & He2 & Hfd2); [states; lia|done|]. rewrite (st_bind_Ok _ _ _ _ _ E2). clear E2.
  destruct (timer_set_down good p2) as (p3 & E3 & Hd); [done|done|by unfold same_init in Hi2; rewrite Hi2|congruence|lia|]. rewrite (st_bind_Ok _ _ _ _ _ E3). by exists p3.
Qed.

Record kept (p p' : peer) : Prop := Kept {
  ke_core : core (in_ok good) p';
  ke_started : started p';
  ke_events : p_events p' = [];
  ke_fits : fits p → fits p';
}.

Lemma down_kept p p' : down good p' → kept p p'.
Proof. intros [? _ ? ? ? _]. by split. Qed.
Lemma session_kept_trans p1 p2 p3 : kept p1 p2 → kept p2 p3 → kept p1 p3.
Proof. intros [] []. split; auto. Qed.

Lemma write_loop_run calls : ∀ updates count p,
  core (in_ok good) p → started p → p_events p = [] → Forall pkt_ok updates →
  ∃ b p', write_loop calls updates count p = Ok (b, p') ∧ kept p p'.
Proof.
  induction calls as [|call calls IH]; intros updates count p Hc Hst He Hu; cbn [write_loop];
    destruct (write_packet_run updates p Hc Hst Hu) as (o & updates' & p1 & E1 & Hu1 & Hc1 & Hq1 & Hf1 & Ho); rewrite (st_bind_Ok _ _ _ _ _ E1); clear E1; cbn match;
    (assert (Hst1 : started p1) by exact (eq_trans (qu_init _ _ Hq1) Hst)); (assert (He1 : p_events p1 = []) by exact (eq_trans (qu_events _ _ Hq1) He)).
  { destruct o as [s|]; (eexists _, p1; split; [reflexivity|by split]). }
  destruct o as [s|]; [|exists false, p1; split; [done|by split]]. destruct Ho as [l Ho]. cbn zeta.
  rewrite (st_bind_Ok _ _ _ p1 p1) by done. pose proof (co_obuf _ _ _ Hc1) as Hobuf. rewrite Ho in Hobuf. apply Forall_cons in Hobuf as [Hs Hl].
  pose proof Hs as (Hok & Hs1 & Hs2 & Hs3). pose proof Hok as [H4 H5 H6 H7 H8 H9]. unfold stream_get_endp, stream_get_getp.
  unfold BGP_MAX_PACKET_SIZE in *. rewrite s32_id by (unfold is_s32; lia). set (num := Z.min _ _).
  destruct (Z.leb_spec num 0) as [Hn|Hn].
  { destruct (wc_again call); [exists true, p1; split; [done|by split]|]. destruct (write_error p1 Hc1 Hst1) as (p2 & E2 & Hd). exists false, p2. split; [exact E2|]. by apply down_kept. }
  rewrite get_bytes_in by lia. rewrite (st_bind_Ok _ _ _ (take (Z.to_nat num) (drop (Z.to_nat (s_getp s)) (s_data s))) p1) by done. set (bs := take _ _).
  rewrite (st_bind_Ok _ _ _ tt (with_acts (p_acts p1 ++ [AWrite (p_fd p1) bs]) p1)) by done. set (p2 := with_acts _ p1).
  assert (Hc2 : core (in_ok good) p2) by (destruct Hc1 as [? ? Hr]; split; try done; cbn; by rewrite routes_up_snoc).
  assert (Hf2 : fits p → fits p2) by (intros Hf; by destruct (Hf1 Hf)). assert (Ho2 : p_obuf p2 = s :: l) by exact Ho. assert (Hst2 : started p2) by exact Hst1. assert (He2 : p_events p2 = []) by exact He1.
  clearbody p2. clear p1 Hc1 Hq1 Hf1 Ho Hst1 He1. destruct (Z.eqb_spec num (s_endp s - s_getp s)) as [Efull|Efull]; cbn [negb].
  - destruct (get_byte_in (s_data s) 18) as (t & Ht & _); [unfold BGP_HEADER_SIZE in Hs1; lia|]. rewrite (st_bind_Ok _ _ _ t p2) by (unfold stream_getc_from; change (BGP_MARKER_SIZE + 2) with 18; by rewrite Ht).
    destruct (t =? BGP_MSG_NOTIFY). { destruct (write_notified p2 Hc2 Hst2) as (p3 & E3 & Hd). exists false, p3. split; [exact E3|]. by apply down_kept. }
    rewrite (st_bind_Ok _ _ _ tt (with_obuf (tail (p_obuf p2)) p2)) by done. set (p3 := with_obuf _ p2).
    assert (kept p p3) as Hk by (split; [apply core_obuf; [done|by rewrite Ho2]|done|done|intros Hf; by destruct (Hf2 Hf)]). clearbody p3.
    destruct (_ <=? _); [by exists true, p3|]. destruct (IH updates' (count + 1) p3) as (b & p4 & E4 & Hk4); [apply Hk|apply Hk|apply Hk|done|].
    exists b, p4. split; [exact E4|by eapply session_kept_trans].
  - rewrite (st_bind_Ok _ _ _ tt (with_obuf (stream_forward num s :: tail (p_obuf p2)) p2)) by done. set (p3 := with_obuf _ p2).
    assert (kept p p3) as Hk by (split; [apply core_obuf; [done|rewrite Ho2; constructor; [apply forward_ok; [done|lia]|done]]|done|done|intros Hf; by destruct (Hf2 Hf)]). clearbody p3.
    destruct (wc_again call); [by exists true, p3|]. destruct (IH updates' count p3) as (b & p4 & E4 & Hk4); [apply Hk|apply Hk|apply Hk|done|].
    exists b, p4. split; [exact E4|by eapply session_kept_trans].
Qed.

Lemma kept_ready p p' : fits p → kept p p' → ready p'.
Proof. intros Hf [? ? He ?]. split; [done| |left; auto|done]. left. rewrite He. constructor. Qed.

Lemma write_run sockerr calls updates more p :
  core (in_ok good) p → started p → p_events p = [] → fits p → Forall pkt_ok updates →
  ∃ p', bgp_write sockerr calls updates more p = Ok (tt, p') ∧ ready p'.
Proof.
  intros Hc Hst He Hf Hu. unfold bgp_write. rewrite (st_bind_Ok _ _ _ tt (with_write None p)) by done. set (q := with_write None p). rewrite (st_bind_Ok _ _ _ q q) by done.
  assert (Hcq : core (in_ok good) q) by (by apply core_write_off). assert (Hfq : fits q) by (by destruct Hf).
  destruct (Z.eqb_spec (p_status q) Connect) as [Es|Es]; [by apply connect_check_run|].
  destruct (write_loop_run calls updates 0 q Hcq Hst He Hu) as (b & p1 & E1 & Hk). rewrite (st_bind_Ok _ _ _ _ _ E1). clear E1. destruct b.
  - rewrite (st_bind_Ok _ _ _ p1 p1) by done. destruct (_ || _).
    + exists (with_write (Some (default (p_fd p1) (p_write p1))) p1). split; [done|]. apply (kept_ready q); [done|]. destruct Hk as [Hc1 Hst1 He1 Hf1].
      split; [|done|done|intros Hf'; by destruct (Hf1 Hf')]. destruct Hc1 as [? ? ? Hi]. split; try done. intros Hini. exact (False_ind _ (diff_false_true (eq_trans (eq_sym Hst1) Hini))).
    + exists p1. split; [done|by apply (kept_ready q)].
  - exists p1. split; [done|by apply (kept_ready q)].
Qed.

End writing.
