(* ===== verification/BgpSessionClaims.v ===== *)
(** The BGP session of a configured peer: its steps, and what holds after any number of them. *)

From S2P Require Import Prelude Prefix Stream StreamCalc BgpAttr BgpFsm BgpSession BgpFsmFacts BgpFsmRun BgpSessionRun BgpSessionSteps.

(** * Steps *)

(** A timer runs out, a command is given ([IStop]: one of those that only add BGP_Stop), the
    descriptor can be read from or written to. *)
Inductive input :=
  | ITimer (t : tm) (now : Z)
  | IStop
  | IClear
  | IFlag (flag : Z) (set : bool)
  | IRead (collision : Z) (sockerr : option Z) (header body : rcall)
  | IWrite (sockerr : option Z) (calls : list wcall) (updates : list stream) (more : bool).

Section steps.
Context `{Speaker} `{Receiver}.

Definition timer_expire (e : env) (t : tm) (now : Z) : ST peer unit :=
  match t with
  | TStart => bgp_start_timer e;; mret tt
  | TConnect => bgp_connect_timer e;; mret tt
  | THoldtime => bgp_holdtime_timer e;; mret tt
  | TKeepalive => bgp_keepalive_timer e;; mret tt
  | TAsorig => mret tt
  | TRouteadv afi safi => bgp_routeadv_timer_expire now afi safi
  | TGrRestart => bgp_graceful_restart_timer_expire
  | TGrStale => bgp_graceful_stale_timer_expire
  end.

Definition input_run (e : env) (i : input) : ST peer unit :=
  p ← st_get;
  match i with
  | ITimer t now => match p_timers p t with Some _ => timer_expire e t now | None => mret tt end
  | IStop => BGP_EVENT_ADD BGP_Stop
  | IClear => peer_clear e
  | IFlag flag set => peer_flag_modify e flag set;; mret tt
  | IRead collision sockerr header body => match p_read p with Some _ => peer_read e collision sockerr header body;; mret tt | None => mret tt end
  | IWrite sockerr calls updates more => match p_write p with Some _ => bgp_write sockerr calls updates more | None => mret tt end
  end.

(** The events that a step adds are handled before anything else runs. *)
Definition session_step (e : env) (i : input) : ST peer unit := input_run e i;; settle e.

(** What the system and the rest of bgpd owe a step: octets, packets that fit, and that the
    timers of advertisement and restart and the commands below do not run for a session that
    waits for its first start or, for the commands, for a restart. *)
Definition input_ok (p : peer) (i : input) : Prop :=
  match i with
  | ITimer (TRouteadv _ _) _ | ITimer TGrRestart _ | ITimer TGrStale _ => started p
  | ITimer _ _ | IStop => True
  | IClear => has_sflag PEER_STATUS_NSF_WAIT p = false ∧ (has_sflag PEER_STATUS_PREFIX_OVERFLOW p = true → started p)
  | IFlag flag set => flag ∈ (fst <$> peer_flag_action_list) ∧ has_sflag PEER_STATUS_NSF_WAIT p = false ∧ (flag = PEER_FLAG_SHUTDOWN → set = false → started p)
  | IRead _ _ header body => rcall_ok header ∧ rcall_ok body
  | IWrite _ _ updates _ => Forall pkt_ok updates
  end.

Inductive session_reach (c : conf) (rands : list Z) : peer → Prop :=
  | reach_new p u : peer_create c rands tt = Ok (p, u) → session_reach c rands p
  | reach_step p e i p' :
      session_reach c rands p → input_ok p i → session_step e i p = Ok (tt, p') → session_reach c rands p'.

End steps.

(** * The invariant *)

Record session_ok (p : peer) : Prop := SessionOk {
  so_core : core (in_ok good) p;
  so_fits : fits p;
  so_events : p_events p = [];
}.

Definition settles `{Speaker} (e : env) (m : ST peer unit) (p : peer) : Prop := ∃ p', (m;; settle e) p = Ok (tt, p') ∧ session_ok p'.

Lemma ready_timers T p : ready p → (∀ t, not_routeadv t → T t = p_timers p t) → ready (with_timers T p).
Proof.
  intros [Hc Hq Hf Hst] HT. split; [by destruct Hc|done| |done]. destruct Hf as [[]|?]; [left|by right]. split; cbn [p_timers with_timers]; by rewrite HT.
Qed.

(** Programs that leave fitting timers fitting. *)
Definition tidy (m : ST peer unit) : Prop := ∀ p p', m p = Ok (tt, p') → fits p → fits p'.

Lemma tidy_ret : tidy (mret tt).
Proof. by intros p p' [= <-]. Qed.
Lemma tidy_bind m1 m2 : tidy m1 → tidy m2 → tidy (m1;; m2).
Proof.
  intros H1 H2 p p' E Hf. destruct (m1 p) as [[[] p1]|] eqn:E1; unfold mbind, ST_bind in E; rewrite E1 in E; [|done]. cbn in E. eauto.
Qed.
Lemma tidy_get (f : peer → ST peer unit) : (∀ p, tidy (f p)) → tidy (p ← st_get; f p).
Proof. intros Hf p p' E. by apply (Hf p p p'). Qed.
Lemma tidy_if (b : bool) m1 m2 : tidy m1 → tidy m2 → tidy (if b then m1 else m2).
Proof. by destruct b. Qed.
Lemma tidy_foldr {X} (l : list X) (f : X → ST peer unit) : (∀ x, tidy (f x)) → tidy (foldr (λ x m, f x;; m) (mret tt) l).
Proof. intros Hf. induction l as [|x l IH]; [apply tidy_ret|]. cbn. by apply tidy_bind. Qed.
Lemma tidy_act a : tidy (act_add a).
Proof. intros p p' [= <-] []. by split. Qed.
Lemma tidy_write_on fd : tidy (BGP_WRITE_ON fd).
Proof. intros p p' [= <-] []. by split. Qed.
Lemma tidy_synctime f : tidy (modify (λ p, with_synctime (f p) p)).
Proof. intros p p' [= <-] []. by split. Qed.

(** Timers the states do not speak of. *)
Definition other_timer (t : tm) : Prop := match t with TStart | TConnect | THoldtime | TKeepalive => False | _ => True end.

Lemma tidy_on t v : other_timer t → tidy (timer_on t v).
Proof. intros Ht p p' [= <-] []. split; cbn [p_timers with_timers]; rewrite set_timer_ne by (by intros <-); done. Qed.
Lemma tidy_off t : other_timer t → tidy (timer_off t).
Proof. intros Ht p p' [= <-] []. split; cbn [p_timers with_timers]; rewrite set_timer_ne by (by intros <-); done. Qed.

Lemma tidy_unset_sflag f : Z.land f PEER_STATUS_PREFIX_OVERFLOW = 0 → tidy (unset_sflag f).
Proof.
  intros Hf p p' [= <-] [Hs ? ? ?]. split; try done. unfold may_start, has_sflag, peer_active in *. cbn in *. by rewrite CHECK_FLAG_UNSET.
Qed.

Create HintDb tidy.
#[export] Hint Resolve tidy_ret tidy_bind tidy_get tidy_if tidy_foldr tidy_act tidy_write_on tidy_synctime tidy_on tidy_off tidy_unset_sflag : tidy.
#[export] Hint Extern 1 (other_timer _) => exact I : tidy.

Lemma calm_clear_stale : calm clear_stale.
Proof. unfold clear_stale. apply calm_foldr. intros af. apply calm_get. intros p. apply calm_if; [by apply calm_act|apply calm_ret]. Qed.
Lemma tidy_clear_stale : tidy clear_stale.
Proof. unfold clear_stale. apply tidy_foldr. auto with tidy. Qed.

Lemma calm_gr_restart : calm bgp_graceful_restart_timer_expire.
Proof.
  unfold bgp_graceful_restart_timer_expire. apply calm_bind; [apply calm_off|]. apply calm_bind; [apply calm_clear_stale|]. apply calm_bind; [by apply calm_unset_sflag|apply calm_off].
Qed.
Lemma calm_gr_stale : calm bgp_graceful_stale_timer_expire.
Proof. apply calm_bind; [apply calm_off|apply calm_clear_stale]. Qed.
Lemma calm_routeadv now afi safi : calm (bgp_routeadv_timer_expire now afi safi).
Proof.
  unfold bgp_routeadv_timer_expire. apply calm_bind; [apply calm_off|]. apply calm_bind; [apply calm_synctime|]. apply calm_get. intros p. apply calm_bind; [apply calm_write_on|apply calm_on].
Qed.
Lemma tidy_gr_restart : tidy bgp_graceful_restart_timer_expire.
Proof.
  apply tidy_bind; [by apply tidy_off|]. apply tidy_bind; [apply tidy_clear_stale|]. apply tidy_bind; [by apply tidy_unset_sflag|by apply tidy_off].
Qed.
Lemma tidy_gr_stale : tidy bgp_graceful_stale_timer_expire.
Proof. apply tidy_bind; [by apply tidy_off|apply tidy_clear_stale]. Qed.
Lemma tidy_routeadv now afi safi : tidy (bgp_routeadv_timer_expire now afi safi).
Proof.
  apply tidy_bind; [by apply tidy_off|]. apply tidy_bind; [apply tidy_synctime|]. apply tidy_get. intros p. apply tidy_bind; [apply tidy_write_on|by apply tidy_on].
Qed.

Section invariant.
Context `{SpeakerLaws} `{ReceiverLaws} (e : env).

Lemma settles_of m p p' : m p = Ok (tt, p') → core (in_ok good) p' → queue_ok p' → to_fit p' → settles e m p.
Proof.
  intros E Hc Hq Hf. destruct (settle_run e p' Hc Hq Hf) as (p2 & E2 & Hc2 & _ & Hf2 & He2). exists p2. rewrite (st_bind_Ok _ _ _ _ _ E). by split.
Qed.

Lemma settles_ready m p p' : m p = Ok (tt, p') → ready p' → settles e m p.
Proof. intros E []. by eapply settles_of. Qed.

Lemma settles_down m p p' : m p = Ok (tt, p') → down good p' → settles e m p.
Proof. intros E [Hc _ _ He Hf _]. eapply settles_of; [exact E|done| |by left]. left. rewrite He. constructor. Qed.

(** One event waits. *)
Lemma settles_event x m p :
  m p = BGP_EVENT_ADD x p → core (in_ok good) p → p_events p = [] → waits_ok p x → x ≠ TCP_connection_open → settles e m p.
Proof.
  intros E Hc He Hx Hne. eapply settles_of; [exact E|by apply core_events| |]; unfold queue_ok, to_fit; cbn [p_events with_events]; rewrite He; cbn [app].
  - left. by apply Forall_singleton.
  - right. split; [done|]. by rewrite list_elem_of_singleton.
Qed.

Lemma settles_timer t ev p :
  core (in_ok good) p → ev_fine p ev → ev ≠ TCP_connection_open → p_events p = [] →
  settles e ((timer_off t;; bgp_event e ev);; mret tt) p.
Proof.
  intros Hc Hev Hne He. set (q := with_timers (set_timer t None (p_timers p)) p). assert (Hcq : core (in_ok good) q) by (by destruct Hc).
  destruct (event_settle e q ev Hcq Hev Hne He) as (p' & E & Hc' & _ & Hf' & He'). exists p'. split; [|by split].
  rewrite assoc_step. rewrite assoc_step. rewrite (st_bind_Ok _ _ _ tt q) by done. exact E.
Qed.

Lemma start_timer_run p :
  core (in_ok good) p → p_events p = [] → p_status p = Idle → settles e (bgp_start_timer e;; mret tt) p.
Proof.
  intros Hc He Hs. unfold bgp_start_timer. set (q := with_sflags (UNSET_FLAG (p_sflags p) PEER_STATUS_CREATE_INIT) p).
  assert (Hst : started q) by (unfold has_sflag; cbn; apply CHECK_FLAG_UNSET_same).
  assert (Hcq : core (in_ok good) q).
  { destruct Hc as [? ? ? ? Ha]. split; try done; [|unfold has_sflag in *; cbn; by rewrite CHECK_FLAG_UNSET].
    intros Hini. exact (False_ind _ (diff_false_true (eq_trans (eq_sym Hst) Hini))). }
  destruct (settles_timer TStart BGP_Start q Hcq) as (p' & E & Hok); [|done|done|].
  { split; [done|]. split; [done|]. intros E. cbn in E. rewrite Hs in E. done. }
  exists p'. split; [|done]. rewrite <- E. by rewrite !assoc_step.
Qed.

Lemma settles_tidy m p : calm m → tidy m → session_ok p → started p → settles e m p.
Proof.
  intros Hm Ht [Hc Hf He] Hst. destruct (core_calm m _ p Hm Hc Hst) as (p' & E & Hc' & Hq). eapply settles_of; [exact E|done| |left; by eapply Ht].
  left. rewrite (qu_events _ _ Hq), He. constructor.
Qed.

Lemma settles_same m p : m p = Ok (tt, p) → session_ok p → settles e m p.
Proof. intros E [Hc Hf He]. eapply settles_of; [exact E|done| |by left]. left. rewrite He. constructor. Qed.

Lemma timer_expire_run t now p :
  session_ok p → is_Some (p_timers p t) → input_ok p (ITimer t now) → settles e (timer_expire e t now) p.
Proof.
  intros Hok Ht Hin. pose proof Hok as [Hc Hf He]. destruct t; cbn [timer_expire].
  - apply start_timer_run; [done|done|]. by apply Hf.
  - apply settles_timer; [done| |done|done]. split; [done|]. split; [done|]. intros E. apply (ft_connect _ Hf) in Ht. states. lia.
  - by apply settles_timer.
  - by apply settles_timer.
  - by apply settles_same.
  - apply settles_tidy; [apply calm_routeadv|apply tidy_routeadv|done|done].
  - apply settles_tidy; [apply calm_gr_restart|apply tidy_gr_restart|done|done].
  - apply settles_tidy; [apply calm_gr_stale|apply tidy_gr_stale|done|done].
Qed.

(** A NOTIFICATION a command sends. *)
Lemma settles_notify sub_code p :
  core (in_ok good) p → p_status p = Established → is_u8 sub_code → settles e (bgp_notify_send (e_writes e) BGP_NOTIFY_CEASE sub_code) p.
Proof.
  intros Hc Hs Hu. destruct (notify_run good (e_writes e) BGP_NOTIFY_CEASE sub_code [] p) as (p' & E & Hd); [by eapply core_loose|eapply not_idle_started; [done|rewrite Hs; done]|done|done|constructor|cbn; lia|].
  eapply settles_down; [exact E|done].
Qed.

Lemma stop_waits p : waits_ok p BGP_Stop.
Proof. done. Qed.

Lemma settles_stop p : core (in_ok good) p → p_events p = [] → settles e (BGP_EVENT_ADD BGP_Stop) p.
Proof. intros Hc He. by eapply settles_event. Qed.

Lemma settles_start p : core (in_ok good) p → p_events p = [] → started p → settles e (BGP_EVENT_ADD BGP_Start) p.
Proof. intros Hc He Hst. eapply settles_event; [reflexivity|done|done| |done]. by split. Qed.

(** The program starts with steps that run. *)
Lemma settles_after (m1 m2 : ST peer unit) p p1 : m1 p = Ok (tt, p1) → settles e m2 p1 → settles e (m1;; m2) p.
Proof. intros E1 (p2 & E2 & Hok). exists p2. rewrite assoc_step, (st_bind_Ok _ _ _ _ _ E1). by split. Qed.

Lemma settles_get (f : peer → ST peer unit) p : settles e (f p) p → settles e (p ← st_get; f p) p.
Proof. intros (p2 & E2 & Hok). exists p2. rewrite assoc_step, (st_bind_Ok _ _ _ p p) by done. by split. Qed.

Lemma core_sflags p f : core (in_ok good) p → Z.land f (PEER_STATUS_CREATE_INIT + PEER_STATUS_ACCEPT_PEER) = 0 → core (in_ok good) (with_sflags (UNSET_FLAG (p_sflags p) f) p).
Proof.
  intros [? ? ? Hi Ha] Hf. destruct (other_flags f Hf) as [H1' H2']. split; try done; unfold has_sflag in *; cbn; rewrite CHECK_FLAG_UNSET by done; done.
Qed.

Lemma clear_run p : session_ok p → input_ok p IClear → settles e (peer_clear e) p.
Proof.
  intros Hok [Hnsf Hpo]. pose proof Hok as [Hc Hf He]. unfold peer_clear. apply settles_get. destruct (has_flag PEER_FLAG_SHUTDOWN p); [by apply settles_same|].
  set (q := with_v_active_delay BGP_ACTIVE_DELAY_TIMER p). apply (settles_after _ _ p q); [done|].
  assert (Hcq : core (in_ok good) q) by (destruct Hc; split; try done; cbn; unfold BGP_ACTIVE_DELAY_TIMER, BGP_DEFAULT_CONNECT_RETRY; lia).
  destruct (has_sflag PEER_STATUS_PREFIX_OVERFLOW p) eqn:Epo.
  - eapply settles_after; [reflexivity|]. apply settles_start; [by apply core_sflags|done|]. unfold has_sflag. cbn. rewrite CHECK_FLAG_UNSET by done. by apply Hpo.
  - rewrite Hnsf. eapply settles_after; [reflexivity|]. apply settles_get. destruct (Z.eqb_spec (p_status q) Established); [by apply settles_notify|by apply settles_stop].
Qed.

Lemma core_flags inp p v : core inp p → core inp (with_flags v p).
Proof. by intros []. Qed.

Lemma flag_action_run flag p :
  core (in_ok good) p → p_events p = [] → has_sflag PEER_STATUS_NSF_WAIT p = false →
  (flag = PEER_FLAG_SHUTDOWN → has_flag PEER_FLAG_SHUTDOWN p = false → started p) →
  (p_status p = Established → fits p) →
  settles e (peer_flag_modify_action e flag) p.
Proof.
  intros Hc He Hnsf Hst Hf. unfold peer_flag_modify_action. apply settles_get. destruct (Z.eqb_spec flag PEER_FLAG_SHUTDOWN) as [-> |Hne].
  - destruct (has_flag PEER_FLAG_SHUTDOWN p) eqn:Eh; [|apply settles_start; auto]. rewrite Hnsf. eapply settles_after; [reflexivity|]. eapply settles_after; [reflexivity|].
    apply settles_get. set (q := with_sflags _ p). assert (Hcq : core (in_ok good) q) by (by apply core_sflags).
    destruct (Z.eqb_spec (p_status q) Established); [by apply settles_notify|by apply settles_stop].
  - destruct (Z.eqb_spec (p_status p) Established) as [Es|Es]; [|by apply settles_stop].
    assert (∀ q, core (in_ok good) q → p_events q = [] → fits q → p_status q = Established →
      settles e (if negb (flag =? PEER_FLAG_CONNECT_MODE_ACTIVE) && negb (flag =? PEER_FLAG_CONNECT_MODE_PASSIVE) then bgp_notify_send (e_writes e) BGP_NOTIFY_CEASE BGP_NOTIFY_CEASE_CONFIG_CHANGE else mret tt) q) as Hq.
    { intros q Hcq Heq Hfq Hsq. destruct (_ && _); [by apply settles_notify|]. by apply settles_same. }
    destruct (flag =? PEER_FLAG_DYNAMIC_CAPABILITY); [|destruct (flag =? PEER_FLAG_DISABLE_CONNECTED_CHECK)]; (eapply settles_after; [reflexivity|]); apply Hq; try done; try (by apply core_last_reset); try (by apply Hf).
    all: by destruct (Hf Es).
Qed.

Definition new_flags (set : bool) (flag : Z) (p : peer) : peer := with_flags (if set then SET_FLAG (p_flags p) flag else UNSET_FLAG (p_flags p) flag) p.

Lemma fits_flags_up v p : fits p → p_status p = Established → fits (with_flags v p).
Proof. intros [H1' H2' H3' H4'] Hs. split; cbn [p_timers p_status with_flags v_holdtime]; try done; [rewrite H1'|rewrite H2']; rewrite Hs; naive_solver. Qed.

Lemma fits_flags_other set flag p :
  Z.land flag PEER_FLAG_SHUTDOWN = 0 → Z.land flag PEER_FLAG_CONNECT_MODE_PASSIVE = 0 → fits p → fits (new_flags set flag p).
Proof.
  intros Hs Hp [H1' H2' H3' H4'].
  assert (∀ g, Z.land flag g = 0 → has_flag g (new_flags set flag p) = has_flag g p) as Hg.
  { intros g Hg. unfold has_flag, new_flags. cbn. destruct set; [by apply CHECK_FLAG_SET|by apply CHECK_FLAG_UNSET]. }
  split; try done; [unfold may_start|]; rewrite Hg by done; done.
Qed.

Lemma flag_cases flag : flag ∈ (fst <$> peer_flag_action_list) →
  peer_flag_action_set peer_flag_action_list flag = (true, peer_change_none) ∧ Z.land flag PEER_FLAG_SHUTDOWN = 0 ∧ Z.land flag PEER_FLAG_CONNECT_MODE_PASSIVE = 0 ∨
  peer_flag_action_set peer_flag_action_list flag = (true, peer_change_reset).
Proof.
  cbn. rewrite !elem_of_cons, elem_of_nil. intros Hin. destruct_or! Hin; subst flag; first [by right | by left | done].
Qed.

Lemma settles_getz (f : peer → ST peer Z) p : settles e (f p;; mret tt) p → settles e ((p ← st_get; f p);; mret tt) p.
Proof. intros (p2 & E2 & Hok). exists p2. split; [|done]. rewrite <- E2. by rewrite !assoc_step. Qed.

Lemma flag_modify_run flag set p : session_ok p → input_ok p (IFlag flag set) → settles e (peer_flag_modify e flag set;; mret tt) p.
Proof.
  intros Hok (Hin & Hnsf & Hst). pose proof Hok as [Hc Hf He].
  assert (Hsame : ∀ r, settles e ((mret r : ST peer Z);; mret tt) p) by (intros r; by apply settles_same).
  assert (Hact : settles e (peer_flag_modify_action e flag) (new_flags set flag p)).
  { apply flag_action_run; [by apply core_flags|done|done| |intros; by apply fits_flags_up]. intros -> Hsh. apply Hst; [done|].
    destruct set; [|done]. unfold has_flag, new_flags in Hsh. cbn in Hsh. by rewrite CHECK_FLAG_SET_same in Hsh. }
  assert (Hgo : settles e (modify (new_flags set flag);; (if bool_decide ((peer_flag_action_set peer_flag_action_list flag).2 = peer_change_reset) then peer_flag_modify_action e flag else mret tt)) p).
  { apply (settles_after _ _ p (new_flags set flag p)); [done|]. destruct (flag_cases flag Hin) as [(Hn & H1' & H2')|Hr]; [rewrite Hn|rewrite Hr]; cbn [snd]; [|exact Hact].
    apply settles_same; [done|]. split; [by apply core_flags|by apply fits_flags_other|done]. }
  unfold peer_flag_modify. destruct (peer_flag_action_set peer_flag_action_list flag) as [found type] eqn:Eset. cbn [snd] in Hgo.
  apply settles_getz. destruct (negb found); [apply (Hsame BGP_ERR_INVALID_FLAG)|]. destruct (set && _ && _); [apply (Hsame BGP_ERR_PEER_FLAG_CONFLICT)|].
  destruct (set && _); [apply (Hsame 0)|]. destruct (negb set && _); [apply (Hsame 0)|].
  destruct Hgo as (p' & E & Hok'). exists p'. split; [|done]. rewrite <- E. rewrite !assoc_step. rewrite !(st_bind_Ok _ _ _ tt (new_flags set flag p)) by done.
  by rewrite !assoc_step.
Qed.

(** A step of a session, whatever it is, ends with the invariant. *)
Lemma session_step_run i p : session_ok p → input_ok p i → ∃ p', session_step e i p = Ok (tt, p') ∧ session_ok p'.
Proof.
  intros Hok Hin. change (settles e (input_run e i) p). unfold input_run. apply settles_get. pose proof Hok as [Hc Hf He]. destruct i.
  - destruct (p_timers p t) as [v|] eqn:Et; [|by apply settles_same]. apply timer_expire_run; [done|by rewrite Et|done].
  - by apply settles_stop.
  - by apply clear_run.
  - by apply flag_modify_run.
  - destruct (p_read p) as [fd|] eqn:Er; [|by apply settles_same]. destruct Hin as [Hh Hb].
    assert (Hst : started p) by (destruct (has_sflag PEER_STATUS_CREATE_INIT p) eqn:Ei; [destruct (co_init _ _ _ Hc Ei) as (_ & ? & _); congruence|done]).
    destruct (peer_read_run e collision sockerr header body p Hh Hb Hc Hst He Hf) as (r & p' & E & Hr). eapply settles_ready; [|exact Hr]. by rewrite (st_bind_Ok _ _ _ _ _ E).
  - destruct (p_write p) as [fd|] eqn:Er; [|by apply settles_same].
    assert (Hst : started p) by (destruct (has_sflag PEER_STATUS_CREATE_INIT p) eqn:Ei; [destruct (co_init _ _ _ Hc Ei) as (_ & _ & ?); congruence|done]).
    destruct (write_run sockerr calls updates more p Hc Hst He Hf Hin) as (p' & E & Hr). by eapply settles_ready.
Qed.

End invariant.
