(* ===== verification/BgpSessionWorld.v ===== *)
(** BGP connections in their instance: bgp_read of a configured peer, and connections that
    collide. *)

From S2P Require Import Prelude Prefix Stream StreamCalc BgpAttr BgpFsm BgpSession BgpFsmFacts BgpFsmRun BgpSessionRun BgpSessionSteps BgpSessionClaims.

(** * What never changes the configuration *)

Definition keeps {X} (m : ST peer X) : Prop := ∀ p a p', m p = Ok (a, p') → p_conf p' = p_conf p.

Lemma keeps_ret {X} (x : X) : keeps (mret x).
Proof. by intros p a p' [= _ <-]. Qed.
Lemma keeps_bind {X Y} (m : ST peer X) (f : X → ST peer Y) : keeps m → (∀ x, keeps (f x)) → keeps (m ≫= f).
Proof.
  intros Hm Hf p a p' E. unfold mbind, ST_bind, mbind, res_bind in E. destruct (m p) as [[x p1]|] eqn:E1; [|done].
  rewrite (Hf x p1 a p' E). by eapply Hm.
Qed.
Lemma keeps_get {X} (f : peer → ST peer X) : (∀ p, keeps (f p)) → keeps (p ← st_get; f p).
Proof. intros Hf p a p' E. by apply (Hf p p a p'). Qed.
Lemma keeps_lift {X} (r : res X) : keeps (st_lift r).
Proof. intros p a p' E. unfold st_lift in E. by destruct r; [injection E as _ <-|done]. Qed.
Lemma keeps_if {X} (b : bool) (m1 m2 : ST peer X) : keeps m1 → keeps m2 → keeps (if b then m1 else m2).
Proof. by destruct b. Qed.
Lemma keeps_modify f : (∀ p, p_conf (f p) = p_conf p) → keeps (modify f).
Proof. intros Hf p a p' [= _ <-]. apply Hf. Qed.
Lemma keeps_ibuf {X} (m : ST stream X) : keeps (on_ibuf m).
Proof.
  intros p a p' E. unfold on_ibuf in E. destruct (p_ibuf p) as [s|]; [|done]. cbn [of_option mbind res_bind] in E. destruct (m s) as [[x s']|]; [|done]. by injection E as _ <-.
Qed.
Lemma keeps_foldr {X} (l : list X) (f : X → ST peer unit) : (∀ x, keeps (f x)) → keeps (foldr (λ x m, f x;; m) (mret tt) l).
Proof. intros Hf. induction l as [|x l IH]; [apply keeps_ret|]. cbn. by apply keeps_bind. Qed.
Lemma keeps_rand : keeps next_rand.
Proof. intros p a p' E. unfold next_rand in E. destruct (p_rands p); by injection E as _ <-. Qed.

Create HintDb keeps.

Ltac keep_modify := apply keeps_modify; intros; reflexivity.

Ltac keep := repeat lazymatch goal with
  | |- keeps (mbind _ st_get) => apply keeps_get; intros
  | |- keeps (mbind _ _) => apply keeps_bind; [|intros]
  | |- keeps (if _ then _ else _) => apply keeps_if
  | |- keeps (match ?x with _ => _ end) => destruct x
  | |- keeps (mret _) => apply keeps_ret
  | |- keeps (st_lift _) => apply keeps_lift
  | |- keeps (on_ibuf _) => apply keeps_ibuf
  | |- keeps next_rand => apply keeps_rand
  | |- keeps (foldr _ _ _) => apply keeps_foldr; intros
  | |- keeps (modify _) => keep_modify
  | |- keeps (timer_on _ _) => keep_modify
  | |- keeps (timer_off _) => keep_modify
  | |- keeps (BGP_READ_ON _) => keep_modify
  | |- keeps BGP_READ_OFF => keep_modify
  | |- keeps (BGP_WRITE_ON _) => keep_modify
  | |- keeps BGP_WRITE_OFF => keep_modify
  | |- keeps (BGP_EVENT_ADD _) => keep_modify
  | |- keeps BGP_EVENT_DELETE => keep_modify
  | |- keeps (act_add _) => keep_modify
  | |- keeps (set_sflag _) => keep_modify
  | |- keeps (unset_sflag _) => keep_modify
  | |- keeps (bgp_packet_add _) => keep_modify
  | |- keeps (bgp_fsm_change_status _) => keep_modify
  | |- keeps _ => solve [auto 2 with keeps nocore]
  end.

Lemma keeps_timer_set : keeps bgp_timer_set.
Proof. unfold bgp_timer_set, hold_keepalive, routeadv_off. keep. Qed.
Lemma keeps_reset_times : keeps reset_times.
Proof. apply keeps_modify. intros p. cbn zeta. by destruct (CHECK_FLAG _ _). Qed.
#[export] Hint Resolve keeps_timer_set keeps_reset_times : keeps.
Lemma keeps_stop : keeps bgp_stop.
Proof.
  unfold bgp_stop, stop_established, stop_session, routeadv_off, close_fd. keep.
Qed.
#[export] Hint Resolve keeps_stop : keeps.
Lemma keeps_stop_with_error : keeps bgp_stop_with_error.
Proof. unfold bgp_stop_with_error. keep. Qed.
#[export] Hint Resolve keeps_stop_with_error : keeps.
Lemma keeps_write_notify writes : keeps (bgp_write_notify writes).
Proof. unfold bgp_write_notify. apply keeps_get. intros p. destruct (p_obuf p) as [|s l]; [apply keeps_ret|]. cbn zeta. keep. Qed.
#[export] Hint Resolve keeps_write_notify : keeps.
Lemma keeps_notify writes code sub_code data : keeps (bgp_notify_send_with_data writes code sub_code data).
Proof. unfold bgp_notify_send_with_data, last_reset_of. keep. Qed.
#[export] Hint Resolve keeps_notify : keeps.
Lemma keeps_read_packet call : keeps (bgp_read_packet call).
Proof. unfold bgp_read_packet, closed_session. destruct call; cbn zeta; keep. Qed.
#[export] Hint Resolve keeps_read_packet : keeps.
Lemma keeps_read_header e call : keeps (read_header e call).
Proof. unfold read_header. cbn zeta. keep. Qed.
#[export] Hint Resolve keeps_read_header : keeps.
Lemma keeps_read_message e header body : keeps (read_message e header body).
Proof. unfold read_message. apply keeps_bind; [apply keeps_modify; intros p; by destruct (_ =? _)|intros]. keep. Qed.

(** * One peer of the instance *)

Section one_of_many.
Context `{SpeakerLaws} `{ReceiverLaws} (e : env) (w : world) (id : positive).

(** The instance with [p] for the peer [id]. *)
Definition here (p : peer) : world := World (<[id := p]> (w_peers w)) (w_list w).

Lemma on_peer_here {X} (m : ST peer X) p : on_peer id m (here p) = (r ← m p; Ok (r.1, here r.2)).
Proof.
  unfold on_peer, here. cbn [w_peers w_list]. rewrite lookup_insert_eq. cbn [of_option mbind res_bind]. destruct (m p) as [[a p']|]; [|done]. cbn. by rewrite insert_insert_eq.
Qed.

Lemma here_step {X Y} (m : ST peer X) (k : X → ST world Y) p a p' : m p = Ok (a, p') → (x ← on_peer id m; k x) (here p) = k a (here p').
Proof. intros E. unfold mbind, ST_bind. rewrite on_peer_here, E. done. Qed.

Lemma get_step {Y} (k : peer → ST world Y) p : (x ← get_peer id; k x) (here p) = k p (here p).
Proof. by apply here_step. Qed.

(** No other peer is opening a connection to the same address. *)
Definition alone (su : list Z) : Prop :=
  ∀ id', id' ∈ w_list w → id' ≠ id → ∃ q, w_peers w !! id' = Some q ∧ collides su q = false.

Lemma find_none f ids p :
  (∀ id', id' ∈ ids → id' ≠ id ∧ ∃ q, w_peers w !! id' = Some q ∧ f q = false) → find_peer f ids (here p) = Ok None.
Proof.
  induction ids as [|i ids IH]; intros Hf; [done|]. destruct (Hf i) as (Hne & q & Hq & Hfq); [by left|]. cbn. rewrite lookup_insert_ne by done. rewrite Hq. cbn. rewrite Hfq.
  apply IH. intros id' Hin. apply Hf. by right.
Qed.

Lemma collision_alone remote_id p : alone (c_su (p_conf p)) → bgp_collision_detect e id remote_id (here p) = Ok (0, here p).
Proof.
  intros Hal. unfold bgp_collision_detect. rewrite get_step. rewrite (st_bind_Ok _ _ _ (here p) (here p)) by done.
  rewrite (st_bind_Ok _ _ _ None (here p)); [done|]. cbn [w_list here]. fold (here p). rewrite find_none; [done|].
  intros id' [Hne Hin]%list_elem_of_filter. split; [done|]. by apply Hal.
Qed.

Lemma on_ibuf_inv {X} (m : ST stream X) p a p' : on_ibuf m p = Ok (a, p') → ∃ s, p' = with_ibuf (Some s) p.
Proof.
  intros E. unfold on_ibuf in E. destruct (p_ibuf p) as [s|]; [|done]. cbn [of_option mbind res_bind] in E. destruct (m s) as [[x s']|]; [|done]. injection E as _ <-. by eexists.
Qed.


Lemma bind_inv {X Y} (m : ST peer X) (k : X → ST peer Y) p b p' : (x ← m; k x) p = Ok (b, p') → ∃ a p1, m p = Ok (a, p1) ∧ k a p1 = Ok (b, p').
Proof. unfold mbind, ST_bind, mbind, res_bind. destruct (m p) as [[a p1]|]; [|done]. by exists a, p1. Qed.

Lemma open_receive_here p r p' :
  alone (c_su (p_conf p)) → has_sflag PEER_STATUS_ACCEPT_PEER p = false →
  peer_open_receive e 0 p = Ok (r, p') → bgp_open_receive e id (here p) = Ok (r, here p').
Proof.
  intros Hal Hacc E. unfold peer_open_receive in E.
  apply bind_inv in E as (version & p1 & E1 & E). pose proof (on_ibuf_inv _ _ _ _ E1) as [s1 ->].
  apply bind_inv in E as (as_data & p2 & E2 & E). pose proof (on_ibuf_inv _ _ _ _ E2) as [s2 ->].
  apply bind_inv in E as (remote_as & p3 & E3 & E). pose proof (on_ibuf_inv _ _ _ _ E3) as [s3 ->].
  apply bind_inv in E as (holdtime & p4 & E4 & E). pose proof (on_ibuf_inv _ _ _ _ E4) as [s4 ->].
  apply bind_inv in E as (remote_id & p5 & E5 & E). pose proof (on_ibuf_inv _ _ _ _ E5) as [s5 ->].
  change (0 <? 0) with false in E. cbn match in E. unfold bgp_open_receive.
  rewrite (here_step _ _ _ _ _ E1), (here_step _ _ _ _ _ E2), (here_step _ _ _ _ _ E3), (here_step _ _ _ _ _ E4), (here_step _ _ _ _ _ E5). clear E1 E2 E3 E4 E5.
  rewrite get_step. set (q := with_ibuf (Some s5) _) in *. assert (Hq : has_sflag PEER_STATUS_ACCEPT_PEER q = false) by exact Hacc. assert (Hal' : alone (c_su (p_conf q))) by exact Hal.
  clearbody q. cbn zeta. rewrite Hq. rewrite (st_bind_Ok _ _ _ (here q) (here q)) by done. rewrite (st_bind_Ok _ _ _ (Some id, false) (here q)) by done. cbn match.
  rewrite (st_bind_Ok _ _ _ _ _ (collision_alone remote_id q Hal')). change (0 <? 0) with false. cbn match. rewrite (st_bind_Ok _ _ _ (Some id) (here q)) by done.
  rewrite on_peer_here, E. done.
Qed.

(** The messages but OPEN are the business of the peer alone. *)
Lemma message_here type size p p' :
  alone (c_su (p_conf p)) → has_sflag PEER_STATUS_ACCEPT_PEER p = false → peer_message e 0 type size p = Ok (tt, p') →
  (if type =? BGP_MSG_OPEN then bgp_open_receive e id;; mret tt
   else if type =? BGP_MSG_NOTIFY then on_peer id (bgp_notify_receive size)
   else if type =? BGP_MSG_KEEPALIVE then on_peer id bgp_keepalive_receive
   else on_peer id (other_receive e type size)) (here p) = Ok (tt, here p').
Proof.
  intros Hal Hacc E. unfold peer_message in E. destruct (type =? BGP_MSG_OPEN).
  { apply bind_inv in E as (r & p1 & E1 & E2). injection E2 as <-. by rewrite (st_bind_Ok _ _ _ _ _ (open_receive_here _ _ _ Hal Hacc E1)). }
  destruct (type =? BGP_MSG_NOTIFY); [|destruct (type =? BGP_MSG_KEEPALIVE)]; by rewrite on_peer_here, E.
Qed.

Lemma bgp_read_here sockerr header body p r p' :
  alone (c_su (p_conf p)) → rcall_ok header → rcall_ok body → session_ok p → started p →
  peer_read e 0 sockerr header body p = Ok (r, p') → has_sflag PEER_STATUS_ACCEPT_PEER p' = false →
  bgp_read e id sockerr header body (here p) = Ok (r, here p').
Proof.
  intros Hal Hh Hb [Hc Hf He] Hst E Hacc. unfold peer_read in E. apply bind_inv in E as ([] & p1 & E1 & E). injection E1 as <-.
  apply bind_inv in E as (? & ? & E1 & E). injection E1 as <- <-. unfold bgp_read. erewrite here_step by reflexivity. rewrite get_step. cbn zeta.
  set (q := with_read None p) in *. assert (Hcq : core (in_ok good) q) by (destruct Hc as [? ? ? Hi]; split; try done; intros Hini; by destruct (Hi Hini) as (? & ? & ?)).
  destruct (p_status q =? Connect).
  { apply bind_inv in E as ([] & p2 & E2 & E). injection E as <- <-. rewrite (here_step _ _ _ _ _ E2), get_step, Hacc. done. }
  destruct (p_fd q <? 0); [by injection E as <- <-|]. apply bind_inv in E as ([] & p2 & E2 & E). injection E2 as <-. erewrite here_step by reflexivity.
  set (q1 := with_read _ q) in *. assert (Hc1 : core (in_ok good) q1) by (destruct Hcq as [? ? ? Hi]; split; try done; intros Hini; exact (False_ind _ (diff_false_true (eq_trans (eq_sym Hst) Hini)))).
  apply bind_inv in E as (m & p2 & E2 & E). rewrite (here_step _ _ _ _ _ E2).
  destruct (read_message_run e header body q1 Hh Hb Hc1 Hst He) as (m' & p2' & E2' & Hor). rewrite E2 in E2'. injection E2' as <- <-.
  pose proof (keeps_read_message _ _ _ _ _ _ E2) as Hconf. clear E2. destruct m as [[type size]|].
  - destruct Hor as [[? _]|(t & sz & [= <- <-] & Hc2 & Hst2 & He2 & _ & Hbad)]; [done|]. apply bind_inv in E as ([] & p3 & E3 & E).
    rewrite (st_bind_Ok _ _ _ _ _ (message_here type size p2 p3 ltac:(rewrite Hconf; exact Hal) (co_accept _ _ _ Hc2) E3)).
    apply bind_inv in E as ([] & p4 & E4 & E). injection E as <- <-. rewrite (here_step _ _ _ _ _ E4), get_step, Hacc. done.
  - injection E as <- <-. rewrite get_step, Hacc. done.
Qed.

End one_of_many.
