(* ===== verification/BgpSessionProps.v ===== *)
(** The BGP session: the properties of a configured peer, and runs of one. *)

From S2P Require Import Prelude Prefix Stream StreamCalc BgpAttr BgpFsm BgpSession BgpFsmFacts BgpFsmRun BgpSessionRun BgpSessionSteps BgpSessionClaims BgpSessionWorld.

(** * A new peer *)

Lemma create_ok c rands : conf_ok c → ∃ p, peer_create c rands tt = Ok (p, tt) ∧ session_ok p.
Proof.
  intros Hconf. unfold peer_create. cbn zeta. set (p := with_sflags _ _).
  assert (Hin : in_ok good (p_ibuf p) (p_packet_size p)) by (cbn; split; [by apply stream_new_ok|]; split; [done|]; split; [done|by left]).
  assert (Hc : core (in_ok good) p) by (split; done).
  destruct (peer_active p) eqn:Ea.
  - destruct (timer_set_run p (co_status _ _ _ Hc)) as (p' & E & Hr & Hf). exists p'. rewrite E. split; [done|]. split; [by eapply core_retimed|done|].
    by destruct (fit_retimed _ _ Hr) as (_ & -> & _).
  - exists p. split; [done|]. split; [done| |done].
    assert (Hms : may_start p = false) by (unfold may_start; rewrite Ea; by rewrite orb_true_r).
    assert (Hs : p_status p = Idle) by reflexivity. assert (Ht : ∀ t, p_timers p t = None) by reflexivity. clearbody p.
    split; rewrite Ht; apply off_iff; rewrite Hs, ?Hms; states; [by intros [_ ?]|lia..].
Qed.

Lemma session_reach_ok `{SpeakerLaws} `{ReceiverLaws} c rands p : conf_ok c → session_reach c rands p → session_ok p.
Proof.
  intros Hconf. induction 1 as [p u E|p e i p' _ IH Hin E].
  - destruct (create_ok c rands Hconf) as (p0 & E0 & Hok). rewrite E0 in E. injection E as <- _. done.
  - destruct (session_step_run e i p IH Hin) as (p1 & E1 & Hok). rewrite E1 in E. by injection E as <-.
Qed.

(** * Runs *)

(** A speaker that offers no capabilities (PEER_FLAG_DONT_CAPABILITY), and a receiver that asks
    for nothing. *)
Definition refresh_packet (afi safi : Z) : stream :=
  match make_packet BGP_MSG_ROUTE_REFRESH_NEW (stream_putw afi;; stream_putc 0;; stream_putc (u8 safi);; mret tt) with
  | Ok s => s
  | Fail _ => stream_new 0
  end.

Definition plain_speaker : Speaker := {|
  open_capability p := ([0], p_nego p);
  route_refresh afi safi _ p := (refresh_packet afi safi, p_nego p);
|}.

Definition plain_receiver : Receiver := {|
  receive_other type _ _ := Ok (if type =? BGP_MSG_UPDATE then RxUpdate else RxNone);
  bgp_open_option_parse _ p := Ok (OptOk true (p_nego p));
|}.

Lemma plain_laws : @SpeakerLaws plain_speaker.
Proof.
  split; cbn [open_capability route_refresh plain_speaker fst].
  - intros p. split; [by repeat constructor|cbn; lia].
  - intros afi safi _ p. unfold refresh_packet.
    destruct (make_packet_run BGP_MSG_ROUTE_REFRESH_NEW (stream_putw afi;; stream_putc 0;; stream_putc (u8 safi);; mret tt) (be16 afi ++ [0] ++ [u8 safi] ++ [])) as (s & Hs & Hok & _).
    { done. }
    { apply writes_bind; [apply writes_putw|]. intros _. apply writes_bind; [by apply writes_putc|]. intros _.
      apply writes_bind; [apply writes_putc, u8_range|]. intros _. apply writes_ret. }
    { unfold bytes_ok. rewrite !Forall_app. split; [apply be_bytes_ok16|]. split; [by constructor|]. split; [constructor; [apply u8_range|constructor]|constructor]. }
    { rewrite !length_app. cbn. lia. }
    rewrite Hs. exact Hok.
Qed.

Lemma plain_receiver_laws : @ReceiverLaws plain_receiver.
Proof. split; intros; eexists; (split; [reflexivity|]); [|done]. by destruct (_ =? _). Qed.

Definition run_conf : conf :=
  Conf [10; 0; 0; 2] 65002 65001 0 [10; 0; 0; 1] (λ a s, if (a =? 1) && (s =? 1) then 1 else 0) 0 0 0 180 60 360 1 120 30.

Definition run_env : env := Env 5 connect_success [21].

Definition header_of (type len : Z) : list Z := replicate 16 255 ++ be16 len ++ [type].
Definition open_body : list Z := [4] ++ be16 65002 ++ be16 90 ++ [10; 0; 0; 2] ++ [0].

Definition open_input : input := IRead 0 None (RData (header_of BGP_MSG_OPEN 29)) (RData open_body).
Definition keepalive_input : input := IRead 0 None (RData (header_of BGP_MSG_KEEPALIVE 19)) RAgain.

Fixpoint run (inputs : list input) (p : peer) : res peer :=
  match inputs with
  | [] => Ok p
  | i :: inputs => r ← @session_step plain_speaker plain_receiver run_env i p; run inputs r.2
  end.

Definition run_from_new (inputs : list input) : res peer := r ← peer_create run_conf [] tt; run inputs r.1.



Definition handshake : list input := [ITimer TStart 0; ITimer TConnect 0; open_input; keepalive_input].

(** From Idle to Established, with the smaller hold time. *)
Lemma session_up :
  (p ← run_from_new handshake; Ok (p_status p, p_fd p, v_holdtime p, v_keepalive p, p_established p, p_acts p)) =
  Ok (Established, 5, 90, 30, 1, [ASocket 5; AAnnounce]).
Proof. by vm_compute. Qed.

(** A second OPEN message in OpenConfirm: the state is Idle, the descriptor stays open and is
    forgotten by the next connection. *)
Lemma second_open_leaks :
  (p ← run_from_new (take 3 handshake ++ [open_input; ITimer TStart 0; ITimer TConnect 0]); Ok (p_status p, p_fd p, p_acts p)) =
  Ok (OpenSent, 5, [ASocket 5; ASocket 5]) ∧
  (p ← run_from_new (take 3 handshake ++ [open_input]); Ok (p_status p, p_fd p, p_read p)) = Ok (Idle, 5, Some 5).
Proof. by vm_compute. Qed.

(** "shutdown" and "no shutdown" before the first start: the session comes up with the flag of
    a new peer, and "clear" sends a NOTIFICATION but ends nothing. *)
Definition early_start : list input := [IFlag PEER_FLAG_SHUTDOWN true; IFlag PEER_FLAG_SHUTDOWN false; ITimer TConnect 0; open_input; keepalive_input].

Lemma clear_ignored :
  (p ← run_from_new (early_start ++ [IClear]); Ok (p_status p, p_fd p, p_established p, p_dropped p, p_acts p)) =
  Ok (Established, 5, 1, 0, [ASocket 5; AAnnounce; AWrite 5 (header_of BGP_MSG_NOTIFY 21 ++ [BGP_NOTIFY_CEASE; BGP_NOTIFY_CEASE_ADMIN_RESET])]).
Proof. by vm_compute. Qed.

(** * The properties *)

(** The inputs whose conditions do not depend on the state. *)
Definition free_input (i : input) : Prop :=
  match i with
  | ITimer TStart _ | ITimer TConnect _ | IStop => True
  | IRead _ _ header body => rcall_ok header ∧ rcall_ok body
  | _ => False
  end.

Lemma run_reach inputs : ∀ p p', Forall free_input inputs →
  @session_reach plain_speaker plain_receiver run_conf [] p → run inputs p = Ok p' → @session_reach plain_speaker plain_receiver run_conf [] p'.
Proof.
  induction inputs as [|i inputs IH]; intros p p' Hf Hr E; [by injection E as <-|]. apply Forall_cons in Hf as [Hi Hf]. cbn [run] in E.
  destruct (session_step run_env i p) as [[[] p1]|] eqn:E1; [|done]. cbn [mbind res_bind snd] in E. eapply IH; [done| |exact E].
  eapply reach_step; [exact Hr| |exact E1]. destruct i as [[]| | | | |]; done.
Qed.

Lemma run_new_inv inputs p : run_from_new inputs = Ok p → ∃ p0, peer_create run_conf [] tt = Ok (p0, tt) ∧ run inputs p0 = Ok p.
Proof. unfold run_from_new. generalize (peer_create run_conf [] tt). intros [[p0 []]|]; [|done]. intros E. by exists p0. Qed.

Lemma run_new_reach inputs p : Forall free_input inputs → run_from_new inputs = Ok p → @session_reach plain_speaker plain_receiver run_conf [] p.
Proof. intros Hf (p0 & E0 & E)%run_new_inv. eapply run_reach; [exact Hf|exact (reach_new _ _ _ _ E0)|exact E]. Qed.

Lemma bytes_dec l : forallb (λ b, (0 <=? b) && (b <? 256)) l = true → bytes_ok l.
Proof. intros Hl. apply Forall_forall. intros x Hx. rewrite forallb_forall in Hl. unfold is_u8. specialize (Hl x ltac:(by apply list_elem_of_In)). lia. Qed.

Lemma handshake_free : Forall free_input handshake.
Proof.
  unfold handshake. repeat (apply Forall_cons; split); [exact I|exact I|..|by apply Forall_nil]; split; first [exact I | by apply bytes_dec].
Qed.

Lemma run_conf_ok : conf_ok run_conf.
Proof. split; [by apply bytes_dec|done]. Qed.

(** C8: from its creation on, a configured peer that only meets inputs within [input_ok] keeps
    its invariant, and no such input faults or gets stuck: each time the peer has come up it
    has gone down again, except while it is Established; its routes are in the tables exactly
    then; the timers that run are those its state needs to go on; and the delay before it
    connects stays within 5 and 120 seconds.  The inputs are timers, stop events, reads of any
    octets, writes of packets that fit, and commands, with these limits: before the first start
    of the session there is no timer of advertisement or restart, no "no shutdown" (see
    [clear_ignored]) and no clear after a prefix overflow; while a restart is waited for there
    is no clear and no change of flags; the flags are those of the table of bgpd.  The functions for
    UPDATE, ROUTE-REFRESH and CAPABILITY messages and for the options of OPEN are parameters
    that are assumed not to fault ([ReceiverLaws]) and to answer with an event, a NOTIFICATION
    or nothing; bgp_update_receive itself is treated in [BgpAttrSafe]. *)
Theorem bgp_session_safe `{SpeakerLaws} `{ReceiverLaws} c rands p :
  conf_ok c → session_reach c rands p →
  p_established p = u32 (p_dropped p + Z.b2z (p_status p =? Established)) ∧
  routes_up (p_acts p) = (p_status p =? Established) ∧
  fits p ∧
  BGP_ACTIVE_DELAY_TIMER ≤ v_active_delay p ≤ BGP_DEFAULT_CONNECT_RETRY ∧
  ∀ e i, input_ok p i → ∃ p', session_step e i p = Ok (tt, p').
Proof.
  intros Hconf Hr. pose proof (session_reach_ok c rands p Hconf Hr) as Hok. pose proof Hok as [[Hs Hn Hro Hi Ha Hd Ho Hb Hcf] Hf He].
  split; [done|]. split; [done|]. split; [done|]. split; [done|]. intros e i Hin. destruct (session_step_run e i p Hok Hin) as (p' & E & _). by exists p'.
Qed.

Lemma bgp_session_safe_witness :
  ∃ p, run_from_new handshake = Ok p ∧ p_status p = Established ∧ routes_up (p_acts p) = (p_status p =? Established).
Proof.
  destruct (run_from_new handshake) as [p|] eqn:E; [|exfalso; vm_compute in E; discriminate E]. exists p. split; [reflexivity|]. split.
  - pose proof session_up as Hup. rewrite E in Hup. injection Hup. auto.
  - exact (proj1 (proj2 (@bgp_session_safe plain_speaker plain_laws plain_receiver plain_receiver_laws run_conf [] p run_conf_ok (run_new_reach handshake p handshake_free E)))).
Defined.

(** C22: bgp_read of a configured peer, in an instance where no other connection to the same
    address is being opened, is the reading of that peer alone: it returns, whatever is read,
    and nothing else of the instance changes. *)
Theorem bgp_read_configured `{SpeakerLaws} `{ReceiverLaws} e w id p sockerr header body :
  w_peers w !! id = Some p → session_ok p → is_Some (p_read p) → alone w id (c_su (p_conf p)) → rcall_ok header → rcall_ok body →
  ∃ r p', peer_read e 0 sockerr header body p = Ok (r, p') ∧
    bgp_read e id sockerr header body w = Ok (r, World (<[id := p']> (w_peers w)) (w_list w)).
Proof.
  intros Hp Hok Hrd Hal Hh Hb. pose proof Hok as [Hc Hf He].
  assert (Hst : started p) by (destruct (has_sflag PEER_STATUS_CREATE_INIT p) eqn:Ei; [destruct (co_init _ _ _ Hc Ei) as (_ & Hn & _); rewrite Hn in Hrd; by destruct Hrd|done]).
  destruct (peer_read_run e 0 sockerr header body p Hh Hb Hc Hst He Hf) as (r & p' & E & Hr). exists r, p'. split; [exact E|].
  pose proof (bgp_read_here e w id sockerr header body p r p' Hal Hh Hb Hok Hst E (co_accept _ _ _ (rd_core _ Hr))) as Hw.
  unfold here in Hw. rewrite (insert_id (w_peers w) id p Hp) in Hw. by destruct w.
Qed.

(** The peer of [handshake] once its OPEN message is sent. *)
Lemma opening :
  ∃ p, run_from_new (take 2 handshake) = Ok p ∧ session_ok p ∧ p_status p = OpenSent ∧ p_read p = Some 5 ∧ p_conf p = run_conf.
Proof.
  destruct (run_from_new (take 2 handshake)) as [p|] eqn:E; [|exfalso; vm_compute in E; discriminate E]. exists p. split; [reflexivity|]. split.
  - refine (@session_reach_ok plain_speaker plain_laws plain_receiver plain_receiver_laws run_conf [] p run_conf_ok (run_new_reach (take 2 handshake) p _ E)).
    apply Forall_take, handshake_free.
  - assert ((p ← run_from_new (take 2 handshake); Ok (p_status p, p_read p, p_conf p)) = Ok (OpenSent, Some 5, run_conf)) as Hv by (by vm_compute).
    rewrite E in Hv. clear E. injection Hv as Hv1 Hv2 Hv3. exact (conj Hv1 (conj Hv2 Hv3)).
Qed.

Lemma bgp_read_configured_witness :
  ∃ p r w', run_from_new (take 2 handshake) = Ok p ∧
    @bgp_read plain_speaker plain_receiver run_env 1%positive None (RData (header_of BGP_MSG_OPEN 29)) (RData open_body) (World {[1%positive := p]} [1%positive]) = Ok (r, w').
Proof.
  destruct opening as (p & E & Hok & _ & Hrd & _).
  destruct (@bgp_read_configured plain_speaker plain_laws plain_receiver plain_receiver_laws run_env (World {[1%positive := p]} [1%positive]) 1%positive p None
    (RData (header_of BGP_MSG_OPEN 29)) (RData open_body)) as (r & p' & _ & Hr).
  - apply lookup_singleton_eq.
  - exact Hok.
  - rewrite Hrd. exact (ex_intro _ 5 eq_refl).
  - intros id' Hin Hne. apply list_elem_of_singleton in Hin. exact (False_ind _ (Hne Hin)).
  - apply bytes_dec; reflexivity.
  - apply bytes_dec; reflexivity.
  - exists p, r. eexists. split; [exact E|exact Hr].
Defined.

Lemma on_peer_run {X} (m : ST peer X) w id p a p' :
  w_peers w !! id = Some p → m p = Ok (a, p') → on_peer id m w = Ok (a, World (<[id := p']> (w_peers w)) (w_list w)).
Proof. intros Hp E. unfold on_peer. rewrite Hp. cbn [of_option mbind res_bind]. by rewrite E. Qed.

(** C40: a connection that collides with one the instance is opening, from a router whose
    identifier is not greater than the local one: the new connection is refused with -1, as
    the comment in bgp_collision_detect says, but the NOTIFICATION goes to the existing peer,
    whose session ends with its descriptor closed, so that both connections are lost. *)
Theorem collision_loses_both e w new id n p remote_id :
  w_peers w !! new = Some n → w_peers w !! id = Some p → session_ok p → collides (c_su (p_conf n)) p = true →
  find_peer (collides (c_su (p_conf n))) (filter (λ i, i ≠ new) (w_list w)) w = Ok (Some id) →
  ntohl remote_id ≤ ntohl (c_local_id (p_conf p)) → 0 ≤ p_fd n →
  ∃ p', bgp_collision_detect e new remote_id w = Ok (-1, World (<[id := p']> (w_peers w)) (w_list w)) ∧
    p_status p' = Idle ∧ p_fd p' < 0 ∧ session_ok p'.
Proof.
  intros Hn Hp [Hc Hf He] Hcol Hfind Hid Hfd.
  assert (Hne : p_status p ≠ Idle) by (intros E; unfold collides in Hcol; rewrite E in Hcol; done).
  destruct (notify_run good (e_writes e) BGP_NOTIFY_CEASE BGP_NOTIFY_CEASE_CONNECT_COLLISION [] p) as (p' & E & [Hc' Hs' _ He' Hf' Hfd']);
    [by eapply core_loose|by eapply not_idle_started|done|done|constructor|cbn; lia|].
  exists p'. split; [|split; [done|]; split; [done|by split]].
  assert (Hget : ∀ i q, w_peers w !! i = Some q → get_peer i w = Ok (q, w)).
  { intros i q Hi. unfold get_peer, on_peer. rewrite Hi. cbn. rewrite insert_id by done. by destruct w. }
  unfold bgp_collision_detect. rewrite (st_bind_Ok _ _ _ _ _ (Hget new n Hn)). rewrite (st_bind_Ok _ _ _ w w) by done.
  rewrite (st_bind_Ok _ _ _ (Some id) w) by (by rewrite Hfind). rewrite (st_bind_Ok _ _ _ _ _ (Hget id p Hp)).
  rewrite (proj2 (Z.ltb_ge _ _) Hid), (proj2 (Z.leb_le _ _) Hfd).
  unfold notify_with. rewrite (st_bind_Ok _ _ _ _ _ (on_peer_run _ w id p tt p' Hp E)). reflexivity.
Qed.

Lemma collision_loses_both_witness :
  ∃ p p' w, run_from_new (take 2 handshake) = Ok p ∧
    bgp_collision_detect run_env 2%positive [10; 0; 0; 1] (World {[1%positive := p; 2%positive := with_fd 6 (peer_new run_conf [])]} [2%positive; 1%positive]) = Ok (-1, w) ∧
    w_peers w !! 1%positive = Some p' ∧ p_status p' = Idle.
Proof.
  destruct opening as (p & E & Hok & Hs & _ & Hconf).
  destruct (collision_loses_both run_env (World {[1%positive := p; 2%positive := with_fd 6 (peer_new run_conf [])]} [2%positive; 1%positive])
    2%positive 1%positive (with_fd 6 (peer_new run_conf [])) p [10; 0; 0; 1]) as (p' & Hd & Hs' & _).
  - cbn [w_peers]. rewrite lookup_insert_ne by (intros H'; discriminate H'). apply lookup_singleton_eq.
  - apply lookup_insert_eq.
  - exact Hok.
  - unfold collides. rewrite Hs, Hconf. reflexivity.
  - assert (collides (c_su run_conf) p = true) as Hcp by (unfold collides; rewrite Hs, Hconf; reflexivity).
    cbn [w_list]. rewrite filter_cons_False by (intros H'; by apply H'). rewrite filter_cons_True by (intros H'; discriminate H'). cbn [find_peer w_peers]. rewrite lookup_insert_eq. cbn [of_option mbind res_bind].
    change (c_su (p_conf (with_fd 6 (peer_new run_conf [])))) with (c_su run_conf). rewrite Hcp. reflexivity.
  - rewrite Hconf. apply Z.le_refl.
  - cbn. lia.
  - exists p, p'. eexists. split; [exact E|]. split; [exact Hd|]. split; [apply lookup_insert_eq|exact Hs'].
Defined.
