(* ===== verification/OspfLsa.v ===== *)
(** OSPF link state advertisements: the checksum, the age and the comparison of
    ospfd/ospf_lsa.c, and the check of received ones in ospfd/ospf_packet.c.

    The data of an LSA are its octets: a header of 20 (age 0-1, options 2, type 3,
    id 4-7, advertising router 8-11, sequence number 12-15, checksum 16-17, length
    18-19, all in network order) and the body.  The time of day is an argument. *)

From S2P Require Import Prelude Prefix Stream.

(** ** Headers *)

Definition OSPF_LSA_HEADER_SIZE : Z := 20.
Definition OSPF_LSA_MAXAGE : Z := 3600.
Definition OSPF_LSA_MAXAGE_DIFF : Z := 900.
Definition OSPF_LSA_SELF : Z := 1.
Definition MODX : Z := 4102.
Definition LSA_CHECKSUM_OFFSET : Z := 15.

Definition get16 (d : list Z) (off : Z) : res Z :=
  a ← get_byte d off; b ← get_byte d (off + 1); Ok (a * 256 + b).
Definition get32 (d : list Z) (off : Z) : res Z :=
  a ← get16 d off; b ← get16 d (off + 2); Ok (a * 65536 + b).

Definition lsa_age (d : list Z) : res Z := get16 d 0.
Definition lsa_options (d : list Z) : res Z := get_byte d 2.
Definition lsa_type (d : list Z) : res Z := get_byte d 3.
Definition lsa_id (d : list Z) : res Z := get32 d 4.
Definition lsa_adv_router (d : list Z) : res Z := get32 d 8.
Definition lsa_seqnum (d : list Z) : res Z := get32 d 12.
Definition lsa_checksum (d : list Z) : res Z := get16 d 16.
Definition lsa_length (d : list Z) : res Z := get16 d 18.

Record timeval := Timeval { tv_sec : Z; tv_usec : Z }.

Record ospf_lsa := Lsa {
  l_flags : Z;
  l_data : list Z;
  l_tv_recv : timeval;
  l_tv_orig : timeval;
}.

(** ** Checksum *)

(** The inner loop: the sums over [n] octets from [p]. *)
Fixpoint sum_chunk (d : list Z) (p : Z) (n : nat) (c0 c1 : Z) : res (Z * Z) :=
  match n with
  | O => Ok (c0, c1)
  | S n =>
      b ← get_byte d p;
      c0 ← int_of (c0 + b);
      c1 ← int_of (c1 + c0);
      sum_chunk d (p + 1) n c0 c1
  end.

(** The outer loop: chunks of MODX octets, reduced after each. *)
Fixpoint chunk_loop (fuel : nat) (d : list Z) (sp ep c0 c1 : Z) : res (Z * Z) :=
  if sp <? ep then
    match fuel with
    | O => Fail OutOfFuel
    | S fuel =>
        let q := if sp + MODX >? ep then ep else sp + MODX in
        '(c0, c1) ← sum_chunk d sp (Z.to_nat (q - sp)) c0 c1;
        chunk_loop fuel d q ep (Z.rem c0 255) (Z.rem c1 255)
    end
  else Ok (c0, c1).

(** The checksum octets of the sums. *)
Definition checksum_xy (length c0 c1 : Z) : res (Z * Z) :=
  t ← int_of ((length - LSA_CHECKSUM_OFFSET) * c0 - c1);
  let x := Z.rem t 255 in
  let x := if x <=? 0 then x + 255 else x in
  let y := 510 - c0 - x in
  let y := if y >? 255 then y - 255 else y in
  Ok (x, y).

(** ospf_lsa_checksum: writes the checksum and returns it. *)
Definition ospf_lsa_checksum (d : list Z) : res (Z * list Z) :=
  d ← put_bytes d 16 [0; 0];
  len ← lsa_length d;
  let length := u16 (len - 2) in
  '(c0, c1) ← chunk_loop (Z.to_nat length) d 2 (2 + length) 0 0;
  '(x, y) ← checksum_xy length c0 c1;
  let sum := u16 (Z.shiftl x 8 + y) in
  d ← put_bytes d 16 (be16 sum);
  Ok (sum, d).

(** The check of the checksum of a received LSA in ospf_ls_upd_list_lsa. *)
Definition lsa_checksum_valid (d : list Z) : res bool :=
  sum ← lsa_checksum d;
  '(c, _) ← ospf_lsa_checksum d;
  Ok (sum =? c).

(** ** Age *)

(** tv_adjust: the loops move whole seconds out of [tv_usec]. *)
Fixpoint adjust_down (fuel : nat) (a : timeval) : timeval :=
  match fuel with
  | O => a
  | S fuel => if tv_usec a >=? 1000000
              then adjust_down fuel (Timeval (tv_sec a + 1) (tv_usec a - 1000000)) else a
  end.
Fixpoint adjust_up (fuel : nat) (a : timeval) : timeval :=
  match fuel with
  | O => a
  | S fuel => if tv_usec a <? 0
              then adjust_up fuel (Timeval (tv_sec a - 1) (tv_usec a + 1000000)) else a
  end.
Definition tv_adjust (a : timeval) : timeval :=
  let fuel := Z.to_nat (Z.abs (tv_usec a) / 1000000 + 1) in
  adjust_up fuel (adjust_down fuel a).

Definition tv_ceil (a : timeval) : Z :=
  let a := tv_adjust a in if negb (tv_usec a =? 0) then tv_sec a + 1 else tv_sec a.
Definition tv_floor (a : timeval) : Z := tv_sec (tv_adjust a).
Definition int2tv (a : Z) : timeval := Timeval a 0.
Definition tv_add (a b : timeval) : timeval :=
  tv_adjust (Timeval (tv_sec a + tv_sec b) (tv_usec a + tv_usec b)).
Definition tv_sub (a b : timeval) : timeval :=
  tv_adjust (Timeval (tv_sec a - tv_sec b) (tv_usec a - tv_usec b)).
Definition tv_cmp (a b : timeval) : Z :=
  if tv_sec a =? tv_sec b then tv_usec a - tv_usec b else tv_sec a - tv_sec b.

Definition OSPF_MIN_LS_INTERVAL : Z := 5.

Definition ospf_lsa_refresh_delay (now : timeval) (lsa : ospf_lsa) : res Z :=
  let delta := tv_sub now (l_tv_orig lsa) in
  if tv_cmp delta (int2tv OSPF_MIN_LS_INTERVAL) <? 0 then
    let delay := tv_ceil (tv_sub (int2tv OSPF_MIN_LS_INTERVAL) delta) in
    _ ← c_assert (delay >? 0);
    Ok delay
  else Ok 0.

Definition get_age (now : timeval) (lsa : ospf_lsa) : res Z :=
  a ← lsa_age (l_data lsa);
  Ok (a + tv_floor (tv_sub now (l_tv_recv lsa))).

Definition LS_AGE (now : timeval) (lsa : ospf_lsa) : res Z :=
  age ← get_age now lsa;
  Ok (if OSPF_LSA_MAXAGE <? age then OSPF_LSA_MAXAGE else age).

Definition IS_LSA_MAXAGE (now : timeval) (lsa : ospf_lsa) : res bool :=
  age ← LS_AGE now lsa;
  Ok (age =? OSPF_LSA_MAXAGE).

Definition lsa_seqnum_increment (lsa : ospf_lsa) : res Z :=
  s ← lsa_seqnum (l_data lsa);
  Ok (u32 (s + 1)).

(** ** Comparison *)

(** The comparison of the ages; the time does not pass between the readings. *)
Definition compare_age (now : timeval) (l1 l2 : ospf_lsa) : res Z :=
  m1 ← IS_LSA_MAXAGE now l1;
  m2 ← IS_LSA_MAXAGE now l2;
  if (m1 : bool) && negb m2 then Ok 1
  else if negb m1 && (m2 : bool) then Ok (-1)
  else
    a1 ← LS_AGE now l1;
    a2 ← LS_AGE now l2;
    Ok (if a1 - a2 >? OSPF_LSA_MAXAGE_DIFF then -1
        else if a2 - a1 >? OSPF_LSA_MAXAGE_DIFF then 1 else 0).

Definition ospf_lsa_more_recent (now : timeval) (l1 l2 : option ospf_lsa) : res Z :=
  match l1, l2 with
  | None, None => Ok 0
  | None, _ => Ok (-1)
  | _, None => Ok 1
  | Some l1, Some l2 =>
      s1 ← lsa_seqnum (l_data l1);
      s2 ← lsa_seqnum (l_data l2);
      let x := s32 s1 in
      let y := s32 s2 in
      if x >? y then Ok 1
      else if x <? y then Ok (-1)
      else
        k1 ← lsa_checksum (l_data l1);
        k2 ← lsa_checksum (l_data l2);
        let r := k1 - k2 in
        if negb (r =? 0) then Ok r else compare_age now l1 l2
  end.

(** memcmp of [n] octets at [off]; [true] when they differ. *)
Definition octets_differ (d1 d2 : list Z) (off n : Z) : res bool :=
  a ← get_bytes d1 off n;
  b ← get_bytes d2 off n;
  Ok (bool_decide (a ≠ b)).

Definition ospf_lsa_different (now : timeval) (l1 l2 : ospf_lsa) : res bool :=
  o1 ← lsa_options (l_data l1);
  o2 ← lsa_options (l_data l2);
  if negb (o1 =? o2) then Ok true else
  m1 ← IS_LSA_MAXAGE now l1;
  m2 ← IS_LSA_MAXAGE now l2;
  if (m1 : bool) && negb m2 then Ok true
  else if (m2 : bool) && negb m1 then Ok true
  else
    n1 ← lsa_length (l_data l1);
    n2 ← lsa_length (l_data l2);
    if negb (n1 =? n2) then Ok true
    else if n1 =? 0 then Ok true
    else
      _ ← c_assert (n1 >? OSPF_LSA_HEADER_SIZE);
      octets_differ (l_data l1) (l_data l2) OSPF_LSA_HEADER_SIZE (n1 - OSPF_LSA_HEADER_SIZE).

(** ** The sums of Fletcher's checksum

    [plain bs] is the sum of the octets, [weighted bs] the sum in which an octet
    counts as often as there are octets from it to the end. *)

Fixpoint plain (bs : list Z) : Z :=
  match bs with [] => 0 | b :: bs => b + plain bs end.
Fixpoint weighted (bs : list Z) : Z :=
  match bs with [] => 0 | b :: bs => (Z.of_nat (length bs) + 1) * b + weighted bs end.

(** The octets a checksum is taken over, and what its receiver checks. *)
Definition covered (d : list Z) (len : Z) : list Z := take (Z.to_nat (len - 2)) (drop 2 d).
Definition fletcher_ok (d : list Z) (len : Z) : Prop :=
  plain (covered d len) mod 255 = 0 ∧ weighted (covered d len) mod 255 = 0.

Lemma plain_app a b : plain (a ++ b) = plain a + plain b.
Proof. induction a as [|x a IH]; cbn; [done|rewrite IH; lia]. Qed.

Lemma weighted_app a b : weighted (a ++ b) = weighted a + Z.of_nat (length b) * plain a + weighted b.
Proof.
  induction a as [|x a IH]; cbn [app plain weighted]; [lia|]. rewrite IH, length_app, Nat2Z.inj_add. ring.
Qed.

Lemma sums_bounds bs :
  bytes_ok bs →
  0 ≤ plain bs ≤ 255 * Z.of_nat (length bs) ∧
  0 ≤ 2 * weighted bs ≤ 255 * (Z.of_nat (length bs) * (Z.of_nat (length bs) + 1)).
Proof.
  induction 1 as [|b bs Hb _ IH]; cbn [plain weighted length]; [lia|].
  unfold is_u8 in Hb. nia.
Qed.

Lemma sum_chunk_spec d n : ∀ p c0 c1,
  bytes_ok d → 0 ≤ p → p + Z.of_nat n ≤ Z.of_nat (length d) → 0 ≤ c0 → 0 ≤ c1 →
  let bs := take n (drop (Z.to_nat p) d) in
  c0 + plain bs < 2^31 → c1 + Z.of_nat n * c0 + weighted bs < 2^31 →
  sum_chunk d p n c0 c1 = Ok (c0 + plain bs, c1 + Z.of_nat n * c0 + weighted bs).
Proof.
  induction n as [|n IH]; intros p c0 c1 Hd Hp Hn H0 H1 bs Hb0 Hb1.
  { subst bs. rewrite take_0. cbn [sum_chunk plain weighted]. change (Z.of_nat 0) with 0. do 2 f_equal; lia. }
  destruct (lookup_lt_is_Some_2 d (Z.to_nat p)) as [b Hb]; [lia|].
  assert (Hbs : bs = b :: take n (drop (Z.to_nat (p + 1)) d)).
  { subst bs. rewrite (drop_S _ _ _ Hb). cbn. by replace (S (Z.to_nat p)) with (Z.to_nat (p + 1)) by lia. }
  assert (Hlen : length (take n (drop (Z.to_nat (p + 1)) d)) = n) by (rewrite length_take, length_drop; lia).
  assert (Hok : bytes_ok (take n (drop (Z.to_nat (p + 1)) d))) by (by apply Forall_take, Forall_drop).
  pose proof (bytes_ok_lookup _ _ _ Hd Hb) as Hb8. unfold is_u8 in Hb8.
  pose proof (sums_bounds _ Hok) as [Hs0 Hs1].
  rewrite Hbs in Hb0, Hb1 |- *. cbn [plain weighted] in Hb0, Hb1 |- *. rewrite Hlen in Hb1 |- *.
  cbn [sum_chunk].
  rewrite (proj2 (get_byte_Ok d p b)) by done. cbn [mbind res_bind].
  rewrite int_of_Ok by (unfold is_s32; lia). cbn [mbind res_bind].
  rewrite int_of_Ok by (unfold is_s32; nia). cbn [mbind res_bind].
  rewrite (IH (p + 1) (c0 + b) (c1 + (c0 + b))) by (try done; try lia; nia).
  f_equal. f_equal; lia.
Qed.

(** MODX octets are few enough for the sums to stay within an int. *)
Lemma chunk_fits bs c0 c1 :
  bytes_ok bs → Z.of_nat (length bs) ≤ MODX → 0 ≤ c0 < 255 → 0 ≤ c1 < 255 →
  c0 + plain bs < 2^31 ∧ c1 + Z.of_nat (length bs) * c0 + weighted bs < 2^31.
Proof.
  intros Hok Hl H0 H1. destruct (sums_bounds bs Hok) as [? ?]. unfold MODX in Hl.
  set (n := Z.of_nat (length bs)) in *. assert (0 ≤ n) by lia.
  assert (n * (n + 1) ≤ 4102 * 4103) by nia. assert (n * c0 ≤ 4102 * 254) by nia. lia.
Qed.

Lemma no_octets (d : list Z) n c0 c1 :
  n ≤ 0 → 0 ≤ c0 < 255 → 0 ≤ c1 < 255 →
  let bs := take (Z.to_nat n) d in
  Ok (c0, c1) = Ok ((c0 + plain bs) mod 255, (c1 + Z.of_nat (length bs) * c0 + weighted bs) mod 255).
Proof.
  intros Hn H0 H1. replace (Z.to_nat n) with 0%nat by lia. rewrite take_0.
  cbn [plain weighted length]. change (Z.of_nat 0) with 0.
  rewrite !Z.mod_small by lia. do 2 f_equal; lia.
Qed.

Lemma chunk_loop_spec d ep : ∀ fuel sp c0 c1,
  bytes_ok d → 0 ≤ sp ≤ ep → ep ≤ Z.of_nat (length d) → ep - sp ≤ Z.of_nat fuel →
  0 ≤ c0 < 255 → 0 ≤ c1 < 255 →
  let bs := take (Z.to_nat (ep - sp)) (drop (Z.to_nat sp) d) in
  chunk_loop fuel d sp ep c0 c1 =
    Ok ((c0 + plain bs) mod 255, (c1 + Z.of_nat (length bs) * c0 + weighted bs) mod 255).
Proof.
  induction fuel as [|fuel IH]; intros sp c0 c1 Hd Hsp Hep Hf H0 H1 bs; cbn [chunk_loop].
  { rewrite (proj2 (Z.ltb_ge _ _)) by lia. subst bs. apply no_octets; lia. }
  destruct (Z.ltb_spec sp ep) as [Hlt|Hge].
  2:{ subst bs. apply no_octets; lia. }
  set (q := if sp + MODX >? ep then ep else sp + MODX).
  assert (Hq : sp < q ≤ ep ∧ q - sp ≤ MODX).
  { subst q. unfold MODX. destruct (Z.gtb_spec (sp + 4102) ep); lia. }
  set (b1 := take (Z.to_nat (q - sp)) (drop (Z.to_nat sp) d)).
  set (b2 := take (Z.to_nat (ep - q)) (drop (Z.to_nat q) d)).
  assert (Hbs : bs = b1 ++ b2).
  { subst bs b1 b2. replace (Z.to_nat (ep - sp)) with (Z.to_nat (q - sp) + Z.to_nat (ep - q))%nat by lia.
    rewrite <- take_take_drop, drop_drop. do 3 f_equal. lia. }
  assert (Hl1 : length b1 = Z.to_nat (q - sp)) by (subst b1; rewrite length_take, length_drop; lia).
  assert (Hok : bytes_ok b1) by (by apply Forall_take, Forall_drop).
  destruct (chunk_fits b1 c0 c1 Hok) as [Hf0 Hf1]; [lia..|].
  destruct (sums_bounds b1 Hok) as [Hp0 Hp1]. rewrite Hl1 in Hf1.
  rewrite (sum_chunk_spec d (Z.to_nat (q - sp)) sp c0 c1) by (try done; lia). fold b1.
  cbn [mbind res_bind]. rewrite !Z.rem_mod_nonneg by nia.
  rewrite IH; [|done|lia..|apply Z.mod_pos_bound; lia|apply Z.mod_pos_bound; lia]. fold b2. rewrite Hbs.
  rewrite plain_app, weighted_app, length_app, Hl1. f_equal. f_equal.
  - rewrite Z.add_mod_idemp_l by lia. f_equal. lia.
  - rewrite <- Z.add_mod_idemp_l by lia.
    rewrite (Z.add_mod (_ mod 255) (Z.of_nat (length b2) * _)) by lia.
    rewrite Z.mul_mod_idemp_r by lia. rewrite Z.mod_mod by lia. rewrite <- Z.add_mod by lia.
    rewrite Z.add_mod_idemp_l by lia. f_equal. lia.
Qed.

Lemma mod_255_range a : 0 ≤ a mod 255 < 255.
Proof. apply Z.mod_pos_bound. lia. Qed.

(** The octets checksum_xy chooses make both sums multiples of 255. *)
Lemma checksum_xy_spec len c0 c1 :
  0 ≤ len < 65536 → 0 ≤ c0 < 255 → 0 ≤ c1 < 255 →
  ∃ x y, checksum_xy len c0 c1 = Ok (x, y) ∧ 1 ≤ x ≤ 255 ∧ 1 ≤ y ≤ 255 ∧
    (c0 + x + y) mod 255 = 0 ∧ (c1 + (len - 14) * x + (len - 15) * y) mod 255 = 0.
Proof.
  intros Hl H0 H1. unfold checksum_xy, LSA_CHECKSUM_OFFSET.
  rewrite int_of_Ok by (unfold is_s32; nia). cbn [mbind res_bind].
  set (t := (len - 15) * c0 - c1).
  assert (Hr : t = 255 * Z.quot t 255 + Z.rem t 255 ∧ -255 < Z.rem t 255 < 255).
  { split; [apply Z.quot_rem'|]. pose proof (Z.rem_bound_abs t 255). lia. }
  destruct Hr as [Hq Hr]. set (r := Z.rem t 255) in *. set (q := Z.quot t 255) in *.
  set (x := if r <=? 0 then r + 255 else r).
  assert (Hx : 1 ≤ x ≤ 255 ∧ ∃ k, t = 255 * k + x).
  { subst x. destruct (Z.leb_spec r 0); split; [lia|exists (q - 1); lia|lia|exists q; lia]. }
  destruct Hx as [Hx [k Hk]]. clearbody x r q.
  set (y := if 510 - c0 - x >? 255 then 510 - c0 - x - 255 else 510 - c0 - x).
  assert (Hy : 1 ≤ y ≤ 255 ∧ ∃ j, c0 + x + y = 255 * j).
  { subst y. destruct (Z.gtb_spec (510 - c0 - x) 255); split; [lia|exists 1; lia|lia|exists 2; lia]. }
  destruct Hy as [Hy [j Hj]]. clearbody y. exists x, y. repeat split; try lia.
  - rewrite Hj, Z.mul_comm. apply Z.mod_mul. lia.
  - replace (c1 + (len - 14) * x + (len - 15) * y) with (((len - 15) * j - k) * 255).
    + apply Z.mod_mul. lia.
    + subst t. nia.
Qed.

(** An LSA whose length field is the one its octets have room for. *)
Record lsa_wf (d : list Z) (len : Z) : Prop := LsaWf {
  lw_bytes : bytes_ok d;
  lw_len : lsa_length d = Ok len;
  lw_min : OSPF_LSA_HEADER_SIZE ≤ len;
  lw_max : len ≤ Z.of_nat (length d);
}.

Definition with_checksum (d : list Z) (x y : Z) : list Z := take 16 d ++ [x; y] ++ drop 18 d.
Definition before_sum (d : list Z) : list Z := drop 2 (take 16 d).
Definition after_sum (d : list Z) (len : Z) : list Z := take (Z.to_nat (len - 18)) (drop 18 d).

Lemma with_checksum_header d x y k :
  (20 ≤ length d)%nat → k = 18 ∨ k = 19 → get_byte (with_checksum d x y) k = get_byte d k.
Proof.
  intros Hroom Hk. unfold get_byte, with_checksum. rewrite (proj2 (Z.ltb_ge k 0)) by lia.
  rewrite lookup_app_r by (rewrite length_take; lia). rewrite length_take, Nat.min_l by lia.
  rewrite lookup_app_r by (cbn; lia). rewrite lookup_drop. do 2 f_equal. cbn. lia.
Qed.

Lemma with_checksum_len d x y : (20 ≤ length d)%nat → lsa_length (with_checksum d x y) = lsa_length d.
Proof. intros Hroom. unfold lsa_length, get16. by rewrite !with_checksum_header by lia. Qed.

Lemma with_checksum_bytes d x y : bytes_ok d → is_u8 x → is_u8 y → bytes_ok (with_checksum d x y).
Proof.
  intros Hb Hx Hy. unfold with_checksum, bytes_ok. apply Forall_app_2; [by apply Forall_take|].
  apply Forall_cons_2, Forall_cons_2; try done. by apply Forall_drop.
Qed.

Lemma with_checksum_length d x y : (20 ≤ length d)%nat → length (with_checksum d x y) = length d.
Proof. intros. unfold with_checksum. rewrite !length_app, length_take, length_drop. cbn [length]. lia. Qed.

Section Checksum.
Context (d : list Z) (len : Z) (Hwf : lsa_wf d len).

Lemma lsa_room : (20 ≤ length d)%nat.
Proof. destruct Hwf. unfold OSPF_LSA_HEADER_SIZE in *. lia. Qed.

Lemma before_sum_length : length (before_sum d) = 14%nat.
Proof. unfold before_sum. rewrite length_drop, length_take. pose proof lsa_room. lia. Qed.

Lemma after_sum_length : Z.of_nat (length (after_sum d len)) = len - 18.
Proof.
  unfold after_sum. rewrite length_take, length_drop. pose proof lsa_room. destruct Hwf.
  unfold OSPF_LSA_HEADER_SIZE in *. lia.
Qed.

Lemma covered_with_checksum x y :
  covered (with_checksum d x y) len = before_sum d ++ [x; y] ++ after_sum d len.
Proof.
  pose proof lsa_room. pose proof before_sum_length as Hb. unfold covered, with_checksum, after_sum.
  rewrite (drop_app_le (take 16 d)) by (rewrite length_take; lia). fold (before_sum d).
  destruct Hwf. unfold OSPF_LSA_HEADER_SIZE in *.
  rewrite take_app_ge by (rewrite Hb; lia). rewrite Hb.
  rewrite take_app_ge by (cbn; lia). cbn [length]. do 3 f_equal. lia.
Qed.

Lemma with_checksum_wf x y : is_u8 x → is_u8 y → lsa_wf (with_checksum d x y) len.
Proof.
  intros Hx Hy. pose proof lsa_room. destruct Hwf as [Hb Hl Hmin Hmax]. split; try done.
  - by apply with_checksum_bytes.
  - by rewrite with_checksum_len.
  - by rewrite with_checksum_length.
Qed.

Lemma put_checksum x y : put_bytes d 16 [x; y] = Ok (with_checksum d x y).
Proof. pose proof lsa_room. rewrite put_bytes_in by (cbn; lia). done. Qed.

Lemma with_checksum_twice x y x' y' : with_checksum (with_checksum d x y) x' y' = with_checksum d x' y'.
Proof.
  pose proof lsa_room. unfold with_checksum.
  rewrite (take_app_le (take 16 d)) by (rewrite length_take; lia). rewrite take_take, Nat.min_id. do 2 f_equal.
  rewrite drop_app_ge by (rewrite length_take; lia). rewrite length_take, Nat.min_l by lia. done.
Qed.
End Checksum.

(** A run of ospf_lsa_checksum on a well formed LSA. *)
Lemma ospf_lsa_checksum_run d len :
  lsa_wf d len →
  ∃ x y, ospf_lsa_checksum d = Ok (256 * x + y, with_checksum d x y) ∧ 1 ≤ x ≤ 255 ∧ 1 ≤ y ≤ 255 ∧
    fletcher_ok (with_checksum d x y) len.
Proof.
  intros Hwf. pose proof (lsa_room d len Hwf) as Hroom.
  assert (Hwf0 : lsa_wf (with_checksum d 0 0) len) by (by apply with_checksum_wf).
  assert (Hlen : 20 ≤ len < 65536).
  { destruct Hwf as [Hb Hl Hmin _]. unfold OSPF_LSA_HEADER_SIZE in Hmin. split; [lia|].
    unfold lsa_length, get16 in Hl. run_in Hl. injection Hl as <-.
    do 2 match goal with H : get_byte _ _ = Ok ?b |- _ =>
      apply get_byte_Ok in H as [_ H]; apply (bytes_ok_lookup _ _ _ Hb) in H; unfold is_u8 in H end.
    lia. }
  unfold ospf_lsa_checksum. rewrite (put_checksum d len Hwf). cbn [mbind res_bind].
  rewrite (lw_len _ _ Hwf0). cbn [mbind res_bind]. rewrite u16_id by (unfold is_u16; lia).
  pose proof (lw_max _ _ Hwf0) as Hmax0.
  rewrite chunk_loop_spec; [|apply Hwf0|lia..]. cbn [mbind res_bind].
  replace (Z.to_nat (2 + (len - 2) - 2)) with (Z.to_nat (len - 2)) by lia.
  change (Z.to_nat 2) with 2%nat. fold (covered (with_checksum d 0 0) len).
  rewrite (covered_with_checksum d len Hwf). rewrite !Z.mul_0_r, !Z.add_0_l.
  set (bs := before_sum d ++ [0; 0] ++ after_sum d len).
  destruct (checksum_xy_spec (len - 2) (plain bs mod 255) (weighted bs mod 255)) as
    (x & y & -> & Hx & Hy & H0 & H1); [lia|apply mod_255_range..|].
  cbn [mbind res_bind]. exists x, y. split; [|split; [done|split; [done|]]].
  - assert (Hsum : u16 (Z.shiftl x 8 + y) = 256 * x + y).
    { rewrite Z.shiftl_mul_pow2 by lia. rewrite u16_id by (unfold is_u16; lia). lia. }
    rewrite Hsum. assert (Hbe : be16 (256 * x + y) = [x; y]).
    { unfold be16, u8. rewrite Z.shiftr_div_pow2 by lia. f_equal; [|f_equal]; dm_lia. }
    rewrite Hbe, (put_checksum _ len Hwf0). cbn [mbind res_bind].
    by rewrite (with_checksum_twice d len Hwf).
  - unfold fletcher_ok. rewrite (covered_with_checksum d len Hwf).
    rewrite <- Z.add_assoc, Z.add_mod_idemp_l in H0 by lia.
    rewrite <- Z.add_assoc, Z.add_mod_idemp_l in H1 by lia.
    subst bs. rewrite !plain_app, !weighted_app in *. rewrite !length_app in *.
    cbn [plain weighted length app] in *.
    pose proof (after_sum_length d len Hwf) as Ha.
    rewrite !Nat2Z.inj_add, Ha in *. change (Z.of_nat 2) with 2 in *. change (Z.of_nat 1) with 1 in *.
    change (Z.of_nat 0) with 0 in *.
    split; [rewrite <- H0|rewrite <- H1]; f_equal; lia.
Qed.

Lemma with_checksum_lookup d len x y :
  lsa_wf d len →
  with_checksum d x y !! 16%nat = Some x ∧ with_checksum d x y !! 17%nat = Some y.
Proof.
  intros Hwf. pose proof (lsa_room d len Hwf). unfold with_checksum.
  split; (rewrite lookup_app_r by (rewrite length_take; lia)); rewrite length_take, Nat.min_l by lia; done.
Qed.

Lemma with_checksum_value d len x y :
  lsa_wf d len → lsa_checksum (with_checksum d x y) = Ok (256 * x + y).
Proof.
  intros Hwf. destruct (with_checksum_lookup d len x y Hwf) as [Hx Hy].
  unfold lsa_checksum, get16, get_byte. cbn [Z.ltb Z.compare].
  change (Z.to_nat 16) with 16%nat. change (Z.to_nat (16 + 1)) with 17%nat.
  change (16 + 1 <? 0) with false. rewrite Hx, Hy. cbn. f_equal. lia.
Qed.

(** C29: ospf_lsa_checksum never overflows its sums or reads outside of an LSA of
    any length, and the checksum it writes is right: both sums of Fletcher's
    algorithm over the LSA (the age left out) are then multiples of 255, and the
    check a receiver makes accepts the LSA.  Only the checksum field is written. *)
Theorem ospf_lsa_checksum_verifies d len :
  lsa_wf d len →
  ∃ sum d', ospf_lsa_checksum d = Ok (sum, d') ∧ lsa_checksum d' = Ok sum ∧ is_u16 sum ∧
    fletcher_ok d' len ∧ lsa_checksum_valid d' = Ok true ∧
    take 16 d' = take 16 d ∧ drop 18 d' = drop 18 d.
Proof.
  intros Hwf. destruct (ospf_lsa_checksum_run d len Hwf) as (x & y & Hrun & Hx & Hy & Hok).
  assert (Hwf' : lsa_wf (with_checksum d x y) len) by (apply with_checksum_wf; unfold is_u8; lia || done).
  exists (256 * x + y), (with_checksum d x y). pose proof (with_checksum_value d len x y Hwf) as Hv.
  split; [done|]. split; [done|]. split; [unfold is_u16; lia|]. split; [done|]. split.
  - unfold lsa_checksum_valid. rewrite Hv. cbn [mbind res_bind].
    assert (Hsame : ospf_lsa_checksum (with_checksum d x y) = ospf_lsa_checksum d).
    { unfold ospf_lsa_checksum. rewrite (put_checksum _ len Hwf'), (put_checksum _ len Hwf).
      cbn [mbind res_bind]. by rewrite (with_checksum_twice d len Hwf). }
    rewrite Hsame, Hrun. cbn [mbind res_bind]. by rewrite Z.eqb_refl.
  - pose proof (lsa_room d len Hwf). unfold with_checksum. split.
    + rewrite take_app_le by (rewrite length_take; lia). by rewrite take_take.
    + rewrite drop_app_ge by (rewrite length_take; lia). by rewrite length_take, Nat.min_l by lia.
Qed.

Lemma with_checksum_self d len x y :
  lsa_wf d len → d !! 16%nat = Some x → d !! 17%nat = Some y → with_checksum d x y = d.
Proof.
  intros Hwf Hx Hy. unfold with_checksum. rewrite <- (take_drop 16 d) at 3. f_equal.
  rewrite (drop_S _ _ _ Hx). cbn. f_equal. by rewrite (drop_S _ _ _ Hy).
Qed.

(** What the receiver's check says about the octets. *)
Lemma lsa_checksum_valid_spec d len :
  lsa_wf d len → ∃ v, lsa_checksum_valid d = Ok v ∧ (v = true → fletcher_ok d len).
Proof.
  intros Hwf. pose proof (lsa_room d len Hwf).
  destruct (lookup_lt_is_Some_2 d 16) as [a Ha]; [lia|].
  destruct (lookup_lt_is_Some_2 d 17) as [b Hb]; [lia|].
  pose proof (with_checksum_self d len a b Hwf Ha Hb) as Hself.
  assert (Hsum : lsa_checksum d = Ok (256 * a + b)).
  { rewrite <- Hself. by apply (with_checksum_value d len). }
  destruct (ospf_lsa_checksum_run d len Hwf) as (x & y & Hrun & Hx & Hy & Hok).
  unfold lsa_checksum_valid. rewrite Hsum. cbn [mbind res_bind]. rewrite Hrun. cbn [mbind res_bind].
  eexists. split; [done|]. intros E%Z.eqb_eq.
  pose proof (bytes_ok_lookup _ _ _ (lw_bytes _ _ Hwf) Ha) as Ha8.
  pose proof (bytes_ok_lookup _ _ _ (lw_bytes _ _ Hwf) Hb) as Hb8. unfold is_u8 in *.
  assert (x = a) as -> by lia. assert (y = b) as -> by lia. by rewrite Hself in Hok.
Qed.

Lemma plain_insert bs i b b' :
  bs !! i = Some b → plain (<[i := b']> bs) = plain bs + b' - b.
Proof.
  revert i. induction bs as [|x bs IH]; intros [|i] H; try done; cbn in H.
  - simplify_eq. cbn. lia.
  - change (<[S i := b']> (x :: bs)) with (x :: <[i := b']> bs). cbn [plain]. rewrite (IH _ H). lia.
Qed.

(** A receiver detects the corruption of one octet: when an octet of an LSA with
    a right checksum (not of the age or of the length field) is changed, other
    than from 0 to 255 or back, the check rejects the LSA. *)
Theorem lsa_corruption_detected d len i b b' :
  lsa_wf d len → fletcher_ok d len → d !! i = Some b → is_u8 b' →
  (2 ≤ i)%nat → Z.of_nat i < len → i ≠ 18%nat → i ≠ 19%nat → (b' - b) mod 255 ≠ 0 →
  lsa_checksum_valid (<[i := b']> d) = Ok false.
Proof.
  intros Hwf [Hok _] Hi Hb' H2 Hlen H18 H19 Hne.
  assert (Hwf' : lsa_wf (<[i := b']> d) len).
  { destruct Hwf as [Hb Hl Hmin Hmax]. split; [by apply Forall_insert| |done|by rewrite length_insert].
    rewrite <- Hl. unfold lsa_length, get16, get_byte. cbn [Z.ltb Z.compare].
    change (Z.to_nat 18) with 18%nat. change (Z.to_nat (18 + 1)) with 19%nat.
    by rewrite !list_lookup_insert_ne. }
  destruct (lsa_checksum_valid_spec _ len Hwf') as (v & -> & Hv). f_equal. destruct v; [|done].
  destruct (Hv eq_refl) as [Hok' _]. exfalso. apply Hne. revert Hok'. unfold covered.
  rewrite drop_insert_ge by done. rewrite take_insert_lt by lia. fold (covered d len).
  rewrite (plain_insert _ (i - 2) b b').
  2:{ unfold covered. rewrite lookup_take_lt, lookup_drop by lia. by replace (2 + (i - 2))%nat with i by lia. }
  intros E.
  replace (plain (covered d len) + b' - b) with (plain (covered d len) + (b' - b)) in E by lia.
  by rewrite Z.add_mod, Hok, Z.add_0_l, Z.mod_mod in E by lia.
Qed.

Lemma sum_chunk_app d m n : ∀ p c0 c1,
  sum_chunk d p (m + n) c0 c1 =
  '(c0, c1) ← sum_chunk d p m c0 c1; sum_chunk d (p + Z.of_nat m) n c0 c1.
Proof.
  induction m as [|m IH]; intros p c0 c1; cbn [Nat.add sum_chunk].
  - cbn [mbind res_bind]. f_equal. lia.
  - destruct (get_byte d p) as [b|]; [|done]. cbn [mbind res_bind].
    destruct (int_of (c0 + b)) as [c0'|]; [|done]. cbn [mbind res_bind].
    destruct (int_of (c1 + c0')) as [c1'|]; [|done]. cbn [mbind res_bind].
    rewrite IH. by replace (p + 1 + Z.of_nat m) with (p + Z.of_nat (S m)) by lia.
Qed.

Lemma chunk_loop_overread d ep : ∀ fuel sp c0 c1,
  bytes_ok d → 0 ≤ sp ≤ Z.of_nat (length d) → Z.of_nat (length d) < ep → ep - sp ≤ Z.of_nat fuel →
  0 ≤ c0 < 255 → 0 ≤ c1 < 255 → chunk_loop fuel d sp ep c0 c1 = Fail OutOfBounds.
Proof.
  induction fuel as [|fuel IH]; intros sp c0 c1 Hd Hsp Hep Hf H0 H1; [lia|]. cbn [chunk_loop].
  rewrite (proj2 (Z.ltb_lt _ _)) by lia. set (q := if _ >? _ then _ else _).
  assert (Hq : sp < q ≤ ep ∧ q - sp ≤ MODX).
  { subst q. unfold MODX. destruct (Z.gtb_spec (sp + 4102) ep); lia. }
  set (m := Z.min (q - sp) (Z.of_nat (length d) - sp)).
  set (bs := take (Z.to_nat m) (drop (Z.to_nat sp) d)).
  assert (Hok : bytes_ok bs) by (by apply Forall_take, Forall_drop).
  assert (Hl : length bs = Z.to_nat m) by (subst bs; rewrite length_take, length_drop; lia).
  destruct (chunk_fits bs c0 c1 Hok) as [Hf0 Hf1]; [lia..|]. destruct (sums_bounds bs Hok) as [Hp0 Hp1].
  rewrite Hl in Hf1.
  assert (Hrun : sum_chunk d sp (Z.to_nat m) c0 c1 =
    Ok (c0 + plain bs, c1 + Z.of_nat (Z.to_nat m) * c0 + weighted bs)).
  { rewrite (sum_chunk_spec d (Z.to_nat m) sp c0 c1) by (try done; lia). done. }
  destruct (decide (q ≤ Z.of_nat (length d))) as [Hin|Hout].
  - replace (q - sp) with m by lia. rewrite Hrun. cbn [mbind res_bind].
    rewrite !Z.rem_mod_nonneg by nia. apply IH; try done; try lia; apply mod_255_range.
  - replace (Z.to_nat (q - sp)) with (Z.to_nat m + S (Z.to_nat (q - sp - m - 1)))%nat by lia.
    rewrite sum_chunk_app, Hrun. cbn [mbind res_bind sum_chunk].
    by rewrite get_byte_out by lia.
Qed.

(** An LSA whose length field is 0 or 1 makes ospf_lsa_checksum read beyond the
    LSA: the length is reduced by two as an unsigned 16 bit number.  A received LSA
    is checked before its length is compared with the size of a header. *)
Theorem lsa_checksum_overread d len :
  bytes_ok d → lsa_length d = Ok len → len < 2 → (20 ≤ length d)%nat →
  Z.of_nat (length d) < 65536 → lsa_checksum_valid d = Fail OutOfBounds.
Proof.
  intros Hd Hlen Hlt Hmin Hmax. unfold lsa_checksum_valid.
  destruct (lookup_lt_is_Some_2 d 16) as [a Ha]; [lia|].
  destruct (lookup_lt_is_Some_2 d 17) as [b Hb]; [lia|].
  assert (Hsum : lsa_checksum d = Ok (a * 256 + b)).
  { unfold lsa_checksum, get16. by rewrite (proj2 (get_byte_Ok d 16 a)), (proj2 (get_byte_Ok d (16 + 1) b)). }
  rewrite Hsum. cbn [mbind res_bind]. unfold ospf_lsa_checksum.
  rewrite put_bytes_in by (cbn; lia). cbn [mbind res_bind].
  change (take _ d ++ _) with (with_checksum d 0 0). rewrite with_checksum_len, Hlen by done.
  cbn [mbind res_bind].
  assert (Hge : 0 ≤ len).
  { unfold lsa_length, get16 in Hlen. run_in Hlen. injection Hlen as <-.
    do 2 match goal with H : get_byte _ _ = Ok ?b |- _ =>
      apply get_byte_Ok in H as [_ H]; apply (bytes_ok_lookup _ _ _ Hd) in H; unfold is_u8 in H end. lia. }
  assert (Hu : u16 (len - 2) = len + 65534).
  { unfold u16. symmetry. apply (Z.mod_unique _ _ (-1)); lia. }
  rewrite Hu. rewrite chunk_loop_overread; rewrite ?with_checksum_length by done; try done; try lia.
  by apply with_checksum_bytes.
Qed.

(** ** Time *)

(** The microseconds of a time. *)
Definition usecs (a : timeval) : Z := tv_sec a * 1000000 + tv_usec a.

Lemma adjust_down_spec fuel : ∀ a,
  tv_usec a < 1000000 * (Z.of_nat fuel + 1) →
  usecs (adjust_down fuel a) = usecs a ∧ tv_usec (adjust_down fuel a) < 1000000 ∧
  (0 ≤ tv_usec a → 0 ≤ tv_usec (adjust_down fuel a)) ∧
  (tv_usec a < 0 → tv_usec (adjust_down fuel a) = tv_usec a).
Proof.
  induction fuel as [|fuel IH]; intros a H; cbn [adjust_down]; [repeat split; try done; lia|].
  rewrite Z.geb_leb. destruct (Z.leb_spec 1000000 (tv_usec a)); [|repeat split; done || lia].
  destruct (IH (Timeval (tv_sec a + 1) (tv_usec a - 1000000))) as (E & ? & Hp & Hn); cbn [tv_usec] in *; [lia|].
  rewrite E. unfold usecs. cbn [tv_sec tv_usec] in *. repeat split; try lia.
Qed.

Lemma adjust_up_spec fuel : ∀ a,
  - 1000000 * Z.of_nat fuel ≤ tv_usec a < 1000000 →
  usecs (adjust_up fuel a) = usecs a ∧ 0 ≤ tv_usec (adjust_up fuel a) < 1000000.
Proof.
  induction fuel as [|fuel IH]; intros a H; cbn [adjust_up]; [split; [done|lia]|].
  destruct (Z.ltb_spec (tv_usec a) 0); [|split; [done|lia]].
  destruct (IH (Timeval (tv_sec a - 1) (tv_usec a + 1000000))) as (E & ?); cbn [tv_usec] in *; [lia|].
  rewrite E. unfold usecs. cbn [tv_sec tv_usec] in *. split; lia.
Qed.

(** The loops of tv_adjust bring the microseconds into range and keep the time. *)
Lemma tv_adjust_spec a : usecs (tv_adjust a) = usecs a ∧ 0 ≤ tv_usec (tv_adjust a) < 1000000.
Proof.
  unfold tv_adjust. set (n := Z.to_nat (Z.abs (tv_usec a) / 1000000 + 1)).
  assert (Hn : Z.abs (tv_usec a) < 1000000 * Z.of_nat n) by (subst n; dm_lia).
  destruct (adjust_down_spec n a) as (E & Hlt & Hp & Hneg); [lia|].
  destruct (adjust_up_spec n (adjust_down n a)) as (E' & Hr).
  - split; [|done]. destruct (Z.lt_ge_cases (tv_usec a) 0) as [H|H]; [rewrite (Hneg H)|specialize (Hp H)]; lia.
  - split; [congruence|done].
Qed.

(** ospf_lsa_refresh_delay never trips its assertion, and the delay is the
    least number of seconds after which MinLSInterval has passed since the LSA
    was originated. *)
Theorem ospf_lsa_refresh_delay_least now lsa :
  ∃ delay, ospf_lsa_refresh_delay now lsa = Ok delay ∧ 0 ≤ delay ∧
    usecs (l_tv_orig lsa) + OSPF_MIN_LS_INTERVAL * 1000000 ≤ usecs now + delay * 1000000 ∧
    (0 < delay → usecs now + (delay - 1) * 1000000 < usecs (l_tv_orig lsa) + OSPF_MIN_LS_INTERVAL * 1000000).
Proof.
  unfold ospf_lsa_refresh_delay, tv_ceil, tv_cmp. set (orig := l_tv_orig lsa).
  unfold OSPF_MIN_LS_INTERVAL.
  assert (Hd : usecs (tv_sub now orig) = usecs now - usecs orig ∧ 0 ≤ tv_usec (tv_sub now orig) < 1000000).
  { unfold tv_sub. destruct (tv_adjust_spec (Timeval (tv_sec now - tv_sec orig) (tv_usec now - tv_usec orig)))
      as [-> ?]. split; [unfold usecs; cbn [tv_sec tv_usec]; lia|done]. }
  set (delta := tv_sub now orig) in *. clearbody delta. destruct Hd as [Hd Hdr].
  assert (Hs : usecs (tv_sub (int2tv 5) delta) = 5000000 - usecs delta ∧
    0 ≤ tv_usec (tv_sub (int2tv 5) delta) < 1000000).
  { unfold tv_sub, int2tv. destruct (tv_adjust_spec (Timeval (5 - tv_sec delta) (0 - tv_usec delta))) as [E ?].
    cbn [tv_sec tv_usec] in *. rewrite E. split; [unfold usecs; cbn [tv_sec tv_usec]; lia|done]. }
  set (left := tv_sub (int2tv 5) delta) in *. clearbody left. destruct Hs as [Hs _].
  destruct (tv_adjust_spec left) as [Ha Har]. set (adj := tv_adjust left) in *. clearbody adj.
  unfold usecs in Hd, Hs, Ha. cbn [int2tv tv_sec tv_usec].
  destruct (Z.eqb_spec (tv_sec delta) 5) as [E5|E5];
    match goal with |- context [?x <? 0] => destruct (Z.ltb_spec x 0) end.
  all: try (exists 0; split; [done|]; unfold usecs in *; lia).
  all: destruct (Z.eqb_spec (tv_usec adj) 0) as [E0|E0]; cbn [negb];
    (rewrite (proj2 (Z.gtb_lt _ _)) by lia); cbn [c_assert mbind res_bind];
    eexists; (split; [done|]); unfold usecs in *; lia.
Qed.

(** ** The order of LSAs *)

Lemma get16_read d off :
  0 ≤ off → off + 1 < Z.of_nat (length d) → ∃ v, get16 d off = Ok v.
Proof.
  intros H0 H1. unfold get16.
  destruct (lookup_lt_is_Some_2 d (Z.to_nat off)) as [a Ha]; [lia|].
  destruct (lookup_lt_is_Some_2 d (Z.to_nat (off + 1))) as [b Hb]; [lia|].
  rewrite (proj2 (get_byte_Ok d off a)) by done.
  rewrite (proj2 (get_byte_Ok d (off + 1) b)) by (split; [lia|done]). by eexists.
Qed.

Lemma get32_read d off :
  0 ≤ off → off + 3 < Z.of_nat (length d) → ∃ v, get32 d off = Ok v.
Proof.
  intros H0 H1. unfold get32. destruct (get16_read d off) as [a ->]; [lia..|].
  destruct (get16_read d (off + 2)) as [b ->]; [lia..|]. by eexists.
Qed.

(** What the comparison of two LSAs looks at: the sequence number, the checksum
    and the age. *)
Record lsa_rank := Rank { r_seq : Z; r_sum : Z; r_age : Z }.

Definition rank_cmp (a b : lsa_rank) : Z :=
  if r_seq a >? r_seq b then 1
  else if r_seq a <? r_seq b then -1
  else if negb (r_sum a - r_sum b =? 0) then r_sum a - r_sum b
  else if (r_age a =? OSPF_LSA_MAXAGE) && negb (r_age b =? OSPF_LSA_MAXAGE) then 1
  else if negb (r_age a =? OSPF_LSA_MAXAGE) && (r_age b =? OSPF_LSA_MAXAGE) then -1
  else if r_age a - r_age b >? OSPF_LSA_MAXAGE_DIFF then -1
  else if r_age b - r_age a >? OSPF_LSA_MAXAGE_DIFF then 1 else 0.

(** The rank of an LSA at a time. *)
Definition ranked (now : timeval) (l : ospf_lsa) (k : lsa_rank) : Prop :=
  (∃ s, lsa_seqnum (l_data l) = Ok s ∧ s32 s = r_seq k) ∧
  lsa_checksum (l_data l) = Ok (r_sum k) ∧ LS_AGE now l = Ok (r_age k) ∧
  r_age k ≤ OSPF_LSA_MAXAGE.

Lemma ranked_exists now l : (20 ≤ length (l_data l))%nat → ∃ k, ranked now l k.
Proof.
  intros Hl. destruct (get32_read (l_data l) 12) as [s Hs]; [lia..|].
  destruct (get16_read (l_data l) 16) as [c Hc]; [lia..|].
  destruct (get16_read (l_data l) 0) as [a Ha]; [lia..|].
  unfold ranked, LS_AGE, get_age, lsa_age. rewrite Ha. cbn [mbind res_bind].
  eexists (Rank (s32 s) c _). cbn [r_seq r_sum r_age].
  split; [by exists s|]. split; [done|]. split; [done|]. case_bool; lia.
Qed.

Lemma more_recent_ranked now l1 l2 a b :
  ranked now l1 a → ranked now l2 b →
  ospf_lsa_more_recent now (Some l1) (Some l2) = Ok (rank_cmp a b).
Proof.
  intros ((s1 & Hs1 & E1) & Hc1 & Ha1 & _) ((s2 & Hs2 & E2) & Hc2 & Ha2 & _).
  unfold ospf_lsa_more_recent, rank_cmp, compare_age, IS_LSA_MAXAGE.
  rewrite Hs1, Hs2. cbn [mbind res_bind]. rewrite E1, E2.
  destruct (r_seq a >? r_seq b); [done|]. destruct (r_seq a <? r_seq b); [done|].
  rewrite Hc1, Hc2. cbn [mbind res_bind]. destruct (negb _); [done|].
  rewrite Ha1, Ha2. cbn [mbind res_bind].
  by destruct (r_age a =? OSPF_LSA_MAXAGE), (r_age b =? OSPF_LSA_MAXAGE).
Qed.

(** When [a] is the more recent one. *)
Lemma rank_cmp_pos a b :
  r_age a ≤ OSPF_LSA_MAXAGE → r_age b ≤ OSPF_LSA_MAXAGE →
  0 < rank_cmp a b ↔
  r_seq b < r_seq a ∨ r_seq a = r_seq b ∧
    (r_sum b < r_sum a ∨ r_sum a = r_sum b ∧
      (r_age a = OSPF_LSA_MAXAGE ∧ r_age b < OSPF_LSA_MAXAGE ∨
       r_age b < OSPF_LSA_MAXAGE ∧ OSPF_LSA_MAXAGE_DIFF < r_age b - r_age a)).
Proof.
  unfold rank_cmp, OSPF_LSA_MAXAGE, OSPF_LSA_MAXAGE_DIFF. intros Ha Hb. rewrite !Z.gtb_ltb.
  destruct (Z.ltb_spec (r_seq b) (r_seq a)); [lia|].
  destruct (Z.ltb_spec (r_seq a) (r_seq b)); [lia|].
  destruct (Z.eqb_spec (r_sum a - r_sum b) 0); cbn [negb]; [|lia].
  destruct (Z.eqb_spec (r_age a) 3600), (Z.eqb_spec (r_age b) 3600); cbn [negb andb]; try lia.
  all: destruct (Z.ltb_spec 900 (r_age a - r_age b)); try lia.
  all: destruct (Z.ltb_spec 900 (r_age b - r_age a)); lia.
Qed.

Lemma rank_cmp_opp a b : Z.sgn (rank_cmp b a) = - Z.sgn (rank_cmp a b).
Proof.
  unfold rank_cmp. rewrite !Z.gtb_ltb.
  destruct (Z.ltb_spec (r_seq b) (r_seq a)), (Z.ltb_spec (r_seq a) (r_seq b)); try done; try lia.
  destruct (Z.eqb_spec (r_sum a - r_sum b) 0), (Z.eqb_spec (r_sum b - r_sum a) 0); cbn [negb]; try lia.
  destruct (r_age a =? OSPF_LSA_MAXAGE), (r_age b =? OSPF_LSA_MAXAGE); cbn [negb andb]; try done.
  all: unfold OSPF_LSA_MAXAGE_DIFF; destruct (Z.ltb_spec 900 (r_age a - r_age b)),
    (Z.ltb_spec 900 (r_age b - r_age a)); done || lia.
Qed.

(** At any moment ospf_lsa_more_recent is a strict order: on LSAs with a whole
    header it always answers, the answer for the swapped arguments has the
    opposite sign, and an LSA more recent than one more recent than a third is
    more recent than the third. *)
Theorem ospf_lsa_more_recent_order now l1 l2 l3 :
  (20 ≤ length (l_data l1))%nat → (20 ≤ length (l_data l2))%nat → (20 ≤ length (l_data l3))%nat →
  ∃ r12 r21 r23 r13,
    ospf_lsa_more_recent now (Some l1) (Some l2) = Ok r12 ∧
    ospf_lsa_more_recent now (Some l2) (Some l1) = Ok r21 ∧
    ospf_lsa_more_recent now (Some l2) (Some l3) = Ok r23 ∧
    ospf_lsa_more_recent now (Some l1) (Some l3) = Ok r13 ∧
    Z.sgn r21 = - Z.sgn r12 ∧ (0 < r12 → 0 < r23 → 0 < r13).
Proof.
  intros H1 H2 H3. destruct (ranked_exists now l1 H1) as [a Ha].
  destruct (ranked_exists now l2 H2) as [b Hb]. destruct (ranked_exists now l3 H3) as [c Hc].
  do 4 eexists. repeat (split; [by apply more_recent_ranked|]). split; [apply rank_cmp_opp|].
  destruct Ha as (_ & _ & _ & Ha), Hb as (_ & _ & _ & Hb), Hc as (_ & _ & _ & Hc).
  rewrite !rank_cmp_pos by done. unfold OSPF_LSA_MAXAGE, OSPF_LSA_MAXAGE_DIFF in *. lia.
Qed.

(** ** Examples *)

(** A router LSA of 24 octets. *)
Definition ex_lsa : list Z :=
  [0; 1; 2; 1; 10; 0; 0; 1; 10; 0; 0; 1; 128; 0; 0; 1; 0; 0; 0; 24; 3; 0; 0; 1].

Definition ex_summed : list Z :=
  Eval vm_compute in match ospf_lsa_checksum ex_lsa with Ok (_, d) => d | Fail _ => [] end.

Lemma ex_lsa_wf : lsa_wf ex_lsa 24.
Proof. split; [by apply bytes_ok_decide|reflexivity|by compute..]. Qed.

Lemma ex_summed_wf : lsa_wf ex_summed 24.
Proof. split; [by apply bytes_ok_decide|reflexivity|by compute..]. Qed.

Lemma ospf_lsa_checksum_verifies_witness :
  ∃ sum d', ospf_lsa_checksum ex_lsa = Ok (sum, d') ∧ lsa_checksum d' = Ok sum ∧ is_u16 sum ∧
    fletcher_ok d' 24 ∧ lsa_checksum_valid d' = Ok true ∧
    take 16 d' = take 16 ex_lsa ∧ drop 18 d' = drop 18 ex_lsa.
Proof. apply (ospf_lsa_checksum_verifies ex_lsa 24). exact ex_lsa_wf. Defined.

Lemma lsa_corruption_detected_witness : lsa_checksum_valid (<[20%nat := 7]> ex_summed) = Ok false.
Proof.
  apply (lsa_corruption_detected ex_summed 24 20 3 7); try done; try lia.
  exact ex_summed_wf.
Defined.

Lemma lsa_checksum_overread_witness : lsa_checksum_valid (<[19%nat := 0]> ex_lsa) = Fail OutOfBounds.
Proof.
  apply (lsa_checksum_overread _ 0); [by apply bytes_ok_decide|reflexivity|lia|cbn; lia|by vm_compute].
Defined.

Definition ex_record : ospf_lsa := Lsa 0 ex_summed (Timeval 100 0) (Timeval 100 0).

Lemma ospf_lsa_more_recent_order_witness :
  ∃ r12 r21 r23 r13,
    ospf_lsa_more_recent (Timeval 2000 5) (Some ex_record) (Some ex_record) = Ok r12 ∧
    ospf_lsa_more_recent (Timeval 2000 5) (Some ex_record) (Some ex_record) = Ok r21 ∧
    ospf_lsa_more_recent (Timeval 2000 5) (Some ex_record) (Some (Lsa 0 ex_lsa (Timeval 0 0) (Timeval 0 0))) = Ok r23 ∧
    ospf_lsa_more_recent (Timeval 2000 5) (Some ex_record) (Some (Lsa 0 ex_lsa (Timeval 0 0) (Timeval 0 0))) = Ok r13 ∧
    Z.sgn r21 = - Z.sgn r12 ∧ (0 < r12 → 0 < r23 → 0 < r13).
Proof. apply (ospf_lsa_more_recent_order (Timeval 2000 5)); cbn; lia. Defined.
