(* ===== verification/Thread.v ===== *)
(** The event loop: lib/thread.c, with timers kept sorted.

    All threads live in one heap and are linked into the six lists of the master; the
    statements on the links are those of [Dlist], run on the header of a list and the
    common heap.  A function is a number, as is an argument.  The time of day and
    select are arguments.  The union [u] is the member that was stored last;
    reading another one is a fault.  [exceptfd] is always empty and left out. *)

From S2P Require Import Prelude Dlist OspfLsa.

(** * Constants *)

Definition TIMER_SECOND_MICRO : Z := 1000000.
Definition THREAD_READ : Z := 0.
Definition THREAD_WRITE : Z := 1.
Definition THREAD_TIMER : Z := 2.
Definition THREAD_EVENT : Z := 3.
Definition THREAD_READY : Z := 4.
Definition THREAD_UNUSED : Z := 5.
Definition FD_SETSIZE : Z := 1024.

(** * Times *)

(** The two loops are those of tv_adjust of ospfd. *)
Definition timeval_adjust (a : timeval) : timeval :=
  let a := tv_adjust a in
  let a := if tv_sec a <? 0 then Timeval 0 10 else a in
  if TIMER_SECOND_MICRO <? tv_sec a then Timeval TIMER_SECOND_MICRO (tv_usec a) else a.

Definition timeval_subtract (a b : timeval) : timeval :=
  timeval_adjust (Timeval (tv_sec a - tv_sec b) (tv_usec a - tv_usec b)).

(** The difference is truncated to an [int]. *)
Definition timeval_cmp (a b : timeval) : Z :=
  s32 (if tv_sec a =? tv_sec b then tv_usec a - tv_usec b else tv_sec a - tv_sec b).

(** * Data *)

Inductive tunion := UVal (val : Z) | UFd (fd : Z) | USands (sands : timeval).

Record tdata := Tdata { t_type : Z; t_func : Z; t_arg : Z; t_u : tunion }.

Abbreviation thread := (dnode tdata).

Definition set_type (type : Z) (t : tdata) : tdata := Tdata type (t_func t) (t_arg t) (t_u t).
Definition set_u (u : tunion) (t : tdata) : tdata := Tdata (t_type t) (t_func t) (t_arg t) u.

(** THREAD_FD and the time of a timer. *)
Definition u_fd (u : tunion) : res Z := match u with UFd fd => Ok fd | _ => Fail AssertFailed end.
Definition u_sands (u : tunion) : res timeval := match u with USands t => Ok t | _ => Fail AssertFailed end.

Inductive tlid := LRead | LWrite | LTimer | LEvent | LReady | LUnuse.

#[export] Instance tlid_eq_dec : EqDecision tlid.
Proof. solve_decision. Defined.

Record thread_list := ThreadList { tl_head : option positive; tl_tail : option positive; tl_count : Z }.

Record thread_master := Master {
  m_heap : gmap positive thread;
  m_lists : tlid → thread_list;
  m_readfd : gset Z;
  m_writefd : gset Z;
  m_alloc : Z;
}.

Definition thread_master_create : thread_master := Master ∅ (λ _, ThreadList None None 0) ∅ ∅ 0.

Definition list_of (L : tlid) (m : thread_master) : dlist tdata :=
  let l := m_lists m L in Dlist (tl_head l) (tl_tail l) (tl_count l) (m_heap m).

(** [m] with the list [L] and the heap of [l]. *)
Definition put_list (L : tlid) (l : dlist tdata) (m : thread_master) : thread_master :=
  Master (d_nodes l) (λ L', if decide (L' = L) then ThreadList (d_head l) (d_tail l) (d_count l) else m_lists m L')
    (m_readfd m) (m_writefd m) (m_alloc m).

Definition on_tlist {X} (L : tlid) (f : ST (dlist tdata) X) : ST thread_master X := λ m,
  r ← f (list_of L m);
  Ok (r.1, put_list L r.2 m).

Definition tread (p : positive) : ST thread_master thread := λ m,
  t ← of_option UseAfterFree (m_heap m !! p);
  Ok (t, m).

Definition tmod (f : thread_master → thread_master) : ST thread_master unit := λ m, Ok (tt, f m).

Definition set_m_heap (h : gmap positive thread) (m : thread_master) : thread_master :=
  Master h (m_lists m) (m_readfd m) (m_writefd m) (m_alloc m).

Definition tupd (p : positive) (f : tdata → tdata) : ST thread_master unit :=
  t ← tread p;
  tmod (λ m, set_m_heap (<[p := with_data (f (d_data t)) t]> (m_heap m)) m).

(** ** Sets of descriptors *)

Definition fd_check (fd : Z) : res unit := if (0 <=? fd) && (fd <? FD_SETSIZE) then Ok tt else Fail OutOfBounds.

Definition FD_ISSET (fd : Z) (s : gset Z) : res bool :=
  _ ← fd_check fd;
  Ok (bool_decide (fd ∈ s)).

Definition set_readfd (s : gset Z) (m : thread_master) : thread_master := Master (m_heap m) (m_lists m) s (m_writefd m) (m_alloc m).
Definition set_writefd (s : gset Z) (m : thread_master) : thread_master := Master (m_heap m) (m_lists m) (m_readfd m) s (m_alloc m).

(** The set of the list of readers or writers. *)
Definition mfds (w : bool) (m : thread_master) : gset Z := if w then m_writefd m else m_readfd m.
Definition set_mfds (w : bool) (s : gset Z) (m : thread_master) : thread_master := if w then set_writefd s m else set_readfd s m.

Definition FD_SET (w : bool) (fd : Z) : ST thread_master unit :=
  st_lift (fd_check fd);;
  tmod (λ m, set_mfds w ({[fd]} ∪ mfds w m) m).
Definition FD_CLR (w : bool) (fd : Z) : ST thread_master unit :=
  st_lift (fd_check fd);;
  tmod (λ m, set_mfds w (mfds w m ∖ {[fd]}) m).

(** * Lists *)

Definition count_by (d : Z) : ST (dlist tdata) unit :=
  l ← st_get;
  dl_set_count (s32 (d_count l + d)).

Definition thread_list_add (L : tlid) (thread : positive) : ST thread_master unit :=
  on_tlist L (
    dl_write thread (with_next None);;
    l ← st_get;
    dl_write thread (with_prev (d_tail l));;
    dl_link_next (d_tail l) (Some thread);;
    dl_set_tail (Some thread);;
    count_by 1).

Definition thread_list_add_before (L : tlid) (point thread : positive) : ST thread_master unit :=
  on_tlist L (
    dl_write thread (with_next (Some point));;
    n ← dl_read point;
    dl_write thread (with_prev (d_prev n));;
    dl_link_next (d_prev n) (Some thread);;
    dl_write point (with_prev (Some thread));;
    count_by 1).

Definition thread_list_delete (L : tlid) (thread : positive) : ST thread_master unit :=
  on_tlist L (
    n ← dl_read thread;
    dl_link_prev (d_next n) (d_prev n);;
    n ← dl_read thread;
    dl_link_next (d_prev n) (d_next n);;
    dl_write thread (with_next None ∘ with_prev None);;
    count_by (-1)).

Definition thread_add_unuse (thread : positive) : ST thread_master unit :=
  t ← tread thread;
  st_lift (c_assert (bool_decide (d_next t = None)));;
  st_lift (c_assert (bool_decide (d_prev t = None)));;
  st_lift (c_assert (t_type (d_data t) =? THREAD_UNUSED));;
  thread_list_add LUnuse thread.

Definition thread_trim_head (L : tlid) : ST thread_master (option positive) :=
  m ← st_get;
  match tl_head (m_lists m L) with
  | Some p => thread_list_delete L p;; mret (Some p)
  | None => mret None
  end.

Definition thread_empty (L : tlid) (m : thread_master) : bool := bool_decide (tl_head (m_lists m L) = None).

(** The union of a thread of the unuse list keeps its contents. *)
Definition thread_get (type func arg : Z) : ST thread_master positive :=
  m ← st_get;
  o ← match tl_head (m_lists m LUnuse) with
      | Some _ => thread_trim_head LUnuse
      | None =>
          let p := fresh (dom (m_heap m)) in
          st_put (Master (<[p := Dnode (Tdata 0 0 0 (UVal 0)) None None]> (m_heap m)) (m_lists m) (m_readfd m) (m_writefd m) (m_alloc m + 1));;
          mret (Some p)
      end;
  p ← st_lift (of_option NullDeref o);
  tupd p (λ t, Tdata type func arg (t_u t));;
  mret p.

(** * Adding threads *)

(** thread_add_read and thread_add_write. *)
Definition thread_add_fd (w : bool) (func arg fd : Z) : ST thread_master (option positive) :=
  m ← st_get;
  set ← st_lift (FD_ISSET fd (mfds w m));
  if (set : bool) then mret None
  else
    p ← thread_get (if w then THREAD_WRITE else THREAD_READ) func arg;
    FD_SET w fd;;
    tupd p (set_u (UFd fd));;
    thread_list_add (if w then LWrite else LRead) p;;
    mret (Some p).

Definition thread_add_read : Z → Z → Z → ST thread_master (option positive) := thread_add_fd false.
Definition thread_add_write : Z → Z → Z → ST thread_master (option positive) := thread_add_fd true.

(** The first timer that does not run out before [sands]. *)
Fixpoint timer_point (fuel : nat) (sands : timeval) (tt : option positive) (h : gmap positive thread) : res (option positive) :=
  match tt, fuel with
  | None, _ => Ok None
  | Some _, O => Fail OutOfFuel
  | Some p, S fuel =>
      t ← of_option UseAfterFree (h !! p);
      s ← u_sands (t_u (d_data t));
      if timeval_cmp sands s <=? 0 then Ok (Some p) else timer_point fuel sands (d_next t) h
  end.

Definition thread_add_timer (now : timeval) (func arg timer : Z) : ST thread_master positive :=
  p ← thread_get THREAD_TIMER func arg;
  let sands := Timeval (tv_sec now + timer) (tv_usec now) in
  tupd p (set_u (USands sands));;
  m ← st_get;
  point ← st_lift (timer_point (size (m_heap m)) sands (tl_head (m_lists m LTimer)) (m_heap m));
  match point with
  | Some q => thread_list_add_before LTimer q p
  | None => thread_list_add LTimer p
  end;;
  mret p.

Definition thread_add_event (func arg val : Z) : ST thread_master positive :=
  p ← thread_get THREAD_EVENT func arg;
  tupd p (set_u (UVal val));;
  thread_list_add LEvent p;;
  mret p.

(** * Cancelling threads *)

Definition cancel_fd (w : bool) (L : tlid) (thread : positive) (t : tdata) : ST thread_master unit :=
  fd ← st_lift (u_fd (t_u t));
  m ← st_get;
  set ← st_lift (FD_ISSET fd (mfds w m));
  st_lift (c_assert set);;
  FD_CLR w fd;;
  thread_list_delete L thread.

Definition thread_cancel (thread : positive) : ST thread_master unit :=
  t ← tread thread;
  let type := t_type (d_data t) in
  (if type =? THREAD_READ then cancel_fd false LRead thread (d_data t)
   else if type =? THREAD_WRITE then cancel_fd true LWrite thread (d_data t)
   else if type =? THREAD_TIMER then thread_list_delete LTimer thread
   else if type =? THREAD_EVENT then thread_list_delete LEvent thread
   else if type =? THREAD_READY then thread_list_delete LReady thread
   else mret tt);;
  tupd thread (set_type THREAD_UNUSED);;
  thread_add_unuse thread.

Fixpoint cancel_event_loop (fuel : nat) (arg : Z) (thread : option positive) : ST thread_master unit :=
  match thread, fuel with
  | None, _ => mret tt
  | Some _, O => st_lift (Fail OutOfFuel)
  | Some p, S fuel =>
      t ← tread p;
      (if t_arg (d_data t) =? arg then
         thread_list_delete LEvent p;;
         tupd p (set_type THREAD_UNUSED);;
         thread_add_unuse p
       else mret tt);;
      cancel_event_loop fuel arg (d_next t)
  end.

Definition thread_cancel_event (arg : Z) : ST thread_master unit :=
  m ← st_get;
  cancel_event_loop (size (m_heap m)) arg (tl_head (m_lists m LEvent)).

(** * The loop *)

(** How long select may wait; [None] is for ever. *)
Definition thread_timer_wait (now : timeval) : ST thread_master (option timeval) :=
  m ← st_get;
  match tl_head (m_lists m LTimer) with
  | Some p =>
      t ← tread p;
      s ← st_lift (u_sands (t_u (d_data t)));
      let timer_min := timeval_subtract s now in
      mret (Some (if tv_sec timer_min <? 0 then Timeval 0 10 else timer_min))
  | None => mret None
  end.

(** The thread is copied to [fetch], which is returned. *)
Definition thread_run (thread : positive) : ST thread_master tdata :=
  t ← tread thread;
  tupd thread (set_type THREAD_UNUSED);;
  thread_add_unuse thread;;
  mret (d_data t).

Fixpoint process_fd_loop (fuel : nat) (w : bool) (L : tlid) (fdset : gset Z) (thread : option positive) : ST thread_master unit :=
  match thread, fuel with
  | None, _ => mret tt
  | Some _, O => st_lift (Fail OutOfFuel)
  | Some p, S fuel =>
      t ← tread p;
      fd ← st_lift (u_fd (t_u (d_data t)));
      ready ← st_lift (FD_ISSET fd fdset);
      (if (ready : bool) then
         m ← st_get;
         set ← st_lift (FD_ISSET fd (mfds w m));
         st_lift (c_assert set);;
         FD_CLR w fd;;
         thread_list_delete L p;;
         thread_list_add LReady p;;
         tupd p (set_type THREAD_READY)
       else mret tt);;
      process_fd_loop fuel w L fdset (d_next t)
  end.

Definition thread_process_fd (w : bool) (fdset : gset Z) : ST thread_master unit :=
  let L := if w then LWrite else LRead in
  m ← st_get;
  process_fd_loop (size (m_heap m)) w L fdset (tl_head (m_lists m L)).

(** The first timer that has run out. *)
Fixpoint timer_due (fuel : nat) (now : timeval) (p : option positive) (h : gmap positive thread) : res (option positive) :=
  match p, fuel with
  | None, _ => Ok None
  | Some _, O => Fail OutOfFuel
  | Some p, S fuel =>
      t ← of_option UseAfterFree (h !! p);
      s ← u_sands (t_u (d_data t));
      if 0 <=? timeval_cmp now s then Ok (Some p) else timer_due fuel now (d_next t) h
  end.

(** What select returns: the time has run out, it was interrupted, it failed, or the
    descriptors that are ready. *)
Inductive select_result := SelTimeout | SelEintr | SelError | SelReady (readfd writefd : gset Z).

(** select: the descriptors that are watched and the time to wait. *)
Definition select_fun : Type := gset Z → gset Z → option timeval → select_result.

(** One round of the loop of thread_fetch, with the time of day when it starts ([now]) and
    when it comes to wait ([now']); [None] when the loop goes on. *)
Definition fetch_round (now now' : timeval) (select : select_fun) : ST thread_master (option (option tdata)) :=
  e ← thread_trim_head LEvent;
  match e with
  | Some p => t ← thread_run p; mret (Some (Some t))
  | None =>
      m ← st_get;
      due ← st_lift (timer_due (size (m_heap m)) now (tl_head (m_lists m LTimer)) (m_heap m));
      match due with
      | Some p => thread_list_delete LTimer p;; t ← thread_run p; mret (Some (Some t))
      | None =>
          r ← thread_trim_head LReady;
          match r with
          | Some p => t ← thread_run p; mret (Some (Some t))
          | None =>
              m ← st_get;
              timer_wait ← thread_timer_wait now';
              match select (m_readfd m) (m_writefd m) timer_wait with
              | SelTimeout | SelEintr => mret None
              | SelError => mret (Some None)
              | SelReady readfd writefd =>
                  thread_process_fd false readfd;;
                  thread_process_fd true writefd;;
                  r ← thread_trim_head LReady;
                  match r with
                  | Some p => t ← thread_run p; mret (Some (Some t))
                  | None => mret None
                  end
              end
          end
      end
  end.

(** thread_fetch, with what happens in its rounds; the end of [env] is a fault. *)
Fixpoint thread_fetch (env : list (timeval * timeval * select_fun)) : ST thread_master (option tdata) :=
  match env with
  | [] => st_lift (Fail OutOfFuel)
  | (now, now', select) :: env =>
      r ← fetch_round now now' select;
      match r with
      | Some t => mret t
      | None => thread_fetch env
      end
  end.

(** * The end *)

Fixpoint list_free_loop (fuel : nat) (t : option positive) : ST thread_master Z :=
  match t, fuel with
  | None, _ => mret 0
  | Some _, O => st_lift (Fail OutOfFuel)
  | Some p, S fuel =>
      n ← tread p;
      tmod (λ m, Master (delete p (m_heap m)) (m_lists m) (m_readfd m) (m_writefd m) (m_alloc m - 1));;
      c ← list_free_loop fuel (d_next n);
      mret (c + 1)
  end.

(** The header keeps its pointers, only its count goes down. *)
Definition thread_list_free (L : tlid) : ST thread_master unit :=
  m ← st_get;
  c ← list_free_loop (S (size (m_heap m))) (tl_head (m_lists m L));
  tmod (λ m, let l := m_lists m L in
    put_list L (Dlist (tl_head l) (tl_tail l) (s32 (tl_count l - c)) (m_heap m)) m).

Definition thread_master_free : ST thread_master unit :=
  thread_list_free LRead;;
  thread_list_free LWrite;;
  thread_list_free LTimer;;
  thread_list_free LEvent;;
  thread_list_free LReady;;
  thread_list_free LUnuse.
