(* ===== verification/ThreadFacts.v ===== *)
(** The lists of the event loop: what a master stands for, and what the operations on its
    lists do to it. *)

From S2P Require Import Prelude Dlist OspfLsa Thread.

Abbreviation contents := (tlid → list (positive * tdata)).

(** [c] with [l] for the list [L]. *)
Definition upd (c : contents) (L : tlid) (l : list (positive * tdata)) : contents :=
  λ L', if decide (L' = L) then l else c L'.

Lemma upd_eq c L l : upd c L l L = l.
Proof. unfold upd. by rewrite decide_True. Qed.
Lemma upd_ne c L L' l : L' ≠ L → upd c L l L' = c L'.
Proof. intros H. unfold upd. by rewrite decide_False. Qed.

(** The lists of [m] are [c]; [o] is a thread that is on no list. *)
Record mrep (m : thread_master) (c : contents) (o : option (positive * tdata)) : Prop := Mrep {
  mr_shape : ∀ L, dl_shape (list_of L m) (c L);
  mr_count : ∀ L, tl_count (m_lists m L) = s32 (Z.of_nat (length (c L)));
  mr_disj : ∀ L1 L2 p, p ∈ (c L1).*1 → p ∈ (c L2).*1 → L1 = L2;
  mr_off : ∀ p x, o = Some (p, x) → m_heap m !! p = Some (Dnode x None None) ∧ ∀ L, p ∉ (c L).*1;
  mr_dom : ∀ p, is_Some (m_heap m !! p) → (∃ L, p ∈ (c L).*1) ∨ fst <$> o = Some p;
}.

(** The sets of descriptors and the number of threads are kept. *)
Record kept (m m' : thread_master) : Prop := Kept {
  kp_read : m_readfd m' = m_readfd m;
  kp_write : m_writefd m' = m_writefd m;
  kp_alloc : m_alloc m' = m_alloc m;
}.

Lemma mkept_refl m : kept m m.
Proof. done. Qed.
Lemma mkept_trans m1 m2 m3 : kept m1 m2 → kept m2 m3 → kept m1 m3.
Proof. intros [] []. split; congruence. Qed.

Lemma list_of_put L l m L' :
  list_of L' (put_list L l m) =
    if decide (L' = L) then l
    else Dlist (tl_head (m_lists m L')) (tl_tail (m_lists m L')) (tl_count (m_lists m L')) (d_nodes l).
Proof. unfold list_of, put_list. cbn. destruct (decide (L' = L)); cbn; [by destruct l|done]. Qed.

(** A list of the old heap in the new one. *)
Lemma shape_frame (l : dlist tdata) ns h :
  dl_shape l ns → (∀ q, q ∈ ns.*1 → h !! q = d_nodes l !! q) → dl_shape (Dlist (d_head l) (d_tail l) (d_count l) h) ns.
Proof. intros [] Hh. split; try done. cbn. eapply dseg_ext; [|done]. done. Qed.

Lemma s32_step (x y : Z) : s32 (s32 x + y) = s32 (x + y).
Proof.
  unfold s32. f_equal. replace ((x + 2 ^ 31) mod 2 ^ 32 - 2 ^ 31 + y + 2 ^ 31) with ((x + 2 ^ 31) mod 2 ^ 32 + y) by lia.
  rewrite Zplus_mod_idemp_l. f_equal. lia.
Qed.

Lemma on_tlist_run {X} L (f : ST (dlist tdata) X) m (x : X) l :
  f (list_of L m) = Ok (x, l) → on_tlist L f m = Ok (x, put_list L l m).
Proof. intros H. unfold on_tlist. by rewrite H. Qed.

Lemma count_by_run d (l : dlist tdata) : count_by d l = Ok (tt, counted (s32 (d_count l + d)) l).
Proof. done. Qed.

Lemma lastp_in (ns : list (positive * tdata)) q : lastp ns = Some q → q ∈ ns.*1.
Proof. apply lastp_elem. Qed.

(** * Removal *)

Lemma delete_run L p x ns ms m c :
  mrep m c None → c L = ns ++ (p, x) :: ms →
  ∃ m', thread_list_delete L p m = Ok (tt, m') ∧ mrep m' (upd c L (ns ++ ms)) (Some (p, x)) ∧ kept m m'.
Proof.
  intros [Hsh Hct Hdj _ Hdom] Hc. pose proof (Hsh L) as HL. rewrite Hc in HL. set (l := list_of L m) in *.
  destruct (shape_node_at _ _ _ _ _ HL) as (Hp & Hlp & Hhp & Hl & Hh & Hlh).
  destruct (dl_link_prev_spec (headp ms) (lastp ns) l Hh) as (la & Ha & Hat & Hah & Hac & Han).
  assert (d_nodes la !! p = Some (Dnode x (headp ms) (lastp ns))) as Hpa by (rewrite Han, Hp, if_at_ne by done; done).
  destruct (dl_link_next_spec (lastp ns) (headp ms) la) as (lb & Hb & Hbh & Hbt & Hbc & Hbn).
  { intros q Hq. rewrite Han. by apply fmap_is_Some, Hl. }
  assert (d_nodes lb !! p = Some (Dnode x (headp ms) (lastp ns))) as Hpb by (rewrite Hbn, Hpa, if_at_ne by done; done).
  set (lc := Dlist (d_head lb) (d_tail lb) (d_count lb) (<[p := Dnode x None None]> (d_nodes lb))).
  set (ld := counted (s32 (d_count lc + -1)) lc).
  assert (thread_list_delete L p m = Ok (tt, put_list L ld m)) as Hrun.
  { apply on_tlist_run. fold l. rewrite (st_bind_Ok _ _ _ (Dnode x (headp ms) (lastp ns)) l) by (unfold dl_read; by rewrite Hp). cbn [d_prev d_next].
    rewrite (st_bind_Ok _ _ _ _ _ Ha). rewrite (st_bind_Ok _ _ _ (Dnode x (headp ms) (lastp ns)) la) by (unfold dl_read; by rewrite Hpa). cbn [d_prev d_next].
    rewrite (st_bind_Ok _ _ _ _ _ Hb). rewrite (st_bind_Ok _ _ _ tt lc) by (unfold dl_write; by rewrite Hpb). apply count_by_run. }
  assert (Hnodes : ∀ q, q ≠ p → d_nodes ld !! q = (λ n, if_at (lastp ns) q (with_next (headp ms)) (if_at (headp ms) q (with_prev (lastp ns)) n)) <$> d_nodes l !! q).
  { intros q Hq. unfold ld, lc, counted. cbn [d_nodes]. rewrite lookup_insert_ne, Hbn, Han by done. by destruct (d_nodes l !! q). }
  assert (Hother : ∀ q, q ∉ (c L).*1 → d_nodes ld !! q = m_heap m !! q).
  { intros q Hq. rewrite Hc, fmap_app in Hq. cbn in Hq. rewrite Hnodes by set_solver. rewrite !if_at_ne.
    - change (d_nodes l) with (m_heap m). by destruct (m_heap m !! q).
    - intros ?%headp_elem. set_solver.
    - intros ?%lastp_elem. set_solver. }
  assert (HpL : p ∈ (c L).*1) by (rewrite Hc, fmap_app; cbn; set_solver).
  exists (put_list L ld m). split; [done|]. split; [|done]. split.
  - intros L'. rewrite list_of_put. destruct (decide (L' = L)) as [->|Hne].
    + rewrite upd_eq. eapply (shape_removed l ld ns ms p x); [done|cbn; by rewrite Hbh, Hah|cbn; by rewrite Hbt, Hat|done].
    + rewrite upd_ne by done. apply (shape_frame (list_of L' m)); [done|]. intros q Hq. apply Hother. intros HqL. by apply Hne, (Hdj L' L q).
  - intros L'. unfold put_list. cbn. destruct (decide (L' = L)) as [->|Hne]; [|by rewrite upd_ne].
    rewrite upd_eq. cbn. rewrite Hbc, Hac. change (d_count l) with (tl_count (m_lists m L)). rewrite Hct, s32_step, Hc, !length_app. f_equal. cbn. lia.
  - intros L1 L2 q H1 H2. assert (Hsub : ∀ L', q ∈ (upd c L (ns ++ ms) L').*1 → q ∈ (c L').*1).
    { intros L'. unfold upd. destruct (decide (L' = L)) as [->|]; [|done]. rewrite Hc, !fmap_app. cbn. set_solver. }
    by apply (Hdj L1 L2 q); apply Hsub.
  - intros p' x' [= <- <-]. split; [cbn; by rewrite lookup_insert_eq|]. intros L'. unfold upd. destruct (decide (L' = L)) as [->|Hne].
    + pose proof (sh_nodup _ _ HL) as Hnd. rewrite fmap_app in Hnd |- *. cbn in Hnd. apply NoDup_app in Hnd as (_ & Hd & [Hpm _]%NoDup_cons). set_solver.
    + intros Hin. by apply Hne, (Hdj L' L p).
  - intros q [n Hq]. destruct (decide (q = p)) as [->|Hne]; [by right|left].
    assert (is_Some (m_heap m !! q)) as [[L' HL']|?]%Hdom; [|exists L'|done].
    { cbn in Hq. change (<[p:=_]> _ !! q) with (d_nodes ld !! q) in Hq. rewrite Hnodes in Hq by done. by apply fmap_Some in Hq as (? & ? & _); eexists. }
    unfold upd. destruct (decide (L' = L)) as [->|]; [|done]. rewrite Hc, fmap_app in HL'. rewrite fmap_app. cbn in HL'. set_solver.
Qed.

(** * Insertion *)

(** The thread [p], which is on no list, has been linked into the list [L]. *)
Lemma inserted_rep L p x ns ms m c ld :
  mrep m c (Some (p, x)) → c L = ns ++ ms →
  inserted (list_of L m) ld p x (lastp ns) (headp ms) → d_count ld = s32 (tl_count (m_lists m L) + 1) →
  mrep (put_list L ld m) (upd c L (ns ++ (p, x) :: ms)) None.
Proof.
  intros [Hsh Hct Hdj Hoff Hdom] Hc Hins Hcnt. destruct (Hoff p x eq_refl) as [Hp Hpn]. pose proof (Hsh L) as HL. rewrite Hc in HL.
  pose proof Hins as (_ & _ & Hn).
  assert (Hother : ∀ q, q ∉ (c L).*1 → q ≠ p → d_nodes ld !! q = m_heap m !! q).
  { intros q Hq Hne. rewrite Hc, fmap_app in Hq. rewrite Hn, decide_False by done. rewrite !if_at_ne.
    - cbn. by destruct (m_heap m !! q).
    - intros ?%headp_elem. set_solver.
    - intros ?%lastp_elem. set_solver. }
  split.
  - intros L'. rewrite list_of_put. destruct (decide (L' = L)) as [->|Hne].
    + rewrite upd_eq. eapply shape_inserted; [done| |done]. rewrite <- Hc. apply Hpn.
    + rewrite upd_ne by done. apply (shape_frame (list_of L' m)); [done|]. intros q Hq. apply Hother.
      * intros HqL. by apply Hne, (Hdj L' L q).
      * intros ->. by apply (Hpn L').
  - intros L'. unfold put_list. cbn. destruct (decide (L' = L)) as [->|Hne]; [|by rewrite upd_ne].
    rewrite upd_eq. cbn. rewrite Hcnt, Hct, s32_step, Hc, !length_app. f_equal. cbn. lia.
  - assert (Hsub : ∀ L' q, q ∈ (upd c L (ns ++ (p, x) :: ms) L').*1 → q ∈ (c L').*1 ∨ q = p ∧ L' = L).
    { intros L' q. unfold upd. destruct (decide (L' = L)) as [->|]; [|by left]. rewrite Hc, !fmap_app. cbn. set_solver. }
    intros L1 L2 q [H1|[-> ->]]%Hsub [H2|[Hq ->]]%Hsub; [by apply (Hdj L1 L2 q)|subst; by apply Hpn in H1|by apply Hpn in H2|done].
  - done.
  - intros q [n Hq]. left. destruct (decide (q = p)) as [->|Hne].
    { exists L. rewrite upd_eq, fmap_app. cbn. set_solver. }
    assert (is_Some (m_heap m !! q)) as [[L' HL']|Hx]%Hdom; [|exists L'|].
    + cbn in Hq. rewrite Hn, decide_False in Hq by done. by apply fmap_Some in Hq as (? & ? & _); eexists.
    + unfold upd. destruct (decide (L' = L)) as [->|]; [|done]. rewrite Hc, fmap_app in HL'. rewrite fmap_app. cbn. set_solver.
    + cbn in Hx. congruence.
Qed.

Lemma add_run L p x m c :
  mrep m c (Some (p, x)) →
  ∃ m', thread_list_add L p m = Ok (tt, m') ∧ mrep m' (upd c L (c L ++ [(p, x)])) None ∧ kept m m'.
Proof.
  intros Hm. destruct (mr_off _ _ _ Hm p x eq_refl) as [Hp Hpn]. pose proof (mr_shape _ _ _ Hm L) as HL. remember (list_of L m) as l eqn:El. assert (En : d_nodes l = m_heap m) by (by rewrite El).
  assert (Ec : d_count l = tl_count (m_lists m L)) by (by rewrite El).
  set (la := Dlist (d_head l) (d_tail l) (d_count l) (<[p := Dnode x None None]> (d_nodes l))).
  set (lb := Dlist (d_head l) (d_tail l) (d_count l) (<[p := Dnode x None (d_tail l)]> (d_nodes la))).
  assert (Htl : ∀ q, d_tail l = Some q → q ≠ p ∧ is_Some (d_nodes l !! q)).
  { intros q Hq. rewrite (sh_tail _ _ HL) in Hq. apply lastp_elem in Hq. split; [intros ->; by apply (Hpn L)|].
    eapply dseg_lookup; [apply HL|done]. }
  destruct (dl_link_next_spec (d_tail l) (Some p) lb) as (lc & Hc & Hch & Hct & Hcc & Hcn).
  { intros q Hq. destruct (Htl q Hq) as [Hne [n Hn]]. cbn. rewrite !lookup_insert_ne by done. by exists n. }
  set (ld := Dlist (d_head lc) (Some p) (d_count lc) (d_nodes lc)).
  exists (put_list L (counted (s32 (d_count ld + 1)) ld) m). split; [|split; [|done]].
  - apply on_tlist_run. rewrite <- El. rewrite (st_bind_Ok _ _ _ tt la) by (unfold dl_write, la; by rewrite En, Hp).
    rewrite (st_bind_Ok _ _ _ la la) by done.
    rewrite (st_bind_Ok _ _ _ tt lb) by (unfold dl_write; cbn; by rewrite lookup_insert_eq).
    change (d_tail la) with (d_tail l). rewrite (st_bind_Ok _ _ _ _ _ Hc). done.
  - apply inserted_rep; [done|by rewrite app_nil_r| |cbn; by rewrite Hcc, <- Ec]. rewrite <- El.
    split_and!; cbn.
    + rewrite Hch. cbn. by rewrite (sh_tail _ _ HL).
    + done.
    + intros q. rewrite Hcn. cbn. rewrite <- (sh_tail _ _ HL).
      destruct (decide (q = p)) as [->|Hne].
      * rewrite lookup_insert_eq. rewrite if_at_ne; [done|]. intros E. by destruct (Htl p E).
      * rewrite !lookup_insert_ne by done. destruct (d_nodes l !! q); [|done]. cbn. by rewrite (if_at_ne None).
Qed.

Lemma add_before_run L p x q y ns ms m c :
  mrep m c (Some (p, x)) → c L = ns ++ (q, y) :: ms →
  ∃ m', thread_list_add_before L q p m = Ok (tt, m') ∧ mrep m' (upd c L (ns ++ (p, x) :: (q, y) :: ms)) None ∧ kept m m'.
Proof.
  intros Hm HcL. destruct (mr_off _ _ _ Hm p x eq_refl) as [Hp Hpn]. pose proof (mr_shape _ _ _ Hm L) as HL. remember (list_of L m) as l eqn:El. assert (En : d_nodes l = m_heap m) by (by rewrite El).
  assert (Ec : d_count l = tl_count (m_lists m L)) by (by rewrite El).
  rewrite HcL in HL. destruct (shape_node_at _ _ _ _ _ HL) as (Hq & Hlq & _ & Hls & _ & _).
  assert (Hpq : q ≠ p). { intros ->. apply (Hpn L). rewrite HcL, fmap_app. cbn. set_solver. }
  assert (Hlp : lastp ns ≠ Some p). { intros ?%lastp_elem. apply (Hpn L). rewrite HcL, fmap_app. set_solver. }
  set (la := Dlist (d_head l) (d_tail l) (d_count l) (<[p := Dnode x (Some q) None]> (d_nodes l))).
  set (lb := Dlist (d_head l) (d_tail l) (d_count l) (<[p := Dnode x (Some q) (lastp ns)]> (d_nodes la))).
  destruct (dl_link_next_spec (lastp ns) (Some p) lb) as (lc & Hc & Hch & Hct & Hcc & Hcn).
  { intros r Hr. destruct (Hls r Hr) as [n Hn]. cbn. rewrite !lookup_insert_ne by congruence. by exists n. }
  destruct (dl_write_spec q (with_prev (Some p)) lc) as (ld & Hd & Hdh & Hdt & Hdc & Hdn).
  { rewrite Hcn. cbn. rewrite !lookup_insert_ne by done. rewrite Hq. by eexists. }
  exists (put_list L (counted (s32 (d_count ld + 1)) ld) m). split; [|split; [|done]].
  - apply on_tlist_run. rewrite <- El. rewrite (st_bind_Ok _ _ _ tt la) by (unfold dl_write, la; by rewrite En, Hp).
    rewrite (st_bind_Ok _ _ _ (Dnode y (headp ms) (lastp ns)) la) by (unfold dl_read; cbn; rewrite lookup_insert_ne by done; by rewrite Hq).
    rewrite (st_bind_Ok _ _ _ tt lb) by (unfold dl_write; cbn; by rewrite lookup_insert_eq).
    cbn [d_prev]. rewrite (st_bind_Ok _ _ _ _ _ Hc), (st_bind_Ok _ _ _ _ _ Hd). done.
  - apply inserted_rep; [done|done| |cbn; by rewrite Hdc, Hcc, <- Ec]. rewrite <- El.
    split_and!; cbn.
    + by rewrite Hdh, Hch.
    + by rewrite Hdt, Hct.
    + intros r. rewrite Hdn, Hcn. cbn. destruct (decide (r = p)) as [->|Hne].
      * rewrite lookup_insert_eq. rewrite !if_at_ne by congruence. done.
      * rewrite !lookup_insert_ne by done. destruct (d_nodes l !! r); [|done]. cbn. f_equal.
        unfold if_at. by destruct (decide (Some q = Some r)), (decide (lastp ns = Some r)).
Qed.

(** * Threads *)

Lemma tread_run p t m : m_heap m !! p = Some t → tread p m = Ok (t, m).
Proof. intros H. unfold tread. by rewrite H. Qed.

Lemma tupd_run p t f m : m_heap m !! p = Some t → tupd p f m = Ok (tt, set_m_heap (<[p := with_data (f (d_data t)) t]> (m_heap m)) m).
Proof. intros H. unfold tupd. by rewrite (st_bind_Ok _ _ _ _ _ (tread_run p t m H)). Qed.

Lemma in_list_at m c o L ns p x ms :
  mrep m c o → c L = ns ++ (p, x) :: ms → m_heap m !! p = Some (Dnode x (headp ms) (lastp ns)).
Proof. intros Hm Hc. pose proof (mr_shape _ _ _ Hm L) as HL. rewrite Hc in HL. by destruct (shape_node_at _ _ _ _ _ HL) as (Hp & _). Qed.

(** The thread that is on no list changes. *)
Lemma tupd_off p x f m c :
  mrep m c (Some (p, x)) →
  ∃ m', tupd p f m = Ok (tt, m') ∧ mrep m' c (Some (p, f x)) ∧ kept m m'.
Proof.
  intros [Hsh Hct Hdj Hoff Hdom]. destruct (Hoff p x eq_refl) as [Hp Hpn]. rewrite (tupd_run p _ f m Hp). eexists. split; [reflexivity|]. split; [|done].
  split; [|done|done| |].
  - intros L. apply (shape_frame (list_of L m)); [done|]. intros q Hq. cbn. apply lookup_insert_ne. intros <-. by apply (Hpn L).
  - intros p' x' [= <- <-]. split; [cbn; by rewrite lookup_insert_eq|done].
  - intros q [n Hq]. cbn in Hq. destruct (decide (q = p)) as [->|Hne]; [by right|]. rewrite lookup_insert_ne in Hq by done.
    destruct (Hdom q) as [?|Hx]; [by eexists|by left|by right].
Qed.

(** A thread on a list changes. *)
Lemma tupd_on L ns p x ms f m c :
  mrep m c None → c L = ns ++ (p, x) :: ms →
  ∃ m', tupd p f m = Ok (tt, m') ∧ mrep m' (upd c L (ns ++ (p, f x) :: ms)) None ∧ kept m m'.
Proof.
  intros Hm Hc. pose proof (in_list_at _ _ _ _ _ _ _ _ Hm Hc) as Hp. destruct Hm as [Hsh Hct Hdj _ Hdom].
  rewrite (tupd_run p _ f m Hp). eexists. split; [reflexivity|]. split; [|done].
  assert (Hptr : ∀ L', (upd c L (ns ++ (p, f x) :: ms) L').*1 = (c L').*1).
  { intros L'. unfold upd. destruct (decide (L' = L)) as [->|]; [|done]. by rewrite Hc, !fmap_app. }
  split.
  - intros L'. destruct (decide (L' = L)) as [->|Hne].
    + rewrite upd_eq. pose proof (Hsh L) as [Hh Htl Hs Hnd]. rewrite Hc in Hh, Htl, Hs, Hnd. split.
      * cbn in Hh |- *. rewrite Hh. rewrite !headp_app. done.
      * cbn in Htl |- *. rewrite Htl. by rewrite !lastp_app_cons, !lastp_cons.
      * rewrite fmap_app in Hnd. cbn in Hnd. apply NoDup_app in Hnd as (_ & Hd & [Hpm _]%NoDup_cons).
        apply dseg_app in Hs as [Hs1 [Hp1 Hs2]]. apply dseg_app. split.
        -- eapply dseg_ext; [|exact Hs1]. intros q Hq. cbn. apply lookup_insert_ne. intros <-. eapply Hd; [done|left].
        -- cbn. rewrite !from_option_None in *. split; [by rewrite lookup_insert_eq|].
           eapply dseg_ext; [|exact Hs2]. intros q Hq. cbn. apply lookup_insert_ne. by intros <-.
      * rewrite fmap_app in Hnd |- *. done.
    + rewrite upd_ne by done. apply (shape_frame (list_of L' m)); [done|]. intros q Hq. cbn. apply lookup_insert_ne. intros <-.
      apply Hne, (Hdj L' L p); [done|]. rewrite Hc, fmap_app. cbn. set_solver.
  - intros L'. cbn. rewrite Hct. do 2 f_equal. rewrite <- (length_fmap fst (c L')), <- (Hptr L'). by rewrite length_fmap.
  - intros L1 L2 q. rewrite !Hptr. apply Hdj.
  - done.
  - intros q [n Hq]. cbn in Hq. left. assert (is_Some (m_heap m !! q)) as [[L' HL']|?]%Hdom; [|exists L'; by rewrite Hptr|done].
    destruct (decide (q = p)) as [->|Hne]; [by eexists|]. rewrite lookup_insert_ne in Hq by done. by eexists.
Qed.

Lemma unuse_run p x m c :
  mrep m c (Some (p, x)) → t_type x = THREAD_UNUSED →
  ∃ m', thread_add_unuse p m = Ok (tt, m') ∧ mrep m' (upd c LUnuse (c LUnuse ++ [(p, x)])) None ∧ kept m m'.
Proof.
  intros Hm Hx. destruct (mr_off _ _ _ Hm p x eq_refl) as [Hp _]. unfold thread_add_unuse.
  rewrite (st_bind_Ok _ _ _ _ _ (tread_run _ _ _ Hp)). cbn [d_next d_prev d_data]. rewrite (bool_decide_true (None = None)) by done.
  rewrite !(st_bind_Ok _ _ _ tt m) by (unfold st_lift, c_assert; rewrite ?Hx; done). by apply add_run.
Qed.

(** The thread that is on no list becomes unused; its contents are returned. *)
Lemma retire_run p x m c :
  mrep m c (Some (p, x)) →
  ∃ m', (tupd p (set_type THREAD_UNUSED);; thread_add_unuse p) m = Ok (tt, m') ∧
    mrep m' (upd c LUnuse (c LUnuse ++ [(p, set_type THREAD_UNUSED x)])) None ∧ kept m m'.
Proof.
  intros Hm. destruct (tupd_off p x (set_type THREAD_UNUSED) m c Hm) as (m1 & H1 & Hm1 & Hk1).
  destruct (unuse_run p _ m1 c Hm1) as (m2 & H2 & Hm2 & Hk2); [done|]. rewrite (st_bind_Ok _ _ _ _ _ H1).
  exists m2. split_and!; [done|done|]. by eapply mkept_trans.
Qed.

Lemma thread_run_run p x m c :
  mrep m c (Some (p, x)) →
  ∃ m', thread_run p m = Ok (x, m') ∧ mrep m' (upd c LUnuse (c LUnuse ++ [(p, set_type THREAD_UNUSED x)])) None ∧ kept m m'.
Proof.
  intros Hm. destruct (mr_off _ _ _ Hm p x eq_refl) as [Hp _]. destruct (retire_run p x m c Hm) as (m' & Hr & Hm' & Hk).
  exists m'. split_and!; [|done|done]. unfold thread_run. rewrite (st_bind_Ok _ _ _ _ _ (tread_run _ _ _ Hp)).
  unfold mbind, ST_bind in Hr |- *. destruct (tupd p _ m) as [[[] m1]|]; [|done]. by rewrite Hr.
Qed.

Lemma trim_run L m c :
  mrep m c None →
  match c L with
  | [] => thread_trim_head L m = Ok (None, m)
  | (p, x) :: ms => ∃ m', thread_trim_head L m = Ok (Some p, m') ∧ mrep m' (upd c L ms) (Some (p, x)) ∧ kept m m'
  end.
Proof.
  intros Hm. pose proof (sh_head _ _ (mr_shape _ _ _ Hm L)) as Hh. unfold thread_trim_head. rewrite (st_bind_Ok _ _ _ m m) by done.
  cbn in Hh. destruct (c L) as [|[p x] ms] eqn:E; cbn in Hh; rewrite Hh; [done|].
  destruct (delete_run L p x [] ms m c Hm E) as (m' & H & Hm' & Hk). exists m'. by rewrite (st_bind_Ok _ _ _ _ _ H).
Qed.

(** The threads on the lists. *)
Definition total (c : contents) : Z :=
  Z.of_nat (length (c LRead) + length (c LWrite) + length (c LTimer) + length (c LEvent) + length (c LReady) + length (c LUnuse)).

Lemma total_upd c L l : total (upd c L l) = total c - Z.of_nat (length (c L)) + Z.of_nat (length l).
Proof.
  unfold total, upd.
  destruct L; repeat first [rewrite decide_True by done|rewrite decide_False by done]; lia.
Qed.

(** A new thread: one that is not used, or a fresh one. *)
Lemma get_run type func arg m c :
  mrep m c None → m_alloc m = total c →
  ∃ p u m', thread_get type func arg m = Ok (p, m') ∧ mrep m' (upd c LUnuse (tail (c LUnuse))) (Some (p, Tdata type func arg u)) ∧
    m_readfd m' = m_readfd m ∧ m_writefd m' = m_writefd m ∧ m_alloc m' = total (upd c LUnuse (tail (c LUnuse))) + 1.
Proof.
  intros Hm Hal. unfold thread_get. rewrite (st_bind_Ok _ _ _ m m) by done.
  pose proof (sh_head _ _ (mr_shape _ _ _ Hm LUnuse)) as Hh. cbn in Hh. pose proof (trim_run LUnuse m c Hm) as Htrim.
  assert (∃ p x m1, (match tl_head (m_lists m LUnuse) with
      | Some _ => thread_trim_head LUnuse
      | None =>
          let p := fresh (dom (m_heap m)) in
          st_put (Master (<[p := Dnode (Tdata 0 0 0 (UVal 0)) None None]> (m_heap m)) (m_lists m) (m_readfd m) (m_writefd m) (m_alloc m + 1));;
          mret (Some p)
      end) m = Ok (Some p, m1) ∧ mrep m1 (upd c LUnuse (tail (c LUnuse))) (Some (p, x)) ∧
      m_readfd m1 = m_readfd m ∧ m_writefd m1 = m_writefd m ∧ m_alloc m1 = total (upd c LUnuse (tail (c LUnuse))) + 1) as (p & x & m1 & H1 & Hm1 & Hr1 & Hw1 & Ha1).
  { rewrite Hh. destruct (c LUnuse) as [|[p x] ms] eqn:E; cbn [headp head fmap option_fmap option_map fst tail].
    - set (p := fresh (dom (m_heap m))). assert (m_heap m !! p = None) as Hp by (apply not_elem_of_dom, is_fresh).
      exists p, (Tdata 0 0 0 (UVal 0)). eexists. split; [reflexivity|].
      split; [|split; [done|]; split; [done|]; rewrite total_upd, E; cbn; lia]. destruct Hm as [Hsh Hct Hdj _ Hdom].
      assert (Hc : ∀ L, upd c LUnuse [] L = c L) by (intros L; unfold upd; destruct (decide _) as [->|]; done).
      assert (Hpn : ∀ L, p ∉ (c L).*1).
      { intros L Hin. destruct (dseg_lookup _ _ _ _ p (sh_seg _ _ (Hsh L)) Hin) as [n Hn]. cbn in Hn. congruence. }
      split.
      + intros L. rewrite Hc. apply (shape_frame (list_of L m)); [done|]. intros q Hq. cbn. apply lookup_insert_ne. intros <-. by apply (Hpn L).
      + intros L. rewrite Hc. apply Hct.
      + intros L1 L2 q. rewrite !Hc. apply Hdj.
      + intros p' x' [= <- <-]. split; [cbn; by rewrite lookup_insert_eq|]. intros L. rewrite Hc. apply Hpn.
      + intros q [n Hq]. cbn in Hq. destruct (decide (q = p)) as [->|Hne]; [by right|]. rewrite lookup_insert_ne in Hq by done.
        destruct (Hdom q) as [[L HL]|?]; [by eexists|left; exists L; by rewrite Hc|done].
    - destruct Htrim as (m1 & H1 & Hm1 & [? ? Hka]). exists p, x, m1. split_and!; [done..|]. rewrite Hka, Hal, total_upd, E. cbn. lia. }
  rewrite (st_bind_Ok _ _ _ _ _ H1). rewrite (st_bind_Ok _ _ _ p m1) by done.
  destruct (tupd_off p x (λ t, Tdata type func arg (t_u t)) m1 _ Hm1) as (m2 & H2 & Hm2 & [? ? ?]).
  rewrite (st_bind_Ok _ _ _ _ _ H2). exists p, (t_u x), m2. split_and!; [done|done|congruence..].
Qed.
