(* ===== verification/ThreadRun.v ===== *)
(** The event loop: every operation keeps the lists in good order, and thread_fetch returns
    the threads in the order of their priorities. *)

From stdpp Require Import sorting.
From S2P Require Import Prelude Dlist OspfLsa Thread ThreadFacts.

(** * Times *)

Definition time_ok (t : timeval) : Prop := 0 ≤ tv_sec t < 2^31 ∧ 0 ≤ tv_usec t < 1000000.

Lemma timeval_cmp_usecs a b : time_ok a → time_ok b → (timeval_cmp a b ≤ 0 ↔ usecs a ≤ usecs b).
Proof.
  intros [Ha Ha'] [Hb Hb']. unfold timeval_cmp, usecs.
  assert (Hs : ∀ z, - 2^31 ≤ z < 2^31 → s32 z = z) by (intros z Hz; unfold s32; rewrite Z.mod_small; lia).
  destruct (Z.eqb_spec (tv_sec a) (tv_sec b)); rewrite Hs by lia; lia.
Qed.

Lemma timeval_cmp_due a b : time_ok a → time_ok b → (0 ≤ timeval_cmp a b ↔ usecs b ≤ usecs a).
Proof.
  intros [Ha Ha'] [Hb Hb']. unfold timeval_cmp, usecs.
  assert (Hs : ∀ z, - 2^31 ≤ z < 2^31 → s32 z = z) by (intros z Hz; unfold s32; rewrite Z.mod_small; lia).
  destruct (Z.eqb_spec (tv_sec a) (tv_sec b)); rewrite Hs by lia; lia.
Qed.

(** * The invariant *)

Definition fd_of (e : positive * tdata) : Z := match t_u e.2 with UFd fd => fd | _ => -1 end.
Definition due_of (e : positive * tdata) : Z := match t_u e.2 with USands s => usecs s | _ => 0 end.

Definition fd_ok (x : tdata) : Prop := ∃ fd, t_u x = UFd fd ∧ 0 ≤ fd < FD_SETSIZE.

Definition data_ok (L : tlid) (x : tdata) : Prop :=
  match L with
  | LRead => t_type x = THREAD_READ ∧ fd_ok x
  | LWrite => t_type x = THREAD_WRITE ∧ fd_ok x
  | LTimer => t_type x = THREAD_TIMER ∧ ∃ s, t_u x = USands s ∧ time_ok s
  | LEvent => t_type x = THREAD_EVENT
  | LReady => t_type x = THREAD_READY
  | LUnuse => t_type x = THREAD_UNUSED
  end.

(** The list of the readers or the writers. *)
Definition fdl (w : bool) : tlid := if w then LWrite else LRead.

Record tinv (m : thread_master) (c : contents) : Prop := Tinv {
  tv_rep : mrep m c None;
  tv_data : ∀ L e, e ∈ c L → data_ok L e.2;
  tv_fds : ∀ w, mfds w m = list_to_set (fd_of <$> c (fdl w)) ∧ NoDup (fd_of <$> c (fdl w));
  tv_sorted : StronglySorted Z.le (due_of <$> c LTimer);
  tv_alloc : m_alloc m = total c;
}.

Lemma mrep_ext m c c' o : (∀ L, c L = c' L) → mrep m c o → mrep m c' o.
Proof.
  intros H [H1 H2 H3 H4 H5]. split.
  - intros L. rewrite <- H. apply H1.
  - intros L. rewrite <- H. apply H2.
  - intros L1 L2 p. rewrite <- !H. apply H3.
  - intros p x E. destruct (H4 p x E) as [Hp Hn]. split; [done|]. intros L. rewrite <- H. apply Hn.
  - intros p Hp. destruct (H5 p Hp) as [[L HL]|?]; [left; exists L; by rewrite <- H|by right].
Qed.

Lemma list_size m c o L : mrep m c o → (length (c L) ≤ size (m_heap m))%nat.
Proof.
  intros Hm. pose proof (mr_shape _ _ _ Hm L) as [_ _ Hs Hnd]. rewrite <- (length_fmap fst), <- size_dom.
  rewrite <- (size_list_to_set (C := gset positive)) by done. apply subseteq_size. intros p Hp%elem_of_list_to_set.
  apply elem_of_dom. by eapply dseg_lookup.
Qed.

Lemma head_of m c o L : mrep m c o → tl_head (m_lists m L) = headp (c L).
Proof. intros Hm. apply (sh_head _ _ (mr_shape _ _ _ Hm L)). Qed.

(** A thread in the middle of a list. *)
Lemma in_list_split (c : contents) L (e : positive * tdata) : e ∈ c L → ∃ ns ms, c L = ns ++ e :: ms.
Proof. intros (i & Hi)%list_elem_of_lookup. exists (take i (c L)), (drop (S i) (c L)). by rewrite take_drop_middle. Qed.

(** ** What a change of one list does to the invariant *)

Lemma data_upd c L l :
  (∀ L e, e ∈ c L → data_ok L e.2) → (∀ e, e ∈ l → data_ok L e.2) → ∀ L' e, e ∈ upd c L l L' → data_ok L' e.2.
Proof. intros Hc Hl L' e. unfold upd. destruct (decide (L' = L)) as [->|]; [apply Hl|apply Hc]. Qed.

Lemma due_app (l1 l2 : list (positive * tdata)) : StronglySorted Z.le (due_of <$> l1 ++ l2) → StronglySorted Z.le (due_of <$> l1) ∧ StronglySorted Z.le (due_of <$> l2).
Proof. rewrite fmap_app. intros H. split; [by eapply StronglySorted_app_1_l|by eapply StronglySorted_app_1_r]. Qed.

(** The thread goes to the list of unused ones. *)
Definition retire (c : contents) (p : positive) (x : tdata) : contents := upd c LUnuse (c LUnuse ++ [(p, set_type THREAD_UNUSED x)]).

Lemma retire_other c p x L : L ≠ LUnuse → retire c p x L = c L.
Proof. apply upd_ne. Qed.

Lemma retire_data c p x : (∀ L e, e ∈ c L → data_ok L e.2) → ∀ L e, e ∈ retire c p x L → data_ok L e.2.
Proof.
  intros Hc. apply data_upd; [done|]. intros e [He|He]%elem_of_app; [by apply Hc|]. by apply list_elem_of_singleton in He as ->.
Qed.

Lemma sub_data (c : contents) L ns (e : positive * tdata) ms :
  (∀ L e, e ∈ c L → data_ok L e.2) → c L = ns ++ e :: ms → ∀ L' e', e' ∈ upd c L (ns ++ ms) L' → data_ok L' e'.2.
Proof. intros Hc HL. apply data_upd; [done|]. intros e' He'. apply Hc. rewrite HL. set_solver. Qed.

Lemma sorted_remove (l1 l2 : list Z) x : StronglySorted Z.le (l1 ++ x :: l2) → StronglySorted Z.le (l1 ++ l2).
Proof. rewrite !StronglySorted_app, StronglySorted_cons. intros (H1 & H2 & H3 & H4). split_and!; [|done|done]. set_solver. Qed.

(** * Adding threads *)

Lemma st_lift_ok {S X} (r : res X) (x : X) (s : S) : r = Ok x → st_lift r s = Ok (x, s).
Proof. intros ->. done. Qed.

Lemma FD_ISSET_run fd s : 0 ≤ fd < FD_SETSIZE → FD_ISSET fd s = Ok (bool_decide (fd ∈ s)).
Proof. intros H. unfold FD_ISSET, fd_check. by rewrite (proj2 (Z.leb_le _ _)), (proj2 (Z.ltb_lt _ _)) by lia. Qed.

Lemma FD_SET_run w fd m : 0 ≤ fd < FD_SETSIZE → FD_SET w fd m = Ok (tt, set_mfds w ({[fd]} ∪ mfds w m) m).
Proof. intros H. unfold FD_SET, fd_check. by rewrite (proj2 (Z.leb_le _ _)), (proj2 (Z.ltb_lt _ _)) by lia. Qed.

Lemma FD_CLR_run w fd m : 0 ≤ fd < FD_SETSIZE → FD_CLR w fd m = Ok (tt, set_mfds w (mfds w m ∖ {[fd]}) m).
Proof. intros H. unfold FD_CLR, fd_check. by rewrite (proj2 (Z.leb_le _ _)), (proj2 (Z.ltb_lt _ _)) by lia. Qed.

Lemma mrep_fds w s m c o : mrep m c o → mrep (set_mfds w s m) c o.
Proof. intros []. by destruct w; split. Qed.

Lemma mfds_set w s m : mfds w (set_mfds w s m) = s.
Proof. by destruct w. Qed.
Lemma mfds_set_other w s m : mfds (negb w) (set_mfds w s m) = mfds (negb w) m.
Proof. by destruct w. Qed.
Lemma kept_mfds w m m' : kept m m' → mfds w m' = mfds w m.
Proof. intros []. by destruct w. Qed.

(** The unused thread that is taken, if there is one. *)
Definition taken (c : contents) : contents := upd c LUnuse (tail (c LUnuse)).

Lemma taken_data c : (∀ L e, e ∈ c L → data_ok L e.2) → ∀ L e, e ∈ taken c L → data_ok L e.2.
Proof. intros Hc. apply data_upd; [done|]. intros e He. apply Hc. destruct (c LUnuse); [done|by right]. Qed.

Lemma add_fd_run w func arg fd m c :
  tinv m c → 0 ≤ fd < FD_SETSIZE →
  if decide (fd ∈ mfds w m) then thread_add_fd w func arg fd m = Ok (None, m)
  else ∃ p m', thread_add_fd w func arg fd m = Ok (Some p, m') ∧
    tinv m' (upd (taken c) (fdl w) (c (fdl w) ++ [(p, Tdata (if w then THREAD_WRITE else THREAD_READ) func arg (UFd fd))])).
Proof.
  intros [Hm Hd Hf Hs Ha] Hfd. unfold thread_add_fd. rewrite (st_bind_Ok _ _ _ m m) by done.
  rewrite (st_bind_Ok _ _ _ _ m (st_lift_ok _ _ _ (FD_ISSET_run fd _ Hfd))).
  destruct (decide _) as [Hin|Hin]; [by rewrite bool_decide_true|]. rewrite bool_decide_false by done.
  set (type := if w then THREAD_WRITE else THREAD_READ).
  destruct (get_run type func arg m c Hm Ha) as (p & u & m1 & H1 & Hm1 & Hr1 & Hw1 & Ha1). rewrite (st_bind_Ok _ _ _ _ _ H1).
  rewrite (st_bind_Ok _ _ _ _ _ (FD_SET_run w fd m1 Hfd)). set (m2 := set_mfds w _ m1).
  pose proof (mrep_fds w ({[fd]} ∪ mfds w m1) m1 _ _ Hm1) as Hm2. fold m2 in Hm2.
  destruct (tupd_off p _ (set_u (UFd fd)) m2 _ Hm2) as (m3 & H3 & Hm3 & Hk3). rewrite (st_bind_Ok _ _ _ _ _ H3).
  destruct (add_run (fdl w) p _ m3 _ Hm3) as (m4 & H4 & Hm4 & Hk4). rewrite (st_bind_Ok _ _ _ _ _ H4).
  exists p, m4. split; [done|]. fold (taken c) in Hm4.
  assert (Hc : taken c (fdl w) = c (fdl w)) by (apply upd_ne; by destruct w). rewrite Hc in Hm4.
  change (set_u (UFd fd) (Tdata type func arg u)) with (Tdata type func arg (UFd fd)) in Hm4.
  split; [done| | | |].
  - apply data_upd; [by apply taken_data|]. intros e [He|He]%elem_of_app; [by apply Hd|]. apply list_elem_of_singleton in He as ->.
    unfold type, fdl. destruct w; (split; [done|]; by exists fd).
  - intros w'. rewrite (kept_mfds w' _ _ Hk4), (kept_mfds w' _ _ Hk3). destruct (decide (w' = w)) as [->|Hne].
    + rewrite upd_eq, fmap_app. unfold m2. rewrite mfds_set. cbn.
      assert (mfds w m1 = mfds w m) as -> by (by destruct w). destruct (Hf w) as [Hf1 Hf2]. rewrite Hf1 in Hin |- *. split; [set_solver|].
      apply NoDup_app. split_and!; [done| |by repeat constructor; apply not_elem_of_nil]. intros z Hz ->%list_elem_of_singleton. by apply Hin, elem_of_list_to_set.
    + rewrite upd_ne by (by destruct w, w'). unfold taken. rewrite upd_ne by (by destruct w'). assert (w' = negb w) as -> by (by destruct w, w').
      unfold m2. rewrite mfds_set_other. assert (mfds (negb w) m1 = mfds (negb w) m) as -> by (by destruct w). apply Hf.
  - rewrite upd_ne by (by destruct w). unfold taken. by rewrite upd_ne.
  - rewrite (kp_alloc _ _ Hk4), (kp_alloc _ _ Hk3). unfold m2. fold (taken c) in Ha1.
    rewrite total_upd, Hc, length_app. assert (m_alloc (set_mfds w ({[fd]} ∪ mfds w m1) m1) = m_alloc m1) as -> by (by destruct w). cbn. lia.
Qed.

Lemma add_event_run func arg val m c :
  tinv m c →
  ∃ p m', thread_add_event func arg val m = Ok (p, m') ∧
    tinv m' (upd (taken c) LEvent (c LEvent ++ [(p, Tdata THREAD_EVENT func arg (UVal val))])).
Proof.
  intros [Hm Hd Hf Hs Ha]. unfold thread_add_event.
  destruct (get_run THREAD_EVENT func arg m c Hm Ha) as (p & u & m1 & H1 & Hm1 & Hr1 & Hw1 & Ha1). rewrite (st_bind_Ok _ _ _ _ _ H1).
  destruct (tupd_off p _ (set_u (UVal val)) m1 _ Hm1) as (m2 & H2 & Hm2 & Hk2). rewrite (st_bind_Ok _ _ _ _ _ H2).
  destruct (add_run LEvent p _ m2 _ Hm2) as (m3 & H3 & Hm3 & Hk3). rewrite (st_bind_Ok _ _ _ _ _ H3).
  exists p, m3. split; [done|]. split; [done| | | |].
  - apply data_upd; [by apply taken_data|]. intros e [He|He]%elem_of_app; [by apply (Hd LEvent)|]. by apply list_elem_of_singleton in He as ->.
  - intros w. rewrite (kept_mfds w _ _ Hk3), (kept_mfds w _ _ Hk2). rewrite upd_ne by (by destruct w). unfold taken. rewrite upd_ne by (by destruct w).
    assert (mfds w m1 = mfds w m) as -> by (by destruct w). apply Hf.
  - rewrite upd_ne by done. unfold taken. by rewrite upd_ne.
  - rewrite (kp_alloc _ _ Hk3), (kp_alloc _ _ Hk2), total_upd, length_app. fold (taken c) in Ha1. unfold taken. rewrite upd_ne by done.
    fold (taken c). cbn. lia.
Qed.

(** The walk to the place of a new timer. *)
Lemma timer_point_run s m c o : mrep m c o → (∀ e, e ∈ c LTimer → data_ok LTimer e.2) → time_ok s →
  ∀ (rest pre : list (positive * tdata)) fuel, c LTimer = pre ++ rest → (length rest ≤ fuel)%nat →
  ∃ ns ms, rest = ns ++ ms ∧ timer_point fuel s (headp rest) (m_heap m) = Ok (headp ms) ∧
    Forall (λ e, due_of e < usecs s) ns ∧ (∀ e ms', ms = e :: ms' → usecs s ≤ due_of e).
Proof.
  intros Hm Hd Hs. induction rest as [|[p x] rest IH]; intros pre fuel Hc Hf.
  { exists [], []. split_and!; [done|by destruct fuel|constructor|done]. }
  destruct fuel as [|fuel]; [cbn in Hf; lia|]. cbn in Hf. pose proof (in_list_at _ _ _ _ _ _ _ _ Hm Hc) as Hp.
  destruct (Hd (p, x)) as (_ & t & Ht & Hok); [rewrite Hc; set_solver|]. cbn in Ht.
  assert (due_of (p, x) = usecs t) as Hdue by (unfold due_of; cbn; by rewrite Ht).
  cbn [timer_point headp head fmap option_fmap option_map fst]. rewrite Hp. cbn. rewrite Ht. cbn.
  pose proof (timeval_cmp_usecs s t Hs Hok) as Hcmp. destruct (Z.leb_spec (timeval_cmp s t) 0) as [Hle|Hgt].
  - exists [], ((p, x) :: rest). split_and!; [done|done|constructor|]. intros e ms' [= <- <-]. rewrite Hdue. by apply Hcmp.
  - destruct (IH (pre ++ [(p, x)]) fuel) as (ns & ms & -> & Hr & Hns & Hms); [by rewrite <- app_assoc|lia|].
    exists ((p, x) :: ns), ms. split_and!; [done|done| |done]. constructor; [rewrite Hdue; lia|done].
Qed.

(** A timer between the earlier ones and the later ones. *)
Lemma sorted_insert (l1 l2 : list (positive * tdata)) e :
  StronglySorted Z.le (due_of <$> l1 ++ l2) → Forall (λ a, due_of a < due_of e) l1 →
  (∀ a l, l2 = a :: l → due_of e ≤ due_of a) →
  StronglySorted Z.le (due_of <$> l1 ++ e :: l2) ∧ Forall (λ a, due_of e ≤ due_of a) l2.
Proof.
  rewrite !fmap_app, !StronglySorted_app. intros (H1 & H2 & H3) Hl1 Hl2. rewrite Forall_forall in Hl1.
  assert (Forall (λ a, due_of e ≤ due_of a) l2) as Hf.
  { destruct l2 as [|a l2]; [constructor|]. specialize (Hl2 a l2 eq_refl). constructor; [done|].
    cbn in H3. apply StronglySorted_cons in H3 as [Hall _]. rewrite Forall_fmap in Hall. eapply Forall_impl; [done|]. cbn. intros. lia. }
  split; [|done]. split; [|split; [done|]].
  - intros x1 x2 (a & -> & Ha)%list_elem_of_fmap Hx2. rewrite fmap_cons in Hx2. apply elem_of_cons in Hx2 as [->|Hx2].
    + specialize (Hl1 a Ha). lia.
    + apply H1; [|done]. by apply list_elem_of_fmap_2.
  - rewrite fmap_cons. apply StronglySorted_cons. split; [by rewrite Forall_fmap|done].
Qed.

Lemma add_timer_run now func arg timer m c :
  let sands := Timeval (tv_sec now + timer) (tv_usec now) in
  tinv m c → time_ok sands →
  ∃ p m' ns ms, c LTimer = ns ++ ms ∧ thread_add_timer now func arg timer m = Ok (p, m') ∧
    tinv m' (upd (taken c) LTimer (ns ++ (p, Tdata THREAD_TIMER func arg (USands sands)) :: ms)) ∧
    Forall (λ e, due_of e < usecs sands) ns ∧ Forall (λ e, usecs sands ≤ due_of e) ms.
Proof.
  intros sands [Hm Hd Hf Hs Ha] Hok. unfold thread_add_timer. fold sands.
  destruct (get_run THREAD_TIMER func arg m c Hm Ha) as (p & u & m1 & H1 & Hm1 & Hr1 & Hw1 & Ha1). rewrite (st_bind_Ok _ _ _ _ _ H1).
  destruct (tupd_off p _ (set_u (USands sands)) m1 _ Hm1) as (m2 & H2 & Hm2 & Hk2). rewrite (st_bind_Ok _ _ _ _ _ H2).
  rewrite (st_bind_Ok _ _ _ m2 m2) by done. fold (taken c) in Hm2, Ha1. set (t := set_u _ _) in Hm2.
  assert (Hc : taken c LTimer = c LTimer) by (by apply upd_ne).
  destruct (timer_point_run sands m2 (taken c) _ Hm2) with (rest := c LTimer) (pre := @nil (positive * tdata)) (fuel := size (m_heap m2))
    as (ns & ms & Hsp & Hpt & Hns & Hms); [intros e; rewrite Hc; apply (Hd LTimer)|done|done|rewrite <- Hc; by eapply list_size|].
  rewrite (head_of _ _ _ LTimer Hm2), Hc. rewrite (st_bind_Ok _ _ _ _ m2 (st_lift_ok _ _ _ Hpt)).
  assert (∃ m3, match headp ms with Some q => thread_list_add_before LTimer q p | None => thread_list_add LTimer p end m2 = Ok (tt, m3) ∧
    mrep m3 (upd (taken c) LTimer (ns ++ (p, t) :: ms)) None ∧ kept m2 m3) as (m3 & H3 & Hm3 & Hk3).
  { destruct ms as [|[q y] ms]; cbn [headp head fmap option_fmap option_map fst].
    - rewrite app_nil_r in Hsp. rewrite <- Hsp, <- Hc. by apply add_run.
    - apply add_before_run; [done|by rewrite Hc]. }
  rewrite (st_bind_Ok _ _ _ _ _ H3). exists p, m3, ns, ms. split; [done|]. split; [done|]. pose proof Hs as Hs'. rewrite Hsp in Hs'.
  destruct (sorted_insert ns ms (p, t) Hs' Hns Hms) as [Hsorted Hge]. split; [|by split].
  split; [done| | | |].
  - apply data_upd; [by apply taken_data|]. intros e He. rewrite elem_of_app, elem_of_cons in He. destruct He as [He|[->|He]].
    + apply (Hd LTimer). rewrite Hsp. set_solver.
    + split; [done|]. by exists sands.
    + apply (Hd LTimer). rewrite Hsp. set_solver.
  - intros w. rewrite (kept_mfds w _ _ Hk3), (kept_mfds w _ _ Hk2). rewrite upd_ne by (by destruct w). unfold taken. rewrite upd_ne by (by destruct w).
    assert (mfds w m1 = mfds w m) as -> by (by destruct w). apply Hf.
  - by rewrite upd_eq.
  - rewrite (kp_alloc _ _ Hk3), (kp_alloc _ _ Hk2), total_upd, Ha1, Hc, Hsp, !length_app. cbn. lia.
Qed.
