(* ===== verification/ThreadMove.v ===== *)
(** The event loop: threads that leave their list, by being cancelled, by running or by
    becoming ready. *)

From stdpp Require Import sorting.
From S2P Require Import Prelude Dlist OspfLsa Thread ThreadFacts ThreadRun.

Lemma tinv_ext m c c' : (∀ L, c L = c' L) → tinv m c → tinv m c'.
Proof.
  intros H [H1 H2 H3 H4 H5]. split.
  - by apply (mrep_ext _ c).
  - intros L e. rewrite <- H. apply H2.
  - intros w. rewrite <- H. apply H3.
  - by rewrite <- H.
  - rewrite H5. unfold total. by rewrite !H.
Qed.

(** The list [L] becomes [l] and [e] goes to the end of the list [L']. *)
Definition moved (c : contents) (L : tlid) (l : list (positive * tdata)) (L' : tlid) (e : positive * tdata) : contents :=
  upd (upd c L l) L' (c L' ++ [e]).

(** The descriptor of a thread that leaves the list of readers or writers is cleared. *)
Definition fds_left (L : tlid) (e : positive * tdata) (m m' : thread_master) : Prop :=
  ∀ w, mfds w m' = if decide (L = fdl w) then mfds w m ∖ {[fd_of e]} else mfds w m.

Lemma fds_kept L e m m' : L ≠ LRead → L ≠ LWrite → kept m m' → fds_left L e m m'.
Proof. intros H1 H2 Hk w. rewrite decide_False by (by destruct w). by apply kept_mfds. Qed.

Lemma tinv_moved L L' ns p x x' ms m m' c :
  tinv m c → c L = ns ++ (p, x) :: ms → L ≠ L' → L' = LReady ∨ L' = LUnuse → data_ok L' x' →
  mrep m' (moved c L (ns ++ ms) L' (p, x')) None → fds_left L (p, x) m m' → m_alloc m' = m_alloc m →
  tinv m' (moved c L (ns ++ ms) L' (p, x')).
Proof.
  intros [Hm Hd Hf Hs Ha] Hc Hne HL' Hx' Hm' Hfd Hal.
  assert (Hsame : ∀ L1, L1 ≠ L' → moved c L (ns ++ ms) L' (p, x') L1 = upd c L (ns ++ ms) L1) by (intros; by apply upd_ne).
  split; [done| | | |].
  - apply data_upd; [by eapply sub_data|]. intros e [He|He]%elem_of_app; [by apply Hd|]. by apply list_elem_of_singleton in He as ->.
  - intros w. rewrite Hsame by (by destruct w, HL' as [->| ->]). rewrite Hfd. destruct (decide (L = fdl w)) as [->|Hw].
    + rewrite upd_eq. destruct (Hf w) as [Hf1 Hf2]. rewrite Hf1. rewrite Hc in Hf2 |- *. rewrite !fmap_app in Hf2 |- *. rewrite fmap_cons in Hf2 |- *.
      apply NoDup_app in Hf2 as (Hn1 & Hn2 & [Hn3 Hn4]%NoDup_cons). split; [set_solver|]. rewrite ?fmap_app. apply NoDup_app. split_and!; [done|set_solver|done].
    + rewrite upd_ne by done. apply Hf.
  - rewrite Hsame by (by destruct HL' as [->| ->]). destruct (decide (L = LTimer)) as [->|Ht]; [|by rewrite upd_ne].
    rewrite upd_eq. rewrite Hc in Hs. rewrite fmap_app in Hs |- *. by eapply sorted_remove.
  - rewrite Hal, Ha. unfold moved. rewrite !total_upd, (upd_ne _ L L') by done. rewrite Hc, !length_app. cbn. lia.
Qed.

(** The contents after [p] has left [L] for the list of unused threads. *)
Definition released (c : contents) (L : tlid) (l : list (positive * tdata)) (p : positive) (x : tdata) : contents :=
  moved c L l LUnuse (p, set_type THREAD_UNUSED x).

(** A thread that has been taken off its list retires. *)
Lemma retire_off L l p x m c :
  mrep m (upd c L l) (Some (p, x)) → L ≠ LUnuse →
  ∃ m', (tupd p (set_type THREAD_UNUSED);; thread_add_unuse p) m = Ok (tt, m') ∧ mrep m' (released c L l p x) None ∧ kept m m'.
Proof.
  intros Hm HL. destruct (retire_run p x m _ Hm) as (m' & Hr & Hm' & Hk). exists m'. split; [done|]. split; [|done].
  eapply mrep_ext; [|exact Hm']. intros L'. by rewrite (upd_ne _ L LUnuse).
Qed.

Lemma run_off L l p x m c :
  mrep m (upd c L l) (Some (p, x)) → L ≠ LUnuse →
  ∃ m', thread_run p m = Ok (x, m') ∧ mrep m' (released c L l p x) None ∧ kept m m'.
Proof.
  intros Hm HL. destruct (thread_run_run p x m _ Hm) as (m' & Hr & Hm' & Hk). exists m'. split; [done|]. split; [|done].
  eapply mrep_ext; [|exact Hm']. intros L'. by rewrite (upd_ne _ L LUnuse).
Qed.

(** * Cancelling *)

Lemma cancel_fd_run w ns p x ms m c :
  tinv m c → c (fdl w) = ns ++ (p, x) :: ms →
  ∃ m', cancel_fd w (fdl w) p x m = Ok (tt, m') ∧ mrep m' (upd c (fdl w) (ns ++ ms)) (Some (p, x)) ∧
    fds_left (fdl w) (p, x) m m' ∧ m_alloc m' = m_alloc m.
Proof.
  intros Hi Hc. pose proof Hi as [Hm Hd Hf _ _].
  assert (data_ok (fdl w) x) as Hx by (apply (Hd (fdl w) (p, x)); rewrite Hc; set_solver).
  assert (∃ fd, t_u x = UFd fd ∧ 0 ≤ fd < FD_SETSIZE) as (fd & Hu & Hfd) by (destruct w; apply Hx).
  assert (fd_of (p, x) = fd) as Efd by (unfold fd_of; cbn; by rewrite Hu).
  assert (fd ∈ mfds w m) as Hin. { destruct (Hf w) as [-> _]. rewrite Hc, fmap_app, fmap_cons, Efd. set_solver. }
  unfold cancel_fd. rewrite Hu. rewrite (st_bind_Ok _ _ _ fd m) by done. rewrite (st_bind_Ok _ _ _ m m) by done.
  rewrite (st_bind_Ok _ _ _ _ m (st_lift_ok _ _ _ (FD_ISSET_run fd _ Hfd))). rewrite bool_decide_true by done.
  rewrite (st_bind_Ok _ _ _ tt m) by done. rewrite (st_bind_Ok _ _ _ _ _ (FD_CLR_run w fd m Hfd)).
  destruct (delete_run (fdl w) p x ns ms _ c (mrep_fds w (mfds w m ∖ {[fd]}) _ _ _ Hm) Hc) as (m' & Hr & Hm' & Hk).
  exists m'. split; [done|]. split; [done|]. split.
  - intros w'. rewrite (kept_mfds w' _ _ Hk), Efd. destruct (decide (fdl w = fdl w')) as [E|E].
    + assert (w' = w) as -> by (by destruct w, w'). by rewrite mfds_set.
    + assert (w' = negb w) as -> by (by destruct w, w'). by rewrite mfds_set_other.
  - rewrite (kp_alloc _ _ Hk). by destruct w.
Qed.

(** A thread in use is cancelled. *)
Lemma cancel_run L ns p x ms m c :
  tinv m c → c L = ns ++ (p, x) :: ms → L ≠ LUnuse →
  ∃ m', thread_cancel p m = Ok (tt, m') ∧ tinv m' (released c L (ns ++ ms) p x).
Proof.
  intros Hi Hc HL. pose proof Hi as [Hm Hd _ _ _]. pose proof (in_list_at _ _ _ _ _ _ _ _ Hm Hc) as Hp.
  assert (data_ok L x) as Hx by (apply (Hd L (p, x)); rewrite Hc; set_solver).
  unfold thread_cancel. rewrite (st_bind_Ok _ _ _ _ _ (tread_run _ _ _ Hp)). cbn [d_data].
  assert (∃ m1, (if t_type x =? THREAD_READ then cancel_fd false LRead p x
     else if t_type x =? THREAD_WRITE then cancel_fd true LWrite p x
     else if t_type x =? THREAD_TIMER then thread_list_delete LTimer p
     else if t_type x =? THREAD_EVENT then thread_list_delete LEvent p
     else if t_type x =? THREAD_READY then thread_list_delete LReady p
     else mret tt) m = Ok (tt, m1) ∧ mrep m1 (upd c L (ns ++ ms)) (Some (p, x)) ∧ fds_left L (p, x) m m1 ∧ m_alloc m1 = m_alloc m)
    as (m1 & H1 & Hm1 & Hf1 & Ha1).
  { destruct L; [destruct Hx as [-> _]; by apply (cancel_fd_run false)|destruct Hx as [-> _]; by apply (cancel_fd_run true)|destruct Hx as [-> _]|cbn in Hx; rewrite Hx|cbn in Hx; rewrite Hx|done];
      (destruct (delete_run _ p x ns ms m c Hm Hc) as (m1 & H1 & Hm1 & Hk); exists m1; split; [done|]; split; [done|]; split; [by apply fds_kept|apply Hk]). }
  rewrite (st_bind_Ok _ _ _ _ _ H1). destruct (retire_off L _ p x m1 c Hm1 HL) as (m2 & H2 & Hm2 & Hk2).
  exists m2. split; [done|]. eapply (tinv_moved L LUnuse ns p x); [done|done|done|by right|done|done| |by rewrite (kp_alloc _ _ Hk2)].
  intros w. by rewrite (kept_mfds w _ _ Hk2).
Qed.

(** ** Cancelling the events with an argument *)

Definition unused (e : positive * tdata) : positive * tdata := (e.1, set_type THREAD_UNUSED e.2).

(** [c] is [c'] but for the threads [es] of [L], which are now at the end of [L']. *)
Record shifted (c c' : contents) (L L' : tlid) (l es : list (positive * tdata)) : Prop := Shifted {
  sf_from : c' L = l;
  sf_to : c' L' = c L' ++ es;
  sf_rest : ∀ L1, L1 ≠ L → L1 ≠ L' → c' L1 = c L1;
}.

Lemma shifted_nil c L L' : shifted c c L L' (c L) [].
Proof. split; [done|by rewrite app_nil_r|done]. Qed.

Lemma shifted_step c c' L L' l0 l e es :
  L ≠ L' → shifted (moved c L l0 L' e) c' L L' l es → shifted c c' L L' l (e :: es).
Proof.
  intros Hne [H1 H2 H3]. split; [done| |].
  - rewrite H2. unfold moved. by rewrite upd_eq, <- app_assoc.
  - intros L1 HL HL'. rewrite H3 by done. unfold moved. by rewrite !upd_ne.
Qed.

Lemma cancel_event_loop_run arg : ∀ (rest pre : list (positive * tdata)) fuel m c,
  tinv m c → c LEvent = pre ++ rest → (length rest ≤ fuel)%nat →
  ∃ m' c', cancel_event_loop fuel arg (headp rest) m = Ok (tt, m') ∧ tinv m' c' ∧
    shifted c c' LEvent LUnuse (pre ++ filter (λ e, t_arg e.2 ≠ arg) rest) (unused <$> filter (λ e, t_arg e.2 = arg) rest).
Proof.
  induction rest as [|[p x] rest IH]; intros pre fuel m c Hi Hc Hf.
  { exists m, c. split; [by destruct fuel|]. split; [done|]. rewrite !filter_nil. rewrite <- Hc. apply shifted_nil. }
  destruct fuel as [|fuel]; [cbn in Hf; lia|]. cbn in Hf. pose proof Hi as [Hm _ _ _ _]. pose proof (in_list_at _ _ _ _ _ _ _ _ Hm Hc) as Hp.
  cbn [cancel_event_loop headp head fmap option_fmap option_map fst]. rewrite (st_bind_Ok _ _ _ _ _ (tread_run _ _ _ Hp)). cbn [d_data d_next].
  rewrite !filter_cons. cbn [snd]. destruct (Z.eqb_spec (t_arg x) arg) as [E|E].
  - destruct (delete_run LEvent p x pre rest m c Hm Hc) as (m1 & H1 & Hm1 & Hk1).
    destruct (retire_off LEvent _ p x m1 c Hm1) as (m2 & H2 & Hm2 & Hk2); [done|].
    assert (tinv m2 (released c LEvent (pre ++ rest) p x)) as Hi2.
    { eapply (tinv_moved LEvent LUnuse pre p x); [done|done|done|by right|done|done| |by rewrite (kp_alloc _ _ Hk2), (kp_alloc _ _ Hk1)].
      apply fds_kept; [done|done|by eapply mkept_trans]. }
    rewrite (st_bind_Ok _ _ _ tt m2); [|by rewrite (st_bind_Ok _ _ _ _ _ H1)].
    destruct (IH pre fuel m2 _ Hi2) as (m' & c' & Hr & Hi' & Hsh); [unfold released, moved; by rewrite upd_ne, upd_eq|lia|].
    exists m', c'. split; [done|]. split; [done|]. rewrite decide_False, decide_True by (cbn; congruence). by eapply shifted_step.
  - rewrite (st_bind_Ok _ _ _ tt m) by done.
    destruct (IH (pre ++ [(p, x)]) fuel m c Hi) as (m' & c' & Hr & Hi' & Hsh); [by rewrite <- app_assoc|lia|].
    exists m', c'. split; [done|]. split; [done|]. rewrite decide_True, decide_False by (cbn; congruence). by rewrite <- app_assoc in Hsh.
Qed.

Lemma cancel_event_run arg m c :
  tinv m c →
  ∃ m' c', thread_cancel_event arg m = Ok (tt, m') ∧ tinv m' c' ∧
    shifted c c' LEvent LUnuse (filter (λ e, t_arg e.2 ≠ arg) (c LEvent)) (unused <$> filter (λ e, t_arg e.2 = arg) (c LEvent)).
Proof.
  intros Hi. unfold thread_cancel_event. rewrite (st_bind_Ok _ _ _ m m) by done. rewrite (head_of _ _ _ LEvent (tv_rep _ _ Hi)).
  by apply (cancel_event_loop_run arg (c LEvent) []); [|done|eapply list_size, Hi].
Qed.

(** * Descriptors that are ready *)

Definition readied (e : positive * tdata) : positive * tdata := (e.1, set_type THREAD_READY e.2).

Lemma process_fd_loop_run w s : ∀ (rest pre : list (positive * tdata)) fuel m c,
  tinv m c → c (fdl w) = pre ++ rest → (length rest ≤ fuel)%nat →
  ∃ m' c', process_fd_loop fuel w (fdl w) s (headp rest) m = Ok (tt, m') ∧ tinv m' c' ∧
    shifted c c' (fdl w) LReady (pre ++ filter (λ e, fd_of e ∉ s) rest) (readied <$> filter (λ e, fd_of e ∈ s) rest).
Proof.
  induction rest as [|[p x] rest IH]; intros pre fuel m c Hi Hc Hf.
  { exists m, c. split; [by destruct fuel|]. split; [done|]. rewrite !filter_nil. rewrite <- Hc. apply shifted_nil. }
  destruct fuel as [|fuel]; [cbn in Hf; lia|]. cbn in Hf. pose proof Hi as [Hm Hd _ _ _]. pose proof (in_list_at _ _ _ _ _ _ _ _ Hm Hc) as Hp.
  assert (data_ok (fdl w) x) as Hx by (apply (Hd (fdl w) (p, x)); rewrite Hc; set_solver).
  assert (∃ fd, t_u x = UFd fd ∧ 0 ≤ fd < FD_SETSIZE) as (fd & Hu & Hfd) by (destruct w; apply Hx).
  assert (fd_of (p, x) = fd) as Efd by (unfold fd_of; cbn; by rewrite Hu).
  cbn [process_fd_loop headp head fmap option_fmap option_map fst]. rewrite (st_bind_Ok _ _ _ _ _ (tread_run _ _ _ Hp)). cbn [d_data d_next].
  rewrite (st_bind_Ok _ _ _ fd m) by (by rewrite Hu). rewrite (st_bind_Ok _ _ _ _ m (st_lift_ok _ _ _ (FD_ISSET_run fd s Hfd))).
  rewrite !filter_cons, Efd. case_bool_decide as Hin.
  - destruct (cancel_fd_run w pre p x rest m c Hi Hc) as (m1 & H1 & Hm1 & Hf1 & Ha1).
    destruct (add_run LReady p x m1 _ Hm1) as (m2 & H2 & Hm2 & Hk2). rewrite (upd_ne c (fdl w) LReady) in Hm2 by (by destruct w).
    destruct (tupd_on LReady (c LReady) p x [] (set_type THREAD_READY) m2 _ Hm2) as (m3 & H3 & Hm3 & Hk3); [by rewrite upd_eq|].
    assert (tinv m3 (moved c (fdl w) (pre ++ rest) LReady (readied (p, x)))) as Hi3.
    { assert (Hmv : mrep m3 (moved c (fdl w) (pre ++ rest) LReady (readied (p, x))) None).
      { eapply mrep_ext; [|exact Hm3]. intros L. unfold moved, upd. by destruct (decide (L = LReady)). }
      eapply (tinv_moved (fdl w) LReady pre p x); [done|done|by destruct w|by left|done|done| |by rewrite (kp_alloc _ _ Hk3), (kp_alloc _ _ Hk2)].
      intros w'. by rewrite (kept_mfds w' _ _ Hk3), (kept_mfds w' _ _ Hk2). }
    unfold cancel_fd in H1. rewrite Hu in H1. rewrite (st_bind_Ok _ _ _ fd m) in H1 by done.
    rewrite (st_bind_Ok _ _ _ tt m3).
    2: { unfold mbind, ST_bind in H1, H2, H3 |- *.
         repeat match type of H1 with context [match ?e with Ok _ => _ | Fail _ => _ end] => destruct e as [[? ?]|]; [|done] end.
         rewrite H1, H2. done. }
    destruct (IH pre fuel m3 _ Hi3) as (m' & c' & Hr & Hi' & Hsh); [unfold moved; by rewrite upd_ne, upd_eq by (by destruct w)|lia|].
    exists m', c'. split; [done|]. split; [done|]. rewrite decide_False, decide_True by (by try intros []). eapply shifted_step; [by destruct w|done].
  - rewrite (st_bind_Ok _ _ _ tt m) by done.
    destruct (IH (pre ++ [(p, x)]) fuel m c Hi) as (m' & c' & Hr & Hi' & Hsh); [by rewrite <- app_assoc|lia|].
    exists m', c'. split; [done|]. split; [done|]. rewrite decide_True, decide_False by done. by rewrite <- app_assoc in Hsh.
Qed.

Lemma process_fd_run w s m c :
  tinv m c →
  ∃ m' c', thread_process_fd w s m = Ok (tt, m') ∧ tinv m' c' ∧
    shifted c c' (fdl w) LReady (filter (λ e, fd_of e ∉ s) (c (fdl w))) (readied <$> filter (λ e, fd_of e ∈ s) (c (fdl w))).
Proof.
  intros Hi. unfold thread_process_fd. fold (fdl w). rewrite (st_bind_Ok _ _ _ m m) by done. rewrite (head_of _ _ _ (fdl w) (tv_rep _ _ Hi)).
  by apply (process_fd_loop_run w s (c (fdl w)) []); [|done|eapply list_size, Hi].
Qed.

(** * Timers *)

(** When no timer has run out yet. *)
Lemma timer_due_none now m c o : mrep m c o → (∀ e, e ∈ c LTimer → data_ok LTimer e.2) → time_ok now →
  ∀ (rest pre : list (positive * tdata)) fuel, c LTimer = pre ++ rest → (length rest ≤ fuel)%nat →
  Forall (λ e, usecs now < due_of e) rest → timer_due fuel now (headp rest) (m_heap m) = Ok None.
Proof.
  intros Hm Hd Hn. induction rest as [|[p x] rest IH]; intros pre fuel Hc Hf Hl; [by destruct fuel|].
  destruct fuel as [|fuel]; [cbn in Hf; lia|]. cbn in Hf. pose proof (in_list_at _ _ _ _ _ _ _ _ Hm Hc) as Hp.
  destruct (Hd (p, x)) as (_ & t & Ht & Hok); [rewrite Hc; set_solver|]. cbn in Ht. apply Forall_cons in Hl as [Hx Hl].
  assert (due_of (p, x) = usecs t) as Hdue by (unfold due_of; cbn; by rewrite Ht).
  cbn [timer_due headp head fmap option_fmap option_map fst]. rewrite Hp. cbn. rewrite Ht. cbn.
  pose proof (timeval_cmp_due now t Hn Hok) as Hcmp. destruct (Z.leb_spec 0 (timeval_cmp now t)) as [Hle|Hgt]; [lia|].
  apply (IH (pre ++ [(p, x)])); [by rewrite <- app_assoc|lia|done].
Qed.

(** The timers are sorted: the first is due, or none is. *)
Lemma timer_due_run now m c :
  tinv m c → time_ok now →
  timer_due (size (m_heap m)) now (tl_head (m_lists m LTimer)) (m_heap m) =
    Ok (match c LTimer with e :: _ => if due_of e <=? usecs now then Some e.1 else None | [] => None end).
Proof.
  intros [Hm Hd _ Hs _] Hn. rewrite (head_of _ _ _ LTimer Hm). pose proof (list_size _ _ _ LTimer Hm) as Hlen.
  destruct (c LTimer) as [|[p x] ms] eqn:E; [by destruct (size _)|]. destruct (Z.leb_spec (due_of (p, x)) (usecs now)) as [Hle|Hgt].
  - pose proof (in_list_at m c None LTimer [] p x ms Hm E) as Hp. destruct (size (m_heap m)) as [|n]; [cbn in Hlen; lia|].
    destruct (Hd LTimer (p, x)) as (_ & t & Ht & Hok); [rewrite E; set_solver|]. cbn in Ht.
    assert (due_of (p, x) = usecs t) as Hdue by (unfold due_of; cbn; by rewrite Ht).
    cbn [timer_due headp head fmap option_fmap option_map fst]. rewrite Hp. cbn. rewrite Ht. cbn.
    rewrite (proj2 (Z.leb_le 0 (timeval_cmp now t))); [done|]. apply timeval_cmp_due; [done..|lia].
  - eapply (timer_due_none now m c None Hm (Hd LTimer) Hn _ []); [done|done|]. cbn in Hs. apply StronglySorted_cons in Hs as [Hall _].
    constructor; [done|]. rewrite Forall_fmap in Hall. eapply Forall_impl; [done|]. cbn. intros. lia.
Qed.

(** * Running threads *)

(** The first thread of a list runs. *)
Lemma trim_thread_run L p x ms m c :
  tinv m c → c L = (p, x) :: ms → L = LEvent ∨ L = LReady →
  ∃ m1 m', thread_trim_head L m = Ok (Some p, m1) ∧ thread_run p m1 = Ok (x, m') ∧ tinv m' (released c L ms p x).
Proof.
  intros Hi Hc HL. pose proof (trim_run L m c (tv_rep _ _ Hi)) as H. rewrite Hc in H. destruct H as (m1 & H1 & Hm1 & Hk1).
  destruct (run_off L ms p x m1 c Hm1) as (m2 & H2 & Hm2 & Hk2); [by destruct HL as [->| ->]|].
  exists m1, m2. split; [done|]. split; [done|]. eapply (tinv_moved L LUnuse [] p x); [done|done|by destruct HL as [->| ->]|by right|done|done| |].
  - apply fds_kept; [by destruct HL as [->| ->]..|by eapply mkept_trans].
  - by rewrite (kp_alloc _ _ Hk2), (kp_alloc _ _ Hk1).
Qed.

Lemma trim_empty L m c : tinv m c → c L = [] → thread_trim_head L m = Ok (None, m).
Proof. intros Hi Hc. pose proof (trim_run L m c (tv_rep _ _ Hi)) as H. by rewrite Hc in H. Qed.

Lemma timer_thread_run p x ms m c :
  tinv m c → c LTimer = (p, x) :: ms →
  ∃ m1 m', thread_list_delete LTimer p m = Ok (tt, m1) ∧ thread_run p m1 = Ok (x, m') ∧ tinv m' (released c LTimer ms p x).
Proof.
  intros Hi Hc. destruct (delete_run LTimer p x [] ms m c (tv_rep _ _ Hi) Hc) as (m1 & H1 & Hm1 & Hk1).
  destruct (run_off LTimer ms p x m1 c Hm1) as (m2 & H2 & Hm2 & Hk2); [done|].
  exists m1, m2. split; [done|]. split; [done|]. eapply (tinv_moved LTimer LUnuse [] p x); [done|done|done|by right|done|done| |].
  - apply fds_kept; [done..|by eapply mkept_trans].
  - by rewrite (kp_alloc _ _ Hk2), (kp_alloc _ _ Hk1).
Qed.

(** The time to wait: to the first timer, never below zero, at most a million seconds. *)
Lemma timer_wait_run now m c :
  tinv m c →
  ∃ w, thread_timer_wait now m = Ok (w, m) ∧
    match c LTimer with
    | [] => w = None
    | e :: _ => ∃ s, t_u e.2 = USands s ∧ w = Some (timeval_subtract s now)
    end.
Proof.
  intros [Hm Hd _ _ _]. unfold thread_timer_wait. rewrite (st_bind_Ok _ _ _ m m) by done. rewrite (head_of _ _ _ LTimer Hm).
  destruct (c LTimer) as [|[p x] ms] eqn:E; [by exists None|]. cbn [headp head fmap option_fmap option_map fst].
  pose proof (in_list_at m c None LTimer [] p x ms Hm E) as Hp. rewrite (st_bind_Ok _ _ _ _ _ (tread_run _ _ _ Hp)). cbn [d_data].
  destruct (Hd LTimer (p, x)) as (_ & t & Ht & Hok); [rewrite E; set_solver|]. cbn in Ht. rewrite (st_bind_Ok _ _ _ t m) by (by rewrite Ht).
  eexists. split; [reflexivity|]. exists t. split; [done|]. f_equal.
  rewrite (proj2 (Z.ltb_ge _ _)); [done|]. unfold timeval_subtract, timeval_adjust.
  generalize (tv_adjust (Timeval (tv_sec t - tv_sec now) (tv_usec t - tv_usec now))). intros a. destruct (Z.ltb_spec (tv_sec a) 0); cbn;
    [|destruct (Z.ltb_spec TIMER_SECOND_MICRO (tv_sec a)); cbn]; unfold TIMER_SECOND_MICRO in *; lia.
Qed.
