(* ===== verification/ThreadClaims.v ===== *)
(** The event loop: what thread_fetch promises, and that no sequence of operations breaks the
    lists. *)

From stdpp Require Import sorting.
From S2P Require Import Prelude Dlist OspfLsa Thread ThreadFacts ThreadRun ThreadMove.

(** * What a round does, on the contents of the lists *)

(** The first thread of [L] runs. *)
Definition run_first (c : contents) (L : tlid) : option (tdata * contents) :=
  match c L with
  | (p, x) :: ms => Some (x, released c L ms p x)
  | [] => None
  end.

Definition first_due (now : timeval) (c : contents) : bool :=
  match c LTimer with e :: _ => due_of e <=? usecs now | [] => false end.

Definition time_left (now : timeval) (c : contents) : option timeval :=
  match c LTimer with
  | e :: _ => match t_u e.2 with USands s => Some (timeval_subtract s now) | _ => None end
  | [] => None
  end.

(** The descriptors that are watched. *)
Definition watched (w : bool) (c : contents) : gset Z := list_to_set (fd_of <$> c (fdl w)).

(** The threads whose descriptors are in [s] become ready, in the order of their list. *)
Definition made_ready (w : bool) (s : gset Z) (c : contents) : contents :=
  upd (upd c (fdl w) (filter (λ e, fd_of e ∉ s) (c (fdl w)))) LReady (c LReady ++ (readied <$> filter (λ e, fd_of e ∈ s) (c (fdl w)))).

(** Events first, then the earliest timer that has run out, then the threads that are ready,
    and only then select, for no longer than the first timer has left. *)
Definition spec_round (now now' : timeval) (select : select_fun) (c : contents) : option (option tdata) * contents :=
  match run_first c LEvent with
  | Some (x, c') => (Some (Some x), c')
  | None =>
      match (if first_due now c then run_first c LTimer else None) with
      | Some (x, c') => (Some (Some x), c')
      | None =>
          match run_first c LReady with
          | Some (x, c') => (Some (Some x), c')
          | None =>
              match select (watched false c) (watched true c) (time_left now' c) with
              | SelTimeout | SelEintr => (None, c)
              | SelError => (Some None, c)
              | SelReady r w =>
                  let c := made_ready true w (made_ready false r c) in
                  match run_first c LReady with
                  | Some (x, c') => (Some (Some x), c')
                  | None => (None, c)
                  end
              end
          end
      end
  end.

Lemma shifted_ready w s c c' :
  shifted c c' (fdl w) LReady (filter (λ e, fd_of e ∉ s) (c (fdl w))) (readied <$> filter (λ e, fd_of e ∈ s) (c (fdl w))) →
  ∀ L, c' L = made_ready w s c L.
Proof.
  intros [H1 H2 H3] L. unfold made_ready, upd. destruct (decide (L = LReady)) as [->|HR]; [done|].
  destruct (decide (L = fdl w)) as [->|]; [done|by apply H3].
Qed.

Lemma process_ready w s m c : tinv m c → ∃ m', thread_process_fd w s m = Ok (tt, m') ∧ tinv m' (made_ready w s c).
Proof.
  intros Hi. destruct (process_fd_run w s m c Hi) as (m' & c' & Hr & Hi' & Hs). exists m'. split; [done|].
  eapply tinv_ext; [|done]. by apply shifted_ready.
Qed.

Lemma wait_left now m c : tinv m c → thread_timer_wait now m = Ok (time_left now c, m).
Proof.
  intros Hi. destruct (timer_wait_run now m c Hi) as (w & -> & Hw). unfold time_left. destruct (c LTimer); [by subst|].
  by destruct Hw as (s & -> & ->).
Qed.

Lemma watched_fds w m c : tinv m c → mfds w m = watched w c.
Proof. intros Hi. apply (tv_fds _ _ Hi w). Qed.

(** The first thread of a list, and the first timer that has run out. *)
Lemma first_run L m c :
  tinv m c → L = LEvent ∨ L = LReady →
  match run_first c L with
  | Some (x, c') => ∃ p m1 m', thread_trim_head L m = Ok (Some p, m1) ∧ thread_run p m1 = Ok (x, m') ∧ tinv m' c'
  | None => thread_trim_head L m = Ok (None, m)
  end.
Proof.
  intros Hi HL. unfold run_first. destruct (c L) as [|[p x] ms] eqn:E; [by eapply trim_empty|].
  exists p. by apply trim_thread_run.
Qed.

Lemma due_run now m c :
  tinv m c → time_ok now →
  let due := timer_due (size (m_heap m)) now (tl_head (m_lists m LTimer)) (m_heap m) in
  match (if first_due now c then run_first c LTimer else None) with
  | Some (x, c') => ∃ p m1 m', due = Ok (Some p) ∧ thread_list_delete LTimer p m = Ok (tt, m1) ∧ thread_run p m1 = Ok (x, m') ∧ tinv m' c'
  | None => due = Ok None
  end.
Proof.
  intros Hi Hn. cbn zeta. rewrite (timer_due_run now m c Hi Hn). unfold first_due, run_first. destruct (c LTimer) as [|[p x] ms] eqn:E; [done|].
  destruct (due_of (p, x) <=? usecs now); [|done]. destruct (timer_thread_run p x ms m c Hi E) as (m1 & m2 & H1 & H2 & Hi2).
  by exists p, m1, m2.
Qed.

Lemma fetch_round_run now now' select m c :
  tinv m c → time_ok now →
  ∃ m', fetch_round now now' select m = Ok ((spec_round now now' select c).1, m') ∧ tinv m' (spec_round now now' select c).2.
Proof.
  intros Hi Hn. unfold fetch_round, spec_round. pose proof (first_run LEvent m c Hi (or_introl eq_refl)) as He.
  destruct (run_first c LEvent) as [[x c']|].
  { destruct He as (p & m1 & m2 & H1 & H2 & Hi2). exists m2. by rewrite (st_bind_Ok _ _ _ _ _ H1), (st_bind_Ok _ _ _ _ _ H2). }
  rewrite (st_bind_Ok _ _ _ _ _ He), (st_bind_Ok _ _ _ m m) by done. pose proof (due_run now m c Hi Hn) as Ht. cbn zeta in Ht.
  destruct (if first_due now c then run_first c LTimer else None) as [[x c']|].
  { destruct Ht as (p & m1 & m2 & H0 & H1 & H2 & Hi2). exists m2.
    by rewrite (st_bind_Ok _ _ _ _ m (st_lift_ok _ _ _ H0)), (st_bind_Ok _ _ _ _ _ H1), (st_bind_Ok _ _ _ _ _ H2). }
  rewrite (st_bind_Ok _ _ _ _ m (st_lift_ok _ _ _ Ht)). pose proof (first_run LReady m c Hi (or_intror eq_refl)) as Hr.
  destruct (run_first c LReady) as [[x c']|].
  { destruct Hr as (p & m1 & m2 & H1 & H2 & Hi2). exists m2. by rewrite (st_bind_Ok _ _ _ _ _ H1), (st_bind_Ok _ _ _ _ _ H2). }
  rewrite (st_bind_Ok _ _ _ _ _ Hr), (st_bind_Ok _ _ _ m m), (st_bind_Ok _ _ _ _ _ (wait_left now' m c Hi)) by done.
  change (m_readfd m) with (mfds false m). change (m_writefd m) with (mfds true m). rewrite !(watched_fds _ m c Hi).
  destruct (select _ _ _) as [| | |r w]; [by exists m..|].
  destruct (process_ready false r m c Hi) as (m1 & H1 & Hi1). destruct (process_ready true w m1 _ Hi1) as (m2 & H2 & Hi2).
  rewrite (st_bind_Ok _ _ _ _ _ H1), (st_bind_Ok _ _ _ _ _ H2). pose proof (first_run LReady m2 _ Hi2 (or_intror eq_refl)) as Hf.
  cbn zeta. destruct (run_first _ LReady) as [[x c']|].
  - destruct Hf as (p & m3 & m4 & H3 & H4 & Hi4). exists m4. by rewrite (st_bind_Ok _ _ _ _ _ H3), (st_bind_Ok _ _ _ _ _ H4).
  - exists m2. by rewrite (st_bind_Ok _ _ _ _ _ Hf).
Qed.

(** * The contents of a master *)

(** The threads of a list, in the order of its links. *)
Fixpoint elems (fuel : nat) (p : option positive) (h : gmap positive thread) : list (positive * tdata) :=
  match p, fuel with
  | Some p, S fuel =>
      match h !! p with
      | Some t => (p, d_data t) :: elems fuel (d_next t) h
      | None => []
      end
  | _, _ => []
  end.

Definition view (m : thread_master) : contents := λ L, elems (size (m_heap m)) (tl_head (m_lists m L)) (m_heap m).

Lemma elems_of m c o L : mrep m c o → ∀ (rest pre : list (positive * tdata)) fuel,
  c L = pre ++ rest → (length rest ≤ fuel)%nat → elems fuel (headp rest) (m_heap m) = rest.
Proof.
  intros Hm. induction rest as [|[p x] rest IH]; intros pre fuel Hc Hf; [by destruct fuel|].
  destruct fuel as [|fuel]; [cbn in Hf; lia|]. cbn in Hf. pose proof (in_list_at _ _ _ _ _ _ _ _ Hm Hc) as Hp.
  cbn [elems headp head fmap option_fmap option_map fst]. rewrite Hp. cbn. f_equal.
  apply (IH (pre ++ [(p, x)])); [by rewrite <- app_assoc|lia].
Qed.

Lemma view_of m c o L : mrep m c o → view m L = c L.
Proof. intros Hm. unfold view. rewrite (head_of _ _ _ L Hm). apply (elems_of m c o L Hm _ []); [done|by eapply list_size]. Qed.

Lemma tinv_view m c : tinv m c → tinv m (view m).
Proof. intros Hi. eapply tinv_ext; [|done]. intros L. symmetry. eapply view_of, Hi. Qed.

(** * Programs that use the loop *)

Inductive top :=
  | ORead (func arg fd : Z)
  | OWrite (func arg fd : Z)
  | OTimer (now : timeval) (func arg timer : Z)
  | OEvent (func arg val : Z)
  | OCancel (thread : positive)
  | OCancelEvent (arg : Z)
  | OFetch (now now' : timeval) (select : select_fun).

Definition run_top (o : top) : ST thread_master unit :=
  match o with
  | ORead func arg fd => _ ← thread_add_read func arg fd; mret tt
  | OWrite func arg fd => _ ← thread_add_write func arg fd; mret tt
  | OTimer now func arg timer => _ ← thread_add_timer now func arg timer; mret tt
  | OEvent func arg val => _ ← thread_add_event func arg val; mret tt
  | OCancel p => thread_cancel p
  | OCancelEvent arg => thread_cancel_event arg
  | OFetch now now' select => _ ← fetch_round now now' select; mret tt
  end.

Fixpoint run_tops (os : list top) : ST thread_master unit :=
  match os with
  | [] => mret tt
  | o :: os => run_top o;; run_tops os
  end.

Definition time_okb (t : timeval) : bool :=
  (0 <=? tv_sec t) && (tv_sec t <? 2 ^ 31) && (0 <=? tv_usec t) && (tv_usec t <? 1000000).

Lemma time_okb_ok t : time_okb t = true → time_ok t.
Proof. unfold time_okb, time_ok. rewrite !andb_true_iff, !Z.leb_le, !Z.ltb_lt. lia. Qed.

(** What the callers see to: descriptors below FD_SETSIZE, times that fit, and that a thread is
    cancelled only while it waits or is ready. *)
Definition top_ok (m : thread_master) (o : top) : bool :=
  match o with
  | ORead _ _ fd | OWrite _ _ fd => (0 <=? fd) && (fd <? FD_SETSIZE)
  | OTimer now _ _ timer => time_okb (Timeval (tv_sec now + timer) (tv_usec now))
  | OCancel p => match m_heap m !! p with Some t => negb (t_type (d_data t) =? THREAD_UNUSED) | None => false end
  | OFetch now _ _ => time_okb now
  | OEvent _ _ _ | OCancelEvent _ => true
  end.

Fixpoint tops_ok (os : list top) (m : thread_master) : bool :=
  match os with
  | [] => true
  | o :: os => top_ok m o && match run_top o m with Ok (_, m') => tops_ok os m' | Fail _ => true end
  end.

Lemma tinv_create : tinv thread_master_create (λ _, []).
Proof.
  split.
  - split; cbn.
    + intros L. split; try done. constructor.
    + done.
    + intros L1 L2 p H. by apply not_elem_of_nil in H.
    + done.
    + intros p [t Ht]. by rewrite lookup_empty in Ht.
  - intros L e H. by apply not_elem_of_nil in H.
  - intros w. split; [by destruct w|constructor].
  - constructor.
  - done.
Qed.

(** A thread that is in use is on a list. *)
Lemma used_on_list m c p t :
  tinv m c → m_heap m !! p = Some t → t_type (d_data t) ≠ THREAD_UNUSED → ∃ L ns ms, L ≠ LUnuse ∧ c L = ns ++ (p, d_data t) :: ms.
Proof.
  intros [Hm Hd _ _ _] Hp Ht. destruct (mr_dom _ _ _ Hm p) as [[L HL]|?]; [by eexists| |done].
  apply list_elem_of_fmap in HL as ([q x] & Hq & Hin). cbn in Hq. subst q. destruct (in_list_split c L _ Hin) as (ns & ms & Hc).
  pose proof (in_list_at _ _ _ _ _ _ _ _ Hm Hc) as Hp'. rewrite Hp in Hp'. injection Hp' as ->. cbn in Ht |- *.
  exists L, ns, ms. split; [|done]. intros ->. by apply Ht, (Hd LUnuse (p, x)).
Qed.

Lemma run_top_ok o m c : tinv m c → top_ok m o = true → ∃ m' c', run_top o m = Ok (tt, m') ∧ tinv m' c'.
Proof.
  intros Hi Hok. destruct o as [func arg fd|func arg fd|now func arg timer|func arg val|p|arg|now now' select]; cbn [run_top top_ok] in *.
  1, 2: apply andb_true_iff in Hok as [?%Z.leb_le ?%Z.ltb_lt].
  - pose proof (add_fd_run false func arg fd m c Hi (conj H H0)) as Hr. destruct (decide _).
    + exists m, c. by rewrite (st_bind_Ok _ _ _ _ _ Hr).
    + destruct Hr as (p & m' & Hr & Hi'). eexists m', _. by rewrite (st_bind_Ok _ _ _ _ _ Hr).
  - pose proof (add_fd_run true func arg fd m c Hi (conj H H0)) as Hr. destruct (decide _).
    + exists m, c. by rewrite (st_bind_Ok _ _ _ _ _ Hr).
    + destruct Hr as (p & m' & Hr & Hi'). eexists m', _. by rewrite (st_bind_Ok _ _ _ _ _ Hr).
  - destruct (add_timer_run now func arg timer m c Hi (time_okb_ok _ Hok)) as (p & m' & ns & ms & _ & Hr & Hi' & _).
    eexists m', _. by rewrite (st_bind_Ok _ _ _ _ _ Hr).
  - destruct (add_event_run func arg val m c Hi) as (p & m' & Hr & Hi'). eexists m', _. by rewrite (st_bind_Ok _ _ _ _ _ Hr).
  - destruct (m_heap m !! p) as [t|] eqn:Hp; [|done]. apply negb_true_iff, Z.eqb_neq in Hok.
    destruct (used_on_list m c p t Hi Hp Hok) as (L & ns & ms & HL & Hc).
    destruct (cancel_run L ns p _ ms m c Hi Hc HL) as (m' & Hr & Hi'). by eexists m', _.
  - destruct (cancel_event_run arg m c Hi) as (m' & c' & Hr & Hi' & _). by exists m', c'.
  - destruct (fetch_round_run now now' select m c Hi (time_okb_ok _ Hok)) as (m' & Hr & Hi'). eexists m', _. by rewrite (st_bind_Ok _ _ _ _ _ Hr).
Qed.

Lemma run_tops_ok os : ∀ m c, tinv m c → tops_ok os m = true → ∃ m' c', run_tops os m = Ok (tt, m') ∧ tinv m' c'.
Proof.
  induction os as [|o os IH]; intros m c Hi Hok; [by exists m, c|]. cbn [tops_ok run_tops] in *. apply andb_true_iff in Hok as [Ho Hok].
  destruct (run_top_ok o m c Hi Ho) as (m1 & c1 & H1 & Hi1). rewrite H1 in Hok. rewrite (st_bind_Ok _ _ _ _ _ H1). by eapply IH.
Qed.

(** The state after a program. *)
Lemma reached_inv os m : tops_ok os thread_master_create = true → run_tops os thread_master_create = Ok (tt, m) → tinv m (view m).
Proof.
  intros Hok Hr. destruct (run_tops_ok os _ _ tinv_create Hok) as (m' & c & Hr' & Hi). rewrite Hr in Hr'. injection Hr' as <-. by eapply tinv_view.
Qed.

(** * The end of a master *)

Lemma list_free_loop_run : ∀ (rest : list (positive * tdata)) fuel m,
  NoDup rest.*1 → (∀ ns p x ms, rest = ns ++ (p, x) :: ms → ∃ pr, m_heap m !! p = Some (Dnode x (headp ms) pr)) → (length rest ≤ fuel)%nat →
  ∃ m', list_free_loop fuel (headp rest) m = Ok (Z.of_nat (length rest), m') ∧ m_lists m' = m_lists m ∧ m_alloc m' = m_alloc m - Z.of_nat (length rest) ∧
    ∀ q, m_heap m' !! q = if decide (q ∈ rest.*1) then None else m_heap m !! q.
Proof.
  induction rest as [|[p x] rest IH]; intros fuel m Hnd Hh Hf.
  { exists m. split; [by destruct fuel|]. split; [done|]. split; [cbn; lia|]. intros q. by rewrite decide_False by (apply not_elem_of_nil). }
  destruct fuel as [|fuel]; [cbn in Hf; lia|]. cbn in Hf. rewrite fmap_cons in Hnd. apply NoDup_cons in Hnd as [Hp Hnd]. cbn in Hp.
  destruct (Hh [] p x rest eq_refl) as [pr Hpr]. cbn [list_free_loop headp head fmap option_fmap option_map fst].
  rewrite (st_bind_Ok _ _ _ _ _ (tread_run _ _ _ Hpr)). cbn [d_next].
  set (m1 := Master (delete p (m_heap m)) (m_lists m) (m_readfd m) (m_writefd m) (m_alloc m - 1)).
  rewrite (st_bind_Ok _ _ _ tt m1) by done. destruct (IH fuel m1 Hnd) as (m' & Hr & Hl & Ha & Hq); [|lia|].
  { intros ns q y ms E. destruct (Hh ((p, x) :: ns) q y ms) as [pr' Hpr']; [by rewrite E|]. exists pr'. cbn. rewrite lookup_delete_ne; [done|].
    intros ->. apply Hp. rewrite E, fmap_app, fmap_cons. set_solver. }
  rewrite (st_bind_Ok _ _ _ _ _ Hr). exists m'. split; [cbn [length]; unfold mret, ST_ret; do 2 f_equal; lia|]. split; [done|].
  split; [rewrite Ha; unfold m1; cbn [m_alloc length]; lia|].
  intros q. rewrite Hq. cbn [m1 m_heap]. rewrite fmap_cons. destruct (decide (q ∈ rest.*1)) as [Hin|Hin].
  - by rewrite decide_True by (by right).
  - destruct (decide (q = p)) as [->|Hne]; [rewrite decide_True by (by left); apply lookup_delete_eq|].
    rewrite decide_False; [by apply lookup_delete_ne|]. intros [?|?]%elem_of_cons; done.
Qed.

(** The lists [Ls] have been freed. *)
Record freed (m0 m : thread_master) (c : contents) (Ls : list tlid) : Prop := Freed {
  fr_heap : ∀ q, m_heap m !! q = if decide (Exists (λ L, q ∈ (c L).*1) Ls) then None else m_heap m0 !! q;
  fr_head : ∀ L, tl_head (m_lists m L) = tl_head (m_lists m0 L);
  fr_alloc : m_alloc m = m_alloc m0 - Z.of_nat (list_sum (length ∘ c <$> Ls));
}.

Lemma list_free_run L Ls m0 m c :
  mrep m0 c None → freed m0 m c Ls → L ∉ Ls → ∃ m', thread_list_free L m = Ok (tt, m') ∧ freed m0 m' c (L :: Ls).
Proof.
  intros Hm [Hh Hd Ha] HL. unfold thread_list_free. rewrite (st_bind_Ok _ _ _ m m) by done. rewrite Hd, (head_of _ _ _ L Hm).
  pose proof (sh_nodup _ _ (mr_shape _ _ _ Hm L)) as Hnd.
  assert (Hin : ∀ ns p x ms, c L = ns ++ (p, x) :: ms → m_heap m !! p = Some (Dnode x (headp ms) (lastp ns))).
  { intros ns p x ms Hc. rewrite Hh, decide_False; [by eapply in_list_at|]. intros (L' & HL' & Hp)%Exists_exists.
    assert (L' = L) as ->; [|done]. apply (mr_disj _ _ _ Hm L' L p Hp). rewrite Hc, fmap_app. set_solver. }
  destruct (list_free_loop_run (c L) (S (size (m_heap m))) m Hnd) as (m' & Hr & Hl & Hal & Hq).
  { intros ns p x ms Hc. eexists. by eapply Hin. }
  { apply Nat.le_le_succ_r. rewrite <- (length_fmap fst), <- size_dom, <- (size_list_to_set (C := gset positive)) by done. apply subseteq_size.
    intros p ([p' x] & -> & Hp)%elem_of_list_to_set%list_elem_of_fmap. destruct (in_list_split c L _ Hp) as (ns & ms & Hc).
    apply elem_of_dom. eexists. by eapply Hin. }
  rewrite (st_bind_Ok _ _ _ _ _ Hr). eexists. split; [reflexivity|]. split.
  - intros q. cbn [put_list m_heap d_nodes]. rewrite Hq, Hh. destruct (decide (q ∈ (c L).*1)) as [Hi|Hi].
    + by rewrite decide_True by (by constructor).
    + destruct (decide (Exists _ Ls)) as [He|He]; [by rewrite decide_True by (by right)|]. rewrite decide_False; [done|].
      by intros [?|?]%Exists_cons.
  - intros L'. cbn. destruct (decide (L' = L)) as [->|]; cbn; by rewrite Hl.
  - assert (list_sum (length ∘ c <$> L :: Ls) = length (c L) + list_sum (length ∘ c <$> Ls))%nat as -> by done.
    cbn [put_list m_alloc]. lia.
Qed.

Lemma master_free_run m c : tinv m c → ∃ m', thread_master_free m = Ok (tt, m') ∧ m_heap m' = ∅ ∧ m_alloc m' = 0.
Proof.
  intros [Hm _ _ _ Ha]. assert (freed m m c []) as H0.
  { split; [|done|cbn; lia]. intros q. rewrite decide_False; [done|]. by intros ?%Exists_nil. }
  unfold thread_master_free.
  destruct (list_free_run LRead _ m m c Hm H0) as (m1 & H1 & F1); [set_solver|]. rewrite (st_bind_Ok _ _ _ _ _ H1).
  destruct (list_free_run LWrite _ m m1 c Hm F1) as (m2 & H2 & F2); [set_solver|]. rewrite (st_bind_Ok _ _ _ _ _ H2).
  destruct (list_free_run LTimer _ m m2 c Hm F2) as (m3 & H3 & F3); [set_solver|]. rewrite (st_bind_Ok _ _ _ _ _ H3).
  destruct (list_free_run LEvent _ m m3 c Hm F3) as (m4 & H4 & F4); [set_solver|]. rewrite (st_bind_Ok _ _ _ _ _ H4).
  destruct (list_free_run LReady _ m m4 c Hm F4) as (m5 & H5 & F5); [set_solver|]. rewrite (st_bind_Ok _ _ _ _ _ H5).
  destruct (list_free_run LUnuse _ m m5 c Hm F5) as (m6 & H6 & [F6 _ A6]); [set_solver|].
  exists m6. split; [done|]. split.
  - apply map_eq. intros q. rewrite F6, lookup_empty. case_decide as He; [done|]. destruct (m_heap m !! q) as [t|] eqn:E; [|done].
    destruct (mr_dom _ _ _ Hm q) as [[L HL]|?]; [by eexists| |done]. destruct He. apply Exists_exists. exists L. split; [|done]. destruct L; set_solver.
  - rewrite A6, Ha. unfold total. cbn. lia.
Qed.

(** * Fetching *)

Abbreviation round_env := (timeval * timeval * select_fun)%type.

Fixpoint spec_fetch (env : list round_env) (c : contents) : option (option tdata * contents) :=
  match env with
  | [] => None
  | (now, now', select) :: env =>
      match spec_round now now' select c with
      | (Some r, c') => Some (r, c')
      | (None, c') => spec_fetch env c'
      end
  end.

Lemma fetch_run env : ∀ m c, tinv m c → Forall (λ e : round_env, time_okb e.1.1 = true) env →
  match spec_fetch env c with
  | Some (r, c') => ∃ m', thread_fetch env m = Ok (r, m') ∧ tinv m' c'
  | None => thread_fetch env m = Fail OutOfFuel
  end.
Proof.
  induction env as [|[[now now'] select] env IH]; intros m c Hi Hf; [done|]. apply Forall_cons in Hf as [Hn Hf]. cbn in Hn.
  destruct (fetch_round_run now now' select m c Hi (time_okb_ok _ Hn)) as (m1 & H1 & Hi1). cbn [spec_fetch thread_fetch].
  rewrite (st_bind_Ok _ _ _ _ _ H1). destruct (spec_round now now' select c) as [[r|] c1]; [by exists m1|by apply IH].
Qed.

(** One fetch for each of [envs]. *)
Fixpoint fetch_all (envs : list round_env) : ST thread_master (list (option tdata)) :=
  match envs with
  | [] => mret []
  | e :: envs =>
      t ← thread_fetch [e];
      ts ← fetch_all envs;
      mret (t :: ts)
  end.

(** At the time of [e] the timers [ts] have run out and those of [later] have not. *)
Definition due_split (ts later : list (positive * tdata)) (e : round_env) : Prop :=
  time_okb e.1.1 = true ∧ Forall (λ t, due_of t ≤ usecs e.1.1) ts ∧ Forall (λ t, usecs e.1.1 < due_of t) later.

Lemma released_other c L l p x L' : L' ≠ LUnuse → released c L l p x L' = upd c L l L'.
Proof. apply upd_ne. Qed.

Lemma fetch_one now now' select m c x c' :
  tinv m c → time_okb now = true → spec_round now now' select c = (Some (Some x), c') →
  ∃ m', thread_fetch [(now, now', select)] m = Ok (Some x, m') ∧ tinv m' c'.
Proof.
  intros Hi Hn Hs. pose proof (fetch_run [(now, now', select)] m c Hi) as H. cbn [spec_fetch] in H. rewrite Hs in H. apply H.
  by apply Forall_singleton.
Qed.

Lemma fetch_all_run later : ∀ envs (es ts rs : list (positive * tdata)) m c,
  tinv m c → c LEvent = es → c LTimer = ts ++ later → c LReady = rs → length envs = length (es ++ ts ++ rs) → Forall (due_split ts later) envs →
  ∃ m', fetch_all envs m = Ok ((λ e, Some e.2) <$> (es ++ ts ++ rs), m').
Proof.
  induction envs as [|[[now now'] select] envs IH]; intros es ts rs m c Hi He Ht Hr Hlen Hf.
  { exists m. by destruct es, ts, rs. }
  apply Forall_cons in Hf as [(Hn & Hd & Hl) Hf]. cbn in Hn, Hd, Hl.
  assert (∃ L p x es' ts' rs', es ++ ts ++ rs = (p, x) :: es' ++ ts' ++ rs' ∧
    spec_round now now' select c = (Some (Some x), released c L (match L with LEvent => es' | LTimer => ts' ++ later | _ => rs' end) p x) ∧
    upd c L (match L with LEvent => es' | LTimer => ts' ++ later | _ => rs' end) LEvent = es' ∧
    upd c L (match L with LEvent => es' | LTimer => ts' ++ later | _ => rs' end) LTimer = ts' ++ later ∧
    upd c L (match L with LEvent => es' | LTimer => ts' ++ later | _ => rs' end) LReady = rs' ∧ ts' ⊆ ts)
    as (L & p & x & es' & ts' & rs' & E & Hs & HE & HT & HR & Hsub).
  { unfold spec_round, run_first, first_due. rewrite He, Ht, Hr. destruct es as [|[p x] es]; [|by exists LEvent, p, x, es, ts, rs].
    destruct ts as [|[p x] ts].
    - assert (match later with e :: _ => due_of e <=? usecs now | [] => false end = false) as Hnd.
      { destruct later as [|e later]; [done|]. apply Z.leb_gt. by apply Forall_inv in Hl. }
      cbn [app]. rewrite Hnd. destruct rs as [|[p x] rs]; [done|]. by exists LReady, p, x, [], [], rs.
    - cbn [app]. rewrite (proj2 (Z.leb_le _ _)) by (by apply Forall_inv in Hd). exists LTimer, p, x, [], ts, rs. split_and!; try done. set_solver. }
  destruct (fetch_one now now' select m c x _ Hi Hn Hs) as (m1 & H1 & Hi1). cbn [fetch_all]. rewrite (st_bind_Ok _ _ _ _ _ H1).
  destruct (IH es' ts' rs' m1 _ Hi1) as (m2 & H2).
  - by rewrite released_other.
  - by rewrite released_other.
  - by rewrite released_other.
  - rewrite E in Hlen. cbn in Hlen. congruence.
  - eapply Forall_impl; [done|]. intros e (? & Hd' & ?). split; [done|]. split; [|done]. rewrite Forall_forall in Hd' |- *. intros t Hin. by apply Hd', Hsub.
  - rewrite (st_bind_Ok _ _ _ _ _ H2), E. by exists m2.
Qed.

(** * Claims *)

(** C6: however a program adds and cancels threads and fetches them, as long as it gives
    descriptors below FD_SETSIZE and times that fit and cancels only threads that wait or are
    ready, no operation faults (no assertion fails, no freed thread is touched), and the
    master stays in order: every thread is on one list, which its type names, the timers are
    sorted, the sets of descriptors are those of the threads that wait for them, each of
    which has one.  thread_master_free then frees every thread that was ever allocated. *)
Theorem threads_safe os :
  tops_ok os thread_master_create = true →
  ∃ m m', run_tops os thread_master_create = Ok (tt, m) ∧ tinv m (view m) ∧
    thread_master_free m = Ok (tt, m') ∧ m_heap m' = ∅ ∧ m_alloc m' = 0.
Proof.
  intros Hok. destruct (run_tops_ok os _ _ tinv_create Hok) as (m & c & Hr & Hi). destruct (master_free_run m c Hi) as (m' & Hf & Hh & Ha).
  exists m, m'. split; [done|]. split; [by eapply tinv_view|done].
Qed.

(** C7: thread_fetch, on a master that a program has reached, does on the contents of the lists
    what its rounds are meant to: an event before anything else, first come first served;
    else the timer that runs out first, if it has run out; else the threads that are ready, in
    order; else select on the descriptors that are waited for, for no longer than the first
    timer has left, after which the readers and then the writers whose descriptors are ready
    move to the end of the ready list.  The thread that is returned becomes unused. *)
Theorem thread_fetch_refines os env m :
  tops_ok os thread_master_create = true → run_tops os thread_master_create = Ok (tt, m) →
  Forall (λ e : round_env, time_okb e.1.1 = true) env →
  match spec_fetch env (view m) with
  | Some (r, c') => ∃ m', thread_fetch env m = Ok (r, m') ∧ ∀ L, view m' L = c' L
  | None => thread_fetch env m = Fail OutOfFuel
  end.
Proof.
  intros Hok Hr Hf. pose proof (fetch_run env m _ (reached_inv os m Hok Hr) Hf) as H. destruct (spec_fetch env (view m)) as [[r c']|]; [|done].
  destruct H as (m' & Hm' & Hi'). exists m'. split; [done|]. intros L. eapply view_of, Hi'.
Qed.

(** C37: everything that can run does: when the timers [ts] have run out and the others have not,
    as many fetches as there are events, timers that have run out and ready threads return all
    of them without waiting: the events in the order in which they were added, the timers in
    the order of their times, then the ready threads. *)
Theorem fetch_in_order os m envs ts later :
  tops_ok os thread_master_create = true → run_tops os thread_master_create = Ok (tt, m) →
  view m LTimer = ts ++ later → Forall (due_split ts later) envs →
  length envs = length (view m LEvent ++ ts ++ view m LReady) →
  StronglySorted Z.le (due_of <$> ts) ∧
  ∃ m', fetch_all envs m = Ok ((λ e, Some e.2) <$> (view m LEvent ++ ts ++ view m LReady), m').
Proof.
  intros Hok Hr Ht Hf Hlen. pose proof (reached_inv os m Hok Hr) as Hi. split.
  - pose proof (tv_sorted _ _ Hi) as Hs. rewrite Ht in Hs. by apply due_app in Hs as [Hs _].
  - by eapply (fetch_all_run later envs _ ts _ m _ Hi).
Qed.

(** ** A program *)

Definition no_select : select_fun := λ _ _ _, SelTimeout.
Definition all_ready : select_fun := λ r w _, SelReady r w.

(** Two events, of which one is cancelled, a reader and a writer of the same descriptor that
    become ready (the reader runs at once), and three timers, of which one is cancelled. *)
Definition demo : list top := [
  OEvent 1 10 0; ORead 2 11 5; OWrite 3 12 5; OEvent 4 13 0; OCancelEvent 13;
  OTimer (Timeval 100 0) 5 14 30; OTimer (Timeval 100 0) 6 15 10; OTimer (Timeval 101 500) 7 16 20; OCancel 4;
  OFetch (Timeval 102 0) (Timeval 102 0) no_select; OFetch (Timeval 103 0) (Timeval 103 0) all_ready;
  OEvent 8 17 0; OEvent 9 18 0].

Definition demo_state : thread_master := match run_tops demo thread_master_create with Ok (_, m) => m | Fail _ => thread_master_create end.

Lemma threads_safe_witness :
  tops_ok demo thread_master_create = true ∧
  ∃ m m', run_tops demo thread_master_create = Ok (tt, m) ∧ tinv m (view m) ∧
    thread_master_free m = Ok (tt, m') ∧ m_heap m' = ∅ ∧ m_alloc m' = 0.
Proof. split; [by vm_compute|]. apply (threads_safe demo). by vm_compute. Defined.

Example demo_view : (λ L, (λ e, t_func e.2) <$> view demo_state L) <$> [LRead; LWrite; LTimer; LEvent; LReady] = [[]; []; [6; 7]; [8; 9]; [3]].
Proof. by vm_compute. Qed.

Definition is_ok {X} (r : res X) : bool := match r with Ok _ => true | Fail _ => false end.

Lemma demo_run : run_tops demo thread_master_create = Ok (tt, demo_state).
Proof.
  assert (is_ok (run_tops demo thread_master_create) = true) as H by (by vm_compute).
  unfold demo_state. by destruct (run_tops demo thread_master_create) as [[[] m]|].
Qed.

Definition demo_env (now : timeval) : round_env := (now, now, no_select).

Lemma thread_fetch_refines_witness :
  match spec_fetch [demo_env (Timeval 110 0)] (view demo_state) with
  | Some (r, c') => ∃ m', thread_fetch [demo_env (Timeval 110 0)] demo_state = Ok (r, m') ∧ ∀ L, view m' L = c' L
  | None => thread_fetch [demo_env (Timeval 110 0)] demo_state = Fail OutOfFuel
  end.
Proof. apply (thread_fetch_refines demo); [by vm_compute|apply demo_run|by repeat constructor]. Defined.

Lemma demo_timers : view demo_state LTimer =
  [(5%positive, Tdata THREAD_TIMER 6 15 (USands (Timeval 110 0))); (6%positive, Tdata THREAD_TIMER 7 16 (USands (Timeval 121 500)))].
Proof. by vm_compute. Qed.

(** At 110 seconds one of the two timers has run out: four fetches return the two events, the
    timer and the ready writer. *)
Lemma fetch_in_order_witness :
  StronglySorted Z.le (due_of <$> take 1 (view demo_state LTimer)) ∧
  ∃ m', fetch_all (replicate 4 (demo_env (Timeval 110 0))) demo_state =
    Ok ((λ e, Some e.2) <$> (view demo_state LEvent ++ take 1 (view demo_state LTimer) ++ view demo_state LReady), m').
Proof.
  apply (fetch_in_order demo) with (later := drop 1 (view demo_state LTimer)); [by vm_compute|apply demo_run|by rewrite take_drop| |by vm_compute].
  apply Forall_replicate. split; [by vm_compute|]. rewrite demo_timers. split; by repeat constructor.
Defined.

(** * Misuse *)

(** Cancelling a thread that is already unused, and alone among those, links it to itself: the
    next two threads are one, and thread_master_free frees it twice. *)
Definition cancelled_twice : ST thread_master unit := run_tops [OEvent 1 10 0; OCancel 1; OCancel 1].

Definition value_of {X} (r : res (X * thread_master)) : option X := match r with Ok (x, _) => Some x | Fail _ => None end.

Lemma cancel_twice_corrupts :
  value_of (cancelled_twice thread_master_create) = Some tt ∧
  (cancelled_twice;; thread_master_free) thread_master_create = Fail UseAfterFree ∧
  value_of ((cancelled_twice;; p ← thread_add_event 2 20 0; q ← thread_add_event 3 30 0; mret (p, q)) thread_master_create) = Some (1%positive, 1%positive).
Proof. split_and!; by vm_compute. Qed.

(** A descriptor is used as an index without a check. *)
Lemma fd_unchecked m w func arg fd : FD_SETSIZE ≤ fd → thread_add_fd w func arg fd m = Fail OutOfBounds.
Proof.
  intros H. unfold thread_add_fd. rewrite (st_bind_Ok _ _ _ m m) by done. unfold FD_ISSET, fd_check.
  by rewrite (proj2 (Z.ltb_ge fd FD_SETSIZE)), andb_false_r by done.
Qed.
