(* ===== verification/OspfIf.v ===== *)
(** OSPF interfaces and neighbors: the data, and the interface and neighbor state
    machines of ospfd/ospf_ism.c and ospfd/ospf_nsm.c with the functions of
    ospfd/ospf_neighbor.c, ospfd/ospf_interface.c and ospfd/ospfd.c they call, as
    they are compiled by default (without opaque LSAs and NSSA).

    The state is one interface with its area and the heap of its neighbor
    structures, which are shared: the pseudo neighbor [nbr_self] holds the
    designated routers of the interface and takes part in the election like the
    others.  A table of neighbors is the list of its bindings in the order of the
    addresses, as route_top and route_next visit them; addresses are their value
    in host order.  A timer is the delay it was set with.  A scheduled event waits in
    [oi_events]; calls that leave the two machines (packets to send, LSAs to
    originate, flush or refresh, multicast groups) are recorded in [oi_calls].  A
    database of LSAs is a map from type, id and advertising router. *)

From S2P Require Import Prelude Prefix Stream OspfLsa.

(** * Data *)

(** ** States and events *)

Inductive ism :=
  | ISM_DependUpon | ISM_Down | ISM_Loopback | ISM_Waiting | ISM_PointToPoint
  | ISM_DROther | ISM_Backup | ISM_DR.

Inductive ism_event :=
  | ISM_NoEvent | ISM_InterfaceUp | ISM_WaitTimer | ISM_BackupSeen | ISM_NeighborChange
  | ISM_LoopInd | ISM_UnloopInd | ISM_InterfaceDown.

Inductive nsm :=
  | NSM_DependUpon | NSM_Down | NSM_Attempt | NSM_Init | NSM_TwoWay | NSM_ExStart
  | NSM_Exchange | NSM_Loading | NSM_Full.

Inductive nsm_event :=
  | NSM_NoEvent | NSM_HelloReceived | NSM_Start | NSM_TwoWayReceived | NSM_NegotiationDone
  | NSM_ExchangeDone | NSM_BadLSReq | NSM_LoadingDone | NSM_AdjOK | NSM_SeqNumberMismatch
  | NSM_OneWayReceived | NSM_KillNbr | NSM_InactivityTimer | NSM_LLDown.

Inductive iftype :=
  | IFTYPE_NONE | IFTYPE_POINTOPOINT | IFTYPE_BROADCAST | IFTYPE_NBMA
  | IFTYPE_POINTOMULTIPOINT | IFTYPE_VIRTUALLINK | IFTYPE_LOOPBACK.

#[export] Instance ism_eq_dec : EqDecision ism.
Proof. solve_decision. Defined.
#[export] Instance ism_event_eq_dec : EqDecision ism_event.
Proof. solve_decision. Defined.
#[export] Instance nsm_eq_dec : EqDecision nsm.
Proof. solve_decision. Defined.
#[export] Instance nsm_event_eq_dec : EqDecision nsm_event.
Proof. solve_decision. Defined.
#[export] Instance iftype_eq_dec : EqDecision iftype.
Proof. solve_decision. Defined.

(** The numbers the code gives to the states, for its comparisons with [<]. *)
Definition ism_num (s : ism) : Z :=
  match s with
  | ISM_DependUpon => 0 | ISM_Down => 1 | ISM_Loopback => 2 | ISM_Waiting => 3
  | ISM_PointToPoint => 4 | ISM_DROther => 5 | ISM_Backup => 6 | ISM_DR => 7
  end.

Definition nsm_num (s : nsm) : Z :=
  match s with
  | NSM_DependUpon => 0 | NSM_Down => 1 | NSM_Attempt => 2 | NSM_Init => 3 | NSM_TwoWay => 4
  | NSM_ExStart => 5 | NSM_Exchange => 6 | NSM_Loading => 7 | NSM_Full => 8
  end.

(** ** Structures *)

Abbreviation timer := (option Z).
Abbreviation lsa_key := (Z * Z * Z)%type.
Abbreviation lsdb := (gmap lsa_key ospf_lsa).

Record ospf_neighbor := Nbr {
  nb_state : nsm;
  nb_dd_flags : Z;
  nb_dd_seqnum : Z;
  nb_address : Z;
  nb_src : Z;
  nb_router_id : Z;
  nb_options : Z;
  nb_priority : Z;
  nb_d_router : Z;
  nb_bd_router : Z;
  nb_ls_rxmt : lsdb;
  nb_db_sum : lsdb;
  nb_ls_req : lsdb;
  nb_ls_req_last : option lsa_key;
  nb_last_send : bool;
  nb_crypt_seqnum : Z;
  nb_v_inactivity : Z;
  nb_v_db_desc : Z;
  nb_v_ls_req : Z;
  nb_v_ls_upd : Z;
  nb_t_inactivity : timer;
  nb_t_db_desc : timer;
  nb_t_ls_req : timer;
  nb_t_ls_upd : timer;
  nb_t_hello_reply : timer;
  nb_state_change : Z;
  nb_nbma : option nat;
}.

(** A statically configured neighbor of an NBMA network. *)
Record nbr_nbma := Nbma {
  nm_addr : Z;
  nm_attached : bool;
  nm_nbr : option nat;
  nm_priority : Z;
  nm_v_poll : Z;
  nm_t_poll : timer;
  nm_state_change : Z;
}.

(** The members of an area the machines use; [ar_lsdb] lists the LSAs of a type. *)
Record ospf_area := Area {
  ar_act_ints : Z;
  ar_full_nbrs : Z;
  ar_external_routing : Z;
  ar_lsdb : Z → list ospf_lsa;
}.

Record if_params := IfParams {
  v_hello : Z;
  v_wait : Z;
  retransmit_interval : Z;
  priority : Z;
  passive_interface : bool;
}.

(** An event that waits for its turn. *)
Inductive event :=
  | IsmEvent (e : ism_event)
  | NsmEvent (nbr : nat) (e : nsm_event).

Inductive call :=
  | CheckAbrStatus
  | ScheduleAbrTask
  | RouterLsaTimerAdd
  | VlRouterLsaTimerAdd
  | NetworkLsaTimerAdd
  | NetworkLsaTimerOff
  | FlushNetworkLsa
  | ExternalLsaRefresh (type : Z)
  | AddAllDRouters
  | DropAllDRouters
  | HelloSend
  | DbDescSend (nbr : nat)
  | DbDescResend (nbr : nat)
  | LsReqSend (nbr : nat)
  | LsReqEvent (nbr : nat)
  | EmptyLsUpdQueue
  | EmptyLsAckList.

Record ospf_interface := Oi {
  oi_type : iftype;
  oi_state : ism;
  oi_address : Z;
  oi_prefixlen : Z;
  oi_params : if_params;
  oi_v_ls_ack : Z;
  oi_router_id : Z;
  oi_nbrs : list (Z * nat);
  oi_heap : gmap nat ospf_neighbor;
  oi_fresh : nat;
  oi_nbr_self : nat;
  oi_nbr_nbma : list nat;
  oi_nbmas : list nbr_nbma;
  oi_network_lsa_self : bool;
  oi_t_hello : timer;
  oi_t_wait : timer;
  oi_t_ls_ack : timer;
  oi_crypt_seqnum : Z;
  oi_state_change : Z;
  oi_full_nbrs : Z;
  oi_area : option ospf_area;
  oi_vl_area : option Z;
  oi_external_lsdb : list ospf_lsa;
  oi_events : list event;
  oi_calls : list call;
}.

(** ** Assignments to members *)

Definition set_nb_state (v : nsm) (n : ospf_neighbor) : ospf_neighbor :=
  Nbr v (nb_dd_flags n) (nb_dd_seqnum n) (nb_address n) (nb_src n) (nb_router_id n) (nb_options n)
    (nb_priority n) (nb_d_router n) (nb_bd_router n) (nb_ls_rxmt n) (nb_db_sum n) (nb_ls_req n)
    (nb_ls_req_last n) (nb_last_send n) (nb_crypt_seqnum n) (nb_v_inactivity n) (nb_v_db_desc n)
    (nb_v_ls_req n) (nb_v_ls_upd n) (nb_t_inactivity n) (nb_t_db_desc n) (nb_t_ls_req n)
    (nb_t_ls_upd n) (nb_t_hello_reply n) (nb_state_change n) (nb_nbma n).
Definition set_nb_dd_flags (v : Z) (n : ospf_neighbor) : ospf_neighbor :=
  Nbr (nb_state n) v (nb_dd_seqnum n) (nb_address n) (nb_src n) (nb_router_id n) (nb_options n)
    (nb_priority n) (nb_d_router n) (nb_bd_router n) (nb_ls_rxmt n) (nb_db_sum n) (nb_ls_req n)
    (nb_ls_req_last n) (nb_last_send n) (nb_crypt_seqnum n) (nb_v_inactivity n) (nb_v_db_desc n)
    (nb_v_ls_req n) (nb_v_ls_upd n) (nb_t_inactivity n) (nb_t_db_desc n) (nb_t_ls_req n)
    (nb_t_ls_upd n) (nb_t_hello_reply n) (nb_state_change n) (nb_nbma n).
Definition set_nb_dd_seqnum (v : Z) (n : ospf_neighbor) : ospf_neighbor :=
  Nbr (nb_state n) (nb_dd_flags n) v (nb_address n) (nb_src n) (nb_router_id n) (nb_options n)
    (nb_priority n) (nb_d_router n) (nb_bd_router n) (nb_ls_rxmt n) (nb_db_sum n) (nb_ls_req n)
    (nb_ls_req_last n) (nb_last_send n) (nb_crypt_seqnum n) (nb_v_inactivity n) (nb_v_db_desc n)
    (nb_v_ls_req n) (nb_v_ls_upd n) (nb_t_inactivity n) (nb_t_db_desc n) (nb_t_ls_req n)
    (nb_t_ls_upd n) (nb_t_hello_reply n) (nb_state_change n) (nb_nbma n).
Definition set_nb_address (v : Z) (n : ospf_neighbor) : ospf_neighbor :=
  Nbr (nb_state n) (nb_dd_flags n) (nb_dd_seqnum n) v (nb_src n) (nb_router_id n) (nb_options n)
    (nb_priority n) (nb_d_router n) (nb_bd_router n) (nb_ls_rxmt n) (nb_db_sum n) (nb_ls_req n)
    (nb_ls_req_last n) (nb_last_send n) (nb_crypt_seqnum n) (nb_v_inactivity n) (nb_v_db_desc n)
    (nb_v_ls_req n) (nb_v_ls_upd n) (nb_t_inactivity n) (nb_t_db_desc n) (nb_t_ls_req n)
    (nb_t_ls_upd n) (nb_t_hello_reply n) (nb_state_change n) (nb_nbma n).
Definition set_nb_src (v : Z) (n : ospf_neighbor) : ospf_neighbor :=
  Nbr (nb_state n) (nb_dd_flags n) (nb_dd_seqnum n) (nb_address n) v (nb_router_id n) (nb_options n)
    (nb_priority n) (nb_d_router n) (nb_bd_router n) (nb_ls_rxmt n) (nb_db_sum n) (nb_ls_req n)
    (nb_ls_req_last n) (nb_last_send n) (nb_crypt_seqnum n) (nb_v_inactivity n) (nb_v_db_desc n)
    (nb_v_ls_req n) (nb_v_ls_upd n) (nb_t_inactivity n) (nb_t_db_desc n) (nb_t_ls_req n)
    (nb_t_ls_upd n) (nb_t_hello_reply n) (nb_state_change n) (nb_nbma n).
Definition set_nb_router_id (v : Z) (n : ospf_neighbor) : ospf_neighbor :=
  Nbr (nb_state n) (nb_dd_flags n) (nb_dd_seqnum n) (nb_address n) (nb_src n) v (nb_options n)
    (nb_priority n) (nb_d_router n) (nb_bd_router n) (nb_ls_rxmt n) (nb_db_sum n) (nb_ls_req n)
    (nb_ls_req_last n) (nb_last_send n) (nb_crypt_seqnum n) (nb_v_inactivity n) (nb_v_db_desc n)
    (nb_v_ls_req n) (nb_v_ls_upd n) (nb_t_inactivity n) (nb_t_db_desc n) (nb_t_ls_req n)
    (nb_t_ls_upd n) (nb_t_hello_reply n) (nb_state_change n) (nb_nbma n).
Definition set_nb_options (v : Z) (n : ospf_neighbor) : ospf_neighbor :=
  Nbr (nb_state n) (nb_dd_flags n) (nb_dd_seqnum n) (nb_address n) (nb_src n) (nb_router_id n) v
    (nb_priority n) (nb_d_router n) (nb_bd_router n) (nb_ls_rxmt n) (nb_db_sum n) (nb_ls_req n)
    (nb_ls_req_last n) (nb_last_send n) (nb_crypt_seqnum n) (nb_v_inactivity n) (nb_v_db_desc n)
    (nb_v_ls_req n) (nb_v_ls_upd n) (nb_t_inactivity n) (nb_t_db_desc n) (nb_t_ls_req n)
    (nb_t_ls_upd n) (nb_t_hello_reply n) (nb_state_change n) (nb_nbma n).
Definition set_nb_priority (v : Z) (n : ospf_neighbor) : ospf_neighbor :=
  Nbr (nb_state n) (nb_dd_flags n) (nb_dd_seqnum n) (nb_address n) (nb_src n) (nb_router_id n)
    (nb_options n) v (nb_d_router n) (nb_bd_router n) (nb_ls_rxmt n) (nb_db_sum n) (nb_ls_req n)
    (nb_ls_req_last n) (nb_last_send n) (nb_crypt_seqnum n) (nb_v_inactivity n) (nb_v_db_desc n)
    (nb_v_ls_req n) (nb_v_ls_upd n) (nb_t_inactivity n) (nb_t_db_desc n) (nb_t_ls_req n)
    (nb_t_ls_upd n) (nb_t_hello_reply n) (nb_state_change n) (nb_nbma n).
Definition set_nb_d_router (v : Z) (n : ospf_neighbor) : ospf_neighbor :=
  Nbr (nb_state n) (nb_dd_flags n) (nb_dd_seqnum n) (nb_address n) (nb_src n) (nb_router_id n)
    (nb_options n) (nb_priority n) v (nb_bd_router n) (nb_ls_rxmt n) (nb_db_sum n) (nb_ls_req n)
    (nb_ls_req_last n) (nb_last_send n) (nb_crypt_seqnum n) (nb_v_inactivity n) (nb_v_db_desc n)
    (nb_v_ls_req n) (nb_v_ls_upd n) (nb_t_inactivity n) (nb_t_db_desc n) (nb_t_ls_req n)
    (nb_t_ls_upd n) (nb_t_hello_reply n) (nb_state_change n) (nb_nbma n).
Definition set_nb_bd_router (v : Z) (n : ospf_neighbor) : ospf_neighbor :=
  Nbr (nb_state n) (nb_dd_flags n) (nb_dd_seqnum n) (nb_address n) (nb_src n) (nb_router_id n)
    (nb_options n) (nb_priority n) (nb_d_router n) v (nb_ls_rxmt n) (nb_db_sum n) (nb_ls_req n)
    (nb_ls_req_last n) (nb_last_send n) (nb_crypt_seqnum n) (nb_v_inactivity n) (nb_v_db_desc n)
    (nb_v_ls_req n) (nb_v_ls_upd n) (nb_t_inactivity n) (nb_t_db_desc n) (nb_t_ls_req n)
    (nb_t_ls_upd n) (nb_t_hello_reply n) (nb_state_change n) (nb_nbma n).
Definition set_nb_ls_rxmt (v : lsdb) (n : ospf_neighbor) : ospf_neighbor :=
  Nbr (nb_state n) (nb_dd_flags n) (nb_dd_seqnum n) (nb_address n) (nb_src n) (nb_router_id n)
    (nb_options n) (nb_priority n) (nb_d_router n) (nb_bd_router n) v (nb_db_sum n) (nb_ls_req n)
    (nb_ls_req_last n) (nb_last_send n) (nb_crypt_seqnum n) (nb_v_inactivity n) (nb_v_db_desc n)
    (nb_v_ls_req n) (nb_v_ls_upd n) (nb_t_inactivity n) (nb_t_db_desc n) (nb_t_ls_req n)
    (nb_t_ls_upd n) (nb_t_hello_reply n) (nb_state_change n) (nb_nbma n).
Definition set_nb_db_sum (v : lsdb) (n : ospf_neighbor) : ospf_neighbor :=
  Nbr (nb_state n) (nb_dd_flags n) (nb_dd_seqnum n) (nb_address n) (nb_src n) (nb_router_id n)
    (nb_options n) (nb_priority n) (nb_d_router n) (nb_bd_router n) (nb_ls_rxmt n) v (nb_ls_req n)
    (nb_ls_req_last n) (nb_last_send n) (nb_crypt_seqnum n) (nb_v_inactivity n) (nb_v_db_desc n)
    (nb_v_ls_req n) (nb_v_ls_upd n) (nb_t_inactivity n) (nb_t_db_desc n) (nb_t_ls_req n)
    (nb_t_ls_upd n) (nb_t_hello_reply n) (nb_state_change n) (nb_nbma n).
Definition set_nb_ls_req (v : lsdb) (n : ospf_neighbor) : ospf_neighbor :=
  Nbr (nb_state n) (nb_dd_flags n) (nb_dd_seqnum n) (nb_address n) (nb_src n) (nb_router_id n)
    (nb_options n) (nb_priority n) (nb_d_router n) (nb_bd_router n) (nb_ls_rxmt n) (nb_db_sum n) v
    (nb_ls_req_last n) (nb_last_send n) (nb_crypt_seqnum n) (nb_v_inactivity n) (nb_v_db_desc n)
    (nb_v_ls_req n) (nb_v_ls_upd n) (nb_t_inactivity n) (nb_t_db_desc n) (nb_t_ls_req n)
    (nb_t_ls_upd n) (nb_t_hello_reply n) (nb_state_change n) (nb_nbma n).
Definition set_nb_ls_req_last (v : option lsa_key) (n : ospf_neighbor) : ospf_neighbor :=
  Nbr (nb_state n) (nb_dd_flags n) (nb_dd_seqnum n) (nb_address n) (nb_src n) (nb_router_id n)
    (nb_options n) (nb_priority n) (nb_d_router n) (nb_bd_router n) (nb_ls_rxmt n) (nb_db_sum n)
    (nb_ls_req n) v (nb_last_send n) (nb_crypt_seqnum n) (nb_v_inactivity n) (nb_v_db_desc n)
    (nb_v_ls_req n) (nb_v_ls_upd n) (nb_t_inactivity n) (nb_t_db_desc n) (nb_t_ls_req n)
    (nb_t_ls_upd n) (nb_t_hello_reply n) (nb_state_change n) (nb_nbma n).
Definition set_nb_last_send (v : bool) (n : ospf_neighbor) : ospf_neighbor :=
  Nbr (nb_state n) (nb_dd_flags n) (nb_dd_seqnum n) (nb_address n) (nb_src n) (nb_router_id n)
    (nb_options n) (nb_priority n) (nb_d_router n) (nb_bd_router n) (nb_ls_rxmt n) (nb_db_sum n)
    (nb_ls_req n) (nb_ls_req_last n) v (nb_crypt_seqnum n) (nb_v_inactivity n) (nb_v_db_desc n)
    (nb_v_ls_req n) (nb_v_ls_upd n) (nb_t_inactivity n) (nb_t_db_desc n) (nb_t_ls_req n)
    (nb_t_ls_upd n) (nb_t_hello_reply n) (nb_state_change n) (nb_nbma n).
Definition set_nb_crypt_seqnum (v : Z) (n : ospf_neighbor) : ospf_neighbor :=
  Nbr (nb_state n) (nb_dd_flags n) (nb_dd_seqnum n) (nb_address n) (nb_src n) (nb_router_id n)
    (nb_options n) (nb_priority n) (nb_d_router n) (nb_bd_router n) (nb_ls_rxmt n) (nb_db_sum n)
    (nb_ls_req n) (nb_ls_req_last n) (nb_last_send n) v (nb_v_inactivity n) (nb_v_db_desc n)
    (nb_v_ls_req n) (nb_v_ls_upd n) (nb_t_inactivity n) (nb_t_db_desc n) (nb_t_ls_req n)
    (nb_t_ls_upd n) (nb_t_hello_reply n) (nb_state_change n) (nb_nbma n).
Definition set_nb_t_inactivity (v : timer) (n : ospf_neighbor) : ospf_neighbor :=
  Nbr (nb_state n) (nb_dd_flags n) (nb_dd_seqnum n) (nb_address n) (nb_src n) (nb_router_id n)
    (nb_options n) (nb_priority n) (nb_d_router n) (nb_bd_router n) (nb_ls_rxmt n) (nb_db_sum n)
    (nb_ls_req n) (nb_ls_req_last n) (nb_last_send n) (nb_crypt_seqnum n) (nb_v_inactivity n)
    (nb_v_db_desc n) (nb_v_ls_req n) (nb_v_ls_upd n) v (nb_t_db_desc n) (nb_t_ls_req n)
    (nb_t_ls_upd n) (nb_t_hello_reply n) (nb_state_change n) (nb_nbma n).
Definition set_nb_t_db_desc (v : timer) (n : ospf_neighbor) : ospf_neighbor :=
  Nbr (nb_state n) (nb_dd_flags n) (nb_dd_seqnum n) (nb_address n) (nb_src n) (nb_router_id n)
    (nb_options n) (nb_priority n) (nb_d_router n) (nb_bd_router n) (nb_ls_rxmt n) (nb_db_sum n)
    (nb_ls_req n) (nb_ls_req_last n) (nb_last_send n) (nb_crypt_seqnum n) (nb_v_inactivity n)
    (nb_v_db_desc n) (nb_v_ls_req n) (nb_v_ls_upd n) (nb_t_inactivity n) v (nb_t_ls_req n)
    (nb_t_ls_upd n) (nb_t_hello_reply n) (nb_state_change n) (nb_nbma n).
Definition set_nb_t_ls_req (v : timer) (n : ospf_neighbor) : ospf_neighbor :=
  Nbr (nb_state n) (nb_dd_flags n) (nb_dd_seqnum n) (nb_address n) (nb_src n) (nb_router_id n)
    (nb_options n) (nb_priority n) (nb_d_router n) (nb_bd_router n) (nb_ls_rxmt n) (nb_db_sum n)
    (nb_ls_req n) (nb_ls_req_last n) (nb_last_send n) (nb_crypt_seqnum n) (nb_v_inactivity n)
    (nb_v_db_desc n) (nb_v_ls_req n) (nb_v_ls_upd n) (nb_t_inactivity n) (nb_t_db_desc n) v
    (nb_t_ls_upd n) (nb_t_hello_reply n) (nb_state_change n) (nb_nbma n).
Definition set_nb_t_ls_upd (v : timer) (n : ospf_neighbor) : ospf_neighbor :=
  Nbr (nb_state n) (nb_dd_flags n) (nb_dd_seqnum n) (nb_address n) (nb_src n) (nb_router_id n)
    (nb_options n) (nb_priority n) (nb_d_router n) (nb_bd_router n) (nb_ls_rxmt n) (nb_db_sum n)
    (nb_ls_req n) (nb_ls_req_last n) (nb_last_send n) (nb_crypt_seqnum n) (nb_v_inactivity n)
    (nb_v_db_desc n) (nb_v_ls_req n) (nb_v_ls_upd n) (nb_t_inactivity n) (nb_t_db_desc n)
    (nb_t_ls_req n) v (nb_t_hello_reply n) (nb_state_change n) (nb_nbma n).
Definition set_nb_t_hello_reply (v : timer) (n : ospf_neighbor) : ospf_neighbor :=
  Nbr (nb_state n) (nb_dd_flags n) (nb_dd_seqnum n) (nb_address n) (nb_src n) (nb_router_id n)
    (nb_options n) (nb_priority n) (nb_d_router n) (nb_bd_router n) (nb_ls_rxmt n) (nb_db_sum n)
    (nb_ls_req n) (nb_ls_req_last n) (nb_last_send n) (nb_crypt_seqnum n) (nb_v_inactivity n)
    (nb_v_db_desc n) (nb_v_ls_req n) (nb_v_ls_upd n) (nb_t_inactivity n) (nb_t_db_desc n)
    (nb_t_ls_req n) (nb_t_ls_upd n) v (nb_state_change n) (nb_nbma n).
Definition set_nb_state_change (v : Z) (n : ospf_neighbor) : ospf_neighbor :=
  Nbr (nb_state n) (nb_dd_flags n) (nb_dd_seqnum n) (nb_address n) (nb_src n) (nb_router_id n)
    (nb_options n) (nb_priority n) (nb_d_router n) (nb_bd_router n) (nb_ls_rxmt n) (nb_db_sum n)
    (nb_ls_req n) (nb_ls_req_last n) (nb_last_send n) (nb_crypt_seqnum n) (nb_v_inactivity n)
    (nb_v_db_desc n) (nb_v_ls_req n) (nb_v_ls_upd n) (nb_t_inactivity n) (nb_t_db_desc n)
    (nb_t_ls_req n) (nb_t_ls_upd n) (nb_t_hello_reply n) v (nb_nbma n).
Definition set_nb_nbma (v : option nat) (n : ospf_neighbor) : ospf_neighbor :=
  Nbr (nb_state n) (nb_dd_flags n) (nb_dd_seqnum n) (nb_address n) (nb_src n) (nb_router_id n)
    (nb_options n) (nb_priority n) (nb_d_router n) (nb_bd_router n) (nb_ls_rxmt n) (nb_db_sum n)
    (nb_ls_req n) (nb_ls_req_last n) (nb_last_send n) (nb_crypt_seqnum n) (nb_v_inactivity n)
    (nb_v_db_desc n) (nb_v_ls_req n) (nb_v_ls_upd n) (nb_t_inactivity n) (nb_t_db_desc n)
    (nb_t_ls_req n) (nb_t_ls_upd n) (nb_t_hello_reply n) (nb_state_change n) v.

Definition set_nm_attached (v : bool) (m : nbr_nbma) : nbr_nbma :=
  Nbma (nm_addr m) v (nm_nbr m) (nm_priority m) (nm_v_poll m) (nm_t_poll m) (nm_state_change m).
Definition set_nm_nbr (v : option nat) (m : nbr_nbma) : nbr_nbma :=
  Nbma (nm_addr m) (nm_attached m) v (nm_priority m) (nm_v_poll m) (nm_t_poll m) (nm_state_change m).
Definition set_nm_t_poll (v : timer) (m : nbr_nbma) : nbr_nbma :=
  Nbma (nm_addr m) (nm_attached m) (nm_nbr m) (nm_priority m) (nm_v_poll m) v (nm_state_change m).
Definition set_nm_state_change (v : Z) (m : nbr_nbma) : nbr_nbma :=
  Nbma (nm_addr m) (nm_attached m) (nm_nbr m) (nm_priority m) (nm_v_poll m) (nm_t_poll m) v.

Definition set_ar_act_ints (v : Z) (a : ospf_area) : ospf_area :=
  Area v (ar_full_nbrs a) (ar_external_routing a) (ar_lsdb a).
Definition set_ar_full_nbrs (v : Z) (a : ospf_area) : ospf_area :=
  Area (ar_act_ints a) v (ar_external_routing a) (ar_lsdb a).

Definition set_oi_state (v : ism) (o : ospf_interface) : ospf_interface :=
  Oi (oi_type o) v (oi_address o) (oi_prefixlen o) (oi_params o) (oi_v_ls_ack o) (oi_router_id o)
    (oi_nbrs o) (oi_heap o) (oi_fresh o) (oi_nbr_self o) (oi_nbr_nbma o) (oi_nbmas o)
    (oi_network_lsa_self o) (oi_t_hello o) (oi_t_wait o) (oi_t_ls_ack o) (oi_crypt_seqnum o)
    (oi_state_change o) (oi_full_nbrs o) (oi_area o) (oi_vl_area o) (oi_external_lsdb o)
    (oi_events o) (oi_calls o).
Definition set_oi_nbrs (v : list (Z * nat)) (o : ospf_interface) : ospf_interface :=
  Oi (oi_type o) (oi_state o) (oi_address o) (oi_prefixlen o) (oi_params o) (oi_v_ls_ack o)
    (oi_router_id o) v (oi_heap o) (oi_fresh o) (oi_nbr_self o) (oi_nbr_nbma o) (oi_nbmas o)
    (oi_network_lsa_self o) (oi_t_hello o) (oi_t_wait o) (oi_t_ls_ack o) (oi_crypt_seqnum o)
    (oi_state_change o) (oi_full_nbrs o) (oi_area o) (oi_vl_area o) (oi_external_lsdb o)
    (oi_events o) (oi_calls o).
Definition set_oi_heap (v : gmap nat ospf_neighbor) (o : ospf_interface) : ospf_interface :=
  Oi (oi_type o) (oi_state o) (oi_address o) (oi_prefixlen o) (oi_params o) (oi_v_ls_ack o)
    (oi_router_id o) (oi_nbrs o) v (oi_fresh o) (oi_nbr_self o) (oi_nbr_nbma o) (oi_nbmas o)
    (oi_network_lsa_self o) (oi_t_hello o) (oi_t_wait o) (oi_t_ls_ack o) (oi_crypt_seqnum o)
    (oi_state_change o) (oi_full_nbrs o) (oi_area o) (oi_vl_area o) (oi_external_lsdb o)
    (oi_events o) (oi_calls o).
Definition set_oi_fresh (v : nat) (o : ospf_interface) : ospf_interface :=
  Oi (oi_type o) (oi_state o) (oi_address o) (oi_prefixlen o) (oi_params o) (oi_v_ls_ack o)
    (oi_router_id o) (oi_nbrs o) (oi_heap o) v (oi_nbr_self o) (oi_nbr_nbma o) (oi_nbmas o)
    (oi_network_lsa_self o) (oi_t_hello o) (oi_t_wait o) (oi_t_ls_ack o) (oi_crypt_seqnum o)
    (oi_state_change o) (oi_full_nbrs o) (oi_area o) (oi_vl_area o) (oi_external_lsdb o)
    (oi_events o) (oi_calls o).
Definition set_oi_nbr_self (v : nat) (o : ospf_interface) : ospf_interface :=
  Oi (oi_type o) (oi_state o) (oi_address o) (oi_prefixlen o) (oi_params o) (oi_v_ls_ack o)
    (oi_router_id o) (oi_nbrs o) (oi_heap o) (oi_fresh o) v (oi_nbr_nbma o) (oi_nbmas o)
    (oi_network_lsa_self o) (oi_t_hello o) (oi_t_wait o) (oi_t_ls_ack o) (oi_crypt_seqnum o)
    (oi_state_change o) (oi_full_nbrs o) (oi_area o) (oi_vl_area o) (oi_external_lsdb o)
    (oi_events o) (oi_calls o).
Definition set_oi_nbr_nbma (v : list nat) (o : ospf_interface) : ospf_interface :=
  Oi (oi_type o) (oi_state o) (oi_address o) (oi_prefixlen o) (oi_params o) (oi_v_ls_ack o)
    (oi_router_id o) (oi_nbrs o) (oi_heap o) (oi_fresh o) (oi_nbr_self o) v (oi_nbmas o)
    (oi_network_lsa_self o) (oi_t_hello o) (oi_t_wait o) (oi_t_ls_ack o) (oi_crypt_seqnum o)
    (oi_state_change o) (oi_full_nbrs o) (oi_area o) (oi_vl_area o) (oi_external_lsdb o)
    (oi_events o) (oi_calls o).
Definition set_oi_nbmas (v : list nbr_nbma) (o : ospf_interface) : ospf_interface :=
  Oi (oi_type o) (oi_state o) (oi_address o) (oi_prefixlen o) (oi_params o) (oi_v_ls_ack o)
    (oi_router_id o) (oi_nbrs o) (oi_heap o) (oi_fresh o) (oi_nbr_self o) (oi_nbr_nbma o) v
    (oi_network_lsa_self o) (oi_t_hello o) (oi_t_wait o) (oi_t_ls_ack o) (oi_crypt_seqnum o)
    (oi_state_change o) (oi_full_nbrs o) (oi_area o) (oi_vl_area o) (oi_external_lsdb o)
    (oi_events o) (oi_calls o).
Definition set_oi_network_lsa_self (v : bool) (o : ospf_interface) : ospf_interface :=
  Oi (oi_type o) (oi_state o) (oi_address o) (oi_prefixlen o) (oi_params o) (oi_v_ls_ack o)
    (oi_router_id o) (oi_nbrs o) (oi_heap o) (oi_fresh o) (oi_nbr_self o) (oi_nbr_nbma o)
    (oi_nbmas o) v (oi_t_hello o) (oi_t_wait o) (oi_t_ls_ack o) (oi_crypt_seqnum o)
    (oi_state_change o) (oi_full_nbrs o) (oi_area o) (oi_vl_area o) (oi_external_lsdb o)
    (oi_events o) (oi_calls o).
Definition set_oi_t_hello (v : timer) (o : ospf_interface) : ospf_interface :=
  Oi (oi_type o) (oi_state o) (oi_address o) (oi_prefixlen o) (oi_params o) (oi_v_ls_ack o)
    (oi_router_id o) (oi_nbrs o) (oi_heap o) (oi_fresh o) (oi_nbr_self o) (oi_nbr_nbma o)
    (oi_nbmas o) (oi_network_lsa_self o) v (oi_t_wait o) (oi_t_ls_ack o) (oi_crypt_seqnum o)
    (oi_state_change o) (oi_full_nbrs o) (oi_area o) (oi_vl_area o) (oi_external_lsdb o)
    (oi_events o) (oi_calls o).
Definition set_oi_t_wait (v : timer) (o : ospf_interface) : ospf_interface :=
  Oi (oi_type o) (oi_state o) (oi_address o) (oi_prefixlen o) (oi_params o) (oi_v_ls_ack o)
    (oi_router_id o) (oi_nbrs o) (oi_heap o) (oi_fresh o) (oi_nbr_self o) (oi_nbr_nbma o)
    (oi_nbmas o) (oi_network_lsa_self o) (oi_t_hello o) v (oi_t_ls_ack o) (oi_crypt_seqnum o)
    (oi_state_change o) (oi_full_nbrs o) (oi_area o) (oi_vl_area o) (oi_external_lsdb o)
    (oi_events o) (oi_calls o).
Definition set_oi_t_ls_ack (v : timer) (o : ospf_interface) : ospf_interface :=
  Oi (oi_type o) (oi_state o) (oi_address o) (oi_prefixlen o) (oi_params o) (oi_v_ls_ack o)
    (oi_router_id o) (oi_nbrs o) (oi_heap o) (oi_fresh o) (oi_nbr_self o) (oi_nbr_nbma o)
    (oi_nbmas o) (oi_network_lsa_self o) (oi_t_hello o) (oi_t_wait o) v (oi_crypt_seqnum o)
    (oi_state_change o) (oi_full_nbrs o) (oi_area o) (oi_vl_area o) (oi_external_lsdb o)
    (oi_events o) (oi_calls o).
Definition set_oi_crypt_seqnum (v : Z) (o : ospf_interface) : ospf_interface :=
  Oi (oi_type o) (oi_state o) (oi_address o) (oi_prefixlen o) (oi_params o) (oi_v_ls_ack o)
    (oi_router_id o) (oi_nbrs o) (oi_heap o) (oi_fresh o) (oi_nbr_self o) (oi_nbr_nbma o)
    (oi_nbmas o) (oi_network_lsa_self o) (oi_t_hello o) (oi_t_wait o) (oi_t_ls_ack o) v
    (oi_state_change o) (oi_full_nbrs o) (oi_area o) (oi_vl_area o) (oi_external_lsdb o)
    (oi_events o) (oi_calls o).
Definition set_oi_state_change (v : Z) (o : ospf_interface) : ospf_interface :=
  Oi (oi_type o) (oi_state o) (oi_address o) (oi_prefixlen o) (oi_params o) (oi_v_ls_ack o)
    (oi_router_id o) (oi_nbrs o) (oi_heap o) (oi_fresh o) (oi_nbr_self o) (oi_nbr_nbma o)
    (oi_nbmas o) (oi_network_lsa_self o) (oi_t_hello o) (oi_t_wait o) (oi_t_ls_ack o)
    (oi_crypt_seqnum o) v (oi_full_nbrs o) (oi_area o) (oi_vl_area o) (oi_external_lsdb o)
    (oi_events o) (oi_calls o).
Definition set_oi_full_nbrs (v : Z) (o : ospf_interface) : ospf_interface :=
  Oi (oi_type o) (oi_state o) (oi_address o) (oi_prefixlen o) (oi_params o) (oi_v_ls_ack o)
    (oi_router_id o) (oi_nbrs o) (oi_heap o) (oi_fresh o) (oi_nbr_self o) (oi_nbr_nbma o)
    (oi_nbmas o) (oi_network_lsa_self o) (oi_t_hello o) (oi_t_wait o) (oi_t_ls_ack o)
    (oi_crypt_seqnum o) (oi_state_change o) v (oi_area o) (oi_vl_area o) (oi_external_lsdb o)
    (oi_events o) (oi_calls o).
Definition set_oi_area (v : option ospf_area) (o : ospf_interface) : ospf_interface :=
  Oi (oi_type o) (oi_state o) (oi_address o) (oi_prefixlen o) (oi_params o) (oi_v_ls_ack o)
    (oi_router_id o) (oi_nbrs o) (oi_heap o) (oi_fresh o) (oi_nbr_self o) (oi_nbr_nbma o)
    (oi_nbmas o) (oi_network_lsa_self o) (oi_t_hello o) (oi_t_wait o) (oi_t_ls_ack o)
    (oi_crypt_seqnum o) (oi_state_change o) (oi_full_nbrs o) v (oi_vl_area o) (oi_external_lsdb o)
    (oi_events o) (oi_calls o).
Definition set_oi_vl_area (v : option Z) (o : ospf_interface) : ospf_interface :=
  Oi (oi_type o) (oi_state o) (oi_address o) (oi_prefixlen o) (oi_params o) (oi_v_ls_ack o)
    (oi_router_id o) (oi_nbrs o) (oi_heap o) (oi_fresh o) (oi_nbr_self o) (oi_nbr_nbma o)
    (oi_nbmas o) (oi_network_lsa_self o) (oi_t_hello o) (oi_t_wait o) (oi_t_ls_ack o)
    (oi_crypt_seqnum o) (oi_state_change o) (oi_full_nbrs o) (oi_area o) v (oi_external_lsdb o)
    (oi_events o) (oi_calls o).
Definition set_oi_events (v : list event) (o : ospf_interface) : ospf_interface :=
  Oi (oi_type o) (oi_state o) (oi_address o) (oi_prefixlen o) (oi_params o) (oi_v_ls_ack o)
    (oi_router_id o) (oi_nbrs o) (oi_heap o) (oi_fresh o) (oi_nbr_self o) (oi_nbr_nbma o)
    (oi_nbmas o) (oi_network_lsa_self o) (oi_t_hello o) (oi_t_wait o) (oi_t_ls_ack o)
    (oi_crypt_seqnum o) (oi_state_change o) (oi_full_nbrs o) (oi_area o) (oi_vl_area o)
    (oi_external_lsdb o) v (oi_calls o).
Definition set_oi_calls (v : list call) (o : ospf_interface) : ospf_interface :=
  Oi (oi_type o) (oi_state o) (oi_address o) (oi_prefixlen o) (oi_params o) (oi_v_ls_ack o)
    (oi_router_id o) (oi_nbrs o) (oi_heap o) (oi_fresh o) (oi_nbr_self o) (oi_nbr_nbma o)
    (oi_nbmas o) (oi_network_lsa_self o) (oi_t_hello o) (oi_t_wait o) (oi_t_ls_ack o)
    (oi_crypt_seqnum o) (oi_state_change o) (oi_full_nbrs o) (oi_area o) (oi_vl_area o)
    (oi_external_lsdb o) (oi_events o) v.

(** * Operations *)

Abbreviation M := (ST ospf_interface).

Definition modify (f : ospf_interface → ospf_interface) : M unit := λ o, Ok (tt, f o).
Definition call_out (c : call) : M unit := modify (λ o, set_oi_calls (oi_calls o ++ [c]) o).
Definition schedule (e : event) : M unit := modify (λ o, set_oi_events (oi_events o ++ [e]) o).
Definition when (b : bool) (m : M unit) : M unit := if b then m else mret tt.

(** Access to a neighbor structure. *)
Definition nbr_read (p : nat) : M ospf_neighbor := λ o,
  match oi_heap o !! p with Some n => Ok (n, o) | None => Fail UseAfterFree end.
Definition nbr_upd (p : nat) (f : ospf_neighbor → ospf_neighbor) : M unit := λ o,
  match oi_heap o !! p with
  | Some n => Ok (tt, set_oi_heap (<[p := f n]> (oi_heap o)) o)
  | None => Fail UseAfterFree
  end.
Definition self_read : M ospf_neighbor := o ← st_get; nbr_read (oi_nbr_self o).
Definition self_upd (f : ospf_neighbor → ospf_neighbor) : M unit :=
  o ← st_get; nbr_upd (oi_nbr_self o) f.

(** DR (oi), BDR (oi), PRIORITY (oi). *)
Definition DR : M Z := n ← self_read; mret (nb_d_router n).
Definition BDR : M Z := n ← self_read; mret (nb_bd_router n).
Definition PRIORITY : M Z := n ← self_read; mret (nb_priority n).

Definition NBR_IS_DR (n : ospf_neighbor) : bool := nb_address n =? nb_d_router n.
Definition NBR_IS_BDR (n : ospf_neighbor) : bool := nb_address n =? nb_bd_router n.

(** OSPF_ISM_TIMER_ON and OSPF_NSM_TIMER_ON: a running timer keeps running. *)
Definition timer_on (t : timer) (v : Z) : timer := match t with Some w => Some w | None => Some v end.

(** ** Election of the designated routers *)

Fixpoint election_sub_loop (routers : list nat) (max : option nat) : M (option nat) :=
  match routers with
  | [] => mret max
  | p :: routers =>
      nbr ← nbr_read p;
      match max with
      | None => election_sub_loop routers (Some p)
      | Some m =>
          mx ← nbr_read m;
          if nb_priority mx <? nb_priority nbr then election_sub_loop routers (Some p)
          else if (nb_priority mx =? nb_priority nbr) && (nb_router_id mx <? nb_router_id nbr)
          then election_sub_loop routers (Some p)
          else election_sub_loop routers max
      end
  end.

Definition ospf_dr_election_sub (routers : list nat) : M (option nat) :=
  election_sub_loop routers None.

(** The loop of ospf_elect_dr: the routers that declare themselves DR, and the
    Backup of the interface. *)
Fixpoint dr_lists (el : list nat) (dr_list : list nat) (bdr : option nat) :
    M (list nat * option nat) :=
  match el with
  | [] => mret (dr_list, bdr)
  | p :: el =>
      nbr ← nbr_read p;
      b ← BDR;
      dr_lists el (if NBR_IS_DR nbr then dr_list ++ [p] else dr_list)
        (if b =? nb_address nbr then Some p else bdr)
  end.

(** The address of a router, or 0. *)
Definition address_of (p : option nat) : M Z :=
  match p with
  | Some p => n ← nbr_read p; mret (nb_address n)
  | None => mret 0
  end.

Definition ospf_elect_dr (el_list : list nat) : M (option nat) :=
  '(dr_list, bdr) ← dr_lists el_list [] None;
  dr ← match dr_list with
       | [] => mret bdr
       | _ => ospf_dr_election_sub dr_list
       end;
  a ← address_of dr;
  self_upd (set_nb_d_router a);;
  mret dr.

(** The loop of ospf_elect_bdr: the routers that do not declare themselves DR,
    and those of them that declare themselves Backup. *)
Fixpoint bdr_lists (el : list nat) (bdr_list no_dr_list : list nat) : M (list nat * list nat) :=
  match el with
  | [] => mret (bdr_list, no_dr_list)
  | p :: el =>
      nbr ← nbr_read p;
      if NBR_IS_DR nbr then bdr_lists el bdr_list no_dr_list
      else bdr_lists el (if NBR_IS_BDR nbr then bdr_list ++ [p] else bdr_list) (no_dr_list ++ [p])
  end.

Definition ospf_elect_bdr (el_list : list nat) : M (option nat) :=
  '(bdr_list, no_dr_list) ← bdr_lists el_list [] [];
  bdr ← match bdr_list with
        | [] => ospf_dr_election_sub no_dr_list
        | _ => ospf_dr_election_sub bdr_list
        end;
  a ← address_of bdr;
  self_upd (set_nb_bd_router a);;
  mret bdr.

Definition ospf_ism_state : M ism :=
  o ← st_get;
  d ← DR;
  b ← BDR;
  mret (if d =? oi_address o then ISM_DR
        else if b =? oi_address o then ISM_Backup else ISM_DROther).

(** The loop over the table of neighbors: the routers eligible to become DR. *)
Fixpoint eligible_loop (nbrs : list (Z * nat)) (el : list nat) : M (list nat) :=
  match nbrs with
  | [] => mret el
  | (_, p) :: nbrs =>
      nbr ← nbr_read p;
      eligible_loop nbrs
        (if negb (nb_router_id nbr =? 0) && negb (nb_priority nbr =? 0) &&
            (nsm_num NSM_TwoWay <=? nsm_num (nb_state nbr))
         then el ++ [p] else el)
  end.

Definition ospf_dr_eligible_routers : M (list nat) :=
  o ← st_get; eligible_loop (oi_nbrs o) [].

Fixpoint dr_change_loop (router_id : Z) (nbrs : list (Z * nat)) : M unit :=
  match nbrs with
  | [] => mret tt
  | (_, p) :: nbrs =>
      nbr ← nbr_read p;
      when (negb (nb_router_id nbr =? 0) && (nsm_num NSM_TwoWay <=? nsm_num (nb_state nbr)) &&
            negb (nb_router_id nbr =? router_id))
        (schedule (NsmEvent p NSM_AdjOK));;
      dr_change_loop router_id nbrs
  end.

Definition ospf_dr_change : M unit :=
  o ← st_get; dr_change_loop (oi_router_id o) (oi_nbrs o).

Definition is_dr_or_backup (s : ism) : bool :=
  bool_decide (s = ISM_DR) || bool_decide (s = ISM_Backup).

Definition ospf_dr_election : M ism :=
  old_dr ← DR;
  old_bdr ← BDR;
  o ← st_get;
  let old_state := oi_state o in
  el_list ← ospf_dr_eligible_routers;
  _ ← ospf_elect_bdr el_list;
  _ ← ospf_elect_dr el_list;
  new_state ← ospf_ism_state;
  new_state ←
    (if negb (bool_decide (new_state = old_state)) &&
        negb (bool_decide (new_state = ISM_DROther) && (ism_num old_state <? ism_num ISM_DROther))
     then
       _ ← ospf_elect_bdr el_list;
       _ ← ospf_elect_dr el_list;
       ospf_ism_state
     else mret new_state);
  d ← DR;
  b ← BDR;
  when (negb (old_dr =? d) || negb (old_bdr =? b)) ospf_dr_change;;
  when (bool_decide (oi_type o = IFTYPE_BROADCAST) || bool_decide (oi_type o = IFTYPE_POINTOPOINT))
    (if negb (is_dr_or_backup old_state) && is_dr_or_backup new_state then call_out AddAllDRouters
     else when (is_dr_or_backup old_state && negb (is_dr_or_backup new_state)) (call_out DropAllDRouters));;
  mret new_state.

(** ** The interface state machine *)

Definition ospf_hello_timer : M unit :=
  modify (set_oi_t_hello None);;
  call_out HelloSend;;
  modify (λ o, set_oi_t_hello (timer_on (oi_t_hello o) (v_hello (oi_params o))) o).

Definition ospf_wait_timer : M unit :=
  modify (set_oi_t_wait None);;
  schedule (IsmEvent ISM_WaitTimer).

Definition ism_timer_set : M unit :=
  modify (λ o,
    match oi_state o with
    | ISM_Down | ISM_Loopback =>
        set_oi_t_hello None (set_oi_t_wait None (set_oi_t_ls_ack None o))
    | ISM_Waiting =>
        set_oi_t_hello (timer_on (oi_t_hello o) 1)
          (set_oi_t_wait (timer_on (oi_t_wait o) (v_wait (oi_params o))) (set_oi_t_ls_ack None o))
    | ISM_PointToPoint =>
        set_oi_t_hello (timer_on (oi_t_hello o) 1)
          (set_oi_t_wait None (set_oi_t_ls_ack (timer_on (oi_t_ls_ack o) (oi_v_ls_ack o)) o))
    | ISM_DROther | ISM_Backup | ISM_DR =>
        set_oi_t_hello (timer_on (oi_t_hello o) (v_hello (oi_params o)))
          (set_oi_t_wait None (set_oi_t_ls_ack (timer_on (oi_t_ls_ack o) (oi_v_ls_ack o)) o))
    | ISM_DependUpon => o
    end).

Inductive ism_handler :=
  | ism_ignore | ism_interface_up | ism_interface_down | ism_loop_ind | ism_wait_timer
  | ism_backup_seen | ism_neighbor_change.

(** The table ISM: the handler of an event and the next state. *)
Definition ISM (s : ism) (e : ism_event) : ism_handler * ism :=
  match e with
  | ISM_NoEvent => (ism_ignore, ISM_DependUpon)
  | _ =>
    match s with
    | ISM_DependUpon => (ism_ignore, ISM_DependUpon)
    | ISM_Down =>
        match e with
        | ISM_InterfaceUp => (ism_interface_up, ISM_DependUpon)
        | ISM_LoopInd => (ism_loop_ind, ISM_Loopback)
        | ISM_InterfaceDown => (ism_interface_down, ISM_Down)
        | _ => (ism_ignore, ISM_Down)
        end
    | ISM_Loopback =>
        match e with
        | ISM_UnloopInd => (ism_ignore, ISM_Down)
        | ISM_InterfaceDown => (ism_interface_down, ISM_Down)
        | _ => (ism_ignore, ISM_Loopback)
        end
    | ISM_Waiting =>
        match e with
        | ISM_WaitTimer => (ism_wait_timer, ISM_DependUpon)
        | ISM_BackupSeen => (ism_backup_seen, ISM_DependUpon)
        | ISM_LoopInd => (ism_loop_ind, ISM_Loopback)
        | ISM_InterfaceDown => (ism_interface_down, ISM_Down)
        | _ => (ism_ignore, ISM_Waiting)
        end
    | ISM_PointToPoint =>
        match e with
        | ISM_LoopInd => (ism_loop_ind, ISM_Loopback)
        | ISM_InterfaceDown => (ism_interface_down, ISM_Down)
        | _ => (ism_ignore, ISM_PointToPoint)
        end
    | ISM_DROther | ISM_Backup | ISM_DR =>
        match e with
        | ISM_NeighborChange => (ism_neighbor_change, ISM_DependUpon)
        | ISM_LoopInd => (ism_loop_ind, ISM_Loopback)
        | ISM_InterfaceDown => (ism_interface_down, ISM_Down)
        | _ => (ism_ignore, s)
        end
    end
  end.

(** [down] is the body of ism_interface_down, [up] what ism_interface_up does for
    NBMA networks; a handler returns the next state, or ISM_DependUpon (0). *)
Definition ism_run (up down : M unit) (h : ism_handler) : M ism :=
  match h with
  | ism_ignore | ism_loop_ind => mret ISM_DependUpon
  | ism_interface_up =>
      o ← st_get;
      p ← PRIORITY;
      let next_state :=
        if bool_decide (oi_type o = IFTYPE_POINTOPOINT) ||
           bool_decide (oi_type o = IFTYPE_POINTOMULTIPOINT) ||
           bool_decide (oi_type o = IFTYPE_VIRTUALLINK)
        then ISM_PointToPoint
        else if p =? 0 then ISM_DROther else ISM_Waiting in
      when (bool_decide (oi_type o = IFTYPE_NBMA)) up;;
      mret next_state
  | ism_interface_down => down;; mret ISM_DependUpon
  | ism_wait_timer | ism_backup_seen | ism_neighbor_change => ospf_dr_election
  end.

Definition ism_change_state (state : ism) : M unit :=
  o ← st_get;
  let old_state := oi_state o in
  modify (λ o, set_oi_state_change (u32 (oi_state_change o + 1)) (set_oi_state state o));;
  when (bool_decide (old_state = ISM_Down) || bool_decide (state = ISM_Down)) (call_out CheckAbrStatus);;
  match oi_area o with
  | Some a =>
      (if bool_decide (state = ISM_Down)
       then when (0 <? ar_act_ints a) (modify (set_oi_area (Some (set_ar_act_ints (u32 (ar_act_ints a - 1)) a))))
       else when (bool_decide (old_state = ISM_Down))
              (modify (set_oi_area (Some (set_ar_act_ints (u32 (ar_act_ints a + 1)) a)))));;
      call_out RouterLsaTimerAdd
  | None => mret tt
  end;;
  (if negb (bool_decide (old_state = ISM_DR)) && bool_decide (state = ISM_DR) then call_out NetworkLsaTimerAdd
   else when (bool_decide (old_state = ISM_DR) && negb (bool_decide (state = ISM_DR)))
          (when (oi_network_lsa_self o) (call_out FlushNetworkLsa;; call_out NetworkLsaTimerOff);;
           modify (set_oi_network_lsa_self false)));;
  call_out CheckAbrStatus.

(** ospf_ism_event, with the parts of the handlers that execute neighbor events
    left open. *)
Definition ism_event_with (up down : M unit) (e : ism_event) : M unit :=
  o ← st_get;
  next ← ism_run up down (fst (ISM (oi_state o) e));
  o ← st_get;
  let next_state := if bool_decide (next = ISM_DependUpon) then snd (ISM (oi_state o) e) else next in
  when (negb (bool_decide (next_state = oi_state o))) (ism_change_state next_state);;
  ism_timer_set.

(** A NeighborChange event executed from the neighbor machine: its handlers do not
    take the interface up or down. *)
Definition ism_neighbor_event : M unit :=
  ism_event_with (st_fail OutOfFuel) (st_fail OutOfFuel) ISM_NeighborChange.

(** ** Databases of a neighbor *)

Definition key_of (l : ospf_lsa) : res lsa_key :=
  t ← lsa_type (l_data l); i ← lsa_id (l_data l); a ← lsa_adv_router (l_data l); Ok (t, i, a).

Definition ospf_lsdb_add (db : lsdb) (l : ospf_lsa) : res lsdb :=
  k ← key_of l; Ok (<[k := l]> db).

Definition ospf_lsdb_lookup (db : lsdb) (l : ospf_lsa) : res (option ospf_lsa) :=
  k ← key_of l; Ok (db !! k).

Definition ospf_lsdb_isempty (db : lsdb) : bool := bool_decide (db = ∅).

Definition ospf_ls_retransmit_add (now : timeval) (l : ospf_lsa) (n : ospf_neighbor) : res ospf_neighbor :=
  old ← ospf_lsdb_lookup (nb_ls_rxmt n) l;
  c ← ospf_lsa_more_recent now old (Some l);
  if c <? 0 then db ← ospf_lsdb_add (nb_ls_rxmt n) l; Ok (set_nb_ls_rxmt db n) else Ok n.

Definition ospf_ls_retransmit_clear (n : ospf_neighbor) : ospf_neighbor :=
  set_nb_ls_req_last None (set_nb_ls_rxmt ∅ n).

Definition ospf_ls_request_delete_all (n : ospf_neighbor) : ospf_neighbor :=
  set_nb_ls_req_last None (set_nb_ls_req ∅ n).

Definition ospf_db_summary_clear (n : ospf_neighbor) : ospf_neighbor := set_nb_db_sum ∅ n.

Definition ospf_db_summary_add (now : timeval) (l : ospf_lsa) (n : ospf_neighbor) : res ospf_neighbor :=
  m ← IS_LSA_MAXAGE now l;
  if (m : bool) then ospf_ls_retransmit_add now l n
  else db ← ospf_lsdb_add (nb_db_sum n) l; Ok (set_nb_db_sum db n).

Fixpoint summary_add_all (now : timeval) (ls : list ospf_lsa) (n : ospf_neighbor) : res ospf_neighbor :=
  match ls with
  | [] => Ok n
  | l :: ls => n ← ospf_db_summary_add now l n; summary_add_all now ls n
  end.

(** ** The neighbor state machine *)

Definition ospf_inactivity_timer (p : nat) : M unit :=
  nbr_upd p (set_nb_t_inactivity None);;
  schedule (NsmEvent p NSM_InactivityTimer).

(** ospf_db_desc_send and ospf_db_desc_resend: the packets are only recorded, but the
    neighbor keeps a copy of the one sent last, which the second function sends. *)
Definition ospf_db_desc_send (p : nat) : M unit :=
  call_out (DbDescSend p);;
  nbr_upd p (set_nb_last_send true).

Definition ospf_db_desc_resend (p : nat) : M unit :=
  n ← nbr_read p;
  if nb_last_send n then call_out (DbDescResend p) else st_fail NullDeref.

Definition ospf_db_desc_timer (p : nat) : M unit :=
  nbr_upd p (set_nb_t_db_desc None);;
  n ← nbr_read p;
  st_lift (c_assert (nb_last_send n));;
  ospf_db_desc_resend p;;
  nbr_upd p (λ n, set_nb_t_db_desc (timer_on (nb_t_db_desc n) (nb_v_db_desc n)) n).

Definition OSPF_DD_FLAG_MS : Z := 1.
Definition OSPF_DD_FLAG_M : Z := 2.
Definition OSPF_DD_FLAG_I : Z := 4.
Definition IS_SET_DD_MS (f : Z) : bool := negb (Z.land f OSPF_DD_FLAG_MS =? 0).

Definition nsm_timer_set (p : nat) : M unit :=
  nbr_upd p (λ n,
    match nb_state n with
    | NSM_Down | NSM_Attempt | NSM_Init | NSM_TwoWay =>
        set_nb_t_db_desc None (set_nb_t_ls_upd None n)
    | NSM_ExStart =>
        set_nb_t_db_desc (timer_on (nb_t_db_desc n) (nb_v_db_desc n)) (set_nb_t_ls_upd None n)
    | NSM_Exchange =>
        let n := set_nb_t_ls_upd (timer_on (nb_t_ls_upd n) (nb_v_ls_upd n)) n in
        if negb (IS_SET_DD_MS (nb_dd_flags n)) then set_nb_t_db_desc None n else n
    | NSM_Loading | NSM_Full | NSM_DependUpon => set_nb_t_db_desc None n
    end).

Inductive nsm_handler :=
  | nsm_ignore | nsm_hello_received | nsm_start | nsm_twoway_received | nsm_negotiation_done
  | nsm_exchange_done | nsm_bad_ls_req | nsm_adj_ok | nsm_seq_number_mismatch
  | nsm_oneway_received | nsm_kill_nbr | nsm_inactivity_timer | nsm_ll_down.

(** The table NSM. *)
Definition NSM (s : nsm) (e : nsm_event) : nsm_handler * nsm :=
  match s, e with
  | NSM_DependUpon, _ | _, NSM_NoEvent => (nsm_ignore, NSM_DependUpon)
  | _, NSM_KillNbr => (nsm_kill_nbr, NSM_Down)
  | _, NSM_InactivityTimer => (nsm_inactivity_timer, NSM_Down)
  | _, NSM_LLDown => (nsm_ll_down, NSM_Down)
  | NSM_Down, NSM_HelloReceived => (nsm_hello_received, NSM_Init)
  | NSM_Down, NSM_Start => (nsm_start, NSM_Attempt)
  | NSM_Attempt, NSM_HelloReceived => (nsm_hello_received, NSM_Init)
  | _, NSM_HelloReceived => (nsm_hello_received, s)
  | NSM_Init, NSM_TwoWayReceived => (nsm_twoway_received, NSM_DependUpon)
  | (NSM_Down | NSM_Attempt | NSM_Init), _ => (nsm_ignore, s)
  | _, NSM_AdjOK => (nsm_adj_ok, NSM_DependUpon)
  | _, NSM_OneWayReceived => (nsm_oneway_received, NSM_Init)
  | NSM_TwoWay, _ => (nsm_ignore, NSM_TwoWay)
  | NSM_ExStart, NSM_NegotiationDone => (nsm_negotiation_done, NSM_Exchange)
  | NSM_ExStart, _ => (nsm_ignore, NSM_ExStart)
  | _, NSM_BadLSReq => (nsm_bad_ls_req, NSM_ExStart)
  | _, NSM_SeqNumberMismatch => (nsm_seq_number_mismatch, NSM_ExStart)
  | NSM_Exchange, NSM_ExchangeDone => (nsm_exchange_done, NSM_DependUpon)
  | NSM_Loading, NSM_LoadingDone => (nsm_ignore, NSM_Full)
  | _, _ => (nsm_ignore, s)
  end.

(** Whether a network of the type always needs an adjacency. *)
Definition must_be_adjacent (t : iftype) : bool :=
  bool_decide (t = IFTYPE_POINTOPOINT) || bool_decide (t = IFTYPE_POINTOMULTIPOINT) ||
  bool_decide (t = IFTYPE_VIRTUALLINK).

Definition twoway_received (p : nat) : M nsm :=
  o ← st_get; d ← DR; b ← BDR; n ← nbr_read p;
  mret (if must_be_adjacent (oi_type o) || ((oi_address o =? d) || (oi_address o =? b)) ||
           ((nb_address n =? nb_d_router n) || (nb_address n =? nb_bd_router n))
        then NSM_ExStart else NSM_TwoWay).

Definition adj_ok (p : nat) : M nsm :=
  o ← st_get; d ← DR; b ← BDR; n ← nbr_read p;
  let flag := must_be_adjacent (oi_type o) || ((oi_address o =? d) || (oi_address o =? b)) ||
              ((nb_address n =? d) || (nb_address n =? b)) in
  mret (if bool_decide (nb_state n = NSM_TwoWay) && flag then NSM_ExStart
        else if (nsm_num NSM_ExStart <=? nsm_num (nb_state n)) && negb flag then NSM_TwoWay
        else nb_state n).

Definition nsm_reset_nbr (p : nat) : M unit :=
  nbr_upd p (λ n,
    let n := if ospf_lsdb_isempty (nb_db_sum n) then n else ospf_db_summary_clear n in
    let n := if ospf_lsdb_isempty (nb_ls_req n) then n else ospf_ls_request_delete_all n in
    let n := if ospf_lsdb_isempty (nb_ls_rxmt n) then n else ospf_ls_retransmit_clear n in
    set_nb_t_db_desc None (set_nb_t_ls_req None (set_nb_t_ls_upd None (set_nb_t_hello_reply None n)))).

Definition OSPF_ROUTER_LSA : Z := 1.
Definition OSPF_NETWORK_LSA : Z := 2.
Definition OSPF_SUMMARY_LSA : Z := 3.
Definition OSPF_ASBR_SUMMARY_LSA : Z := 4.
Definition OSPF_AREA_DEFAULT : Z := 0.

Definition nsm_change_full (p : nat) (to_full : bool) : M unit :=
  o ← st_get;
  let vl := bool_decide (oi_type o = IFTYPE_VIRTUALLINK) in
  match oi_area o with
  | None => st_fail NullDeref
  | Some a =>
      (if to_full then
         modify (λ o, set_oi_full_nbrs (u32 (oi_full_nbrs o + 1))
           (set_oi_area (Some (set_ar_full_nbrs (u32 (ar_full_nbrs a + 1)) a)) o));;
         call_out CheckAbrStatus;;
         match oi_vl_area o with
         | Some v => when vl (modify (set_oi_vl_area (Some (u32 (v + 1))));; when (u32 (v + 1) =? 1) (call_out ScheduleAbrTask))
         | None => mret tt
         end;;
         modify (λ o, set_oi_calls (oi_calls o ++ (ExternalLsaRefresh <$> [0; 1; 2; 3; 4; 5; 8])) o)
       else
         modify (λ o, set_oi_full_nbrs (u32 (oi_full_nbrs o - 1))
           (set_oi_area (Some (set_ar_full_nbrs (u32 (ar_full_nbrs a - 1)) a)) o));;
         call_out CheckAbrStatus;;
         match oi_vl_area o with
         | Some v => when (vl && (0 <? v)) (modify (set_oi_vl_area (Some (u32 (v - 1))));; when (u32 (v - 1) =? 0) (call_out ScheduleAbrTask))
         | None => mret tt
         end;;
         nbr_upd p (λ n, if ospf_lsdb_isempty (nb_ls_rxmt n) then n else ospf_ls_retransmit_clear n));;
      call_out RouterLsaTimerAdd;;
      match oi_vl_area o with
      | Some _ => when vl (call_out VlRouterLsaTimerAdd)
      | None => mret tt
      end;;
      o ← st_get;
      when (bool_decide (oi_state o = ISM_DR))
        (if oi_network_lsa_self o && (oi_full_nbrs o =? 0)
         then call_out FlushNetworkLsa;; modify (set_oi_network_lsa_self false);; call_out NetworkLsaTimerOff
         else call_out NetworkLsaTimerAdd)
  end.

Section Nsm.
(** The time of day. *)
Context (now : timeval).

Definition nsm_change_state (p : nat) (state : nsm) : M unit :=
  n ← nbr_read p;
  let old_state := nb_state n in
  nbr_upd p (λ n, set_nb_state_change (u32 (nb_state_change n + 1)) (set_nb_state state n));;
  when (negb (bool_decide (old_state = NSM_Full)) && bool_decide (state = NSM_Full) ||
        bool_decide (old_state = NSM_Full) && negb (bool_decide (state = NSM_Full)))
    (nsm_change_full p (bool_decide (state = NSM_Full)));;
  when (bool_decide (state = NSM_ExStart))
    (nbr_upd p (λ n, set_nb_dd_flags 7
       (set_nb_dd_seqnum (if nb_dd_seqnum n =? 0 then u32 (tv_sec now) else u32 (nb_dd_seqnum n + 1)) n));;
     ospf_db_desc_send p);;
  when (bool_decide (state = NSM_Down)) (nbr_upd p (set_nb_crypt_seqnum 0));;
  o ← st_get;
  when (match oi_state o with
        | ISM_DROther | ISM_Backup | ISM_DR =>
            (nsm_num old_state <? nsm_num NSM_TwoWay) && (nsm_num NSM_TwoWay <=? nsm_num state) ||
            (nsm_num NSM_TwoWay <=? nsm_num old_state) && (nsm_num state <? nsm_num NSM_TwoWay)
        | _ => false
        end)
    ism_neighbor_event;;
  when (bool_decide (state = NSM_Init)) (modify (set_oi_t_hello (Some 1))).

(** ospf_nbr_free and ospf_nbr_delete: the structure leaves the table and the heap,
    and the events that wait for it are cancelled. *)
Definition for_nbr (p : nat) (e : event) : bool :=
  match e with NsmEvent q _ => bool_decide (q = p) | IsmEvent _ => false end.

Definition ospf_nbr_free (p : nat) : M unit :=
  n ← nbr_read p;
  match nb_nbma n with
  | Some m => modify (λ o, set_oi_nbmas (alter (set_nm_nbr None) m (oi_nbmas o)) o)
  | None => mret tt
  end;;
  modify (λ o, set_oi_events (filter (λ e, for_nbr p e = false) (oi_events o))
                 (set_oi_heap (delete p (oi_heap o)) o)).

Definition ospf_nbr_delete (p : nat) : M unit :=
  n ← nbr_read p;
  modify (λ o, set_oi_nbrs (filter (λ e, e.1 ≠ nb_src n) (oi_nbrs o)) o);;
  ospf_nbr_free p.

Definition kill_nbr (p : nat) : M unit :=
  nsm_change_state p NSM_Down;;
  nsm_reset_nbr p;;
  o ← st_get;
  n ← nbr_read p;
  match nb_nbma n with
  | Some m =>
      when (bool_decide (oi_type o = IFTYPE_NBMA))
        (modify (λ o, set_oi_nbmas (alter (λ x, set_nm_t_poll (timer_on (nm_t_poll x) (nm_v_poll x))
           (set_nm_state_change (nb_state_change n) (set_nm_nbr None x))) m (oi_nbmas o)) o);;
         nbr_upd p (set_nb_nbma None))
  | None => mret tt
  end;;
  ospf_nbr_delete p.

Definition poll_timer_off (n : ospf_neighbor) : M unit :=
  match nb_nbma n with
  | Some m => modify (λ o, set_oi_nbmas (alter (set_nm_t_poll None) m (oi_nbmas o)) o)
  | None => mret tt
  end.

Definition restart_inactivity (p : nat) : M unit :=
  nbr_upd p (λ n, set_nb_t_inactivity (Some (nb_v_inactivity n)) n).

Definition negotiation_done (p : nat) : M unit :=
  o ← st_get;
  n ← nbr_read p;
  match oi_area o with
  | None => st_fail NullDeref
  | Some a =>
      n ← st_lift (summary_add_all now
            (ar_lsdb a OSPF_ROUTER_LSA ++ ar_lsdb a OSPF_NETWORK_LSA ++ ar_lsdb a OSPF_SUMMARY_LSA ++
             ar_lsdb a OSPF_ASBR_SUMMARY_LSA ++
             if negb (bool_decide (oi_type o = IFTYPE_VIRTUALLINK)) && (ar_external_routing a =? OSPF_AREA_DEFAULT)
             then oi_external_lsdb o else []) n);
      nbr_upd p (λ _, n)
  end.

Definition nsm_run (p : nat) (h : nsm_handler) : M nsm :=
  match h with
  | nsm_ignore => mret NSM_DependUpon
  | nsm_hello_received =>
      restart_inactivity p;;
      o ← st_get;
      n ← nbr_read p;
      when (bool_decide (oi_type o = IFTYPE_NBMA)) (poll_timer_off n);;
      mret NSM_DependUpon
  | nsm_start =>
      nsm_reset_nbr p;;
      n ← nbr_read p;
      poll_timer_off n;;
      restart_inactivity p;;
      mret NSM_DependUpon
  | nsm_twoway_received => twoway_received p
  | nsm_negotiation_done => negotiation_done p;; mret NSM_DependUpon
  | nsm_exchange_done =>
      n ← nbr_read p;
      if ospf_lsdb_isempty (nb_ls_req n) then mret NSM_Full
      else call_out (LsReqSend p);; mret NSM_Loading
  | nsm_adj_ok => adj_ok p
  | nsm_bad_ls_req | nsm_seq_number_mismatch | nsm_oneway_received =>
      nsm_reset_nbr p;; mret NSM_DependUpon
  | nsm_kill_nbr | nsm_inactivity_timer | nsm_ll_down => kill_nbr p;; mret NSM_DependUpon
  end.

Definition ospf_nsm_event (p : nat) (e : nsm_event) : M unit :=
  n ← nbr_read p;
  next ← nsm_run p (fst (NSM (nb_state n) e));
  if bool_decide (e = NSM_KillNbr) || bool_decide (e = NSM_InactivityTimer) then mret tt
  else
    n ← nbr_read p;
    let next_state := if bool_decide (next = NSM_DependUpon) then snd (NSM (nb_state n) e) else next in
    when (negb (bool_decide (next_state = nb_state n))) (nsm_change_state p next_state);;
    nsm_timer_set p.

Definition ospf_check_nbr_loading (p : nat) : M unit :=
  n ← nbr_read p;
  when (bool_decide (nb_state n = NSM_Loading))
    (if ospf_lsdb_isempty (nb_ls_req n) then schedule (NsmEvent p NSM_LoadingDone)
     else when (bool_decide (nb_ls_req_last n = None)) (call_out (LsReqEvent p))).

(** ** Neighbors *)

Definition OSPF_OPTION_T : Z := 1.
Definition OSPF_OPTION_E : Z := 2.

Definition ospf_nbr_new (o : ospf_interface) : ospf_neighbor :=
  let r := retransmit_interval (oi_params o) in
  Nbr NSM_Down 7 0 0 0 0 0 (-1) 0 0 ∅ ∅ ∅ None false 0 (v_wait (oi_params o)) r r r
    None None None None None 0 None.

(** A new structure on the heap. *)
Definition nbr_alloc (n : ospf_neighbor) : M nat := λ o,
  Ok (oi_fresh o, set_oi_fresh (S (oi_fresh o)) (set_oi_heap (<[oi_fresh o := n]> (oi_heap o)) o)).

(** Insertion into the table of neighbors. *)
Fixpoint nbrs_insert (a : Z) (p : nat) (l : list (Z * nat)) : list (Z * nat) :=
  match l with
  | [] => [(a, p)]
  | (b, q) :: l => if a <? b then (a, p) :: (b, q) :: l else (b, q) :: nbrs_insert a p l
  end.

Definition nbrs_lookup (a : Z) (l : list (Z * nat)) : option nat :=
  (λ e, e.2.2) <$> list_find (λ e, e.1 = a) l.

Definition ospf_nbr_add_self : M unit :=
  o ← st_get;
  match nbrs_lookup (oi_address o) (oi_nbrs o) with
  | Some _ => mret tt
  | None => modify (set_oi_nbrs (nbrs_insert (oi_address o) (oi_nbr_self o) (oi_nbrs o)))
  end.

Definition ospf_nbr_bidirectional (router_id : Z) (neighbors : list Z) : bool :=
  existsb (λ a, router_id =? a) neighbors.

Fixpoint nbr_count_loop (router_id : Z) (state : nsm) (nbrs : list (Z * nat)) (count : Z) : M Z :=
  match nbrs with
  | [] => mret count
  | (_, p) :: nbrs =>
      n ← nbr_read p;
      nbr_count_loop router_id state nbrs
        (if negb (nb_router_id n =? router_id) &&
            (bool_decide (state = NSM_DependUpon) || bool_decide (nb_state n = state))
         then count + 1 else count)
  end.
Definition ospf_nbr_count (state : nsm) : M Z :=
  o ← st_get; nbr_count_loop (oi_router_id o) state (oi_nbrs o) 0.

Definition ospf_nbr_lookup_by_addr (addr : Z) : M (option nat) :=
  o ← st_get; mret (nbrs_lookup addr (oi_nbrs o)).

Fixpoint lookup_routerid_loop (id : Z) (nbrs : list (Z * nat)) : M (option nat) :=
  match nbrs with
  | [] => mret None
  | (_, p) :: nbrs =>
      n ← nbr_read p;
      if nb_router_id n =? id then mret (Some p) else lookup_routerid_loop id nbrs
  end.
Definition ospf_nbr_lookup_by_routerid (id : Z) : M (option nat) :=
  o ← st_get; lookup_routerid_loop id (oi_nbrs o).

(** ** Interfaces going up and down *)

(** The static neighbor [m] gets a neighbor structure. *)
Definition ospf_nbr_nbma_add (m : nat) : M unit :=
  o ← st_get;
  self ← self_read;
  match oi_nbmas o !! m with
  | None => st_fail UseAfterFree
  | Some x =>
      if negb (bool_decide (oi_type o = IFTYPE_NBMA)) || negb (bool_decide (nm_nbr x = None)) ||
         (nb_address self =? nm_addr x)
      then mret tt
      else
        modify (λ o, set_oi_nbr_nbma (oi_nbr_nbma o ++ [m])
                       (set_oi_nbmas (alter (set_nm_attached true) m (oi_nbmas o)) o));;
        match nbrs_lookup (nm_addr x) (oi_nbrs o) with
        | Some p =>
            nbr_upd p (set_nb_nbma (Some m));;
            modify (λ o, set_oi_nbmas (alter (set_nm_nbr (Some p)) m (oi_nbmas o)) o)
        | None =>
            p ← nbr_alloc (set_nb_src (nm_addr x) (set_nb_nbma (Some m) (set_nb_priority (nm_priority x)
                  (set_nb_address (nm_addr x) (ospf_nbr_new o)))));
            modify (λ o, set_oi_nbrs (nbrs_insert (nm_addr x) p (oi_nbrs o))
                           (set_oi_nbmas (alter (set_nm_nbr (Some p)) m (oi_nbmas o)) o));;
            ospf_nsm_event p NSM_Start
        end
  end.

Fixpoint nbma_update_loop (ms : list nat) : M unit :=
  match ms with
  | [] => mret tt
  | m :: ms =>
      o ← st_get;
      match oi_nbmas o !! m with
      | None => st_fail UseAfterFree
      | Some x =>
          if negb (nm_attached x) && bool_decide (nm_nbr x = None) then
            covered ← st_lift (prefix_match (Prefix AF_INET (oi_prefixlen o) (be32 (oi_address o)))
                                 (Prefix AF_INET 32 (be32 (nm_addr x))));
            when covered (ospf_nbr_nbma_add m)
          else mret tt
      end;;
      nbma_update_loop ms
  end.

Definition ospf_nbr_nbma_if_update : M unit :=
  o ← st_get;
  when (bool_decide (oi_type o = IFTYPE_NBMA)) (nbma_update_loop (seq 0 (length (oi_nbmas o)))).

(** listnode_delete. *)
Fixpoint remove_first (m : nat) (l : list nat) : list nat :=
  match l with
  | [] => []
  | x :: l => if bool_decide (x = m) then l else x :: remove_first m l
  end.

(** The loop over the static neighbors of the interface in ospf_if_cleanup. *)
Fixpoint detach_nbma (ms : list nat) : M unit :=
  match ms with
  | [] => mret tt
  | m :: ms =>
      o ← st_get;
      match oi_nbmas o !! m with
      | None => st_fail UseAfterFree
      | Some x =>
          match nm_nbr x with
          | Some p => nbr_upd p (set_nb_nbma None)
          | None => mret tt
          end;;
          modify (λ o, set_oi_nbr_nbma (remove_first m (oi_nbr_nbma o))
            (set_oi_nbmas (alter (λ x, set_nm_t_poll None (set_nm_nbr None (set_nm_attached false x))) m (oi_nbmas o)) o))
      end;;
      detach_nbma ms
  end.

(** The loop that kills the neighbors: [keys] are the addresses of the table. *)
Fixpoint kill_loop (keys : list Z) : M unit :=
  match keys with
  | [] => mret tt
  | k :: keys =>
      o ← st_get;
      match nbrs_lookup k (oi_nbrs o) with
      | Some p => when (negb (bool_decide (p = oi_nbr_self o))) (ospf_nsm_event p NSM_KillNbr)
      | None => mret tt
      end;;
      kill_loop keys
  end.

(** The new pseudo neighbor of ospf_if_cleanup. *)
Definition new_self (o : ospf_interface) (a : ospf_area) : ospf_neighbor :=
  set_nb_state NSM_TwoWay (set_nb_priority (priority (oi_params o)) (set_nb_router_id (oi_router_id o)
    (set_nb_src (oi_address o) (set_nb_address (oi_address o)
       (set_nb_options (if ar_external_routing a =? OSPF_AREA_DEFAULT then OSPF_OPTION_E else 0) (ospf_nbr_new o)))))).

Definition ospf_if_cleanup : M unit :=
  o ← st_get;
  detach_nbma (oi_nbr_nbma o);;
  o ← st_get;
  kill_loop (fst <$> oi_nbrs o);;
  call_out EmptyLsAckList;;
  modify (set_oi_crypt_seqnum 0);;
  call_out EmptyLsUpdQueue;;
  o ← st_get;
  ospf_nbr_delete (oi_nbr_self o);;
  o ← st_get;
  match oi_area o with
  | None => st_fail NullDeref
  | Some a =>
      p ← nbr_alloc (new_self o a);
      modify (set_oi_nbr_self p);;
      ospf_nbr_add_self;;
      modify (set_oi_network_lsa_self false);;
      call_out NetworkLsaTimerOff
  end.

Definition ospf_ism_event (e : ism_event) : M unit :=
  ism_event_with ospf_nbr_nbma_if_update ospf_if_cleanup e.

(** ** Hello packets *)

(** A hello packet: the source of the IP header, the router id and the sequence
    number of a cryptographic authentication from the OSPF header, and its fields. *)
Record ospf_hello_packet := Hello {
  h_src : Z;
  h_router_id : Z;
  h_crypt : option Z;
  h_network_mask : list Z;
  h_hello_interval : Z;
  h_options : Z;
  h_priority : Z;
  h_dead_interval : Z;
  h_d_router : Z;
  h_bd_router : Z;
  h_neighbors : list Z;
}.

(** The checks of ospf_hello; [false] when the packet is dropped. *)
Definition hello_accepted (h : ospf_hello_packet) : M bool :=
  o ← st_get;
  if h_router_id h =? oi_router_id o then mret false
  else if passive_interface (oi_params o) then mret false
  else
    len ← st_lift (ip_masklen (h_network_mask h));
    if negb (bool_decide (oi_type o = IFTYPE_POINTOPOINT)) &&
       negb (bool_decide (oi_type o = IFTYPE_VIRTUALLINK)) && negb (oi_prefixlen o =? len)
    then mret false
    else if negb (v_hello (oi_params o) =? h_hello_interval h) then mret false
    else if negb (v_wait (oi_params o) =? h_dead_interval h) then mret false
    else if negb (Z.land (h_options h) OSPF_OPTION_T =? 0) then mret false
    else
      self ← self_read;
      mret (Z.land (nb_options self) OSPF_OPTION_E =? Z.land (h_options h) OSPF_OPTION_E).

(** The static neighbors that name the source of the packet. *)
Fixpoint hello_nbma (p : nat) (src : Z) (ms : list nat) : M unit :=
  match ms with
  | [] => mret tt
  | m :: ms =>
      o ← st_get;
      match oi_nbmas o !! m with
      | None => st_fail UseAfterFree
      | Some x =>
          when (nm_addr x =? src)
            (modify (λ o, set_oi_nbmas (alter (λ x, set_nm_t_poll None (set_nm_nbr (Some p) x)) m (oi_nbmas o)) o);;
             nbr_upd p (λ n, set_nb_state_change (u32 (nm_state_change x + 1)) (set_nb_nbma (Some m) n)))
      end;;
      hello_nbma p src ms
  end.

(** The neighbor the packet is from, a new one if need be. *)
Definition hello_neighbor (h : ospf_hello_packet) : M nat :=
  o ← st_get;
  match nbrs_lookup (h_src h) (oi_nbrs o) with
  | Some p =>
      n ← nbr_read p;
      when (bool_decide (oi_type o = IFTYPE_NBMA) && bool_decide (nb_state n = NSM_Attempt))
        (nbr_upd p (λ n, set_nb_src (h_src h) (set_nb_address (h_src h) n)));;
      mret p
  | None =>
      p ← nbr_alloc (set_nb_src (h_src h) (set_nb_address (h_src h) (ospf_nbr_new o)));
      modify (λ o, set_oi_nbrs (nbrs_insert (h_src h) p (oi_nbrs o)) o);;
      when (bool_decide (oi_type o = IFTYPE_NBMA)) (hello_nbma p (h_src h) (oi_nbr_nbma o));;
      match h_crypt h with
      | Some c => nbr_upd p (set_nb_crypt_seqnum c)
      | None => mret tt
      end;;
      mret p
  end.

Definition hello_info (h : ospf_hello_packet) (n : ospf_neighbor) : ospf_neighbor :=
  set_nb_priority (h_priority h) (set_nb_d_router (h_d_router h) (set_nb_bd_router (h_bd_router h) n)).

(** The interface events a hello of a neighbor in two-way communication causes. *)
Definition hello_events (h : ospf_hello_packet) (p : nat) : M unit :=
  o ← st_get;
  n ← nbr_read p;
  let a := nb_address n in
  when ((a =? h_d_router h) && (h_bd_router h =? 0) && bool_decide (oi_state o = ISM_Waiting))
    (schedule (IsmEvent ISM_BackupSeen));;
  when (bool_decide (oi_state o = ISM_Waiting) && (a =? h_bd_router h)) (schedule (IsmEvent ISM_BackupSeen));;
  when (negb (Bool.eqb (a =? h_d_router h) (a =? nb_d_router n))) (schedule (IsmEvent ISM_NeighborChange));;
  when (negb (Bool.eqb (a =? h_bd_router h) (a =? nb_bd_router n))) (schedule (IsmEvent ISM_NeighborChange));;
  when ((0 <=? nb_priority n) && negb (nb_priority n =? h_priority h)) (schedule (IsmEvent ISM_NeighborChange)).

Definition OSPF_HELLO_REPLY_DELAY : Z := 1.

Definition ospf_hello (h : ospf_hello_packet) : M unit :=
  ok ← hello_accepted h;
  when ok
    (p ← hello_neighbor h;
     nbr_upd p (set_nb_router_id (h_router_id h));;
     n ← nbr_read p;
     let old_state := nb_state n in
     ospf_nsm_event p NSM_HelloReceived;;
     o ← st_get; prio ← PRIORITY; d ← DR; b ← BDR;
     let nbma := bool_decide (oi_type o = IFTYPE_NBMA) in
     when (nbma && (prio =? 0) && (0 <? h_priority h) && negb (d =? h_src h) && negb (b =? h_src h))
       (nbr_upd p (λ n, set_nb_t_hello_reply (timer_on (nb_t_hello_reply n) OSPF_HELLO_REPLY_DELAY) n));;
     if nbma && (bool_decide (old_state = NSM_Down) || bool_decide (old_state = NSM_Attempt)) then
       ospf_nsm_event p NSM_OneWayReceived;; nbr_upd p (hello_info h)
     else if ospf_nbr_bidirectional (oi_router_id o) (h_neighbors h) then
       ospf_nsm_event p NSM_TwoWayReceived;;
       nbr_upd p (λ n, set_nb_options (Z.lor (nb_options n) (h_options h)) n);;
       hello_events h p;;
       nbr_upd p (hello_info h)
     else
       ospf_nsm_event p NSM_OneWayReceived;; nbr_upd p (hello_info h)).
End Nsm.
