(* ===== verification/OspfElection.v ===== *)
(** OSPF: the election of the designated routers (ospfd/ospf_ism.c).

    A small program logic for the state machines, and what ospf_dr_election does:
    the outcome of its rounds, exactly what it changes of the interface, and that it does
    not depose routers that already serve. *)

From S2P Require Import Prelude Prefix Stream OspfLsa OspfIf.

(** * Runs without faults

    [triple P m Q]: from a state with [P] the program [m] returns, without a
    fault, a value and a state with [Q]. *)

Definition triple {A} (P : ospf_interface → Prop) (m : M A) (Q : A → ospf_interface → Prop) : Prop :=
  ∀ o, P o → ∃ a o', m o = Ok (a, o') ∧ Q a o'.

Section Triple.
Context {A B : Type}.
Implicit Types (P : ospf_interface → Prop) (m : M A).

Lemma triple_ret P (a : A) Q : (∀ o, P o → Q a o) → triple P (mret a) Q.
Proof. intros H o HP. exists a, o. split; [done|auto]. Qed.

Lemma triple_bind P m (f : A → M B) Q R :
  triple P m Q → (∀ a, triple (Q a) (f a) R) → triple P (m ≫= f) R.
Proof.
  intros Hm Hf o HP. destruct (Hm o HP) as (a & o1 & Hrun & HQ).
  destruct (Hf a o1 HQ) as (b & o2 & Hrun2 & HR). exists b, o2. split; [|done].
  by rewrite (st_bind_Ok _ _ _ _ _ Hrun).
Qed.

Lemma triple_conseq P P' m Q Q' :
  triple P m Q → (∀ o, P' o → P o) → (∀ a o, Q a o → Q' a o) → triple P' m Q'.
Proof.
  intros H HP HQ o Ho. destruct (H o (HP o Ho)) as (a & o' & ? & ?). exists a, o'. auto.
Qed.
End Triple.

Lemma triple_get P Q : (∀ o, P o → Q o o) → triple P st_get Q.
Proof. intros H o HP. exists o, o. auto. Qed.

Lemma triple_modify P f Q : (∀ o, P o → Q tt (f o)) → triple P (modify f) Q.
Proof. intros H o HP. exists tt, (f o). auto. Qed.

Lemma triple_when P b m Q :
  (b = true → triple P m Q) → (b = false → ∀ o, P o → Q tt o) → triple P (when b m) Q.
Proof. intros Ht Hf. destruct b; [by apply Ht|]. apply triple_ret. auto. Qed.

Lemma triple_read P p Q :
  (∀ o, P o → ∃ n, oi_heap o !! p = Some n ∧ Q n o) → triple P (nbr_read p) Q.
Proof.
  intros H o HP. destruct (H o HP) as (n & Hn & HQ). exists n, o. split; [|done].
  unfold nbr_read. by rewrite Hn.
Qed.

Lemma triple_upd P p f Q :
  (∀ o, P o → ∃ n, oi_heap o !! p = Some n ∧ Q tt (set_oi_heap (<[p := f n]> (oi_heap o)) o)) →
  triple P (nbr_upd p f) Q.
Proof.
  intros H o HP. destruct (H o HP) as (n & Hn & HQ). eexists tt, _. split; [|exact HQ].
  unfold nbr_upd. by rewrite Hn.
Qed.

(** Programs that keep a property of the state. *)
Definition preserves (P : ospf_interface → Prop) (m : M unit) : Prop := triple P m (λ _, P).

Lemma preserves_seq P (m k : M unit) : preserves P m → preserves P k → preserves P (m ;; k).
Proof. intros Hm Hk. eapply triple_bind; [exact Hm|done]. Qed.

Lemma preserves_when P b (m : M unit) : preserves P m → preserves P (when b m).
Proof. intros Hm. apply triple_when; auto. Qed.

Lemma preserves_if P (b : bool) (m k : M unit) :
  preserves P m → preserves P k → preserves P (if b then m else k).
Proof. by destruct b. Qed.

Lemma preserves_ret P : preserves P (mret tt).
Proof. by apply triple_ret. Qed.

(** * Election among candidates *)

Abbreviation heap := (gmap nat ospf_neighbor).
Implicit Types (h : heap) (o : ospf_interface).

(** [n] is preferred to [m]: a higher priority, or the same and a higher id. *)
Definition outranks (n m : ospf_neighbor) : Prop :=
  nb_priority m < nb_priority n ∨ nb_priority m = nb_priority n ∧ nb_router_id m < nb_router_id n.

(** [p] is a router of the list that no other one outranks. *)
Definition best_router h (l : list nat) (p : nat) : Prop :=
  p ∈ l ∧ ∃ n, h !! p = Some n ∧ ∀ q m, q ∈ l → h !! q = Some m → ¬ outranks m n.

Definition best_of h (l : list nat) (r : option nat) : Prop :=
  match r with Some p => best_router h l p | None => l = [] end.

Definition all_in h (l : list nat) : Prop := Forall (λ p, is_Some (h !! p)) l.

Lemma nbr_read_in p o n : oi_heap o !! p = Some n → nbr_read p o = Ok (n, o).
Proof. intros H. unfold nbr_read. by rewrite H. Qed.

Lemma best_router_keep h l p q m n :
  best_router h l p → h !! p = Some n → h !! q = Some m → ¬ outranks m n → best_router h (l ++ [q]) p.
Proof.
  intros (Hin & n' & Hn' & Hb) Hn Hm Ho. assert (n' = n) as -> by congruence. split; [apply elem_of_app; by left|].
  exists n. split; [done|]. intros r x [Hr| ->%list_elem_of_singleton]%elem_of_app Hx; [by eapply Hb|].
  by simplify_eq.
Qed.

Lemma best_router_replace h l p q m n :
  best_router h l p → h !! p = Some n → h !! q = Some m → outranks m n → best_router h (l ++ [q]) q.
Proof.
  intros (Hin & n' & Hn' & Hb) Hn Hm Ho. assert (n' = n) as -> by congruence. split; [apply elem_of_app; right; by left|].
  exists m. split; [done|]. intros r x [Hr| ->%list_elem_of_singleton]%elem_of_app Hx.
  - specialize (Hb r x Hr Hx). unfold outranks in *. lia.
  - simplify_eq. unfold outranks. lia.
Qed.

Lemma election_sub_loop_spec o rs : ∀ l max,
  all_in (oi_heap o) rs → best_of (oi_heap o) l max →
  ∃ r, election_sub_loop rs max o = Ok (r, o) ∧ best_of (oi_heap o) (l ++ rs) r.
Proof.
  induction rs as [|p rs IH]; intros l max Hin Hbest; cbn [election_sub_loop].
  { rewrite app_nil_r. by exists max. }
  apply Forall_cons in Hin as [[n Hn] Hin].
  rewrite (st_bind_Ok _ _ _ _ _ (nbr_read_in _ _ _ Hn)).
  rewrite (assoc_L (++) l [p] rs : l ++ p :: rs = (l ++ [p]) ++ rs).
  destruct max as [m|]; cbn in Hbest.
  - pose proof Hbest as (_ & mx & Hmx & _). rewrite (st_bind_Ok _ _ _ _ _ (nbr_read_in _ _ _ Hmx)).
    destruct (Z.ltb_spec (nb_priority mx) (nb_priority n)).
    { apply IH; [done|]. eapply best_router_replace; try done. by left. }
    destruct (Z.eqb_spec (nb_priority mx) (nb_priority n)), (Z.ltb_spec (nb_router_id mx) (nb_router_id n));
      cbn [andb]; apply IH; try done.
    { eapply best_router_replace; try done. by right. }
    all: eapply best_router_keep; try done; unfold outranks; lia.
  - subst l. apply IH; [done|]. split; [by left|]. exists n. split; [done|].
    intros q m ->%list_elem_of_singleton Hm. simplify_eq. unfold outranks. lia.
Qed.

Lemma ospf_dr_election_sub_spec o rs :
  all_in (oi_heap o) rs → ∃ r, ospf_dr_election_sub rs o = Ok (r, o) ∧ best_of (oi_heap o) rs r.
Proof. intros H. apply (election_sub_loop_spec o rs [] None); done. Qed.

(** * Election of DR and Backup *)

(** Routers that declare themselves DR or Backup, and their addresses. *)
Definition declares_dr h (p : nat) : Prop := ∃ n, h !! p = Some n ∧ nb_d_router n = nb_address n.
Definition declares_bdr h (p : nat) : Prop := ∃ n, h !! p = Some n ∧ nb_bd_router n = nb_address n.
Definition has_address h (a : Z) (p : nat) : Prop := ∃ n, h !! p = Some n ∧ nb_address n = a.

#[local] Instance declares_dr_dec h p : Decision (declares_dr h p).
Proof.
  unfold declares_dr. destruct (h !! p) as [n|]; [|right; by intros (? & ? & ?)].
  destruct (decide (nb_d_router n = nb_address n)); [left; by exists n|]. right. by intros (m & [= <-] & ?).
Defined.
#[local] Instance declares_bdr_dec h p : Decision (declares_bdr h p).
Proof.
  unfold declares_bdr. destruct (h !! p) as [n|]; [|right; by intros (? & ? & ?)].
  destruct (decide (nb_bd_router n = nb_address n)); [left; by exists n|]. right. by intros (m & [= <-] & ?).
Defined.

Definition dr_routers h (el : list nat) : list nat := filter (declares_dr h) el.
Definition other_routers h (el : list nat) : list nat := filter (λ p, ¬ declares_dr h p) el.
Definition bdr_routers h (el : list nat) : list nat := filter (declares_bdr h) (other_routers h el).

Lemma all_in_filter h (P : nat → Prop) `{∀ p, Decision (P p)} l : all_in h l → all_in h (filter P l).
Proof.
  intros Hl. apply Forall_forall. intros p [_ Hp]%list_elem_of_filter. by eapply Forall_forall in Hl.
Qed.

(** The Backup ospf_elect_bdr chooses: the best of those that declare themselves
    Backup, or of those that do not declare themselves DR. *)
Definition bdr_choice h (el : list nat) (r : option nat) : Prop :=
  best_of h (match bdr_routers h el with [] => other_routers h el | l => l end) r.

(** The DR ospf_elect_dr chooses: the best of those that declare themselves DR, or
    the Backup [b]. *)
Definition dr_choice h (el : list nat) (b : Z) (r : option nat) : Prop :=
  match dr_routers h el with
  | [] => match r with
          | Some p => p ∈ el ∧ has_address h b p
          | None => ∀ p, p ∈ el → ¬ has_address h b p
          end
  | l => best_of h l r
  end.

(** The address of a choice. *)
Definition choice_address h (r : option nat) (a : Z) : Prop :=
  match r with Some p => has_address h a p | None => a = 0 end.

Lemma declares_dr_iff h p n : h !! p = Some n → declares_dr h p ↔ NBR_IS_DR n = true.
Proof. intros H. unfold declares_dr, NBR_IS_DR. rewrite Z.eqb_eq. naive_solver. Qed.
Lemma declares_bdr_iff h p n : h !! p = Some n → declares_bdr h p ↔ NBR_IS_BDR n = true.
Proof. intros H. unfold declares_bdr, NBR_IS_BDR. rewrite Z.eqb_eq. naive_solver. Qed.

Lemma bdr_lists_spec o el : ∀ bl nl,
  all_in (oi_heap o) el →
  bdr_lists el bl nl o =
    Ok ((bl ++ bdr_routers (oi_heap o) el, nl ++ other_routers (oi_heap o) el), o).
Proof.
  induction el as [|p el IH]; intros bl nl Hin; cbn [bdr_lists].
  { unfold bdr_routers, other_routers. cbn. by rewrite !app_nil_r. }
  apply Forall_cons in Hin as [[n Hn] Hin]. rewrite (st_bind_Ok _ _ _ _ _ (nbr_read_in _ _ _ Hn)).
  pose proof (declares_dr_iff _ _ _ Hn) as Hd. pose proof (declares_bdr_iff _ _ _ Hn) as Hb.
  unfold bdr_routers, other_routers. rewrite (filter_cons (λ p, ¬ declares_dr _ p)).
  destruct (NBR_IS_DR n).
  - rewrite decide_False by naive_solver. by apply IH.
  - rewrite decide_True by naive_solver. rewrite (filter_cons (declares_bdr _)).
    destruct (NBR_IS_BDR n).
    + rewrite decide_True by naive_solver. rewrite IH by done. do 3 f_equal; by rewrite <- app_assoc.
    + rewrite decide_False by naive_solver. rewrite IH by done. do 3 f_equal. by rewrite <- app_assoc.
Qed.

Lemma BDR_run o self : oi_heap o !! oi_nbr_self o = Some self → BDR o = Ok (nb_bd_router self, o).
Proof.
  intros H. unfold BDR, self_read. rewrite (st_bind_Ok _ _ _ self o); [done|].
  rewrite (st_bind_Ok _ _ _ o o) by done. by apply nbr_read_in.
Qed.

Lemma DR_run o self : oi_heap o !! oi_nbr_self o = Some self → DR o = Ok (nb_d_router self, o).
Proof.
  intros H. unfold DR, self_read. rewrite (st_bind_Ok _ _ _ self o); [done|].
  rewrite (st_bind_Ok _ _ _ o o) by done. by apply nbr_read_in.
Qed.

(** What the loop of ospf_elect_dr knows of the Backup. *)
Definition backup_seen h (b : Z) (el : list nat) (start r : option nat) : Prop :=
  match r with
  | Some p => start = Some p ∨ p ∈ el ∧ has_address h b p
  | None => start = None ∧ ∀ p, p ∈ el → ¬ has_address h b p
  end.

Lemma dr_lists_spec o self el : ∀ dl b,
  oi_heap o !! oi_nbr_self o = Some self → all_in (oi_heap o) el →
  ∃ r, dr_lists el dl b o = Ok ((dl ++ dr_routers (oi_heap o) el, r), o) ∧
    backup_seen (oi_heap o) (nb_bd_router self) el b r.
Proof.
  intros dl b Hself. revert dl b. induction el as [|p el IH]; intros dl b Hin; cbn [dr_lists].
  { exists b. unfold dr_routers. cbn. rewrite app_nil_r. split; [done|].
    destruct b; [by left|split; [done|]]. by intros q ?%not_elem_of_nil. }
  apply Forall_cons in Hin as [[n Hn] Hin]. rewrite (st_bind_Ok _ _ _ _ _ (nbr_read_in _ _ _ Hn)).
  rewrite (st_bind_Ok _ _ _ _ _ (BDR_run _ _ Hself)).
  destruct (IH (if NBR_IS_DR n then dl ++ [p] else dl)
    (if nb_bd_router self =? nb_address n then Some p else b) Hin) as (r & Hrun & Hr).
  exists r. rewrite Hrun. split.
  - unfold dr_routers. rewrite filter_cons. pose proof (declares_dr_iff _ _ _ Hn) as Hd.
    destruct (NBR_IS_DR n).
    + rewrite decide_True by naive_solver. do 3 f_equal. by rewrite <- app_assoc.
    + by rewrite decide_False by naive_solver.
  - assert (Ha : nb_bd_router self = nb_address n ↔ has_address (oi_heap o) (nb_bd_router self) p).
    { unfold has_address. naive_solver. }
    destruct (Z.eqb_spec (nb_bd_router self) (nb_address n)) as [E|E], r as [q|]; cbn in Hr |- *.
    + destruct Hr as [[= ->]|[? ?]]; [right; split; [by left|naive_solver]|right; split; [by right|done]].
    + naive_solver.
    + destruct Hr as [->|[? ?]]; [by left|right; split; [by right|done]].
    + destruct Hr as [-> Hr]. split; [done|]. intros q [->|Hq]%elem_of_cons; naive_solver.
Qed.

(** ** One round of election *)

(** The interface with the designated routers [d] and [b]. *)
Definition with_dr (d b : Z) (n : ospf_neighbor) : ospf_neighbor :=
  set_nb_d_router d (set_nb_bd_router b n).

Section Round.
Context (o : ospf_interface) (self : ospf_neighbor).
Context (Hself : oi_heap o !! oi_nbr_self o = Some self).

Definition heap_dr (d b : Z) : heap := <[oi_nbr_self o := with_dr d b self]> (oi_heap o).
Definition at_dr (d b : Z) : ospf_interface := set_oi_heap (heap_dr d b) o.

Lemma at_dr_self d b : oi_heap (at_dr d b) !! oi_nbr_self (at_dr d b) = Some (with_dr d b self).
Proof. apply lookup_insert_eq. Qed.

Lemma at_dr_start : at_dr (nb_d_router self) (nb_bd_router self) = o.
Proof.
  unfold at_dr, heap_dr. rewrite insert_id; [by destruct o|]. rewrite Hself. by destruct self.
Qed.

Lemma at_dr_all_in d b l : all_in (oi_heap o) l → all_in (heap_dr d b) l.
Proof.
  intros H. eapply Forall_impl; [exact H|]. intros p Hp. unfold heap_dr.
  destruct (decide (p = oi_nbr_self o)) as [->|]; [by rewrite lookup_insert_eq|by rewrite lookup_insert_ne].
Qed.

(** The routers differ in nothing but what this router declares. *)
Lemma heap_dr_lookup d b p m :
  heap_dr d b !! p = Some m →
  ∃ n, oi_heap o !! p = Some n ∧ nb_address m = nb_address n ∧ nb_priority m = nb_priority n ∧
    nb_router_id m = nb_router_id n ∧ nb_state m = nb_state n.
Proof.
  unfold heap_dr. destruct (decide (p = oi_nbr_self o)) as [->|].
  - rewrite lookup_insert_eq. intros [= <-]. by exists self.
  - rewrite lookup_insert_ne by done. intros Hm. by exists m.
Qed.

Lemma has_address_dr d b a p : has_address (heap_dr d b) a p ↔ has_address (oi_heap o) a p.
Proof.
  unfold has_address. split.
  - intros (m & Hm & <-). destruct (heap_dr_lookup _ _ _ _ Hm) as (n & ? & ? & _). exists n. by split.
  - intros (n & Hn & <-). unfold heap_dr. destruct (decide (p = oi_nbr_self o)) as [->|].
    + rewrite lookup_insert_eq. eexists. split; [done|]. cbn. congruence.
    + rewrite lookup_insert_ne by done. by exists n.
Qed.

Lemma self_upd_run d b f d' b' :
  f (with_dr d b self) = with_dr d' b' self → self_upd f (at_dr d b) = Ok (tt, at_dr d' b').
Proof.
  intros Hf. unfold self_upd. rewrite (st_bind_Ok _ _ _ (at_dr d b) (at_dr d b)) by done.
  unfold nbr_upd. rewrite at_dr_self, Hf. unfold at_dr, heap_dr. cbn. by rewrite insert_insert_eq.
Qed.

Lemma address_of_run (o' : ospf_interface) r l :
  best_of (oi_heap o') l r ∨ match r with Some p => is_Some (oi_heap o' !! p) | None => True end →
  ∃ a, address_of r o' = Ok (a, o') ∧ choice_address (oi_heap o') r a.
Proof.
  intros H. destruct r as [p|]; [|by exists 0].
  assert (is_Some (oi_heap o' !! p)) as [n Hn] by (destruct H as [(_ & n & ? & _)|?]; eauto).
  exists (nb_address n). cbn. rewrite (st_bind_Ok _ _ _ _ _ (nbr_read_in _ _ _ Hn)). split; [done|]. by exists n.
Qed.

Lemma ospf_elect_bdr_spec d b el :
  all_in (oi_heap o) el →
  ∃ r b', ospf_elect_bdr el (at_dr d b) = Ok (r, at_dr d b') ∧
    bdr_choice (heap_dr d b) el r ∧ choice_address (heap_dr d b) r b'.
Proof.
  intros Hel. assert (Hin : all_in (oi_heap (at_dr d b)) el) by (by apply at_dr_all_in).
  unfold ospf_elect_bdr. rewrite (st_bind_Ok _ _ _ _ _ (bdr_lists_spec (at_dr d b) el [] [] Hin)). cbn [app].
  assert (Hsub : ∃ r, match bdr_routers (heap_dr d b) el with
      | [] => ospf_dr_election_sub (other_routers (heap_dr d b) el)
      | _ :: _ => ospf_dr_election_sub (bdr_routers (heap_dr d b) el) end (at_dr d b) = Ok (r, at_dr d b) ∧
      bdr_choice (heap_dr d b) el r).
  { unfold bdr_choice. destruct (bdr_routers (heap_dr d b) el) as [|p l] eqn:E.
    - apply (ospf_dr_election_sub_spec (at_dr d b)). by apply all_in_filter.
    - rewrite <- E. apply (ospf_dr_election_sub_spec (at_dr d b)). by apply all_in_filter, all_in_filter. }
  destruct Hsub as (r & Hrun & Hr). change (oi_heap (at_dr d b)) with (heap_dr d b).
  rewrite (st_bind_Ok _ _ _ _ _ Hrun).
  destruct (address_of_run (at_dr d b) r _ (or_introl Hr)) as (b' & Ha & Hc).
  exists r, b'. rewrite (st_bind_Ok _ _ _ _ _ Ha). by rewrite (st_bind_Ok _ _ _ tt (at_dr d b')) by by apply self_upd_run.
Qed.

Lemma ospf_elect_dr_spec d b el :
  all_in (oi_heap o) el →
  ∃ r d', ospf_elect_dr el (at_dr d b) = Ok (r, at_dr d' b) ∧
    dr_choice (heap_dr d b) el b r ∧ choice_address (heap_dr d b) r d'.
Proof.
  intros Hel. assert (Hin : all_in (oi_heap (at_dr d b)) el) by (by apply at_dr_all_in).
  unfold ospf_elect_dr.
  destruct (dr_lists_spec (at_dr d b) _ el [] None (at_dr_self d b) Hin) as (bk & Hl & Hbk).
  rewrite (st_bind_Ok _ _ _ _ _ Hl). cbn [app]. change (oi_heap (at_dr d b)) with (heap_dr d b) in *.
  change (nb_bd_router (with_dr d b self)) with b in Hbk.
  assert (Hsub : ∃ r, match dr_routers (heap_dr d b) el with
      | [] => mret bk
      | _ :: _ => ospf_dr_election_sub (dr_routers (heap_dr d b) el) end (at_dr d b) = Ok (r, at_dr d b) ∧
      dr_choice (heap_dr d b) el b r ∧ match r with Some p => is_Some (heap_dr d b !! p) | None => True end).
  { unfold dr_choice. destruct (dr_routers (heap_dr d b) el) as [|p l] eqn:E.
    - exists bk. split; [done|]. destruct bk as [p|]; cbn in Hbk; [|naive_solver].
      destruct Hbk as [?|[? Hp]]; [done|]. split; [done|]. destruct Hp as (n & -> & _). done.
    - rewrite <- E. destruct (ospf_dr_election_sub_spec (at_dr d b) (dr_routers (heap_dr d b) el))
        as (r & Hrun & Hr); [by apply all_in_filter|]. exists r. split; [done|]. split; [done|].
      destruct r as [q|]; [|done]. destruct Hr as (_ & n & Hq & _). by exists n. }
  destruct Hsub as (r & Hrun & Hr & His). rewrite (st_bind_Ok _ _ _ _ _ Hrun).
  destruct (address_of_run (at_dr d b) r [] (or_intror His)) as (d' & Ha & Hc).
  exists r, d'. rewrite (st_bind_Ok _ _ _ _ _ Ha). by rewrite (st_bind_Ok _ _ _ tt (at_dr d' b)) by by apply self_upd_run.
Qed.

(** A round takes the designated routers [d] and [b] to [d'] and [b']. *)
Definition round (el : list nat) (d b d' b' : Z) : Prop :=
  ∃ rb rd, bdr_choice (heap_dr d b) el rb ∧ choice_address (heap_dr d b) rb b' ∧
    dr_choice (heap_dr d b') el b' rd ∧ choice_address (heap_dr d b') rd d'.

Lemma round_run {A} (k : M A) el d b :
  all_in (oi_heap o) el →
  ∃ d' b', (_ ← ospf_elect_bdr el; _ ← ospf_elect_dr el; k) (at_dr d b) = k (at_dr d' b') ∧
    round el d b d' b'.
Proof.
  intros Hel. destruct (ospf_elect_bdr_spec d b el Hel) as (rb & b' & Hb & Hcb & Hab).
  destruct (ospf_elect_dr_spec d b' el Hel) as (rd & d' & Hd & Hcd & Had).
  exists d', b'. rewrite (st_bind_Ok _ _ _ _ _ Hb), (st_bind_Ok _ _ _ _ _ Hd). split; [done|]. by exists rb, rd.
Qed.
End Round.

(** ** The whole election *)

Definition eligible h (p : nat) : Prop :=
  ∃ n, h !! p = Some n ∧ nb_router_id n ≠ 0 ∧ nb_priority n ≠ 0 ∧
    nsm_num NSM_TwoWay ≤ nsm_num (nb_state n).

#[local] Instance eligible_dec h p : Decision (eligible h p).
Proof.
  unfold eligible. destruct (h !! p) as [n|]; [|right; by intros (? & ? & _)].
  destruct (decide (nb_router_id n ≠ 0 ∧ nb_priority n ≠ 0 ∧ nsm_num NSM_TwoWay ≤ nsm_num (nb_state n)));
    [left; by exists n|]. right. intros (m & [= <-] & ?). done.
Defined.

(** The list of eligible routers, in the order of the table. *)
Definition eligible_routers (o : ospf_interface) : list nat := filter (eligible (oi_heap o)) (oi_nbrs o).*2.

Definition ism_of (o : ospf_interface) (d b : Z) : ism :=
  if d =? oi_address o then ISM_DR else if b =? oi_address o then ISM_Backup else ISM_DROther.

Lemma eligible_loop_spec o nbrs : ∀ el,
  all_in (oi_heap o) nbrs.*2 →
  eligible_loop nbrs el o = Ok (el ++ filter (eligible (oi_heap o)) nbrs.*2, o).
Proof.
  induction nbrs as [|[a p] nbrs IH]; intros el Hin; cbn [eligible_loop].
  { cbn. by rewrite app_nil_r. }
  cbn [fmap list_fmap snd] in *. apply Forall_cons in Hin as [[n Hn] Hin].
  rewrite (st_bind_Ok _ _ _ _ _ (nbr_read_in _ _ _ Hn)), IH by done. rewrite filter_cons.
  assert (Hiff : eligible (oi_heap o) p ↔ nb_router_id n ≠ 0 ∧ nb_priority n ≠ 0 ∧
    nsm_num NSM_TwoWay ≤ nsm_num (nb_state n)) by (unfold eligible; naive_solver).
  destruct (Z.eqb_spec (nb_router_id n) 0), (Z.eqb_spec (nb_priority n) 0),
    (Z.leb_spec (nsm_num NSM_TwoWay) (nsm_num (nb_state n))); cbn [negb andb].
  all: try (rewrite decide_False by (rewrite Hiff; lia); done).
  rewrite decide_True by (rewrite Hiff; done). by rewrite <- app_assoc.
Qed.

(** The events ospf_dr_change adds: AdjOK? for the other routers of the table with which
    there is two-way communication. *)
Definition notified h (own : Z) (p : nat) : Prop :=
  ∃ n, h !! p = Some n ∧ nb_router_id n ≠ 0 ∧ nsm_num NSM_TwoWay ≤ nsm_num (nb_state n) ∧ nb_router_id n ≠ own.

#[local] Instance notified_dec h own p : Decision (notified h own p).
Proof.
  unfold notified. destruct (h !! p) as [n|]; [|right; by intros (? & ? & _)].
  destruct (decide (nb_router_id n ≠ 0 ∧ nsm_num NSM_TwoWay ≤ nsm_num (nb_state n) ∧ nb_router_id n ≠ own));
    [left; by exists n|]. right. by intros (m & [= <-] & ?).
Defined.

Definition adjok_events (o : ospf_interface) : list event :=
  (λ p, NsmEvent p NSM_AdjOK) <$> filter (notified (oi_heap o) (oi_router_id o)) (oi_nbrs o).*2.

(** What the events are for. *)
Definition adj_events (o : ospf_interface) (evs : list event) : Prop :=
  ∀ e, e ∈ evs → ∃ p n, e = NsmEvent p NSM_AdjOK ∧ p ∈ (oi_nbrs o).*2 ∧ oi_heap o !! p = Some n ∧
    nb_router_id n ≠ oi_router_id o.

Lemma adjok_adj o : adj_events o (adjok_events o).
Proof.
  intros e (p & -> & [(n & Hn & _ & _ & Hid) Hp]%list_elem_of_filter)%list_elem_of_fmap. by exists p, n.
Qed.

Lemma dr_change_loop_spec id nbrs : ∀ o,
  all_in (oi_heap o) nbrs.*2 →
  dr_change_loop id nbrs o =
    Ok (tt, set_oi_events (oi_events o ++ ((λ p, NsmEvent p NSM_AdjOK) <$> filter (notified (oi_heap o) id) nbrs.*2)) o).
Proof.
  induction nbrs as [|[a p] nbrs IH]; intros o Hin; cbn [dr_change_loop].
  { cbn. rewrite app_nil_r. by destruct o. }
  cbn [fmap list_fmap snd] in *. apply Forall_cons in Hin as [[n Hn] Hin].
  rewrite (st_bind_Ok _ _ _ n o) by (by apply nbr_read_in). rewrite filter_cons.
  assert (Hiff : notified (oi_heap o) id p ↔
    nb_router_id n ≠ 0 ∧ nsm_num NSM_TwoWay ≤ nsm_num (nb_state n) ∧ nb_router_id n ≠ id)
    by (unfold notified; naive_solver).
  destruct (Z.eqb_spec (nb_router_id n) 0), (Z.leb_spec (nsm_num NSM_TwoWay) (nsm_num (nb_state n))),
    (Z.eqb_spec (nb_router_id n) id); cbn [negb andb when].
  all: try (rewrite decide_False by (rewrite Hiff; lia); rewrite (st_bind_Ok _ _ _ tt o) by done; by apply IH).
  rewrite decide_True by (rewrite Hiff; done).
  rewrite (st_bind_Ok _ _ _ tt (set_oi_events (oi_events o ++ [NsmEvent p NSM_AdjOK]) o)) by done.
  rewrite IH by done. cbn. by rewrite <- app_assoc.
Qed.

Lemma ospf_dr_change_spec o :
  all_in (oi_heap o) (oi_nbrs o).*2 →
  ospf_dr_change o = Ok (tt, set_oi_events (oi_events o ++ adjok_events o) o).
Proof. intros Hin. unfold ospf_dr_change. rewrite (st_bind_Ok _ _ _ o o) by done. by apply dr_change_loop_spec. Qed.

(** The calls for the multicast group of the designated routers, on networks that have
    it: a router joins it when it begins to serve and leaves it when it ends to. *)
Definition serves (s : ism) : Prop := s = ISM_DR ∨ s = ISM_Backup.

Definition group_calls (o : ospf_interface) (s : ism) : list call :=
  if decide (oi_type o = IFTYPE_BROADCAST ∨ oi_type o = IFTYPE_POINTOPOINT) then
    if decide (¬ serves (oi_state o) ∧ serves s) then [AddAllDRouters]
    else if decide (serves (oi_state o) ∧ ¬ serves s) then [DropAllDRouters] else []
  else [].

Lemma serves_iff s : is_dr_or_backup s = bool_decide (serves s).
Proof. by destruct s. Qed.

Section Election.
Context (o : ospf_interface) (self : ospf_neighbor).
Context (Hself : oi_heap o !! oi_nbr_self o = Some self).
Context (Hnbrs : all_in (oi_heap o) (oi_nbrs o).*2).

Abbreviation oat := (at_dr o self).

Lemma ospf_ism_state_run d b : ospf_ism_state (oat d b) = Ok (ism_of o d b, oat d b).
Proof.
  unfold ospf_ism_state. rewrite (st_bind_Ok _ _ _ (oat d b) (oat d b)) by done.
  rewrite (st_bind_Ok _ _ _ _ _ (DR_run _ _ (at_dr_self o self d b))).
  by rewrite (st_bind_Ok _ _ _ _ _ (BDR_run _ _ (at_dr_self o self d b))).
Qed.

Lemma eligible_in : all_in (oi_heap o) (eligible_routers o).
Proof. by apply all_in_filter. Qed.

(** A round that leaves the state of this router as it was, or makes a router that did
    not take part DROther, is the last. *)
Definition settles (d b : Z) : Prop :=
  ism_of o d b = oi_state o ∨ ism_of o d b = ISM_DROther ∧ ism_num (oi_state o) < ism_num ISM_DROther.

(** The designated routers an election can end with: those of one round, or, when
    this router's own state changed, those of a second round after it. *)
Definition elected (d b : Z) : Prop :=
  let el := eligible_routers o in
  ∃ d1 b1, round o self el (nb_d_router self) (nb_bd_router self) d1 b1 ∧
    (settles d1 b1 ∧ d = d1 ∧ b = b1 ∨ ¬ settles d1 b1 ∧ round o self el d1 b1 d b).

(** The events when the designated routers were [old_d] and [old_b]. *)
Definition change_events (old_d old_b d b : Z) : list event :=
  if decide (d = old_d ∧ b = old_b) then [] else adjok_events o.

Lemma adjok_events_at d b : adjok_events (oat d b) = adjok_events o.
Proof.
  unfold adjok_events. f_equal. apply list_filter_iff. intros p. unfold notified. cbn. split.
  - intros (m & Hm & H). destruct (heap_dr_lookup o self Hself _ _ _ _ Hm) as (n & Hn & _ & _ & Hid & Hst).
    exists n. by rewrite <- Hid, <- Hst.
  - intros (n & Hn & H). unfold heap_dr. destruct (decide (p = oi_nbr_self o)) as [->|].
    + rewrite lookup_insert_eq. eexists. split; [done|]. cbn. assert (n = self) as -> by congruence. done.
    + rewrite lookup_insert_ne by done. by exists n.
Qed.

(** The interface after an election that ended with [d] and [b]. *)
Definition after_election (d b : Z) : ospf_interface :=
  set_oi_calls (oi_calls o ++ group_calls o (ism_of o d b))
    (set_oi_events (oi_events o ++ change_events (nb_d_router self) (nb_bd_router self) d b) (oat d b)).

(** What follows the rounds: AdjOK? events when the designated routers changed, and
    the multicast group of the designated routers. *)
Lemma election_end d b :
  (d' ← DR; b' ← BDR;
   when (negb (nb_d_router self =? d') || negb (nb_bd_router self =? b')) ospf_dr_change;;
   when (bool_decide (oi_type o = IFTYPE_BROADCAST) || bool_decide (oi_type o = IFTYPE_POINTOPOINT))
     (if negb (is_dr_or_backup (oi_state o)) && is_dr_or_backup (ism_of o d b) then call_out AddAllDRouters
      else when (is_dr_or_backup (oi_state o) && negb (is_dr_or_backup (ism_of o d b))) (call_out DropAllDRouters));;
   mret (ism_of o d b)) (oat d b) = Ok (ism_of o d b, after_election d b).
Proof.
  rewrite (st_bind_Ok _ _ _ _ _ (DR_run _ _ (at_dr_self o self d b))).
  rewrite (st_bind_Ok _ _ _ _ _ (BDR_run _ _ (at_dr_self o self d b))).
  cbn [nb_d_router nb_bd_router with_dr set_nb_d_router set_nb_bd_router].
  set (o1 := set_oi_events (oi_events o ++ change_events (nb_d_router self) (nb_bd_router self) d b) (oat d b)).
  rewrite (st_bind_Ok _ _ _ tt o1).
  2:{ subst o1. unfold change_events. destruct (Z.eqb_spec (nb_d_router self) d), (Z.eqb_spec (nb_bd_router self) b);
        cbn [negb orb when].
      { rewrite decide_True by done. rewrite app_nil_r. by destruct o. }
      all: rewrite decide_False by naive_solver; rewrite (ospf_dr_change_spec (oat d b)) by (by apply at_dr_all_in);
        by rewrite adjok_events_at. }
  unfold after_election. fold o1. unfold group_calls. rewrite !serves_iff, <- bool_decide_or.
  set (new := ism_of o d b).
  erewrite st_bind_Ok; [done|].
  destruct (decide (oi_type o = IFTYPE_BROADCAST ∨ oi_type o = IFTYPE_POINTOPOINT));
    [rewrite bool_decide_eq_true_2 by done|rewrite bool_decide_eq_false_2 by done].
  - destruct (decide (serves (oi_state o))), (decide (serves new));
      repeat first [rewrite bool_decide_eq_true_2 by done|rewrite bool_decide_eq_false_2 by done
                   |rewrite decide_True by done|rewrite decide_False by naive_solver];
      cbn [negb andb when]; rewrite ?app_nil_r; by destruct o.
  - cbn [when]. rewrite app_nil_r. by destruct o.
Qed.

Lemma ospf_dr_election_run :
  ∃ d b, ospf_dr_election o = Ok (ism_of o d b, after_election d b) ∧ elected d b.
Proof.
  set (d0 := nb_d_router self). set (b0 := nb_bd_router self).
  assert (Hstart : oat d0 b0 = o) by (by apply at_dr_start).
  unfold ospf_dr_election.
  rewrite (st_bind_Ok _ _ _ _ _ (DR_run _ _ Hself)), (st_bind_Ok _ _ _ _ _ (BDR_run _ _ Hself)).
  rewrite (st_bind_Ok _ _ _ o o) by done.
  rewrite (st_bind_Ok ospf_dr_eligible_routers _ _ (eligible_routers o) o).
  2:{ unfold ospf_dr_eligible_routers. rewrite (st_bind_Ok _ _ _ o o) by done. by apply eligible_loop_spec. }
  match goal with |- context [(ospf_elect_bdr ?el ≫= λ _, ospf_elect_dr _ ≫= λ _, ?k) o] =>
    destruct (round_run o self k el d0 b0 eligible_in) as (d1 & b1 & Hr & Hround) end.
  rewrite Hstart in Hr. rewrite Hr. clear Hr.
  rewrite (st_bind_Ok _ _ _ _ _ (ospf_ism_state_run d1 b1)).
  match goal with |- context [if ?c then _ else mret _] => destruct c eqn:E end.
  - destruct (round_run o self ospf_ism_state _ d1 b1 eligible_in) as (d2 & b2 & Hr & Hround2).
    rewrite ospf_ism_state_run in Hr. rewrite (st_bind_Ok _ _ _ _ _ Hr).
    exists d2, b2. split; [apply election_end|]. exists d1, b1. split; [done|]. right. split; [|done].
    apply andb_true_iff in E as [E1 E2]. apply negb_true_iff, bool_decide_eq_false in E1.
    apply negb_true_iff, andb_false_iff in E2. intros [?|[Ho Hlt]]; [done|].
    destruct E2 as [E2|E2]; [by apply bool_decide_eq_false in E2|]. apply Z.ltb_ge in E2. lia.
  - rewrite (st_bind_Ok _ _ _ (ism_of o d1 b1) (oat d1 b1)) by done.
    exists d1, b1. split; [apply election_end|]. exists d1, b1. split; [done|]. left.
    split; [|done]. apply andb_false_iff in E as [E|E]; apply negb_false_iff in E.
    + left. by apply bool_decide_eq_true in E.
    + right. apply andb_true_iff in E as [E1 E2]. apply bool_decide_eq_true in E1. by apply Z.ltb_lt in E2.
Qed.

Lemma ospf_dr_election_spec :
  ∃ d b evs calls, ospf_dr_election o =
      Ok (ism_of o d b, set_oi_calls calls (set_oi_events (oi_events o ++ evs) (oat d b))) ∧
    elected d b ∧ adj_events (oat d b) evs.
Proof.
  destruct ospf_dr_election_run as (d & b & -> & Hel). exists d, b. eexists _, _. split; [done|]. split; [done|].
  unfold change_events. case_decide; [by intros e ?%not_elem_of_nil|]. rewrite <- (adjok_events_at d b). apply adjok_adj.
Qed.
End Election.

(** ** Who is elected *)

(** [a] is the address of a router of the list. *)
Definition address_in h (el : list nat) (a : Z) : Prop := ∃ p, p ∈ el ∧ has_address h a p.

Lemma best_of_in h l r a : best_of h l r → choice_address h r a → a = 0 ∨ address_in h l a.
Proof. destruct r as [p|]; [|by left]. intros [Hp _] Ha. right. by exists p. Qed.

Lemma address_in_mono h l l' a : (∀ p, p ∈ l → p ∈ l') → address_in h l a → address_in h l' a.
Proof. intros H (p & ? & ?). exists p. auto. Qed.

Section RoundFacts.
Context (o : ospf_interface) (self : ospf_neighbor).
Context (Hself : oi_heap o !! oi_nbr_self o = Some self).
Abbreviation hd := (heap_dr o self).

Lemma address_in_dr d b el a : address_in (hd d b) el a ↔ address_in (oi_heap o) el a.
Proof.
  unfold address_in. split; intros (p & Hp & Ha); exists p; (split; [done|]); by apply (has_address_dr o self Hself d b).
Qed.

(** Whether this router declares itself DR does not depend on the Backup. *)
Lemma declares_dr_b d b b' p : declares_dr (hd d b) p ↔ declares_dr (hd d b') p.
Proof.
  unfold declares_dr, heap_dr. destruct (decide (p = oi_nbr_self o)) as [->|].
  - rewrite !lookup_insert_eq. split; intros (n & [= <-] & ?); by eexists.
  - by rewrite !lookup_insert_ne.
Qed.

Lemma bdr_routers_in h el p : p ∈ bdr_routers h el → p ∈ el.
Proof. by intros [_ [_ ?]%list_elem_of_filter]%list_elem_of_filter. Qed.

Lemma round_elects el d b d' b' :
  round o self el d b d' b' →
  (b' = 0 ∨ address_in (oi_heap o) el b') ∧ (d' = 0 ∨ address_in (oi_heap o) el d') ∧
  (el ≠ [] → address_in (oi_heap o) el d').
Proof.
  intros (rb & rd & Hb & Hba & Hd & Hda).
  assert (Hb' : b' = 0 ∨ address_in (oi_heap o) el b').
  { unfold bdr_choice in Hb. destruct (best_of_in _ _ _ _ Hb Hba) as [?|Ha]; [by left|right].
    apply (address_in_dr d b). eapply address_in_mono; [|exact Ha]. intros p.
    destruct (bdr_routers _ el) eqn:E; [by intros [_ ?]%list_elem_of_filter|].
    rewrite <- E. apply bdr_routers_in. }
  split; [done|]. unfold dr_choice in Hd. destruct (dr_routers (hd d b') el) as [|p l] eqn:E.
  - assert (Hcase : (d' = 0 ∧ rd = None) ∨ address_in (oi_heap o) el d').
    { destruct rd as [p|]; [|by left]. destruct Hd as [Hp _]. right. apply (address_in_dr d b'). by exists p. }
    split; [naive_solver|]. intros Hne. destruct Hcase as [[-> ->]|?]; [exfalso|done].
    assert (Hno : ∀ q, q ∈ el → ¬ declares_dr (hd d b) q).
    { intros q Hq Hdq. assert (Hin : q ∈ dr_routers (hd d b') el).
      { apply list_elem_of_filter. split; [by apply (declares_dr_b d b)|done]. }
      rewrite E in Hin. by apply not_elem_of_nil in Hin. }
    assert (Hex : ∃ p, rb = Some p ∧ p ∈ el).
    { unfold bdr_choice in Hb. destruct rb as [p|].
      - exists p. split; [done|]. destruct Hb as [Hp _].
        destruct (bdr_routers _ el) eqn:E2; [by apply list_elem_of_filter in Hp as [_ ?]|].
        rewrite <- E2 in Hp. by eapply bdr_routers_in.
      - destruct (bdr_routers _ el) eqn:E2; [|done]. destruct el as [|q el]; [done|]. exfalso.
        assert (Hq : q ∈ other_routers (hd d b) (q :: el)).
        { apply list_elem_of_filter. split; [apply Hno|]; by left. }
        unfold best_of in Hb. rewrite Hb in Hq. by apply not_elem_of_nil in Hq. }
    destruct Hex as (p & -> & Hp). apply (Hd p Hp). apply (has_address_dr o self Hself).
    by apply (has_address_dr o self Hself d b).
  - destruct rd as [q|]; [|done]. destruct Hd as [Hq _].
    assert (Hin : address_in (oi_heap o) el d'); [|auto].
    apply (address_in_dr d b'). exists q. split; [|done]. rewrite <- E in Hq. by apply list_elem_of_filter in Hq as [_ ?].
Qed.
End RoundFacts.

(** C26: when the pseudo neighbor and the neighbors of the table are allocated,
    ospf_dr_election runs without a fault and ends with a DR [d] and a Backup [b] that are
    the outcome of one or two rounds ([elected]): in a round the Backup is the best of the
    eligible routers that declare themselves Backup and not DR, or if there are none of
    those that do not declare themselves DR; the DR is the best of those that declare
    themselves DR, or if there are none the Backup.  Best is the highest priority, and of
    equal ones the highest router id.  There is a second round exactly when the first
    changes the state of this router, except to DROther from a state before it.  Only
    addresses of eligible routers are elected, and a DR whenever there is an eligible
    router.  The interface changes in nothing but the DR and Backup of the pseudo neighbor,
    the AdjOK? events for the other two-way neighbors, added exactly when DR or Backup
    changed, and the call to join or leave the group of the designated routers. *)
Theorem ospf_dr_election_elects o self :
  oi_heap o !! oi_nbr_self o = Some self → all_in (oi_heap o) (oi_nbrs o).*2 →
  ∃ d b, ospf_dr_election o =
      Ok (ism_of o d b,
        set_oi_calls (oi_calls o ++ group_calls o (ism_of o d b))
          (set_oi_events (oi_events o ++ change_events o (nb_d_router self) (nb_bd_router self) d b)
            (set_oi_heap (<[oi_nbr_self o := with_dr d b self]> (oi_heap o)) o))) ∧
    elected o self d b ∧
    (b = 0 ∨ address_in (oi_heap o) (eligible_routers o) b) ∧
    (d = 0 ∨ address_in (oi_heap o) (eligible_routers o) d) ∧
    (eligible_routers o ≠ [] → address_in (oi_heap o) (eligible_routers o) d).
Proof.
  intros Hself Hnbrs. destruct (ospf_dr_election_run o self Hself Hnbrs) as (d & b & -> & Hel).
  exists d, b. split; [done|]. split; [done|].
  destruct Hel as (d1 & b1 & Hr1 & [(_ & -> & ->)|[_ Hr2]]); by eapply round_elects.
Qed.

Lemma choice_best h l p r a :
  (∀ q, q ∈ l → q = p) → l ≠ [] → best_of h l r → choice_address h r a → has_address h a p.
Proof.
  intros Hl Hne Hb Ha. destruct r as [q|]; [|by destruct Hne].
  destruct Hb as [Hq _]. by rewrite <- (Hl q Hq).
Qed.

(** [p] serves as DR and [q] as Backup: they, and no other of the routers,
    declare it. *)
Definition serving h (el : list nat) (p q : nat) : Prop :=
  p ∈ el ∧ q ∈ el ∧ p ≠ q ∧
  ∀ r, r ∈ el → (declares_dr h r ↔ r = p) ∧ (r ≠ p → declares_bdr h r ↔ r = q).

Section Sticky.
Context (o : ospf_interface) (self : ospf_neighbor) (el : list nat) (p q : nat).
Context (Hself : oi_heap o !! oi_nbr_self o = Some self).
Context (Hown : ∀ r, r ∈ el → has_address (oi_heap o) (nb_address self) r → r = oi_nbr_self o).
Abbreviation hd := (heap_dr o self).

Lemma sticky_round d b d' b' :
  serving (hd d b) el p q → round o self el d b d' b' →
  has_address (oi_heap o) d' p ∧ has_address (oi_heap o) b' q.
Proof.
  intros (Hp & Hq & Hpq & Hs) (rb & rd & Hb & Hba & Hd & Hda).
  assert (Hbl : ∀ r, r ∈ bdr_routers (hd d b) el ↔ r = q).
  { intros r. unfold bdr_routers, other_routers. rewrite !list_elem_of_filter. split.
    - intros (Hbr & Hdr & Hr). destruct (Hs r Hr) as [Hs1 Hs2]. apply Hs2; [|done]. by rewrite <- Hs1.
    - intros ->. destruct (Hs q Hq) as [Hs1 Hs2]. split; [by apply Hs2|]. split; [|done]. by rewrite Hs1. }
  assert (Hdl : ∀ r, r ∈ dr_routers (hd d b') el ↔ r = p).
  { intros r. unfold dr_routers. rewrite list_elem_of_filter, (declares_dr_b o self d b' b). split.
    - intros [Hdr Hr]. by apply (Hs r Hr).
    - intros ->. split; [by apply (Hs p Hp)|done]. }
  split.
  - apply (has_address_dr o self Hself d b'). unfold dr_choice in Hd.
    destruct (dr_routers (hd d b') el) as [|x l] eqn:E.
    { by assert (p ∈ []) as ?%not_elem_of_nil by by apply Hdl. }
    eapply (choice_best _ (x :: l)); [|done|exact Hd|done]. intros r. apply Hdl.
  - apply (has_address_dr o self Hself d b). unfold bdr_choice in Hb.
    destruct (bdr_routers (hd d b) el) as [|x l] eqn:E.
    { by assert (q ∈ []) as ?%not_elem_of_nil by by apply Hbl. }
    eapply (choice_best _ (x :: l)); [|done|exact Hb|done]. intros r. apply Hbl.
Qed.

Lemma serving_again d b d' b' :
  serving (hd d b) el p q → has_address (oi_heap o) d' p → has_address (oi_heap o) b' q →
  serving (hd d' b') el p q.
Proof.
  intros (Hp & Hq & Hpq & Hs) Hd' Hb'. split; [done|]. split; [done|]. split; [done|]. intros r Hr.
  destruct (decide (r = oi_nbr_self o)) as [->|Hne].
  - assert (Hsd : declares_dr (hd d' b') (oi_nbr_self o) ↔ nb_address self = d').
    { unfold declares_dr, heap_dr. rewrite lookup_insert_eq. split.
      - by intros (n & [= <-] & E).
      - intros E. eexists. split; [done|]. by symmetry. }
    assert (Hsb : declares_bdr (hd d' b') (oi_nbr_self o) ↔ nb_address self = b').
    { unfold declares_bdr, heap_dr. rewrite lookup_insert_eq. split.
      - by intros (n & [= <-] & E).
      - intros E. eexists. split; [done|]. by symmetry. }
    assert (Hsame : ∀ a, has_address (oi_heap o) a (oi_nbr_self o) ↔ nb_address self = a).
    { intros a. unfold has_address. naive_solver. }
    rewrite Hsd, Hsb. split; [|intros _]; split.
    + intros <-. symmetry. by apply Hown.
    + intros E. apply Hsame. by rewrite E.
    + intros <-. symmetry. by apply Hown.
    + intros E. apply Hsame. by rewrite E.
  - destruct (Hs r Hr) as [Hs1 Hs2]. unfold declares_dr, declares_bdr, heap_dr in *.
    rewrite !lookup_insert_ne in Hs1, Hs2 |- * by done. done.
Qed.
End Sticky.

(** The election does not depose serving routers: as long as one eligible router
    declares itself DR and one other Backup, they stay, whatever the priorities of
    the others are. *)
Theorem ospf_dr_election_keeps o self p q :
  oi_heap o !! oi_nbr_self o = Some self → all_in (oi_heap o) (oi_nbrs o).*2 →
  (∀ r, r ∈ eligible_routers o → has_address (oi_heap o) (nb_address self) r → r = oi_nbr_self o) →
  serving (oi_heap o) (eligible_routers o) p q →
  ∃ d b o', ospf_dr_election o = Ok (ism_of o d b, o') ∧
    oi_heap o' = <[oi_nbr_self o := with_dr d b self]> (oi_heap o) ∧
    has_address (oi_heap o) d p ∧ has_address (oi_heap o) b q.
Proof.
  intros Hself Hnbrs Hown Hserve.
  destruct (ospf_dr_election_spec o self Hself Hnbrs) as (d & b & evs & calls & -> & Hel & _).
  exists d, b. eexists. split; [done|]. split; [done|].
  assert (Hs0 : serving (heap_dr o self (nb_d_router self) (nb_bd_router self)) (eligible_routers o) p q).
  { by rewrite <- (f_equal oi_heap (at_dr_start o self Hself)) in Hserve at 1. }
  destruct Hel as (d1 & b1 & Hr1 & Hor).
  destruct (sticky_round o self _ p q Hself _ _ _ _ Hs0 Hr1) as [Hd1 Hb1].
  destruct Hor as [(_ & -> & ->)|[_ Hr2]]; [done|].
  eapply (sticky_round o self _ p q Hself d1 b1); [|done]. by eapply serving_again.
Qed.

(** A router with priority 0 never becomes designated router or Backup by an
    election. *)
Theorem ineligible_never_designated o self :
  oi_heap o !! oi_nbr_self o = Some self → all_in (oi_heap o) (oi_nbrs o).*2 →
  nb_priority self = 0 → oi_address o ≠ 0 →
  (∀ r, r ∈ (oi_nbrs o).*2 → has_address (oi_heap o) (oi_address o) r → r = oi_nbr_self o) →
  ∃ o', ospf_dr_election o = Ok (ISM_DROther, o').
Proof.
  intros Hself Hnbrs Hprio Hnz Hown.
  destruct (ospf_dr_election_spec o self Hself Hnbrs) as (d & b & evs & calls & -> & Hel & _).
  assert (Hout : (b = 0 ∨ address_in (oi_heap o) (eligible_routers o) b) ∧
    (d = 0 ∨ address_in (oi_heap o) (eligible_routers o) d)).
  { destruct Hel as (d1 & b1 & Hr1 & [(_ & -> & ->)|[_ Hr2]]);
      [destruct (round_elects o self Hself _ _ _ _ _ Hr1) as (? & ? & _)
      |destruct (round_elects o self Hself _ _ _ _ _ Hr2) as (? & ? & _)]; done. }
  assert (Hno : ∀ a, a = 0 ∨ address_in (oi_heap o) (eligible_routers o) a → a ≠ oi_address o).
  { intros a [->|(r & [Her Hr]%list_elem_of_filter & Ha)] E; [done|]. subst a.
    rewrite (Hown r Hr Ha) in Her. destruct Her as (n & Hn & _ & Hne & _). congruence. }
  eexists. unfold ism_of. destruct Hout as [Hb Hd].
  by rewrite (proj2 (Z.eqb_neq _ _) (Hno d Hd)), (proj2 (Z.eqb_neq _ _) (Hno b Hb)).
Qed.

(** ** Examples *)

(** A broadcast network: this router is 10.0.0.100, its priority is [prio]. *)
Definition ex_params (prio : Z) : if_params := IfParams 10 40 5 prio false.
Definition ex_area : ospf_area := Area 0 0 OSPF_AREA_DEFAULT (λ _, []).
Definition ex_now : timeval := Timeval 1000 0.

Definition ex_down (prio : Z) : ospf_interface :=
  let o := Oi IFTYPE_BROADCAST ISM_Down 100 24 (ex_params prio) 1 7 [] ∅ 0 0 [] [] false None None None
             0 0 0 (Some ex_area) None [] [] [] in
  set_oi_nbrs [(100, 0%nat)] (set_oi_heap {[0%nat := new_self o ex_area]} (set_oi_fresh 1 o)).

(** A hello from 10.0.0.50 that lists this router. *)
Definition ex_hello (prio d b : Z) : ospf_hello_packet :=
  Hello 50 9 None [255; 255; 255; 0] 10 OSPF_OPTION_E prio 40 d b [7].

Definition after {A} (m : M A) (o : ospf_interface) : ospf_interface :=
  match m o with Ok (_, o') => o' | Fail _ => o end.

(** The interface alone on its network as DR, and with 10.0.0.50 as its Backup. *)
Definition ex_alone : ospf_interface := Eval vm_compute in
  after (ospf_ism_event ex_now ISM_InterfaceUp;; ospf_ism_event ex_now ISM_WaitTimer) (ex_down 1).
Definition ex_pair : ospf_interface := Eval vm_compute in
  after (ospf_hello ex_now (ex_hello 200 100 0);; ospf_hello ex_now (ex_hello 200 100 50)) ex_alone.

(** The designated routers of an interface. *)
Definition designated (o : ospf_interface) : option (Z * Z) :=
  (λ n, (nb_d_router n, nb_bd_router n)) <$> oi_heap o !! oi_nbr_self o.

(** A new neighbor takes part in the election before its hello is taken in: its
    priority is still -1, so that one with priority 0, whose first hello already
    lists this router, is elected Backup; its priority is stored afterwards and
    no further election is scheduled. *)
Theorem hello_elects_ineligible :
  let o := after (ospf_hello ex_now (ex_hello 0 100 0)) ex_alone in
  designated ex_alone = Some (100, 0) ∧ designated o = Some (100, 50) ∧
  nbrs_lookup 50 (oi_nbrs o) = Some 1%nat ∧ nb_priority <$> oi_heap o !! 1%nat = Some 0 ∧
  IsmEvent ISM_NeighborChange ∉ oi_events o.
Proof.
  split; [by vm_compute|]. split; [by vm_compute|]. split; [by vm_compute|]. split; [by vm_compute|].
  vm_compute. intros H. by apply list_elem_of_singleton in H.
Qed.

Lemma ex_pair_in : all_in (oi_heap ex_pair) (oi_nbrs ex_pair).*2.
Proof. apply (bool_decide_eq_true_1 _). by vm_compute. Qed.

Definition ex_pair_self : ospf_neighbor := with_dr 100 50 (new_self (ex_down 1) ex_area).

Lemma ex_pair_self_in : oi_heap ex_pair !! oi_nbr_self ex_pair = Some ex_pair_self.
Proof. by vm_compute. Qed.

Lemma ospf_dr_election_elects_witness :
  ∃ d b, ospf_dr_election ex_pair =
      Ok (ism_of ex_pair d b,
        set_oi_calls (oi_calls ex_pair ++ group_calls ex_pair (ism_of ex_pair d b))
          (set_oi_events (oi_events ex_pair ++ change_events ex_pair 100 50 d b)
            (set_oi_heap (<[oi_nbr_self ex_pair := with_dr d b ex_pair_self]> (oi_heap ex_pair)) ex_pair))) ∧
    elected ex_pair ex_pair_self d b ∧
    (b = 0 ∨ address_in (oi_heap ex_pair) (eligible_routers ex_pair) b) ∧
    (d = 0 ∨ address_in (oi_heap ex_pair) (eligible_routers ex_pair) d) ∧
    (eligible_routers ex_pair ≠ [] → address_in (oi_heap ex_pair) (eligible_routers ex_pair) d).
Proof. exact (ospf_dr_election_elects ex_pair ex_pair_self ex_pair_self_in ex_pair_in). Defined.

Lemma ex_pair_eligible : eligible_routers ex_pair = [1; 0]%nat.
Proof. by vm_compute. Qed.

(** The neighbor has priority 200, this router 1, and serves as DR nevertheless. *)
Lemma ospf_dr_election_keeps_witness :
  ∃ d b o', ospf_dr_election ex_pair = Ok (ism_of ex_pair d b, o') ∧
    oi_heap o' = <[oi_nbr_self ex_pair := with_dr d b ex_pair_self]> (oi_heap ex_pair) ∧
    has_address (oi_heap ex_pair) d 0 ∧ has_address (oi_heap ex_pair) b 1.
Proof.
  apply (ospf_dr_election_keeps ex_pair); [exact ex_pair_self_in|exact ex_pair_in| |].
  - rewrite ex_pair_eligible. intros r [->|[->|?%not_elem_of_nil]%elem_of_cons]%elem_of_cons (n & Hn & Ha); try done.
    vm_compute in Hn. injection Hn as <-. done.
  - rewrite ex_pair_eligible. split; [right; by left|]. split; [by left|]. split; [done|].
    intros r [->|[->|?%not_elem_of_nil]%elem_of_cons]%elem_of_cons; try done.
    + split; [split; [|done]|split; [done|]].
      * intros (n & Hn & E). vm_compute in Hn. injection Hn as <-. done.
      * intros _. eexists. split; [by vm_compute|done].
    + split; [split; [done|]|done]. intros _. eexists. split; [by vm_compute|done].
Defined.

Definition ex_idle : ospf_interface := Eval vm_compute in
  after (ospf_ism_event ex_now ISM_InterfaceUp) (ex_down 0).

Lemma ineligible_never_designated_witness : ∃ o', ospf_dr_election ex_idle = Ok (ISM_DROther, o').
Proof.
  apply (ineligible_never_designated ex_idle (new_self (ex_down 0) ex_area)).
  - by vm_compute.
  - apply (bool_decide_eq_true_1 _). by vm_compute.
  - done.
  - done.
  - by intros r ->%list_elem_of_singleton _.
Defined.
