(* ===== verification/OspfMachine.v ===== *)
(** OSPF: the interface and neighbor state machines never fault.

    [Inv] is the invariant of an interface that is not NBMA: its structures are
    linked properly, the designated routers agree with the state, and the counter of
    full adjacencies is right.  Every event keeps it; no event makes the machines
    touch a neighbor structure that was freed, except the one event that does. *)

From S2P Require Import Prelude Prefix Stream OspfLsa OspfIf OspfElection.

Implicit Types (o : ospf_interface) (n : ospf_neighbor) (h : gmap nat ospf_neighbor).

(** * The number of full adjacencies *)

Definition is_full (n : ospf_neighbor) : bool := bool_decide (nb_state n = NSM_Full).
Definition count_full (h : gmap nat ospf_neighbor) : Z :=
  Z.of_nat (size (filter (λ x, is_full x.2 = true) h)).

Lemma count_full_insert_new h p n :
  h !! p = None → count_full (<[p := n]> h) = count_full h + Z.b2z (is_full n).
Proof.
  intros Hp. unfold count_full. destruct (is_full n) eqn:E.
  - rewrite map_filter_insert_True by done. rewrite map_size_insert_None; [cbn; lia|].
    apply map_lookup_filter_None. by left.
  - rewrite map_filter_insert_False by (cbn; by rewrite E). rewrite delete_id by done. cbn. lia.
Qed.

Lemma count_full_delete h p n :
  h !! p = Some n → count_full (delete p h) = count_full h - Z.b2z (is_full n).
Proof.
  intros Hp. rewrite <- (insert_delete_id h p n Hp) at 2. rewrite count_full_insert_new by apply lookup_delete_eq.
  lia.
Qed.

Lemma count_full_update h p n n' :
  h !! p = Some n → count_full (<[p := n']> h) = count_full h - Z.b2z (is_full n) + Z.b2z (is_full n').
Proof.
  intros Hp. rewrite <- insert_delete_eq, count_full_insert_new by apply lookup_delete_eq.
  by rewrite (count_full_delete h p n Hp).
Qed.

(** * The invariant *)

Definition lsa_ok (l : ospf_lsa) : Prop := (20 ≤ length (l_data l))%nat.

(** A neighbor structure of a network that is not NBMA. *)
Record nbr_ok (n : ospf_neighbor) : Prop := NbrOk {
  no_nbma : nb_nbma n = None;
  no_state : nb_state n ≠ NSM_DependUpon;
  no_rxmt : map_Forall (λ _ l, lsa_ok l) (nb_ls_rxmt n);
}.

(** A neighbor in state ExStart, or whose timer for database descriptions runs, keeps
    the description it was sent last. *)
Definition dd_ok (n : ospf_neighbor) : Prop :=
  nb_state n = NSM_ExStart ∨ nb_t_db_desc n ≠ None → nb_last_send n = true.

(** What does not hold in the middle of a transition: the counter of full adjacencies
    is off by [off_full], and the neighbor [off_dd] has not been sent its description. *)
Record off := Off { off_full : Z; off_dd : option nat }.
Definition by_full (δ : Z) : off := Off δ None.
Coercion by_full : Z >-> off.

(** The pseudo neighbor agrees with the interface. *)
Record self_ok (o : ospf_interface) (n : ospf_neighbor) : Prop := SelfOk {
  so_src : nb_src n = oi_address o;
  so_address : nb_address n = oi_address o;
  so_router_id : nb_router_id n = oi_router_id o;
  so_full : nb_state n ≠ NSM_Full;
  so_dr : oi_state o = ISM_DR → nb_d_router n = oi_address o;
  so_backup : oi_state o = ISM_Backup → nb_bd_router n = oi_address o;
}.

(** The states an interface of a type can be in. *)
Definition state_fits (t : iftype) (s : ism) : Prop :=
  match s with
  | ISM_DependUpon => False
  | ISM_Down | ISM_Loopback => True
  | ISM_PointToPoint => must_be_adjacent t = true
  | ISM_Waiting | ISM_DROther | ISM_Backup | ISM_DR => must_be_adjacent t = false
  end.

(** The invariant, but for [δ]; [nbs], [live] and [self] are the
    table, the live structures and the pseudo neighbor. *)
Record Good (δ : off) (nbs : list (Z * nat)) (live : gset nat) (self : nat) (o : ospf_interface) : Prop := MkGood {
  g_area : ∃ a, oi_area o = Some a ∧ ∀ t, Forall lsa_ok (ar_lsdb a t);
  g_external : Forall lsa_ok (oi_external_lsdb o);
  g_type : oi_type o ≠ IFTYPE_NBMA;
  g_no_nbma : oi_nbr_nbma o = [];
  g_fits : state_fits (oi_type o) (oi_state o);
  g_wait : oi_t_wait o ≠ None → oi_state o = ISM_Waiting;
  g_self : ∃ n, oi_heap o !! self = Some n ∧ self_ok o n;
  g_table : ∀ k p, (k, p) ∈ nbs → ∃ n, oi_heap o !! p = Some n ∧ nb_src n = k;
  g_heap : ∀ p n, oi_heap o !! p = Some n → (nb_src n, p) ∈ nbs ∧ nbr_ok n;
  g_keys : NoDup nbs.*1;
  g_fresh : ∀ p, p ∈ live → (p < oi_fresh o)%nat;
  g_events : ∀ p e, NsmEvent p e ∈ oi_events o → p ∈ live ∧ p ≠ self ∧ e ≠ NSM_NoEvent ∧ e ≠ NSM_LLDown;
  g_ism_events : IsmEvent ISM_NoEvent ∉ oi_events o;
  g_full : oi_full_nbrs o = u32 (count_full (oi_heap o) + off_full δ);
  g_dd : ∀ p n, oi_heap o !! p = Some n → off_dd δ ≠ Some p → dd_ok n;
  g_nbs : oi_nbrs o = nbs;
  g_live : dom (oi_heap o) = live;
  g_self_ptr : oi_nbr_self o = self;
}.

Definition Inv (o : ospf_interface) : Prop :=
  Good 0 (oi_nbrs o) (dom (oi_heap o)) (oi_nbr_self o) o.

(** What [Good] looks at. *)
Definition same_core (o o' : ospf_interface) : Prop :=
  oi_type o' = oi_type o ∧ oi_state o' = oi_state o ∧ oi_address o' = oi_address o ∧
  oi_router_id o' = oi_router_id o ∧ oi_nbrs o' = oi_nbrs o ∧ oi_heap o' = oi_heap o ∧
  oi_fresh o' = oi_fresh o ∧ oi_nbr_self o' = oi_nbr_self o ∧ oi_nbr_nbma o' = oi_nbr_nbma o ∧
  oi_events o' = oi_events o ∧ oi_full_nbrs o' = oi_full_nbrs o ∧
  oi_external_lsdb o' = oi_external_lsdb o ∧ oi_t_wait o' = oi_t_wait o ∧
  (∀ a, oi_area o = Some a → ∃ a', oi_area o' = Some a' ∧ ar_lsdb a' = ar_lsdb a).

Lemma Good_same δ nbs live self o o' :
  same_core o o' → Good δ nbs live self o → Good δ nbs live self o'.
Proof.
  intros (E1 & E2 & E3 & E4 & E5 & E6 & E7 & E8 & E9 & E10 & E11 & E12 & E13 & E14) [].
  split; rewrite ?E1, ?E2, ?E3, ?E4, ?E5, ?E6, ?E7, ?E8, ?E9, ?E10, ?E11, ?E12, ?E13; try done.
  - destruct g_area0 as (a & Ha & Hl). destruct (E14 a Ha) as (a' & ? & Hl'). exists a'. by rewrite Hl'.
  - destruct g_self0 as (n & Hn & []). exists n. split; [done|]. split; rewrite ?E2, ?E3, ?E4; done.
Qed.

(** A program that changes nothing [Good] looks at. *)
Lemma Good_modify δ nbs live self f :
  (∀ o, same_core o (f o)) →
  triple (Good δ nbs live self) (modify f) (λ _, Good δ nbs live self).
Proof. intros Hf. apply triple_modify. intros o. by apply Good_same. Qed.

Ltac same_core_tac :=
  intros; repeat (split; [reflexivity|]); intros ? ?; eexists; (split; [done|reflexivity]).

Lemma Good_call δ nbs live self c :
  triple (Good δ nbs live self) (call_out c) (λ _, Good δ nbs live self).
Proof. apply Good_modify. same_core_tac. Qed.

(** What an update must keep of a structure. *)
Definition keeps (n n' : ospf_neighbor) : Prop :=
  nb_src n' = nb_src n ∧ (nbr_ok n → nbr_ok n') ∧ (dd_ok n → dd_ok n').
Definition keeps_self (n n' : ospf_neighbor) : Prop :=
  nb_address n' = nb_address n ∧ nb_router_id n' = nb_router_id n ∧ nb_d_router n' = nb_d_router n ∧
  nb_bd_router n' = nb_bd_router n ∧ nb_state n' = nb_state n.

Lemma Good_upd (δ δ' : off) nbs live self o p n n' :
  Good δ nbs live self o → oi_heap o !! p = Some n → nb_src n' = nb_src n → (nbr_ok n → nbr_ok n') →
  (p = self → keeps_self n n') → off_full δ' = off_full δ + Z.b2z (is_full n) - Z.b2z (is_full n') →
  (∀ q, off_dd δ' ≠ Some q → q ≠ p → off_dd δ ≠ Some q) → (off_dd δ' ≠ Some p → dd_ok n') →
  Good δ' nbs live self (set_oi_heap (<[p := n']> (oi_heap o)) o).
Proof.
  intros HG Hp Hsrc Hok Hkeep Hδ Hδ' Hdd.
  assert (Hdom : dom (<[p := n']> (oi_heap o)) = live).
  { rewrite dom_insert_L. destruct HG. assert (p ∈ dom (oi_heap o)) by (by apply elem_of_dom_2 in Hp). set_solver. }
  destruct HG. split; try done; cbn [set_oi_heap oi_heap oi_address oi_state oi_router_id oi_full_nbrs].
  - destruct g_self0 as (m & Hm & Hs). destruct (decide (p = self)) as [->|Hne].
    + assert (m = n) as -> by congruence. destruct (Hkeep eq_refl) as (K1 & K2 & K3 & K4 & K5).
      exists n'. rewrite lookup_insert_eq. split; [done|]. destruct Hs.
      split; cbn; rewrite ?K1, ?K2, ?K3, ?K4, ?K5, ?Hsrc; done.
    + exists m. rewrite lookup_insert_ne by done. split; [done|]. destruct Hs. by split.
  - intros k q Hq. destruct (g_table0 k q Hq) as (m & Hm & Hk). destruct (decide (p = q)) as [->|Hne].
    + exists n'. rewrite lookup_insert_eq. split; [done|]. by simplify_eq.
    + exists m. by rewrite lookup_insert_ne.
  - intros q m. destruct (decide (p = q)) as [->|Hne].
    + rewrite lookup_insert_eq. intros [= <-]. destruct (g_heap0 q n Hp) as [? ?]. rewrite Hsrc. auto.
    + rewrite lookup_insert_ne by done. apply g_heap0.
  - rewrite (count_full_update _ _ _ _ Hp), g_full0. f_equal. lia.
  - intros q m. destruct (decide (p = q)) as [->|Hne].
    + rewrite lookup_insert_eq. by intros [= <-].
    + rewrite lookup_insert_ne by done. intros Hm Hq. eapply g_dd0; [exact Hm|]. by apply Hδ'.
Qed.

(** An update that keeps the state of the neighbor. *)
Lemma Good_keep δ nbs live self o p n n' :
  Good δ nbs live self o → oi_heap o !! p = Some n → keeps n n' → (p = self → keeps_self n n') →
  is_full n' = is_full n → Good δ nbs live self (set_oi_heap (<[p := n']> (oi_heap o)) o).
Proof.
  intros HG Hn (Hsrc & Hok & Hdd) Hs Hf. eapply Good_upd; [done..| | |]; [rewrite Hf; lia|done|].
  intros Hx. by apply Hdd, (g_dd _ _ _ _ _ HG p n Hn).
Qed.

Lemma live_lookup δ nbs live self o p :
  Good δ nbs live self o → p ∈ live → ∃ n, oi_heap o !! p = Some n.
Proof. intros [] Hp. rewrite <- g_live0 in Hp. by apply elem_of_dom in Hp as [n ?]; exists n. Qed.

(** An update of a live structure that keeps its state. *)
Lemma Good_nbr_upd δ nbs live self p f :
  p ∈ live → (∀ n, keeps n (f n)) → (p = self → ∀ n, keeps_self n (f n)) →
  (∀ n, nb_state (f n) = nb_state n) →
  triple (Good δ nbs live self) (nbr_upd p f) (λ _, Good δ nbs live self).
Proof.
  intros Hp Hk Hs Hst. apply triple_upd. intros o HG.
  destruct (live_lookup _ _ _ _ _ _ HG Hp) as [n Hn]. exists n. split; [done|].
  eapply Good_keep; [done..| |]; [naive_solver|]. unfold is_full. by rewrite Hst.
Qed.

Lemma Good_nbr_read δ nbs live self p :
  p ∈ live →
  triple (Good δ nbs live self) (nbr_read p) (λ n o, Good δ nbs live self o ∧ oi_heap o !! p = Some n).
Proof.
  intros Hp. apply triple_read. intros o HG. destruct (live_lookup _ _ _ _ _ _ HG Hp) as [n Hn]. by exists n.
Qed.

Lemma Good_get δ nbs live self :
  triple (Good δ nbs live self) st_get (λ x o, x = o ∧ Good δ nbs live self o).
Proof. by apply triple_get. Qed.

(** * The interface machine *)

(** The interface as it will be once its state is [s] and its timers are set. *)
Definition settled (s : ism) (o : ospf_interface) : ospf_interface := set_oi_t_wait None (set_oi_state s o).

Section Ism.
Context (nbs : list (Z * nat)) (live : gset nat) (self : nat).
Abbreviation G := (Good 0 nbs live self).

Lemma settled_modify s f :
  (∀ o, same_core (settled s o) (settled s (f o))) →
  triple (λ o, G (settled s o)) (modify f) (λ _ o, G (settled s o)).
Proof. intros Hf. apply triple_modify. intros o. by apply Good_same. Qed.

Definition in_state (s : ism) (hp : heap) (o : ospf_interface) : Prop :=
  G (settled s o) ∧ oi_state o = s ∧ oi_heap o = hp.

Lemma in_state_modify s hp f :
  (∀ o, same_core (settled s o) (settled s (f o))) → (∀ o, oi_state (f o) = oi_state o) →
  preserves (in_state s hp) (modify f).
Proof.
  intros Hf Hs. apply triple_modify. intros o (HG & Ho & Hh). split; [by eapply Good_same|]. rewrite Hs.
  split; [done|]. destruct (Hf o) as (_ & _ & _ & _ & _ & E & _). cbn in E. congruence.
Qed.

Lemma in_state_call s hp c : preserves (in_state s hp) (call_out c).
Proof. apply in_state_modify; [same_core_tac|done]. Qed.

Lemma Good_area δ o a :
  (∀ t, Forall lsa_ok (ar_lsdb a t)) → Good δ nbs live self o → Good δ nbs live self (set_oi_area (Some a) o).
Proof. intros Ha []. split; try done; [by exists a|]. destruct g_self0 as (n & ? & []). exists n. by repeat split. Qed.

Lemma in_state_area s hp a :
  (∀ t, Forall lsa_ok (ar_lsdb a t)) → preserves (in_state s hp) (modify (set_oi_area (Some a))).
Proof. intros Ha. apply triple_modify. intros o [HG Ho]. split; [|done]. by apply (Good_area 0 (settled s o)). Qed.

Ltac in_state_step :=
  first [apply preserves_seq | apply preserves_when | apply preserves_if | apply in_state_call
        | apply preserves_ret | apply in_state_area; done | apply in_state_modify; [same_core_tac|done]].

Lemma settled_change s o :
  G (settled s o) → ∃ o', ism_change_state s o = Ok (tt, o') ∧ in_state s (oi_heap o) o'.
Proof.
  intros HG. unfold ism_change_state. rewrite (st_bind_Ok _ _ _ o o) by done.
  rewrite (st_bind_Ok _ _ _ tt (set_oi_state_change (u32 (oi_state_change o + 1)) (set_oi_state s o))) by done.
  destruct (g_area _ _ _ _ _ HG) as (a & Ha & Hl). cbn in Ha. rewrite Ha.
  match goal with |- ∃ _, ?m ?o1 = _ ∧ _ => assert (Hm : preserves (in_state s (oi_heap o)) m) end.
  { repeat in_state_step. }
  match goal with |- ∃ _, _ ?o1 = _ ∧ _ => destruct (Hm o1) as ([] & o' & Hrun & Ho') end; [|by exists o'].
  split; [|done]. eapply Good_same; [|exact HG]. same_core_tac.
Qed.

(** Setting the timers ends a transition. *)
Lemma in_state_timers s hp o :
  in_state s hp o → ∃ o', ism_timer_set o = Ok (tt, o') ∧ G o' ∧ oi_heap o' = hp.
Proof.
  intros (HG & Hs & Hh). eexists. split; [done|]. split; [|by destruct (oi_state o)]. destruct HG. cbn in *.
  destruct s; cbn in g_fits0; try done; rewrite Hs; split; cbn; try done; try (by rewrite Hs);
    (destruct g_self0 as (n & Hn & []); exists n; split; [done|]; split; cbn in *; rewrite ?Hs; done).
Qed.

Lemma settle s o :
  G o → state_fits (oi_type o) s → (s = ISM_DR ∨ s = ISM_Backup → s = oi_state o) → G (settled s o).
Proof.
  intros [] Hfit Hs. split; cbn; try done.
  destruct g_self0 as (n & Hn & []). exists n. split; [done|]. split; cbn; try done.
  - intros ->. apply so_dr0. symmetry. apply Hs. by left.
  - intros ->. apply so_backup0. symmetry. apply Hs. by right.
Qed.

Lemma table_in o : G o → all_in (oi_heap o) (oi_nbrs o).*2.
Proof.
  intros []. rewrite g_nbs0. apply Forall_forall. intros p ([k q] & -> & Hq)%list_elem_of_fmap.
  destruct (g_table0 _ _ Hq) as (n & Hn & _). by exists n.
Qed.

Lemma election_good o :
  G o → must_be_adjacent (oi_type o) = false →
  ∃ s o', ospf_dr_election o = Ok (s, o') ∧ s ≠ ISM_DependUpon ∧ G (settled s o') ∧
    ∀ q, q ≠ self → oi_heap o' !! q = oi_heap o !! q.
Proof.
  intros HG Hadj. destruct (g_self _ _ _ _ _ HG) as (n & Hn & Hso). pose proof (g_self_ptr _ _ _ _ _ HG) as Hptr.
  assert (Hn' : oi_heap o !! oi_nbr_self o = Some n) by (by rewrite Hptr).
  destruct (ospf_dr_election_spec o n Hn' (table_in o HG)) as (d & b & evs & calls & -> & _ & Hevs).
  exists (ism_of o d b). eexists. split; [done|].
  assert (Hcase : (ism_of o d b = ISM_DR ∧ d = oi_address o) ∨ (ism_of o d b = ISM_Backup ∧ b = oi_address o) ∨
    ism_of o d b = ISM_DROther).
  { unfold ism_of. destruct (Z.eqb_spec d (oi_address o)); [by left|].
    destruct (Z.eqb_spec b (oi_address o)); [by right; left|by right; right]. }
  split; [by destruct Hcase as [[-> _]|[[-> _]| ->]]|].
  split; [|intros q Hq; cbn; unfold heap_dr; rewrite Hptr; by rewrite lookup_insert_ne].
  assert (Hup : G (set_oi_heap (<[self := with_dr d b n]> (oi_heap o)) (settled ISM_Down o))).
  { assert (HD : G (settled ISM_Down o)) by (apply settle; [done|done|by intros [|]]).
    destruct HD. destruct g_self0 as (m & Hm & Hs). assert (m = n) as -> by (cbn in Hm; congruence).
    assert (Hdom : dom (<[self := with_dr d b n]> (oi_heap o)) = live).
    { rewrite dom_insert_L. cbn in g_live0. assert (self ∈ dom (oi_heap o)) by (by apply elem_of_dom_2 in Hn). set_solver. }
    split; cbn in *; try done.
    - exists (with_dr d b n). rewrite lookup_insert_eq. split; [done|]. destruct Hs. by split.
    - intros k q Hq. destruct (g_table0 k q Hq) as (m & Hm' & Hk). destruct (decide (self = q)) as [<-|].
      + exists (with_dr d b n). rewrite lookup_insert_eq. split; [done|]. cbn. congruence.
      + exists m. by rewrite lookup_insert_ne.
    - intros q m. destruct (decide (self = q)) as [<-|].
      + rewrite lookup_insert_eq. intros [= <-]. destruct (g_heap0 self n Hn) as [? []]. by repeat split.
      + rewrite lookup_insert_ne by done. apply g_heap0.
    - rewrite (count_full_update _ _ _ _ Hn), g_full0. f_equal. unfold is_full. cbn. lia.
    - intros q m [[<- <-]|[_ Hm']]%lookup_insert_Some Hx; [by apply (g_dd0 self n)|by eapply g_dd0]. }
  destruct Hup. cbn in *. rewrite Hptr in *. split; cbn; rewrite ?Hptr; try done.
  - by destruct Hcase as [[-> _]|[[-> _]| ->]].
  - exists (with_dr d b n). unfold heap_dr. rewrite Hptr, lookup_insert_eq. split; [done|]. destruct Hso.
    split; cbn; try done; intros E; rewrite E in Hcase; naive_solver.
  - intros k q Hq. unfold heap_dr. rewrite Hptr. by apply g_table0.
  - intros q m. unfold heap_dr. rewrite Hptr. by apply g_heap0.
  - intros p e [Hp|Hp]%elem_of_app; [by eapply g_events0|].
    destruct (Hevs _ Hp) as (q & m & [= -> ->] & Hq & Hm & Hid). cbn in Hq, Hm, Hid.
    unfold heap_dr in Hm. rewrite Hptr in Hm. split; [|split; [|done]].
    + rewrite <- g_live0. by eapply elem_of_dom_2.
    + intros ->. rewrite lookup_insert_eq in Hm. injection Hm as <-. apply Hid. cbn. apply Hso.
  - intros [Hp|Hp]%elem_of_app; [done|]. by destruct (Hevs _ Hp) as (q & m & ? & _).
  - unfold heap_dr. by rewrite Hptr.
  - intros q m. unfold heap_dr. rewrite Hptr. by apply g_dd0.
  - unfold heap_dr. by rewrite Hptr.
Qed.

(** The end of ospf_ism_event, when the next state is settled. *)
Lemma ism_finish e next o :
  let ns := if bool_decide (next = ISM_DependUpon) then snd (ISM (oi_state o) e) else next in
  G (settled ns o) →
  ∃ o', (o ← st_get;
         let ns := if bool_decide (next = ISM_DependUpon) then snd (ISM (oi_state o) e) else next in
         when (negb (bool_decide (ns = oi_state o))) (ism_change_state ns);;
         ism_timer_set) o = Ok (tt, o') ∧ G o' ∧ oi_heap o' = oi_heap o.
Proof.
  intros ns HG. rewrite (st_bind_Ok _ _ _ o o) by done. fold ns. cbv zeta.
  destruct (bool_decide (ns = oi_state o)) eqn:E; cbn [negb when].
  - apply bool_decide_eq_true in E. rewrite (st_bind_Ok _ _ _ tt o) by done.
    by apply (in_state_timers ns).
  - destruct (settled_change ns o HG) as (o1 & Hrun & H1). rewrite (st_bind_Ok _ _ _ tt o1) by done.
    by apply (in_state_timers ns).
Qed.

(** An event whose handler is an election. *)
Lemma ism_election_event up down e o :
  G o → must_be_adjacent (oi_type o) = false → ism_run up down (fst (ISM (oi_state o) e)) = ospf_dr_election →
  ∃ o', ism_event_with up down e o = Ok (tt, o') ∧ G o' ∧ ∀ q, q ≠ self → oi_heap o' !! q = oi_heap o !! q.
Proof.
  intros HG Hadj Hh. unfold ism_event_with. rewrite (st_bind_Ok _ _ _ o o) by done. rewrite Hh.
  destruct (election_good o HG Hadj) as (s & o1 & Hrun & Hs & H1 & Hheap). rewrite (st_bind_Ok _ _ _ _ _ Hrun).
  destruct (ism_finish e s o1) as (o2 & Hrun2 & H2 & E); [by rewrite bool_decide_false|].
  exists o2. by rewrite E.
Qed.

(** An event whose handler does nothing. *)
Lemma ism_quiet_event up down e o :
  G o → e ≠ ISM_NoEvent →
  fst (ISM (oi_state o) e) = ism_ignore ∨ fst (ISM (oi_state o) e) = ism_loop_ind →
  ∃ o', ism_event_with up down e o = Ok (tt, o') ∧ G o'.
Proof.
  intros HG He Hh. unfold ism_event_with. rewrite (st_bind_Ok _ _ _ o o) by done.
  rewrite (st_bind_Ok _ _ _ ISM_DependUpon o) by (by destruct Hh as [->| ->]).
  destruct (ism_finish e ISM_DependUpon o) as (o2 & Hrun & H2 & _); [|by exists o2].
  rewrite bool_decide_true by done. pose proof (g_fits _ _ _ _ _ HG) as Hf.
  apply settle; [done| |]; destruct (oi_state o), e; cbn in *; done || naive_solver.
Qed.

Lemma ism_neighbor_event_good o :
  G o → oi_state o = ISM_DROther ∨ oi_state o = ISM_Backup ∨ oi_state o = ISM_DR →
  ∃ o', ism_neighbor_event o = Ok (tt, o') ∧ G o' ∧ ∀ q, q ≠ self → oi_heap o' !! q = oi_heap o !! q.
Proof.
  intros HG Hs. apply ism_election_event; [done| |].
  - pose proof (g_fits _ _ _ _ _ HG) as Hf. by destruct Hs as [E|[E|E]]; rewrite E in Hf.
  - by destruct Hs as [->|[->| ->]].
Qed.
End Ism.

(** * The neighbor machine *)

Lemma u32_add x y : u32 (u32 x + y) = u32 (x + y).
Proof. unfold u32. by rewrite Z.add_mod_idemp_l by lia. Qed.

(** Counting one adjacency more or less. *)
Lemma full_count nbs live self δ x k o a :
  (∀ t, Forall lsa_ok (ar_lsdb a t)) → Good (Off δ x) nbs live self o →
  Good (Off (δ + k) x) nbs live self (set_oi_full_nbrs (u32 (oi_full_nbrs o + k)) (set_oi_area (Some a) o)).
Proof.
  intros Ha []. split; cbn; try done; [by exists a| |].
  - destruct g_self0 as (n & ? & []). exists n. by repeat split.
  - rewrite g_full0, u32_add. f_equal. cbn. lia.
Qed.

(** An update that keeps what the invariant says about a neighbor. *)
Definition simple_update (f : ospf_neighbor → ospf_neighbor) : Prop :=
  ∀ n, nb_src (f n) = nb_src n ∧ nb_nbma (f n) = nb_nbma n ∧ nb_state (f n) = nb_state n ∧
       (nb_ls_rxmt (f n) = nb_ls_rxmt n ∨ nb_ls_rxmt (f n) = ∅) ∧ (dd_ok n → dd_ok (f n)).

Lemma simple_keeps f : simple_update f → ∀ n, keeps n (f n).
Proof.
  intros H n. destruct (H n) as (E1 & E2 & E3 & E4 & E5). split; [done|]. split; [|done]. intros []. split.
  - congruence.
  - congruence.
  - destruct E4 as [->| ->]; [done|apply map_Forall_empty].
Qed.

Ltac simple_tac := intros []; unfold ospf_lsdb_isempty, dd_ok; cbn; repeat case_bool_decide; cbn;
  repeat split; done || (by left) || (by right) || naive_solver.

Section Nsm.
Context (now : timeval) (nbs : list (Z * nat)) (live : gset nat) (self p : nat).
Context (Hlive : p ∈ live) (Hself : p ≠ self).
Abbreviation G := (Good 0 nbs live self).

(** The invariant, with the neighbor in the state [st]. *)
Definition GSd (δ : off) (st : nsm) (o : ospf_interface) : Prop :=
  Good δ nbs live self o ∧ ∃ n, oi_heap o !! p = Some n ∧ nb_state n = st.
Abbreviation GS := (GSd 0).

Lemma GS_modify {δ} st f : (∀ o, same_core o (f o)) → preserves (GSd δ st) (modify f).
Proof.
  intros Hf. apply triple_modify. intros o [HG Hn]. split; [by eapply Good_same|].
  destruct (Hf o) as (_ & _ & _ & _ & _ & -> & _). done.
Qed.

Lemma GS_call {δ} st c : preserves (GSd δ st) (call_out c).
Proof. apply GS_modify. same_core_tac. Qed.

Lemma GS_upd {δ} st f : simple_update f → preserves (GSd δ st) (nbr_upd p f).
Proof.
  intros Hf. apply triple_upd. intros o [HG (n & Hn & Hst)]. exists n. split; [done|].
  destruct (Hf n) as (_ & _ & E & _). split.
  - eapply Good_keep; [done|done|by apply simple_keeps|done|]. unfold is_full. by rewrite E.
  - exists (f n). cbn. rewrite lookup_insert_eq. split; [done|congruence].
Qed.

Lemma GS_get {A δ} st (f : ospf_interface → M A) Q :
  (∀ o, GSd δ st o → triple (λ x, x = o) (f o) Q) → triple (GSd δ st) (o ← st_get; f o) Q.
Proof. intros H o HG. rewrite (st_bind_Ok _ _ _ o o) by done. by apply (H o HG). Qed.

Lemma triple_pre {A} (P : ospf_interface → Prop) (m : M A) Q : triple P m Q → ∀ o, P o → triple (λ x, x = o) m Q.
Proof. intros H o HP x ->. by apply H. Qed.

Ltac GS_step :=
  first [apply preserves_seq | apply preserves_when | apply preserves_if | apply GS_call | apply preserves_ret
        | apply GS_modify; same_core_tac | apply GS_upd; simple_tac].
Ltac as_preserves P := match goal with |- triple _ ?m _ => change (preserves P m) end.

Lemma nsm_change_full_good st w (b : bool) :
  triple (GSd (Off (if b then -1 else 1) w) st) (nsm_change_full p b) (λ _, GSd (Off 0 w) st).
Proof.
  intros o HGS. pose proof HGS as [HG _]. unfold nsm_change_full. rewrite (st_bind_Ok _ _ _ o o) by done.
  destruct (g_area _ _ _ _ _ HG) as (a & Ha & Hl). rewrite Ha.
  match goal with |- ∃ x o', ?m o = _ ∧ _ =>
    cut (triple (GSd (Off (if b then -1 else 1) w) st) m (λ _, GSd (Off 0 w) st)); [intros Hcut; by apply Hcut|clear HG HGS] end.
  eapply (triple_bind _ _ _ (λ _, GSd (Off 0 w) st)).
  - destruct b; eapply (triple_bind _ _ _ (λ _, GSd (Off 0 w) st)).
    + apply triple_modify. intros o1 [H1 Hn]. split; [by apply (full_count _ _ _ (-1) w 1)|done].
    + intros _. as_preserves (GSd (Off 0 w) st). destruct (oi_vl_area o); repeat GS_step.
    + apply triple_modify. intros o1 [H1 Hn]. split; [by apply (full_count _ _ _ 1 w (-1))|done].
    + intros _. as_preserves (GSd (Off 0 w) st). destruct (oi_vl_area o); repeat GS_step.
  - intros _. as_preserves (GSd (Off 0 w) st). apply preserves_seq; [apply GS_call|]. apply preserves_seq.
    + destruct (oi_vl_area o); repeat GS_step.
    + apply GS_get. intros o1 H1. eapply triple_pre; [|exact H1]. as_preserves (GSd (Off 0 w) st). repeat GS_step.
Qed.

(** The neighbor whose description is still to be sent, when it enters the state [st]. *)
Definition unsent (st : nsm) : option nat := if bool_decide (st = NSM_ExStart) then Some p else None.

Lemma exstart_good f :
  simple_update f →
  triple (GSd (Off 0 (Some p)) NSM_ExStart) (nbr_upd p f;; ospf_db_desc_send p) (λ _, GS NSM_ExStart).
Proof.
  intros Hf. unfold ospf_db_desc_send.
  do 2 (eapply (triple_bind _ _ _ (λ _, GSd (Off 0 (Some p)) NSM_ExStart)); [by apply GS_upd || apply GS_call|intros _]).
  apply triple_upd. intros o [HG (n & Hn & Hst)].
  exists n. split; [done|]. split.
  - eapply Good_upd; [done|done|done| |done| | |done].
    + intros []. by split.
    + unfold is_full. cbn. lia.
    + cbn. congruence.
  - eexists. cbn. by rewrite lookup_insert_eq.
Qed.

Lemma nsm_change_state_good st :
  st ≠ NSM_DependUpon → triple G (nsm_change_state now p st) (λ _, GS st).
Proof.
  intros Hst. unfold nsm_change_state.
  eapply triple_bind; [by apply Good_nbr_read|]. intros n. cbv zeta. set (old := nb_state n).
  eapply (triple_bind _ _ _ (λ _, GSd (Off (Z.b2z (bool_decide (old = NSM_Full)) - Z.b2z (bool_decide (st = NSM_Full)))
    (unsent st)) st)).
  { apply triple_upd. intros o [HG Hn]. exists n. split; [done|]. split.
    - eapply Good_upd; [done|done|done| |done| |done|].
      + intros []. by split.
      + unfold is_full. cbn. fold old. lia.
      + unfold unsent. cbn. case_bool_decide; [done|]. intros _ [?|Ht]; [done|].
        apply (g_dd _ _ _ _ _ HG p n Hn); [done|]. by right.
    - eexists. cbn. by rewrite lookup_insert_eq. }
  intros _. eapply (triple_bind _ _ _ (λ _, GSd (Off 0 (unsent st)) st)).
  { destruct (decide (old = NSM_Full)), (decide (st = NSM_Full));
      rewrite ?(bool_decide_true (old = _)), ?(bool_decide_false (old = _)),
        ?(bool_decide_true (st = _)), ?(bool_decide_false (st = _)) by done; cbn [negb andb orb when Z.b2z].
    - by apply triple_ret.
    - apply (nsm_change_full_good st _ false).
    - apply (nsm_change_full_good st _ true).
    - by apply triple_ret. }
  intros _. eapply (triple_bind _ _ _ (λ _, GS st)).
  { unfold unsent. case_bool_decide as E; cbn [when]; [subst st; apply exstart_good; simple_tac|by apply triple_ret]. }
  intros _. as_preserves (GS st). apply preserves_seq; [repeat GS_step|].
  apply GS_get. intros o HGS x ->. pose proof HGS as [HG (m & Hm & Em)].
  assert (Hnb : ∃ o', when (match oi_state o with
      | ISM_DROther | ISM_Backup | ISM_DR =>
          (nsm_num old <? nsm_num NSM_TwoWay) && (nsm_num NSM_TwoWay <=? nsm_num st) ||
          (nsm_num NSM_TwoWay <=? nsm_num old) && (nsm_num st <? nsm_num NSM_TwoWay)
      | _ => false end) ism_neighbor_event o = Ok (tt, o') ∧ GS st o').
  { assert (Hne : oi_state o = ISM_DROther ∨ oi_state o = ISM_Backup ∨ oi_state o = ISM_DR →
      ∃ o', ism_neighbor_event o = Ok (tt, o') ∧ GS st o').
    { intros Hs. destruct (ism_neighbor_event_good nbs live self o HG Hs) as (o1 & Hrun & H1 & Hheap).
      exists o1. split; [done|]. split; [done|]. exists m. by rewrite Hheap. }
    destruct (oi_state o); cbn [when]; try (by exists o);
      destruct (_ || _); cbn [when]; try (by exists o); apply Hne; tauto. }
  destruct Hnb as (o1 & Hrun & H1). rewrite (st_bind_Ok _ _ _ _ _ Hrun).
  apply (preserves_when (GS st) _ (modify (set_oi_t_hello (Some 1)))); [|done]. apply GS_modify. same_core_tac.
Qed.
End Nsm.

(** ** The database summary *)

Lemma key_of_ok l : lsa_ok l → ∃ k, key_of l = Ok k.
Proof.
  unfold lsa_ok, key_of, lsa_type, lsa_id, lsa_adv_router. intros Hl.
  destruct (lookup_lt_is_Some_2 (l_data l) 3) as [t Ht]; [lia|].
  rewrite (proj2 (get_byte_Ok (l_data l) 3 t)) by done.
  destruct (get32_read (l_data l) 4) as [i ->]; [lia..|].
  destruct (get32_read (l_data l) 8) as [r ->]; [lia..|]. by eexists.
Qed.

Lemma more_recent_ok now a l : (∀ x, a = Some x → lsa_ok x) → lsa_ok l → ∃ c, ospf_lsa_more_recent now a (Some l) = Ok c.
Proof.
  intros Ha Hl. destruct a as [x|]; [|by eexists].
  destruct (ranked_exists now x (Ha x eq_refl)) as [r1 H1]. destruct (ranked_exists now l Hl) as [r2 H2].
  eexists. by apply more_recent_ranked.
Qed.

(** Adding LSAs to the lists of a neighbor keeps the rest of it. *)
Definition listed (n n' : ospf_neighbor) : Prop :=
  nb_src n' = nb_src n ∧ nb_state n' = nb_state n ∧ nbr_ok n' ∧ (dd_ok n → dd_ok n').

Lemma summary_add_ok now l n :
  lsa_ok l → nbr_ok n → ∃ n', ospf_db_summary_add now l n = Ok n' ∧ listed n n'.
Proof.
  intros Hl Hn. destruct (key_of_ok l Hl) as [k Hk]. unfold ospf_db_summary_add, IS_LSA_MAXAGE.
  destruct (ranked_exists now l Hl) as [r (_ & _ & Ha & _)]. rewrite Ha. cbn [mbind res_bind].
  destruct (r_age r =? OSPF_LSA_MAXAGE).
  - unfold ospf_ls_retransmit_add, ospf_lsdb_lookup, ospf_lsdb_add. rewrite Hk. cbn [mbind res_bind].
    destruct (more_recent_ok now (nb_ls_rxmt n !! k) l) as [c ->]; [|done|].
    { intros x Hx. by apply (no_rxmt n Hn k). }
    cbn [mbind res_bind]. destruct (c <? 0); eexists; (split; [done|]).
    + destruct Hn. split; [done|]. split; [done|]. split; [|done]. split; cbn; try done. by apply map_Forall_insert_2.
    + by split.
  - unfold ospf_lsdb_add. rewrite Hk. cbn [mbind res_bind]. eexists. split; [done|].
    destruct Hn. split; [done|]. split; [done|]. by split; [split|].
Qed.

Lemma summary_add_all_ok now ls : ∀ n,
  Forall lsa_ok ls → nbr_ok n → ∃ n', summary_add_all now ls n = Ok n' ∧ listed n n'.
Proof.
  induction ls as [|l ls IH]; intros n Hls Hn; cbn [summary_add_all]; [by exists n|].
  apply Forall_cons in Hls as [Hl Hls]. destruct (summary_add_ok now l n Hl Hn) as (n1 & -> & E1 & E2 & Hn1 & Hd1).
  cbn [mbind res_bind]. destruct (IH n1 Hls Hn1) as (n2 & Hrun & E3 & E4 & Hn2 & Hd2).
  exists n2. split; [done|]. split; [congruence|]. split; [congruence|]. auto.
Qed.

(** ** Handlers *)

Section Handlers.
Context (now : timeval) (nbs : list (Z * nat)) (live : gset nat) (self p : nat).
Context (Hlive : p ∈ live) (Hself : p ≠ self).
Abbreviation G := (Good 0 nbs live self).

Lemma self_runs o : G o → ∃ n, oi_heap o !! oi_nbr_self o = Some n.
Proof. intros []. destruct g_self0 as (n & Hn & _). exists n. by rewrite g_self_ptr0. Qed.

Lemma nbr_runs o : G o → ∃ n, oi_heap o !! p = Some n ∧ nbr_ok n.
Proof.
  intros HG. destruct (live_lookup _ _ _ _ _ _ HG Hlive) as [n Hn]. exists n. split; [done|].
  by destruct (g_heap _ _ _ _ _ HG p n Hn) as [_ ?].
Qed.

Lemma twoway_good o :
  G o → ∃ s, twoway_received p o = Ok (s, o) ∧ (s = NSM_TwoWay ∨ s = NSM_ExStart).
Proof.
  intros HG. destruct (self_runs o HG) as [sn Hs]. destruct (nbr_runs o HG) as (n & Hn & _).
  unfold twoway_received. rewrite (st_bind_Ok _ _ _ o o) by done.
  rewrite (st_bind_Ok _ _ _ _ _ (DR_run _ _ Hs)), (st_bind_Ok _ _ _ _ _ (BDR_run _ _ Hs)).
  rewrite (st_bind_Ok _ _ _ _ _ (nbr_read_in _ _ _ Hn)). eexists. split; [done|]. by destruct (_ || _); [right|left].
Qed.

(** Whether the neighbor and this router should be adjacent (RFC 2328, 10.4). *)
Definition adjacency_due (o : ospf_interface) (sn n : ospf_neighbor) : bool :=
  must_be_adjacent (oi_type o) || ((oi_address o =? nb_d_router sn) || (oi_address o =? nb_bd_router sn)) ||
  ((nb_address n =? nb_d_router sn) || (nb_address n =? nb_bd_router sn)).

Lemma adj_ok_run o sn n :
  oi_heap o !! oi_nbr_self o = Some sn → oi_heap o !! p = Some n →
  adj_ok p o = Ok (if bool_decide (nb_state n = NSM_TwoWay) && adjacency_due o sn n then NSM_ExStart
                   else if (nsm_num NSM_ExStart <=? nsm_num (nb_state n)) && negb (adjacency_due o sn n)
                   then NSM_TwoWay else nb_state n, o).
Proof.
  intros Hs Hn. unfold adj_ok. rewrite (st_bind_Ok _ _ _ o o) by done.
  rewrite (st_bind_Ok _ _ _ _ _ (DR_run _ _ Hs)), (st_bind_Ok _ _ _ _ _ (BDR_run _ _ Hs)).
  by rewrite (st_bind_Ok _ _ _ _ _ (nbr_read_in _ _ _ Hn)).
Qed.

Lemma reset_simple : simple_update (λ n,
    let n := if ospf_lsdb_isempty (nb_db_sum n) then n else ospf_db_summary_clear n in
    let n := if ospf_lsdb_isempty (nb_ls_req n) then n else ospf_ls_request_delete_all n in
    let n := if ospf_lsdb_isempty (nb_ls_rxmt n) then n else ospf_ls_retransmit_clear n in
    set_nb_t_db_desc None (set_nb_t_ls_req None (set_nb_t_ls_upd None (set_nb_t_hello_reply None n)))).
Proof. simple_tac. Qed.

End Handlers.

Section Event.
Context (now : timeval) (nbs : list (Z * nat)) (live : gset nat) (self p : nat).
Context (Hlive : p ∈ live) (Hself : p ≠ self).
Abbreviation G := (Good 0 nbs live self).
Abbreviation GS := (GSd nbs live self p 0).

Lemma GS_reset st : preserves (GS st) (nsm_reset_nbr p).
Proof. apply GS_upd; [done|]. apply reset_simple. Qed.

Lemma GS_restart st : preserves (GS st) (restart_inactivity p).
Proof. apply GS_upd; [done|]. simple_tac. Qed.

Lemma GS_negotiation st : preserves (GS st) (negotiation_done now p).
Proof.
  intros o [HG (n & Hn & Hst)]. destruct (g_heap _ _ _ _ _ HG p n Hn) as [_ Hok]. unfold negotiation_done.
  rewrite (st_bind_Ok _ _ _ o o) by done. rewrite (st_bind_Ok _ _ _ _ _ (nbr_read_in _ _ _ Hn)).
  destruct (g_area _ _ _ _ _ HG) as (a & -> & Hl).
  match goal with |- context [summary_add_all now ?ls n] =>
    destruct (summary_add_all_ok now ls n) as (n' & Hrun & E1 & E2 & Hok' & Hdd); [|done|] end.
  { repeat apply Forall_app_2; try apply Hl. destruct (_ && _); [apply HG|by apply Forall_nil_2]. }
  rewrite (st_bind_Ok _ _ _ n' o) by (unfold st_lift; by rewrite Hrun).
  unfold nbr_upd. rewrite Hn. eexists tt, _. split; [done|]. split.
  - eapply Good_keep; [done|done|by split|done|]. unfold is_full. by rewrite E2.
  - exists n'. cbn. rewrite lookup_insert_eq. split; [done|congruence].
Qed.

(** Handlers other than those that remove the neighbor. *)
Definition removes (h : nsm_handler) : bool :=
  match h with nsm_kill_nbr | nsm_inactivity_timer | nsm_ll_down => true | _ => false end.

(** Handlers whose own result is the next state. *)
Definition decides (h : nsm_handler) : bool :=
  match h with nsm_twoway_received | nsm_exchange_done | nsm_adj_ok => true | _ => false end.

Lemma nsm_run_good st (h : nsm_handler) :
  removes h = false →
  triple (GS st) (nsm_run now p h) (λ s o', GS st o' ∧ (if decides h then s ≠ NSM_DependUpon else s = NSM_DependUpon)).
Proof.
  intros Hh. assert (Hret : ∀ m, preserves (GS st) m →
    triple (GS st) (m ;; mret NSM_DependUpon) (λ s o', GS st o' ∧ s = NSM_DependUpon)).
  { intros m Hm. eapply triple_bind; [exact Hm|]. intros []. by apply triple_ret. }
  destruct h; try done; cbn [nsm_run decides].
  - by apply triple_ret.
  - eapply triple_bind; [apply GS_restart|]. intros [] o [HG (n & Hn & Hst)].
    rewrite (st_bind_Ok _ _ _ o o) by done. rewrite (st_bind_Ok _ _ _ _ _ (nbr_read_in _ _ _ Hn)).
    rewrite bool_decide_false by apply HG. cbn [when]. exists NSM_DependUpon, o. split; [done|].
    split; [|done]. split; [done|]. by exists n.
  - eapply triple_bind; [apply GS_reset|]. intros [] o [HG (n & Hn & Hst)].
    rewrite (st_bind_Ok _ _ _ _ _ (nbr_read_in _ _ _ Hn)). unfold poll_timer_off.
    destruct (g_heap _ _ _ _ _ HG p n Hn) as [_ [-> _ _]]. rewrite (st_bind_Ok _ _ _ tt o) by done.
    apply (Hret _ (GS_restart st)). split; [done|]. by exists n.
  - intros o HGS. pose proof HGS as [HG _]. destruct (twoway_good nbs live self p Hlive o HG) as (s & Hrun & Hs).
    exists s, o. split; [done|]. split; [done|]. by destruct Hs as [->| ->].
  - apply Hret, GS_negotiation.
  - intros o HGS. pose proof HGS as [HG (n & Hn & Hst)].
    rewrite (st_bind_Ok _ _ _ _ _ (nbr_read_in _ _ _ Hn)). destruct (ospf_lsdb_isempty (nb_ls_req n)).
    { by exists NSM_Full, o. }
    destruct (GS_call nbs live self p st (LsReqSend p) o HGS) as ([] & o1 & Hrun & H1).
    rewrite (st_bind_Ok _ _ _ _ _ Hrun). by exists NSM_Loading, o1.
  - apply Hret, GS_reset.
  - intros o HGS. pose proof HGS as [HG (n & Hn & Hst)]. destruct (self_runs nbs live self o HG) as [sn Hs].
    rewrite (adj_ok_run p o sn n Hs Hn). eexists _, o. split; [done|]. split; [done|].
    destruct (g_heap _ _ _ _ _ HG p n Hn) as [_ [_ Hd _]].
    destruct (_ && _); [done|]. by destruct (_ && _).
  - apply Hret, GS_reset.
  - apply Hret, GS_reset.
Qed.

Lemma NSM_next st e :
  st ≠ NSM_DependUpon → e ≠ NSM_NoEvent →
  decides (fst (NSM st e)) = true ∨ snd (NSM st e) ≠ NSM_DependUpon.
Proof. by destruct st, e; cbn; auto. Qed.

Lemma nsm_timer_good st : preserves (GS st) (nsm_timer_set p).
Proof.
  unfold nsm_timer_set. apply GS_upd; [done|]. intros n. destruct (nb_state n) eqn:E;
    repeat (split; [done || (by left) || (by rewrite E) || (destruct (negb _); cbn; rewrite ?E; done || by left)|]);
    unfold dd_ok; cbn; rewrite ?E; try destruct (negb _); cbn; intros Hd Ht; apply Hd;
    (by left) || (destruct Ht as [?|Ht]; [congruence|]; done || by right).
Qed.

(** An event that does not remove the neighbor. *)
Lemma ospf_nsm_event_good e :
  e ≠ NSM_NoEvent → (∀ st, removes (fst (NSM st e)) = false) → e ≠ NSM_KillNbr → e ≠ NSM_InactivityTimer →
  preserves G (ospf_nsm_event now p e).
Proof.
  intros He Hr Hk Hi o HG. destruct (nbr_runs nbs live self p Hlive o HG) as (n & Hn & [_ Hst _]).
  unfold ospf_nsm_event. rewrite (st_bind_Ok _ _ _ _ _ (nbr_read_in _ _ _ Hn)).
  destruct (nsm_run_good (nb_state n) (fst (NSM (nb_state n) e)) (Hr _) o) as (s & o1 & Hrun & [HG1 (n1 & Hn1 & E1)] & Hs).
  { split; [done|]. by exists n. }
  rewrite (st_bind_Ok _ _ _ _ _ Hrun). rewrite (bool_decide_false (e = NSM_KillNbr)), (bool_decide_false (e = NSM_InactivityTimer)) by done.
  cbn [orb]. rewrite (st_bind_Ok _ _ _ _ _ (nbr_read_in _ _ _ Hn1)). cbv zeta. rewrite E1.
  set (ns := if bool_decide (s = NSM_DependUpon) then snd (NSM (nb_state n) e) else s).
  assert (Hns : ns ≠ NSM_DependUpon).
  { subst ns. case_bool_decide; [|done]. destruct (NSM_next (nb_state n) e Hst He) as [Hd|?]; [|done].
    by rewrite Hd in Hs. }
  assert (Hchange : ∃ o2 st2, when (negb (bool_decide (ns = nb_state n))) (nsm_change_state now p ns) o1 = Ok (tt, o2) ∧ GS st2 o2).
  { destruct (negb _); cbn [when].
    - destruct (nsm_change_state_good now nbs live self p Hlive Hself ns Hns o1 HG1) as ([] & o2 & Hrun2 & H2).
      by exists o2, ns.
    - exists o1, (nb_state n1). split; [done|]. split; [done|]. by exists n1. }
  destruct Hchange as (o2 & st2 & Hrun2 & H2). rewrite (st_bind_Ok _ _ _ _ _ Hrun2).
  destruct (nsm_timer_good st2 o2 H2) as ([] & o3 & Hrun3 & [H3 _]). by exists tt, o3.
Qed.
End Event.
