(* ===== verification/OspfSafety.v ===== *)
(** OSPF: neighbors that are removed, interfaces that go down, and the safety of the
    two state machines: every sequence of events of an interface that is not NBMA
    runs without a fault and keeps the invariant of the previous file. *)

From S2P Require Import Prelude Prefix Stream OspfLsa OspfIf OspfElection OspfMachine.

Implicit Types (o : ospf_interface) (n : ospf_neighbor) (h : gmap nat ospf_neighbor).

(** * Removing a neighbor *)

Lemma keys_unique (nbs : list (Z * nat)) k p q :
  NoDup nbs.*1 → (k, p) ∈ nbs → (k, q) ∈ nbs → p = q.
Proof.
  induction nbs as [|[a b] nbs IH]; cbn; intros Hnd; [by intros []%not_elem_of_nil|].
  apply NoDup_cons in Hnd as [Ha Hnd]. intros [Hp|Hp]%elem_of_cons [Hq|Hq]%elem_of_cons; [congruence| | |auto].
  - simplify_eq. destruct Ha. apply list_elem_of_fmap. by exists (a, q).
  - simplify_eq. destruct Ha. apply list_elem_of_fmap. by exists (a, p).
Qed.

Abbreviation without k := (filter (λ e : Z * nat, e.1 ≠ k)).

Lemma without_keys (nbs : list (Z * nat)) k : NoDup nbs.*1 → NoDup (without k nbs).*1.
Proof.
  intros H. eapply sublist_NoDup; [exact H|]. induction nbs as [|[a b] nbs IH]; [done|]. rewrite filter_cons.
  cbn in H. apply NoDup_cons in H as [_ H]. case_decide; cbn; [apply sublist_skip|apply sublist_cons]; auto.
Qed.

(** What is left of the interface without the structure [p] of address [k]. *)
Definition removed (p : nat) (k : Z) (o : ospf_interface) : ospf_interface :=
  set_oi_events (filter (λ e, for_nbr p e = false) (oi_events o))
    (set_oi_heap (delete p (oi_heap o)) (set_oi_nbrs (without k (oi_nbrs o)) o)).

Lemma nbr_delete_run p o n :
  oi_heap o !! p = Some n → nb_nbma n = None → ospf_nbr_delete p o = Ok (tt, removed p (nb_src n) o).
Proof.
  intros Hn Hm. unfold ospf_nbr_delete. rewrite (st_bind_Ok _ _ _ _ _ (nbr_read_in _ _ _ Hn)).
  rewrite (st_bind_Ok _ _ _ tt (set_oi_nbrs (without (nb_src n) (oi_nbrs o)) o)) by done.
  unfold ospf_nbr_free. rewrite (st_bind_Ok _ _ _ n (set_oi_nbrs (without (nb_src n) (oi_nbrs o)) o)) by (by apply nbr_read_in).
  by rewrite Hm.
Qed.

Lemma removed_good nbs live self p o n :
  Good 0 nbs live self o → p ≠ self → oi_heap o !! p = Some n → nb_state n ≠ NSM_Full →
  Good 0 (without (nb_src n) nbs) (live ∖ {[p]}) self (removed p (nb_src n) o).
Proof.
  intros [] Hp Hn Hf. split; cbn; try done.
  - destruct g_self as (m & Hm & []). exists m. rewrite lookup_delete_ne by done. split; [done|]. by split.
  - intros k q [Hk Hq]%list_elem_of_filter. destruct (g_table _ _ Hq) as (m & Hm & E). exists m.
    rewrite lookup_delete_ne; [done|]. intros <-. cbn in Hk. congruence.
  - intros q m [Hq Hm]%lookup_delete_Some. destruct (g_heap _ _ Hm) as [Hin Hok]. split; [|done].
    apply list_elem_of_filter. split; [|done]. cbn. intros E. apply Hq.
    destruct (g_heap _ _ Hn) as [Hin' _]. rewrite E in Hin. by eapply keys_unique.
  - by apply without_keys.
  - intros q [Hq _]%elem_of_difference. auto.
  - intros q e [He Hin]%list_elem_of_filter. destruct (g_events _ _ Hin) as (Hq & Hs & He1 & He2). split; [|done].
    apply elem_of_difference. split; [done|]. intros ->%elem_of_singleton. cbn in He.
    by rewrite bool_decide_true in He.
  - by intros [_ Hin]%list_elem_of_filter.
  - rewrite (count_full_delete _ _ _ Hn), g_full. f_equal. unfold is_full. rewrite bool_decide_false by done. cbn. lia.
  - intros q m [_ Hm]%lookup_delete_Some. by apply g_dd.
  - by rewrite g_nbs.
  - rewrite dom_delete_L. by rewrite g_live.
Qed.

Section Kill.
Context (now : timeval) (nbs : list (Z * nat)) (live : gset nat) (self p : nat).
Context (Hlive : p ∈ live) (Hself : p ≠ self).
Abbreviation G := (Good 0 nbs live self).

Lemma kill_nbr_good k o :
  G o → (k, p) ∈ nbs → ∃ o', kill_nbr now p o = Ok (tt, o') ∧ Good 0 (without k nbs) (live ∖ {[p]}) self o'.
Proof.
  intros HG Hk. unfold kill_nbr.
  destruct (nsm_change_state_good now nbs live self p Hlive Hself NSM_Down ltac:(done) o HG) as ([] & o1 & Hrun1 & H1).
  rewrite (st_bind_Ok _ _ _ _ _ Hrun1).
  destruct (GS_reset nbs live self p Hself NSM_Down o1 H1) as ([] & o2 & Hrun2 & H2 & n & Hn & Hst).
  rewrite (st_bind_Ok _ _ _ _ _ Hrun2), (st_bind_Ok _ _ _ o2 o2) by done.
  rewrite (st_bind_Ok _ _ _ _ _ (nbr_read_in _ _ _ Hn)).
  destruct (g_heap _ _ _ _ _ H2 p n Hn) as [Hin [Hm _ _]]. rewrite Hm, (st_bind_Ok _ _ _ tt o2) by done.
  assert (nb_src n = k) as <-.
  { destruct (g_table _ _ _ _ _ H2 k p Hk) as (m & ? & <-). congruence. }
  rewrite (nbr_delete_run p o2 n Hn Hm). eexists. split; [done|]. apply removed_good; [done|done|done|]. by rewrite Hst.
Qed.

(** The events that remove a neighbor, when the code knows that they do. *)
Lemma kill_event_good k e o :
  G o → (k, p) ∈ nbs → e = NSM_KillNbr ∨ e = NSM_InactivityTimer →
  ∃ o', ospf_nsm_event now p e o = Ok (tt, o') ∧ Good 0 (without k nbs) (live ∖ {[p]}) self o'.
Proof.
  intros HG Hk He. destruct (nbr_runs nbs live self p Hlive o HG) as (n & Hn & [_ Hst _]).
  unfold ospf_nsm_event. rewrite (st_bind_Ok _ _ _ _ _ (nbr_read_in _ _ _ Hn)).
  destruct (kill_nbr_good k o HG Hk) as (o1 & Hrun & H1). exists o1. split; [|done].
  rewrite (st_bind_Ok _ _ _ NSM_DependUpon o1).
  - by destruct He as [->| ->].
  - by destruct He as [->| ->], (nb_state n); cbn; rewrite ?(st_bind_Ok _ _ _ _ _ Hrun).
Qed.
End Kill.

(** * An interface that goes down *)

Lemma nbrs_lookup_in k p nbs : nbrs_lookup k nbs = Some p → (k, p) ∈ nbs.
Proof.
  unfold nbrs_lookup. intros ((i & [a q]) & (Hin & Ha & _)%list_find_Some & E)%fmap_Some. cbn in *. simplify_eq.
  by apply list_elem_of_lookup_2 in Hin.
Qed.

Lemma nbrs_lookup_none k p nbs : nbrs_lookup k nbs = None → (k, p) ∉ nbs.
Proof.
  unfold nbrs_lookup. intros H%fmap_None. apply list_find_None in H. rewrite Forall_forall in H.
  intros Hin. by apply (H _ Hin).
Qed.

Lemma without_subset k (nbs : list (Z * nat)) : without k nbs ⊆ nbs.
Proof. intros e He. by apply list_elem_of_filter in He as [_ ?]. Qed.

Section Down.
Context (now : timeval) (self : nat).

(** The loop leaves only the pseudo neighbor at the addresses it visits. *)
Lemma kill_loop_good keys : ∀ nbs live o,
  Good 0 nbs live self o →
  ∃ nbs' live' o', kill_loop now keys o = Ok (tt, o') ∧ Good 0 nbs' live' self o' ∧ nbs' ⊆ nbs ∧
    ∀ k p, k ∈ keys → (k, p) ∈ nbs' → p = self.
Proof.
  induction keys as [|k keys IH]; intros nbs live o HG; cbn [kill_loop].
  { exists nbs, live, o. split; [done|]. split; [done|]. split; [done|]. by intros ? ? []%not_elem_of_nil. }
  rewrite (st_bind_Ok _ _ _ o o) by done.
  assert (Hstep : ∃ nbs1 live1 o1,
    (match nbrs_lookup k (oi_nbrs o) with
     | Some p => when (negb (bool_decide (p = oi_nbr_self o))) (ospf_nsm_event now p NSM_KillNbr)
     | None => mret tt
     end) o = Ok (tt, o1) ∧ Good 0 nbs1 live1 self o1 ∧ nbs1 ⊆ nbs ∧ ∀ p, (k, p) ∈ nbs1 → p = self).
  { rewrite (g_nbs _ _ _ _ _ HG), (g_self_ptr _ _ _ _ _ HG).
    destruct (nbrs_lookup k nbs) as [p|] eqn:E.
    - apply nbrs_lookup_in in E. case_bool_decide as Hp; cbn [negb when].
      + exists nbs, live, o. do 3 (split; [done|]). intros q Hq. rewrite <- Hp.
        by eapply keys_unique; [apply HG| |].
      + destruct (kill_event_good now nbs live self p) with (k := k) (e := NSM_KillNbr) (o := o) as (o1 & Hrun & H1);
          try done; [|by left|].
        { destruct (g_table _ _ _ _ _ HG _ _ E) as (n & Hn & _). rewrite <- (g_live _ _ _ _ _ HG).
          by apply elem_of_dom_2 in Hn. }
        eexists _, _, o1. split; [done|]. split; [done|]. split; [apply without_subset|].
        intros q [Hq _]%list_elem_of_filter. by destruct Hq.
    - exists nbs, live, o. do 3 (split; [done|]). intros q Hq. by destruct (nbrs_lookup_none _ q _ E). }
  destruct Hstep as (nbs1 & live1 & o1 & Hrun1 & H1 & Hsub1 & Hk1). rewrite (st_bind_Ok _ _ _ _ _ Hrun1).
  destruct (IH nbs1 live1 o1 H1) as (nbs2 & live2 & o2 & Hrun2 & H2 & Hsub2 & Hk2).
  exists nbs2, live2, o2. split; [done|]. split; [done|]. split; [set_solver|].
  intros k' q [->|Hk']%elem_of_cons Hq; [|by eapply Hk2]. apply Hk1, Hsub2, Hq.
Qed.

(** The interface as ospf_if_cleanup leaves it, and what it has just before. *)
Lemma lone_self nbs live o :
  Good 0 nbs live self o → (∀ k p, (k, p) ∈ nbs → p = self) →
  ∃ n, oi_heap o = {[self := n]} ∧ nb_src n = oi_address o ∧ nb_nbma n = None ∧ nb_state n ≠ NSM_Full ∧
       oi_nbrs (removed self (nb_src n) o) = [] ∧ oi_events (removed self (nb_src n) o) = filter (λ e, for_nbr self e = false) (oi_events o) ∧
       ∀ p e, NsmEvent p e ∉ oi_events o.
Proof.
  intros HG Hone. destruct (g_self _ _ _ _ _ HG) as (n & Hn & Hs). exists n.
  assert (Hheap : oi_heap o = {[self := n]}).
  { apply map_eq. intros q. destruct (decide (q = self)) as [->|Hq]; [by rewrite lookup_singleton_eq|].
    rewrite lookup_singleton_ne by done. destruct (oi_heap o !! q) as [m|] eqn:E; [|done].
    destruct (g_heap _ _ _ _ _ HG q m E) as [Hin _]. by apply Hone in Hin. }
  split; [done|]. split; [apply Hs|]. split; [by apply (g_heap _ _ _ _ _ HG self n Hn)|]. split; [apply Hs|].
  split; [|split; [done|]].
  - cbn. rewrite (g_nbs _ _ _ _ _ HG). apply elem_of_nil_inv. intros [k q] [Hk Hin]%list_elem_of_filter.
    pose proof (Hone _ _ Hin). subst q. destruct (g_table _ _ _ _ _ HG k self Hin) as (m & Hm & <-).
    apply Hk. cbn. congruence.
  - intros p e He. destruct (g_events _ _ _ _ _ HG p e He) as (Hp & Hne & _). rewrite <- (g_live _ _ _ _ _ HG), Hheap in Hp.
    rewrite dom_singleton_L in Hp. by apply elem_of_singleton in Hp.
Qed.

(** The end of ospf_if_cleanup: the pseudo neighbor is replaced by a new one. *)
Lemma new_self_good nbs live a o :
  Good 0 nbs live self o → (∀ k p, (k, p) ∈ nbs → p = self) → oi_area o = Some a →
  ∃ o1, ospf_nbr_delete self o = Ok (tt, o1) ∧ oi_area o1 = Some a ∧
    let o2 := set_oi_nbr_self (oi_fresh o) (set_oi_fresh (S (oi_fresh o))
                (set_oi_heap {[oi_fresh o := new_self o1 a]} o1)) in
    oi_heap o1 = ∅ ∧ oi_nbrs o1 = [] ∧ oi_fresh o1 = oi_fresh o ∧ oi_state o1 = oi_state o ∧ oi_address o1 = oi_address o ∧
    Good 0 [(oi_address o, oi_fresh o)] {[oi_fresh o]} (oi_fresh o)
      (settled ISM_Down (set_oi_nbrs [(oi_address o, oi_fresh o)] o2)).
Proof.
  intros HG Hone Ha. destruct (lone_self nbs live o HG Hone) as (n & Hheap & Hsrc & Hm & Hst & Hnil & Hev & Hno).
  exists (removed self (nb_src n) o). split; [apply nbr_delete_run; [by rewrite Hheap, lookup_singleton_eq|done]|].
  assert (Hempty : oi_heap (removed self (nb_src n) o) = ∅) by (cbn; rewrite Hheap; apply delete_singleton_eq).
  repeat (split; [done|]). destruct HG. split; cbn; try done.
  - eexists. rewrite lookup_singleton_eq. split; [done|]. by split.
  - intros k p E%list_elem_of_singleton. simplify_eq. eexists. by rewrite lookup_singleton_eq.
  - intros p m [<- <-]%lookup_singleton_Some. split; [by apply list_elem_of_singleton|]. split; [done|done|apply map_Forall_empty].
  - apply NoDup_singleton.
  - intros p ->%elem_of_singleton. lia.
  - intros p e [_ Hin]%list_elem_of_filter. by destruct (Hno p e).
  - by intros [_ Hin]%list_elem_of_filter.
  - rewrite g_full. unfold count_full. f_equal. rewrite Hheap.
    rewrite !map_filter_singleton_False by (cbn; unfold is_full; by rewrite bool_decide_false). done.
  - by intros p m [<- <-]%lookup_singleton_Some _ [?|?].
  - by rewrite dom_singleton_L.
Qed.

Lemma ospf_if_cleanup_good nbs live o :
  Good 0 nbs live self o →
  ∃ o' k p, ospf_if_cleanup now o = Ok (tt, o') ∧ oi_state o' ≠ ISM_DependUpon ∧
    Good 0 [(k, p)] {[p]} p (settled ISM_Down o').
Proof.
  intros HG. unfold ospf_if_cleanup. rewrite (st_bind_Ok _ _ _ o o), (g_no_nbma _ _ _ _ _ HG) by done.
  rewrite (st_bind_Ok _ _ _ tt o), (st_bind_Ok _ _ _ o o) by done.
  destruct (kill_loop_good (fst <$> oi_nbrs o) nbs live o HG) as (nbs1 & live1 & o1 & Hrun & H1 & Hsub & Hk).
  rewrite (st_bind_Ok _ _ _ _ _ Hrun), (st_bind_Ok _ _ _ tt (set_oi_calls (oi_calls o1 ++ [EmptyLsAckList]) o1)) by done.
  rewrite (st_bind_Ok _ _ _ tt (set_oi_crypt_seqnum 0 (set_oi_calls (oi_calls o1 ++ [EmptyLsAckList]) o1))) by done.
  set (o2 := set_oi_calls ((oi_calls o1 ++ [EmptyLsAckList]) ++ [EmptyLsUpdQueue])
               (set_oi_crypt_seqnum 0 (set_oi_calls (oi_calls o1 ++ [EmptyLsAckList]) o1))).
  rewrite (st_bind_Ok _ _ _ tt o2), (st_bind_Ok _ _ _ o2 o2) by done.
  assert (H2 : Good 0 nbs1 live1 self o2) by (eapply Good_same; [|exact H1]; same_core_tac).
  destruct (g_area _ _ _ _ _ H2) as (a & Ha & _). destruct (new_self_good nbs1 live1 a o2 H2) as
    (o3 & Hdel & Ha3 & Hheap & Hnil & Hfresh & Hstate & Haddr & HGood); [|done|].
  { intros k p Hin. apply (Hk k p); [|done]. rewrite (g_nbs _ _ _ _ _ HG). apply list_elem_of_fmap. exists (k, p). auto. }
  rewrite (g_self_ptr _ _ _ _ _ H2), (st_bind_Ok _ _ _ _ _ Hdel), (st_bind_Ok _ _ _ o3 o3), Ha3 by done.
  set (o4 := set_oi_fresh (S (oi_fresh o2)) (set_oi_heap {[oi_fresh o2 := new_self o3 a]} o3)).
  rewrite (st_bind_Ok _ _ _ (oi_fresh o2) o4).
  2: { unfold nbr_alloc. by rewrite Hheap, Hfresh, insert_empty. }
  rewrite (st_bind_Ok _ _ _ tt (set_oi_nbr_self (oi_fresh o2) o4)) by done.
  rewrite (st_bind_Ok _ _ _ tt (set_oi_nbrs [(oi_address o3, oi_fresh o2)] (set_oi_nbr_self (oi_fresh o2) o4))).
  2: { unfold ospf_nbr_add_self. rewrite (st_bind_Ok _ _ _ (set_oi_nbr_self (oi_fresh o2) o4) (set_oi_nbr_self (oi_fresh o2) o4)) by done.
       cbn. by rewrite Hnil. }
  eexists _, (oi_address o2), (oi_fresh o2). split; [done|]. split.
  - cbn. rewrite Hstate. cbn. intros E. pose proof (g_fits _ _ _ _ _ H1) as Hf. by rewrite E in Hf.
  - rewrite Haddr.
    eapply Good_same; [|exact HGood]. same_core_tac.
Qed.
End Down.

(** * Hello packets *)

Lemma nbrs_insert_in a p e l : e ∈ nbrs_insert a p l ↔ e = (a, p) ∨ e ∈ l.
Proof.
  induction l as [|[b q] l IH]; cbn; [set_solver|]. destruct (a <? b); [set_solver|].
  rewrite !elem_of_cons, IH. tauto.
Qed.

Lemma nbrs_insert_keys a p l : a ∉ l.*1 → NoDup l.*1 → NoDup (nbrs_insert a p l).*1.
Proof.
  induction l as [|[b q] l IH]; cbn; intros Ha Hl; [apply NoDup_singleton|].
  destruct (a <? b); cbn; [by apply NoDup_cons|]. apply not_elem_of_cons in Ha as [Hab Ha].
  apply NoDup_cons in Hl as [Hb Hl]. apply NoDup_cons. split; [|auto].
  intros ([c r] & E & [Hcr|Hin]%nbrs_insert_in)%list_elem_of_fmap; cbn in E; [congruence|].
  apply Hb, list_elem_of_fmap. by exists (c, r).
Qed.

(** A new structure for the address [k], linked into the table. *)
Definition linked (k : Z) (n : ospf_neighbor) (o : ospf_interface) : ospf_interface :=
  set_oi_nbrs (nbrs_insert k (oi_fresh o) (oi_nbrs o))
    (set_oi_fresh (S (oi_fresh o)) (set_oi_heap (<[oi_fresh o := n]> (oi_heap o)) o)).

Lemma linked_good nbs live self k n o :
  Good 0 nbs live self o → (∀ p, (k, p) ∉ nbs) → nb_src n = k → nbr_ok n → dd_ok n → nb_state n ≠ NSM_Full →
  Good 0 (nbrs_insert k (oi_fresh o) nbs) ({[oi_fresh o]} ∪ live) self (linked k n o).
Proof.
  intros HG Hk Hsrc Hok Hdd Hst.
  assert (Hnew : ∀ p m, oi_heap o !! p = Some m → oi_fresh o ≠ p).
  { intros p m Hm Hp. apply elem_of_dom_2 in Hm. rewrite (g_live _ _ _ _ _ HG) in Hm. apply (g_fresh _ _ _ _ _ HG) in Hm. lia. }
  destruct HG. split; cbn; try done.
  - destruct g_self as (m & Hm & []). exists m. rewrite lookup_insert_ne by (by eapply Hnew). split; [done|]. by split.
  - intros b q [[= -> ->]|Hin]%nbrs_insert_in; [exists n; by rewrite lookup_insert_eq|].
    destruct (g_table _ _ Hin) as (m & Hm & E). exists m. by rewrite lookup_insert_ne by (by eapply Hnew).
  - intros q m [[<- <-]|[Hq Hm]]%lookup_insert_Some; rewrite nbrs_insert_in.
    + split; [left; congruence|done].
    + destruct (g_heap _ _ Hm) as [? ?]. auto.
  - apply nbrs_insert_keys; [|done]. intros ([b q] & -> & Hin)%list_elem_of_fmap. by apply (Hk q).
  - intros q [->%elem_of_singleton|Hq]%elem_of_union; [lia|]. apply g_fresh in Hq. lia.
  - intros q e Hin. destruct (g_events _ _ Hin) as (? & ? & ? & ?). set_solver.
  - rewrite count_full_insert_new, g_full.
    + f_equal. unfold is_full. rewrite bool_decide_false by done. cbn. lia.
    + destruct (oi_heap o !! oi_fresh o) eqn:E; [|done]. by apply Hnew in E.
  - intros q m [[<- <-]|[Hq Hm]]%lookup_insert_Some; [done|by apply g_dd].
  - by rewrite g_nbs.
  - by rewrite dom_insert_L, g_live.
Qed.

Section Hello.
Context (now : timeval) (hp : ospf_hello_packet).

Lemma hello_accepted_run o n :
  oi_heap o !! oi_nbr_self o = Some n → (∃ len, ip_masklen (h_network_mask hp) = Ok len) →
  ∃ b, hello_accepted hp o = Ok (b, o).
Proof.
  intros Hn [len Hlen]. unfold hello_accepted. rewrite (st_bind_Ok _ _ _ o o) by done.
  destruct (_ =? _); [by eexists|]. destruct (passive_interface _); [by eexists|].
  rewrite (st_bind_Ok _ _ _ len o) by (unfold st_lift; by rewrite Hlen).
  match goal with |- context [if ?b then mret false else _] => destruct b end; [by eexists|].
  destruct (negb _); [by eexists|]. destruct (negb _); [by eexists|]. destruct (negb _); [by eexists|].
  rewrite (st_bind_Ok _ _ _ n o); [by eexists|]. unfold self_read. rewrite (st_bind_Ok _ _ _ o o) by done.
  by apply nbr_read_in.
Qed.

Lemma hello_neighbor_good o nbs live self :
  Good 0 nbs live self o → h_src hp ≠ oi_address o →
  ∃ p o' nbs' live', hello_neighbor hp o = Ok (p, o') ∧ Good 0 nbs' live' self o' ∧ p ∈ live' ∧ p ≠ self.
Proof.
  intros HG Hsrc. unfold hello_neighbor. rewrite (st_bind_Ok _ _ _ o o) by done.
  rewrite (bool_decide_false (oi_type o = IFTYPE_NBMA)) by apply HG. cbn [andb when].
  destruct (nbrs_lookup (h_src hp) (oi_nbrs o)) as [p|] eqn:E.
  - apply nbrs_lookup_in in E. rewrite (g_nbs _ _ _ _ _ HG) in E.
    destruct (g_table _ _ _ _ _ HG _ _ E) as (n & Hn & Hk). exists p, o, nbs, live.
    rewrite (st_bind_Ok _ _ _ _ _ (nbr_read_in _ _ _ Hn)). split; [done|]. split; [done|]. split.
    + rewrite <- (g_live _ _ _ _ _ HG). by eapply elem_of_dom_2.
    + intros ->. destruct (g_self _ _ _ _ _ HG) as (m & Hm & []). congruence.
  - set (n := set_nb_src (h_src hp) (set_nb_address (h_src hp) (ospf_nbr_new o))).
    assert (HG' : Good 0 (nbrs_insert (h_src hp) (oi_fresh o) nbs) ({[oi_fresh o]} ∪ live) self (linked (h_src hp) n o)).
    { apply linked_good; try done; [|by intros [?|?]]. intros q. apply nbrs_lookup_none. by rewrite <- (g_nbs _ _ _ _ _ HG). }
    assert (Hne : oi_fresh o ≠ self).
    { intros Hs. destruct (g_self _ _ _ _ _ HG) as (m & Hm & _). apply elem_of_dom_2 in Hm.
      rewrite (g_live _ _ _ _ _ HG) in Hm. apply (g_fresh _ _ _ _ _ HG) in Hm. lia. }
    rewrite (st_bind_Ok _ _ _ (oi_fresh o) (set_oi_fresh (S (oi_fresh o)) (set_oi_heap (<[oi_fresh o := n]> (oi_heap o)) o))) by done.
    rewrite (st_bind_Ok _ _ _ tt (linked (h_src hp) n o)), (st_bind_Ok _ _ _ tt (linked (h_src hp) n o)) by done.
    assert (Hcrypt : preserves (Good 0 (nbrs_insert (h_src hp) (oi_fresh o) nbs) ({[oi_fresh o]} ∪ live) self)
      (match h_crypt hp with Some c => nbr_upd (oi_fresh o) (set_nb_crypt_seqnum c) | None => mret tt end)).
    { destruct (h_crypt hp); [|apply preserves_ret]. apply Good_nbr_upd; [set_solver| |done|done].
      intros m. split; [done|]. split; [|done]. intros []. by split. }
    destruct (Hcrypt _ HG') as ([] & o2 & Hrun & H2). rewrite (st_bind_Ok _ _ _ _ _ Hrun).
    eexists _, o2, _, _. split; [done|]. split; [exact H2|]. split; [set_solver|done].
Qed.

Section Known.
Context (nbs : list (Z * nat)) (live : gset nat) (self p : nat).
Context (Hlive : p ∈ live) (Hself : p ≠ self).
Abbreviation G := (Good 0 nbs live self).

Lemma simple_good f : simple_update f → preserves G (nbr_upd p f).
Proof.
  intros Hf. apply Good_nbr_upd; [done|by apply simple_keeps|done|]. intros n. by destruct (Hf n) as (_ & _ & ? & _).
Qed.

Lemma schedule_good e : e ≠ IsmEvent ISM_NoEvent → (∀ q x, e ≠ NsmEvent q x) → preserves G (schedule e).
Proof.
  intros He Hn. apply triple_modify. intros o []. split; cbn; try done.
  - destruct g_self as (m & ? & []). exists m. by repeat split.
  - intros q x [Hin|<-%list_elem_of_singleton]%elem_of_app; [by apply g_events|by destruct (Hn q x)].
  - by intros [Hin|<-%list_elem_of_singleton]%elem_of_app.
Qed.

Lemma hello_events_good : preserves G (hello_events hp p).
Proof.
  intros o HG. unfold hello_events. rewrite (st_bind_Ok _ _ _ o o) by done.
  destruct (nbr_runs nbs live self p Hlive o HG) as (n & Hn & _).
  rewrite (st_bind_Ok _ _ _ _ _ (nbr_read_in _ _ _ Hn)). cbv zeta.
  match goal with |- ∃ x o', ?m o = _ ∧ _ => enough (Hm : preserves G m) by (by apply Hm) end.
  repeat first [apply preserves_seq | apply preserves_when; by apply schedule_good].
Qed.

Lemma hello_rest_good : preserves G
  (nbr_upd p (set_nb_router_id (h_router_id hp));;
   n ← nbr_read p;
   let old_state := nb_state n in
   ospf_nsm_event now p NSM_HelloReceived;;
   o ← st_get; prio ← PRIORITY; d ← DR; b ← BDR;
   let nbma := bool_decide (oi_type o = IFTYPE_NBMA) in
   when (nbma && (prio =? 0) && (0 <? h_priority hp) && negb (d =? h_src hp) && negb (b =? h_src hp))
     (nbr_upd p (λ n, set_nb_t_hello_reply (timer_on (nb_t_hello_reply n) OSPF_HELLO_REPLY_DELAY) n));;
   if nbma && (bool_decide (old_state = NSM_Down) || bool_decide (old_state = NSM_Attempt)) then
     ospf_nsm_event now p NSM_OneWayReceived;; nbr_upd p (hello_info hp)
   else if ospf_nbr_bidirectional (oi_router_id o) (h_neighbors hp) then
     ospf_nsm_event now p NSM_TwoWayReceived;;
     nbr_upd p (λ n, set_nb_options (Z.lor (nb_options n) (h_options hp)) n);;
     hello_events hp p;;
     nbr_upd p (hello_info hp)
   else
     ospf_nsm_event now p NSM_OneWayReceived;; nbr_upd p (hello_info hp)).
Proof.
  assert (Hev : ∀ e, e = NSM_HelloReceived ∨ e = NSM_OneWayReceived ∨ e = NSM_TwoWayReceived →
    preserves G (ospf_nsm_event now p e)).
  { intros e He. apply ospf_nsm_event_good; try done; destruct He as [->|[->| ->]]; done || by intros []. }
  apply preserves_seq; [apply simple_good; simple_tac|].
  eapply triple_bind; [by apply Good_nbr_read|]. intros n. cbv zeta. intros o [HG Hn].
  destruct (Hev NSM_HelloReceived ltac:(by left) o HG) as ([] & o1 & Hrun & H1). rewrite (st_bind_Ok _ _ _ _ _ Hrun).
  rewrite (st_bind_Ok _ _ _ o1 o1) by done. destruct (self_runs nbs live self o1 H1) as [sn Hs].
  rewrite (st_bind_Ok _ _ _ (nb_priority sn) o1).
  2:{ unfold PRIORITY, self_read. rewrite (st_bind_Ok _ _ _ sn o1); [done|].
      rewrite (st_bind_Ok _ _ _ o1 o1) by done. by apply nbr_read_in. }
  rewrite (st_bind_Ok _ _ _ _ _ (DR_run _ _ Hs)), (st_bind_Ok _ _ _ _ _ (BDR_run _ _ Hs)).
  rewrite (bool_decide_false (oi_type o1 = IFTYPE_NBMA)) by apply H1. cbn [andb when].
  rewrite (st_bind_Ok _ _ _ tt o1) by done.
  match goal with |- ∃ x o', ?m o1 = _ ∧ _ => enough (Hm : preserves G m) by (by apply Hm) end.
  apply preserves_if; repeat first [apply preserves_seq | apply Hev; auto | apply hello_events_good | apply simple_good; simple_tac].
Qed.
End Known.

Lemma ospf_hello_good o nbs live self :
  Good 0 nbs live self o → h_src hp ≠ oi_address o → (∃ len, ip_masklen (h_network_mask hp) = Ok len) →
  ∃ o' nbs' live', ospf_hello now hp o = Ok (tt, o') ∧ Good 0 nbs' live' self o'.
Proof.
  intros HG Hsrc Hmask. destruct (self_runs nbs live self o HG) as [sn Hs].
  destruct (hello_accepted_run o sn Hs Hmask) as [b Hb]. unfold ospf_hello. rewrite (st_bind_Ok _ _ _ _ _ Hb).
  destruct b; cbn [when]; [|by exists o, nbs, live].
  destruct (hello_neighbor_good o nbs live self HG Hsrc) as (p & o1 & nbs1 & live1 & Hrun & H1 & Hp & Hne).
  rewrite (st_bind_Ok _ _ _ _ _ Hrun).
  destruct (hello_rest_good nbs1 live1 self p Hp Hne o1 H1) as ([] & o2 & Hrun2 & H2). by exists o2, nbs1, live1.
Qed.
End Hello.

(** * The whole interface *)

Lemma Good_Inv nbs live self o : Good 0 nbs live self o → Inv o.
Proof. intros HG. unfold Inv. by rewrite (g_nbs _ _ _ _ _ HG), (g_live _ _ _ _ _ HG), (g_self_ptr _ _ _ _ _ HG). Qed.

(** What happens to an interface: the oldest scheduled event runs, the code executes
    an event at once, a timer expires, a hello packet arrives.  The database
    description timer is one of a neighbor. *)
Inductive input :=
  | in_event
  | in_ism (e : ism_event)
  | in_nsm (p : nat) (e : nsm_event)
  | in_wait_timer
  | in_hello_timer
  | in_inactivity_timer (p : nat)
  | in_db_desc_timer (p : nat)
  | in_hello (h : ospf_hello_packet).

Definition next_event (now : timeval) : M unit :=
  o ← st_get;
  match oi_events o with
  | [] => mret tt
  | e :: evs =>
      modify (set_oi_events evs);;
      match e with
      | IsmEvent e => ospf_ism_event now e
      | NsmEvent p e => ospf_nsm_event now p e
      end
  end.

Definition run_input (now : timeval) (i : input) : M unit :=
  match i with
  | in_event => next_event now
  | in_ism e => ospf_ism_event now e
  | in_nsm p e => ospf_nsm_event now p e
  | in_wait_timer => ospf_wait_timer
  | in_hello_timer => ospf_hello_timer
  | in_inactivity_timer p => ospf_inactivity_timer p
  | in_db_desc_timer p => ospf_db_desc_timer p
  | in_hello h => ospf_hello now h
  end.

(** The inputs the rest of ospfd gives: events of the two enumerations other than
    NoEvent, for neighbors that exist, and never LLDown, which nothing raises; hello
    packets that are not from the own address (ospf_read discards those), with a mask
    other than /32, on which ip_masklen reads past its argument; database description
    timers that run. *)
Definition enabled (o : ospf_interface) (i : input) : Prop :=
  match i with
  | in_event | in_wait_timer | in_hello_timer => True
  | in_ism e => e ≠ ISM_NoEvent
  | in_nsm p e => p ∈ dom (oi_heap o) ∧ p ≠ oi_nbr_self o ∧ e ≠ NSM_NoEvent ∧ e ≠ NSM_LLDown
  | in_inactivity_timer p => p ∈ dom (oi_heap o) ∧ p ≠ oi_nbr_self o
  | in_db_desc_timer p => ∃ n, oi_heap o !! p = Some n ∧ nb_t_db_desc n ≠ None
  | in_hello h => h_src h ≠ oi_address o ∧ ∃ len, ip_masklen (h_network_mask h) = Ok len
  end.

Definition step (o o' : ospf_interface) : Prop :=
  ∃ now i, enabled o i ∧ run_input now i o = Ok (tt, o').

Lemma nsm_event_good now nbs live self p e o :
  Good 0 nbs live self o → p ∈ live → p ≠ self → e ≠ NSM_NoEvent → e ≠ NSM_LLDown →
  ∃ o', ospf_nsm_event now p e o = Ok (tt, o') ∧ Inv o'.
Proof.
  intros HG Hp Hne H0 HL.
  destruct (decide (e = NSM_KillNbr ∨ e = NSM_InactivityTimer)) as [Hk|Hk].
  - destruct (live_lookup _ _ _ _ _ _ HG Hp) as [n Hn]. destruct (g_heap _ _ _ _ _ HG p n Hn) as [Hin _].
    destruct (kill_event_good now nbs live self p Hp Hne (nb_src n) e o HG Hin Hk) as (o' & Hrun & H').
    exists o'. split; [done|]. by eapply Good_Inv.
  - destruct (ospf_nsm_event_good now nbs live self p Hp Hne e) with (o := o) as ([] & o' & Hrun & H'); try tauto.
    + intros st. by destruct st, e; tauto || done.
    + exists o'. split; [done|]. by eapply Good_Inv.
Qed.

Lemma ism_up_good now nbs live self o :
  Good 0 nbs live self o → oi_state o = ISM_Down →
  ∃ o', ospf_ism_event now ISM_InterfaceUp o = Ok (tt, o') ∧ Good 0 nbs live self o'.
Proof.
  intros HG Hd. unfold ospf_ism_event, ism_event_with. rewrite (st_bind_Ok _ _ _ o o), Hd by done. cbn [ISM fst].
  destruct (self_runs nbs live self o HG) as [sn Hs].
  set (ns := if must_be_adjacent (oi_type o) then ISM_PointToPoint else if nb_priority sn =? 0 then ISM_DROther else ISM_Waiting).
  rewrite (st_bind_Ok _ _ _ ns o).
  2:{ cbn [ism_run]. rewrite (st_bind_Ok _ _ _ o o) by done. rewrite (st_bind_Ok _ _ _ (nb_priority sn) o).
      - rewrite (bool_decide_false (oi_type o = IFTYPE_NBMA)) by apply HG. done.
      - unfold PRIORITY, self_read. rewrite (st_bind_Ok _ _ _ sn o); [done|].
        rewrite (st_bind_Ok _ _ _ o o) by done. by apply nbr_read_in. }
  assert (Hns : ns = ISM_PointToPoint ∧ must_be_adjacent (oi_type o) = true ∨
                (ns = ISM_DROther ∨ ns = ISM_Waiting) ∧ must_be_adjacent (oi_type o) = false).
  { subst ns. destruct (must_be_adjacent _); [by left|]. right. destruct (_ =? _); auto. }
  destruct (ism_finish nbs live self ISM_InterfaceUp ns o) as (o2 & Hrun & H2 & _); [|by exists o2].
  rewrite bool_decide_false by (by destruct Hns as [[-> _]|[[->| ->] _]]).
  apply settle; [done| |]; by destruct Hns as [[-> ?]|[[->| ->] ?]]; try intros [].
Qed.

Lemma ism_down_good now nbs live self o :
  Good 0 nbs live self o → ∃ o', ospf_ism_event now ISM_InterfaceDown o = Ok (tt, o') ∧ Inv o'.
Proof.
  intros HG. unfold ospf_ism_event, ism_event_with. rewrite (st_bind_Ok _ _ _ o o) by done.
  destruct (ospf_if_cleanup_good now self nbs live o HG) as (o1 & k & p & Hrun & Hs & H1).
  assert (Hh : fst (ISM (oi_state o) ISM_InterfaceDown) = ism_interface_down).
  { pose proof (g_fits _ _ _ _ _ HG) as Hf. by destruct (oi_state o). }
  rewrite Hh, (st_bind_Ok _ _ _ ISM_DependUpon o1) by (cbn [ism_run]; by rewrite (st_bind_Ok _ _ _ _ _ Hrun)).
  destruct (ism_finish [(k, p)] {[p]} p ISM_InterfaceDown ISM_DependUpon o1) as (o2 & Hrun2 & H2 & _).
  - rewrite bool_decide_true by done. by destruct (oi_state o1).
  - exists o2. split; [done|]. by eapply Good_Inv.
Qed.

Lemma ism_event_good now nbs live self e o :
  Good 0 nbs live self o → e ≠ ISM_NoEvent → ∃ o', ospf_ism_event now e o = Ok (tt, o') ∧ Inv o'.
Proof.
  intros HG He. pose proof (g_fits _ _ _ _ _ HG) as Hf.
  assert (Hcase : e = ISM_InterfaceDown ∨ (e = ISM_InterfaceUp ∧ oi_state o = ISM_Down) ∨
    (fst (ISM (oi_state o) e) = ism_ignore ∨ fst (ISM (oi_state o) e) = ism_loop_ind) ∨
    (must_be_adjacent (oi_type o) = false ∧ ∀ up down, ism_run up down (fst (ISM (oi_state o) e)) = ospf_dr_election)).
  { destruct (oi_state o), e; cbn in *; try done; tauto || auto 10. }
  destruct Hcase as [->|[[-> Hd]|[Hq|[Hadj Hrun]]]].
  - by apply (ism_down_good now nbs live self).
  - destruct (ism_up_good now nbs live self o HG Hd) as (o' & ? & ?). exists o'. split; [done|]. by eapply Good_Inv.
  - destruct (ism_quiet_event nbs live self (ospf_nbr_nbma_if_update now) (ospf_if_cleanup now) e o HG He Hq) as (o' & ? & ?).
    exists o'. split; [done|]. by eapply Good_Inv.
  - destruct (ism_election_event nbs live self (ospf_nbr_nbma_if_update now) (ospf_if_cleanup now) e o HG Hadj) as (o' & ? & ? & _); [done|].
    exists o'. split; [done|]. by eapply Good_Inv.
Qed.

Lemma set_events_good nbs live self o evs :
  Good 0 nbs live self o → (∀ e, e ∈ evs → e ∈ oi_events o ∨ (∃ p, e = NsmEvent p NSM_InactivityTimer ∧ p ∈ live ∧ p ≠ self) ∨
    e = IsmEvent ISM_WaitTimer) →
  Good 0 nbs live self (set_oi_events evs o).
Proof.
  intros [] He. split; cbn; try done.
  - destruct g_self as (m & ? & []). exists m. by repeat split.
  - intros p e [Hin|[(q & [= -> ->] & ? & ?)|?]]%He; [by apply g_events|done|done].
  - by intros [Hin|[(q & ? & _)|?]]%He.
Qed.

(** The timer finds the description it sends again. *)
Lemma db_desc_timer_good o p n :
  Inv o → oi_heap o !! p = Some n → nb_t_db_desc n ≠ None → ∃ o', ospf_db_desc_timer p o = Ok (tt, o') ∧ Inv o'.
Proof.
  intros HG Hn Ht. assert (Hsent : nb_last_send n = true) by (apply (g_dd _ _ _ _ _ HG p n Hn); [done|by right]).
  assert (Hup : ∀ o1 v, Inv o1 → oi_heap o1 !! p = Some (set_nb_t_db_desc v n) → ∀ w,
    Inv (set_oi_heap (<[p := set_nb_t_db_desc w n]> (oi_heap o1)) o1)).
  { intros o1 v H1 Hn1 w. eapply Good_Inv, (Good_keep _ _ _ _ _ _ _ _ H1 Hn1); [|done|done].
    split; [done|]. split; [|intros _ _; exact Hsent]. intros []. by split. }
  unfold ospf_db_desc_timer, ospf_db_desc_resend.
  set (o1 := set_oi_heap (<[p := set_nb_t_db_desc None n]> (oi_heap o)) o).
  assert (Hn1 : oi_heap o1 !! p = Some (set_nb_t_db_desc None n)) by apply lookup_insert_eq.
  assert (H1 : Inv o1) by (apply (Hup o (nb_t_db_desc n)); [done|]; rewrite Hn; by destruct n).
  rewrite (st_bind_Ok _ _ _ tt o1) by (unfold nbr_upd; by rewrite Hn).
  rewrite (st_bind_Ok _ _ _ _ _ (nbr_read_in _ _ _ Hn1)), (st_bind_Ok _ _ _ tt o1) by (cbn; by rewrite Hsent).
  set (o2 := set_oi_calls (oi_calls o1 ++ [DbDescResend p]) o1).
  rewrite (st_bind_Ok _ _ _ tt o2).
  2:{ rewrite (st_bind_Ok _ _ _ _ _ (nbr_read_in _ _ _ Hn1)). cbn [nb_last_send set_nb_t_db_desc]. by rewrite Hsent. }
  unfold nbr_upd. change (oi_heap o2) with (oi_heap o1). rewrite Hn1. eexists. split; [done|].
  apply (Hup o2 None); [|exact Hn1]. eapply Good_Inv, Good_same; [|exact H1]. same_core_tac.
Qed.

(** Progress and preservation of one input. *)
Lemma input_good now o i : Inv o → enabled o i → ∃ o', run_input now i o = Ok (tt, o') ∧ Inv o'.
Proof.
  intros HG Hi. destruct i as [|e|p e| | |p|p|hp]; cbn [run_input enabled] in *.
  - unfold next_event. rewrite (st_bind_Ok _ _ _ o o) by done. destruct (oi_events o) as [|e evs] eqn:E; [by exists o|].
    rewrite (st_bind_Ok _ _ _ tt (set_oi_events evs o)) by done.
    assert (H1 : Good 0 (oi_nbrs o) (dom (oi_heap o)) (oi_nbr_self o) (set_oi_events evs o)).
    { apply set_events_good; [done|]. intros x Hx. left. rewrite E. by right. }
    destruct e as [e|p e].
    + eapply ism_event_good; [done|]. intros ->. apply (g_ism_events _ _ _ _ _ HG). rewrite E. by left.
    + destruct (g_events _ _ _ _ _ HG p e) as (? & ? & ? & ?); [rewrite E; by left|]. by eapply nsm_event_good.
  - by eapply ism_event_good.
  - destruct Hi as (? & ? & ? & ?). by eapply nsm_event_good.
  - eexists. split; [done|]. eapply (Good_Inv (oi_nbrs o) (dom (oi_heap o)) (oi_nbr_self o)).
    apply (set_events_good _ _ _ (set_oi_t_wait None o)).
    + destruct HG. split; cbn; try done. destruct g_self as (m & ? & []). exists m. by repeat split.
    + cbn. intros e [?| ->%list_elem_of_singleton]%elem_of_app; auto.
  - eexists. split; [done|]. eapply Good_Inv, Good_same; [|exact HG]. same_core_tac.
  - destruct Hi as [Hp Hne]. destruct (live_lookup _ _ _ _ _ _ HG Hp) as [n Hn].
    unfold ospf_inactivity_timer, nbr_upd. rewrite (st_bind_Ok _ _ _ tt (set_oi_heap (<[p := set_nb_t_inactivity None n]> (oi_heap o)) o)) by (by rewrite Hn).
    eexists. split; [done|]. eapply Good_Inv, set_events_good.
    + eapply Good_keep; [exact HG|done| |by intros ->|done]. split; [done|]. split; [|done]. intros []. by split.
    + cbn. intros e [?| ->%list_elem_of_singleton]%elem_of_app; [by left|]. right. left. by exists p.
  - destruct Hi as (n & Hn & Ht). by eapply db_desc_timer_good.
  - destruct Hi as [Hsrc Hmask]. destruct (ospf_hello_good now hp o _ _ _ HG Hsrc Hmask) as (o' & ? & ? & ? & ?).
    exists o'. split; [done|]. by eapply Good_Inv.
Qed.

Lemma Inv_reachable o o' : Inv o → rtc step o o' → Inv o'.
Proof.
  intros Ho Hr. induction Hr as [|o o1 o' (now & i & Hi & Hrun) _ IH]; [done|]. apply IH.
  destruct (input_good now o i Ho Hi) as (o2 & Hrun2 & H2). congruence.
Qed.

(** C2: Safety of the two machines of an interface that is not NBMA: from a state in
    good order, after any sequence of the inputs [enabled] admits, the invariant holds
    and the next such input runs to its end without a fault (no access to a freed
    structure, no null pointer, no failed assertion).  Admitted are scheduled events,
    events executed at once (not NoEvent; for neighbors that exist; not LLDown, which
    nothing in ospfd raises), the wait, hello, inactivity and database description
    timers, and hello packets from other addresses with a mask shorter than /32.  The
    exclusions are needed: LLDown uses a freed neighbor ([ll_down_use_after_free]),
    and on a /32 mask ip_masklen reads past its argument.  Other packets than hellos
    are not inputs; the events they raise are. *)
Theorem ospf_machines_safe o0 o now i :
  Inv o0 → rtc step o0 o → enabled o i →
  Inv o ∧ ∃ o', run_input now i o = Ok (tt, o') ∧ Inv o'.
Proof.
  intros H0 Hr Hi. assert (Ho : Inv o) by (by eapply Inv_reachable). split; [done|]. by apply input_good.
Qed.

(** C28: In every reachable state the interface is in a state its network type allows,
    its counter of full adjacencies is the number of neighbors in state Full, a
    router in state DR or Backup is recorded as such, and the wait timer only runs in
    state Waiting. *)
Theorem ospf_interface_consistent o0 o :
  Inv o0 → rtc step o0 o →
  state_fits (oi_type o) (oi_state o) ∧ oi_full_nbrs o = u32 (count_full (oi_heap o)) ∧
  (oi_t_wait o ≠ None → oi_state o = ISM_Waiting) ∧
  ∃ n, oi_heap o !! oi_nbr_self o = Some n ∧
    (oi_state o = ISM_DR → nb_d_router n = oi_address o) ∧
    (oi_state o = ISM_Backup → nb_bd_router n = oi_address o).
Proof.
  intros H0 Hr. destruct (Inv_reachable _ _ H0 Hr). split; [done|]. rewrite Z.add_0_r in g_full. do 2 (split; [done|]).
  destruct g_self as (n & Hn & []). by exists n.
Qed.

(** LLDown is handled by removing the neighbor, like KillNbr, but ospf_nsm_event
    goes on with the freed structure: the event faults in every state. *)
Theorem ll_down_use_after_free now o p :
  Inv o → p ∈ dom (oi_heap o) → p ≠ oi_nbr_self o → ospf_nsm_event now p NSM_LLDown o = Fail UseAfterFree.
Proof.
  intros HG Hp Hne. destruct (live_lookup _ _ _ _ _ _ HG Hp) as [n Hn].
  destruct (g_heap _ _ _ _ _ HG p n Hn) as [Hin [_ Hst _]].
  unfold ospf_nsm_event. rewrite (st_bind_Ok _ _ _ _ _ (nbr_read_in _ _ _ Hn)).
  destruct (kill_nbr_good now _ _ _ p Hp Hne (nb_src n) o HG Hin) as (o1 & Hrun & H1).
  rewrite (st_bind_Ok _ _ _ NSM_DependUpon o1).
  2:{ by destruct (nb_state n); cbn; rewrite ?(st_bind_Ok _ _ _ _ _ Hrun). }
  assert (Hgone : oi_heap o1 !! p = None).
  { apply not_elem_of_dom. rewrite (g_live _ _ _ _ _ H1). set_solver. }
  rewrite !(bool_decide_false (NSM_LLDown = _)) by done. cbn [orb]. apply st_bind_Fail. unfold nbr_read. by rewrite Hgone.
Qed.

(** AdjOK? (RFC 2328, 10.4): a neighbor in two-way communication is in state
    ExStart or higher after the event exactly when an adjacency is due, that is on
    point-to-point, point-to-multipoint and virtual links, or when one of the two
    routers is the designated router or its backup. *)
Theorem adj_ok_decides now o p sn n :
  Inv o → p ≠ oi_nbr_self o → oi_heap o !! oi_nbr_self o = Some sn → oi_heap o !! p = Some n →
  nsm_num NSM_TwoWay ≤ nsm_num (nb_state n) →
  ∃ o' n', ospf_nsm_event now p NSM_AdjOK o = Ok (tt, o') ∧ Inv o' ∧ oi_heap o' !! p = Some n' ∧
    (nsm_num NSM_ExStart ≤ nsm_num (nb_state n') ↔ adjacency_due o sn n = true).
Proof.
  intros HG Hne Hs Hn Hst. assert (Hp : p ∈ dom (oi_heap o)) by (by eapply elem_of_dom_2).
  unfold ospf_nsm_event. rewrite (st_bind_Ok _ _ _ _ _ (nbr_read_in _ _ _ Hn)).
  assert (Hh : fst (NSM (nb_state n) NSM_AdjOK) = nsm_adj_ok) by (destruct (nb_state n); cbn in Hst; done || lia).
  rewrite Hh. cbn [nsm_run].
  match goal with |- context [mbind _ (adj_ok p)] => rewrite (st_bind_Ok _ _ _ _ _ (adj_ok_run p o sn n Hs Hn)) end.
  set (next := if _ && adjacency_due o sn n then _ else _).
  assert (Hnext : next ≠ NSM_DependUpon ∧ (nsm_num NSM_ExStart ≤ nsm_num next ↔ adjacency_due o sn n = true)).
  { subst next. destruct (nb_state n), (adjacency_due o sn n); cbn in *; done || lia. }
  destruct Hnext as [Hd Hiff]. rewrite !(bool_decide_false (NSM_AdjOK = _)) by done. cbn [orb].
  rewrite (st_bind_Ok _ _ _ _ _ (nbr_read_in _ _ _ Hn)), (bool_decide_false (next = NSM_DependUpon)) by done. cbv zeta.
  assert (Hc : ∃ o1, when (negb (bool_decide (next = nb_state n))) (nsm_change_state now p next) o = Ok (tt, o1) ∧
    GSd (oi_nbrs o) (dom (oi_heap o)) (oi_nbr_self o) p 0 next o1).
  { case_bool_decide as E; cbn [negb when].
    - exists o. split; [done|]. split; [done|]. exists n. by rewrite E.
    - by destruct (nsm_change_state_good now _ _ _ p Hp Hne next Hd o HG) as ([] & o1 & ? & ?); exists o1. }
  destruct Hc as (o1 & Hrun1 & H1). rewrite (st_bind_Ok _ _ _ _ _ Hrun1).
  destruct (nsm_timer_good _ _ _ p Hne next o1 H1) as ([] & o2 & Hrun2 & H2 & n2 & Hn2 & E2).
  exists o2, n2. split; [done|]. split; [by eapply Good_Inv|]. split; [done|]. by rewrite E2.
Qed.

(** ** Examples *)

Lemma ex_down_Inv : Inv (ex_down 1).
Proof.
  unfold Inv. split; cbn; try done.
  - by exists ex_area.
  - exists (new_self (ex_down 1) ex_area). split; [done|]. by split.
  - intros k p [= -> ->]%list_elem_of_singleton. exists (new_self (ex_down 1) ex_area). done.
  - intros p n [<- <-]%lookup_singleton_Some. split; [by apply list_elem_of_singleton|]. by split.
  - apply NoDup_singleton.
  - intros p. rewrite dom_singleton_L. intros ->%elem_of_singleton. lia.
  - by intros p e ?%not_elem_of_nil.
  - apply not_elem_of_nil.
  - by intros p n [<- <-]%lookup_singleton_Some _ [?|?].
Qed.

(** The run that brings the interface up, makes it DR and lets a neighbor in. *)
Definition ex_waiting : ospf_interface := Eval vm_compute in after (ospf_ism_event ex_now ISM_InterfaceUp) (ex_down 1).
Definition ex_one : ospf_interface := Eval vm_compute in after (ospf_hello ex_now (ex_hello 200 100 0)) ex_alone.

Lemma step_run i o o' : enabled o i → run_input ex_now i o = Ok (tt, o') → step o o'.
Proof. intros Hi Hrun. by exists ex_now, i. Qed.

Lemma ex_pair_reachable : rtc step (ex_down 1) ex_pair.
Proof.
  apply (rtc_l _ _ ex_waiting); [by apply (step_run (in_ism ISM_InterfaceUp)); [|vm_compute]|].
  apply (rtc_l _ _ ex_alone); [by apply (step_run (in_ism ISM_WaitTimer)); [|vm_compute]|].
  apply (rtc_l _ _ ex_one).
  { apply (step_run (in_hello (ex_hello 200 100 0))); [|by vm_compute]. split; [done|]. by exists 24. }
  apply rtc_once, (step_run (in_hello (ex_hello 200 100 50))); [|by vm_compute]. split; [done|]. by exists 24.
Qed.

Lemma ex_pair_Inv : Inv ex_pair.
Proof. exact (Inv_reachable _ _ ex_down_Inv ex_pair_reachable). Qed.

Lemma ospf_machines_safe_witness :
  Inv ex_pair ∧ ∃ o', run_input ex_now (in_inactivity_timer 1) ex_pair = Ok (tt, o') ∧ Inv o'.
Proof.
  apply (ospf_machines_safe (ex_down 1)); [exact ex_down_Inv|exact ex_pair_reachable|].
  split; [|done]. apply (bool_decide_eq_true_1 _). by vm_compute.
Defined.

Lemma ospf_interface_consistent_witness : oi_state ex_pair = ISM_DR ∧
  state_fits (oi_type ex_pair) (oi_state ex_pair) ∧ oi_full_nbrs ex_pair = u32 (count_full (oi_heap ex_pair)) ∧
  (oi_t_wait ex_pair ≠ None → oi_state ex_pair = ISM_Waiting) ∧
  ∃ n, oi_heap ex_pair !! oi_nbr_self ex_pair = Some n ∧
    (oi_state ex_pair = ISM_DR → nb_d_router n = oi_address ex_pair) ∧
    (oi_state ex_pair = ISM_Backup → nb_bd_router n = oi_address ex_pair).
Proof.
  split; [done|]. exact (ospf_interface_consistent (ex_down 1) ex_pair ex_down_Inv ex_pair_reachable).
Defined.

Lemma ll_down_use_after_free_witness : ospf_nsm_event ex_now 1 NSM_LLDown ex_pair = Fail UseAfterFree.
Proof.
  apply (ll_down_use_after_free ex_now ex_pair 1); [exact ex_pair_Inv| |done].
  apply (bool_decide_eq_true_1 _). by vm_compute.
Defined.

Definition ex_pair_nbr : ospf_neighbor := Eval vm_compute in default ex_pair_self (oi_heap ex_pair !! 1%nat).

Lemma adj_ok_decides_witness :
  ∃ o' n', ospf_nsm_event ex_now 1 NSM_AdjOK ex_pair = Ok (tt, o') ∧ Inv o' ∧ oi_heap o' !! 1%nat = Some n' ∧
    (nsm_num NSM_ExStart ≤ nsm_num (nb_state n') ↔ adjacency_due ex_pair ex_pair_self ex_pair_nbr = true).
Proof.
  apply (adj_ok_decides ex_now ex_pair 1); [exact ex_pair_Inv|done|exact ex_pair_self_in|by vm_compute|by vm_compute].
Defined.
