(* ===== verification/OspfSpf.v ===== *)
(** The shortest-path calculation of an area: ospfd/ospf_spf.c.

    Vertices are allocated, linked and freed in a heap.  The octets of the LSAs are read
    where the code reads them; offsets stand for pointers into an LSA.  The two tables of
    vertices are the maps they stand for, linked lists are their contents.  Addresses are
    numbers.  The routes the calculation adds to the routing tables (ospf_intra_add_router,
    ospf_intra_add_transit, ospf_intra_add_stub of ospfd/ospf_route.c) are recorded. *)

From S2P Require Import Prelude Prefix Stream OspfLsa OspfIf.

(** * Constants *)

Definition OSPF_VERTEX_ROUTER : Z := 1.
Definition OSPF_VERTEX_NETWORK : Z := 2.
Definition OSPF_VERTEX_PROCESSED : Z := 0x01.
Definition LSA_LINK_TYPE_POINTOPOINT : Z := 1.
Definition LSA_LINK_TYPE_TRANSIT : Z := 2.
Definition LSA_LINK_TYPE_STUB : Z := 3.
Definition LSA_LINK_TYPE_VIRTUALLINK : Z := 4.
Definition ROUTER_LSA_VIRTUAL : Z := 0x04.
Definition ROUTER_LSA_MIN_SIZE : Z := 12.
Definition ROUTER_LSA_TOS_SIZE : Z := 4.
Definition OSPF_TRANSIT_FALSE : Z := 0.
Definition OSPF_TRANSIT_TRUE : Z := 1.

(** * Data *)

(** [nh_oi] is the place of the interface in the list of interfaces. *)
Record vertex_nexthop := Vnh { nh_oi : nat; nh_router : Z; nh_parent : positive }.

#[export] Instance vertex_nexthop_eq_dec : EqDecision vertex_nexthop.
Proof. solve_decision. Defined.

Record vertex := Vertex {
  v_flags : Z;
  v_type : Z;
  v_id : Z;
  v_lsa : list Z;
  v_distance : Z;
  v_child : list positive;
  v_nexthop : list vertex_nexthop;
}.

Definition set_v_flags (f : Z) (v : vertex) : vertex :=
  Vertex f (v_type v) (v_id v) (v_lsa v) (v_distance v) (v_child v) (v_nexthop v).
Definition set_v_distance (d : Z) (v : vertex) : vertex :=
  Vertex (v_flags v) (v_type v) (v_id v) (v_lsa v) d (v_child v) (v_nexthop v).
Definition set_v_child (c : list positive) (v : vertex) : vertex :=
  Vertex (v_flags v) (v_type v) (v_id v) (v_lsa v) (v_distance v) c (v_nexthop v).
Definition set_v_nexthop (n : list vertex_nexthop) (v : vertex) : vertex :=
  Vertex (v_flags v) (v_type v) (v_id v) (v_lsa v) (v_distance v) (v_child v) n.

(** An interface of [ospf->oiflist]: its type, its address and the address of the other
    end of a point-to-point link. *)
Record spf_if := SpfIf { si_type : iftype; si_address : Z; si_prefixlen : Z; si_destination : option Z }.

(** What the calculation reads of an area: its own router-LSA, the router-LSAs of the
    database by id and advertising router, the network-LSAs in the order of a walk over
    their table, and the interfaces.  [sa_garbage] is the octet of the stack where
    ospf_nexthop_calculation has a family that it does not set. *)
Record spf_area := SpfArea {
  sa_router_lsa_self : option ospf_lsa;
  sa_routers : gmap (Z * Z) ospf_lsa;
  sa_networks : list ospf_lsa;
  sa_oiflist : list spf_if;
  sa_garbage : Z;
}.

(** The routes that are added, with the vertex as it was then; the link of a stub
    network is an offset in the LSA of the vertex. *)
Inductive route_add :=
  | ospf_intra_add_router (v : vertex)
  | ospf_intra_add_transit (v : vertex)
  | ospf_intra_add_stub (link : Z) (v : vertex).

(** The state of a run; [sp_root] is [area->spf]. *)
Record spf := Spf {
  sp_heap : gmap positive vertex;
  sp_candidate : list positive;
  sp_rv : gmap Z positive;
  sp_nv : gmap Z positive;
  sp_root : positive;
  sp_transit : Z;
  sp_adds : list route_add;
}.

Definition set_sp_heap (h : gmap positive vertex) (s : spf) : spf :=
  Spf h (sp_candidate s) (sp_rv s) (sp_nv s) (sp_root s) (sp_transit s) (sp_adds s).
Definition set_sp_candidate (c : list positive) (s : spf) : spf :=
  Spf (sp_heap s) c (sp_rv s) (sp_nv s) (sp_root s) (sp_transit s) (sp_adds s).
Definition set_sp_rv (t : gmap Z positive) (s : spf) : spf :=
  Spf (sp_heap s) (sp_candidate s) t (sp_nv s) (sp_root s) (sp_transit s) (sp_adds s).
Definition set_sp_nv (t : gmap Z positive) (s : spf) : spf :=
  Spf (sp_heap s) (sp_candidate s) (sp_rv s) t (sp_root s) (sp_transit s) (sp_adds s).
Definition set_sp_transit (t : Z) (s : spf) : spf :=
  Spf (sp_heap s) (sp_candidate s) (sp_rv s) (sp_nv s) (sp_root s) t (sp_adds s).
Definition add_route (r : route_add) (s : spf) : spf :=
  Spf (sp_heap s) (sp_candidate s) (sp_rv s) (sp_nv s) (sp_root s) (sp_transit s) (sp_adds s ++ [r]).

Definition st_modify (f : spf → spf) : ST spf unit := λ s, Ok (tt, f s).

Definition vread (p : positive) : ST spf vertex := λ s,
  v ← of_option UseAfterFree (sp_heap s !! p);
  Ok (v, s).
Definition vupd (p : positive) (f : vertex → vertex) : ST spf unit :=
  v ← vread p;
  st_modify (λ s, set_sp_heap (<[p := f v]> (sp_heap s)) s).

Fixpoint st_iter {A} (f : A → ST spf unit) (l : list A) : ST spf unit :=
  match l with
  | [] => mret tt
  | x :: l => f x;; st_iter f l
  end.

(** * The links of an LSA *)

(** The fields of [struct router_lsa_link] at the offset [l]. *)
Definition link_id (d : list Z) (l : Z) : res Z := get32 d l.
Definition link_data (d : list Z) (l : Z) : res Z := get32 d (l + 4).
Definition link_type (d : list Z) (l : Z) : res Z := get_byte d (l + 8).
Definition link_tos_count (d : list Z) (l : Z) : res Z := get_byte d (l + 9).
Definition link_metric (d : list Z) (l : Z) : res Z := get16 d (l + 10).

Definition next_link (d : list Z) (l : Z) : res Z :=
  n ← link_tos_count d l;
  Ok (l + (ROUTER_LSA_MIN_SIZE + n * ROUTER_LSA_TOS_SIZE)).

(** The attached routers of a network-LSA from the place [i] on. *)
Fixpoint network_has (n : nat) (i : Z) (w : list Z) (id : Z) : res bool :=
  match n with
  | O => Ok false
  | S n =>
      r ← get32 w (24 + 4 * i);
      if r =? id then Ok true else network_has n (i + 1) w id
  end.

(** The links of a router-LSA from the place [i] on; [length] counts down. *)
Fixpoint router_has (n : nat) (i length : Z) (w v : list Z) : res bool :=
  match n with
  | O => Ok false
  | S n =>
      if length <? 36 then Ok false
      else
        let l := 24 + 12 * i in
        type ← link_type w l;
        vtype ← lsa_type v;
        lid ← link_id w l;
        vid ← lsa_id v;
        if (type =? LSA_LINK_TYPE_POINTOPOINT) || (type =? LSA_LINK_TYPE_VIRTUALLINK) then
          if (vtype =? OSPF_ROUTER_LSA) && (lid =? vid) then Ok true else router_has n (i + 1) (length - 12) w v
        else if type =? LSA_LINK_TYPE_TRANSIT then
          if (vtype =? OSPF_NETWORK_LSA) && (lid =? vid) then Ok true else router_has n (i + 1) (length - 12) w v
        else router_has n (i + 1) (length - 12) w v
  end.

Definition ospf_lsa_has_link (w v : list Z) : res bool :=
  wtype ← lsa_type w;
  if wtype =? OSPF_NETWORK_LSA then
    vtype ← lsa_type v;
    if vtype =? OSPF_NETWORK_LSA then Ok false
    else
      len ← lsa_length w;
      id ← lsa_id v;
      network_has (Z.to_nat (Z.quot (len - OSPF_LSA_HEADER_SIZE - 4) 4)) 0 w id
  else if wtype =? OSPF_ROUTER_LSA then
    len ← lsa_length w;
    links ← get16 w 22;
    router_has (Z.to_nat links) 0 len w v
  else Ok false.

Fixpoint next_link_loop (fuel : nat) (d : list Z) (p lim wid : Z) : res (option Z) :=
  if p <? lim then
    match fuel with
    | O => Fail OutOfFuel
    | S fuel =>
        let l := p in
        p ← next_link d l;
        type ← link_type d l;
        if type =? LSA_LINK_TYPE_STUB then next_link_loop fuel d p lim wid
        else if type =? LSA_LINK_TYPE_VIRTUALLINK then next_link_loop fuel d p lim wid
        else
          id ← link_id d l;
          if id =? wid then Ok (Some l) else next_link_loop fuel d p lim wid
    end
  else Ok None.

(** ospf_get_next_link, for the LSA [v] and the id of the vertex [w]. *)
Definition ospf_get_next_link (v : list Z) (wid : Z) (prev_link : option Z) : res (option Z) :=
  p ← match prev_link with
      | None => Ok 24
      | Some l => next_link v l
      end;
  lim ← lsa_length v;
  next_link_loop (Z.to_nat lim) v p lim wid.

(** * Vertices *)

Definition ospf_vertex_new (lsa : ospf_lsa) : ST spf positive :=
  type ← st_lift (lsa_type (l_data lsa));
  id ← st_lift (lsa_id (l_data lsa));
  s ← st_get;
  let p := fresh (dom (sp_heap s)) in
  st_put (set_sp_heap (<[p := Vertex 0 type id (l_data lsa) 0 [] []]> (sp_heap s)) s);;
  mret p.

Definition ospf_vertex_free (p : positive) : ST spf unit :=
  vread p;;
  st_modify (λ s, set_sp_heap (delete p (sp_heap s)) s).

Definition ospf_vertex_add_parent (v : positive) : ST spf unit :=
  vx ← vread v;
  st_iter (λ nh,
    px ← vread (nh_parent nh);
    if bool_decide (v ∈ v_child px) then mret tt
    else vupd (nh_parent nh) (set_v_child (v_child px ++ [v]))) (v_nexthop vx).

(** The vertex of the LSA is on the tree. *)
Definition ospf_spf_has_vertex (lsa : list Z) : ST spf bool :=
  id ← st_lift (lsa_id lsa);
  type ← st_lift (lsa_type lsa);
  s ← st_get;
  mret (bool_decide (is_Some ((if type =? OSPF_ROUTER_LSA then sp_rv s else sp_nv s) !! id))).

Definition ospf_spf_register (v : positive) : ST spf unit :=
  vx ← vread v;
  if v_type vx =? OSPF_VERTEX_ROUTER
  then st_modify (λ s, set_sp_rv (<[v_id vx := v]> (sp_rv s)) s)
  else st_modify (λ s, set_sp_nv (<[v_id vx := v]> (sp_nv s)) s).

Fixpoint vertex_lookup_loop (l : list positive) (id type : Z) : ST spf (option positive) :=
  match l with
  | [] => mret None
  | p :: l =>
      v ← vread p;
      if (id =? v_id v) && (type =? v_type v) then mret (Some p) else vertex_lookup_loop l id type
  end.

(** ospf_vertex_lookup in the list of candidates. *)
Definition ospf_vertex_lookup (id type : Z) : ST spf (option positive) :=
  s ← st_get;
  vertex_lookup_loop (sp_candidate s) id type.

(** The list with [w] before the first vertex that is farther away. *)
Fixpoint install_loop (w : positive) (d : Z) (l : list positive) : ST spf (list positive) :=
  match l with
  | [] => mret [w]
  | p :: l =>
      v ← vread p;
      if d <? v_distance v then mret (w :: p :: l)
      else l ← install_loop w d l; mret (p :: l)
  end.

Definition ospf_install_candidate (w : positive) : ST spf unit :=
  wx ← vread w;
  s ← st_get;
  l ← install_loop w (v_distance wx) (sp_candidate s);
  st_modify (set_sp_candidate l).

(** listnode_delete: the first node with the vertex. *)
Fixpoint without (v : positive) (l : list positive) : list positive :=
  match l with
  | [] => []
  | p :: l => if decide (p = v) then l else p :: without v l
  end.

(** * Nexthops *)

Section Area.
Context (area : spf_area) (now : timeval).

Fixpoint is_configured_loop (i : nat) (l : list spf_if) (address : Z) : res (option nat) :=
  match l with
  | [] => Ok None
  | oi :: l =>
      if bool_decide (si_type oi = IFTYPE_VIRTUALLINK) then is_configured_loop (S i) l address
      else
        addr ← (if bool_decide (si_type oi = IFTYPE_POINTOPOINT) then of_option NullDeref (si_destination oi)
                else Ok (si_address oi));
        if address =? addr then Ok (Some i) else is_configured_loop (S i) l address
  end.

Definition ospf_if_is_configured (address : Z) : res (option nat) := is_configured_loop 0 (sa_oiflist area) address.

Definition ospf_nexthop_add_unique (new : vertex_nexthop) (l : list vertex_nexthop) : list vertex_nexthop :=
  if bool_decide (new ∈ l) then l else l ++ [new].

Definition ospf_nexthop_merge (a b : list vertex_nexthop) : list vertex_nexthop :=
  foldl (λ a new, ospf_nexthop_add_unique new a) a b.

(** A link of [w] back to [v] in the network of the point-to-multipoint interface. *)
Fixpoint ptmp_back (fuel : nat) (w : list Z) (vid : Z) (oi : spf_if) (l2 : option Z) : res (option Z) :=
  match fuel with
  | O => Fail OutOfFuel
  | S fuel =>
      l2 ← ospf_get_next_link w vid l2;
      match l2 with
      | None => Ok None
      | Some l2 =>
          data ← link_data w l2;
          differ ← prefix_cmp (Prefix (sa_garbage area) (si_prefixlen oi) (be32 data))
                     (Prefix AF_INET (si_prefixlen oi) (be32 (si_address oi)));
          if (differ : bool) then ptmp_back fuel w vid oi (Some l2) else Ok (Some l2)
      end
  end.

(** A link of [w] back to [v] whose address is the other end of an interface with the
    address [data]. *)
Fixpoint ptp_back (fuel : nat) (w : list Z) (vid data : Z) (l2 : option Z) : res (option (nat * Z)) :=
  match fuel with
  | O => Fail OutOfFuel
  | S fuel =>
      l2 ← ospf_get_next_link w vid l2;
      match l2 with
      | None => Ok None
      | Some l2 =>
          data2 ← link_data w l2;
          oi ← ospf_if_is_configured data2;
          match oi with
          | None => ptp_back fuel w vid data (Some l2)
          | Some i =>
              oi ← of_option OutOfBounds (sa_oiflist area !! i);
              if si_address oi =? data then Ok (Some (i, l2)) else ptp_back fuel w vid data (Some l2)
          end
      end
  end.

(** The interface and the link back for the link [l] of the root [v] to the router [w]. *)
Definition link_back (v w : list Z) (vid l : Z) : res (option (nat * Z)) :=
  data ← link_data v l;
  oi ← ospf_if_is_configured data;
  lim ← lsa_length w;
  let fuel := S (Z.to_nat lim) in
  let ptp := ptp_back fuel w vid data None in
  match oi with
  | None => ptp
  | Some i =>
      oi ← of_option OutOfBounds (sa_oiflist area !! i);
      if bool_decide (si_type oi = IFTYPE_POINTOMULTIPOINT) then
        l2 ← ptmp_back fuel w vid oi None;
        Ok match l2 with Some l2 => Some (i, l2) | None => None end
      else ptp
  end.

(** The loops over the links of the root [v] to [w]: a router, then a network. *)
Fixpoint root_to_router (fuel : nat) (p : positive) (v w : list Z) (vid wid : Z) (l : option Z) : res (list vertex_nexthop) :=
  match fuel with
  | O => Fail OutOfFuel
  | S fuel =>
      l ← ospf_get_next_link v wid l;
      match l with
      | None => Ok []
      | Some l =>
          type ← link_type v l;
          new ← (if type =? LSA_LINK_TYPE_POINTOPOINT then
                   back ← link_back v w vid l;
                   match back with
                   | Some (i, l2) => r ← link_data w l2; Ok [Vnh i r p]
                   | None => Ok []
                   end
                 else Ok []);
          rest ← root_to_router fuel p v w vid wid (Some l);
          Ok (new ++ rest)
      end
  end.

Fixpoint root_to_network (fuel : nat) (p : positive) (v : list Z) (wid : Z) (l : option Z) : res (list vertex_nexthop) :=
  match fuel with
  | O => Fail OutOfFuel
  | S fuel =>
      l ← ospf_get_next_link v wid l;
      match l with
      | None => Ok []
      | Some l =>
          data ← link_data v l;
          oi ← ospf_if_is_configured data;
          rest ← root_to_network fuel p v wid (Some l);
          Ok (match oi with Some i => [Vnh i 0 p] | None => [] end ++ rest)
      end
  end.

(** The loop over the links of [w] back to a network that is connected to the root. *)
Fixpoint network_to_router (fuel : nat) (p : positive) (oi : nat) (w : list Z) (vid : Z) (l : option Z) : res (list vertex_nexthop) :=
  match fuel with
  | O => Fail OutOfFuel
  | S fuel =>
      l ← ospf_get_next_link w vid l;
      match l with
      | None => Ok []
      | Some l =>
          data ← link_data w l;
          rest ← network_to_router fuel p oi w vid (Some l);
          Ok (Vnh oi data p :: rest)
      end
  end.

(** The nexthops for [w] behind [v]; [v] is at [p], [root] is the root of the tree. *)
Definition nexthops_via (root p : positive) (v w : vertex) : res (list vertex_nexthop) :=
  vlim ← lsa_length (v_lsa v);
  wlim ← lsa_length (v_lsa w);
  let inherit := Ok (foldl (λ a nh, ospf_nexthop_add_unique (Vnh (nh_oi nh) (nh_router nh) p) a) (v_nexthop w) (v_nexthop v)) in
  if bool_decide (p = root) then
    new ← (if v_type w =? OSPF_VERTEX_ROUTER
           then root_to_router (S (Z.to_nat vlim)) p (v_lsa v) (v_lsa w) (v_id v) (v_id w) None
           else root_to_network (S (Z.to_nat vlim)) p (v_lsa v) (v_id w) None);
    Ok (v_nexthop w ++ new)
  else if v_type v =? OSPF_VERTEX_NETWORK then
    match list_find (λ x, nh_parent x = root) (v_nexthop v) with
    | Some (_, x) =>
        new ← network_to_router (S (Z.to_nat wlim)) p (nh_oi x) (v_lsa w) (v_id v) None;
        Ok (v_nexthop w ++ new)
    | None => inherit
    end
  else inherit.

Definition ospf_nexthop_calculation (v w : positive) : ST spf unit :=
  vx ← vread v;
  wx ← vread w;
  s ← st_get;
  l ← st_lift (nexthops_via (sp_root s) v vx wx);
  vupd w (set_v_nexthop l).

(** * The calculation *)

Fixpoint network_by_id (l : list ospf_lsa) (id : Z) : res (option ospf_lsa) :=
  match l with
  | [] => Ok None
  | lsa :: l =>
      i ← lsa_id (l_data lsa);
      if i =? id then Ok (Some lsa) else network_by_id l id
  end.

(** ospf_lsa_lookup and ospf_lsa_lookup_by_id, for the types the calculation asks for. *)
Definition router_lookup (id adv_router : Z) : option ospf_lsa := sa_routers area !! (id, adv_router).

(** The LSA that the link of [v] at [p] leads to, and the next link. *)
Definition link_target (v : list Z) (p : Z) : res (Z * option ospf_lsa) :=
  vtype ← lsa_type v;
  if vtype =? OSPF_ROUTER_LSA then
    next ← next_link v p;
    type ← link_type v p;
    if type =? LSA_LINK_TYPE_STUB then Ok (next, None)
    else if (type =? LSA_LINK_TYPE_POINTOPOINT) || (type =? LSA_LINK_TYPE_VIRTUALLINK) then
      id ← link_id v p;
      Ok (next, router_lookup id id)
    else if type =? LSA_LINK_TYPE_TRANSIT then
      id ← link_id v p;
      w ← network_by_id (sa_networks area) id;
      Ok (next, w)
    else Ok (next, None)
  else
    r ← get32 v p;
    Ok (p + 4, router_lookup r r).

(** The distance of a vertex behind the link of [v] at [l]. *)
Definition link_distance (v : vertex) (l : Z) : res Z :=
  vtype ← lsa_type (v_lsa v);
  if vtype =? OSPF_ROUTER_LSA then
    m ← link_metric (v_lsa v) l;
    Ok (u32 (v_distance v + m))
  else Ok (v_distance v).

(** Steps (b), (c) and (d) for the LSA [w_lsa] behind the link of [v] at [l]. *)
Definition spf_consider (v : positive) (l : Z) (w_lsa : ospf_lsa) : ST spf unit :=
  vx ← vread v;
  maxage ← st_lift (IS_LSA_MAXAGE now w_lsa);
  if (maxage : bool) then mret tt
  else
    back ← st_lift (ospf_lsa_has_link (l_data w_lsa) (v_lsa vx));
    if negb back then mret tt
    else
      has ← ospf_spf_has_vertex (l_data w_lsa);
      if (has : bool) then mret tt
      else
        w ← ospf_vertex_new w_lsa;
        d ← st_lift (link_distance vx l);
        vupd w (set_v_distance d);;
        wx ← vread w;
        node ← ospf_vertex_lookup (v_id wx) (v_type wx);
        match node with
        | None =>
            ospf_nexthop_calculation v w;;
            ospf_install_candidate w
        | Some cw =>
            cx ← vread cw;
            if v_distance cx <? v_distance wx then ospf_vertex_free w
            else if v_distance cx =? v_distance wx then
              ospf_nexthop_calculation v w;;
              wx ← vread w;
              vupd cw (λ c, set_v_nexthop (ospf_nexthop_merge (v_nexthop c) (v_nexthop wx)) c);;
              ospf_vertex_free w
            else
              ospf_nexthop_calculation v w;;
              ospf_vertex_free cw;;
              st_modify (λ s, set_sp_candidate (without cw (sp_candidate s)) s);;
              ospf_install_candidate w
        end.

Fixpoint spf_next_loop (fuel : nat) (v : positive) (p lim : Z) : ST spf unit :=
  if p <? lim then
    match fuel with
    | O => st_lift (Fail OutOfFuel)
    | S fuel =>
        vx ← vread v;
        t ← st_lift (link_target (v_lsa vx) p);
        match t.2 with
        | None => mret tt
        | Some w_lsa => spf_consider v p w_lsa
        end;;
        spf_next_loop fuel v t.1 lim
    end
  else mret tt.

Definition ospf_spf_next (v : positive) : ST spf unit :=
  vx ← vread v;
  (if v_type vx =? OSPF_VERTEX_ROUTER then
     flags ← st_lift (get_byte (v_lsa vx) 20);
     if CHECK_FLAG flags ROUTER_LSA_VIRTUAL then st_modify (set_sp_transit OSPF_TRANSIT_TRUE) else mret tt
   else mret tt);;
  lim ← st_lift (lsa_length (v_lsa vx));
  spf_next_loop (Z.to_nat lim) v (OSPF_LSA_HEADER_SIZE + 4) lim.

(** The loop of ospf_spf_calculate. *)
Fixpoint spf_loop (fuel : nat) (v : positive) : ST spf unit :=
  match fuel with
  | O => st_lift (Fail OutOfFuel)
  | S fuel =>
      ospf_spf_next v;;
      s ← st_get;
      match sp_candidate s with
      | [] => mret tt
      | v :: _ =>
          ospf_vertex_add_parent v;;
          st_modify (λ s, set_sp_candidate (without v (sp_candidate s)) s);;
          ospf_spf_register v;;
          vx ← vread v;
          st_modify (add_route (if v_type vx =? OSPF_VERTEX_ROUTER then ospf_intra_add_router vx else ospf_intra_add_transit vx));;
          spf_loop fuel v
      end
  end.

Fixpoint stub_loop (fuel : nat) (v : vertex) (p lim : Z) : ST spf unit :=
  if p <? lim then
    match fuel with
    | O => st_lift (Fail OutOfFuel)
    | S fuel =>
        let l := p in
        p ← st_lift (next_link (v_lsa v) l);
        type ← st_lift (link_type (v_lsa v) l);
        (if type =? LSA_LINK_TYPE_STUB then st_modify (add_route (ospf_intra_add_stub l v)) else mret tt);;
        stub_loop fuel v p lim
    end
  else mret tt.

(** The second stage: the stub networks of the routers on the tree. *)
Fixpoint ospf_spf_process_stubs (fuel : nat) (v : positive) : ST spf unit :=
  match fuel with
  | O => st_lift (Fail OutOfFuel)
  | S fuel =>
      vx ← vread v;
      (if v_type vx =? OSPF_VERTEX_ROUTER then
         lim ← st_lift (lsa_length (v_lsa vx));
         stub_loop (Z.to_nat lim) vx 24 lim
       else mret tt);;
      st_iter (λ child,
        cx ← vread child;
        if CHECK_FLAG (v_flags cx) OSPF_VERTEX_PROCESSED then mret tt
        else
          ospf_spf_process_stubs fuel child;;
          vupd child (λ c, set_v_flags (SET_FLAG (v_flags c) OSPF_VERTEX_PROCESSED) c)) (v_child vx)
  end.

(** ospf_spf_route_free *)
Definition ospf_spf_route_free (table : gmap Z positive) : ST spf unit :=
  st_iter (λ e : Z * positive, ospf_vertex_free e.2) (map_to_list table).

(** The number of LSAs bounds the number of vertices. *)
Definition spf_fuel : nat := S (size (sa_routers area) + length (sa_networks area)).

(** The state before the loop: the root is on the tree. *)
Definition ospf_spf_init (lsa : ospf_lsa) : ST spf unit :=
  v ← ospf_vertex_new lsa;
  st_modify (λ s, Spf (sp_heap s) (sp_candidate s) (sp_rv s) (sp_nv s) v (sp_transit s) (sp_adds s));;
  ospf_spf_register v;;
  st_modify (set_sp_transit OSPF_TRANSIT_FALSE).

(** The first stage. *)
Definition spf_tree (lsa : ospf_lsa) : ST spf unit :=
  ospf_spf_init lsa;;
  s ← st_get;
  spf_loop spf_fuel (sp_root s).

Definition spf_start : spf := Spf ∅ [] ∅ ∅ 1 OSPF_TRANSIT_FALSE [].

(** ospf_spf_calculate, from the structures it allocates. *)
Definition ospf_spf_calculate : ST spf unit :=
  match sa_router_lsa_self area with
  | None => mret tt
  | Some lsa =>
      spf_tree lsa;;
      s ← st_get;
      ospf_spf_process_stubs (S spf_fuel) (sp_root s);;
      ospf_spf_route_free (sp_rv s);;
      ospf_spf_route_free (sp_nv s)
  end.

End Area.

(** * The timer of the calculation *)

(** What ospf_spf_calculate_schedule reads and sets; [os_timer] is when [t_spf_calc]
    runs out. *)
Record ospf_sched := OspfSched {
  os_ts_spf : Z;
  os_delay : Z;
  os_holdtime : Z;
  os_timer : option Z;
}.

Definition ospf_spf_calculate_schedule (now : Z) (o : ospf_sched) : ospf_sched :=
  match os_timer o with
  | Some _ => o
  | None =>
      let ht := now - os_ts_spf o in
      let delay :=
        if ht <? os_holdtime o then
          if os_holdtime o - ht <? os_delay o then os_delay o else os_holdtime o - ht
        else os_delay o in
      OspfSched (os_ts_spf o) (os_delay o) (os_holdtime o) (Some (now + delay))
  end.

(** ospf_spf_calculate_timer, for the times it sets: [ts] is the time an area has been
    calculated at, if one has. *)
Definition ospf_spf_calculate_timer (ts : option Z) (o : ospf_sched) : ospf_sched :=
  OspfSched (default (os_ts_spf o) ts) (os_delay o) (os_holdtime o) None.
