(* ===== verification/OspfSpfGraph.v ===== *)
(** The graph of an area and the algorithm of Dijkstra on it.

    The router-LSAs and network-LSAs of an area are a graph with weighted edges.  The
    algorithm is stated on finite maps: the distances of the vertices on the tree, and
    those of the candidates.  It computes the shortest distances, whatever candidate of
    the least distance is taken. *)

From S2P Require Import Prelude Prefix Stream OspfLsa OspfIf OspfSpf.

(** * What an LSA says *)

Record rlink := Rlink { rl_id : Z; rl_data : Z; rl_type : Z; rl_metric : Z }.

Inductive lsa_body :=
  | RouterBody (flags : Z) (links : list rlink)
  | NetworkBody (routers : list Z).

(** Links without metrics for types of service. *)
Definition dec_link (d : list Z) (l : Z) : res rlink :=
  id ← link_id d l;
  data ← link_data d l;
  type ← link_type d l;
  tos ← link_tos_count d l;
  metric ← link_metric d l;
  if tos =? 0 then Ok (Rlink id data type metric) else Fail AssertFailed.

Fixpoint dec_links (n : nat) (l : Z) (d : list Z) : res (list rlink) :=
  match n with
  | O => Ok []
  | S n => x ← dec_link d l; xs ← dec_links n (l + 12) d; Ok (x :: xs)
  end.

Fixpoint dec_routers (n : nat) (l : Z) (d : list Z) : res (list Z) :=
  match n with
  | O => Ok []
  | S n => x ← get32 d l; xs ← dec_routers n (l + 4) d; Ok (x :: xs)
  end.

(** The body of an LSA whose length is right. *)
Definition decode (d : list Z) : res lsa_body :=
  type ← lsa_type d;
  len ← lsa_length d;
  _ ← c_assert ((len =? Z.of_nat (length d)) && (24 <=? len));
  if type =? OSPF_ROUTER_LSA then
    flags ← get_byte d 20;
    n ← get16 d 22;
    _ ← c_assert (len =? 24 + 12 * n);
    ls ← dec_links (Z.to_nat n) 24 d;
    Ok (RouterBody flags ls)
  else
    _ ← c_assert (type =? OSPF_NETWORK_LSA);
    _ ← c_assert ((len - 24) mod 4 =? 0);
    rs ← dec_routers (Z.to_nat ((len - 24) / 4)) 24 d;
    Ok (NetworkBody rs).

(** A vertex is a router or a network with its id. *)
Abbreviation key := (Z * Z)%type.

(** The vertex a link leads to, and its cost. *)
Definition link_edge (l : rlink) : option (key * Z) :=
  if (rl_type l =? LSA_LINK_TYPE_POINTOPOINT) || (rl_type l =? LSA_LINK_TYPE_VIRTUALLINK)
  then Some ((OSPF_ROUTER_LSA, rl_id l), rl_metric l)
  else if rl_type l =? LSA_LINK_TYPE_TRANSIT then Some ((OSPF_NETWORK_LSA, rl_id l), rl_metric l)
  else None.

Definition raw_links (b : lsa_body) : list (option (key * Z)) :=
  match b with
  | RouterBody _ ls => link_edge <$> ls
  | NetworkBody rs => (λ r, Some ((OSPF_ROUTER_LSA, r), 0)) <$> rs
  end.

Definition links_to (b : lsa_body) : list (key * Z) := omap id (raw_links b).

Definition points_at (b : lsa_body) (k : key) : bool := bool_decide (k ∈ (links_to b).*1).

(** * The graph *)

Section Graph.
Context (area : spf_area) (now : timeval) (self : ospf_lsa).

Definition root_key : key :=
  (OSPF_ROUTER_LSA, match lsa_id (l_data self) with Ok id => id | Fail _ => 0 end).

(** The LSA of a vertex in the database. *)
Definition db_lsa (k : key) : option ospf_lsa :=
  if k.1 =? OSPF_ROUTER_LSA then router_lookup area k.2 k.2
  else if k.1 =? OSPF_NETWORK_LSA then
    match network_by_id (sa_networks area) k.2 with Ok o => o | Fail _ => None end
  else None.

Definition live (lsa : ospf_lsa) : bool := match IS_LSA_MAXAGE now lsa with Ok m => negb m | Fail _ => false end.

(** The octets of a vertex: the root has its own LSA, the others have one in the database
    that is not too old. *)
Definition vertex_lsa (k : key) : option (list Z) :=
  if decide (k = root_key) then Some (l_data self)
  else match db_lsa k with
       | Some lsa => if live lsa then Some (l_data lsa) else None
       | None => None
       end.

Definition body (k : key) : option lsa_body :=
  match vertex_lsa k with
  | Some d => match decode d with Ok b => Some b | Fail _ => None end
  | None => None
  end.

Definition links_of (k : key) : list (key * Z) := match body k with Some b => links_to b | None => [] end.

(** [y] has a link back to [x]. *)
Definition links_back (x y : key) : bool := match body y with Some b => points_at b x | None => false end.

Definition edge (x y : key) (c : Z) : Prop := (y, c) ∈ links_of x ∧ links_back x y = true.

(** A way from the root of the given length. *)
Inductive way : key → Z → Prop :=
  | way_root : way root_key 0
  | way_edge x y d c : way x d → edge x y c → way y (d + c).

Definition shortest (y : key) (d : Z) : Prop := way y d ∧ ∀ d', way y d' → d ≤ d'.

(** * First hops *)

(** The links of a router-LSA to the vertex with the id [id]. *)
Definition body_links (b : lsa_body) : list rlink := match b with RouterBody _ ls => ls | NetworkBody _ => [] end.
Definition links_id (ls : list rlink) (id : Z) (l : rlink) : Prop :=
  l ∈ ls ∧ rl_id l = id ∧ rl_type l ≠ LSA_LINK_TYPE_STUB ∧ rl_type l ≠ LSA_LINK_TYPE_VIRTUALLINK.
Definition link_to (k : key) (id : Z) (l : rlink) : Prop := ∃ b, body k = Some b ∧ links_id (body_links b) id l.

(** The address that an interface is known by in the links of the root. *)
Definition if_known (oi : spf_if) : option Z :=
  if decide (si_type oi = IFTYPE_POINTOPOINT) then si_destination oi else Some (si_address oi).

(** [(i, a)] is a first hop on a way of the length [d] from the root to a vertex: the
    interface of the number [i] and the address [a] of the next router, 0 for a network
    the root is on.  The flag tells whether the vertex is a neighbor of the root.
    - A router with a point-to-point link of the root: the interface has the address that
      the link of the root gives, the next router the one that a link back to the root gives.
    - A network of the root: the interface is the one of the link of the root.
    - A router on a network of the root: the interface is that of the network, the
      address the one that the router gives for the network.
    - Any other vertex has the first hops of the vertices before it. *)
Inductive hop : bool → key → Z → nat * Z → Prop :=
  | hop_router i k c l l2 oi :
      k.1 = OSPF_ROUTER_LSA → edge root_key k c →
      link_to root_key k.2 l → rl_type l = LSA_LINK_TYPE_POINTOPOINT → link_to k root_key.2 l2 →
      sa_oiflist area !! i = Some oi → si_address oi = rl_data l → hop true k c (i, rl_data l2)
  | hop_network i k c l oi :
      k.1 ≠ OSPF_ROUTER_LSA → edge root_key k c → link_to root_key k.2 l →
      sa_oiflist area !! i = Some oi → if_known oi = Some (rl_data l) → hop true k c (i, 0)
  | hop_attached n k d c i a l :
      hop true n d (i, a) → n.1 = OSPF_NETWORK_LSA → edge n k c → link_to k n.2 l → hop false k (d + c) (i, rl_data l)
  | hop_inherit b j k d c h :
      hop b j d h → (j.1 = OSPF_NETWORK_LSA → b = false) → edge j k c → hop false k (d + c) h.

(** The length of a first hop is that of a way. *)
Lemma hop_way b k d h : hop b k d h → way k d.
Proof.
  induction 1 as [i k c l l2 oi _ He| i k c l oi _ He| |]; [| |by eapply way_edge..];
    rewrite <- (Z.add_0_l c); (eapply way_edge; [constructor|done]).
Qed.

(** * The algorithm *)

Abbreviation dists := (gmap key Z).

Definition relax (S : dists) (x : key) (dx : Z) (C : dists) (l : key * Z) : dists :=
  let '(y, c) := l in
  if bool_decide (S !! y = None) && links_back x y
  then <[y := match C !! y with Some d => Z.min d (dx + c) | None => dx + c end]> C
  else C.

Definition relax_all (S : dists) (x : key) (dx : Z) (ls : list (key * Z)) (C : dists) : dists :=
  foldl (relax S x dx) C ls.

(** The candidate [k] of the least distance goes to the tree. *)
Inductive dstep : dists * dists → dists * dists → Prop :=
  | dstep_take S C k d :
      C !! k = Some d → (∀ k' d', C !! k' = Some d' → d ≤ d') →
      dstep (S, C) (<[k := d]> S, relax_all (<[k := d]> S) k d (links_of k) (delete k C)).

Definition dstart : dists * dists :=
  ({[root_key := 0]}, relax_all {[root_key := 0]} root_key 0 (links_of root_key) ∅).

(** * The invariant *)

Record dinv (S C : dists) : Prop := Dinv {
  di_root : S !! root_key = Some 0;
  di_tree : ∀ x d, S !! x = Some d → way x d;
  di_cand : ∀ x d, C !! x = Some d → way x d ∧ S !! x = None;
  di_order : ∀ x y dx dy, S !! x = Some dx → C !! y = Some dy → dx ≤ dy;
  di_cover : ∀ x dx y c, S !! x = Some dx → edge x y c →
    ∃ dy, (S !! y = Some dy ∨ C !! y = Some dy) ∧ dy ≤ dx + c;
}.

(** Metrics are not negative and have 16 bits. *)
Definition metrics_ok : Prop := ∀ x y c, (y, c) ∈ links_of x → 0 ≤ c ≤ 65535.

(** What relaxing the links [ls] of [x] does to the candidates. *)
Lemma relax_all_spec S x dx ls C y :
  relax_all S x dx ls C !! y =
    if bool_decide (S !! y = None) && links_back x y then
      foldl (λ o (l : key * Z), if decide (l.1 = y) then Some (match o with Some d => Z.min d (dx + l.2) | None => dx + l.2 end) else o) (C !! y) ls
    else C !! y.
Proof.
  revert C. induction ls as [|[y' c] ls IH]; intros C; [by case_match|]. cbn [relax_all foldl] in *.
  unfold relax_all in IH. rewrite IH. unfold relax. cbn [fst snd].
  destruct (decide (y' = y)) as [->|Hne].
  - destruct (bool_decide (S !! y = None) && links_back x y) eqn:E; [|done]. by rewrite lookup_insert_eq.
  - destruct (bool_decide (S !! y' = None) && links_back x y'); [|done]. by rewrite lookup_insert_ne.
Qed.

(** The least of the old distance and the ones over the links. *)
Lemma least_spec dx y ls o :
  let f := (λ o (l : key * Z), if decide (l.1 = y) then Some (match o with Some d => Z.min d (dx + l.2) | None => dx + l.2 end) else o) in
  (∀ d, foldl f o ls = Some d → o = Some d ∨ ∃ c, (y, c) ∈ ls ∧ d = dx + c) ∧
  (∀ d, o = Some d → ∃ d', foldl f o ls = Some d' ∧ d' ≤ d) ∧
  (∀ c, (y, c) ∈ ls → ∃ d', foldl f o ls = Some d' ∧ d' ≤ dx + c).
Proof.
  intros f. revert o. induction ls as [|[y' c'] ls IH]; intros o; cbn [foldl].
  { split_and!; [by left| |by intros c ?%elem_of_nil]. intros d ->. exists d. split; [done|lia]. }
  destruct (IH (f o (y', c'))) as (H1 & H2 & H3).
  assert (Hf : f o (y', c') = if decide (y' = y) then Some (match o with Some d => Z.min d (dx + c') | None => dx + c' end) else o)
    by done. rewrite Hf in *. clear Hf.
  destruct (decide (y' = y)) as [->|Hne]; split_and!.
  - intros d Hd. destruct (H1 d Hd) as [E|(c & Hc & ->)]; [|right; exists c; split; [by right|done]].
    destruct o as [o|]; injection E as <-; [|right; exists c'; split; [left|done]].
    destruct (Z.min_spec o (dx + c')) as [[_ ->]|[_ ->]]; [by left|right; exists c'; split; [left|done]].
  - intros d ->. destruct (H2 _ eq_refl) as (d' & Hd' & Hle). exists d'. split; [done|lia].
  - intros c [[= ->]|Hc]%elem_of_cons; [|by apply H3].
    destruct o as [o|]; destruct (H2 _ eq_refl) as (d' & Hd' & Hle); exists d'; (split; [done|lia]).
  - intros d Hd. destruct (H1 d Hd) as [E|(c & Hc & ->)]; [by left|right; exists c; split; [by right|done]].
  - intros d ->. by apply H2.
  - intros c [[= -> ->]|Hc]%elem_of_cons; [done|by apply H3].
Qed.

(** Once the links of [k], the last vertex of the tree, are relaxed, all are covered. *)
Lemma dinv_expand S C k d :
  metrics_ok → S !! root_key = Some 0 → S !! k = Some d →
  (∀ x dx, S !! x = Some dx → way x dx ∧ dx ≤ d) →
  (∀ x dx, C !! x = Some dx → way x dx ∧ S !! x = None ∧ d ≤ dx) →
  (∀ x dx y c, S !! x = Some dx → x ≠ k → edge x y c → ∃ dy, (S !! y = Some dy ∨ C !! y = Some dy) ∧ dy ≤ dx + c) →
  dinv S (relax_all S k d (links_of k) C).
Proof.
  intros Hm Hroot Hk HS HC Hcov.
  assert (Hnew : ∀ y dy, relax_all S k d (links_of k) C !! y = Some dy → way y dy ∧ S !! y = None ∧ d ≤ dy).
  { intros y dy. rewrite relax_all_spec. destruct (bool_decide (S !! y = None) && links_back k y) eqn:E; [|apply HC].
    apply andb_true_iff in E as [E1%bool_decide_eq_true E2]. intros Hd.
    destruct (least_spec d y (links_of k) (C !! y)) as (H1 & _ & _). cbv zeta in H1.
    destruct (H1 dy Hd) as [Ho|(c & Hc & ->)]; [by apply HC|].
    split_and!; [|done|specialize (Hm _ _ _ Hc); lia]. apply (way_edge k); [by apply (HS k d)|done]. }
  assert (Hold : ∀ y dy, C !! y = Some dy → ∃ dy', relax_all S k d (links_of k) C !! y = Some dy' ∧ dy' ≤ dy).
  { intros y dy Hy. rewrite relax_all_spec. case_match; [|by exists dy].
    destruct (least_spec d y (links_of k) (C !! y)) as (_ & H2 & _). by apply H2. }
  split; [done|intros x dx Hx; by apply (HS x dx)| | |].
  - intros x dx Hx. destruct (Hnew x dx Hx) as (? & ? & _). done.
  - intros x y dx dy Hx Hy. destruct (HS x dx Hx) as [_ ?]. destruct (Hnew y dy Hy) as (_ & _ & ?). lia.
  - intros x dx y c Hx He. destruct (decide (x = k)) as [->|Hne].
    + rewrite Hk in Hx. injection Hx as <-. destruct (S !! y) as [dy|] eqn:Ey.
      { exists dy. split; [by left|]. destruct (HS y dy Ey) as [_ ?]. destruct He as [Hl _]. specialize (Hm _ _ _ Hl). lia. }
      destruct He as [Hl Hb]. destruct (least_spec d y (links_of k) (C !! y)) as (_ & _ & H3).
      destruct (H3 c Hl) as (dy & Hdy & Hle). exists dy. split; [right|done].
      by rewrite relax_all_spec, bool_decide_true, Hb.
    + destruct (Hcov x dx y c Hx Hne He) as (dy & [Hy|Hy] & Hle); [exists dy; split; [by left|done]|].
      destruct (Hold y dy Hy) as (dy' & Hy' & Hle'). exists dy'. split; [by right|lia].
Qed.

Lemma dstart_inv : metrics_ok → dinv dstart.1 dstart.2.
Proof.
  intros Hm. apply (dinv_expand {[root_key := 0]}); [done|by rewrite lookup_singleton_eq..| | |].
  - intros x dx [<- <-]%lookup_singleton_Some. split; [constructor|lia].
  - intros x dx Hx. by rewrite lookup_empty in Hx.
  - intros x dx y c [<- <-]%lookup_singleton_Some Hne. done.
Qed.

Lemma dstep_inv S C S' C' : metrics_ok → dinv S C → dstep (S, C) (S', C') → dinv S' C'.
Proof.
  intros Hm [Hr Ht Hc Ho Hcov] Hs. inversion Hs as [S0 C0 k d Hk Hmin]; subst.
  destruct (Hc k d Hk) as [Hw Hnone].
  apply dinv_expand; [done| |by rewrite lookup_insert_eq| | |].
  - rewrite lookup_insert_ne; [done|]. intros ->. congruence.
  - intros x dx [[<- <-]|[Hne Hx]]%lookup_insert_Some; [split; [done|lia]|]. split; [by apply Ht|by apply (Ho x k)].
  - intros x dx [Hne Hx]%lookup_delete_Some. destruct (Hc x dx Hx) as [? ?]. split_and!; [done| |by apply (Hmin x)].
    by rewrite lookup_insert_ne.
  - intros x dx y c [[<- <-]|[Hne Hx]]%lookup_insert_Some Hxk He; [done|].
    destruct (Hcov x dx y c Hx He) as (dy & [Hy|Hy] & Hle).
    + exists dy. split; [left|done]. rewrite lookup_insert_ne; [done|]. intros ->. congruence.
    + exists dy. split; [|done]. destruct (decide (y = k)) as [->|Hyk].
      * left. rewrite Hk in Hy. injection Hy as <-. by rewrite lookup_insert_eq.
      * right. by rewrite lookup_delete_ne.
Qed.

(** When no candidate is left, the tree has the shortest distance of every vertex that
    can be reached. *)
Lemma dinv_final S : metrics_ok → dinv S ∅ → ∀ y d, S !! y = Some d ↔ shortest y d.
Proof.
  intros Hm [Hr Ht _ _ Hcov].
  assert (Hall : ∀ y d, way y d → ∃ d', S !! y = Some d' ∧ d' ≤ d).
  { induction 1 as [|x y d c Hw (dx & Hx & Hle) He]; [exists 0; split; [done|lia]|].
    destruct (Hcov x dx y c Hx He) as (dy & [Hy|Hy] & Hle'); [|by rewrite lookup_empty in Hy].
    exists dy. split; [done|lia]. }
  intros y d. split.
  - intros Hy. split; [by apply Ht|]. intros d' Hw. destruct (Hall y d' Hw) as (d'' & Hy' & Hle). congruence.
  - intros [Hw Hleast]. destruct (Hall y d Hw) as (d' & Hy & Hle). rewrite Hy. f_equal.
    specialize (Hleast d' (Ht y d' Hy)). lia.
Qed.

(** Distances stay below 2^32: every vertex of the tree adds one metric at most. *)
Record dbound (S C : dists) : Prop := Dbound {
  db_tree : ∀ x d, S !! x = Some d → 0 ≤ d ≤ 65535 * (Z.of_nat (size S) - 1);
  db_cand : ∀ x d, C !! x = Some d → 0 ≤ d ≤ 65535 * Z.of_nat (size S);
}.

Lemma dbound_expand S C k d :
  metrics_ok → S !! k = Some d → dbound S C → dbound S (relax_all S k d (links_of k) C).
Proof.
  intros Hm Hk [HS HC]. split; [done|]. intros y dy. rewrite relax_all_spec.
  case_match; [|apply HC]. intros Hd. destruct (least_spec d y (links_of k) (C !! y)) as (H1 & _ & _).
  destruct (H1 dy Hd) as [Ho|(c & Hc & ->)]; [by apply (HC y)|]. specialize (Hm _ _ _ Hc). specialize (HS k d Hk). lia.
Qed.

Lemma dstart_bound : metrics_ok → dbound dstart.1 dstart.2.
Proof.
  intros Hm. apply dbound_expand; [done|by rewrite lookup_singleton_eq|]. split.
  - intros x d [<- <-]%lookup_singleton_Some. rewrite map_size_singleton. lia.
  - intros x d Hx. by rewrite lookup_empty in Hx.
Qed.

Lemma dstep_bound S C S' C' : metrics_ok → dinv S C → dbound S C → dstep (S, C) (S', C') → dbound S' C'.
Proof.
  intros Hm [_ _ Hc _ _] [HS HC] Hs. inversion Hs as [S0 C0 k d Hk Hmin]; subst.
  destruct (Hc k d Hk) as [_ Hnone]. assert (size (<[k := d]> S) = Datatypes.S (size S)) as Hsz by (by apply map_size_insert_None).
  apply dbound_expand; [done|by rewrite lookup_insert_eq|]. split; rewrite Hsz.
  - intros x dx [[<- <-]|[Hne Hx]]%lookup_insert_Some; [specialize (HC k d Hk); lia|specialize (HS x dx Hx); lia].
  - intros x dx [Hne Hx]%lookup_delete_Some. specialize (HC x dx Hx). lia.
Qed.

End Graph.
