(* ===== verification/OspfSpfRead.v ===== *)
(** Reading LSAs: the loops of ospfd/ospf_spf.c over the octets of well-formed LSAs see
    the links that [decode] finds, and none of them leaves an LSA or runs for ever. *)

From S2P Require Import Prelude Prefix Stream StreamCalc OspfLsa OspfIf OspfSpf OspfSpfGraph.

(** * Decoded LSAs *)

Ltac res_inv H :=
  repeat match type of H with
  | (_ ≫= _) = Ok _ => let a := fresh "x" in let E := fresh "E" in apply res_bind_Ok in H as (a & E & H); cbv beta in H
  end.

Lemma c_assert_Ok b u : c_assert b = Ok u → b = true.
Proof. by destruct b. Qed.

Record link_at (d : list Z) (l : Z) (x : rlink) : Prop := LinkAt {
  la_id : link_id d l = Ok (rl_id x);
  la_data : link_data d l = Ok (rl_data x);
  la_type : link_type d l = Ok (rl_type x);
  la_metric : link_metric d l = Ok (rl_metric x);
  la_next : next_link d l = Ok (l + 12);
}.

Lemma dec_link_at d l x : dec_link d l = Ok x → link_at d l x.
Proof.
  unfold dec_link. intros H. res_inv H. destruct (Z.eqb_spec x3 0) as [->|]; [|done]. injection H as <-.
  split; cbn; try done. unfold next_link. rewrite E2. done.
Qed.

Lemma dec_links_at n l d ls :
  dec_links n l d = Ok ls → length ls = n ∧ ∀ i x, ls !! i = Some x → link_at d (l + 12 * Z.of_nat i) x.
Proof.
  revert l ls. induction n as [|n IH]; intros l ls H; cbn in H; [injection H as <-; split; [done|]; by intros i x ?|].
  res_inv H. injection H as <-. destruct (IH _ _ E0) as [Hl Hx]. split; [cbn; lia|].
  intros [|i] y Hy; cbn in Hy.
  - injection Hy as <-. replace (l + 12 * Z.of_nat 0) with l by lia. by apply dec_link_at.
  - replace (l + 12 * Z.of_nat (S i)) with (l + 12 + 12 * Z.of_nat i) by lia. by apply Hx.
Qed.

Lemma dec_routers_at n l d rs :
  dec_routers n l d = Ok rs → length rs = n ∧ ∀ i x, rs !! i = Some x → get32 d (l + 4 * Z.of_nat i) = Ok x.
Proof.
  revert l rs. induction n as [|n IH]; intros l rs H; cbn in H; [injection H as <-; split; [done|]; by intros i x ?|].
  res_inv H. injection H as <-. destruct (IH _ _ E0) as [Hl Hx]. split; [cbn; lia|].
  intros [|i] y Hy; cbn in Hy.
  - injection Hy as <-. by replace (l + 4 * Z.of_nat 0) with l by lia.
  - replace (l + 4 * Z.of_nat (S i)) with (l + 4 + 4 * Z.of_nat i) by lia. by apply Hx.
Qed.

Record router_lsa (d : list Z) (flags : Z) (ls : list rlink) : Prop := RouterLsa {
  ro_type : lsa_type d = Ok OSPF_ROUTER_LSA;
  ro_length : lsa_length d = Ok (24 + 12 * Z.of_nat (length ls));
  ro_flags : get_byte d 20 = Ok flags;
  ro_links : get16 d 22 = Ok (Z.of_nat (length ls));
  ro_at : ∀ i x, ls !! i = Some x → link_at d (24 + 12 * Z.of_nat i) x;
}.

Record network_lsa (d : list Z) (rs : list Z) : Prop := NetworkLsa {
  ne_type : lsa_type d = Ok OSPF_NETWORK_LSA;
  ne_length : lsa_length d = Ok (24 + 4 * Z.of_nat (length rs));
  ne_at : ∀ i x, rs !! i = Some x → get32 d (24 + 4 * Z.of_nat i) = Ok x;
}.

Lemma decode_inv d b :
  decode d = Ok b →
  lsa_length d = Ok (Z.of_nat (length d)) ∧ 24 ≤ Z.of_nat (length d) ∧
  match b with RouterBody flags ls => router_lsa d flags ls | NetworkBody rs => network_lsa d rs end.
Proof.
  unfold decode. intros H. res_inv H. apply c_assert_Ok, andb_true_iff in E1 as [->%Z.eqb_eq H24%Z.leb_le].
  destruct (Z.eqb_spec x OSPF_ROUTER_LSA) as [->|Hne]; res_inv H; injection H as <-.
  - apply c_assert_Ok, Z.eqb_eq in E3. destruct (dec_links_at _ _ _ _ E4) as [Hl Hx].
    split_and!; [done|lia|]. split; [done|rewrite E0; f_equal; lia|done|rewrite E2; f_equal; lia|done].
  - apply c_assert_Ok, Z.eqb_eq in E1, E2. subst x. destruct (dec_routers_at _ _ _ _ E3) as [Hl Hx].
    split_and!; [done|lia|]. split; [done| |done]. rewrite E0. f_equal. dm_lia.
Qed.

(** ** Links back *)

Lemma router_has_spec n i L w f ls v vt vid :
  router_lsa w f ls → (i + n = length ls)%nat → L = 24 + 12 * Z.of_nat n → lsa_type v = Ok vt → lsa_id v = Ok vid →
  router_has n (Z.of_nat i) L w v = Ok (bool_decide ((vt, vid) ∈ (omap link_edge (drop i ls)).*1)).
Proof.
  intros Hw Hn HL Hvt Hvid. subst L. revert i Hn. induction n as [|n IH]; intros i Hn; cbn [router_has].
  { rewrite drop_ge by lia. by rewrite bool_decide_false by (apply not_elem_of_nil). }
  rewrite (proj2 (Z.ltb_ge _ _)) by lia. destruct (lookup_lt_is_Some_2 ls i) as [x Hx]; [lia|].
  destruct (ro_at _ _ _ Hw i x Hx) as [Hid _ Hty _ _]. rewrite Hty, Hvt, Hid, Hvid. cbn [mbind res_bind].
  specialize (IH (S i)). rewrite Nat2Z.inj_succ in IH. unfold Z.succ in IH.
  replace (24 + 12 * Z.of_nat (S n) - 12) with (24 + 12 * Z.of_nat n) by lia. rewrite IH by lia.
  rewrite (drop_S ls x i Hx). cbn [omap list_omap]. unfold link_edge.
  destruct ((rl_type x =? LSA_LINK_TYPE_POINTOPOINT) || (rl_type x =? LSA_LINK_TYPE_VIRTUALLINK)).
  - cbn [fmap list_fmap fst]. destruct (Z.eqb_spec vt OSPF_ROUTER_LSA), (Z.eqb_spec (rl_id x) vid); cbn [andb]; subst;
      f_equal; (rewrite bool_decide_true; [done|left]) || (apply bool_decide_ext; rewrite elem_of_cons; split; [by right|];
      intros [?|?]; [congruence|done]).
  - destruct (rl_type x =? LSA_LINK_TYPE_TRANSIT); [|done].
    cbn [fmap list_fmap fst]. destruct (Z.eqb_spec vt OSPF_NETWORK_LSA), (Z.eqb_spec (rl_id x) vid); cbn [andb]; subst;
      f_equal; (rewrite bool_decide_true; [done|left]) || (apply bool_decide_ext; rewrite elem_of_cons; split; [by right|];
      intros [?|?]; [congruence|done]).
Qed.

Lemma network_has_spec n i w rs id :
  network_lsa w rs → (i + n = length rs)%nat →
  network_has n (Z.of_nat i) w id = Ok (bool_decide (id ∈ drop i rs)).
Proof.
  intros Hw. revert i. induction n as [|n IH]; intros i Hn; cbn [network_has].
  { rewrite drop_ge by lia. by rewrite bool_decide_false by (apply not_elem_of_nil). }
  destruct (lookup_lt_is_Some_2 rs i) as [x Hx]; [lia|]. rewrite (ne_at _ _ Hw i x Hx). cbn [mbind res_bind].
  specialize (IH (S i)). rewrite Nat2Z.inj_succ in IH. unfold Z.succ in IH. rewrite IH by lia.
  rewrite (drop_S rs x i Hx). destruct (Z.eqb_spec x id) as [->|Hne]; f_equal.
  - rewrite bool_decide_true; [done|left].
  - apply bool_decide_ext. rewrite elem_of_cons. split; [by right|]. intros [->|?]; done.
Qed.

Lemma raw_links_network rs k : k ∈ (links_to (NetworkBody rs)).*1 ↔ k.1 = OSPF_ROUTER_LSA ∧ k.2 ∈ rs.
Proof.
  unfold links_to, raw_links. induction rs as [|r rs IH]; cbn; [rewrite !elem_of_nil; tauto|].
  rewrite !elem_of_cons. unfold links_to, raw_links in IH. cbn in IH. rewrite IH. destruct k as [t i]. cbn. naive_solver.
Qed.

Lemma omap_fmap_id {A B} (f : A → option B) (l : list A) : omap id (f <$> l) = omap f l.
Proof. induction l as [|x l IH]; [done|]. cbn [fmap list_fmap omap list_omap]. unfold id at 1. destruct (f x); [by f_equal|exact IH]. Qed.

(** ospf_lsa_has_link says whether [w] has a link to the vertex of [v]. *)
Lemma has_link_spec w b v vt vid :
  decode w = Ok b → lsa_type v = Ok vt → lsa_id v = Ok vid → vt = OSPF_ROUTER_LSA ∨ vt = OSPF_NETWORK_LSA →
  ospf_lsa_has_link w v = Ok (points_at b (vt, vid)).
Proof.
  intros Hd Hvt Hvid Ht. destruct (decode_inv w b Hd) as (_ & _ & Hb). unfold ospf_lsa_has_link, points_at.
  destruct b as [f ls|rs].
  - rewrite (ro_type _ _ _ Hb). cbn [mbind res_bind]. change (OSPF_ROUTER_LSA =? OSPF_NETWORK_LSA) with false. cbn [Z.eqb].
    rewrite (ro_length _ _ _ Hb), (ro_links _ _ _ Hb). cbn [mbind res_bind]. rewrite Z.eqb_refl, Nat2Z.id.
    rewrite (router_has_spec (length ls) 0 _ w f ls v vt vid) by (done || lia). rewrite drop_0. unfold links_to, raw_links.
    by rewrite omap_fmap_id.
  - rewrite (ne_type _ _ Hb). cbn [mbind res_bind]. rewrite Z.eqb_refl, Hvt. cbn [mbind res_bind].
    destruct Ht as [->| ->].
    + change (OSPF_ROUTER_LSA =? OSPF_NETWORK_LSA) with false. cbv iota. rewrite (ne_length _ _ Hb), Hvid. cbn [mbind res_bind].
      unfold OSPF_LSA_HEADER_SIZE. replace (24 + 4 * Z.of_nat (length rs) - 20 - 4) with (Z.of_nat (length rs) * 4) by lia.
      rewrite Z.quot_mul, Nat2Z.id by lia. rewrite (network_has_spec (length rs) 0 w rs) by (done || lia). rewrite drop_0.
      f_equal. apply bool_decide_ext. rewrite raw_links_network. cbn. naive_solver.
    + rewrite Z.eqb_refl. rewrite bool_decide_false; [done|]. rewrite raw_links_network. by intros [? _].
Qed.

(** * An area whose LSAs are well-formed *)

Record lsa_ok (t : Z) (lsa : ospf_lsa) : Prop := LsaOk {
  lo_type : lsa_type (l_data lsa) = Ok t;
  lo_body : ∃ b, decode (l_data lsa) = Ok b;
  lo_bytes : bytes_ok (l_data lsa);
}.

(** Interfaces of point-to-point links know the address of the other end. *)
Definition if_ok (oi : spf_if) : Prop :=
  (si_type oi = IFTYPE_POINTOPOINT → is_Some (si_destination oi)) ∧ 0 ≤ si_prefixlen oi ≤ 32.

Record area_ok (area : spf_area) (self : ospf_lsa) : Prop := AreaOk {
  ao_self : lsa_ok OSPF_ROUTER_LSA self;
  ao_routers : ∀ id adv lsa, sa_routers area !! (id, adv) = Some lsa →
    lsa_ok OSPF_ROUTER_LSA lsa ∧ lsa_id (l_data lsa) = Ok id;
  ao_networks : Forall (lsa_ok OSPF_NETWORK_LSA) (sa_networks area);
  ao_ifs : Forall if_ok (sa_oiflist area);
  ao_size : Z.of_nat (size (sa_routers area) + length (sa_networks area)) < 2^16;
  ao_garbage : is_u8 (sa_garbage area);
}.

Section Area.
Context (area : spf_area) (now : timeval) (self : ospf_lsa) (Hok : area_ok area self).

Lemma lsa_ok_id t lsa : lsa_ok t lsa → ∃ id, lsa_id (l_data lsa) = Ok id.
Proof. intros [_ [b Hb] _]. destruct (decode_inv _ _ Hb) as (_ & Hl & _). apply get32_read; lia. Qed.

Lemma lsa_ok_live t lsa : lsa_ok t lsa → IS_LSA_MAXAGE now lsa = Ok (negb (live now lsa)).
Proof.
  intros [_ [b Hb] _]. destruct (decode_inv _ _ Hb) as (_ & Hl & _).
  unfold live, IS_LSA_MAXAGE, LS_AGE, get_age, lsa_age. destruct (get16_read (l_data lsa) 0) as [a ->]; [lia..|].
  cbn [mbind res_bind]. by rewrite negb_involutive.
Qed.

Lemma network_by_id_ok l id :
  Forall (lsa_ok OSPF_NETWORK_LSA) l →
  ∃ o, network_by_id l id = Ok o ∧
    match o with Some lsa => lsa_ok OSPF_NETWORK_LSA lsa ∧ lsa_id (l_data lsa) = Ok id ∧ lsa ∈ l | None => True end.
Proof.
  induction 1 as [|lsa l Hlsa _ (o & Ho & IH)]; [by exists None|]. cbn [network_by_id]. destruct (lsa_ok_id _ _ Hlsa) as [i Hi].
  rewrite Hi. cbn [mbind res_bind]. destruct (Z.eqb_spec i id) as [->|Hne].
  - exists (Some lsa). split_and!; [done..|left].
  - rewrite Ho. exists o. split; [done|]. destruct o; [|done]. destruct IH as (? & ? & ?). split_and!; [done..|by right].
Qed.

Lemma db_lsa_ok k lsa :
  db_lsa area k = Some lsa → lsa_ok k.1 lsa ∧ lsa_id (l_data lsa) = Ok k.2.
Proof.
  unfold db_lsa, router_lookup. destruct (Z.eqb_spec k.1 OSPF_ROUTER_LSA) as [->|]; [apply (ao_routers _ _ Hok)|].
  destruct (Z.eqb_spec k.1 OSPF_NETWORK_LSA) as [->|]; [|done].
  destruct (network_by_id_ok _ k.2 (ao_networks _ _ Hok)) as (o & -> & Ho). intros ->. tauto.
Qed.

Lemma root_id : lsa_id (l_data self) = Ok (root_key self).2.
Proof. unfold root_key. destruct (lsa_ok_id _ _ (ao_self _ _ Hok)) as [id Hid]. cbn [snd]. by rewrite Hid. Qed.

Definition is_vertex_type (t : Z) : Prop := t = OSPF_ROUTER_LSA ∨ t = OSPF_NETWORK_LSA.

(** The octets of a vertex have its type and id. *)
Lemma vertex_lsa_ok k d :
  vertex_lsa area now self k = Some d →
  lsa_type d = Ok k.1 ∧ lsa_id d = Ok k.2 ∧ (∃ b, decode d = Ok b) ∧ bytes_ok d ∧ is_vertex_type k.1.
Proof.
  unfold vertex_lsa. destruct (decide (k = root_key self)) as [->|Hne].
  - intros [= <-]. destruct (ao_self _ _ Hok) as [Ht Hb Hby]. split_and!; [done|apply root_id|done|done|by left].
  - destruct (db_lsa area k) as [lsa|] eqn:E; [|done]. destruct (live now lsa); [|done]. intros [= <-].
    destruct (db_lsa_ok k lsa E) as [[Ht Hb Hby] Hid]. split_and!; [done..|].
    unfold db_lsa in E. destruct (Z.eqb_spec k.1 OSPF_ROUTER_LSA); [by left|].
    destruct (Z.eqb_spec k.1 OSPF_NETWORK_LSA); [by right|done].
Qed.

Definition stride (b : lsa_body) : Z := match b with RouterBody _ _ => 12 | NetworkBody _ => 4 end.
Definition offset (b : lsa_body) (i : nat) : Z := 24 + stride b * Z.of_nat i.

Lemma decode_length d b : decode d = Ok b → lsa_length d = Ok (offset b (length (raw_links b))).
Proof.
  intros Hd. destruct (decode_inv d b Hd) as (_ & _ & Hb). unfold offset. destruct b; cbn [raw_links stride]; rewrite length_fmap.
  - apply (ro_length _ _ _ Hb).
  - apply (ne_length _ _ Hb).
Qed.

Lemma link_target_spec d b i o :
  decode d = Ok b → raw_links b !! i = Some o →
  link_target area d (offset b i) =
    Ok (offset b (S i), match o with Some (k, _) => db_lsa area k | None => None end).
Proof.
  intros Hd Hi. destruct (decode_inv d b Hd) as (_ & _ & Hb). unfold link_target, offset. rewrite Nat2Z.inj_succ.
  destruct b as [f ls|rs]; cbn [raw_links stride] in *; apply list_lookup_fmap_Some in Hi as (x & -> & Hx).
  - rewrite (ro_type _ _ _ Hb). cbn [mbind res_bind]. rewrite Z.eqb_refl.
    destruct (ro_at _ _ _ Hb i x Hx) as [Hid _ Hty _ Hnx]. rewrite Hnx, Hty, Hid. cbn [mbind res_bind].
    replace (24 + 12 * Z.succ (Z.of_nat i)) with (24 + 12 * Z.of_nat i + 12) by lia. unfold link_edge.
    destruct (Z.eqb_spec (rl_type x) LSA_LINK_TYPE_STUB) as [E|E]; [by rewrite E|].
    destruct ((rl_type x =? LSA_LINK_TYPE_POINTOPOINT) || (rl_type x =? LSA_LINK_TYPE_VIRTUALLINK)); [done|].
    destruct (rl_type x =? LSA_LINK_TYPE_TRANSIT); [|done].
    destruct (network_by_id_ok _ (rl_id x) (ao_networks _ _ Hok)) as (o & Ho & _). unfold db_lsa. cbn [fst snd].
    change (OSPF_NETWORK_LSA =? OSPF_ROUTER_LSA) with false. cbv iota. rewrite Z.eqb_refl. by rewrite Ho.
  - rewrite (ne_type _ _ Hb). cbn [mbind res_bind]. change (OSPF_NETWORK_LSA =? OSPF_ROUTER_LSA) with false. cbv iota.
    rewrite (ne_at _ _ Hb i x Hx). cbn [mbind res_bind].
    replace (24 + 4 * Z.succ (Z.of_nat i)) with (24 + 4 * Z.of_nat i + 4) by lia. done.
Qed.

Lemma link_distance_spec x b i k c :
  decode (v_lsa x) = Ok b → raw_links b !! i = Some (Some (k, c)) → is_u32 (v_distance x + c) →
  link_distance x (offset b i) = Ok (v_distance x + c).
Proof.
  intros Hd Hi Hu. destruct (decode_inv _ b Hd) as (_ & _ & Hb). unfold link_distance, offset.
  destruct b as [f ls|rs]; cbn [raw_links stride] in *; apply list_lookup_fmap_Some in Hi as (y & Hy & Hx).
  - rewrite (ro_type _ _ _ Hb). cbn [mbind res_bind]. rewrite Z.eqb_refl.
    destruct (ro_at _ _ _ Hb i y Hx) as [_ _ _ Hm _]. rewrite Hm. cbn [mbind res_bind].
    assert (rl_metric y = c) as -> by (unfold link_edge in Hy; repeat case_match; by simplify_eq). by rewrite u32_id.
  - rewrite (ne_type _ _ Hb). cbn [mbind res_bind]. change (OSPF_NETWORK_LSA =? OSPF_ROUTER_LSA) with false. cbv iota.
    injection Hy as -> ->. f_equal. lia.
Qed.

(** The metrics in the graph have 16 bits. *)
Lemma get16_range d off v : bytes_ok d → get16 d off = Ok v → 0 ≤ v ≤ 65535.
Proof.
  unfold get16. intros Hb H. res_inv H. injection H as <-. apply get_byte_Ok in E as [_ E], E0 as [_ E0].
  pose proof (Forall_lookup_1 _ _ _ _ Hb E). pose proof (Forall_lookup_1 _ _ _ _ Hb E0). unfold is_u8 in *. lia.
Qed.

Lemma metrics_of_area : metrics_ok area now self.
Proof.
  intros x y c. unfold links_of, body. destruct (vertex_lsa area now self x) as [d|] eqn:E; [|by intros ?%elem_of_nil].
  destruct (vertex_lsa_ok x d E) as (_ & _ & (b & Hb) & Hby & _). rewrite Hb. unfold links_to.
  intros (o & Ho & Hid)%list_elem_of_omap. unfold id in Hid. subst o. apply list_elem_of_lookup in Ho as (i & Hi).
  destruct (decode_inv d b Hb) as (_ & _ & Hr).
  destruct b as [f ls|rs]; cbn [raw_links] in Hi; apply list_lookup_fmap_Some in Hi as (z & Hz & Hx).
  - assert (rl_metric z = c) as <- by (unfold link_edge in Hz; repeat case_match; by simplify_eq).
    destruct (ro_at _ _ _ Hr i z Hx) as [_ _ _ Hm _]. by apply (get16_range d _ _ Hby Hm).
  - injection Hz as -> ->. lia.
Qed.

(** ** Nexthops *)

(** The link that is read next after [prev] has the place [i]. *)
Definition next_place (ls : list rlink) (prev : option Z) (i : nat) : Prop :=
  match prev with
  | None => i = O
  | Some l => (0 < i ≤ length ls)%nat ∧ l = 24 + 12 * (Z.of_nat i - 1)
  end.

Lemma next_link_loop_ok d f ls fuel i wid :
  router_lsa d f ls → (i ≤ length ls)%nat → (length ls - i ≤ fuel)%nat →
  ∃ o, next_link_loop fuel d (24 + 12 * Z.of_nat i) (24 + 12 * Z.of_nat (length ls)) wid = Ok o ∧
    match o with
    | Some l => ∃ j x, l = 24 + 12 * Z.of_nat j ∧ (i ≤ j)%nat ∧ ls !! j = Some x ∧ links_id ls wid x
    | None => True
    end.
Proof.
  intros Hd. revert i. induction fuel as [|fuel IH]; intros i Hi Hf.
  { exists None. assert (i = length ls) as -> by lia. cbn [next_link_loop]. by rewrite Z.ltb_irrefl. }
  cbn [next_link_loop]. destruct (Z.ltb_spec (24 + 12 * Z.of_nat i) (24 + 12 * Z.of_nat (length ls))); [|by exists None].
  destruct (lookup_lt_is_Some_2 ls i) as [x Hx]; [lia|]. destruct (ro_at _ _ _ Hd i x Hx) as [Hid _ Hty _ Hnx].
  rewrite Hnx, Hty. cbn [mbind res_bind]. replace (24 + 12 * Z.of_nat i + 12) with (24 + 12 * Z.of_nat (S i)) by lia.
  destruct (IH (S i)) as (o & Ho & Hj); [lia..|].
  assert (∃ o, next_link_loop fuel d (24 + 12 * Z.of_nat (S i)) (24 + 12 * Z.of_nat (length ls)) wid = Ok o ∧
    match o with Some l => ∃ j x, l = 24 + 12 * Z.of_nat j ∧ (i ≤ j)%nat ∧ ls !! j = Some x ∧ links_id ls wid x | None => True end) as Hrest.
  { exists o. split; [done|]. destruct o as [l|]; [|done]. destruct Hj as (j & y & -> & Hj & Hy). exists j, y. split_and!; [done|lia|apply Hy..]. }
  destruct (Z.eqb_spec (rl_type x) LSA_LINK_TYPE_STUB) as [|Hs]; [done|].
  destruct (Z.eqb_spec (rl_type x) LSA_LINK_TYPE_VIRTUALLINK) as [|Hvl]; [done|].
  rewrite Hid. cbn [mbind res_bind]. destruct (Z.eqb_spec (rl_id x) wid) as [E|E]; [|done].
  eexists. split; [done|]. exists i, x. split; [done|]. split; [lia|]. split; [done|].
  split_and!; [by eapply list_elem_of_lookup_2|done..].
Qed.

Lemma get_next_link_ok d f ls wid prev i :
  router_lsa d f ls → next_place ls prev i →
  ∃ o, ospf_get_next_link d wid prev = Ok o ∧
    match o with
    | Some l => ∃ j x, link_at d l x ∧ next_place ls (Some l) (S j) ∧ (i ≤ j < length ls)%nat ∧ links_id ls wid x
    | None => True
    end.
Proof.
  intros Hd Hp. unfold ospf_get_next_link.
  assert (match prev with None => Ok 24 | Some l => next_link d l end = Ok (24 + 12 * Z.of_nat i) ∧ (i ≤ length ls)%nat) as [-> Hi].
  { destruct prev as [l|]; cbn in Hp; [|subst; split; [done|lia]]. destruct Hp as [Hi ->].
    destruct (lookup_lt_is_Some_2 ls (i - 1)) as [x Hx]; [lia|]. pose proof (la_next _ _ _ (ro_at _ _ _ Hd _ x Hx)) as Hn.
    replace (24 + 12 * (Z.of_nat i - 1)) with (24 + 12 * Z.of_nat (i - 1)) by lia. rewrite Hn. split; [f_equal; lia|lia]. }
  cbn [mbind res_bind]. rewrite (ro_length _ _ _ Hd). cbn [mbind res_bind].
  destruct (next_link_loop_ok d f ls (Z.to_nat (24 + 12 * Z.of_nat (length ls))) i wid Hd Hi) as (o & Ho & Hj); [lia|].
  exists o. split; [done|]. destruct o as [l|]; [|done]. destruct Hj as (j & x & -> & Hj & Hx & Hid). exists j, x.
  assert (j < length ls)%nat by (by eapply lookup_lt_Some). split; [by apply (ro_at _ _ _ Hd)|]. split; [unfold next_place; split; lia|]. split; [lia|done].
Qed.

Lemma is_configured_ok i l address :
  Forall if_ok l → ∃ o, is_configured_loop i l address = Ok o ∧
    match o with Some j => ∃ oi, (i ≤ j)%nat ∧ l !! (j - i)%nat = Some oi ∧ if_known oi = Some address | None => True end.
Proof.
  intros Hl. revert i. induction Hl as [|oi l [Hp _] _ IH]; intros i; [by exists None|]. cbn [is_configured_loop].
  destruct (IH (S i)) as (o & Ho & Hj).
  assert (∃ o, is_configured_loop (S i) l address = Ok o ∧
    match o with Some j => ∃ oi', (i ≤ j)%nat ∧ (oi :: l) !! (j - i)%nat = Some oi' ∧ if_known oi' = Some address | None => True end).
  { exists o. split; [done|]. destruct o as [j|]; [|done]. destruct Hj as (oi' & Hle & Hoi & Hk). exists oi'.
    split; [lia|]. by replace (j - i)%nat with (S (j - S i)) by lia. }
  destruct (bool_decide (si_type oi = IFTYPE_VIRTUALLINK)); [done|].
  assert (∃ a, (if bool_decide (si_type oi = IFTYPE_POINTOPOINT) then of_option NullDeref (si_destination oi)
    else Ok (si_address oi)) = Ok a ∧ if_known oi = Some a) as (a & -> & Hka).
  { unfold if_known. case_bool_decide as E; [|rewrite decide_False by done; by eexists]. destruct (Hp E) as [a Ha].
    rewrite decide_True, Ha by done. by eexists. }
  cbn [mbind res_bind]. destruct (Z.eqb_spec address a) as [->|]; [|done]. eexists. split; [done|]. exists oi.
  by rewrite Nat.sub_diag.
Qed.

Lemma configured_ok address :
  ∃ o, ospf_if_is_configured area address = Ok o ∧
    match o with Some j => ∃ oi, sa_oiflist area !! j = Some oi ∧ if_ok oi ∧ if_known oi = Some address | None => True end.
Proof.
  destruct (is_configured_ok 0 (sa_oiflist area) address (ao_ifs _ _ Hok)) as (o & Ho & Hj). exists o. split; [done|].
  destruct o as [j|]; [|done]. destruct Hj as (oi & _ & Hoi & Hk). rewrite Nat.sub_0_r in Hoi.
  exists oi. split; [done|]. split; [|done]. by eapply (Forall_lookup_1 _ _ _ _ (ao_ifs _ _ Hok)).
Qed.

Lemma ptmp_back_ok w f ls vid oi fuel prev i :
  router_lsa w f ls → if_ok oi → next_place ls prev i → (length ls - i < fuel)%nat →
  ∃ o, ptmp_back area fuel w vid oi prev = Ok o ∧ match o with Some l => ∃ x, link_at w l x ∧ links_id ls vid x | None => True end.
Proof.
  intros Hw Hoi. revert prev i. induction fuel as [|fuel IH]; intros prev i Hp Hf; [lia|]. cbn [ptmp_back].
  destruct (get_next_link_ok w f ls vid prev i Hw Hp) as (o & -> & Ho). cbn [mbind res_bind].
  destruct o as [l|]; [|by exists None]. destruct Ho as (j & x & Hx & Hn & Hj & Hid). rewrite (la_data _ _ _ Hx). cbn [mbind res_bind].
  rewrite prefix_cmp_pbits; [|split; [apply be_bytes_ok32|cbn; apply Hoi]..]. cbn [mbind res_bind].
  destruct (negb _); [apply (IH (Some l) (S j)); [done|lia]|]. eexists. split; [done|]. by exists x.
Qed.

Lemma ptp_back_ok w f ls vid data fuel prev i :
  router_lsa w f ls → next_place ls prev i → (length ls - i < fuel)%nat →
  ∃ o, ptp_back area fuel w vid data prev = Ok o ∧
    match o with
    | Some (n, l) => ∃ x oi, link_at w l x ∧ links_id ls vid x ∧ sa_oiflist area !! n = Some oi ∧ si_address oi = data
    | None => True
    end.
Proof.
  intros Hw. revert prev i. induction fuel as [|fuel IH]; intros prev i Hp Hf; [lia|]. cbn [ptp_back].
  destruct (get_next_link_ok w f ls vid prev i Hw Hp) as (o & -> & Ho). cbn [mbind res_bind].
  destruct o as [l|]; [|by exists None]. destruct Ho as (j & x & Hx & Hn & Hj & Hid). rewrite (la_data _ _ _ Hx). cbn [mbind res_bind].
  destruct (configured_ok (rl_data x)) as (o & -> & Ho). cbn [mbind res_bind].
  destruct o as [n|]; [|apply (IH (Some l) (S j)); [done|lia]]. destruct Ho as (oi & Hoi & _). rewrite Hoi. cbn [of_option mbind res_bind].
  destruct (Z.eqb_spec (si_address oi) data); [|apply (IH (Some l) (S j)); [done|lia]]. eexists. split; [done|]. by exists x, oi.
Qed.

Lemma link_back_ok v w f ls vid l x :
  link_at v l x → router_lsa w f ls →
  ∃ o, link_back area v w vid l = Ok o ∧
    match o with
    | Some (n, l2) => ∃ y oi, link_at w l2 y ∧ links_id ls vid y ∧ sa_oiflist area !! n = Some oi ∧ si_address oi = rl_data x
    | None => True
    end.
Proof.
  intros Hx Hw. unfold link_back. rewrite (la_data _ _ _ Hx). cbn [mbind res_bind].
  destruct (configured_ok (rl_data x)) as (o & -> & Ho). cbn [mbind res_bind]. rewrite (ro_length _ _ _ Hw). cbn [mbind res_bind].
  set (fuel := S (Z.to_nat _)). destruct (ptp_back_ok w f ls vid (rl_data x) fuel None 0 Hw) as (o1 & Ho1 & H1); [done|unfold fuel; lia|].
  destruct o as [n|]; [|by exists o1]. destruct Ho as (oi & Hn & Hoi & Hk). rewrite Hn. cbn [of_option mbind res_bind].
  case_bool_decide as Ht; [|by exists o1].
  destruct (ptmp_back_ok w f ls vid oi fuel None 0 Hw Hoi) as (o2 & -> & H2); [done|unfold fuel; lia|]. cbn [mbind res_bind].
  eexists. split; [done|]. destruct o2 as [l2|]; [|done]. destruct H2 as (y & Hy & Hid). exists y, oi. split_and!; try done.
  unfold if_known in Hk. rewrite decide_False in Hk by congruence. by injection Hk.
Qed.

Definition from_parent (p : positive) (l : list vertex_nexthop) : Prop := Forall (λ nh, nh_parent nh = p) l.

(** What the nexthops of [w] behind [v] are; [lv] and [lw] are their links. *)
Definition router_hop (lv lw : list rlink) (vid wid : Z) (nh : vertex_nexthop) : Prop :=
  ∃ l l2 oi, links_id lv wid l ∧ rl_type l = LSA_LINK_TYPE_POINTOPOINT ∧ links_id lw vid l2 ∧
    sa_oiflist area !! nh_oi nh = Some oi ∧ si_address oi = rl_data l ∧ nh_router nh = rl_data l2.
Definition network_hop (lv : list rlink) (wid : Z) (nh : vertex_nexthop) : Prop :=
  ∃ l oi, links_id lv wid l ∧ sa_oiflist area !! nh_oi nh = Some oi ∧ if_known oi = Some (rl_data l) ∧ nh_router nh = 0.
Definition attached_hop (lw : list rlink) (vid : Z) (i : nat) (nh : vertex_nexthop) : Prop :=
  ∃ l, links_id lw vid l ∧ nh_oi nh = i ∧ nh_router nh = rl_data l.

Definition via_hop (root p : positive) (v w : vertex) (bv bw : lsa_body) (nh : vertex_nexthop) : Prop :=
  if decide (p = root) then
    if decide (v_type w = OSPF_ROUTER_LSA) then router_hop (body_links bv) (body_links bw) (v_id v) (v_id w) nh
    else network_hop (body_links bv) (v_id w) nh
  else ∃ nh', nh' ∈ v_nexthop v ∧
    (v_type v = OSPF_NETWORK_LSA ∧ nh_parent nh' = root ∧ attached_hop (body_links bw) (v_id v) (nh_oi nh') nh ∨
     (v_type v = OSPF_NETWORK_LSA → nh_parent nh' ≠ root) ∧ nh_oi nh = nh_oi nh' ∧ nh_router nh = nh_router nh').

Lemma root_to_router_ok p v fv lv w fw lw vid wid fuel prev i :
  router_lsa v fv lv → router_lsa w fw lw → next_place lv prev i → (length lv - i < fuel)%nat →
  ∃ l, root_to_router area fuel p v w vid wid prev = Ok l ∧ from_parent p l ∧ Forall (router_hop lv lw vid wid) l.
Proof.
  intros Hv Hw. revert prev i. induction fuel as [|fuel IH]; intros prev i Hp Hf; [lia|]. cbn [root_to_router].
  assert (Hnil : ∃ l, Ok [] = Ok l ∧ from_parent p l ∧ Forall (router_hop lv lw vid wid) l) by (exists []; split_and!; [done|constructor..]).
  destruct (get_next_link_ok v fv lv wid prev i Hv Hp) as (o & -> & Ho). cbn [mbind res_bind].
  destruct o as [l|]; [|done]. destruct Ho as (j & x & Hx & Hn & Hj & Hid).
  rewrite (la_type _ _ _ Hx). cbn [mbind res_bind]. destruct (IH (Some l) (S j) Hn) as (rest & Hrest & Hr & Hr'); [lia|].
  match goal with |- context [?m ≫= _] =>
    assert (∃ new, m = Ok new ∧ from_parent p new ∧ Forall (router_hop lv lw vid wid) new) as (new & -> & Hnew & Hnew') end.
  { destruct (Z.eqb_spec (rl_type x) LSA_LINK_TYPE_POINTOPOINT) as [Ht|]; [|done].
    destruct (link_back_ok v w fw lw vid l x Hx Hw) as (o & -> & Ho). cbn [mbind res_bind].
    destruct o as [[n l2]|]; [|done]. destruct Ho as (y & oi & Hy & Hyid & Hoi & Ha). rewrite (la_data _ _ _ Hy). cbn [mbind res_bind].
    eexists. split; [done|]. split; [by repeat constructor|]. constructor; [|constructor]. by exists x, y, oi. }
  cbn [mbind res_bind]. rewrite Hrest. eexists. split; [done|]. split; by apply Forall_app.
Qed.

Lemma root_to_network_ok p v fv lv wid fuel prev i :
  router_lsa v fv lv → next_place lv prev i → (length lv - i < fuel)%nat →
  ∃ l, root_to_network area fuel p v wid prev = Ok l ∧ from_parent p l ∧ Forall (network_hop lv wid) l.
Proof.
  intros Hv. revert prev i. induction fuel as [|fuel IH]; intros prev i Hp Hf; [lia|]. cbn [root_to_network].
  destruct (get_next_link_ok v fv lv wid prev i Hv Hp) as (o & -> & Ho). cbn [mbind res_bind].
  destruct o as [l|]; [|exists []; split_and!; [done|constructor..]]. destruct Ho as (j & x & Hx & Hn & Hj & Hid).
  rewrite (la_data _ _ _ Hx). cbn [mbind res_bind]. destruct (configured_ok (rl_data x)) as (o & -> & Hoi). cbn [mbind res_bind].
  destruct (IH (Some l) (S j) Hn) as (rest & -> & Hr & Hr'); [lia|]. cbn [mbind res_bind]. eexists. split; [done|].
  destruct o as [n|]; [|done]. destruct Hoi as (oi & Hn' & _ & Hk). split; (constructor; [|done]); [done|]. by exists x, oi.
Qed.

Lemma network_to_router_ok p oi w fw lw vid fuel prev i :
  router_lsa w fw lw → next_place lw prev i → (length lw - i < fuel)%nat →
  ∃ l, network_to_router fuel p oi w vid prev = Ok l ∧ from_parent p l ∧ Forall (attached_hop lw vid oi) l.
Proof.
  intros Hw. revert prev i. induction fuel as [|fuel IH]; intros prev i Hp Hf; [lia|]. cbn [network_to_router].
  destruct (get_next_link_ok w fw lw vid prev i Hw Hp) as (o & -> & Ho). cbn [mbind res_bind].
  destruct o as [l|]; [|exists []; split_and!; [done|constructor..]]. destruct Ho as (j & x & Hx & Hn & Hj & Hid).
  rewrite (la_data _ _ _ Hx). cbn [mbind res_bind]. destruct (IH (Some l) (S j) Hn) as (rest & -> & Hr & Hr'); [lia|]. cbn [mbind res_bind].
  eexists. split; [done|]. split; (constructor; [|done]); [done|]. by exists x.
Qed.

Lemma inherit_in p l0 l nh :
  nh ∈ foldl (λ a nh, ospf_nexthop_add_unique (Vnh (nh_oi nh) (nh_router nh) p) a) l0 l →
  nh ∈ l0 ∨ nh_parent nh = p ∧ ∃ nh', nh' ∈ l ∧ nh_oi nh = nh_oi nh' ∧ nh_router nh = nh_router nh'.
Proof.
  revert l0. induction l as [|x l IH]; intros l0 Hin; [by left|]. cbn [foldl] in Hin.
  destruct (IH _ Hin) as [Ha|(Hp & nh' & Hin' & H)]; [|right; split; [done|]; exists nh'; split; [by right|done]].
  unfold ospf_nexthop_add_unique in Ha. case_bool_decide; [by left|].
  apply elem_of_app in Ha as [Ha| ->%list_elem_of_singleton]; [by left|right]. split; [done|]. exists x. split; [by left|done].
Qed.

(** The nexthops of a new vertex [w] behind [v] have [v] as their parent.  One of the two
    is a router. *)
Lemma nexthops_via_ok root p v w bv bw :
  decode (v_lsa v) = Ok bv → decode (v_lsa w) = Ok bw → v_nexthop w = [] →
  lsa_type (v_lsa w) = Ok (v_type w) → lsa_type (v_lsa v) = Ok (v_type v) →
  (p = root → v_type v = OSPF_ROUTER_LSA) → (v_type v = OSPF_NETWORK_LSA → v_type w = OSPF_ROUTER_LSA) →
  ∃ l, nexthops_via area root p v w = Ok l ∧ from_parent p l ∧ (l ≠ [] → p = root ∨ v_nexthop v ≠ []) ∧
    Forall (via_hop root p v w bv bw) l.
Proof.
  intros Hv Hw Hnil Htw Htv Hroot Hnet. unfold nexthops_via. rewrite (decode_length _ _ Hv), (decode_length _ _ Hw), Hnil.
  cbn [mbind res_bind app]. destruct (decode_inv _ _ Hv) as (_ & _ & Hbv). destruct (decode_inv _ _ Hw) as (_ & _ & Hbw).
  change OSPF_VERTEX_ROUTER with OSPF_ROUTER_LSA. change OSPF_VERTEX_NETWORK with OSPF_NETWORK_LSA.
  case_bool_decide as Hp.
  - destruct bv as [fv lv|rv]; [|rewrite (ne_type _ _ Hbv), (Hroot Hp) in Htv; by injection Htv].
    set (fuel := S (Z.to_nat _)). assert (length lv < fuel)%nat.
    { unfold fuel, offset. cbn [stride raw_links]. rewrite length_fmap. lia. }
    destruct (Z.eqb_spec (v_type w) OSPF_ROUTER_LSA) as [E|E].
    + destruct bw as [fw lw|rw]; [|rewrite (ne_type _ _ Hbw), E in Htw; by injection Htw].
      destruct (root_to_router_ok p (v_lsa v) fv lv (v_lsa w) fw lw (v_id v) (v_id w) fuel None 0 Hbv Hbw) as (l & -> & Hl & Hl'); [done|lia|].
      exists l. split_and!; [done|done|by left|]. eapply Forall_impl; [exact Hl'|]. intros nh Hnh. unfold via_hop. by rewrite !decide_True.
    + destruct (root_to_network_ok p (v_lsa v) fv lv (v_id w) fuel None 0 Hbv) as (l & -> & Hl & Hl'); [done|lia|].
      exists l. split_and!; [done|done|by left|]. eapply Forall_impl; [exact Hl'|]. intros nh Hnh. unfold via_hop. by rewrite decide_True, decide_False.
  - assert (Hinh : (v_type v = OSPF_NETWORK_LSA → ∀ nh', nh' ∈ v_nexthop v → nh_parent nh' ≠ root) →
      ∃ l, Ok (foldl (λ a nh, ospf_nexthop_add_unique (Vnh (nh_oi nh) (nh_router nh) p) a) [] (v_nexthop v)) = Ok l ∧
        from_parent p l ∧ (l ≠ [] → p = root ∨ v_nexthop v ≠ []) ∧
        Forall (via_hop root p v w bv bw) l).
    { intros Hno. eexists. split; [done|]. split; [|split].
      - apply Forall_forall. intros nh Hin. by destruct (inherit_in _ _ _ _ Hin) as [?%elem_of_nil|[? _]].
      - intros Hl. right. by intros E; rewrite E in Hl.
      - apply Forall_forall. intros nh Hin. destruct (inherit_in _ _ _ _ Hin) as [?%elem_of_nil|(_ & nh' & Hin' & H)]; [done|].
        unfold via_hop. rewrite decide_False by done. exists nh'. split; [done|]. right. split; [|done]. intros E. by apply Hno. }
    destruct (Z.eqb_spec (v_type v) OSPF_NETWORK_LSA) as [E|E]; [|by apply Hinh].
    destruct (list_find _ _) as [[n x]|] eqn:Hfind.
    2:{ apply Hinh. intros _ nh' Hin'. apply list_find_None in Hfind. rewrite Forall_forall in Hfind. by apply Hfind. }
    apply list_find_Some in Hfind as (Hx & Hxr & _). apply list_elem_of_lookup_2 in Hx.
    assert (v_nexthop v ≠ []) as Hvne by (intros E2; rewrite E2 in Hx; by apply elem_of_nil in Hx).
    destruct bw as [fw lw|rw]; [|rewrite (ne_type _ _ Hbw), (Hnet E) in Htw; by injection Htw].
    set (fuel := S (Z.to_nat _)). assert (length lw < fuel)%nat.
    { unfold fuel, offset. cbn [stride raw_links]. rewrite length_fmap. lia. }
    destruct (network_to_router_ok p (nh_oi x) (v_lsa w) fw lw (v_id v) fuel None 0 Hbw) as (l & -> & Hl & Hl'); [done|lia|].
    exists l. split_and!; [done|done|by right|]. eapply Forall_impl; [exact Hl'|]. intros nh Hnh.
    unfold via_hop. rewrite decide_False by done. exists x. split; [done|]. by left.
Qed.

End Area.
