(* ===== verification/OspfSpfRun.v ===== *)
(** ospf_spf_calculate runs the algorithm of Dijkstra: the heap of vertices, the list of
    candidates and the tables of the tree stand for two maps of distances, and every
    operation does to them what [dstep] says. *)

From stdpp Require Import sorting.
From S2P Require Import Prelude Prefix Stream OspfLsa OspfIf OspfSpf OspfSpfGraph OspfSpfRead.

(** * What a state stands for *)

Definition vkey (x : vertex) : key := (v_type x, v_id x).

(** The vertex on the tree. *)
Definition reg (s : spf) (k : key) : option positive :=
  if k.1 =? OSPF_ROUTER_LSA then sp_rv s !! k.2
  else if k.1 =? OSPF_NETWORK_LSA then sp_nv s !! k.2
  else None.

Definition dist_of (h : gmap positive vertex) (p : positive) : Z :=
  match h !! p with Some x => v_distance x | None => 0 end.

Section Run.
Context (area : spf_area) (now : timeval) (self : ospf_lsa) (Hok : area_ok area self).

Abbreviation vlsa := (vertex_lsa area now self).
Abbreviation gedge := (edge area now self).
Abbreviation dmap := (gmap key Z).

(** [p] is a vertex with the LSA of its key. *)
Definition vat (h : gmap positive vertex) (p : positive) (x : vertex) : Prop :=
  h !! p = Some x ∧ vlsa (vkey x) = Some (v_lsa x).

(** A nexthop of [x] is a first hop on a way of the length of its distance. *)
Definition hop_ok (s : spf) (x : vertex) (nh : vertex_nexthop) : Prop :=
  hop area now self (bool_decide (nh_parent nh = sp_root s)) (vkey x) (v_distance x) (nh_oi nh, nh_router nh).

(** The parents of a vertex are on the tree, one link before it. *)
Definition parents_ok (s : spf) (x : vertex) : Prop :=
  ∀ nh, nh ∈ v_nexthop x → ∃ y c, reg s (vkey y) = Some (nh_parent nh) ∧ vat (sp_heap s) (nh_parent nh) y ∧
    gedge (vkey y) (vkey x) c ∧ v_distance x = v_distance y + c ∧ (nh_parent nh = sp_root s ∨ v_nexthop y ≠ []) ∧ hop_ok s x nh.

(** A vertex that is not on the tree yet. *)
Definition plain (x : vertex) : Prop := v_flags x = 0 ∧ v_child x = [].

Record rep (s : spf) (S C : dmap) : Prop := Rep {
  rp_reg : ∀ k p, reg s k = Some p → ∃ x, vat (sp_heap s) p x ∧ vkey x = k ∧ S !! k = Some (v_distance x) ∧ parents_ok s x;
  rp_tree : ∀ k d, S !! k = Some d → is_Some (reg s k);
  rp_cand : ∀ p, p ∈ sp_candidate s →
    ∃ x, vat (sp_heap s) p x ∧ C !! vkey x = Some (v_distance x) ∧ S !! vkey x = None ∧ parents_ok s x ∧ plain x;
  rp_dist : ∀ k d, C !! k = Some d → ∃ p x, p ∈ sp_candidate s ∧ sp_heap s !! p = Some x ∧ vkey x = k;
  rp_uniq : ∀ p q x y, p ∈ sp_candidate s → q ∈ sp_candidate s → sp_heap s !! p = Some x → sp_heap s !! q = Some y →
    vkey x = vkey y → p = q;
  rp_nodup : NoDup (sp_candidate s);
  rp_sorted : StronglySorted Z.le (dist_of (sp_heap s) <$> sp_candidate s);
  rp_root : reg s (root_key self) = Some (sp_root s);
  rp_start : S !! root_key self = Some 0;
}.

(** [s'] has the tree of [s]. *)
Record same_tree (s s' : spf) : Prop := SameTree {
  st_rv : sp_rv s' = sp_rv s;
  st_nv : sp_nv s' = sp_nv s;
  st_root : sp_root s' = sp_root s;
  st_adds : sp_adds s' = sp_adds s;
  st_heap : ∀ k p, reg s k = Some p → sp_heap s' !! p = sp_heap s !! p;
}.

Lemma same_tree_refl s : same_tree s s.
Proof. by split. Qed.

Lemma same_tree_reg s s' k : same_tree s s' → reg s' k = reg s k.
Proof. intros [Hr Hn _ _ _]. unfold reg. by rewrite Hr, Hn. Qed.

Lemma same_tree_trans s1 s2 s3 : same_tree s1 s2 → same_tree s2 s3 → same_tree s1 s3.
Proof.
  intros H1 H2. pose proof (same_tree_reg s1 s2) as Hreg. pose proof H1 as []. pose proof H2 as []. split; try congruence.
  intros k p Hp. rewrite (st_heap _ _ H2 k p) by (by rewrite Hreg). by apply (st_heap _ _ H1 k).
Qed.

(** Every vertex is on the tree or a candidate. *)
Definition noleak (s : spf) : Prop := ∀ p x, sp_heap s !! p = Some x → p ∈ sp_candidate s ∨ ∃ k, reg s k = Some p.

(** [s'] has the tree of [s] and loses no memory. *)
Record evolves (s s' : spf) : Prop := Evolves {
  ev_tree : same_tree s s';
  ev_leak : noleak s → noleak s';
}.

Lemma evolves_refl s : evolves s s.
Proof. split; [apply same_tree_refl|done]. Qed.

Lemma evolves_trans s1 s2 s3 : evolves s1 s2 → evolves s2 s3 → evolves s1 s3.
Proof. intros [] []. split; [by eapply same_tree_trans|auto]. Qed.

Lemma parents_ok_tree s s' x : same_tree s s' → parents_ok s x → parents_ok s' x.
Proof.
  intros Ht Hx nh Hnh. destruct (Hx nh Hnh) as (y & c & Hr & [Hy Hv] & He & Hd). exists y, c.
  unfold hop_ok. rewrite (same_tree_reg s s'), (st_root _ _ Ht) by done. split; [done|]. split; [|done]. split; [|done]. by rewrite (st_heap _ _ Ht _ _ Hr).
Qed.

(** Vertices of the tree and candidates are different. *)
Lemma reg_not_cand s S C k p : rep s S C → reg s k = Some p → p ∉ sp_candidate s.
Proof.
  intros Hr Hk Hp. destruct (rp_reg _ _ _ Hr k p Hk) as (x & [Hx _] & <- & HS & _).
  destruct (rp_cand _ _ _ Hr p Hp) as (y & [Hy _] & _ & HN & _). rewrite Hx in Hy. injection Hy as <-. congruence.
Qed.

Lemma dist_of_at h p x : h !! p = Some x → dist_of h p = v_distance x.
Proof. intros Hx. unfold dist_of. by rewrite Hx. Qed.

(** ** Changes of the candidates *)

(** A new candidate. *)
Lemma rep_add s S C w x l tr :
  rep s S C → sp_heap s !! w = None → C !! vkey x = None → S !! vkey x = None → vlsa (vkey x) = Some (v_lsa x) →
  parents_ok s x → plain x → l ≡ₚ w :: sp_candidate s →
  let h := <[w := x]> (sp_heap s) in StronglySorted Z.le (dist_of h <$> l) →
  let s' := Spf h l (sp_rv s) (sp_nv s) (sp_root s) tr (sp_adds s) in
  rep s' S (<[vkey x := v_distance x]> C) ∧ evolves s s'.
Proof.
  intros Hr Hw HC HS Hv Hp Hpl Hl h Hsort s'.
  assert (Hold : ∀ p y, sp_heap s !! p = Some y → h !! p = Some y).
  { intros p y Hy. unfold h. rewrite lookup_insert_ne; [done|]. intros ->. congruence. }
  assert (Ht : same_tree s s').
  { split; try done. intros k p Hk. destruct (rp_reg _ _ _ Hr k p Hk) as (y & [Hy _] & _). cbn. rewrite Hy. by apply Hold. }
  split.
  2:{ split; [done|]. intros Hn p y Hy. cbn in Hy |- *. rewrite Hl, elem_of_cons.
      apply lookup_insert_Some in Hy as [[<- _]|[_ Hy]]; [by left; left|]. destruct (Hn p y Hy); [by left; right|by right]. }
  split.
  - intros k p Hk. change (reg s' k) with (reg s k) in Hk. destruct (rp_reg _ _ _ Hr k p Hk) as (y & [Hy Hvy] & Hky & HSy & Hpy).
    exists y. split_and!; [by split; [apply Hold|]|done|done|]. by apply (parents_ok_tree s).
  - intros k d Hk. by apply (rp_tree _ _ _ Hr k d).
  - intros p Hin. cbn in Hin. rewrite Hl in Hin. apply elem_of_cons in Hin as [->|Hpc].
    + exists x. split; [split; [cbn; unfold h; by rewrite lookup_insert_eq|done]|]. split; [by rewrite lookup_insert_eq|].
      split; [done|]. split; [by apply (parents_ok_tree s)|done].
    + destruct (rp_cand _ _ _ Hr p Hpc) as (y & [Hy Hvy] & HCy & HSy & Hpy & Hpl'). exists y.
      split; [by split; [apply Hold|]|]. split; [rewrite lookup_insert_ne; [done|congruence]|].
      split; [done|]. split; [by apply (parents_ok_tree s)|done].
  - intros k d [[<- <-]|[Hne Hk]]%lookup_insert_Some; cbn.
    + exists w, x. split_and!; [rewrite Hl; left|unfold h; by rewrite lookup_insert_eq|done].
    + destruct (rp_dist _ _ _ Hr k d Hk) as (p & y & Hpc & Hy & Hky). exists p, y. split_and!; [rewrite Hl; by right|by apply Hold|done].
  - intros p q y z Hpin Hql Hy Hz Hk. cbn in Hpin, Hql, Hy, Hz. rewrite Hl in Hpin, Hql.
    assert (Hcase : ∀ p y, p ∈ w :: sp_candidate s → h !! p = Some y →
      p = w ∧ y = x ∨ p ∈ sp_candidate s ∧ sp_heap s !! p = Some y ∧ vkey y ≠ vkey x).
    { intros p' y' Hin Hy'. destruct (decide (p' = w)) as [->|Hne].
      - left. unfold h in Hy'. rewrite lookup_insert_eq in Hy'. by injection Hy'.
      - right. apply elem_of_cons in Hin as [?|Hin]; [done|]. unfold h in Hy'. rewrite lookup_insert_ne in Hy' by done.
        split_and!; [done|done|]. destruct (rp_cand _ _ _ Hr p' Hin) as (y2 & [Hy2 _] & HCy2 & _). congruence. }
    destruct (Hcase p y Hpin Hy) as [[-> ->]|(Hp1 & Hp2 & Hp3)], (Hcase q z Hql Hz) as [[-> ->]|(Hq1 & Hq2 & Hq3)]; [done|congruence..|].
    by eapply (rp_uniq _ _ _ Hr p q).
  - cbn. rewrite Hl. constructor; [|apply Hr]. intros Hin. destruct (rp_cand _ _ _ Hr w Hin) as (y & [Hy _] & _). congruence.
  - done.
  - apply (rp_root _ _ _ Hr).
  - apply (rp_start _ _ _ Hr).
Qed.

(** A candidate less; what becomes of its memory does not matter. *)
Lemma elem_of_without p q l : NoDup l → q ∈ without p l ↔ q ∈ l ∧ q ≠ p.
Proof.
  induction 1 as [|r l Hr _ IH]; cbn; [rewrite elem_of_nil; tauto|].
  destruct (decide (r = p)) as [->|Hne]; rewrite ?elem_of_cons, ?IH; [|naive_solver].
  split; [|naive_solver]. intros Hq. split; [by right|]. by intros ->.
Qed.

Lemma without_sublist p l : without p l `sublist_of` l.
Proof. induction l as [|q l IH]; cbn; [done|]. case_decide; [by apply sublist_cons|by apply sublist_skip]. Qed.

Lemma dist_sorted_sublist l1 l2 : l1 `sublist_of` l2 → StronglySorted Z.le l2 → StronglySorted Z.le l1.
Proof.
  induction 1 as [|x l1 l2 Hs IH|x l1 l2 Hs IH]; intros Hl; [done|..]; apply StronglySorted_inv in Hl as [Hl Hx].
  - constructor; [by apply IH|]. rewrite Forall_forall in *. intros y Hy. apply Hx. by eapply elem_of_sublist.
  - by apply IH.
Qed.

Lemma dist_fmap h h' (l : list positive) : (∀ p, p ∈ l → h' !! p = h !! p) → dist_of h' <$> l = dist_of h <$> l.
Proof. intros H. apply list_fmap_ext. intros i p Hp. unfold dist_of. by rewrite (H p) by (by eapply list_elem_of_lookup_2). Qed.

Lemma rep_remove s S C p x h tr :
  rep s S C → p ∈ sp_candidate s → sp_heap s !! p = Some x → (∀ q, q ≠ p → h !! q = sp_heap s !! q) →
  let s' := Spf h (without p (sp_candidate s)) (sp_rv s) (sp_nv s) (sp_root s) tr (sp_adds s) in
  rep s' S (delete (vkey x) C) ∧ same_tree s s'.
Proof.
  intros Hr Hp Hx Hh s'. pose proof (rp_nodup _ _ _ Hr) as Hnd.
  assert (Ht : same_tree s s').
  { split; try done. intros k q Hk. apply Hh. intros ->. by apply (reg_not_cand s S C k p Hr Hk). }
  split; [|done]. split.
  - intros k q Hk. change (reg s' k) with (reg s k) in Hk. destruct (rp_reg _ _ _ Hr k q Hk) as (y & [Hy Hv] & Hky & HS & Hpy).
    exists y. split_and!; [split; [by rewrite (st_heap _ _ Ht _ _ Hk)|done]|done|done|by apply (parents_ok_tree s)].
  - intros k d Hk. by apply (rp_tree _ _ _ Hr k d).
  - intros q [Hq Hne]%elem_of_without; [|done]. destruct (rp_cand _ _ _ Hr q Hq) as (y & [Hy Hv] & HC & HS & Hpy & Hpl). exists y.
    split; [split; [cbn; by rewrite Hh|done]|]. split; [|split; [done|split; [by apply (parents_ok_tree s)|done]]].
    rewrite lookup_delete_ne; [done|]. intros E. apply Hne. by eapply (rp_uniq _ _ _ Hr q p).
  - intros k d [Hne Hk]%lookup_delete_Some. destruct (rp_dist _ _ _ Hr k d Hk) as (q & y & Hq & Hy & Hky).
    assert (q ≠ p) by (intros ->; congruence). exists q, y. split_and!; [by apply elem_of_without|cbn; by rewrite Hh|done].
  - intros q1 q2 y1 y2 [H1 N1]%elem_of_without [H2 N2]%elem_of_without Hy1 Hy2 Hk; [|done..].
    cbn in Hy1, Hy2. rewrite Hh in Hy1, Hy2 by done. by eapply (rp_uniq _ _ _ Hr q1 q2).
  - eapply sublist_NoDup; [done|apply without_sublist].
  - cbn. rewrite (dist_fmap (sp_heap s)). 2:{ intros q [_ Hne]%elem_of_without; [|done]. by apply Hh. }
    eapply dist_sorted_sublist; [|apply (rp_sorted _ _ _ Hr)]. apply fmap_sublist, without_sublist.
  - apply (rp_root _ _ _ Hr).
  - apply (rp_start _ _ _ Hr).
Qed.

(** Other nexthops for a candidate. *)
Lemma rep_nexthops s S C p x l :
  rep s S C → p ∈ sp_candidate s → sp_heap s !! p = Some x → parents_ok s (set_v_nexthop l x) →
  let s' := set_sp_heap (<[p := set_v_nexthop l x]> (sp_heap s)) s in rep s' S C ∧ evolves s s'.
Proof.
  intros Hr Hp Hx Hl s'.
  assert (Hh : ∀ q y, sp_heap s' !! q = Some y → ∃ y', sp_heap s !! q = Some y' ∧ vkey y = vkey y').
  { intros q y. cbn. intros [[<- <-]|[Hne Hy]]%lookup_insert_Some; [by exists x|by exists y]. }
  assert (Ht : same_tree s s').
  { split; try done. intros k q Hk. cbn. apply lookup_insert_ne. intros <-. by apply (reg_not_cand s S C k p Hr Hk). }
  split.
  2:{ split; [done|]. intros Hn q y Hy. destruct (Hh q y Hy) as (y' & Hy' & _). by apply (Hn q y'). }
  split.
  - intros k q Hk. change (reg s' k) with (reg s k) in Hk. destruct (rp_reg _ _ _ Hr k q Hk) as (y & [Hy Hv] & Hky & HS & Hpy).
    exists y. split_and!; [split; [by rewrite (st_heap _ _ Ht _ _ Hk)|done]|done|done|by apply (parents_ok_tree s)].
  - intros k d Hk. by apply (rp_tree _ _ _ Hr k d).
  - intros q Hq. destruct (rp_cand _ _ _ Hr q Hq) as (y & [Hy Hv] & HC & HS & Hpy & Hpl). destruct (decide (q = p)) as [->|Hne].
    + rewrite Hx in Hy. injection Hy as <-. exists (set_v_nexthop l x).
      split; [split; [cbn; by rewrite lookup_insert_eq|done]|]. split; [done|split; [done|split; [by apply (parents_ok_tree s)|done]]].
    + exists y. split; [split; [cbn; by rewrite lookup_insert_ne|done]|].
      split; [done|split; [done|split; [by apply (parents_ok_tree s)|done]]].
  - intros k d Hk. destruct (rp_dist _ _ _ Hr k d Hk) as (q & y & Hq & Hy & Hky). destruct (decide (q = p)) as [->|Hne].
    + rewrite Hx in Hy. injection Hy as <-. exists p, (set_v_nexthop l x). split_and!; [done|cbn; by rewrite lookup_insert_eq|done].
    + exists q, y. split_and!; [done|cbn; by rewrite lookup_insert_ne|done].
  - intros q1 q2 y1 y2 H1 H2 Hy1 Hy2 Hk. destruct (Hh _ _ Hy1) as (z1 & Hz1 & K1), (Hh _ _ Hy2) as (z2 & Hz2 & K2).
    eapply (rp_uniq _ _ _ Hr q1 q2); try done. congruence.
  - apply Hr.
  - cbn. assert (dist_of (<[p := set_v_nexthop l x]> (sp_heap s)) <$> sp_candidate s = dist_of (sp_heap s) <$> sp_candidate s) as ->;
      [|apply Hr]. apply list_fmap_ext. intros i q _. unfold dist_of. destruct (decide (q = p)) as [->|Hne].
    + by rewrite lookup_insert_eq, Hx.
    + by rewrite lookup_insert_ne.
  - apply (rp_root _ _ _ Hr).
  - apply (rp_start _ _ _ Hr).
Qed.

(** * Runs *)

Lemma vread_run s p x : sp_heap s !! p = Some x → vread p s = Ok (x, s).
Proof. intros Hx. unfold vread. by rewrite Hx. Qed.

Lemma vupd_run s p x f :
  sp_heap s !! p = Some x → vupd p f s = Ok (tt, set_sp_heap (<[p := f x]> (sp_heap s)) s).
Proof. intros Hx. unfold vupd. by rewrite (st_bind_Ok _ _ _ _ _ (vread_run s p x Hx)). Qed.

Lemma vertex_new_run s k lsa :
  lsa_type (l_data lsa) = Ok k.1 → lsa_id (l_data lsa) = Ok k.2 →
  let w := fresh (dom (sp_heap s)) in
  ospf_vertex_new lsa s = Ok (w, set_sp_heap (<[w := Vertex 0 k.1 k.2 (l_data lsa) 0 [] []]> (sp_heap s)) s) ∧
  sp_heap s !! w = None.
Proof.
  intros Ht Hi w. split; [|apply not_elem_of_dom, is_fresh].
  unfold ospf_vertex_new. rewrite (st_bind_Ok _ _ _ k.1 s) by (unfold st_lift; by rewrite Ht).
  rewrite (st_bind_Ok _ _ _ k.2 s) by (unfold st_lift; by rewrite Hi). done.
Qed.

Lemma vertex_free_run s p x :
  sp_heap s !! p = Some x → ospf_vertex_free p s = Ok (tt, set_sp_heap (delete p (sp_heap s)) s).
Proof. intros Hx. unfold ospf_vertex_free. by rewrite (st_bind_Ok _ _ _ _ _ (vread_run s p x Hx)). Qed.

Lemma vertex_lookup_run s l id type :
  (∀ p, p ∈ l → is_Some (sp_heap s !! p)) →
  ∃ o, vertex_lookup_loop l id type s = Ok (o, s) ∧
    match o with
    | Some p => p ∈ l ∧ ∃ x, sp_heap s !! p = Some x ∧ vkey x = (type, id)
    | None => ∀ p x, p ∈ l → sp_heap s !! p = Some x → vkey x ≠ (type, id)
    end.
Proof.
  induction l as [|p l IH]; intros Hl; [exists None; split; [done|]; by intros p x ?%elem_of_nil|].
  destruct (Hl p) as [x Hx]; [left|]. cbn [vertex_lookup_loop]. rewrite (st_bind_Ok _ _ _ _ _ (vread_run s p x Hx)).
  destruct (Z.eqb_spec id (v_id x)) as [->|Hne]; cbn [andb]; [destruct (Z.eqb_spec type (v_type x)) as [->|Hne]|].
  - exists (Some p). split; [done|]. split; [left|]. by exists x.
  - destruct IH as (o & Ho & Hm); [intros q Hq; apply Hl; by right|]. exists o. split; [done|]. destruct o as [q|].
    + split; [right; apply Hm|apply Hm].
    + intros q y [->|Hq]%elem_of_cons Hy; [|by apply (Hm q y)]. unfold vkey. congruence.
  - destruct IH as (o & Ho & Hm); [intros q Hq; apply Hl; by right|]. exists o. split; [done|]. destruct o as [q|].
    + split; [right; apply Hm|apply Hm].
    + intros q y [->|Hq]%elem_of_cons Hy; [|by apply (Hm q y)]. unfold vkey. congruence.
Qed.

(** The new candidate is put in its place. *)
Lemma install_loop_run s w d l :
  dist_of (sp_heap s) w = d → (∀ p, p ∈ l → is_Some (sp_heap s !! p)) → StronglySorted Z.le (dist_of (sp_heap s) <$> l) →
  ∃ l', install_loop w d l s = Ok (l', s) ∧ l' ≡ₚ w :: l ∧ StronglySorted Z.le (dist_of (sp_heap s) <$> l').
Proof.
  intros Hw. induction l as [|p l IH]; intros Hl Hs; [exists [w]; split_and!; [done|done|by repeat constructor]|].
  destruct (Hl p) as [x Hx]; [left|]. cbn [install_loop]. rewrite (st_bind_Ok _ _ _ _ _ (vread_run s p x Hx)).
  pose proof (dist_of_at _ _ _ Hx) as Hd. cbn [fmap list_fmap] in Hs. apply StronglySorted_inv in Hs as [Hs Hp].
  destruct (Z.ltb_spec d (v_distance x)) as [Hlt|Hge].
  - exists (w :: p :: l). split_and!; [done|done|]. cbn [fmap list_fmap]. constructor; [by constructor|].
    rewrite Hw. constructor; [lia|]. eapply Forall_impl; [exact Hp|]. intros y Hy. cbn in *. lia.
  - destruct IH as (l' & Hl' & Hperm & Hs'); [intros q Hq; apply Hl; by right|done|].
    rewrite (st_bind_Ok _ _ _ _ _ Hl'). exists (p :: l'). split_and!; [done|rewrite Hperm; by constructor|].
    cbn [fmap list_fmap]. constructor; [done|]. rewrite Hperm. cbn [fmap list_fmap]. constructor; [lia|done].
Qed.

Lemma cand_at s S C p : rep s S C → p ∈ sp_candidate s → is_Some (sp_heap s !! p).
Proof. intros Hr Hp. destruct (rp_cand _ _ _ Hr p Hp) as (x & [Hx _] & _). by exists x. Qed.

Abbreviation grelax := (relax area now self).

Lemma relax_skip S x dx C k c : is_Some (S !! k) ∨ links_back area now self x k = false → grelax S x dx C (k, c) = C.
Proof.
  intros [[d Hd]|Hb]; unfold relax; [by rewrite bool_decide_false by (by rewrite Hd)|]. by rewrite Hb, andb_false_r.
Qed.

Lemma relax_do S x dx C k c :
  S !! k = None → links_back area now self x k = true →
  grelax S x dx C (k, c) = <[k := match C !! k with Some d => Z.min d (dx + c) | None => dx + c end]> C.
Proof. intros HS Hb. unfold relax. by rewrite bool_decide_true, Hb. Qed.

Lemma rep_root_tree s S C : rep s S C → is_Some (S !! root_key self).
Proof. intros Hr. destruct (rp_reg _ _ _ Hr _ _ (rp_root _ _ _ Hr)) as (x & _ & _ & HS & _). by exists (v_distance x). Qed.

(** The back link of a vertex of the database. *)
Lemma links_back_db x k lsa b :
  k ≠ root_key self → db_lsa area k = Some lsa → decode (l_data lsa) = Ok b →
  links_back area now self x k = live now lsa && points_at b x.
Proof.
  intros Hk Hdb Hb. unfold links_back, body, vertex_lsa. destruct (decide _); [done|]. rewrite Hdb.
  destruct (live now lsa); [|done]. by rewrite Hb.
Qed.

Lemma has_vertex_run s k d :
  lsa_type d = Ok k.1 → lsa_id d = Ok k.2 → is_vertex_type k.1 →
  ospf_spf_has_vertex d s = Ok (bool_decide (is_Some (reg s k)), s).
Proof.
  intros Ht Hi Hk. unfold ospf_spf_has_vertex. rewrite (st_bind_Ok _ _ _ k.2 s) by (unfold st_lift; by rewrite Hi).
  rewrite (st_bind_Ok _ _ _ k.1 s) by (unfold st_lift; by rewrite Ht). rewrite (st_bind_Ok _ _ _ s s) by done.
  unfold reg. by destruct Hk as [->| ->].
Qed.

(** The nexthops of the new vertex [w]: their parent is [v]. *)
Lemma nexthop_run s v vx w wx :
  (v = sp_root s → v_type vx = OSPF_ROUTER_LSA) → vat (sp_heap s) v vx →
  sp_heap s !! w = Some wx → vlsa (vkey wx) = Some (v_lsa wx) → v_nexthop wx = [] →
  (v_type vx = OSPF_NETWORK_LSA → v_type wx = OSPF_ROUTER_LSA) →
  ∃ l, ospf_nexthop_calculation area v w s = Ok (tt, set_sp_heap (<[w := set_v_nexthop l wx]> (sp_heap s)) s) ∧
    from_parent v l ∧ (l ≠ [] → v = sp_root s ∨ v_nexthop vx ≠ []) ∧
    ∃ bv bw, body area now self (vkey vx) = Some bv ∧ body area now self (vkey wx) = Some bw ∧
      Forall (via_hop area (sp_root s) v vx wx bv bw) l.
Proof.
  intros Hroot [Hv Hvl] Hw Hwl Hnil Hnet. unfold ospf_nexthop_calculation.
  rewrite (st_bind_Ok _ _ _ _ _ (vread_run s v vx Hv)), (st_bind_Ok _ _ _ _ _ (vread_run s w wx Hw)).
  rewrite (st_bind_Ok _ _ _ s s) by done.
  destruct (vertex_lsa_ok area now self Hok _ _ Hvl) as (Htv & _ & (bv & Hbv) & _ & _).
  destruct (vertex_lsa_ok area now self Hok _ _ Hwl) as (Htw & _ & (bw & Hbw) & _ & _).
  destruct (nexthops_via_ok area self Hok (sp_root s) v vx wx bv bw) as (l & Hl & Hfrom & Hne & Hhop); try done.
  rewrite (st_bind_Ok _ _ _ l s) by (unfold st_lift; by rewrite Hl). exists l. split; [by rewrite (vupd_run s w wx)|].
  split; [done|]. split; [done|]. exists bv, bw. unfold body. by rewrite Hvl, Hbv, Hwl, Hbw.
Qed.

Lemma root_is_router s S C v vx :
  rep s S C → sp_heap s !! v = Some vx → v = sp_root s → v_type vx = OSPF_ROUTER_LSA.
Proof.
  intros Hr Hv ->. destruct (rp_reg _ _ _ Hr _ _ (rp_root _ _ _ Hr)) as (x & [Hx _] & Hk & _).
  rewrite Hv in Hx. injection Hx as <-. by apply (f_equal fst) in Hk.
Qed.

Lemma raw_links_router rs i k c : raw_links (NetworkBody rs) !! i = Some (Some (k, c)) → k.1 = OSPF_ROUTER_LSA.
Proof. cbn. intros (r & Hr & _)%list_lookup_fmap_Some. by injection Hr as -> ->. Qed.

Lemma db_lsa_type k lsa : db_lsa area k = Some lsa → is_vertex_type k.1.
Proof.
  unfold db_lsa. destruct (Z.eqb_spec k.1 OSPF_ROUTER_LSA); [by left|]. destruct (Z.eqb_spec k.1 OSPF_NETWORK_LSA); [by right|done].
Qed.

(** The links of [v] and the metric of one of them make an edge. *)
Lemma raw_link_edge x vx b i k c :
  vlsa (vkey vx) = Some (v_lsa vx) → vkey vx = x → decode (v_lsa vx) = Ok b → raw_links b !! i = Some (Some (k, c)) →
  links_back area now self x k = true → gedge x k c.
Proof.
  intros Hv <- Hb Hi Hk. split; [|done]. unfold links_of, body. rewrite Hv, Hb. unfold links_to.
  apply list_elem_of_omap. exists (Some (k, c)). split; [by eapply list_elem_of_lookup_2|done].
Qed.

(** The part of spf_consider behind the checks: [w] is new. *)
Definition spf_offer (v w : positive) : ST spf unit :=
  wx ← vread w;
  node ← ospf_vertex_lookup (v_id wx) (v_type wx);
  match node with
  | None =>
      ospf_nexthop_calculation area v w;;
      ospf_install_candidate w
  | Some cw =>
      cx ← vread cw;
      if v_distance cx <? v_distance wx then ospf_vertex_free w
      else if v_distance cx =? v_distance wx then
        ospf_nexthop_calculation area v w;;
        wx ← vread w;
        vupd cw (λ c, set_v_nexthop (ospf_nexthop_merge (v_nexthop c) (v_nexthop wx)) c);;
        ospf_vertex_free w
      else
        ospf_nexthop_calculation area v w;;
        ospf_vertex_free cw;;
        st_modify (λ s, set_sp_candidate (without cw (sp_candidate s)) s);;
        ospf_install_candidate w
  end.

Lemma merge_in a b nh : nh ∈ ospf_nexthop_merge a b → nh ∈ a ∨ nh ∈ b.
Proof.
  revert a. induction b as [|x b IH]; intros a Hin; [by left|].
  destruct (IH _ Hin) as [Ha|Ha]; [|by right; right]. unfold ospf_nexthop_add_unique in Ha. case_bool_decide; [by left|].
  apply elem_of_app in Ha as [Ha|Ha]; [by left|]. apply list_elem_of_singleton in Ha as ->. right. left.
Qed.

Lemma install_candidate_run s w wx :
  sp_heap s !! w = Some wx → (∀ p, p ∈ sp_candidate s → is_Some (sp_heap s !! p)) →
  StronglySorted Z.le (dist_of (sp_heap s) <$> sp_candidate s) →
  ∃ l, ospf_install_candidate w s = Ok (tt, set_sp_candidate l s) ∧ l ≡ₚ w :: sp_candidate s ∧
    StronglySorted Z.le (dist_of (sp_heap s) <$> l).
Proof.
  intros Hw Hall Hs. unfold ospf_install_candidate. rewrite (st_bind_Ok _ _ _ _ _ (vread_run s w wx Hw)).
  rewrite (st_bind_Ok _ _ _ s s) by done.
  destruct (install_loop_run s w (v_distance wx) (sp_candidate s)) as (l & Hl & Hp & Hso); [by apply dist_of_at|done|done|].
  rewrite (st_bind_Ok _ _ _ _ _ Hl). by exists l.
Qed.

Section Offer.
Context (s : spf) (S C : dmap) (v : positive) (vx : vertex) (w : positive) (wx : vertex) (c : Z).
Context (Hr : rep s S C) (Hwn : sp_heap s !! w = None) (Hreg : reg s (vkey vx) = Some v) (Hv : vat (sp_heap s) v vx)
  (Hwl : vlsa (vkey wx) = Some (v_lsa wx)) (Hnil : v_nexthop wx = []) (Hplain : plain wx) (HS : S !! vkey wx = None)
  (He : gedge (vkey vx) (vkey wx) c) (Hd : v_distance wx = v_distance vx + c)
  (Hnet : v_type vx = OSPF_NETWORK_LSA → v_type wx = OSPF_ROUTER_LSA).

Let s1 : spf := set_sp_heap (<[w := wx]> (sp_heap s)) s.

Lemma offer_old p x : sp_heap s !! p = Some x → p ≠ w ∧ sp_heap s1 !! p = Some x.
Proof. intros Hp. assert (p ≠ w) by congruence. split; [done|]. cbn. by rewrite lookup_insert_ne. Qed.

(** The nexthops [l] come from [v]. *)
Definition via (l : list vertex_nexthop) : Prop :=
  from_parent v l ∧ (l ≠ [] → v = sp_root s ∨ v_nexthop vx ≠ []) ∧ Forall (hop_ok s wx) l.

(** What the calculation finds is a first hop. *)
Lemma via_hop_ok bv bw nh :
  body area now self (vkey vx) = Some bv → body area now self (vkey wx) = Some bw → nh_parent nh = v →
  via_hop area (sp_root s) v vx wx bv bw nh → hop_ok s wx nh.
Proof.
  intros Hbv Hbw Hpar Hnh. destruct (rp_reg _ _ _ Hr _ _ Hreg) as (x & [Hx _] & _ & HSx & Hpx).
  destruct Hv as [Hvh _]. rewrite Hvh in Hx. injection Hx as <-.
  unfold hop_ok. rewrite Hpar. unfold via_hop in Hnh. destruct (decide (v = sp_root s)) as [E|E].
  - destruct (rp_reg _ _ _ Hr _ _ (rp_root _ _ _ Hr)) as (x & [Hx _] & Hk & _). rewrite <- E, Hvh in Hx. injection Hx as <-.
    assert (v_distance vx = 0) as H0. { pose proof (rp_start _ _ _ Hr) as H0. rewrite <- Hk in H0. congruence. }
    rewrite bool_decide_true by done. rewrite H0 in Hd. cbn in Hd. rewrite Hk in He, Hbv.
    assert (Hvid : v_id vx = (root_key self).2) by (by rewrite <- Hk). rewrite Hd.
    destruct (decide (v_type wx = OSPF_ROUTER_LSA)) as [Ht|Ht].
    + destruct Hnh as (l & l2 & oi & Hl & Hty & Hl2 & Hoi & Ha & ->). rewrite Hvid in Hl2.
      eapply (hop_router _ _ _ _ _ _ l l2 oi); try done; [by exists bv|by exists bw].
    + destruct Hnh as (l & oi & Hl & Hoi & Ha & ->). eapply (hop_network _ _ _ _ _ _ l oi); try done. by exists bv.
  - rewrite bool_decide_false by done. destruct Hnh as (nh' & Hin & Hcase).
    destruct (Hpx nh' Hin) as (_ & _ & _ & _ & _ & _ & _ & Hh). unfold hop_ok in Hh. rewrite Hd. destruct Hcase as [(Ht & Hp' & l & Hl & -> & ->)|(Hno & -> & ->)].
    + rewrite bool_decide_true in Hh by done. eapply (hop_attached _ _ _ (vkey vx)); try done. by exists bw.
    + eapply hop_inherit; [exact Hh| |done]. intros Ht. apply bool_decide_false. by apply Hno.
Qed.

Lemma offer_parents l : via l → parents_ok s (set_v_nexthop l wx).
Proof.
  intros (Hl & Hne & Hh) nh Hnh. cbn in Hnh. unfold from_parent in Hl. rewrite Forall_forall in Hl, Hh. rewrite (Hl nh Hnh). exists vx, c.
  split_and!; [done..| |exact (Hh nh Hnh)]. apply Hne. by intros ->; apply elem_of_nil in Hnh.
Qed.

Lemma offer_nexthops :
  ∃ l, ospf_nexthop_calculation area v w s1 = Ok (tt, set_sp_heap (<[w := set_v_nexthop l wx]> (sp_heap s)) s) ∧ via l.
Proof.
  destruct Hv as [Hvh Hvl]. destruct (offer_old v vx Hvh) as [_ Hv1].
  destruct (nexthop_run s1 v vx w wx) as (l & Hl & Hf & Hne & bv & bw & Hbv & Hbw & Hh); try done.
  - intros E. by apply (root_is_router s S C v vx Hr Hvh).
  - cbn. by rewrite lookup_insert_eq.
  - exists l. split; [rewrite Hl; unfold s1, set_sp_heap; cbn; by rewrite insert_insert_eq|]. split; [done|]. split; [done|].
    unfold from_parent in Hf. rewrite Forall_forall in Hf, Hh |- *. intros nh Hnh. by apply (via_hop_ok bv bw); [| |apply Hf|apply Hh].
Qed.

Lemma sorted_frame h : (∀ p, p ∈ sp_candidate s → h !! p = sp_heap s !! p) →
  StronglySorted Z.le (dist_of h <$> sp_candidate s).
Proof. intros Hh. rewrite (dist_fmap (sp_heap s)) by done. apply (rp_sorted _ _ _ Hr). Qed.

Lemma cand_ne_w p : p ∈ sp_candidate s → p ≠ w.
Proof. intros Hp ->. destruct (cand_at s S C w Hr Hp) as [x Hx]. congruence. Qed.

(** No candidate has the key of [w]. *)
Lemma offer_new l :
  C !! vkey wx = None → via l →
  ∃ s', ospf_install_candidate w (set_sp_heap (<[w := set_v_nexthop l wx]> (sp_heap s)) s) = Ok (tt, s') ∧
    rep s' S (<[vkey wx := v_distance wx]> C) ∧ evolves s s'.
Proof.
  intros HC Hl. set (s2 := set_sp_heap _ s).
  destruct (install_candidate_run s2 w (set_v_nexthop l wx)) as (l' & Hi & Hp & Hso).
  - cbn. by rewrite lookup_insert_eq.
  - intros p Hpc. cbn. rewrite lookup_insert_ne; [by apply (cand_at s S C)|]. intros <-. by apply (cand_ne_w w).
  - apply sorted_frame. intros p Hpc. cbn. apply lookup_insert_ne. intros <-. by apply (cand_ne_w w).
  - exists (set_sp_candidate l' s2). split; [done|].
    apply (rep_add s S C w (set_v_nexthop l wx) l' (sp_transit s)); try done. by apply offer_parents.
Qed.

End Offer.

Lemma offer_run s S C v vx w wx c :
  rep s S C → sp_heap s !! w = None → reg s (vkey vx) = Some v → vat (sp_heap s) v vx →
  vlsa (vkey wx) = Some (v_lsa wx) → v_nexthop wx = [] → plain wx → S !! vkey wx = None →
  gedge (vkey vx) (vkey wx) c → v_distance wx = v_distance vx + c →
  (v_type vx = OSPF_NETWORK_LSA → v_type wx = OSPF_ROUTER_LSA) →
  ∃ s', spf_offer v w (set_sp_heap (<[w := wx]> (sp_heap s)) s) = Ok (tt, s') ∧
    rep s' S (<[vkey wx := match C !! vkey wx with Some d => Z.min d (v_distance wx) | None => v_distance wx end]> C) ∧
    evolves s s'.
Proof.
  intros Hr Hwn Hreg Hv Hwl Hnil Hplain HS He Hd Hnet. set (s1 := set_sp_heap _ s).
  assert (Hw1 : sp_heap s1 !! w = Some wx) by (cbn; by rewrite lookup_insert_eq).
  assert (Hc1 : ∀ p, p ∈ sp_candidate s → p ≠ w ∧ sp_heap s1 !! p = sp_heap s !! p).
  { intros p Hp. pose proof (cand_ne_w s S C w Hr Hwn p Hp). split; [done|]. cbn. by rewrite lookup_insert_ne. }
  destruct (offer_nexthops s S C v vx w wx c Hr Hwn Hreg Hv Hwl Hnil He Hd Hnet) as (l & Hnh & Hl).
  unfold spf_offer. rewrite (st_bind_Ok _ _ _ _ _ (vread_run s1 w wx Hw1)).
  destruct (vertex_lookup_run s1 (sp_candidate s1) (v_id wx) (v_type wx)) as (o & Ho & Hm).
  { intros p Hp. destruct (Hc1 p Hp) as [_ ->]. by apply (cand_at s S C). }
  rewrite (st_bind_Ok _ _ _ o s1). 2:{ unfold ospf_vertex_lookup. by rewrite (st_bind_Ok _ _ _ s1 s1). }
  destruct o as [cw|].
  2:{ rewrite (st_bind_Ok _ _ _ _ _ Hnh). assert (C !! vkey wx = None) as HC.
      { destruct (C !! vkey wx) as [d|] eqn:E; [|done]. destruct (rp_dist _ _ _ Hr _ _ E) as (p & x & Hp & Hx & Hk).
        destruct (Hm p x Hp); [by destruct (Hc1 p Hp) as [_ ->]|done]. }
      rewrite HC. by apply (offer_new s S C v vx w wx c). }
  destruct Hm as [Hcw (cx & Hcx & Hck)]. destruct (Hc1 cw Hcw) as [Hcne Hch]. rewrite Hch in Hcx.
  rewrite (st_bind_Ok _ _ _ cx s1) by (apply vread_run; by rewrite Hch).
  destruct (rp_cand _ _ _ Hr cw Hcw) as (x' & [Hx' _] & HC & _ & Hpar & _). rewrite Hcx in Hx'. injection Hx' as <-.
  assert (vkey cx = vkey wx) as Hkk by done. rewrite Hkk in HC. rewrite HC.
  destruct (Z.ltb_spec (v_distance cx) (v_distance wx)) as [Hlt|Hge]; [|destruct (Z.eqb_spec (v_distance cx) (v_distance wx)) as [Heq|Hneq]].
  - exists s. rewrite (vertex_free_run s1 w wx Hw1). unfold s1, set_sp_heap. cbn. rewrite delete_insert_id by done.
    rewrite Z.min_l by lia. rewrite insert_id by done. split_and!; [by destruct s|done|apply evolves_refl].
  - rewrite (st_bind_Ok _ _ _ _ _ Hnh). set (s2 := set_sp_heap _ s).
    assert (Hw2 : sp_heap s2 !! w = Some (set_v_nexthop l wx)) by (cbn; by rewrite lookup_insert_eq).
    assert (Hcw2 : sp_heap s2 !! cw = Some cx) by (cbn; by rewrite lookup_insert_ne).
    rewrite (st_bind_Ok _ _ _ _ _ (vread_run s2 w _ Hw2)).
    rewrite (st_bind_Ok _ _ _ _ _ (vupd_run s2 cw cx _ Hcw2)). set (l' := ospf_nexthop_merge _ _). set (s3 := set_sp_heap _ s2).
    rewrite (vertex_free_run s3 w (set_v_nexthop l wx)) by (cbn; by rewrite lookup_insert_ne).
    rewrite Z.min_l, insert_id by (done || lia). eexists. split; [reflexivity|].
    assert (set_sp_heap (delete w (sp_heap s3)) s3 = set_sp_heap (<[cw := set_v_nexthop l' cx]> (sp_heap s)) s) as ->.
    { unfold s3, s2, set_sp_heap. cbn. f_equal. rewrite delete_insert_ne by done. by rewrite delete_insert_id. }
    apply (rep_nexthops s S C); [done..|]. intros nh Hin. cbn in Hin. destruct (merge_in _ _ nh Hin) as [Ha|Ha].
    + by apply Hpar.
    + destruct Hl as (Hl & Hlne & Hlh). unfold from_parent in Hl. rewrite Forall_forall in Hl, Hlh. rewrite (Hl nh Ha). exists vx, c.
      split; [done|]. split; [done|]. split; [change (vkey (set_v_nexthop l' cx)) with (vkey cx); by rewrite Hkk|].
      split; [cbn; lia|]. split; [apply Hlne; by intros ->; apply elem_of_nil in Ha|].
      pose proof (Hlh nh Ha) as Hh. unfold hop_ok in Hh |- *. rewrite <- Hkk, <- Heq in Hh. done.
  - rewrite (st_bind_Ok _ _ _ _ _ Hnh). set (s2 := set_sp_heap _ s).
    rewrite (st_bind_Ok _ _ _ _ _ (vertex_free_run s2 cw cx ltac:(cbn; by rewrite lookup_insert_ne))).
    unfold st_modify at 1. rewrite (st_bind_Ok _ _ _ tt _ eq_refl).
    destruct (rep_remove s S C cw cx (delete cw (sp_heap s)) (sp_transit s) Hr Hcw Hcx) as [Hr0 Ht0].
    { intros q Hq. by rewrite lookup_delete_ne. }
    set (s0 := Spf _ _ _ _ _ _ _) in Hr0, Ht0. rewrite Hkk in Hr0.
    destruct (offer_new s0 S (delete (vkey wx) C) v vx w wx c) with (l := l) as (s' & Hs' & Hrs & Hts); try done.
    + cbn. by rewrite lookup_delete_ne.
    + destruct Hv as [Hvh Hvl]. split; [|done]. by rewrite (st_heap _ _ Ht0 _ _ Hreg).
    + by rewrite lookup_delete_eq.
    + exists s'. split_and!.
      * rewrite <- Hs'. f_equal. unfold s0, s2, set_sp_heap, set_sp_candidate. cbn. f_equal. by rewrite delete_insert_ne.
      * rewrite Z.min_r by lia. by rewrite insert_delete_eq in Hrs.
      * split; [eapply same_tree_trans; [done|apply Hts]|]. intros Hn. apply Hts. intros q y Hq. cbn in Hq |- *.
        apply lookup_delete_Some in Hq as [Hne Hq]. destruct (Hn q y Hq) as [Hqc|Hqr]; [left|by right].
        apply elem_of_without; [apply (rp_nodup _ _ _ Hr)|done].
Qed.

(** ** One link, all links of a vertex *)

Lemma consider_run s S C v vx b i k c lsa :
  rep s S C → reg s (vkey vx) = Some v → vat (sp_heap s) v vx → decode (v_lsa vx) = Ok b →
  raw_links b !! i = Some (Some (k, c)) → db_lsa area k = Some lsa → is_u32 (v_distance vx + c) →
  ∃ s', spf_consider area now v (offset b i) lsa s = Ok (tt, s') ∧
    rep s' S (grelax S (vkey vx) (v_distance vx) C (k, c)) ∧ evolves s s'.
Proof.
  intros Hr Hreg Hv Hb Hi Hdb Hu. pose proof Hv as [Hvh Hvl].
  destruct (vertex_lsa_ok area now self Hok _ _ Hvl) as (Htv & Hiv & _ & _ & Hvt). unfold vkey in Htv, Hiv, Hvt. cbn [fst snd] in Htv, Hiv, Hvt.
  destruct (db_lsa_ok area self Hok k lsa Hdb) as [Hlsa Hid]. pose proof Hlsa as [Hty (bk & Hbk) _].
  pose proof (db_lsa_type k lsa Hdb) as Hkt.
  assert (Hskip : (is_Some (S !! k) ∨ links_back area now self (vkey vx) k = false) →
    ∃ s', Ok (tt, s) = Ok (tt, s') ∧ rep s' S (grelax S (vkey vx) (v_distance vx) C (k, c)) ∧ evolves s s').
  { intros Hsk. exists s. rewrite relax_skip by done. split_and!; [done|done|apply evolves_refl]. }
  assert (Hroot : k = root_key self → is_Some (S !! k)) by (intros ->; by apply (rep_root_tree s S C)).
  unfold spf_consider. rewrite (st_bind_Ok _ _ _ _ _ (vread_run s v vx Hvh)).
  rewrite (st_bind_Ok _ _ _ (negb (live now lsa)) s) by (unfold st_lift; by rewrite (lsa_ok_live now k.1 lsa)).
  destruct (live now lsa) eqn:Hlive; cbn [negb].
  2:{ apply Hskip. destruct (decide (k = root_key self)); [left; auto|right]. by rewrite (links_back_db _ k lsa bk), Hlive. }
  rewrite (st_bind_Ok _ _ _ (points_at bk (vkey vx)) s).
  2:{ unfold st_lift. by rewrite (has_link_spec _ bk _ _ _ Hbk Htv Hiv Hvt). }
  destruct (points_at bk (vkey vx)) eqn:Hpt; cbn [negb].
  2:{ apply Hskip. destruct (decide (k = root_key self)); [left; auto|right]. by rewrite (links_back_db _ k lsa bk), Hpt, andb_false_r. }
  rewrite (st_bind_Ok _ _ _ _ _ (has_vertex_run s k _ Hty Hid Hkt)).
  case_bool_decide as Hreg'.
  { apply Hskip. left. destruct Hreg' as [p Hp]. destruct (rp_reg _ _ _ Hr k p Hp) as (x & _ & _ & HS & _). by exists (v_distance x). }
  assert (S !! k = None) as HS.
  { destruct (S !! k) as [d|] eqn:E; [|done]. destruct Hreg'. by apply (rp_tree _ _ _ Hr k d). }
  assert (k ≠ root_key self) as Hne by (intros E; destruct (Hroot E); congruence).
  assert (links_back area now self (vkey vx) k = true) as Hback by (rewrite (links_back_db _ k lsa bk), Hlive, Hpt by done; done).
  destruct (vertex_new_run s k lsa Hty Hid) as [Hnew Hfresh]. set (w := fresh (dom (sp_heap s))) in *.
  rewrite (st_bind_Ok _ _ _ _ _ Hnew). set (s1 := set_sp_heap _ s).
  rewrite (st_bind_Ok _ _ _ (v_distance vx + c) s1) by (unfold st_lift; by rewrite (link_distance_spec vx b i k c)).
  set (wx0 := Vertex 0 k.1 k.2 (l_data lsa) 0 [] []).
  rewrite (st_bind_Ok _ _ _ _ _ (vupd_run s1 w wx0 _ ltac:(cbn; by rewrite lookup_insert_eq))).
  set (wx := set_v_distance (v_distance vx + c) wx0).
  assert (set_sp_heap (<[w := wx]> (sp_heap s1)) s1 = set_sp_heap (<[w := wx]> (sp_heap s)) s) as ->.
  { unfold s1, set_sp_heap. cbn. by rewrite insert_insert_eq. }
  assert (vkey wx = k) as Hkw by (by destruct k).
  destruct (offer_run s S C v vx w wx c) as (s' & Hs' & Hrs & Hts); try done.
  - rewrite Hkw. unfold vertex_lsa. destruct (decide _); [done|]. by rewrite Hdb, Hlive.
  - rewrite Hkw. by apply (raw_link_edge (vkey vx) vx b i).
  - intros Hnt. change (v_type wx) with k.1. destruct (decode_inv _ _ Hb) as (_ & _ & Hbb).
    destruct b as [f ls|rs]; [rewrite (ro_type _ _ _ Hbb), Hnt in Htv; by injection Htv|]. by eapply raw_links_router.
  - exists s'. split_and!; [exact Hs'| |done]. rewrite relax_do by done. by rewrite Hkw in Hrs.
Qed.

Lemma next_loop_run s S C v vx b i fuel :
  rep s S C → reg s (vkey vx) = Some v → vat (sp_heap s) v vx → decode (v_lsa vx) = Ok b →
  (∀ k c, (k, c) ∈ links_to b → is_u32 (v_distance vx + c)) →
  (i ≤ length (raw_links b))%nat → (length (raw_links b) - i ≤ fuel)%nat →
  ∃ s', spf_next_loop area now fuel v (offset b i) (offset b (length (raw_links b))) s = Ok (tt, s') ∧
    rep s' S (relax_all area now self S (vkey vx) (v_distance vx) (omap id (drop i (raw_links b))) C) ∧ evolves s s'.
Proof.
  intros Hr Hreg Hv Hb Hu. pose proof Hv as [Hvh Hvl]. revert s C i Hr Hreg Hv Hvh.
  induction fuel as [|fuel IH]; intros s C i Hr Hreg Hv Hvh Hi Hf.
  { assert (i = length (raw_links b)) as -> by lia. rewrite drop_all. cbn [spf_next_loop]. rewrite Z.ltb_irrefl.
    exists s. split_and!; [done|done|apply evolves_refl]. }
  cbn [spf_next_loop]. destruct (Z.ltb_spec (offset b i) (offset b (length (raw_links b)))) as [Hlt|Hge].
  2:{ assert (i = length (raw_links b)) as -> by (unfold offset in Hge; destruct b; cbn [stride] in Hge; lia).
      rewrite drop_all. exists s. split_and!; [done|done|apply evolves_refl]. }
  assert (i < length (raw_links b))%nat as Hil.
  { unfold offset in Hlt. destruct b; cbn [stride] in Hlt; lia. }
  destruct (lookup_lt_is_Some_2 _ _ Hil) as [o Ho]. rewrite (st_bind_Ok _ _ _ _ _ (vread_run s v vx Hvh)).
  rewrite (st_bind_Ok _ _ _ (offset b (Datatypes.S i), match o with Some (k, _) => db_lsa area k | None => None end) s).
  2:{ unfold st_lift. by rewrite (link_target_spec area self Hok _ b i o Hb Ho). }
  cbn [fst snd]. rewrite (drop_S _ _ _ Ho).
  assert (∃ s1, match match o with Some (k, _) => db_lsa area k | None => None end with
      | Some w_lsa => spf_consider area now v (offset b i) w_lsa | None => mret tt end s = Ok (tt, s1) ∧
    rep s1 S (match o with Some l => grelax S (vkey vx) (v_distance vx) C l | None => C end) ∧ evolves s s1) as (s1 & Hs1 & Hr1 & Ht1).
  { destruct o as [[k c]|]; [|exists s; split_and!; [done|done|apply evolves_refl]].
    destruct (db_lsa area k) as [lsa|] eqn:Hdb.
    - apply (consider_run s S C v vx b i k c lsa); try done. apply (Hu k c). unfold links_to.
      apply list_elem_of_omap. exists (Some (k, c)). split; [by eapply list_elem_of_lookup_2|done].
    - exists s. split_and!; [done| |apply evolves_refl]. rewrite relax_skip; [done|].
      destruct (decide (k = root_key self)) as [->|Hne]; [left; by apply (rep_root_tree s S C)|right].
      unfold links_back, body, vertex_lsa. destruct (decide _); [done|]. by rewrite Hdb. }
  rewrite (st_bind_Ok _ _ _ _ _ Hs1).
  assert (sp_heap s1 !! v = Some vx) as Hv1 by (by rewrite (st_heap _ _ (ev_tree _ _ Ht1) _ _ Hreg)).
  destruct (IH s1 _ (Datatypes.S i) Hr1) as (s' & Hs' & Hr' & Ht'); [by rewrite (same_tree_reg s s1) by apply Ht1|done|done|lia|lia|].
  exists s'. split_and!; [done| |by eapply evolves_trans]. by destruct o.
Qed.

End Run.
