(* ===== verification/OspfSpfTree.v ===== *)
(** The shortest-path tree: the loop of ospf_spf_calculate takes the nearest candidate to
    the tree until there is none. *)

From stdpp Require Import sorting.
From S2P Require Import Prelude Prefix Stream OspfLsa OspfIf OspfSpf OspfSpfGraph OspfSpfRead OspfSpfRun.

Section Tree.
Context (area : spf_area) (now : timeval) (self : ospf_lsa) (Hok : area_ok area self).

Abbreviation vlsa := (vertex_lsa area now self).
Abbreviation gedge := (edge area now self).
Abbreviation dmap := (gmap key Z).
Abbreviation grep := (rep area now self).
Abbreviation gat := (vat area now self).
Abbreviation glinks := (links_of area now self).
Abbreviation grelax_all := (relax_all area now self).

Lemma rep_transit s S C t : grep s S C → grep (set_sp_transit t s) S C.
Proof. intros []. by split. Qed.

Lemma next_run s S C v vx :
  grep s S C → reg s (vkey vx) = Some v → gat (sp_heap s) v vx →
  (∀ k c, (k, c) ∈ glinks (vkey vx) → is_u32 (v_distance vx + c)) →
  ∃ s', ospf_spf_next area now v s = Ok (tt, s') ∧
    grep s' S (grelax_all S (vkey vx) (v_distance vx) (glinks (vkey vx)) C) ∧ evolves s s'.
Proof.
  intros Hr Hreg Hv Hu. pose proof Hv as [Hvh Hvl].
  destruct (vertex_lsa_ok area now self Hok _ _ Hvl) as (Htv & _ & (b & Hb) & _ & _).
  assert (Hlinks : glinks (vkey vx) = links_to b) by (unfold links_of, body; by rewrite Hvl, Hb). rewrite Hlinks in *.
  unfold ospf_spf_next. rewrite (st_bind_Ok _ _ _ _ _ (vread_run s v vx Hvh)).
  match goal with |- context [(?m ≫= _) s] => assert (∃ t, m s = Ok (tt, set_sp_transit t s)) as (t & Ht) end.
  { assert (set_sp_transit (sp_transit s) s = s) as E by (by destruct s).
    destruct (Z.eqb_spec (v_type vx) OSPF_VERTEX_ROUTER) as [Er|]; [|exists (sp_transit s); by rewrite E].
    destruct (decode_inv _ _ Hb) as (_ & _ & Hbb). unfold vkey in Htv. cbn [fst] in Htv.
    destruct b as [f ls|rs]; [|rewrite (ne_type _ _ Hbb), Er in Htv; by injection Htv].
    rewrite (st_bind_Ok _ _ _ f s) by (unfold st_lift; by rewrite (ro_flags _ _ _ Hbb)).
    destruct (CHECK_FLAG f ROUTER_LSA_VIRTUAL); [by exists OSPF_TRANSIT_TRUE|exists (sp_transit s); by rewrite E]. }
  rewrite (st_bind_Ok _ _ _ _ _ Ht). set (s1 := set_sp_transit t s).
  rewrite (st_bind_Ok _ _ _ (offset b (length (raw_links b))) s1) by (unfold st_lift; by rewrite (decode_length _ _ Hb)).
  change (OSPF_LSA_HEADER_SIZE + 4) with 24. replace 24 with (offset b 0) by (unfold offset; lia).
  destruct (next_loop_run area now self Hok s1 S C v vx b 0 (Z.to_nat (offset b (length (raw_links b))))) as (s' & Hs' & Hr' & Ht');
    [by apply rep_transit|done|done|done|done|lia|unfold offset; destruct b; cbn [stride]; lia|].
  exists s'. split_and!; [done|done|]. eapply evolves_trans; [|exact Ht']. split; [by split|done].
Qed.

(** ** To the tree *)

(** [y] with the child [v], when [p], where [y] is, is a parent of [v]. *)
Definition adopt_to (v : positive) (ps : list positive) (p : positive) (y : vertex) : vertex :=
  if bool_decide (p ∈ ps) && negb (bool_decide (v ∈ v_child y)) then set_v_child (v_child y ++ [v]) y else y.

Lemma adopt_child v ps p y q : q ∈ v_child (adopt_to v ps p y) ↔ q ∈ v_child y ∨ q = v ∧ p ∈ ps.
Proof.
  unfold adopt_to. destruct (bool_decide_reflect (p ∈ ps)), (bool_decide_reflect (v ∈ v_child y)); cbn [andb negb]; try naive_solver.
  cbn. rewrite elem_of_app, list_elem_of_singleton. naive_solver.
Qed.

Lemma adopt_same v ps p y :
  ∃ c, adopt_to v ps p y = set_v_child c y.
Proof. unfold adopt_to. case_match; [by eexists|]. exists (v_child y). by destruct y. Qed.

Lemma adopt_loop_run s v l :
  (∀ nh, nh ∈ l → is_Some (sp_heap s !! nh_parent nh)) →
  ∃ h, st_iter (λ nh,
         px ← vread (nh_parent nh);
         if bool_decide (v ∈ v_child px) then mret tt
         else vupd (nh_parent nh) (set_v_child (v_child px ++ [v]))) l s = Ok (tt, set_sp_heap h s) ∧
    ∀ p, h !! p = adopt_to v (nh_parent <$> l) p <$> (sp_heap s !! p).
Proof.
  revert s. induction l as [|nh l IH]; intros s Hl.
  { exists (sp_heap s). split; [by destruct s|]. intros p. by destruct (sp_heap s !! p). }
  cbn [st_iter]. destruct (Hl nh) as [px Hpx]; [left|].
  assert (Hstep : (px ← vread (nh_parent nh);
         if bool_decide (v ∈ v_child px) then mret tt
         else vupd (nh_parent nh) (set_v_child (v_child px ++ [v]))) s =
    Ok (tt, set_sp_heap (<[nh_parent nh := adopt_to v [nh_parent nh] (nh_parent nh) px]> (sp_heap s)) s)).
  { rewrite (st_bind_Ok _ _ _ _ _ (vread_run s _ px Hpx)). unfold adopt_to. rewrite (bool_decide_true (nh_parent nh ∈ [nh_parent nh])) by left.
    destruct (bool_decide (v ∈ v_child px)); cbn [andb negb]; [|by rewrite (vupd_run s _ px)].
    rewrite insert_id by done. by destruct s. }
  rewrite (st_bind_Ok _ _ _ _ _ Hstep). set (h1 := <[_ := _]> (sp_heap s)).
  destruct (IH (set_sp_heap h1 s)) as (h & Hh & Hp).
  { intros nh' Hin. cbn. unfold h1. destruct (decide (nh_parent nh' = nh_parent nh)) as [->|Hne];
      [rewrite lookup_insert_eq; by eexists|]. rewrite lookup_insert_ne by done. apply Hl. by right. }
  exists h. split; [done|]. intros p. rewrite Hp. cbn. unfold h1.
  destruct (decide (p = nh_parent nh)) as [->|Hne].
  - rewrite lookup_insert_eq, Hpx. cbn. f_equal. unfold adopt_to at 3. rewrite (bool_decide_true (nh_parent nh ∈ nh_parent nh :: (nh_parent <$> l))) by left.
    unfold adopt_to at 2. rewrite (bool_decide_true (nh_parent nh ∈ [nh_parent nh])) by left. cbn [andb].
    destruct (bool_decide_reflect (v ∈ v_child px)) as [Hin|Hin]; cbn [negb]; unfold adopt_to.
    + by rewrite (bool_decide_true (v ∈ v_child px)), andb_false_r.
    + rewrite (bool_decide_true (v ∈ v_child (set_v_child _ _))), andb_false_r; [done|].
      cbn. apply elem_of_app. right. by left.
  - rewrite lookup_insert_ne by done. destruct (sp_heap s !! p) as [y|]; [|done]. cbn. f_equal. unfold adopt_to.
    assert (bool_decide (p ∈ nh_parent nh :: (nh_parent <$> l)) = bool_decide (p ∈ nh_parent <$> l)) as ->; [|done].
    apply bool_decide_ext. rewrite elem_of_cons. naive_solver.
Qed.

(** Other children do not change what the state stands for. *)
Lemma rep_children s S C h :
  grep s S C → (∀ p, ∃ c, h !! p = set_v_child c <$> (sp_heap s !! p)) → (∀ p, p ∈ sp_candidate s → h !! p = sp_heap s !! p) →
  grep (set_sp_heap h s) S C.
Proof.
  intros Hr Hh Hc.
  assert (Hat : ∀ p x, gat (sp_heap s) p x → ∃ c, gat h p (set_v_child c x)).
  { intros p x [Hx Hv]. destruct (Hh p) as [c Hp]. exists c. split; [by rewrite Hp, Hx|done]. }
  assert (Hpar : ∀ x x', parents_ok area now self s x → v_nexthop x' = v_nexthop x → vkey x' = vkey x → v_distance x' = v_distance x →
    parents_ok area now self (set_sp_heap h s) x').
  { intros x x' Hx Hn Hk Hd nh Hnh. rewrite Hn in Hnh. destruct (Hx nh Hnh) as (y & c & Hreg & Hy & He & Hdy).
    destruct (Hat _ _ Hy) as [ch Hy']. exists (set_v_child ch y), c. unfold hop_ok in *. rewrite Hk, Hd. done. }
  destruct Hr as [H1 H2 H3 H4 H5 H6 H7 H8 H9]. split; try done.
  - intros k p Hk. destruct (H1 k p Hk) as (x & Hx & Hkx & HS & Hp). destruct (Hat _ _ Hx) as [c Hx'].
    exists (set_v_child c x). split_and!; [done..|]. by apply (Hpar x).
  - intros p Hp. destruct (H3 p Hp) as (x & [Hx Hv] & HC & HS & Hpx & Hpl). exists x.
    split; [split; [cbn; by rewrite Hc|done]|]. split; [done|split; [done|split; [by apply (Hpar x)|done]]].
  - intros k d Hk. destruct (H4 k d Hk) as (p & x & Hp & Hx & Hkx). exists p, x. cbn. by rewrite Hc.
  - intros p q x y Hp Hq Hx Hy. cbn in Hx, Hy. rewrite Hc in Hx, Hy by done. by apply H5.
  - cbn. by rewrite (dist_fmap (sp_heap s)).
Qed.

(** The vertex [v] leaves the list of candidates and is registered. *)
Lemma rep_register s S C v x :
  grep s S C → v ∈ sp_candidate s → sp_heap s !! v = Some x →
  let s1 := set_sp_candidate (without v (sp_candidate s)) s in
  ∃ s', ospf_spf_register v s1 = Ok (tt, s') ∧ grep s' (<[vkey x := v_distance x]> S) (delete (vkey x) C) ∧
    sp_heap s' = sp_heap s ∧ sp_candidate s' = sp_candidate s1 ∧ sp_adds s' = sp_adds s ∧ sp_root s' = sp_root s ∧
    ∀ k, reg s' k = if decide (k = vkey x) then Some v else reg s k.
Proof.
  intros Hr Hin Hx s1. unfold ospf_spf_register. rewrite (st_bind_Ok _ _ _ _ _ (vread_run s1 v x Hx)).
  destruct (rep_remove area now self s S C v x (sp_heap s) (sp_transit s) Hr Hin Hx) as [Hr1 Ht1]; [done|].
  change (Spf _ _ _ _ _ _ _) with s1 in Hr1, Ht1.
  destruct (rp_cand _ _ _ _ _ _ Hr v Hin) as (x' & [Hx' Hv] & HC & HS & Hpar & Hpl). rewrite Hx in Hx'. injection Hx' as <-.
  destruct (vertex_lsa_ok area now self Hok _ _ Hv) as (_ & _ & _ & _ & Hvt). unfold vkey in Hvt. cbn [fst] in Hvt.
  set (s' := if v_type x =? OSPF_VERTEX_ROUTER then set_sp_rv (<[v_id x := v]> (sp_rv s1)) s1 else set_sp_nv (<[v_id x := v]> (sp_nv s1)) s1).
  exists s'. split; [unfold s'; by case_match|].
  assert (Hreg : ∀ k, reg s' k = if decide (k = vkey x) then Some v else reg s k).
  { intros [t i]. unfold reg, s', vkey. cbn [fst snd]. destruct Hvt as [E|E]; rewrite E.
    - cbn. destruct (Z.eqb_spec t OSPF_ROUTER_LSA) as [->|Hne]; [|destruct (decide _) as [Ed|]; [by injection Ed|done]].
      destruct (decide (_ = _)) as [[= ->]|Hne]; [by rewrite lookup_insert_eq|]. rewrite lookup_insert_ne; [done|congruence].
    - cbn. destruct (Z.eqb_spec t OSPF_ROUTER_LSA) as [->|Hne]; [destruct (decide _) as [Ed|]; [by injection Ed|done]|].
      destruct (Z.eqb_spec t OSPF_NETWORK_LSA) as [->|Hne']; [|destruct (decide _) as [Ed|]; [by injection Ed|done]].
      destruct (decide (_ = _)) as [[= ->]|Hne2]; [by rewrite lookup_insert_eq|]. rewrite lookup_insert_ne; [done|congruence]. }
  assert (Hh : sp_heap s' = sp_heap s ∧ sp_candidate s' = sp_candidate s1 ∧ sp_root s' = sp_root s ∧ sp_adds s' = sp_adds s)
    by (unfold s'; by case_match). destruct Hh as (Hh & Hc & Hrt & Had).
  split; [|split_and!; done].
  assert (Hnone : reg s (vkey x) = None).
  { destruct (reg s (vkey x)) as [p|] eqn:E; [|done]. destruct (rp_reg _ _ _ _ _ _ Hr _ _ E) as (? & _ & _ & ? & _). congruence. }
  assert (Hp' : ∀ y, parents_ok area now self s y → parents_ok area now self s' y).
  { intros y Hy nh Hnh. destruct (Hy nh Hnh) as (z & c & Hz & Hz2 & He & Hd). exists z, c. unfold hop_ok in *. rewrite Hreg, Hh.
    rewrite Hrt. split; [|done]. destruct (decide _) as [E|]; [|done]. rewrite E in Hz. congruence. }
  destruct Hr1 as [H1 H2 H3 H4 H5 H6 H7 H8 H9]. split; rewrite ?Hh, ?Hc; try done.
  - intros k p. rewrite Hreg. destruct (decide (k = vkey x)) as [->|Hne].
    + intros [= <-]. exists x. split_and!; [done|done|by rewrite lookup_insert_eq|by apply Hp'].
    + intros Hk. destruct (H1 k p Hk) as (y & Hy & Hky & HSy & Hpy). exists y.
      split_and!; [done|done|by rewrite lookup_insert_ne|by apply Hp'].
  - intros k d. rewrite Hreg. destruct (decide (k = vkey x)) as [->|Hne]; [by eexists|]. rewrite lookup_insert_ne by done. apply H2.
  - intros p Hp. destruct (H3 p Hp) as (y & Hy & HCy & HSy & Hpy & Hply). exists y.
    apply lookup_delete_Some in HCy as Hd. destruct Hd as [Hne _].
    split; [done|split; [done|split; [by rewrite lookup_insert_ne|split; [by apply Hp'|done]]]].
  - rewrite Hreg, Hrt. destruct (decide _) as [E|]; [|done]. exfalso. rewrite <- E in HS.
    destruct (rep_root_tree area now self s S C Hr). congruence.
  - rewrite lookup_insert_ne; [done|]. intros E. rewrite E in HS. congruence.
Qed.

(** ** The size of the tree *)

Definition all_keys : list key :=
  root_key self :: ((λ e : Z * Z * ospf_lsa, (OSPF_ROUTER_LSA, e.1.1)) <$> map_to_list (sa_routers area)) ++
    ((λ lsa, (OSPF_NETWORK_LSA, match lsa_id (l_data lsa) with Ok i => i | Fail _ => 0 end)) <$> sa_networks area).

Lemma vertex_in_keys k d : vlsa k = Some d → k ∈ all_keys.
Proof.
  unfold vertex_lsa, all_keys. destruct (decide (k = root_key self)) as [->|Hne]; [left|]. intros Hk. right. apply elem_of_app.
  destruct k as [t i]. unfold db_lsa, router_lookup in Hk. cbn [fst snd] in Hk.
  destruct (Z.eqb_spec t OSPF_ROUTER_LSA) as [->|Ht]; [left|destruct (Z.eqb_spec t OSPF_NETWORK_LSA) as [->|]; [right|done]].
  - destruct (sa_routers area !! (i, i)) as [lsa|] eqn:E; [|done]. apply list_elem_of_fmap. exists (i, i, lsa).
    split; [done|]. by apply elem_of_map_to_list.
  - destruct (network_by_id_ok (sa_networks area) i (ao_networks _ _ Hok)) as (o & Ho & Hm). rewrite Ho in Hk.
    destruct o as [lsa|]; [|done]. destruct Hm as (_ & Hid & Hin). apply list_elem_of_fmap. exists lsa. by rewrite Hid.
Qed.

Lemma tree_size s S C : grep s S C → (size S ≤ spf_fuel area)%nat.
Proof.
  intros Hr. rewrite <- length_map_to_list, <- (length_fmap fst). unfold spf_fuel.
  assert (length all_keys = Datatypes.S (size (sa_routers area) + length (sa_networks area))) as <-.
  { unfold all_keys. cbn. by rewrite length_app, !length_fmap, length_map_to_list. }
  apply submseteq_length, NoDup_submseteq; [apply NoDup_fst_map_to_list|].
  intros k ([k' d] & -> & Hk)%list_elem_of_fmap. apply elem_of_map_to_list in Hk. cbn.
  destruct (rp_tree _ _ _ _ _ _ Hr k' d Hk) as [p Hp]. destruct (rp_reg _ _ _ _ _ _ Hr k' p Hp) as (x & [_ Hv] & <- & _).
  by eapply vertex_in_keys.
Qed.

(** ** The loop *)

(** The tree in the order of registration: parents come before their children. *)
Record tree_ok (s : spf) (ord : list positive) : Prop := TreeOk {
  to_nodup : NoDup ord;
  to_reg : ∀ p, p ∈ ord ↔ ∃ k, reg s k = Some p;
  to_child : ∀ i p x q, ord !! i = Some p → sp_heap s !! p = Some x → q ∈ v_child x →
    ∃ j y, (i < j)%nat ∧ ord !! j = Some q ∧ sp_heap s !! q = Some y ∧ p ∈ nh_parent <$> v_nexthop y;
  to_parent : ∀ q y p, q ∈ ord → sp_heap s !! q = Some y → p ∈ nh_parent <$> v_nexthop y →
    ∃ x, sp_heap s !! p = Some x ∧ q ∈ v_child x;
  to_flags : ∀ p x, p ∈ ord → sp_heap s !! p = Some x → v_flags x = 0;
}.

Lemma tree_ok_same s s' S C ord : grep s S C → same_tree s s' → tree_ok s ord → tree_ok s' ord.
Proof.
  intros Hr Ht [H1 H2 H3 H4 H5].
  assert (Hh : ∀ p, p ∈ ord → sp_heap s' !! p = sp_heap s !! p).
  { intros p Hp. apply H2 in Hp as [k Hk]. by apply (st_heap _ _ Ht k). }
  split; [done| | | |].
  - intros p. rewrite H2. by setoid_rewrite (same_tree_reg s s' _ Ht).
  - intros i p x q Hi Hx Hq. rewrite Hh in Hx by (by eapply list_elem_of_lookup_2).
    destruct (H3 i p x q Hi Hx Hq) as (j & y & Hj & Hoj & Hy & Hp). exists j, y. split_and!; [done|done| |done].
    rewrite Hh; [done|by eapply list_elem_of_lookup_2].
  - intros q y p Hq Hy Hp. rewrite Hh in Hy by done. destruct (H4 q y p Hq Hy Hp) as (x & Hx & Hin). exists x.
    split; [|done]. apply H2 in Hq as [k Hk]. destruct (rp_reg _ _ _ _ _ _ Hr k q Hk) as (y' & [Hy' _] & _ & _ & Hpar).
    rewrite Hy in Hy'. injection Hy' as <-. apply list_elem_of_fmap in Hp as (nh & -> & Hnh).
    destruct (Hpar nh Hnh) as (z & c & Hz & _). rewrite (st_heap _ _ Ht _ _ Hz). done.
  - intros p x Hp Hx. rewrite Hh in Hx by done. by apply (H5 p).
Qed.

Definition add_of (x : vertex) : route_add :=
  if v_type x =? OSPF_VERTEX_ROUTER then ospf_intra_add_router x else ospf_intra_add_transit x.

(** [x] is on the tree; it may have got children. *)
Definition on_tree (s : spf) (x : vertex) : Prop :=
  ∃ p c, reg s (vkey x) = Some p ∧ sp_heap s !! p = Some (set_v_child c x).

(** Every vertex of the tree but the root has been added to the routing tables once, with
    its distance. *)
Definition adds_ok (s : spf) (S : dmap) : Prop :=
  ∃ xs, sp_adds s = add_of <$> xs ∧ NoDup (vkey <$> xs) ∧
    (∀ k, k ∈ vkey <$> xs ↔ k ≠ root_key self ∧ is_Some (S !! k)) ∧
    Forall (λ x, S !! vkey x = Some (v_distance x)) xs ∧ Forall (on_tree s) xs ∧
    StronglySorted Z.le (v_distance <$> xs).

Lemma sorted_snoc (l : list Z) x : StronglySorted Z.le l → Forall (λ y, y ≤ x) l → StronglySorted Z.le (l ++ [x]).
Proof.
  induction 1 as [|y l Hl IH Hy]; intros Hx; [by repeat constructor|]. apply Forall_cons in Hx as [Hyx Hx].
  cbn. constructor; [by apply IH|]. apply Forall_app. split; [done|by constructor].
Qed.

Lemma adds_ok_add s s' S x :
  adds_ok s S → S !! vkey x = None → vkey x ≠ root_key self → sp_adds s' = sp_adds s ++ [add_of x] →
  (∀ y, on_tree s y → on_tree s' y) → on_tree s' x → (∀ k d, S !! k = Some d → d ≤ v_distance x) →
  adds_ok s' (<[vkey x := v_distance x]> S).
Proof.
  intros (xs & Hxs & Hnd & Hk & Hall & Hon & Hso) HS Hne Ha Hy Hx Hle. exists (xs ++ [x]). rewrite !fmap_app. cbn. split_and!.
  - by rewrite Ha, Hxs.
  - apply NoDup_app. split_and!; [done| |by repeat constructor; apply not_elem_of_nil].
    intros k Hin ->%list_elem_of_singleton. apply Hk in Hin as [_ [d Hd]]. congruence.
  - intros k. rewrite elem_of_app, Hk, list_elem_of_singleton. destruct (decide (k = vkey x)) as [->|Hkx].
    + rewrite lookup_insert_eq. split; [intros _; split; [done|by eexists]|by right].
    + rewrite lookup_insert_ne by done. naive_solver.
  - apply Forall_app. split; [|constructor; [by rewrite lookup_insert_eq|constructor]].
    eapply Forall_impl; [exact Hall|]. intros y Hyd. cbn in Hyd |- *. rewrite lookup_insert_ne; [done|]. intros E. congruence.
  - apply Forall_app. split; [|by constructor]. eapply Forall_impl; [exact Hon|done].
  - apply sorted_snoc; [done|]. apply Forall_fmap. eapply Forall_impl; [exact Hall|]. intros y Hyd. by apply (Hle (vkey y)).
Qed.

Lemma tree_ok_add s s' S C v x h ord :
  grep s S C → v ∈ sp_candidate s → sp_heap s !! v = Some x → tree_ok s ord →
  (∀ p, h !! p = adopt_to v (nh_parent <$> v_nexthop x) p <$> (sp_heap s !! p)) →
  sp_heap s' = h → (∀ k, reg s' k = if decide (k = vkey x) then Some v else reg s k) →
  tree_ok s' (ord ++ [v]).
Proof.
  intros Hr Hin Hx [H1 H2 H3 H4 H5] Hh Hs' Hreg.
  destruct (rp_cand _ _ _ _ _ _ Hr v Hin) as (x' & [Hx' _] & _ & HS & Hpar & Hfl & Hch). rewrite Hx in Hx'. injection Hx' as <-.
  assert (Hv : v ∉ ord). { rewrite H2. intros [k Hk]. by apply (reg_not_cand area now self s S C k v Hr Hk). }
  assert (Hpar' : ∀ p, p ∈ nh_parent <$> v_nexthop x → p ∈ ord).
  { intros p (nh & -> & Hnh)%list_elem_of_fmap. destruct (Hpar nh Hnh) as (y & c & Hy & _). apply H2. by eexists. }
  assert (Hvv : h !! v = Some x).
  { rewrite Hh, Hx. cbn. f_equal. unfold adopt_to. rewrite (bool_decide_false (v ∈ _)); [done|]. intros E. by apply Hv, Hpar'. }
  assert (Hold : ∀ p y', h !! p = Some y' → ∃ y, sp_heap s !! p = Some y ∧ y' = adopt_to v (nh_parent <$> v_nexthop x) p y ∧
    v_nexthop y' = v_nexthop y ∧ v_flags y' = v_flags y).
  { intros p y' Hy. rewrite Hh in Hy. destruct (sp_heap s !! p) as [y|]; [|done]. injection Hy as <-. exists y.
    destruct (adopt_same v (nh_parent <$> v_nexthop x) p y) as [c E]. rewrite E. done. }
  split; rewrite ?Hs'.
  - apply NoDup_app. split_and!; [done| |by repeat constructor; apply not_elem_of_nil]. by intros p Hp ->%list_elem_of_singleton.
  - intros p. rewrite elem_of_app, H2, list_elem_of_singleton. setoid_rewrite Hreg. split.
    + intros [[k Hk]| ->]; [|exists (vkey x); by rewrite decide_True].
      exists k. rewrite decide_False; [done|]. intros ->. destruct (rp_reg _ _ _ _ _ _ Hr _ _ Hk) as (? & _ & _ & ? & _). congruence.
    + intros [k Hk]. destruct (decide (k = vkey x)); [right; by injection Hk|left; by exists k].
  - intros i p y' q Hi Hy Hq. destruct (Hold p y' Hy) as (y & Hy0 & -> & _). apply adopt_child in Hq.
    assert (i < length ord ∧ ord !! i = Some p ∨ i = length ord ∧ p = v)%nat as [[Hil Hip]|[-> ->]].
    { apply lookup_app_Some in Hi as [Hi|[Hge Hi]]; [left; split; [by eapply lookup_lt_Some|done]|right].
      apply list_lookup_singleton_Some in Hi as [Hz ->]. split; [lia|done]. }
    + destruct Hq as [Hq|[-> Hp]].
      * destruct (H3 i p y q Hip Hy0 Hq) as (j & z & Hj & Hoj & Hz & Hpz).
        destruct (h !! q) as [z'|] eqn:Ez; [|rewrite Hh, Hz in Ez; done].
        destruct (Hold q z' Ez) as (z0 & Hz0 & _ & Hn & _). rewrite Hz in Hz0. injection Hz0 as <-. exists j, z'.
        split_and!; [done|by apply lookup_app_l_Some|done|by rewrite Hn].
      * exists (length ord), x. split_and!; [lia|by apply list_lookup_middle|done|done].
    + exfalso. rewrite Hx in Hy0. injection Hy0 as <-. rewrite Hch in Hq. destruct Hq as [?%elem_of_nil|[_ Hp]]; [done|].
      by apply Hv, Hpar'.
  - intros q y' p Hq Hy Hp. destruct (Hold q y' Hy) as (y & Hy0 & _ & Hn & _). rewrite Hn in Hp.
    apply elem_of_app in Hq as [Hq| ->%list_elem_of_singleton].
    + destruct (H4 q y p Hq Hy0 Hp) as (z & Hz & Hqz). exists (adopt_to v (nh_parent <$> v_nexthop x) p z).
      split; [by rewrite Hh, Hz|]. apply adopt_child. by left.
    + rewrite Hx in Hy0. injection Hy0 as <-. apply list_elem_of_fmap in Hp as (nh & -> & Hnh).
      destruct (Hpar nh Hnh) as (z & c & _ & [Hz _] & _). exists (adopt_to v (nh_parent <$> v_nexthop x) (nh_parent nh) z).
      split; [by rewrite Hh, Hz|]. apply adopt_child. right. split; [done|]. apply list_elem_of_fmap. by exists nh.
  - intros p y' Hp Hy. destruct (Hold p y' Hy) as (y & Hy0 & _ & _ & ->).
    apply elem_of_app in Hp as [Hp| ->%list_elem_of_singleton]; [by apply (H5 p)|]. by rewrite Hx in Hy0; injection Hy0 as <-.
Qed.

(** The first candidate goes to the tree. *)
Lemma take_run s S C v x rest ord :
  grep s S C → sp_candidate s = v :: rest → sp_heap s !! v = Some x → tree_ok s ord → adds_ok s S →
  (∀ k d, S !! k = Some d → d ≤ v_distance x) →
  ∃ s', (ospf_vertex_add_parent v;;
         st_modify (λ s, set_sp_candidate (without v (sp_candidate s)) s);;
         ospf_spf_register v;;
         vx ← vread v;
         st_modify (add_route (if v_type vx =? OSPF_VERTEX_ROUTER then ospf_intra_add_router vx else ospf_intra_add_transit vx))) s = Ok (tt, s') ∧
    grep s' (<[vkey x := v_distance x]> S) (delete (vkey x) C) ∧ reg s' (vkey x) = Some v ∧ sp_heap s' !! v = Some x ∧
    tree_ok s' (ord ++ [v]) ∧ adds_ok s' (<[vkey x := v_distance x]> S) ∧ sp_root s' = sp_root s ∧ (noleak s → noleak s').
Proof.
  intros Hr Hc Hx Ht Ha Hle. assert (Hin : v ∈ sp_candidate s) by (rewrite Hc; left).
  destruct (rp_cand _ _ _ _ _ _ Hr v Hin) as (x' & [Hx' Hvl] & _ & HS & Hpar & _). rewrite Hx in Hx'. injection Hx' as <-.
  destruct (adopt_loop_run s v (v_nexthop x)) as (h & Hrun & Hh).
  { intros nh Hnh. destruct (Hpar nh Hnh) as (y & c & _ & [Hy _] & _). by exists y. }
  rewrite (st_bind_Ok _ _ _ tt (set_sp_heap h s)).
  2:{ unfold ospf_vertex_add_parent. by rewrite (st_bind_Ok _ _ _ _ _ (vread_run s v x Hx)). }
  assert (Hcand : ∀ p, p ∈ sp_candidate s → h !! p = sp_heap s !! p).
  { intros p Hp. rewrite Hh. destruct (sp_heap s !! p) as [y|]; [|done]. cbn. f_equal. unfold adopt_to.
    rewrite (bool_decide_false (p ∈ _)); [done|]. intros (nh & -> & Hnh)%list_elem_of_fmap.
    destruct (Hpar nh Hnh) as (z & c & Hz & _). by apply (reg_not_cand area now self s S C _ _ Hr Hz). }
  assert (Hr1 : grep (set_sp_heap h s) S C).
  { apply rep_children; [done| |done]. intros p. rewrite Hh. destruct (sp_heap s !! p) as [y|]; [|by exists []].
    destruct (adopt_same v (nh_parent <$> v_nexthop x) p y) as [c E]. exists c. cbn. by rewrite E. }
  assert (Hxh : h !! v = Some x) by (by rewrite Hcand).
  unfold st_modify at 1. rewrite (st_bind_Ok _ _ _ tt _ eq_refl).
  destruct (rep_register (set_sp_heap h s) S C v x Hr1 Hin Hxh) as (s2 & Hs2 & Hr2 & Hh2 & Hc2 & Ha2 & Hrt2 & Hreg2).
  rewrite (st_bind_Ok _ _ _ _ _ Hs2).
  rewrite (st_bind_Ok _ _ _ _ _ (vread_run s2 v x ltac:(rewrite Hh2; done))).
  eexists. split; [reflexivity|]. set (s3 := add_route _ s2).
  assert (Hreg3 : ∀ k, reg s3 k = if decide (k = vkey x) then Some v else reg s k) by (intros k; apply Hreg2).
  split; [|split; [|split; [|split; [|split; [|split]]]]].
  - by destruct Hr2; split.
  - rewrite Hreg3. by rewrite decide_True.
  - cbn. by rewrite Hh2.
  - apply (tree_ok_add s s3 S C v x h ord); done.
  - apply (adds_ok_add s); [done|done| | | | |done].
    + intros E. rewrite E in HS. destruct (rep_root_tree area now self s S C Hr). congruence.
    + cbn. by rewrite Ha2.
    + intros y (p & c & Hp & Hy). destruct (adopt_same v (nh_parent <$> v_nexthop x) p (set_v_child c y)) as [c' E].
      exists p, c'. rewrite Hreg3. split.
      * rewrite decide_False; [done|]. intros E'. rewrite E' in Hp. destruct (rp_reg _ _ _ _ _ _ Hr _ _ Hp) as (? & _ & _ & ? & _). congruence.
      * cbn. rewrite Hh2. cbn. by rewrite Hh, Hy; cbn; rewrite E.
    + exists v, (v_child x). rewrite Hreg3, decide_True by done. split; [done|]. cbn. rewrite Hh2. cbn. rewrite Hxh. by destruct x.
  - cbn. done.
  - intros Hn p y Hy. cbn in Hy. rewrite Hh2 in Hy. cbn in Hy. rewrite Hh in Hy. destruct (sp_heap s !! p) as [y'|] eqn:Ey; [|done].
    destruct (decide (p = v)) as [->|Hne]; [right; exists (vkey x); rewrite Hreg3; by rewrite decide_True|].
    destruct (Hn p y' Ey) as [Hp|[k Hk]].
    + left. change (sp_candidate s3) with (sp_candidate s2). rewrite Hc2. apply elem_of_without; [apply (rp_nodup _ _ _ _ _ _ Hr)|done].
    + right. exists k. rewrite Hreg3. rewrite decide_False; [done|]. intros ->.
      destruct (rp_reg _ _ _ _ _ _ Hr _ _ Hk) as (? & _ & _ & ? & _). congruence.
Qed.

Lemma head_least s S C v x rest k d :
  grep s S C → sp_candidate s = v :: rest → sp_heap s !! v = Some x → C !! k = Some d → v_distance x ≤ d.
Proof.
  intros Hr Hc Hx Hk. destruct (rp_dist _ _ _ _ _ _ Hr k d Hk) as (p & y & Hp & Hy & <-).
  destruct (rp_cand _ _ _ _ _ _ Hr p Hp) as (y' & [Hy' _] & HC & _). rewrite Hy in Hy'. injection Hy' as <-.
  assert (v_distance y = d) as <- by congruence. pose proof (rp_sorted _ _ _ _ _ _ Hr) as Hs. rewrite Hc in Hs, Hp.
  cbn [fmap list_fmap] in Hs. apply StronglySorted_inv in Hs as [_ Hall]. rewrite (dist_of_at _ _ _ Hx) in Hall.
  apply elem_of_cons in Hp as [->|Hp]; [rewrite Hx in Hy; injection Hy as <-; lia|].
  rewrite Forall_forall in Hall. apply Hall. apply list_elem_of_fmap. exists p. split; [|done]. by rewrite (dist_of_at _ _ y).
Qed.

Lemma loop_run fuel s S C v vx ord :
  let C1 := grelax_all S (vkey vx) (v_distance vx) (glinks (vkey vx)) C in
  grep s S C → reg s (vkey vx) = Some v → sp_heap s !! v = Some vx → tree_ok s ord → adds_ok s S → noleak s →
  dinv area now self S C1 → dbound S C1 → (spf_fuel area - size S < fuel)%nat →
  ∃ s' S' ord', spf_loop area now fuel v s = Ok (tt, s') ∧ grep s' S' ∅ ∧ dinv area now self S' ∅ ∧ sp_candidate s' = [] ∧
    tree_ok s' ord' ∧ adds_ok s' S' ∧ sp_root s' = sp_root s ∧ noleak s' ∧ dbound S' ∅.
Proof.
  pose proof (metrics_of_area area now self Hok) as Hm.
  revert s S C v vx ord. induction fuel as [|fuel IH]; intros s S C v vx ord C1 Hr Hreg Hv Ht Ha Hn Hinv Hbd Hf; [lia|].
  assert (gat (sp_heap s) v vx) as Hat.
  { destruct (rp_reg _ _ _ _ _ _ Hr _ _ Hreg) as (x & [Hx Hvl] & _). rewrite Hv in Hx. injection Hx as <-. done. }
  destruct (next_run s S C v vx Hr Hreg Hat) as (s1 & Hs1 & Hr1 & Hev).
  { intros k c Hkc. specialize (Hm _ _ _ Hkc). destruct (rp_reg _ _ _ _ _ _ Hr _ _ Hreg) as (x & [Hx _] & _ & HS & _).
    rewrite Hv in Hx. injection Hx as <-. pose proof (db_tree _ _ Hbd _ _ HS) as Hb. pose proof (tree_size s S C Hr) as Hsz.
    pose proof (ao_size _ _ Hok) as Hao. unfold spf_fuel in Hsz. unfold is_u32. lia. }
  pose proof (ev_tree _ _ Hev) as Hst. pose proof (ev_leak _ _ Hev Hn) as Hn1.
  cbn [spf_loop]. rewrite (st_bind_Ok _ _ _ _ _ Hs1). rewrite (st_bind_Ok _ _ _ s1 s1) by done.
  assert (Ht1 : tree_ok s1 ord) by (by apply (tree_ok_same s s1 S C)).
  assert (Ha1 : adds_ok s1 S).
  { destruct Ha as (xs & Hxs & Hrest). exists xs. split; [by rewrite (st_adds _ _ Hst)|].
    destruct Hrest as (Hnd & Hk & Hd & Hon & Hso). split_and!; [done..| |done]. eapply Forall_impl; [exact Hon|]. intros y (p & c & Hp & Hy).
    exists p, c. by rewrite (same_tree_reg s s1), (st_heap _ _ Hst _ _ Hp). }
  destruct (sp_candidate s1) as [|v' rest] eqn:Hc.
  { assert (C1 = ∅) as HC1.
    { apply map_eq. intros k. rewrite lookup_empty. destruct (C1 !! k) as [d|] eqn:E; [|done].
      destruct (rp_dist _ _ _ _ _ _ Hr1 k d E) as (p & _ & Hp & _). rewrite Hc in Hp. by apply elem_of_nil in Hp. }
    fold C1 in Hr1. rewrite HC1 in Hr1, Hinv, Hbd. exists s1, S, ord. do 6 (split; [done|]). split; [apply (st_root _ _ Hst)|done]. }
  destruct (rp_cand _ _ _ _ _ _ Hr1 v') as (x & [Hx Hxl] & HCx & HSx & _); [rewrite Hc; left|].
  destruct (take_run s1 S C1 v' x rest ord Hr1 Hc Hx Ht1 Ha1 (λ k d Hk, di_order _ _ _ _ _ Hinv k (vkey x) d (v_distance x) Hk HCx)) as (s2 & Hs2 & Hr2 & Hreg2 & Hx2 & Ht2 & Ha2 & Hrt2 & Hn2).
  assert (Hstep : dstep area now self (S, C1) (<[vkey x := v_distance x]> S,
    grelax_all (<[vkey x := v_distance x]> S) (vkey x) (v_distance x) (glinks (vkey x)) (delete (vkey x) C1))).
  { constructor; [done|]. intros k' d' Hk'. by apply (head_least s1 S C1 v' x rest k' d'). }
  destruct (IH s2 (<[vkey x := v_distance x]> S) (delete (vkey x) C1) v' x (ord ++ [v'])) as (s' & S' & ord' & Hs' & H1 & H2 & H3 & H4 & H5 & H6 & H7 & H8);
    try done.
  - by apply Hn2.
  - by apply (dstep_inv area now self S C1).
  - by apply (dstep_bound area now self S C1).
  - assert (size (<[vkey x := v_distance x]> S) = Datatypes.S (size S)) as -> by (by apply map_size_insert_None).
    pose proof (tree_size s2 _ _ Hr2) as Hsz.
    assert (size (<[vkey x := v_distance x]> S) = Datatypes.S (size S)) as E by (by apply map_size_insert_None). lia.
  - exists s', S', ord'. split; [|do 5 (split; [done|]); split; [by rewrite H6, Hrt2, (st_root _ _ Hst)|done]].
    rewrite <- Hs'. clear -Hs2. unfold mbind, ST_bind in *.
    destruct (ospf_vertex_add_parent v' s1) as [[[] t1]|]; [|done]. cbn in *.
    destruct (ospf_spf_register v' _) as [[[] t2]|]; [|done]. cbn in *. destruct (vread v' t2) as [[y t3]|]; [|done].
    by injection Hs2 as ->.
Qed.

End Tree.
