(* ===== verification/OspfSpfStub.v ===== *)
(** The end of ospf_spf_calculate: the stub networks of the routers on the tree are added,
    each once, and the tree is freed. *)

From stdpp Require Import sorting.
From S2P Require Import Prelude Prefix Stream OspfLsa OspfIf OspfSpf OspfSpfGraph OspfSpfRead OspfSpfRun OspfSpfTree.

Section Stub.
Context (area : spf_area) (now : timeval) (self : ospf_lsa) (Hok : area_ok area self).

Abbreviation vlsa := (vertex_lsa area now self).
Abbreviation dmap := (gmap key Z).
Abbreviation grep := (rep area now self).
Abbreviation gat := (vat area now self).

(** * The first stage *)

Lemma start_run :
  ∃ s w, ospf_spf_init self spf_start = Ok (tt, s) ∧ sp_root s = w ∧
    sp_heap s = {[w := Vertex 0 OSPF_ROUTER_LSA (root_key self).2 (l_data self) 0 [] []]} ∧
    sp_candidate s = [] ∧ sp_adds s = [] ∧ ∀ k, reg s k = if decide (k = root_key self) then Some w else None.
Proof.
  destruct (ao_self _ _ Hok) as [Hty _ _]. pose proof (root_id area self Hok) as Hid.
  destruct (vertex_new_run spf_start (root_key self) self Hty Hid) as [Hnew _]. set (w := fresh _) in Hnew.
  unfold ospf_spf_init. rewrite (st_bind_Ok _ _ _ _ _ Hnew). unfold st_modify at 1. rewrite (st_bind_Ok _ _ _ tt _ eq_refl).
  set (s1 := Spf _ _ _ _ _ _ _). set (x := Vertex _ _ _ _ _ _ _) in *.
  assert (sp_heap s1 !! w = Some x) as Hx by (cbn; by rewrite lookup_insert_eq).
  rewrite (st_bind_Ok _ _ _ tt (set_sp_rv {[v_id x := w]} s1)).
  2:{ unfold ospf_spf_register. by rewrite (st_bind_Ok _ _ _ _ _ (vread_run s1 w x Hx)). }
  eexists _, w. split; [reflexivity|]. cbn. split_and!; [done..|]. intros [t i]. unfold reg, root_key. cbn.
  destruct (Z.eqb_spec t OSPF_ROUTER_LSA) as [->|Hne].
  - destruct (decide _) as [E|Hd]; [injection E as ->; apply lookup_singleton_eq|].
    apply lookup_singleton_ne. congruence.
  - rewrite decide_False by congruence. by destruct (t =? _).
Qed.

Lemma tree_run :
  ∃ s S ord, spf_tree area now self spf_start = Ok (tt, s) ∧ grep s S ∅ ∧ dinv area now self S ∅ ∧
    sp_candidate s = [] ∧ tree_ok s ord ∧ adds_ok self s S ∧ noleak s ∧ dbound S ∅.
Proof.
  pose proof (metrics_of_area area now self Hok) as Hm.
  destruct start_run as (s & w & Hs & Hw & Hh & Hc & Ha & Hreg). set (x := Vertex _ _ _ _ _ _ _) in Hh.
  assert (vkey x = root_key self) as Hk by done.
  assert (Hat : ∀ p y, sp_heap s !! p = Some y → p = w ∧ y = x) by (intros p y; rewrite Hh; by intros [<- <-]%lookup_singleton_Some).
  assert (Hxw : sp_heap s !! w = Some x) by (rewrite Hh; apply lookup_singleton_eq).
  assert (Hr : ∀ k p, reg s k = Some p ↔ k = root_key self ∧ p = w).
  { intros k p. rewrite Hreg. destruct (decide (k = root_key self)); naive_solver. }
  unfold spf_tree. rewrite (st_bind_Ok _ _ _ _ _ Hs). rewrite (st_bind_Ok _ _ _ s s) by done. rewrite Hw.
  destruct (loop_run area now self Hok (spf_fuel area) s {[root_key self := 0]} ∅ w x [w])
    as (s' & S & ord & Hrun & H1 & H2 & H3 & H4 & H5 & _ & H7 & H8).
  - split.
    + intros k p [-> ->]%Hr. exists x. split; [split; [done|rewrite Hk; unfold vertex_lsa; by rewrite decide_True]|].
      split; [done|]. split; [by rewrite lookup_singleton_eq|]. by intros nh ?%elem_of_nil.
    + intros k d [<- _]%lookup_singleton_Some. exists w. by apply Hr.
    + rewrite Hc. by intros p ?%elem_of_nil.
    + intros k d Hd. by rewrite lookup_empty in Hd.
    + rewrite Hc. by intros p q y z ?%elem_of_nil.
    + rewrite Hc. constructor.
    + rewrite Hc. constructor.
    + rewrite Hw. by apply Hr.
    + apply lookup_singleton_eq.
  - rewrite Hk. by apply Hr.
  - done.
  - split.
    + repeat constructor. apply not_elem_of_nil.
    + intros p. rewrite list_elem_of_singleton. split; [intros ->; exists (root_key self); by apply Hr|intros [k [_ ->]%Hr]; done].
    + intros i p y q _ Hy. destruct (Hat p y Hy) as [_ ->]. by intros ?%elem_of_nil.
    + intros q y p _ Hy. destruct (Hat q y Hy) as [_ ->]. by intros ?%elem_of_nil.
    + intros p y _ Hy. by destruct (Hat p y Hy) as [_ ->].
  - exists []. cbn. split_and!; [done|constructor| |constructor..]. intros k. split; [by intros ?%elem_of_nil|].
    intros [Hne [d [E _]%lookup_singleton_Some]]. by destruct Hne.
  - intros p y Hy. destruct (Hat p y Hy) as [-> _]. right. exists (root_key self). by apply Hr.
  - apply (dstart_inv area now self Hm).
  - apply (dstart_bound area now self Hm).
  - rewrite map_size_singleton. unfold spf_fuel. lia.
  - exists s', S, ord. done.
Qed.

(** * The stub networks *)

Fixpoint stub_links (l : Z) (ls : list rlink) (x : vertex) : list route_add :=
  match ls with
  | [] => []
  | y :: ls => (if rl_type y =? LSA_LINK_TYPE_STUB then [ospf_intra_add_stub l x] else []) ++ stub_links (l + 12) ls x
  end.

(** The routes to the stub networks of a vertex. *)
Definition stub_adds (x : vertex) : list route_add :=
  match decode (v_lsa x) with
  | Ok (RouterBody _ ls) => stub_links 24 ls x
  | _ => []
  end.

Definition add_routes (l : list route_add) (s : spf) : spf :=
  Spf (sp_heap s) (sp_candidate s) (sp_rv s) (sp_nv s) (sp_root s) (sp_transit s) (sp_adds s ++ l).

Lemma add_routes_nil s : add_routes [] s = s.
Proof. unfold add_routes. rewrite app_nil_r. by destruct s. Qed.

Lemma add_routes_app l1 l2 s : add_routes l2 (add_routes l1 s) = add_routes (l1 ++ l2) s.
Proof. unfold add_routes. cbn. by rewrite app_assoc. Qed.

Lemma stub_loop_run s x f ls i fuel :
  router_lsa (v_lsa x) f ls → (i ≤ length ls)%nat → (length ls - i ≤ fuel)%nat →
  stub_loop fuel x (24 + 12 * Z.of_nat i) (24 + 12 * Z.of_nat (length ls)) s =
    Ok (tt, add_routes (stub_links (24 + 12 * Z.of_nat i) (drop i ls) x) s).
Proof.
  intros Hx. revert i s. induction fuel as [|fuel IH]; intros i s Hi Hf.
  { assert (i = length ls) as -> by lia. rewrite drop_all. cbn [stub_loop stub_links]. by rewrite Z.ltb_irrefl, add_routes_nil. }
  cbn [stub_loop]. destruct (Z.ltb_spec (24 + 12 * Z.of_nat i) (24 + 12 * Z.of_nat (length ls))) as [Hlt|Hge].
  2:{ assert (i = length ls) as -> by lia. rewrite drop_all. cbn [stub_links]. by rewrite add_routes_nil. }
  destruct (lookup_lt_is_Some_2 ls i) as [y Hy]; [lia|]. rewrite (drop_S _ _ _ Hy). cbn [stub_links].
  destruct (ro_at _ _ _ Hx i y Hy) as [_ _ Hty _ Hnext].
  rewrite (st_bind_Ok _ _ _ (24 + 12 * Z.of_nat i + 12) s) by (unfold st_lift; by rewrite Hnext).
  rewrite (st_bind_Ok _ _ _ (rl_type y) s) by (unfold st_lift; by rewrite Hty).
  set (r := if rl_type y =? _ then [_] else []).
  rewrite (st_bind_Ok _ _ _ tt (add_routes r s)) by (unfold r; case_match; [done|by rewrite add_routes_nil]).
  replace (24 + 12 * Z.of_nat i + 12) with (24 + 12 * Z.of_nat (S i)) by lia.
  rewrite IH by lia. by rewrite add_routes_app.
Qed.

Lemma vertex_stubs_run s x :
  vlsa (vkey x) = Some (v_lsa x) →
  (if v_type x =? OSPF_VERTEX_ROUTER then
     lim ← st_lift (lsa_length (v_lsa x));
     stub_loop (Z.to_nat lim) x 24 lim
   else mret tt) s = Ok (tt, add_routes (stub_adds x) s).
Proof.
  intros Hv. destruct (vertex_lsa_ok area now self Hok _ _ Hv) as (Ht & _ & (b & Hb) & _ & _). unfold vkey in Ht. cbn [fst] in Ht.
  unfold stub_adds. rewrite Hb. destruct (decode_inv _ _ Hb) as (_ & _ & Hbb).
  destruct b as [f ls|rs].
  - rewrite (ro_type _ _ _ Hbb) in Ht. injection Ht as <-. change (OSPF_ROUTER_LSA =? OSPF_VERTEX_ROUTER) with true. cbv iota.
    rewrite (st_bind_Ok _ _ _ (24 + 12 * Z.of_nat (length ls)) s) by (unfold st_lift; by rewrite (ro_length _ _ _ Hbb)).
    apply (stub_loop_run s x f ls 0); [done|lia|lia].
  - rewrite (ne_type _ _ Hbb) in Ht. injection Ht as <-. cbn. by rewrite add_routes_nil.
Qed.

(** ** The walk over the tree *)

Section Walk.
Context (s0 : spf) (S0 : dmap) (ord : list positive) (Hr : grep s0 S0 ∅) (Ht : tree_ok s0 ord).

Let h0 : gmap positive vertex := sp_heap s0.

Definition mark_done (P : gset positive) (p : positive) (x : vertex) : vertex :=
  if bool_decide (p ∈ P) then set_v_flags (SET_FLAG (v_flags x) OSPF_VERTEX_PROCESSED) x else x.

(** [s0] with the vertices of [P] processed and the routes [l] added. *)
Definition walked (P : gset positive) (l : list route_add) : spf :=
  Spf (map_imap (λ p x, Some (mark_done P p x)) h0) (sp_candidate s0) (sp_rv s0) (sp_nv s0) (sp_root s0) (sp_transit s0) (sp_adds s0 ++ l).

Lemma walked_at P l p : sp_heap (walked P l) !! p = mark_done P p <$> h0 !! p.
Proof. cbn. rewrite map_lookup_imap. by destruct (h0 !! p). Qed.

Lemma walked_add P l1 l2 : add_routes l2 (walked P l1) = walked P (l1 ++ l2).
Proof. unfold add_routes, walked. cbn. by rewrite app_assoc. Qed.

Lemma walked_mark P l p x :
  h0 !! p = Some x → p ∉ P →
  vupd p (λ c, set_v_flags (SET_FLAG (v_flags c) OSPF_VERTEX_PROCESSED) c) (walked P l) = Ok (tt, walked ({[p]} ∪ P) l).
Proof.
  intros Hx Hp. assert (sp_heap (walked P l) !! p = Some x) as Hx'.
  { rewrite walked_at, Hx. cbn. unfold mark_done. by rewrite bool_decide_false. }
  rewrite (vupd_run _ _ _ _ Hx'). unfold set_sp_heap, walked. cbn. do 3 f_equal. apply map_eq. intros q.
  rewrite map_lookup_imap. destruct (decide (q = p)) as [->|Hne].
  - rewrite lookup_insert_eq, Hx. cbn. unfold mark_done. rewrite bool_decide_true by set_solver. done.
  - rewrite lookup_insert_ne by done. rewrite map_lookup_imap. destruct (h0 !! q) as [y|]; [|done]. cbn. unfold mark_done.
    by rewrite (bool_decide_ext (q ∈ {[p]} ∪ P) (q ∈ P)) by set_solver.
Qed.

Definition stubs_at (p : positive) : list route_add := match h0 !! p with Some x => stub_adds x | None => [] end.

Definition closed (P : gset positive) : Prop := ∀ p x q, p ∈ P → h0 !! p = Some x → q ∈ v_child x → q ∈ P.

(** [q] comes after the place [i] and has nexthops. *)
Definition deeper (i : nat) (q : positive) : Prop :=
  ∃ j y, (i < j)%nat ∧ ord !! j = Some q ∧ h0 !! q = Some y ∧ v_nexthop y ≠ [].

Lemma child_below i p x q : ord !! i = Some p → h0 !! p = Some x → q ∈ v_child x → deeper i q.
Proof.
  intros Hi Hx Hq. destruct (to_child _ _ Ht i p x q Hi Hx Hq) as (j & y & Hj & Ho & Hy & Hp). exists j, y. split_and!; [done..|].
  intros E. rewrite E in Hp. by apply elem_of_nil in Hp.
Qed.

(** The vertices [L] are visited when [P] have been. *)
Record visit (i : nat) (P : gset positive) (L : list positive) : Prop := Visit {
  vi_nodup : NoDup L;
  vi_new : ∀ q, q ∈ L → (q ∉ P) ∧ deeper i q;
  vi_closed : closed (list_to_set L ∪ P);
}.

Definition process_child (fuel : nat) (child : positive) : ST spf unit :=
  cx ← vread child;
  if CHECK_FLAG (v_flags cx) OSPF_VERTEX_PROCESSED then mret tt
  else
    ospf_spf_process_stubs fuel child;;
    vupd child (λ c, set_v_flags (SET_FLAG (v_flags c) OSPF_VERTEX_PROCESSED) c).

Definition process_ok (fuel : nat) : Prop := ∀ i v x P l,
  ord !! i = Some v → h0 !! v = Some x → (length ord - i ≤ fuel)%nat → closed P → v ∉ P →
  ∃ L, ospf_spf_process_stubs fuel v (walked P l) = Ok (tt, walked (list_to_set L ∪ P) (l ++ ((v :: L) ≫= stubs_at))) ∧
    visit i P L ∧ ∀ q, q ∈ v_child x → q ∈ (list_to_set L ∪ P : gset positive).

Lemma children_run fuel i cs P l :
  process_ok fuel → (length ord - Datatypes.S i ≤ fuel)%nat → (∀ c, c ∈ cs → deeper i c) → closed P →
  ∃ L, st_iter (process_child fuel) cs (walked P l) = Ok (tt, walked (list_to_set L ∪ P) (l ++ (L ≫= stubs_at))) ∧
    visit i P L ∧ ∀ q, q ∈ cs → q ∈ (list_to_set L ∪ P : gset positive).
Proof.
  intros Hok' Hf. revert P l. induction cs as [|c cs IH]; intros P l Hcs HP.
  { exists []. cbn. rewrite app_nil_r, (left_id_L ∅ (∪)). split_and!; [done| |by intros q ?%elem_of_nil].
    split; [constructor|by intros q ?%elem_of_nil|]. by rewrite list_to_set_nil, (left_id_L ∅ (∪)). }
  cbn [st_iter]. destruct (Hcs c) as (j & y & Hj & Hoj & Hy & Hne); [left|].
  assert (Hfl : v_flags y = 0) by (apply (to_flags _ _ Ht c); [by eapply list_elem_of_lookup_2|done]).
  assert (Hread : vread c (walked P l) = Ok (mark_done P c y, walked P l)) by (apply vread_run; by rewrite walked_at, Hy).
  destruct (decide (c ∈ P)) as [Hc|Hc].
  { destruct (IH P l) as (L & Hrun & Hv & Hin); [intros c' ?; apply Hcs; by right|done|]. exists L.
    rewrite (st_bind_Ok _ _ _ tt (walked P l)).
    2:{ unfold process_child. rewrite (st_bind_Ok _ _ _ _ _ Hread). unfold mark_done. rewrite bool_decide_true by done. cbn. by rewrite Hfl. }
    split_and!; [done|done|]. intros q [->|Hq]%elem_of_cons; [set_solver|by apply Hin]. }
  destruct (Hok' j c y P l) as (L1 & Hrun1 & [N1 V1 C1] & Hch1); [done|done|lia|done|done|].
  assert (Hc1 : c ∉ (list_to_set L1 ∪ P : gset positive)).
  { intros [HcL%elem_of_list_to_set|?]%elem_of_union; [|done]. destruct (V1 c HcL) as [_ (j' & _ & Hj' & Ho' & _)].
    assert (j = j') by (eapply NoDup_lookup; [apply Ht|done|done]). lia. }
  set (P1 := ({[c]} ∪ (list_to_set L1 ∪ P) : gset positive)).
  rewrite (st_bind_Ok _ _ _ tt (walked P1 (l ++ ((c :: L1) ≫= stubs_at)))).
  2:{ unfold process_child. rewrite (st_bind_Ok _ _ _ _ _ Hread). unfold mark_done. rewrite (bool_decide_false (c ∈ P)) by done. rewrite Hfl.
      change (CHECK_FLAG 0 OSPF_VERTEX_PROCESSED) with false. cbv iota. rewrite (st_bind_Ok _ _ _ _ _ Hrun1). by apply (walked_mark _ _ c y). }
  assert (HP1 : closed P1).
  { intros p x q Hp Hx Hq. apply elem_of_union in Hp as [->%elem_of_singleton|Hp].
    - rewrite Hy in Hx. injection Hx as <-. apply elem_of_union. right. by apply Hch1.
    - apply elem_of_union. right. by eapply C1. }
  destruct (IH P1 (l ++ ((c :: L1) ≫= stubs_at))) as (L2 & Hrun2 & [N2 V2 C2] & Hch2); [intros c' ?; apply Hcs; by right|done|].
  exists ((c :: L1) ++ L2). assert (list_to_set ((c :: L1) ++ L2) ∪ P = list_to_set L2 ∪ P1) as E by (unfold P1; set_solver).
  rewrite E. split_and!; [by rewrite bind_app, app_assoc| |].
  - split; [|intros q Hq|by rewrite E].
    + apply NoDup_app. split_and!; [|intros q Hq Hq2; destruct (V2 q Hq2) as [Hn _]; apply Hn; unfold P1; set_solver|done].
      constructor; [|done]. set_solver.
    + apply elem_of_app in Hq as [[->|Hq]%elem_of_cons|Hq].
      * split; [done|]. by exists j, y.
      * destruct (V1 q Hq) as [Hn (j' & y' & ? & ? & ? & ?)]. split; [done|]. exists j', y'. split_and!; [lia|done..].
      * destruct (V2 q Hq) as [Hn Hb]. split; [|done]. intros ?. apply Hn. unfold P1. set_solver.
  - intros q [->|Hq]%elem_of_cons; [unfold P1; set_solver|by apply Hch2].
Qed.

Lemma process_run fuel : process_ok fuel.
Proof.
  induction fuel as [|fuel IH]; intros i v x P l Hi Hx Hf HP Hv.
  { apply lookup_lt_Some in Hi. lia. }
  cbn [ospf_spf_process_stubs]. assert (Hread : vread v (walked P l) = Ok (x, walked P l)).
  { apply vread_run. rewrite walked_at, Hx. cbn. unfold mark_done. by rewrite bool_decide_false. }
  rewrite (st_bind_Ok _ _ _ _ _ Hread).
  assert (Hvl : vlsa (vkey x) = Some (v_lsa x)).
  { assert (v ∈ ord) as [k Hk]%(to_reg _ _ Ht) by (by eapply list_elem_of_lookup_2).
    destruct (rp_reg _ _ _ _ _ _ Hr k v Hk) as (x' & [Hx' Hl] & _). unfold h0 in Hx. rewrite Hx in Hx'. by injection Hx' as <-. }
  rewrite (st_bind_Ok _ _ _ _ _ (vertex_stubs_run _ x Hvl)), walked_add.
  destruct (children_run fuel i (v_child x) P (l ++ stub_adds x)) as (L & Hrun & Hvis & Hch); [done|lia|intros c; by apply (child_below i v)|done|].
  exists L. split_and!; [|done|done]. unfold process_child in Hrun. rewrite Hrun. do 3 f_equal. cbn. unfold stubs_at at 2. rewrite Hx. by rewrite app_assoc.
Qed.

(** From the root, the walk reaches the vertices with nexthops, each once. *)
Lemma walk_run fuel :
  (length ord ≤ fuel)%nat →
  ∃ L P, ospf_spf_process_stubs fuel (sp_root s0) s0 = Ok (tt, walked P ((sp_root s0 :: L) ≫= stubs_at)) ∧ NoDup L ∧
    ∀ q, q ∈ L ↔ q ≠ sp_root s0 ∧ ∃ k y, reg s0 k = Some q ∧ h0 !! q = Some y ∧ v_nexthop y ≠ [].
Proof.
  intros Hf. pose proof (rp_root _ _ _ _ _ _ Hr) as Hroot.
  destruct (rp_reg _ _ _ _ _ _ Hr _ _ Hroot) as (r & [Hx _] & _).
  assert (sp_root s0 ∈ ord) as [i Hi]%list_elem_of_lookup by (apply (to_reg _ _ Ht); by eexists).
  assert (walked ∅ [] = s0) as E.
  { unfold walked. rewrite app_nil_r. assert (map_imap (λ p x, Some (mark_done ∅ p x)) h0 = sp_heap s0) as ->; [|by destruct s0].
    apply map_eq. intros q. rewrite map_lookup_imap. unfold h0. by destruct (sp_heap s0 !! q). }
  destruct (process_run fuel i (sp_root s0) r ∅ []) as (L & Hrun & [Hnd Hnew Hcl] & Hch); [done|done|lia|by intros p ? ? ?%not_elem_of_empty|apply not_elem_of_empty|].
  rewrite E in Hrun. exists L, (list_to_set L ∪ ∅). split_and!; [done|done|]. intros q. split.
  - intros Hq. destruct (Hnew q Hq) as [_ (j & y & Hj & Hoj & Hy & Hne)]. split.
    + intros ->. assert (i = j) by (eapply NoDup_lookup; [apply Ht|done|done]). lia.
    + assert (q ∈ ord) as [k Hk]%(to_reg _ _ Ht) by (by eapply list_elem_of_lookup_2). by exists k, y.
  - intros [Hqr (k & y & Hk & Hy & Hne)].
    assert (q ∈ ord) as [n Hn]%list_elem_of_lookup by (apply (to_reg _ _ Ht); by eexists).
    revert q k y Hqr Hk Hy Hne Hn. induction (lt_wf n) as [n _ IH]. intros q k y Hqr Hk Hy Hne Hn.
    destruct (v_nexthop y) as [|nh nhs] eqn:En; [done|].
    destruct (rp_reg _ _ _ _ _ _ Hr k q Hk) as (y' & [Hy' _] & Hky & _ & Hpar). unfold h0 in Hy. rewrite Hy in Hy'. injection Hy' as <-.
    destruct (Hpar nh) as (z & c & Hz & [Hzh _] & _ & _ & Hzn & _); [rewrite En; left|].
    assert (q ∈ ord) as Hqo by (by eapply list_elem_of_lookup_2).
    destruct (to_parent _ _ Ht q y (nh_parent nh) Hqo Hy) as (z' & Hz' & Hqz); [rewrite En; left|].
    rewrite Hzh in Hz'. injection Hz' as <-.
    destruct (decide (nh_parent nh = sp_root s0)) as [Ep|Hp].
    { rewrite Ep, Hx in Hzh. injection Hzh as <-. specialize (Hch q Hqz). set_solver. }
    destruct Hzn as [?|Hzn]; [done|].
    assert (nh_parent nh ∈ ord) as [m Hm]%list_elem_of_lookup by (apply (to_reg _ _ Ht); by eexists).
    destruct (to_child _ _ Ht m _ z q Hm Hzh Hqz) as (j & _ & Hj & Hoj & _).
    assert (j = n) as -> by (eapply NoDup_lookup; [apply Ht|done|done]).
    assert (nh_parent nh ∈ L) as HpL by (by apply (IH m Hj _ (vkey z) z)).
    assert (q ∈ (list_to_set L ∪ ∅ : gset positive)) as Hq by (eapply (Hcl (nh_parent nh)); [set_solver|done|done]). set_solver.
Qed.

Lemma order_length : (length ord ≤ spf_fuel area)%nat.
Proof.
  etrans; [|by apply (tree_size area now self Hok s0 S0 ∅)].
  rewrite <- (length_fmap (λ p, match h0 !! p with Some x => vkey x | None => root_key self end)), <- length_map_to_list, <- (length_fmap fst (map_to_list S0)).
  assert (Hat : ∀ p, p ∈ ord → ∃ x, h0 !! p = Some x ∧ reg s0 (vkey x) = Some p ∧ is_Some (S0 !! vkey x)).
  { intros p [k Hk]%(to_reg _ _ Ht). destruct (rp_reg _ _ _ _ _ _ Hr k p Hk) as (x & [Hx _] & <- & HS & _). exists x. by split_and!. }
  apply submseteq_length, NoDup_submseteq.
  - apply NoDup_fmap_2_strong; [|apply Ht]. intros p q (x & Hx & Hxr & _)%Hat (y & Hy & Hyr & _)%Hat. rewrite Hx, Hy. congruence.
  - intros k (p & -> & (x & Hx & _ & [d Hd])%Hat)%list_elem_of_fmap. rewrite Hx. apply list_elem_of_fmap. exists (vkey x, d).
    split; [done|]. by apply elem_of_map_to_list.
Qed.

End Walk.

(** * The end *)

Lemma free_run s (l : list (Z * positive)) :
  NoDup l.*2 → (∀ p, p ∈ l.*2 → is_Some (sp_heap s !! p)) →
  ∃ h, st_iter (λ e : Z * positive, ospf_vertex_free e.2) l s = Ok (tt, set_sp_heap h s) ∧
    ∀ p, h !! p = if decide (p ∈ l.*2) then None else sp_heap s !! p.
Proof.
  revert s. induction l as [|[i p] l IH]; intros s Hnd Hl.
  { exists (sp_heap s). split; [by destruct s|]. intros p. rewrite decide_False; [done|]. apply not_elem_of_nil. }
  cbn in Hnd. apply NoDup_cons in Hnd as [Hp Hnd]. destruct (Hl p) as [x Hx]; [left|]. cbn [st_iter snd].
  rewrite (st_bind_Ok _ _ _ _ _ (vertex_free_run s p x Hx)).
  destruct (IH (set_sp_heap (delete p (sp_heap s)) s)) as (h & Hh & Hhp); [done| |].
  { intros q Hq. cbn. rewrite lookup_delete_ne; [apply Hl; by right|]. by intros ->. }
  exists h. split; [done|]. intros q. rewrite Hhp. cbn. destruct (decide (q = p)) as [->|Hne].
  - rewrite lookup_delete_eq. rewrite (decide_True (P := p ∈ p :: l.*2)) by left. by destruct (decide _).
  - rewrite lookup_delete_ne by done. destruct (decide (q ∈ l.*2)) as [H|H].
    + by rewrite decide_True by (by right).
    + rewrite decide_False; [done|]. intros [?|?]%elem_of_cons; done.
Qed.

(** The pointers of the two tables. *)
Lemma reg_cases s k p : reg s k = Some p → sp_rv s !! k.2 = Some p ∨ sp_nv s !! k.2 = Some p.
Proof. unfold reg. repeat case_match; naive_solver. Qed.

Lemma reg_inj s S C k1 k2 p : grep s S C → reg s k1 = Some p → reg s k2 = Some p → k1 = k2.
Proof.
  intros Hr H1 H2. destruct (rp_reg _ _ _ _ _ _ Hr _ _ H1) as (x & [Hx _] & <- & _), (rp_reg _ _ _ _ _ _ Hr _ _ H2) as (y & [Hy _] & <- & _).
  congruence.
Qed.

Lemma pointers_in (t : gmap Z positive) p : p ∈ (map_to_list t).*2 ↔ ∃ i, t !! i = Some p.
Proof.
  rewrite list_elem_of_fmap. split.
  - intros ([i q] & -> & Hq%elem_of_map_to_list). by exists i.
  - intros [i Hi%elem_of_map_to_list]. by exists (i, p).
Qed.

Lemma pointers_nodup (t : gmap Z positive) : (∀ i j p, t !! i = Some p → t !! j = Some p → i = j) → NoDup (map_to_list t).*2.
Proof.
  intros Ht. apply NoDup_fmap_2_strong; [|apply NoDup_map_to_list].
  intros [i p] [j q] Hi%elem_of_map_to_list Hj%elem_of_map_to_list E. cbn in E. subst q. f_equal. by apply (Ht i j p).
Qed.

(** The tables are freed, and nothing is left. *)
Lemma free_all s S C h adds :
  grep s S C → noleak s → sp_candidate s = [] → (∀ p, is_Some (h !! p) ↔ is_Some (sp_heap s !! p)) →
  let s1 := Spf h (sp_candidate s) (sp_rv s) (sp_nv s) (sp_root s) (sp_transit s) adds in
  (ospf_spf_route_free (sp_rv s);; ospf_spf_route_free (sp_nv s)) s1 = Ok (tt, set_sp_heap ∅ s1).
Proof.
  intros Hr Hn Hc Hh s1.
  assert (Hreg : ∀ k p, reg s k = Some p → is_Some (h !! p)).
  { intros k p Hk. apply Hh. destruct (rp_reg _ _ _ _ _ _ Hr k p Hk) as (x & [Hx _] & _). by exists x. }
  destruct (free_run s1 (map_to_list (sp_rv s))) as (h1 & Hf1 & Hh1).
  { apply pointers_nodup. intros i j p Hi Hj.
    pose proof (reg_inj s S C (OSPF_ROUTER_LSA, i) (OSPF_ROUTER_LSA, j) p Hr Hi Hj) as E. by injection E. }
  { intros p [i Hi]%pointers_in. by apply (Hreg (OSPF_ROUTER_LSA, i)). }
  destruct (free_run (set_sp_heap h1 s1) (map_to_list (sp_nv s))) as (h2 & Hf2 & Hh2).
  { apply pointers_nodup. intros i j p Hi Hj.
    pose proof (reg_inj s S C (OSPF_NETWORK_LSA, i) (OSPF_NETWORK_LSA, j) p Hr Hi Hj) as E. by injection E. }
  { intros p [i Hi]%pointers_in. cbn. rewrite Hh1. rewrite decide_False; [by apply (Hreg (OSPF_NETWORK_LSA, i))|].
    intros [j Hj]%pointers_in. by pose proof (reg_inj s S C (OSPF_NETWORK_LSA, i) (OSPF_ROUTER_LSA, j) p Hr Hi Hj). }
  unfold ospf_spf_route_free. rewrite (st_bind_Ok _ _ _ _ _ Hf1), Hf2. do 2 f_equal. unfold set_sp_heap. cbn. f_equal.
  apply map_eq. intros p. rewrite lookup_empty, Hh2. destruct (decide _) as [|Hnv]; [done|]. cbn. rewrite Hh1.
  destruct (decide _) as [|Hrv]; [done|]. cbn. destruct (h !! p) as [x|] eqn:Ex; [|done]. exfalso.
  assert (is_Some (sp_heap s !! p)) as [y Hy] by (apply Hh; by exists x).
  destruct (Hn p y Hy) as [Hp|[k [Hk|Hk]%reg_cases]]; [rewrite Hc in Hp; by apply elem_of_nil in Hp| |].
  - apply Hrv, pointers_in. by exists k.2.
  - apply Hnv, pointers_in. by exists k.2.
Qed.

(** * The result *)

(** The routes of a run: the vertices [xs] of the tree, then the stub networks of the root
    [r] and of the vertices [ys]. *)
Record spf_result (s : spf) (xs : list vertex) (r : vertex) (ys : list vertex) : Prop := SpfResult {
  sr_adds : sp_adds s = (add_of <$> xs) ++ ((r :: ys) ≫= stub_adds);
  sr_once : NoDup (vkey <$> xs);
  sr_shortest : ∀ k d, (∃ x, x ∈ xs ∧ vkey x = k ∧ v_distance x = d) ↔ k ≠ root_key self ∧ shortest area now self k d;
  sr_hops : ∀ x nh, x ∈ xs → nh ∈ v_nexthop x → ∃ b, hop area now self b (vkey x) (v_distance x) (nh_oi nh, nh_router nh);
  sr_lsas : Forall (λ x, vlsa (vkey x) = Some (v_lsa x)) (xs ++ [r]);
  sr_sorted : StronglySorted Z.le (v_distance <$> xs);
  sr_bound : Forall (λ x, 0 ≤ v_distance x ≤ 65535 * 65535) xs;
  sr_root : vkey r = root_key self ∧ v_distance r = 0;
  sr_stubs_once : NoDup (vkey <$> ys);
  sr_stubs : ∀ k, k ∈ vkey <$> ys ↔ ∃ x, x ∈ xs ∧ vkey x = k ∧ v_nexthop x ≠ [];
  sr_same : ∀ y, y ∈ ys → ∃ x c, x ∈ xs ∧ y = set_v_child c x;
}.

Lemma bind_fmap_at (f : positive → vertex) (h : gmap positive vertex) (L : list positive) :
  (∀ p, p ∈ L → h !! p = Some (f p)) →
  L ≫= (λ p, match h !! p with Some x => stub_adds x | None => [] end) = (f <$> L) ≫= stub_adds.
Proof.
  induction L as [|p L IH]; intros H; [done|]. cbn. rewrite (H p) by left. f_equal. apply IH. intros q Hq. apply H. by right.
Qed.

Lemma calculate_run :
  sa_router_lsa_self area = Some self →
  ∃ s xs r ys, ospf_spf_calculate area now spf_start = Ok (tt, s) ∧ sp_heap s = ∅ ∧ spf_result s xs r ys.
Proof.
  intros Hself. pose proof (metrics_of_area area now self Hok) as Hm.
  destruct tree_run as (s & S & ord & Hrun & Hr & Hinv & Hc & Ht & (xs & Hxs & Hnd & Hin & Hdist & Hon & Hso) & Hn & Hbd).
  pose proof (dinv_final area now self S Hm Hinv) as Hfin.
  destruct (walk_run s S ord Hr Ht (Datatypes.S (spf_fuel area))) as (L & P & Hwalk & HL & HLin).
  { pose proof (order_length s S ord Hr Ht). lia. }
  pose proof (rp_root _ _ _ _ _ _ Hr) as Hroot. destruct (rp_reg _ _ _ _ _ _ Hr _ _ Hroot) as (r & [Hrh Hrv] & Hrk & HrS & _).
  set (f := λ p, default r (sp_heap s !! p)).
  assert (Hf : ∀ q, q ∈ L → sp_heap s !! q = Some (f q) ∧ v_nexthop (f q) ≠ [] ∧ q ≠ sp_root s ∧ reg s (vkey (f q)) = Some q).
  { intros q [Hq (k & y & Hk & Hy & Hne)]%HLin. unfold f. rewrite Hy. cbn. destruct (rp_reg _ _ _ _ _ _ Hr _ _ Hk) as (y' & [Hy' _] & Hky & _).
    rewrite Hy in Hy'. injection Hy' as <-. by rewrite Hky. }
  (* a vertex of the tree is one of [xs], but for its children *)
  assert (Hback : ∀ k q y, reg s k = Some q → sp_heap s !! q = Some y → k ≠ root_key self → ∃ x c, x ∈ xs ∧ vkey x = k ∧ y = set_v_child c x).
  { intros k q y Hk Hy Hne. assert (k ∈ vkey <$> xs) as (x & -> & Hx)%list_elem_of_fmap.
    { apply Hin. split; [done|]. destruct (rp_reg _ _ _ _ _ _ Hr _ _ Hk) as (y' & _ & _ & HS & _). by eexists. }
    rewrite Forall_forall in Hon. destruct (Hon x Hx) as (p & c & Hp & Hpx). rewrite Hk in Hp. injection Hp as <-.
    exists x, c. split_and!; [done|done|congruence]. }
  assert (Hxat : ∀ x, x ∈ xs → ∃ p c, reg s (vkey x) = Some p ∧ gat (sp_heap s) p (set_v_child c x) ∧
    parents_ok area now self s (set_v_child c x)).
  { intros x Hx. rewrite Forall_forall in Hon. destruct (Hon x Hx) as (p & c & Hp & Hpx). exists p, c. split; [done|].
    destruct (rp_reg _ _ _ _ _ _ Hr _ _ Hp) as (y & Hy & _ & _ & Hpar). pose proof Hy as [Hyh _]. rewrite Hpx in Hyh. by injection Hyh as <-. }
  set (s1 := walked s P ((sp_root s :: L) ≫= stubs_at s)) in Hwalk.
  eexists (set_sp_heap ∅ s1), xs, r, (f <$> L). split; [|split; [done|]].
  { unfold ospf_spf_calculate. rewrite Hself, (st_bind_Ok _ _ _ _ _ Hrun), (st_bind_Ok _ _ _ s s) by done.
    rewrite (st_bind_Ok _ _ _ _ _ Hwalk). apply (free_all s S ∅); try done.
    intros p. rewrite map_lookup_imap. destruct (sp_heap s !! p); cbn; [|done]. split; by eexists. }
  split.
  - unfold s1, walked. cbn. rewrite Hxs. f_equal. unfold stubs_at at 1. rewrite Hrh. f_equal.
    apply bind_fmap_at. intros q Hq. by apply Hf.
  - done.
  - intros k d. rewrite <- Hfin. rewrite Forall_forall in Hdist. split.
    + intros (x & Hx & <- & <-). split; [|by apply Hdist]. apply Hin. by apply list_elem_of_fmap; exists x.
    + intros [Hne Hd]. assert (k ∈ vkey <$> xs) as (x & -> & Hx)%list_elem_of_fmap by (apply Hin; split; [done|by eexists]).
      exists x. split_and!; [done..|]. specialize (Hdist x Hx). cbn in Hdist. congruence.
  - intros x nh Hx Hnh. destruct (Hxat x Hx) as (p & c & Hp & _ & Hpar).
    destruct (Hpar nh Hnh) as (_ & _ & _ & _ & _ & _ & _ & Hhop). by eexists.
  - apply Forall_app. split; [|by constructor; [rewrite Hrk in Hrv |- *|constructor]]. apply Forall_forall. intros x Hx.
    destruct (Hxat x Hx) as (p & c & Hp & [_ Hv] & _). done.
  - done.
  - apply Forall_forall. intros x Hx. rewrite Forall_forall in Hdist. pose proof (db_tree _ _ Hbd _ _ (Hdist x Hx)) as Hb.
    pose proof (tree_size area now self Hok s S ∅ Hr) as Hsz. pose proof (ao_size _ _ Hok). unfold spf_fuel in Hsz. lia.
  - split; [done|]. rewrite (di_root _ _ _ _ _ Hinv) in HrS. by injection HrS.
  - rewrite <- list_fmap_compose. apply NoDup_fmap_2_strong; [|done]. intros p q Hp Hq E. cbn in E.
    destruct (Hf p Hp) as (_ & _ & _ & H1), (Hf q Hq) as (_ & _ & _ & H2). rewrite E in H1. congruence.
  - intros k. rewrite <- list_fmap_compose. split.
    + intros (q & -> & Hq)%list_elem_of_fmap. destruct (Hf q Hq) as (Hh & Hne & Hqr & Hk). cbn.
      destruct (Hback _ q _ Hk Hh) as (x & c & Hx & Hkx & E); [intros E; rewrite E in Hk; congruence|].
      exists x. rewrite Hkx. split_and!; [done|done|]. by rewrite E in Hne.
    + intros (x & Hx & <- & Hne). destruct (Hxat x Hx) as (p & c & Hp & [Hh _] & _). apply list_elem_of_fmap. exists p. cbn. unfold f. rewrite Hh.
      split; [done|]. apply HLin. split; [|by exists (vkey x), (set_v_child c x)]. intros ->.
      pose proof (reg_inj s S ∅ _ _ _ Hr Hp Hroot) as E. assert (vkey x ≠ root_key self) as Hne'; [|done].
      apply Hin. by apply list_elem_of_fmap; exists x.
  - intros y (q & -> & Hq)%list_elem_of_fmap. destruct (Hf q Hq) as (Hh & Hne & Hqr & Hk).
    destruct (Hback _ q _ Hk Hh) as (x & c & Hx & Hkx & E); [intros E; rewrite E in Hk; congruence|]. by exists x, c.
Qed.

End Stub.
