(* ===== verification/OspfSpfClaims.v ===== *)
(** The claims on the shortest-path calculation of ospfd, with an area where they apply. *)

From stdpp Require Import sorting.
From S2P Require Import Prelude Prefix Stream OspfLsa OspfIf OspfSpf OspfSpfGraph OspfSpfRead OspfSpfRun OspfSpfTree OspfSpfStub.

(** * Areas to try *)

Definition lsa_octets (type id : Z) (body : list Z) : list Z :=
  [0; 1; 2; type] ++ be32 id ++ be32 id ++ be32 0x80000001 ++ [0; 0] ++ be16 (20 + Z.of_nat (length body)) ++ body.

Definition link_octets (l : rlink) : list Z :=
  be32 (rl_id l) ++ be32 (rl_data l) ++ [rl_type l; 0] ++ be16 (rl_metric l).

Definition sample_router (id : Z) (ls : list rlink) : ospf_lsa :=
  Lsa 0 (lsa_octets OSPF_ROUTER_LSA id ([0; 0] ++ be16 (Z.of_nat (length ls)) ++ (ls ≫= link_octets))) (Timeval 0 0) (Timeval 0 0).

Definition sample_network (id : Z) (rs : list Z) : ospf_lsa :=
  Lsa 0 (lsa_octets OSPF_NETWORK_LSA id (be32 0xffffff00 ++ (rs ≫= be32))) (Timeval 0 0) (Timeval 0 0).

(** The routers 1 and 2 are on the network 10.0.0.1 and have a link of their own, 2 and 3
    have a link; each router has a stub network. *)
Definition to_network (d : Z) : rlink := Rlink 0x0a000001 d LSA_LINK_TYPE_TRANSIT 10.
Definition to_router (r d c : Z) : rlink := Rlink r d LSA_LINK_TYPE_POINTOPOINT c.
Definition to_stub (n : Z) : rlink := Rlink n 0xffffff00 LSA_LINK_TYPE_STUB 1.

Definition sample_self (network_first : bool) : ospf_lsa :=
  sample_router 1 ((if network_first then [to_network 0x0a000001; to_router 2 0x0b000001 10]
                    else [to_router 2 0x0b000001 10; to_network 0x0a000001]) ++ [to_stub 0x0c010000]).

Definition sample_area (network_first : bool) : spf_area :=
  SpfArea (Some (sample_self network_first))
    (<[(1, 1) := sample_self network_first]>
      (<[(2, 2) := sample_router 2 [to_network 0x0a000002; to_router 1 0x0b000002 10; to_router 3 0x0d000002 5; to_stub 0x0c020000]]>
        {[(3, 3) := sample_router 3 [to_router 2 0x0d000003 7; to_stub 0x0c030000]]}))
    [sample_network 0x0a000001 [1; 2]]
    [SpfIf IFTYPE_BROADCAST 0x0a000001 24 None; SpfIf IFTYPE_POINTOPOINT 0x0b000001 24 (Some 0x0b000002)] 0.

Definition sample_now : timeval := Timeval 10 0.

Definition run_routes (area : spf_area) : res (list route_add) :=
  match ospf_spf_calculate area sample_now spf_start with Ok (_, s) => Ok (sp_adds s) | Fail e => Fail e end.

(** ** Checking an area *)

Definition lsa_check (t : Z) (lsa : ospf_lsa) : bool :=
  match lsa_type (l_data lsa), decode (l_data lsa) with
  | Ok t', Ok _ => (t' =? t) && forallb (λ b, (0 <=? b) && (b <? 256)) (l_data lsa)
  | _, _ => false
  end.

Lemma lsa_check_ok t lsa : lsa_check t lsa = true → lsa_ok t lsa.
Proof.
  unfold lsa_check. destruct (lsa_type (l_data lsa)) as [t'|] eqn:Ht; [|done]. destruct (decode (l_data lsa)) as [b|] eqn:Hb; [|done].
  rewrite andb_true_iff, Z.eqb_eq. intros [-> Hall]. split; [done|by exists b|]. by apply bytes_ok_decide.
Qed.

Lemma sample_ok b : area_ok (sample_area b) (sample_self b).
Proof.
  split.
  - apply lsa_check_ok. by destruct b.
  - intros id adv lsa. unfold sample_area. cbn [sa_routers].
    intros [[[= <- <-] <-]|[_ [[[= <- <-] <-]|[_ [[= <- <-] <-]%lookup_singleton_Some]]%lookup_insert_Some]]%lookup_insert_Some;
      (split; [apply lsa_check_ok|]); by destruct b.
  - constructor; [by apply lsa_check_ok|constructor].
  - constructor; [by split; [|cbn; lia]|]. constructor; [|constructor]. split; [by eexists|cbn; lia].
  - vm_compute. done.
  - split; cbn; lia.
Qed.

(** * The claims *)



(** the second stage adds the stub networks of the root, then those of the vertices
    with nexthops, of each vertex once and from the LSA of the vertex. *)
Theorem ospf_spf_stubs_once area now self :
  area_ok area self → sa_router_lsa_self area = Some self →
  ∃ s xs r ys, ospf_spf_calculate area now spf_start = Ok (tt, s) ∧
    sp_adds s = (add_of <$> xs) ++ ((r :: ys) ≫= stub_adds) ∧
    v_lsa r = l_data self ∧ NoDup (vkey <$> ys) ∧
    (∀ k, k ∈ vkey <$> ys ↔ ∃ x, x ∈ xs ∧ vkey x = k ∧ v_nexthop x ≠ []) ∧
    Forall (λ y, vertex_lsa area now self (vkey y) = Some (v_lsa y) ∧ shortest area now self (vkey y) (v_distance y)) ys.
Proof.
  intros Hok Hself. destruct (calculate_run area now self Hok Hself) as (s & xs & r & ys & Hrun & _ & []).
  apply Forall_app in sr_lsas as [Hl Hr]. exists s, xs, r, ys. split_and!; try done.
  - apply Forall_inv in Hr. destruct sr_root as [Hk _]. rewrite Hk in Hr. unfold vertex_lsa in Hr.
    rewrite decide_True in Hr by done. by injection Hr.
  - apply Forall_forall. intros y Hy. destruct (sr_same y Hy) as (x & c & Hx & ->). rewrite Forall_forall in Hl.
    split; [exact (Hl x Hx)|]. apply (sr_shortest (vkey x)). by exists x.
Qed.

Lemma ospf_spf_stubs_once_witness :
  ∃ s xs r ys, ospf_spf_calculate (sample_area true) sample_now spf_start = Ok (tt, s) ∧
    sp_adds s = (add_of <$> xs) ++ ((r :: ys) ≫= stub_adds) ∧
    v_lsa r = l_data (sample_self true) ∧ NoDup (vkey <$> ys) ∧
    (∀ k, k ∈ vkey <$> ys ↔ ∃ x, x ∈ xs ∧ vkey x = k ∧ v_nexthop x ≠ []) ∧
    Forall (λ y, vertex_lsa (sample_area true) sample_now (sample_self true) (vkey y) = Some (v_lsa y) ∧
      shortest (sample_area true) sample_now (sample_self true) (vkey y) (v_distance y)) ys.
Proof. apply ospf_spf_stubs_once; [apply sample_ok|reflexivity]. Defined.

(** ** Paths of equal cost *)

Definition nexthops_to (k : key) (rs : list route_add) : list (nat * Z) :=
  rs ≫= λ r, match r with
             | ospf_intra_add_router v | ospf_intra_add_transit v =>
                 if decide (vkey v = k) then (λ nh, (nh_oi nh, nh_router nh)) <$> v_nexthop v else []
             | ospf_intra_add_stub _ _ => []
             end.

(** The router 2 has two ways of the same length, over the network and over the link; both
    are found when the LSA of the root names the network first.  When it names the link
    first, the router goes to the tree before the network, and one way is lost. *)
Lemma equal_cost_path_lost :
  (nexthops_to (OSPF_ROUTER_LSA, 2) <$> run_routes (sample_area true)) = Ok [(1%nat, 0x0b000002); (0%nat, 0x0a000002)] ∧
  (nexthops_to (OSPF_ROUTER_LSA, 2) <$> run_routes (sample_area false)) = Ok [(1%nat, 0x0b000002)].
Proof. split; vm_compute; reflexivity. Qed.

(** * The timer *)

(** The clock and the timer: time passes, the calculation is asked for, and the timer runs
    out; the calculation takes some time. *)
Inductive sched_step : Z * ospf_sched → Z * ospf_sched → Prop :=
  | sched_tick t t' o : t ≤ t' → sched_step (t, o) (t', o)
  | sched_request t o : sched_step (t, o) (t, ospf_spf_calculate_schedule t o)
  | sched_fire t t' o d : os_timer o = Some d → d ≤ t → t ≤ t' → sched_step (t, o) (t', ospf_spf_calculate_timer (Some t') o).

(** The time a request sets the timer to. *)
Definition sched_time (t : Z) (o : ospf_sched) : Z := Z.max (t + os_delay o) (os_ts_spf o + os_holdtime o).

Lemma schedule_time t o :
  0 ≤ os_delay o →
  ospf_spf_calculate_schedule t o =
    OspfSched (os_ts_spf o) (os_delay o) (os_holdtime o) (Some (default (sched_time t o) (os_timer o))).
Proof.
  unfold ospf_spf_calculate_schedule, sched_time. destruct o as [ts dl ht [d|]]; cbn; [done|]. intros Hd. do 2 f_equal.
  destruct (Z.ltb_spec (t - ts) ht); [destruct (Z.ltb_spec (ht - (t - ts)) dl)|]; lia.
Qed.

Definition sched_inv (o : ospf_sched) : Prop :=
  0 ≤ os_delay o ∧ ∀ d, os_timer o = Some d → os_ts_spf o + os_holdtime o ≤ d.

Lemma sched_step_inv s s' : sched_step s s' → sched_inv s.2 → sched_inv s'.2.
Proof.
  intros [t t' o|t o|t t' o d Hd] [Hd0 Hi]; cbn in *; [done| |by split; [|intros ?]]. rewrite schedule_time by done. split; [done|].
  intros d [= <-]. cbn. destruct (os_timer o) as [d|] eqn:E; cbn; [by apply Hi|]. unfold sched_time. lia.
Qed.

(** C27: the timer of the calculation is never set to a time before the hold time after the
    last calculation is over; a request sets it to the end of the delay or to the end of
    the hold time, whichever is later. *)
Theorem spf_timer_bounds t0 o0 t o :
  os_timer o0 = None → 0 ≤ os_delay o0 → rtc sched_step (t0, o0) (t, o) →
  (∀ d, os_timer o = Some d → os_ts_spf o + os_holdtime o ≤ d) ∧
  (os_timer o = None → os_timer (ospf_spf_calculate_schedule t o) = Some (Z.max (t + os_delay o) (os_ts_spf o + os_holdtime o))).
Proof.
  intros H0 Hd0 Hrun. assert (sched_inv (t, o).2) as [Hd Hi].
  { assert (sched_inv (t0, o0).2) as Hi by (split; [done|]; intros d; cbn; congruence). revert Hi.
    induction Hrun as [s|s1 s2 s3 Hs _ IH]; [done|]. intros Hi. by apply IH, (sched_step_inv s1). }
  split; [done|]. intros Hn. by rewrite schedule_time, Hn.
Qed.

Lemma spf_timer_bounds_witness :
  os_timer (ospf_spf_calculate_schedule 100 (OspfSched 98 5 10 None)) = Some 108 ∧
  os_ts_spf (ospf_spf_calculate_schedule 100 (OspfSched 98 5 10 None)) +
    os_holdtime (ospf_spf_calculate_schedule 100 (OspfSched 98 5 10 None)) ≤ 108.
Proof.
  split; [reflexivity|]. apply (spf_timer_bounds 100 (OspfSched 98 5 10 None) 100); [reflexivity|cbn; lia| |reflexivity].
  eapply rtc_once, sched_request.
Defined.
