(* ===== verification/OspfRoute.v ===== *)
(** The routing tables of ospfd: ospfd/ospf_route.c, and ospf_if_lookup_by_prefix of
    ospfd/ospf_interface.c.

    A route is its contents; the table that holds it owns it.  A table is the map from
    prefixes to routes it stands for, and a walk over it visits the routes in some order.
    The state of a route that is no list of paths yet ([path] is NULL) is [None].
    Calls to zebra and to the virtual links are recorded. *)

From S2P Require Import Prelude Prefix Stream OspfLsa OspfIf OspfSpf.

(** * Constants *)

Definition OSPF_DESTINATION_ROUTER : Z := 1.
Definition OSPF_DESTINATION_NETWORK : Z := 2.
Definition OSPF_DESTINATION_DISCARD : Z := 3.
Definition OSPF_PATH_INTRA_AREA : Z := 1.
Definition OSPF_PATH_INTER_AREA : Z := 2.
Definition OSPF_PATH_TYPE1_EXTERNAL : Z := 3.
Definition OSPF_PATH_TYPE2_EXTERNAL : Z := 4.
Definition OSPF_AREA_BACKBONE : Z := 0.
Definition OSPF_RFC1583_COMPATIBLE : Z := 0x01.
Definition ROUTER_LSA_BORDER : Z := 0x01.
Definition ROUTER_LSA_EXTERNAL : Z := 0x02.
Definition ROUTER_LSA_SHORTCUT : Z := 0x20.

(** * Routes *)

(** [p_oi] is the place of the interface in the list of interfaces. *)
Record ospf_path := OspfPath { p_nexthop : Z; p_adv_router : Z; p_oi : option nat }.

#[export] Instance ospf_path_eq_dec : EqDecision ospf_path.
Proof. solve_decision. Defined.

(** The origin is the octets of an LSA. *)
Record route_standard := RouteStd { rs_origin : list Z; rs_area_id : Z; rs_options : Z; rs_flags : Z }.

Record ospf_route (U : Type) := OspfRoute {
  or_type : Z;
  or_id : Z;
  or_path_type : Z;
  or_path : option (list ospf_path);
  or_cost : Z;
  or_u : U;
}.
Arguments OspfRoute {U} _ _ _ _ _ _.
Arguments or_type {U} _.
Arguments or_id {U} _.
Arguments or_path_type {U} _.
Arguments or_path {U} _.
Arguments or_cost {U} _.
Arguments or_u {U} _.

Abbreviation std_route := (ospf_route route_standard).

Record route_external := RouteExt { re_type2_cost : Z; re_tag : Z; re_asbr : std_route }.

(** The union of the two kinds. *)
Inductive route_u := Std (u : route_standard) | Ext (u : route_external).

Definition set_or_path {U} (p : option (list ospf_path)) (r : ospf_route U) : ospf_route U :=
  OspfRoute (or_type r) (or_id r) (or_path_type r) p (or_cost r) (or_u r).
Definition set_or_cost {U} (c : Z) (r : ospf_route U) : ospf_route U :=
  OspfRoute (or_type r) (or_id r) (or_path_type r) (or_path r) c (or_u r).
Definition set_origin (o : list Z) (r : std_route) : std_route :=
  OspfRoute (or_type r) (or_id r) (or_path_type r) (or_path r) (or_cost r)
    (RouteStd o (rs_area_id (or_u r)) (rs_options (or_u r)) (rs_flags (or_u r))).

(** ** Paths *)

Definition ospf_path_exist (plist : list ospf_path) (nexthop : Z) (oi : option nat) : bool :=
  existsb (λ path, (p_nexthop path =? nexthop) && bool_decide (p_oi path = oi)) plist.

(** The loop of ospf_route_copy_nexthops_from_vertex; a nexthop of a vertex has an
    interface. *)
Definition copy_nexthops_loop (path : list ospf_path) (l : list vertex_nexthop) : list ospf_path :=
  foldl (λ path nh,
    if ospf_path_exist path (nh_router nh) (Some (nh_oi nh)) then path
    else path ++ [OspfPath (nh_router nh) 0 (Some (nh_oi nh))]) path l.

Definition ospf_route_copy_nexthops_from_vertex {U} (to : ospf_route U) (v : vertex) : ospf_route U :=
  set_or_path (Some (copy_nexthops_loop (default [] (or_path to)) (v_nexthop v))) to.

Definition ospf_path_lookup (plist : list ospf_path) (path : ospf_path) : option ospf_path :=
  snd <$> list_find (λ op, p_nexthop op = p_nexthop path ∧ p_adv_router op = p_adv_router path) plist.

Definition copy_paths_loop (path from : list ospf_path) : list ospf_path :=
  foldl (λ path op, match ospf_path_lookup path op with Some _ => path | None => path ++ [op] end) path from.

(** [from] is a list of paths; [listhead] of NULL is a fault. *)
Definition ospf_route_copy_nexthops {U} (to : ospf_route U) (from : option (list ospf_path)) : res (ospf_route U) :=
  from ← of_option NullDeref from;
  Ok (set_or_path (Some (copy_paths_loop (default [] (or_path to)) from)) to).

Definition ospf_route_subst_nexthops {U} (to : ospf_route U) (from : option (list ospf_path)) : res (ospf_route U) :=
  _ ← of_option NullDeref (or_path to);
  ospf_route_copy_nexthops (set_or_path (Some []) to) from.

(** ** Comparison *)

(** The difference of two [u_int32_t] as an [int]. *)
Definition diff32 (a b : Z) : Z := s32 (u32 (a - b)).

(** [config] is the configuration of the instance. *)
Definition ospf_asbr_route_cmp (config : Z) (r1 r2 : std_route) : Z :=
  if CHECK_FLAG config OSPF_RFC1583_COMPATIBLE then 0
  else
    let r1_type := if rs_area_id (or_u r1) =? OSPF_AREA_BACKBONE then OSPF_PATH_INTER_AREA else or_path_type r1 in
    let r2_type := if rs_area_id (or_u r2) =? OSPF_AREA_BACKBONE then OSPF_PATH_INTER_AREA else or_path_type r2 in
    r1_type - r2_type.

(** [None] when the union is read as the wrong kind. *)
Definition ext_of (r : ospf_route route_u) : option route_external :=
  match or_u r with Ext e => Some e | Std _ => None end.

Definition ospf_route_cmp (config : Z) (r1 r2 : ospf_route route_u) : option Z :=
  let costs := Some (diff32 (or_cost r1) (or_cost r2)) in
  let asbr e1 e2 :=
    if CHECK_FLAG config OSPF_RFC1583_COMPATIBLE then costs
    else
      let ret := ospf_asbr_route_cmp config (re_asbr e1) (re_asbr e2) in
      if ret =? 0 then costs else Some ret in
  let ret := or_path_type r1 - or_path_type r2 in
  if negb (ret =? 0) then Some ret
  else if or_path_type r1 =? OSPF_PATH_TYPE1_EXTERNAL then
    match ext_of r1, ext_of r2 with
    | Some e1, Some e2 => asbr e1 e2
    | _, _ => None
    end
  else if or_path_type r1 =? OSPF_PATH_TYPE2_EXTERNAL then
    match ext_of r1, ext_of r2 with
    | Some e1, Some e2 =>
        let ret := diff32 (re_type2_cost e1) (re_type2_cost e2) in
        if ret =? 0 then asbr e1 e2 else Some ret
    | _, _ => None
    end
  else costs.

(** * Tables *)

(** The length and the octets of a prefix. *)
Abbreviation pkey := (Z * list Z)%type.
Abbreviation net_table := (gmap pkey std_route).

(** The tables a calculation fills, and what it counts for its area; [in_vl] are the calls
    of ospf_vl_up_check. *)
Record intra := Intra {
  in_table : net_table;
  in_rtrs : gmap Z (list std_route);
  in_shortcut : Z;
  in_abr_count : Z;
  in_asbr_count : Z;
  in_vl : list (Z * vertex);
}.

Definition set_in_table (t : net_table) (s : intra) : intra :=
  Intra t (in_rtrs s) (in_shortcut s) (in_abr_count s) (in_asbr_count s) (in_vl s).
Definition set_in_rtrs (t : gmap Z (list std_route)) (s : intra) : intra :=
  Intra (in_table s) t (in_shortcut s) (in_abr_count s) (in_asbr_count s) (in_vl s).

(** What ospf_intra_add_router does before it adds the route. *)
Definition note_router (id flags : Z) (v : vertex) (s : intra) : intra :=
  Intra (in_table s) (in_rtrs s)
    (if CHECK_FLAG flags ROUTER_LSA_SHORTCUT then in_shortcut s else 0)
    (if CHECK_FLAG flags ROUTER_LSA_BORDER then in_abr_count s + 1 else in_abr_count s)
    (if CHECK_FLAG flags ROUTER_LSA_EXTERNAL then in_asbr_count s + 1 else in_asbr_count s)
    (in_vl s ++ [(id, v)]).

(** The prefix of an address and a mask: ip_masklen and apply_mask_ipv4.  ip_masklen reads
    the octet after the mask, [after], when the mask is all ones. *)
Definition mask_prefix (after id mask : Z) : res pkey :=
  len ← ip_masklen (be32 mask ++ [after]);
  p ← apply_mask_ipv4 (Prefix AF_INET len (be32 id));
  Ok (prefixlen p, u p).

Section Area.
Context (area : spf_area) (area_id : Z).

Fixpoint lookup_by_prefix_loop (i : nat) (l : list spf_if) (p : pkey) : res (option nat) :=
  match l with
  | [] => Ok None
  | oi :: l =>
      if bool_decide (si_type oi = IFTYPE_VIRTUALLINK) then lookup_by_prefix_loop (S i) l p
      else
        ptmp ← (if bool_decide (si_type oi = IFTYPE_POINTOPOINT) then
                  d ← of_option NullDeref (si_destination oi);
                  Ok (Prefix AF_INET 32 (be32 d))
                else Ok (Prefix AF_INET (si_prefixlen oi) (be32 (si_address oi))));
        ptmp ← apply_mask ptmp;
        if prefix_same ptmp (Prefix AF_INET p.1 p.2) then Ok (Some i) else lookup_by_prefix_loop (S i) l p
  end.

Definition ospf_if_lookup_by_prefix (p : pkey) : res (option nat) := lookup_by_prefix_loop 0 (sa_oiflist area) p.

(** ospf_intra_add_router *)
Definition intra_add_router (v : vertex) (s : intra) : res intra :=
  id ← lsa_id (v_lsa v);
  flags ← get_byte (v_lsa v) 20;
  options ← lsa_options (v_lsa v);
  let s := note_router id flags v s in
  if negb (CHECK_FLAG flags ROUTER_LSA_BORDER) && negb (CHECK_FLAG flags ROUTER_LSA_EXTERNAL) then Ok s
  else
    let or := OspfRoute OSPF_DESTINATION_ROUTER (v_id v) OSPF_PATH_INTRA_AREA None (v_distance v)
                (RouteStd (v_lsa v) area_id options flags) in
    let or := ospf_route_copy_nexthops_from_vertex or v in
    Ok (set_in_rtrs (<[v_id v := default [] (in_rtrs s !! v_id v) ++ [or]]> (in_rtrs s)) s).

(** ospf_intra_add_transit *)
Definition intra_add_transit (v : vertex) (s : intra) : res intra :=
  mask ← get32 (v_lsa v) 20;
  p ← mask_prefix (sa_garbage area) (v_id v) mask;
  id ← lsa_id (v_lsa v);
  keep ← match in_table s !! p with
         | Some cur_or =>
             if or_cost cur_or <? v_distance v then Ok true
             else
               cur_id ← lsa_id (rs_origin (or_u cur_or));
               Ok (id <? cur_id)
         | None => Ok false
         end;
  if (keep : bool) then Ok s
  else
    let or := OspfRoute OSPF_DESTINATION_NETWORK (v_id v) OSPF_PATH_INTRA_AREA None (v_distance v)
                (RouteStd (v_lsa v) area_id 0 0) in
    Ok (set_in_table (<[p := ospf_route_copy_nexthops_from_vertex or v]> (in_table s)) s).

(** ospf_intra_add_stub; [root] says whether [v] is the root. *)
Definition intra_add_stub (root : bool) (link : Z) (v : vertex) (s : intra) : res intra :=
  lid ← link_id (v_lsa v) link;
  data ← link_data (v_lsa v) link;
  p ← mask_prefix (sa_garbage area) lid data;
  m ← link_metric (v_lsa v) link;
  let cost := u32 (v_distance v + m) in
  match in_table s !! p with
  | Some cur_or =>
      if or_cost cur_or <? cost then Ok s
      else if cost =? or_cost cur_or then
        let cur_or := ospf_route_copy_nexthops_from_vertex cur_or v in
        cur_id ← lsa_id (rs_origin (or_u cur_or));
        id ← lsa_id (v_lsa v);
        let cur_or := if cur_id <? id then set_origin (v_lsa v) cur_or else cur_or in
        Ok (set_in_table (<[p := cur_or]> (in_table s)) s)
      else
        let cur_or := ospf_route_copy_nexthops_from_vertex (set_or_path None (set_or_cost cost cur_or)) v in
        Ok (set_in_table (<[p := set_origin (v_lsa v) cur_or]> (in_table s)) s)
  | None =>
      let or := OspfRoute OSPF_DESTINATION_NETWORK (v_id v) OSPF_PATH_INTRA_AREA (Some []) cost
                  (RouteStd (v_lsa v) area_id 0 0) in
      or ← (if negb root then Ok (ospf_route_copy_nexthops_from_vertex or v)
            else
              oi ← ospf_if_lookup_by_prefix p;
              Ok match oi with
                 | Some i => set_or_path (Some [OspfPath 0 0 (Some i)]) or
                 | None => or
                 end);
      Ok (set_in_table (<[p := or]> (in_table s)) s)
  end.

(** The routes of a calculation, in the order it adds them; the root is the vertex with
    the id [root]. *)
Definition intra_add (root : Z) (r : route_add) (s : intra) : res intra :=
  match r with
  | ospf_intra_add_router v => intra_add_router v s
  | ospf_intra_add_transit v => intra_add_transit v s
  | ospf_intra_add_stub link v => intra_add_stub (v_id v =? root) link v s
  end.

Fixpoint intra_adds (root : Z) (rs : list route_add) (s : intra) : res intra :=
  match rs with
  | [] => Ok s
  | r :: rs => s ← intra_add root r s; intra_adds root rs s
  end.

End Area.

(** The tables before the calculation of the first area. *)
Definition intra_start : intra := Intra ∅ ∅ 1 0 0 [].

(** ** Pruning *)

Definition no_paths {U} (r : ospf_route U) : res bool :=
  l ← of_option NullDeref (or_path r);
  Ok (bool_decide (l = [])).

Fixpoint prune_loop (l : list (pkey * std_route)) (rt : net_table) : res net_table :=
  match l with
  | [] => Ok rt
  | (p, r) :: l =>
      e ← no_paths r;
      prune_loop l (if (e : bool) then delete p rt else rt)
  end.

Definition ospf_prune_unreachable_networks (rt : net_table) : res net_table := prune_loop (map_to_list rt) rt.

Fixpoint prune_paths (l : list std_route) : res (list std_route) :=
  match l with
  | [] => Ok []
  | r :: l =>
      e ← no_paths r;
      l ← prune_paths l;
      Ok (if (e : bool) then l else r :: l)
  end.

Fixpoint prune_rtrs_loop (l : list (Z * list std_route)) (rtrs : gmap Z (list std_route)) : res (gmap Z (list std_route)) :=
  match l with
  | [] => Ok rtrs
  | (id, paths) :: l =>
      paths ← prune_paths paths;
      prune_rtrs_loop l (if bool_decide (paths = []) then delete id rtrs else <[id := paths]> rtrs)
  end.

Definition ospf_prune_unreachable_routers (rtrs : gmap Z (list std_route)) : res (gmap Z (list std_route)) :=
  prune_rtrs_loop (map_to_list rtrs) rtrs.

(** ** Installation *)

Inductive zebra_call :=
  | ospf_zebra_add (p : pkey) (r : std_route)
  | ospf_zebra_delete (p : pkey) (r : std_route)
  | ospf_zebra_add_discard (p : pkey)
  | ospf_zebra_delete_discard (p : pkey).

(** The paths are compared by their nexthops only. *)
Definition same_nexthops (l1 l2 : list ospf_path) : bool :=
  forallb (λ e : ospf_path * ospf_path, p_nexthop e.1 =? p_nexthop e.2) (zip l1 l2).

Definition ospf_route_match_same (rt : option net_table) (p : pkey) (newor : std_route) : res bool :=
  match rt with
  | None => Ok false
  | Some rt =>
      match rt !! p with
      | None => Ok false
      | Some or =>
          if (or_type or =? or_type newor) && (or_cost or =? or_cost newor) then
            if or_type or =? OSPF_DESTINATION_NETWORK then
              l1 ← of_option NullDeref (or_path or);
              l2 ← of_option NullDeref (or_path newor);
              if negb (Nat.eqb (length l1) (length l2)) then Ok false
              else Ok (same_nexthops l1 l2)
            else Ok true
          else Ok false
      end
  end.

Definition deletes_of (cmprt : net_table) (p : pkey) (or : std_route) : res (list zebra_call) :=
  if (or_path_type or =? OSPF_PATH_INTRA_AREA) || (or_path_type or =? OSPF_PATH_INTER_AREA) then
    if or_type or =? OSPF_DESTINATION_NETWORK then
      same ← ospf_route_match_same (Some cmprt) p or;
      Ok (if (same : bool) then [] else [ospf_zebra_delete p or])
    else if or_type or =? OSPF_DESTINATION_DISCARD then
      same ← ospf_route_match_same (Some cmprt) p or;
      Ok (if (same : bool) then [] else [ospf_zebra_delete_discard p])
    else Ok []
  else Ok [].

Definition adds_of (old : option net_table) (p : pkey) (or : std_route) : res (list zebra_call) :=
  if or_type or =? OSPF_DESTINATION_NETWORK then
    same ← ospf_route_match_same old p or;
    Ok (if (same : bool) then [] else [ospf_zebra_add p or])
  else if or_type or =? OSPF_DESTINATION_DISCARD then
    same ← ospf_route_match_same old p or;
    Ok (if (same : bool) then [] else [ospf_zebra_add_discard p])
  else Ok [].

(** A walk over a table that calls zebra. *)
Fixpoint zebra_walk (f : pkey → std_route → res (list zebra_call)) (l : list (pkey * std_route)) : res (list zebra_call) :=
  match l with
  | [] => Ok []
  | (p, r) :: l => c ← f p r; cs ← zebra_walk f l; Ok (c ++ cs)
  end.

Definition ospf_route_delete_uniq (rt cmprt : net_table) : res (list zebra_call) :=
  zebra_walk (deletes_of cmprt) (map_to_list rt).

(** The two tables of an instance, and what zebra is told. *)
Record ospf_tables := OspfTables { old_table : option net_table; new_table : option net_table; zebra_log : list zebra_call }.

Definition ospf_route_install (rt : net_table) (o : ospf_tables) : res ospf_tables :=
  let old := new_table o in
  dels ← match old with Some t => ospf_route_delete_uniq t rt | None => Ok [] end;
  adds ← zebra_walk (adds_of old) (map_to_list rt);
  Ok (OspfTables old (Some rt) (zebra_log o ++ dels ++ adds)).

(** ospf_route_delete *)
Definition ospf_route_delete (rt : net_table) : res (list zebra_call) :=
  zebra_walk (λ p or,
    Ok (if or_type or =? OSPF_DESTINATION_NETWORK then [ospf_zebra_delete p or]
        else if or_type or =? OSPF_DESTINATION_DISCARD then [ospf_zebra_delete_discard p] else [])) (map_to_list rt).

(** ** Other routes *)

Definition ospf_route_subst (p : pkey) (new_or over : std_route) (rt : net_table) : res net_table :=
  _ ← of_option NullDeref (rt !! p);
  new_or ← ospf_route_copy_nexthops new_or (or_path over);
  Ok (<[p := new_or]> rt).

Definition ospf_route_add (p : pkey) (new_or over : std_route) (rt : net_table) : res net_table :=
  new_or ← ospf_route_copy_nexthops new_or (or_path over);
  Ok match rt !! p with
     | Some _ => rt
     | None => <[p := new_or]> rt
     end.

(** Returns the table, the calls and the value of the function. *)
Definition ospf_add_discard_route (area_id : Z) (p : pkey) (rt : net_table) : net_table * list zebra_call * Z :=
  let add :=
    (<[p := OspfRoute OSPF_DESTINATION_DISCARD 0 OSPF_PATH_INTER_AREA None 0 (RouteStd [] area_id 0 0)]> rt,
     [ospf_zebra_add_discard p], 1) in
  match rt !! p with
  | Some or =>
      if or_path_type or =? OSPF_PATH_INTRA_AREA then (rt, [], 0)
      else if or_type or =? OSPF_DESTINATION_DISCARD then (rt, [], 0)
      else add
  | None => add
  end.

Definition ospf_delete_discard_route (p : pkey) : list zebra_call := [ospf_zebra_delete_discard p].

(** ** The routes of area ranges: ospf_abr_manage_discard_routes of ospfd/ospf_abr.c *)

Record area_range := AreaRange { ar_area_id : Z; ar_prefix : pkey; ar_advertise : bool; ar_specifics : Z }.

Definition manage_range (r : area_range) (o : ospf_tables) : res ospf_tables :=
  if negb (ar_advertise r) then Ok o
  else if negb (ar_specifics r =? 0) then
    rt ← of_option NullDeref (new_table o);
    let '(rt, calls, _) := ospf_add_discard_route (ar_area_id r) (ar_prefix r) rt in
    Ok (OspfTables (old_table o) (Some rt) (zebra_log o ++ calls))
  else Ok (OspfTables (old_table o) (new_table o) (zebra_log o ++ ospf_delete_discard_route (ar_prefix r))).

(** The ranges of all areas, in the order of the walks. *)
Fixpoint ospf_abr_manage_discard_routes (ranges : list area_range) (o : ospf_tables) : res ospf_tables :=
  match ranges with
  | [] => Ok o
  | r :: ranges => o ← manage_range r o; ospf_abr_manage_discard_routes ranges o
  end.
