(* ===== verification/OspfInstall.v ===== *)
(** What zebra has been told by ospfd: after any sequence of installations it is the
    current table. *)

From S2P Require Import Prelude Prefix Stream OspfLsa OspfIf OspfSpf OspfRoute.

(** * What zebra has *)

(** A route as zebra knows it: its cost and the addresses of its nexthops. *)
Inductive zroute := ZNet (cost : Z) (nexthops : list Z) | ZDiscard.

Definition shown (r : std_route) : option zroute :=
  if or_type r =? OSPF_DESTINATION_NETWORK then Some (ZNet (or_cost r) (p_nexthop <$> default [] (or_path r)))
  else if or_type r =? OSPF_DESTINATION_DISCARD then Some ZDiscard
  else None.

Abbreviation zview := (gmap pkey zroute).

Definition call_view (c : zebra_call) (v : zview) : zview :=
  match c with
  | ospf_zebra_add p r => match shown r with Some z => <[p := z]> v | None => v end
  | ospf_zebra_add_discard p => <[p := ZDiscard]> v
  | ospf_zebra_delete p _ | ospf_zebra_delete_discard p => delete p v
  end.

Definition calls_view (cs : list zebra_call) (v : zview) : zview := foldl (flip call_view) v cs.

Definition call_prefix (c : zebra_call) : pkey :=
  match c with
  | ospf_zebra_add p _ | ospf_zebra_delete p _ | ospf_zebra_add_discard p | ospf_zebra_delete_discard p => p
  end.

Lemma call_view_other c v p : call_prefix c ≠ p → call_view c v !! p = v !! p.
Proof. destruct c as [q r|q r|q|q]; cbn; intros Hne; [destruct (shown r); [|done]|..]; by rewrite ?lookup_insert_ne, ?lookup_delete_ne. Qed.

Lemma calls_view_cons c cs v : calls_view (c :: cs) v = calls_view cs (call_view c v).
Proof. done. Qed.

Lemma calls_view_other cs v p : (∀ c, c ∈ cs → call_prefix c ≠ p) → calls_view cs v !! p = v !! p.
Proof.
  revert v. induction cs as [|c cs IH]; intros v H; [done|]. rewrite calls_view_cons, IH by (intros c' Hc'; apply H; by right).
  apply call_view_other, H. by left.
Qed.

Lemma calls_view_app cs1 cs2 v : calls_view (cs1 ++ cs2) v = calls_view cs2 (calls_view cs1 v).
Proof. apply foldl_app. Qed.

(** * Walks *)

(** [f] calls zebra for the prefix of the route only. *)
Definition local (f : pkey → std_route → res (list zebra_call)) : Prop :=
  ∀ p r cs c, f p r = Ok cs → c ∈ cs → call_prefix c = p.

Definition walk_at (f : pkey → std_route → res (list zebra_call)) (o : option std_route) (p : pkey) (v : zview) : option zroute :=
  match o with
  | Some r => match f p r with Ok cs => calls_view cs v !! p | Fail _ => v !! p end
  | None => v !! p
  end.

Lemma calls_view_at cs v w p : v !! p = w !! p → calls_view cs v !! p = calls_view cs w !! p.
Proof.
  revert v w. induction cs as [|c cs IH]; intros v w H; [done|]. rewrite !calls_view_cons. apply IH.
  destruct (decide (call_prefix c = p)) as [<-|Hne]; [|by rewrite !call_view_other].
  destruct c as [q r|q r|q|q]; cbn in *; [destruct (shown r); [|done]|..]; by rewrite ?lookup_insert_eq, ?lookup_delete_eq.
Qed.

Lemma walk_view f l cs v :
  local f → NoDup l.*1 → zebra_walk f l = Ok cs →
  ∀ p, calls_view cs v !! p = walk_at f (list_to_map (M := net_table) l !! p) p v.
Proof.
  intros Hf. revert cs v. induction l as [|[q r] l IH]; intros cs v Hnd Hw p; cbn [zebra_walk] in Hw; [by injection Hw as <-|].
  apply res_bind_Ok in Hw as (c & Hc & Hw), Hw as (cs' & Hcs & [= <-]). cbn in Hnd. apply NoDup_cons in Hnd as [Hq Hnd].
  rewrite calls_view_app, (IH cs' _ Hnd Hcs). cbn [list_to_map foldr]. destruct (decide (q = p)) as [->|Hne].
  - rewrite not_elem_of_list_to_map_1 by done. cbn. rewrite lookup_insert_eq. cbn. by rewrite Hc.
  - cbn. rewrite lookup_insert_ne by done.
    assert (E : calls_view c v !! p = v !! p).
    { apply calls_view_other. intros c' Hc' <-. apply Hne. symmetry. by apply (Hf q r c). }
    unfold walk_at. destruct (list_to_map l !! p) as [r'|]; [|done]. destruct (f p r') as [cs2|]; [|done]. by apply calls_view_at.
Qed.

Lemma walk_total f l : (∀ p r, (p, r) ∈ l → ∃ cs, f p r = Ok cs) → ∃ cs, zebra_walk f l = Ok cs.
Proof.
  induction l as [|[p r] l IH]; intros H; [by exists []|]. cbn [zebra_walk]. destruct (H p r) as [c ->]; [left|].
  destruct IH as [cs ->]; [intros p' r' Hin; apply H; by right|]. cbn. by eexists.
Qed.

(** * One table after the other *)

Record route_fine (r : std_route) : Prop := RouteFine {
  rf_type : or_type r = OSPF_DESTINATION_NETWORK ∧ is_Some (or_path r) ∨ or_type r = OSPF_DESTINATION_DISCARD;
  rf_path_type : or_path_type r = OSPF_PATH_INTRA_AREA ∨ or_path_type r = OSPF_PATH_INTER_AREA;
}.

Definition table_fine (t : net_table) : Prop := ∀ p r, t !! p = Some r → route_fine r.

Definition same_route (r1 r2 : std_route) : bool :=
  (or_type r1 =? or_type r2) && (or_cost r1 =? or_cost r2) &&
  ((negb (or_type r1 =? OSPF_DESTINATION_NETWORK)) || bool_decide (p_nexthop <$> default [] (or_path r1) = p_nexthop <$> default [] (or_path r2))).

Lemma same_nexthops_spec l1 l2 :
  (if negb (Nat.eqb (length l1) (length l2)) then false else same_nexthops l1 l2) = bool_decide (p_nexthop <$> l1 = p_nexthop <$> l2).
Proof.
  revert l2. induction l1 as [|x l1 IH]; intros [|y l2]; try done. cbn. specialize (IH l2).
  destruct (Nat.eqb (length l1) (length l2)) eqn:E; cbn in *.
  - unfold same_nexthops in *. cbn. rewrite IH. destruct (Z.eqb_spec (p_nexthop x) (p_nexthop y)) as [->|Hne]; cbn.
    + apply bool_decide_ext. split; [by intros ->|by intros [= ?]].
    + symmetry. apply bool_decide_false. congruence.
  - symmetry. apply bool_decide_false. intros [= _ H]. apply Nat.eqb_neq in E. apply E.
    by rewrite <- (length_fmap p_nexthop l1), H, length_fmap.
Qed.

Definition same_in (o : option std_route) (r : std_route) : bool := match o with Some r' => same_route r' r | None => false end.

Lemma match_same_run t p r :
  table_fine t → route_fine r →
  ospf_route_match_same (Some t) p r = Ok (same_in (t !! p) r).
Proof.
  intros Ht [Hr _]. cbn. unfold same_in. destruct (t !! p) as [r'|] eqn:E; [|done]. destruct (Ht p r' E) as [Hr' _]. unfold same_route.
  destruct (Z.eqb_spec (or_type r') (or_type r)) as [Et|]; [|done]. destruct (Z.eqb_spec (or_cost r') (or_cost r)); [|done]. cbn [andb].
  destruct (Z.eqb_spec (or_type r') OSPF_DESTINATION_NETWORK) as [En|]; [|done]. cbn [negb orb].
  destruct Hr' as [[_ [l1 ->]]|Hd]; [|by rewrite En in Hd]. destruct Hr as [[_ [l2 ->]]|Hd]; [|by rewrite <- Et, En in Hd]. cbn [of_option mbind res_bind default].
  change (default [] (Some l1)) with l1. change (default [] (Some l2)) with l2. rewrite <- same_nexthops_spec. by destruct (negb _).
Qed.

Lemma same_route_sym r1 r2 : same_route r1 r2 = same_route r2 r1.
Proof.
  unfold same_route. rewrite (Z.eqb_sym (or_type r1)), (Z.eqb_sym (or_cost r1)).
  destruct (Z.eqb_spec (or_type r2) (or_type r1)) as [->|]; [|done]. do 2 f_equal. by apply bool_decide_ext.
Qed.

Lemma same_route_shown r1 r2 : same_route r1 r2 = true → shown r1 = shown r2.
Proof.
  unfold same_route, shown. rewrite !andb_true_iff, orb_true_iff, !Z.eqb_eq, bool_decide_eq_true. intros [[-> ->] [Hn| ->]]; [|done].
  by destruct (or_type r2 =? OSPF_DESTINATION_NETWORK).
Qed.

(** ** Installation *)

Lemma deletes_local t : local (deletes_of t).
Proof.
  intros p r cs c Hf Hc. unfold deletes_of in Hf. repeat case_match; try (injection Hf as <-; by apply elem_of_nil in Hc).
  all: apply res_bind_Ok in Hf as (b & _ & [= <-]); destruct b; [by apply elem_of_nil in Hc|by apply list_elem_of_singleton in Hc as ->].
Qed.

Lemma adds_local o : local (adds_of o).
Proof.
  intros p r cs c Hf Hc. unfold adds_of in Hf. repeat case_match; try (injection Hf as <-; by apply elem_of_nil in Hc).
  all: apply res_bind_Ok in Hf as (b & _ & [= <-]); destruct b; [by apply elem_of_nil in Hc|by apply list_elem_of_singleton in Hc as ->].
Qed.

Lemma deletes_run t p r :
  table_fine t → route_fine r →
  ∃ cs, deletes_of t p r = Ok cs ∧ ∀ v, calls_view cs v !! p = if (same_in (t !! p) r) then v !! p else None.
Proof.
  intros Ht Hr. pose proof Hr as [Hty Hpt]. unfold deletes_of.
  assert ((or_path_type r =? OSPF_PATH_INTRA_AREA) || (or_path_type r =? OSPF_PATH_INTER_AREA) = true) as -> by (destruct Hpt as [-> | ->]; done).
  rewrite (match_same_run t p r Ht Hr). set (b := same_in (t !! p) r). cbn [mbind res_bind].
  destruct Hty as [[-> _]| ->]; cbn; (eexists; split; [reflexivity|]); intros v; (destruct b; [done|]); apply lookup_delete_eq.
Qed.

Lemma adds_run_at o p r :
  (∀ t, o = Some t → table_fine t) → route_fine r →
  ∃ cs, adds_of o p r = Ok cs ∧
    ∀ v, calls_view cs v !! p = if (same_in (o ≫= lookup p) r) then v !! p else shown r.
Proof.
  intros Ht Hr. pose proof Hr as [Hty _]. unfold adds_of.
  assert (ospf_route_match_same o p r = Ok (same_in (o ≫= lookup p) r)) as ->.
  { destruct o as [t|]; [|done]. rewrite (match_same_run t p r); [done|by apply Ht|done]. }
  set (b := same_in (o ≫= lookup p) r). cbn [mbind res_bind].
  destruct Hty as [[E _]|E]; rewrite E; cbn; (eexists; split; [reflexivity|]); intros v; (destruct b; [done|]); unfold calls_view, shown; cbn;
    unfold shown; rewrite E; cbn; apply lookup_insert_eq.
Qed.

(** [o] is in step with zebra. *)
Definition in_step (o : ospf_tables) : Prop :=
  (∀ t, new_table o = Some t → table_fine t) ∧
  ∀ p, calls_view (zebra_log o) ∅ !! p = (new_table o ≫= lookup p) ≫= shown.

Lemma install_step rt o : table_fine rt → in_step o → ∃ o', ospf_route_install rt o = Ok o' ∧ new_table o' = Some rt ∧ in_step o'.
Proof.
  intros Hrt [Hfine Hv]. unfold ospf_route_install. set (old := new_table o) in *.
  assert (∃ dels, match old with Some t => ospf_route_delete_uniq t rt | None => Ok [] end = Ok dels ∧
    ∀ p v, calls_view dels v !! p = match old ≫= lookup p with
      | Some r => if (same_in (rt !! p) r) then v !! p else None | None => v !! p end) as (dels & -> & Hdels).
  { destruct old as [t|]; [|by exists []]. cbn. unfold ospf_route_delete_uniq.
    destruct (walk_total (deletes_of rt) (map_to_list t)) as [dels Hd].
    { intros p r Hin%elem_of_map_to_list. destruct (deletes_run rt p r Hrt (Hfine t eq_refl p r Hin)) as (cs & Hcs & _). by exists cs. }
    exists dels. split; [done|]. intros p v. rewrite (walk_view _ _ _ v (deletes_local rt) (NoDup_fst_map_to_list t) Hd p), list_to_map_to_list.
    unfold walk_at. destruct (t !! p) as [r|] eqn:E; [|done]. destruct (deletes_run rt p r Hrt (Hfine t eq_refl p r E)) as (cs & -> & Hcs). by rewrite Hcs. }
  cbn [mbind res_bind]. destruct (walk_total (adds_of old) (map_to_list rt)) as [adds Ha].
  { intros p r Hin%elem_of_map_to_list. destruct (adds_run_at old p r Hfine (Hrt p r Hin)) as (cs & Hcs & _). by exists cs. }
  rewrite Ha. cbn [mbind res_bind]. eexists. split; [reflexivity|]. split; [done|]. split; [by intros t [= <-]|]. intros p. cbn [zebra_log new_table].
  rewrite !calls_view_app, (walk_view _ _ _ _ (adds_local old) (NoDup_fst_map_to_list rt) Ha p), list_to_map_to_list. cbn. unfold walk_at.
  destruct (rt !! p) as [r|] eqn:E; cbn.
  - destruct (adds_run_at old p r Hfine (Hrt p r E)) as (cs & -> & ->). rewrite Hdels, E, Hv.
    destruct (old ≫= lookup p) as [r'|]; [|done]. cbn [same_in]. rewrite (same_route_sym r r'). destruct (same_route r' r) eqn:Es; [|done].
    cbn. by apply same_route_shown.
  - rewrite Hdels, E, Hv. by destruct (old ≫= lookup p).
Qed.

(** A route of a range is added to the current table. *)
Lemma discard_step r o :
  in_step o → ar_specifics r ≠ 0 → is_Some (new_table o) → ∃ o', manage_range r o = Ok o' ∧ is_Some (new_table o') ∧ in_step o'.
Proof.
  intros [Hfine Hv] Hs [rt Hrt]. unfold manage_range. destruct (ar_advertise r); cbn [negb]; [|exists o; split_and!; [done|by eexists|done..]].
  rewrite (proj2 (Z.eqb_neq _ _) Hs). cbn [negb]. rewrite Hrt. cbn [of_option mbind res_bind].
  unfold ospf_add_discard_route. set (new := OspfRoute _ _ _ _ _ _). rewrite Hrt in Hv. cbn in Hv.
  set (p := ar_prefix r).
  assert (Hkeep : ∃ o', Ok (OspfTables (old_table o) (Some rt) (zebra_log o ++ [])) = Ok o' ∧ is_Some (new_table o') ∧ in_step o').
  { eexists. split; [reflexivity|]. split; [by eexists|]. split; [intros t [= <-]; by apply Hfine|]. cbn. by rewrite app_nil_r. }
  assert (Hadd : ∃ o', Ok (OspfTables (old_table o) (Some (<[p := new]> rt)) (zebra_log o ++ [ospf_zebra_add_discard p])) = Ok o' ∧
    is_Some (new_table o') ∧ in_step o').
  { eexists. split; [reflexivity|]. split; [by eexists|]. split.
    - intros t [= <-] q r' [[<- <-]|[_ Hq]]%lookup_insert_Some; [split; [by right|by right]|by apply (Hfine rt Hrt q)].
    - intros q. cbn [zebra_log new_table]. rewrite calls_view_app. cbn. destruct (decide (q = p)) as [->|Hne].
      + by rewrite !lookup_insert_eq.
      + by rewrite !lookup_insert_ne. }
  destruct (rt !! p) as [cur|]; [|done]. destruct (or_path_type cur =? _); [done|]. by destruct (or_type cur =? _).
Qed.

(** ** Any sequence *)

Inductive route_op := OpInstall (rt : net_table) | OpDiscard (r : area_range).

Definition run_op (op : route_op) (o : ospf_tables) : res ospf_tables :=
  match op with
  | OpInstall rt => ospf_route_install rt o
  | OpDiscard r => manage_range r o
  end.

Fixpoint run_ops (ops : list route_op) (o : ospf_tables) : res ospf_tables :=
  match ops with
  | [] => Ok o
  | op :: ops => o ← run_op op o; run_ops ops o
  end.

Definition op_fine (op : route_op) : Prop :=
  match op with
  | OpInstall rt => table_fine rt
  | OpDiscard r => ar_specifics r ≠ 0
  end.

Definition no_tables : ospf_tables := OspfTables None None [].

Lemma run_ops_step ops o :
  Forall op_fine ops → in_step o → is_Some (new_table o) → ∃ o', run_ops ops o = Ok o' ∧ in_step o'.
Proof.
  intros Hops. revert o. induction Hops as [|op ops Hop Hops IH]; intros o Hin Hn; [by exists o|]. cbn [run_ops].
  assert (∃ o1, run_op op o = Ok o1 ∧ is_Some (new_table o1) ∧ in_step o1) as (o1 & -> & Hn1 & Hin1).
  { destruct op as [rt|r]; cbn [run_op].
    - destruct (install_step rt o Hop Hin) as (o1 & H1 & H2 & H3). exists o1. split_and!; [done|rewrite H2; by eexists|done..].
    - by apply discard_step. }
  cbn [mbind res_bind]. by apply IH.
Qed.

(** C5: after any sequence of installations of routing tables and of discard routes for
    area ranges with specific routes, zebra has been told exactly the current table: the
    networks with their costs and the addresses of their nexthops, and the discard routes.
    The tables are those of networks and discard routes within the autonomous system
    ([table_fine]).  Ranges that have lost their specific routes are left out, for them
    zebra gets out of step ([discard_delete_breaks]); and the interfaces of the nexthops
    are not compared, zebra may keep an old one ([install_misses_interface]). *)
Theorem ospf_zebra_in_step rt ops :
  table_fine rt → Forall op_fine ops →
  ∃ o, run_ops (OpInstall rt :: ops) no_tables = Ok o ∧
    ∀ p, calls_view (zebra_log o) ∅ !! p = (new_table o ≫= lookup p) ≫= shown.
Proof.
  intros Hrt Hops. destruct (install_step rt no_tables Hrt) as (o1 & H1 & H2 & H3).
  { split; [done|]. intros p. cbn. apply lookup_empty. }
  destruct (run_ops_step ops o1 Hops H3) as (o & Ho & [_ Hv]); [rewrite H2; by eexists|].
  exists o. split; [|done]. cbn [run_ops run_op]. by rewrite H1.
Qed.

(** ** Tables to try *)

Definition net_of (n : Z) : pkey := (24, [10; 0; n; 0]).
Definition net_route (cost nexthop : Z) (oi : nat) : std_route :=
  OspfRoute OSPF_DESTINATION_NETWORK 1 OSPF_PATH_INTRA_AREA (Some [OspfPath nexthop 0 (Some oi)]) cost (RouteStd [] 0 0 0).

Lemma net_route_fine c n i : route_fine (net_route c n i).
Proof. split; [left; split; [done|by eexists]|by left]. Qed.

Lemma one_route_fine p c n i : table_fine {[p := net_route c n i]}.
Proof. intros q r [<- <-]%lookup_singleton_Some. apply net_route_fine. Qed.

Lemma ospf_zebra_in_step_witness :
  ∃ o, run_ops [OpInstall {[net_of 1 := net_route 10 7 0]}; OpInstall {[net_of 2 := net_route 20 7 0]}; OpDiscard (AreaRange 1 (net_of 3) true 2)] no_tables = Ok o ∧
    ∀ p, calls_view (zebra_log o) ∅ !! p = (new_table o ≫= lookup p) ≫= shown.
Proof.
  apply ospf_zebra_in_step; [apply one_route_fine|]. constructor; [apply one_route_fine|]. constructor; [discriminate|constructor].
Defined.

(** A directly connected network moves to another interface at the same cost: zebra is
    told nothing, and keeps the old interface. *)
Lemma install_misses_interface :
  match run_ops [OpInstall {[net_of 1 := net_route 10 0 0]}; OpInstall {[net_of 1 := net_route 10 0 1]}] no_tables with
  | Ok o => zebra_log o = [ospf_zebra_add (net_of 1) (net_route 10 0 0)]
  | Fail _ => False
  end.
Proof. vm_compute. reflexivity. Qed.

(** A range without networks of its own takes the route to a network of the same prefix
    away from zebra. *)
Lemma discard_delete_breaks :
  match run_ops [OpInstall {[net_of 1 := net_route 10 7 0]}; OpDiscard (AreaRange 1 (net_of 1) true 0)] no_tables with
  | Ok o => calls_view (zebra_log o) ∅ !! net_of 1 = None ∧ (new_table o ≫= lookup (net_of 1)) = Some (net_route 10 7 0)
  | Fail _ => False
  end.
Proof. vm_compute. split; reflexivity. Qed.

(** * The order of routes *)

Record cmp_ok (r : ospf_route route_u) : Prop := CmpOk {
  co_cost : 0 ≤ or_cost r < 2^31;
  co_ext : or_path_type r = OSPF_PATH_TYPE1_EXTERNAL ∨ or_path_type r = OSPF_PATH_TYPE2_EXTERNAL →
    ∃ e, or_u r = Ext e ∧ 0 ≤ re_type2_cost e < 2^31;
}.

Lemma diff32_small a b : 0 ≤ a < 2^31 → 0 ≤ b < 2^31 → diff32 a b = a - b.
Proof. intros Ha Hb. unfold diff32, s32, u32. rewrite Zplus_mod_idemp_l. rewrite Z.mod_small; lia. Qed.

(** What routes are compared by, the first first. *)
Definition asbr_rank (config : Z) (r : std_route) : Z :=
  if CHECK_FLAG config OSPF_RFC1583_COMPATIBLE then 0
  else if rs_area_id (or_u r) =? OSPF_AREA_BACKBONE then OSPF_PATH_INTER_AREA else or_path_type r.

Definition rank (config : Z) (r : ospf_route route_u) : Z * Z * Z * Z :=
  match or_u r with
  | Ext e =>
      if or_path_type r =? OSPF_PATH_TYPE1_EXTERNAL then (or_path_type r, 0, asbr_rank config (re_asbr e), or_cost r)
      else if or_path_type r =? OSPF_PATH_TYPE2_EXTERNAL then (or_path_type r, re_type2_cost e, asbr_rank config (re_asbr e), or_cost r)
      else (or_path_type r, 0, 0, or_cost r)
  | Std _ => (or_path_type r, 0, 0, or_cost r)
  end.

Definition lex4 (a b : Z * Z * Z * Z) : Z :=
  let '(a1, a2, a3, a4) := a in
  let '(b1, b2, b3, b4) := b in
  if a1 =? b1 then if a2 =? b2 then if a3 =? b3 then a4 - b4 else a3 - b3 else a2 - b2 else a1 - b1.

Lemma lex4_order a b c :
  (lex4 a b < 0 ↔ 0 < lex4 b a) ∧ (lex4 a b ≤ 0 → lex4 b c ≤ 0 → lex4 a c ≤ 0).
Proof.
  destruct a as [[[a1 a2] a3] a4], b as [[[b1 b2] b3] b4], c as [[[c1 c2] c3] c4]. unfold lex4.
  repeat case_match; repeat match goal with H : (_ =? _) = true |- _ => apply Z.eqb_eq in H | H : (_ =? _) = false |- _ => apply Z.eqb_neq in H end; lia.
Qed.

Lemma route_cmp_rank config r1 r2 : cmp_ok r1 → cmp_ok r2 → ospf_route_cmp config r1 r2 = Some (lex4 (rank config r1) (rank config r2)).
Proof.
  intros [Hc1 He1] [Hc2 He2]. unfold ospf_route_cmp, ext_of. rewrite (diff32_small (or_cost r1) (or_cost r2)) by done.
  destruct (Z.eqb_spec (or_path_type r1 - or_path_type r2) 0) as [E|Hne]; cbn [negb].
  2:{ f_equal. unfold rank. repeat case_match; unfold lex4; rewrite (proj2 (Z.eqb_neq (or_path_type r1) (or_path_type r2))) by lia; done. }
  assert (or_path_type r1 = or_path_type r2) as Ep by lia. unfold rank. rewrite <- Ep in *.
  destruct (Z.eqb_spec (or_path_type r1) OSPF_PATH_TYPE1_EXTERNAL) as [E1|N1].
  - destruct (He1 (or_introl E1)) as (e1 & -> & H1), (He2 (or_introl E1)) as (e2 & -> & H2). unfold ospf_asbr_route_cmp, lex4, asbr_rank.
    rewrite !Z.eqb_refl. destruct (CHECK_FLAG config _); [by rewrite Z.eqb_refl|].
    repeat case_match; repeat match goal with H : (_ =? _) = true |- _ => apply Z.eqb_eq in H | H : (_ =? _) = false |- _ => apply Z.eqb_neq in H end; f_equal; lia.
  - destruct (Z.eqb_spec (or_path_type r1) OSPF_PATH_TYPE2_EXTERNAL) as [E2|N2].
    + destruct (He1 (or_intror E2)) as (e1 & -> & H1), (He2 (or_intror E2)) as (e2 & -> & H2). rewrite (diff32_small (re_type2_cost e1)) by done.
      unfold ospf_asbr_route_cmp, lex4, asbr_rank. rewrite !Z.eqb_refl. destruct (CHECK_FLAG config _);
      repeat case_match; repeat match goal with H : (_ =? _) = true |- _ => apply Z.eqb_eq in H | H : (_ =? _) = false |- _ => apply Z.eqb_neq in H end; f_equal; lia.
    + unfold lex4. repeat case_match; simplify_eq; rewrite ?Z.eqb_refl in *; done.
Qed.

(** ospf_route_cmp always answers and is an order on routes whose costs are below 2^31:
    it is antisymmetric and transitive. *)
Theorem ospf_route_cmp_order config r1 r2 r3 :
  cmp_ok r1 → cmp_ok r2 → cmp_ok r3 →
  ∃ c12 c21 c23 c13, ospf_route_cmp config r1 r2 = Some c12 ∧ ospf_route_cmp config r2 r1 = Some c21 ∧
    ospf_route_cmp config r2 r3 = Some c23 ∧ ospf_route_cmp config r1 r3 = Some c13 ∧
    (c12 < 0 ↔ 0 < c21) ∧ (c12 ≤ 0 → c23 ≤ 0 → c13 ≤ 0).
Proof.
  intros H1 H2 H3. destruct (lex4_order (rank config r1) (rank config r2) (rank config r3)) as [Ha Ht].
  do 4 eexists. rewrite !route_cmp_rank by done. do 4 (split; [reflexivity|]). done.
Qed.

Definition intra_route (cost : Z) : ospf_route route_u := OspfRoute OSPF_DESTINATION_NETWORK 1 OSPF_PATH_INTRA_AREA (Some []) cost (Std (RouteStd [] 0 0 0)).

Lemma ospf_route_cmp_order_witness :
  ∃ c12 c21 c23 c13, ospf_route_cmp 0 (intra_route 10) (intra_route 20) = Some c12 ∧ ospf_route_cmp 0 (intra_route 20) (intra_route 10) = Some c21 ∧
    ospf_route_cmp 0 (intra_route 20) (intra_route 30) = Some c23 ∧ ospf_route_cmp 0 (intra_route 10) (intra_route 30) = Some c13 ∧
    (c12 < 0 ↔ 0 < c21) ∧ (c12 ≤ 0 → c23 ≤ 0 → c13 ≤ 0).
Proof.
  apply ospf_route_cmp_order; (split; [cbn; lia|intros [H|H]; discriminate H]).
Defined.
