(* ===== verification/OspfRouteFacts.v ===== *)
(** The routes of one area: the table that ospf_intra_add_transit and ospf_intra_add_stub
    build has the least cost that is offered for each prefix. *)

From stdpp Require Import sorting.
From S2P Require Import Prelude Prefix Stream OspfLsa OspfIf OspfSpf OspfSpfGraph OspfSpfRead OspfRoute.

(** * Prefixes *)

Lemma count_bits_total fuel j x len :
  (fuel + j = 8)%nat → 0 ≤ len → len + Z.of_nat fuel < 256 →
  ∃ n, count_bits fuel ((x * 2 ^ Z.of_nat j) mod 256) len = Ok n ∧ len ≤ n ≤ len + Z.of_nat fuel.
Proof.
  revert j len. induction fuel as [|fuel IH]; intros j len Hj H0 Hlen; cbn [count_bits].
  { assert (j = 8)%nat as -> by lia. change (2 ^ Z.of_nat 8) with 256. rewrite Z.mod_mul by lia. exists len. split; [done|lia]. }
  destruct (Z.eqb_spec ((x * 2 ^ Z.of_nat j) mod 256) 0) as [E|Hne]; [exists len; split; [done|lia]|].
  assert (u8 (Z.shiftl ((x * 2 ^ Z.of_nat j) mod 256) 1) = (x * 2 ^ Z.of_nat (S j)) mod 256) as ->.
  { unfold u8. change (2 ^ 8) with 256. rewrite Z.shiftl_mul_pow2 by lia. rewrite Z.mul_mod_idemp_l by lia. f_equal. rewrite Nat2Z.inj_succ, Z.pow_succ_r by lia. lia. }
  assert (u8 (len + 1) = len + 1) as -> by (unfold u8; rewrite Z.mod_small; lia).
  destruct (IH (S j) (len + 1)) as (n & Hn & Hr); [lia..|]. exists n. split; [done|lia].
Qed.

Lemma count_ff_total fuel a pnt len :
  (Z.of_nat fuel = 4 - pnt) → 0 ≤ pnt → len = 8 * pnt → 5 ≤ Z.of_nat (length a) →
  ∃ q, count_ff fuel a pnt 4 len = Ok (q, 8 * q) ∧ pnt ≤ q ≤ 4.
Proof.
  revert pnt len. induction fuel as [|fuel IH]; intros pnt len Hf H0 -> Ha; cbn [count_ff].
  all: destruct (get_byte_in a pnt) as (b & -> & _); [lia|]; cbn [mbind res_bind].
  - destruct (Z.ltb_spec pnt 4); [lia|]. rewrite andb_false_r. exists pnt. split; [done|lia].
  - destruct (_ && _); [|exists pnt; split; [done|lia]].
    destruct (IH (pnt + 1) (u8 (8 * pnt + 8))) as (q & Hq & Hr); [lia|lia|unfold u8; rewrite Z.mod_small; lia|done|].
    exists q. split; [done|lia].
Qed.

Lemma ip_masklen_total m after : bytes_ok (m ++ [after]) → length m = 4%nat → ∃ n, ip_masklen (m ++ [after]) = Ok n ∧ 0 ≤ n ≤ 32.
Proof.
  intros Hb Hm. unfold ip_masklen. destruct (count_ff_total 4 (m ++ [after]) 0 0) as (q & -> & Hq); [done|lia|done|rewrite length_app; cbn; lia|].
  cbn [mbind res_bind]. destruct (Z.ltb_spec q 4) as [Hlt|Hge]; [|exists (8 * q); split; [done|lia]].
  destruct (get_byte_in (m ++ [after]) q) as (b & -> & Hq'); [rewrite length_app; cbn; lia|]. cbn [mbind res_bind]. pose proof (Forall_lookup_1 _ _ _ _ Hb Hq') as Hu. unfold is_u8 in Hu.
  destruct (count_bits_total 8 0 b (8 * q)) as (n & Hn & Hr); [done|lia|lia|]. change (2 ^ Z.of_nat 0) with 1 in Hn.
  rewrite Z.mul_1_r, Z.mod_small in Hn by lia. exists n. split; [done|lia].
Qed.

Lemma be32_octets v : bytes_ok (be32 v) ∧ length (be32 v) = 4%nat.
Proof. split; [|done]. unfold be32. repeat constructor; unfold is_u8, u8; apply Z.mod_pos_bound; lia. Qed.

Lemma apply_mask_ipv4_total len a :
  0 ≤ len ≤ 32 → bytes_ok a → length a = 4%nat → ∃ q, apply_mask_ipv4 (Prefix AF_INET len a) = Ok q.
Proof.
  intros Hl Ha H4. destruct (apply_mask_spec (Prefix AF_INET len a)) as (q & Hq & _).
  { split; [by left|]. cbn. split; [done|]. split; [lia|]. rewrite H4. done. }
  by exists q.
Qed.

Lemma mask_prefix_total after id mask : is_u8 after → ∃ p, mask_prefix after id mask = Ok p.
Proof.
  intros Ha. unfold mask_prefix. destruct (be32_octets mask) as [Hb Hl], (be32_octets id) as [Hb' Hl'].
  destruct (ip_masklen_total (be32 mask) after) as (n & -> & Hn); [apply Forall_app; split; [done|by constructor]|done|].
  cbn [mbind res_bind]. destruct (apply_mask_ipv4_total n (be32 id) Hn Hb' Hl') as [q ->]. cbn [mbind res_bind]. by eexists.
Qed.

(** * What is offered *)

Section Area.
Context (area : spf_area) (area_id root : Z) (self : ospf_lsa) (Hok : area_ok area self).

Abbreviation after := (sa_garbage area).

(** The prefix and the cost of a route that is added to the table of networks. *)
Definition offer_of (r : route_add) : option (pkey * Z) :=
  match r with
  | ospf_intra_add_router _ => None
  | ospf_intra_add_transit v =>
      match get32 (v_lsa v) 20 with
      | Ok mask => match mask_prefix after (v_id v) mask with Ok p => Some (p, v_distance v) | Fail _ => None end
      | Fail _ => None
      end
  | ospf_intra_add_stub l v =>
      match link_id (v_lsa v) l, link_data (v_lsa v) l, link_metric (v_lsa v) l with
      | Ok id, Ok data, Ok m => match mask_prefix after id data with Ok p => Some (p, v_distance v + m) | Fail _ => None end
      | _, _, _ => None
      end
  end.

Definition offers (r : route_add) (p : pkey) (c : Z) : Prop := offer_of r = Some (p, c).

Definition add_vertex (r : route_add) : vertex :=
  match r with
  | ospf_intra_add_router v | ospf_intra_add_transit v | ospf_intra_add_stub _ v => v
  end.

(** What an addition reads is there, and the cost does not wrap. *)
Record add_ok (r : route_add) : Prop := AddOk {
  ad_length : 24 ≤ Z.of_nat (length (v_lsa (add_vertex r)));
  ad_stub : ∀ l v, r = ospf_intra_add_stub l v →
    ∃ x, link_at (v_lsa v) l x ∧ is_u32 (v_distance v + rl_metric x);
}.

(** A path over a nexthop. *)
Definition path_via (nh : vertex_nexthop) : ospf_path := OspfPath (nh_router nh) 0 (Some (nh_oi nh)).

(** The paths of a route for [p] of the cost [c], when [done] have been added. *)
Definition paths_from (done : list route_add) (p : pkey) (c : Z) (l : list ospf_path) : Prop :=
  ∀ path, path ∈ l →
    (∃ r nh, r ∈ done ∧ offers r p c ∧ nh ∈ v_nexthop (add_vertex r) ∧ path = path_via nh) ∨
    (∃ i, ospf_if_lookup_by_prefix area p = Ok (Some i) ∧ path = OspfPath 0 0 (Some i)).

Record route_ok (done : list route_add) (p : pkey) (or : std_route) : Prop := RouteOk {
  rk_type : or_type or = OSPF_DESTINATION_NETWORK ∧ or_path_type or = OSPF_PATH_INTRA_AREA;
  rk_least : ∀ r c, r ∈ done → offers r p c → or_cost or ≤ c;
  rk_there : ∃ r, r ∈ done ∧ offers r p (or_cost or);
  rk_paths : ∃ l, or_path or = Some l ∧ paths_from done p (or_cost or) l;
  rk_origin : 24 ≤ Z.of_nat (length (rs_origin (or_u or)));
}.

Record table_ok (done : list route_add) (t : net_table) : Prop := TableOk {
  tk_none : ∀ p, t !! p = None → ∀ r c, r ∈ done → ¬ offers r p c;
  tk_some : ∀ p or, t !! p = Some or → route_ok done p or;
}.

Lemma copy_loop_from (path : list ospf_path) (l : list vertex_nexthop) x :
  x ∈ copy_nexthops_loop path l → x ∈ path ∨ ∃ nh, nh ∈ l ∧ x = path_via nh.
Proof.
  revert path. induction l as [|nh l IH]; intros path; [by left|]. cbn.
  intros [Hx|(nh' & Hn & ->)]%IH; [|right; exists nh'; split; [by right|done]].
  case_match; [by left|]. apply elem_of_app in Hx as [Hx|Hx]; [by left|]. apply list_elem_of_singleton in Hx as ->.
  right. exists nh. split; [left|done].
Qed.

Lemma paths_from_more done r p c l : paths_from done p c l → paths_from (done ++ [r]) p c l.
Proof.
  intros H x [(r' & nh & Hr & Ho)|Hi]%H; [left|by right]. exists r', nh. split; [apply elem_of_app; by left|done].
Qed.

Lemma paths_from_copy done r p c l :
  paths_from done p c l → offers r p c → paths_from (done ++ [r]) p c (copy_nexthops_loop l (v_nexthop (add_vertex r))).
Proof.
  intros H Ho x [Hx|(nh & Hn & ->)]%copy_loop_from; [by apply (paths_from_more _ _ _ _ _ H)|].
  left. exists r, nh. split_and!; [apply elem_of_app; right; left|done..].
Qed.

Lemma offers_fun r p q c d : offers r p c → offers r q d → p = q ∧ c = d.
Proof. unfold offers. intros -> [= <- <-]. done. Qed.

(** An addition to the table at the prefix it is for. *)
Lemma table_ok_set done r p c t or :
  table_ok done t → offers r p c → route_ok (done ++ [r]) p or → table_ok (done ++ [r]) (<[p := or]> t).
Proof.
  intros [Hn Hs] Ho Hor. split.
  - intros q [Hq Hne]%lookup_insert_None r' c' Hr' Ho'. apply elem_of_app in Hr' as [Hr'|Hr'].
    + by apply (Hn q Hq r' c').
    + apply list_elem_of_singleton in Hr' as ->. by destruct (offers_fun _ _ _ _ _ Ho Ho').
  - intros q or' [[<- <-]|[Hne Hq]]%lookup_insert_Some; [done|]. destruct (Hs q or' Hq) as [Ht Hl (r' & Hr' & Hc) (l & Hp & Hf) Hg].
    split; [done| | | |done].
    + intros r2 c2 [Hr2|Hr2]%elem_of_app Ho2; [by apply (Hl r2)|]. apply list_elem_of_singleton in Hr2 as ->.
      by destruct (offers_fun _ _ _ _ _ Ho Ho2).
    + exists r'. split; [apply elem_of_app; by left|done].
    + exists l. split; [done|]. by apply paths_from_more.
Qed.

(** An addition that is not better than what is there. *)
Lemma table_ok_keep done r p c t or :
  table_ok done t → offers r p c → t !! p = Some or → or_cost or ≤ c → table_ok (done ++ [r]) t.
Proof.
  intros Ht Ho Hor Hc. rewrite <- (insert_id t p or Hor). apply (table_ok_set done r p c); [done|done|].
  destruct (tk_some _ _ Ht p or Hor) as [H1 Hl (r' & Hr' & Hc') (l & Hp & Hf) Hg]. split; [done| | | |done].
  - intros r2 c2 [Hr2|Hr2]%elem_of_app Ho2; [by apply (Hl r2)|]. apply list_elem_of_singleton in Hr2 as ->.
    destruct (offers_fun _ _ _ _ _ Ho Ho2). lia.
  - exists r'. split; [apply elem_of_app; by left|done].
  - exists l. split; [done|]. by apply paths_from_more.
Qed.

Lemma table_ok_skip done r t : table_ok done t → offer_of r = None → table_ok (done ++ [r]) t.
Proof.
  intros [Hn Hs] Ho. assert (Hno : ∀ p c, ¬ offers r p c) by (intros p c; unfold offers; congruence). split.
  - intros p Hp r' c [Hr'|Hr']%elem_of_app; [by apply (Hn p Hp)|]. by apply list_elem_of_singleton in Hr' as ->.
  - intros p or Hor. destruct (Hs p or Hor) as [H1 Hl (r' & Hr' & Hc') (l & Hp & Hf) Hg]. split; [done| | | |done].
    + intros r2 c2 [Hr2|Hr2]%elem_of_app Ho2; [by apply (Hl r2)|]. apply list_elem_of_singleton in Hr2 as ->. by apply Hno in Ho2.
    + exists r'. split; [apply elem_of_app; by left|done].
    + exists l. split; [done|]. by apply paths_from_more.
Qed.

(** The first route of a prefix. *)
Lemma route_ok_new done t r p c l or :
  table_ok done t → t !! p = None → offers r p c →
  or_type or = OSPF_DESTINATION_NETWORK → or_path_type or = OSPF_PATH_INTRA_AREA → or_cost or = c →
  or_path or = Some l → paths_from (done ++ [r]) p c l → 24 ≤ Z.of_nat (length (rs_origin (or_u or))) →
  route_ok (done ++ [r]) p or.
Proof.
  intros Ht Hp Ho H1 H2 Hc Hl Hf Hg. subst c. split; [done| | | |done].
  - intros r2 c2 [Hr2|Hr2]%elem_of_app Ho2; [by destruct (tk_none _ _ Ht p Hp r2 c2)|]. apply list_elem_of_singleton in Hr2 as ->.
    destruct (offers_fun _ _ _ _ _ Ho Ho2). lia.
  - exists r. split; [apply elem_of_app; right; left|done].
  - by exists l.
Qed.

(** A better or an equal route. *)
Lemma route_ok_better done t r p cur l or :
  table_ok done t → t !! p = Some cur → offers r p (or_cost or) → or_cost or ≤ or_cost cur →
  or_type or = OSPF_DESTINATION_NETWORK → or_path_type or = OSPF_PATH_INTRA_AREA →
  or_path or = Some l → paths_from (done ++ [r]) p (or_cost or) l → 24 ≤ Z.of_nat (length (rs_origin (or_u or))) →
  route_ok (done ++ [r]) p or.
Proof.
  intros Ht Hp Ho Hle H1 H2 Hl Hf Hg. destruct (tk_some _ _ Ht p cur Hp) as [_ Hleast _ _ _]. split; [done| | | |done].
  - intros r2 c2 [Hr2|Hr2]%elem_of_app Ho2; [specialize (Hleast r2 c2 Hr2 Ho2); lia|]. apply list_elem_of_singleton in Hr2 as ->.
    destruct (offers_fun _ _ _ _ _ Ho Ho2). lia.
  - exists r. split; [apply elem_of_app; right; left|done].
  - by exists l.
Qed.

Lemma paths_from_nil done p c : paths_from done p c [].
Proof. by intros x ?%elem_of_nil. Qed.

(** * The additions *)

Lemma if_lookup_total i l p : Forall if_ok l → ∃ o, lookup_by_prefix_loop i l p = Ok o.
Proof.
  intros Hl. revert i. induction Hl as [|oi l [Hd Hlen] Hl IH]; intros i; [by exists None|]. cbn [lookup_by_prefix_loop].
  case_bool_decide; [apply IH|].
  assert (∃ q, (ptmp ← (if bool_decide (si_type oi = IFTYPE_POINTOPOINT) then
                  d ← of_option NullDeref (si_destination oi);
                  Ok (Prefix AF_INET 32 (be32 d))
                else Ok (Prefix AF_INET (si_prefixlen oi) (be32 (si_address oi))));
        apply_mask ptmp) = Ok q) as [q Hq].
  { case_bool_decide as E.
    - destruct (Hd E) as [d ->]. cbn [of_option mbind res_bind]. destruct (be32_octets d). by apply (apply_mask_ipv4_total 32).
    - cbn [mbind res_bind]. destruct (be32_octets (si_address oi)). by apply (apply_mask_ipv4_total (si_prefixlen oi)). }
  apply res_bind_Ok in Hq as (t & Ht & Hq). rewrite Ht. cbn [mbind res_bind]. rewrite Hq. cbn [mbind res_bind].
  destruct (prefix_same _ _); [by exists (Some i)|apply IH].
Qed.

Lemma router_run v s :
  add_ok (ospf_intra_add_router v) → ∃ s', intra_add_router area_id v s = Ok s' ∧ in_table s' = in_table s.
Proof.
  intros [Hl _]. cbn in Hl. unfold intra_add_router, lsa_id, lsa_options.
  destruct (get32_read (v_lsa v) 4) as [id ->]; [lia..|]. destruct (get_byte_in (v_lsa v) 20) as (f & -> & _); [lia|].
  destruct (get_byte_in (v_lsa v) 2) as (o & -> & _); [lia|]. cbn [mbind res_bind]. case_match; by eexists.
Qed.

Lemma transit_run done v s :
  add_ok (ospf_intra_add_transit v) → table_ok done (in_table s) →
  (∀ r p c, r ∈ done → offers r p c → c ≤ v_distance v) →
  ∃ s', intra_add_transit area area_id v s = Ok s' ∧ table_ok (done ++ [ospf_intra_add_transit v]) (in_table s').
Proof.
  intros [Hl _] Ht Hle. cbn in Hl. unfold intra_add_transit, lsa_id.
  destruct (get32_read (v_lsa v) 20) as [mask Hmask]; [lia..|]. rewrite Hmask. cbn [mbind res_bind].
  destruct (mask_prefix_total after (v_id v) mask (ao_garbage _ _ Hok)) as [p Hp]. rewrite Hp. cbn [mbind res_bind].
  destruct (get32_read (v_lsa v) 4) as [id ->]; [lia..|]. cbn [mbind res_bind].
  set (r := ospf_intra_add_transit v). assert (Ho : offers r p (v_distance v)) by (unfold offers, r, offer_of; by rewrite Hmask, Hp).
  assert (Hnew : paths_from (done ++ [r]) p (v_distance v) (copy_nexthops_loop [] (v_nexthop v))).
  { apply (paths_from_copy done r); [apply paths_from_nil|done]. }
  destruct (in_table s !! p) as [cur|] eqn:E.
  - destruct (tk_some _ _ Ht p cur E) as [_ _ (r' & Hr' & Hc') _ Hg].
    destruct (Z.ltb_spec (or_cost cur) (v_distance v)) as [Hlt|Hge].
    { cbn [mbind res_bind]. exists s. split; [done|]. eapply table_ok_keep; [done|done|done|lia]. }
    destruct (get32_read (rs_origin (or_u cur)) 4) as [cid ->]; [lia..|]. cbn [mbind res_bind].
    destruct (id <? cid).
    { exists s. split; [done|]. eapply table_ok_keep; [done|done|done|]. by apply (Hle r' p). }
    eexists. split; [reflexivity|]. cbn. eapply table_ok_set; [done|done|].
    eapply (route_ok_better done (in_table s)); [done|done|done|cbn; lia|done..].
  - eexists. split; [reflexivity|]. cbn. eapply table_ok_set; [done|done|].
    by eapply (route_ok_new done (in_table s)).
Qed.

Lemma stub_run done l v s isroot :
  add_ok (ospf_intra_add_stub l v) → table_ok done (in_table s) →
  ∃ s', intra_add_stub area area_id isroot l v s = Ok s' ∧ table_ok (done ++ [ospf_intra_add_stub l v]) (in_table s').
Proof.
  intros [Hl Hs] Ht. cbn in Hl. destruct (Hs l v eq_refl) as (x & [Hid Hdata _ Hm _] & Hu). unfold intra_add_stub.
  rewrite Hid, Hdata, Hm. cbn [mbind res_bind].
  destruct (mask_prefix_total after (rl_id x) (rl_data x) (ao_garbage _ _ Hok)) as [p Hp]. rewrite Hp. cbn [mbind res_bind].
  set (r := ospf_intra_add_stub l v). set (c := v_distance v + rl_metric x).
  assert (u32 c = c) as -> by (unfold u32; apply Z.mod_small; unfold c; unfold is_u32 in Hu; lia).
  assert (Ho : offers r p c) by (unfold offers, r, offer_of; by rewrite Hid, Hdata, Hm, Hp).
  destruct (in_table s !! p) as [cur|] eqn:E.
  - destruct (tk_some _ _ Ht p cur E) as [[Ht1 Ht2] Hleast (r' & Hr' & Hc') (pl & Hpl & Hf) Hg].
    destruct (Z.ltb_spec (or_cost cur) c) as [Hlt|Hge]; [exists s; split; [done|]; eapply table_ok_keep; [done|done|done|lia]|].
    destruct (Z.eqb_spec c (or_cost cur)) as [Heq|Hne].
    + unfold lsa_id. cbn [or_u ospf_route_copy_nexthops_from_vertex set_or_path].
      destruct (get32_read (rs_origin (or_u cur)) 4) as [cid ->]; [lia..|]. cbn [mbind res_bind].
      destruct (get32_read (v_lsa v) 4) as [vid ->]; [lia..|]. cbn [mbind res_bind].
      eexists. split; [reflexivity|]. cbn. eapply table_ok_set; [done|done|].
      assert (Hp2 : paths_from (done ++ [r]) p (or_cost cur) (copy_nexthops_loop pl (v_nexthop v))).
      { apply (paths_from_copy done r); [done|by rewrite <- Heq]. }
      rewrite Heq in Ho. destruct (cid <? vid); (eapply (route_ok_better done (in_table s)); [done|done|done|cbn; lia|done|done| | |done]);
        cbn; rewrite ?Hpl; done.
    + eexists. split; [reflexivity|]. cbn. eapply table_ok_set; [done|done|].
      eapply (route_ok_better done (in_table s)); [done|done|done|cbn; lia|done|done|done| |done].
      cbn. apply (paths_from_copy done r); [apply paths_from_nil|done].
  - destruct isroot; cbn [negb].
    + destruct (if_lookup_total 0 (sa_oiflist area) p (ao_ifs _ _ Hok)) as [o Hi]. unfold ospf_if_lookup_by_prefix. rewrite Hi. cbn [mbind res_bind].
      eexists. split; [reflexivity|]. cbn. eapply table_ok_set; [done|done|]. destruct o as [i|].
      * eapply (route_ok_new done (in_table s)); try done. intros y Hy. apply list_elem_of_singleton in Hy as ->.
        right. exists i. split; [exact Hi|done].
      * eapply (route_ok_new done (in_table s)); try done. apply paths_from_nil.
    + cbn [mbind res_bind]. eexists. split; [reflexivity|]. cbn. eapply table_ok_set; [done|done|].
      eapply (route_ok_new done (in_table s)); try done. cbn. apply (paths_from_copy done r); [apply paths_from_nil|done].
Qed.

(** All additions of a calculation: those of the first stage are in the order of their
    distances. *)
Definition is_stub (r : route_add) : Prop := match r with ospf_intra_add_stub _ _ => True | _ => False end.

Lemma adds_run done rs s :
  Forall add_ok rs → table_ok done (in_table s) →
  (∀ i r, rs !! i = Some r → ¬ is_stub r → ∀ r' p c, r' ∈ done ++ take i rs → offers r' p c → c ≤ v_distance (add_vertex r)) →
  ∃ s', intra_adds area area_id root rs s = Ok s' ∧ table_ok (done ++ rs) (in_table s').
Proof.
  intros Hrs. revert done s. induction Hrs as [|r rs Hr Hrs IH]; intros done s Ht Hle.
  { exists s. by rewrite app_nil_r. }
  assert (∃ s1, intra_add area area_id root r s = Ok s1 ∧ table_ok (done ++ [r]) (in_table s1)) as (s1 & Hs1 & Ht1).
  { destruct r as [v|v|l v]; cbn [intra_add].
    - destruct (router_run v s Hr) as (s1 & Hs1 & E). exists s1. split; [done|]. rewrite E. by apply table_ok_skip.
    - apply transit_run; [done|done|]. intros r' p c Hr' Ho. apply (Hle 0%nat (ospf_intra_add_transit v) eq_refl (λ H, H) r' p c); [|done].
      apply elem_of_app. by left.
    - by apply stub_run. }
  cbn [intra_adds]. rewrite Hs1. cbn [mbind res_bind]. destruct (IH (done ++ [r]) s1 Ht1) as (s' & Hs' & Ht').
  { intros i r2 Hi Hns r' p c Hr' Ho. apply (Hle (S i) r2 Hi Hns r' p c); [|done]. cbn [take]. by rewrite <- app_assoc in Hr'. }
  exists s'. split; [done|]. by rewrite <- app_assoc in Ht'.
Qed.

End Area.
