(* ===== verification/OspfRouteClaims.v ===== *)
(** The claims on the routing tables of ospfd. *)

From stdpp Require Import sorting.
From S2P Require Import Prelude Prefix Stream OspfLsa OspfIf OspfSpf OspfSpfGraph OspfSpfRead OspfSpfRun OspfSpfTree OspfSpfStub OspfSpfClaims OspfRoute OspfInstall OspfRouteFacts.

(** * The routes of a calculation *)

Lemma sorted_lookup (l : list Z) i j x y :
  StronglySorted Z.le l → l !! i = Some x → l !! j = Some y → (i < j)%nat → x ≤ y.
Proof.
  intros Hs. revert i j. induction Hs as [|z l Hl IH Hz]; intros [|i] [|j] Hi Hj Hij; try done; try lia.
  - cbn in Hi, Hj. injection Hi as ->. rewrite Forall_forall in Hz. apply Hz. by eapply list_elem_of_lookup_2.
  - apply (IH i j); [done|done|lia].
Qed.

Section Calculated.
Context (area : spf_area) (now : timeval) (self : ospf_lsa) (Hok : area_ok area self).

Lemma vertex_length x : vertex_lsa area now self (vkey x) = Some (v_lsa x) → 24 ≤ Z.of_nat (length (v_lsa x)).
Proof.
  intros Hv. destruct (vertex_lsa_ok area now self Hok _ _ Hv) as (_ & _ & (b & Hb) & _). by destruct (decode_inv _ _ Hb) as (_ & ? & _).
Qed.

Lemma stub_links_at d f ls i x r :
  router_lsa d f ls → r ∈ stub_links (24 + 12 * Z.of_nat i) (drop i ls) x →
  ∃ j y, ls !! j = Some y ∧ link_at d (24 + 12 * Z.of_nat j) y ∧ r = ospf_intra_add_stub (24 + 12 * Z.of_nat j) x.
Proof.
  intros Hd. remember (drop i ls) as k eqn:Hk. revert i Hk. induction k as [|y k IH]; intros i Hk; cbn [stub_links]; [by intros ?%elem_of_nil|].
  assert (ls !! i = Some y) as Hy by (rewrite <- (Nat.add_0_r i), <- lookup_drop; by rewrite <- Hk).
  intros [Hr|Hr]%elem_of_app.
  - case_match; [|by apply elem_of_nil in Hr]. apply list_elem_of_singleton in Hr as ->. exists i, y.
    split_and!; [done|by apply (ro_at _ _ _ Hd)|done].
  - replace (24 + 12 * Z.of_nat i + 12) with (24 + 12 * Z.of_nat (S i)) in Hr by lia. apply (IH (S i)); [|done].
    rewrite (drop_S _ _ _ Hy) in Hk. by injection Hk.
Qed.

Lemma stub_add_ok x r :
  vertex_lsa area now self (vkey x) = Some (v_lsa x) → 0 ≤ v_distance x ≤ 65535 * 65535 → r ∈ stub_adds x → add_ok r.
Proof.
  intros Hv Hd. destruct (vertex_lsa_ok area now self Hok _ _ Hv) as (_ & _ & (b & Hb) & Hby & _). unfold stub_adds. rewrite Hb.
  destruct (decode_inv _ _ Hb) as (_ & H24 & Hbb). destruct b as [f ls|rs]; [|by intros ?%elem_of_nil].
  intros Hr. destruct (stub_links_at _ f ls 0 x r Hbb Hr) as (j & y & _ & Hat & ->). split; [done|].
  intros l v [= <- <-]. exists y. split; [done|]. pose proof (get16_range _ _ _ Hby (la_metric _ _ _ Hat)). unfold is_u32. lia.
Qed.

Lemma spf_result_adds s xs r ys :
  spf_result area now self s xs r ys →
  Forall add_ok (sp_adds s) ∧
  (∀ i a, sp_adds s !! i = Some a → ¬ is_stub a → ∀ a' p c, a' ∈ take i (sp_adds s) → offers area a' p c → c ≤ v_distance (add_vertex a)).
Proof.
  intros []. apply Forall_app in sr_lsas as [Hlx Hlr]. rewrite Forall_forall in Hlx. apply Forall_inv in Hlr.
  rewrite Forall_forall in sr_bound. rewrite sr_adds. split.
  - apply Forall_app. split; apply Forall_forall; intros a Ha.
    + apply list_elem_of_fmap in Ha as (x & -> & Hx). unfold add_of. specialize (Hlx x Hx). apply vertex_length in Hlx.
      destruct (v_type x =? _); (split; [done|by intros ? ? ?]).
    + apply list_elem_of_bind in Ha as (y & Ha & Hy). apply elem_of_cons in Hy as [->|Hy].
      * apply (stub_add_ok r); [done|destruct sr_root as [_ ->]; lia|done].
      * destruct (sr_same y Hy) as (x & c & Hx & ->). apply (stub_add_ok (set_v_child c x)); [exact (Hlx x Hx)|exact (sr_bound x Hx)|done].
  - assert (Hstubs : ∀ a, a ∈ (r :: ys) ≫= stub_adds → is_stub a).
    { intros a (y & Ha & _)%list_elem_of_bind. unfold stub_adds in Ha. destruct (decode (v_lsa y)) as [[f ls|rs]|]; try by apply elem_of_nil in Ha.
      revert Ha. generalize 24. induction ls as [|l ls IH]; intros z; cbn [stub_links]; [by intros ?%elem_of_nil|].
      intros [Ha|Ha]%elem_of_app; [|by apply (IH (z + 12))]. case_match; [|by apply elem_of_nil in Ha]. by apply list_elem_of_singleton in Ha as ->. }
    intros i a Hi Hns a' p c Ha' Ho. apply lookup_app_Some in Hi as [Hi|[_ Hi]].
    2:{ destruct Hns. apply Hstubs. by eapply list_elem_of_lookup_2. }
    rewrite take_app_le in Ha' by (apply lookup_lt_Some in Hi; lia). apply list_elem_of_lookup in Ha' as (j & Hj).
    apply lookup_take_Some in Hj as [Hj Hji]. apply list_lookup_fmap_Some in Hi as (x & -> & Hx), Hj as (x' & -> & Hx').
    assert (v_distance x' ≤ v_distance x) as Hle.
    { apply (sorted_lookup (v_distance <$> xs) j i); [done|by rewrite list_lookup_fmap, Hx'|by rewrite list_lookup_fmap, Hx|done]. }
    assert (c = v_distance x') as ->.
    { unfold offers, add_of in Ho. destruct (v_type x' =? _); cbn in Ho; [done|]. repeat case_match; try done. by injection Ho. }
    unfold add_of. by destruct (v_type x =? _).
Qed.

End Calculated.

(** C4: the table of networks that the calculation of an area fills, from an empty one, has
    a route for exactly the prefixes that a transit network or a stub network has; the cost
    of the route is the least one that is offered for the prefix, and its paths are
    nexthops of vertices that offer that cost, or the interface with the prefix.  The table
    can be installed. *)
Theorem ospf_intra_routes_least area now self area_id :
  area_ok area self → sa_router_lsa_self area = Some self →
  ∃ s t, ospf_spf_calculate area now spf_start = Ok (tt, s) ∧
    intra_adds area area_id (root_key self).2 (sp_adds s) intra_start = Ok t ∧ table_fine (in_table t) ∧
    (∀ p, is_Some (in_table t !! p) ↔ ∃ r c, r ∈ sp_adds s ∧ offers area r p c) ∧
    (∀ p or, in_table t !! p = Some or →
      (∃ r, r ∈ sp_adds s ∧ offers area r p (or_cost or)) ∧
      (∀ r c, r ∈ sp_adds s → offers area r p c → or_cost or ≤ c) ∧
      (∃ l, or_path or = Some l ∧ paths_from area (sp_adds s) p (or_cost or) l)).
Proof.
  intros Hok Hself. destruct (calculate_run area now self Hok Hself) as (s & xs & r & ys & Hrun & _ & Hres).
  destruct (spf_result_adds area now self Hok s xs r ys Hres) as [Hadds Hord].
  destruct (adds_run area area_id (root_key self).2 self Hok [] (sp_adds s) intra_start) as (t & Ht & [Hn Hs]).
  - done.
  - split; [by intros p _ a c ?%elem_of_nil|]. intros p or Hp. change (in_table intra_start) with (∅ : net_table) in Hp. by rewrite lookup_empty in Hp.
  - done.
  - exists s, t. split; [done|]. split; [done|]. split; [|split].
    + intros p or Hor. destruct (Hs p or Hor) as [[H1 H2] _ _ (l & Hl & _) _]. split; [left; split; [done|by exists l]|by left].
    + intros p. split.
      * intros [or Hor]. destruct (Hs p or Hor) as [_ _ (a & Ha & Ho) _ _]. by exists a, (or_cost or).
      * intros (a & c & Ha & Ho). destruct (in_table t !! p) as [or|] eqn:E; [by eexists|]. by destruct (Hn p E a c Ha).
    + intros p or Hor. by destruct (Hs p or Hor).
Qed.

Lemma ospf_intra_routes_least_witness :
  ∃ s t, ospf_spf_calculate (sample_area true) sample_now spf_start = Ok (tt, s) ∧
    intra_adds (sample_area true) 0 (root_key (sample_self true)).2 (sp_adds s) intra_start = Ok t ∧ table_fine (in_table t) ∧
    (∀ p, is_Some (in_table t !! p) ↔ ∃ r c, r ∈ sp_adds s ∧ offers (sample_area true) r p c) ∧
    (∀ p or, in_table t !! p = Some or →
      (∃ r, r ∈ sp_adds s ∧ offers (sample_area true) r p (or_cost or)) ∧
      (∀ r c, r ∈ sp_adds s → offers (sample_area true) r p c → or_cost or ≤ c) ∧
      (∃ l, or_path or = Some l ∧ paths_from (sample_area true) (sp_adds s) p (or_cost or) l)).
Proof. apply ospf_intra_routes_least; [apply sample_ok|reflexivity]. Defined.

(** ** A network of one's own that is lost *)

(** The routers 2 and 3 have a network 10.0.0.0/24 that is also a stub network of the
    router 1, where an interface has it. *)
Definition split_self : ospf_lsa := sample_router 1 [to_router 2 0x0b000001 10; Rlink 0x0a000000 0xffffff00 LSA_LINK_TYPE_STUB 5].

Definition split_area : spf_area :=
  SpfArea (Some split_self)
    (<[(1, 1) := split_self]>
      (<[(2, 2) := sample_router 2 [to_router 1 0x0b000002 10; Rlink 0x0a000002 0x0a000002 LSA_LINK_TYPE_TRANSIT 10]]>
        {[(3, 3) := sample_router 3 [Rlink 0x0a000002 0x0a000003 LSA_LINK_TYPE_TRANSIT 10]]}))
    [sample_network 0x0a000002 [2; 3]]
    [SpfIf IFTYPE_BROADCAST 0x0a000001 24 None; SpfIf IFTYPE_POINTOPOINT 0x0b000001 24 (Some 0x0b000002)] 0.

Definition table_of (area : spf_area) : res net_table :=
  match ospf_spf_calculate area sample_now spf_start with
  | Ok (_, s) => t ← intra_adds area 0 1 (sp_adds s) intra_start; Ok (in_table t)
  | Fail e => Fail e
  end.

Definition net_10 : pkey := (24, [10; 0; 0; 0]).

(** The stub network is nearer than the transit network, so the paths are replaced by the
    nexthops of the root, which has none; the route is pruned as unreachable. *)
Lemma own_stub_lost :
  (t ← table_of split_area; Ok (match t !! net_10 with Some r => Some (or_cost r, or_path r) | None => None end)) = Ok (Some (5, Some [])) ∧
  (t ← table_of split_area; t ← ospf_prune_unreachable_networks t; Ok (bool_decide (t !! net_10 = None))) = Ok true.
Proof. split; vm_compute; reflexivity. Qed.
