(* ===== verification/Rib.v ===== *)
(** The routing information base of zebra: zebra/zebra_rib.c, for IPv4, with the
    netlink interface of zebra/rt_netlink.c to the kernel, as they are compiled
    without IPv6.

    The state holds the table of routes and the table of static routes of the default
    VRF, the heap of route structures, the interfaces, and the log of what was sent
    out: netlink messages and redistributions to the clients.  The information of a
    node is the list of its routes, newest first, as pointers into the heap; NULL is
    the absence of information, never the empty list.  The answer of the kernel to a
    message is a parameter, as is MULTIPATH_NUM. *)

From stdpp Require Import strings.
From S2P Require Import Prelude Prefix Table.

(** * Data *)

Definition ZEBRA_ROUTE_SYSTEM : Z := 0.
Definition ZEBRA_ROUTE_KERNEL : Z := 1.
Definition ZEBRA_ROUTE_CONNECT : Z := 2.
Definition ZEBRA_ROUTE_STATIC : Z := 3.
Definition ZEBRA_ROUTE_BGP : Z := 8.

Definition ZEBRA_FLAG_INTERNAL : Z := 0x01.
Definition ZEBRA_FLAG_SELFROUTE : Z := 0x02.
Definition ZEBRA_FLAG_BLACKHOLE : Z := 0x04.
Definition ZEBRA_FLAG_IBGP : Z := 0x08.
Definition ZEBRA_FLAG_SELECTED : Z := 0x10.
Definition ZEBRA_FLAG_CHANGED : Z := 0x20.

Definition ZEBRA_ERR_RTNOEXIST : Z := -4.
Definition DISTANCE_INFINITY : Z := 255.

(** The default distance of each route type. *)
Definition route_info : list Z := [0; 0; 0; 1; 120; 120; 110; 110; 20].

Inductive nexthop_type :=
  | NEXTHOP_TYPE_IFINDEX | NEXTHOP_TYPE_IFNAME | NEXTHOP_TYPE_IPV4 | NEXTHOP_TYPE_IPV4_IFINDEX
  | NEXTHOP_TYPE_IPV4_IFNAME | NEXTHOP_TYPE_IPV6 | NEXTHOP_TYPE_IPV6_IFINDEX
  | NEXTHOP_TYPE_IPV6_IFNAME | NEXTHOP_TYPE_BLACKHOLE.

#[export] Instance nexthop_type_eq_dec : EqDecision nexthop_type.
Proof. solve_decision. Defined.

Definition NEXTHOP_FLAG_ACTIVE : Z := 1.
Definition NEXTHOP_FLAG_FIB : Z := 2.
Definition NEXTHOP_FLAG_RECURSIVE : Z := 4.

Record nexthop := Nexthop {
  nh_type : nexthop_type;
  nh_flags : Z;
  nh_ifindex : Z;
  nh_ifname : string;
  nh_gate : list Z;
  nh_rtype : option nexthop_type;
  nh_rifindex : Z;
  nh_rgate : list Z;
}.

(** A route; [uptime] and [nexthop_fib_num], which nothing here reads, are not kept. *)
Record rib := Rib {
  r_type : Z;
  r_table : Z;
  r_distance : Z;
  r_flags : Z;
  r_metric : Z;
  r_refcnt : Z;
  r_nexthop_num : Z;
  r_nexthop_active_num : Z;
  r_nexthops : list nexthop;
}.

Inductive static_gate :=
  | STATIC_IPV4_GATEWAY (ipv4 : list Z)
  | STATIC_IPV4_IFNAME (ifname : string)
  | STATIC_IPV4_BLACKHOLE.

Record static_ipv4 := Static {
  si_distance : Z;
  si_gate : static_gate;
}.

Record interface := Interface {
  if_index : Z;
  if_name : string;
  if_up : bool;
}.

(** A netlink route message: the gateway and the outgoing interface of each hop. *)
Record message := Message {
  m_prefix : prefix;
  m_table : Z;
  m_metric : Z;
  m_discard : bool;
  m_hops : list (option (list Z) * option Z);
}.

Inductive action :=
  | RTM_NEWROUTE (m : message)
  | RTM_DELROUTE (m : message)
  | redistribute_add (p : prefix) (r : nat)
  | redistribute_delete (p : prefix) (r : nat).

Record zebra := Zebra {
  z_table : route_table (list nat);
  z_stable : route_table (list static_ipv4);
  z_ribs : gmap nat rib;
  z_fresh : nat;
  z_ifs : list interface;
  z_log : list action;
}.

(** ** Assignments to members *)

Definition set_nh_flags (v : Z) (x : nexthop) : nexthop :=
  Nexthop (nh_type x) v (nh_ifindex x) (nh_ifname x) (nh_gate x) (nh_rtype x) (nh_rifindex x)
    (nh_rgate x) .
Definition set_nh_ifindex (v : Z) (x : nexthop) : nexthop :=
  Nexthop (nh_type x) (nh_flags x) v (nh_ifname x) (nh_gate x) (nh_rtype x) (nh_rifindex x)
    (nh_rgate x) .
Definition set_nh_ifname (v : string) (x : nexthop) : nexthop :=
  Nexthop (nh_type x) (nh_flags x) (nh_ifindex x) v (nh_gate x) (nh_rtype x) (nh_rifindex x)
    (nh_rgate x) .
Definition set_nh_gate (v : list Z) (x : nexthop) : nexthop :=
  Nexthop (nh_type x) (nh_flags x) (nh_ifindex x) (nh_ifname x) v (nh_rtype x) (nh_rifindex x)
    (nh_rgate x) .
Definition set_nh_rtype (v : option nexthop_type) (x : nexthop) : nexthop :=
  Nexthop (nh_type x) (nh_flags x) (nh_ifindex x) (nh_ifname x) (nh_gate x) v (nh_rifindex x)
    (nh_rgate x) .
Definition set_nh_rifindex (v : Z) (x : nexthop) : nexthop :=
  Nexthop (nh_type x) (nh_flags x) (nh_ifindex x) (nh_ifname x) (nh_gate x) (nh_rtype x) v
    (nh_rgate x) .
Definition set_nh_rgate (v : list Z) (x : nexthop) : nexthop :=
  Nexthop (nh_type x) (nh_flags x) (nh_ifindex x) (nh_ifname x) (nh_gate x) (nh_rtype x)
    (nh_rifindex x) v.
Definition set_r_distance (v : Z) (x : rib) : rib :=
  Rib (r_type x) (r_table x) v (r_flags x) (r_metric x) (r_refcnt x) (r_nexthop_num x)
    (r_nexthop_active_num x) (r_nexthops x) .
Definition set_r_flags (v : Z) (x : rib) : rib :=
  Rib (r_type x) (r_table x) (r_distance x) v (r_metric x) (r_refcnt x) (r_nexthop_num x)
    (r_nexthop_active_num x) (r_nexthops x) .
Definition set_r_refcnt (v : Z) (x : rib) : rib :=
  Rib (r_type x) (r_table x) (r_distance x) (r_flags x) (r_metric x) v (r_nexthop_num x)
    (r_nexthop_active_num x) (r_nexthops x) .
Definition set_r_nexthop_num (v : Z) (x : rib) : rib :=
  Rib (r_type x) (r_table x) (r_distance x) (r_flags x) (r_metric x) (r_refcnt x) v
    (r_nexthop_active_num x) (r_nexthops x) .
Definition set_r_nexthop_active_num (v : Z) (x : rib) : rib :=
  Rib (r_type x) (r_table x) (r_distance x) (r_flags x) (r_metric x) (r_refcnt x)
    (r_nexthop_num x) v (r_nexthops x) .
Definition set_r_nexthops (v : list nexthop) (x : rib) : rib :=
  Rib (r_type x) (r_table x) (r_distance x) (r_flags x) (r_metric x) (r_refcnt x)
    (r_nexthop_num x) (r_nexthop_active_num x) v.
Definition set_z_table (v : route_table (list nat)) (x : zebra) : zebra :=
  Zebra v (z_stable x) (z_ribs x) (z_fresh x) (z_ifs x) (z_log x) .
Definition set_z_stable (v : route_table (list static_ipv4)) (x : zebra) : zebra :=
  Zebra (z_table x) v (z_ribs x) (z_fresh x) (z_ifs x) (z_log x) .
Definition set_z_ribs (v : gmap nat rib) (x : zebra) : zebra :=
  Zebra (z_table x) (z_stable x) v (z_fresh x) (z_ifs x) (z_log x) .
Definition set_z_fresh (v : nat) (x : zebra) : zebra :=
  Zebra (z_table x) (z_stable x) (z_ribs x) v (z_ifs x) (z_log x) .
Definition set_z_log (v : list action) (x : zebra) : zebra :=
  Zebra (z_table x) (z_stable x) (z_ribs x) (z_fresh x) (z_ifs x) v.

Abbreviation M := (ST zebra).

(** ** Memory *)

Definition tbl {A} (m : ST (route_table (list nat)) A) : M A := λ z,
  match m (z_table z) with
  | Ok (a, t) => Ok (a, set_z_table t z)
  | Fail e => Fail e
  end.

Definition stbl {A} (m : ST (route_table (list static_ipv4)) A) : M A := λ z,
  match m (z_stable z) with
  | Ok (a, t) => Ok (a, set_z_stable t z)
  | Fail e => Fail e
  end.

Definition rib_read (r : nat) : M rib := λ z,
  match z_ribs z !! r with Some x => Ok (x, z) | None => Fail UseAfterFree end.

Definition rib_upd (r : nat) (f : rib → rib) : M unit := λ z,
  match z_ribs z !! r with
  | Some x => Ok (tt, set_z_ribs (<[r := f x]> (z_ribs z)) z)
  | None => Fail UseAfterFree
  end.

Definition rib_alloc (x : rib) : M nat := λ z,
  Ok (z_fresh z, set_z_fresh (S (z_fresh z)) (set_z_ribs (<[z_fresh z := x]> (z_ribs z)) z)).

Definition newrib_free (r : nat) : M unit := λ z,
  match z_ribs z !! r with
  | Some _ => Ok (tt, set_z_ribs (delete r (z_ribs z)) z)
  | None => Fail UseAfterFree
  end.

Definition emit (a : action) : M unit := λ z, Ok (tt, set_z_log (z_log z ++ [a]) z).

(** The routes of a node. *)
Definition node_ribs (rn : ptr) : M (list nat) :=
  n ← tbl (read_node rn); mret (default [] (n_info n)).

Definition when (b : bool) (m : M unit) : M unit := if b then m else mret tt.

(** ** Interfaces *)

Definition if_lookup_by_index (index : Z) : M (option interface) := λ z,
  Ok (snd <$> list_find (λ i, if_index i = index) (z_ifs z), z).

Definition INTERFACE_NAMSIZ : nat := 20.

(** [strncmp (name, ifp->name, sizeof ifp->name) == 0] *)
Definition same_name (name : string) (i : interface) : bool :=
  String.eqb (String.substring 0 (INTERFACE_NAMSIZ + 1) name) (String.substring 0 (INTERFACE_NAMSIZ + 1) (if_name i)).

Definition if_lookup_by_name (name : string) : M (option interface) := λ z,
  Ok (snd <$> list_find (λ i, same_name name i = true) (z_ifs z), z).

Definition is_up (i : option interface) : bool := match i with Some i => if_up i | None => false end.

(** ** Nexthops *)

Definition nexthop_add (nh : nexthop) (x : rib) : rib :=
  set_r_nexthop_num (u8 (r_nexthop_num x + 1)) (set_r_nexthops (r_nexthops x ++ [nh]) x).

Definition nexthop_new (t : nexthop_type) : nexthop :=
  Nexthop t 0 0 "" (replicate 4 0) None 0 (replicate 4 0).

Definition nexthop_ifindex_add (ifindex : Z) : rib → rib :=
  nexthop_add (set_nh_ifindex ifindex (nexthop_new NEXTHOP_TYPE_IFINDEX)).
Definition nexthop_ifname_add (ifname : string) : rib → rib :=
  nexthop_add (set_nh_ifname ifname (nexthop_new NEXTHOP_TYPE_IFNAME)).
Definition nexthop_ipv4_add (ipv4 : list Z) : rib → rib :=
  nexthop_add (set_nh_gate ipv4 (nexthop_new NEXTHOP_TYPE_IPV4)).
Definition nexthop_ipv4_ifindex_add (ipv4 : list Z) (ifindex : Z) : rib → rib :=
  nexthop_add (set_nh_ifindex ifindex (set_nh_gate ipv4 (nexthop_new NEXTHOP_TYPE_IPV4_IFINDEX))).
Definition nexthop_blackhole_add (x : rib) : rib :=
  nexthop_add (nexthop_new NEXTHOP_TYPE_BLACKHOLE) (set_r_flags (SET_FLAG (r_flags x) ZEBRA_FLAG_BLACKHOLE) x).

(** Removal of the nexthop at position [i]. *)
Definition nexthop_delete (i : nat) (x : rib) : rib :=
  set_r_nexthop_num (u8 (r_nexthop_num x - 1)) (set_r_nexthops (delete i (r_nexthops x)) x).

(** ** Lookups *)

(** [for (match = rn->info; match; match = match->next)
       if (CHECK_FLAG (match->flags, ZEBRA_FLAG_SELECTED)) break;] *)
Fixpoint pick_selected (rs : list nat) : M (option nat) :=
  match rs with
  | [] => mret None
  | r :: rs =>
      x ← rib_read r;
      if CHECK_FLAG (r_flags x) ZEBRA_FLAG_SELECTED then mret (Some r) else pick_selected rs
  end.

(** [do { rn = rn->parent; } while (rn && rn->info == NULL);] *)
Fixpoint up_info (fuel : nat) (h : gmap ptr (route_node (list nat))) (rn : ptr) : res (option ptr) :=
  n ← of_option UseAfterFree (h !! rn);
  match n_parent n with
  | None => Ok None
  | Some pa =>
      np ← of_option UseAfterFree (h !! pa);
      match n_info np with
      | Some _ => Ok (Some pa)
      | None => match fuel with O => Fail OutOfFuel | S f => up_info f h pa end
      end
  end.

(** The loop [while (rn)] of rib_match_ipv4 and nexthop_active_ipv4: from the node
    [rn], which is locked, up to a node with a selected route that is not from BGP.
    [stop] is the node at which nexthop_active_ipv4 gives up. *)
Fixpoint match_walk (fuel : nat) (stop rn : option ptr) : M (option nat) :=
  match rn with
  | None => mret None
  | Some id =>
      tbl (route_unlock_node id);;
      if bool_decide (stop = Some id) then mret None
      else
        rs ← node_ribs id;
        m ← pick_selected rs;
        found ← match m with
                | None => mret None
                | Some r => x ← rib_read r; mret (if r_type x =? ZEBRA_ROUTE_BGP then None else Some r)
                end;
        match found with
        | Some r => mret (Some r)
        | None =>
            z ← st_get;
            up ← st_lift (up_info (size (heap (z_table z))) (heap (z_table z)) id);
            match up with Some pa => _ ← tbl (route_lock_node pa); mret tt | None => mret tt end;;
            match fuel with O => st_fail OutOfFuel | S f => match_walk f stop up end
        end
  end.

Definition host_ipv4 (addr : list Z) : prefix := Prefix AF_INET 32 (copy_bytes (u prefix_ipv4_new) addr 4).

Definition match_from (stop : option ptr) (addr : list Z) : M (option nat) :=
  rn ← tbl (route_node_match (host_ipv4 addr));
  z ← st_get;
  match_walk (size (heap (z_table z))) stop rn.

Definition in_fib (nh : nexthop) : bool := CHECK_FLAG (nh_flags nh) NEXTHOP_FLAG_FIB.

(** A selected route that packets can take. *)
Definition usable_match (r : nat) : M (option nat) :=
  x ← rib_read r;
  mret (if (r_type x =? ZEBRA_ROUTE_CONNECT) || existsb in_fib (r_nexthops x) then Some r else None).

Definition rib_match_ipv4 (addr : list Z) : M (option nat) :=
  m ← match_from None addr;
  match m with Some r => usable_match r | None => mret None end.

Definition rib_lookup_ipv4 (p : prefix) : M (option nat) :=
  rn ← tbl (route_node_lookup p);
  match rn with
  | None => mret None
  | Some id =>
      tbl (route_unlock_node id);;
      rs ← node_ribs id;
      m ← pick_selected rs;
      match m with
      | None => mret None
      | Some r =>
          x ← rib_read r;
          if r_type x =? ZEBRA_ROUTE_BGP then mret None else usable_match r
      end
  end.

(** ** Reachability of nexthops *)

(** The resolution of a nexthop through [newhop]. *)
Definition resolve_through (newhop nh : nexthop) : nexthop :=
  let nh := set_nh_rtype (Some (nh_type newhop)) (set_nh_flags (SET_FLAG (nh_flags nh) NEXTHOP_FLAG_RECURSIVE) nh) in
  let nh := match nh_type newhop with
            | NEXTHOP_TYPE_IPV4 | NEXTHOP_TYPE_IPV4_IFINDEX => set_nh_rgate (nh_gate newhop) nh
            | _ => nh
            end in
  match nh_type newhop with
  | NEXTHOP_TYPE_IFINDEX | NEXTHOP_TYPE_IFNAME | NEXTHOP_TYPE_IPV4_IFINDEX => set_nh_rifindex (nh_ifindex newhop) nh
  | _ => nh
  end.

Definition resolves (newhop : nexthop) : bool :=
  in_fib newhop && negb (CHECK_FLAG (nh_flags newhop) NEXTHOP_FLAG_RECURSIVE).

(** [flags] are those of the route the nexthop belongs to, [top] is its node; the
    nexthop afterwards, and whether it is active. *)
Definition nexthop_active_ipv4 (flags : Z) (nh : nexthop) (set : bool) (top : ptr) : M (nexthop * bool) :=
  let nh := if bool_decide (nh_type nh = NEXTHOP_TYPE_IPV4) then set_nh_ifindex 0 nh else nh in
  let nh := if set then set_nh_flags (UNSET_FLAG (nh_flags nh) NEXTHOP_FLAG_RECURSIVE) nh else nh in
  m ← match_from (Some top) (nh_gate nh);
  match m with
  | None => mret (nh, false)
  | Some r =>
      x ← rib_read r;
      mret
        (if r_type x =? ZEBRA_ROUTE_CONNECT then
           (match r_nexthops x with
            | newhop :: _ => if bool_decide (nh_type nh = NEXTHOP_TYPE_IPV4) then set_nh_ifindex (nh_ifindex newhop) nh else nh
            | [] => nh
            end, true)
         else if CHECK_FLAG flags ZEBRA_FLAG_INTERNAL then
           match list_find (λ newhop, resolves newhop = true) (r_nexthops x) with
           | Some (_, newhop) => (if set then resolve_through newhop nh else nh, true)
           | None => (nh, false)
           end
         else (nh, false))
  end.

Definition set_active (b : bool) (nh : nexthop) : nexthop :=
  set_nh_flags (if b then SET_FLAG (nh_flags nh) NEXTHOP_FLAG_ACTIVE
                else UNSET_FLAG (nh_flags nh) NEXTHOP_FLAG_ACTIVE) nh.

Definition is_active (nh : nexthop) : bool := CHECK_FLAG (nh_flags nh) NEXTHOP_FLAG_ACTIVE.

Definition nexthop_active_check (rn : ptr) (flags : Z) (nh : nexthop) (set : bool) : M nexthop :=
  match nh_type nh with
  | NEXTHOP_TYPE_IFINDEX =>
      i ← if_lookup_by_index (nh_ifindex nh);
      mret (set_active (is_up i) nh)
  | NEXTHOP_TYPE_IFNAME | NEXTHOP_TYPE_IPV6_IFNAME =>
      i ← if_lookup_by_name (nh_ifname nh);
      let index := match i with Some i => if if_up i then if_index i else 0 | None => 0 end in
      mret (set_active (is_up i) (if set then set_nh_ifindex index nh else nh))
  | NEXTHOP_TYPE_IPV4 | NEXTHOP_TYPE_IPV4_IFINDEX =>
      '(nh, b) ← nexthop_active_ipv4 flags nh set rn;
      mret (set_active b nh)
  | NEXTHOP_TYPE_BLACKHOLE => mret (set_active true nh)
  | _ => mret nh
  end.

(** The loop of nexthop_active_update: the nexthops afterwards, the number of active
    ones, and whether one changed.  Nothing the loop calls looks at the route itself:
    the lookups give up at its own node. *)
Fixpoint active_loop (rn : ptr) (flags : Z) (set : bool) (nhs : list nexthop) (num : Z) (changed : bool)
    : M (list nexthop * Z * bool) :=
  match nhs with
  | [] => mret ([], num, changed)
  | nh :: nhs =>
      nh' ← nexthop_active_check rn flags nh set;
      '(rest, num, changed) ← active_loop rn flags set nhs
        (u8 (num + if is_active nh' then 1 else 0))
        (changed || negb (Bool.eqb (is_active nh) (is_active nh')));
      mret (nh' :: rest, num, changed)
  end.

Definition nexthop_active_update (rn : ptr) (r : nat) (set : bool) : M Z :=
  rib_upd r (λ x, set_r_nexthop_active_num 0 (set_r_flags (UNSET_FLAG (r_flags x) ZEBRA_FLAG_CHANGED) x));;
  x ← rib_read r;
  '(nhs, num, changed) ← active_loop rn (r_flags x) set (r_nexthops x) 0 false;
  rib_upd r (λ x,
    set_r_flags (if (changed : bool) then SET_FLAG (r_flags x) ZEBRA_FLAG_CHANGED else r_flags x)
      (set_r_nexthop_active_num num (set_r_nexthops nhs x)));;
  mret num.

Definition RIB_SYSTEM_ROUTE (x : rib) : bool :=
  (r_type x =? ZEBRA_ROUTE_KERNEL) || (r_type x =? ZEBRA_ROUTE_CONNECT).

(** * The kernel *)

Section Kernel.
(** MULTIPATH_NUM, and the kernel's answer to a message: a negative number when it
    refuses the message. *)
Context (MULTIPATH_NUM : Z) (netlink_talk : list action → action → Z).

(** The gateway and interface of a nexthop in a message. *)
Definition hop_of (nh : nexthop) : option (list Z) * option Z :=
  if CHECK_FLAG (nh_flags nh) NEXTHOP_FLAG_RECURSIVE then
    (match nh_rtype nh with
     | Some (NEXTHOP_TYPE_IPV4 | NEXTHOP_TYPE_IPV4_IFINDEX) => Some (nh_rgate nh)
     | _ => None
     end,
     match nh_rtype nh with
     | Some (NEXTHOP_TYPE_IFINDEX | NEXTHOP_TYPE_IFNAME | NEXTHOP_TYPE_IPV4_IFINDEX |
             NEXTHOP_TYPE_IPV6_IFINDEX | NEXTHOP_TYPE_IPV6_IFNAME) => Some (nh_rifindex nh)
     | _ => None
     end)
  else
    (match nh_type nh with
     | NEXTHOP_TYPE_IPV4 | NEXTHOP_TYPE_IPV4_IFINDEX => Some (nh_gate nh)
     | _ => None
     end,
     match nh_type nh with
     | NEXTHOP_TYPE_IFINDEX | NEXTHOP_TYPE_IFNAME | NEXTHOP_TYPE_IPV4_IFINDEX |
       NEXTHOP_TYPE_IPV6_IFINDEX | NEXTHOP_TYPE_IPV6_IFNAME => Some (nh_ifindex nh)
     | _ => None
     end).

Definition set_fib (nh : nexthop) : nexthop := set_nh_flags (SET_FLAG (nh_flags nh) NEXTHOP_FLAG_FIB) nh.
Definition unset_fib (nh : nexthop) : nexthop := set_nh_flags (UNSET_FLAG (nh_flags nh) NEXTHOP_FLAG_FIB) nh.

(** The loop over the nexthops, at most [limit] of which are used: those that are
    active when a route is added, those in the FIB when it is deleted. *)
Fixpoint hops_loop (add : bool) (limit : nat) (nhs : list nexthop) : list nexthop * list (option (list Z) * option Z) :=
  match nhs, limit with
  | [], _ => ([], [])
  | _, O => (nhs, [])
  | nh :: nhs, S l =>
      if (if add then is_active nh else in_fib nh) then
        let '(rest, hops) := hops_loop add l nhs in
        ((if add then set_fib nh else nh) :: rest, hop_of nh :: hops)
      else
        let '(rest, hops) := hops_loop add limit nhs in (nh :: rest, hops)
  end.

(** How many nexthops a message may name: one when only one is active, or as many
    as MULTIPATH_NUM, where 0 stands for no limit. *)
Definition hop_limit (x : rib) : nat :=
  if (r_nexthop_active_num x =? 1) || (MULTIPATH_NUM =? 1) then 1
  else if MULTIPATH_NUM =? 0 then length (r_nexthops x) else Z.to_nat MULTIPATH_NUM.

(** The nexthops afterwards, and the message unless there is no useful nexthop. *)
Definition netlink_route_multipath (add : bool) (p : prefix) (x : rib) : list nexthop * option message :=
  if CHECK_FLAG (r_flags x) ZEBRA_FLAG_BLACKHOLE then
    (if add then set_fib <$> r_nexthops x else r_nexthops x, Some (Message p (r_table x) (r_metric x) add []))
  else
    let '(nhs, hops) := hops_loop add (hop_limit x) (r_nexthops x) in
    (nhs, match hops with [] => None | _ => Some (Message p (r_table x) (r_metric x) false hops) end).

(** kernel_add_ipv4 and kernel_delete_ipv4. *)
Definition kernel_route (add : bool) (rn : ptr) (r : nat) : M Z :=
  n ← tbl (read_node rn);
  x ← rib_read r;
  let '(nhs, msg) := netlink_route_multipath add (n_p n) x in
  rib_upd r (set_r_nexthops nhs);;
  match msg with
  | None => mret 0
  | Some m =>
      let a := if add then RTM_NEWROUTE m else RTM_DELROUTE m in
      z ← st_get;
      emit a;;
      mret (netlink_talk (z_log z) a)
  end.

Definition clear_fib (r : nat) : M unit := rib_upd r (λ x, set_r_nexthops (unset_fib <$> r_nexthops x) x).

Definition rib_install_kernel (rn : ptr) (r : nat) : M unit :=
  ret ← kernel_route true rn r;
  when (ret <? 0) (clear_fib r).

Definition rib_uninstall_kernel (rn : ptr) (r : nat) : M Z :=
  ret ← kernel_route false rn r;
  clear_fib r;;
  mret ret.

Definition redistribute (add : bool) (rn : ptr) (r : nat) : M unit :=
  n ← tbl (read_node rn);
  emit (if add then redistribute_add (n_p n) r else redistribute_delete (n_p n) r).

Definition select_flag (r : nat) (b : bool) : M unit :=
  rib_upd r (λ x, set_r_flags (if b then SET_FLAG (r_flags x) ZEBRA_FLAG_SELECTED
                               else UNSET_FLAG (r_flags x) ZEBRA_FLAG_SELECTED) x).

Definition rib_uninstall (rn : ptr) (r : nat) : M unit :=
  x ← rib_read r;
  when (CHECK_FLAG (r_flags x) ZEBRA_FLAG_SELECTED)
    (redistribute false rn r;;
     when (negb (RIB_SYSTEM_ROUTE x)) (_ ← rib_uninstall_kernel rn r; mret tt);;
     select_flag r false).

(** * Selection *)

(** The loop of rib_process: the route that was selected before, and the one to select. *)
Fixpoint process_loop (rn : ptr) (rs : list nat) (fib select : option nat) : M (option nat * option nat) :=
  match rs with
  | [] => mret (fib, select)
  | r :: rs =>
      x ← rib_read r;
      let fib := if CHECK_FLAG (r_flags x) ZEBRA_FLAG_SELECTED then Some r else fib in
      num ← nexthop_active_update rn r false;
      if num =? 0 then process_loop rn rs fib select
      else if r_distance x =? DISTANCE_INFINITY then process_loop rn rs fib select
      else
        better ← match select with
                 | None => mret true
                 | Some s => y ← rib_read s;
                             mret ((r_distance x <? r_distance y) || (r_type x =? ZEBRA_ROUTE_CONNECT))
                 end;
        process_loop rn rs fib (if (better : bool) then Some r else select)
  end.

(** Taking a route out of the forwarding table and the redistributions, or putting
    it in. *)
Definition withdraw_route (rn : ptr) (r : nat) : M unit :=
  redistribute false rn r;;
  x ← rib_read r;
  when (negb (RIB_SYSTEM_ROUTE x)) (_ ← rib_uninstall_kernel rn r; mret tt).

Definition rib_process (rn : ptr) (del : option nat) : M unit :=
  rs ← node_ribs rn;
  '(fib, select) ← process_loop rn rs None None;
  fib ← match del with
        | Some d => x ← rib_read d; mret (if CHECK_FLAG (r_flags x) ZEBRA_FLAG_SELECTED then Some d else fib)
        | None => mret fib
        end;
  if bool_decide (is_Some select ∧ select = fib) then
    match select with
    | None => mret tt
    | Some s =>
        x ← rib_read s;
        when (CHECK_FLAG (r_flags x) ZEBRA_FLAG_CHANGED)
          (withdraw_route rn s;;
           _ ← nexthop_active_update rn s true;
           when (negb (RIB_SYSTEM_ROUTE x)) (rib_install_kernel rn s);;
           redistribute true rn s)
    end
  else
    match fib with
    | None => mret tt
    | Some f =>
        withdraw_route rn f;;
        select_flag f false;;
        _ ← nexthop_active_update rn f true;
        mret tt
    end;;
    match select with
    | None => mret tt
    | Some s =>
        _ ← nexthop_active_update rn s true;
        x ← rib_read s;
        when (negb (RIB_SYSTEM_ROUTE x)) (rib_install_kernel rn s);;
        select_flag s true;;
        redistribute true rn s
    end.

(** * Adding and deleting routes *)

Definition rib_addnode (rn : ptr) (r : nat) : M unit :=
  tbl (update_node rn (λ n, set_info (Some (r :: default [] (n_info n))) n)).

(** Removal of the first occurrence. *)
Fixpoint remove_rib (r : nat) (rs : list nat) : list nat :=
  match rs with
  | [] => []
  | x :: rs => if bool_decide (x = r) then rs else x :: remove_rib r rs
  end.

Definition list_info (rs : list nat) : option (list nat) := match rs with [] => None | _ => Some rs end.

Definition rib_delnode (rn : ptr) (r : nat) : M unit :=
  tbl (update_node rn (λ n, set_info (list_info (remove_rib r (default [] (n_info n)))) n)).

(** The distance of a route, by its type when it is not given. *)
Definition default_distance (type flags distance : Z) : res Z :=
  if distance =? 0 then
    d ← arr_get route_info type;
    Ok (if (type =? ZEBRA_ROUTE_BGP) && CHECK_FLAG flags ZEBRA_FLAG_IBGP then 200 else d)
  else Ok distance.

Definition connected_to (x : rib) (ifindex : Z) : bool :=
  match r_nexthops x with
  | nh :: _ => bool_decide (nh_type nh = NEXTHOP_TYPE_IFINDEX) && (nh_ifindex nh =? ifindex)
  | [] => false
  end.

(** The loop of rib_add_ipv4: the connected route that is already there ([inl]), or
    the route of the same type to be replaced. *)
Fixpoint same_loop (type ifindex : Z) (rs : list nat) : M (nat + option nat) :=
  match rs with
  | [] => mret (inr None)
  | r :: rs =>
      x ← rib_read r;
      if r_type x =? ZEBRA_ROUTE_CONNECT then
        if (r_type x =? type) && connected_to x ifindex then mret (inl r) else same_loop type ifindex rs
      else if r_type x =? type then mret (inr (Some r))
      else same_loop type ifindex rs
  end.

Definition set_all_fib (x : rib) : rib :=
  if (r_type x =? ZEBRA_ROUTE_KERNEL) || (r_type x =? ZEBRA_ROUTE_CONNECT)
  then set_r_nexthops (set_fib <$> r_nexthops x) x else x.

Definition unlink_same (rn : ptr) (same : option nat) : M unit :=
  match same with
  | Some s => rib_delnode rn s;; tbl (route_unlock_node rn)
  | None => mret tt
  end.

Definition free_same (same : option nat) : M unit :=
  match same with Some s => newrib_free s | None => mret tt end.

Definition rib_add_ipv4 (type flags : Z) (p : prefix) (gate : option (list Z)) (ifindex metric distance : Z) : M unit :=
  p ← st_lift (apply_mask_ipv4 p);
  distance ← st_lift (default_distance type flags distance);
  rn ← tbl (route_node_get p);
  rs ← node_ribs rn;
  same ← same_loop type ifindex rs;
  match same with
  | inl r => rib_upd r (λ x, set_r_refcnt (u64 (r_refcnt x + 1)) x)
  | inr same =>
      unlink_same rn same;;
      let x := Rib type 0 distance (u8 flags) metric 0 0 0 [] in
      let x := match gate with
               | Some g => if ifindex =? 0 then nexthop_ipv4_add g x else nexthop_ipv4_ifindex_add g ifindex x
               | None => nexthop_ifindex_add ifindex x
               end in
      r ← rib_alloc (set_all_fib x);
      rib_addnode rn r;;
      rib_process rn same;;
      free_same same
  end.

Fixpoint same_multipath (x : rib) (rs : list nat) : M (option nat) :=
  match rs with
  | [] => mret None
  | r :: rs =>
      y ← rib_read r;
      if (r_type y =? r_type x) && (r_table y =? r_table x) && negb (r_type y =? ZEBRA_ROUTE_CONNECT)
      then mret (Some r) else same_multipath x rs
  end.

(** The route structure [x] is handed over by the caller. *)
Definition rib_add_ipv4_multipath (p : prefix) (x : rib) : M unit :=
  p ← st_lift (apply_mask_ipv4 p);
  distance ← st_lift (default_distance (r_type x) (r_flags x) (r_distance x));
  rn ← tbl (route_node_get p);
  rs ← node_ribs rn;
  same ← same_multipath x rs;
  unlink_same rn same;;
  r ← rib_alloc (set_all_fib (set_r_distance distance x));
  rib_addnode rn r;;
  rib_process rn same;;
  free_same same.

(** The loop of rib_delete_ipv4: the selected route so far, and the route to delete
    ([inr]) or the connected route that stays because it is referenced ([inl]). *)
Fixpoint delete_loop (type ifindex : Z) (rs : list nat) (fib : option nat) : M (option nat * (nat + option nat)) :=
  match rs with
  | [] => mret (fib, inr None)
  | r :: rs =>
      x ← rib_read r;
      let fib := if CHECK_FLAG (r_flags x) ZEBRA_FLAG_SELECTED then Some r else fib in
      if r_type x =? ZEBRA_ROUTE_CONNECT then
        if (r_type x =? type) && connected_to x ifindex then
          mret (fib, if negb (r_refcnt x =? 0) then inl r else inr (Some r))
        else delete_loop type ifindex rs fib
      else if r_type x =? type then mret (fib, inr (Some r))
      else delete_loop type ifindex rs fib
  end.

Definition rib_delete_ipv4 (type : Z) (p : prefix) (ifindex : Z) : M Z :=
  p ← st_lift (apply_mask_ipv4 p);
  rn ← tbl (route_node_lookup p);
  match rn with
  | None => mret ZEBRA_ERR_RTNOEXIST
  | Some rn =>
      rs ← node_ribs rn;
      '(fib, same) ← delete_loop type ifindex rs None;
      match same with
      | inl r =>
          rib_upd r (λ x, set_r_refcnt (u64 (r_refcnt x - 1)) x);;
          tbl (route_unlock_node rn);;
          tbl (route_unlock_node rn);;
          mret 0
      | inr None =>
          match fib with
          | Some f =>
              if type =? ZEBRA_ROUTE_KERNEL then
                clear_fib f;;
                select_flag f false;;
                rib_process rn None;;
                tbl (route_unlock_node rn);;
                mret 0
              else tbl (route_unlock_node rn);; mret ZEBRA_ERR_RTNOEXIST
          | None => tbl (route_unlock_node rn);; mret ZEBRA_ERR_RTNOEXIST
          end
      | inr (Some s) =>
          rib_delnode rn s;;
          rib_process rn (Some s);;
          newrib_free s;;
          tbl (route_unlock_node rn);;
          tbl (route_unlock_node rn);;
          mret 0
      end
  end.

(** * Static routes *)

Fixpoint find_static (distance : Z) (rs : list nat) : M (option nat) :=
  match rs with
  | [] => mret None
  | r :: rs =>
      x ← rib_read r;
      if (r_type x =? ZEBRA_ROUTE_STATIC) && (r_distance x =? distance) then mret (Some r)
      else find_static distance rs
  end.

Definition static_nexthop_add (si : static_ipv4) : rib → rib :=
  match si_gate si with
  | STATIC_IPV4_GATEWAY g => nexthop_ipv4_add g
  | STATIC_IPV4_IFNAME i => nexthop_ifname_add i
  | STATIC_IPV4_BLACKHOLE => nexthop_blackhole_add
  end.

Definition static_install_ipv4 (p : prefix) (si : static_ipv4) : M unit :=
  rn ← tbl (route_node_get p);
  rs ← node_ribs rn;
  found ← find_static (si_distance si) rs;
  match found with
  | Some r =>
      rib_uninstall rn r;;
      tbl (route_unlock_node rn);;
      rib_upd r (static_nexthop_add si);;
      rib_process rn None
  | None =>
      r ← rib_alloc (static_nexthop_add si (Rib ZEBRA_ROUTE_STATIC 0 (si_distance si) 0 0 0 0 0 []));
      rib_addnode rn r;;
      rib_process rn None
  end.

Definition static_ipv4_nexthop_same (nh : nexthop) (si : static_ipv4) : bool :=
  match nh_type nh, si_gate si with
  | NEXTHOP_TYPE_IPV4, STATIC_IPV4_GATEWAY g => bool_decide (nh_gate nh = g)
  | NEXTHOP_TYPE_IFNAME, STATIC_IPV4_IFNAME i => bool_decide (nh_ifname nh = i)
  | NEXTHOP_TYPE_BLACKHOLE, STATIC_IPV4_BLACKHOLE => true
  | _, _ => false
  end.

Definition static_uninstall_ipv4 (p : prefix) (si : static_ipv4) : M unit :=
  rn ← tbl (route_node_lookup p);
  match rn with
  | None => mret tt
  | Some rn =>
      rs ← node_ribs rn;
      found ← find_static (si_distance si) rs;
      match found with
      | None => tbl (route_unlock_node rn)
      | Some r =>
          x ← rib_read r;
          match list_find (λ nh, static_ipv4_nexthop_same nh si = true) (r_nexthops x) with
          | None => tbl (route_unlock_node rn)
          | Some (i, _) =>
              (if r_nexthop_num x =? 1 then
                 rib_delnode rn r;;
                 rib_process rn (Some r);;
                 newrib_free r;;
                 tbl (route_unlock_node rn)
               else
                 rib_uninstall rn r;;
                 rib_upd r (nexthop_delete i);;
                 rib_process rn (Some r));;
              tbl (route_unlock_node rn)
          end
      end
  end.

(** The gateway of a command: an address, an interface, or neither; no command
    gives both. *)
Definition gate_of (gate : option (list Z)) (ifname : option string) : static_gate :=
  match gate, ifname with
  | Some g, _ => STATIC_IPV4_GATEWAY g
  | None, Some i => STATIC_IPV4_IFNAME i
  | None, None => STATIC_IPV4_BLACKHOLE
  end.

Definition same_gate (g h : static_gate) : bool :=
  match g, h with
  | STATIC_IPV4_GATEWAY a, STATIC_IPV4_GATEWAY b => bool_decide (a = b)
  | STATIC_IPV4_IFNAME a, STATIC_IPV4_IFNAME b => bool_decide (a = b)
  | STATIC_IPV4_BLACKHOLE, STATIC_IPV4_BLACKHOLE => true
  | _, _ => false
  end.

(** Insertion by distance and gateway address. *)
Fixpoint static_insert (si : static_ipv4) (l : list static_ipv4) : list static_ipv4 :=
  match l with
  | [] => [si]
  | cp :: l' =>
      if si_distance si <? si_distance cp then si :: l
      else if si_distance cp <? si_distance si then cp :: static_insert si l'
      else
        match si_gate si, si_gate cp with
        | STATIC_IPV4_GATEWAY a, STATIC_IPV4_GATEWAY b =>
            if ntohl a <? ntohl b then si :: l else cp :: static_insert si l'
        | _, _ => cp :: static_insert si l'
        end
  end.

Definition static_info (l : list static_ipv4) : option (list static_ipv4) := match l with [] => None | _ => Some l end.

(** The entry is found by its gateway; the distance in the argument list of the code
    is not looked at, and the two locks on the node are not released. *)
Definition static_delete_ipv4 (p : prefix) (gate : option (list Z)) (ifname : option string) : M Z :=
  let gate := gate_of gate ifname in
  rn ← stbl (route_node_lookup p);
  match rn with
  | None => mret 0
  | Some rn =>
      n ← stbl (read_node rn);
      match list_find (λ si, same_gate gate (si_gate si) = true) (default [] (n_info n)) with
      | None => stbl (route_unlock_node rn);; mret 0
      | Some (i, si) =>
          static_uninstall_ipv4 p si;;
          stbl (update_node rn (λ n, set_info (static_info (delete i (default [] (n_info n)))) n));;
          mret 1
      end
  end.

Definition static_add_ipv4 (p : prefix) (gate : option (list Z)) (ifname : option string) (distance : Z) : M Z :=
  rn ← stbl (route_node_get p);
  n ← stbl (read_node rn);
  let l := default [] (n_info n) in
  let same := filter (λ si, same_gate (gate_of gate ifname) (si_gate si) = true) l in
  if bool_decide (distance ∈ si_distance <$> same) then stbl (route_unlock_node rn);; mret 0
  else
    match same with
    | [] => mret 0
    | _ => static_delete_ipv4 p gate ifname
    end;;
    let si := Static distance (gate_of gate ifname) in
    stbl (update_node rn (λ n, set_info (Some (static_insert si (default [] (n_info n)))) n));;
    static_install_ipv4 p si;;
    mret 1.

(** * The whole table *)

(** [for (rn = route_top (table); rn; rn = route_next (rn)) body] *)
Fixpoint table_loop (fuel : nat) (body : ptr → M unit) (rn : option ptr) : M unit :=
  match rn with
  | None => mret tt
  | Some id =>
      match fuel with
      | O => st_fail OutOfFuel
      | S f => body id;; next ← tbl (route_next id); table_loop f body next
      end
  end.

Definition for_nodes (body : ptr → M unit) : M unit :=
  z ← st_get;
  rn ← tbl route_top;
  table_loop (size (heap (z_table z))) body rn.

Definition rib_update : M unit := for_nodes (λ rn, rib_process rn None).

(** The loops over the routes of a node, in the order of the list. *)
Fixpoint each_rib (body : nat → M unit) (rs : list nat) : M unit :=
  match rs with
  | [] => mret tt
  | r :: rs => body r;; each_rib body rs
  end.

Definition rib_drop (rn : ptr) (r : nat) : M unit :=
  rib_delnode rn r;; newrib_free r;; tbl (route_unlock_node rn).

Definition RT_TABLE_MAIN : Z := 254.

Definition rib_weed_table (rtm_table_default : Z) : M unit :=
  for_nodes (λ rn,
    rs ← node_ribs rn;
    each_rib (λ r,
      x ← rib_read r;
      when (negb (r_table x =? rtm_table_default) && negb (r_table x =? RT_TABLE_MAIN)) (rib_drop rn r)) rs).

Definition rib_sweep_table : M unit :=
  for_nodes (λ rn,
    rs ← node_ribs rn;
    each_rib (λ r,
      x ← rib_read r;
      when ((r_type x =? ZEBRA_ROUTE_KERNEL) && CHECK_FLAG (r_flags x) ZEBRA_FLAG_SELFROUTE)
        (ret ← rib_uninstall_kernel rn r; when (ret =? 0) (rib_drop rn r))) rs).

Definition rib_close_table : M unit :=
  for_nodes (λ rn,
    rs ← node_ribs rn;
    each_rib (λ r,
      x ← rib_read r;
      when (negb (RIB_SYSTEM_ROUTE x) && CHECK_FLAG (r_flags x) ZEBRA_FLAG_SELECTED)
        (_ ← rib_uninstall_kernel rn r; mret tt)) rs).
End Kernel.
