(* ===== verification/RibLookup.v ===== *)
(** Lookups in the routing information base: the walk from the longest match up to
    the first node with a selected route that is not from BGP. *)

From stdpp Require Import strings sorting.
From S2P Require Import Prelude Prefix Table TableFacts TableRep TableWalk TableGet TableDelete TableIter TableSpec TableView Rib.

Implicit Types (t : route_table (list nat)) (h : gmap ptr (route_node (list nat))) (z : zebra).

(** * The nodes above a node *)

(** The nodes with information on the way up, nearest first. *)
Fixpoint ancestors h (c : path) : list (ptr * list nat) :=
  match c with
  | [] => []
  | f :: c =>
      match info_at h (frame_id f) with
      | Some rs => (frame_id f, rs) :: ancestors h c
      | None => ancestors h c
      end
  end.

Lemma plug1_tree f x : ∃ k l r, plug1 f x = Tree (frame_id f) k l r.
Proof. destruct f; cbn; eauto. Qed.

(** up_info goes to the nearest of them. *)
Lemma up_info_spec fuel t c : ∀ id k l r,
  rep t (plug c (Tree id k l r)) → (length c ≤ fuel)%nat →
  ∃ up, up_info fuel (heap t) id = Ok up ∧
    match up with
    | None => ancestors (heap t) c = []
    | Some pa => ∃ c' k' l' r' rs, plug c (Tree id k l r) = plug c' (Tree pa k' l' r') ∧ (length c' < length c)%nat ∧
        info_at (heap t) pa = Some rs ∧ ancestors (heap t) c = (pa, rs) :: ancestors (heap t) c'
    end.
Proof.
  revert fuel. induction c as [|f c IH]; intros fuel id k l r Hrep Hfuel;
    destruct (rep_node _ _ _ _ _ _ Hrep) as (n & Hn & _ & Hpar & _); cbn in Hn, Hpar.
  { exists None. split; [|done]. destruct fuel; cbn [up_info]; rewrite Hn; cbn; by rewrite Hpar. }
  cbn [plug] in Hrep. destruct (plug1_tree f (Tree id k l r)) as (fk & fl & fr & Hf). rewrite Hf in Hrep.
  destruct (rep_node _ _ _ _ _ _ Hrep) as (np & Hnp & _). cbn in Hnp.
  assert (Hinfo : info_at (heap t) (frame_id f) = n_info np) by (unfold info_at; by rewrite Hnp).
  destruct fuel as [|fuel]; [cbn in Hfuel; lia|].
  cbn [up_info ancestors plug]. rewrite Hn. cbn [of_option mbind res_bind]. rewrite Hpar. cbn [up head fmap option_fmap option_map].
  rewrite Hnp, Hinfo. cbn [of_option mbind res_bind]. destruct (n_info np) as [rs|] eqn:E.
  - exists (Some (frame_id f)). split; [done|]. exists c, fk, fl, fr, rs. rewrite Hf, Hinfo.
    split_and!; [done|cbn; lia|done|done].
  - destruct (IH fuel _ _ _ _ Hrep ltac:(cbn in Hfuel; lia)) as (up & Hup & Hcase). exists up. split; [done|].
    destruct up as [pa|]; [|done]. destruct Hcase as (c' & k' & l' & r' & rs & H1 & H2 & H3 & H4).
    exists c', k', l', r', rs. rewrite Hf. split_and!; [done|cbn; lia|done|done].
Qed.

(** * The walk *)

Definition rib_selected (x : rib) : bool := CHECK_FLAG (r_flags x) ZEBRA_FLAG_SELECTED.
Definition is_bgp (x : rib) : bool := r_type x =? ZEBRA_ROUTE_BGP.
Definition holds (ribs : gmap nat rib) (P : rib → bool) (r : nat) : bool :=
  match ribs !! r with Some x => P x | None => false end.

(** The first selected route of a list. *)
Definition selected_of (ribs : gmap nat rib) (rs : list nat) : option nat :=
  snd <$> list_find (λ r, holds ribs rib_selected r = true) rs.

(** The selected route of a node, unless it is from BGP. *)
Definition igp_selected (ribs : gmap nat rib) (rs : list nat) : option nat :=
  match selected_of ribs rs with
  | Some r => if holds ribs is_bgp r then None else Some r
  | None => None
  end.

(** The first node of a list, up to [stop], with such a route. *)
Fixpoint walk_result (ribs : gmap nat rib) (stop : option ptr) (ch : list (ptr * list nat)) : option nat :=
  match ch with
  | [] => None
  | (id, rs) :: ch =>
      if bool_decide (stop = Some id) then None
      else match igp_selected ribs rs with Some r => Some r | None => walk_result ribs stop ch end
  end.

(** The routes of the nodes are in the heap. *)
Definition ribs_in z : Prop := ∀ id rs r, info_at (heap (z_table z)) id = Some rs → r ∈ rs → is_Some (z_ribs z !! r).

Lemma rib_read_in r z x : z_ribs z !! r = Some x → rib_read r z = Ok (x, z).
Proof. intros H. unfold rib_read. by rewrite H. Qed.

Lemma selected_of_cons ribs r rs x :
  ribs !! r = Some x → selected_of ribs (r :: rs) = if rib_selected x then Some r else selected_of ribs rs.
Proof.
  intros Hx. assert (Hh : holds ribs rib_selected r = rib_selected x) by (unfold holds; by rewrite Hx).
  unfold selected_of. cbn [list_find]. rewrite <- Hh. case_decide as E; [by rewrite E|].
  apply not_true_is_false in E. rewrite E. by destruct (list_find _ rs) as [[i y]|].
Qed.

Lemma pick_selected_run z rs : (∀ r, r ∈ rs → is_Some (z_ribs z !! r)) → pick_selected rs z = Ok (selected_of (z_ribs z) rs, z).
Proof.
  induction rs as [|r rs IH]; intros Hin; cbn [pick_selected]; [done|].
  destruct (Hin r ltac:(by left)) as [x Hx]. rewrite (st_bind_Ok _ _ _ _ _ (rib_read_in _ _ _ Hx)).
  rewrite (selected_of_cons _ _ _ _ Hx). fold (rib_selected x). destruct (rib_selected x); [done|].
  apply IH. intros q Hq. apply Hin. by right.
Qed.

Lemma selected_of_in ribs rs r : selected_of ribs rs = Some r → r ∈ rs ∧ holds ribs rib_selected r = true.
Proof.
  unfold selected_of. intros ((i & y) & (Hy & Hs & _)%list_find_Some & E)%fmap_Some. cbn in E. subst y.
  split; [by eapply list_elem_of_lookup_2|done].
Qed.

Lemma tbl_run {A} (m : ST (route_table (list nat)) A) z a t' :
  m (z_table z) = Ok (a, t') → tbl m z = Ok (a, set_z_table t' z).
Proof. intros H. unfold tbl. by rewrite H. Qed.

Lemma set_z_table_same z : set_z_table (z_table z) z = z.
Proof. by destruct z. Qed.

Lemma set_z_table_twice t t' z : set_z_table t (set_z_table t' z) = set_z_table t z.
Proof. done. Qed.

Lemma node_ribs_run z id n : heap (z_table z) !! id = Some n → node_ribs id z = Ok (default [] (n_info n), z).
Proof.
  intros Hn. unfold node_ribs. rewrite (st_bind_Ok _ _ _ n z); [done|].
  rewrite (tbl_run (read_node id) z n (z_table z)) by (by apply read_node_ok). by rewrite set_z_table_same.
Qed.

(** [z] with one more lock on a node. *)
Abbreviation held id z := (set_z_table (hold id (z_table z)) z).

Lemma match_walk_run z stop : ∀ fuel c id k l r rs,
  rep (z_table z) (plug c (Tree id k l r)) → locks (z_table z) → locks_room (z_table z) → ribs_in z →
  info_at (heap (z_table z)) id = Some rs → (length c < fuel)%nat →
  match_walk fuel stop (Some id) (held id z) =
    Ok (walk_result (z_ribs z) stop ((id, rs) :: ancestors (heap (z_table z)) c), z).
Proof.
  induction fuel as [|fuel IH]; intros c id k l r rs Hrep Hlk Hroom Hin Hinfo Hfuel; [lia|].
  destruct (rep_node _ _ _ _ _ _ Hrep) as (n & Hn & _). cbn in Hn.
  assert (Hi : n_info n = Some rs) by (unfold info_at in Hinfo; by rewrite Hn in Hinfo).
  cbn [match_walk walk_result]. rewrite (st_bind_Ok _ _ _ tt z).
  2:{ rewrite (tbl_run _ _ tt (z_table z)); [by rewrite set_z_table_twice, set_z_table_same|].
      cbn [z_table set_z_table]. eapply unlock_hold; [done|done|done|by eapply Hroom]. }
  destruct (bool_decide (stop = Some id)); [done|].
  rewrite (st_bind_Ok _ _ _ _ _ (node_ribs_run _ _ _ Hn)), Hi. cbn [from_option].
  rewrite (st_bind_Ok _ _ _ _ _ (pick_selected_run z rs (λ r, Hin id rs r Hinfo))).
  rewrite (st_bind_Ok _ _ _ (igp_selected (z_ribs z) rs) z).
  2:{ unfold igp_selected. destruct (selected_of (z_ribs z) rs) as [s|] eqn:E; [|done].
      apply selected_of_in in E as [Hs _]. destruct (Hin id rs s Hinfo Hs) as [x Hx].
      rewrite (st_bind_Ok _ _ _ _ _ (rib_read_in _ _ _ Hx)). unfold holds. by rewrite Hx. }
  destruct (igp_selected (z_ribs z) rs) as [s|]; [done|]. rewrite (st_bind_Ok _ _ _ z z) by done.
  destruct (up_info_spec (size (heap (z_table z))) (z_table z) c id k l r Hrep) as (up & Hup & Hcase).
  { pose proof (rep_depth _ _ _ _ _ _ Hrep). lia. }
  rewrite (st_bind_Ok _ _ _ up z) by (unfold st_lift; by rewrite Hup).
  destruct up as [pa|].
  - destruct Hcase as (c' & k' & l' & r' & rs' & Hplug & Hlen & Hpa & Hanc). rewrite Hanc.
    rewrite Hplug in Hrep. destruct (rep_node _ _ _ _ _ _ Hrep) as (np & Hnp & _). cbn in Hnp.
    rewrite (st_bind_Ok _ _ _ tt (held pa z)).
    2:{ rewrite (st_bind_Ok _ _ _ pa (held pa z)); [done|]. apply tbl_run. eapply lock_hold; [done|by eapply Hlk|by eapply Hroom]. }
    apply (IH c' pa k' l' r'); try done. lia.
  - rewrite Hcase. rewrite (st_bind_Ok _ _ _ tt z) by done. by destruct fuel.
Qed.

(** * What the walk visits *)

(** A node whose key is a prefix of the key of another node is above it. *)
Lemma above_path c hole e k :
  keyed_path c → hole_pre c `prefix_of` k → e ∈ flat_path c hole → e_key e `prefix_of` k → e_id e ∈ frame_id <$> c.
Proof.
  revert hole k. induction c as [|f c IH]; intros hole k Hkp Hpre He Hek; [by apply not_elem_of_nil in He|].
  assert (Hside : ∀ (kf : list bool) b, (kf ++ [b]) `prefix_of` k → (kf ++ [negb b]) `prefix_of` k → False).
  { intros kf b [x1 ->] [x2 Hx]. rewrite <- !app_assoc in Hx. apply app_inv_head in Hx. by destruct b. }
  cbn [flat_path] in He. apply elem_of_app in He as [He|He].
  - destruct f as [fid kf fr|fid kf fl]; cbn in He |- *; apply elem_of_cons in He as [->|He]; try (by left); exfalso.
    + destruct Hkp as (_ & Hr & _). apply (Hside kf false); [done|]. trans (e_key e); [by eapply keyed_elem|done].
    + destruct Hkp as (_ & Hl & _). apply (Hside kf true); [done|]. trans (e_key e); [by eapply keyed_elem|done].
  - right. assert (Hc : keyed_path c ∧ hole_pre c `prefix_of` k).
    { destruct f as [fid kf fr|fid kf fl]; cbn in Hkp, Hpre; destruct Hkp as (Hh & _ & Hkp); (split; [done|]);
        trans kf; try done; eapply prefix_app_l; exact Hpre. }
    destruct Hc as [H1 H2]. by apply (IH _ k H1 H2 He).
Qed.

Lemma above t c id k l r i n :
  rep t (plug c (Tree id k l r)) → heap t !! i = Some n → pbits (n_p n) `prefix_of` k →
  i = id ∨ i ∈ frame_id <$> c.
Proof.
  intros Hrep Hn Hpre. destruct (heap_flat _ _ _ _ Hrep Hn) as (e & He & <- & Hke).
  destruct (rep_path _ _ _ Hrep) as (_ & _ & _ & _ & _ & Hkp & Hkx). rewrite <- Hke in Hpre.
  rewrite flat_plug in He. apply elem_of_app in He as [He|He].
  - left. apply elem_of_cons in He as [->|He]; [done|]. exfalso.
    assert (Hlong : (length k < length (e_key e))%nat).
    { destruct Hkx as (_ & Hl & Hr). apply elem_of_app in He as [He|He];
        eapply keyed_elem in He; try done; apply prefix_length in He; rewrite length_app in He; cbn in He; lia. }
    apply prefix_length in Hpre. lia.
  - right. eapply above_path; [done| |done|done]. by destruct Hkx as (Hh & _).
Qed.

Lemma ancestors_in h c id rs : (id, rs) ∈ ancestors h c ↔ id ∈ frame_id <$> c ∧ info_at h id = Some rs.
Proof.
  induction c as [|f c IH]; cbn [ancestors fmap list_fmap]; [set_solver|].
  destruct (info_at h (frame_id f)) as [rs'|] eqn:E; rewrite ?elem_of_cons, IH; naive_solver.
Qed.

Lemma ancestors_ids h c : (ancestors h c).*1 `sublist_of` path_ids c.
Proof.
  induction c as [|f c IH]; [constructor|]. rewrite path_ids_cons. cbn [ancestors].
  assert (H : (ancestors h c).*1 `sublist_of` ids (frame_rest f) ++ path_ids c) by (by apply sublist_inserts_l).
  destruct (info_at h (frame_id f)); cbn; by constructor.
Qed.

(** Going up the keys get shorter. *)
Lemma ancestors_keys t c : ∀ x,
  rep t (plug c x) →
  StronglySorted (λ a b, key_at (heap t) b `prefix_of` key_at (heap t) a) (ancestors (heap t) c).*1 ∧
  Forall (λ a, key_at (heap t) a `prefix_of` hole_pre c) (ancestors (heap t) c).*1.
Proof.
  induction c as [|f c IH]; intros x Hrep; cbn [ancestors]; [split; constructor|]. cbn [plug] in Hrep.
  destruct (rep_path _ _ _ Hrep) as (_ & _ & _ & _ & _ & _ & Hkx).
  destruct (plug1_tree f x) as (fk & fl & fr & Hf). destruct (IH _ Hrep) as [Hs Hb]. rewrite Hf in *.
  destruct (rep_node _ _ _ _ _ _ Hrep) as (n & Hn & Hk & _). cbn in Hn, Hk.
  assert (Hkey : key_at (heap t) (frame_id f) = fk) by (unfold key_at; by rewrite Hn).
  assert (Hfk : fk `prefix_of` hole_pre (f :: c)) by (destruct f; cbn in Hf |- *; simplify_eq; by apply prefix_app_r).
  assert (Hc : hole_pre c `prefix_of` fk) by (by destruct Hkx as (? & _)).
  assert (Hall : Forall (λ a, key_at (heap t) a `prefix_of` fk) (ancestors (heap t) c).*1).
  { eapply Forall_impl; [exact Hb|]. intros a Ha. by trans (hole_pre c). }
  destruct (info_at (heap t) (frame_id f)); cbn [fmap list_fmap fst].
  - split; constructor; try done; rewrite ?Hkey; try done.
    eapply Forall_impl; [exact Hall|]. intros a Ha. by trans fk.
  - split; [done|]. eapply Forall_impl; [exact Hall|]. intros a Ha. by trans fk.
Qed.

(** The nodes with information on the way to an address, longest key first. *)
Record covering t (b : list bool) (ch : list (ptr * list nat)) : Prop := Covering {
  cov_abs : ∀ k rs, abs t !! k = Some rs ∧ k `prefix_of` b ↔ ∃ id, (id, rs) ∈ ch ∧ key_at (heap t) id = k;
  cov_sorted : StronglySorted (λ a c, key_at (heap t) c `prefix_of` key_at (heap t) a) ch.*1;
  cov_info : ∀ id rs, (id, rs) ∈ ch → info_at (heap t) id = Some rs;
  cov_nodup : NoDup ch.*1;
}.

(** What the lookups need of the state. *)
Record rib_table z : Prop := RibTable {
  rt_inv : table_inv (z_table z);
  rt_room : locks_room (z_table z);
  rt_in : ribs_in z;
}.

Lemma host_ipv4_bytes addr : length addr = 4%nat → u (host_ipv4 addr) = addr ++ replicate 4 0.
Proof. intros Hl. do 5 (destruct addr as [|? addr]; try done). Qed.

Lemma host_ipv4_key addr : ipv4_ok addr → lookup_key (host_ipv4 addr) ∧ pbits (host_ipv4 addr) = bits_of addr.
Proof.
  intros [Hb Hl]. unfold lookup_key, prefix_wf, pbits. rewrite host_ipv4_bytes by done. cbn [prefixlen host_ipv4].
  split_and!; rewrite ?length_app, ?Hl; try (cbn; lia).
  - apply Forall_app. split; [done|]. by apply bytes_ok_decide.
  - unfold bits_of. rewrite bind_app. apply take_app_length'. change (addr ≫= byte_bits) with (bits_of addr).
    rewrite length_bits_of, Hl. done.
Qed.

(** The longest match and the nodes above it are all the nodes on the way. *)
Lemma covering_ancestors t b c id n l r rs :
  table_inv t → rep t (plug c (Tree id (pbits (n_p n)) l r)) → heap t !! id = Some n → n_info n = Some rs →
  pbits (n_p n) `prefix_of` b →
  (∀ k, is_Some (abs t !! k) → k `prefix_of` b → k `prefix_of` pbits (n_p n)) →
  covering t b ((id, rs) :: ancestors (heap t) c).
Proof.
  intros Hinv Hrep Hn Hi Hpre Hmax.
  assert (Hinfo : info_at (heap t) id = Some rs) by (unfold info_at; by rewrite Hn).
  assert (Hk : key_at (heap t) id = pbits (n_p n)) by (unfold key_at; by rewrite Hn).
  assert (Hhole : hole_pre c `prefix_of` pbits (n_p n)).
  { destruct (rep_path _ _ _ Hrep) as (_ & _ & _ & _ & _ & _ & Hkx). by destruct Hkx. }
  destruct (ancestors_keys _ _ _ Hrep) as [Hs Hb].
  split.
  - intros k ks. split.
    + intros [Hks Hkb]. apply abs_lookup in Hks as (i & ni & Hni & Hki & Hii); [|done].
      assert (Hpk : pbits (n_p ni) `prefix_of` pbits (n_p n)).
      { rewrite Hki. apply Hmax; [|done]. exists ks. apply abs_lookup; [done|]. by exists i, ni. }
      exists i. split; [|unfold key_at; by rewrite Hni].
      destruct (above _ _ _ _ _ _ _ _ Hrep Hni Hpk) as [->|Hc].
      * assert (rs = ks) as <- by (rewrite Hn in Hni; congruence). by left.
      * right. apply ancestors_in. split; [done|]. unfold info_at. by rewrite Hni.
    + intros (i & Hini & <-). assert (Hii : info_at (heap t) i = Some ks).
      { apply elem_of_cons in Hini as [[= -> ->]|Hini]; [done|]. by apply ancestors_in in Hini as [_ ?]. }
      unfold info_at in Hii. destruct (heap t !! i) as [ni|] eqn:Eni; [|done]. cbn in Hii.
      assert (Hki : key_at (heap t) i = pbits (n_p ni)) by (unfold key_at; by rewrite Eni).
      split; [apply abs_lookup; [done|]; by exists i, ni|].
      trans (pbits (n_p n)); [|done]. apply elem_of_cons in Hini as [[= -> ->]|Hini]; [by rewrite Hk|].
      rewrite Forall_forall in Hb. trans (hole_pre c); [apply Hb, list_elem_of_fmap; by exists (i, ks)|done].
  - cbn. constructor; [done|]. eapply Forall_impl; [exact Hb|]. intros a Ha. cbn in Ha |- *. rewrite Hk. by trans (hole_pre c).
  - intros i ks [[= -> ->]|Hini]%elem_of_cons; [done|]. by apply ancestors_in in Hini as [_ ?].
  - destruct (rep_path _ _ _ Hrep) as (_ & _ & _ & Hnd & Hdisj & _). pose proof (ancestors_ids (heap t) c) as Hsub.
    cbn. constructor; [|by eapply sublist_NoDup]. intros Hin. apply (Hdisj id); [by left|]. by eapply elem_of_sublist.
Qed.

Lemma match_from_spec t addr :
  table_inv t → locks_room t → ipv4_ok addr →
  ∃ ch, covering t (bits_of addr) ch ∧
    ∀ z stop, z_table z = t → ribs_in z → match_from stop addr z = Ok (walk_result (z_ribs z) stop ch, z).
Proof.
  intros Hinv Hroom Haddr. destruct (host_ipv4_key addr Haddr) as [Hkey Hbits].
  destruct (route_node_match_post t (host_ipv4 addr) Hinv Hkey Hroom) as (m & t' & Hm & _ & _ & -> & Hcase).
  rewrite Hbits in Hcase. destruct m as [id|]; cbn [hold_opt] in Hm.
  - destruct Hcase as (n & Hn & [rs Hi] & Habs & Hpre & Hmax). destruct (Hinv) as [[x Hrep] Hlk].
    destruct (rep_locate _ _ _ _ Hrep Hn) as (c & l & r & ->).
    assert (Hinfo : info_at (heap t) id = Some rs) by (unfold info_at; by rewrite Hn).
    exists ((id, rs) :: ancestors (heap t) c). split; [by eapply covering_ancestors|].
    intros z stop <- Hin. unfold match_from. rewrite (st_bind_Ok _ _ _ _ _ (tbl_run _ _ _ _ Hm)).
    rewrite (st_bind_Ok _ _ _ (held id z) (held id z)) by done.
    apply (match_walk_run z stop _ c id (pbits (n_p n)) l r rs); try done.
    pose proof (rep_depth _ _ _ _ _ _ (hold_rep _ _ id Hrep)). done.
  - exists []. split.
    + split; [|constructor|by intros ? ? ?%not_elem_of_nil|constructor].
      intros k ks. split; [intros [Hks Hkb]; destruct (Hcase k); [by exists ks|done]|intros (i & Hi & _); by apply not_elem_of_nil in Hi].
    + intros z stop <- Hin. unfold match_from. rewrite (st_bind_Ok _ _ _ _ _ (tbl_run _ _ _ _ Hm)).
      rewrite (st_bind_Ok _ _ _ z z) by (by rewrite set_z_table_same). by destruct (size _).
Qed.

(** * rib_match_ipv4 *)

(** The longest prefix of [b] with a route that counts. *)
Definition longest_igp z (b : list bool) (k : list bool) (r : nat) : Prop :=
  (∃ rs, abs (z_table z) !! k = Some rs ∧ k `prefix_of` b ∧ igp_selected (z_ribs z) rs = Some r) ∧
  ∀ k' rs', abs (z_table z) !! k' = Some rs' → k' `prefix_of` b →
    is_Some (igp_selected (z_ribs z) rs') → k' `prefix_of` k.

Definition no_igp z (b : list bool) : Prop :=
  ∀ k rs, abs (z_table z) !! k = Some rs → k `prefix_of` b → igp_selected (z_ribs z) rs = None.

Lemma walk_result_free ribs ch :
  match walk_result ribs None ch with
  | Some r => ∃ ch1 id rs ch2, ch = ch1 ++ (id, rs) :: ch2 ∧ igp_selected ribs rs = Some r ∧
                Forall (λ e, igp_selected ribs e.2 = None) ch1
  | None => Forall (λ e, igp_selected ribs e.2 = None) ch
  end.
Proof.
  induction ch as [|[id rs] ch IH]; cbn [walk_result]; [constructor|]. rewrite bool_decide_false by done.
  destruct (igp_selected ribs rs) as [r|] eqn:E; [by exists [], id, rs, ch|].
  destruct (walk_result ribs None ch) as [r|].
  - destruct IH as (ch1 & i & rs' & ch2 & -> & ? & ?). exists ((id, rs) :: ch1), i, rs', ch2.
    split; [done|]. split; [done|]. by constructor.
  - by constructor.
Qed.

Lemma covering_first z b ch ch1 id rs ch2 r :
  covering (z_table z) b ch → ch = ch1 ++ (id, rs) :: ch2 → igp_selected (z_ribs z) rs = Some r →
  Forall (λ e, igp_selected (z_ribs z) e.2 = None) ch1 →
  longest_igp z b (key_at (heap (z_table z)) id) r.
Proof.
  intros [Habs Hs Hinfo _] -> Hr Hnone. split.
  - exists rs. destruct (proj2 (Habs (key_at (heap (z_table z)) id) rs)) as [? ?]; [|done].
    exists id. split; [|done]. apply elem_of_app. right. by left.
  - intros k' rs' Hk' Hpre [r' Hr']. destruct (proj1 (Habs k' rs')) as (i & Hi & <-); [done|].
    apply elem_of_app in Hi as [Hi|Hi].
    { rewrite Forall_forall in Hnone. apply Hnone in Hi. cbn in Hi. congruence. }
    apply elem_of_cons in Hi as [[= -> ->]|Hi]; [done|].
    rewrite fmap_app in Hs. apply StronglySorted_app in Hs as (_ & _ & Hs).
    cbn in Hs. apply StronglySorted_inv in Hs as [_ Hs]. rewrite Forall_forall in Hs.
    apply Hs, list_elem_of_fmap. by exists (i, rs').
Qed.

Definition connected (x : rib) : bool := r_type x =? ZEBRA_ROUTE_CONNECT.

(** Whether packets can take a selected route. *)
Definition takes_packets (x : rib) : bool := connected x || existsb in_fib (r_nexthops x).

Lemma igp_selected_in ribs rs r : igp_selected ribs rs = Some r → r ∈ rs.
Proof.
  unfold igp_selected. destruct (selected_of ribs rs) as [s|] eqn:E; [|done]. destruct (holds ribs is_bgp s); [done|].
  intros [= <-]. by apply selected_of_in in E as [? _].
Qed.

(** C16: rib_match_ipv4 finds the longest prefix of the address that has a selected route
    of another protocol than BGP, and returns that route if it is connected or has a
    nexthop in the forwarding table; shorter prefixes are not tried after it.  It
    never faults and leaves the state as it was, locks included. *)
Theorem rib_match_ipv4_longest z addr :
  rib_table z → ipv4_ok addr →
  (∃ k r x, longest_igp z (bits_of addr) k r ∧ z_ribs z !! r = Some x ∧
     rib_match_ipv4 addr z = Ok (if takes_packets x then Some r else None, z)) ∨
  (no_igp z (bits_of addr) ∧ rib_match_ipv4 addr z = Ok (None, z)).
Proof.
  intros Hz Haddr. destruct (match_from_spec _ addr (rt_inv z Hz) (rt_room z Hz) Haddr) as (ch & Hcov & Hall).
  pose proof (Hall z None eq_refl (rt_in z Hz)) as Hrun.
  unfold rib_match_ipv4. rewrite (st_bind_Ok _ _ _ _ _ Hrun).
  pose proof (walk_result_free (z_ribs z) ch) as Hw. destruct (walk_result (z_ribs z) None ch) as [r|].
  - left. destruct Hw as (ch1 & id & rs & ch2 & Hch & Hr & Hnone).
    assert (Hin : is_Some (z_ribs z !! r)).
    { apply (rt_in z Hz id rs r); [|by apply igp_selected_in in Hr].
      apply (cov_info _ _ _ Hcov). rewrite Hch. apply elem_of_app. right. by left. }
    destruct Hin as [x Hx]. exists (key_at (heap (z_table z)) id), r, x.
    split; [by eapply covering_first|]. split; [done|]. unfold usable_match.
    by rewrite (st_bind_Ok _ _ _ _ _ (rib_read_in _ _ _ Hx)).
  - right. split; [|done]. intros k rs Hk Hpre. destruct (proj1 (cov_abs _ _ _ Hcov k rs)) as (i & Hi & _); [done|].
    rewrite Forall_forall in Hw. by apply Hw in Hi.
Qed.
