(* ===== verification/RibProcess.v ===== *)
(** The routing information base: reachability of nexthops, and rib_process, which
    selects the route of a prefix. *)

From stdpp Require Import strings.
From S2P Require Import Prelude Prefix Table TableFacts TableRep TableWalk TableGet TableDelete TableIter TableSpec TableView Rib RibLookup.

Implicit Types (z : zebra) (x y : rib) (nh : nexthop) (rn : ptr).

(** * Reachability *)

(** The route a gateway resolves to, for a route of the node [rn]. *)
Definition resolve z rn (addr : list Z) : option nat :=
  match match_from (Some rn) addr z with Ok (m, _) => m | Fail _ => None end.

(** Whether a gateway is reachable: it is on a connected network, or the route is
    from an internal peer and a nexthop of the forwarding table leads to it. *)
Definition gateway_alive z rn (flags : Z) (addr : list Z) : bool :=
  match resolve z rn addr with
  | None => false
  | Some r => holds (z_ribs z) connected r ||
              (CHECK_FLAG flags ZEBRA_FLAG_INTERNAL && holds (z_ribs z) (λ x, existsb resolves (r_nexthops x)) r)
  end.

Definition find_index z (index : Z) : option interface := snd <$> list_find (λ i, if_index i = index) (z_ifs z).
Definition find_name z (name : string) : option interface := snd <$> list_find (λ i, same_name name i = true) (z_ifs z).

(** Whether a nexthop of a route of the node [rn] can be used. *)
Definition alive z rn (flags : Z) nh : bool :=
  match nh_type nh with
  | NEXTHOP_TYPE_IFINDEX => is_up (find_index z (nh_ifindex nh))
  | NEXTHOP_TYPE_IFNAME | NEXTHOP_TYPE_IPV6_IFNAME => is_up (find_name z (nh_ifname nh))
  | NEXTHOP_TYPE_IPV4 | NEXTHOP_TYPE_IPV4_IFINDEX => gateway_alive z rn flags (nh_gate nh)
  | NEXTHOP_TYPE_BLACKHOLE => true
  | _ => is_active nh
  end.

(** The nexthops of IPv4 routes. *)
Definition nh_ok nh : Prop :=
  ipv4_ok (nh_gate nh) ∧
  nh_type nh ∈ [NEXTHOP_TYPE_IFINDEX; NEXTHOP_TYPE_IFNAME; NEXTHOP_TYPE_IPV4; NEXTHOP_TYPE_IPV4_IFINDEX; NEXTHOP_TYPE_BLACKHOLE].

(** What a check keeps of a nexthop; without [set] also what a message would say. *)
Definition nh_keeps (set : bool) nh nh' : Prop :=
  nh_type nh' = nh_type nh ∧ nh_gate nh' = nh_gate nh ∧ nh_ifname nh' = nh_ifname nh ∧
  (nh_type nh = NEXTHOP_TYPE_IFINDEX → nh_ifindex nh' = nh_ifindex nh) ∧ in_fib nh' = in_fib nh ∧
  (set = false → hop_of nh' = hop_of nh).

Lemma is_active_set b nh : is_active (set_active b nh) = b.
Proof.
  unfold is_active, set_active. cbn. destruct b; [by apply CHECK_FLAG_SET_same|apply CHECK_FLAG_UNSET_same].
Qed.

Lemma set_active_keeps set b nh : nh_keeps set nh (set_active b nh).
Proof.
  unfold nh_keeps, set_active, in_fib, hop_of. cbn. split_and!; try done.
  - destruct b; [by rewrite CHECK_FLAG_SET|by rewrite CHECK_FLAG_UNSET].
  - intros _. destruct b; [by rewrite CHECK_FLAG_SET|by rewrite CHECK_FLAG_UNSET].
Qed.

Lemma nh_keeps_trans set n1 n2 n3 : nh_keeps set n1 n2 → nh_keeps set n2 n3 → nh_keeps set n1 n3.
Proof.
  unfold nh_keeps. intros (A1 & A2 & A3 & A4 & A5 & A6) (B1 & B2 & B3 & B4 & B5 & B6).
  split_and!; try congruence.
  - intros Hs. rewrite B4, A4; congruence.
  - intros Hs. by rewrite B6, A6.
Qed.

Lemma match_from_run z rn addr :
  rib_table z → ipv4_ok addr → match_from (Some rn) addr z = Ok (resolve z rn addr, z).
Proof.
  intros Hz Ha. destruct (match_from_spec _ addr (rt_inv z Hz) (rt_room z Hz) Ha) as (ch & _ & Hrun).
  unfold resolve. by rewrite Hrun by (done || apply Hz).
Qed.

Lemma resolve_in z rn addr r :
  rib_table z → ipv4_ok addr → resolve z rn addr = Some r → ∃ id rs, id ≠ rn ∧ info_at (heap (z_table z)) id = Some rs ∧ r ∈ rs.
Proof.
  intros Hz Ha. destruct (match_from_spec _ addr (rt_inv z Hz) (rt_room z Hz) Ha) as (ch & Hcov & Hrun).
  unfold resolve. rewrite Hrun by (done || apply Hz). intros Hr.
  assert (Hch : ∀ id rs, (id, rs) ∈ ch → info_at (heap (z_table z)) id = Some rs) by apply Hcov.
  clear Hcov Hrun. induction ch as [|[id rs] ch IH]; cbn in Hr; [done|].
  case_bool_decide as Hid; [done|]. destruct (igp_selected (z_ribs z) rs) as [s|] eqn:E.
  - injection Hr as ->. exists id, rs. apply igp_selected_in in E. split; [congruence|]. split; [apply Hch; by left|done].
  - apply IH; [done|]. intros i rs' Hin. apply Hch. by right.
Qed.

Lemma resolve_through_keeps newhop nh : nh_keeps true nh (resolve_through newhop nh).
Proof.
  unfold nh_keeps, resolve_through, in_fib. by destruct (nh_type newhop); cbn; rewrite CHECK_FLAG_SET by done.
Qed.

Lemma unset_recursive_keeps nh :
  nh_keeps true nh (set_nh_flags (UNSET_FLAG (nh_flags nh) NEXTHOP_FLAG_RECURSIVE) nh).
Proof. unfold nh_keeps, in_fib. cbn. by rewrite CHECK_FLAG_UNSET. Qed.

Lemma ifindex_keeps set i nh : nh_type nh = NEXTHOP_TYPE_IPV4 → nh_keeps set nh (set_nh_ifindex i nh).
Proof. intros Ht. unfold nh_keeps, in_fib, hop_of. cbn. rewrite Ht. naive_solver. Qed.

Lemma index_keeps i nh : nh_type nh ≠ NEXTHOP_TYPE_IFINDEX → nh_keeps true nh (set_nh_ifindex i nh).
Proof. intros Ht. unfold nh_keeps, in_fib. cbn. naive_solver. Qed.

Lemma nh_keeps_refl set nh : nh_keeps set nh nh.
Proof. done. Qed.

Lemma nh_keeps_set nh nh' set : nh_keeps false nh nh' → nh_keeps set nh nh'.
Proof. unfold nh_keeps. intros (? & ? & ? & ? & ? & H). split_and!; try done. intros _. by apply H. Qed.

Lemma existsb_ext {A} (P Q : A → bool) l : (∀ a, a ∈ l → P a = Q a) → existsb P l = existsb Q l.
Proof. induction l as [|a l IH]; intros H; [done|]. cbn. rewrite H by (by left). f_equal. apply IH. intros; apply H. by right. Qed.

Lemma list_find_existsb {A} (P : A → bool) l :
  match list_find (λ a, P a = true) l with Some _ => existsb P l = true | None => existsb P l = false end.
Proof.
  induction l as [|a l IH]; cbn; [done|]. case_decide as E; [by rewrite E|]. apply not_true_is_false in E. rewrite E. cbn.
  by destruct (list_find _ l) as [[i b]|].
Qed.

Lemma active_ipv4_run z rn flags nh set :
  rib_table z → nh_ok nh →
  ∃ nh', nexthop_active_ipv4 flags nh set rn z = Ok ((nh', gateway_alive z rn flags (nh_gate nh)), z) ∧ nh_keeps set nh nh'.
Proof.
  intros Hz [Ha _]. unfold nexthop_active_ipv4.
  set (nh0 := if bool_decide (nh_type nh = NEXTHOP_TYPE_IPV4) then set_nh_ifindex 0 nh else nh). cbv zeta.
  set (nh1 := if set then _ else nh0).
  assert (H1 : nh_keeps set nh nh1).
  { assert (H0 : nh_keeps set nh nh0) by (subst nh0; case_bool_decide; [by apply ifindex_keeps|done]).
    subst nh1. destruct set; [|done]. eapply nh_keeps_trans; [exact H0|apply unset_recursive_keeps]. }
  assert (Hg : nh_gate nh1 = nh_gate nh) by apply H1. rewrite Hg.
  rewrite (st_bind_Ok _ _ _ _ _ (match_from_run z rn _ Hz Ha)). unfold gateway_alive.
  destruct (resolve z rn (nh_gate nh)) as [r|] eqn:E; [|by exists nh1].
  destruct (resolve_in z rn _ r Hz Ha E) as (id & rs & _ & Hid & Hrs). destruct (rt_in z Hz id rs r Hid Hrs) as [x Hx]. rewrite (st_bind_Ok _ _ _ _ _ (rib_read_in _ _ _ Hx)).
  unfold holds. rewrite Hx. unfold connected. destruct (r_type x =? ZEBRA_ROUTE_CONNECT).
  { eexists. split; [done|]. destruct (r_nexthops x); [done|]. case_bool_decide as Ht; [|done].
    eapply nh_keeps_trans; [exact H1|by apply ifindex_keeps]. }
  destruct (CHECK_FLAG flags ZEBRA_FLAG_INTERNAL); [|by exists nh1].
  pose proof (list_find_existsb resolves (r_nexthops x)) as Hf. cbn [orb andb].
  destruct (list_find _ (r_nexthops x)) as [[i newhop]|]; rewrite Hf.
  - eexists. split; [done|]. destruct set; [|done]. eapply nh_keeps_trans; [exact H1|apply resolve_through_keeps].
  - by exists nh1.
Qed.

Lemma active_check_run z rn flags nh set :
  rib_table z → nh_ok nh →
  ∃ nh', nexthop_active_check rn flags nh set z = Ok (nh', z) ∧ is_active nh' = alive z rn flags nh ∧ nh_keeps set nh nh'.
Proof.
  intros Hz Ha. unfold nexthop_active_check, alive.
  destruct (nh_type nh) eqn:Ht; try (by exists nh);
    try (destruct (active_ipv4_run z rn flags nh set Hz Ha) as (nh' & Hrun & Hk);
         rewrite (st_bind_Ok _ _ _ _ _ Hrun); eexists; split; [done|]; split; [apply is_active_set|];
         eapply nh_keeps_trans; [exact Hk|apply set_active_keeps]).
  - rewrite (st_bind_Ok _ _ _ (find_index z (nh_ifindex nh)) z) by done. eexists. split; [done|].
    split; [apply is_active_set|apply set_active_keeps].
  - rewrite (st_bind_Ok _ _ _ (find_name z (nh_ifname nh)) z) by done. eexists. split; [done|].
    split; [apply is_active_set|]. eapply nh_keeps_trans; [|apply set_active_keeps].
    destruct set; [apply index_keeps; congruence|done].
  - rewrite (st_bind_Ok _ _ _ (find_name z (nh_ifname nh)) z) by done. eexists. split; [done|].
    split; [apply is_active_set|]. eapply nh_keeps_trans; [|apply set_active_keeps].
    destruct set; [apply index_keeps; congruence|done].
  - eexists. split; [done|]. split; [apply is_active_set|apply set_active_keeps].
Qed.

(** * Changes that leave the routing alone *)

(** The parts of a nexthop and of a route that say what it is; the rest is what
    zebra has found out about it. *)
Definition nh_core nh nh' : Prop :=
  nh_type nh' = nh_type nh ∧ nh_gate nh' = nh_gate nh ∧ nh_ifname nh' = nh_ifname nh ∧
  (nh_type nh = NEXTHOP_TYPE_IFINDEX → nh_ifindex nh' = nh_ifindex nh).

Record rib_core x y : Prop := RibCore {
  rc_type : r_type y = r_type x;
  rc_table : r_table y = r_table x;
  rc_distance : r_distance y = r_distance x;
  rc_metric : r_metric y = r_metric x;
  rc_refcnt : r_refcnt y = r_refcnt x;
  rc_num : r_nexthop_num y = r_nexthop_num x;
  rc_internal : CHECK_FLAG (r_flags y) ZEBRA_FLAG_INTERNAL = CHECK_FLAG (r_flags x) ZEBRA_FLAG_INTERNAL;
  rc_blackhole : CHECK_FLAG (r_flags y) ZEBRA_FLAG_BLACKHOLE = CHECK_FLAG (r_flags x) ZEBRA_FLAG_BLACKHOLE;
  rc_nexthops : Forall2 nh_core (r_nexthops x) (r_nexthops y);
}.

#[export] Instance nh_core_preorder : PreOrder nh_core.
Proof.
  split; [done|]. intros n1 n2 n3 (A1 & A2 & A3 & A4) (B1 & B2 & B3 & B4). unfold nh_core.
  split_and!; try congruence. intros Ht. rewrite B4, A4; congruence.
Qed.

#[export] Instance rib_core_preorder : PreOrder rib_core.
Proof.
  split; [by intros x; split|]. intros x y w [] []. split; try congruence. by etrans.
Qed.

Lemma nh_keeps_core set nh nh' : nh_keeps set nh nh' → nh_core nh nh'.
Proof. unfold nh_keeps, nh_core. naive_solver. Qed.

Lemma alive_core z rn f f' nh nh' :
  CHECK_FLAG f' ZEBRA_FLAG_INTERNAL = CHECK_FLAG f ZEBRA_FLAG_INTERNAL → nh_core nh nh' → nh_ok nh →
  alive z rn f' nh' = alive z rn f nh.
Proof.
  intros Hf (Ht & Hg & Hn & Hi) [_ Hok]. unfold alive, gateway_alive. rewrite Ht, Hg, Hn, Hf.
  destruct (nh_type nh) eqn:E; try done; [by rewrite Hi|..]; exfalso; clear -Hok; set_solver.
Qed.

(** The nexthops of IPv4 routes that the reachability checks work on. *)
Record rib_good x : Prop := RibGood {
  rg_nexthops : Forall nh_ok (r_nexthops x);
  rg_length : (length (r_nexthops x) < 256)%nat;
  rg_distance : 0 ≤ r_distance x;
  rg_connected : connected x = true → r_distance x = 0;
}.

Lemma nh_core_ok nh nh' : nh_core nh nh' → nh_ok nh → nh_ok nh'.
Proof. intros (Ht & Hg & _ & _). unfold nh_ok. by rewrite Ht, Hg. Qed.

Lemma rib_core_good x y : rib_core x y → rib_good x → rib_good y.
Proof.
  intros [] []. split; unfold connected; try congruence.
  - clear -rc_nexthops0 rg_nexthops0. induction rc_nexthops0; inversion rg_nexthops0; subst; constructor; [by eapply nh_core_ok|auto].
  - by rewrite <- (Forall2_length _ _ _ rc_nexthops0).
  - unfold connected in rg_connected0. rewrite rc_type0, rc_distance0. done.
Qed.

(** Whether a route of [rn] can be selected. *)
Definition reachable z rn x : bool := existsb (alive z rn (r_flags x)) (r_nexthops x).
Definition usable z rn x : bool := reachable z rn x && negb (r_distance x =? DISTANCE_INFINITY).

Lemma reachable_core z rn x y : rib_core x y → rib_good x → reachable z rn y = reachable z rn x.
Proof.
  intros [] [Hok _ _ _]. unfold reachable. clear -rc_internal0 rc_nexthops0 Hok.
  induction rc_nexthops0 as [|nh nh' l l' Hc _ IH]; [done|]. inversion Hok; subst. cbn. rewrite IH by done. f_equal.
  by apply alive_core.
Qed.

(** Only routes of [own] have changed, and only in what zebra found out about them. *)
Record frame (own : list nat) z z' : Prop := Frame {
  fr_table : z_table z' = z_table z;
  fr_stable : z_stable z' = z_stable z;
  fr_fresh : z_fresh z' = z_fresh z;
  fr_ifs : z_ifs z' = z_ifs z;
  fr_else : ∀ r, r ∉ own → z_ribs z' !! r = z_ribs z !! r;
  fr_core : ∀ r x, z_ribs z !! r = Some x → ∃ x', z_ribs z' !! r = Some x' ∧ rib_core x x';
}.

#[export] Instance frame_preorder own : PreOrder (frame own).
Proof.
  split.
  - intros z. split; try done. intros r x Hx. by exists x.
  - intros z1 z2 z3 [? ? ? ? He1 Hc1] [? ? ? ? He2 Hc2]. split; try congruence.
    + intros r Hr. by rewrite He2, He1.
    + intros r x Hx. destruct (Hc1 r x Hx) as (y & Hy & Hxy). destruct (Hc2 r y Hy) as (w & Hw & Hyw).
      exists w. split; [done|by etrans].
Qed.

Lemma frame_upd own z r x y :
  z_ribs z !! r = Some x → r ∈ own → rib_core x y → frame own z (set_z_ribs (<[r := y]> (z_ribs z)) z).
Proof.
  intros Hx Hr Hc. split; try done; cbn.
  - intros q Hq. rewrite lookup_insert_ne; [done|congruence].
  - intros q w Hq. destruct (decide (r = q)) as [<-|Hne].
    + exists y. rewrite lookup_insert_eq. split; [done|]. congruence.
    + exists w. by rewrite lookup_insert_ne.
Qed.

Lemma frame_table own z z' : frame own z z' → rib_table z → rib_table z'.
Proof.
  intros [Ht _ _ _ _ Hc] [Hinv Hroom Hin]. split; [by rewrite Ht..|]. unfold ribs_in. rewrite Ht.
  intros id rs r Hid Hr. destruct (Hin id rs r Hid Hr) as [x Hx]. destruct (Hc r x Hx) as (y & -> & _). by eexists.
Qed.

(** The routes of [own] are of the node [rn], or of no node. *)
Definition owned z rn (own : list nat) : Prop :=
  ∀ id rs r, id ≠ rn → info_at (heap (z_table z)) id = Some rs → r ∈ own → r ∉ rs.

Lemma walk_result_frame ribs ribs' rn ch :
  (∀ id rs r, (id, rs) ∈ ch → id ≠ rn → r ∈ rs → ribs' !! r = ribs !! r) →
  walk_result ribs' (Some rn) ch = walk_result ribs (Some rn) ch.
Proof.
  induction ch as [|[id rs] ch IH]; intros Hsame; [done|]. cbn [walk_result].
  case_bool_decide as Hid; [done|]. rewrite IH by (intros; eapply Hsame; [by right|done..]).
  assert (Hrs : ∀ r P, r ∈ rs → holds ribs' P r = holds ribs P r).
  { intros r P Hr. unfold holds. rewrite (Hsame id rs r); [done|by left|congruence|done]. }
  assert (Hsel : selected_of ribs' rs = selected_of ribs rs).
  { unfold selected_of. clear -Hrs. induction rs as [|r rs IH]; [done|]. cbn.
    pose proof (Hrs r rib_selected ltac:(by left)) as Hr. do 2 case_decide; try congruence.
    assert (IH' := IH (λ q P H, Hrs q P ltac:(by right))).
    destruct (list_find _ rs) as [[i a]|], (list_find (λ r, holds ribs _ r = true) rs) as [[j b]|]; cbn in *; congruence. }
  unfold igp_selected. rewrite Hsel. destruct (selected_of ribs rs) as [s|] eqn:E; [|done].
  by rewrite (Hrs s is_bgp (proj1 (selected_of_in _ _ _ E))).
Qed.

(** The same routes outside of [own]. *)
Record agree (own : list nat) z z' : Prop := Agree {
  ag_table : z_table z' = z_table z;
  ag_ifs : z_ifs z' = z_ifs z;
  ag_else : ∀ r, r ∉ own → z_ribs z' !! r = z_ribs z !! r;
}.

Lemma frame_agree own z z' : frame own z z' → agree own z z'.
Proof. intros []. by split. Qed.

Lemma resolve_agree own z z' rn addr :
  agree own z z' → rib_table z → rib_table z' → owned z rn own → ipv4_ok addr → resolve z' rn addr = resolve z rn addr.
Proof.
  intros Hf Hz Hz' Hown Ha. destruct (match_from_spec _ addr (rt_inv z Hz) (rt_room z Hz) Ha) as (ch & Hcov & Hrun).
  unfold resolve. rewrite !Hrun; [|done|apply Hz|apply Hf|apply Hz'].
  apply walk_result_frame. intros id rs r Hin Hid Hr. apply (ag_else _ _ _ Hf). intros Ho.
  by eapply (Hown id rs r); [done|apply (cov_info _ _ _ Hcov)|..].
Qed.

Lemma alive_agree own z z' rn f nh :
  agree own z z' → rib_table z → rib_table z' → owned z rn own → nh_ok nh → alive z' rn f nh = alive z rn f nh.
Proof.
  intros Hf Hz Hz' Hown [Ha _]. unfold alive, find_index, find_name, gateway_alive.
  rewrite (ag_ifs _ _ _ Hf), (resolve_agree own z z') by done.
  destruct (resolve z rn (nh_gate nh)) as [r|] eqn:E; [|done].
  destruct (resolve_in z rn _ r Hz Ha E) as (id & rs & Hid & Hinfo & Hr).
  unfold holds. rewrite (ag_else _ _ _ Hf); [done|]. intros Ho. by eapply Hown.
Qed.

Lemma usable_agree own z z' rn x :
  agree own z z' → rib_table z → rib_table z' → owned z rn own → rib_good x → usable z' rn x = usable z rn x.
Proof.
  intros Hf Hz Hz' Hown Hg. unfold usable. f_equal. apply existsb_ext. intros nh Hnh. eapply alive_agree; try done.
  pose proof (rg_nexthops _ Hg) as Hok. rewrite Forall_forall in Hok. by apply Hok.
Qed.

Lemma alive_frame own z z' rn f nh :
  frame own z z' → rib_table z → owned z rn own → nh_ok nh → alive z' rn f nh = alive z rn f nh.
Proof. intros Hf Hz. apply alive_agree; [by apply frame_agree|done|by eapply frame_table]. Qed.

Lemma usable_frame own z z' rn x y :
  frame own z z' → rib_table z → owned z rn own → rib_core x y → rib_good x → usable z' rn y = usable z rn x.
Proof.
  intros Hf Hz Hown Hc Hg. rewrite <- (usable_agree own z z' rn x); try done; [|by apply frame_agree|by eapply frame_table].
  unfold usable. by rewrite (rc_distance _ _ Hc), (reachable_core z' rn x y).
Qed.

(** * The steps of rib_process *)

Abbreviation sel z r := (holds (z_ribs z) rib_selected r).

Definition is_redist (a : action) : bool :=
  match a with redistribute_add _ _ | redistribute_delete _ _ => true | _ => false end.

(** The redistributions in a log. *)
Definition redists (l : list action) : list action := filter (λ a, is_redist a = true) l.

Lemma redists_app l l' : redists (l ++ l') = redists l ++ redists l'.
Proof. apply filter_app. Qed.

(** A step that neither selects nor redistributes anything. *)
Record quiet (own : list nat) z z' : Prop := Quiet {
  q_frame : frame own z z';
  q_sel : ∀ r, sel z' r = sel z r;
  q_log : redists (z_log z') = redists (z_log z);
}.

#[export] Instance quiet_preorder own : PreOrder (quiet own).
Proof.
  split; [by intros z; split|]. intros z1 z2 z3 [] []. split; [by etrans|intros r; congruence|congruence].
Qed.

Lemma frame_mono own own' z z' : own ⊆ own' → frame own z z' → frame own' z z'.
Proof. intros Hsub []. split; try done. intros r Hr. apply fr_else0. set_solver. Qed.

Lemma quiet_mono own own' z z' : own ⊆ own' → quiet own z z' → quiet own' z z'.
Proof. intros Hsub []. split; try done. by eapply frame_mono. Qed.

Lemma upd_run r f z x : z_ribs z !! r = Some x → rib_upd r f z = Ok (tt, set_z_ribs (<[r := f x]> (z_ribs z)) z).
Proof. intros Hx. unfold rib_upd. by rewrite Hx. Qed.

Lemma sel_upd r y z q :
  sel (set_z_ribs (<[r := y]> (z_ribs z)) z) q = if bool_decide (q = r) then rib_selected y else sel z q.
Proof.
  unfold holds. cbn. case_bool_decide as E; [subst; by rewrite lookup_insert_eq|]. rewrite lookup_insert_ne; [done|congruence].
Qed.

Lemma quiet_upd z r x y :
  z_ribs z !! r = Some x → rib_core x y → rib_selected y = rib_selected x →
  quiet [r] z (set_z_ribs (<[r := y]> (z_ribs z)) z).
Proof.
  intros Hx Hc Hs. split; [eapply frame_upd; [done|by left|done]| |done].
  intros q. rewrite sel_upd. case_bool_decide; [|done]. subst. unfold holds. by rewrite Hx.
Qed.

(** ** Reachability *)

Definition count_alive z rn (flags : Z) (nhs : list nexthop) : Z :=
  Z.of_nat (length (List.filter (alive z rn flags) nhs)).

(** Whether a nexthop has come up or gone down. *)
Definition moved z rn x : bool :=
  existsb (λ nh, negb (Bool.eqb (is_active nh) (alive z rn (r_flags x) nh))) (r_nexthops x).

Lemma active_loop_run z rn flags set nhs :
  rib_table z → Forall nh_ok nhs → ∀ num ch, 0 ≤ num → num + Z.of_nat (length nhs) < 256 →
  ∃ nhs', active_loop rn flags set nhs num ch z =
      Ok ((nhs', num + count_alive z rn flags nhs,
           ch || existsb (λ nh, negb (Bool.eqb (is_active nh) (alive z rn flags nh))) nhs), z) ∧
    Forall2 (nh_keeps set) nhs nhs' ∧ is_active <$> nhs' = alive z rn flags <$> nhs.
Proof.
  intros Hz Hok. induction Hok as [|nh nhs Hnh _ IH]; intros num ch Hnum Hlen; cbn [active_loop length] in *.
  { exists []. cbn. by rewrite Z.add_0_r, orb_false_r. }
  destruct (active_check_run z rn flags nh set Hz Hnh) as (nh' & Hrun & Hact & Hk).
  rewrite (st_bind_Ok _ _ _ _ _ Hrun), Hact.
  assert (Hu : u8 (num + (if alive z rn flags nh then 1 else 0)) = num + (if alive z rn flags nh then 1 else 0)).
  { apply u8_id. unfold is_u8. destruct (alive z rn flags nh); lia. }
  rewrite Hu.
  destruct (IH (num + if alive z rn flags nh then 1 else 0) (ch || negb (Bool.eqb (is_active nh) (alive z rn flags nh))))
    as (nhs' & Hloop & Hf2 & Hmap); [destruct (alive z rn flags nh); lia..|].
  rewrite (st_bind_Ok _ _ _ _ _ Hloop). exists (nh' :: nhs'). split; [|split; [by constructor|cbn; by rewrite Hact, Hmap]].
  assert (Hc : count_alive z rn flags (nh :: nhs) = (if alive z rn flags nh then 1 else 0) + count_alive z rn flags nhs).
  { unfold count_alive. cbn [List.filter]. destruct (alive z rn flags nh); cbn [length]; lia. }
  cbn [existsb]. by rewrite Hc, Z.add_assoc, orb_assoc.
Qed.

Lemma count_alive_zero z rn x : (count_alive z rn (r_flags x) (r_nexthops x) =? 0) = negb (reachable z rn x).
Proof.
  unfold count_alive, reachable. induction (r_nexthops x) as [|nh l IH]; [done|]. cbn [existsb List.filter].
  by destruct (alive z rn (r_flags x) nh).
Qed.

Lemma checked_core x f nhs num set :
  Forall2 (nh_keeps set) (r_nexthops x) nhs →
  CHECK_FLAG f ZEBRA_FLAG_INTERNAL = CHECK_FLAG (r_flags x) ZEBRA_FLAG_INTERNAL →
  CHECK_FLAG f ZEBRA_FLAG_BLACKHOLE = CHECK_FLAG (r_flags x) ZEBRA_FLAG_BLACKHOLE →
  rib_core x (set_r_flags f (set_r_nexthop_active_num num (set_r_nexthops nhs x))).
Proof.
  intros Hf2 Hi Hb. split; try done. cbn. eapply Forall2_impl; [exact Hf2|]. apply nh_keeps_core.
Qed.

(** What nexthop_active_update makes of a route. *)
Record updated z rn (set : bool) x y : Prop := Updated {
  up_core : rib_core x y;
  up_keeps : Forall2 (nh_keeps set) (r_nexthops x) (r_nexthops y);
  up_active : is_active <$> r_nexthops y = alive z rn (r_flags x) <$> r_nexthops x;
  up_num : r_nexthop_active_num y = count_alive z rn (r_flags x) (r_nexthops x);
  up_changed : CHECK_FLAG (r_flags y) ZEBRA_FLAG_CHANGED = moved z rn x;
  up_selected : rib_selected y = rib_selected x;
}.

Lemma rib_table_upd z r x y :
  z_ribs z !! r = Some x → rib_core x y → rib_table z → rib_table (set_z_ribs (<[r := y]> (z_ribs z)) z).
Proof. intros Hx Hc. apply (frame_table [r]). eapply frame_upd; [done|by left|done]. Qed.

Lemma active_update_run z rn r x set :
  rib_table z → owned z rn [r] → z_ribs z !! r = Some x → rib_good x →
  ∃ y, nexthop_active_update rn r set z =
      Ok (count_alive z rn (r_flags x) (r_nexthops x), set_z_ribs (<[r := y]> (z_ribs z)) z) ∧ updated z rn set x y.
Proof.
  intros Hz Hown Hx Hg. unfold nexthop_active_update.
  set (x0 := set_r_nexthop_active_num 0 (set_r_flags (UNSET_FLAG (r_flags x) ZEBRA_FLAG_CHANGED) x)).
  assert (Hflag : ∀ m, Z.land ZEBRA_FLAG_CHANGED m = 0 → CHECK_FLAG (r_flags x0) m = CHECK_FLAG (r_flags x) m).
  { intros m Hm. subst x0. cbn. by apply CHECK_FLAG_UNSET. }
  assert (Hc0 : rib_core x x0) by (split; try done; by apply Hflag).
  rewrite (st_bind_Ok _ _ _ _ _ (upd_run _ _ _ _ Hx)). fold x0.
  set (z0 := set_z_ribs (<[r := x0]> (z_ribs z)) z).
  assert (Hx0 : z_ribs z0 !! r = Some x0) by (subst z0; cbn; by rewrite lookup_insert_eq).
  assert (Hf0 : frame [r] z z0) by (eapply frame_upd; [done|by left|done]).
  rewrite (st_bind_Ok _ _ _ _ _ (rib_read_in _ _ _ Hx0)).
  assert (Hal : ∀ nh, nh ∈ r_nexthops x → alive z0 rn (r_flags x0) nh = alive z rn (r_flags x) nh).
  { intros nh Hnh. pose proof (rg_nexthops _ Hg) as Hok. rewrite Forall_forall in Hok.
    rewrite (alive_frame [r] z z0) by auto. apply alive_core; [by apply Hflag|done|auto]. }
  destruct (active_loop_run z0 rn (r_flags x0) set (r_nexthops x0)) with (num := 0) (ch := false)
    as (nhs & Hrun & Hf2 & Hmap); [by eapply frame_table|apply Hg|lia|pose proof (rg_length _ Hg); cbn; lia|].
  rewrite (st_bind_Ok _ _ _ _ _ Hrun). cbn [orb].
  change (r_nexthops x0) with (r_nexthops x) in *.
  assert (Hcount : count_alive z0 rn (r_flags x0) (r_nexthops x) = count_alive z rn (r_flags x) (r_nexthops x)).
  { unfold count_alive. do 2 f_equal. apply List.filter_ext_in. intros nh Hnh. by apply Hal, list_elem_of_In. }
  assert (Hmv : existsb (λ nh, negb (Bool.eqb (is_active nh) (alive z0 rn (r_flags x0) nh))) (r_nexthops x) = moved z rn x).
  { apply existsb_ext. intros nh Hnh. by rewrite Hal. }
  rewrite Hmv, Z.add_0_l, Hcount.
  erewrite st_bind_Ok by (by apply upd_run). subst z0. cbn [z_ribs set_z_ribs]. rewrite insert_insert_eq.
  eexists. split; [done|].
  split; cbn; try done.
  - etrans; [exact Hc0|]. eapply checked_core; [exact Hf2| |]; by destruct (moved z rn x); rewrite ?CHECK_FLAG_SET.
  - rewrite Hmap. apply list_fmap_ext. intros i nh Hnh. apply Hal. by eapply list_elem_of_lookup_2.
  - destruct (moved z rn x); [by apply CHECK_FLAG_SET_same|apply CHECK_FLAG_UNSET_same].
  - unfold rib_selected. cbn. destruct (moved z rn x); rewrite ?CHECK_FLAG_SET, ?CHECK_FLAG_UNSET by done; done.
Qed.

Lemma updated_frame own z z' rn set x y :
  frame own z z' → rib_table z → owned z rn own → rib_good x → updated z' rn set x y → updated z rn set x y.
Proof.
  intros Hf Hz Hown Hg [Hc Hk Ha Hn Hch Hs].
  assert (Hal : ∀ nh, nh ∈ r_nexthops x → alive z' rn (r_flags x) nh = alive z rn (r_flags x) nh).
  { intros nh Hnh. eapply alive_frame; try done. pose proof (rg_nexthops _ Hg) as Hok. rewrite Forall_forall in Hok. by apply Hok. }
  split; try done.
  - rewrite Ha. apply list_fmap_ext. intros i nh Hnh. apply Hal. by eapply list_elem_of_lookup_2.
  - rewrite Hn. unfold count_alive. do 2 f_equal. apply List.filter_ext_in. intros nh Hnh. by apply Hal, list_elem_of_In.
  - rewrite Hch. apply existsb_ext. intros nh Hnh. by rewrite Hal.
Qed.

(** ** The choice *)

(** The route of a list to be selected: one of the usable routes of the least
    distance, a connected one if there is any. *)
Definition best z rn (rs : list nat) (b : option nat) : Prop :=
  match b with
  | None => ∀ r x, r ∈ rs → z_ribs z !! r = Some x → usable z rn x = false
  | Some s => s ∈ rs ∧ ∃ y, z_ribs z !! s = Some y ∧ usable z rn y = true ∧
      ∀ r x, r ∈ rs → z_ribs z !! r = Some x → usable z rn x = true →
        r_distance y ≤ r_distance x ∧ (connected x = true → connected y = true)
  end.

(** The selected route among some. *)
Definition chosen z (rs : list nat) (f : option nat) : Prop :=
  (∀ r, r ∈ rs → sel z r = true → f = Some r) ∧ (∀ r, f = Some r → r ∈ rs ∧ sel z r = true).

(** What rib_process works on: the routes [own] of the node [rn], with the one that
    was unlinked. *)
Record ready z rn (own : list nat) : Prop := Ready {
  rd_table : rib_table z;
  rd_owned : owned z rn own;
  rd_in : ∀ r, r ∈ own → is_Some (z_ribs z !! r);
  rd_good : ∀ r x, r ∈ own → z_ribs z !! r = Some x → rib_good x;
  rd_one : ∀ r q, r ∈ own → q ∈ own → sel z r = true → sel z q = true → r = q;
}.

Lemma chosen_snoc z seen r f :
  chosen z seen f → (∀ q, q ∈ seen → sel z q = true → sel z r = true → q = r) →
  chosen z (seen ++ [r]) (if sel z r then Some r else f).
Proof.
  intros [H1 H2] Hone. split.
  - intros q [Hq| ->%list_elem_of_singleton]%elem_of_app Hs; [|by rewrite Hs].
    destruct (sel z r) eqn:E; [f_equal; symmetry; by apply Hone|by apply H1].
  - intros q. destruct (sel z r) eqn:E; [intros [= <-]; split; [apply elem_of_app; right; by left|done]|].
    intros Hq. destruct (H2 q Hq). split; [apply elem_of_app; by left|done].
Qed.

(** One more route, taken or not. *)
Lemma best_skip z rn seen r x b :
  best z rn seen b → z_ribs z !! r = Some x → usable z rn x = false → best z rn (seen ++ [r]) b.
Proof.
  intros Hb Hx Hu. unfold best in *. destruct b as [s|].
  - destruct Hb as (Hin & y & Hy & Huy & Hle). split; [apply elem_of_app; by left|]. exists y. split_and!; try done.
    intros q w [Hq| ->%list_elem_of_singleton]%elem_of_app Hw Huw; [by apply (Hle q)|congruence].
  - intros q w [Hq| ->%list_elem_of_singleton]%elem_of_app Hw; [by apply (Hb q)|congruence].
Qed.

Lemma best_first z rn seen r x :
  best z rn seen None → z_ribs z !! r = Some x → usable z rn x = true → best z rn (seen ++ [r]) (Some r).
Proof.
  intros Hb Hx Hu. split; [apply elem_of_app; right; by left|]. exists x. split_and!; try done.
  intros q w [Hq| ->%list_elem_of_singleton]%elem_of_app Hw Huw; [|by assert (w = x) as -> by congruence].
  pose proof (Hb q w Hq Hw). congruence.
Qed.

Lemma best_next z rn seen r x s y :
  best z rn seen (Some s) → z_ribs z !! r = Some x → z_ribs z !! s = Some y → usable z rn x = true →
  rib_good x → rib_good y → (∀ q w, q ∈ seen → z_ribs z !! q = Some w → rib_good w) →
  best z rn (seen ++ [r]) (if (r_distance x <? r_distance y) || connected x then Some r else Some s).
Proof.
  intros (Hin & y' & Hy & Huy & Hle) Hx Hy' Hu Hgx Hgy Hg. assert (y' = y) as -> by congruence.
  destruct ((r_distance x <? r_distance y) || connected x) eqn:E.
  - split; [apply elem_of_app; right; by left|]. exists x. split_and!; try done.
    intros q w [Hq| ->%list_elem_of_singleton]%elem_of_app Hw Huw; [|by assert (w = x) as -> by congruence].
    destruct (Hle q w Hq Hw Huw) as [Hd Hcon]. pose proof (rg_distance _ (Hg q w Hq Hw)) as Hw0.
    destruct (connected x) eqn:Ec; [split; [by rewrite (rg_connected _ Hgx Ec)|done]|].
    rewrite orb_false_r, Z.ltb_lt in E. split; [lia|]. intros Hcw.
    pose proof (rg_connected _ Hgy (Hcon Hcw)). pose proof (rg_distance _ Hgx). lia.
  - apply orb_false_iff in E as [Hd Hcx]. apply Z.ltb_ge in Hd. split; [apply elem_of_app; by left|].
    exists y. split_and!; try done.
    intros q w [Hq| ->%list_elem_of_singleton]%elem_of_app Hw Huw; [by apply (Hle q)|].
    assert (w = x) as -> by congruence. split; [done|congruence].
Qed.

(** Where the loop of rib_process stands: [seen] routes have been checked. *)
Record progress z rn (own seen : list nat) z' : Prop := Progress {
  pg_quiet : quiet own z z';
  pg_seen : ∀ r x, r ∈ seen → z_ribs z !! r = Some x → ∃ y, z_ribs z' !! r = Some y ∧ updated z rn false x y;
  pg_rest : ∀ r, r ∉ seen → z_ribs z' !! r = z_ribs z !! r;
}.

Lemma progress_step z rn own seen z' r x :
  ready z rn own → progress z rn own seen z' → r ∈ own → r ∉ seen → z_ribs z !! r = Some x →
  ∃ z'', nexthop_active_update rn r false z' = Ok (count_alive z rn (r_flags x) (r_nexthops x), z'') ∧
    progress z rn own (seen ++ [r]) z''.
Proof.
  intros Hrd [Hq Hseen Hrest] Hr Hns Hx. pose proof (q_frame _ _ _ Hq) as Hf.
  assert (Hgx : rib_good x) by (by eapply rd_good).
  assert (Hx' : z_ribs z' !! r = Some x) by (by rewrite Hrest).
  destruct (active_update_run z' rn r x false) as (y & Hrun & Hup); [eapply frame_table; [done|apply Hrd]| |done|done|].
  { intros id rs q Hid Hinfo Hq'. apply list_elem_of_singleton in Hq' as ->.
    rewrite (fr_table _ _ _ Hf) in Hinfo. by eapply rd_owned. }
  assert (Hcnt : count_alive z' rn (r_flags x) (r_nexthops x) = count_alive z rn (r_flags x) (r_nexthops x)).
  { rewrite <- (up_num _ _ _ _ _ Hup). eapply up_num, updated_frame; [done|apply Hrd|apply Hrd|done..]. }
  rewrite Hcnt in Hrun. eexists. split; [exact Hrun|]. split.
  - etrans; [exact Hq|]. eapply quiet_mono; [|eapply quiet_upd; [done|apply Hup|apply Hup]]. set_solver.
  - intros q w [Hqs| ->%list_elem_of_singleton]%elem_of_app Hw; cbn.
    + rewrite lookup_insert_ne by congruence. by apply Hseen.
    + rewrite lookup_insert_eq. assert (w = x) as -> by congruence. exists y. split; [done|].
      eapply updated_frame; [done|apply Hrd|apply Hrd|done..].
  - intros q Hqs. cbn. rewrite lookup_insert_ne by set_solver. apply Hrest. set_solver.
Qed.

Lemma process_loop_run z rn own : ready z rn own → ∀ rs seen z' fib sl,
  seen ++ rs ⊆ own → NoDup (seen ++ rs) →
  progress z rn own seen z' → chosen z seen fib → best z rn seen sl →
  ∃ fib' sl' z'', process_loop rn rs fib sl z' = Ok ((fib', sl'), z'') ∧
    progress z rn own (seen ++ rs) z'' ∧ chosen z (seen ++ rs) fib' ∧ best z rn (seen ++ rs) sl'.
Proof.
  intros Hrd. induction rs as [|r rs IH]; intros seen z' fib sl Hsub Hnd Hpg Hch Hb; cbn [process_loop].
  { exists fib, sl, z'. by rewrite app_nil_r. }
  assert (Hr : r ∈ own) by (apply Hsub, elem_of_app; right; by left).
  assert (Hns : r ∉ seen) by (apply NoDup_app in Hnd as (_ & H & _); intros Hs; apply (H r Hs); by left).
  destruct (rd_in _ _ _ Hrd r Hr) as [x Hx].
  assert (Hx' : z_ribs z' !! r = Some x) by (by rewrite (pg_rest _ _ _ _ _ Hpg)).
  rewrite (st_bind_Ok _ _ _ _ _ (rib_read_in _ _ _ Hx')).
  destruct (progress_step _ _ _ _ _ _ _ Hrd Hpg Hr Hns Hx) as (z'' & Hrun & Hpg').
  rewrite (st_bind_Ok _ _ _ _ _ Hrun). rewrite count_alive_zero.
  replace (CHECK_FLAG (r_flags x) ZEBRA_FLAG_SELECTED) with (sel z r) by (unfold holds; by rewrite Hx).
  set (fib1 := if sel z r then Some r else fib).
  assert (Hch1 : chosen z (seen ++ [r]) fib1).
  { apply chosen_snoc; [done|]. intros q Hq Hs Hs'. eapply rd_one; try done. apply Hsub, elem_of_app. by left. }
  assert (Hgo : ∀ select1, best z rn (seen ++ [r]) select1 →
    ∃ fib' sl' z3, process_loop rn rs fib1 select1 z'' = Ok ((fib', sl'), z3) ∧
      progress z rn own (seen ++ r :: rs) z3 ∧ chosen z (seen ++ r :: rs) fib' ∧ best z rn (seen ++ r :: rs) sl').
  { intros select1 Hb1. rewrite (cons_middle r seen rs), app_assoc in Hsub, Hnd |- *. by apply IH. }
  assert (Hgood : ∀ q w, q ∈ seen → z_ribs z !! q = Some w → rib_good w).
  { intros q w Hq. eapply rd_good; [exact Hrd|]. apply Hsub, elem_of_app. by left. }
  destruct (reachable z rn x) eqn:Ere; cbn [negb].
  2:{ apply Hgo. apply (best_skip _ _ _ _ x); [done..|]. unfold usable. by rewrite Ere. }
  destruct (r_distance x =? DISTANCE_INFINITY) eqn:Ed.
  { apply Hgo. apply (best_skip _ _ _ _ x); [done..|]. unfold usable. by rewrite Ere, Ed. }
  assert (Hu : usable z rn x = true) by (unfold usable; by rewrite Ere, Ed).
  destruct sl as [s|].
  2:{ rewrite (st_bind_Ok _ _ _ true z'') by done. apply Hgo. by eapply best_first. }
  destruct (Hb) as (Hs & y & Hy & _ & _).
  assert (Hy' : ∃ y', z_ribs z'' !! s = Some y' ∧ r_distance y' = r_distance y).
  { destruct (pg_seen _ _ _ _ _ Hpg' s y) as (y' & ? & Hup); [apply elem_of_app; by left|done|].
    exists y'. split; [done|]. apply Hup. }
  destruct Hy' as (y' & Hy' & Hdy).
  rewrite (st_bind_Ok _ _ _ ((r_distance x <? r_distance y) || connected x) z'').
  2:{ rewrite (st_bind_Ok _ _ _ _ _ (rib_read_in _ _ _ Hy')), Hdy. done. }
  apply Hgo. apply best_next; try done; [by eapply rd_good|by eapply Hgood].
Qed.

(** ** The kernel *)

Lemma set_fib_core nh : nh_core nh (set_fib nh).
Proof. done. Qed.

Lemma unset_fib_core nh : nh_core nh (unset_fib nh).
Proof. done. Qed.

Lemma hops_core add limit nhs : Forall2 nh_core nhs (hops_loop add limit nhs).1.
Proof.
  revert limit. induction nhs as [|nh nhs IH]; intros [|l]; cbn [hops_loop fst]; [done..|reflexivity|].
  destruct (if add then is_active nh else in_fib nh).
  - specialize (IH l). destruct (hops_loop add l nhs) as [rest hops]. constructor; [by destruct add|done].
  - specialize (IH (S l)). destruct (hops_loop add (S l) nhs) as [rest hops]. by constructor.
Qed.

Lemma nexthops_core x nhs : Forall2 nh_core (r_nexthops x) nhs → rib_core x (set_r_nexthops nhs x).
Proof. intros H. by split. Qed.

Lemma fmap_core f nhs : (∀ nh, nh_core nh (f nh)) → Forall2 nh_core nhs (f <$> nhs).
Proof. intros Hf. induction nhs; constructor; auto. Qed.

Lemma emit_quiet own a z : is_redist a = false → quiet own z (set_z_log (z_log z ++ [a]) z).
Proof.
  intros Ha. split; try done.
  - split; try done. intros r x Hx. by exists x.
  - cbn. rewrite redists_app. unfold redists at 2. rewrite filter_cons_False, filter_nil, app_nil_r; [done|congruence].
Qed.

(** The nexthops the kernel is told about. *)
Lemma hops_add limit nhs :
  Forall (λ nh, in_fib nh = false) nhs →
  let '(nhs', hops) := hops_loop true limit nhs in
  hops = hop_of <$> take limit (List.filter is_active nhs) ∧ hop_of <$> nhs' = hop_of <$> nhs ∧
  hops_loop false limit nhs' = (nhs', hops).
Proof.
  intros Hf. revert limit. induction Hf as [|nh nhs Hnh _ IH]; intros [|l]; cbn [hops_loop]; [done..|split_and!; by rewrite ?take_0|].
  assert (Hset : hop_of (set_fib nh) = hop_of nh).
  { unfold hop_of, set_fib. cbn [nh_flags nh_rtype nh_rgate nh_rifindex nh_type nh_gate nh_ifindex set_nh_flags].
    by rewrite (CHECK_FLAG_SET _ NEXTHOP_FLAG_FIB NEXTHOP_FLAG_RECURSIVE). }
  assert (Hin : in_fib (set_fib nh) = true) by (by apply CHECK_FLAG_SET_same).
  cbn [List.filter]. destruct (is_active nh) eqn:Ea.
  - specialize (IH l). destruct (hops_loop true l nhs) as [rest hops]. destruct IH as (-> & Hmap & Hback).
    split_and!; [done|cbn; by rewrite Hset, Hmap|]. cbn [hops_loop]. by rewrite Hin, Hback, Hset.
  - specialize (IH (S l)). destruct (hops_loop true (S l) nhs) as [rest hops]. destruct IH as (-> & Hmap & Hback).
    split_and!; [done|cbn; by rewrite Hmap|]. cbn [hops_loop]. by rewrite Hnh, Hback.
Qed.

Section Kernel.
Context (MULTIPATH_NUM : Z) (netlink_talk : list action → action → Z).

Lemma multipath_core add p x : Forall2 nh_core (r_nexthops x) (netlink_route_multipath MULTIPATH_NUM add p x).1.
Proof.
  unfold netlink_route_multipath. destruct (CHECK_FLAG _ _).
  - cbn [fst]. destruct add; [by apply fmap_core|reflexivity].
  - pose proof (hops_core add (hop_limit MULTIPATH_NUM x) (r_nexthops x)) as H.
    by destruct (hops_loop add (hop_limit MULTIPATH_NUM x) (r_nexthops x)).
Qed.

Lemma kernel_route_run add rn r z n x :
  heap (z_table z) !! rn = Some n → z_ribs z !! r = Some x →
  ∃ ret z', kernel_route MULTIPATH_NUM netlink_talk add rn r z = Ok (ret, z') ∧ quiet [r] z z'.
Proof.
  intros Hn Hx. unfold kernel_route.
  rewrite (st_bind_Ok _ _ _ n z) by (rewrite (tbl_run _ _ n (z_table z)); [by rewrite set_z_table_same|by apply read_node_ok]).
  rewrite (st_bind_Ok _ _ _ _ _ (rib_read_in _ _ _ Hx)).
  pose proof (multipath_core add (n_p n) x) as Hc.
  destruct (netlink_route_multipath MULTIPATH_NUM add (n_p n) x) as [nhs msg]. cbn [fst] in Hc.
  rewrite (st_bind_Ok _ _ _ _ _ (upd_run _ _ _ _ Hx)).
  assert (Hq : quiet [r] z (set_z_ribs (<[r := set_r_nexthops nhs x]> (z_ribs z)) z)).
  { eapply quiet_upd; [done|by apply nexthops_core|done]. }
  destruct msg as [m|]; [|by eexists _, _].
  eexists _, _. split; [reflexivity|]. etrans; [exact Hq|]. apply emit_quiet. by destruct add.
Qed.

Lemma clear_fib_run r z x :
  z_ribs z !! r = Some x → ∃ z', clear_fib r z = Ok (tt, z') ∧ quiet [r] z z'.
Proof.
  intros Hx. eexists. split; [by apply upd_run|]. eapply quiet_upd; [done| |done].
  apply nexthops_core, fmap_core, unset_fib_core.
Qed.

Lemma quiet_in own z z' r : quiet own z z' → is_Some (z_ribs z !! r) → is_Some (z_ribs z' !! r).
Proof. intros [Hf _ _] [x Hx]. destruct (fr_core _ _ _ Hf r x Hx) as (y & ? & _). by exists y. Qed.

Lemma quiet_type own z z' r x y :
  quiet own z z' → z_ribs z !! r = Some x → z_ribs z' !! r = Some y → r_type y = r_type x.
Proof. intros [Hf _ _] Hx Hy. destruct (fr_core _ _ _ Hf r x Hx) as (y' & ? & Hc). assert (y = y') as -> by congruence. apply Hc. Qed.

Lemma install_run rn r z n :
  heap (z_table z) !! rn = Some n → is_Some (z_ribs z !! r) →
  ∃ z', rib_install_kernel MULTIPATH_NUM netlink_talk rn r z = Ok (tt, z') ∧ quiet [r] z z'.
Proof.
  intros Hn [x Hx]. unfold rib_install_kernel.
  destruct (kernel_route_run true rn r z n x Hn Hx) as (ret & z1 & Hrun & Hq).
  rewrite (st_bind_Ok _ _ _ _ _ Hrun). unfold when. destruct (ret <? 0); [|by eexists].
  destruct (quiet_in _ _ _ r Hq) as [y Hy]; [by eexists|].
  destruct (clear_fib_run r z1 y Hy) as (z2 & Hrun2 & Hq2). exists z2. split; [done|by etrans].
Qed.

Lemma uninstall_run rn r z n :
  heap (z_table z) !! rn = Some n → is_Some (z_ribs z !! r) →
  ∃ ret z', rib_uninstall_kernel MULTIPATH_NUM netlink_talk rn r z = Ok (ret, z') ∧ quiet [r] z z'.
Proof.
  intros Hn [x Hx]. unfold rib_uninstall_kernel.
  destruct (kernel_route_run false rn r z n x Hn Hx) as (ret & z1 & Hrun & Hq).
  rewrite (st_bind_Ok _ _ _ _ _ Hrun). destruct (quiet_in _ _ _ r Hq) as [y Hy]; [by eexists|].
  destruct (clear_fib_run r z1 y Hy) as (z2 & Hrun2 & Hq2). rewrite (st_bind_Ok _ _ _ _ _ Hrun2).
  exists ret, z2. split; [done|by etrans].
Qed.

(** ** Selection and redistribution *)

(** A step that selects exactly [s] of the routes [own], and logs the
    redistributions [acts]. *)
Record does (own : list nat) (acts : list action) (f : nat → bool) z z' : Prop := Does {
  do_frame : frame own z z';
  do_sel : ∀ r, sel z' r = f r;
  do_log : redists (z_log z') = redists (z_log z) ++ acts;
}.

Lemma quiet_does own f z z' : (∀ r, sel z r = f r) → quiet own z z' → does own [] f z z'.
Proof. intros Hs [Hf Hsel Hlog]. split; [done| |by rewrite app_nil_r]. intros r. by rewrite Hsel. Qed.

Lemma does_trans own acts1 acts2 f1 f2 z1 z2 z3 :
  does own acts1 f1 z1 z2 → does own acts2 f2 z2 z3 → does own (acts1 ++ acts2) f2 z1 z3.
Proof. intros [? ? Hl1] [? ? Hl2]. split; [by etrans|done|]. by rewrite Hl2, Hl1, app_assoc. Qed.

Lemma does_quiet own acts f z1 z2 z3 : does own acts f z1 z2 → quiet own z2 z3 → does own acts f z1 z3.
Proof.
  intros [? Hs Hl] [? Hs' Hl']. split; [by etrans| |congruence]. intros r. by rewrite Hs', Hs.
Qed.

Lemma redistribute_run own add rn r z n :
  heap (z_table z) !! rn = Some n →
  ∃ z', redistribute add rn r z = Ok (tt, z') ∧
    does own [if add then redistribute_add (n_p n) r else redistribute_delete (n_p n) r] (λ r, sel z r) z z'.
Proof.
  intros Hn. unfold redistribute.
  rewrite (st_bind_Ok _ _ _ n z) by (rewrite (tbl_run _ _ n (z_table z)); [by rewrite set_z_table_same|by apply read_node_ok]).
  eexists. split; [reflexivity|]. split; try done.
  - split; try done. intros q x Hx. by exists x.
  - cbn. rewrite redists_app. by destruct add.
Qed.

Lemma select_flag_run own r b z :
  is_Some (z_ribs z !! r) → r ∈ own →
  ∃ z', select_flag r b z = Ok (tt, z') ∧ does own [] (λ q, if bool_decide (q = r) then b else sel z q) z z'.
Proof.
  intros [x Hx] Hr. eexists. split; [by apply upd_run|]. split; [eapply frame_upd; try done| |by rewrite app_nil_r].
  - split; try done; cbn; destruct b; by rewrite ?CHECK_FLAG_SET, ?CHECK_FLAG_UNSET.
  - intros q. rewrite sel_upd. case_bool_decide; [|done]. unfold rib_selected. cbn.
    destruct b; [by apply CHECK_FLAG_SET_same|apply CHECK_FLAG_UNSET_same].
Qed.

(** The state after some steps, in which only routes of [own] have changed. *)
Lemma frame_node own z z' rn n : frame own z z' → heap (z_table z) !! rn = Some n → heap (z_table z') !! rn = Some n.
Proof. intros Hf. by rewrite (fr_table _ _ _ Hf). Qed.

Lemma frame_in own z z' r : frame own z z' → is_Some (z_ribs z !! r) → is_Some (z_ribs z' !! r).
Proof. intros Hf [x Hx]. destruct (fr_core _ _ _ Hf r x Hx) as (y & ? & _). by exists y. Qed.

Lemma update_run own z z' rn r set :
  ready z rn own → frame own z z' → r ∈ own →
  ∃ num z'', nexthop_active_update rn r set z' = Ok (num, z'') ∧ quiet own z' z''.
Proof.
  intros Hrd Hf Hr. destruct (rd_in _ _ _ Hrd r Hr) as [x Hx].
  destruct (fr_core _ _ _ Hf r x Hx) as (y & Hy & Hc).
  destruct (active_update_run z' rn r y set) as (w & Hrun & Hup).
  - eapply frame_table; [done|apply Hrd].
  - intros id rs q Hid Hinfo Hq. apply list_elem_of_singleton in Hq as ->.
    rewrite (fr_table _ _ _ Hf) in Hinfo. by eapply rd_owned.
  - done.
  - eapply rib_core_good; [done|by eapply rd_good].
  - eexists _, _. split; [done|]. eapply quiet_mono; [|eapply quiet_upd; [done|apply Hup|apply Hup]]. set_solver.
Qed.

Lemma withdraw_run own rn r z n :
  heap (z_table z) !! rn = Some n → is_Some (z_ribs z !! r) → r ∈ own →
  ∃ z', withdraw_route MULTIPATH_NUM netlink_talk rn r z = Ok (tt, z') ∧
    does own [redistribute_delete (n_p n) r] (λ r, sel z r) z z'.
Proof.
  intros Hn Hin Hr. unfold withdraw_route. destruct (redistribute_run own false rn r z n Hn) as (z1 & Hrun & Hd).
  rewrite (st_bind_Ok _ _ _ _ _ Hrun). destruct (frame_in _ _ _ r (do_frame _ _ _ _ _ Hd) Hin) as [x Hx].
  rewrite (st_bind_Ok _ _ _ _ _ (rib_read_in _ _ _ Hx)). unfold when.
  destruct (negb (RIB_SYSTEM_ROUTE x)); [|by exists z1].
  destruct (uninstall_run rn r z1 n) as (ret & z2 & Hrun2 & Hq); [by eapply frame_node, Hn; apply Hd|by eexists|].
  rewrite (st_bind_Ok _ _ _ _ _ Hrun2). exists z2. split; [done|].
  eapply does_quiet; [exact Hd|]. eapply quiet_mono; [|done]. set_solver.
Qed.

Lemma install_when_run (b : bool) own rn r z n :
  heap (z_table z) !! rn = Some n → is_Some (z_ribs z !! r) → r ∈ own →
  ∃ z', when b (rib_install_kernel MULTIPATH_NUM netlink_talk rn r) z = Ok (tt, z') ∧ quiet own z z'.
Proof.
  intros Hn Hin Hr. destruct b; cbn [when]; [|by exists z].
  destruct (install_run rn r z n Hn Hin) as (z' & Hrun & Hq). exists z'. split; [done|].
  eapply quiet_mono; [|done]. set_solver.
Qed.

(** The redistributions when the selection changes from [old] to [new], or when the
    selected route is announced again. *)
Definition announce (p : prefix) (old new : option nat) : list action :=
  (redistribute_delete p <$> option_list old) ++ (redistribute_add p <$> option_list new).

(** Taking a selected route out. *)
Lemma deselect_run own z z' rn n f :
  ready z rn own → frame own z z' → heap (z_table z) !! rn = Some n → f ∈ own →
  ∃ z'', (withdraw_route MULTIPATH_NUM netlink_talk rn f;;
          select_flag f false;;
          _ ← nexthop_active_update rn f true;
          mret tt) z' = Ok (tt, z'') ∧
    does own [redistribute_delete (n_p n) f] (λ r, if bool_decide (r = f) then false else sel z' r) z' z''.
Proof.
  intros Hrd Hf Hn Hin. assert (Hfin : is_Some (z_ribs z' !! f)) by (eapply frame_in; [done|by eapply rd_in]).
  destruct (withdraw_run own rn f z' n) as (z1 & Hrun1 & Hd1); [by eapply frame_node|done..|].
  rewrite (st_bind_Ok _ _ _ _ _ Hrun1).
  destruct (select_flag_run own f false z1) as (z2 & Hrun2 & Hd2); [by eapply frame_in; [apply Hd1|]|done|].
  rewrite (st_bind_Ok _ _ _ _ _ Hrun2).
  destruct (update_run own z z2 rn f true) as (num & z3 & Hrun3 & Hq3); [done| |done|].
  { etrans; [exact Hf|]. etrans; [apply Hd1|apply Hd2]. }
  rewrite (st_bind_Ok _ _ _ _ _ Hrun3). exists z3. split; [done|].
  eapply does_quiet; [|exact Hq3]. destruct (does_trans _ _ _ _ _ _ _ _ Hd1 Hd2) as [Hf' Hs' Hl'].
  split; [done| |done]. intros r. rewrite Hs'. case_bool_decide; [done|]. apply Hd1.
Qed.

(** Putting a route in. *)
Lemma select_run own z z' rn n s :
  ready z rn own → frame own z z' → heap (z_table z) !! rn = Some n → s ∈ own →
  ∃ z'', (_ ← nexthop_active_update rn s true;
          x ← rib_read s;
          when (negb (RIB_SYSTEM_ROUTE x)) (rib_install_kernel MULTIPATH_NUM netlink_talk rn s);;
          select_flag s true;;
          redistribute true rn s) z' = Ok (tt, z'') ∧
    does own [redistribute_add (n_p n) s] (λ r, if bool_decide (r = s) then true else sel z' r) z' z''.
Proof.
  intros Hrd Hf Hn Hin. assert (Hsin : is_Some (z_ribs z' !! s)) by (eapply frame_in; [done|by eapply rd_in]).
  destruct (update_run own z z' rn s true Hrd Hf Hin) as (num & z1 & Hrun1 & Hq1).
  rewrite (st_bind_Ok _ _ _ _ _ Hrun1). destruct (quiet_in _ _ _ _ Hq1 Hsin) as [x Hx].
  rewrite (st_bind_Ok _ _ _ _ _ (rib_read_in _ _ _ Hx)).
  assert (Hf1 : frame own z z1) by (etrans; [exact Hf|apply Hq1]).
  destruct (install_when_run (negb (RIB_SYSTEM_ROUTE x)) own rn s z1 n) as (z2 & Hrun2 & Hq2);
    [by eapply frame_node|by eexists|done|].
  rewrite (st_bind_Ok _ _ _ _ _ Hrun2).
  destruct (select_flag_run own s true z2) as (z3 & Hrun3 & Hd3); [by eapply quiet_in, ex_intro|done|].
  rewrite (st_bind_Ok _ _ _ _ _ Hrun3).
  destruct (redistribute_run own true rn s z3 n) as (z4 & Hrun4 & Hd4).
  { eapply frame_node; [|exact Hn]. etrans; [exact Hf1|]. etrans; [apply Hq2|apply Hd3]. }
  exists z4. split; [done|].
  assert (Hq : quiet own z' z2) by (by etrans). destruct (does_trans _ _ _ _ _ _ _ _ Hd3 Hd4) as [Hf' Hs' Hl'].
  split; [etrans; [apply Hq|done]| |by rewrite Hl', (q_log _ _ _ Hq)].
  intros r. rewrite Hs', (do_sel _ _ _ _ _ Hd3). case_bool_decide; [done|]. apply Hq.
Qed.

(** Announcing the selected route again. *)
Lemma reselect_run own z z' rn n s x :
  ready z rn own → frame own z z' → heap (z_table z) !! rn = Some n → s ∈ own →
  ∃ z'', (withdraw_route MULTIPATH_NUM netlink_talk rn s;;
          _ ← nexthop_active_update rn s true;
          when (negb (RIB_SYSTEM_ROUTE x)) (rib_install_kernel MULTIPATH_NUM netlink_talk rn s);;
          redistribute true rn s) z' = Ok (tt, z'') ∧
    does own (announce (n_p n) (Some s) (Some s)) (λ r, sel z' r) z' z''.
Proof.
  intros Hrd Hf Hn Hin. assert (Hsin : is_Some (z_ribs z' !! s)) by (eapply frame_in; [done|by eapply rd_in]).
  destruct (withdraw_run own rn s z' n) as (z1 & Hrun1 & Hd1); [by eapply frame_node|done..|].
  rewrite (st_bind_Ok _ _ _ _ _ Hrun1). assert (Hf1 : frame own z z1) by (etrans; [exact Hf|apply Hd1]).
  destruct (update_run own z z1 rn s true Hrd Hf1 Hin) as (num & z2 & Hrun2 & Hq2).
  rewrite (st_bind_Ok _ _ _ _ _ Hrun2). assert (Hf2 : frame own z z2) by (etrans; [exact Hf1|apply Hq2]).
  destruct (install_when_run (negb (RIB_SYSTEM_ROUTE x)) own rn s z2 n) as (z3 & Hrun3 & Hq3);
    [by eapply frame_node|by eapply frame_in, rd_in|done|].
  rewrite (st_bind_Ok _ _ _ _ _ Hrun3).
  destruct (redistribute_run own true rn s z3 n) as (z4 & Hrun4 & Hd4).
  { eapply frame_node; [|exact Hn]. etrans; [exact Hf2|apply Hq3]. }
  exists z4. split; [done|]. pose proof (does_quiet _ _ _ _ _ _ (does_quiet _ _ _ _ _ _ Hd1 Hq2) Hq3) as Hd3.
  destruct (does_trans _ _ _ _ _ _ _ _ Hd3 Hd4) as [Hf' Hs' Hl']. split; [done| |done].
  intros r. rewrite Hs'. apply Hd3.
Qed.

(** What rib_process does: [new] becomes the selected route of [own], where [old]
    was before. *)
Record processed z rn (p : prefix) (own : list nat) (old new : option nat) z' : Prop := Processed {
  pr_frame : frame own z z';
  pr_sel : ∀ r, sel z' r = if bool_decide (r ∈ own) then bool_decide (new = Some r) else sel z r;
  pr_log : redists (z_log z') = redists (z_log z) ++
    match new with
    | Some s => if bool_decide (old = new)
                then (if holds (z_ribs z) (moved z rn) s then announce p old new else [])
                else announce p old new
    | None => announce p old new
    end;
}.

(** The rest of rib_process once the old and the new route are known. *)
Definition switch_route rn (old new : option nat) : ST zebra unit :=
  match old with
  | None => mret tt
  | Some f => withdraw_route MULTIPATH_NUM netlink_talk rn f;; select_flag f false;;
              _ ← nexthop_active_update rn f true; mret tt
  end;;
  match new with
  | None => mret tt
  | Some s => _ ← nexthop_active_update rn s true;
              x ← rib_read s;
              when (negb (RIB_SYSTEM_ROUTE x)) (rib_install_kernel MULTIPATH_NUM netlink_talk rn s);;
              select_flag s true;;
              redistribute true rn s
  end.

Lemma chosen_else z own old r : chosen z own old → r ∈ own → Some r ≠ old → sel z r = false.
Proof. intros Hold Hr Hne. destruct (sel z r) eqn:E; [|done]. destruct Hne. symmetry. by apply Hold. Qed.

Lemma withdraw_old_run z z1 rn n own old :
  ready z rn own → quiet own z z1 → heap (z_table z) !! rn = Some n → chosen z own old →
  ∃ z2, (match old with
         | Some f => withdraw_route MULTIPATH_NUM netlink_talk rn f;; select_flag f false;;
                     _ ← nexthop_active_update rn f true; mret tt
         | None => mret tt
         end) z1 = Ok (tt, z2) ∧
    does own (redistribute_delete (n_p n) <$> option_list old) (λ r, if bool_decide (r ∈ own) then false else sel z r) z z2.
Proof.
  intros Hrd Hq1 Hn Hold. pose proof (q_frame _ _ _ Hq1) as Hf1. destruct old as [f|].
  - assert (Hfo : f ∈ own) by (by apply Hold).
    destruct (deselect_run own z z1 rn n f Hrd Hf1 Hn Hfo) as (z2 & Hrun2 & Hd2).
    exists z2. split; [done|]. split; [etrans; [done|apply Hd2]| |by rewrite (do_log _ _ _ _ _ Hd2), (q_log _ _ _ Hq1)].
    intros r. rewrite (do_sel _ _ _ _ _ Hd2), (q_sel _ _ _ Hq1).
    case_bool_decide as E1; case_bool_decide as E2; try done; [congruence|eapply chosen_else; [done|done|congruence]].
  - exists z1. split; [done|]. split; [done| |by rewrite app_nil_r, (q_log _ _ _ Hq1)].
    intros r. rewrite (q_sel _ _ _ Hq1). case_bool_decide; [by eapply chosen_else|done].
Qed.

Lemma switch_run z z1 rn n own old new :
  ready z rn own → quiet own z z1 → heap (z_table z) !! rn = Some n → chosen z own old →
  (∀ s, new = Some s → s ∈ own ∧ old ≠ new) →
  ∃ z', switch_route rn old new z1 = Ok (tt, z') ∧ processed z rn (n_p n) own old new z'.
Proof.
  intros Hrd Hq1 Hn Hold Hnew. unfold switch_route.
  destruct (withdraw_old_run z z1 rn n own old Hrd Hq1 Hn Hold) as (z2 & Hrun2 & Hd2).
  rewrite (st_bind_Ok _ _ _ _ _ Hrun2). destruct new as [s|].
  - destruct (Hnew s eq_refl) as [Hs Hne].
    destruct (select_run own z z2 rn n s Hrd (do_frame _ _ _ _ _ Hd2) Hn Hs) as (z3 & Hrun3 & Hd3).
    exists z3. split; [done|].
    destruct (does_trans _ _ _ _ _ _ _ _ Hd2 Hd3) as [Hf3 Hs3 Hl3]. split; [done| |by rewrite bool_decide_false].
    intros r. rewrite Hs3, (do_sel _ _ _ _ _ Hd2).
    case_bool_decide as E1; case_bool_decide as E2; subst; rewrite ?bool_decide_true by done; try done.
    by rewrite bool_decide_false by congruence.
  - exists z2. split; [done|]. split; [apply Hd2| |].
    + intros r. rewrite (do_sel _ _ _ _ _ Hd2). by case_bool_decide.
    + rewrite (do_log _ _ _ _ _ Hd2). unfold announce. cbn [option_list fmap list_fmap]. by rewrite app_nil_r.
Qed.

(** The route that was selected stays selected. *)
Lemma stay_run z z1 rn n rs own s :
  ready z rn own → progress z rn own rs z1 → heap (z_table z) !! rn = Some n → rs ⊆ own → s ∈ rs → chosen z own (Some s) →
  ∃ z', (x ← rib_read s;
         when (CHECK_FLAG (r_flags x) ZEBRA_FLAG_CHANGED)
           (withdraw_route MULTIPATH_NUM netlink_talk rn s;;
            _ ← nexthop_active_update rn s true;
            when (negb (RIB_SYSTEM_ROUTE x)) (rib_install_kernel MULTIPATH_NUM netlink_talk rn s);;
            redistribute true rn s)) z1 = Ok (tt, z') ∧ processed z rn (n_p n) own (Some s) (Some s) z'.
Proof.
  intros Hrd Hpg Hn Hsub Hs Hold. pose proof (pg_quiet _ _ _ _ _ Hpg) as Hq1. pose proof (q_frame _ _ _ Hq1) as Hf1.
  destruct (rd_in _ _ _ Hrd s (Hsub _ Hs)) as [y Hy].
  destruct (pg_seen _ _ _ _ _ Hpg s y Hs Hy) as (x & Hx & Hup).
  rewrite (st_bind_Ok _ _ _ _ _ (rib_read_in _ _ _ Hx)), (up_changed _ _ _ _ _ Hup). unfold when at 1.
  assert (Hsel : ∀ r, sel z r = if bool_decide (r ∈ own) then bool_decide (Some s = Some r) else sel z r).
  { intros r. case_bool_decide as Hr; [|done]. case_bool_decide as E; [|by eapply chosen_else].
    apply Hold. congruence. }
  assert (Hm : holds (z_ribs z) (moved z rn) s = moved z rn y) by (unfold holds; by rewrite Hy).
  destruct (moved z rn y) eqn:Em.
  - destruct (reselect_run own z z1 rn n s x Hrd Hf1 Hn (Hsub _ Hs)) as (z2 & Hrun2 & Hd2).
    exists z2. split; [done|]. split; [etrans; [done|apply Hd2]| |].
    + intros r. by rewrite (do_sel _ _ _ _ _ Hd2), (q_sel _ _ _ Hq1).
    + by rewrite bool_decide_true, Hm, (do_log _ _ _ _ _ Hd2), (q_log _ _ _ Hq1) by done.
  - exists z1. split; [done|]. split; [done| |].
    + intros r. by rewrite (q_sel _ _ _ Hq1).
    + by rewrite bool_decide_true, Hm, app_nil_r, (q_log _ _ _ Hq1).
Qed.

Lemma rib_process_run z rn n rs del :
  let own := rs ++ option_list del in
  ready z rn own → heap (z_table z) !! rn = Some n → rs = default [] (n_info n) → NoDup rs →
  ∃ old new z', rib_process MULTIPATH_NUM netlink_talk rn del z = Ok (tt, z') ∧
    chosen z own old ∧ best z rn rs new ∧ processed z rn (n_p n) own old new z'.
Proof.
  intros own Hrd Hn Hrs Hnd. unfold rib_process.
  rewrite (st_bind_Ok _ _ _ _ _ (node_ribs_run _ _ _ Hn)), <- Hrs.
  assert (Hsub : rs ⊆ own) by (subst own; set_solver).
  destruct (process_loop_run z rn own Hrd rs [] z None None) as (fib & new & z1 & Hrun1 & Hpg & Hch & Hb);
    [done|done|split; [done|by intros ? ? ?%not_elem_of_nil|done]| | |].
  { split; [by intros ? ?%not_elem_of_nil|done]. }
  { by intros ? ? ?%not_elem_of_nil. }
  cbn [app] in Hpg, Hch, Hb. rewrite (st_bind_Ok _ _ _ _ _ Hrun1).
  pose proof (pg_quiet _ _ _ _ _ Hpg) as Hq1.
  set (old := match del with Some d => if sel z d then Some d else fib | None => fib end).
  assert (Hold : chosen z own old).
  { subst own old. destruct del as [d|]; cbn [option_list]; [|by rewrite app_nil_r]. apply chosen_snoc; [done|].
    intros q Hq Hs1 Hs2. eapply rd_one; [exact Hrd|by apply Hsub| |done..]. apply elem_of_app. right. by left. }
  rewrite (st_bind_Ok _ _ _ old z1).
  2:{ subst old. destruct del as [d|]; [|done]. destruct (quiet_in _ _ _ d Hq1) as [x Hx].
      { eapply rd_in; [done|]. apply elem_of_app. right. by left. }
      rewrite (st_bind_Ok _ _ _ _ _ (rib_read_in _ _ _ Hx)). pose proof (q_sel _ _ _ Hq1 d) as Hs.
      unfold holds at 1 in Hs. rewrite Hx in Hs. rewrite <- Hs. done. }
  clearbody old. exists old, new. case_bool_decide as Esame.
  - destruct Esame as [[s ->] <-]. destruct (Hb) as (Hs & _).
    destruct (stay_run z z1 rn n rs own s) as (z' & Hrun & Hp); try done. by exists z'.
  - destruct (switch_run z z1 rn n own old new) as (z' & Hrun & Hp); try done; [|by exists z'].
    intros s ->. destruct Hb as (Hs & _). split; [by apply Hsub|]. intros ->. apply Esame. split; [by eexists|done].
Qed.

(** C13: rib_process selects, of the routes of a node, a usable one of the least distance,
    connected ones first, and only it; a route that was unlinked is no longer
    selected.  Nothing else changes: the table, its locks, the routes of other nodes,
    and what a route is.  The clients are told to delete the route that was selected
    before and to add the new one, and of a route that stays selected only when one
    of its nexthops has come up or gone down. *)
Theorem rib_process_selects z rn n rs del :
  ready z rn (rs ++ option_list del) → heap (z_table z) !! rn = Some n → rs = default [] (n_info n) → NoDup rs →
  ∃ old new z', rib_process MULTIPATH_NUM netlink_talk rn del z = Ok (tt, z') ∧
    chosen z (rs ++ option_list del) old ∧ best z rn rs new ∧
    processed z rn (n_p n) (rs ++ option_list del) old new z'.
Proof. apply rib_process_run. Qed.

(** A route message of netlink names the gateways and interfaces of the active
    nexthops, as many as are allowed, and there is no message when no nexthop is
    active; the message that deletes the route afterwards names exactly the same. *)
Theorem netlink_route_multipath_same p x :
  CHECK_FLAG (r_flags x) ZEBRA_FLAG_BLACKHOLE = false → Forall (λ nh, in_fib nh = false) (r_nexthops x) →
  let hops := hop_of <$> take (hop_limit MULTIPATH_NUM x) (List.filter is_active (r_nexthops x)) in
  let '(nhs, msg) := netlink_route_multipath MULTIPATH_NUM true p x in
  msg = (if bool_decide (hops = []) then None else Some (Message p (r_table x) (r_metric x) false hops)) ∧
  hop_of <$> nhs = hop_of <$> r_nexthops x ∧
  netlink_route_multipath MULTIPATH_NUM false p (set_r_nexthops nhs x) = (nhs, msg).
Proof.
  intros Hb Hf hops. unfold netlink_route_multipath. rewrite Hb.
  pose proof (hops_add (hop_limit MULTIPATH_NUM x) (r_nexthops x) Hf) as H.
  assert (Hlen : ∀ nhs, length nhs = length (r_nexthops x) → hop_limit MULTIPATH_NUM (set_r_nexthops nhs x) = hop_limit MULTIPATH_NUM x).
  { intros nhs Hl. unfold hop_limit. cbn. by rewrite Hl. }
  destruct (hops_loop true (hop_limit MULTIPATH_NUM x) (r_nexthops x)) as [nhs hs]. destruct H as (-> & Hmap & Hback).
  fold hops in Hback |- *. split_and!.
  - by destruct hops.
  - done.
  - rewrite Hlen by (by rewrite <- (length_fmap hop_of), Hmap, length_fmap).
    cbn [r_flags r_nexthops set_r_nexthops r_table r_metric]. rewrite Hb. rewrite Hback. done.
Qed.
End Kernel.
