(* ===== verification/RibState.v ===== *)
(** The routing information base: adding and deleting routes.  The invariant of the
    whole state, and what rib_add_ipv4 and rib_delete_ipv4 make of the map from
    prefixes to routes that the table stands for. *)

From stdpp Require Import strings sorting.
From S2P Require Import Prelude Prefix Table TableFacts TableRep TableWalk TableGet TableDelete TableIter TableSpec TableView Rib RibLookup RibProcess.

Implicit Types (z : zebra) (x y : rib) (nh : nexthop) (rn id : ptr) (t : route_table (list nat)).

(** * The invariant *)

(** The locks the routes of a node hold on it. *)
Definition weight (ribs : gmap nat rib) (rs : list nat) : Z :=
  foldr (λ r a, match ribs !! r with Some x => 1 + r_refcnt x | None => 0 end + a) 0 rs.

(** The table is in good order; every route is on the list of exactly one node, once,
    and the lists hold nothing else; a node has at most one selected route and is
    locked once for every route, and once more for every repetition of a connected
    one. *)
Record zinv z : Prop := Zinv {
  zi_table : table_inv (z_table z);
  zi_list : ∀ id rs, info (z_table z) id = Some rs → rs ≠ [] ∧ NoDup rs ∧ weight (z_ribs z) rs ≤ lock_at (z_table z) id;
  zi_in : ribs_in z;
  zi_one : ∀ id rs r q, info (z_table z) id = Some rs → r ∈ rs → q ∈ rs → sel z r = true → sel z q = true → r = q;
  zi_rib : ∀ r x, z_ribs z !! r = Some x → (r < z_fresh z)%nat ∧ rib_good x ∧ 0 ≤ r_refcnt x;
  zi_held : ∀ r, is_Some (z_ribs z !! r) → ∃ id rs, info (z_table z) id = Some rs ∧ r ∈ rs;
  zi_owner : ∀ id id' rs rs' r, info (z_table z) id = Some rs → info (z_table z) id' = Some rs' → r ∈ rs → r ∈ rs' → id = id';
}.

(** The routes of a node. *)
Definition routes t id : list nat := default [] (info t id).

Lemma routes_info z id r : r ∈ routes (z_table z) id → ∃ rs, info (z_table z) id = Some rs ∧ r ∈ rs ∧ routes (z_table z) id = rs.
Proof. unfold routes. destruct (info (z_table z) id) as [rs|]; [|by intros ?%not_elem_of_nil]. intros H. by exists rs. Qed.

Lemma weight_cons ribs r rs :
  weight ribs (r :: rs) = match ribs !! r with Some x => 1 + r_refcnt x | None => 0 end + weight ribs rs.
Proof. done. Qed.

Lemma weight_ext ribs ribs' rs : (∀ r, r ∈ rs → r_refcnt <$> ribs' !! r = r_refcnt <$> ribs !! r) → weight ribs' rs = weight ribs rs.
Proof.
  unfold weight. induction rs as [|r rs IH]; intros H; [done|]. cbn [foldr].
  rewrite IH by (intros; apply H; by right). f_equal.
  pose proof (H r ltac:(by left)) as Hr. destruct (ribs !! r), (ribs' !! r); cbn in Hr; simplify_eq; congruence.
Qed.

Lemma routes_nodup z id : zinv z → NoDup (routes (z_table z) id).
Proof. intros Hz. unfold routes. destruct (info (z_table z) id) as [rs|] eqn:E; [by eapply zi_list|constructor]. Qed.

Lemma routes_weight z id : zinv z → weight (z_ribs z) (routes (z_table z) id) ≤ lock_at (z_table z) id.
Proof.
  intros Hz. unfold routes. destruct (info (z_table z) id) as [rs|] eqn:E; [by eapply zi_list|].
  cbn. unfold lock_at. destruct (heap (z_table z) !! id) as [n|] eqn:En; [|done].
  destruct (zi_table z Hz) as [_ Hlk]. destruct (Hlk id n En) as [Hu _]. unfold is_u32 in Hu. lia.
Qed.

(** An operation that changes the routes of one node. *)
Record changes z rn (rs' : list nat) z' : Prop := Changes {
  ch_table : table_inv (z_table z');
  ch_infos : ∀ i, i ≠ rn → info (z_table z') i = info (z_table z) i;
  ch_locks : ∀ i, i ≠ rn → is_Some (info (z_table z) i) → lock_at (z_table z') i = lock_at (z_table z) i;
  ch_info : info (z_table z') rn = list_info rs';
  ch_lock : rs' ≠ [] → weight (z_ribs z') rs' ≤ lock_at (z_table z') rn;
  ch_fresh : (z_fresh z ≤ z_fresh z')%nat;
  ch_nodup : NoDup rs';
  ch_else : ∀ r, r ∉ routes (z_table z) rn → r ∉ rs' → z_ribs z' !! r = z_ribs z !! r;
  ch_new : ∀ r, r ∈ rs' → ∃ x, z_ribs z' !! r = Some x ∧ (r < z_fresh z')%nat ∧ rib_good x ∧ 0 ≤ r_refcnt x;
  ch_gone : ∀ r, r ∈ routes (z_table z) rn → r ∉ rs' → z_ribs z' !! r = None;
  ch_unused : ∀ r, r ∈ rs' → r ∉ routes (z_table z) rn → z_ribs z !! r = None;
  ch_one : ∀ r q, r ∈ rs' → q ∈ rs' → sel z' r = true → sel z' q = true → r = q;
}.

Lemma list_info_Some rs rs' : list_info rs = Some rs' → rs' = rs ∧ rs ≠ [].
Proof. by destruct rs; intros [= <-]. Qed.

Lemma routes_list_info t id rs : info t id = list_info rs → routes t id = rs.
Proof. unfold routes. intros ->. by destruct rs. Qed.

(** The routes of other nodes are not touched. *)
Lemma changes_other z rn rs' z' i rs r :
  zinv z → changes z rn rs' z' → i ≠ rn → info (z_table z) i = Some rs → r ∈ rs →
  (r ∉ routes (z_table z) rn) ∧ (r ∉ rs') ∧ z_ribs z' !! r = z_ribs z !! r.
Proof.
  intros Hz Hc Hne Hi Hr. assert (H1 : r ∉ routes (z_table z) rn).
  { intros (rs0 & Hi0 & Hr0 & _)%routes_info. destruct Hne. by eapply zi_owner. }
  assert (H2 : r ∉ rs').
  { intros Hr'. pose proof (ch_unused _ _ _ _ Hc r Hr' H1) as Hnone. destruct (zi_in z Hz i rs r Hi Hr). congruence. }
  split_and!; [done|done|by apply (ch_else _ _ _ _ Hc)].
Qed.

Lemma zinv_changes z rn rs' z' : zinv z → changes z rn rs' z' → zinv z'.
Proof.
  intros Hz Hc.
  assert (Hcase : ∀ i rs, info (z_table z') i = Some rs → (i = rn ∧ rs = rs') ∨ (i ≠ rn ∧ info (z_table z) i = Some rs)).
  { intros i rs Hi. destruct (decide (i = rn)) as [->|Hne].
    - rewrite (ch_info _ _ _ _ Hc) in Hi. apply list_info_Some in Hi as [-> _]. by left.
    - rewrite (ch_infos _ _ _ _ Hc) in Hi by done. by right. }
  split; [apply Hc|..].
  - intros i rs Hi. destruct (Hcase i rs Hi) as [[-> ->]|[Hne Hi0]].
    + rewrite (ch_info _ _ _ _ Hc) in Hi. apply list_info_Some in Hi as [_ Hnil].
      split_and!; [done|apply Hc|by apply Hc].
    + destruct (zi_list z Hz i rs Hi0) as (Hnil & Hnd & Hw). split_and!; [done|done|].
      rewrite (weight_ext (z_ribs z)), (ch_locks _ _ _ _ Hc); [done|done|by eexists|].
      intros r Hr. by destruct (changes_other _ _ _ _ _ _ _ Hz Hc Hne Hi0 Hr) as (_ & _ & ->).
  - intros i rs r Hi Hr. destruct (Hcase i rs Hi) as [[-> ->]|[Hne Hi0]].
    + destruct (ch_new _ _ _ _ Hc r Hr) as (x & -> & _). by eexists.
    + destruct (changes_other _ _ _ _ _ _ _ Hz Hc Hne Hi0 Hr) as (_ & _ & ->). by eapply zi_in.
  - intros i rs r q Hi Hr Hq. destruct (Hcase i rs Hi) as [[-> ->]|[Hne Hi0]]; [by apply Hc|].
    unfold holds. destruct (changes_other _ _ _ _ _ _ _ Hz Hc Hne Hi0 Hr) as (_ & _ & ->).
    destruct (changes_other _ _ _ _ _ _ _ Hz Hc Hne Hi0 Hq) as (_ & _ & ->). by apply (zi_one z Hz i rs).
  - intros r x Hx. destruct (decide (r ∈ rs')) as [Hr|Hr].
    { destruct (ch_new _ _ _ _ Hc r Hr) as (x' & Hx' & ?). by assert (x' = x) as <- by congruence. }
    destruct (decide (r ∈ routes (z_table z) rn)) as [Hr0|Hr0].
    { rewrite (ch_gone _ _ _ _ Hc) in Hx by done. done. }
    rewrite (ch_else _ _ _ _ Hc) in Hx by done. destruct (zi_rib z Hz r x Hx) as (? & ? & ?).
    pose proof (ch_fresh _ _ _ _ Hc). split_and!; [lia|done|done].
  - intros r Hin. destruct (decide (r ∈ rs')) as [Hr|Hr].
    { exists rn, rs'. rewrite (ch_info _ _ _ _ Hc). split; [|done]. destruct rs'; [by apply not_elem_of_nil in Hr|done]. }
    destruct (decide (r ∈ routes (z_table z) rn)) as [Hr0|Hr0].
    { rewrite (ch_gone _ _ _ _ Hc) in Hin by done. by destruct Hin. }
    rewrite (ch_else _ _ _ _ Hc) in Hin by done. destruct (zi_held z Hz r Hin) as (i & rs & Hi & Hri).
    exists i, rs. split; [|done]. rewrite (ch_infos _ _ _ _ Hc); [done|]. intros ->. apply Hr0. unfold routes. by rewrite Hi.
  - intros i j rs1 rs2 r Hi Hj Hr1 Hr2.
    destruct (Hcase i rs1 Hi) as [[-> ->]|[Hne Hi0]], (Hcase j rs2 Hj) as [[-> ->]|[Hne2 Hj0]].
    + done.
    + by destruct (changes_other _ _ _ _ _ _ _ Hz Hc Hne2 Hj0 Hr2) as (_ & ? & _).
    + by destruct (changes_other _ _ _ _ _ _ _ Hz Hc Hne Hi0 Hr1) as (_ & ? & _).
    + by eapply zi_owner.
Qed.

(** * Tables with the same routes *)

Definition same_routes t t' : Prop :=
  (∀ i, info t' i = info t i) ∧ (∀ i, is_Some (info t i) → key_at (heap t') i = key_at (heap t) i).

Lemma covering_elem t b ch id rs :
  table_inv t → covering t b ch → (id, rs) ∈ ch ↔ info t id = Some rs ∧ key_at (heap t) id `prefix_of` b.
Proof.
  intros Hinv Hc. assert (Hab : ∀ i rs, info t i = Some rs → abs t !! key_at (heap t) i = Some rs).
  { intros i rs0 (n & Hn & Hi)%info_in. unfold key_at. rewrite Hn. by eapply info_abs. }
  split.
  - intros Hin. pose proof (cov_info _ _ _ Hc id rs Hin) as Hi. split; [done|].
    eapply (cov_abs _ _ _ Hc). by exists id.
  - intros [Hi Hp]. destruct (proj1 (cov_abs _ _ _ Hc (key_at (heap t) id) rs)) as (j & Hj & Hk).
    { split; [by apply Hab|done]. }
    assert (j = id) as ->; [|done]. pose proof (cov_info _ _ _ Hc j rs Hj) as Hij.
    destruct (info_in _ _ _ Hi) as (n & Hn & _), (info_in _ _ _ Hij) as (m & Hm & _).
    destruct Hinv as [[x Hrep] _]. unfold key_at in Hk. rewrite Hn, Hm in Hk. by eapply rep_unique.
Qed.

Lemma fst_determines {A B} (f : A → option B) (l l' : list (A * B)) :
  (∀ a b, (a, b) ∈ l → f a = Some b) → (∀ a b, (a, b) ∈ l' → f a = Some b) → l.*1 = l'.*1 → l = l'.
Proof.
  revert l'. induction l as [|[a b] l IH]; intros [|[a' b'] l'] H H' E; try done. cbn in E. injection E as -> E.
  pose proof (H a' b ltac:(by left)). pose proof (H' a' b' ltac:(by left)). assert (b' = b) as -> by congruence. f_equal.
  apply IH; [intros; apply H; by right|intros; apply H'; by right|done].
Qed.

Lemma covering_same t t' b ch ch' :
  table_inv t → table_inv t' → same_routes t t' → covering t b ch → covering t' b ch' → ch' = ch.
Proof.
  intros Hinv Hinv' [Hi Hk] Hc Hc'.
  assert (Hel : ∀ id rs, (id, rs) ∈ ch' ↔ (id, rs) ∈ ch).
  { intros id rs. rewrite (covering_elem t' b), (covering_elem t b), Hi by done.
    split; intros [Hr Hp]; (split; [done|]); [rewrite <- Hk|rewrite Hk]; try done; by eexists. }
  apply (fst_determines (λ i, info t i)).
  - intros i rs Hin. rewrite Hel in Hin. by apply (cov_info _ _ _ Hc).
  - apply Hc.
  - assert (Hkeys : ∀ i, i ∈ ch'.*1 → key_at (heap t') i = key_at (heap t) i).
    { intros i ([j rs] & -> & Hin)%list_elem_of_fmap. apply Hk. rewrite <- Hi. exists rs. by apply (cov_info _ _ _ Hc'). }
    assert (Hperm : ch'.*1 ≡ₚ ch.*1).
    { apply NoDup_Permutation; [apply Hc'|apply Hc|]. intros i. rewrite !list_elem_of_fmap.
      split; intros ([j rs] & -> & Hin); exists (j, rs); (split; [done|by apply Hel]). }
    apply (StronglySorted_unique_strong (λ a c, key_at (heap t) c `prefix_of` key_at (heap t) a)).
    + intros x1 x2 ([j1 rs1] & -> & Hin1)%list_elem_of_fmap ([j2 rs2] & -> & Hin2)%list_elem_of_fmap Hp1 Hp2. cbn in *.
      rewrite Hel in Hin1. pose proof (cov_info _ _ _ Hc _ _ Hin1) as H1. pose proof (cov_info _ _ _ Hc _ _ Hin2) as H2.
      destruct (info_in _ _ _ H1) as (n & Hn & _), (info_in _ _ _ H2) as (m & Hm & _). destruct Hinv as [[x Hrep] _].
      eapply rep_unique; [done|done|done|]. unfold key_at in Hp1, Hp2. rewrite Hn, Hm in Hp1, Hp2. apply prefix_length_eq; [done|by apply prefix_length].
    + pose proof (cov_sorted _ _ _ Hc') as Hs. clear -Hs Hkeys. induction Hs as [|a l Hs IH Ha]; [constructor|].
      constructor; [apply IH; intros; apply Hkeys; by right|]. rewrite Forall_forall in Ha |- *. intros c Hin.
      rewrite <- !Hkeys by (by left || by right). by apply Ha.
    + apply Hc.
    + done.
Qed.

Lemma usable_same_routes z t' rn x :
  rib_table z → rib_table (set_z_table t' z) → same_routes (z_table z) t' → rib_good x →
  usable (set_z_table t' z) rn x = usable z rn x.
Proof.
  intros Hz Hz' Hs Hg. unfold usable. f_equal. apply existsb_ext. intros nh Hnh.
  pose proof (rg_nexthops _ Hg) as Hok. rewrite Forall_forall in Hok. destruct (Hok nh Hnh) as [Ha _].
  assert (Hres : resolve (set_z_table t' z) rn (nh_gate nh) = resolve z rn (nh_gate nh)).
  { destruct (match_from_spec _ (nh_gate nh) (rt_inv z Hz) (rt_room z Hz) Ha) as (ch & Hcov & Hrun).
    destruct (match_from_spec _ (nh_gate nh) (rt_inv _ Hz') (rt_room _ Hz') Ha) as (ch' & Hcov' & Hrun').
    unfold resolve. rewrite (Hrun z), (Hrun' (set_z_table t' z)); [|done|apply Hz'|done|apply Hz].
    by rewrite (covering_same _ _ _ _ _ (rt_inv z Hz) (rt_inv _ Hz') Hs Hcov Hcov'). }
  unfold alive, gateway_alive. by rewrite Hres.
Qed.

(** * A node before and after rib_process *)

(** The selected route of a node is the best one. *)
Definition settled z rn (rs : list nat) : Prop :=
  ∃ new, best z rn rs new ∧ ∀ r, r ∈ rs → sel z r = bool_decide (new = Some r).

(** The state in which rib_process is called: the routes of [rn] are now [rs'], and
    [del] was unlinked. *)
Record relinked z rn (rs' : list nat) (del : option nat) z' : Prop := Relinked {
  rl_table : table_inv (z_table z');
  rl_room : locks_room (z_table z');
  rl_infos : ∀ i, i ≠ rn → info (z_table z') i = info (z_table z) i;
  rl_locks : ∀ i, i ≠ rn → is_Some (info (z_table z) i) → lock_at (z_table z') i = lock_at (z_table z) i;
  rl_info : info (z_table z') rn = list_info rs';
  rl_lock : weight (z_ribs z') rs' ≤ lock_at (z_table z') rn;
  rl_fresh : (z_fresh z ≤ z_fresh z')%nat;
  rl_nodup : NoDup rs';
  rl_else : ∀ r, r ∉ routes (z_table z) rn → r ∉ rs' → z_ribs z' !! r = z_ribs z !! r;
  rl_new : ∀ r, r ∈ rs' ++ option_list del → ∃ x, z_ribs z' !! r = Some x ∧ (r < z_fresh z')%nat ∧ rib_good x ∧ 0 ≤ r_refcnt x;
  rl_gone : ∀ r, r ∈ routes (z_table z) rn ∧ r ∉ rs' ↔ r ∈ option_list del;
  rl_unused : ∀ r, r ∈ rs' → r ∉ routes (z_table z) rn → z_ribs z !! r = None;
  rl_one : ∀ r q, r ∈ rs' ++ option_list del → q ∈ rs' ++ option_list del → sel z' r = true → sel z' q = true → r = q;
}.

Lemma relinked_owned z rn rs' del z' : zinv z → relinked z rn rs' del z' → owned z' rn (rs' ++ option_list del).
Proof.
  intros Hz Hr i rs r Hne Hi Hin Hrs. rewrite (rl_infos _ _ _ _ _ Hr) in Hi by done.
  assert (Hnr : r ∉ routes (z_table z) rn).
  { intros (rs0 & Hi0 & Hr0 & _)%routes_info. destruct Hne. by eapply (zi_owner z Hz). }
  destruct (zi_in z Hz i rs r Hi Hrs) as [x Hx].
  apply elem_of_app in Hin as [Hin|Hin]; [|by apply (rl_gone _ _ _ _ _ Hr) in Hin as [? _]].
  pose proof (rl_unused _ _ _ _ _ Hr r Hin Hnr). congruence.
Qed.

Lemma relinked_in z rn rs' del z' : zinv z → relinked z rn rs' del z' → ribs_in z'.
Proof.
  intros Hz Hr i rs r Hi Hrs. destruct (decide (i = rn)) as [->|Hne].
  - rewrite (rl_info _ _ _ _ _ Hr) in Hi. apply list_info_Some in Hi as [-> _].
    destruct (rl_new _ _ _ _ _ Hr r) as (x & -> & _); [apply elem_of_app; by left|by eexists].
  - pose proof Hi as Hi'. rewrite (rl_infos _ _ _ _ _ Hr) in Hi by done.
    assert (Hown : r ∉ rs' ++ option_list del) by (intros Hin; by eapply (relinked_owned z rn rs' del z' Hz Hr i rs r)).
    rewrite not_elem_of_app in Hown. destruct Hown as [H1 H2].
    rewrite (rl_else _ _ _ _ _ Hr); [by eapply zi_in| |done]. intros Hr0. apply H2, (rl_gone _ _ _ _ _ Hr). done.
Qed.

Lemma relinked_ready z rn rs' del z' : zinv z → relinked z rn rs' del z' → ready z' rn (rs' ++ option_list del).
Proof.
  intros Hz Hr. split.
  - split; [apply Hr|apply Hr|by eapply relinked_in].
  - by eapply relinked_owned.
  - intros r Hin. destruct (rl_new _ _ _ _ _ Hr r Hin) as (x & -> & _). by eexists.
  - intros r x Hin Hx. destruct (rl_new _ _ _ _ _ Hr r Hin) as (x' & Hx' & _ & Hg & _). congruence.
  - apply Hr.
Qed.

(** The state after the unlinked route is freed. *)
Lemma free_same_run del z :
  (∀ d, del = Some d → is_Some (z_ribs z !! d)) →
  ∃ z', free_same del z = Ok (tt, z') ∧
    z' = set_z_ribs (match del with Some d => delete d (z_ribs z) | None => z_ribs z end) z.
Proof.
  intros H. destruct del as [d|]; cbn.
  - destruct (H d eq_refl) as [x Hx]. unfold newrib_free. rewrite Hx. by eexists.
  - eexists. split; [done|]. by destruct z.
Qed.

Lemma best_agree own z z' rn rs new :
  agree own z z' → rib_table z → rib_table z' → owned z rn own →
  (∀ r, r ∈ rs → ∃ x y, z_ribs z !! r = Some x ∧ z_ribs z' !! r = Some y ∧ rib_core x y ∧ rib_good x) →
  best z rn rs new → best z' rn rs new.
Proof.
  intros Ha Hz Hz' Hown Hrs Hb.
  assert (Hu : ∀ r x y, z_ribs z !! r = Some x → z_ribs z' !! r = Some y → r ∈ rs →
    usable z' rn y = usable z rn x ∧ r_distance y = r_distance x ∧ connected y = connected x).
  { intros r x y Hx Hy Hr. destruct (Hrs r Hr) as (x' & y' & Hx' & Hy' & Hc & Hg).
    assert (x' = x) as -> by congruence. assert (y' = y) as -> by congruence.
    rewrite <- (usable_agree own z z' rn x) by done. unfold usable, connected.
    by rewrite (rc_distance _ _ Hc), (rc_type _ _ Hc), (reachable_core z' rn x y). }
  destruct new as [s|].
  - destruct Hb as (Hs & y & Hy & Huy & Hle). split; [done|]. destruct (Hrs s Hs) as (_ & y' & _ & Hy' & _).
    destruct (Hu s y y' Hy Hy' Hs) as (U & D & C). exists y'. rewrite U, D, C. split_and!; [done..|].
    intros r w Hr Hw Huw. destruct (Hrs r Hr) as (w0 & _ & Hw0 & _).
    destruct (Hu r w0 w Hw0 Hw Hr) as (U1 & D1 & C1). rewrite D1, C1. apply (Hle r w0); [done|done|congruence].
  - intros r w Hr Hw. destruct (Hrs r Hr) as (w0 & _ & Hw0 & _). destruct (Hu r w0 w Hw0 Hw Hr) as (-> & _). by apply (Hb r w0).
Qed.

Lemma settled_same_routes z t' rn rs :
  rib_table z → rib_table (set_z_table t' z) → same_routes (z_table z) t' →
  (∀ r x, r ∈ rs → z_ribs z !! r = Some x → rib_good x) →
  settled z rn rs → settled (set_z_table t' z) rn rs.
Proof.
  intros Hz Hz' Hs Hg (new & Hb & Hsel). exists new. split; [|done]. destruct new as [s|].
  - destruct Hb as (Hin & y & Hy & Hu & Hle). split; [done|]. exists y. split; [done|].
    split; [rewrite usable_same_routes; eauto|]. intros r x Hr Hx Hux. apply (Hle r x); [done|done|].
    rewrite <- (usable_same_routes z t'); eauto.
  - intros r x Hr Hx. rewrite usable_same_routes; eauto.
Qed.

Section Kernel.
Context (MULTIPATH_NUM : Z) (netlink_talk : list action → action → Z).

(** What rib_process and the release of the unlinked route leave behind. *)
Record resettled z rn (rs' : list nat) z1 z2 : Prop := Resettled {
  rs_table : z_table z2 = z_table z1;
  rs_changes : changes z rn rs' z2;
  rs_settled : settled z2 rn rs';
  rs_core : ∀ r x, r ∈ rs' → z_ribs z1 !! r = Some x → ∃ y, z_ribs z2 !! r = Some y ∧ rib_core x y;
}.

Lemma option_list_elem {A} (o : option A) a : a ∈ option_list o ↔ o = Some a.
Proof. destruct o; cbn; [rewrite list_elem_of_singleton; naive_solver|]. split; [by intros ?%not_elem_of_nil|done]. Qed.

Lemma freed_lookup del (ribs : gmap nat rib) r :
  match del with Some d => delete d ribs | None => ribs end !! r = if bool_decide (del = Some r) then None else ribs !! r.
Proof.
  destruct del as [d|]; cbn; [|done]. destruct (decide (d = r)) as [->|Hne].
  - by rewrite bool_decide_true, lookup_delete_eq.
  - rewrite bool_decide_false by congruence. by rewrite lookup_delete_ne.
Qed.

(** The changes, from the frame of rib_process. *)
Lemma relinked_changes z rn p rs' del old new z1 z2 z3 :
  zinv z → relinked z rn rs' del z1 → processed z1 rn p (rs' ++ option_list del) old new z2 →
  z3 = set_z_ribs (match del with Some d => delete d (z_ribs z2) | None => z_ribs z2 end) z2 →
  changes z rn rs' z3.
Proof.
  intros Hz Hr [Hf Hsel _] ->.
  assert (Hdel : ∀ r, r ∈ rs' → bool_decide (del = Some r) = false).
  { intros r Hin. apply bool_decide_eq_false. intros ->. by destruct (proj2 (rl_gone _ _ _ _ _ Hr r)) as [_ ?]; [left|]. }
  split; cbn [z_table set_z_ribs z_ribs z_fresh]; rewrite ?(fr_table _ _ _ Hf), ?(fr_fresh _ _ _ Hf); try apply Hr.
  - intros _. rewrite (weight_ext (z_ribs z1)); [apply Hr|]. intros r Hin. rewrite freed_lookup, Hdel by done.
    destruct (rl_new _ _ _ _ _ Hr r) as (x & Hx & _); [apply elem_of_app; by left|].
    destruct (fr_core _ _ _ Hf r x Hx) as (y & Hy & Hc). rewrite Hx, Hy. cbn. f_equal. apply Hc.
  - intros r H1 H2. assert (Hd : r ∉ option_list del) by (intros Hd; by apply (rl_gone _ _ _ _ _ Hr) in Hd as [? _]).
    rewrite freed_lookup, bool_decide_false by (by rewrite <- option_list_elem).
    rewrite (fr_else _ _ _ Hf); [by apply Hr|]. by apply not_elem_of_app.
  - intros r Hin. destruct (rl_new _ _ _ _ _ Hr r) as (x & Hx & Hlt & Hg & H0); [apply elem_of_app; by left|].
    destruct (fr_core _ _ _ Hf r x Hx) as (y & Hy & Hc). exists y. rewrite freed_lookup, Hdel by done.
    split_and!; [done|done|by eapply rib_core_good|by rewrite (rc_refcnt _ _ Hc)].
  - intros r H1 H2. rewrite freed_lookup, bool_decide_true; [done|]. apply option_list_elem, (rl_gone _ _ _ _ _ Hr). done.
  - intros r q Hr1 Hq1. assert (Hs : ∀ r, r ∈ rs' →
      holds (match del with Some d => delete d (z_ribs z2) | None => z_ribs z2 end) rib_selected r = bool_decide (new = Some r)).
    { intros w Hw. unfold holds. rewrite freed_lookup, Hdel by done. fold (sel z2 w). rewrite Hsel.
      rewrite bool_decide_true; [done|]. apply elem_of_app. by left. }
    rewrite !Hs by done. rewrite !bool_decide_eq_true. congruence.
Qed.

Lemma relinked_process z rn rs' del z1 :
  zinv z → relinked z rn rs' del z1 → is_Some (heap (z_table z1) !! rn) →
  ∃ z2 z3, rib_process MULTIPATH_NUM netlink_talk rn del z1 = Ok (tt, z2) ∧ free_same del z2 = Ok (tt, z3) ∧
    resettled z rn rs' z1 z3.
Proof.
  intros Hz Hr [n Hn]. pose proof (relinked_ready _ _ _ _ _ Hz Hr) as Hrd.
  assert (Hrs : rs' = default [] (n_info n)).
  { pose proof (rl_info _ _ _ _ _ Hr) as Hi. unfold info_at in Hi. rewrite Hn in Hi. cbn in Hi. rewrite Hi. by destruct rs'. }
  destruct (rib_process_run MULTIPATH_NUM netlink_talk z1 rn n rs' del Hrd Hn Hrs (rl_nodup _ _ _ _ _ Hr))
    as (old & new & z2 & Hrun & _ & Hbest & Hp).
  pose proof (pr_frame _ _ _ _ _ _ _ Hp) as Hf.
  destruct (free_same_run del z2) as (z3 & Hrun3 & Hz3).
  { intros d ->. eapply frame_in; [done|]. eapply rd_in; [done|]. apply elem_of_app. right. by left. }
  pose proof (relinked_changes _ _ _ _ _ _ _ _ _ _ Hz Hr Hp Hz3) as Hc. exists z2, z3. split; [done|]. split; [done|].
  assert (Hdel : ∀ r, r ∈ rs' → bool_decide (del = Some r) = false).
  { intros r Hin. apply bool_decide_eq_false. intros ->. by destruct (proj2 (rl_gone _ _ _ _ _ Hr r)) as [_ ?]; [left|]. }
  assert (Hat : ∀ r, r ∈ rs' → z_ribs z3 !! r = z_ribs z2 !! r).
  { intros r Hin. rewrite Hz3. cbn. by rewrite freed_lookup, Hdel. }
  assert (Ht : z_table z3 = z_table z1) by (rewrite Hz3; apply Hf).
  assert (Hcore : ∀ r x, r ∈ rs' → z_ribs z1 !! r = Some x → ∃ y, z_ribs z3 !! r = Some y ∧ rib_core x y).
  { intros r x Hin Hx. rewrite Hat by done. by apply (fr_core _ _ _ Hf). }
  split; [done|done| |done]. exists new. split.
  - apply (best_agree (rs' ++ option_list del) z1).
    + split; [done|rewrite Hz3; apply Hf|]. intros r Hnot. rewrite Hz3. cbn. rewrite freed_lookup, bool_decide_false.
      * by apply Hf.
      * intros ->. apply Hnot, elem_of_app. right. by left.
    + apply Hrd.
    + split; [rewrite Ht; apply Hr..|]. apply (zi_in z3). by eapply zinv_changes.
    + apply Hrd.
    + intros r Hin. destruct (rl_new _ _ _ _ _ Hr r) as (x & Hx & _ & Hg & _); [apply elem_of_app; by left|].
      destruct (Hcore r x Hin Hx) as (y & Hy & Hxy). by exists x, y.
    + done.
  - intros r Hin. unfold holds at 1. rewrite Hat by done. fold (sel z2 r). rewrite (pr_sel _ _ _ _ _ _ _ Hp).
    rewrite bool_decide_true; [done|]. apply elem_of_app. by left.
Qed.
End Kernel.

(** * Changing the list of a node *)

Lemma relabel_run z id n f :
  table_inv (z_table z) → heap (z_table z) !! id = Some n → n_lock n ≠ 0 →
  ∃ t', tbl (update_node id (λ n, set_info (f n) n)) z = Ok (tt, set_z_table t' z) ∧ relabelled (z_table z) id n (f n) t'.
Proof.
  intros Hinv Hn H0. destruct (node_relabel_run (z_table z) id n f Hinv Hn H0) as (t' & Hrun & Hl).
  exists t'. split; [by apply tbl_run|done].
Qed.

Lemma remove_rib_elem r rs q : NoDup rs → q ∈ remove_rib r rs ↔ q ∈ rs ∧ q ≠ r.
Proof.
  intros Hnd. induction Hnd as [|a rs Ha Hnd IH]; cbn; [set_solver|]. case_bool_decide as E.
  - subst. rewrite elem_of_cons. split; [|naive_solver]. intros Hq. split; [by right|congruence].
  - rewrite !elem_of_cons, IH. naive_solver.
Qed.

Lemma remove_rib_nodup r rs : NoDup rs → NoDup (remove_rib r rs).
Proof.
  intros Hnd. induction Hnd as [|a rs Ha Hnd IH]; cbn; [constructor|]. case_bool_decide; [done|].
  constructor; [|done]. rewrite remove_rib_elem by done. naive_solver.
Qed.

Lemma remove_rib_weight ribs r x rs :
  r ∈ rs → ribs !! r = Some x → weight ribs rs = 1 + r_refcnt x + weight ribs (remove_rib r rs).
Proof.
  unfold weight. intros Hr Hx. induction rs as [|a rs IH]; [by apply not_elem_of_nil in Hr|]. cbn [remove_rib foldr].
  case_bool_decide as E; [subst; by rewrite Hx|]. cbn [foldr]. apply elem_of_cons in Hr as [->|Hr]; [done|].
  rewrite IH by done. lia.
Qed.

(** The list without the route to be replaced. *)
Definition without (del : option nat) (rs : list nat) : list nat :=
  match del with Some s => remove_rib s rs | None => rs end.

Lemma without_elem del rs q : NoDup rs → q ∈ without del rs ↔ q ∈ rs ∧ del ≠ Some q.
Proof. intros Hnd. destruct del as [s|]; cbn; [rewrite remove_rib_elem by done; naive_solver|naive_solver]. Qed.

Lemma without_nodup del rs : NoDup rs → NoDup (without del rs).
Proof. intros Hnd. destruct del; [by apply remove_rib_nodup|done]. Qed.

(** ** Unlinking the route to be replaced *)

(** A map of routes in which a prefix has the routes [rs]. *)
Definition set_routes (k : list bool) (rs : list nat) (m : gmap (list bool) (list nat)) : gmap (list bool) (list nat) :=
  match list_info rs with Some rs => <[k := rs]> m | None => delete k m end.

Lemma set_routes_twice k rs rs' m : set_routes k rs' (set_routes k rs m) = set_routes k rs' m.
Proof. unfold set_routes. destruct rs, rs'; cbn; by rewrite ?insert_insert_eq, ?delete_insert_eq, ?insert_delete_eq, ?delete_delete_eq. Qed.

(** From the table [t] of the beginning to one in which the node [rn] of the key [k]
    is locked [lock] times and has the routes [rs']. *)
Record relisted t k rn (rs' : list nat) (lock : Z) t' : Prop := Relisted {
  re_inv : table_inv t';
  re_abs : abs t' = set_routes k rs' (abs t);
  re_node : ∃ n, heap t' !! rn = Some n ∧ pbits (n_p n) = k ∧ n_lock n = lock ∧ n_info n = list_info rs';
  re_infos : ∀ i, i ≠ rn → info t' i = info t i;
  re_locks : ∀ i, i ≠ rn → is_Some (info t i) → lock_at t' i = lock_at t i;
  re_room : locks_room t';
}.

Lemma got_relisted t p rn n t' :
  locks_below (2^32 - 2) t → got t p rn n t' → info t rn ≠ Some [] →
  relisted t (pbits p) rn (routes t rn) (lock_at t rn + 1) t'.
Proof.
  intros Hb Hg Hnil. assert (Hi : n_info n = list_info (routes t rn)).
  { pose proof (gt_infos _ _ _ _ _ Hg rn) as Hi. unfold info_at at 1 in Hi. rewrite (gt_node _ _ _ _ _ Hg) in Hi.
    cbn in Hi. rewrite Hi. unfold routes. destruct (info t rn) as [[|]|]; done. }
  split; try apply Hg.
  - rewrite (gt_abs _ _ _ _ _ Hg). unfold set_routes. rewrite <- Hi, (gt_info _ _ _ _ _ Hg).
    destruct (abs t !! pbits p) as [rs|] eqn:E; [by rewrite insert_id|by rewrite delete_id].
  - exists n. split_and!; [apply Hg..|done].
  - intros i _. apply Hg.
  - apply (gt_below _ _ _ _ _ Hg (2^32 - 2)); [lia|done].
Qed.

Lemma relisted_unlock z t k rn rs' lock :
  relisted t k rn rs' lock (z_table z) → 1 < lock →
  ∃ t', tbl (route_unlock_node rn) z = Ok (tt, set_z_table t' z) ∧ relisted t k rn rs' (lock - 1) t'.
Proof.
  intros [Hinv Habs (n & Hn & Hk & Hl & Hi) Hinfos Hlocks Hroom] Hgt.
  destruct (node_unlock_run (z_table z) rn n Hinv Hn ltac:(lia) ltac:(lia)) as (t' & Hrun & Hu).
  exists t'. split; [by apply tbl_run|]. destruct (ul_lock _ _ _ _ Hu) as (n' & Hn' & Hp' & Hl' & Hi'); [lia|].
  split; [apply Hu|by rewrite (ul_abs _ _ _ _ Hu)|exists n'; split_and!; [done|congruence|lia|congruence]| | |].
  - intros i Hne. by rewrite (ul_infos _ _ _ _ Hu), Hinfos.
  - intros i Hne Hsome. rewrite (ul_locks _ _ _ _ Hu); [by apply Hlocks|done|by rewrite Hinfos].
  - by apply (ul_below _ _ _ _ Hu (2^32 - 1)).
Qed.

Lemma relisted_relabel z t k rn rs' lock rs'' f :
  relisted t k rn rs' lock (z_table z) → 0 < lock → (∀ n, n_info n = list_info rs' → f n = list_info rs'') →
  ∃ t', tbl (update_node rn (λ n, set_info (f n) n)) z = Ok (tt, set_z_table t' z) ∧ relisted t k rn rs'' lock t'.
Proof.
  intros [Hinv Habs (n & Hn & Hk & Hl & Hi) Hinfos Hlocks Hroom] Hgt Hf.
  destruct (relabel_run z rn n f Hinv Hn ltac:(lia)) as (t' & Hrun & Hlab). rewrite (Hf n Hi) in Hlab.
  exists t'. split; [done|]. split; [apply Hlab| | | | |].
  - rewrite (lb_abs _ _ _ _ _ Hlab), Hk, Habs, <- (set_routes_twice k rs' rs''). done.
  - eexists. split; [apply Hlab|]. done.
  - intros i Hne. by rewrite (lb_infos _ _ _ _ _ Hlab), Hinfos.
  - intros i Hne Hsome. rewrite (lb_locks _ _ _ _ _ Hlab). by apply Hlocks.
  - by apply (lb_below _ _ _ _ _ Hlab (2^32 - 1)).
Qed.

Lemma default_list_info rs : default [] (list_info rs) = rs.
Proof. by destruct rs. Qed.

Lemma unlink_same_run z t k rn rs lock same :
  relisted t k rn rs lock (z_table z) → (is_Some same → 1 < lock) →
  ∃ t', unlink_same rn same z = Ok (tt, set_z_table t' z) ∧
    relisted t k rn (without same rs) (match same with Some _ => lock - 1 | None => lock end) t'.
Proof.
  intros Hre Hlk. destruct same as [s|]; cbn [unlink_same without].
  2:{ exists (z_table z). by rewrite set_z_table_same. }
  specialize (Hlk ltac:(by eexists)).
  destruct (relisted_relabel z t k rn rs lock (remove_rib s rs) (λ n, list_info (remove_rib s (default [] (n_info n)))) Hre)
    as (t1 & Hrun1 & Hre1); [lia|intros n ->; by rewrite default_list_info|].
  unfold rib_delnode. rewrite (st_bind_Ok _ _ _ _ _ Hrun1).
  destruct (relisted_unlock (set_z_table t1 z) t k rn (remove_rib s rs) lock Hre1 Hlk) as (t2 & Hrun2 & Hre2).
  by exists t2.
Qed.

Lemma addnode_run z t k rn rs lock r :
  relisted t k rn rs lock (z_table z) → 0 < lock →
  ∃ t', rib_addnode rn r z = Ok (tt, set_z_table t' z) ∧ relisted t k rn (r :: rs) lock t'.
Proof.
  intros Hre Hlk. unfold rib_addnode.
  apply (relisted_relabel z t k rn rs lock (r :: rs) (λ n, Some (r :: default [] (n_info n)))); [done|done|].
  intros n ->. by rewrite default_list_info.
Qed.

(** * rib_add_ipv4 *)

Lemma sel_lookup z r x : z_ribs z !! r = Some x → sel z r = rib_selected x.
Proof. intros Hx. unfold holds. by rewrite Hx. Qed.

Lemma fresh_not_in z r : zinv z → is_Some (z_ribs z !! r) → r ≠ z_fresh z.
Proof. intros Hz [x Hx] ->. destruct (zi_rib z Hz _ x Hx). lia. Qed.

Lemma routes_in z rn r : zinv z → r ∈ routes (z_table z) rn → is_Some (z_ribs z !! r).
Proof. intros Hz (rs & Hi & Hr & _)%routes_info. by eapply zi_in. Qed.

(** A new route [x], instead of [same]. *)
Lemma add_relinked z k rn same x lock t' z' :
  zinv z → (∀ s, same = Some s → s ∈ routes (z_table z) rn) → rib_good x → rib_selected x = false → r_refcnt x = 0 →
  relisted (z_table z) k rn (z_fresh z :: without same (routes (z_table z) rn)) lock t' →
  1 + weight (z_ribs z) (without same (routes (z_table z) rn)) ≤ lock →
  z_table z' = t' → z_ribs z' = <[z_fresh z := x]> (z_ribs z) → z_fresh z' = S (z_fresh z) →
  relinked z rn (z_fresh z :: without same (routes (z_table z) rn)) same z'.
Proof.
  intros Hz Hsame Hg Hs0 Hr0 Hre Hlk Ht Hribs Hfr. rewrite <- Ht in Hre.
  set (rs := routes (z_table z) rn) in *. pose proof (routes_nodup z rn Hz) as Hnd. fold rs in Hnd.
  assert (Hfresh : ∀ r, r ∈ rs → r ≠ z_fresh z) by (intros r Hr; by eapply fresh_not_in, routes_in).
  assert (Hold : ∀ r, r ∈ rs → ∃ y, z_ribs z !! r = Some y ∧ z_ribs z' !! r = Some y).
  { intros r Hr. destruct (routes_in z rn r Hz Hr) as [y Hy]. exists y. rewrite Hribs, lookup_insert_ne; [done|].
    intros E. by apply (Hfresh r). }
  assert (Hin : ∀ r, r ∈ (z_fresh z :: without same rs) ++ option_list same → r = z_fresh z ∨ r ∈ rs).
  { intros r [Hr|Hr]%elem_of_app; [|right; by apply Hsame, option_list_elem].
    apply elem_of_cons in Hr as [->|Hr]; [by left|]. right. by apply (without_elem same rs r Hnd). }
  destruct (re_node _ _ _ _ _ _ Hre) as (n & Hn & _ & Hnl & Hni).
  split; try apply Hre.
  - unfold info_at. by rewrite Hn.
  - unfold lock_at. rewrite Hn, Hnl, weight_cons, (weight_ext (z_ribs z)).
    { rewrite Hribs, lookup_insert_eq, Hr0. lia. }
    intros r Hr. apply without_elem in Hr as [Hr _]; [|done]. by destruct (Hold r Hr) as (y & -> & ->).
  - lia.
  - constructor; [|by apply without_nodup]. rewrite without_elem by done. intros [Hf _]. by apply (Hfresh _ Hf).
  - intros r H1 H2. rewrite Hribs, lookup_insert_ne; [done|]. intros <-. apply H2. by left.
  - intros r [->|Hr]%Hin.
    + exists x. rewrite Hribs, lookup_insert_eq. split_and!; [done|lia|done|lia].
    + destruct (Hold r Hr) as (y & Hy & Hy'). exists y. destruct (zi_rib z Hz r y Hy) as (? & ? & ?).
      split_and!; [done|lia|done|done].
  - intros r. rewrite option_list_elem, not_elem_of_cons, without_elem by done. split.
    + intros (Hr & _ & Hn'). destruct (decide (same = Some r)); [done|]. by destruct Hn'.
    + intros Hs. pose proof (Hsame r Hs) as Hr. split; [done|]. split; [by apply Hfresh|naive_solver].
  - intros r [->|Hr]%elem_of_cons Hnr; [|by apply without_elem in Hr as [? _]].
    apply eq_None_not_Some. intros Hsome. by apply (fresh_not_in z _ Hz Hsome).
  - assert (Hnew : sel z' (z_fresh z) = false) by (rewrite (sel_lookup _ _ x); [done|by rewrite Hribs, lookup_insert_eq]).
    intros r q [->|Hr]%Hin [->|Hq]%Hin; try congruence. destruct (Hold r Hr) as (y & Hy & Hy'), (Hold q Hq) as (w & Hw & Hw').
    rewrite (sel_lookup _ _ _ Hy'), (sel_lookup _ _ _ Hw'), <- (sel_lookup _ _ _ Hy), <- (sel_lookup _ _ _ Hw).
    apply routes_info in Hr as (rs0 & Hi & Hr & Hrs). fold rs in Hrs. rewrite Hrs in Hq. by apply (zi_one z Hz rn rs0).
Qed.

Lemma weight_nonneg z rs : zinv z → 0 ≤ weight (z_ribs z) rs.
Proof.
  intros Hz. induction rs as [|r rs IH]; [done|]. rewrite weight_cons.
  destruct (z_ribs z !! r) as [x|] eqn:E; [|lia]. destruct (zi_rib z Hz r x E) as (_ & _ & ?). lia.
Qed.

(** Routes hold locks on their node. *)
Lemma route_locks z rn r x :
  zinv z → r ∈ routes (z_table z) rn → z_ribs z !! r = Some x → 1 + r_refcnt x ≤ lock_at (z_table z) rn.
Proof.
  intros Hz Hr Hx. pose proof (routes_weight z rn Hz). pose proof (remove_rib_weight _ _ _ _ Hr Hx).
  pose proof (weight_nonneg z (remove_rib r (routes (z_table z) rn)) Hz). lia.
Qed.

Lemma without_weight z rn same :
  zinv z → (∀ s, same = Some s → s ∈ routes (z_table z) rn) →
  1 + weight (z_ribs z) (without same (routes (z_table z) rn)) ≤
    match same with Some _ => lock_at (z_table z) rn | None => lock_at (z_table z) rn + 1 end.
Proof.
  intros Hz Hs. pose proof (routes_weight z rn Hz). destruct same as [s|]; cbn [without]; [|lia].
  pose proof (Hs s eq_refl) as Hr. destruct (routes_in z rn s Hz Hr) as [x Hx].
  pose proof (remove_rib_weight _ _ _ _ Hr Hx). destruct (zi_rib z Hz s x Hx) as (_ & _ & ?). lia.
Qed.

(** The only routes of the type are connected ones of other interfaces. *)
Definition no_such z type ifindex (rs : list nat) : Prop :=
  ∀ r x, r ∈ rs → z_ribs z !! r = Some x → r_type x = type → connected x = true ∧ connected_to x ifindex = false.

(** A connected route of the same interface, which is counted and not repeated, or
    the route of the same type that is replaced, if there is one: then there is no
    connected route of the same interface to be counted ([replaced_not_repeated]). *)
Definition repeated z type ifindex (rs : list nat) (r : nat) : Prop :=
  r ∈ rs ∧ ∃ x, z_ribs z !! r = Some x ∧ r_type x = type ∧ connected x = true ∧ connected_to x ifindex = true.
Definition replaced z type ifindex (rs : list nat) (same : option nat) : Prop :=
  match same with
  | Some s => s ∈ rs ∧ ∃ x, z_ribs z !! s = Some x ∧ r_type x = type ∧ connected x = false
  | None => no_such z type ifindex rs
  end.

Lemma replaced_not_repeated z type ifindex rs same :
  replaced z type ifindex rs same → ∀ r, ¬ repeated z type ifindex rs r.
Proof.
  intros Hrep r (Hr & x & Hx & Ht & Hc & Hto). destruct same as [s|]; cbn in Hrep.
  - destruct Hrep as (_ & y & _ & Hty & Hcy). unfold connected in Hc, Hcy. rewrite Hty in Hcy. rewrite Ht in Hc. congruence.
  - destruct (Hrep r x Hr Hx Ht). congruence.
Qed.

Lemma same_loop_run z type ifindex rs :
  (∀ r, r ∈ rs → is_Some (z_ribs z !! r)) →
  ∃ w, same_loop type ifindex rs z = Ok (w, z) ∧
    match w with
    | inl r => repeated z type ifindex rs r
    | inr same => replaced z type ifindex rs same
    end.
Proof.
  induction rs as [|r rs IH]; intros Hin; cbn [same_loop].
  { exists (inr None). split; [done|]. by intros ? ? ?%not_elem_of_nil. }
  destruct (Hin r ltac:(by left)) as [x Hx]. rewrite (st_bind_Ok _ _ _ _ _ (rib_read_in _ _ _ Hx)).
  assert (Hgo : (r_type x = type → connected x = true ∧ connected_to x ifindex = false) → ∃ w, same_loop type ifindex rs z = Ok (w, z) ∧
    match w with inl q => repeated z type ifindex (r :: rs) q | inr same => replaced z type ifindex (r :: rs) same end).
  { intros Hx'. destruct IH as (w & Hrun & Hw); [intros; apply Hin; by right|]. exists w. split; [done|].
    destruct w as [q|[s|]].
    - destruct Hw as [? ?]. split; [by right|done].
    - destruct Hw as [? ?]. split; [by right|done].
    - intros q y [->|Hq]%elem_of_cons Hy Hty; [|by eapply Hw]. assert (y = x) as -> by congruence. auto. }
  fold (connected x). destruct (connected x) eqn:Ec.
  - destruct ((r_type x =? type) && connected_to x ifindex) eqn:E; [|apply Hgo; intros Ht; split; [done|by rewrite Ht, Z.eqb_refl in E]].
    apply andb_true_iff in E as [Ht Hto]. apply Z.eqb_eq in Ht.
    exists (inl r). split; [done|]. split; [by left|]. by exists x.
  - destruct (Z.eqb_spec (r_type x) type) as [Ht|Ht]; [|by apply Hgo].
    exists (inr (Some r)). split; [done|]. split; [by left|]. by exists x.
Qed.

(** The route rib_add_ipv4 makes. *)
Definition fresh_route (type distance flags metric : Z) (gate : option (list Z)) (ifindex : Z) : rib :=
  set_all_fib (match gate with
               | Some g => if ifindex =? 0 then nexthop_ipv4_add g else nexthop_ipv4_ifindex_add g ifindex
               | None => nexthop_ifindex_add ifindex
               end (Rib type 0 distance (u8 flags) metric 0 0 0 [])).

(** What a caller of rib_add_ipv4 passes. *)
Record add_args (type flags : Z) (gate : option (list Z)) (distance d : Z) : Prop := AddArgs {
  aa_gate : ∀ g, gate = Some g → ipv4_ok g;
  aa_flags : CHECK_FLAG (u8 flags) ZEBRA_FLAG_SELECTED = false;
  aa_distance : default_distance type flags distance = Ok d;
  aa_range : is_u8 distance;
  aa_connected : type = ZEBRA_ROUTE_CONNECT → distance = 0;
}.

Lemma default_distance_range type flags distance d :
  default_distance type flags distance = Ok d → is_u8 distance → 0 ≤ d ∧ (type = ZEBRA_ROUTE_CONNECT → distance = 0 → d = 0).
Proof.
  unfold default_distance. intros Hd Hu. destruct (Z.eqb_spec distance 0) as [->|Hne].
  2:{ injection Hd as <-. unfold is_u8 in Hu. split; [lia|done]. }
  apply res_bind_Ok in Hd as (v & Hv & [= <-]).
  assert (Hall : 0 ≤ v).
  { unfold arr_get in Hv. destruct (type <? 0); [done|]. destruct (route_info !! Z.to_nat type) as [w|] eqn:E; [|done].
    injection Hv as <-. assert (Hf : Forall (λ v, 0 ≤ v) route_info) by (by repeat constructor).
    rewrite Forall_lookup in Hf. by eapply Hf. }
  split; [by destruct (_ && _)|]. intros -> _. cbn in Hv |- *. by injection Hv as <-.
Qed.

Lemma fresh_route_ok type flags metric gate ifindex distance d :
  add_args type flags gate distance d →
  let x := fresh_route type d flags metric gate ifindex in
  rib_good x ∧ rib_selected x = false ∧ r_refcnt x = 0.
Proof.
  intros [Hg Hfl Hd Hu Hc]. destruct (default_distance_range _ _ _ _ Hd Hu) as [H0 Hcon]. cbv zeta. unfold fresh_route.
  assert (Hok : ∀ nh, nh_ok nh → rib_good (set_all_fib (nexthop_add nh (Rib type 0 d (u8 flags) metric 0 0 0 []))) ∧
    rib_selected (set_all_fib (nexthop_add nh (Rib type 0 d (u8 flags) metric 0 0 0 []))) = false ∧
    r_refcnt (set_all_fib (nexthop_add nh (Rib type 0 d (u8 flags) metric 0 0 0 []))) = 0).
  { intros nh Hnh. unfold set_all_fib, nexthop_add. cbn.
    destruct ((type =? ZEBRA_ROUTE_KERNEL) || (type =? ZEBRA_ROUTE_CONNECT)); cbn; (split; [|done]); split; cbn; try done.
    all: try (apply Forall_singleton; exact Hnh). all: try lia.
    all: intros E; apply Z.eqb_eq in E; cbn in E; auto. }
  assert (Hzero : ipv4_ok (replicate 4 0)) by (split; [by apply bytes_ok_decide|done]).
  destruct gate as [g|]; [destruct (ifindex =? 0)|]; apply Hok; (split; cbn; [auto|set_solver]).
Qed.

Lemma got_routes z p rn n t' : got (z_table z) p rn n t' → routes (z_table z) rn = default [] (abs (z_table z) !! pbits p).
Proof.
  intros Hg. unfold routes. rewrite <- (gt_infos _ _ _ _ _ Hg). unfold info_at. rewrite (gt_node _ _ _ _ _ Hg).
  cbn. by rewrite (gt_info _ _ _ _ _ Hg).
Qed.

Lemma zinv_nil z id : zinv z → info (z_table z) id ≠ Some [].
Proof. intros Hz Hi. by destruct (zi_list z Hz id [] Hi) as (? & _). Qed.

Lemma node_ribs_got t p rn n t' z : got t p rn n t' → z_table z = t' → node_ribs rn z = Ok (routes t rn, z).
Proof.
  intros Hg Ht. rewrite (node_ribs_run z rn n) by (rewrite Ht; apply Hg). unfold routes. do 3 f_equal.
  rewrite <- (gt_infos _ _ _ _ _ Hg). unfold info_at. by rewrite (gt_node _ _ _ _ _ Hg).
Qed.

(** A connected route is counted once more, or once less. *)
Lemma refcnt_changes z k rn r x c lock t' z' :
  zinv z → relisted (z_table z) k rn (routes (z_table z) rn) lock t' → r ∈ routes (z_table z) rn →
  z_ribs z !! r = Some x → 0 ≤ c → weight (z_ribs z) (routes (z_table z) rn) + c - r_refcnt x ≤ lock →
  z_table z' = t' → z_ribs z' = <[r := set_r_refcnt c x]> (z_ribs z) → z_fresh z' = z_fresh z →
  changes z rn (routes (z_table z) rn) z'.
Proof.
  intros Hz Hre Hr Hx Hc Hw Ht Hribs Hfr. rewrite <- Ht in Hre. set (rs := routes (z_table z) rn) in *.
  pose proof (routes_nodup z rn Hz) as Hnd. fold rs in Hnd. destruct (re_node _ _ _ _ _ _ Hre) as (n & Hn & _ & Hnl & Hni).
  assert (Hsel : ∀ q, sel z' q = sel z q).
  { intros q. unfold holds. rewrite Hribs, lookup_insert. case_decide; [|done]. subst. by rewrite Hx. }
  split; try apply Hre.
  - unfold info_at. by rewrite Hn.
  - intros _. unfold lock_at. rewrite Hn, Hnl. rewrite (remove_rib_weight _ r (set_r_refcnt c x)) by (done || by rewrite Hribs, lookup_insert_eq).
    rewrite (remove_rib_weight _ _ _ _ Hr Hx) in Hw. rewrite (weight_ext (z_ribs z)); [cbn; lia|].
    intros q Hq. apply remove_rib_elem in Hq as [_ Hne]; [|done]. by rewrite Hribs, lookup_insert_ne.
  - lia.
  - done.
  - intros q Hq _. rewrite Hribs, lookup_insert_ne; [done|]. intros E. by subst q.
  - intros q Hq. destruct (routes_in z rn q Hz Hq) as [y Hy]. destruct (zi_rib z Hz q y Hy) as (? & Hg & ?).
    rewrite Hribs, Hfr. destruct (decide (r = q)) as [<-|Hne].
    + rewrite lookup_insert_eq. eexists. split; [done|]. assert (y = x) as -> by congruence. by destruct Hg.
    + rewrite lookup_insert_ne by done. by exists y.
  - done.
  - done.
  - intros q w Hq Hw'. rewrite !Hsel. apply routes_info in Hq as (rs0 & Hi & Hq & Hrs). fold rs in Hrs. rewrite Hrs in Hw'.
    by apply (zi_one z Hz rn rs0).
Qed.

(** ** Unlocking at the end *)

(** The node [rn] has the routes [rs'], the best of which is selected. *)
Record finished z rn (rs' : list nat) z' : Prop := Finished {
  fi_changes : changes z rn rs' z';
  fi_settled : settled z' rn rs';
  fi_room : locks_room (z_table z');
}.

Lemma changes_table z rn rs' z' : zinv z → changes z rn rs' z' → locks_room (z_table z') → rib_table z'.
Proof. intros Hz Hc Hr. split; [apply Hc|done|]. apply zi_in. by eapply zinv_changes. Qed.

Lemma weight_pos z rs : zinv z → (∀ r, r ∈ rs → is_Some (z_ribs z !! r)) → weight (z_ribs z) rs ≤ 0 → rs = [].
Proof.
  intros Hz Hin Hw. destruct rs as [|r rs]; [done|]. rewrite weight_cons in Hw. destruct (Hin r ltac:(by left)) as [x Hx].
  rewrite Hx in Hw. destruct (zi_rib z Hz r x Hx) as (_ & _ & ?). pose proof (weight_nonneg z rs Hz). lia.
Qed.

Lemma finished_unlock z rn rs' z1 n :
  zinv z → finished z rn rs' z1 → heap (z_table z1) !! rn = Some n → 0 < n_lock n → weight (z_ribs z1) rs' + 1 ≤ n_lock n →
  ∃ t', tbl (route_unlock_node rn) z1 = Ok (tt, set_z_table t' z1) ∧ finished z rn rs' (set_z_table t' z1) ∧
    abs t' = abs (z_table z1) ∧ (1 < n_lock n → ∃ n', heap t' !! rn = Some n' ∧ n_lock n' = n_lock n - 1).
Proof.
  intros Hz [Hc Hs Hroom] Hn Hpos Hw. pose proof (zinv_changes _ _ _ _ Hz Hc) as Hz1.
  destruct (node_unlock_run (z_table z1) rn n (zi_table z1 Hz1) Hn Hpos) as (t' & Hrun & Hu).
  { intros H1. assert (Hnil : rs' = []).
    { apply (weight_pos z1); [done| |lia]. intros r Hr. destruct (ch_new _ _ _ _ Hc r Hr) as (x & -> & _). by eexists. }
    pose proof (ch_info _ _ _ _ Hc) as Hi. unfold info_at in Hi. rewrite Hn, Hnil in Hi. done. }
  exists t'. split; [by apply tbl_run|].
  assert (Hroom' : locks_room t') by (by apply (ul_below _ _ _ _ Hu (2^32 - 1))).
  assert (Hc' : changes z rn rs' (set_z_table t' z1)).
  { destruct Hc. split; cbn [z_table set_z_table z_ribs z_fresh]; try done.
    - apply Hu.
    - intros i Hne. rewrite (ul_infos _ _ _ _ Hu). auto.
    - intros i Hne Hi. rewrite (ul_locks _ _ _ _ Hu); [auto|done|by rewrite ch_infos0].
    - by rewrite (ul_infos _ _ _ _ Hu).
    - intros Hnil. assert (1 < n_lock n).
      { assert (weight (z_ribs z1) rs' ≤ 0 → False); [|lia]. intros Hle. apply Hnil, (weight_pos z1); [done| |done].
        intros r Hr. destruct (ch_new0 r Hr) as (x & -> & _). by eexists. }
      destruct (ul_lock _ _ _ _ Hu) as (n' & Hn' & _ & Hl' & _); [done|]. unfold lock_at. rewrite Hn'. lia. }
  split; [|split; [apply Hu|intros Hgt; destruct (ul_lock _ _ _ _ Hu Hgt) as (n' & ? & _ & ? & _); by exists n']].
  split; [done| |done]. apply settled_same_routes; [by apply (changes_table z rn rs')|by apply (changes_table z rn rs')| | |done].
  - split; apply Hu.
  - intros r x Hr Hx. destruct (ch_new _ _ _ _ Hc r Hr) as (x' & Hx' & _ & Hg & _). congruence.
Qed.

(** The relinked state stays one when zebra finds out more about the routes. *)
Lemma relinked_frame z rn rs' del own z1 z2 :
  relinked z rn rs' del z1 → frame own z1 z2 → own ⊆ rs' → (∀ r, sel z2 r = true → sel z1 r = true) →
  (∀ r, r ∈ own → r ∈ routes (z_table z) rn) → relinked z rn rs' del z2.
Proof.
  intros Hr Hf Hsub Hsel Hown.
  split; rewrite ?(fr_table _ _ _ Hf), ?(fr_fresh _ _ _ Hf); try apply Hr.
  - rewrite (weight_ext (z_ribs z1)); [apply Hr|]. intros r Hin.
    destruct (rl_new _ _ _ _ _ Hr r) as (x & Hx & _); [apply elem_of_app; by left|].
    destruct (fr_core _ _ _ Hf r x Hx) as (y & Hy & Hc). rewrite Hx, Hy. cbn. f_equal. apply Hc.
  - intros r H1 H2. rewrite (fr_else _ _ _ Hf); [by apply Hr|]. auto.
  - intros r Hin. destruct (rl_new _ _ _ _ _ Hr r Hin) as (x & Hx & ? & Hg & ?).
    destruct (fr_core _ _ _ Hf r x Hx) as (y & Hy & Hc). exists y.
    split_and!; [done|done|by eapply rib_core_good|by rewrite (rc_refcnt _ _ Hc)].
  - intros r q Hr1 Hq1 Hs1 Hs2. eapply (rl_one _ _ _ _ _ Hr); auto.
Qed.

(** The routes of a node without [del]. *)
Lemma del_relinked z k rn del lock t' :
  zinv z → (∀ s, del = Some s → s ∈ routes (z_table z) rn) →
  relisted (z_table z) k rn (without del (routes (z_table z) rn)) lock t' →
  weight (z_ribs z) (without del (routes (z_table z) rn)) ≤ lock →
  relinked z rn (without del (routes (z_table z) rn)) del (set_z_table t' z).
Proof.
  intros Hz Hdel Hre Hlk. set (rs := routes (z_table z) rn) in *. pose proof (routes_nodup z rn Hz) as Hnd. fold rs in Hnd.
  assert (Hin : ∀ r, r ∈ without del rs ++ option_list del → r ∈ rs).
  { intros r [Hr|Hr]%elem_of_app; [by apply without_elem in Hr as [? _]|by apply Hdel, option_list_elem]. }
  destruct (re_node _ _ _ _ _ _ Hre) as (n & Hn & _ & Hnl & Hni).
  split; try apply Hre; cbn [z_table set_z_table z_ribs z_fresh]; try done.
  - unfold info_at. by rewrite Hn.
  - unfold lock_at. by rewrite Hn, Hnl.
  - by apply without_nodup.
  - intros r Hr%Hin. destruct (routes_in z rn r Hz Hr) as [x Hx]. exists x. split; [done|]. by apply (zi_rib z Hz).
  - intros r. rewrite option_list_elem, without_elem by done. fold rs. split.
    + intros [Hr Hn']. destruct (decide (del = Some r)); [done|]. by destruct Hn'.
    + intros ->. split; [by apply Hdel|naive_solver].
  - intros r Hr Hnr. destruct Hnr. by apply without_elem in Hr as [? _].
  - intros r q Hr%Hin Hq%Hin. apply routes_info in Hr as (rs0 & Hi & Hr & Hrs). fold rs in Hrs. rewrite Hrs in Hq.
    by apply (zi_one z Hz rn rs0).
Qed.

(** ** The node of a prefix *)

Lemma delete_node_run z p :
  zinv z → locks_below (2^32 - 2) (z_table z) → ipv4_prefix p →
  ∃ q, apply_mask_ipv4 p = Ok q ∧
    ((abs (z_table z) !! pbits p = None ∧ tbl (route_node_lookup q) z = Ok (None, z)) ∨
     (∃ rn t1, tbl (route_node_lookup q) z = Ok (Some rn, set_z_table t1 z) ∧
        node_ribs rn (set_z_table t1 z) = Ok (routes (z_table z) rn, set_z_table t1 z) ∧
        tbl (route_unlock_node rn) (set_z_table t1 z) = Ok (tt, z) ∧
        routes (z_table z) rn = default [] (abs (z_table z) !! pbits p) ∧ abs t1 = abs (z_table z) ∧
        routes (z_table z) rn ≠ [] ∧
        relisted (z_table z) (pbits p) rn (routes (z_table z) rn) (lock_at (z_table z) rn + 1) t1)).
Proof.
  intros Hz Hlk Hp. destruct (apply_mask_ipv4_run p Hp) as (q & Hq & _ & _ & Hkey & Hbits). exists q. split; [done|].
  assert (Hroom : locks_room (z_table z)) by (intros i n Hn; specialize (Hlk i n Hn); lia).
  destruct (route_node_lookup_post (z_table z) q (zi_table z Hz) Hkey Hroom) as (r & t1 & Hrun & _ & _ & -> & Hcase).
  destruct r as [rn|]; [right|left].
  - destruct Hcase as (n & Hn & Hk & Hi & Ha).
    pose proof (hold_got _ q rn n (zi_table z Hz) Hroom Hn Hk Ha) as Hg. exists rn, (hold rn (z_table z)).
    pose proof (got_relisted _ _ _ _ _ Hlk Hg (zinv_nil z rn Hz)) as Hre. rewrite Hbits in Hre.
    pose proof (got_routes _ _ _ _ _ Hg) as Hrs. rewrite Hbits in Hrs.
    split_and!; [by apply tbl_run|by eapply node_ribs_got| |done|apply Hg| |done].
    + destruct (zi_table z Hz) as [[x Hrep] Hlocks]. rewrite (tbl_run _ _ tt (z_table z)).
      * by rewrite set_z_table_twice, set_z_table_same.
      * eapply unlock_hold; [exact Hrep|done|exact Hn|by eapply Hroom].
    + rewrite Hrs, <- Hbits, Ha. destruct Hi as [rs Hi]. rewrite Hi. cbn. intros ->. apply (zinv_nil z rn Hz).
      unfold info_at. by rewrite Hn.
  - rewrite <- Hbits. split; [done|]. rewrite (tbl_run _ _ _ _ Hrun). cbn [hold_opt]. by rewrite set_z_table_same.
Qed.

Section Operations.
Context (MULTIPATH_NUM : Z) (netlink_talk : list action → action → Z).

(** The new route [x] comes first in the list of its prefix, the route [same] is taken
    out and freed, no other prefix and no other route changes, and the best route of
    the prefix is selected. *)
Record inserted z k (rs : list nat) (same : option nat) x z' : Prop := Inserted {
  in_inv : zinv z';
  in_abs : abs (z_table z') = <[k := z_fresh z :: without same rs]> (abs (z_table z));
  in_new : ∃ y, z_ribs z' !! z_fresh z = Some y ∧ rib_core x y;
  in_else : ∀ r, r ∉ rs → r ≠ z_fresh z → z_ribs z' !! r = z_ribs z !! r;
  in_settled : ∃ rn, info (z_table z') rn = Some (z_fresh z :: without same rs) ∧ settled z' rn (z_fresh z :: without same rs);
}.

Lemma insert_route_run z k rn x same t1 :
  zinv z → relisted (z_table z) k rn (routes (z_table z) rn) (lock_at (z_table z) rn + 1) t1 →
  (∀ s, same = Some s → s ∈ routes (z_table z) rn) →
  rib_good x → rib_selected x = false → r_refcnt x = 0 →
  ∃ z', (unlink_same rn same;;
         r ← rib_alloc x;
         rib_addnode rn r;;
         rib_process MULTIPATH_NUM netlink_talk rn same;;
         free_same same) (set_z_table t1 z) = Ok (tt, z') ∧
    inserted z k (routes (z_table z) rn) same x z'.
Proof.
  intros Hz Hre Hsame Hg0 Hs0 Hr0.
  destruct (unlink_same_run (set_z_table t1 z) _ _ _ _ _ same Hre) as (t2 & Hrun2 & Hre2).
  { intros [s ->]. destruct (routes_in z rn s Hz (Hsame s eq_refl)) as [y Hy].
    pose proof (route_locks z rn s y Hz (Hsame s eq_refl) Hy). destruct (zi_rib z Hz s y Hy) as (_ & _ & ?). lia. }
  rewrite (st_bind_Ok _ _ _ _ _ Hrun2). rewrite (st_bind_Ok _ _ _ (z_fresh z) _) by reflexivity.
  set (z3 := set_z_fresh _ _).
  pose proof (without_weight z rn same Hz Hsame) as Hwt. pose proof (weight_nonneg z (without same (routes (z_table z) rn)) Hz).
  destruct (addnode_run z3 _ _ rn _ _ (z_fresh z) Hre2) as (t4 & Hrun4 & Hre4); [destruct same; lia|].
  rewrite (st_bind_Ok _ _ _ _ _ Hrun4).
  assert (Hl : relinked z rn (z_fresh z :: without same (routes (z_table z) rn)) same (set_z_table t4 z3)).
  { eapply (add_relinked z _ rn same x _ t4); try done. destruct same; lia. }
  destruct (relinked_process MULTIPATH_NUM netlink_talk z rn _ same (set_z_table t4 z3) Hz Hl) as (z5 & z6 & Hrun5 & Hrun6 & Hset).
  { destruct (re_node _ _ _ _ _ _ Hre4) as (n4 & Hn4 & _). by exists n4. }
  rewrite (st_bind_Ok _ _ _ _ _ Hrun5).
  exists z6. split; [done|]. pose proof (rs_changes _ _ _ _ _ Hset) as Hch. split.
  - by eapply zinv_changes.
  - rewrite (rs_table _ _ _ _ _ Hset). cbn [z_table set_z_table]. by rewrite (re_abs _ _ _ _ _ _ Hre4).
  - apply (rs_core _ _ _ _ _ Hset); [by left|]. subst z3. cbn. by rewrite lookup_insert_eq.
  - intros r Hr1 Hr2. apply Hch; [done|]. rewrite not_elem_of_cons, without_elem by (by apply routes_nodup). naive_solver.
  - exists rn. rewrite (ch_info _ _ _ _ Hch). split; [done|apply Hset].
Qed.

(** The node of a prefix, locked. *)
Lemma add_node_run z p :
  zinv z → locks_below (2^32 - 2) (z_table z) → ipv4_prefix p →
  ∃ q rn t1, apply_mask_ipv4 p = Ok q ∧ tbl (route_node_get q) z = Ok (rn, set_z_table t1 z) ∧
    node_ribs rn (set_z_table t1 z) = Ok (routes (z_table z) rn, set_z_table t1 z) ∧
    routes (z_table z) rn = default [] (abs (z_table z) !! pbits p) ∧ abs t1 = abs (z_table z) ∧
    relisted (z_table z) (pbits p) rn (routes (z_table z) rn) (lock_at (z_table z) rn + 1) t1.
Proof.
  intros Hz Hlk Hp. destruct (apply_mask_ipv4_run p Hp) as (q & Hq & Haf & H16 & _ & Hbits).
  assert (Hroom : locks_room (z_table z)) by (intros i n Hn; specialize (Hlk i n Hn); lia).
  destruct (node_get_run (z_table z) q (zi_table z Hz) Haf H16 Hroom) as (rn & n & t1 & Hget & Hg).
  pose proof (got_relisted _ _ _ _ _ Hlk Hg (zinv_nil z rn Hz)) as Hre. rewrite Hbits in Hre.
  exists q, rn, t1. split_and!; [done|by apply tbl_run|by eapply node_ribs_got| |apply Hg|done].
  rewrite <- Hbits. by eapply got_routes.
Qed.

Lemma refcnt_u64 z rn r x :
  zinv z → locks_below (2^32 - 2) (z_table z) → r ∈ routes (z_table z) rn → z_ribs z !! r = Some x → 0 ≤ r_refcnt x < 2^32.
Proof.
  intros Hz Hlk Hr Hx. pose proof (route_locks z rn r x Hz Hr Hx). destruct (zi_rib z Hz r x Hx) as (_ & _ & ?).
  apply routes_info in Hr as (rs0 & Hi & _). destruct (info_in _ _ _ Hi) as (m & Hm & _).
  pose proof (Hlk rn m Hm). unfold lock_at in *. rewrite Hm in *. lia.
Qed.

Lemma rib_add_ipv4_run z type flags p gate ifindex metric distance d :
  zinv z → locks_below (2^32 - 2) (z_table z) → ipv4_prefix p → add_args type flags gate distance d →
  let rs := default [] (abs (z_table z) !! pbits p) in
  ∃ z', rib_add_ipv4 MULTIPATH_NUM netlink_talk type flags p gate ifindex metric distance z = Ok (tt, z') ∧
    ((∃ r x, repeated z type ifindex rs r ∧ z_ribs z !! r = Some x ∧ zinv z' ∧ abs (z_table z') = abs (z_table z) ∧
        z_ribs z' = <[r := set_r_refcnt (r_refcnt x + 1) x]> (z_ribs z)) ∨
     (∃ same, replaced z type ifindex rs same ∧ (∀ r, ¬ repeated z type ifindex rs r) ∧
        inserted z (pbits p) rs same (fresh_route type d flags metric gate ifindex) z')).
Proof.
  intros Hz Hlk Hp Hargs rs. destruct (add_node_run z p Hz Hlk Hp) as (q & rn & t1 & Hq & Hget & Hribs & Hrs & Habs & Hre).
  fold rs in Hrs. unfold rib_add_ipv4. rewrite (st_bind_Ok _ _ _ q z) by (unfold st_lift; by rewrite Hq).
  rewrite (st_bind_Ok _ _ _ d z) by (unfold st_lift; by rewrite (aa_distance _ _ _ _ _ Hargs)).
  rewrite (st_bind_Ok _ _ _ _ _ Hget), (st_bind_Ok _ _ _ _ _ Hribs).
  destruct (same_loop_run (set_z_table t1 z) type ifindex (routes (z_table z) rn)) as (w & Hrun & Hw).
  { intros r Hr. by apply (routes_in z rn). }
  rewrite (st_bind_Ok _ _ _ _ _ Hrun). destruct w as [r|same].
  - destruct (Hw) as (Hr & x & Hx & Hty & Hcon & Hto). cbn in Hx. pose proof (refcnt_u64 z rn r x Hz Hlk Hr Hx) as H64.
    assert (Hu : u64 (r_refcnt x + 1) = r_refcnt x + 1) by (apply u64_id; unfold is_u64; lia).
    eexists. split; [erewrite upd_run by exact Hx; by rewrite Hu|]. left. exists r, x. rewrite <- Hrs.
    split; [by split; [done|exists x]|]. split; [done|]. split; [|done].
    eapply zinv_changes; [done|]. eapply (refcnt_changes z _ rn r x (r_refcnt x + 1) _ t1); try done; [lia|].
    pose proof (routes_weight z rn Hz). lia.
  - destruct (fresh_route_ok type flags metric gate ifindex distance d Hargs) as (Hg0 & Hs0 & Hr0).
    destruct (insert_route_run z _ rn (fresh_route type d flags metric gate ifindex) same t1 Hz Hre)
      as (z' & Hrun' & Hins); [intros s ->; apply Hw|done..|].
    exists z'. split; [|right; exists same; rewrite <- Hrs; split; [exact Hw|split; [exact (replaced_not_repeated _ _ _ _ _ Hw)|done]]]. rewrite <- Hrun'. unfold fresh_route.
    by destruct gate; [destruct (ifindex =? 0)|].
Qed.

(** C14: rib_add_ipv4 keeps the invariant of the routing information base and never
    faults.  Exactly when the interface has a connected route for the prefix already, the
    route is counted and nothing is inserted; otherwise the new route comes first in the list of its prefix, a route of the same type
    that is not connected is taken out and freed, no other prefix and no other route
    changes, and the best route of the prefix is selected. *)
Theorem rib_add_ipv4_adds z type flags p gate ifindex metric distance d :
  zinv z → locks_below (2^32 - 2) (z_table z) → ipv4_prefix p → add_args type flags gate distance d →
  let rs := default [] (abs (z_table z) !! pbits p) in
  ∃ z', rib_add_ipv4 MULTIPATH_NUM netlink_talk type flags p gate ifindex metric distance z = Ok (tt, z') ∧
    ((∃ r x, repeated z type ifindex rs r ∧ z_ribs z !! r = Some x ∧ zinv z' ∧ abs (z_table z') = abs (z_table z) ∧
        z_ribs z' = <[r := set_r_refcnt (r_refcnt x + 1) x]> (z_ribs z)) ∨
     (∃ same, replaced z type ifindex rs same ∧ (∀ r, ¬ repeated z type ifindex rs r) ∧
        inserted z (pbits p) rs same (fresh_route type d flags metric gate ifindex) z')).
Proof. apply rib_add_ipv4_run. Qed.

(** ** rib_delete_ipv4 *)

(** The route a deletion is for: one of the type, if it is connected the one of the
    interface, and not used by anyone else. *)
Definition deletes z type ifindex (rs : list nat) (s : nat) : Prop :=
  s ∈ rs ∧ ∃ x, z_ribs z !! s = Some x ∧ r_type x = type ∧
    (connected x = true → connected_to x ifindex = true ∧ r_refcnt x = 0).

Definition found z type ifindex (seen rs : list nat) (res : option nat * (nat + option nat)) : Prop :=
  match res with
  | (_, inl r) => repeated z type ifindex rs r ∧ holds (z_ribs z) (λ x, negb (r_refcnt x =? 0)) r = true
  | (_, inr (Some s)) => deletes z type ifindex rs s
  | (fib, inr None) => no_such z type ifindex rs ∧ chosen z (seen ++ rs) fib
  end.

Lemma found_skip z type ifindex seen r rs x w :
  z_ribs z !! r = Some x → (r_type x = type → connected x = true ∧ connected_to x ifindex = false) →
  found z type ifindex (seen ++ [r]) rs w → found z type ifindex seen (r :: rs) w.
Proof.
  intros Hx Hr. destruct w as [fib [q|[s|]]]; cbn.
  - intros [[? ?] ?]. split; [|done]. split; [by right|done].
  - intros [? ?]. split; [by right|done].
  - rewrite <- app_assoc. intros [Hn Hc]. split; [|done]. intros q y [->|Hq]%elem_of_cons Hy; [|by apply (Hn q)].
    by assert (y = x) as -> by congruence.
Qed.

Lemma delete_loop_run z type ifindex rs : ∀ seen fib,
  (∀ r, r ∈ seen ++ rs → is_Some (z_ribs z !! r)) →
  (∀ r q, r ∈ seen ++ rs → q ∈ seen ++ rs → sel z r = true → sel z q = true → r = q) → chosen z seen fib →
  ∃ w, delete_loop type ifindex rs fib z = Ok (w, z) ∧ found z type ifindex seen rs w.
Proof.
  induction rs as [|r rs IH]; intros seen fib Hin Hone Hch; cbn [delete_loop].
  { exists (fib, inr None). split; [done|]. cbn. rewrite app_nil_r. split; [by intros ? ? ?%not_elem_of_nil|done]. }
  destruct (Hin r) as [x Hx]; [apply elem_of_app; right; by left|].
  rewrite (st_bind_Ok _ _ _ _ _ (rib_read_in _ _ _ Hx)). fold (rib_selected x). rewrite <- (sel_lookup _ _ _ Hx).
  set (fib' := if sel z r then Some r else fib).
  assert (Hgo : (r_type x = type → connected x = true ∧ connected_to x ifindex = false) →
    ∃ w, delete_loop type ifindex rs fib' z = Ok (w, z) ∧ found z type ifindex seen (r :: rs) w).
  { intros Hr. destruct (IH (seen ++ [r]) fib') as (w & Hrun & Hw); rewrite <- ?app_assoc; try done.
    - apply chosen_snoc; [done|]. intros q Hq. apply Hone; apply elem_of_app; [by left|right; by left].
    - exists w. split; [done|]. by eapply found_skip. }
  fold (connected x). destruct (connected x) eqn:Ec.
  - destruct (Z.eqb_spec (r_type x) type) as [Ht|Ht]; cbn [andb]; [|by apply Hgo].
    destruct (connected_to x ifindex) eqn:Eto; [|by apply Hgo].
    assert (Hh : holds (z_ribs z) (λ x, negb (r_refcnt x =? 0)) r = negb (r_refcnt x =? 0)) by (unfold holds; by rewrite Hx).
    destruct (negb (r_refcnt x =? 0)) eqn:Er; eexists; (split; [done|]); cbn.
    + split; [|done]. split; [by left|]. by exists x.
    + split; [by left|]. exists x. split_and!; try done. intros _. split; [done|]. apply negb_false_iff in Er. lia.
  - destruct (Z.eqb_spec (r_type x) type) as [Ht|Ht]; [|by apply Hgo].
    eexists. split; [done|]. split; [by left|]. exists x. split_and!; [done|done|congruence].
Qed.

(** The route [s] is taken out of the list of its prefix and freed, no other prefix
    and no other route changes, and the best of the remaining routes is selected. *)
Record removed z k (rs rs' : list nat) z' : Prop := Removed {
  rm_inv : zinv z';
  rm_abs : abs (z_table z') = set_routes k rs' (abs (z_table z));
  rm_gone : ∀ r, r ∈ rs → r ∉ rs' → z_ribs z' !! r = None;
  rm_else : ∀ r, r ∉ rs → z_ribs z' !! r = z_ribs z !! r;
  rm_settled : ∃ rn, info (z_table z') rn = list_info rs' ∧ settled z' rn rs';
}.

Lemma finished_removed z k rn rs' z' :
  zinv z → finished z rn rs' z' → (∀ r, r ∈ rs' → r ∈ routes (z_table z) rn) →
  abs (z_table z') = set_routes k rs' (abs (z_table z)) → removed z k (routes (z_table z) rn) rs' z'.
Proof.
  intros Hz [Hc Hs _] Hsub Ha. split; [by eapply zinv_changes|done|apply Hc| |].
  - intros r Hr. apply Hc; [done|auto].
  - exists rn. split; [apply Hc|done].
Qed.

(** rib_process on the routes [rs'], then the end of rib_delete_ipv4. *)
Lemma resettled_finished z k rn rs' lock z1 z2 :
  relisted (z_table z) k rn rs' lock (z_table z1) → resettled z rn rs' z1 z2 →
  finished z rn rs' z2 ∧ abs (z_table z2) = set_routes k rs' (abs (z_table z)) ∧
  ∃ n, heap (z_table z2) !! rn = Some n ∧ n_lock n = lock.
Proof.
  intros Hre [Ht Hc Hs _]. rewrite Ht. split_and!.
  - split; [done|done|rewrite Ht; apply Hre].
  - apply Hre.
  - destruct (re_node _ _ _ _ _ _ Hre) as (n & ? & _ & ? & _). by exists n.
Qed.

Lemma delete_route_run z k rn s t1 :
  zinv z → relisted (z_table z) k rn (routes (z_table z) rn) (lock_at (z_table z) rn + 1) t1 → s ∈ routes (z_table z) rn →
  ∃ z', (rib_delnode rn s;;
         rib_process MULTIPATH_NUM netlink_talk rn (Some s);;
         newrib_free s;;
         tbl (route_unlock_node rn);;
         tbl (route_unlock_node rn);;
         mret 0) (set_z_table t1 z) = Ok (0, z') ∧
    removed z k (routes (z_table z) rn) (remove_rib s (routes (z_table z) rn)) z'.
Proof.
  intros Hz Hre Hs. set (rs := routes (z_table z) rn) in *.
  destruct (routes_in z rn s Hz Hs) as [x Hx]. pose proof (route_locks z rn s x Hz Hs Hx) as Hlx.
  destruct (zi_rib z Hz s x Hx) as (_ & _ & Hx0). pose proof (remove_rib_weight (z_ribs z) s x rs Hs Hx) as Hw.
  pose proof (routes_weight z rn Hz) as Hlk. fold rs in Hlk.
  destruct (relisted_relabel (set_z_table t1 z) _ k rn rs _ (remove_rib s rs) (λ n, list_info (remove_rib s (default [] (n_info n)))) Hre)
    as (t2 & Hrun2 & Hre2); [lia|intros n ->; by rewrite default_list_info|].
  unfold rib_delnode. rewrite (st_bind_Ok _ _ _ _ _ Hrun2).
  assert (Hl : relinked z rn (without (Some s) rs) (Some s) (set_z_table t2 z)).
  { eapply (del_relinked z k rn (Some s)); [done|by intros ? [= <-]|done|]. cbn [without]. fold rs. lia. }
  destruct (relinked_process MULTIPATH_NUM netlink_talk z rn _ _ _ Hz Hl) as (z2 & z3 & Hrun3 & Hfree & Hset).
  { destruct (re_node _ _ _ _ _ _ Hre2) as (n & Hn & _). by exists n. }
  destruct (resettled_finished z k rn _ _ (set_z_table t2 z) z3 Hre2 Hset) as (Hfin & Habs & n & Hn & Hnl).
  rewrite set_z_table_twice, (st_bind_Ok _ _ _ _ _ Hrun3). cbn [free_same] in Hfree. rewrite (st_bind_Ok _ _ _ _ _ Hfree).
  assert (Hw3 : weight (z_ribs z3) (remove_rib s rs) = weight (z_ribs z) (remove_rib s rs)).
  { apply weight_ext. intros r Hr. pose proof Hr as Hr'. apply remove_rib_elem in Hr' as [Hr' _]; [|by apply routes_nodup].
    destruct (routes_in z rn r Hz Hr') as [y Hy]. destruct (rs_core _ _ _ _ _ Hset r y Hr Hy) as (y' & Hy' & Hc).
    rewrite Hy, Hy'. cbn. f_equal. apply Hc. }
  destruct (finished_unlock z rn _ z3 n Hz Hfin Hn) as (t4 & Hrun4 & Hfin4 & Habs4 & Hn4); [lia|cbn [without]; lia|].
  rewrite (st_bind_Ok _ _ _ _ _ Hrun4). destruct Hn4 as (n4 & Hn4 & Hnl4); [lia|].
  destruct (finished_unlock z rn _ (set_z_table t4 z3) n4 Hz Hfin4 Hn4) as (t5 & Hrun5 & Hfin5 & Habs5 & _);
    [lia|cbn [without z_ribs set_z_table]; lia|].
  rewrite (st_bind_Ok _ _ _ _ _ Hrun5). eexists. split; [done|].
  apply finished_removed; [done|done| |].
  - intros r Hr. by apply remove_rib_elem in Hr as [? _]; [|apply routes_nodup].
  - cbn [z_table set_z_table]. rewrite Habs5. cbn [z_table set_z_table]. by rewrite Habs4.
Qed.

(** The kernel reports that the route of a prefix is gone: its selected route is chosen
    anew. *)
Lemma kernel_gone_run z k rn f t1 :
  zinv z → relisted (z_table z) k rn (routes (z_table z) rn) (lock_at (z_table z) rn + 1) t1 → f ∈ routes (z_table z) rn →
  ∃ z', (clear_fib f;;
         select_flag f false;;
         rib_process MULTIPATH_NUM netlink_talk rn None;;
         tbl (route_unlock_node rn);;
         mret 0) (set_z_table t1 z) = Ok (0, z') ∧
    removed z k (routes (z_table z) rn) (routes (z_table z) rn) z'.
Proof.
  intros Hz Hre Hf. set (rs := routes (z_table z) rn) in *. destruct (routes_in z rn f Hz Hf) as [x Hx].
  pose proof (routes_weight z rn Hz) as Hlk. fold rs in Hlk. pose proof (weight_nonneg z rs Hz) as Hw0.
  assert (Hl : relinked z rn rs None (set_z_table t1 z)).
  { apply (del_relinked z k rn None _ t1 Hz ltac:(done) Hre). cbn [without]. fold rs. lia. }
  destruct (clear_fib_run f (set_z_table t1 z) x Hx) as (z2 & Hrun2 & Hq2). rewrite (st_bind_Ok _ _ _ _ _ Hrun2).
  destruct (select_flag_run [f] f false z2) as (z3 & Hrun3 & Hd3); [eapply quiet_in; [exact Hq2|by eexists]|by left|].
  rewrite (st_bind_Ok _ _ _ _ _ Hrun3).
  assert (Hf3 : frame [f] (set_z_table t1 z) z3) by (etrans; [apply Hq2|apply Hd3]).
  assert (Hl3 : relinked z rn rs None z3).
  { eapply relinked_frame; [done|exact Hf3|set_solver| |intros r ->%list_elem_of_singleton; done].
    intros r. rewrite (do_sel _ _ _ _ _ Hd3), (q_sel _ _ _ Hq2). by case_bool_decide. }
  assert (Hre3 : relisted (z_table z) k rn rs (lock_at (z_table z) rn + 1) (z_table z3)) by (by rewrite (fr_table _ _ _ Hf3)).
  destruct (relinked_process MULTIPATH_NUM netlink_talk z rn rs None z3 Hz Hl3) as (z4 & z5 & Hrun4 & [= <-] & Hset).
  { destruct (re_node _ _ _ _ _ _ Hre3) as (n & Hn & _). by exists n. }
  rewrite (st_bind_Ok _ _ _ _ _ Hrun4).
  destruct (resettled_finished z k rn rs _ z3 z4 Hre3 Hset) as (Hfin & Habs & n & Hn & Hnl).
  assert (Hw4 : weight (z_ribs z4) rs = weight (z_ribs z) rs).
  { apply weight_ext. intros r Hr. destruct (routes_in z rn r Hz Hr) as [y Hy].
    destruct (fr_core _ _ _ Hf3 r y Hy) as (y3 & Hy3 & Hc3).
    destruct (rs_core _ _ _ _ _ Hset r y3 Hr Hy3) as (y4 & Hy4 & Hc4). rewrite Hy, Hy4. cbn. f_equal.
    by rewrite (rc_refcnt _ _ Hc4), (rc_refcnt _ _ Hc3). }
  destruct (finished_unlock z rn rs z4 n Hz Hfin Hn) as (t5 & Hrun5 & Hfin5 & Habs5 & _); [lia|lia|].
  rewrite (st_bind_Ok _ _ _ _ _ Hrun5). eexists. split; [done|]. apply finished_removed; [done|done|done|].
  cbn [z_table set_z_table]. by rewrite Habs5.
Qed.

(** A connected route is used once less. *)
Lemma refcnt_down_run z k rn r x t1 :
  zinv z → locks_below (2^32 - 2) (z_table z) →
  relisted (z_table z) k rn (routes (z_table z) rn) (lock_at (z_table z) rn + 1) t1 → abs t1 = abs (z_table z) →
  r ∈ routes (z_table z) rn → z_ribs z !! r = Some x → r_refcnt x ≠ 0 →
  ∃ z', (rib_upd r (λ x, set_r_refcnt (u64 (r_refcnt x - 1)) x);;
         tbl (route_unlock_node rn);;
         tbl (route_unlock_node rn);;
         mret 0) (set_z_table t1 z) = Ok (0, z') ∧
    zinv z' ∧ abs (z_table z') = abs (z_table z) ∧ z_ribs z' = <[r := set_r_refcnt (r_refcnt x - 1) x]> (z_ribs z).
Proof.
  intros Hz Hlk Hre Ha Hr Hx Hne. pose proof (refcnt_u64 z rn r x Hz Hlk Hr Hx) as H64.
  pose proof (route_locks z rn r x Hz Hr Hx) as Hl. pose proof (routes_weight z rn Hz) as Hw.
  assert (Hu : u64 (r_refcnt x - 1) = r_refcnt x - 1) by (apply u64_id; unfold is_u64; lia).
  rewrite (st_bind_Ok _ _ _ _ _ (upd_run r _ (set_z_table t1 z) x Hx)), Hu.
  set (z2 := set_z_ribs _ _).
  destruct (relisted_unlock z2 _ k rn _ _ Hre) as (t3 & Hrun3 & Hre3); [lia|]. rewrite (st_bind_Ok _ _ _ _ _ Hrun3).
  destruct (relisted_unlock (set_z_table t3 z2) _ k rn _ _ Hre3) as (t4 & Hrun4 & Hre4); [lia|]. rewrite (st_bind_Ok _ _ _ _ _ Hrun4).
  eexists. split; [done|]. split_and!.
  - eapply zinv_changes; [done|]. eapply (refcnt_changes z k rn r x (r_refcnt x - 1) _ t4); try done; [lia|]. lia.
  - cbn [z_table set_z_table]. rewrite (re_abs _ _ _ _ _ _ Hre4), <- (re_abs _ _ _ _ _ _ Hre). done.
  - done.
Qed.

(** C15: rib_delete_ipv4 keeps the invariant of the routing information base and never
    faults.  A connected route that is used more than once is used once less; the
    route of the type is otherwise taken out and freed and the best of the others
    selected; when there is none and the kernel reports the deletion, the selected
    route is chosen anew; in the other cases nothing changes and the caller is told
    that there is no such route. *)
Theorem rib_delete_ipv4_deletes z type p ifindex :
  zinv z → locks_below (2^32 - 2) (z_table z) → ipv4_prefix p →
  let rs := default [] (abs (z_table z) !! pbits p) in
  ∃ ret z', rib_delete_ipv4 MULTIPATH_NUM netlink_talk type p ifindex z = Ok (ret, z') ∧
    ((∃ r x, repeated z type ifindex rs r ∧ z_ribs z !! r = Some x ∧ r_refcnt x ≠ 0 ∧ ret = 0 ∧
        zinv z' ∧ abs (z_table z') = abs (z_table z) ∧
        z_ribs z' = <[r := set_r_refcnt (r_refcnt x - 1) x]> (z_ribs z)) ∨
     (∃ s, deletes z type ifindex rs s ∧ ret = 0 ∧ removed z (pbits p) rs (remove_rib s rs) z') ∨
     (no_such z type ifindex rs ∧ type = ZEBRA_ROUTE_KERNEL ∧ (∃ f, f ∈ rs ∧ sel z f = true) ∧ ret = 0 ∧
        removed z (pbits p) rs rs z') ∨
     (no_such z type ifindex rs ∧ (type ≠ ZEBRA_ROUTE_KERNEL ∨ ∀ f, f ∈ rs → sel z f = false) ∧
        ret = ZEBRA_ERR_RTNOEXIST ∧ z' = z)).
Proof.
  intros Hz Hlk Hp rs. unfold rib_delete_ipv4.
  destruct (delete_node_run z p Hz Hlk Hp) as (q & Hq & [[Hnone Hrun]|(rn & t1 & Hrun & Hribs & Hun & Hrs & Ha & Hnil & Hre)]);
    rewrite (st_bind_Ok _ _ _ q z) by (unfold st_lift; by rewrite Hq); rewrite (st_bind_Ok _ _ _ _ _ Hrun).
  { exists ZEBRA_ERR_RTNOEXIST, z. split; [done|]. do 3 right. subst rs. rewrite Hnone. cbn.
    split_and!; [by intros ? ? ?%not_elem_of_nil|right; by intros ? ?%not_elem_of_nil|done|done]. }
  fold rs in Hrs. rewrite (st_bind_Ok _ _ _ _ _ Hribs).
  destruct (delete_loop_run (set_z_table t1 z) type ifindex (routes (z_table z) rn) [] None) as (w & Hloop & Hw).
  { intros r Hr. by apply (routes_in z rn). }
  { intros r s Hr Hs. apply routes_info in Hr as (rs0 & Hi & Hr & Hrs0). cbn [app] in Hs. rewrite Hrs0 in Hs. by apply (zi_one z Hz rn rs0). }
  { split; [by intros ? ?%not_elem_of_nil|done]. }
  rewrite (st_bind_Ok _ _ _ _ _ Hloop). rewrite <- Hrs. destruct w as [fib [r|[s|]]]; cbn [found app] in Hw.
  - destruct Hw as [Hrep Hne]. destruct (Hrep) as (Hr & x & Hx & _).
    assert (Hne' : r_refcnt x ≠ 0) by (unfold holds in Hne; rewrite Hx in Hne; lia).
    destruct (refcnt_down_run z _ rn r x t1 Hz Hlk Hre Ha Hr Hx Hne') as (z' & Hrun' & ? & ? & ?).
    exists 0, z'. split; [done|]. left. by exists r, x.
  - destruct (delete_route_run z _ rn s t1 Hz Hre (proj1 Hw)) as (z' & Hrun' & Hrm).
    exists 0, z'. split; [done|]. right. left. by exists s.
  - destruct Hw as [Hno Hch].
    destruct fib as [f|].
    + destruct (proj2 Hch f eq_refl) as [Hfin Hfs]. destruct (Z.eqb_spec type ZEBRA_ROUTE_KERNEL) as [Ht|Ht].
      * destruct (kernel_gone_run z _ rn f t1 Hz Hre Hfin) as (z' & Hrun' & Hrm).
        exists 0, z'. split; [done|]. do 2 right. left. split_and!; [done|done|by exists f|done|done].
      * exists ZEBRA_ERR_RTNOEXIST, z. split; [by rewrite (st_bind_Ok _ _ _ _ _ Hun)|]. do 3 right. split_and!; [done|by left|done|done].
    + assert (Hsel : ∀ f, f ∈ routes (z_table z) rn → sel z f = false).
      { intros f Hf. destruct (sel z f) eqn:E; [|done]. by pose proof (proj1 Hch f Hf E). }
      exists ZEBRA_ERR_RTNOEXIST, z. split; [by rewrite (st_bind_Ok _ _ _ _ _ Hun)|]. do 3 right. split_and!; [done|by right|done|done].
Qed.
End Operations.

(** * A small router *)

Lemma zinv_relinked z rn : zinv z → locks_room (z_table z) → relinked z rn (routes (z_table z) rn) None z.
Proof.
  intros Hz Hroom. split; try done; [apply Hz|..].
  - unfold routes. destruct (info (z_table z) rn) as [rs|] eqn:E; [|done].
    destruct rs; [by apply zinv_nil in E|done].
  - by apply routes_weight.
  - by apply routes_nodup.
  - intros r Hr. cbn in Hr. rewrite app_nil_r in Hr. destruct (routes_in z rn r Hz Hr) as [x Hx]. exists x.
    split; [done|]. by apply (zi_rib z Hz).
  - intros r. cbn. set_solver.
  - cbn [option_list]. rewrite app_nil_r. intros r q Hr Hq. apply routes_info in Hr as (rs & Hi & Hr & Hrs).
    rewrite Hrs in Hq. by apply (zi_one z Hz rn rs).
Qed.

Lemma zinv_ready z rn : zinv z → locks_room (z_table z) → ready z rn (routes (z_table z) rn ++ []).
Proof. intros Hz Hroom. by apply (relinked_ready z rn _ None), zinv_relinked. Qed.

Definition ZEBRA_ROUTE_RIP : Z := 4.
Definition kernel_ok : list action → action → Z := λ _ _, 0.

Definition ex_ipv4 (b len : Z) : prefix := Prefix AF_INET len ([b; 0; 0; 0] ++ replicate 4 0).
Definition ex_start : zebra :=
  Zebra route_table_init route_table_init ∅ 0 [Interface 1 "eth0" true; Interface 2 "eth1" false] [].

Definition run_zebra (m : res (unit * zebra)) : zebra := match m with Ok (_, z) => z | Fail _ => ex_start end.

(** A connected network, then a route through it. *)
Definition ex_net : zebra := Eval vm_compute in
  run_zebra (rib_add_ipv4 1 kernel_ok ZEBRA_ROUTE_CONNECT 0 (ex_ipv4 10 8) None 1 0 0 ex_start).
Definition ex_rip : zebra := Eval vm_compute in
  run_zebra (rib_add_ipv4 1 kernel_ok ZEBRA_ROUTE_RIP 0 (ex_ipv4 20 8) (Some [10; 0; 0; 5]) 0 2 0 ex_net).

Lemma locks_below_decide c t : map_Forall (λ _ n, n_lock n < c) (heap t) → locks_below c t.
Proof. intros H id n Hn. by apply (H id n). Qed.

Lemma ex_ipv4_prefix b len : is_u8 b → 0 ≤ len ≤ 32 → ipv4_prefix (ex_ipv4 b len).
Proof. intros Hb Hl. split_and!; [done|constructor; [done|by apply bytes_ok_decide]|cbn; lia|cbn; lia|done]. Qed.

Lemma ex_start_zinv : zinv ex_start.
Proof.
  split; try done; [apply init_inv|]. by intros r [x Hx].
Qed.

Lemma ex_args type gate d : (∀ g, gate = Some g → ipv4_ok g) → default_distance type 0 0 = Ok d → add_args type 0 gate 0 d.
Proof. intros Hg Hd. by split. Qed.

(** States made with rib_add_ipv4 are in good order. *)
Lemma add_zinv z type p gate ifindex metric d z' :
  zinv z → locks_below (2^32 - 2) (z_table z) → ipv4_prefix p → add_args type 0 gate 0 d →
  rib_add_ipv4 1 kernel_ok type 0 p gate ifindex metric 0 z = Ok (tt, z') → zinv z'.
Proof.
  intros Hz Hl Hp Ha Hrun.
  destruct (rib_add_ipv4_run 1 kernel_ok z type 0 p gate ifindex metric 0 d Hz Hl Hp Ha) as (z1 & Hrun1 & Hcase).
  assert (z1 = z') as <- by congruence. destruct Hcase as [(r & x & _ & _ & ? & _)|(same & _ & _ & Hins)]; [done|apply Hins].
Qed.

Lemma ex_net_zinv : zinv ex_net.
Proof.
  eapply (add_zinv ex_start ZEBRA_ROUTE_CONNECT (ex_ipv4 10 8) None 1 0 0 ex_net ex_start_zinv);
    [by apply locks_below_decide|by apply ex_ipv4_prefix|by apply ex_args|by vm_compute].
Qed.

Lemma ex_gate_ok : ipv4_ok [10; 0; 0; 5].
Proof. split; [by apply bytes_ok_decide|done]. Qed.

Lemma ex_rip_zinv : zinv ex_rip.
Proof.
  eapply (add_zinv ex_net ZEBRA_ROUTE_RIP (ex_ipv4 20 8) (Some [10; 0; 0; 5]) 0 2 120 ex_rip ex_net_zinv);
    [by apply locks_below_decide, (bool_decide_eq_true_1 _); vm_compute|by apply ex_ipv4_prefix| |by vm_compute].
  apply ex_args; [intros g [= <-]; apply ex_gate_ok|done].
Qed.

Lemma ex_rip_below : locks_below (2^32 - 2) (z_table ex_rip).
Proof. by apply locks_below_decide, (bool_decide_eq_true_1 _); vm_compute. Qed.

Lemma ex_rip_table : rib_table ex_rip.
Proof.
  split; [apply ex_rip_zinv| |apply ex_rip_zinv]. intros i n Hn. pose proof (ex_rip_below i n Hn). lia.
Qed.

Definition ex_node : route_node (list nat) := Eval vm_compute in
  match heap (z_table ex_rip) !! 3%positive with Some n => n | None => RouteNode prefix_new None None None 0 None end.

Lemma rib_match_ipv4_longest_witness :
  (∃ k r x, longest_igp ex_rip (bits_of [20; 1; 2; 3]) k r ∧ z_ribs ex_rip !! r = Some x ∧
     rib_match_ipv4 [20; 1; 2; 3] ex_rip = Ok (if takes_packets x then Some r else None, ex_rip)) ∨
  (no_igp ex_rip (bits_of [20; 1; 2; 3]) ∧ rib_match_ipv4 [20; 1; 2; 3] ex_rip = Ok (None, ex_rip)).
Proof.
  apply (rib_match_ipv4_longest ex_rip [20; 1; 2; 3] ex_rip_table). split; [by apply bytes_ok_decide|done].
Defined.

Lemma rib_process_selects_witness :
  ∃ old new z', rib_process 1 kernel_ok 3%positive None ex_rip = Ok (tt, z') ∧
    chosen ex_rip [1%nat] old ∧ best ex_rip 3%positive [1%nat] new ∧
    processed ex_rip 3%positive (n_p ex_node) [1%nat] old new z'.
Proof.
  apply (rib_process_selects 1 kernel_ok ex_rip 3%positive ex_node [1%nat] None).
  - apply (zinv_ready ex_rip 3%positive ex_rip_zinv), ex_rip_table.
  - by vm_compute.
  - by vm_compute.
  - by apply (bool_decide_eq_true_1 _); vm_compute.
Defined.

Definition ex_two : rib :=
  nexthop_add (set_nh_flags NEXTHOP_FLAG_ACTIVE (set_nh_ifindex 2 (nexthop_new NEXTHOP_TYPE_IFINDEX)))
    (nexthop_add (set_nh_flags NEXTHOP_FLAG_ACTIVE (set_nh_gate [10; 0; 0; 5] (nexthop_new NEXTHOP_TYPE_IPV4)))
       (Rib ZEBRA_ROUTE_STATIC 0 1 0 0 0 0 2 [])).

Lemma netlink_route_multipath_same_witness :
  let '(nhs, msg) := netlink_route_multipath 0 true (ex_ipv4 20 8) ex_two in
  msg = Some (Message (ex_ipv4 20 8) 0 0 false [(Some [10; 0; 0; 5], None); (None, Some 2)]) ∧
  hop_of <$> nhs = hop_of <$> r_nexthops ex_two ∧
  netlink_route_multipath 0 false (ex_ipv4 20 8) (set_r_nexthops nhs ex_two) = (nhs, msg).
Proof.
  apply (netlink_route_multipath_same 0 (ex_ipv4 20 8) ex_two); [done|].
  by apply (bool_decide_eq_true_1 _); vm_compute.
Defined.

Lemma rib_add_ipv4_adds_witness :
  ∃ z', rib_add_ipv4 1 kernel_ok ZEBRA_ROUTE_RIP 0 (ex_ipv4 20 8) (Some [10; 0; 0; 5]) 0 7 0 ex_rip = Ok (tt, z') ∧
    ((∃ r x, repeated ex_rip ZEBRA_ROUTE_RIP 0 (default [] (abs (z_table ex_rip) !! pbits (ex_ipv4 20 8))) r ∧
        z_ribs ex_rip !! r = Some x ∧ zinv z' ∧ abs (z_table z') = abs (z_table ex_rip) ∧
        z_ribs z' = <[r := set_r_refcnt (r_refcnt x + 1) x]> (z_ribs ex_rip)) ∨
     (∃ same, replaced ex_rip ZEBRA_ROUTE_RIP 0 (default [] (abs (z_table ex_rip) !! pbits (ex_ipv4 20 8))) same ∧
        (∀ r, ¬ repeated ex_rip ZEBRA_ROUTE_RIP 0 (default [] (abs (z_table ex_rip) !! pbits (ex_ipv4 20 8))) r) ∧
        inserted ex_rip (pbits (ex_ipv4 20 8)) (default [] (abs (z_table ex_rip) !! pbits (ex_ipv4 20 8))) same
          (fresh_route ZEBRA_ROUTE_RIP 120 0 7 (Some [10; 0; 0; 5]) 0) z')).
Proof.
  apply (rib_add_ipv4_adds 1 kernel_ok ex_rip ZEBRA_ROUTE_RIP 0 (ex_ipv4 20 8) (Some [10; 0; 0; 5]) 0 7 0 120 ex_rip_zinv ex_rip_below).
  - by apply ex_ipv4_prefix.
  - apply ex_args; [intros g [= <-]; apply ex_gate_ok|done].
Defined.

Lemma rib_delete_ipv4_deletes_witness :
  let rs := default [] (abs (z_table ex_rip) !! pbits (ex_ipv4 20 8)) in
  ∃ ret z', rib_delete_ipv4 1 kernel_ok ZEBRA_ROUTE_RIP (ex_ipv4 20 8) 0 ex_rip = Ok (ret, z') ∧
    ((∃ r x, repeated ex_rip ZEBRA_ROUTE_RIP 0 rs r ∧ z_ribs ex_rip !! r = Some x ∧ r_refcnt x ≠ 0 ∧ ret = 0 ∧
        zinv z' ∧ abs (z_table z') = abs (z_table ex_rip) ∧
        z_ribs z' = <[r := set_r_refcnt (r_refcnt x - 1) x]> (z_ribs ex_rip)) ∨
     (∃ s, deletes ex_rip ZEBRA_ROUTE_RIP 0 rs s ∧ ret = 0 ∧ removed ex_rip (pbits (ex_ipv4 20 8)) rs (remove_rib s rs) z') ∨
     (no_such ex_rip ZEBRA_ROUTE_RIP 0 rs ∧ ZEBRA_ROUTE_RIP = ZEBRA_ROUTE_KERNEL ∧
        (∃ f, f ∈ rs ∧ sel ex_rip f = true) ∧ ret = 0 ∧ removed ex_rip (pbits (ex_ipv4 20 8)) rs rs z') ∨
     (no_such ex_rip ZEBRA_ROUTE_RIP 0 rs ∧ (ZEBRA_ROUTE_RIP ≠ ZEBRA_ROUTE_KERNEL ∨ ∀ f, f ∈ rs → sel ex_rip f = false) ∧
        ret = ZEBRA_ERR_RTNOEXIST ∧ z' = ex_rip)).
Proof.
  apply (rib_delete_ipv4_deletes 1 kernel_ok ex_rip ZEBRA_ROUTE_RIP (ex_ipv4 20 8) 0 ex_rip_zinv ex_rip_below).
  by apply ex_ipv4_prefix.
Defined.

Definition ex_static_node : route_node (list static_ipv4) := RouteNode prefix_new None None None 0 None.

(** A static route that is added and deleted again leaves its node in the table of
    static routes, without information and locked for good: static_delete_ipv4
    releases neither the lock of its own lookup nor the one static_add_ipv4 took. *)
Theorem static_delete_ipv4_leaks :
  ∃ z1 z2 id n,
    static_add_ipv4 1 kernel_ok (ex_ipv4 30 8) (Some [10; 0; 0; 5]) None 1 ex_rip = Ok (1, z1) ∧
    static_delete_ipv4 1 kernel_ok (ex_ipv4 30 8) (Some [10; 0; 0; 5]) None z1 = Ok (1, z2) ∧
    abs (z_table z2) = abs (z_table ex_rip) ∧
    heap (z_stable ex_rip) = ∅ ∧ heap (z_stable z2) !! id = Some n ∧ n_info n = None ∧ n_lock n = 2.
Proof.
  set (z1 := match static_add_ipv4 1 kernel_ok (ex_ipv4 30 8) (Some [10; 0; 0; 5]) None 1 ex_rip with Ok (_, z) => z | Fail _ => ex_rip end).
  set (z2 := match static_delete_ipv4 1 kernel_ok (ex_ipv4 30 8) (Some [10; 0; 0; 5]) None z1 with Ok (_, z) => z | Fail _ => z1 end).
  exists z1, z2, 1%positive, (default ex_static_node (heap (z_stable z2) !! 1%positive)).
  by vm_compute.
Qed.
