(* ===== verification/Zapi.v ===== *)
(** Route messages between zebra and its clients: lib/zclient.c, zebra/zserv.c.

    A message is the length in two octets, the command, and the body of the
    command.  What a daemon hands to [writen] is the result of the sending
    functions; the buffers [obuf] and [ibuf] are streams of lib/stream.c. *)

From stdpp Require Import strings.
From S2P Require Import Prelude Prefix Table TableView Stream StreamCalc Rib.

Definition ZEBRA_MAX_PACKET_SIZ : Z := 4096.
Definition ZEBRA_HEADER_SIZE : Z := 3.

Definition ZEBRA_IPV4_ROUTE_ADD : Z := 7.
Definition ZEBRA_IPV4_ROUTE_DELETE : Z := 8.
Definition ZEBRA_REDISTRIBUTE_ADD : Z := 11.
Definition ZEBRA_REDISTRIBUTE_DELETE : Z := 12.
Definition ZEBRA_REDISTRIBUTE_DEFAULT_ADD : Z := 13.
Definition ZEBRA_REDISTRIBUTE_DEFAULT_DELETE : Z := 14.
Definition ZEBRA_IPV4_NEXTHOP_LOOKUP : Z := 15.
Definition ZEBRA_IPV4_IMPORT_LOOKUP : Z := 17.

Definition ZEBRA_NEXTHOP_IFINDEX : Z := 1.
Definition ZEBRA_NEXTHOP_IFNAME : Z := 2.
Definition ZEBRA_NEXTHOP_IPV4 : Z := 3.
Definition ZEBRA_NEXTHOP_IPV6 : Z := 6.
Definition ZEBRA_NEXTHOP_BLACKHOLE : Z := 9.

Definition ZAPI_MESSAGE_NEXTHOP : Z := 0x01.
Definition ZAPI_MESSAGE_IFINDEX : Z := 0x02.
Definition ZAPI_MESSAGE_DISTANCE : Z := 0x04.
Definition ZAPI_MESSAGE_METRIC : Z := 0x08.

Record zapi_ipv4 := ZapiIpv4 {
  za_type : Z;
  za_flags : Z;
  za_message : Z;
  za_nexthop_num : Z;
  za_nexthop : list (list Z);
  za_ifindex_num : Z;
  za_ifindex : list Z;
  za_distance : Z;
  za_metric : Z;
}.

(** * The client *)

(** The loops over the gateways and the interface indices of a route. *)
Fixpoint put_nexthops (n : nat) (i : Z) (nexthop : list (list Z)) : ST stream unit :=
  match n with
  | O => mret tt
  | S n =>
      stream_putc ZEBRA_NEXTHOP_IPV4;;
      a ← st_lift (arr_get nexthop i);
      stream_put_in_addr a;;
      put_nexthops n (i + 1) nexthop
  end.

Fixpoint put_ifindices (n : nat) (i : Z) (ifindex : list Z) : ST stream unit :=
  match n with
  | O => mret tt
  | S n =>
      stream_putc ZEBRA_NEXTHOP_IFINDEX;;
      x ← st_lift (arr_get ifindex i);
      stream_putl x;;
      put_ifindices n (i + 1) ifindex
  end.

(** [stream_putw_at (s, 0, stream_get_endp (s))], and the octets of the message. *)
Definition put_length : ST stream (list Z) :=
  s ← st_get;
  stream_putw_at 0 (stream_get_endp s);;
  s ← st_get;
  st_lift (get_bytes (s_data s) 0 (stream_get_endp s)).

(** Start a message over in the output buffer, with a place holder for the length,
    and put the length in at the end. *)
Definition in_message {A} (body : ST stream A) : ST stream (list Z) :=
  s ← st_get;
  st_put (stream_reset s);;
  stream_putw 0;;
  body;;
  put_length.

(** The body zapi_ipv4_add and zapi_ipv4_delete share. *)
Definition zapi_ipv4_body (command : Z) (p : prefix) (api : zapi_ipv4) : ST stream unit :=
  stream_putc command;;
  stream_putc (za_type api);;
  stream_putc (za_flags api);;
  stream_putc (za_message api);;
  let psize := PSIZE (prefixlen p) in
  stream_putc (prefixlen p);;
  stream_write (u p) psize;;
  put_when (CHECK_FLAG (za_message api) ZAPI_MESSAGE_NEXTHOP)
    ((if CHECK_FLAG (za_flags api) ZEBRA_FLAG_BLACKHOLE
      then stream_putc 1;; stream_putc ZEBRA_NEXTHOP_BLACKHOLE
      else stream_putc (za_nexthop_num api + za_ifindex_num api));;
     put_nexthops (Z.to_nat (za_nexthop_num api)) 0 (za_nexthop api);;
     put_ifindices (Z.to_nat (za_ifindex_num api)) 0 (za_ifindex api));;
  put_when (CHECK_FLAG (za_message api) ZAPI_MESSAGE_DISTANCE) (stream_putc (za_distance api));;
  put_when (CHECK_FLAG (za_message api) ZAPI_MESSAGE_METRIC) (stream_putl (za_metric api)).

Definition zapi_ipv4_add (p : prefix) (api : zapi_ipv4) : ST stream (list Z) :=
  in_message (zapi_ipv4_body ZEBRA_IPV4_ROUTE_ADD p api).
Definition zapi_ipv4_delete (p : prefix) (api : zapi_ipv4) : ST stream (list Z) :=
  in_message (zapi_ipv4_body ZEBRA_IPV4_ROUTE_DELETE p api).

(** zebra_redistribute_send and zebra_message_send. *)
Definition zebra_redistribute_send (command type : Z) : res (list Z) :=
  '(_, s) ← (stream_putw 4;; stream_putc command;; stream_putc type) (stream_new ZEBRA_MAX_PACKET_SIZ);
  get_bytes (s_data s) 0 4.

Definition zebra_message_send (command : Z) : ST stream (list Z) :=
  s ← st_get;
  st_put (stream_reset s);;
  stream_putw 3;;
  stream_putc command;;
  s ← st_get;
  st_lift (get_bytes (s_data s) 0 3).

(** The first half of zclient_read, up to the call of the handler of the command;
    [None] when the connection is given up.  A message longer than the buffer gets
    a new one. *)
Definition zclient_receive (header body : read_calls) : ST stream (option (Z * Z)) :=
  s ← st_get;
  st_put (stream_reset s);;
  nbytes ← stream_read header ZEBRA_HEADER_SIZE;
  if negb (nbytes =? ZEBRA_HEADER_SIZE) then mret None
  else
    length ← stream_getw;
    command ← stream_getc;
    s ← st_get;
    (if s_size s <=? length then st_put (stream_new (length + 1)) else mret tt);;
    let length := u16 (length - ZEBRA_HEADER_SIZE) in
    nbytes ← stream_read body length;
    if nbytes =? length then mret (Some (command, length)) else mret None.

(** * The server *)

(** [memset (&p, 0, ...); p.prefixlen = stream_getc (s);
    stream_get (&p.prefix, s, PSIZE (p.prefixlen))]: the address has four octets. *)
Definition get_prefix_ipv4 : ST stream prefix :=
  plen ← stream_getc;
  bs ← stream_get (PSIZE plen);
  a ← st_lift (put_bytes (replicate 4 0) 0 bs);
  mret (Prefix AF_INET plen (a ++ replicate 4 0)).

(** The loop over the nexthops of zread_ipv4_add. *)
Fixpoint get_nexthops (n : nat) (x : rib) : ST stream rib :=
  match n with
  | O => mret x
  | S n =>
      t ← stream_getc;
      x ← (if t =? ZEBRA_NEXTHOP_IFINDEX then
             ifindex ← stream_getl; mret (nexthop_ifindex_add ifindex x)
           else if t =? ZEBRA_NEXTHOP_IFNAME then
             ifname_len ← stream_getc;
             s ← st_get;
             st_put (stream_forward ifname_len s);;
             mret x
           else if t =? ZEBRA_NEXTHOP_IPV4 then
             a ← stream_get_ipv4; mret (nexthop_ipv4_add a x)
           else if t =? ZEBRA_NEXTHOP_IPV6 then
             s ← st_get;
             st_put (stream_forward 16 s);;
             mret x
           else if t =? ZEBRA_NEXTHOP_BLACKHOLE then mret (nexthop_blackhole_add x)
           else mret x);
      get_nexthops n x
  end.

(** What zread_ipv4_add reads from the message: the prefix and the route. *)
Definition zread_ipv4_route : ST stream (prefix * rib) :=
  type ← stream_getc;
  flags ← stream_getc;
  message ← stream_getc;
  p ← get_prefix_ipv4;
  let x := Rib type 0 0 flags 0 0 0 0 [] in
  x ← (if CHECK_FLAG message ZAPI_MESSAGE_NEXTHOP then
         nexthop_num ← stream_getc; get_nexthops (Z.to_nat nexthop_num) x
       else mret x);
  x ← (if CHECK_FLAG message ZAPI_MESSAGE_DISTANCE then
         distance ← stream_getc; mret (set_r_distance distance x)
       else mret x);
  x ← (if CHECK_FLAG message ZAPI_MESSAGE_METRIC then
         metric ← stream_getl;
         mret (Rib (r_type x) (r_table x) (r_distance x) (r_flags x) metric (r_refcnt x)
                 (r_nexthop_num x) (r_nexthop_active_num x) (r_nexthops x))
       else mret x);
  mret (p, x).

(** What zread_ipv4_delete reads: the type, the prefix, and the last gateway and
    interface index of the message; distance and metric are read and not used. *)
Fixpoint get_last_nexthop (n : nat) (nexthop : list Z) (ifindex : Z) : ST stream (list Z * Z) :=
  match n with
  | O => mret (nexthop, ifindex)
  | S n =>
      t ← stream_getc;
      '(nexthop, ifindex) ←
        (if t =? ZEBRA_NEXTHOP_IFINDEX then
           x ← stream_getl; mret (nexthop, x)
         else if t =? ZEBRA_NEXTHOP_IFNAME then
           ifname_len ← stream_getc;
           s ← st_get;
           st_put (stream_forward ifname_len s);;
           mret (nexthop, ifindex)
         else if t =? ZEBRA_NEXTHOP_IPV4 then
           a ← stream_get_ipv4; mret (a, ifindex)
         else if t =? ZEBRA_NEXTHOP_IPV6 then
           s ← st_get;
           st_put (stream_forward 16 s);;
           mret (nexthop, ifindex)
         else mret (nexthop, ifindex));
      get_last_nexthop n nexthop ifindex
  end.

Definition zread_ipv4_withdraw : ST stream (Z * prefix * Z) :=
  type ← stream_getc;
  flags ← stream_getc;
  message ← stream_getc;
  p ← get_prefix_ipv4;
  '(nexthop, ifindex) ←
    (if CHECK_FLAG message ZAPI_MESSAGE_NEXTHOP then
       nexthop_num ← stream_getc; get_last_nexthop (Z.to_nat nexthop_num) (replicate 4 0) 0
     else mret (replicate 4 0, 0));
  distance ← (if CHECK_FLAG message ZAPI_MESSAGE_DISTANCE then stream_getc else mret 0);
  metric ← (if CHECK_FLAG message ZAPI_MESSAGE_METRIC then stream_getl else mret 0);
  mret (type, p, ifindex).

(** ** The state of zebra with one client *)

Record server := Server {
  sv_ibuf : stream;
  sv_obuf : stream;
  sv_zebra : zebra;
  sv_sent : list (list Z);
}.

Definition on_ibuf {A} (m : ST stream A) : ST server A := λ x,
  '(a, s) ← m (sv_ibuf x);
  Ok (a, Server s (sv_obuf x) (sv_zebra x) (sv_sent x)).
Definition on_zebra {A} (m : ST zebra A) : ST server A := λ x,
  '(a, z) ← m (sv_zebra x);
  Ok (a, Server (sv_ibuf x) (sv_obuf x) z (sv_sent x)).

(** Make a message in [obuf] and hand it to zebra_server_send_message. *)
Definition send_obuf (m : ST stream (list Z)) : ST server unit := λ x,
  '(bs, s) ← m (sv_obuf x);
  Ok (tt, Server (sv_ibuf x) s (sv_zebra x) (sv_sent x ++ [bs])).

Section Kernel.
Context (MULTIPATH_NUM : Z) (netlink_talk : list action → action → Z).

Definition zread_ipv4_add : ST server unit :=
  '(p, x) ← on_ibuf zread_ipv4_route;
  on_zebra (rib_add_ipv4_multipath MULTIPATH_NUM netlink_talk p x).

Definition zread_ipv4_delete : ST server unit :=
  '(type, p, ifindex) ← on_ibuf zread_ipv4_withdraw;
  _ ← on_zebra (rib_delete_ipv4 MULTIPATH_NUM netlink_talk type p ifindex);
  mret tt.

End Kernel.

(** ** Routes to a client *)

(** The gateway and interface of the first nexthop in the forwarding table; [gate]
    tells which nexthops have a gateway. *)
Fixpoint put_first_fib (gate : nexthop → bool) (nhs : list nexthop) : ST stream unit :=
  match nhs with
  | [] => mret tt
  | nh :: nhs =>
      if CHECK_FLAG (nh_flags nh) NEXTHOP_FLAG_FIB then
        stream_putc 1;;
        stream_put_in_addr (if gate nh then nh_gate nh else replicate 4 0);;
        stream_putc 1;;
        stream_putl (nh_ifindex nh);;
        mret tt
      else put_first_fib gate nhs
  end.

Definition zsend_route (command message : Z) (gate : nexthop → bool) (metric : bool) (p : prefix) (x : rib) :
    ST stream unit :=
  stream_putc command;;
  stream_putc (r_type x);;
  stream_putc (r_flags x);;
  stream_putc message;;
  stream_putc (prefixlen p);;
  stream_write (u p) (PSIZE (prefixlen p));;
  put_first_fib gate (r_nexthops x);;
  put_when metric (stream_putl (r_metric x)).

Definition zsend_ipv4_add_multipath (p : prefix) (x : rib) : ST stream (list Z) :=
  in_message (zsend_route ZEBRA_IPV4_ROUTE_ADD
    (Z.lor (Z.lor ZAPI_MESSAGE_NEXTHOP ZAPI_MESSAGE_IFINDEX) ZAPI_MESSAGE_METRIC)
    (λ nh, bool_decide (nh_type nh = NEXTHOP_TYPE_IPV4) ||
           bool_decide (nh_type nh = NEXTHOP_TYPE_IPV4_IFINDEX)) true p x).

Definition zsend_ipv4_delete_multipath (p : prefix) (x : rib) : ST stream (list Z) :=
  in_message (zsend_route ZEBRA_IPV4_ROUTE_DELETE (Z.lor ZAPI_MESSAGE_NEXTHOP ZAPI_MESSAGE_IFINDEX)
    (λ nh, bool_decide (nh_type nh = NEXTHOP_TYPE_IPV4)) false p x).

(** ** Answers to lookups *)

Definition type_code (t : nexthop_type) : Z :=
  match t with
  | NEXTHOP_TYPE_IFINDEX => 1 | NEXTHOP_TYPE_IFNAME => 2 | NEXTHOP_TYPE_IPV4 => 3
  | NEXTHOP_TYPE_IPV4_IFINDEX => 4 | NEXTHOP_TYPE_IPV4_IFNAME => 5 | NEXTHOP_TYPE_IPV6 => 6
  | NEXTHOP_TYPE_IPV6_IFINDEX => 7 | NEXTHOP_TYPE_IPV6_IFNAME => 8 | NEXTHOP_TYPE_BLACKHOLE => 9
  end.

Fixpoint put_fib_nexthops (nhs : list nexthop) (num : Z) : ST stream Z :=
  match nhs with
  | [] => mret num
  | nh :: nhs =>
      if CHECK_FLAG (nh_flags nh) NEXTHOP_FLAG_FIB then
        stream_putc (type_code (nh_type nh));;
        match nh_type nh with
        | NEXTHOP_TYPE_IPV4 => stream_put_in_addr (nh_gate nh);; mret tt
        | NEXTHOP_TYPE_IFINDEX | NEXTHOP_TYPE_IFNAME => stream_putl (nh_ifindex nh);; mret tt
        | _ => mret tt
        end;;
        put_fib_nexthops nhs (u8 (num + 1))
      else put_fib_nexthops nhs num
  end.

(** zsend_ipv4_nexthop_lookup and zsend_ipv4_import_lookup, after the lookup. *)
Definition zsend_lookup (command : Z) (addr : list Z) (found : option rib) : ST stream unit :=
  stream_putc command;;
  stream_put_in_addr addr;;
  match found with
  | Some x =>
      stream_putl (r_metric x);;
      s ← st_get;
      let nump := s_putp s in
      stream_putc 0;;
      num ← put_fib_nexthops (r_nexthops x) 0;
      stream_putc_at nump num;;
      mret tt
  | None => stream_putl 0;; stream_putc 0;; mret tt
  end.

Definition read_found (r : option nat) : ST zebra (option rib) :=
  match r with
  | Some r => x ← rib_read r; mret (Some x)
  | None => mret None
  end.

Definition zread_ipv4_nexthop_lookup : ST server unit :=
  addr ← on_ibuf stream_get_ipv4;
  x ← on_zebra (r ← rib_match_ipv4 addr; read_found r);
  send_obuf (in_message (zsend_lookup ZEBRA_IPV4_NEXTHOP_LOOKUP addr x)).

Definition zread_ipv4_import_lookup : ST server unit :=
  plen ← on_ibuf stream_getc;
  addr ← on_ibuf stream_get_ipv4;
  x ← on_zebra (r ← rib_lookup_ipv4 (Prefix AF_INET plen (addr ++ replicate 4 0)); read_found r);
  send_obuf (in_message (zsend_lookup ZEBRA_IPV4_IMPORT_LOOKUP addr x)).

(** ** Reading a message *)

(** The first half of zebra_client_read: the header, then the rest of the message;
    [None] when the connection is closed.  The two arguments are what the two runs
    of stream_read find on the socket. *)
Definition client_receive (header body : read_calls) : ST stream (option (Z * Z)) :=
  nbyte ← stream_read header 3;
  if nbyte <=? 0 then mret None
  else
    length ← stream_getw;
    command ← stream_getc;
    if length <? 3 then mret None
    else
      let length := u16 (length - 3) in
      if length =? 0 then mret (Some (command, length))
      else
        nbyte ← stream_read body length;
        if nbyte <=? 0 then mret None else mret (Some (command, length)).

(** zebra_client_read; [zread_other] handles the commands about interfaces and
    redistribution, and does nothing for an unknown command. *)
Section Read.
Context (MULTIPATH_NUM : Z) (netlink_talk : list action → action → Z) (zread_other : Z → ST server unit).

Definition zread_command (command : Z) : ST server unit :=
  if command =? ZEBRA_IPV4_ROUTE_ADD then zread_ipv4_add MULTIPATH_NUM netlink_talk
  else if command =? ZEBRA_IPV4_ROUTE_DELETE then zread_ipv4_delete MULTIPATH_NUM netlink_talk
  else if command =? ZEBRA_IPV4_NEXTHOP_LOOKUP then zread_ipv4_nexthop_lookup
  else if command =? ZEBRA_IPV4_IMPORT_LOOKUP then zread_ipv4_import_lookup
  else zread_other command.

(** The result is -1 when the client is closed. *)
Definition zebra_client_read (header body : read_calls) : ST server Z :=
  r ← on_ibuf (client_receive header body);
  match r with
  | None => mret (-1)
  | Some (command, length) =>
      zread_command command;;
      on_ibuf (λ s, Ok (tt, stream_reset s));;
      mret 0
  end.

End Read.
