(* ===== verification/ZapiFacts.v ===== *)
(** What the messages between zebra and its clients look like on the wire, and that
    the reader finds what the writer put. *)

From stdpp Require Import strings.
From S2P Require Import Prelude Prefix Table TableView Stream StreamCalc Rib Zapi.

(** * Messages *)

(** The whole message: [put_length] overwrites the two octets at the front. *)
Lemma message_put {A} (m : ST stream A) bs s :
  writes m bs → stream_ok s → Z.of_nat (length bs) + 2 ≤ s_size s → Z.of_nat (length bs) + 2 < 2^16 →
  ∃ s', in_message m s =
    Ok (be16 (Z.of_nat (length bs) + 2) ++ bs, s') ∧ stream_ok s' ∧ s_size s' = s_size s.
Proof.
  intros Hm Hs Hr H16. set (s0 := stream_reset s).
  assert (stream_ok s0) as Hs0 by (destruct Hs; split; cbn; try done; lia).
  destruct (writes_bind (stream_putw 0) (λ _, m) (be16 0) bs (writes_putw 0) (λ _, Hm) s0)
    as (a & Ha & Hok); [done|cbn; lia|unfold room; cbn; lia|].
  unfold in_message. erewrite st_bind_Ok by done. erewrite st_bind_Ok by done. fold s0.
  assert ((stream_putw 0 ≫= λ _, m ≫= λ _, put_length) s0 = put_length (append (be16 0 ++ bs) s0)) as ->.
  { unfold mbind, ST_bind in *. destruct (stream_putw 0 s0) as [[? ?]|]; [|done]. by rewrite Ha. }
  set (n := Z.of_nat (length bs) + 2). unfold put_length. erewrite st_bind_Ok by done.
  assert (s_endp (append (be16 0 ++ bs) s0) = n) as Hend by (cbn; lia).
  unfold stream_get_endp. rewrite Hend.
  assert (s_data (append (be16 0 ++ bs) s0) = 0 :: 0 :: bs ++ drop (2 + length bs) (s_data s)) as Hd by done.
  assert (Z.of_nat (length (s_data s)) = s_size s) as Hlen by (destruct Hs; lia).
  erewrite st_bind_Ok.
  2:{ unfold stream_putw_at. rewrite Hd. rewrite set_byte_in by (cbn [length]; lia). cbn [mbind res_bind].
      change (u64 (0 + 1)) with 1. rewrite set_byte_in by (rewrite length_insert; cbn [length]; lia). done. }
  erewrite st_bind_Ok by done. cbn [set_data s_data]. unfold st_lift.
  change (s_endp (set_data ?d ?x)) with (s_endp x). rewrite Hend.
  change (<[Z.to_nat 1 := u8 n]> (<[Z.to_nat 0 := u8 (Z.shiftr n 8)]>
    (0 :: 0 :: bs ++ drop (2 + length bs) (s_data s)))) with
    (be16 n ++ bs ++ drop (2 + length bs) (s_data s)).
  rewrite get_bytes_in; [|lia|lia|].
  2:{ rewrite !length_app, length_drop. cbn. lia. }
  cbn [mbind res_bind]. change (Z.to_nat 0) with 0%nat. rewrite drop_0.
  rewrite app_assoc, take_app_length' by (rewrite length_app; cbn; lia).
  eexists. split; [done|]. split; [|done].
  destruct Hok as [Hsz Hmx Hpp Hee Hgg Hbb]. rewrite Hd in Hsz, Hbb. split; try done.
  unfold bytes_ok in *. rewrite !Forall_cons in Hbb. cbn [set_data s_data].
  rewrite <- app_assoc. apply Forall_app. split; [apply be_bytes_ok16|tauto].
Qed.

(** * Route messages of a client *)

(** A route a client may send. *)
Record zapi_ok (api : zapi_ipv4) : Prop := ZapiOk {
  zo_type : is_u8 (za_type api);
  zo_flags : is_u8 (za_flags api);
  zo_message : is_u8 (za_message api);
  zo_nexthop_num : za_nexthop_num api = Z.of_nat (length (za_nexthop api));
  zo_nexthop : Forall ipv4_ok (za_nexthop api);
  zo_ifindex_num : za_ifindex_num api = Z.of_nat (length (za_ifindex api));
  zo_ifindex : Forall is_u32 (za_ifindex api);
  zo_num : is_u8 (za_nexthop_num api + za_ifindex_num api);
  zo_blackhole : CHECK_FLAG (za_flags api) ZEBRA_FLAG_BLACKHOLE = true →
    za_nexthop api = [] ∧ za_ifindex api = [];
  zo_distance : is_u8 (za_distance api);
  zo_metric : is_u32 (za_metric api);
}.

Definition gateway_bytes (l : list (list Z)) : list Z := l ≫= λ a, ZEBRA_NEXTHOP_IPV4 :: a.
Definition ifindex_bytes (l : list Z) : list Z := l ≫= λ x, ZEBRA_NEXTHOP_IFINDEX :: be32 x.

Definition nexthop_bytes (api : zapi_ipv4) : list Z :=
  (if CHECK_FLAG (za_flags api) ZEBRA_FLAG_BLACKHOLE then [1; ZEBRA_NEXTHOP_BLACKHOLE]
   else [za_nexthop_num api + za_ifindex_num api]) ++
  gateway_bytes (za_nexthop api) ++ ifindex_bytes (za_ifindex api).

(** The prefix as it is sent: its length and as many octets as the length needs. *)
Definition prefix_bytes (p : prefix) : list Z :=
  prefixlen p :: take (Z.to_nat (PSIZE (prefixlen p))) (u p).

(** The octets of a message behind its length and command. *)
Definition route_bytes (p : prefix) (api : zapi_ipv4) : list Z :=
  [za_type api; za_flags api; za_message api] ++ prefix_bytes p ++
  (if CHECK_FLAG (za_message api) ZAPI_MESSAGE_NEXTHOP then nexthop_bytes api else []) ++
  (if CHECK_FLAG (za_message api) ZAPI_MESSAGE_DISTANCE then [za_distance api] else []) ++
  (if CHECK_FLAG (za_message api) ZAPI_MESSAGE_METRIC then be32 (za_metric api) else []).

Lemma writes_nexthops nexthop n i :
  Forall ipv4_ok nexthop → (i + n = length nexthop)%nat →
  writes (put_nexthops n (Z.of_nat i) nexthop) (gateway_bytes (drop i nexthop)).
Proof.
  intros Hn. revert i. induction n as [|n IH]; intros i Hi.
  { rewrite drop_ge by lia. apply writes_ret. }
  destruct (lookup_lt_is_Some_2 nexthop i) as [a Ha]; [lia|].
  pose proof (Forall_lookup_1 _ _ _ _ Hn Ha) as [Hb Hl]. cbn [put_nexthops].
  rewrite (drop_S _ _ _ Ha). apply (writes_bind _ _ [ZEBRA_NEXTHOP_IPV4]); [by apply writes_putc|].
  intros _. apply (writes_lift_ret a); [by apply arr_get_in|].
  apply writes_bind; [by apply writes_put_in_addr|]. intros _.
  replace (Z.of_nat i + 1) with (Z.of_nat (S i)) by lia. apply IH. lia.
Qed.

Lemma writes_ifindices ifindex n i :
  Forall is_u32 ifindex → (i + n = length ifindex)%nat →
  writes (put_ifindices n (Z.of_nat i) ifindex) (ifindex_bytes (drop i ifindex)).
Proof.
  intros Hn. revert i. induction n as [|n IH]; intros i Hi.
  { rewrite drop_ge by lia. apply writes_ret. }
  destruct (lookup_lt_is_Some_2 ifindex i) as [x Hx]; [lia|]. cbn [put_ifindices].
  rewrite (drop_S _ _ _ Hx). apply (writes_bind _ _ [ZEBRA_NEXTHOP_IFINDEX]); [by apply writes_putc|].
  intros _. apply (writes_lift_ret x); [by apply arr_get_in|].
  apply writes_bind; [apply writes_putl|]. intros _.
  replace (Z.of_nat i + 1) with (Z.of_nat (S i)) by lia. apply IH. lia.
Qed.

(** How many octets of the address a length needs. *)
Lemma psize_bound len : 0 ≤ len ≤ 32 → 0 ≤ PSIZE len ≤ 4 ∧ len ≤ 8 * PSIZE len.
Proof. unfold PSIZE. intros. dm_lia. Qed.

Lemma length_gateway_bytes l : Forall ipv4_ok l → length (gateway_bytes l) = (5 * length l)%nat.
Proof.
  induction 1 as [|a l [_ Ha] _ IH]; [done|]. unfold gateway_bytes in *. cbn in *.
  rewrite length_app. lia.
Qed.
Lemma length_ifindex_bytes l : length (ifindex_bytes l) = (5 * length l)%nat.
Proof. induction l as [|x l IH]; [done|]. unfold ifindex_bytes in *. cbn in *. lia. Qed.

Lemma length_when {A} (b : bool) (l : list A) : (length (if b then l else []) ≤ length l)%nat.
Proof. destruct b; cbn; lia. Qed.

Lemma length_nexthop_bytes api :
  zapi_ok api → (length (nexthop_bytes api) ≤ 2 + 5 * 255)%nat.
Proof.
  intros Ha. unfold nexthop_bytes. rewrite !length_app, length_ifindex_bytes.
  rewrite length_gateway_bytes by apply Ha.
  pose proof (zo_num _ Ha) as [_ Hn]. rewrite (zo_nexthop_num _ Ha), (zo_ifindex_num _ Ha) in Hn.
  case_match; cbn [length]; lia.
Qed.

Lemma route_bytes_short p api :
  ipv4_prefix p → zapi_ok api → (length (route_bytes p api) ≤ 1300)%nat.
Proof.
  intros (_ & _ & Hlen & _) Ha. destruct (psize_bound _ Hlen) as [Hps _].
  unfold route_bytes, prefix_bytes. rewrite !length_app. cbn [length].
  rewrite length_take. pose proof (length_nexthop_bytes api Ha).
  pose proof (length_when (CHECK_FLAG (za_message api) ZAPI_MESSAGE_NEXTHOP) (nexthop_bytes api)).
  pose proof (length_when (CHECK_FLAG (za_message api) ZAPI_MESSAGE_DISTANCE) [za_distance api]) as Hd.
  pose proof (length_when (CHECK_FLAG (za_message api) ZAPI_MESSAGE_METRIC) (be32 (za_metric api))) as Hm.
  cbn [length] in Hd. change (length (be32 (za_metric api))) with 4%nat in Hm. lia.
Qed.

(** One step of a program that writes. *)
Lemma writes_prefix {A} p (k : ST stream A) bs :
  ipv4_prefix p → writes k bs →
  writes (stream_putc (prefixlen p);; stream_write (u p) (PSIZE (prefixlen p));; k) (prefix_bytes p ++ bs).
Proof.
  intros (_ & Hb & Hlen & Hu) Hk. destruct (psize_bound _ Hlen) as [Hps _].
  apply (writes_bind _ _ [prefixlen p]); [apply writes_putc; unfold is_u8; lia|]. intros _.
  apply writes_bind; [|by intros _].
  replace (PSIZE (prefixlen p)) with (Z.of_nat (Z.to_nat (PSIZE (prefixlen p)))) at 1 by lia.
  apply writes_write; [done|lia|lia].
Qed.

(** What the client puts behind the length. *)
Lemma writes_route command p api :
  is_u8 command → ipv4_prefix p → zapi_ok api →
  writes (zapi_ipv4_body command p api) (command :: route_bytes p api).
Proof.
  intros Hc Hp Ha. unfold zapi_ipv4_body, route_bytes. pose proof Ha as [].
  wstep command. wstep (za_type api). wstep (za_flags api). wstep (za_message api).
  apply writes_prefix; [done|]. apply writes_bind.
  - apply writes_when. intros _. unfold nexthop_bytes. apply writes_bind.
    + case_match; [by wstep 1; apply writes_putc|by apply writes_putc].
    + intros _. rewrite zo_nexthop_num0, zo_ifindex_num0, !Nat2Z.id.
      apply writes_bind; [by apply (writes_nexthops _ _ 0)|]. intros _. by apply (writes_ifindices _ _ 0).
  - intros _. apply writes_bind; [apply writes_when; intros _; by apply writes_putc|].
    intros _. apply writes_when. intros _. apply writes_putl.
Qed.

(** ** What the server reads *)

(** The prefix at the server: the octets that were sent, then zeros. *)
Definition sent_prefix (p : prefix) : prefix :=
  let n := Z.to_nat (PSIZE (prefixlen p)) in
  Prefix AF_INET (prefixlen p) ((take n (u p) ++ replicate (4 - n) 0) ++ replicate 4 0).

Lemma reads_prefix p : ipv4_prefix p → reads get_prefix_ipv4 (prefix_bytes p) (sent_prefix p).
Proof.
  intros (_ & Hb & Hlen & Hu). destruct (psize_bound _ Hlen) as [Hps _].
  unfold get_prefix_ipv4. apply (reads_bind _ _ [prefixlen p] _ (prefixlen p)); [apply reads_getc|].
  set (n := Z.to_nat (PSIZE (prefixlen p))).
  assert (length (take n (u p)) = n) as Hn by (rewrite length_take; lia).
  rewrite <- (app_nil_r (take _ _)). apply (reads_bind _ _ _ _ (take n (u p))).
  { replace (PSIZE (prefixlen p)) with (Z.of_nat n) by lia. by apply reads_get. }
  apply (reads_lift (take n (u p) ++ replicate (4 - n) 0)); [|apply reads_ret].
  rewrite put_bytes_in by (rewrite ?length_replicate; lia). change (Z.to_nat 0) with 0%nat.
  cbn [take app]. by rewrite drop_replicate, Nat.add_0_l, Hn.
Qed.

Lemma sent_prefix_ok p : ipv4_prefix p → ipv4_prefix (sent_prefix p) ∧ pbits (sent_prefix p) = pbits p.
Proof.
  intros (Hf & Hb & Hlen & Hu). destruct (psize_bound _ Hlen) as [Hps Hbits].
  set (n := Z.to_nat (PSIZE (prefixlen p))). unfold sent_prefix, ipv4_prefix. fold n. cbn.
  assert (bytes_ok (replicate 4 0)) by by apply bytes_ok_decide.
  assert (n ≤ 4)%nat by (unfold n; lia).
  split; [split_and!; try done; try lia|].
  - apply Forall_app. split; [|done]. apply Forall_app. split; [by apply Forall_take|].
    apply Forall_replicate. by unfold is_u8.
  - rewrite !length_app, length_take, length_replicate. cbn. lia.
  - assert (∀ rest, take (Z.to_nat (prefixlen p)) (bits_of (take n (u p) ++ rest)) =
      take (Z.to_nat (prefixlen p)) (bits_of (take n (u p)))) as Htake.
    { intros rest. unfold bits_of. rewrite bind_app. apply take_app_le.
      fold (bits_of (take n (u p))). rewrite length_bits_of, length_take. lia. }
    unfold pbits. cbn. rewrite <- app_assoc, Htake. rewrite <- (take_drop n (u p)) at 2. by rewrite Htake.
Qed.

(** The route the server makes of a message. *)
Definition route_nexthops (api : zapi_ipv4) (x : rib) : rib :=
  if CHECK_FLAG (za_flags api) ZEBRA_FLAG_BLACKHOLE then nexthop_blackhole_add x
  else foldl (λ x i, nexthop_ifindex_add i x) (foldl (λ x a, nexthop_ipv4_add a x) x (za_nexthop api))
         (za_ifindex api).

Definition zapi_route (api : zapi_ipv4) : rib :=
  let x := Rib (za_type api) 0 0 (za_flags api) 0 0 0 0 [] in
  let x := if CHECK_FLAG (za_message api) ZAPI_MESSAGE_NEXTHOP then route_nexthops api x else x in
  let x := if CHECK_FLAG (za_message api) ZAPI_MESSAGE_DISTANCE
           then set_r_distance (za_distance api) x else x in
  if CHECK_FLAG (za_message api) ZAPI_MESSAGE_METRIC
  then Rib (r_type x) (r_table x) (r_distance x) (r_flags x) (za_metric api) (r_refcnt x)
         (r_nexthop_num x) (r_nexthop_active_num x) (r_nexthops x)
  else x.

Lemma reads_gateways l m x bs y :
  Forall ipv4_ok l →
  reads (get_nexthops m (foldl (λ x a, nexthop_ipv4_add a x) x l)) bs y →
  reads (get_nexthops (length l + m) x) (gateway_bytes l ++ bs) y.
Proof.
  intros Hl. revert x. induction Hl as [|a l [_ Ha] _ IH]; intros x Hr; [done|].
  change (gateway_bytes (a :: l) ++ bs) with ([ZEBRA_NEXTHOP_IPV4] ++ (a ++ gateway_bytes l) ++ bs).
  cbn [length Nat.add get_nexthops]. apply (reads_bind _ _ _ _ ZEBRA_NEXTHOP_IPV4); [apply reads_getc|].
  cbn [Z.eqb ZEBRA_NEXTHOP_IPV4 ZEBRA_NEXTHOP_IFINDEX ZEBRA_NEXTHOP_IFNAME Pos.eqb].
  rewrite <- app_assoc. apply (reads_bind _ _ _ _ (nexthop_ipv4_add a x)).
  - apply (reads_map stream_get_ipv4 (λ a, nexthop_ipv4_add a x)). by apply reads_get_ipv4.
  - by apply IH.
Qed.

Lemma reads_ifindices l m x bs y :
  Forall is_u32 l →
  reads (get_nexthops m (foldl (λ x i, nexthop_ifindex_add i x) x l)) bs y →
  reads (get_nexthops (length l + m) x) (ifindex_bytes l ++ bs) y.
Proof.
  intros Hl. revert x. induction Hl as [|i l Hi _ IH]; intros x Hr; [done|].
  change (ifindex_bytes (i :: l) ++ bs) with ([ZEBRA_NEXTHOP_IFINDEX] ++ (be32 i ++ ifindex_bytes l) ++ bs).
  cbn [length Nat.add get_nexthops]. apply (reads_bind _ _ _ _ ZEBRA_NEXTHOP_IFINDEX); [apply reads_getc|].
  cbn [Z.eqb ZEBRA_NEXTHOP_IFINDEX Pos.eqb].
  rewrite <- app_assoc. apply (reads_bind _ _ _ _ (nexthop_ifindex_add i x)).
  - apply (reads_map stream_getl (λ i, nexthop_ifindex_add i x)). by apply reads_getl.
  - by apply IH.
Qed.

Lemma reads_nexthops api x :
  zapi_ok api →
  reads (n ← stream_getc; get_nexthops (Z.to_nat n) x) (nexthop_bytes api) (route_nexthops api x).
Proof.
  intros Ha. unfold nexthop_bytes, route_nexthops.
  destruct (CHECK_FLAG (za_flags api) ZEBRA_FLAG_BLACKHOLE) eqn:Hbh.
  - destruct (zo_blackhole _ Ha Hbh) as [-> ->].
    apply (reads_bind _ _ [1] [ZEBRA_NEXTHOP_BLACKHOLE] 1); [apply reads_getc|].
    apply (reads_bind _ _ [ZEBRA_NEXTHOP_BLACKHOLE] [] ZEBRA_NEXTHOP_BLACKHOLE); [apply reads_getc|].
    apply (reads_bind _ _ [] [] (nexthop_blackhole_add x)); apply reads_ret.
  - apply (reads_bind _ _ _ _ (za_nexthop_num api + za_ifindex_num api)); [apply reads_getc|].
    rewrite (zo_nexthop_num _ Ha), (zo_ifindex_num _ Ha).
    replace (Z.to_nat (Z.of_nat (length (za_nexthop api)) + Z.of_nat (length (za_ifindex api))))
      with (length (za_nexthop api) + (length (za_ifindex api) + 0))%nat by lia.
    apply reads_gateways; [apply Ha|]. rewrite <- (app_nil_r (ifindex_bytes _)).
    apply reads_ifindices; [apply Ha|]. apply reads_ret.
Qed.

(** A part of the message that a flag announces. *)
Lemma reads_flag {A} (b : bool) (m : ST stream A) x bs y :
  (b = true → reads m bs y) →
  reads (if b then m else mret x) (if b then bs else []) (if b then y else x).
Proof. intros Hm. destruct b; [by apply Hm|apply reads_ret]. Qed.

Lemma reads_route p api :
  ipv4_prefix p → zapi_ok api →
  reads zread_ipv4_route (route_bytes p api) (sent_prefix p, zapi_route api).
Proof.
  intros Hp Ha. unfold zread_ipv4_route, route_bytes.
  apply (reads_bind _ _ [za_type api] _ (za_type api)); [apply reads_getc|].
  apply (reads_bind _ _ [za_flags api] _ (za_flags api)); [apply reads_getc|].
  apply (reads_bind _ _ [za_message api] _ (za_message api)); [apply reads_getc|].
  apply (reads_bind _ _ _ _ (sent_prefix p)); [by apply reads_prefix|].
  eapply reads_bind; [apply reads_flag; intros _; by apply reads_nexthops|].
  eapply reads_bind.
  { apply reads_flag. intros _. apply (reads_map stream_getc (λ d, set_r_distance d _)). apply reads_getc. }
  rewrite <- (app_nil_r (if CHECK_FLAG _ ZAPI_MESSAGE_METRIC then _ else _)).
  eapply reads_bind; [|apply reads_ret].
  apply reads_flag. intros _.
  apply (reads_map stream_getl (λ m, Rib _ _ _ _ m _ _ _ _)). apply reads_getl, Ha.
Qed.
