(* ===== verification/ZapiRib.v ===== *)
(** From a client's route to the routing information base: what a daemon sends with
    zapi_ipv4_add arrives in zebra, in whatever pieces the socket delivers it, and
    becomes a route of the table. *)

From stdpp Require Import strings.
From S2P Require Import Prelude Prefix Table TableFacts TableRep TableWalk TableGet TableDelete TableIter.
From S2P Require Import TableSpec TableView Stream StreamCalc Rib RibLookup RibProcess RibState Zapi ZapiFacts.

(** * Adding a route with several nexthops *)

Section Multipath.
Context (MULTIPATH_NUM : Z) (netlink_talk : list action → action → Z).

(** What a caller of rib_add_ipv4_multipath hands over. *)
Record route_args (x : rib) (d : Z) : Prop := RouteArgs {
  ra_table : r_table x = 0;
  ra_nexthops : Forall nh_ok (r_nexthops x);
  ra_length : (length (r_nexthops x) < 256)%nat;
  ra_flags : CHECK_FLAG (r_flags x) ZEBRA_FLAG_SELECTED = false;
  ra_refcnt : r_refcnt x = 0;
  ra_distance : default_distance (r_type x) (r_flags x) (r_distance x) = Ok d;
  ra_range : is_u8 (r_distance x);
  ra_connected : r_type x = ZEBRA_ROUTE_CONNECT → r_distance x = 0;
}.

(** The route of the same type and table that is replaced. *)
Definition replaced_in z (x : rib) (rs : list nat) (same : option nat) : Prop :=
  match same with
  | Some s => s ∈ rs ∧ ∃ y, z_ribs z !! s = Some y ∧ r_type y = r_type x ∧ r_table y = r_table x ∧
                connected y = false
  | None => ∀ r y, r ∈ rs → z_ribs z !! r = Some y → r_type y = r_type x → r_table y = r_table x →
              connected y = true
  end.

Lemma same_multipath_run z x rs :
  (∀ r, r ∈ rs → is_Some (z_ribs z !! r)) →
  ∃ same, same_multipath x rs z = Ok (same, z) ∧ replaced_in z x rs same.
Proof.
  induction rs as [|r rs IH]; intros Hin; cbn [same_multipath].
  { exists None. split; [done|]. by intros ? ? ?%not_elem_of_nil. }
  destruct (Hin r ltac:(by left)) as [y Hy]. rewrite (st_bind_Ok _ _ _ _ _ (rib_read_in _ _ _ Hy)).
  destruct (Z.eqb_spec (r_type y) (r_type x)) as [Ht|Ht], (Z.eqb_spec (r_table y) (r_table x)) as [Htb|Htb],
    (Z.eqb_spec (r_type y) ZEBRA_ROUTE_CONNECT) as [Hc|Hc]; cbn [andb negb].
  2:{ exists (Some r). split; [done|]. split; [by left|]. exists y. unfold connected.
      split_and!; try done. by apply Z.eqb_neq. }
  all: destruct IH as (same & Hrun & Hsame); [intros q Hq; apply Hin; by right|].
  all: exists same; split; [done|].
  all: destruct same as [s|]; [destruct Hsame as [Hs ?]; split; [by right|done]|].
  all: intros q z' [->|Hq]%elem_of_cons Hz' Hty Htab; [|by eapply Hsame].
  all: assert (z' = y) as -> by congruence; unfold connected; try done; by apply Z.eqb_eq.
Qed.

Lemma all_fib_good x d :
  route_args x d →
  let y := set_all_fib (set_r_distance d x) in
  rib_good y ∧ rib_selected y = false ∧ r_refcnt y = 0.
Proof.
  intros [Htab Hnh Hlen Hfl Hrc Hd Hu Hc]. destruct (default_distance_range _ _ _ _ Hd Hu) as [H0 Hcon].
  assert (Hfib : Forall nh_ok (set_fib <$> r_nexthops x)).
  { apply Forall_fmap. eapply Forall_impl; [exact Hnh|]. by intros nh. }
  cbv zeta. unfold set_all_fib. cbn [r_type set_r_distance].
  destruct ((r_type x =? ZEBRA_ROUTE_KERNEL) || (r_type x =? ZEBRA_ROUTE_CONNECT)); (split; [|done]);
    split; cbn; rewrite ?length_fmap; try done;
    intros E; apply Z.eqb_eq in E; cbn in E; auto.
Qed.

Lemma rib_add_ipv4_multipath_run z p x d :
  zinv z → locks_below (2^32 - 2) (z_table z) → ipv4_prefix p → route_args x d →
  let rs := default [] (abs (z_table z) !! pbits p) in
  ∃ z' same, rib_add_ipv4_multipath MULTIPATH_NUM netlink_talk p x z = Ok (tt, z') ∧
    replaced_in z x rs same ∧
    inserted z (pbits p) rs same (set_all_fib (set_r_distance d x)) z'.
Proof.
  intros Hz Hlk Hp Hargs rs. destruct (add_node_run z p Hz Hlk Hp) as (q & rn & t1 & Hq & Hget & Hribs & Hrs & Habs & Hre).
  fold rs in Hrs. unfold rib_add_ipv4_multipath.
  rewrite (st_bind_Ok _ _ _ q z) by (unfold st_lift; by rewrite Hq).
  rewrite (st_bind_Ok _ _ _ d z) by (unfold st_lift; by rewrite (ra_distance _ _ Hargs)).
  rewrite (st_bind_Ok _ _ _ _ _ Hget), (st_bind_Ok _ _ _ _ _ Hribs).
  destruct (same_multipath_run (set_z_table t1 z) x (routes (z_table z) rn)) as (same & Hrun & Hsame).
  { intros r Hr. by apply (routes_in z rn). }
  rewrite (st_bind_Ok _ _ _ _ _ Hrun).
  destruct (all_fib_good x d Hargs) as (Hg0 & Hs0 & Hr0).
  destruct (insert_route_run MULTIPATH_NUM netlink_talk z _ rn (set_all_fib (set_r_distance d x)) same t1 Hz Hre) as (z' & Hrun' & Hins);
    [intros s ->; apply Hsame|done..|].
  exists z', same. rewrite <- Hrs. by split_and!.
Qed.

End Multipath.

(** * Delivery *)

(** A buffer that waits for a message. *)
Record waiting (s : stream) : Prop := Waiting {
  wt_ok : stream_ok s;
  wt_size : s_size s = ZEBRA_MAX_PACKET_SIZ;
  wt_putp : s_putp s = 0;
  wt_getp : s_getp s = 0;
  wt_endp : s_endp s = 0;
}.

Lemma waiting_new : waiting (stream_new ZEBRA_MAX_PACKET_SIZ).
Proof. split; try done. apply stream_new_ok. unfold ZEBRA_MAX_PACKET_SIZ. lia. Qed.

Lemma append_ahead bs s : waiting s → ∃ rest, ahead (append bs s) = bs ++ rest.
Proof.
  intros []. exists (drop (length bs) (s_data s)). unfold ahead, append, splice. cbn.
  by rewrite wt_putp0, wt_getp0.
Qed.

Lemma reset_waiting s : stream_ok s → s_size s = ZEBRA_MAX_PACKET_SIZ → waiting (stream_reset s).
Proof. intros [] Hsz. split; try done. split; cbn; try done; lia. Qed.

(** A message as it stands on the wire. *)
Definition framed (command : Z) (body : list Z) : list Z :=
  be16 (Z.of_nat (length body) + 3) ++ command :: body.

(** The header is read, and the buffer is at the body. *)
Lemma receive_header command len chunks s :
  waiting s → is_u8 command → is_u16 len → Forall (λ c, c ≠ []) chunks →
  concat chunks = be16 len ++ [command] →
  let s1 := append (be16 len ++ [command]) s in
  stream_read (Some <$> chunks) 3 s = Ok (3, s1) ∧ stream_getw s1 = Ok (len, skip 2 s1) ∧
  stream_getc (skip 2 s1) = Ok (command, skip 3 s1) ∧ stream_ok (skip 3 s1).
Proof.
  intros Hw Hc Hlen Hne Hhd s1. pose proof Hw as [Hs Hsz Hpp Hgp Hep]. unfold ZEBRA_MAX_PACKET_SIZ in *.
  destruct (stream_read_collects chunks 3 s Hs) as [Hr1 Hs1];
    [lia|done|rewrite Hhd; apply Forall_app; split; [apply be_bytes_ok16|by constructor]|
     rewrite Hhd; unfold room; cbn; lia|].
  rewrite Hhd in Hr1, Hs1. fold s1 in Hr1, Hs1.
  destruct (append_ahead (be16 len ++ [command]) s Hw) as [rest Hah]. fold s1 in Hah.
  rewrite <- app_assoc in Hah.
  pose proof (skip_ok s1 (be16 len) _ Hs1 Hah) as Hs2. pose proof (ahead_skip s1 (be16 len) _ Hs1 Hah) as Hah2.
  change (length (be16 len)) with 2%nat in Hs2, Hah2. change stream_getc with next_byte.
  split_and!; [done|by eapply stream_getw_ahead| |].
  - rewrite (next_byte_ahead _ command rest Hs2 Hah2). by rewrite skip_skip.
  - pose proof (skip_ok _ [command] rest Hs2 Hah2) as Hs3. by rewrite skip_skip in Hs3.
Qed.

(** The body lands behind the header, where the buffer is read next. *)
Lemma receive_body hdr body chunks s :
  waiting s → bytes_ok hdr → bytes_ok body → stream_ok (skip (length hdr) (append hdr s)) →
  Z.of_nat (length hdr + length body) ≤ ZEBRA_MAX_PACKET_SIZ → Forall (λ c, c ≠ []) chunks → concat chunks = body →
  ∃ s4, stream_read (Some <$> chunks) (Z.of_nat (length body)) (skip (length hdr) (append hdr s)) =
      Ok (Z.of_nat (length body), s4) ∧
    stream_ok s4 ∧ s_size s4 = s_size s ∧ ∃ rest, ahead s4 = body ++ rest.
Proof.
  intros Hw Hbh Hb Hs3 Hmax Hne Hbody. pose proof Hw as [Hs Hsz Hpp Hgp Hep]. unfold ZEBRA_MAX_PACKET_SIZ in *.
  destruct (stream_read_collects chunks (Z.of_nat (length body)) _ Hs3) as [Hr4 Hs4];
    [cbn; lia|done|by rewrite Hbody|rewrite Hbody; unfold room; cbn; lia|].
  rewrite Hbody in *. eexists. split_and!; [done|done|done|].
  assert (append body (skip (length hdr) (append hdr s)) = skip (length hdr) (append (hdr ++ body) s)) as ->.
  { by rewrite <- append_append; [|done|unfold room; lia]. }
  destruct (append_ahead (hdr ++ body) s Hw) as [rest' Hrest']. exists rest'.
  rewrite <- app_assoc in Hrest'. apply ahead_skip; [|done].
  apply append_ok; [done|by apply Forall_app|unfold room; rewrite length_app; lia].
Qed.

(** A message cut into pieces: the pieces of the header and those of the body. *)
Record pieces (command : Z) (body : list Z) (header_chunks body_chunks : list (list Z)) : Prop := Pieces {
  pc_command : is_u8 command;
  pc_bytes : bytes_ok body;
  pc_nonempty : (0 < length body)%nat;
  pc_size : Z.of_nat (length body) + 3 < ZEBRA_MAX_PACKET_SIZ;
  pc_header : Forall (λ c, c ≠ []) header_chunks;
  pc_body : Forall (λ c, c ≠ []) body_chunks;
  pc_all : concat header_chunks ++ concat body_chunks = framed command body;
  pc_cut : length (concat header_chunks) = 3%nat;
}.

Lemma pieces_split command body header_chunks body_chunks :
  pieces command body header_chunks body_chunks →
  concat header_chunks = be16 (Z.of_nat (length body) + 3) ++ [command] ∧ concat body_chunks = body.
Proof.
  intros Hp. pose proof (pc_all _ _ _ _ Hp) as Hm. unfold framed in Hm.
  change (command :: body) with ([command] ++ body) in Hm. rewrite app_assoc in Hm.
  apply app_inj_1 in Hm; [done|]. by rewrite (pc_cut _ _ _ _ Hp).
Qed.

Lemma client_receive_run command body header_chunks body_chunks s :
  waiting s → pieces command body header_chunks body_chunks →
  ∃ s', client_receive (Some <$> header_chunks) (Some <$> body_chunks) s =
      Ok (Some (command, Z.of_nat (length body)), s') ∧
    stream_ok s' ∧ s_size s' = s_size s ∧ ∃ rest, ahead s' = body ++ rest.
Proof.
  intros Hw Hp. destruct (pieces_split _ _ _ _ Hp) as [Hhd Hbd]. destruct Hp as [Hc Hb H0 Hmax Hh Hbc _ _].
  unfold ZEBRA_MAX_PACKET_SIZ in Hmax. set (len := Z.of_nat (length body) + 3) in *.
  destruct (receive_header command len header_chunks s Hw Hc ltac:(unfold is_u16; lia) Hh Hhd)
    as (H1 & H2 & H3 & Hs3).
  destruct (receive_body (be16 len ++ [command]) body body_chunks s Hw) as (s4 & H4 & Hs4); try done.
  { apply Forall_app. split; [apply be_bytes_ok16|by apply Forall_singleton]. }
  { unfold ZEBRA_MAX_PACKET_SIZ. rewrite length_app. cbn [length be16]. lia. }
  exists s4. split; [|done]. unfold client_receive. rewrite (st_bind_Ok _ _ _ _ _ H1).
  change (3 <=? 0) with false. cbv iota. rewrite (st_bind_Ok _ _ _ _ _ H2), (st_bind_Ok _ _ _ _ _ H3).
  rewrite (proj2 (Z.ltb_ge len 3)) by lia.
  assert (u16 (len - 3) = Z.of_nat (length body)) as -> by (rewrite u16_id; unfold is_u16; lia).
  rewrite (proj2 (Z.eqb_neq _ 0)) by lia. rewrite (st_bind_Ok _ _ _ _ _ H4).
  by rewrite (proj2 (Z.leb_gt _ 0)) by lia.
Qed.

(** The client's own reader. *)
Lemma zclient_receive_run command body header_chunks body_chunks s :
  stream_ok s → s_size s = ZEBRA_MAX_PACKET_SIZ → pieces command body header_chunks body_chunks →
  ∃ s', zclient_receive (Some <$> header_chunks) (Some <$> body_chunks) s =
      Ok (Some (command, Z.of_nat (length body)), s') ∧
    stream_ok s' ∧ s_size s' = s_size s ∧ ∃ rest, ahead s' = body ++ rest.
Proof.
  intros Hs Hsz Hp. pose proof (reset_waiting s Hs Hsz) as Hw. change (s_size s) with (s_size (stream_reset s)).
  destruct (pieces_split _ _ _ _ Hp) as [Hhd Hbd]. destruct Hp as [Hc Hb H0 Hmax Hh Hbc _ _].
  unfold ZEBRA_MAX_PACKET_SIZ in Hmax. set (len := Z.of_nat (length body) + 3) in *.
  destruct (receive_header command len header_chunks _ Hw Hc ltac:(unfold is_u16; lia) Hh Hhd)
    as (H1 & H2 & H3 & Hs3).
  destruct (receive_body (be16 len ++ [command]) body body_chunks _ Hw) as (s4 & H4 & Hs4); try done.
  { apply Forall_app. split; [apply be_bytes_ok16|by apply Forall_singleton]. }
  { unfold ZEBRA_MAX_PACKET_SIZ. rewrite length_app. cbn [length be16]. lia. }
  exists s4. split; [|done]. unfold zclient_receive.
  erewrite st_bind_Ok by done. erewrite st_bind_Ok by done. rewrite (st_bind_Ok _ _ _ _ _ H1).
  change (negb (3 =? ZEBRA_HEADER_SIZE)) with false. cbv iota.
  rewrite (st_bind_Ok _ _ _ _ _ H2), (st_bind_Ok _ _ _ _ _ H3). erewrite st_bind_Ok by done.
  erewrite st_bind_Ok.
  2:{ change (s_size (skip 3 _)) with (s_size s). rewrite Hsz. unfold ZEBRA_MAX_PACKET_SIZ.
      rewrite (proj2 (Z.leb_gt _ len)) by lia. done. }
  assert (u16 (len - ZEBRA_HEADER_SIZE) = Z.of_nat (length body)) as ->
    by (unfold ZEBRA_HEADER_SIZE; rewrite u16_id; unfold is_u16; lia).
  rewrite (st_bind_Ok _ _ _ _ _ H4). by rewrite Z.eqb_refl.
Qed.

(** * The route of a message *)

Lemma gateway_bytes_ok l : Forall ipv4_ok l → bytes_ok (gateway_bytes l).
Proof.
  induction 1 as [|a l [Ha _] _ IH]; [constructor|].
  change (gateway_bytes (a :: l)) with (ZEBRA_NEXTHOP_IPV4 :: a ++ gateway_bytes l).
  constructor; [done|]. by apply Forall_app.
Qed.

Lemma ifindex_bytes_ok l : bytes_ok (ifindex_bytes l).
Proof.
  induction l as [|x l IH]; [constructor|].
  change (ifindex_bytes (x :: l)) with (ZEBRA_NEXTHOP_IFINDEX :: be32 x ++ ifindex_bytes l).
  constructor; [done|]. apply Forall_app. split; [apply be_bytes_ok32|done].
Qed.

Lemma route_bytes_ok p api : ipv4_prefix p → zapi_ok api → bytes_ok (route_bytes p api).
Proof.
  intros (_ & Hb & Hlen & _) []. unfold route_bytes, prefix_bytes, nexthop_bytes, bytes_ok.
  apply Forall_app. split; [repeat (constructor; [done|]); constructor|].
  apply Forall_app. split; [constructor; [unfold is_u8; lia|by apply Forall_take]|].
  apply Forall_app. split; [|apply Forall_app; split].
  - case_match; [|constructor]. rewrite !Forall_app. split_and!.
    + case_match; [by repeat (constructor; [done|])|by apply Forall_singleton].
    + by apply gateway_bytes_ok.
    + apply ifindex_bytes_ok.
  - case_match; [by apply Forall_singleton|constructor].
  - case_match; [apply be_bytes_ok32|constructor].
Qed.

Lemma gateways_nexthops l x :
  r_nexthops (foldl (λ x a, nexthop_ipv4_add a x) x l) =
    r_nexthops x ++ ((λ a, set_nh_gate a (nexthop_new NEXTHOP_TYPE_IPV4)) <$> l).
Proof.
  revert x. induction l as [|a l IH]; intros x; cbn; [by rewrite app_nil_r|].
  rewrite IH. unfold nexthop_ipv4_add, nexthop_add. cbn. by rewrite <- app_assoc.
Qed.

Lemma ifindices_nexthops l x :
  r_nexthops (foldl (λ x i, nexthop_ifindex_add i x) x l) =
    r_nexthops x ++ ((λ i, set_nh_ifindex i (nexthop_new NEXTHOP_TYPE_IFINDEX)) <$> l).
Proof.
  revert x. induction l as [|a l IH]; intros x; cbn; [by rewrite app_nil_r|].
  rewrite IH. unfold nexthop_ifindex_add, nexthop_add. cbn. by rewrite <- app_assoc.
Qed.

(** Adding nexthops leaves everything else of a route alone. *)
Definition same_head (x y : rib) : Prop :=
  r_type y = r_type x ∧ r_table y = r_table x ∧ r_distance y = r_distance x ∧ r_flags y = r_flags x ∧
  r_metric y = r_metric x ∧ r_refcnt y = r_refcnt x.

Lemma foldl_head {A} (f : rib → A → rib) l x :
  (∀ x a, same_head x (f x a)) → same_head x (foldl f x l).
Proof.
  intros Hf. revert x. induction l as [|a l IH]; intros x; [by unfold same_head|]. cbn.
  specialize (IH (f x a)). specialize (Hf x a). unfold same_head in *. intuition congruence.
Qed.

Lemma SET_FLAG_again v f : Z.land v f = f → SET_FLAG v f = v.
Proof.
  intros H. unfold SET_FLAG. rewrite <- H. apply Z.bits_inj'. intros i _.
  rewrite Z.lor_spec, Z.land_spec. by destruct (Z.testbit v i), (Z.testbit f i).
Qed.

Lemma blackhole_set v : CHECK_FLAG v ZEBRA_FLAG_BLACKHOLE = true → SET_FLAG v ZEBRA_FLAG_BLACKHOLE = v.
Proof.
  intros Hf. apply SET_FLAG_again. unfold CHECK_FLAG in Hf. bool_to_prop.
  change ZEBRA_FLAG_BLACKHOLE with (2^2) in *. rewrite Z.land_comm in *.
  apply Z.bits_inj'. intros i Hi. rewrite Z.land_spec, Z.pow2_bits_eqb by lia.
  destruct (Z.eqb_spec 2 i) as [<-|]; [|done]. cbn.
  destruct (Z.testbit v 2) eqn:Hb; [done|]. destruct Hf. apply Z.bits_inj'. intros j Hj.
  rewrite Z.land_spec, Z.pow2_bits_eqb, Z.bits_0 by lia. by destruct (Z.eqb_spec 2 j) as [<-|].
Qed.

(** The members of the route zebra makes. *)
Lemma zapi_route_spec api :
  zapi_ok api →
  r_type (zapi_route api) = za_type api ∧ r_table (zapi_route api) = 0 ∧
  r_flags (zapi_route api) = za_flags api ∧ r_refcnt (zapi_route api) = 0 ∧
  r_distance (zapi_route api) =
    (if CHECK_FLAG (za_message api) ZAPI_MESSAGE_DISTANCE then za_distance api else 0) ∧
  r_metric (zapi_route api) = (if CHECK_FLAG (za_message api) ZAPI_MESSAGE_METRIC then za_metric api else 0) ∧
  r_nexthops (zapi_route api) =
    (if CHECK_FLAG (za_message api) ZAPI_MESSAGE_NEXTHOP then
       if CHECK_FLAG (za_flags api) ZEBRA_FLAG_BLACKHOLE then [nexthop_new NEXTHOP_TYPE_BLACKHOLE]
       else ((λ a, set_nh_gate a (nexthop_new NEXTHOP_TYPE_IPV4)) <$> za_nexthop api) ++
            ((λ i, set_nh_ifindex i (nexthop_new NEXTHOP_TYPE_IFINDEX)) <$> za_ifindex api)
     else []).
Proof.
  intros Ha. set (x0 := Rib (za_type api) 0 0 (za_flags api) 0 0 0 0 []).
  assert (same_head x0 (route_nexthops api x0) ∧ r_nexthops (route_nexthops api x0) =
    (if CHECK_FLAG (za_flags api) ZEBRA_FLAG_BLACKHOLE then [nexthop_new NEXTHOP_TYPE_BLACKHOLE]
     else ((λ a, set_nh_gate a (nexthop_new NEXTHOP_TYPE_IPV4)) <$> za_nexthop api) ++
          ((λ i, set_nh_ifindex i (nexthop_new NEXTHOP_TYPE_IFINDEX)) <$> za_ifindex api))) as [Hh Hn].
  { unfold route_nexthops. destruct (CHECK_FLAG (za_flags api) ZEBRA_FLAG_BLACKHOLE) eqn:Hbh.
    - split; [|done]. unfold same_head. cbn. split_and!; try done. by apply blackhole_set.
    - split; [|by rewrite ifindices_nexthops, gateways_nexthops].
      pose proof (foldl_head (λ x a, nexthop_ipv4_add a x) (za_nexthop api) x0 ltac:(done)) as H1.
      pose proof (foldl_head (λ x i, nexthop_ifindex_add i x) (za_ifindex api)
        (foldl (λ x a, nexthop_ipv4_add a x) x0 (za_nexthop api)) ltac:(done)) as H2.
      unfold same_head in *. intuition congruence. }
  unfold zapi_route. fold x0. unfold same_head in Hh.
  destruct (CHECK_FLAG (za_message api) ZAPI_MESSAGE_NEXTHOP), (CHECK_FLAG (za_message api) ZAPI_MESSAGE_DISTANCE),
    (CHECK_FLAG (za_message api) ZAPI_MESSAGE_METRIC); cbn; intuition congruence.
Qed.

(** What the client writes is the framed body. *)
Lemma zapi_add_framed command p api obuf :
  is_u8 command → ipv4_prefix p → zapi_ok api → stream_ok obuf → s_size obuf = ZEBRA_MAX_PACKET_SIZ →
  ∃ obuf', in_message (zapi_ipv4_body command p api) obuf = Ok (framed command (route_bytes p api), obuf') ∧
    stream_ok obuf' ∧ s_size obuf' = ZEBRA_MAX_PACKET_SIZ.
Proof.
  intros Hc Hp Ha Hs Hsz. pose proof (route_bytes_short p api Hp Ha) as Hl.
  destruct (message_put (zapi_ipv4_body command p api) (command :: route_bytes p api) obuf)
    as (obuf' & Hrun & Hok & Hsz'); [by apply writes_route|done|..].
  - rewrite Hsz. unfold ZEBRA_MAX_PACKET_SIZ. cbn [length]. lia.
  - cbn [length]. lia.
  - exists obuf'. split_and!; [|done|congruence]. rewrite Hrun. unfold framed. do 4 f_equal.
    cbn [length]. lia.
Qed.

Lemma route_args_of api d :
  zapi_ok api → CHECK_FLAG (za_flags api) ZEBRA_FLAG_SELECTED = false →
  let dist := if CHECK_FLAG (za_message api) ZAPI_MESSAGE_DISTANCE then za_distance api else 0 in
  default_distance (za_type api) (za_flags api) dist = Ok d →
  (za_type api = ZEBRA_ROUTE_CONNECT → dist = 0) →
  route_args (zapi_route api) d.
Proof.
  intros Ha Hsel dist Hd Hc. destruct (zapi_route_spec api Ha) as (Ht & Htb & Hf & Hr & Hdi & _ & Hn).
  assert (Hzero : ipv4_ok (replicate 4 0)) by (split; [by apply bytes_ok_decide|done]).
  split; rewrite ?Ht, ?Htb, ?Hf, ?Hr, ?Hdi, ?Hn; try done.
  - case_match; [|constructor]. case_match.
    + apply Forall_singleton. split; [done|set_solver].
    + apply Forall_app. split; apply Forall_fmap.
      * eapply Forall_impl; [apply (zo_nexthop _ Ha)|]. intros a Hok. split; [done|set_solver].
      * apply Forall_forall. intros i _. split; [done|set_solver].
  - case_match; [|cbn; lia]. case_match; [cbn; lia|]. rewrite length_app, !length_fmap.
    pose proof (zo_num _ Ha) as [_ Hlt]. rewrite (zo_nexthop_num _ Ha), (zo_ifindex_num _ Ha) in Hlt. lia.
  - destruct (CHECK_FLAG (za_message api) ZAPI_MESSAGE_DISTANCE); [apply (zo_distance _ Ha)|done].
Qed.

Section Delivery.
Context (MULTIPATH_NUM : Z) (netlink_talk : list action → action → Z) (zread_other : Z → ST server unit).

(** zebra_client_read on a route that a client has sent. *)
Lemma client_read_add sv p api header_chunks body_chunks :
  ipv4_prefix p → zapi_ok api → waiting (sv_ibuf sv) →
  pieces ZEBRA_IPV4_ROUTE_ADD (route_bytes p api) header_chunks body_chunks →
  ∃ s', waiting s' ∧
    ∀ z', rib_add_ipv4_multipath MULTIPATH_NUM netlink_talk (sent_prefix p) (zapi_route api) (sv_zebra sv) = Ok (tt, z') →
    zebra_client_read MULTIPATH_NUM netlink_talk zread_other (Some <$> header_chunks) (Some <$> body_chunks) sv =
      Ok (0, Server s' (sv_obuf sv) z' (sv_sent sv)).
Proof.
  intros Hp Ha Hw Hpc. destruct (client_receive_run _ _ _ _ _ Hw Hpc) as (s1 & Hrun1 & Hs1 & Hsz1 & rest & Hah).
  pose proof (reads_route p api Hp Ha s1 rest Hs1 Hah) as Hread.
  set (s2 := skip (length (route_bytes p api)) s1) in *.
  exists (stream_reset s2). split.
  { apply reset_waiting; [exact (skip_ok _ _ _ Hs1 Hah)|]. change (s_size s2) with (s_size s1).
    rewrite Hsz1. apply Hw. }
  intros z' Hadd. unfold zebra_client_read. erewrite st_bind_Ok.
  2:{ unfold on_ibuf. by rewrite Hrun1. }
  cbv beta iota. unfold zread_command. change (ZEBRA_IPV4_ROUTE_ADD =? ZEBRA_IPV4_ROUTE_ADD) with true.
  cbv iota. erewrite st_bind_Ok.
  2:{ unfold zread_ipv4_add. erewrite st_bind_Ok.
      2:{ unfold on_ibuf. cbn [sv_ibuf]. by rewrite Hread. }
      cbv beta iota. unfold on_zebra. cbn [sv_zebra]. by rewrite Hadd. }
  by erewrite st_bind_Ok by done.
Qed.

(** C17: a route that a daemon sends with zapi_ipv4_add becomes a route of zebra: the
    message fits its buffer, and however the socket cuts it into pieces,
    zebra_client_read takes it in whole, finds the same prefix, nexthops, distance
    and metric in it, and rib_add_ipv4_multipath puts the route first in the list
    of the prefix, in place of the client's earlier route, without a fault; the
    buffer is empty for the next message. *)
Theorem zapi_add_reaches_rib obuf sv p api d :
  ipv4_prefix p → zapi_ok api → CHECK_FLAG (za_flags api) ZEBRA_FLAG_SELECTED = false →
  let dist := if CHECK_FLAG (za_message api) ZAPI_MESSAGE_DISTANCE then za_distance api else 0 in
  default_distance (za_type api) (za_flags api) dist = Ok d →
  (za_type api = ZEBRA_ROUTE_CONNECT → dist = 0) →
  stream_ok obuf → s_size obuf = ZEBRA_MAX_PACKET_SIZ →
  waiting (sv_ibuf sv) → zinv (sv_zebra sv) → locks_below (2^32 - 2) (z_table (sv_zebra sv)) →
  let rs := default [] (abs (z_table (sv_zebra sv)) !! pbits p) in
  ∃ msg obuf', zapi_ipv4_add p api obuf = Ok (msg, obuf') ∧
    ∀ header_chunks body_chunks,
      Forall (λ c, c ≠ []) header_chunks → Forall (λ c, c ≠ []) body_chunks →
      concat header_chunks ++ concat body_chunks = msg → length (concat header_chunks) = 3%nat →
      ∃ sv' same,
        zebra_client_read MULTIPATH_NUM netlink_talk zread_other
          (Some <$> header_chunks) (Some <$> body_chunks) sv = Ok (0, sv') ∧
        waiting (sv_ibuf sv') ∧
        replaced_in (sv_zebra sv) (zapi_route api) rs same ∧
        inserted (sv_zebra sv) (pbits p) rs same (set_all_fib (set_r_distance d (zapi_route api))) (sv_zebra sv').
Proof.
  intros Hp Ha Hsel dist Hd Hc Hob Hobs Hw Hz Hlk rs.
  destruct (zapi_add_framed ZEBRA_IPV4_ROUTE_ADD p api obuf) as (obuf' & Hrun & _); try done.
  eexists _, obuf'. split; [exact Hrun|]. intros header_chunks body_chunks Hh Hb Hmsg H3.
  destruct (client_read_add sv p api header_chunks body_chunks) as (s' & Hw' & Hread); [done..| |].
  { pose proof (route_bytes_short p api Hp Ha). split; try done; [by apply route_bytes_ok|unfold route_bytes; cbn; lia|].
    unfold ZEBRA_MAX_PACKET_SIZ. lia. }
  destruct (sent_prefix_ok p Hp) as [Hsp Hbits].
  destruct (rib_add_ipv4_multipath_run MULTIPATH_NUM netlink_talk (sv_zebra sv) (sent_prefix p) (zapi_route api) d)
    as (z' & same & Hadd & Hrep & Hins); [done..|by apply route_args_of|].
  rewrite Hbits in Hrep, Hins. eexists _, same. split; [by apply Hread|]. by split_and!.
Qed.

End Delivery.

(** A route of ripd with two gateways, for the tables of the example state. *)
Definition ex_api : zapi_ipv4 :=
  ZapiIpv4 ZEBRA_ROUTE_RIP 0 (Z.lor ZAPI_MESSAGE_NEXTHOP (Z.lor ZAPI_MESSAGE_DISTANCE ZAPI_MESSAGE_METRIC))
    2 [[10; 0; 0; 5]; [10; 0; 0; 6]] 0 [] 110 20.
Definition ex_server : server := Server (stream_new ZEBRA_MAX_PACKET_SIZ) (stream_new ZEBRA_MAX_PACKET_SIZ) ex_rip [].

Lemma ex_api_ok : zapi_ok ex_api.
Proof.
  split; try done. repeat (constructor; [split; [by apply bytes_ok_decide|done]|]). constructor.
Qed.

Lemma zapi_add_reaches_rib_witness :
  let z := sv_zebra ex_server in
  let rs := default [] (abs (z_table z) !! pbits (ex_ipv4 20 8)) in
  ∃ msg obuf', zapi_ipv4_add (ex_ipv4 20 8) ex_api (stream_new ZEBRA_MAX_PACKET_SIZ) = Ok (msg, obuf') ∧
    ∀ header_chunks body_chunks,
      Forall (λ c, c ≠ []) header_chunks → Forall (λ c, c ≠ []) body_chunks →
      concat header_chunks ++ concat body_chunks = msg → length (concat header_chunks) = 3%nat →
      ∃ sv' same,
        zebra_client_read 1 kernel_ok (λ _, mret tt)
          (Some <$> header_chunks) (Some <$> body_chunks) ex_server = Ok (0, sv') ∧
        waiting (sv_ibuf sv') ∧
        replaced_in z (zapi_route ex_api) rs same ∧
        inserted z (pbits (ex_ipv4 20 8)) rs same (set_all_fib (set_r_distance 110 (zapi_route ex_api))) (sv_zebra sv').
Proof.
  apply (zapi_add_reaches_rib 1 kernel_ok (λ _, mret tt) (stream_new ZEBRA_MAX_PACKET_SIZ) ex_server (ex_ipv4 20 8) ex_api 110).
  - by apply ex_ipv4_prefix.
  - apply ex_api_ok.
  - done.
  - done.
  - done.
  - apply waiting_new.
  - done.
  - apply waiting_new.
  - apply ex_rip_zinv.
  - apply ex_rip_below.
Defined.
