(* ===== verification/ZapiErrors.v ===== *)
(** What lib/zclient.c and zebra/zserv.c do with messages no sending function makes:
    prefix lengths and message lengths that do not fit the arrays they are for. *)

From stdpp Require Import strings.
From S2P Require Import Prelude Prefix Table TableView Stream StreamCalc Rib Zapi ZapiFacts ZapiRib.

(** * A prefix length over 32 *)

(** The octets of the prefix go over the end of [p.prefix]. *)
Lemma get_prefix_overflow s plen bs rest :
  stream_ok s → 32 < plen < 256 → Z.of_nat (length bs) = PSIZE plen → ahead s = plen :: bs ++ rest →
  get_prefix_ipv4 s = Fail OutOfBounds.
Proof.
  intros Hs Hpl Hlen Hah. unfold get_prefix_ipv4.
  rewrite (st_bind_Ok _ _ _ _ _ (reads_getc plen s _ Hs Hah)).
  pose proof (skip_ok s [plen] _ Hs Hah) as Hs1. pose proof (ahead_skip s [plen] _ Hs Hah) as Hah1.
  rewrite <- Hlen. rewrite (st_bind_Ok _ _ _ _ _ (reads_get bs _ eq_refl _ _ Hs1 Hah1)).
  apply st_bind_Fail. unfold st_lift, put_bytes. change (length (replicate 4 0)) with 4%nat.
  assert (4 < Z.of_nat (length bs)) by (rewrite Hlen; unfold PSIZE; dm_lia).
  by rewrite (proj2 (Z.leb_gt _ (Z.of_nat 4))) by lia.
Qed.

(** zread_ipv4_add and zread_ipv4_delete read three octets before the prefix. *)
Lemma after_three {A} (f : Z → Z → Z → ST stream A) t fl m s rest e :
  stream_ok s → ahead s = t :: fl :: m :: rest → f t fl m (skip 3 s) = Fail e →
  (t ← stream_getc; fl ← stream_getc; m ← stream_getc; f t fl m) s = Fail e.
Proof.
  intros Hs Hah Hf.
  rewrite (st_bind_Ok _ _ _ _ _ (reads_getc t s _ Hs Hah)).
  pose proof (skip_ok s [t] _ Hs Hah) as Hs1. pose proof (ahead_skip s [t] _ Hs Hah) as Hah1.
  rewrite (st_bind_Ok _ _ _ _ _ (reads_getc fl _ _ Hs1 Hah1)).
  pose proof (skip_ok _ [fl] _ Hs1 Hah1) as Hs2. pose proof (ahead_skip _ [fl] _ Hs1 Hah1) as Hah2.
  rewrite (st_bind_Ok _ _ _ _ _ (reads_getc m _ _ Hs2 Hah2)). by rewrite !skip_skip.
Qed.

(** a route message whose prefix length is over 32 writes over the end of the four
    octets of [p.prefix] on the stack of zread_ipv4_add and of zread_ipv4_delete. *)
Theorem zread_long_prefix_overflows s type flags message plen bs rest :
  stream_ok s → 32 < plen < 256 → Z.of_nat (length bs) = PSIZE plen →
  ahead s = type :: flags :: message :: plen :: bs ++ rest →
  zread_ipv4_route s = Fail OutOfBounds ∧ zread_ipv4_withdraw s = Fail OutOfBounds.
Proof.
  intros Hs Hpl Hlen Hah.
  pose proof (skip_ok s [type; flags; message] _ Hs Hah) as Hs3.
  pose proof (ahead_skip s [type; flags; message] _ Hs Hah) as Hah3.
  pose proof (get_prefix_overflow _ plen bs rest Hs3 Hpl Hlen Hah3) as Hf.
  split; eapply after_three; try done; by apply st_bind_Fail.
Qed.

(** * A message longer than the buffer *)

Lemma readn_overflow chunks a ptr nleft nbytes :
  Forall (λ c, c ≠ []) chunks → 0 ≤ ptr ≤ Z.of_nat (length a) →
  Z.of_nat (length (concat chunks)) ≤ nleft → Z.of_nat (length a) < ptr + Z.of_nat (length (concat chunks)) →
  readn (Some <$> chunks) a ptr nleft nbytes = Fail OutOfBounds.
Proof.
  intros Hne. revert a ptr nleft. induction Hne as [|c chunks Hc _ IH]; intros a ptr nleft Hp Hn Ho; [cbn in Ho; lia|].
  cbn [concat fmap list_fmap readn] in *. rewrite length_app in *.
  rewrite (proj2 (Z.leb_gt nleft 0)) by (destruct c; [done|cbn [length] in *; lia]).
  rewrite take_ge by lia. destruct (decide (ptr + Z.of_nat (length c) ≤ Z.of_nat (length a))) as [Hin|Hout].
  - rewrite put_bytes_in by lia. cbn [res_bind mbind].
    rewrite (proj2 (Z.eqb_neq _ 0)) by (destruct c; [done|cbn [length]; lia]).
    apply IH; rewrite ?length_app, ?length_take, ?length_drop; lia.
  - unfold put_bytes. rewrite (proj2 (Z.leb_gt _ (Z.of_nat (length a)))) by lia. by rewrite andb_false_r.
Qed.

Lemma stream_read_overflow chunks size s :
  stream_ok s → Forall (λ c, c ≠ []) chunks → Z.of_nat (length (concat chunks)) ≤ size →
  room s < Z.of_nat (length (concat chunks)) → stream_read (Some <$> chunks) size s = Fail OutOfBounds.
Proof.
  intros [] Hne Hsz Hroom. unfold stream_read. unfold room in Hroom.
  rewrite readn_overflow; [done|done|lia|lia|lia].
Qed.

(** zebra_client_read does not compare the length of a message with the size of the
    client's buffer: when the length in the header is over 4096 and that much is
    delivered, stream_read writes over the end of the buffer. *)
Theorem client_receive_long_overflows command len header_chunks body_chunks s :
  waiting s → is_u8 command → ZEBRA_MAX_PACKET_SIZ < len < 2^16 →
  Forall (λ c, c ≠ []) header_chunks → Forall (λ c, c ≠ []) body_chunks →
  concat header_chunks = be16 len ++ [command] → Z.of_nat (length (concat body_chunks)) = len - 3 →
  client_receive (Some <$> header_chunks) (Some <$> body_chunks) s = Fail OutOfBounds.
Proof.
  intros Hw Hc Hlen Hh Hb Hhd Hbd. unfold ZEBRA_MAX_PACKET_SIZ in *.
  destruct (receive_header command len header_chunks s Hw Hc ltac:(unfold is_u16; lia) Hh Hhd) as (H1 & H2 & H3 & Hs3).
  unfold client_receive. rewrite (st_bind_Ok _ _ _ _ _ H1). change (3 <=? 0) with false. cbv iota.
  rewrite (st_bind_Ok _ _ _ _ _ H2), (st_bind_Ok _ _ _ _ _ H3).
  rewrite (proj2 (Z.ltb_ge len 3)) by lia. rewrite u16_id by (unfold is_u16; lia).
  rewrite (proj2 (Z.eqb_neq _ 0)) by lia. apply st_bind_Fail. apply stream_read_overflow; [done|done|lia|].
  destruct Hw. unfold ZEBRA_MAX_PACKET_SIZ in *. unfold room. cbn. lia.
Qed.

(** The client's reader enlarges its buffer, but takes a length below 3, which no
    message has, for one of nearly 64 kilobytes. *)
Lemma zclient_receive_short_overflows command len header_chunks body_chunks s :
  stream_ok s → s_size s = ZEBRA_MAX_PACKET_SIZ → is_u8 command → 0 ≤ len < ZEBRA_HEADER_SIZE →
  Forall (λ c, c ≠ []) header_chunks → Forall (λ c, c ≠ []) body_chunks →
  concat header_chunks = be16 len ++ [command] →
  ZEBRA_MAX_PACKET_SIZ ≤ Z.of_nat (length (concat body_chunks)) ≤ len - ZEBRA_HEADER_SIZE + 2^16 →
  zclient_receive (Some <$> header_chunks) (Some <$> body_chunks) s = Fail OutOfBounds.
Proof.
  intros Hs Hsz Hc Hlen Hh Hb Hhd Hbd. unfold ZEBRA_MAX_PACKET_SIZ, ZEBRA_HEADER_SIZE in *.
  pose proof (reset_waiting s Hs Hsz) as Hw.
  destruct (receive_header command len header_chunks _ Hw Hc ltac:(unfold is_u16; lia) Hh Hhd) as (H1 & H2 & H3 & Hs3).
  unfold zclient_receive. erewrite st_bind_Ok by done. erewrite st_bind_Ok by done. rewrite (st_bind_Ok _ _ _ _ _ H1).
  change (negb (3 =? ZEBRA_HEADER_SIZE)) with false. cbv iota.
  rewrite (st_bind_Ok _ _ _ _ _ H2), (st_bind_Ok _ _ _ _ _ H3). erewrite st_bind_Ok by done.
  erewrite st_bind_Ok.
  2:{ change (s_size (skip 3 _)) with (s_size s). rewrite Hsz. by rewrite (proj2 (Z.leb_gt _ len)) by lia. }
  assert (u16 (len - ZEBRA_HEADER_SIZE) = len - 3 + 2^16) as -> by (unfold u16, ZEBRA_HEADER_SIZE; dm_lia).
  apply st_bind_Fail, stream_read_overflow; [done|done|lia|].
  unfold room. destruct Hw as [_ Hsz' Hpp _ _]. cbn in *. unfold ZEBRA_MAX_PACKET_SIZ in *. lia.
Qed.

Lemma zread_long_prefix_overflows_witness :
  let s := append ([ZEBRA_ROUTE_STATIC; 0; 0; 33] ++ [1; 2; 3; 4; 5]) (stream_new ZEBRA_MAX_PACKET_SIZ) in
  zread_ipv4_route s = Fail OutOfBounds ∧ zread_ipv4_withdraw s = Fail OutOfBounds.
Proof.
  refine (zread_long_prefix_overflows (append ([ZEBRA_ROUTE_STATIC; 0; 0; 33] ++ [1; 2; 3; 4; 5]) (stream_new ZEBRA_MAX_PACKET_SIZ))
    ZEBRA_ROUTE_STATIC 0 0 33 [1; 2; 3; 4; 5] (replicate 4087 0) _ _ eq_refl eq_refl); [|lia].
  apply append_ok; [apply waiting_new|by apply bytes_ok_decide|done].
Defined.

Lemma client_receive_long_overflows_witness :
  client_receive (Some <$> [[0xff]; [0xff; 7]]) (Some <$> [replicate (Z.to_nat 65532) 0]) (stream_new ZEBRA_MAX_PACKET_SIZ) =
    Fail OutOfBounds.
Proof.
  apply (client_receive_long_overflows 7 0xffff); [apply waiting_new|done|done|by repeat constructor|by repeat constructor|done|].
  cbn [concat]. rewrite app_nil_r, length_replicate. lia.
Defined.
