(* ===== verification/ZservQueue.v ===== *)
(** The messages zebra holds back for slow clients: the queue of zebra/zserv.c.

    A message that a socket does not take at once waits in [message_queue], which
    all clients share, and [t_write] is the thread that goes on writing.  A call of
    [write] is what it returns, with the test of errno; [q_wire] records the octets
    each socket has taken. *)

From stdpp Require Import strings.
From S2P Require Import Prelude.

(** What a call of [write] returns, and whether errno is then EAGAIN. *)
Record write_call := WriteCall { wc_nbytes : Z; wc_again : bool }.

Record zebra_message_queue := ZMessage {
  mq_buf : list Z;
  mq_length : Z;
  mq_written : Z;
}.

Record qstate := QState {
  message_queue : list zebra_message_queue;
  t_write : option Z;
  q_wire : list (Z * list Z);
}.

Definition THREAD_WRITE_ON (t : option Z) (sock : Z) : option Z :=
  match t with Some s => Some s | None => Some sock end.

Definition zebra_server_enqueue (sock : Z) (buf : list Z) (written : Z) (q : qstate) : qstate :=
  QState (message_queue q ++ [ZMessage buf (u16 (Z.of_nat (length buf))) (u16 written)])
    (THREAD_WRITE_ON (t_write q) sock) (q_wire q).

(** [write (sock, bs, ...)], of which [nbytes] octets are taken. *)
Definition wrote (sock : Z) (bs : list Z) (nbytes : Z) (q : qstate) : qstate :=
  QState (message_queue q) (t_write q) (q_wire q ++ [(sock, take (Z.to_nat nbytes) bs)]).

Definition zebra_server_send_message (w : write_call) (sock : Z) (buf : list Z) (q : qstate) : Z * qstate :=
  match message_queue q with
  | _ :: _ => (0, zebra_server_enqueue sock buf 0 q)
  | [] =>
      let nbytes := wc_nbytes w in
      if nbytes <=? 0 then
        if wc_again w then (0, zebra_server_enqueue sock buf 0 q) else (-1, q)
      else
        let q := wrote sock buf nbytes q in
        if negb (nbytes =? Z.of_nat (length buf)) then (0, zebra_server_enqueue sock buf nbytes q) else (0, q)
  end.

Definition zebra_server_dequeue (w : write_call) (sock : Z) (q : qstate) : Z * qstate :=
  let rearm q := (0, match message_queue q with
                     | [] => q
                     | _ :: _ => QState (message_queue q) (THREAD_WRITE_ON (t_write q) sock) (q_wire q)
                     end) in
  let q := QState (message_queue q) None (q_wire q) in
  match message_queue q with
  | [] => rearm q
  | m :: rest =>
      let nbytes := wc_nbytes w in
      let q' := wrote sock (drop (Z.to_nat (mq_written m)) (mq_buf m)) nbytes q in
      if nbytes <=? 0 then
        if wc_again w then rearm q else (-1, q)
      else if negb (nbytes =? mq_length m - mq_written m) then
        rearm (QState (ZMessage (mq_buf m) (mq_length m) (u16 (mq_written m + nbytes)) :: rest) None (q_wire q'))
      else rearm (QState rest None (q_wire q'))
  end.

(** * Runs *)

(** zebra sends a message, or the write thread runs when it is on. *)
Inductive qevent :=
  | q_send (sock : Z) (buf : list Z) (w : write_call)
  | q_write (w : write_call).

Definition q_step (e : qevent) (q : qstate) : qstate :=
  match e with
  | q_send sock buf w => snd (zebra_server_send_message w sock buf q)
  | q_write w =>
      match t_write q with
      | Some sock => snd (zebra_server_dequeue w sock q)
      | None => q
      end
  end.

Definition q_run (l : list qevent) (q : qstate) : qstate := foldl (λ q e, q_step e q) q l.

Definition zebra_start : qstate := QState [] None [].

(** The octets a socket has taken, and the octets that wait. *)
Definition on_wire (sock : Z) (l : list (Z * list Z)) : list Z :=
  l ≫= λ c, if c.1 =? sock then c.2 else [].
Definition rest_of (m : zebra_message_queue) : list Z := drop (Z.to_nat (mq_written m)) (mq_buf m).
Definition pending (l : list zebra_message_queue) : list Z := l ≫= rest_of.
Definition sent_of (e : qevent) : list Z := match e with q_send _ buf _ => buf | q_write _ => [] end.

Arguments on_wire : simpl never.
Arguments pending : simpl never.
Arguments rest_of : simpl never.

(** * Invariant *)

(** A message of the queue is not written in full, and its counters are exact. *)
Record message_ok (m : zebra_message_queue) : Prop := MessageOk {
  mo_length : mq_length m = Z.of_nat (length (mq_buf m));
  mo_u16 : mq_length m < 2^16;
  mo_written : 0 ≤ mq_written m < mq_length m;
}.

(** The thread is on exactly while something waits. *)
Definition queue_ok (q : qstate) : Prop :=
  Forall message_ok (message_queue q) ∧ (t_write q = None ↔ message_queue q = []).

(** [write] takes at most what it is given, and fails only with EAGAIN. *)
Definition call_ok (size : Z) (w : write_call) : Prop :=
  wc_nbytes w ≤ size ∧ (wc_nbytes w ≤ 0 → wc_again w = true).

Definition next_size (q : qstate) : Z :=
  match message_queue q with m :: _ => mq_length m - mq_written m | [] => 0 end.

Lemma on_wire_app sock l k : on_wire sock (l ++ k) = on_wire sock l ++ on_wire sock k.
Proof. apply bind_app. Qed.

Lemma on_wire_one sock s bs : on_wire sock [(s, bs)] = if s =? sock then bs else [].
Proof. unfold on_wire. cbn. apply app_nil_r. Qed.

Lemma pending_app l k : pending (l ++ k) = pending l ++ pending k.
Proof. apply bind_app. Qed.

Lemma pending_cons m l : pending (m :: l) = rest_of m ++ pending l.
Proof. done. Qed.

Lemma pending_one m : pending [m] = rest_of m.
Proof. apply app_nil_r. Qed.

Lemma rest_length m : message_ok m → Z.of_nat (length (rest_of m)) = mq_length m - mq_written m.
Proof. intros []. unfold rest_of. rewrite length_drop. lia. Qed.

Lemma new_message_ok buf written :
  (0 < length buf)%nat → Z.of_nat (length buf) < 2^16 → 0 ≤ written < Z.of_nat (length buf) →
  ZMessage buf (u16 (Z.of_nat (length buf))) (u16 written) = ZMessage buf (Z.of_nat (length buf)) written ∧
  message_ok (ZMessage buf (Z.of_nat (length buf)) written).
Proof. intros H0 H1 H2. rewrite !u16_id by (unfold is_u16; lia). by split. Qed.

(** One run of the thread: what the socket takes is the front of what waits. *)
Lemma dequeue_step w sock q :
  queue_ok q → t_write q = Some sock → call_ok (next_size q) w →
  let q' := snd (zebra_server_dequeue w sock q) in
  let n := Z.to_nat (Z.max 0 (wc_nbytes w)) in
  queue_ok q' ∧ (t_write q' = None ∨ t_write q' = Some sock) ∧
  pending (message_queue q') = drop n (pending (message_queue q)) ∧
  ∀ s, on_wire s (q_wire q') = on_wire s (q_wire q) ++ (if sock =? s then take n (pending (message_queue q)) else []).
Proof.
  intros [Hall Hon] Ht [Hle Hag]. unfold zebra_server_dequeue, next_size in *. cbn [message_queue] in *.
  destruct (message_queue q) as [|m rest] eqn:Hq; [by rewrite (proj2 Hon eq_refl) in Ht|].
  inversion Hall as [|? ? Hm Hrest]; subst. pose proof (rest_length m Hm) as Hlen. pose proof Hm as [Hl H16 Hw].
  assert (Hp : pending (m :: rest) = rest_of m ++ pending rest) by done.
  destruct (Z.leb_spec (wc_nbytes w) 0) as [H0|H0].
  - rewrite Hag by done. cbn. rewrite Z.max_l by lia. split_and!; [by split|by right|done|].
    intros s. by destruct (sock =? s); cbn; rewrite app_nil_r.
  - rewrite Z.max_r by lia. rewrite Hp, take_app_le, drop_app_le by lia.
    destruct (Z.eqb_spec (wc_nbytes w) (mq_length m - mq_written m)) as [Heq|Hne]; cbn [negb].
    + rewrite (drop_ge (rest_of m)) by lia. cbn.
      destruct rest as [|m2 rest]; cbn; (split_and!; [by split| auto |done|]);
        intros s; rewrite on_wire_app, on_wire_one; done.
    + assert (Hu : u16 (mq_written m + wc_nbytes w) = mq_written m + wc_nbytes w) by (rewrite u16_id; unfold is_u16; lia).
      rewrite Hu. cbn. split_and!.
      * split; [|done]. constructor; [|done]. split; cbn; lia.
      * by right.
      * unfold pending. cbn. f_equal. unfold rest_of. cbn. rewrite drop_drop. f_equal. lia.
      * intros s. rewrite on_wire_app, on_wire_one. done.
Qed.

Lemma enqueue_spec sock buf n q :
  queue_ok q → Z.of_nat (length buf) < 2^16 → 0 ≤ n < Z.of_nat (length buf) →
  let q' := zebra_server_enqueue sock buf n q in
  queue_ok q' ∧ (t_write q' = t_write q ∨ t_write q = None ∧ t_write q' = Some sock) ∧
  pending (message_queue q') = pending (message_queue q) ++ drop (Z.to_nat n) buf ∧ q_wire q' = q_wire q.
Proof.
  intros [Hall Hon] H16 Hn. unfold zebra_server_enqueue, queue_ok. cbn.
  rewrite !u16_id by (unfold is_u16; lia). split_and!; [| | | |done].
  - apply Forall_app. split; [done|]. by constructor.
  - split; [by destruct (t_write q)|]. by destruct (message_queue q).
  - destruct (t_write q); [by left|by right].
  - by rewrite pending_app, pending_one.
Qed.

(** A message that is sent is taken by its socket in part or waits at the end. *)
Lemma send_step w sock buf q :
  queue_ok q → (0 < length buf)%nat → Z.of_nat (length buf) < 2^16 → call_ok (Z.of_nat (length buf)) w →
  let q' := snd (zebra_server_send_message w sock buf q) in
  let n := if bool_decide (message_queue q = []) then Z.to_nat (Z.max 0 (wc_nbytes w)) else 0%nat in
  queue_ok q' ∧
  (t_write q' = t_write q ∨ t_write q = None ∧ t_write q' = Some sock) ∧
  pending (message_queue q') = pending (message_queue q) ++ drop n buf ∧
  ∀ s, on_wire s (q_wire q') = on_wire s (q_wire q) ++ (if sock =? s then take n buf else []).
Proof.
  intros Hq H0 H16 [Hle Hag]. unfold zebra_server_send_message.
  assert (Hnil : ∀ s (l : list Z), (if sock =? s then @nil Z else []) = []) by (intros s l; by destruct (sock =? s)).
  destruct (enqueue_spec sock buf 0 q) as (E1 & E2 & E3 & E4); [done|done|lia|].
  destruct (message_queue q) as [|m rest] eqn:Hmq; cbn [bool_decide].
  - rewrite bool_decide_true by done. destruct (Z.leb_spec (wc_nbytes w) 0) as [Hz|Hz].
    + rewrite Hag, Z.max_l by done. cbn [snd]. split_and!; [done..|]. intros s. by rewrite E4, Hnil, app_nil_r.
    + rewrite Z.max_r by lia.
      destruct (Z.eqb_spec (wc_nbytes w) (Z.of_nat (length buf))) as [Heq|Hne]; cbn [negb snd].
      * rewrite drop_ge by lia. split_and!; [by destruct Hq; split|by left|by cbn; rewrite Hmq|].
        intros s. cbn. by rewrite on_wire_app, on_wire_one.
      * destruct (enqueue_spec sock buf (wc_nbytes w) (wrote sock buf (wc_nbytes w) q)) as (F1 & F2 & F3 & F4);
          [done|done|lia|]. split_and!; [done|done|by rewrite F3; cbn; rewrite Hmq|].
        intros s. rewrite F4. cbn. by rewrite on_wire_app, on_wire_one.
  - rewrite bool_decide_false by done. cbn [snd]. split_and!; [done..|]. intros s. by rewrite E4, Hnil, app_nil_r.
Qed.

(** * One client *)

(** An event of a run in which [sock] is the only socket. *)
Definition event_ok (sock : Z) (q : qstate) (e : qevent) : Prop :=
  match e with
  | q_send s buf w =>
      s = sock ∧ (0 < length buf)%nat ∧ Z.of_nat (length buf) < 2^16 ∧ call_ok (Z.of_nat (length buf)) w
  | q_write w => call_ok (next_size q) w
  end.

Fixpoint events_ok (sock : Z) (q : qstate) (l : list qevent) : Prop :=
  match l with
  | [] => True
  | e :: l => event_ok sock q e ∧ events_ok sock (q_step e q) l
  end.

Definition alone (sock : Z) (q : qstate) : Prop :=
  queue_ok q ∧ (t_write q = None ∨ t_write q = Some sock).

Lemma alone_step sock q e :
  alone sock q → event_ok sock q e →
  alone sock (q_step e q) ∧
  on_wire sock (q_wire (q_step e q)) ++ pending (message_queue (q_step e q)) =
    on_wire sock (q_wire q) ++ pending (message_queue q) ++ sent_of e.
Proof.
  intros [Hq Ht] He. destruct e as [s buf w|w]; cbn [q_step sent_of].
  - destruct He as (-> & H0 & H16 & Hw). destruct (send_step w sock buf q Hq H0 H16 Hw) as (Hq' & Ht' & Hp & Hwire).
    split; [split; [done|]; destruct Ht' as [->|[_ ->]]; [done|by right]|].
    rewrite Hp, Hwire, Z.eqb_refl. destruct (message_queue q) as [|m rest] eqn:Hmq.
    + rewrite bool_decide_true by done. unfold pending. cbn. by rewrite <- app_assoc, take_drop.
    + rewrite bool_decide_false by done. rewrite drop_0. cbn [take]. by rewrite app_nil_r.
  - destruct Ht as [Ht|Ht]; rewrite Ht; [by split; [split; [|left]|rewrite app_nil_r]|].
    destruct (dequeue_step w sock q Hq Ht He) as (Hq' & Ht' & Hp & Hwire). split; [by split|].
    rewrite Hp, Hwire, Z.eqb_refl, app_nil_r. by rewrite <- app_assoc, take_drop.
Qed.

Lemma alone_run sock l q :
  alone sock q → events_ok sock q l →
  alone sock (q_run l q) ∧
  on_wire sock (q_wire (q_run l q)) ++ pending (message_queue (q_run l q)) =
    on_wire sock (q_wire q) ++ pending (message_queue q) ++ (l ≫= sent_of).
Proof.
  revert q. induction l as [|e l IH]; intros q Hq Hl; [by cbn; rewrite app_nil_r|].
  destruct Hl as [He Hl]. destruct (alone_step sock q e Hq He) as [Hq' Heq].
  destruct (IH _ Hq' Hl) as [Hend Heq']. split; [done|]. change (q_run (e :: l) q) with (q_run l (q_step e q)).
  rewrite Heq', (app_assoc (on_wire _ _)), Heq. cbn. by rewrite <- !app_assoc.
Qed.

(** with one client, whatever it sends and however the socket takes it (in pieces,
    or not at all with EAGAIN), what the socket has taken followed by what waits is
    the messages in the order they were sent, and the write thread is on exactly
    while something waits. *)
Theorem queue_keeps_order sock l :
  events_ok sock zebra_start l →
  let q := q_run l zebra_start in
  on_wire sock (q_wire q) ++ pending (message_queue q) = l ≫= sent_of ∧
  (t_write q = if bool_decide (message_queue q = []) then None else Some sock).
Proof.
  intros Hl. assert (alone sock zebra_start) as Hs by (split; [by split|by left]).
  destruct (alone_run sock l zebra_start Hs Hl) as [[[_ Hon] Ht] Heq]. split; [exact Heq|].
  destruct (bool_decide_reflect (message_queue (q_run l zebra_start) = [])) as [E|E]; [by apply Hon|].
  destruct Ht as [Ht|Ht]; [by apply Hon in Ht|done].
Qed.

(** * Draining *)

(** Runs of the thread in which [write] keeps its contract while something waits; the thread
    does not call it when the queue is empty. *)
Fixpoint writes_ok (q : qstate) (l : list write_call) : Prop :=
  match l with
  | [] => True
  | w :: l => (message_queue q ≠ [] → call_ok (next_size q) w) ∧ writes_ok (q_step (q_write w) q) l
  end.

(** The octets the calls take together. *)
Definition taken (l : list write_call) : nat := sum_list ((λ w, Z.to_nat (wc_nbytes w)) <$> l).

Lemma pending_nil q : queue_ok q → pending (message_queue q) = [] → message_queue q = [].
Proof.
  intros [Hall _] Hp. destruct (message_queue q) as [|m rest]; [done|]. apply Forall_cons in Hall as [Hm _].
  pose proof (rest_length m Hm) as Hr. destruct Hm. rewrite pending_cons in Hp. apply app_nil in Hp as [Hp _]. rewrite Hp in Hr. cbn in Hr. lia.
Qed.

Lemma writes_drain sock l q :
  alone sock q → writes_ok q l →
  (length (pending (message_queue q)) ≤ taken l)%nat →
  let q' := q_run (q_write <$> l) q in
  queue_ok q' ∧ message_queue q' = [] ∧
  ∀ s, on_wire s (q_wire q') = on_wire s (q_wire q) ++ (if sock =? s then pending (message_queue q) else []).
Proof.
  revert q. induction l as [|w l IH]; intros q [Hq Ht] Hl Hlen; cbn zeta.
  - cbn in *. assert (Hp : pending (message_queue q) = []) by (apply nil_length_inv; lia). pose proof (pending_nil q Hq Hp) as Hmq.
    split; [done|]. split; [done|]. intros s. rewrite Hp. by destruct (sock =? s); rewrite app_nil_r.
  - destruct Hl as [Hw Hl]. cbn [q_run fmap list_fmap foldl].
    change (foldl _ _ _) with (q_run (q_write <$> l) (q_step (q_write w) q)).
    destruct (decide (message_queue q = [])) as [Hmq|Hmq].
    + assert (Hnone : t_write q = None) by (by apply Hq). cbn [q_step] in *. rewrite Hnone in *. apply IH; [by split; [|left]|done|]. rewrite Hmq. unfold pending. cbn. lia.
    + assert (Hon : t_write q = Some sock) by (destruct Ht as [Ht|Ht]; [by apply Hq in Ht|done]). cbn [q_step] in *. rewrite Hon in *.
      destruct (dequeue_step w sock q Hq Hon (Hw Hmq)) as (Hq' & Ht' & Hp & Hwire).
      assert (En : Z.to_nat (Z.max 0 (wc_nbytes w)) = Z.to_nat (wc_nbytes w)) by lia. rewrite En in *.
      destruct (IH _ (conj Hq' Ht') Hl) as (Hok & Hend & Hw').
      { rewrite Hp, length_drop. unfold taken in *. cbn in Hlen. lia. }
      split; [done|]. split; [done|]. intros s. rewrite Hw', Hp, Hwire. destruct (sock =? s); [|by rewrite !app_nil_r].
      by rewrite <- app_assoc, take_drop.
Qed.

(** C38: with one client, what waits is written: whatever the runs of the thread write, in
    pieces of any size and with EAGAIN in between, once they have taken as many octets as
    wait the queue is empty, the thread is off and the socket has taken all messages in
    their order. *)
Theorem queue_drains sock l ws :
  events_ok sock zebra_start l →
  let q := q_run l zebra_start in
  writes_ok q ws → (length (pending (message_queue q)) ≤ taken ws)%nat →
  let q' := q_run (q_write <$> ws) q in
  message_queue q' = [] ∧ t_write q' = None ∧ on_wire sock (q_wire q') = l ≫= sent_of.
Proof.
  intros Hl q Hws Hlen q'. assert (alone sock zebra_start) as Hs by (split; [by split|by left]).
  destruct (alone_run sock l zebra_start Hs Hl) as [Ha Heq]. fold q in Ha, Heq.
  destruct (writes_drain sock ws q Ha Hws Hlen) as (Hok & Hend & Hwire). fold q' in Hok, Hend, Hwire.
  split; [done|]. split; [by apply Hok|]. by rewrite Hwire, Z.eqb_refl.
Qed.

(** * Several clients *)

(** C39: the queue does not keep clients apart.  A message for one client that is sent
    while another client's messages wait is written to the other client, after
    them, in pieces of any size, and its own client never gets it. *)
Theorem queue_crosses_clients a b q msg w ws :
  queue_ok q → t_write q = Some a → a ≠ b → (0 < length msg)%nat → Z.of_nat (length msg) < 2^16 →
  let q1 := snd (zebra_server_send_message w b msg q) in
  writes_ok q1 ws → (length (pending (message_queue q)) + length msg ≤ taken ws)%nat →
  let q' := q_run (q_write <$> ws) q1 in
  message_queue q' = [] ∧
  on_wire a (q_wire q') = on_wire a (q_wire q) ++ pending (message_queue q) ++ msg ∧
  on_wire b (q_wire q') = on_wire b (q_wire q).
Proof.
  intros Hq Ht Hab H0 H16 q1 Hws Hlen q'.
  assert (Hne : message_queue q ≠ []) by (intros E; apply Hq in E; congruence).
  destruct (send_step (WriteCall 0 true) b msg q Hq H0 H16) as (Hq1 & Ht1 & Hp1 & Hw1); [by split; cbn; [lia|]|].
  rewrite bool_decide_false in Hp1, Hw1 by done.
  assert (E1 : snd (zebra_server_send_message (WriteCall 0 true) b msg q) = q1)
    by (unfold q1, zebra_server_send_message; by destruct (message_queue q)).
  rewrite E1 in *. rewrite drop_0 in Hp1.
  assert (t_write q1 = Some a) as Hta by (destruct Ht1 as [->|[E _]]; [done|congruence]).
  destruct (writes_drain a ws q1) as (_ & Hend & Hwire); [by split; [|right]|done|rewrite Hp1, length_app; lia|].
  fold q' in Hend, Hwire. split_and!; [done|..]; rewrite Hwire, Hw1, ?Hp1; cbn [take].
  - rewrite Z.eqb_refl. rewrite (proj2 (Z.eqb_neq b a)) by done. by rewrite app_nil_r.
  - rewrite Z.eqb_refl. rewrite (proj2 (Z.eqb_neq a b)) by done. by rewrite !app_nil_r.
Qed.

(** * Examples *)

Definition ex_events : list qevent :=
  [q_send 5 [1; 2; 3] (WriteCall 2 false); q_send 5 [4; 5] (WriteCall 2 false); q_write (WriteCall (-1) true);
   q_write (WriteCall 1 false)].

Lemma ex_events_ok : events_ok 5 zebra_start ex_events.
Proof. cbn. unfold call_ok, next_size. cbn. split_and!; try done; lia. Qed.

Lemma queue_keeps_order_witness :
  on_wire 5 (q_wire (q_run ex_events zebra_start)) ++ pending (message_queue (q_run ex_events zebra_start)) =
    [1; 2; 3; 4; 5] ∧
  t_write (q_run ex_events zebra_start) = Some 5.
Proof. exact (queue_keeps_order 5 ex_events ex_events_ok). Defined.

Lemma queue_drains_witness :
  let q' := q_run (q_write <$> [WriteCall (-1) true; WriteCall 2 false; WriteCall 9 false]) (q_run ex_events zebra_start) in
  message_queue q' = [] ∧ t_write q' = None ∧ on_wire 5 (q_wire q') = [1; 2; 3; 4; 5].
Proof.
  apply (queue_drains 5 ex_events [WriteCall (-1) true; WriteCall 2 false; WriteCall 9 false] ex_events_ok).
  - vm_compute; intuition congruence.
  - vm_compute. lia.
Defined.

Definition ex_waiting : qstate := QState [ZMessage [1; 2; 3] 3 1] (Some 5) [].

Lemma queue_crosses_clients_witness :
  let q' := q_run (q_write <$> [WriteCall 2 false; WriteCall 1 false; WriteCall 1 false])
    (snd (zebra_server_send_message (WriteCall 2 false) 6 [7; 8] ex_waiting)) in
  message_queue q' = [] ∧ on_wire 5 (q_wire q') = [2; 3; 7; 8] ∧ on_wire 6 (q_wire q') = [].
Proof.
  apply (queue_crosses_clients 5 6 ex_waiting [7; 8] (WriteCall 2 false)
    [WriteCall 2 false; WriteCall 1 false; WriteCall 1 false]); try done.
  - split; [|done]. constructor; [|constructor]. split; cbn; lia.
  - cbn. lia.
Defined.
