(* ===== verification/Rip.v ===== *)
(** RIP: ripd/ripd.c, the routing table, its timers, and the reception of responses.

    The state is the table of routes with the heap of [struct rip_info], the timer
    threads that are waiting, the state of triggered updates, and the log of the
    messages to zebra.  A timer is the pair of the route it is for and its kind; the
    pointer [t_timeout] or [t_garbage_collect] of a route tells whether there is one.
    What a route map, a filter or an offset list says is an argument.  Addresses, and
    the other members of an entry of a packet, are their octets in memory. *)

From S2P Require Import Prelude Prefix Table.

(** * Data *)

Definition ZEBRA_ROUTE_CONNECT : Z := 2.
Definition ZEBRA_ROUTE_RIP : Z := 4.

Definition RIPv1 : Z := 1.
Definition RIPv2 : Z := 2.
Definition RIP_METRIC_INFINITY : Z := 16.
Definition RIP_PORT_DEFAULT : Z := 520.

Definition RIP_ROUTE_RTE : Z := 0.
Definition RIP_ROUTE_STATIC : Z := 1.
Definition RIP_ROUTE_INTERFACE : Z := 4.

Definition RIP_RTF_FIB : Z := 1.
Definition RIP_RTF_CHANGED : Z := 2.

(** An entry of a packet. *)
Record rte := Rte {
  rte_family : list Z;
  rte_tag : list Z;
  rte_prefix : list Z;
  rte_mask : list Z;
  rte_nexthop : list Z;
  rte_metric : list Z;
}.

(** A route; the members that only the output uses are not kept. *)
Record rip_info := RipInfo {
  ri_type : Z;
  ri_sub_type : Z;
  ri_nexthop : list Z;
  ri_from : list Z;
  ri_ifindex : Z;
  ri_metric : Z;
  ri_tag : Z;
  ri_flags : Z;
  ri_t_timeout : bool;
  ri_t_garbage : bool;
  ri_rp : ptr;
  ri_distance : Z;
}.

Inductive timer := Timeout | Garbage.

#[export] Instance timer_eq_dec : EqDecision timer.
Proof. solve_decision. Defined.
#[export] Instance timer_countable : Countable timer.
Proof.
  apply (inj_countable' (λ k, match k with Timeout => true | Garbage => false end) (λ b : bool, if b then Timeout else Garbage)).
  by intros [].
Defined.

(** rip_zebra_ipv4_add and rip_zebra_ipv4_delete. *)
Inductive zmessage :=
  | zebra_add (p : prefix) (nexthop : list Z) (metric distance : Z)
  | zebra_delete (p : prefix) (nexthop : list Z) (metric : Z).

Record ripd := Ripd {
  rd_table : route_table nat;
  rd_infos : gmap nat rip_info;
  rd_fresh : nat;
  rd_pending : gset (nat * timer);
  rd_trigger : bool;
  rd_t_triggered_update : bool;
  rd_t_triggered_interval : bool;
  rd_log : list zmessage;
}.

Record connected := Connected {
  c_address : prefix;
  c_destination : option prefix;
}.

Record interface := Interface {
  if_ifindex : Z;
  if_metric : Z;
  if_is_pointopoint : bool;
  if_connected : list connected;
}.

Record sockaddr_in := Sockaddr {
  sin_addr : list Z;
  sin_port : Z;
}.

(** ** Assignments to members *)

Definition set_rte_family (v : list Z) (x : rte) : rte :=
  Rte v (rte_tag x) (rte_prefix x) (rte_mask x) (rte_nexthop x) (rte_metric x).
Definition set_rte_tag (v : list Z) (x : rte) : rte :=
  Rte (rte_family x) v (rte_prefix x) (rte_mask x) (rte_nexthop x) (rte_metric x).
Definition set_rte_prefix (v : list Z) (x : rte) : rte :=
  Rte (rte_family x) (rte_tag x) v (rte_mask x) (rte_nexthop x) (rte_metric x).
Definition set_rte_mask (v : list Z) (x : rte) : rte :=
  Rte (rte_family x) (rte_tag x) (rte_prefix x) v (rte_nexthop x) (rte_metric x).
Definition set_rte_nexthop (v : list Z) (x : rte) : rte :=
  Rte (rte_family x) (rte_tag x) (rte_prefix x) (rte_mask x) v (rte_metric x).
Definition set_rte_metric (v : list Z) (x : rte) : rte :=
  Rte (rte_family x) (rte_tag x) (rte_prefix x) (rte_mask x) (rte_nexthop x) v.
Definition set_ri_type (v : Z) (x : rip_info) : rip_info :=
  RipInfo v (ri_sub_type x) (ri_nexthop x) (ri_from x) (ri_ifindex x) (ri_metric x) (ri_tag x)
    (ri_flags x) (ri_t_timeout x) (ri_t_garbage x) (ri_rp x) (ri_distance x).
Definition set_ri_sub_type (v : Z) (x : rip_info) : rip_info :=
  RipInfo (ri_type x) v (ri_nexthop x) (ri_from x) (ri_ifindex x) (ri_metric x) (ri_tag x)
    (ri_flags x) (ri_t_timeout x) (ri_t_garbage x) (ri_rp x) (ri_distance x).
Definition set_ri_nexthop (v : list Z) (x : rip_info) : rip_info :=
  RipInfo (ri_type x) (ri_sub_type x) v (ri_from x) (ri_ifindex x) (ri_metric x) (ri_tag x)
    (ri_flags x) (ri_t_timeout x) (ri_t_garbage x) (ri_rp x) (ri_distance x).
Definition set_ri_from (v : list Z) (x : rip_info) : rip_info :=
  RipInfo (ri_type x) (ri_sub_type x) (ri_nexthop x) v (ri_ifindex x) (ri_metric x) (ri_tag x)
    (ri_flags x) (ri_t_timeout x) (ri_t_garbage x) (ri_rp x) (ri_distance x).
Definition set_ri_ifindex (v : Z) (x : rip_info) : rip_info :=
  RipInfo (ri_type x) (ri_sub_type x) (ri_nexthop x) (ri_from x) v (ri_metric x) (ri_tag x)
    (ri_flags x) (ri_t_timeout x) (ri_t_garbage x) (ri_rp x) (ri_distance x).
Definition set_ri_metric (v : Z) (x : rip_info) : rip_info :=
  RipInfo (ri_type x) (ri_sub_type x) (ri_nexthop x) (ri_from x) (ri_ifindex x) v (ri_tag x)
    (ri_flags x) (ri_t_timeout x) (ri_t_garbage x) (ri_rp x) (ri_distance x).
Definition set_ri_tag (v : Z) (x : rip_info) : rip_info :=
  RipInfo (ri_type x) (ri_sub_type x) (ri_nexthop x) (ri_from x) (ri_ifindex x) (ri_metric x) v
    (ri_flags x) (ri_t_timeout x) (ri_t_garbage x) (ri_rp x) (ri_distance x).
Definition set_ri_flags (v : Z) (x : rip_info) : rip_info :=
  RipInfo (ri_type x) (ri_sub_type x) (ri_nexthop x) (ri_from x) (ri_ifindex x) (ri_metric x)
    (ri_tag x) v (ri_t_timeout x) (ri_t_garbage x) (ri_rp x) (ri_distance x).
Definition set_ri_t_timeout (v : bool) (x : rip_info) : rip_info :=
  RipInfo (ri_type x) (ri_sub_type x) (ri_nexthop x) (ri_from x) (ri_ifindex x) (ri_metric x)
    (ri_tag x) (ri_flags x) v (ri_t_garbage x) (ri_rp x) (ri_distance x).
Definition set_ri_t_garbage (v : bool) (x : rip_info) : rip_info :=
  RipInfo (ri_type x) (ri_sub_type x) (ri_nexthop x) (ri_from x) (ri_ifindex x) (ri_metric x)
    (ri_tag x) (ri_flags x) (ri_t_timeout x) v (ri_rp x) (ri_distance x).
Definition set_ri_rp (v : ptr) (x : rip_info) : rip_info :=
  RipInfo (ri_type x) (ri_sub_type x) (ri_nexthop x) (ri_from x) (ri_ifindex x) (ri_metric x)
    (ri_tag x) (ri_flags x) (ri_t_timeout x) (ri_t_garbage x) v (ri_distance x).
Definition set_ri_distance (v : Z) (x : rip_info) : rip_info :=
  RipInfo (ri_type x) (ri_sub_type x) (ri_nexthop x) (ri_from x) (ri_ifindex x) (ri_metric x)
    (ri_tag x) (ri_flags x) (ri_t_timeout x) (ri_t_garbage x) (ri_rp x) v.
Definition set_rd_table (v : route_table nat) (x : ripd) : ripd :=
  Ripd v (rd_infos x) (rd_fresh x) (rd_pending x) (rd_trigger x) (rd_t_triggered_update x)
    (rd_t_triggered_interval x) (rd_log x).
Definition set_rd_infos (v : gmap nat rip_info) (x : ripd) : ripd :=
  Ripd (rd_table x) v (rd_fresh x) (rd_pending x) (rd_trigger x) (rd_t_triggered_update x)
    (rd_t_triggered_interval x) (rd_log x).
Definition set_rd_fresh (v : nat) (x : ripd) : ripd :=
  Ripd (rd_table x) (rd_infos x) v (rd_pending x) (rd_trigger x) (rd_t_triggered_update x)
    (rd_t_triggered_interval x) (rd_log x).
Definition set_rd_pending (v : gset (nat * timer)) (x : ripd) : ripd :=
  Ripd (rd_table x) (rd_infos x) (rd_fresh x) v (rd_trigger x) (rd_t_triggered_update x)
    (rd_t_triggered_interval x) (rd_log x).
Definition set_rd_trigger (v : bool) (x : ripd) : ripd :=
  Ripd (rd_table x) (rd_infos x) (rd_fresh x) (rd_pending x) v (rd_t_triggered_update x)
    (rd_t_triggered_interval x) (rd_log x).
Definition set_rd_t_triggered_update (v : bool) (x : ripd) : ripd :=
  Ripd (rd_table x) (rd_infos x) (rd_fresh x) (rd_pending x) (rd_trigger x) v
    (rd_t_triggered_interval x) (rd_log x).
Definition set_rd_t_triggered_interval (v : bool) (x : ripd) : ripd :=
  Ripd (rd_table x) (rd_infos x) (rd_fresh x) (rd_pending x) (rd_trigger x)
    (rd_t_triggered_update x) v (rd_log x).
Definition set_rd_log (v : list zmessage) (x : ripd) : ripd :=
  Ripd (rd_table x) (rd_infos x) (rd_fresh x) (rd_pending x) (rd_trigger x)
    (rd_t_triggered_update x) (rd_t_triggered_interval x) v.

Abbreviation M := (ST ripd).

(** ** Memory, timers, messages *)

Definition tbl {A} (m : ST (route_table nat) A) : M A := λ z,
  match m (rd_table z) with
  | Ok (a, t) => Ok (a, set_rd_table t z)
  | Fail e => Fail e
  end.

Definition info_read (r : nat) : M rip_info := λ z,
  match rd_infos z !! r with Some x => Ok (x, z) | None => Fail UseAfterFree end.

Definition info_upd (r : nat) (f : rip_info → rip_info) : M unit := λ z,
  match rd_infos z !! r with
  | Some x => Ok (tt, set_rd_infos (<[r := f x]> (rd_infos z)) z)
  | None => Fail UseAfterFree
  end.

Definition info_alloc (x : rip_info) : M nat := λ z,
  Ok (rd_fresh z, set_rd_fresh (S (rd_fresh z)) (set_rd_infos (<[rd_fresh z := x]> (rd_infos z)) z)).

Definition rip_info_free (r : nat) : M unit := λ z,
  match rd_infos z !! r with
  | Some _ => Ok (tt, set_rd_infos (delete r (rd_infos z)) z)
  | None => Fail UseAfterFree
  end.

Definition emit (m : zmessage) : M unit := λ z, Ok (tt, set_rd_log (rd_log z ++ [m]) z).
Definition modify (f : ripd → ripd) : M unit := λ z, Ok (tt, f z).
Definition when (b : bool) (m : M unit) : M unit := if b then m else mret tt.

Definition timer_of (k : timer) (x : rip_info) : bool :=
  match k with Timeout => ri_t_timeout x | Garbage => ri_t_garbage x end.
Definition set_timer (k : timer) (b : bool) (x : rip_info) : rip_info :=
  match k with Timeout => set_ri_t_timeout b x | Garbage => set_ri_t_garbage b x end.

Definition RIP_TIMER_ON (k : timer) (r : nat) : M unit :=
  x ← info_read r;
  when (negb (timer_of k x))
    (modify (λ z, set_rd_pending ({[(r, k)]} ∪ rd_pending z) z);; info_upd r (set_timer k true)).

Definition RIP_TIMER_OFF (k : timer) (r : nat) : M unit :=
  x ← info_read r;
  when (timer_of k x)
    (modify (λ z, set_rd_pending (rd_pending z ∖ {[(r, k)]}) z);; info_upd r (set_timer k false)).

(** [rip_event (RIP_TRIGGERED_UPDATE, 0)] *)
Definition trigger_update : M unit :=
  modify (λ z, if rd_t_triggered_interval z then set_rd_trigger true z
               else set_rd_t_triggered_update true z).

Definition rip_route_rte (x : rip_info) : bool :=
  (ri_type x =? ZEBRA_ROUTE_RIP) && (ri_sub_type x =? RIP_ROUTE_RTE).

Definition rip_info_new : rip_info :=
  RipInfo 0 0 (replicate 4 0) (replicate 4 0) 0 0 0 0 false false 1%positive 0.

Definition set_flag (f : Z) (x : rip_info) : rip_info := set_ri_flags (Z.lor (ri_flags x) f) x.
Definition clear_flag (f : Z) (x : rip_info) : rip_info := set_ri_flags (Z.land (ri_flags x) (Z.lnot f)) x.

(** * Timers *)

(** The thread of a timer that has run off is gone before its function is called. *)
Definition timer_runs (k : timer) (r : nat) : M unit :=
  modify (λ z, set_rd_pending (rd_pending z ∖ {[(r, k)]}) z);;
  info_upd r (set_timer k false).

Definition rip_garbage_collect (r : nat) : M unit :=
  timer_runs Garbage r;;
  RIP_TIMER_OFF Timeout r;;
  x ← info_read r;
  tbl (update_node (ri_rp x) (λ n, set_info None n));;
  tbl (route_unlock_node (ri_rp x));;
  rip_info_free r.

Definition rip_timeout (r : nat) : M unit :=
  timer_runs Timeout r;;
  x ← info_read r;
  RIP_TIMER_ON Garbage r;;
  n ← tbl (read_node (ri_rp x));
  emit (zebra_delete (n_p n) (ri_nexthop x) (ri_metric x));;
  info_upd r (λ x, set_flag RIP_RTF_CHANGED (clear_flag RIP_RTF_FIB (set_ri_metric RIP_METRIC_INFINITY x)));;
  trigger_update.

Definition rip_timeout_update (r : nat) : M unit :=
  x ← info_read r;
  when (negb (ri_metric x =? RIP_METRIC_INFINITY)) (RIP_TIMER_OFF Timeout r;; RIP_TIMER_ON Timeout r).

(** * Interfaces *)

Definition addr_of (p : prefix) : list Z := take 4 (u p).

(** [rip_nexthop_check (addr) < 0] *)
Definition rip_nexthop_check (ifs : list interface) (addr : list Z) : bool :=
  existsb (λ i, existsb (λ c, (family (c_address c) =? AF_INET) && bool_decide (addr_of (c_address c) = addr)) (if_connected i)) ifs.

Definition host (addr : list Z) : prefix := Prefix AF_INET 32 (copy_bytes (u prefix_ipv4_new) addr 4).

(** Whether an address of the interface makes [addr] a neighbor. *)
Definition valid_on (i : interface) (addr : list Z) (c : connected) : res bool :=
  if if_is_pointopoint i then
    Ok ((family (c_address c) =? AF_INET) &&
        (bool_decide (addr_of (c_address c) = addr) ||
         match c_destination c with Some d => bool_decide (addr_of d = addr) | None => false end))
  else if negb (family (c_address c) =? AF_INET) then Ok false
  else pxc ← apply_mask (c_address c); prefix_match pxc (host addr).

Fixpoint some_connected (P : connected → res bool) (l : list connected) : res bool :=
  match l with
  | [] => Ok false
  | c :: l => b ← P c; if (b : bool) then Ok true else some_connected P l
  end.

Fixpoint if_valid_neighbor (ifs : list interface) (addr : list Z) : res bool :=
  match ifs with
  | [] => Ok false
  | i :: ifs => b ← some_connected (valid_on i addr) (if_connected i);
                if (b : bool) then Ok true else if_valid_neighbor ifs addr
  end.

(** The loop over the addresses of an interface: an interface of a point-to-point link
    is taken at once ([inl]), the others by the longest prefix so far. *)
Fixpoint lookup_connected (i : interface) (src : list Z) (l : list connected) (best : Z) (match_ : option interface)
    : res (interface + Z * option interface) :=
  match l with
  | [] => Ok (inr (best, match_))
  | c :: l =>
      if if_is_pointopoint i then
        if (family (c_address c) =? AF_INET) &&
           match c_destination c with Some d => bool_decide (addr_of d = src) | None => false end
        then Ok (inl i) else lookup_connected i src l best match_
      else if family (c_address c) =? AF_INET then
        b ← prefix_match (c_address c) (host src);
        if b && (prefixlen (c_address c) >? best)
        then lookup_connected i src l (prefixlen (c_address c)) (Some i)
        else lookup_connected i src l best match_
      else lookup_connected i src l best match_
  end.

Fixpoint lookup_address_loop (ifs : list interface) (src : list Z) (best : Z) (match_ : option interface)
    : res (option interface) :=
  match ifs with
  | [] => Ok match_
  | i :: ifs =>
      r ← lookup_connected i src (if_connected i) best match_;
      match r with
      | inl i => Ok (Some i)
      | inr (best, match_) => lookup_address_loop ifs src best match_
      end
  end.

Definition if_lookup_address (ifs : list interface) (src : list Z) : res (option interface) :=
  lookup_address_loop ifs src 0 None.

(** * Responses *)

Section Ripd.
(** The byte order of the machine, the interfaces, and the configured policy: what the
    incoming filters accept, the metric after the offset list if there is one, and the
    distance for a source and a prefix. *)
Context (little_endian : bool) (ifs : list interface)
        (rip_incoming_filter : interface → prefix → bool)
        (rip_offset_list_apply_in : interface → prefix → Z → option Z)
        (rip_distance_apply : list Z → prefix → Z).

Definition ntohs (b : list Z) : Z := match b with b0 :: b1 :: _ => 256 * b0 + b1 | _ => 0 end.

(** The value of a 16-bit member as the machine reads it. *)
Definition load16 (b : list Z) : Z :=
  match b with b0 :: b1 :: _ => if little_endian then b0 + 256 * b1 else 256 * b0 + b1 | _ => 0 end.

Definition zero_addr : list Z := replicate 4 0.

(** [(same && (rinfo->metric != rte->metric || rinfo->tag != rte->tag
       || !IPV4_ADDR_SAME (&rte->nexthop, &rinfo->nexthop))) || rte->metric < rinfo->metric] *)
Definition adopts (same : bool) (x : rip_info) (metric : Z) (e : rte) : bool :=
  (same && (negb (ri_metric x =? metric) || negb (ri_tag x =? load16 (rte_tag e)) ||
            negb (bool_decide (rte_nexthop e = ri_nexthop x)))) || (metric <? ri_metric x).

(** The route is taken from the datagram. *)
Definition adopt (r : nat) (p : prefix) (e : rte) (metric : Z) (from nexthop : list Z) (ifp : interface) : M unit :=
  x ← info_read r;
  let oldmetric := u8 (ri_metric x) in
  n ← tbl (read_node (ri_rp x));
  info_upd r (λ x, set_ri_distance (rip_distance_apply from (n_p n)) (set_ri_ifindex (if_ifindex ifp)
                     (set_ri_from from (set_ri_tag (ntohs (rte_tag e)) (set_ri_metric metric x)))));;
  when ((oldmetric =? RIP_METRIC_INFINITY) && (metric <? RIP_METRIC_INFINITY))
    (info_upd r (λ x, set_ri_sub_type RIP_ROUTE_RTE (set_ri_type ZEBRA_ROUTE_RIP x));;
     RIP_TIMER_OFF Garbage r;;
     info_upd r (set_ri_nexthop nexthop);;
     y ← info_read r;
     emit (zebra_add p nexthop (ri_metric y) (ri_distance y));;
     info_upd r (set_flag RIP_RTF_FIB));;
  when (negb (oldmetric =? RIP_METRIC_INFINITY))
    (y ← info_read r;
     emit (zebra_delete p (ri_nexthop y) oldmetric);;
     emit (zebra_add p nexthop (ri_metric y) (ri_distance y));;
     info_upd r (set_flag RIP_RTF_FIB);;
     info_upd r (set_ri_nexthop nexthop));;
  info_upd r (set_flag RIP_RTF_CHANGED);;
  trigger_update;;
  y ← info_read r;
  if ri_metric y =? RIP_METRIC_INFINITY then
    when (negb (oldmetric =? RIP_METRIC_INFINITY))
      (RIP_TIMER_ON Garbage r;;
       RIP_TIMER_OFF Timeout r;;
       emit (zebra_delete p (ri_nexthop y) oldmetric);;
       info_upd r (clear_flag RIP_RTF_FIB))
  else rip_timeout_update r.

(** A route that was not there, from the node [rp]. *)
Definition new_route (rp : ptr) (p : prefix) (e : rte) (metric : Z) (from nexthop : list Z) (ifp : interface) : M unit :=
  n ← tbl (read_node rp);
  r ← info_alloc (set_ri_ifindex (if_ifindex ifp) (set_ri_from from (set_ri_nexthop nexthop
        (set_ri_tag (ntohs (rte_tag e)) (set_ri_metric metric (set_ri_rp rp rip_info_new))))));
  rip_timeout_update r;;
  info_upd r (set_flag RIP_RTF_CHANGED);;
  trigger_update;;
  info_upd r (λ x, set_ri_sub_type RIP_ROUTE_RTE (set_ri_type ZEBRA_ROUTE_RIP x));;
  info_upd r (set_ri_distance (rip_distance_apply from (n_p n)));;
  tbl (update_node rp (λ n, set_info (Some r) n));;
  y ← info_read r;
  emit (zebra_add p (ri_nexthop y) (ri_metric y) (ri_distance y));;
  info_upd r (set_flag RIP_RTF_FIB).

(** The metric with the cost of the network. *)
Definition added_metric (ifp : interface) (p : prefix) (metric : Z) : Z :=
  let m := match rip_offset_list_apply_in ifp p metric with
           | Some m => u32 m
           | None => u32 (metric + if_metric ifp)
           end in
  if m >? RIP_METRIC_INFINITY then RIP_METRIC_INFINITY else m.

(** [metric] is the metric of the entry, which is in host order by now. *)
Definition rip_rte_process (e : rte) (metric : Z) (from : sockaddr_in) (ifp : interface) : M unit :=
  len ← st_lift (ip_masklen (rte_mask e));
  p ← st_lift (apply_mask_ipv4 (Prefix AF_INET len (copy_bytes (u prefix_ipv4_new) (rte_prefix e) 4)));
  if negb (rip_incoming_filter ifp p) then mret tt
  else
    let metric := added_metric ifp p metric in
    let nexthop := if bool_decide (rte_nexthop e = zero_addr) then sin_addr from else rte_nexthop e in
    if rip_nexthop_check ifs nexthop then mret tt
    else
      rp ← tbl (route_node_get p);
      n ← tbl (read_node rp);
      match n_info n with
      | None => when (negb (metric =? RIP_METRIC_INFINITY)) (new_route rp p e metric (sin_addr from) nexthop ifp)
      | Some r =>
          x ← info_read r;
          if negb (ri_type x =? ZEBRA_ROUTE_RIP) && negb (ri_metric x =? RIP_METRIC_INFINITY) then mret tt
          else if (ri_type x =? ZEBRA_ROUTE_RIP) && (ri_sub_type x =? RIP_ROUTE_STATIC) && negb (ri_metric x =? RIP_METRIC_INFINITY)
          then mret tt
          else
            let same := bool_decide (ri_from x = sin_addr from) in
            when same (rip_timeout_update r);;
            when (adopts same x metric e) (adopt r p e metric (sin_addr from) nexthop ifp);;
            tbl (route_unlock_node rp)
      end.

(** ** Checks of the entries *)

Definition rip_destination_check (addr : list Z) : bool :=
  let destination := ntohl addr in
  if Z.land destination 0xff000000 =? 0x7f000000 then false
  else if (Z.land destination 0xff000000 =? 0) && negb (destination =? 0) then false
  else IN_CLASSA destination || IN_CLASSB destination || IN_CLASSC destination.

Definition IN_CLASSD (a : Z) : bool := Z.land a 0xf0000000 =? 0xe0000000.

(** The nexthop of an entry of RIPv2: [None] when the entry is skipped. *)
Definition check_nexthop (version : Z) (e : rte) : M (option rte) :=
  if (version =? RIPv2) && negb (bool_decide (rte_nexthop e = zero_addr)) then
    if IN_CLASSD (ntohl (rte_nexthop e)) then mret None
    else
      found ← st_lift (if_lookup_address ifs (rte_nexthop e));
      match found with
      | Some _ => mret (Some e)
      | None =>
          rn ← tbl (route_node_match_ipv4 (rte_nexthop e));
          match rn with
          | None => mret (Some (set_rte_nexthop zero_addr e))
          | Some rn =>
              n ← tbl (read_node rn);
              r ← st_lift (of_option NullDeref (n_info n));
              x ← info_read r;
              tbl (route_unlock_node rn);;
              mret (Some (set_rte_nexthop (if rip_route_rte x then ri_from x else zero_addr) e))
          end
      end
  else mret (Some e).

(** The mask of an entry that has none. *)
Definition guess_mask (version : Z) (e : rte) : res rte :=
  if negb (bool_decide (rte_prefix e = zero_addr)) &&
     ((version =? RIPv1) || ((version =? RIPv2) && bool_decide (rte_mask e = zero_addr)))
  then
    let destination := ntohl (rte_prefix e) in
    mask ← masklen2ip (if negb (Z.land destination 0xff =? 0) then 32
                       else if negb (Z.land destination 0xff00 =? 0) || IN_CLASSC destination then 24
                       else if negb (Z.land destination 0xff0000 =? 0) || IN_CLASSB destination then 16
                       else 8);
    Ok (set_rte_mask mask e)
  else Ok e.

(** [(rte->prefix.s_addr & rte->mask.s_addr) != rte->prefix.s_addr] *)
Definition not_masked (e : rte) : bool :=
  negb (bool_decide (zip_with Z.land (rte_prefix e) (rte_mask e) = rte_prefix e)).

(** One entry of a response; [first] tells whether it is the first. *)
Definition response_entry (version : Z) (first : bool) (e : rte) (from : sockaddr_in) (ifp : interface) : M unit :=
  if (version =? RIPv2) && first && bool_decide (rte_family e = [0xff; 0xff]) then mret tt
  else if negb (ntohs (rte_family e) =? AF_INET) then mret tt
  else if negb (rip_destination_check (rte_prefix e)) then mret tt
  else
    let metric := ntohl (rte_metric e) in
    if negb ((1 <=? metric) && (metric <=? 16)) then mret tt
    else if (version =? RIPv1) && negb (bool_decide (rte_nexthop e = zero_addr)) then mret tt
    else
      e ← check_nexthop version e;
      match e with
      | None => mret tt
      | Some e =>
          e ← st_lift (guess_mask version e);
          if (version =? RIPv2) && negb (bool_decide (rte_mask e = zero_addr)) && not_masked e then mret tt
          else
            let e := if (version =? RIPv2) && bool_decide (rte_prefix e = zero_addr) && negb (bool_decide (rte_mask e = zero_addr))
                     then set_rte_mask zero_addr e else e in
            rip_rte_process e metric from ifp
      end.

Fixpoint response_loop (version : Z) (first : bool) (es : list rte) (from : sockaddr_in) (ifp : interface) : M unit :=
  match es with
  | [] => mret tt
  | e :: es => response_entry version first e from ifp;; response_loop version false es from ifp
  end.

Definition rip_response_process (version : Z) (es : list rte) (from : sockaddr_in) (ifp : interface) : M unit :=
  if negb (sin_port from =? RIP_PORT_DEFAULT) then mret tt
  else
    valid ← st_lift (if_valid_neighbor ifs (sin_addr from));
    if (valid : bool) then response_loop version true es from ifp else mret tt.
End Ripd.

(** * Redistribution *)

(** The new route of a node. *)
Definition install_route (type sub_type : Z) (rp : ptr) (ifindex : Z) (nexthop : option (list Z)) : M unit :=
  r ← info_alloc (set_flag RIP_RTF_FIB (set_ri_nexthop (default zero_addr nexthop) (set_ri_rp rp
        (set_ri_metric 1 (set_ri_ifindex ifindex (set_ri_sub_type sub_type (set_ri_type type rip_info_new)))))));
  tbl (update_node rp (λ n, set_info (Some r) n));;
  info_upd r (set_flag RIP_RTF_CHANGED);;
  trigger_update.

(** Whether the route of the node stays when a route is redistributed. *)
Definition keeps_route (x : rip_info) (type sub_type : Z) : bool :=
  ((ri_type x =? ZEBRA_ROUTE_CONNECT) && (ri_sub_type x =? RIP_ROUTE_INTERFACE) && negb (ri_metric x =? RIP_METRIC_INFINITY)) ||
  ((ri_type x =? ZEBRA_ROUTE_RIP) && (ri_sub_type x =? RIP_ROUTE_STATIC) &&
   (negb (type =? ZEBRA_ROUTE_RIP) || negb (sub_type =? RIP_ROUTE_STATIC))).

Definition rip_redistribute_add (type sub_type : Z) (p : prefix) (ifindex : Z) (nexthop : option (list Z)) : M unit :=
  if negb (rip_destination_check (addr_of p)) then mret tt
  else
    rp ← tbl (route_node_get p);
    n ← tbl (read_node rp);
    match n_info n with
    | None => install_route type sub_type rp ifindex nexthop
    | Some r =>
        x ← info_read r;
        if keeps_route x type sub_type then tbl (route_unlock_node rp)
        else
          RIP_TIMER_OFF Timeout r;;
          RIP_TIMER_OFF Garbage r;;
          when (rip_route_rte x) (emit (zebra_delete (n_p n) (ri_nexthop x) (ri_metric x)));;
          tbl (update_node rp (λ n, set_info None n));;
          rip_info_free r;;
          tbl (route_unlock_node rp);;
          install_route type sub_type rp ifindex nexthop
    end.

(** [/* Perform poisoned reverse. */] *)
Definition poison (r : nat) : M unit :=
  info_upd r (set_ri_metric RIP_METRIC_INFINITY);;
  RIP_TIMER_ON Garbage r;;
  RIP_TIMER_OFF Timeout r;;
  info_upd r (set_flag RIP_RTF_CHANGED);;
  trigger_update.

(** The lock of the lookup is not released. *)
Definition rip_redistribute_delete (type sub_type : Z) (p : prefix) (ifindex : Z) : M unit :=
  if negb (rip_destination_check (addr_of p)) then mret tt
  else
    rp ← tbl (route_node_lookup p);
    match rp with
    | None => mret tt
    | Some rp =>
        n ← tbl (read_node rp);
        match n_info n with
        | None => mret tt
        | Some r =>
            x ← info_read r;
            when ((ri_type x =? type) && (ri_sub_type x =? sub_type) && (ri_ifindex x =? ifindex)) (poison r)
        end
    end.

(** * The whole table *)

(** [for (rp = route_top (rip->table); rp; rp = route_next (rp))
       if ((rinfo = rp->info) != NULL) body] *)
Fixpoint table_loop (fuel : nat) (body : nat → M unit) (rn : option ptr) : M unit :=
  match rn with
  | None => mret tt
  | Some id =>
      match fuel with
      | O => st_fail OutOfFuel
      | S f =>
          n ← tbl (read_node id);
          match n_info n with Some r => body r | None => mret tt end;;
          next ← tbl (route_next id);
          table_loop f body next
      end
  end.

Definition for_routes (body : nat → M unit) : M unit :=
  z ← st_get;
  rn ← tbl route_top;
  table_loop (size (heap (rd_table z))) body rn.

Definition rip_redistribute_withdraw (type : Z) : M unit :=
  for_routes (λ r, x ← info_read r;
                   when ((ri_type x =? type) && negb (ri_sub_type x =? RIP_ROUTE_INTERFACE)) (poison r)).

Definition rip_clear_changed_flag : M unit :=
  for_routes (λ r, x ← info_read r;
                   when (negb (Z.land (ri_flags x) RIP_RTF_CHANGED =? 0)) (info_upd r (clear_flag RIP_RTF_CHANGED))).

(** ** Updates

    The output, rip_update_process, is the argument [send]; it is in the file of the
    output. *)

Inductive route_type := rip_all_route | rip_changed_route.

#[export] Instance route_type_eq_dec : EqDecision route_type.
Proof. solve_decision. Defined.

Definition rip_update (send : route_type → M unit) : M unit :=
  send rip_all_route;;
  modify (λ z, set_rd_trigger false (set_rd_t_triggered_interval false z)).

Definition rip_triggered_update (send : route_type → M unit) : M unit :=
  modify (λ z, set_rd_trigger false (set_rd_t_triggered_interval false (set_rd_t_triggered_update false z)));;
  send rip_changed_route;;
  rip_clear_changed_flag;;
  modify (set_rd_t_triggered_interval true).

Definition rip_triggered_interval (send : route_type → M unit) : M unit :=
  modify (set_rd_t_triggered_interval false);;
  z ← st_get;
  when (rd_trigger z) (modify (set_rd_trigger false);; rip_triggered_update send).
