(* ===== verification/RipInv.v ===== *)
(** RIP: the invariant of the table of routes, and what each operation on a route does
    to it. *)

From S2P Require Import Prelude Prefix Table TableFacts TableRep TableWalk TableGet TableDelete TableIter TableSpec TableView Rip.

Implicit Types (z : ripd) (x : rip_info) (r : nat) (rp : ptr) (k : timer) (p : prefix) (ms : list zmessage) (b : bool).

(** * The invariant *)

(** What zebra has been told: the last route of each prefix. *)
Definition hears (v : gmap (list bool) (list Z * Z)) (m : zmessage) : gmap (list bool) (list Z * Z) :=
  match m with
  | zebra_add p nexthop metric _ => <[pbits p := (nexthop, metric)]> v
  | zebra_delete p _ _ => delete (pbits p) v
  end.

Definition zebra_view (ms : list zmessage) : gmap (list bool) (list Z * Z) := foldl hears ∅ ms.

Definition usable x : bool := negb (ri_metric x =? RIP_METRIC_INFINITY).

(** What zebra is to know of a route. *)
Definition announced x : option (list Z * Z) :=
  if rip_route_rte x && usable x then Some (ri_nexthop x, ri_metric x) else None.

Record route_ok x : Prop := RouteOk {
  ro_metric : 1 ≤ ri_metric x ≤ RIP_METRIC_INFINITY;
  ro_garbage : ri_t_garbage x = negb (usable x);
  ro_timeout : ri_t_timeout x = rip_route_rte x && usable x;
  ro_rte : rip_route_rte x = true → ri_nexthop x ≠ zero_addr;
  ro_local : rip_route_rte x = false → ri_from x = zero_addr ∧ (usable x = true → ri_metric x = 1);
}.

(** The route of a prefix. *)
Definition route_at z (key : list bool) : option rip_info := r ← abs (rd_table z) !! key; rd_infos z !! r.

(** A node has at most one route, which points back at it; a timer is waiting exactly
    when the route has it; zebra has the usable routes that were received. *)
Record rip_inv z : Prop := RipInv {
  rv_table : table_inv (rd_table z);
  rv_node : ∀ rp r, info (rd_table z) rp = Some r → ∃ x, rd_infos z !! r = Some x ∧ ri_rp x = rp;
  rv_info : ∀ r x, rd_infos z !! r = Some x → info (rd_table z) (ri_rp x) = Some r;
  rv_ok : ∀ r x, rd_infos z !! r = Some x → route_ok x;
  rv_fresh : ∀ r, is_Some (rd_infos z !! r) → (r < rd_fresh z)%nat;
  rv_pending : ∀ r k, (r, k) ∈ rd_pending z ↔ ∃ x, rd_infos z !! r = Some x ∧ timer_of k x = true;
  rv_zebra : ∀ key, zebra_view (rd_log z) !! key = route_at z key ≫= announced;
}.

(** * One route *)

(** The timers of a route brought in step with its members. *)
Definition sync r x (P : gset (nat * timer)) : gset (nat * timer) :=
  (P ∖ {[(r, Timeout)]} ∖ {[(r, Garbage)]})
  ∪ (if ri_t_timeout x then {[(r, Timeout)]} else ∅) ∪ (if ri_t_garbage x then {[(r, Garbage)]} else ∅).

(** The state with the route [r] made [x], an update triggered when [b], and the
    messages [ms] sent. *)
Definition focus z r x b ms : ripd :=
  Ripd (rd_table z) (<[r := x]> (rd_infos z)) (rd_fresh z) (sync r x (rd_pending z))
    (rd_trigger z || (b && rd_t_triggered_interval z))
    (rd_t_triggered_update z || (b && negb (rd_t_triggered_interval z)))
    (rd_t_triggered_interval z) (rd_log z ++ ms).

Lemma elem_of_sync r x P r' k :
  (r', k) ∈ sync r x P ↔ if decide (r' = r) then timer_of k x = true else (r', k) ∈ P.
Proof.
  unfold sync. case_decide as E; [subst r'|].
  - destruct k, (ri_t_timeout x) eqn:Et, (ri_t_garbage x) eqn:Eg; cbn; rewrite ?Et, ?Eg; set_solver.
  - assert (∀ k', (r', k) ≠ (r, k')) by congruence.
    destruct (ri_t_timeout x), (ri_t_garbage x); set_solver.
Qed.

Lemma sync_eq r x P Q :
  (∀ r' k, (r', k) ∈ Q ↔ if decide (r' = r) then timer_of k x = true else (r', k) ∈ P) → sync r x P = Q.
Proof. intros H. apply set_eq. intros [r' k]. by rewrite elem_of_sync, H. Qed.

Lemma focus_ext z r x b ms P tr tu :
  P = sync r x (rd_pending z) → tr = rd_trigger z || (b && rd_t_triggered_interval z) →
  tu = rd_t_triggered_update z || (b && negb (rd_t_triggered_interval z)) →
  Ripd (rd_table z) (<[r := x]> (rd_infos z)) (rd_fresh z) P tr tu (rd_t_triggered_interval z) (rd_log z ++ ms) = focus z r x b ms.
Proof. by intros -> -> ->. Qed.

Lemma focus_read z r x b ms : info_read r (focus z r x b ms) = Ok (x, focus z r x b ms).
Proof. unfold info_read. cbn. by rewrite lookup_insert_eq. Qed.

Lemma focus_upd z r x b ms f :
  (∀ y k, timer_of k (f y) = timer_of k y) → info_upd r f (focus z r x b ms) = Ok (tt, focus z r (f x) b ms).
Proof.
  intros Hf. unfold info_upd. cbn. rewrite lookup_insert_eq. unfold set_rd_infos. cbn. rewrite insert_insert_eq.
  unfold focus. do 3 f_equal. pose proof (Hf x Timeout) as H1. pose proof (Hf x Garbage) as H2. cbn in H1, H2.
  unfold sync. by rewrite H1, H2.
Qed.

Lemma focus_emit z r x b ms m : emit m (focus z r x b ms) = Ok (tt, focus z r x b (ms ++ [m])).
Proof. unfold emit, focus, set_rd_log. cbn. by rewrite app_assoc. Qed.

Lemma focus_trigger z r x b ms : trigger_update (focus z r x b ms) = Ok (tt, focus z r x true ms).
Proof.
  unfold trigger_update, modify, focus. cbn. destruct z as [? ? ? ? tr tu ti ?]. cbn.
  destruct ti; unfold set_rd_trigger, set_rd_t_triggered_update; cbn; by rewrite ?andb_false_r, ?orb_true_r.
Qed.

Lemma set_timer_same k b x : timer_of k x = b → set_timer k b x = x.
Proof. destruct k, x; cbn; by intros ->. Qed.

Lemma timer_of_set k b x k' : timer_of k' (set_timer k b x) = if decide (k = k') then b else timer_of k' x.
Proof. by destruct k, k'. Qed.

(** The pending timers and the member are changed together. *)
Lemma focus_timer z r x b ms k (v : bool) (P : gset (nat * timer)) :
  (∀ r' k', (r', k') ∈ P ↔ if decide ((r', k') = (r, k)) then v = true else (r', k') ∈ sync r x (rd_pending z)) →
  info_upd r (set_timer k v) (set_rd_pending P (focus z r x b ms)) = Ok (tt, focus z r (set_timer k v x) b ms).
Proof.
  intros HP. unfold info_upd. cbn. rewrite lookup_insert_eq. unfold set_rd_infos, set_rd_pending. cbn.
  rewrite insert_insert_eq. do 2 f_equal. apply focus_ext; try done. symmetry. apply sync_eq.
  intros r' k'. rewrite HP, timer_of_set. repeat case_decide; simplify_eq; try done; rewrite elem_of_sync; by case_decide.
Qed.

Lemma focus_timer_on z r x b ms k : RIP_TIMER_ON k r (focus z r x b ms) = Ok (tt, focus z r (set_timer k true x) b ms).
Proof.
  unfold RIP_TIMER_ON. rewrite (st_bind_Ok _ _ _ _ _ (focus_read _ _ _ _ _)).
  destruct (timer_of k x) eqn:E; cbn [negb when]; [by rewrite set_timer_same|].
  erewrite st_bind_Ok by reflexivity. apply focus_timer. intros r' k'. cbn. case_decide; set_solver.
Qed.

Lemma focus_timer_off z r x b ms k : RIP_TIMER_OFF k r (focus z r x b ms) = Ok (tt, focus z r (set_timer k false x) b ms).
Proof.
  unfold RIP_TIMER_OFF. rewrite (st_bind_Ok _ _ _ _ _ (focus_read _ _ _ _ _)).
  destruct (timer_of k x) eqn:E; cbn [when]; [|by rewrite set_timer_same].
  erewrite st_bind_Ok by reflexivity. apply focus_timer. intros r' k'. cbn. case_decide; set_solver.
Qed.

Lemma focus_timer_runs z r x b ms k : timer_runs k r (focus z r x b ms) = Ok (tt, focus z r (set_timer k false x) b ms).
Proof.
  unfold timer_runs. erewrite st_bind_Ok by reflexivity. apply focus_timer. intros r' k'. cbn. case_decide; set_solver.
Qed.

Lemma focus_tbl {B} (m : ST (route_table nat) B) z r x b ms a t' :
  m (rd_table z) = Ok (a, t') → tbl m (focus z r x b ms) = Ok (a, focus (set_rd_table t' z) r x b ms).
Proof. unfold tbl. cbn. by intros ->. Qed.

Lemma set_rd_table_id z : set_rd_table (rd_table z) z = z.
Proof. by destruct z. Qed.

Lemma focus_self z r x : rip_inv z → rd_infos z !! r = Some x → focus z r x false [] = z.
Proof.
  intros Hinv Hx. destruct z as [t I fr P tr tu ti L]. unfold focus. cbn in *. rewrite insert_id by done.
  rewrite app_nil_r, !orb_false_r. f_equal. apply sync_eq. intros r' k. case_decide; [|done]. subst.
  rewrite (rv_pending _ Hinv). cbn. split; [intros (y & Hy & ?); congruence|by exists x].
Qed.

(** * Keeping the invariant *)

Definition msg_key (m : zmessage) : list bool := match m with zebra_add p _ _ _ | zebra_delete p _ _ => pbits p end.

(** What zebra knows of the prefix that all the messages are about. *)
Definition told (o : option (list Z * Z)) (m : zmessage) : option (list Z * Z) :=
  match m with zebra_add _ nexthop metric _ => Some (nexthop, metric) | zebra_delete _ _ _ => None end.

Abbreviation tells o ms := (foldl told o ms).
Abbreviation about key ms := (Forall (λ m, msg_key m = key) ms).

Lemma view_tells ms : ∀ L key j, about key ms →
  zebra_view (L ++ ms) !! j = if decide (j = key) then tells (zebra_view L !! key) ms else zebra_view L !! j.
Proof.
  induction ms as [|m ms IH] using rev_ind; intros L key j H.
  - rewrite app_nil_r. case_decide; [by subst|done].
  - apply Forall_app in H as [H [Hm _]%Forall_cons]. rewrite app_assoc. specialize (IH L key j H).
    unfold zebra_view in *. rewrite (foldl_app _ (L ++ ms)), (foldl_app told). cbn.
    destruct m; cbn in Hm |- *; subst key; rewrite ?lookup_insert, ?lookup_delete; repeat case_decide; subst; done.
Qed.

Lemma abs_info z key r : rip_inv z → abs (rd_table z) !! key = Some r →
  ∃ x n, rd_infos z !! r = Some x ∧ heap (rd_table z) !! ri_rp x = Some n ∧ pbits (n_p n) = key ∧ n_info n = Some r.
Proof.
  intros Hinv H. apply abs_lookup in H as (rp & n & Hn & Hk & Hi); [|apply Hinv].
  destruct (rv_node _ Hinv rp r) as (x & Hx & <-); [unfold info_at; by rewrite Hn|]. by exists x, n.
Qed.

Lemma info_key z r x : rip_inv z → rd_infos z !! r = Some x →
  ∃ n, heap (rd_table z) !! ri_rp x = Some n ∧ n_info n = Some r ∧ abs (rd_table z) !! pbits (n_p n) = Some r.
Proof.
  intros Hinv Hx. destruct (info_in _ _ _ (rv_info _ Hinv _ _ Hx)) as (n & Hn & Hi). exists n. split_and!; try done.
  eapply info_abs; [apply Hinv|done|done].
Qed.

Lemma abs_key_inj z (k1 k2 : list bool) r : rip_inv z → abs (rd_table z) !! k1 = Some r → abs (rd_table z) !! k2 = Some r → k1 = k2.
Proof.
  intros Hinv H1 H2. destruct (abs_info _ _ _ Hinv H1) as (x & n & ? & ? & ? & _), (abs_info _ _ _ Hinv H2) as (y & m & ? & ? & ? & _).
  congruence.
Qed.

(** The table may be changed in its locks. *)
Lemma rip_inv_table z t' : rip_inv z →
  table_inv t' → abs t' = abs (rd_table z) → (∀ i, info t' i = info (rd_table z) i) → rip_inv (set_rd_table t' z).
Proof.
  intros Hinv Ht Ha Hi. split; cbn; try apply Hinv; try done.
  - intros rp r. rewrite Hi. apply Hinv.
  - intros r x Hx. rewrite Hi. by apply Hinv.
  - intros key. rewrite (rv_zebra _ Hinv). unfold route_at. cbn. by rewrite Ha.
Qed.

(** The route of [key] is now [o]; the others are as they were. *)
Record moved z (key : list bool) (o : option rip_info) z' : Prop := Moved {
  mv_inv : rip_inv z';
  mv_at : route_at z' key = o;
  mv_other : ∀ j, j ≠ key → route_at z' j = route_at z j;
}.

Lemma focus_moved z r x x' b ms key :
  rip_inv z → rd_infos z !! r = Some x → abs (rd_table z) !! key = Some r → ri_rp x' = ri_rp x → route_ok x' →
  about key ms → tells (announced x) ms = announced x' → moved z key (Some x') (focus z r x' b ms).
Proof.
  intros Hinv Hx Hk Hrp Hok Hms Htell. assert (Hat : ∀ j, route_at (focus z r x' b ms) j = if decide (j = key) then Some x' else route_at z j).
  { intros j. unfold route_at. cbn. case_decide as E; [subst j; rewrite Hk; cbn; by rewrite lookup_insert_eq|].
    destruct (abs (rd_table z) !! j) as [q|] eqn:Eq; [|done]. cbn. rewrite lookup_insert_ne; [done|].
    intros ->. destruct E. by eapply abs_key_inj. }
  split; [|rewrite Hat; by case_decide|intros j Hj; rewrite Hat; by case_decide].
  split; cbn; try apply Hinv.
  - intros rp q Hq. destruct (rv_node _ Hinv rp q Hq) as (y & Hy & <-). rewrite lookup_insert.
    case_decide; [|by exists y]. simplify_eq. by exists x'.
  - intros q y. rewrite lookup_insert. case_decide; [|by apply Hinv]. intros [= <-]. subst q. rewrite Hrp. by apply Hinv.
  - intros q y. rewrite lookup_insert. case_decide; [|by apply Hinv]. by intros [= <-].
  - intros q. rewrite lookup_insert. case_decide; [|by apply Hinv]. subst q. intros _. apply Hinv. by eexists.
  - intros q k. rewrite elem_of_sync, lookup_insert. repeat case_decide; simplify_eq; try apply Hinv.
    split; [by exists x'|]. by intros (? & [= <-] & ?).
  - intros j. rewrite (view_tells _ _ key) by done. rewrite !(rv_zebra _ Hinv). rewrite Hat. case_decide; [|done]. cbn. rewrite <- Htell. unfold route_at. rewrite Hk. cbn. by rewrite Hx.
Qed.

(** ** A new route *)

Lemma alloc_focus z x : rip_inv z → (∀ k, timer_of k x = false) →
  info_alloc x z = Ok (rd_fresh z, focus (set_rd_fresh (S (rd_fresh z)) z) (rd_fresh z) x false []).
Proof.
  intros Hinv Hx. unfold info_alloc. do 2 f_equal. destruct z as [t I fr P tr tu ti L]. unfold focus. cbn in *.
  unfold set_rd_fresh, set_rd_infos. cbn. rewrite app_nil_r, !orb_false_r. f_equal. symmetry. apply sync_eq.
  intros r' k. case_decide; [|done]. subst. rewrite Hx. rewrite (rv_pending _ Hinv). cbn. split; [|done].
  intros (y & Hy & _). pose proof (rv_fresh _ Hinv fr). cbn in *. exfalso. assert (fr < fr)%nat; [|lia]. apply H. by eexists.
Qed.

Lemma attach_moved z rp key x b ms t' :
  rip_inv z → abs (rd_table z) !! key = None → info (rd_table z) rp = None →
  table_inv t' → abs t' = <[key := rd_fresh z]> (abs (rd_table z)) →
  info t' rp = Some (rd_fresh z) → (∀ i, i ≠ rp → info t' i = info (rd_table z) i) →
  ri_rp x = rp → route_ok x → about key ms → tells None ms = announced x →
  moved z key (Some x) (focus (set_rd_fresh (S (rd_fresh z)) (set_rd_table t' z)) (rd_fresh z) x b ms).
Proof.
  intros Hinv Hnone Hino Ht Ha Hi Hoth <- Hok Hms Htell.
  assert (Hfr : ∀ r y, rd_infos z !! r = Some y → r ≠ rd_fresh z).
  { intros r y Hy E. subst r. pose proof (rv_fresh _ Hinv (rd_fresh z)). assert (rd_fresh z < rd_fresh z)%nat; [|lia]. apply H. by eexists. }
  set (z' := focus _ _ _ _ _). assert (Hat : ∀ j, route_at z' j = if decide (j = key) then Some x else route_at z j).
  { intros j. unfold route_at. cbn. rewrite Ha, lookup_insert. repeat case_decide; simplify_eq; cbn; [by rewrite lookup_insert_eq|].
    destruct (abs (rd_table z) !! j) as [q|] eqn:Eq; [|done]. cbn. destruct (abs_info _ _ _ Hinv Eq) as (y & _ & Hy & _).
    rewrite lookup_insert_ne; [done|]. intros E. by apply (Hfr q y). }
  split; [|rewrite Hat; by case_decide|intros j Hj; rewrite Hat; by case_decide].
  split; cbn; try done.
  - intros rp r. destruct (decide (rp = ri_rp x)) as [->|Hne]; [rewrite Hi; intros [= <-]; exists x; by rewrite lookup_insert_eq|].
    rewrite Hoth by done. intros Hr. destruct (rv_node _ Hinv rp r Hr) as (y & Hy & ?). exists y.
    rewrite lookup_insert_ne; [done|]. intros E. by apply (Hfr r y).
  - intros r y. rewrite lookup_insert. case_decide; [intros [= <-]; by subst|]. intros Hy. rewrite Hoth; [by apply Hinv|].
    intros E. pose proof (rv_info _ Hinv _ _ Hy). congruence.
  - intros r y. rewrite lookup_insert. case_decide; [by intros [= <-]|by apply Hinv].
  - intros r. rewrite lookup_insert. case_decide; [lia|]. intros Hr. pose proof (rv_fresh _ Hinv _ Hr). lia.
  - intros r k. rewrite elem_of_sync, lookup_insert. repeat case_decide; simplify_eq; try apply Hinv.
    split; [by exists x|]. by intros (? & [= <-] & ?).
  - intros j. rewrite (view_tells _ _ key) by done. rewrite !(rv_zebra _ Hinv). rewrite Hat. case_decide; [|done]. cbn. rewrite <- Htell. unfold route_at. by rewrite Hnone.
Qed.

(** ** A route taken away *)

Definition gone z r b ms : ripd :=
  Ripd (rd_table z) (delete r (rd_infos z)) (rd_fresh z) (rd_pending z ∖ {[(r, Timeout)]} ∖ {[(r, Garbage)]})
    (rd_trigger z || (b && rd_t_triggered_interval z))
    (rd_t_triggered_update z || (b && negb (rd_t_triggered_interval z)))
    (rd_t_triggered_interval z) (rd_log z ++ ms).

Lemma free_focus z r x b ms : (∀ k, timer_of k x = false) → rip_info_free r (focus z r x b ms) = Ok (tt, gone z r b ms).
Proof.
  intros Hx. unfold rip_info_free. cbn. rewrite lookup_insert_eq. unfold set_rd_infos, gone. cbn. rewrite delete_insert_eq.
  do 3 f_equal. unfold sync. pose proof (Hx Timeout) as H1. pose proof (Hx Garbage) as H2. cbn in H1, H2. rewrite H1, H2. set_solver.
Qed.

Lemma detach_moved z r x b ms key t' :
  rip_inv z → rd_infos z !! r = Some x → abs (rd_table z) !! key = Some r →
  table_inv t' → abs t' = delete key (abs (rd_table z)) →
  info t' (ri_rp x) = None → (∀ i, i ≠ ri_rp x → info t' i = info (rd_table z) i) →
  about key ms → tells (announced x) ms = None → moved z key None (gone (set_rd_table t' z) r b ms).
Proof.
  intros Hinv Hx Hk Ht Ha Hi Hoth Hms Htell. set (z' := gone _ _ _ _).
  assert (Hat : ∀ j, route_at z' j = if decide (j = key) then None else route_at z j).
  { intros j. unfold route_at. cbn. rewrite Ha, lookup_delete. repeat case_decide; simplify_eq; [done|].
    destruct (abs (rd_table z) !! j) as [q|] eqn:Eq; [|done]. cbn. rewrite lookup_delete_ne; [done|].
    intros ->. by destruct (abs_key_inj _ _ _ _ Hinv Hk Eq). }
  split; [|rewrite Hat; by case_decide|intros j Hj; rewrite Hat; by case_decide].
  split; cbn; try done.
  - intros rp q Hq. destruct (decide (rp = ri_rp x)) as [->|Hne]; [congruence|]. rewrite Hoth in Hq by done.
    destruct (rv_node _ Hinv rp q Hq) as (y & Hy & <-). exists y. rewrite lookup_delete_ne; [done|]. congruence.
  - intros q y. rewrite lookup_delete. case_decide; [done|]. intros Hy. rewrite Hoth; [by apply Hinv|].
    intros E. pose proof (rv_info _ Hinv _ _ Hy). pose proof (rv_info _ Hinv _ _ Hx). congruence.
  - intros q y. rewrite lookup_delete. case_decide; [done|]. apply Hinv.
  - intros q. rewrite lookup_delete. case_decide; [by intros []|]. apply Hinv.
  - intros q k. rewrite lookup_delete. case_decide as E.
    + subst q. split; [destruct k; set_solver|]. by intros (? & ? & _).
    + rewrite <- (rv_pending _ Hinv). assert (∀ k', (q, k) ≠ (r, k')) by congruence. set_solver.
  - intros j. rewrite (view_tells _ _ key) by done. rewrite !(rv_zebra _ Hinv). rewrite Hat. case_decide; [|done]. unfold route_at. rewrite Hk. cbn. by rewrite Hx.
Qed.

(** * The operations on one route *)

Ltac cond_is c v := assert (c = v) as -> by (cbn; unfold usable, RIP_METRIC_INFINITY in *; lia).

(** Running an operation on a state in focus. *)
Ltac focus_run :=
  lazymatch goal with
  | |- (_ ≫= _) _ = _ => erewrite st_bind_Ok by focus_run; cbv beta zeta; focus_run
  | |- when ?c _ _ = _ => first [cond_is c true | cond_is c false]; cbv [when]; focus_run
  | |- (if ?c then _ else _) _ = _ => first [cond_is c true | cond_is c false]; cbv iota; focus_run
  | |- rip_timeout_update _ _ = _ => unfold rip_timeout_update; focus_run
  | |- tbl _ _ = _ => apply focus_tbl; eassumption
  | |- info_read _ _ = _ => apply focus_read
  | |- emit _ _ = _ => apply focus_emit
  | |- trigger_update _ = _ => apply focus_trigger
  | |- RIP_TIMER_ON _ _ _ = _ => apply focus_timer_on
  | |- RIP_TIMER_OFF _ _ _ = _ => apply focus_timer_off
  | |- timer_runs _ _ _ = _ => apply focus_timer_runs
  | |- info_upd _ _ _ = _ => apply focus_upd; intros ? []; reflexivity
  | |- _ => reflexivity
  end.

(** Adopting a route of the datagram. *)
Record adopted x metric (tag : Z) (from nexthop : list Z) x' : Prop := Adopted {
  ad_rp : ri_rp x' = ri_rp x;
  ad_ok : route_ok x';
  ad_metric : ri_metric x' = metric;
  ad_rte : metric ≠ 16 → rip_route_rte x' = true ∧ ri_nexthop x' = nexthop ∧ ri_from x' = from ∧ ri_tag x' = tag;
}.

(** The route is marked as changed (bit 1 of its flags), and a triggered update is due: its
    timer runs, or the next one is asked for as long as the interval after the last runs. *)
Definition change_marked x : bool := Z.testbit (ri_flags x) 1.
Definition update_due z : bool :=
  if rd_t_triggered_interval z then rd_trigger z else rd_t_triggered_update z.

Lemma marked_bits f g : Z.testbit (Z.lor (Z.lor f RIP_RTF_CHANGED) g) 1 = true.
Proof. rewrite !Z.lor_spec. change (Z.testbit RIP_RTF_CHANGED 1) with true. by rewrite orb_true_r. Qed.
Lemma marked_bits_clear f : Z.testbit (Z.land (Z.lor f RIP_RTF_CHANGED) (Z.lnot RIP_RTF_FIB)) 1 = true.
Proof. rewrite Z.land_spec, Z.lor_spec. change (Z.testbit RIP_RTF_CHANGED 1) with true. by rewrite orb_true_r. Qed.
Lemma marked_bit f : Z.testbit (Z.lor f RIP_RTF_CHANGED) 1 = true.
Proof. rewrite Z.lor_spec. change (Z.testbit RIP_RTF_CHANGED 1) with true. by rewrite orb_true_r. Qed.

Lemma update_due_focus z r x ms : update_due (focus z r x true ms) = true.
Proof. unfold update_due. cbn. destruct (rd_t_triggered_interval z); cbn; by rewrite orb_true_r. Qed.

Section Operations.
Context (rip_distance_apply : list Z → prefix → Z).
Abbreviation adopt := (adopt rip_distance_apply).
Abbreviation new_route := (new_route rip_distance_apply).

Lemma adopt_run z r x n p e metric from nexthop ifp :
  heap (rd_table z) !! ri_rp x = Some n → route_ok x → 1 ≤ metric ≤ 16 →
  from ≠ zero_addr → nexthop ≠ zero_addr →
  (rip_route_rte x = true ∨ usable x = false ∧ metric ≠ 16) →
  ∃ x' ms, adopt r p e metric from nexthop ifp (focus z r x false []) = Ok (tt, focus z r x' true ms) ∧
    adopted x metric (ntohs (rte_tag e)) from nexthop x' ∧
    about (pbits p) ms ∧ tells (announced x) ms = announced x' ∧ change_marked x' = true.
Proof.
  intros Hn [Hm Hg Ht Hr Hl] Hmetric Hfrom Hnh Hkind.
  assert (Hu : u8 (ri_metric x) = ri_metric x) by (apply u8_id; unfold is_u8, RIP_METRIC_INFINITY in *; lia).
  unfold Rip.adopt. rewrite (st_bind_Ok _ _ _ _ _ (focus_read _ _ _ _ _)). cbv zeta. rewrite Hu.
  erewrite st_bind_Ok by (apply focus_tbl; by apply read_node_ok). cbv beta. rewrite set_rd_table_id.
  assert (Hrte : ri_metric x ≠ 16 ∨ metric = 16 → rip_route_rte x = true).
  { destruct Hkind as [?|[E ?]]; [done|]. unfold usable, RIP_METRIC_INFINITY in E. intros [?|?]; [|done]. lia. }
  destruct (decide (ri_metric x = 16)) as [Eo|Eo], (decide (metric = 16)) as [En|En];
    (eexists _, _; split; [focus_run|]; split_and!; [split; [done|split|done|]| | |
      unfold change_marked; cbn; first [apply marked_bit|apply marked_bits|apply marked_bits_clear]]);
    unfold announced, usable, rip_route_rte, RIP_METRIC_INFINITY in *; cbn in *; rewrite ?Hrte in * by tauto; cbn in *;
    rewrite ?En, ?Eo in *; cbn in *; try (by repeat constructor); try done; try congruence.
  all: try (assert ((metric =? 16) = false) as E by lia; rewrite ?E in *); try (assert ((ri_metric x =? 16) = false) as E' by lia; rewrite ?E' in *); try done; auto.
Qed.

(** A table with the locks of its nodes at most [c] higher. *)
Abbreviation locks_up d t t' := (∀ c, 1 < c → locks_below c t → locks_below (c + d) t').

Lemma new_route_run z rp n p e metric from nexthop ifp :
  rip_inv z → heap (rd_table z) !! rp = Some n → n_info n = None → n_lock n ≠ 0 →
  pbits (n_p n) = pbits p → abs (rd_table z) !! pbits p = None →
  1 ≤ metric < 16 → nexthop ≠ zero_addr →
  ∃ x z', new_route rp p e metric from nexthop ifp z = Ok (tt, z') ∧ moved z (pbits p) (Some x) z' ∧
    rip_route_rte x = true ∧ ri_metric x = metric ∧ ri_nexthop x = nexthop ∧ ri_from x = from ∧ ri_tag x = ntohs (rte_tag e) ∧
    change_marked x = true ∧ update_due z' = true ∧ locks_up 0 (rd_table z) (rd_table z').
Proof.
  intros Hinv Hn Hi Hl Hk Ha Hm Hnh. unfold Rip.new_route.
  erewrite st_bind_Ok by (unfold tbl; rewrite (read_node_ok _ _ _ Hn); by rewrite set_rd_table_id).
  erewrite st_bind_Ok by (apply alloc_focus; [done|by intros []]). cbv beta.
  destruct (node_relabel_run (rd_table z) rp n (λ _, Some (rd_fresh z))) as (t' & Hup & Hlb); [apply Hinv|done|done|].
  eexists _, _. split; [focus_run|]. split.
  - apply (attach_moved z rp (pbits p) _ _ _ t'); try done.
    + unfold info_at. by rewrite Hn.
    + apply Hlb.
    + rewrite <- Hk. apply Hlb.
    + unfold info_at. by rewrite (lb_node _ _ _ _ _ Hlb).
    + apply Hlb.
    + split; unfold usable, RIP_METRIC_INFINITY; cbn; try done; lia.
    + by repeat constructor.
    + unfold announced, usable, RIP_METRIC_INFINITY. cbn. assert ((metric =? 16) = false) as -> by lia. done.
  - split_and!; try done.
    + unfold update_due. cbn. destruct (rd_t_triggered_interval z); cbn; by rewrite orb_true_r.
    + intros c Hc. rewrite Z.add_0_r. apply Hlb.
Qed.
End Operations.
