(* ===== verification/RipProcess.v ===== *)
(** RIP: the processing of a route of a response, rip_rte_process, against the rule of
    RFC 2453, section 3.9.2. *)

From S2P Require Import Prelude Prefix Table TableFacts TableRep TableWalk TableGet TableDelete TableIter TableSpec TableView Rip RipInv.

Implicit Types (z : ripd) (x : rip_info) (r : nat) (rp : ptr) (p : prefix) (e : rte).

(** * The rule *)

(** What the table says of a prefix that it has. *)
Inductive aroute :=
  | Unreachable
  | Local (type sub_type : Z)
  | Learned (from nexthop : list Z) (metric tag : Z).

Definition seen x : aroute :=
  if usable x then
    if rip_route_rte x then Learned (ri_from x) (ri_nexthop x) (ri_metric x) (ri_tag x)
    else Local (ri_type x) (ri_sub_type x)
  else Unreachable.

(** A route is taken when there is none, when it comes from the router that the present
    one came from, or when it is better. *)
Definition rfc_update (old : option aroute) (from nexthop : list Z) (metric tag : Z) : option aroute :=
  let new := if metric =? RIP_METRIC_INFINITY then Unreachable else Learned from nexthop metric tag in
  match old with
  | None => if metric =? RIP_METRIC_INFINITY then None else Some new
  | Some Unreachable => Some new
  | Some (Local _ _) => old
  | Some (Learned from' _ metric' _) => if bool_decide (from' = from) || (metric <? metric') then Some new else old
  end.

(** * Masks *)

Lemma count_bits_byte v len : is_u8 v → 0 ≤ len ≤ 24 → ∃ n, count_bits 8 v len = Ok n ∧ len ≤ n ≤ len + 8.
Proof.
  intros Hv Hlen.
  assert (∀ f w l, 0 ≤ l → l + Z.of_nat f < 256 → is_u8 w → w * 2 ^ Z.of_nat f mod 256 = 0 →
    ∃ n, count_bits f w l = Ok n ∧ l ≤ n ≤ l + Z.of_nat f) as Hgo.
  { induction f as [|f IH]; intros w l Hl Hlf Hw Hz; cbn [count_bits]; destruct (Z.eqb_spec w 0) as [->|Hne]; try (exists l; split; [done|lia]).
    - unfold is_u8 in Hw. rewrite Z.mul_1_r, Z.mod_small in Hz by (cbn; lia). done.
    - rewrite (u8_id (l + 1)) by (unfold is_u8; lia). destruct (IH (u8 (Z.shiftl w 1)) (l + 1)) as (n & -> & ?); [lia|lia|apply u8_range| |exists n; split; [done|lia]].
      rewrite <- Hz. unfold u8. rewrite Z.shiftl_mul_pow2 by lia. rewrite Z.mul_mod_idemp_l by done. f_equal. rewrite Nat2Z.inj_succ, Z.pow_succ_r by lia. lia. }
  apply Hgo; [lia|lia|done|]. cbn. apply Z.mod_mul. done.
Qed.

(** ip_masklen reads the octet after the mask when the mask is of all ones. *)
Lemma ip_masklen_run m :
  bytes_ok m → length m = 4%nat → m ≠ replicate 4 255 → ∃ len, ip_masklen m = Ok len ∧ 0 ≤ len ≤ 32.
Proof.
  intros Hb Hl Hne. destruct m as [|a [|b [|c [|d [|]]]]]; try done. clear Hl.
  assert (is_u8 a ∧ is_u8 b ∧ is_u8 c ∧ is_u8 d) as (Ha & Hbb & Hc & Hd).
  { unfold bytes_ok in Hb. rewrite !Forall_cons in Hb. tauto. }
  unfold ip_masklen. cbn [count_ff].
  repeat (change (get_byte [a; b; c; d] (0 + 1 + 1 + 1)) with (Ok d : res Z) || change (get_byte [a; b; c; d] (0 + 1 + 1)) with (Ok c : res Z)
    || change (get_byte [a; b; c; d] (0 + 1)) with (Ok b : res Z) || change (get_byte [a; b; c; d] 0) with (Ok a : res Z)).
  cbn [mbind res_bind].
  destruct (Z.eqb_spec a 255) as [->|E]; cbn [andb]; [|destruct (count_bits_byte a 0) as (n & Hn & ?); [done|lia|exists n; split; [exact Hn|lia]]].
  destruct (Z.eqb_spec b 255) as [->|E]; cbn [andb]; [|destruct (count_bits_byte b 8) as (n & Hn & ?); [done|lia|exists n; split; [exact Hn|lia]]].
  destruct (Z.eqb_spec c 255) as [->|E]; cbn [andb]; [|destruct (count_bits_byte c 16) as (n & Hn & ?); [done|lia|exists n; split; [exact Hn|lia]]].
  destruct (Z.eqb_spec d 255) as [->|E]; cbn [andb]; [done|destruct (count_bits_byte d 24) as (n & Hn & ?); [done|lia|exists n; split; [exact Hn|lia]]].
Qed.

(** * The processing of an entry *)

Lemma rip_tbl_run {B} (m : ST (route_table nat) B) z a t' : m (rd_table z) = Ok (a, t') → tbl m z = Ok (a, set_rd_table t' z).
Proof. unfold tbl. by intros ->. Qed.

Lemma lock_at_nonneg (t : route_table nat) id : table_inv t → 0 ≤ lock_at t id.
Proof.
  intros [_ Hl]. unfold lock_at. destruct (heap t !! id) as [n|] eqn:E; [|done]. destruct (Hl _ _ E) as [Hu _]. apply Hu.
Qed.

Lemma lock_at_info (t : route_table nat) id r : table_inv t → info t id = Some r → 1 ≤ lock_at t id.
Proof.
  intros Hinv Hi. pose proof (lock_at_nonneg t id Hinv). destruct (info_in _ _ _ Hi) as (n & Hn & Hni).
  pose proof (table_inv_held t id n Hinv Hn ltac:(by eexists)). unfold lock_at in *. rewrite Hn in *. lia.
Qed.

Lemma moved_same z t' key : rip_inv z → table_inv t' → abs t' = abs (rd_table z) → (∀ i, info t' i = info (rd_table z) i) →
  moved z key (route_at z key) (set_rd_table t' z).
Proof.
  intros Hinv Ht Ha Hi. split; [by apply rip_inv_table|..]; unfold route_at; cbn; by rewrite Ha.
Qed.

Lemma moved_trans z1 z2 z3 key o o' : moved z1 key o z2 → moved z2 key o' z3 → moved z1 key o' z3.
Proof. intros [? ? H1] [? ? H2]. split; try done. intros j Hj. by rewrite H2, H1. Qed.

(** Restarting the timeout of a route that has it. *)
Lemma timeout_update_run z r x b ms :
  route_ok x → rip_route_rte x = true → rip_timeout_update r (focus z r x b ms) = Ok (tt, focus z r x b ms).
Proof.
  intros Hok Hr. unfold rip_timeout_update. rewrite (st_bind_Ok _ _ _ _ _ (focus_read _ _ _ _ _)).
  destruct (Z.eqb_spec (ri_metric x) RIP_METRIC_INFINITY) as [E|E]; [done|]. cbn [negb when].
  erewrite st_bind_Ok by apply focus_timer_off. rewrite focus_timer_on.
  pose proof (ro_timeout _ Hok) as Ht. unfold usable in Ht. assert ((ri_metric x =? RIP_METRIC_INFINITY) = false) as Eb by lia.
  rewrite Hr, Eb in Ht. do 3 f_equal. destruct x; cbn in *; by rewrite Ht.
Qed.

Lemma tbl_unlock_run z rp n key o :
  rip_inv z → heap (rd_table z) !! rp = Some n → 0 < n_lock n → (n_lock n = 1 → n_info n = None) → route_at z key = o →
  ∃ z', tbl (route_unlock_node rp) z = Ok (tt, z') ∧ moved z key o z' ∧ (∀ c, locks_below c (rd_table z) → locks_below c (rd_table z')) ∧
    update_due z' = update_due z.
Proof.
  intros Hinv Hn Hl H1 <-. destruct (node_unlock_run (rd_table z) rp n) as (t' & Hrun & Hul); [apply Hinv|done..|].
  exists (set_rd_table t' z). split; [by apply rip_tbl_run|]. split; [by apply moved_same; [|apply Hul..]|]. split; [apply Hul|done].
Qed.

(** The node of a prefix, with one more lock: its route is the route of the prefix. *)
Record got_node z p rp n z1 : Prop := GotNode {
  gn_run : tbl (route_node_get p) z = Ok (rp, z1);
  gn_read : tbl (read_node rp) z1 = Ok (n, z1);
  gn_node : heap (rd_table z1) !! rp = Some n;
  gn_key : pbits (n_p n) = pbits p;
  gn_moved : moved z (pbits p) (route_at z (pbits p)) z1;
  gn_lock : 0 < n_lock n;
  gn_locks : ∀ c, 1 < c → locks_below c (rd_table z) → locks_below (c + 1) (rd_table z1);
  gn_route : match n_info n with
             | None => route_at z (pbits p) = None ∧ abs (rd_table z1) !! pbits p = None
             | Some r => ∃ x, info_read r z1 = Ok (x, z1) ∧ rd_infos z1 !! r = Some x ∧ ri_rp x = rp ∧
                 route_at z (pbits p) = Some x ∧ 1 < n_lock n
             end;
}.

Lemma got_node_run z p :
  rip_inv z → locks_room (rd_table z) → prefix_af p → (length (u p) ≤ 16)%nat → ∃ rp n z1, got_node z p rp n z1.
Proof.
  intros Hinv Hroom Haf Hlu. destruct (node_get_run (rd_table z) p) as (rp & n & t' & Hget & Hgot); [apply Hinv|done..|].
  set (z1 := set_rd_table t' z). assert (Hmv1 : moved z (pbits p) (route_at z (pbits p)) z1) by (by apply moved_same; [|apply Hgot..]).
  pose proof (gt_node _ _ _ _ _ Hgot) as Hn. pose proof (gt_info _ _ _ _ _ Hgot) as Hi. pose proof (gt_key _ _ _ _ _ Hgot) as Hk.
  pose proof (gt_lock _ _ _ _ _ Hgot) as Hl. pose proof (lock_at_nonneg (rd_table z) rp (rv_table _ Hinv)) as H0.
  exists rp, n, z1. split; try done.
  - by apply rip_tbl_run.
  - unfold tbl. cbn. by rewrite (read_node_ok _ _ _ Hn).
  - lia.
  - intros c Hc. apply Hgot. lia.
  - destruct (n_info n) as [r|] eqn:Ei; [|split; [unfold route_at; by rewrite <- Hi|cbn; by rewrite (gt_abs _ _ _ _ _ Hgot), <- Hi]].
    destruct (rv_node z1 (mv_inv _ _ _ _ Hmv1) rp r) as (x & Hx & Hrp); [unfold info_at; cbn; by rewrite Hn|].
    exists x. split_and!; [unfold info_read; by rewrite Hx|done|done|unfold route_at; rewrite <- Hi; done|].
    assert (1 ≤ lock_at (rd_table z) rp); [|lia]. apply (lock_at_info _ rp r); [apply Hinv|].
    rewrite <- (gt_infos _ _ _ _ _ Hgot). unfold info_at. by rewrite Hn.
Qed.

Lemma seen_adopted x metric tag from nexthop x' : adopted x metric tag from nexthop x' →
  seen x' = if metric =? RIP_METRIC_INFINITY then Unreachable else Learned from nexthop metric tag.
Proof.
  intros [_ _ Hm Hr]. unfold seen, usable. rewrite Hm. destruct (Z.eqb_spec metric RIP_METRIC_INFINITY) as [E|E]; [done|].
  destruct (Hr E) as (-> & -> & -> & ->). done.
Qed.

Section Process.
Context (little_endian : bool) (ifs : list interface)
        (rip_incoming_filter : interface → prefix → bool)
        (rip_offset_list_apply_in : interface → prefix → Z → option Z)
        (rip_distance_apply : list Z → prefix → Z).

(** Whether the route stays when the entry is not adopted. *)
Lemma not_adopted_seen x e metric from nexthop :
  route_ok x → 1 ≤ metric ≤ RIP_METRIC_INFINITY →
  nexthop = (if bool_decide (rte_nexthop e = zero_addr) then from else rte_nexthop e) →
  (rte_nexthop e = zero_addr ∨ load16 little_endian (rte_tag e) = ntohs (rte_tag e)) →
  adopts little_endian (bool_decide (ri_from x = from)) x metric e = false →
  rfc_update (Some (seen x)) from nexthop metric (ntohs (rte_tag e)) = Some (seen x).
Proof.
  intros Hok Hm Hnh Htag Had. unfold adopts in Had. apply orb_false_iff in Had as [Hsame Hlt]. apply Z.ltb_ge in Hlt.
  pose proof (ro_metric _ Hok) as Hxm. unfold rfc_update, seen. destruct (usable x) eqn:Eu; unfold usable in Eu.
  2:{ assert ((metric =? RIP_METRIC_INFINITY) = true) as -> by lia. done. }
  assert ((ri_metric x =? RIP_METRIC_INFINITY) = false) as E by (destruct (ri_metric x =? RIP_METRIC_INFINITY); done).
  destruct (rip_route_rte x) eqn:Er; [|done]. assert ((metric <? ri_metric x) = false) as -> by lia. rewrite orb_false_r.
  destruct (bool_decide (ri_from x = from)) eqn:Ef; [|done]. apply bool_decide_eq_true in Ef. cbn [andb] in Hsame.
  apply orb_false_iff in Hsame as [Hsame Hn]. apply orb_false_iff in Hsame as [Hme Ht].
  apply negb_false_iff, Z.eqb_eq in Hme, Ht. apply negb_false_iff, bool_decide_eq_true in Hn. rewrite <- Hme, E.
  pose proof (ro_rte _ Hok Er) as Hnz. rewrite <- Hn in Hnz. rewrite bool_decide_eq_false_2 in Hnh by done.
  destruct Htag as [?|Htag]; [done|]. by rewrite Hnh, <- Ef, <- Hn, <- Htag, Ht.
Qed.

(** A route that is there. *)
Lemma process_old z rp n r x p e metric from nexthop ifp :
  rip_inv z → heap (rd_table z) !! rp = Some n → pbits (n_p n) = pbits p → n_info n = Some r → rd_infos z !! r = Some x →
  1 < n_lock n → ri_rp x = rp → 1 ≤ metric ≤ RIP_METRIC_INFINITY → from ≠ zero_addr → nexthop ≠ zero_addr →
  nexthop = (if bool_decide (rte_nexthop e = zero_addr) then from else rte_nexthop e) →
  ∃ x' z', (let same := bool_decide (ri_from x = from) in
        when same (rip_timeout_update r);;
        when (adopts little_endian same x metric e) (adopt rip_distance_apply r p e metric from nexthop ifp);;
        tbl (route_unlock_node rp)) z = Ok (tt, z') ∧ moved z (pbits p) (Some x') z' ∧
    (rte_nexthop e = zero_addr ∨ load16 little_endian (rte_tag e) = ntohs (rte_tag e) →
     Some (seen x') = rfc_update (Some (seen x)) from nexthop metric (ntohs (rte_tag e))) ∧
    (x' = x ∨ change_marked x' = true ∧ update_due z' = true) ∧
    (∀ c, locks_below c (rd_table z) → locks_below c (rd_table z')).
Proof.
  intros Hinv Hn Hk Hi Hx Hlock Hrp Hm Hfrom Hnh Hnhe.
  assert (Ha : abs (rd_table z) !! pbits p = Some r) by (rewrite <- Hk; eapply info_abs; [apply Hinv|done..]).
  pose proof (rv_ok _ Hinv _ _ Hx) as Hok. pose proof (focus_self _ _ _ Hinv Hx) as Hself. cbv zeta.
  assert (Hsame : ri_from x = from → rip_route_rte x = true).
  { intros E. destruct (rip_route_rte x) eqn:Er; [done|]. destruct (ro_local _ Hok Er) as [E' _]. congruence. }
  assert (Hto : when (bool_decide (ri_from x = from)) (rip_timeout_update r) z = Ok (tt, z)).
  { destruct (bool_decide_reflect (ri_from x = from)) as [E|E]; cbn [when]; [|done]. rewrite <- Hself at 1. rewrite timeout_update_run by auto. by rewrite Hself. }
  rewrite (st_bind_Ok _ _ _ _ _ Hto).
  destruct (adopts little_endian (bool_decide (ri_from x = from)) x metric e) eqn:Had; cbn [when].
  - destruct (adopt_run rip_distance_apply z r x n p e metric from nexthop ifp) as (x' & ms & Hrun & Hadd & Hab & Htell & Hmark);
      try done; [by rewrite Hrp| |].
    { destruct (rip_route_rte x) eqn:Er; [by left|right]. unfold adopts in Had.
      rewrite bool_decide_eq_false_2 in Had by (intros E; by apply Hsame in E). cbn in Had. apply Z.ltb_lt in Had.
      unfold usable. destruct (Z.eqb_spec (ri_metric x) RIP_METRIC_INFINITY) as [E|E]; [split; [done|unfold RIP_METRIC_INFINITY in *; lia]|].
      destruct (ro_local _ Hok Er) as [_ Hone]. unfold usable in Hone. assert ((ri_metric x =? RIP_METRIC_INFINITY) = false) as Eb by lia.
      rewrite Eb in Hone. specialize (Hone eq_refl). lia. }
    rewrite Hself in Hrun. rewrite (st_bind_Ok _ _ _ _ _ Hrun).
    assert (Hmv : moved z (pbits p) (Some x') (focus z r x' true ms)) by (eapply focus_moved; try done; apply Hadd).
    destruct (tbl_unlock_run (focus z r x' true ms) rp n (pbits p) (Some x')) as (z' & Hul & Hmv' & Hlk & Hdue); [apply Hmv|done|lia|lia|apply Hmv|].
    exists x', z'. split; [done|]. split; [by eapply moved_trans|].
    split; [|split; [right; by rewrite Hdue, update_due_focus|done]]. intros _.
    rewrite (seen_adopted _ _ _ _ _ _ Hadd). unfold rfc_update, seen. destruct (usable x) eqn:Eu; [|done].
    destruct (rip_route_rte x) eqn:Er.
    + assert (bool_decide (ri_from x = from) || (metric <? ri_metric x) = true) as ->; [|done].
      unfold adopts in Had. destruct (bool_decide (ri_from x = from)); [done|]. cbn in Had. by rewrite Had.
    + exfalso. unfold adopts in Had. rewrite bool_decide_eq_false_2 in Had by (intros E; by apply Hsame in E). cbn in Had.
      apply Z.ltb_lt in Had. destruct (ro_local _ Hok Er) as [_ Hone]. specialize (Hone Eu). lia.
  - erewrite st_bind_Ok by reflexivity.
    assert (Hat : route_at z (pbits p) = Some x) by (unfold route_at; rewrite Ha; cbn; done).
    destruct (tbl_unlock_run z rp n (pbits p) (Some x)) as (z' & Hul & Hmv' & Hlk & _); [done|done|lia|lia|done|].
    exists x, z'. split; [done|]. split; [done|]. split; [|split; [by left|done]]. intros Htag. symmetry. by eapply not_adopted_seen.
Qed.

Abbreviation metric_in := (added_metric rip_offset_list_apply_in).
Abbreviation rip_rte_process := (rip_rte_process little_endian ifs rip_incoming_filter rip_offset_list_apply_in rip_distance_apply).

(** The nexthop of an entry: the sender when it names none. *)
Definition hop_in e (from : sockaddr_in) : list Z :=
  if bool_decide (rte_nexthop e = zero_addr) then sin_addr from else rte_nexthop e.

(** Whether the entry passes the filters and is not for an address of this router. *)
Definition accepted e p from (ifp : interface) : bool := rip_incoming_filter ifp p && negb (rip_nexthop_check ifs (hop_in e from)).

Lemma added_metric_max ifp p m : metric_in ifp p m ≤ RIP_METRIC_INFINITY.
Proof. unfold added_metric. destruct (_ >? _) eqn:E; lia. Qed.

Definition entry_prefix e (len : Z) : prefix := Prefix AF_INET len (copy_bytes (u prefix_ipv4_new) (rte_prefix e) 4).

Lemma rip_rte_process_run z e metric from ifp len p :
  rip_inv z → locks_room (rd_table z) → ip_masklen (rte_mask e) = Ok len → 0 ≤ len ≤ 32 → ipv4_ok (rte_prefix e) →
  apply_mask_ipv4 (entry_prefix e len) = Ok p → sin_addr from ≠ zero_addr → 1 ≤ metric_in ifp p metric →
  ∃ o z', rip_rte_process e metric from ifp z = Ok (tt, z') ∧ moved z (pbits p) o z' ∧
    (rte_nexthop e = zero_addr ∨ load16 little_endian (rte_tag e) = ntohs (rte_tag e) →
     seen <$> o = if accepted e p from ifp
                  then rfc_update (seen <$> route_at z (pbits p)) (sin_addr from) (hop_in e from) (metric_in ifp p metric) (ntohs (rte_tag e))
                  else seen <$> route_at z (pbits p)) ∧
    (o = route_at z (pbits p) ∨ ∃ x, o = Some x ∧ change_marked x = true ∧ update_due z' = true) ∧
    (∀ c, 1 < c → locks_below c (rd_table z) → locks_below (c + 1) (rd_table z')).
Proof.
  intros Hinv Hroom Hlen Hr32 Hpre Hp Hfrom Hm. pose proof (added_metric_max ifp p metric) as Hmax.
  assert (Hup : ∀ c, 1 < c → locks_below c (rd_table z) → locks_below (c + 1) (rd_table z)).
  { intros c _ H i n Hn. specialize (H i n Hn). lia. }
  destruct (apply_mask_ipv4_run (entry_prefix e len)) as (q & Hq & Haf & Hlu & _ & _); [by apply ipv4_prefix_of|].
  rewrite Hp in Hq. injection Hq as <-.
  unfold Rip.rip_rte_process. erewrite st_bind_Ok by (unfold st_lift; by rewrite Hlen).
  erewrite st_bind_Ok by (unfold st_lift; fold (entry_prefix e len); by rewrite Hp). cbv zeta. fold (hop_in e from). unfold accepted.
  assert (Hsame : moved z (pbits p) (route_at z (pbits p)) z) by (by split).
  destruct (rip_incoming_filter ifp p); cbn [negb andb]; [|exists (route_at z (pbits p)), z; split_and!; try done; by left].
  destruct (rip_nexthop_check ifs (hop_in e from)); cbn [negb]; [exists (route_at z (pbits p)), z; split_and!; try done; by left|].
  destruct (got_node_run z p) as (rp & n & z1 & [Hget Hread Hn Hk Hmv1 Hl Hlk1 Hroute]); [done..|].
  rewrite (st_bind_Ok _ _ _ _ _ Hget), (st_bind_Ok _ _ _ _ _ Hread).
  assert (Hnh : hop_in e from ≠ zero_addr) by (unfold hop_in; by case_bool_decide).
  destruct (n_info n) as [r|] eqn:Ei.
  - destruct Hroute as (x & Hread2 & Hx & Hrp & Hat & Hl1). rewrite (st_bind_Ok _ _ _ _ _ Hread2). rewrite Hat in Hmv1 |- *.
    assert (Hlocal : usable x = true → rip_route_rte x = false →
      rfc_update (seen <$> Some x) (sin_addr from) (hop_in e from) (metric_in ifp p metric) (ntohs (rte_tag e)) = Some (seen x)).
    { intros Hu Hr. cbn. unfold seen. by rewrite Hu, Hr. }
    destruct (_ && _) eqn:E1.
    { exists (Some x), z1. split_and!; try done; [|by left]. intros _. symmetry. apply andb_true_iff in E1 as [E1 E2].
      apply Hlocal; [done|]. unfold rip_route_rte. by destruct (ri_type x =? ZEBRA_ROUTE_RIP). }
    destruct (_ && _ && _) eqn:E2.
    { exists (Some x), z1. split_and!; try done; [|by left]. intros _. symmetry. apply andb_true_iff in E2 as [E2 E3]. apply andb_true_iff in E2 as [_ E2].
      apply Hlocal; [done|]. unfold rip_route_rte. apply Z.eqb_eq in E2. rewrite E2. apply andb_false_r. }
    destruct (process_old z1 rp n r x p e (metric_in ifp p metric) (sin_addr from) (hop_in e from) ifp)
      as (x' & z' & Hrun & Hmv & Hseen & Hch & Hlk); try done; [apply Hmv1|].
    exists (Some x'), z'. split; [done|]. split; [by eapply moved_trans|]. split; [done|].
    split; [destruct Hch as [->|?]; [by left|right; by exists x']|]. intros c Hc Hb. by apply Hlk, Hlk1.
  - destruct Hroute as [Hat Ha]. rewrite Hat in Hmv1 |- *. cbn [fmap option_fmap option_map rfc_update].
    destruct (Z.eqb_spec (metric_in ifp p metric) RIP_METRIC_INFINITY) as [E|E]; cbn [negb when].
    { exists None, z1. split_and!; try done. by left. }
    destruct (new_route_run rip_distance_apply z1 rp n p e (metric_in ifp p metric) (sin_addr from) (hop_in e from) ifp)
      as (x & z' & Hrun & Hmv & Hr & Hme & Hnx & Hfr & Htg & Hmark & Hdue & Hlk); try done; [apply Hmv1|lia| |].
    { unfold RIP_METRIC_INFINITY in *. lia. }
    exists (Some x), z'. split; [done|]. split; [by eapply moved_trans|]. split_and!.
    + intros _. cbn. unfold seen, usable. rewrite Hr, Hme, Hnx, Hfr, Htg. apply Z.eqb_neq in E. by rewrite E.
    + right. by exists x.
    + intros c Hc Hb. specialize (Hlk (c + 1) ltac:(lia) (Hlk1 c Hc Hb)). by rewrite Z.add_0_r in Hlk.
Qed.
End Process.
