(* ===== verification/RipOps.v ===== *)
(** RIP: the timers of the routes, redistribution, and the walks over the table keep the
    invariant. *)

From S2P Require Import Prelude Prefix Table TableFacts TableRep TableWalk TableGet TableDelete TableIter TableSpec TableView Rip RipInv RipProcess.

Implicit Types (z : ripd) (x : rip_info) (r : nat) (rp : ptr) (p : prefix).

Ltac ok_cases := unfold announced, usable, rip_route_rte, RIP_METRIC_INFINITY in *; cbn in *.

(** * Timers *)

(** A route whose time is over is poisoned, and zebra is told. *)
Lemma rip_timeout_run z r :
  rip_inv z → (r, Timeout) ∈ rd_pending z →
  ∃ key x x' z', rip_timeout r z = Ok (tt, z') ∧ (abs (rd_table z) !! key = Some r ∧ rd_infos z !! r = Some x) ∧ moved z key (Some x') z' ∧
    (∃ from nexthop metric tag, seen x = Learned from nexthop metric tag) ∧ seen x' = Unreachable ∧ (r, Garbage) ∈ rd_pending z' ∧
    rd_table z' = rd_table z.
Proof.
  intros Hinv Hp. apply (rv_pending _ Hinv) in Hp as (x & Hx & Ht). cbn in Ht.
  destruct (info_key z r x Hinv Hx) as (n & Hn & Hi & Ha). pose proof (rv_ok _ Hinv _ _ Hx) as Hok.
  pose proof (ro_timeout _ Hok) as Hto. rewrite Ht in Hto. symmetry in Hto. apply andb_true_iff in Hto as [Hr Hu].
  pose proof (ro_garbage _ Hok) as Hg. rewrite Hu in Hg. cbn in Hg.
  assert (Hread : read_node (ri_rp x) (rd_table z) = Ok (n, rd_table z)) by (by apply read_node_ok).
  exists (pbits (n_p n)), x. eexists _, _. split.
  { rewrite <- (focus_self z r x Hinv Hx) at 1. unfold rip_timeout. focus_run. }
  rewrite set_rd_table_id. split_and!.
  - done.
  - done.
  - eapply focus_moved; [done|done|done|done|split|by repeat constructor|]; destruct Hok; ok_cases; try done; try lia.
    by rewrite andb_false_r.
  - unfold seen. rewrite Hu, Hr. by eexists _, _, _, _.
  - unfold seen, usable. done.
  - cbn. apply elem_of_sync. by rewrite decide_True.
  - done.
Qed.

Lemma unlock_relabelled (t t1 : route_table nat) rp n :
  relabelled t rp n None t1 → n_lock n ≠ 0 → table_inv t →heap t !! rp = Some n →
  ∃ t2, route_unlock_node rp t1 = Ok (tt, t2) ∧ table_inv t2 ∧ abs t2 = delete (pbits (n_p n)) (abs t) ∧
    info t2 rp = None ∧ (∀ i, i ≠ rp → info t2 i = info t i) ∧ (∀ c, locks_below c t → locks_below c t2).
Proof.
  intros Hlb Hl Ht Hn. destruct (node_unlock_run t1 rp (set_info None n)) as (t2 & Hrun & Hul).
  - apply Hlb.
  - apply Hlb.
  - pose proof (lock_at_nonneg t rp Ht) as H0. unfold lock_at in H0. rewrite Hn in H0. cbn. lia.
  - done.
  - exists t2. split_and!; [done|apply Hul| | | |].
    + rewrite (ul_abs _ _ _ _ Hul). apply Hlb.
    + rewrite (ul_infos _ _ _ _ Hul). unfold info_at. by rewrite (lb_node _ _ _ _ _ Hlb).
    + intros i Hne. rewrite (ul_infos _ _ _ _ Hul). by apply Hlb.
    + intros c Hc. by apply Hul, Hlb.
Qed.

(** A poisoned route whose time is over is taken out of the table. *)
Lemma rip_garbage_collect_run z r :
  rip_inv z → (r, Garbage) ∈ rd_pending z →
  ∃ key x z', rip_garbage_collect r z = Ok (tt, z') ∧ (abs (rd_table z) !! key = Some r ∧ rd_infos z !! r = Some x) ∧
    moved z key None z' ∧ seen x = Unreachable ∧ rd_infos z' !! r = None ∧
    (∀ c, locks_below c (rd_table z) → locks_below c (rd_table z')).
Proof.
  intros Hinv Hp. apply (rv_pending _ Hinv) in Hp as (x & Hx & Ht). cbn in Ht.
  destruct (info_key z r x Hinv Hx) as (n & Hn & Hi & Ha). pose proof (rv_ok _ Hinv _ _ Hx) as Hok.
  pose proof (ro_garbage _ Hok) as Hg. rewrite Ht in Hg. symmetry in Hg. apply negb_true_iff in Hg.
  assert (Hl : n_lock n ≠ 0) by (eapply (table_inv_held _ _ n (rv_table _ Hinv)); [done|by eexists]).
  destruct (node_relabel_run (rd_table z) (ri_rp x) n (λ _, None)) as (t1 & Hup & Hlb); [apply Hinv|done|done|].
  destruct (unlock_relabelled _ _ _ _ Hlb Hl (rv_table _ Hinv) Hn) as (t2 & Hul & Ht2 & Ha2 & Hi2 & Ho2 & Hb2).
  exists (pbits (n_p n)), x. eexists. split.
  { rewrite <- (focus_self z r x Hinv Hx) at 1. unfold rip_garbage_collect.
    do 3 (erewrite st_bind_Ok by focus_run; cbv beta).
    erewrite st_bind_Ok by (apply focus_tbl; exact Hup). erewrite st_bind_Ok by (apply focus_tbl; exact Hul).
    apply free_focus. by intros []. }
  split_and!.
  - done.
  - done.
  - apply (detach_moved z r x false [] (pbits (n_p n)) t2); try done. ok_cases. rewrite Hg. by rewrite andb_false_r.
  - unfold seen. by rewrite Hg.
  - cbn. apply lookup_delete_eq.
  - apply Hb2.
Qed.

(** * Redistribution *)

Definition poisoned x : rip_info :=
  set_flag RIP_RTF_CHANGED (set_timer Timeout false (set_timer Garbage true (set_ri_metric RIP_METRIC_INFINITY x))).

Lemma poison_focus z r x b ms : poison r (focus z r x b ms) = Ok (tt, focus z r (poisoned x) true ms).
Proof. unfold poison. focus_run. Qed.

(** A route that was not received is made unreachable; the table is not used. *)
Lemma poison_run z r x key :
  rip_inv z → rd_infos z !! r = Some x → abs (rd_table z) !! key = Some r → rip_route_rte x = false →
  ∃ z', (∀ t, poison r (set_rd_table t z) = Ok (tt, set_rd_table t z')) ∧ moved z key (Some (poisoned x)) z' ∧
    rd_table z' = rd_table z.
Proof.
  intros Hinv Hx Ha Hr. pose proof (focus_self _ _ _ Hinv Hx) as Hself. exists (focus z r (poisoned x) true []). split_and!; [|..|done].
  - intros t. rewrite <- Hself at 1. exact (poison_focus (set_rd_table t z) r x false []).
  - pose proof (rv_ok _ Hinv _ _ Hx) as Hok. eapply focus_moved; try done; [split|]; destruct Hok; ok_cases; rewrite ?Hr in *; try done; try lia.
    naive_solver.
Qed.

Lemma install_route_run z rp n type sub_type ifindex nexthop :
  rip_inv z → heap (rd_table z) !! rp = Some n → n_info n = None → n_lock n ≠ 0 → abs (rd_table z) !! pbits (n_p n) = None →
  (type =? ZEBRA_ROUTE_RIP) && (sub_type =? RIP_ROUTE_RTE) = false →
  ∃ x z', install_route type sub_type rp ifindex nexthop z = Ok (tt, z') ∧ moved z (pbits (n_p n)) (Some x) z' ∧
    seen x = Local type sub_type ∧ (∀ c, locks_below c (rd_table z) → locks_below c (rd_table z')).
Proof.
  intros Hinv Hn Hi Hl Ha Hr. unfold install_route.
  erewrite st_bind_Ok by (apply alloc_focus; [done|by intros []]). cbv beta.
  destruct (node_relabel_run (rd_table z) rp n (λ _, Some (rd_fresh z))) as (t' & Hup & Hlb); [apply Hinv|done|done|].
  eexists _, _. split; [focus_run|]. split_and!.
  - apply (attach_moved z rp (pbits (n_p n)) _ _ _ t'); try done.
    + unfold info_at. by rewrite Hn.
    + apply Hlb.
    + apply Hlb.
    + unfold info_at. by rewrite (lb_node _ _ _ _ _ Hlb).
    + apply Hlb.
    + split; ok_cases; rewrite ?Hr; try done; lia.
    + ok_cases. by rewrite Hr.
  - unfold seen. ok_cases. by rewrite Hr.
  - apply Hlb.
Qed.

(** The route of the node is freed and the lock of the lookup is released. *)
Lemma replace_route_run z rp n r x :
  rip_inv z → heap (rd_table z) !! rp = Some n → n_info n = Some r → rd_infos z !! r = Some x → ri_rp x = rp → 1 < n_lock n →
  ∃ z' n', (∀ k : M unit, (RIP_TIMER_OFF Timeout r;;
          RIP_TIMER_OFF Garbage r;;
          when (rip_route_rte x) (emit (zebra_delete (n_p n) (ri_nexthop x) (ri_metric x)));;
          tbl (update_node rp (λ n, set_info None n));;
          rip_info_free r;;
          tbl (route_unlock_node rp);; k) z = k z') ∧ moved z (pbits (n_p n)) None z' ∧
    heap (rd_table z') !! rp = Some n' ∧ n_p n' = n_p n ∧ n_info n' = None ∧ n_lock n' = n_lock n - 1 ∧
    (∀ c, locks_below c (rd_table z) → locks_below c (rd_table z')).
Proof.
  intros Hinv Hn Hi Hx Hrp Hl. pose proof (rv_ok _ Hinv _ _ Hx) as Hok.
  assert (Ha : abs (rd_table z) !! pbits (n_p n) = Some r) by (eapply info_abs; [apply Hinv|done..]).
  destruct (node_relabel_run (rd_table z) rp n (λ _, None)) as (t1 & Hup & Hlb); [apply Hinv|done|lia|].
  set (ms := if rip_route_rte x then [zebra_delete (n_p n) (ri_nexthop x) (ri_metric x)] else []).
  set (z1 := gone (set_rd_table t1 z) r false ms).
  assert (Hmv1 : moved z (pbits (n_p n)) None z1).
  { apply (detach_moved z r x); try done.
    - apply Hlb.
    - apply Hlb.
    - rewrite Hrp. unfold info_at. by rewrite (lb_node _ _ _ _ _ Hlb).
    - rewrite Hrp. apply Hlb.
    - unfold ms. destruct (rip_route_rte x); by repeat constructor.
    - unfold ms, announced. by destruct (rip_route_rte x). }
  destruct (node_unlock_run t1 rp (set_info None n)) as (t2 & Hul & Hul'); [apply Hlb|apply Hlb|cbn; lia|done|].
  destruct (ul_lock _ _ _ _ Hul' Hl) as (n' & Hn' & Hp' & Hl' & Hi').
  exists (set_rd_table t2 z1), n'. split_and!; try done.
  - intros k. rewrite <- (focus_self z r x Hinv Hx) at 1. do 2 (erewrite st_bind_Ok by focus_run; cbv beta).
    erewrite st_bind_Ok with (s' := focus z r (set_timer Garbage false (set_timer Timeout false x)) false ms).
    2:{ unfold ms. destruct (rip_route_rte x); cbn [when]; [apply focus_emit|reflexivity]. }
    erewrite st_bind_Ok by (apply focus_tbl; exact Hup). erewrite st_bind_Ok by (apply free_focus; by intros []).
    by erewrite st_bind_Ok by (by apply rip_tbl_run).
  - eapply moved_trans; [done|]. destruct Hmv1 as [H1 H2 H3]. rewrite <- H2 at 1. by apply moved_same; [|apply Hul'..].
  - intros c Hc. by apply Hul', Hlb.
Qed.

(** What a redistributed route does to the route of its prefix. *)
Definition local_update (old : option rip_info) (type sub_type : Z) : option aroute :=
  match old with
  | Some x => Some (if keeps_route x type sub_type then seen x else Local type sub_type)
  | None => Some (Local type sub_type)
  end.

Lemma rip_redistribute_add_run z type sub_type p ifindex nexthop :
  rip_inv z → locks_room (rd_table z) → ipv4_prefix p → (type =? ZEBRA_ROUTE_RIP) && (sub_type =? RIP_ROUTE_RTE) = false →
  ∃ o z', rip_redistribute_add type sub_type p ifindex nexthop z = Ok (tt, z') ∧ moved z (pbits p) o z' ∧
    seen <$> o = (if rip_destination_check (addr_of p) then local_update (route_at z (pbits p)) type sub_type
                  else seen <$> route_at z (pbits p)) ∧
    (∀ c, 1 < c → locks_below c (rd_table z) → locks_below (c + 1) (rd_table z')).
Proof.
  intros Hinv Hroom Hp Hr. destruct (ipv4_prefix_key p Hp) as (Haf & Hlu & _). unfold rip_redistribute_add.
  destruct (rip_destination_check (addr_of p)); cbn [negb].
  2:{ exists (route_at z (pbits p)), z. split_and!; [done|by split|done|]. intros c _ H i n Hn. specialize (H i n Hn). lia. }
  destruct (got_node_run z p) as (rp & n & z1 & [Hget Hread Hn Hk Hmv1 Hl Hlk1 Hroute]); [done..|].
  rewrite (st_bind_Ok _ _ _ _ _ Hget), (st_bind_Ok _ _ _ _ _ Hread). rewrite <- Hk in Hroute, Hmv1 |- *.
  destruct (n_info n) as [r|] eqn:Ei.
  - destruct Hroute as (x & Hread2 & Hx & Hrp & Hat & Hl1). rewrite (st_bind_Ok _ _ _ _ _ Hread2). rewrite Hat in Hmv1 |- *. cbn [local_update].
    destruct (keeps_route x type sub_type).
    + destruct (tbl_unlock_run z1 rp n (pbits (n_p n)) (Some x)) as (z' & Hul & Hmv & Hlk & _); [apply Hmv1|done|lia|lia|apply Hmv1|].
      exists (Some x), z'. split_and!; [done|by eapply moved_trans|done|]. intros c Hc Hb. by apply Hlk, Hlk1.
    + destruct (replace_route_run z1 rp n r x) as (z2 & n2 & Hrun & Hmv2 & Hn2 & Hp2 & Hi2 & Hl2 & Hlk2); [apply Hmv1|done..|lia|].
      rewrite Hrun. destruct (install_route_run z2 rp n2 type sub_type ifindex nexthop) as (x' & z' & Hins & Hmv & Hse & Hlk);
        [apply Hmv2|done|done|lia| |done|].
      { rewrite Hp2. pose proof (mv_at _ _ _ _ Hmv2) as Hnone. unfold route_at in Hnone.
        destruct (abs (rd_table z2) !! pbits (n_p n)) as [q|] eqn:Eq; [|done].
        destruct (abs_info z2 _ q (mv_inv _ _ _ _ Hmv2) Eq) as (y & _ & Hy & _). cbn in Hnone. congruence. }
      rewrite Hp2 in Hmv. exists (Some x'), z'. split_and!; [done|by do 2 (eapply moved_trans; [done|])|cbn; by rewrite Hse|].
      intros c Hc Hb. by apply Hlk, Hlk2, Hlk1.
  - destruct Hroute as [Hat Ha]. rewrite Hat in Hmv1 |- *.
    destruct (install_route_run z1 rp n type sub_type ifindex nexthop) as (x & z' & Hins & Hmv & Hse & Hlk);
      [apply Hmv1|done|done|lia|done|done|].
    exists (Some x), z'. split_and!; [done|by eapply moved_trans|cbn; by rewrite Hse|]. intros c Hc Hb. by apply Hlk, Hlk1.
Qed.

(** * Walks over the table *)

Section Walk.
(** What is done to a route that has information, which does not use the table. *)
Context (body : nat → M unit) (f : rip_info → rip_info).
Context (Hbody : ∀ z r x key, rip_inv z → rd_infos z !! r = Some x → abs (rd_table z) !! key = Some r →
  ∃ z', (∀ t, body r (set_rd_table t z) = Ok (tt, set_rd_table t z')) ∧ moved z key (Some (f x)) z' ∧ rd_table z' = rd_table z).

Lemma table_loop_run t tr (post : list ptr) : ∀ pre fuel z,
  rep t tr → locks t → locks_room t → preorder tr = pre ++ post → (length post ≤ fuel)%nat → rd_table z = t → rip_inv z →
  ∃ z', table_loop fuel body (head post) (set_rd_table (hold_opt (head post) t) z) = Ok (tt, z') ∧ rip_inv z' ∧ rd_table z' = t ∧
    ∀ id n, heap t !! id = Some n →
      route_at z' (pbits (n_p n)) = if decide (id ∈ post) then f <$> route_at z (pbits (n_p n)) else route_at z (pbits (n_p n)).
Proof.
  induction post as [|id post IH]; intros pre fuel z Hrep Hlk Hroom Hpre Hf Ht Hinv.
  { exists z. cbn [head hold_opt]. split_and!; try done. destruct fuel; cbn; rewrite <- Ht; by rewrite set_rd_table_id. }
  destruct fuel as [|fuel]; [cbn in Hf; lia|]. cbn [head hold_opt table_loop].
  assert (Hnd : NoDup (preorder tr)) by (apply (rep_nodup _ _ Hrep)). rewrite Hpre in Hnd.
  apply NoDup_app in Hnd as (_ & _ & [Hnot _]%NoDup_cons).
  assert (∃ n, heap t !! id = Some n) as [n Hn].
  { assert (id ∈ preorder tr) as Hin by (rewrite Hpre; set_solver). apply list_elem_of_fmap in Hin as (e & -> & He).
    destruct (flat_heap _ _ _ Hrep He) as (n & Hn & _). eauto. }
  assert (Hread : tbl (read_node id) (set_rd_table (hold id t) z) = Ok (set_lock (n_lock n + 1) n, set_rd_table (hold id t) z)).
  { unfold tbl. cbn. erewrite read_node_ok; [done|]. unfold hold. rewrite Hn. cbn. by rewrite lookup_insert_eq. }
  rewrite (st_bind_Ok _ _ _ _ _ Hread). cbn [n_info set_lock].
  assert (∃ z1, (match n_info n with Some r => body r | None => mret tt end) (set_rd_table (hold id t) z) = Ok (tt, set_rd_table (hold id t) z1) ∧
    rip_inv z1 ∧ rd_table z1 = t ∧ ∀ j, route_at z1 j = if decide (j = pbits (n_p n)) then f <$> route_at z j else route_at z j) as (z1 & Hb & Hinv1 & Ht1 & Hr1).
  { destruct (n_info n) as [r|] eqn:Ei.
    - assert (Ha : abs (rd_table z) !! pbits (n_p n) = Some r) by (eapply info_abs; [apply Hinv|by rewrite Ht|done]).
      destruct (abs_info z _ r Hinv Ha) as (x & _ & Hx & _). assert (Hat : route_at z (pbits (n_p n)) = Some x) by (unfold route_at; by rewrite Ha).
      destruct (Hbody z r x (pbits (n_p n))) as (z1 & Hrun & Hmv & Ht1); [done|done|done|].
      exists z1. split_and!; [apply Hrun|apply Hmv|by rewrite Ht1|]. intros j. case_decide; [subst; rewrite Hat; apply Hmv|by apply Hmv].
    - exists z. split_and!; try done. intros j. case_decide; [|done]. subst j.
      destruct (route_at z (pbits (n_p n))) as [x|] eqn:E; [|done]. unfold route_at in E.
      destruct (abs (rd_table z) !! pbits (n_p n)) as [r|] eqn:Ea; [|done]. apply abs_lookup in Ea as (i & m & Hm & Hk & Hmi); [|apply Hinv].
      rewrite Ht in Hm. assert (i = id) as -> by (by eapply rep_unique). congruence. }
  rewrite (st_bind_Ok _ _ _ _ _ Hb).
  assert (Hnext : tbl (route_next id) (set_rd_table (hold id t) z1) = Ok (head post, set_rd_table (hold_opt (head post) t) z1)).
  { unfold tbl. cbn. by rewrite (route_next_hold t tr id pre post). }
  rewrite (st_bind_Ok _ _ _ _ _ Hnext).
  destruct (IH (pre ++ [id]) fuel z1) as (z' & Hrun & Hinv' & Ht' & Hr'); try done; [by rewrite <- app_assoc|cbn in Hf; lia|].
  exists z'. split_and!; try done. intros i m Hm. rewrite (Hr' i m Hm), Hr1.
  destruct (decide (i = id)) as [->|Hne].
  - rewrite Hn in Hm. injection Hm as <-. rewrite (decide_False (P := id ∈ post)) by done. rewrite decide_True by done.
    by rewrite decide_True by (by left).
  - rewrite (decide_False (P := pbits (n_p m) = pbits (n_p n))).
    2:{ intros E. apply Hne. by eapply rep_unique. }
    destruct (decide (i ∈ post)); [by rewrite decide_True by (by right)|by rewrite decide_False by (by rewrite elem_of_cons; intros [|])].
Qed.

(** Every route is visited once. *)
Lemma for_routes_run z :
  rip_inv z → locks_room (rd_table z) →
  ∃ z', for_routes body z = Ok (tt, z') ∧ rip_inv z' ∧ rd_table z' = rd_table z ∧ ∀ j, route_at z' j = f <$> route_at z j.
Proof.
  intros Hinv Hroom. destruct (rv_table _ Hinv) as [[tr Hrep] Hlk]. unfold for_routes. erewrite st_bind_Ok by reflexivity.
  erewrite st_bind_Ok by (apply rip_tbl_run; by apply route_top_hold).
  destruct (table_loop_run (rd_table z) tr (preorder tr) [] (size (heap (rd_table z))) z) as (z' & Hrun & Hinv' & Ht & Hr); try done.
  { by rewrite (rep_size _ _ Hrep). }
  exists z'. split_and!; try done. intros j. destruct (abs (rd_table z) !! j) as [r|] eqn:Ea.
  - apply abs_lookup in Ea as (id & n & Hn & <- & Hi); [|apply Hinv]. rewrite (Hr id n Hn). rewrite decide_True; [done|].
    apply (rep_dom _ _ Hrep). by eexists.
  - unfold route_at. rewrite Ht, Ea. done.
Qed.
End Walk.

(** The routes of the type that are redistributed are poisoned. *)
Definition withdrawn (type : Z) x : rip_info :=
  if (ri_type x =? type) && negb (ri_sub_type x =? RIP_ROUTE_INTERFACE) then poisoned x else x.

Lemma info_read_ok z r x t : rd_infos z !! r = Some x → info_read r (set_rd_table t z) = Ok (x, set_rd_table t z).
Proof. unfold info_read. cbn. by intros ->. Qed.

Lemma moved_refl z key x r : rip_inv z → rd_infos z !! r = Some x → abs (rd_table z) !! key = Some r → moved z key (Some x) z.
Proof. intros Hinv Hx Ha. split; try done. unfold route_at. by rewrite Ha. Qed.

Lemma rip_redistribute_withdraw_run z type :
  rip_inv z → locks_room (rd_table z) → type ≠ ZEBRA_ROUTE_RIP →
  ∃ z', rip_redistribute_withdraw type z = Ok (tt, z') ∧ rip_inv z' ∧ rd_table z' = rd_table z ∧
    ∀ j, route_at z' j = withdrawn type <$> route_at z j.
Proof.
  intros Hinv Hroom Hty. apply for_routes_run; [|done..]. clear z Hinv Hroom. intros z r x key Hinv Hx Ha. unfold withdrawn.
  destruct (_ && _) eqn:E.
  - destruct (poison_run z r x key) as (z' & Hrun & Hmv & Ht); try done.
    { unfold rip_route_rte. apply andb_true_iff in E as [E _]. apply Z.eqb_eq in E. rewrite E. by apply Z.eqb_neq in Hty as ->. }
    exists z'. split_and!; try done. intros t. rewrite (st_bind_Ok _ _ _ _ _ (info_read_ok _ _ _ t Hx)). rewrite E. apply Hrun.
  - exists z. split_and!; [|by eapply moved_refl|done]. intros t. rewrite (st_bind_Ok _ _ _ _ _ (info_read_ok _ _ _ t Hx)). by rewrite E.
Qed.

Lemma route_ok_flags x v : route_ok x → route_ok (set_ri_flags v x).
Proof. by intros []. Qed.

Definition unchanged x : rip_info := if negb (Z.land (ri_flags x) RIP_RTF_CHANGED =? 0) then clear_flag RIP_RTF_CHANGED x else x.

Lemma rip_clear_changed_flag_run z :
  rip_inv z → locks_room (rd_table z) →
  ∃ z', rip_clear_changed_flag z = Ok (tt, z') ∧ rip_inv z' ∧ rd_table z' = rd_table z ∧
    ∀ j, route_at z' j = unchanged <$> route_at z j.
Proof.
  intros Hinv Hroom. apply for_routes_run; [|done..]. clear z Hinv Hroom. intros z r x key Hinv Hx Ha. unfold unchanged.
  pose proof (focus_self _ _ _ Hinv Hx) as Hself. destruct (negb (Z.land (ri_flags x) RIP_RTF_CHANGED =? 0)) eqn:E.
  - exists (focus z r (clear_flag RIP_RTF_CHANGED x) false []). split_and!; [|eapply focus_moved; try done|done].
    + intros t. rewrite (st_bind_Ok _ _ _ _ _ (info_read_ok _ _ _ t Hx)). rewrite E. cbn [when]. rewrite <- Hself at 1.
      exact (focus_upd (set_rd_table t z) r x false [] (clear_flag RIP_RTF_CHANGED) ltac:(by intros ? [])).
    + by apply route_ok_flags, (rv_ok _ Hinv r).
  - exists z. split_and!; [|by eapply moved_refl|done]. intros t. rewrite (st_bind_Ok _ _ _ _ _ (info_read_ok _ _ _ t Hx)). by rewrite E.
Qed.

(** ** Taking a redistributed route away *)

(** The route that rip_redistribute_delete is for. *)
Definition redistributed (type sub_type ifindex : Z) x : bool :=
  (ri_type x =? type) && (ri_sub_type x =? sub_type) && (ri_ifindex x =? ifindex).

(** The lock of the lookup stays on the node. *)
Lemma rip_redistribute_delete_run z type sub_type p ifindex :
  rip_inv z → locks_room (rd_table z) → ipv4_prefix p → (type =? ZEBRA_ROUTE_RIP) && (sub_type =? RIP_ROUTE_RTE) = false →
  ∃ o z', rip_redistribute_delete type sub_type p ifindex z = Ok (tt, z') ∧ moved z (pbits p) o z' ∧
    o = (if rip_destination_check (addr_of p)
         then (λ x, if redistributed type sub_type ifindex x then poisoned x else x) <$> route_at z (pbits p)
         else route_at z (pbits p)) ∧
    (∀ c, 1 < c → locks_below c (rd_table z) → locks_below (c + 1) (rd_table z')) ∧
    (rip_destination_check (addr_of p) = true → ∀ x, route_at z (pbits p) = Some x →
       lock_at (rd_table z') (ri_rp x) = lock_at (rd_table z) (ri_rp x) + 1).
Proof.
  intros Hinv Hroom Hp Hr. destruct (ipv4_prefix_key p Hp) as (_ & _ & Hlk). unfold rip_redistribute_delete.
  assert (Hup : ∀ c, 1 < c → locks_below c (rd_table z) → locks_below (c + 1) (rd_table z)).
  { intros c _ H i n Hn. specialize (H i n Hn). lia. }
  destruct (rip_destination_check (addr_of p)); cbn [negb]; [|exists (route_at z (pbits p)), z; by split_and!].
  destruct (route_node_lookup_post (rd_table z) p) as (o & t' & Hrun & Ht' & Ha' & -> & Ho); [apply Hinv|done..|].
  rewrite (st_bind_Ok _ _ _ _ _ (rip_tbl_run _ _ _ _ Hrun)). destruct o as [rp|].
  2:{ assert (Hat : route_at z (pbits p) = None) by (unfold route_at; by rewrite Ho). cbn [hold_opt]. rewrite set_rd_table_id, Hat.
      exists None, z. split_and!; try done. }
  destruct Ho as (n & Hn & Hk & [r Hi] & Ha). rewrite Hi in Ha.
  destruct (abs_info z _ r Hinv Ha) as (x & n0 & Hx & Hn0 & Hk0 & _).
  assert (ri_rp x = rp) as Hrp by (destruct (rv_table _ Hinv) as [[tr Hrep] _]; eapply rep_unique; [done|done|done|congruence]).
  pose proof (hold_got (rd_table z) p rp n (rv_table _ Hinv) Hroom Hn Hk ltac:(by rewrite Ha, Hi)) as Hgot. cbn [hold_opt].
  set (z1 := set_rd_table (hold rp (rd_table z)) z). assert (Hat : route_at z (pbits p) = Some x) by (unfold route_at; by rewrite Ha).
  assert (Hmv1 : moved z (pbits p) (route_at z (pbits p)) z1) by (by apply moved_same; [|apply Hgot..]). rewrite Hat in Hmv1 |- *.
  erewrite st_bind_Ok by (unfold tbl; cbn; by rewrite (read_node_ok _ _ _ (gt_node _ _ _ _ _ Hgot))). cbn [n_info set_lock]. rewrite Hi.
  erewrite st_bind_Ok by (exact (info_read_ok z r x _ Hx)).
  assert (Hlock : lock_at (rd_table z1) rp = lock_at (rd_table z) rp + 1).
  { unfold z1, lock_at. cbn. rewrite (gt_node _ _ _ _ _ Hgot), Hn. done. }
  assert (Hlk1 : ∀ c, 1 < c → locks_below c (rd_table z) → locks_below (c + 1) (rd_table z1)) by (intros c Hc; apply Hgot; lia).
  cbn [fmap option_fmap option_map]. unfold redistributed. destruct (_ && _ && _) eqn:E; cbn [when].
  - destruct (poison_run z1 r x (pbits p)) as (z' & Hpo & Hmv & Ht); [apply Hmv1|done|cbn; by rewrite (gt_abs _ _ _ _ _ Hgot)| |].
    { unfold rip_route_rte. apply andb_true_iff in E as [E _]. apply andb_true_iff in E as [E1 E2]. apply Z.eqb_eq in E1, E2. by rewrite E1, E2. }
    exists (Some (poisoned x)), z'. split_and!; [|by eapply moved_trans|done|by rewrite Ht|].
    + specialize (Hpo (rd_table z1)). rewrite set_rd_table_id, <- Ht, set_rd_table_id in Hpo. exact Hpo.
    + intros _ y [= <-]. by rewrite Ht, Hrp.
  - exists (Some x), z1. split_and!; try done. intros _ y [= <-]. by rewrite Hrp.
Qed.
