(* ===== verification/RipRun.v ===== *)
(** RIP: whole datagrams, and any sequence of what can happen to the daemon. *)

From S2P Require Import Prelude Prefix Table TableFacts TableRep TableWalk TableGet TableDelete TableIter TableSpec TableView Rip RipInv RipProcess RipOps.

Implicit Types (z : ripd) (x : rip_info) (r : nat) (rp : ptr) (p : prefix) (e : rte) (i : interface).

(** * Interfaces *)

Definition interface_ok i : Prop :=
  Forall (λ c, family (c_address c) = AF_INET → prefix_af (c_address c)) (if_connected i).

Lemma host_wf addr : ipv4_ok addr → prefix_wf (host addr).
Proof. intros H. apply prefix_af_wf, ipv4_prefix_key, ipv4_prefix_of; [done|lia]. Qed.

Lemma some_connected_run P l : (∀ c, c ∈ l → ∃ b, P c = Ok b) → ∃ b, some_connected P l = Ok b.
Proof.
  induction l as [|c l IH]; intros H; cbn [some_connected]; [by eexists|].
  destruct (H c) as [b ->]; [by left|]. cbn [mbind res_bind]. destruct b; [by eexists|]. apply IH. intros d Hd. apply H. by right.
Qed.

Lemma if_valid_neighbor_run ifs addr : ipv4_ok addr → Forall interface_ok ifs → ∃ b, if_valid_neighbor ifs addr = Ok b.
Proof.
  intros Ha. induction 1 as [|i ifs Hi _ IH]; cbn [if_valid_neighbor]; [by eexists|].
  destruct (some_connected_run (valid_on i addr) (if_connected i)) as [b ->].
  { intros c Hc. unfold interface_ok in Hi. rewrite Forall_forall in Hi. specialize (Hi c Hc). unfold valid_on.
    destruct (if_is_pointopoint i); [by eexists|]. destruct (Z.eqb_spec (family (c_address c)) AF_INET) as [E|E]; [|by eexists]. cbn [negb].
    destruct (apply_mask_spec _ (Hi E)) as (q & -> & Hq & _). cbn [mbind res_bind].
    eexists. apply prefix_match_pbits; [by apply prefix_af_wf|by apply host_wf]. }
  cbn [mbind res_bind]. destruct b; [by eexists|done].
Qed.

Lemma lookup_connected_run i src l : ipv4_ok src → Forall (λ c, family (c_address c) = AF_INET → prefix_af (c_address c)) l →
  ∀ best m, ∃ res, lookup_connected i src l best m = Ok res.
Proof.
  intros Hs. induction 1 as [|c l Hc _ IH]; intros best m; cbn [lookup_connected]; [by eexists|].
  destruct (if_is_pointopoint i); [destruct (_ && _); [by eexists|apply IH]|].
  destruct (Z.eqb_spec (family (c_address c)) AF_INET) as [E|E]; [|apply IH].
  rewrite prefix_match_pbits by (by apply prefix_af_wf, Hc || by apply host_wf). cbn [mbind res_bind]. destruct (_ && _); apply IH.
Qed.

Lemma if_lookup_address_run ifs src : ipv4_ok src → Forall interface_ok ifs → ∃ o, if_lookup_address ifs src = Ok o.
Proof.
  intros Hs H. unfold if_lookup_address. generalize 0 (@None interface). induction H as [|i ifs Hi _ IH]; intros best m; cbn [lookup_address_loop]; [by eexists|].
  destruct (lookup_connected_run i src (if_connected i) Hs Hi best m) as [[j|[b m']] ->]; cbn [mbind res_bind]; [by eexists|apply IH].
Qed.

(** * One datagram *)

Definition all_ones : list Z := replicate 4 255.

(** The octets of an entry are octets, and the entry is not for a host, for whose mask
    ip_masklen reads out of bounds. *)
Record entry_ok (version : Z) e : Prop := EntryOk {
  eo_prefix : ipv4_ok (rte_prefix e);
  eo_mask : ipv4_ok (rte_mask e);
  eo_nexthop : ipv4_ok (rte_nexthop e);
  eo_net : ∀ e', guess_mask version e = Ok e' → rte_mask e' ≠ all_ones;
}.

(** The mask that is guessed does not depend on the nexthop. *)
Lemma guess_mask_run version e : ipv4_ok (rte_mask e) →
  ∃ m, ipv4_ok m ∧ ∀ h, guess_mask version (set_rte_nexthop h e) = Ok (set_rte_mask m (set_rte_nexthop h e)).
Proof.
  intros Hm. unfold guess_mask. cbn [rte_prefix rte_mask set_rte_nexthop]. destruct (_ && _); [|by exists (rte_mask e)].
  assert (H : ∀ n m, masklen2ip n = Ok m → bool_decide (bytes_ok m ∧ length m = 4%nat) = true →
    ∃ m, ipv4_ok m ∧ ∀ h, (m ← masklen2ip n; Ok (set_rte_mask m (set_rte_nexthop h e))) = Ok (set_rte_mask m (set_rte_nexthop h e))).
  { intros n m -> Hb%bool_decide_eq_true. by exists m. }
  destruct (negb _); [by apply (H _ [255; 255; 255; 255])|]. destruct (_ || _); [by apply (H _ [255; 255; 255; 0])|].
  destruct (_ || _); [by apply (H _ [255; 255; 0; 0])|by apply (H _ [255; 0; 0; 0])].
Qed.

Lemma set_rte_nexthop_id e : set_rte_nexthop (rte_nexthop e) e = e.
Proof. by destruct e. Qed.

Lemma check_nexthop_run ifs version e z :
  rip_inv z → locks_room (rd_table z) → Forall interface_ok ifs → ipv4_ok (rte_nexthop e) →
  ∃ o, check_nexthop ifs version e z = Ok (o, z) ∧ ∀ e', o = Some e' → ∃ h, e' = set_rte_nexthop h e.
Proof.
  intros Hinv Hroom Hifs Hnh. unfold check_nexthop.
  assert (Hsame : ∀ e', Some e = Some e' → ∃ h, e' = set_rte_nexthop h e) by (intros e' [= <-]; exists (rte_nexthop e); by rewrite set_rte_nexthop_id).
  destruct (_ && _); [|by exists (Some e)]. destruct (IN_CLASSD _); [by exists None|].
  destruct (if_lookup_address_run ifs (rte_nexthop e) Hnh Hifs) as [found Hf].
  erewrite st_bind_Ok by (unfold st_lift; by rewrite Hf). destruct found as [i|]; [by exists (Some e)|].
  destruct (route_node_match_post (rd_table z) (host (rte_nexthop e))) as (o & t' & Hrun & _ & _ & -> & Ho); [apply Hinv| |done|].
  { apply ipv4_prefix_key, ipv4_prefix_of; [done|lia]. }
  erewrite st_bind_Ok by (apply rip_tbl_run; exact Hrun). destruct o as [rn|].
  2:{ cbn [hold_opt]. rewrite set_rd_table_id. eexists. split; [done|]. intros e' [= <-]. by eexists. }
  destruct Ho as (n & Hn & [r Hi] & Ha & _). rewrite Hi in Ha. destruct (abs_info z _ r Hinv Ha) as (x & _ & Hx & _). cbn [hold_opt].
  erewrite st_bind_Ok by (unfold tbl; cbn; erewrite read_node_ok by (unfold hold; rewrite Hn; cbn; by rewrite lookup_insert_eq); reflexivity).
  cbn [n_info set_lock]. rewrite Hi. erewrite st_bind_Ok by reflexivity. erewrite st_bind_Ok by (exact (info_read_ok z r x _ Hx)).
  destruct (rv_table _ Hinv) as [[tr Hrep] Hlk].
  erewrite st_bind_Ok by (apply rip_tbl_run; by eapply unlock_hold; eauto). 
  eexists. split; [by destruct z|]. intros e' [= <-]. by eexists.
Qed.

Section Run.
Context (little_endian : bool) (ifs : list interface)
        (rip_incoming_filter : interface → prefix → bool)
        (rip_offset_list_apply_in : interface → prefix → Z → option Z)
        (rip_distance_apply : list Z → prefix → Z).

(** An offset list does not lower a metric, and the metric of an interface is no less than 0. *)
Definition policy_ok i : Prop := ∀ p m, 1 ≤ m ≤ 16 →
  match rip_offset_list_apply_in i p m with Some m' => 1 ≤ m' < 2^32 | None => 0 ≤ if_metric i < 2^31 end.

Lemma policy_metric i p m : policy_ok i → 1 ≤ m ≤ 16 → 1 ≤ added_metric rip_offset_list_apply_in i p m.
Proof.
  intros H Hm. specialize (H p m Hm). unfold added_metric. destruct (rip_offset_list_apply_in i p m) as [m'|].
  - rewrite u32_id by (unfold is_u32; lia). destruct (_ >? _); unfold RIP_METRIC_INFINITY; lia.
  - rewrite u32_id by (unfold is_u32; lia). destruct (_ >? _); unfold RIP_METRIC_INFINITY; lia.
Qed.

(** What every operation does: no fault, the invariant, and [d] locks at most. *)
Definition safe (d : Z) (m : M unit) z : Prop :=
  ∃ z', m z = Ok (tt, z') ∧ rip_inv z' ∧ ∀ c, 1 < c → locks_below c (rd_table z) → locks_below (c + d) (rd_table z').

Lemma safe_ret d z : 0 ≤ d → rip_inv z → safe d (mret tt) z.
Proof. intros Hd Hinv. exists z. split_and!; try done. intros c _ H i n Hn. specialize (H i n Hn). lia. Qed.

Abbreviation response_entry := (response_entry little_endian ifs rip_incoming_filter rip_offset_list_apply_in rip_distance_apply).
Abbreviation response_loop := (response_loop little_endian ifs rip_incoming_filter rip_offset_list_apply_in rip_distance_apply).
Abbreviation rip_response_process := (rip_response_process little_endian ifs rip_incoming_filter rip_offset_list_apply_in rip_distance_apply).

Lemma response_entry_run z version first e from i :
  rip_inv z → locks_room (rd_table z) → Forall interface_ok ifs → entry_ok version e → sin_addr from ≠ zero_addr → policy_ok i →
  safe 1 (response_entry version first e from i) z.
Proof.
  intros Hinv Hroom Hifs [Hp Hm Hnh Hnet] Hfrom Hpol. unfold Rip.response_entry.
  assert (Hret : safe 1 (mret tt) z) by (by apply safe_ret).
  destruct (_ && _ && _); [done|]. destruct (negb _); [done|]. destruct (negb _); [done|]. cbv zeta.
  destruct (negb _) eqn:Emet; [done|]. apply negb_false_iff, andb_true_iff in Emet as [E1 E2]. destruct (_ && _); [done|].
  destruct (check_nexthop_run ifs version e z Hinv Hroom Hifs Hnh) as (o & Hcheck & Ho). unfold safe. rewrite (st_bind_Ok _ _ _ _ _ Hcheck).
  destruct o as [e1|]; [|done]. destruct (Ho e1 eq_refl) as [h ->].
  destruct (guess_mask_run version e Hm) as (m & Hmok & Hguess). erewrite st_bind_Ok by (unfold st_lift; by rewrite Hguess).
  destruct (_ && _ && _); [done|]. match goal with |- context [Rip.rip_rte_process _ _ _ _ _ ?E _ _ _] => set (e2 := E) end.
  assert (ipv4_ok (rte_mask e2) ∧ rte_mask e2 ≠ all_ones ∧ rte_prefix e2 = rte_prefix e) as (Hmok2 & Hones & Hpre2).
  { unfold e2. destruct (_ && _ && _); cbn; [split_and!; [split; [by apply bytes_ok_decide|done]|done|done]|]. split_and!; [done| |done].
    specialize (Hguess (rte_nexthop e)). rewrite set_rte_nexthop_id in Hguess. by specialize (Hnet _ Hguess). }
  destruct (ip_masklen_run (rte_mask e2)) as (len & Hlen & Hl32); [apply Hmok2..|done|]. rewrite <- Hpre2 in Hp.
  destruct (apply_mask_ipv4_run (entry_prefix e2 len)) as (p & Hq & _); [by apply ipv4_prefix_of|].
  destruct (rip_rte_process_run little_endian ifs rip_incoming_filter rip_offset_list_apply_in rip_distance_apply
    z e2 (ntohl (rte_metric e)) from i len p) as (o & z' & Hrun & Hmv & _ & _ & Hlk); try done.
  { apply policy_metric; [done|]. lia. }
  exists z'. split_and!; [done|apply Hmv|done].
Qed.

Lemma safe_bind d1 d2 (m1 m2 : M unit) z :
  0 ≤ d1 → locks_below (2^32 - 1 - d1) (rd_table z) →
  safe d1 m1 z → (∀ z1, rip_inv z1 → locks_room (rd_table z1) → (∀ c, 1 < c → locks_below c (rd_table z) → locks_below (c + d1) (rd_table z1)) → safe d2 m2 z1) →
  1 < 2^32 - 1 - d1 → safe (d1 + d2) (m1;; m2) z.
Proof.
  intros Hd Hroom (z1 & Hrun & Hinv & Hlk) H2 Hpos. destruct (H2 z1) as (z2 & Hrun2 & Hinv2 & Hlk2); [done| |done|].
  { specialize (Hlk _ Hpos Hroom). by replace (2^32 - 1 - d1 + d1) with (2^32 - 1) in Hlk by lia. }
  exists z2. split_and!; [by rewrite (st_bind_Ok _ _ _ _ _ Hrun)|done|].
  intros c Hc Hb. rewrite Z.add_assoc. apply Hlk2; [lia|]. by apply Hlk.
Qed.

Lemma locks_below_mono (t : route_table nat) c c' : c ≤ c' → locks_below c t → locks_below c' t.
Proof. intros Hc H i n Hn. specialize (H i n Hn). lia. Qed.

Lemma response_loop_run version from i es : ∀ first z,
  rip_inv z → locks_below (2^32 - 1 - Z.of_nat (length es)) (rd_table z) → Z.of_nat (length es) < 2^32 - 2 → Forall interface_ok ifs →
  Forall (entry_ok version) es → sin_addr from ≠ zero_addr → policy_ok i →
  safe (Z.of_nat (length es)) (response_loop version first es from i) z.
Proof.
  induction es as [|e es IH]; intros first z Hinv Hroom Hlen Hifs Hes Hfrom Hpol; [by apply safe_ret|].
  apply Forall_cons in Hes as [He Hes]. cbn [length] in *. rewrite Nat2Z.inj_succ in *. unfold Z.succ. rewrite Z.add_comm. cbn [Rip.response_loop].
  assert (Hroom1 : locks_below (2^32 - 1 - 1) (rd_table z)) by (eapply locks_below_mono; [|done]; lia).
  apply safe_bind; [done|done| | |lia].
  - apply response_entry_run; try done. eapply locks_below_mono; [|done]. lia.
  - intros z1 Hinv1 _ Hup. apply IH; try done; [|lia].
    eapply locks_below_mono; [|apply (Hup (2^32 - 1 - Z.succ (Z.of_nat (length es)))); [lia|done]]. lia.
Qed.

Lemma rip_response_process_run z version es from i :
  rip_inv z → locks_below (2^32 - 1 - Z.of_nat (length es)) (rd_table z) → Z.of_nat (length es) < 2^32 - 2 → Forall interface_ok ifs →
  Forall (entry_ok version) es → ipv4_ok (sin_addr from) → sin_addr from ≠ zero_addr → policy_ok i →
  safe (Z.of_nat (length es)) (rip_response_process version es from i) z.
Proof.
  intros Hinv Hroom Hlen Hifs Hes Hok Hfrom Hpol. unfold Rip.rip_response_process.
  destruct (negb _); [apply safe_ret; [lia|done]|]. destruct (if_valid_neighbor_run ifs (sin_addr from) Hok Hifs) as [b Hb].
  unfold safe. erewrite st_bind_Ok by (unfold st_lift; by rewrite Hb). destruct b; [by apply response_loop_run|apply safe_ret; [lia|done]].
Qed.

(** * The daemon *)

(** The output of an update, which reads the table and sends packets. *)
Context (send : route_type → M unit).

(** What can happen to the daemon. *)
Inductive input :=
  | in_response (version : Z) (es : list rte) (from : sockaddr_in) (i : interface)
  | in_timer (r : nat) (k : timer)
  | in_redistribute_add (type sub_type : Z) (p : prefix) (ifindex : Z) (nexthop : option (list Z))
  | in_redistribute_delete (type sub_type : Z) (p : prefix) (ifindex : Z)
  | in_withdraw (type : Z)
  | in_update
  | in_triggered_update
  | in_triggered_interval.

(** A thread runs when it is waiting. *)
Definition perform (a : input) : M unit :=
  match a with
  | in_response version es from i => rip_response_process version es from i
  | in_timer r k =>
      z ← st_get;
      when (bool_decide ((r, k) ∈ rd_pending z)) (match k with Timeout => rip_timeout r | Garbage => rip_garbage_collect r end)
  | in_redistribute_add type sub_type p ifindex nexthop => rip_redistribute_add type sub_type p ifindex nexthop
  | in_redistribute_delete type sub_type p ifindex => rip_redistribute_delete type sub_type p ifindex
  | in_withdraw type => rip_redistribute_withdraw type
  | in_update => rip_update send
  | in_triggered_update => z ← st_get; when (rd_t_triggered_update z) (rip_triggered_update send)
  | in_triggered_interval => z ← st_get; when (rd_t_triggered_interval z) (rip_triggered_interval send)
  end.

Fixpoint run (l : list input) : M unit :=
  match l with
  | [] => mret tt
  | a :: l => perform a;; run l
  end.

Definition input_ok (a : input) : Prop :=
  match a with
  | in_response version es from i =>
      Forall (entry_ok version) es ∧ ipv4_ok (sin_addr from) ∧ sin_addr from ≠ zero_addr ∧ policy_ok i
  | in_timer _ _ | in_update | in_triggered_update | in_triggered_interval => True
  | in_redistribute_add type sub_type p _ _ | in_redistribute_delete type sub_type p _ =>
      ipv4_prefix p ∧ (type =? ZEBRA_ROUTE_RIP) && (sub_type =? RIP_ROUTE_RTE) = false
  | in_withdraw type => type ≠ ZEBRA_ROUTE_RIP
  end.

(** The locks that an input can leave on a node. *)
Definition cost (a : input) : Z :=
  match a with
  | in_response _ es _ _ => Z.of_nat (length es)
  | in_redistribute_add _ _ _ _ _ | in_redistribute_delete _ _ _ _ => 1
  | _ => 0
  end.

Definition total (l : list input) : Z := foldr (λ a n, cost a + n) 0 l.

Lemma safe_moved z key o z' (m : M unit) d :
  0 ≤ d → m z = Ok (tt, z') → moved z key o z' →
  (∀ c, 1 < c → locks_below c (rd_table z) → locks_below (c + d) (rd_table z')) → safe d m z.
Proof. intros _ Hrun Hmv Hlk. exists z'. split_and!; [done|apply Hmv|done]. Qed.

Lemma safe_table z z' (m : M unit) : m z = Ok (tt, z') → rip_inv z' → rd_table z' = rd_table z → safe 0 m z.
Proof. intros Hrun Hinv Ht. exists z'. split_and!; try done. intros c _. by rewrite Ht, Z.add_0_r. Qed.

(** The state of the triggered updates is not part of the invariant. *)
Lemma rip_inv_flags z tr tu ti :
  rip_inv z → rip_inv (set_rd_trigger tr (set_rd_t_triggered_update tu (set_rd_t_triggered_interval ti z))).
Proof. intros Hinv. split; apply Hinv. Qed.

(** What the output relies on beside the invariant, which the inputs [fits] admits
    keep; with it the output reads the state and leaves it as it is. *)
Context (K : ripd → Prop) (fits : input → Prop).

Record output_ok : Prop := OutputOk {
  oo_send : ∀ y z, rip_inv z → K z → locks_room (rd_table z) → send y z = Ok (tt, z);
  oo_flags : ∀ z tr tu ti, K z → K (set_rd_trigger tr (set_rd_t_triggered_update tu (set_rd_t_triggered_interval ti z)));
  oo_keeps : ∀ a z z', fits a → input_ok a → perform a z = Ok (tt, z') → rip_inv z → K z → K z';
}.

Lemma rip_update_run z :
  output_ok → rip_inv z → K z → locks_room (rd_table z) →
  ∃ z', rip_update send z = Ok (tt, z') ∧ rip_inv z' ∧ rd_table z' = rd_table z.
Proof.
  intros Ho Hinv HK Hroom. unfold rip_update. rewrite (st_bind_Ok _ _ _ _ _ (oo_send Ho _ _ Hinv HK Hroom)).
  eexists. split; [done|]. split; [|done].
  pose proof (rip_inv_flags z false (rd_t_triggered_update z) false Hinv) as H. by destruct z.
Qed.

Lemma rip_triggered_update_run z :
  output_ok → rip_inv z → K z → locks_room (rd_table z) →
  ∃ z', rip_triggered_update send z = Ok (tt, z') ∧ rip_inv z' ∧ rd_table z' = rd_table z.
Proof.
  intros Ho Hinv HK Hroom. unfold rip_triggered_update. erewrite st_bind_Ok by reflexivity.
  set (z1 := set_rd_trigger _ _). assert (Hinv1 : rip_inv z1) by apply (rip_inv_flags z false false false Hinv).
  rewrite (st_bind_Ok _ _ _ _ _ (oo_send Ho _ z1 Hinv1 (oo_flags Ho z false false false HK) Hroom)).
  destruct (rip_clear_changed_flag_run z1) as (z2 & Hrun & Hinv2 & Ht & _); [done|done|].
  rewrite (st_bind_Ok _ _ _ _ _ Hrun). eexists. split; [done|]. split; [|done].
  pose proof (rip_inv_flags z2 (rd_trigger z2) (rd_t_triggered_update z2) true Hinv2) as H. by destruct z2.
Qed.

Lemma rip_triggered_interval_run z :
  output_ok → rip_inv z → K z → locks_room (rd_table z) →
  ∃ z', rip_triggered_interval send z = Ok (tt, z') ∧ rip_inv z' ∧ rd_table z' = rd_table z.
Proof.
  intros Ho Hinv HK Hroom. unfold rip_triggered_interval. do 2 (erewrite st_bind_Ok by reflexivity).
  pose proof (rip_inv_flags z (rd_trigger z) (rd_t_triggered_update z) false Hinv) as Hinv1.
  pose proof (oo_flags Ho z false (rd_t_triggered_update z) false HK) as HK1.
  destruct z as [t I fr P tr tu ti L]. cbn in Hinv1, HK1, Hroom |- *. destruct tr; cbn [when]; [|by eexists].
  erewrite st_bind_Ok by reflexivity.
  destruct (rip_triggered_update_run (Ripd t I fr P false tu false L)) as (z' & Hrun & Hinv' & Ht); try done; [|by exists z'].
  exact (rip_inv_flags _ false tu false Hinv1).
Qed.

Lemma perform_run z a :
  output_ok → Forall interface_ok ifs → rip_inv z → K z → input_ok a → cost a < 2^32 - 2 →
  locks_below (2^32 - 1 - cost a) (rd_table z) → safe (cost a) (perform a) z.
Proof.
  intros Ho Hifs Hinv HK Hok Hcost Hlk.
  assert (Hroom : locks_room (rd_table z)) by (eapply locks_below_mono; [|exact Hlk]; destruct a; cbn; lia).
  destruct a as [version es from i|r k|type sub_type p ifindex nexthop|type sub_type p ifindex|type| | |]; cbn [perform cost input_ok] in *.
  - destruct Hok as (? & ? & ? & ?). by apply rip_response_process_run.
  - unfold safe. erewrite st_bind_Ok by reflexivity. case_bool_decide as Hp; [|by apply safe_ret]. cbn [when]. destruct k.
    + destruct (rip_timeout_run z r Hinv Hp) as (key & x & x' & z' & Hrun & _ & Hmv & _ & _ & _ & Ht).
      by apply (safe_table z z'); [|apply Hmv|].
    + destruct (rip_garbage_collect_run z r Hinv Hp) as (key & x & z' & Hrun & _ & Hmv & _ & _ & Hb).
      eapply (safe_moved z key None z'); try done. intros c _. rewrite Z.add_0_r. apply Hb.
  - destruct Hok as [Hp Hr]. destruct (rip_redistribute_add_run z type sub_type p ifindex nexthop) as (o & z' & Hrun & Hmv & _ & Hb); try done.
    by eapply safe_moved.
  - destruct Hok as [Hp Hr]. destruct (rip_redistribute_delete_run z type sub_type p ifindex) as (o & z' & Hrun & Hmv & _ & Hb & _); try done.
    by eapply safe_moved.
  - destruct (rip_redistribute_withdraw_run z type) as (z' & Hrun & Hinv' & Ht & _); try done. by apply (safe_table z z').
  - destruct (rip_update_run z) as (z' & Hrun & Hinv' & Ht); try done. by apply (safe_table z z').
  - unfold safe. erewrite st_bind_Ok by reflexivity. destruct (rd_t_triggered_update z); [|by apply safe_ret]. cbn [when].
    destruct (rip_triggered_update_run z) as (z' & Hrun & Hinv' & Ht); try done. by apply (safe_table z z').
  - unfold safe. erewrite st_bind_Ok by reflexivity. destruct (rd_t_triggered_interval z); [|by apply safe_ret]. cbn [when].
    destruct (rip_triggered_interval_run z) as (z' & Hrun & Hinv' & Ht); try done. by apply (safe_table z z').
Qed.

Lemma cost_nonneg a : 0 ≤ cost a.
Proof. destruct a; cbn; lia. Qed.

Lemma total_nonneg l : 0 ≤ total l.
Proof.
  induction l as [|a l IH]; [done|]. change (total (a :: l)) with (cost a + total l). pose proof (cost_nonneg a). lia.
Qed.

Lemma run_safe l : output_ok → Forall interface_ok ifs → ∀ z,
  rip_inv z → K z → Forall fits l → Forall input_ok l → total l < 2^32 - 2 → locks_below (2^32 - 1 - total l) (rd_table z) → safe (total l) (run l) z.
Proof.
  intros Ho Hifs. induction l as [|a l IH]; intros z Hinv HK Hfit Hok Ht Hlk; [by apply safe_ret|].
  apply Forall_cons in Hfit as [Hfa Hfl]. apply Forall_cons in Hok as [Ha Hl]. cbn [run]. change (total (a :: l)) with (cost a + total l) in *.
  pose proof (cost_nonneg a). pose proof (total_nonneg l).
  assert (Hlk1 : locks_below (2^32 - 1 - cost a) (rd_table z)) by (eapply locks_below_mono; [|exact Hlk]; lia).
  assert (Hrun : safe (cost a) (perform a) z) by (apply perform_run; try done; lia).
  destruct Hrun as (z1 & Hrun & Hinv1 & Hup). assert (HK1 : K z1) by (by eapply (oo_keeps Ho)).
  destruct (IH z1 Hinv1 HK1 Hfl Hl) as (z2 & Hrun2 & Hinv2 & Hup2); [lia| |].
  { eapply locks_below_mono; [|apply (Hup (2^32 - 1 - (cost a + total l))); [lia|done]]. lia. }
  exists z2. split_and!; [by rewrite (st_bind_Ok _ _ _ _ _ Hrun)|done|].
  intros c Hc Hb. rewrite Z.add_assoc. apply Hup2; [lia|]. by apply Hup.
Qed.
End Run.
