(* ===== verification/RipOutput.v ===== *)
(** RIP: ripd/ripd.c, the updates ripd sends.

    rip_update_process walks over the interfaces and the configured neighbors and
    rip_output_process over the table of routes; it fills the packets entry by entry
    and sends a packet when it is full.  Sending is recording: the functions return the
    packets.  The members of a route that only the output uses are local values here,
    they are set before each use, and so is the buffer, which is reset before each use.
    What an outgoing filter, an offset list or a route map says is an argument, and so
    is the MD5 digest.  Below the model: the output reads the state of ripd and meets
    no fault. *)

From S2P Require Import Prelude Prefix Filter Stream Table TableFacts TableRep TableWalk TableGet TableDelete TableIter TableSpec TableView Rip RipInv RipProcess RipOps RipRun.

Implicit Types (z : ripd) (x : rip_info) (r : nat) (p : prefix) (s : stream).

(** * Data *)

Definition RIP_RESPONSE : Z := 2.
Definition RIP_AUTH_SIMPLE_PASSWORD : Z := 2.
Definition RIP_AUTH_MD5 : Z := 3.
Definition RIP_AUTH_MD5_SIZE : Z := 16.
Definition RIP_HEADER_SIZE : Z := 4.
Definition RIP_RTE_SIZE : Z := 20.
Definition RIP_PACKET_MAXSIZ : Z := 512.
Definition RI_RIP_UNSPEC : Z := 0.
Definition ZEBRA_ROUTE_MAX : Z := 9.

(** A key: its number and the octets of its string before the final zero. *)
Record key := Key { key_index : Z; key_string : list Z }.

(** An interface with its members of [struct rip_interface] the output reads.
    [rif_key_chain] is the configured key chain, if there is one: the key that
    keychain_lookup and key_lookup_for_send find for it. *)
Record rip_interface := RipInterface {
  rif_ifp : interface;
  rif_loopback : bool;
  rif_up : bool;
  rif_multicast : bool;
  rif_broadcast : bool;
  rif_passive : bool;
  rif_running : bool;
  rif_ri_send : Z;
  rif_auth_type : Z;
  rif_auth_str : option (list Z);
  rif_key_chain : option (option key);
  rif_split_horizon : bool;
}.

(** An element of [rip->route_map]: the route map, if one is named, which denies a route
    ([None]) or sets its metric, its nexthop, both or none; and the metric, if one is
    configured. *)
Record redistribution := Redistribution {
  rm_map : option (prefix → rip_info → option (option Z * option (list Z)));
  rm_metric : option Z;
}.

(** The members of [struct rip] the output reads beside the table.  [rc_neighbor] lists
    the addresses in the table of the neighbors. *)
Record rip_conf := RipConf {
  rc_version : Z;
  rc_default_metric : Z;
  rc_route_map : list redistribution;
  rc_neighbor : list (list Z);
}.

(** A packet; [pk_to] is [None] for the multicast group. *)
Record packet := Packet { pk_to : option (list Z); pk_data : list Z }.

(** The variables of rip_output_process: [num], the stream, and what has been sent. *)
Record output := Output { out_num : Z; out_stream : stream; out_sent : list packet }.

(** * Output *)

Section Output.
Context (rip_outgoing_filter : rip_interface → prefix → bool)
        (rip_offset_list_apply_out : interface → prefix → Z → option Z)
        (md5 : list Z → list Z) (now : Z).

(** [strncpy (dst, str, 16)] into sixteen octets. *)
Definition strncpy16 (str : list Z) : list Z := take 16 (str ++ replicate 16 0).

(** [memset ((s->data + s->putp), 0, 16); strncpy ((s->data + s->putp), str, 16);
    stream_set_putp (s, s->putp + 16);] *)
Definition store_string (str : list Z) : ST stream unit := λ s,
  d ← put_bytes (s_data s) (s_putp s) (replicate 16 0);
  d ← put_bytes d (s_putp s) (strncpy16 str);
  Ok (tt, stream_set_putp (s_putp s + 16) (set_data d s)).

Definition put_password (str : list Z) : ST stream unit :=
  stream_putw 0xffff;;
  stream_putw RIP_AUTH_SIMPLE_PASSWORD;;
  store_string str.

Definition seek (pos : Z) : ST stream unit := λ s, Ok (tt, stream_set_putp pos s).

(** The header of a packet; [rif] is [None] for a null pointer. *)
Definition write_header (s_version : Z) (rif : option rip_interface) : ST stream Z :=
  stream_putc RIP_RESPONSE;;
  stream_putc s_version;;
  stream_putw 0;;
  match rif with
  | Some ri =>
      if (s_version =? RIPv2) && (rif_auth_type ri =? RIP_AUTH_SIMPLE_PASSWORD) then
        n1 ← match rif_auth_str ri with Some str => put_password str;; mret 1 | None => mret 0 end;
        n2 ← match rif_key_chain ri with
             | Some (Some k) => put_password (key_string k);; mret 1
             | _ => mret 0
             end;
        mret (n1 + n2)
      else mret 0
  | None => mret 0
  end.

Definition rip_write_rte (num : Z) (p : prefix) (version tag metric_out : Z) (nexthop_out : list Z) (rif : option rip_interface) : ST stream Z :=
  num ← (if num =? 0 then write_header version rif else mret num);
  (if version =? RIPv1 then
     stream_putw AF_INET;;
     stream_putw 0;;
     stream_put_ipv4 (addr_of p);;
     stream_put_ipv4 zero_addr;;
     stream_put_ipv4 zero_addr;;
     stream_putl metric_out
   else
     mask ← st_lift (masklen2ip (prefixlen p));
     stream_putw AF_INET;;
     stream_putw tag;;
     stream_put_ipv4 (addr_of p);;
     stream_put_ipv4 mask;;
     stream_put_ipv4 nexthop_out;;
     stream_putl metric_out);;
  mret (num + 1).

(** The string rip_auth_md5_set signs with, and the number of its key. *)
Definition md5_secret (ri : rip_interface) : option (list Z * Z) :=
  match rif_key_chain ri with
  | Some None => None
  | Some (Some k) => Some (default (key_string k) (rif_auth_str ri), key_index k mod 256)
  | None => (λ str, (str, 1)) <$> rif_auth_str ri
  end.

Definition rip_auth_md5_set (ri : rip_interface) : ST stream unit := λ s,
  if negb (rif_auth_type ri =? RIP_AUTH_MD5) then Ok (tt, s)
  else
    match md5_secret ri with
    | None => Ok (tt, s)
    | Some (auth_str, key_id) =>
        let len := s_putp s in
        if len <? RIP_HEADER_SIZE + RIP_RTE_SIZE then Ok (tt, s)
        else
          rtes ← get_bytes (s_data s) RIP_HEADER_SIZE (len - RIP_HEADER_SIZE);
          d ← put_bytes (s_data s) (RIP_HEADER_SIZE + RIP_RTE_SIZE) rtes;
          let len := len + RIP_RTE_SIZE in
          (stream_putw 0xffff;;
           stream_putw RIP_AUTH_MD5;;
           stream_putw len;;
           stream_putc key_id;;
           stream_putc (RIP_AUTH_MD5_SIZE + RIP_HEADER_SIZE);;
           stream_putl now;;
           stream_putl 0;;
           stream_putl 0;;
           seek len;;
           stream_putw 0xffff;;
           stream_putw 1;;
           s ← st_get;
           bs ← st_lift (get_bytes (s_data s) 0 (s_endp s));
           stream_write (md5 (bs ++ strncpy16 auth_str)) RIP_AUTH_MD5_SIZE;;
           mret tt) (stream_set_putp RIP_HEADER_SIZE (set_data d s))
    end.

(** Signing and sending what the stream holds; the stream is reset. *)
Definition send_stream (ri : rip_interface) (to : option (list Z)) (version : Z) (a : output) : res output :=
  '(_, s) ← (if (version =? RIPv2) && (rif_auth_type ri =? RIP_AUTH_MD5) then rip_auth_md5_set ri (out_stream a)
             else Ok (tt, out_stream a));
  bs ← get_bytes (s_data s) 0 (s_endp s);
  Ok (Output 0 (stream_reset s) (out_sent a ++ [Packet to bs])).

(** The number of entries of a packet. *)
Definition rte_max (ri : rip_interface) : Z :=
  let rtemax := (RIP_PACKET_MAXSIZ - 4) / 20 in
  let rtemax := if rif_auth_type ri =? RIP_AUTH_SIMPLE_PASSWORD then rtemax - 1 else rtemax in
  let rtemax := if rif_auth_type ri =? RIP_AUTH_MD5 then rtemax - 2 else rtemax in
  if rif_auth_type ri =? RIP_AUTH_SIMPLE_PASSWORD then
    match rif_key_chain ri with
    | Some (Some _) => rtemax - 1
    | Some None => rtemax
    | None => match rif_auth_str ri with Some _ => rtemax - 1 | None => rtemax end
    end
  else rtemax.

(** The metric a route is sent with; [set] is what the route map has set. *)
Definition metric_to_send (c : rip_conf) (m : redistribution) (ifp : interface) (p : prefix) (x : rip_info) (set : option Z) : Z :=
  let infinite := ri_metric x =? RIP_METRIC_INFINITY in
  let metric_out :=
    match set with
    | Some v => v
    | None =>
        match rm_metric m with
        | Some v =>
            if infinite then ri_metric x else v
        | None =>
            if negb (ri_type x =? ZEBRA_ROUTE_RIP) && negb (ri_type x =? ZEBRA_ROUTE_CONNECT) && negb infinite
            then rc_default_metric c else ri_metric x
        end
    end in
  let metric_out := if infinite then metric_out else default metric_out (u32 <$> rip_offset_list_apply_out ifp p metric_out) in
  if RIP_METRIC_INFINITY <? metric_out then RIP_METRIC_INFINITY else metric_out.

(** The body of the loop of rip_output_process, for the route [r] of the prefix [np]. *)
Definition output_route (c : rip_conf) (ri : rip_interface) (to : option (list Z)) (y : route_type) (version : Z)
    (np : prefix) (r : nat) (a : output) : M output :=
  x ← info_read r;
  p ← st_lift (if version =? RIPv1 then apply_classful_mask_ipv4 np else Ok np);
  let ifp := rif_ifp ri in
  let own := (ri_type x =? ZEBRA_ROUTE_RIP) || (ri_type x =? ZEBRA_ROUTE_CONNECT) in
  if negb (rip_outgoing_filter ri p) then mret a
  else if bool_decide (y = rip_changed_route) && (Z.land (ri_flags x) RIP_RTF_CHANGED =? 0) then mret a
  else if rif_split_horizon ri && own && (ri_ifindex x =? if_ifindex ifp) then mret a
  else
    let nexthop_out := if negb own && (ri_ifindex x =? if_ifindex ifp) then ri_nexthop x else zero_addr in
    m ← st_lift (of_option OutOfBounds (if ri_type x <? 0 then None else rc_route_map c !! Z.to_nat (ri_type x)));
    let mapped :=
      match rm_map m with
      | Some f => if ri_sub_type x =? RIP_ROUTE_INTERFACE then Some (None, None) else f p x
      | None => Some (None, None)
      end in
    match mapped with
    | None => mret a
    | Some (set, hop) =>
        let metric_out := metric_to_send c m ifp p x set in
        '(num, s) ← st_lift (rip_write_rte (out_num a) p version (ri_tag x) metric_out (default nexthop_out hop)
                               (match to with Some _ => None | None => Some ri end) (out_stream a));
        let a := Output num s (out_sent a) in
        if num =? rte_max ri then st_lift (send_stream ri to version a) else mret a
    end.

(** [for (rp = route_top (rip->table); rp; rp = route_next (rp)) ...] *)
Fixpoint output_loop (fuel : nat) (body : prefix → nat → output → M output) (a : output) (rn : option ptr) : M output :=
  match rn with
  | None => mret a
  | Some id =>
      match fuel with
      | O => st_fail OutOfFuel
      | S f =>
          n ← tbl (read_node id);
          a ← match n_info n with Some r => body (n_p n) r a | None => mret a end;
          next ← tbl (route_next id);
          output_loop f body a next
      end
  end.

Definition rip_output_process (c : rip_conf) (ri : rip_interface) (to : option (list Z)) (y : route_type) (version : Z) : M (list packet) :=
  z ← st_get;
  rn ← tbl route_top;
  a ← output_loop (size (heap (rd_table z))) (output_route c ri to y version) (Output 0 (stream_new 1500) []) rn;
  a ← st_lift (if out_num a =? 0 then Ok a else send_stream ri to version a);
  mret (out_sent a).

(** The addresses of an interface that cannot send to the multicast group. *)
Fixpoint output_connected (c : rip_conf) (ri : rip_interface) (y : route_type) (version : Z) (l : list connected) : M (list packet) :=
  match l with
  | [] => mret []
  | cn :: l =>
      d ← st_lift (of_option NullDeref (c_destination cn));
      ps ← (if family d =? AF_INET then rip_output_process c ri (Some (addr_of d)) y version else mret []);
      qs ← output_connected c ri y version l;
      mret (ps ++ qs)
  end.

Definition rip_update_interface (c : rip_conf) (ri : rip_interface) (version : Z) (y : route_type) : M (list packet) :=
  if (version =? RIPv2) && rif_multicast ri then rip_output_process c ri None y version
  else if rif_broadcast ri || if_is_pointopoint (rif_ifp ri)
  then output_connected c ri y version (if_connected (rif_ifp ri))
  else mret [].

(** One interface of rip_update_process. *)
Definition update_interface (c : rip_conf) (ri : rip_interface) (y : route_type) : M (list packet) :=
  if rif_loopback ri || negb (rif_up ri) || rif_passive ri || negb (rif_running ri) then mret []
  else if rif_ri_send ri =? RI_RIP_UNSPEC then
    rip_update_interface c ri (if rc_version c =? RIPv1 then RIPv1 else RIPv2) y
  else
    ps ← (if negb (Z.land (rif_ri_send ri) RIPv1 =? 0) then rip_update_interface c ri RIPv1 y else mret []);
    qs ← (if negb (Z.land (rif_ri_send ri) RIPv2 =? 0) then rip_update_interface c ri RIPv2 y else mret []);
    mret (ps ++ qs).

(** One neighbor of rip_update_process. *)
Definition update_neighbor (c : rip_conf) (ris : list rip_interface) (y : route_type) (addr : list Z) : M (list packet) :=
  found ← st_lift (if_lookup_address (rif_ifp <$> ris) addr);
  match found with
  | None => mret []
  | Some ifp =>
      ri ← st_lift (of_option NullDeref (find (λ ri, if_ifindex (rif_ifp ri) =? if_ifindex ifp) ris));
      rip_output_process c ri (Some addr) y (rc_version c)
  end.

Fixpoint in_turn {A} (f : A → M (list packet)) (l : list A) : M (list packet) :=
  match l with
  | [] => mret []
  | a :: l => ps ← f a; qs ← in_turn f l; mret (ps ++ qs)
  end.

Definition rip_update_process (c : rip_conf) (ris : list rip_interface) (y : route_type) : M (list packet) :=
  ps ← in_turn (λ ri, update_interface c ri y) ris;
  qs ← in_turn (update_neighbor c ris y) (rc_neighbor c);
  mret (ps ++ qs).
End Output.

(** * The stream *)

(** The program puts [n] octets at the put pointer. *)
Definition appends {A} (m : ST stream A) (n : nat) : Prop :=
  ∀ s, stream_ok s → Z.of_nat n ≤ room s → ∃ a bs, length bs = n ∧ m s = Ok (a, append bs s) ∧ stream_ok (append bs s).

Lemma appends_bind {A B} (m : ST stream A) (f : A → ST stream B) n1 n2 :
  appends m n1 → (∀ a, appends (f a) n2) → appends (m ≫= f) (n1 + n2).
Proof.
  intros Hm Hf s Hs Hr. destruct (Hm s Hs) as (a & b1 & Hl1 & Ha & Hok); [lia|].
  destruct (Hf a (append b1 s) Hok) as (b & b2 & Hl2 & Hb & Hok2); [unfold room in *; cbn; lia|].
  rewrite append_append in Hb, Hok2 by (done || lia).
  exists b, (b1 ++ b2). rewrite length_app. split_and!; [lia|by erewrite st_bind_Ok|done].
Qed.

Lemma appends_run {A} (a : A) bs (m : ST stream A) :
  bytes_ok bs → (∀ s, stream_ok s → Z.of_nat (length bs) ≤ room s → m s = Ok (a, append bs s)) → appends m (length bs).
Proof. intros Hb Hm s Hs Hr. exists a, bs. split_and!; [done|by apply Hm|by apply append_ok]. Qed.

Lemma appends_putc c : appends (stream_putc c) 1.
Proof.
  apply (appends_run 1 [u8 c]); [constructor; [apply u8_range|constructor]|].
  intros s Hs Hr. rewrite stream_putc_spec by done. cbn in Hr. by rewrite (proj2 (Z.ltb_ge _ _)) by lia.
Qed.

Lemma appends_putw w : appends (stream_putw w) 2.
Proof.
  apply (appends_run 2 (be16 w)); [unfold be16; repeat constructor; apply u8_range|].
  intros s Hs Hr. rewrite stream_putw_spec by done. cbn in Hr. by rewrite (proj2 (Z.ltb_ge _ _)) by lia.
Qed.

Lemma appends_putl l : appends (stream_putl l) 4.
Proof.
  apply (appends_run 4 (be32 l)); [unfold be32; repeat constructor; apply u8_range|].
  intros s Hs Hr. rewrite stream_putl_spec by done. cbn in Hr. by rewrite (proj2 (Z.ltb_ge _ _)) by lia.
Qed.

Lemma appends_put_ipv4 a : ipv4_ok a → appends (stream_put_ipv4 a) 4.
Proof.
  intros [Hb Hl]. rewrite <- Hl. apply (appends_run 4 a); [done|].
  intros s Hs Hr. rewrite stream_put_ipv4_spec by done. by rewrite (proj2 (Z.ltb_ge _ _)) by lia.
Qed.

(** The stream of a packet of [k] octets. *)
Record filled (k : Z) (s : stream) : Prop := Filled {
  fi_ok : stream_ok s;
  fi_size : s_size s = 1500;
  fi_putp : s_putp s = k;
  fi_endp : s_endp s ≤ k;
}.

(** Nothing is missing before the end. *)
Definition whole (k : Z) (s : stream) : Prop := filled k s ∧ s_endp s = k.

Lemma appends_whole {A} (m : ST stream A) n k s :
  appends m n → (0 < n)%nat → filled k s → k + Z.of_nat n ≤ 1500 → ∃ a s', m s = Ok (a, s') ∧ whole (k + Z.of_nat n) s'.
Proof.
  intros Hm Hn [Hok Hsz Hp He] Hk. destruct (Hm s Hok) as (a & bs & Hl & Hrun & Hok'); [unfold room; lia|].
  exists a, (append bs s). split; [done|]. split; [split|]; cbn; try done; lia.
Qed.

Lemma put_bytes_ok a off bs :
  bytes_ok a → bytes_ok bs → 0 ≤ off → off + Z.of_nat (length bs) ≤ Z.of_nat (length a) →
  ∃ a', put_bytes a off bs = Ok a' ∧ bytes_ok a' ∧ length a' = length a.
Proof.
  intros Ha Hb Ho Hl. rewrite put_bytes_in by done. eexists. split; [done|]. split.
  - unfold bytes_ok. rewrite !Forall_app. split_and!; [by apply Forall_take|done|by apply Forall_drop].
  - rewrite !length_app, length_take, length_drop. lia.
Qed.

Lemma strncpy16_ok str : bytes_ok str → bytes_ok (strncpy16 str) ∧ length (strncpy16 str) = 16%nat.
Proof.
  intros Hs. unfold strncpy16. split.
  - apply Forall_take, Forall_app. split; [done|]. apply Forall_replicate. unfold is_u8. lia.
  - rewrite length_take, length_app, length_replicate. lia.
Qed.

Lemma store_string_filled str k s :
  bytes_ok str → filled k s → k + 16 ≤ 1500 → ∃ s', store_string str s = Ok (tt, s') ∧ filled (k + 16) s'.
Proof.
  intros Hstr [[] Hsz Hp He] Hk. destruct (strncpy16_ok str Hstr) as [Hb Hl]. unfold store_string.
  assert (Hz : bytes_ok (replicate 16 0)) by (apply Forall_replicate; unfold is_u8; lia).
  destruct (put_bytes_ok (s_data s) (s_putp s) (replicate 16 0)) as (d1 & -> & Hd1 & Hl1); [done|done|lia|rewrite length_replicate; lia|].
  cbn [mbind res_bind].
  destruct (put_bytes_ok d1 (s_putp s) (strncpy16 str)) as (d2 & -> & Hd2 & Hl2); [done|done|lia|rewrite Hl, Hl1; lia|].
  cbn [mbind res_bind]. eexists. split; [done|]. unfold stream_set_putp.
  rewrite u64_id by (unfold is_u64; lia). split; [split|..]; cbn; try done; lia.
Qed.

Lemma put_password_filled str k s :
  bytes_ok str → filled k s → k + 20 ≤ 1500 → ∃ s', put_password str s = Ok (tt, s') ∧ filled (k + 20) s'.
Proof.
  intros Hstr Hs Hk. unfold put_password.
  destruct (appends_whole _ _ _ s (appends_putw 0xffff) ltac:(lia) Hs) as (? & s1 & Hrun1 & [H1 _]); [lia|].
  rewrite (st_bind_Ok _ _ _ _ _ Hrun1).
  destruct (appends_whole _ _ _ s1 (appends_putw RIP_AUTH_SIMPLE_PASSWORD) ltac:(lia) H1) as (? & s2 & Hrun2 & [H2 _]); [lia|].
  rewrite (st_bind_Ok _ _ _ _ _ Hrun2).
  destruct (store_string_filled str _ s2 Hstr H2) as (s3 & Hrun3 & H3); [lia|].
  exists s3. split; [done|]. by replace (k + 20) with (k + Z.of_nat 2 + Z.of_nat 2 + 16) by lia.
Qed.

(** * One packet *)

Definition strings_ok (ri : rip_interface) : Prop :=
  (∀ str, rif_auth_str ri = Some str → bytes_ok str) ∧ (∀ k, rif_key_chain ri = Some (Some k) → bytes_ok (key_string k)).

(** The header takes the place of its entries: no more than two, of passwords. *)
Lemma write_header_filled version rif s :
  (∀ ri, rif = Some ri → strings_ok ri) → filled 0 s →
  ∃ n s', write_header version rif s = Ok (n, s') ∧ 0 ≤ n ≤ 2 ∧ filled (4 + 20 * n) s'.
Proof.
  intros Hstr Hs. unfold write_header.
  destruct (appends_whole _ _ _ s (appends_putc RIP_RESPONSE) ltac:(lia) Hs) as (? & s1 & Hrun1 & [H1 _]); [lia|].
  rewrite (st_bind_Ok _ _ _ _ _ Hrun1).
  destruct (appends_whole _ _ _ s1 (appends_putc version) ltac:(lia) H1) as (? & s2 & Hrun2 & [H2 _]); [lia|].
  rewrite (st_bind_Ok _ _ _ _ _ Hrun2).
  destruct (appends_whole _ _ _ s2 (appends_putw 0) ltac:(lia) H2) as (? & s3 & Hrun3 & [H3 _]); [lia|].
  rewrite (st_bind_Ok _ _ _ _ _ Hrun3).
  assert (H4 : filled 4 s3) by exact H3. clear - H4 Hstr.
  destruct rif as [ri|]; [|by exists 0, s3]. destruct (Hstr ri eq_refl) as [Hs1 Hs2].
  destruct (_ && _); [|by exists 0, s3].
  assert (∃ n1 s4, match rif_auth_str ri with Some str => put_password str;; mret 1 | None => mret 0 end s3 = Ok (n1, s4) ∧
    0 ≤ n1 ≤ 1 ∧ filled (4 + 20 * n1) s4) as (n1 & s4 & Hrun4 & Hn1 & H5).
  { destruct (rif_auth_str ri) as [str|]; [|by exists 0, s3].
    destruct (put_password_filled str 4 s3) as (s4 & Hrun & H5); [by apply Hs1|done|lia|].
    exists 1, s4. rewrite (st_bind_Ok _ _ _ _ _ Hrun). split; [done|]. split; [lia|done]. }
  rewrite (st_bind_Ok _ _ _ _ _ Hrun4).
  assert (∃ n2 s5, match rif_key_chain ri with Some (Some k) => put_password (key_string k);; mret 1 | _ => mret 0 end s4 = Ok (n2, s5) ∧
    0 ≤ n2 ≤ 1 ∧ filled (4 + 20 * (n1 + n2)) s5) as (n2 & s5 & Hrun5 & Hn2 & H6).
  { assert (H0 : filled (4 + 20 * (n1 + 0)) s4) by (by rewrite Z.add_0_r).
    destruct (rif_key_chain ri) as [[k|]|]; try (by exists 0, s4).
    destruct (put_password_filled (key_string k) (4 + 20 * n1) s4) as (s5 & Hrun & H6); [by apply Hs2|done|lia|].
    exists 1, s5. rewrite (st_bind_Ok _ _ _ _ _ Hrun). split; [done|]. split; [lia|].
    by replace (4 + 20 * (n1 + 1)) with (4 + 20 * n1 + 20) by lia. }
  rewrite (st_bind_Ok _ _ _ _ _ Hrun5). exists (n1 + n2), s5. split; [done|]. split; [lia|done].
Qed.

(** A prefix that can be sent. *)
Definition out_prefix p : Prop := bytes_ok (u p) ∧ (4 ≤ length (u p))%nat ∧ 0 ≤ prefixlen p ≤ 32.

Lemma out_prefix_addr p : out_prefix p → ipv4_ok (addr_of p).
Proof. intros (Hb & Hl & _). unfold addr_of. split; [by apply Forall_take|]. rewrite length_take. lia. Qed.

Lemma zero_addr_ok : ipv4_ok zero_addr.
Proof. split; [by apply bytes_ok_decide|done]. Qed.

Lemma appends_rte p version tag metric hop :
  out_prefix p → ipv4_ok hop →
  appends (if version =? RIPv1 then
     stream_putw AF_INET;; stream_putw 0;; stream_put_ipv4 (addr_of p);;
     stream_put_ipv4 zero_addr;; stream_put_ipv4 zero_addr;; stream_putl metric
   else
     mask ← st_lift (masklen2ip (prefixlen p));
     stream_putw AF_INET;; stream_putw tag;; stream_put_ipv4 (addr_of p);;
     stream_put_ipv4 mask;; stream_put_ipv4 hop;; stream_putl metric) 20.
Proof.
  intros Hp Hh. pose proof (out_prefix_addr p Hp) as Ha. pose proof zero_addr_ok as H0.
  assert (Hall : ∀ t a b, ipv4_ok a → ipv4_ok b →
    appends (stream_putw AF_INET;; stream_putw t;; stream_put_ipv4 (addr_of p);; stream_put_ipv4 a;; stream_put_ipv4 b;; stream_putl metric) 20).
  { intros t a b Hma Hmb. change 20%nat with (2 + (2 + (4 + (4 + (4 + 4)))))%nat.
    repeat (apply appends_bind; [by apply appends_putw || apply appends_put_ipv4|intros _]). apply appends_putl. }
  destruct (version =? RIPv1); [by apply Hall|].
  destruct (masklen2ip_ok (prefixlen p)) as (m & Hm & Hmok); [apply Hp|].
  intros s Hs Hr. erewrite st_bind_Ok by (unfold st_lift; by rewrite Hm). by apply Hall.
Qed.

(** The number of entries and the octets of a packet that is being filled. *)
Definition partial (num : Z) (s : stream) : Prop := whole (if num =? 0 then 0 else 4 + 20 * num) s.

Lemma rip_write_rte_filled num p version tag metric hop rif s :
  (∀ ri, rif = Some ri → strings_ok ri) → out_prefix p → ipv4_ok hop → 0 ≤ num ≤ 25 → partial num s →
  ∃ num' s', rip_write_rte num p version tag metric hop rif s = Ok (num', s') ∧ partial num' s' ∧
    (num ≠ 0 → num' = num + 1) ∧ (num = 0 → 1 ≤ num' ≤ 3).
Proof.
  intros Hstr Hp Hh Hn [Hs _]. unfold rip_write_rte.
  assert (∃ n1 s1, (if num =? 0 then write_header version rif else mret num) s = Ok (n1, s1) ∧ filled (4 + 20 * n1) s1 ∧
    (num ≠ 0 → n1 = num) ∧ (num = 0 → 0 ≤ n1 ≤ 2)) as (n1 & s1 & Hrun & H1 & Hne & He).
  { destruct (Z.eqb_spec num 0).
    - destruct (write_header_filled version rif s Hstr Hs) as (n1 & s1 & Hrun & Hn1 & H1). by exists n1, s1.
    - by exists num, s. }
  rewrite (st_bind_Ok _ _ _ _ _ Hrun).
  destruct (appends_whole _ _ _ s1 (appends_rte p version tag metric hop Hp Hh) ltac:(lia) H1) as (? & s2 & Hrun2 & H2); [lia|].
  rewrite (st_bind_Ok _ _ _ _ _ Hrun2). exists (n1 + 1), s2. split; [done|]. split; [|lia].
  unfold partial. rewrite (proj2 (Z.eqb_neq _ _)) by lia.
  by replace (4 + 20 * (n1 + 1)) with (4 + 20 * n1 + Z.of_nat 20) by lia.
Qed.

(** * Signing and sending *)

Section Send.
Context (md5 : list Z → list Z) (md5_ok : ∀ bs, bytes_ok (md5 bs) ∧ length (md5 bs) = 16%nat) (now : Z).

Definition at_pos (v : Z) (s : stream) : Prop := stream_ok s ∧ s_size s = 1500 ∧ s_putp s = v.

Lemma appends_at {A} (m : ST stream A) n v s :
  appends m n → at_pos v s → v + Z.of_nat n ≤ 1500 → ∃ a s', m s = Ok (a, s') ∧ at_pos (v + Z.of_nat n) s'.
Proof.
  intros Hm (Hok & Hsz & Hp) Hk. destruct (Hm s Hok) as (a & bs & Hl & Hrun & Hok'); [unfold room; lia|].
  exists a, (append bs s). split; [done|]. split_and!; cbn; try done; lia.
Qed.

Lemma seek_at pos v s : at_pos v s → 0 ≤ pos ≤ 1500 → ∃ s', seek pos s = Ok (tt, s') ∧ at_pos pos s'.
Proof.
  intros ([] & Hsz & Hp) Hk. eexists. split; [done|]. unfold stream_set_putp. rewrite u64_id by (unfold is_u64; lia).
  split_and!; cbn; try done. split; cbn; try done; lia.
Qed.

Ltac put_step :=
  match goal with H : at_pos _ ?s |- ∃ s', mbind _ ?m ?s = _ ∧ _ =>
    let Hm := match m with
              | stream_putw ?w => constr:(appends_putw w)
              | stream_putc ?c => constr:(appends_putc c)
              | stream_putl ?l => constr:(appends_putl l)
              end in
    let Hrun := fresh "Hrun" in let s1 := fresh "s" in
    destruct (appends_at _ _ _ s Hm H) as (? & s1 & Hrun & ?); [lia|];
    rewrite (st_bind_Ok _ _ _ _ _ Hrun); clear Hrun H end.

Lemma appends_digest bs str : appends (stream_write (md5 (bs ++ strncpy16 str)) RIP_AUTH_MD5_SIZE) 16.
Proof.
  destruct (md5_ok (bs ++ strncpy16 str)) as [Hb Hl]. rewrite <- Hl. apply (appends_run 16); [done|].
  intros s Hs Hr. unfold stream_write. rewrite Hl in Hr.
  assert (CHECK_SIZE s RIP_AUTH_MD5_SIZE = 16) as ->.
  { unfold CHECK_SIZE, RIP_AUTH_MD5_SIZE. destruct Hs. unfold room in Hr. rewrite u64_id by (unfold is_u64; lia).
    by rewrite (proj2 (Z.ltb_ge _ _)) by lia. }
  rewrite copy_in_append by (done || lia). by rewrite take_ge by (rewrite Hl; done).
Qed.

Lemma rip_auth_md5_set_at ri k s :
  whole k s → 0 ≤ k ≤ 1400 → ∃ s', rip_auth_md5_set md5 now ri s = Ok (tt, s') ∧ stream_ok s' ∧ s_size s' = 1500.
Proof.
  intros [[Hok Hsz Hp He] _] Hk. unfold rip_auth_md5_set. destruct (negb _); [by exists s|].
  destruct (md5_secret ri) as [[str id]|]; [|by exists s]. cbv zeta. unfold RIP_HEADER_SIZE, RIP_RTE_SIZE. rewrite Hp.
  destruct (Z.ltb_spec k (4 + 20)); [by exists s|]. pose proof Hok as [].
  rewrite get_bytes_in by lia. cbn [mbind res_bind].
  destruct (put_bytes_ok (s_data s) (4 + 20) (take (Z.to_nat (k - 4)) (drop (Z.to_nat 4) (s_data s)))) as (d & -> & Hd & Hld);
    [done|by apply Forall_take, Forall_drop|lia|rewrite length_take, length_drop; lia|].
  cbn [mbind res_bind].
  assert (H0 : at_pos 4 (stream_set_putp 4 (set_data d s))).
  { unfold stream_set_putp. rewrite u64_id by done. split_and!; [split|..]; cbn; try done; lia. }
  revert H0. generalize (stream_set_putp 4 (set_data d s)). intros s0 H0.
  enough (∃ s', (stream_putw 65535;; stream_putw RIP_AUTH_MD5;; stream_putw (k + 20);; stream_putc id;;
    stream_putc (RIP_AUTH_MD5_SIZE + 4);; stream_putl now;; stream_putl 0;; stream_putl 0;; seek (k + 20);;
    stream_putw 65535;; stream_putw 1;; s ← st_get; bs ← st_lift (get_bytes (s_data s) 0 (s_endp s));
    stream_write (md5 (bs ++ strncpy16 str)) RIP_AUTH_MD5_SIZE;; mret tt) s0 = Ok (tt, s') ∧ at_pos (k + 40) s') as (s' & ? & ? & ? & _) by (by exists s').
  do 8 put_step.
  match goal with H : at_pos _ ?s |- _ => destruct (seek_at (k + 20) _ s H) as (t1 & Hseek & Hat); [lia|]; clear H end.
  rewrite (st_bind_Ok _ _ _ _ _ Hseek). clear Hseek.
  do 2 put_step.
  match goal with H : at_pos _ ?s |- _ => rename s into t2; pose proof H as (Hok2 & Hsz2 & _); rename H into Hat2 end.
  rewrite (st_bind_Ok _ _ _ t2 t2) by done. destruct Hok2.
  erewrite st_bind_Ok by (unfold st_lift; rewrite get_bytes_in by lia; reflexivity).
  destruct (appends_at _ _ _ t2 (appends_digest (take (Z.to_nat (s_endp t2)) (drop (Z.to_nat 0) (s_data t2))) str) Hat2) as (? & t3 & Hrun & Hat3); [lia|].
  rewrite (st_bind_Ok _ _ _ _ _ Hrun). exists t3. split; [done|].
  by replace (k + 40) with (k + 20 + Z.of_nat 2 + Z.of_nat 2 + Z.of_nat 16) by lia.
Qed.

Lemma send_stream_run ri to version a k :
  whole k (out_stream a) → 0 ≤ k ≤ 1400 →
  ∃ s ps, send_stream md5 now ri to version a = Ok (Output 0 s ps) ∧ partial 0 s.
Proof.
  intros Hw Hk. unfold send_stream.
  assert (∃ s, (if (version =? RIPv2) && (rif_auth_type ri =? RIP_AUTH_MD5) then rip_auth_md5_set md5 now ri (out_stream a)
                else Ok (tt, out_stream a)) = Ok (tt, s) ∧ stream_ok s ∧ s_size s = 1500) as (s & -> & Hok & Hsz).
  { destruct (_ && _); [by eapply rip_auth_md5_set_at|]. destruct Hw as [[] _]. by exists (out_stream a). }
  cbn [mbind res_bind]. pose proof Hok as []. rewrite get_bytes_in by lia. cbn [mbind res_bind].
  eexists _, _. split; [done|]. split; [split|]; cbn; try done. split; cbn; try done; lia.
Qed.
End Send.

(** * The output *)

(** What the output needs of a route: its type is an index of the array of the route
    maps, and its addresses are addresses. *)
Record out_ok x : Prop := OutOk {
  ou_type : 0 ≤ ri_type x < ZEBRA_ROUTE_MAX;
  ou_nexthop : ipv4_ok (ri_nexthop x);
  ou_from : ipv4_ok (ri_from x);
}.

(** The routes can be sent, and the prefixes of the table are IPv4 ones. *)
Record routes_fit z : Prop := RoutesFit {
  rf_infos : ∀ r x, rd_infos z !! r = Some x → out_ok x;
  rf_nodes : ∀ id n, heap (rd_table z) !! id = Some n → prefixlen (n_p n) ≤ 32;
}.

(** There is an element of the array for each type of routes, route maps set addresses,
    and neighbors are addresses. *)
Record conf_ok (c : rip_conf) : Prop := ConfOk {
  co_types : Z.of_nat (length (rc_route_map c)) = ZEBRA_ROUTE_MAX;
  co_hops : ∀ m f p x set hop, m ∈ rc_route_map c → rm_map m = Some f → f p x = Some (set, Some hop) → ipv4_ok hop;
  co_neighbor : Forall ipv4_ok (rc_neighbor c);
}.

(** The strings of an interface are octets, and its addresses have a destination, which
    zebra_interface_address_add_read always makes. *)
Record rif_ok (ri : rip_interface) : Prop := RifOk {
  rk_ifp : interface_ok (rif_ifp ri);
  rk_strings : strings_ok ri;
  rk_destination : Forall (λ cn, is_Some (c_destination cn)) (if_connected (rif_ifp ri));
}.

Lemma classful_ok p : out_prefix p → ∃ q, apply_classful_mask_ipv4 p = Ok q ∧ out_prefix q.
Proof.
  intros (Hb & Hl & Hp). unfold apply_classful_mask_ipv4.
  assert (H : ∀ len, 0 ≤ len ≤ 32 → ∃ q, apply_mask_ipv4 (Prefix (family p) len (u p)) = Ok q ∧ out_prefix q).
  { intros len Hlen. unfold apply_mask_ipv4. cbn [u prefixlen family].
    destruct (mask_bytes_bits (u p) len 4) as (a & -> & Ha & Hla & _); [done|lia|lia|]. cbn [mbind res_bind].
    eexists. split; [done|]. split_and!; cbn; [done|lia|lia|lia]. }
  destruct (_ =? 32); [by exists p|]. destruct (IN_CLASSC _); [by apply H|]. destruct (IN_CLASSB _); by apply H.
Qed.

Lemma rte_max_range ri : 23 ≤ rte_max ri ≤ 25.
Proof.
  unfold rte_max, RIP_PACKET_MAXSIZ, RIP_AUTH_SIMPLE_PASSWORD, RIP_AUTH_MD5. change ((512 - 4) / 20) with 25.
  destruct (Z.eqb_spec (rif_auth_type ri) 2) as [->|]; cbn;
    [destruct (rif_key_chain ri) as [[?|]|]; [lia..|destruct (rif_auth_str ri); lia]|destruct (_ =? 3); lia].
Qed.

Section Sends.
Context (rip_outgoing_filter : rip_interface → prefix → bool)
        (rip_offset_list_apply_out : interface → prefix → Z → option Z)
        (md5 : list Z → list Z) (md5_ok : ∀ bs, bytes_ok (md5 bs) ∧ length (md5 bs) = 16%nat) (now : Z)
        (c : rip_conf) (Hc : conf_ok c).

Abbreviation output_route := (output_route rip_outgoing_filter rip_offset_list_apply_out md5 now c).
Abbreviation rip_output_process := (rip_output_process rip_outgoing_filter rip_offset_list_apply_out md5 now c).

Definition filling (ri : rip_interface) (a : output) : Prop :=
  0 ≤ out_num a < rte_max ri ∧ partial (out_num a) (out_stream a).

Lemma route_map_run x : out_ok x →
  ∃ m, of_option OutOfBounds (if ri_type x <? 0 then None else rc_route_map c !! Z.to_nat (ri_type x)) = Ok m ∧ m ∈ rc_route_map c.
Proof.
  intros [Ht _ _]. rewrite (proj2 (Z.ltb_ge _ _)) by lia.
  destruct (lookup_lt_is_Some_2 (rc_route_map c) (Z.to_nat (ri_type x))) as [m Hm]; [pose proof (co_types c Hc); lia|].
  exists m. rewrite Hm. split; [done|]. by eapply list_elem_of_lookup_2.
Qed.

Lemma partial_whole num s : partial num s → 0 ≤ num ≤ 25 → ∃ k, whole k s ∧ 0 ≤ k ≤ 1400.
Proof. unfold partial. intros Hw Hn. eexists. split; [exact Hw|]. destruct (_ =? _); lia. Qed.

Lemma output_route_run ri to y version np r x t z a :
  rif_ok ri → rd_infos z !! r = Some x → out_ok x → out_prefix np → filling ri a →
  ∃ a', output_route ri to y version np r a (set_rd_table t z) = Ok (a', set_rd_table t z) ∧ filling ri a'.
Proof.
  intros Hri Hx Hxo Hnp Ha. unfold RipOutput.output_route. rewrite (st_bind_Ok _ _ _ _ _ (info_read_ok z r x t Hx)).
  assert (∃ p, (if version =? RIPv1 then apply_classful_mask_ipv4 np else Ok np) = Ok p ∧ out_prefix p) as (p & Hp & Hpo).
  { destruct (_ =? _); [by apply classful_ok|by exists np]. }
  rewrite (st_bind_Ok _ _ _ p (set_rd_table t z)) by (unfold st_lift; by rewrite Hp). cbv zeta.
  destruct (negb _); [by exists a|]. destruct (_ && _); [by exists a|]. destruct (_ && _ && _); [by exists a|].
  destruct (route_map_run x Hxo) as (m & Hm & Hin). rewrite (st_bind_Ok _ _ _ m (set_rd_table t z)) by (unfold st_lift; by rewrite Hm).
  match goal with |- context [match ?e with Some _ => _ | None => mret a end] => destruct e as [[set hop]|] eqn:Emap end; [|by exists a].
  match goal with |- context [default ?e hop] => assert (Hhop : ipv4_ok (default e hop)) end.
  { destruct hop as [hop|]; cbn.
    - destruct (rm_map m) as [f|] eqn:Ef; [|done]. destruct (ri_sub_type x =? RIP_ROUTE_INTERFACE); [done|]. by eapply (co_hops c Hc).
    - destruct (_ && _); [apply Hxo|apply zero_addr_ok]. }
  destruct Ha as [Hn Hpart]. pose proof (rte_max_range ri) as Hmax.
  match goal with |- context [rip_write_rte ?n ?q ?v ?tg ?me ?h ?rif ?s] =>
    destruct (rip_write_rte_filled n q v tg me h rif s) as (num & s' & Hw & Hpart' & Hnext & Hfirst) end; try done; [|lia|].
  { intros ri' E. destruct to; [done|]. injection E as <-. apply Hri. }
  rewrite (st_bind_Ok _ _ _ (num, s') (set_rd_table t z)) by (unfold st_lift; by rewrite Hw).
  destruct (Z.eqb_spec num (rte_max ri)) as [E|E].
  - destruct (partial_whole num s' Hpart') as (k & Hk & Hkr); [lia|].
    destruct (send_stream_run md5 md5_ok now ri to version (Output num s' (out_sent a)) k Hk Hkr) as (s2 & ps & Hs & H0).
    exists (Output 0 s2 ps). unfold st_lift. rewrite Hs. split; [done|]. split; [cbn; lia|done].
  - eexists. split; [done|]. split; [|done]. cbn. destruct (decide (out_num a = 0)); lia.
Qed.

(** The walk over the table. *)
Lemma output_loop_run ri to y version t tr z (post : list ptr) : ∀ pre fuel a,
  rif_ok ri → rep t tr → locks t → locks_room t → preorder tr = pre ++ post → (length post ≤ fuel)%nat →
  rd_table z = t → rip_inv z → routes_fit z → filling ri a →
  ∃ a', output_loop fuel (output_route ri to y version) a (head post) (set_rd_table (hold_opt (head post) t) z) = Ok (a', z) ∧ filling ri a'.
Proof.
  induction post as [|id post IH]; intros pre fuel a Hri Hrep Hlk Hroom Hpre Hf Ht Hinv Hfit Ha.
  { exists a. split; [|done]. destruct fuel; cbn; rewrite <- Ht; by rewrite set_rd_table_id. }
  destruct fuel as [|fuel]; [cbn in Hf; lia|]. cbn [head hold_opt output_loop].
  assert (∃ n, heap t !! id = Some n ∧ prefix_wf (n_p n) ∧ length (u (n_p n)) = 16%nat) as (n & Hn & Hwf & Hlen).
  { assert (id ∈ preorder tr) as Hin by (rewrite Hpre; set_solver). apply list_elem_of_fmap in Hin as (e & -> & He).
    destruct (proj1 (Forall_forall _ _) (rep_entries _ _ Hrep) e He) as (n & Hn & _ & _ & _ & _ & ? & ?). eauto. }
  assert (Hread : tbl (read_node id) (set_rd_table (hold id t) z) = Ok (set_lock (n_lock n + 1) n, set_rd_table (hold id t) z)).
  { unfold tbl. cbn. erewrite read_node_ok; [done|]. unfold hold. rewrite Hn. cbn. by rewrite lookup_insert_eq. }
  rewrite (st_bind_Ok _ _ _ _ _ Hread). cbn [n_info n_p set_lock].
  assert (∃ a1, (match n_info n with Some r => output_route ri to y version (n_p n) r a | None => mret a end) (set_rd_table (hold id t) z)
    = Ok (a1, set_rd_table (hold id t) z) ∧ filling ri a1) as (a1 & Hb & Ha1).
  { destruct (n_info n) as [r|] eqn:Ei; [|by exists a].
    assert (Habs : abs (rd_table z) !! pbits (n_p n) = Some r) by (eapply info_abs; [apply Hinv|by rewrite Ht|done]).
    destruct (abs_info z _ r Hinv Habs) as (x & _ & Hx & _). apply (output_route_run ri to y version _ r x); try done.
    - by apply (rf_infos z Hfit r).
    - split_and!; [apply Hwf|lia|apply Hwf|apply (rf_nodes z Hfit id); by rewrite Ht]. }
  rewrite (st_bind_Ok _ _ _ _ _ Hb).
  assert (Hnext : tbl (route_next id) (set_rd_table (hold id t) z) = Ok (head post, set_rd_table (hold_opt (head post) t) z)).
  { unfold tbl. cbn. by rewrite (route_next_hold t tr id pre post). }
  rewrite (st_bind_Ok _ _ _ _ _ Hnext). apply (IH (pre ++ [id]) fuel a1); try done; [by rewrite <- app_assoc|cbn in Hf; lia].
Qed.

Lemma rip_output_process_run ri to y version z :
  rif_ok ri → rip_inv z → routes_fit z → locks_room (rd_table z) → ∃ ps, rip_output_process ri to y version z = Ok (ps, z).
Proof.
  intros Hri Hinv Hfit Hroom. destruct (rv_table _ Hinv) as [[tr Hrep] Hlk]. unfold RipOutput.rip_output_process. erewrite st_bind_Ok by reflexivity.
  erewrite st_bind_Ok by (apply rip_tbl_run; by apply route_top_hold).
  destruct (output_loop_run ri to y version (rd_table z) tr z (preorder tr) [] (size (heap (rd_table z))) (Output 0 (stream_new 1500) []))
    as (a & Hrun & Hn & Hp); try done.
  { by rewrite (rep_size _ _ Hrep). }
  { pose proof (rte_max_range ri). split; [cbn; lia|]. split; [split|]; try done. by apply stream_new_ok. }
  rewrite (st_bind_Ok _ _ _ _ _ Hrun). destruct (out_num a =? 0); [by eexists|].
  pose proof (rte_max_range ri). destruct (partial_whole _ _ Hp) as (k & Hk & Hkr); [lia|].
  destruct (send_stream_run md5 md5_ok now ri to version a k Hk Hkr) as (s2 & ps & Hs & _).
  rewrite (st_bind_Ok _ _ _ (Output 0 s2 ps) z) by (unfold st_lift; by rewrite Hs). by eexists.
Qed.

(** ** Interfaces and neighbors *)

(** The program reads the state and ends. *)
Definition reads_state {A} z (m : M A) : Prop := ∃ v, m z = Ok (v, z).

Lemma reads_state_bind {A B} z (m : M A) (f : A → M B) : reads_state z m → (∀ v, reads_state z (f v)) → reads_state z (m ≫= f).
Proof. intros [v Hm] Hf. destruct (Hf v) as [w Hw]. exists w. by rewrite (st_bind_Ok _ _ _ _ _ Hm). Qed.

Lemma reads_state_ret {A} z (v : A) : reads_state z (mret v).
Proof. by exists v. Qed.

Lemma in_turn_run {A} z (f : A → M (list packet)) l : Forall (λ a, reads_state z (f a)) l → reads_state z (in_turn f l).
Proof.
  induction 1 as [|a l Ha _ IH]; [apply reads_state_ret|]. cbn [in_turn].
  apply reads_state_bind; [done|]. intros ps. apply reads_state_bind; [done|]. intros qs. apply reads_state_ret.
Qed.

Lemma lookup_connected_in i src (l : list connected) (ifs : list interface) : ∀ best m w,
  i ∈ ifs → (∀ j, m = Some j → j ∈ ifs) → lookup_connected i src l best m = Ok w →
  match w with inl j => j ∈ ifs | inr (_, m') => ∀ j, m' = Some j → j ∈ ifs end.
Proof.
  induction l as [|cn l IH]; intros best m w Hi Hm; cbn [lookup_connected]; [by intros [= <-]|].
  destruct (if_is_pointopoint i).
  { destruct (_ && _); [by intros [= <-]|by apply IH]. }
  destruct (_ =? _); [|by apply IH]. destruct (prefix_match _ _) as [b|]; [|done]. cbn [mbind res_bind].
  destruct (_ && _); apply IH; try done. by intros j [= <-].
Qed.

Lemma lookup_address_in ifs src i : if_lookup_address ifs src = Ok (Some i) → i ∈ ifs.
Proof.
  unfold if_lookup_address. assert (Hloop : ∀ l best m, l ⊆ ifs → (∀ j, m = Some j → j ∈ ifs) →
    lookup_address_loop l src best m = Ok (Some i) → i ∈ ifs).
  { induction l as [|j l IH]; intros best m Hl Hm; cbn [lookup_address_loop]; [by intros [= ->]; apply Hm|].
    destruct (lookup_connected j src (if_connected j) best m) as [r|] eqn:E; [|done]. cbn [mbind res_bind].
    apply (lookup_connected_in j src (if_connected j) ifs) in E; [|set_solver|done].
    destruct r as [k|[b m']]; [by intros [= <-]|]. apply IH; [set_solver|done]. }
  apply Hloop; done.
Qed.

Context (ris : list rip_interface) (Hris : Forall rif_ok ris).

Lemma rip_update_process_run y z :
  rip_inv z → routes_fit z → locks_room (rd_table z) →
  reads_state z (rip_update_process rip_outgoing_filter rip_offset_list_apply_out md5 now c ris y).
Proof.
  intros Hinv Hfit Hroom. assert (Hout : ∀ ri to version, rif_ok ri → reads_state z (rip_output_process ri to y version)).
  { intros ri to version Hri. by apply rip_output_process_run. }
  unfold rip_update_process. apply reads_state_bind; [apply in_turn_run; eapply Forall_impl; [exact Hris|]|intros ps].
  - intros ri Hri. assert (Hif : ∀ version, reads_state z (rip_update_interface rip_outgoing_filter rip_offset_list_apply_out md5 now c ri version y)).
    { intros version. unfold rip_update_interface. destruct (_ && _); [by apply Hout|]. destruct (_ || _); [|apply reads_state_ret].
      pose proof (rk_destination ri Hri) as Hd. induction (if_connected (rif_ifp ri)) as [|cn l IH]; [apply reads_state_ret|].
      apply Forall_cons in Hd as [[d Hd] Hl]. cbn [output_connected].
      apply reads_state_bind; [exists d; unfold st_lift; by rewrite Hd|]. intros d'.
      apply reads_state_bind; [destruct (_ =? _); [by apply Hout|apply reads_state_ret]|]. intros qs.
      apply reads_state_bind; [by apply IH|]. intros. apply reads_state_ret. }
    unfold update_interface. destruct (_ || _); [apply reads_state_ret|]. destruct (_ =? _); [apply Hif|].
    apply reads_state_bind; [destruct (negb _); [apply Hif|apply reads_state_ret]|]. intros qs.
    apply reads_state_bind; [destruct (negb _); [apply Hif|apply reads_state_ret]|]. intros. apply reads_state_ret.
  - apply reads_state_bind; [|intros; apply reads_state_ret]. apply in_turn_run. eapply Forall_impl; [apply (co_neighbor c Hc)|].
    intros addr Haddr. unfold update_neighbor.
    destruct (if_lookup_address_run (rif_ifp <$> ris) addr Haddr) as [o Ho].
    { apply Forall_fmap. eapply Forall_impl; [exact Hris|]. by intros ri []. }
    assert (Hl : st_lift (if_lookup_address (rif_ifp <$> ris) addr) z = Ok (o, z)) by (unfold st_lift; by rewrite Ho).
    unfold reads_state. rewrite (st_bind_Ok _ _ _ _ _ Hl). destruct o as [i|]; [|apply reads_state_ret].
    apply lookup_address_in, list_elem_of_fmap in Ho as (rj & -> & Hin).
    destruct (find _ ris) as [ri|] eqn:Ef.
    2:{ apply list_elem_of_In in Hin. pose proof (find_none _ _ Ef rj Hin) as Hne. cbn in Hne. by rewrite Z.eqb_refl in Hne. }
    apply find_some in Ef as [Hri _]. apply list_elem_of_In in Hri. rewrite Forall_forall in Hris.
    erewrite st_bind_Ok by reflexivity. apply Hout. by apply Hris.
Qed.
End Sends.
