(* ===== verification/RipFit.v ===== *)
(** RIP: every input leaves routes the output can send.

    [keeping K m Q] is partial correctness: when [m] ends, it has kept [K] and returned
    a value with [Q].  The operations of the table keep the prefixes short enough for
    IPv4, those of ripd keep the routes fit for the output. *)

From S2P Require Import Prelude Prefix Stream Table TableView Rip RipInv RipProcess RipOps RipRun RipOutput.

Implicit Types (z : ripd) (x : rip_info) (r : nat) (p : prefix) (e : rte).

(** * Partial correctness *)

Definition keeping {S A} (K : S → Prop) (m : ST S A) (Q : A → Prop) : Prop :=
  ∀ s a s', m s = Ok (a, s') → K s → K s' ∧ Q a.

Lemma keeping_bind {S A B} (K : S → Prop) (m : ST S A) (f : A → ST S B) Q R :
  keeping K m Q → (∀ a, Q a → keeping K (f a) R) → keeping K (m ≫= f) R.
Proof.
  intros Hm Hf s b s' Hrun Hs. unfold mbind, ST_bind in Hrun. destruct (m s) as [[a s1]|] eqn:E; [|done].
  destruct (Hm s a s1 E Hs) as [H1 Ha]. by apply (Hf a Ha s1 b s').
Qed.

Lemma keeping_ret {S A} (K : S → Prop) (Q : A → Prop) a : Q a → keeping K (mret a) Q.
Proof. by intros Ha s a' s' [= <- <-]. Qed.

Lemma keeping_get {S} (K : S → Prop) : keeping K st_get K.
Proof. by intros s a s' [= <- <-]. Qed.

Lemma keeping_fail {S A} (K : S → Prop) (Q : A → Prop) err : keeping K (st_fail err) Q.
Proof. done. Qed.

Lemma keeping_lift {S A} (K : S → Prop) (w : res A) (Q : A → Prop) : (∀ a, w = Ok a → Q a) → keeping K (st_lift w) Q.
Proof. intros H s a s'. unfold st_lift. destruct w as [b|]; [|done]. intros [= <- <-]. auto. Qed.

Lemma keeping_weaken {S A} (K : S → Prop) (m : ST S A) (Q R : A → Prop) :
  (∀ a, Q a → R a) → keeping K m Q → keeping K m R.
Proof. intros HQ Hm s a s' Hrun Hs. destruct (Hm s a s' Hrun Hs). auto. Qed.

(** A program whose result does not matter. *)
Abbreviation keeps K m := (keeping K m (λ _, True)).

Lemma keeps_seq {S A B} (K : S → Prop) (m : ST S A) (f : A → ST S B) R :
  keeps K m → (∀ a, keeping K (f a) R) → keeping K (m ≫= f) R.
Proof. intros Hm Hf. eapply keeping_bind; [exact Hm|auto]. Qed.

Lemma keeping_any_lift {S A} (K : S → Prop) (w : res A) : keeps K (st_lift w).
Proof. by apply keeping_lift. Qed.

Lemma keeps_any {S A} (K : S → Prop) (m : ST S A) Q : keeping K m Q → keeps K m.
Proof. by apply keeping_weaken. Qed.

(** * The table *)

Section Table.
Context {A : Type}.
Implicit Types (t : route_table A) (n : route_node A).

Definition short n : Prop := prefixlen (n_p n) ≤ 32.
Definition all_short t : Prop := ∀ id n, heap t !! id = Some n → short n.

Lemma read_node_short id : keeping all_short (read_node id) short.
Proof.
  intros t n t' Hrun Ht. unfold read_node in Hrun. destruct (heap t !! id) as [m|] eqn:E; [|done].
  injection Hrun as <- <-. split; [done|]. by apply (Ht id).
Qed.

Lemma update_node_short id f : (∀ n, short n → short (f n)) → keeps all_short (update_node id f).
Proof.
  intros Hf t u t' Hrun Ht. unfold update_node in Hrun. destruct (heap t !! id) as [m|] eqn:E; [|done].
  injection Hrun as <- <-. split; [|done]. intros i n; cbn; intros [[<- <-]|[_ Hn]]%lookup_insert_Some; [by apply Hf, (Ht id)|by apply (Ht i)].
Qed.

Lemma set_top_short o : keeps all_short (set_top o).
Proof. by intros t u t' [= <- <-]. Qed.

Lemma route_node_new_short : keeps all_short (route_node_new (A := A)).
Proof.
  intros t u t' [= <- <-] Ht. split; [|done]. intros i n; cbn; intros [[<- <-]|[_ Hn]]%lookup_insert_Some; [done|by apply (Ht i)].
Qed.

Lemma route_node_free_short id : keeps all_short (route_node_free (A := A) id).
Proof.
  intros t u t' Hrun Ht. unfold route_node_free in Hrun. destruct (heap t !! id); [|done].
  injection Hrun as <- <-. split; [|done]. intros i n; cbn; intros [_ Hn]%lookup_delete_Some. by apply (Ht i).
Qed.

Lemma set_link_field_short b o n : short n → short (set_link_field b o n).
Proof. by destruct b. Qed.

(** One step through a program on the table. *)
Ltac tstep :=
  first [apply keeping_any_lift | by apply keeping_ret | apply keeping_fail | apply set_top_short | apply route_node_new_short
        | apply route_node_free_short | by apply update_node_short | apply update_node_short; by apply set_link_field_short
        | apply (keeps_any _ _ _ (read_node_short _)) | apply (keeps_any _ _ _ (keeping_get _))
        | apply keeps_seq; [|intros ?]
        | match goal with |- keeping _ (match ?e with _ => _ end) _ => destruct e end].

Lemma route_lock_node_short id : keeps all_short (route_lock_node (A := A) id).
Proof. unfold route_lock_node. repeat tstep. Qed.

Lemma set_link_short id new : keeps all_short (set_link (A := A) id new).
Proof. unfold set_link. repeat tstep. Qed.

Lemma delete_fuel_short fuel : ∀ id, keeps all_short (route_node_delete_fuel (A := A) fuel id).
Proof. induction fuel as [|fuel IH]; intros id; cbn [route_node_delete_fuel]; repeat first [apply IH | tstep]. Qed.

Lemma route_unlock_node_short id : keeps all_short (route_unlock_node (A := A) id).
Proof.
  unfold route_unlock_node. repeat tstep. intros t u t' Hrun. exact (delete_fuel_short (size (heap t)) id t u t' Hrun).
Qed.

Lemma common_bytes_count np pp k : ∀ newp i q j, common_bytes np pp newp i k = Ok (q, j) → i ≤ j ≤ i + Z.of_nat k.
Proof.
  induction k as [|k IH]; intros newp i q j; cbn [common_bytes]; [intros [= _ <-]; lia|].
  destruct (get_byte np i); [|done]. cbn [mbind res_bind]. destruct (get_byte pp i); [|done]. cbn [mbind res_bind].
  destruct (_ =? _); [|intros [= _ <-]; lia]. destruct (set_byte _ _ _); [|done]. cbn [mbind res_bind].
  intros H%IH. lia.
Qed.

Lemma u8_le v : 0 ≤ v → 0 ≤ u8 v ≤ v.
Proof. intros Hv. split; [apply u8_range|]. unfold u8. apply Z.mod_le; lia. Qed.

Lemma common_bits_le fuel : ∀ len plen mask diff v,
  0 ≤ len ≤ plen → common_bits fuel len plen mask diff = Ok v → v ≤ plen.
Proof.
  induction fuel as [|fuel IH]; intros len plen mask diff v Hl; cbn [common_bits];
    destruct (Z.ltb_spec len plen); destruct (_ =? 0); cbn [andb]; try done; try (intros [= <-]; lia).
  apply IH. pose proof (u8_le (len + 1)). lia.
Qed.

Lemma route_common_le (n p new q : prefix) : 0 ≤ prefixlen p → route_common n p new = Ok q → prefixlen q ≤ prefixlen p.
Proof.
  intros Hp. unfold route_common. destruct (common_bytes _ _ _ _ _) as [[newp i]|] eqn:E; [|done]. cbn [mbind res_bind].
  apply common_bytes_count in E. pose proof (Z.div_pos (prefixlen p) 8 Hp ltac:(lia)).
  pose proof (Z.mul_div_le (prefixlen p) 8 ltac:(lia)). assert (Hu : 0 ≤ u8 (i * 8) ≤ i * 8) by (apply u8_le; lia).
  destruct (_ =? _); [intros [= <-]; cbn; lia|]. destruct (get_byte (u n) i) as [a|]; cbn [mbind res_bind]; [|done].
  destruct (get_byte (u p) i) as [b|]; cbn [mbind res_bind]; [|done].
  destruct (common_bits _ _ _ _ _) as [v|] eqn:Eb; cbn [mbind res_bind]; [|done]. apply common_bits_le in Eb; [|lia].
  destruct (get_byte maskbit _) as [m|]; cbn [mbind res_bind]; [|done].
  destruct (set_byte _ _ _); cbn [mbind res_bind]; [|done]. by intros [= <-].
Qed.

Lemma route_node_set_short p : prefixlen p ≤ 32 → keeps all_short (route_node_set (A := A) p).
Proof.
  intros Hp. unfold route_node_set. apply keeps_seq; [apply route_node_new_short|]. intros id.
  apply keeps_seq; [apply (keeps_any _ _ _ (read_node_short _))|]. intros n.
  eapply (keeping_bind _ _ _ (λ q, prefixlen q ≤ 32)).
  - apply keeping_lift. intros q. unfold prefix_copy. repeat (destruct (_ =? _); [by intros [= <-]|]). done.
  - intros q Hq. apply keeps_seq; [by apply update_node_short|]. intros. by apply keeping_ret.
Qed.

Lemma route_node_get_short p : 0 ≤ prefixlen p ≤ 32 → keeps all_short (route_node_get (A := A) p).
Proof.
  intros Hp. pose proof (λ id, route_lock_node_short id) as Hlock. pose proof (λ id new, set_link_short id new) as Hlink.
  assert (Hset : keeps all_short (route_node_set (A := A) p)) by (apply route_node_set_short; lia).
  unfold route_node_get. apply keeps_seq; [apply (keeps_any _ _ _ (keeping_get _))|]. intros t.
  apply keeps_seq; [apply keeping_any_lift|]. intros [id|[mat [id|]]]; [repeat first [apply Hlock | tstep]| |
    repeat first [apply Hset | apply Hlock | apply Hlink | tstep]].
  apply keeps_seq; [apply route_node_new_short|]. intros new.
  apply keeps_seq; [apply (keeps_any _ _ _ (read_node_short _))|]. intros n.
  apply keeps_seq; [apply (keeps_any _ _ _ (read_node_short _))|]. intros nw.
  eapply (keeping_bind _ _ _ (λ q, prefixlen q ≤ 32)).
  { apply keeping_lift. intros q Hq%route_common_le; lia. }
  intros q Hq. apply keeps_seq; [by apply update_node_short|]. intros [].
  repeat first [apply Hset | apply Hlock | apply Hlink | tstep].
Qed.

Lemma route_node_match_ipv4_short a : keeps all_short (route_node_match_ipv4 (A := A) a).
Proof. unfold route_node_match_ipv4, route_node_match. repeat first [apply route_lock_node_short | tstep]. Qed.

Lemma route_node_lookup_short p : keeps all_short (route_node_lookup (A := A) p).
Proof. unfold route_node_lookup. repeat first [apply route_lock_node_short | tstep]. Qed.

Lemma route_top_short : keeps all_short (route_top (A := A)).
Proof. unfold route_top. repeat first [apply route_lock_node_short | tstep]. Qed.

Lemma route_next_short id : keeps all_short (route_next (A := A) id).
Proof. unfold route_next, next_node. repeat first [apply route_lock_node_short | apply route_unlock_node_short | tstep]. Qed.
End Table.

(** * The routes *)

Abbreviation fit := routes_fit.

Lemma tbl_fit {A} (m : ST (route_table nat) A) Q : keeping all_short m Q → keeping fit (tbl m) Q.
Proof.
  intros Hm z a z' Hrun [Hi Hn]. unfold tbl in Hrun. destruct (m (rd_table z)) as [[b t]|] eqn:E; [|done].
  injection Hrun as <- <-. destruct (Hm _ _ _ E Hn) as [Ht Hq]. by split; [split|].
Qed.

Lemma info_read_fit r : keeping fit (info_read r) out_ok.
Proof.
  intros z x z' Hrun Hz. unfold info_read in Hrun. destruct (rd_infos z !! r) as [y|] eqn:E; [|done].
  injection Hrun as <- <-. split; [done|]. by apply (rf_infos z Hz r).
Qed.

Lemma info_upd_fit r f : (∀ x, out_ok x → out_ok (f x)) → keeps fit (info_upd r f).
Proof.
  intros Hf z a z' Hrun [Hi Hn]. unfold info_upd in Hrun. destruct (rd_infos z !! r) as [y|] eqn:E; [|done].
  injection Hrun as <- <-. split; [|done]. split; [|done]. intros q x; cbn.
  intros [[<- <-]|[_ Hx]]%lookup_insert_Some; [by apply Hf, (Hi r)|by apply (Hi q)].
Qed.

Lemma info_alloc_fit x : out_ok x → keeps fit (info_alloc x).
Proof.
  intros Hx z a z' [= <- <-] [Hi Hn]. split; [|done]. split; [|done]. intros q y; cbn.
  intros [[<- <-]|[_ Hy]]%lookup_insert_Some; [done|by apply (Hi q)].
Qed.

Lemma rip_info_free_fit r : keeps fit (rip_info_free r).
Proof.
  intros z a z' Hrun [Hi Hn]. unfold rip_info_free in Hrun. destruct (rd_infos z !! r); [|done].
  injection Hrun as <- <-. split; [|done]. split; [|done]. intros q y; cbn. intros [_ Hy]%lookup_delete_Some. by apply (Hi q).
Qed.

Lemma modify_fit f : (∀ z, rd_infos (f z) = rd_infos z ∧ rd_table (f z) = rd_table z) → keeps fit (modify f).
Proof. intros Hf z a z' [= <- <-] [Hi Hn]. destruct (Hf z) as [E1 E2]. split; [|done]. split; [by rewrite E1|by rewrite E2]. Qed.

Lemma emit_fit m : keeps fit (emit m).
Proof. by intros z a z' [= <- <-] []. Qed.

Lemma when_fit b m : keeps fit m → keeps fit (when b m).
Proof. intros Hm. destruct b; [done|by apply keeping_ret]. Qed.

(** One step through a program of ripd. *)
Ltac fstep :=
  first [apply keeping_any_lift | by apply keeping_ret | apply keeping_fail | apply emit_fit | apply rip_info_free_fit | apply when_fit
        | by apply modify_fit | apply info_upd_fit; by intros ? []; split
        | apply (keeps_any _ _ _ (info_read_fit _)) | apply (keeps_any _ _ _ (keeping_get _))
        | apply tbl_fit, (keeps_any _ _ _ (read_node_short _)) | by apply tbl_fit, update_node_short
        | apply tbl_fit, route_unlock_node_short | apply tbl_fit, route_node_lookup_short | apply tbl_fit, route_next_short
        | apply tbl_fit, route_top_short | apply tbl_fit, route_node_match_ipv4_short
        | apply keeps_seq; [|intros ?]
        | match goal with |- keeping _ (match ?w with _ => _ end) _ => destruct w end].

Lemma timer_on_fit k r : keeps fit (RIP_TIMER_ON k r).
Proof. unfold RIP_TIMER_ON. repeat fstep. apply info_upd_fit. intros x []. by destruct k; split. Qed.

Lemma timer_off_fit k r : keeps fit (RIP_TIMER_OFF k r).
Proof. unfold RIP_TIMER_OFF. repeat fstep. apply info_upd_fit. intros x []. by destruct k; split. Qed.

Lemma timer_runs_fit k r : keeps fit (timer_runs k r).
Proof. unfold timer_runs. repeat fstep. apply info_upd_fit. intros x []. by destruct k; split. Qed.

Lemma trigger_fit : keeps fit trigger_update.
Proof. apply modify_fit. intros z. by destruct (rd_t_triggered_interval z). Qed.

Ltac rstep := first [apply timer_on_fit | apply timer_off_fit | apply timer_runs_fit | apply trigger_fit | fstep].

Lemma timeout_update_fit r : keeps fit (rip_timeout_update r).
Proof. unfold rip_timeout_update. repeat rstep. Qed.

Lemma poison_fit r : keeps fit (poison r).
Proof. unfold poison. repeat rstep. Qed.

Lemma rip_timeout_fit r : keeps fit (rip_timeout r).
Proof. unfold rip_timeout. repeat rstep. Qed.

Lemma rip_garbage_collect_fit r : keeps fit (rip_garbage_collect r).
Proof. unfold rip_garbage_collect. repeat rstep. Qed.

Lemma table_loop_fit body fuel : (∀ r, keeps fit (body r)) → ∀ rn, keeps fit (table_loop fuel body rn).
Proof. intros Hb. induction fuel as [|fuel IH]; intros rn; destruct rn; cbn [table_loop]; repeat first [apply IH | apply Hb | rstep]. Qed.

Lemma for_routes_fit body : (∀ r, keeps fit (body r)) → keeps fit (for_routes body).
Proof. intros Hb. unfold for_routes. repeat first [by apply table_loop_fit | rstep]. Qed.

(** ** Redistribution *)

Lemma install_route_fit type sub_type rp ifindex nexthop :
  0 ≤ type < ZEBRA_ROUTE_MAX → (∀ a, nexthop = Some a → ipv4_ok a) → keeps fit (install_route type sub_type rp ifindex nexthop).
Proof.
  intros Ht Hh. unfold install_route. apply keeps_seq; [apply info_alloc_fit|intros r; repeat rstep].
  split; [done| |exact zero_addr_ok]. cbn. destruct nexthop; [by apply Hh|exact zero_addr_ok].
Qed.

Lemma rip_redistribute_add_fit type sub_type p ifindex nexthop :
  0 ≤ prefixlen p ≤ 32 → 0 ≤ type < ZEBRA_ROUTE_MAX → (∀ a, nexthop = Some a → ipv4_ok a) →
  keeps fit (rip_redistribute_add type sub_type p ifindex nexthop).
Proof.
  intros Hp Ht Hh. unfold rip_redistribute_add.
  repeat first [by apply install_route_fit | by apply tbl_fit, route_node_get_short | rstep].
Qed.

Lemma rip_redistribute_delete_fit type sub_type p ifindex : keeps fit (rip_redistribute_delete type sub_type p ifindex).
Proof. unfold rip_redistribute_delete. repeat first [apply poison_fit | rstep]. Qed.

(** ** Output *)

Section Output.
Context (rip_outgoing_filter : rip_interface → prefix → bool)
        (rip_offset_list_apply_out : interface → prefix → Z → option Z)
        (md5 : list Z → list Z) (now : Z) (c : rip_conf).

Lemma output_loop_fit body fuel : (∀ p r a, keeps fit (body p r a)) → ∀ a rn, keeps fit (output_loop fuel body a rn).
Proof. intros Hb. induction fuel as [|fuel IH]; intros a rn; destruct rn; cbn [output_loop]; repeat first [apply IH | apply Hb | rstep]. Qed.

Lemma rip_output_process_fit ri to y version :
  keeps fit (rip_output_process rip_outgoing_filter rip_offset_list_apply_out md5 now c ri to y version).
Proof.
  unfold rip_output_process. apply keeps_seq; [rstep|intros z]. apply keeps_seq; [rstep|intros rn].
  apply keeps_seq; [apply output_loop_fit|intros a; repeat rstep].
  intros p r a. unfold output_route. apply keeps_seq; [rstep|intros x]. apply keeps_seq; [rstep|intros q]. cbv zeta.
  do 3 (match goal with |- keeping _ (if ?b then _ else _) _ => destruct b end; [by apply keeping_ret|]).
  apply keeps_seq; [rstep|intros m]. match goal with |- keeping _ (match ?w with _ => _ end) _ => destruct w as [[set hop]|] end; [|rstep].
  apply keeps_seq; [rstep|intros [num s]]. repeat rstep.
Qed.

Lemma in_turn_fit {A} (f : A → M (list packet)) l : (∀ a, keeps fit (f a)) → keeps fit (in_turn f l).
Proof. intros Hf. induction l as [|a l IH]; cbn [in_turn]; repeat first [apply Hf | apply IH | rstep]. Qed.

Lemma rip_update_process_fit ris y :
  keeps fit (rip_update_process rip_outgoing_filter rip_offset_list_apply_out md5 now c ris y).
Proof.
  assert (Hif : ∀ ri version, keeps fit (rip_update_interface rip_outgoing_filter rip_offset_list_apply_out md5 now c ri version y)).
  { intros ri version. unfold rip_update_interface. destruct (_ && _); [apply rip_output_process_fit|].
    destruct (_ || _); [|by apply keeping_ret]. induction (if_connected (rif_ifp ri)) as [|cn l IH]; cbn [output_connected];
      repeat first [apply rip_output_process_fit | apply IH | rstep]. }
  unfold rip_update_process. apply keeps_seq; [apply in_turn_fit|intros ps; apply keeps_seq; [apply in_turn_fit|intros; rstep]].
  - intros ri. unfold update_interface. repeat first [apply Hif | rstep].
  - intros addr. unfold update_neighbor. repeat first [apply rip_output_process_fit | rstep].
Qed.
End Output.

(** ** Responses *)

Section Response.
Context (little_endian : bool) (ifs : list interface)
        (rip_incoming_filter : interface → prefix → bool)
        (rip_offset_list_apply_in : interface → prefix → Z → option Z)
        (rip_distance_apply : list Z → prefix → Z).

Lemma adopt_fit r p e metric from nexthop i :
  ipv4_ok from → ipv4_ok nexthop → keeps fit (adopt rip_distance_apply r p e metric from nexthop i).
Proof. intros Hf Hh. unfold adopt. repeat first [apply timeout_update_fit | rstep]. Qed.

Lemma new_route_fit rp p e metric from nexthop i :
  ipv4_ok from → ipv4_ok nexthop → keeps fit (new_route rip_distance_apply rp p e metric from nexthop i).
Proof.
  intros Hf Hh. unfold new_route. repeat first [apply timeout_update_fit | apply info_alloc_fit; by split | rstep].
Qed.

Lemma masklen_range m len : ipv4_ok m → ip_masklen m = Ok len → 0 ≤ len ≤ 32.
Proof.
  intros [Hb Hl] Hm. destruct (decide (m = replicate 4 255)) as [->|Hne]; [by vm_compute in Hm|].
  destruct (ip_masklen_run m Hb Hl Hne) as (len' & E & ?). congruence.
Qed.

Abbreviation rip_rte_process := (rip_rte_process little_endian ifs rip_incoming_filter rip_offset_list_apply_in rip_distance_apply).
Abbreviation response_entry := (response_entry little_endian ifs rip_incoming_filter rip_offset_list_apply_in rip_distance_apply).
Abbreviation response_loop := (response_loop little_endian ifs rip_incoming_filter rip_offset_list_apply_in rip_distance_apply).
Abbreviation rip_response_process := (rip_response_process little_endian ifs rip_incoming_filter rip_offset_list_apply_in rip_distance_apply).

Lemma rip_rte_process_fit e metric from i :
  ipv4_ok (rte_mask e) → ipv4_ok (rte_nexthop e) → ipv4_ok (sin_addr from) → keeps fit (rip_rte_process e metric from i).
Proof.
  intros Hm He Hf. unfold Rip.rip_rte_process.
  eapply (keeping_bind _ _ _ (λ len, 0 ≤ len ≤ 32)).
  { apply keeping_lift. intros len Hlen. exact (masklen_range _ _ Hm Hlen). }
  intros len Hlen. eapply (keeping_bind _ _ _ (λ p, 0 ≤ prefixlen p ≤ 32)).
  { apply keeping_lift. intros p. unfold apply_mask_ipv4. destruct (mask_bytes _ _ _); [|done]. by intros [= <-]. }
  intros p Hp. destruct (negb _); [by apply keeping_ret|]. cbv zeta.
  set (nexthop := if bool_decide (rte_nexthop e = zero_addr) then sin_addr from else rte_nexthop e).
  assert (Hh : ipv4_ok nexthop) by (unfold nexthop; destruct (bool_decide _); done).
  repeat first [by apply new_route_fit | by apply adopt_fit | apply timeout_update_fit | by apply tbl_fit, route_node_get_short | rstep].
Qed.

Lemma check_nexthop_fit version e :
  ipv4_ok (rte_nexthop e) →
  keeping fit (check_nexthop ifs version e) (λ o, ∀ e', o = Some e' → ∃ h, ipv4_ok h ∧ e' = set_rte_nexthop h e).
Proof.
  intros He. assert (Hsame : ∀ e', Some e = Some e' → ∃ h, ipv4_ok h ∧ e' = set_rte_nexthop h e).
  { intros e' [= <-]. exists (rte_nexthop e). by rewrite set_rte_nexthop_id. }
  unfold check_nexthop. destruct (_ && _); [|by apply keeping_ret]. destruct (IN_CLASSD _); [by apply keeping_ret|].
  apply keeps_seq; [apply keeping_any_lift|]. intros [j|]; [by apply keeping_ret|].
  apply keeps_seq; [rstep|]. intros [rn|].
  - apply keeps_seq; [rstep|]. intros n. apply keeps_seq; [rstep|]. intros r.
    eapply keeping_bind; [apply info_read_fit|]. intros x Hx. apply keeps_seq; [rstep|]. intros [].
    apply keeping_ret. intros e' [= <-]. eexists. split; [|done]. destruct (rip_route_rte x); [apply Hx|exact zero_addr_ok].
  - apply keeping_ret. intros e' [= <-]. eexists. split; [exact zero_addr_ok|done].
Qed.

Lemma response_entry_fit version first e from i :
  ipv4_ok (rte_mask e) → ipv4_ok (rte_nexthop e) → ipv4_ok (sin_addr from) → keeps fit (response_entry version first e from i).
Proof.
  intros Hm He Hf. unfold Rip.response_entry. do 3 (match goal with |- keeping _ (if ?b then _ else _) _ => destruct b end; [by apply keeping_ret|]).
  cbv zeta. do 2 (match goal with |- keeping _ (if ?b then _ else _) _ => destruct b end; [by apply keeping_ret|]).
  eapply keeping_bind; [by apply check_nexthop_fit|]. intros [e1|] He1; [|by apply keeping_ret].
  destruct (He1 e1 eq_refl) as (h & Hh & ->). destruct (guess_mask_run version e Hm) as (m & Hmok & Hguess).
  eapply (keeping_bind _ _ _ (λ e2, ipv4_ok (rte_mask e2) ∧ ipv4_ok (rte_nexthop e2))).
  { apply keeping_lift. intros e2 E. rewrite Hguess in E. by injection E as <-. }
  intros e2 [Hm2 Hh2]. destruct (_ && _ && _); [by apply keeping_ret|].
  apply rip_rte_process_fit; [destruct (_ && _ && _); [exact zero_addr_ok|done]|by destruct (_ && _ && _)|done].
Qed.

Lemma rip_response_process_fit version es from i :
  Forall (entry_ok version) es → ipv4_ok (sin_addr from) → keeps fit (rip_response_process version es from i).
Proof.
  intros Hes Hf. unfold Rip.rip_response_process. destruct (negb _); [by apply keeping_ret|].
  apply keeps_seq; [apply keeping_any_lift|]. intros [|]; [|by apply keeping_ret].
  generalize true. induction Hes as [|e es [_ Hm Hh _] _ IH]; intros first; [by apply keeping_ret|]. cbn [Rip.response_loop].
  apply keeps_seq; [by apply response_entry_fit|]. intros []. apply IH.
Qed.

(** * The daemon *)

Context (send : route_type → M unit).

(** Redistributed routes have a type zebra knows, and their nexthop is an address. *)
Definition type_fits (a : input) : Prop :=
  match a with
  | in_redistribute_add type _ _ _ nexthop => 0 ≤ type < ZEBRA_ROUTE_MAX ∧ ∀ h, nexthop = Some h → ipv4_ok h
  | _ => True
  end.

Lemma perform_fit a :
  (∀ y, keeps fit (send y)) → type_fits a → input_ok rip_offset_list_apply_in a →
  keeps fit (perform little_endian ifs rip_incoming_filter rip_offset_list_apply_in rip_distance_apply send a).
Proof.
  intros Hsend Ht Hok. assert (Hclear : keeps fit rip_clear_changed_flag) by (apply for_routes_fit; intros r; repeat rstep).
  assert (Htrig : keeps fit (rip_triggered_update send)).
  { unfold rip_triggered_update. repeat first [apply Hsend | apply Hclear | rstep]. }
  destruct a as [version es from i|r k|type sub_type p ifindex nexthop|type sub_type p ifindex|type| | |]; cbn [perform type_fits input_ok] in *.
  - destruct Hok as (? & ? & _). by apply rip_response_process_fit.
  - repeat first [apply rip_timeout_fit | apply rip_garbage_collect_fit | rstep].
  - destruct Ht, Hok as [(_ & _ & ? & _) _]. by apply rip_redistribute_add_fit.
  - apply rip_redistribute_delete_fit.
  - apply for_routes_fit. intros r. repeat first [apply poison_fit | rstep].
  - unfold rip_update. repeat first [apply Hsend | rstep].
  - repeat first [apply Htrig | rstep].
  - unfold rip_triggered_interval. repeat first [apply Htrig | rstep].
Qed.
End Response.
