(* ===== verification/RipClaims.v ===== *)
(** RIP: what the daemon guarantees, with examples. *)

From S2P Require Import Prelude Prefix Table TableFacts TableRep TableWalk TableGet TableDelete TableIter TableSpec TableView Rip RipInv RipProcess RipOps RipRun RipOutput RipFit.

Implicit Types (z : ripd) (x : rip_info) (r : nat) (p : prefix) (e : rte) (i : interface).

(** The daemon when it starts. *)
Definition rip_start : ripd := Ripd route_table_init ∅ 0 ∅ false false false [].

Lemma rip_start_inv : rip_inv rip_start.
Proof.
  assert (Ha : abs (rd_table rip_start) = ∅) by reflexivity. split; try done; cbn.
  - apply init_inv.
  - intros r [? ?]. done.
  - intros r k. split; [set_solver|]. by intros (x & ? & _).
Qed.

Lemma rip_start_locks c : locks_below c (rd_table rip_start).
Proof. intros id n Hn. cbn in Hn. done. Qed.

(** What zebra is to have of a route. *)
Definition known (o : option aroute) : option (list Z * Z) :=
  match o with Some (Learned _ nexthop metric _) => Some (nexthop, metric) | _ => None end.

Lemma known_announced o : known (seen <$> o) = o ≫= announced.
Proof.
  destruct o as [x|]; [|done]. cbn. unfold seen, announced. destruct (usable x), (rip_route_rte x); done.
Qed.

(** * The daemon *)

Section Claims.
Context (little_endian : bool)
        (rip_incoming_filter : interface → prefix → bool)
        (rip_offset_list_apply_in : interface → prefix → Z → option Z)
        (rip_distance_apply : list Z → prefix → Z).

Abbreviation input_ok := (input_ok rip_offset_list_apply_in).

Section Output.
(** The interfaces and the configuration of the output. *)
Context (rip_outgoing_filter : rip_interface → prefix → bool)
        (rip_offset_list_apply_out : interface → prefix → Z → option Z)
        (md5 : list Z → list Z) (md5_ok : ∀ bs, bytes_ok (md5 bs) ∧ length (md5 bs) = 16%nat) (now : Z)
        (c : rip_conf) (c_ok : conf_ok c) (ris : list rip_interface) (ris_ok : Forall rif_ok ris).

Definition rip_send (y : route_type) : M unit :=
  rip_update_process rip_outgoing_filter rip_offset_list_apply_out md5 now c ris y;; mret tt.

Lemma rip_send_run y z : rip_inv z → routes_fit z → locks_room (rd_table z) → rip_send y z = Ok (tt, z).
Proof.
  intros Hinv Hfit Hroom. unfold rip_send.
  destruct (rip_update_process_run rip_outgoing_filter rip_offset_list_apply_out md5 md5_ok now c c_ok ris ris_ok y z) as [ps Hrun]; try done.
  by rewrite (st_bind_Ok _ _ _ _ _ Hrun).
Qed.

Abbreviation ifs := (rif_ifp <$> ris).
Abbreviation run := (run little_endian ifs rip_incoming_filter rip_offset_list_apply_in rip_distance_apply rip_send).

(** The output keeps the state, with the routes that are fit for it. *)
Lemma rip_send_ok :
  output_ok little_endian ifs rip_incoming_filter rip_offset_list_apply_in rip_distance_apply rip_send routes_fit type_fits.
Proof.
  split.
  - apply rip_send_run.
  - intros z tr tu ti []. by split.
  - intros a z z' Hf Hok Hrun Hinv Hfit.
    refine (proj1 (perform_fit little_endian ifs rip_incoming_filter rip_offset_list_apply_in rip_distance_apply rip_send a _ Hf Hok z tt z' Hrun Hfit)).
    intros y. unfold rip_send. apply keeps_seq; [apply rip_update_process_fit|]. intros. by apply keeping_ret.
Qed.

(** C9: Whatever responses arrive, timers run off, updates are sent, and routes are
    redistributed or withdrawn, in whatever order, within the limits below, ripd meets
    no fault (no freed route or node is used, no lock counter is broken, no walk runs
    on, nothing is written outside of the buffer of the output) and keeps its
    invariant: a node has at most one route, which points back at it; a route is
    poisoned exactly while its garbage collection is pending; a received route that is
    usable has its timeout pending; and no other timer is.  The limits: the entries of
    a response are for networks (for a host, of length 32, ip_masklen reads past the
    mask, [entry_ok]); senders are addresses other than 0; offset lists do not lower a
    metric and interface metrics are less than 2^31 ([policy_ok]); redistributed routes
    are for IPv4 prefixes, not of the kind ripd learns, and of a type below
    ZEBRA_ROUTE_MAX; there are fewer than 2^32 - 2 entries and redistributions, each of
    which can leave a lock behind; addresses of interfaces have a destination
    ([rif_ok]).  Filters, offset lists, distances, route maps and the MD5 digest are
    functions here, which cannot fault; requests are not an input. *)
Theorem ripd_runs l :
  Forall input_ok l → Forall type_fits l → total l < 2^32 - 2 → ∃ z', run l rip_start = Ok (tt, z') ∧ rip_inv z'.
Proof.
  intros Hl Hf Ht. destruct (run_safe little_endian ifs rip_incoming_filter rip_offset_list_apply_in rip_distance_apply rip_send
    routes_fit type_fits l rip_send_ok) with (z := rip_start) as (z' & Hrun & Hinv & _);
    [|apply rip_start_inv|by split|done|done|done|apply rip_start_locks|by exists z'].
  apply Forall_fmap. eapply Forall_impl; [exact ris_ok|]. by intros ri [].
Qed.
End Output.

Section Zebra.
(** Any output that leaves the state alone, as that of ripd does ([rip_send_ok]). *)
Context (ifs : list interface) (ifs_ok : Forall interface_ok ifs)
        (send : route_type → M unit) (K : ripd → Prop) (fits : input → Prop).
Context (send_ok : output_ok little_endian ifs rip_incoming_filter rip_offset_list_apply_in rip_distance_apply send K fits)
        (start_ok : K rip_start).

Abbreviation run := (run little_endian ifs rip_incoming_filter rip_offset_list_apply_in rip_distance_apply send).

(** C11: After any such history zebra has been told exactly the routes that were received
    and are usable, each with its present nexthop and metric. *)
Theorem ripd_zebra_in_step l z' :
  Forall input_ok l → Forall fits l → total l < 2^32 - 2 → run l rip_start = Ok (tt, z') →
  ∀ key, zebra_view (rd_log z') !! key = known (seen <$> route_at z' key).
Proof.
  intros Hl Hf Ht Hr. destruct (run_safe little_endian ifs rip_incoming_filter rip_offset_list_apply_in rip_distance_apply send
    K fits l send_ok ifs_ok rip_start) as (z2 & Hrun & Hinv & _); [apply rip_start_inv|done|done|done|done|apply rip_start_locks|].
  rewrite Hr in Hrun. injection Hrun as <-. intros key. rewrite known_announced. apply Hinv.
Qed.
End Zebra.
End Claims.

(** * Routes *)

(** The timers that run for a route: the timeout of a usable received one, the garbage
    collection of an unreachable one. *)
Lemma pending_seen z r x :
  rip_inv z → rd_infos z !! r = Some x →
  ((r, Timeout) ∈ rd_pending z ↔ ∃ from nexthop metric tag, seen x = Learned from nexthop metric tag) ∧
  ((r, Garbage) ∈ rd_pending z ↔ seen x = Unreachable).
Proof.
  intros Hinv Hx. pose proof (rv_ok _ Hinv _ _ Hx) as Hok.
  assert (Hp : ∀ k, (r, k) ∈ rd_pending z ↔ timer_of k x = true).
  { intros k. rewrite (rv_pending _ Hinv). split; [|by exists x]. intros (y & Hy & ?). by simplify_eq. }
  rewrite !Hp. cbn. rewrite (ro_timeout _ Hok), (ro_garbage _ Hok). unfold seen.
  destruct (usable x), (rip_route_rte x); naive_solver.
Qed.

(** C10: on a state in order with room in the lock counters, for an entry for a network
    (its mask is not of all ones, on which ip_masklen reads out of bounds) whose metric
    with the cost of the network is at least 1, and which names no nexthop or a tag that
    reads the same in both byte orders (see [tag_change_missed]): rip_rte_process meets no
    fault and decides on the entry by the rule of RFC 2453.  A route that passes the filters
    replaces the one there is when there is none or it is unreachable, when it comes from
    the same router, or when its metric is lower; an infinite metric makes the route
    unreachable; a local route stays; no other prefix is touched.  When the entry of the
    table changes at all, the route is marked as changed and a triggered update is due.
    Afterwards the timeout is pending exactly for a usable received route, and garbage
    collection exactly for an unreachable one.  (Timers have no times here: that a timeout
    which is pending starts again cannot be told apart.) *)
Theorem rip_rte_process_rfc2453 little_endian ifs rip_incoming_filter rip_offset_list_apply_in rip_distance_apply z e metric from i len p :
  rip_inv z → locks_room (rd_table z) → ip_masklen (rte_mask e) = Ok len → 0 ≤ len ≤ 32 → ipv4_ok (rte_prefix e) →
  apply_mask_ipv4 (entry_prefix e len) = Ok p → sin_addr from ≠ zero_addr → 1 ≤ added_metric rip_offset_list_apply_in i p metric →
  rte_nexthop e = zero_addr ∨ load16 little_endian (rte_tag e) = ntohs (rte_tag e) →
  ∃ z', rip_rte_process little_endian ifs rip_incoming_filter rip_offset_list_apply_in rip_distance_apply e metric from i z = Ok (tt, z') ∧
    rip_inv z' ∧
    seen <$> route_at z' (pbits p) =
      (if accepted ifs rip_incoming_filter e p from i
       then rfc_update (seen <$> route_at z (pbits p)) (sin_addr from) (hop_in e from)
              (added_metric rip_offset_list_apply_in i p metric) (ntohs (rte_tag e))
       else seen <$> route_at z (pbits p)) ∧
    (route_at z' (pbits p) = route_at z (pbits p) ∨
     ∃ x, route_at z' (pbits p) = Some x ∧ change_marked x = true ∧ update_due z' = true) ∧
    (∀ r x, abs (rd_table z') !! pbits p = Some r → rd_infos z' !! r = Some x →
       ((r, Timeout) ∈ rd_pending z' ↔ ∃ from nexthop metric tag, seen x = Learned from nexthop metric tag) ∧
       ((r, Garbage) ∈ rd_pending z' ↔ seen x = Unreachable)) ∧
    (∀ key, key ≠ pbits p → route_at z' key = route_at z key).
Proof.
  intros Hinv Hroom Hlen H32 Hpre Hp Hfrom Hm Htag.
  destruct (rip_rte_process_run little_endian ifs rip_incoming_filter rip_offset_list_apply_in rip_distance_apply z e metric from i len p)
    as (o & z' & Hrun & [Hinv' Hat Hoth] & Hseen & Hmark & _); try done.
  exists z'. split_and!; try done; [rewrite Hat; by apply Hseen|by rewrite Hat|]. intros r x _. by apply pending_seen.
Qed.

(** C36: A received route that is not refreshed goes away: its timeout makes it unreachable
    and withdraws it from zebra, its garbage collection takes it out of the table, and the
    other routes stay. *)
Theorem rip_route_expires z key r x from nexthop metric tag :
  rip_inv z → abs (rd_table z) !! key = Some r → rd_infos z !! r = Some x → seen x = Learned from nexthop metric tag →
  ∃ z1 z2, rip_timeout r z = Ok (tt, z1) ∧ seen <$> route_at z1 key = Some Unreachable ∧ zebra_view (rd_log z1) !! key = None ∧
    rip_garbage_collect r z1 = Ok (tt, z2) ∧ rip_inv z2 ∧ route_at z2 key = None ∧
    (∀ j, j ≠ key → route_at z2 j = route_at z j) ∧ rd_infos z2 !! r = None.
Proof.
  intros Hinv Ha Hx Hs.
  assert (Hp : (r, Timeout) ∈ rd_pending z).
  { apply (rv_pending _ Hinv). exists x. split; [done|]. cbn. rewrite (ro_timeout _ (rv_ok _ Hinv _ _ Hx)).
    unfold seen in Hs. destruct (usable x), (rip_route_rte x); done. }
  destruct (rip_timeout_run z r Hinv Hp) as (key1 & y & x1 & z1 & Hrun1 & [Ha1 _] & Hmv1 & _ & Hs1 & Hp1 & Ht1).
  assert (key1 = key) as -> by (by eapply abs_key_inj).
  destruct (rip_garbage_collect_run z1 r (mv_inv _ _ _ _ Hmv1) Hp1) as (key2 & y2 & z2 & Hrun2 & [Ha2 _] & Hmv2 & _ & Hgone & _).
  assert (key2 = key) as -> by (rewrite Ht1 in Ha2; by eapply abs_key_inj).
  exists z1, z2. split_and!; try done.
  - rewrite (mv_at _ _ _ _ Hmv1). cbn. by rewrite Hs1.
  - rewrite (rv_zebra _ (mv_inv _ _ _ _ Hmv1)), <- known_announced, (mv_at _ _ _ _ Hmv1). cbn. by rewrite Hs1.
  - apply Hmv2.
  - apply Hmv2.
  - intros j Hj. by rewrite (mv_other _ _ _ _ Hmv2), (mv_other _ _ _ _ Hmv1).
Qed.

(** * Departures *)

(** rip_redistribute_delete does not release the lock of its lookup: each call for a
    prefix that has a route, whether it is poisoned or left, raises the counter of the
    node, which garbage collection then does not free. *)
Theorem rip_redistribute_delete_leaks z type sub_type p ifindex x :
  rip_inv z → locks_room (rd_table z) → ipv4_prefix p → (type =? ZEBRA_ROUTE_RIP) && (sub_type =? RIP_ROUTE_RTE) = false →
  rip_destination_check (addr_of p) = true → route_at z (pbits p) = Some x →
  ∃ z', rip_redistribute_delete type sub_type p ifindex z = Ok (tt, z') ∧
    lock_at (rd_table z') (ri_rp x) = lock_at (rd_table z) (ri_rp x) + 1 ∧
    route_at z' (pbits p) = Some (if redistributed type sub_type ifindex x then poisoned x else x).
Proof.
  intros Hinv Hroom Hp Hr Hd Hx.
  destruct (rip_redistribute_delete_run z type sub_type p ifindex) as (o & z' & Hrun & Hmv & Ho & _ & Hlock); try done.
  exists z'. split_and!; [done|by apply Hlock|]. rewrite (mv_at _ _ _ _ Hmv), Ho, Hd, Hx. done.
Qed.

(** A refresh of a received route whose entry names no nexthop, which is what a router
    sends in the common case, is always adopted, even when nothing has changed: the test
    compares the nexthop of the entry, 0, and not the one that it stands for, with that of
    the route.  So zebra is told again and an update is triggered. *)
Theorem refresh_always_adopted little_endian x metric e :
  route_ok x → rip_route_rte x = true → rte_nexthop e = zero_addr → adopts little_endian true x metric e = true.
Proof.
  intros Hok Hr He. unfold adopts. rewrite bool_decide_eq_false_2; [by rewrite orb_true_r|].
  rewrite He. intros E. by apply (ro_rte _ Hok Hr).
Qed.

(** The tag of the entry is compared before its octets are put in order: on a
    little-endian machine a change of the tag from 1 to 256 is not adopted. *)
Definition ex_tagged : rip_info :=
  RipInfo ZEBRA_ROUTE_RIP RIP_ROUTE_RTE [10; 0; 0; 9] [10; 0; 0; 2] 1 2 1 0 true false 1%positive 0.
Definition ex_retag : rte := Rte [0; 2] [1; 0] [192; 168; 1; 0] [255; 255; 255; 0] [10; 0; 0; 9] [0; 0; 0; 1].

Example tag_change_missed :
  ri_tag ex_tagged ≠ ntohs (rte_tag ex_retag) ∧ adopts true true ex_tagged 2 ex_retag = false ∧ adopts false true ex_tagged 2 ex_retag = true.
Proof. by vm_compute. Qed.

(** * Examples *)

Definition ex_if : interface := Interface 1 1 false [Connected (Prefix AF_INET 24 ([10; 0; 0; 1] ++ replicate 12 0))
  (Some (Prefix AF_INET 24 ([10; 0; 0; 255] ++ replicate 12 0)))].
Definition ex_from : sockaddr_in := Sockaddr [10; 0; 0; 2] 520.
Definition ex_entry : rte := Rte [0; 2] [0; 0] [192; 168; 1; 0] [255; 255; 255; 0] zero_addr [0; 0; 0; 1].
Definition ex_net (b : Z) : prefix := Prefix AF_INET 24 ([172; 16; b; 0] ++ replicate 4 0).

(** The interface has a password; a neighbor is configured. *)
Definition ex_rif : rip_interface :=
  RipInterface ex_if false true true true false true RI_RIP_UNSPEC RIP_AUTH_SIMPLE_PASSWORD (Some [122; 101; 98]) None false.
Definition ex_conf : rip_conf := RipConf RIPv2 1 (replicate 9 (Redistribution None None)) [[10; 0; 0; 9]].
Definition ex_send : route_type → M unit := rip_send (λ _ _, true) (λ _ _ _, None) (λ _, replicate 16 0) 0 ex_conf [ex_rif].

Lemma ex_md5_ok (bs : list Z) : bytes_ok (replicate 16 0) ∧ length (replicate 16 0) = 16%nat.
Proof. split; [by apply bytes_ok_decide|done]. Qed.

Lemma ex_conf_ok : conf_ok ex_conf.
Proof.
  split; [done| |].
  - intros m f p x set hop Hm Hf _. apply elem_of_replicate in Hm as [-> _]. done.
  - apply Forall_singleton. split; [by apply bytes_ok_decide|done].
Qed.

Definition ex_run : list input → M unit := run true [ex_if] (λ _ _, true) (λ _ _ _, None) (λ _ _, 0) ex_send.
Definition ex_after (l : list input) : ripd := match ex_run l rip_start with Ok (_, z) => z | Fail _ => rip_start end.

Definition ex_heard : list input := [in_response 2 [ex_entry] ex_from ex_if; in_redistribute_add 2 3 (ex_net 5) 1 None].
Definition ex_inputs : list input :=
  ex_heard ++ [in_triggered_update; in_update; in_timer 0 Timeout; in_triggered_interval; in_redistribute_delete 2 3 (ex_net 5) 1; in_withdraw 2;
    in_timer 0 Garbage; in_response 2 [ex_entry] ex_from ex_if].

Lemma ex_net_ok b : is_u8 b → ipv4_prefix (ex_net b).
Proof. intros Hb. split_and!; try done. cbn. unfold bytes_ok. rewrite !Forall_cons. split_and!; try done. Qed.

Lemma ex_ifs_ok : Forall interface_ok [ex_if].
Proof.
  apply Forall_singleton, Forall_singleton. intros _. split_and!; [by left|by apply bytes_ok_decide|cbn; lia..].
Qed.

Lemma ex_response_ok : input_ok (λ _ _ _, None) (in_response 2 [ex_entry] ex_from ex_if).
Proof.
  assert (H4 : ∀ a, bool_decide (bytes_ok a ∧ length a = 4%nat) = true → ipv4_ok a) by (intros a H; by apply bool_decide_eq_true in H).
  split_and!; [|by apply H4|done|intros p m _; cbn; lia]. apply Forall_singleton. split; [by apply H4..|].
  intros e' He. vm_compute in He. injection He as <-. done.
Qed.

Lemma ex_inputs_ok : Forall (input_ok (λ _ _ _, None)) ex_inputs.
Proof.
  pose proof ex_response_ok as Hr. assert (Hn : ipv4_prefix (ex_net 5)) by (by apply ex_net_ok).
  unfold ex_inputs, ex_heard. cbn [app]. repeat apply Forall_cons_2; try exact Hr; try exact I.
  - split; [exact Hn|reflexivity].
  - split; [exact Hn|reflexivity].
  - discriminate.
  - constructor.
Qed.

Lemma ex_rifs_ok : Forall rif_ok [ex_rif].
Proof.
  pose proof (proj1 (Forall_singleton _ _) ex_ifs_ok) as H. apply Forall_singleton. split; [exact H| |].
  - split; [|done]. intros str [= <-]. by apply bytes_ok_decide.
  - apply Forall_singleton. by eexists.
Qed.

Lemma ex_fits : Forall type_fits ex_inputs.
Proof. unfold ex_inputs, ex_heard. cbn [app]. repeat apply Forall_cons_2; try exact I; [|constructor]. done. Qed.

Lemma ex_send_ok : output_ok true [ex_if] (λ _ _, true) (λ _ _ _, None) (λ _ _, 0) ex_send routes_fit type_fits.
Proof. exact (rip_send_ok true _ _ _ _ _ _ ex_md5_ok 0 ex_conf ex_conf_ok [ex_rif] ex_rifs_ok). Qed.

Lemma ex_total l : total l = 2 → total l < 2^32 - 2.
Proof. lia. Qed.

Definition ex_heard_state : ripd := Eval vm_compute in ex_after ex_heard.

Lemma ex_heard_inv : rip_inv ex_heard_state.
Proof.
  destruct (run_safe true [ex_if] (λ _ _, true) (λ _ _ _, None) (λ _ _, 0) ex_send routes_fit type_fits ex_heard ex_send_ok ex_ifs_ok rip_start)
    as (z & Hrun & Hinv & _); [apply rip_start_inv|by split| | |done|apply rip_start_locks|].
  - pose proof ex_fits as H. unfold ex_inputs in H. by apply Forall_app in H as [H _].
  - pose proof ex_inputs_ok as H. unfold ex_inputs in H. by apply Forall_app in H as [H _].
  - assert (ex_run ex_heard rip_start = Ok (tt, ex_heard_state)) as E by (vm_compute; reflexivity). unfold ex_run in E. rewrite Hrun in E. by injection E as <-.
Qed.

(** What an update then sends: the password and the two routes to the group, and the two
    routes, without a password, to the neighbor. *)
Example ex_packets :
  (λ o, o.1) <$> rip_update_process (λ _ _, true) (λ _ _ _, None) (λ _, replicate 16 0) 0 ex_conf [ex_rif] rip_all_route ex_heard_state =
  Ok [Packet None ([2; 2; 0; 0] ++ [255; 255; 0; 2] ++ [122; 101; 98] ++ replicate 13 0 ++
        [0; 2; 0; 0; 172; 16; 5; 0; 255; 255; 255; 0; 0; 0; 0; 0; 0; 0; 0; 1] ++
        [0; 2; 0; 0; 192; 168; 1; 0; 255; 255; 255; 0; 0; 0; 0; 0; 0; 0; 0; 2]);
      Packet (Some [10; 0; 0; 9]) ([2; 2; 0; 0] ++
        [0; 2; 0; 0; 172; 16; 5; 0; 255; 255; 255; 0; 0; 0; 0; 0; 0; 0; 0; 1] ++
        [0; 2; 0; 0; 192; 168; 1; 0; 255; 255; 255; 0; 0; 0; 0; 0; 0; 0; 0; 2])].
Proof. by vm_compute. Qed.

Lemma ripd_runs_witness :
  ∃ z', ex_run ex_inputs rip_start = Ok (tt, z') ∧ rip_inv z'.
Proof.
  apply (ripd_runs true (λ _ _, true) (λ _ _ _, None) (λ _ _, 0) (λ _ _, true) (λ _ _ _, None) (λ _, replicate 16 0) ex_md5_ok 0
    ex_conf ex_conf_ok [ex_rif] ex_rifs_ok ex_inputs ex_inputs_ok ex_fits). by vm_compute.
Defined.

Definition ex_end : ripd := Eval vm_compute in ex_after ex_inputs.

(** The route is there at first, then poisoned and withdrawn, and then heard again. *)
Example ex_end_log : length (rd_log ex_end) = 3%nat ∧ size (zebra_view (rd_log ex_end)) = 1%nat.
Proof. by vm_compute. Qed.

(** The same router now says that the net is one hop further away. *)
Definition ex_worse : rte := set_rte_metric [0; 0; 0; 2] ex_entry.
Definition ex_p : prefix := Prefix AF_INET 24 ([192; 168; 1; 0] ++ replicate 4 0).

Lemma ex_heard_room : locks_room (rd_table ex_heard_state).
Proof. apply locks_room_decide. by vm_compute. Qed.

Lemma rip_rte_process_rfc2453_witness :
  ∃ z', rip_rte_process true [ex_if] (λ _ _, true) (λ _ _ _, None) (λ _ _, 0) ex_worse 2 ex_from ex_if ex_heard_state = Ok (tt, z') ∧
    seen <$> route_at ex_heard_state (pbits ex_p) = Some (Learned [10; 0; 0; 2] [10; 0; 0; 2] 2 0) ∧
    seen <$> route_at z' (pbits ex_p) = Some (Learned [10; 0; 0; 2] [10; 0; 0; 2] 3 0).
Proof.
  destruct (rip_rte_process_rfc2453 true [ex_if] (λ _ _, true) (λ _ _ _, None) (λ _ _, 0) ex_heard_state ex_worse 2 ex_from ex_if 24 ex_p)
    as (z' & Hrun & _ & Hseen & _ & _);
    [apply ex_heard_inv|apply ex_heard_room|by vm_compute|lia|split; [by apply bytes_ok_decide|done]|by vm_compute|done|by vm_compute|by left|].
  exists z'. split_and!; [exact Hrun|by vm_compute|]. rewrite Hseen. by vm_compute.
Defined.

Definition ex_key : list bool := Eval vm_compute in pbits ex_p.
Definition ex_route : rip_info := Eval vm_compute in default rip_info_new (rd_infos ex_heard_state !! 0%nat).

Lemma ripd_zebra_in_step_witness :
  zebra_view (rd_log ex_end) !! ex_key = known (seen <$> route_at ex_end ex_key) ∧
  zebra_view (rd_log ex_end) !! ex_key = Some ([10; 0; 0; 2], 2).
Proof.
  split; [|by vm_compute].
  apply (ripd_zebra_in_step true (λ _ _, true) (λ _ _ _, None) (λ _ _, 0) [ex_if] ex_ifs_ok ex_send routes_fit type_fits ex_send_ok
    ltac:(by split) ex_inputs ex_end ex_inputs_ok ex_fits); [by vm_compute|vm_compute; reflexivity].
Defined.

Lemma rip_route_expires_witness :
  ∃ z1 z2, rip_timeout 0 ex_heard_state = Ok (tt, z1) ∧ rip_garbage_collect 0 z1 = Ok (tt, z2) ∧ route_at z2 ex_key = None.
Proof.
  destruct (rip_route_expires ex_heard_state ex_key 0 ex_route [10; 0; 0; 2] [10; 0; 0; 2] 2 0)
    as (z1 & z2 & H1 & _ & _ & H2 & _ & H3 & _); [apply ex_heard_inv|by vm_compute..|].
  exists z1, z2. exact (conj H1 (conj H2 H3)).
Defined.

Definition ex_local : rip_info := Eval vm_compute in default rip_info_new (rd_infos ex_heard_state !! 1%nat).

Lemma rip_redistribute_delete_leaks_witness :
  ∃ z', rip_redistribute_delete 2 3 (ex_net 5) 1 ex_heard_state = Ok (tt, z') ∧
    lock_at (rd_table ex_heard_state) (ri_rp ex_local) = 1 ∧ lock_at (rd_table z') (ri_rp ex_local) = 2.
Proof.
  destruct (rip_redistribute_delete_leaks ex_heard_state 2 3 (ex_net 5) 1 ex_local) as (z' & Hrun & Hl & _);
    [apply ex_heard_inv|apply ex_heard_room|by apply ex_net_ok|by vm_compute..|].
  exists z'. split_and!; [exact Hrun|by vm_compute|]. rewrite Hl. by vm_compute.
Defined.

Lemma refresh_always_adopted_witness : adopts true true ex_route 2 ex_entry = true.
Proof. apply refresh_always_adopted; [by apply (rv_ok _ ex_heard_inv 0)|by vm_compute..]. Defined.
