(* ===== verification/RipZebra.v ===== *)
(** ripd and zebra: ripd/rip_zebra.c.  The routes ripd sends to zebra, and the routes
    zebra redistributes to ripd, through the messages of lib/zclient.c. *)

From stdpp Require Import strings.
From S2P Require Import Prelude Prefix Table TableView Stream StreamCalc Rib Zapi ZapiFacts ZapiRib.
From S2P Require Import RibState Rip RipClaims.

Definition RIP_ROUTE_REDISTRIBUTE : Z := 3.
Definition ZEBRA_RIP_DISTANCE_DEFAULT : Z := 120.

(** * ripd to zebra *)

(** The [api] rip_zebra_ipv4_add fills in; the distance of a message without one is
    not read. *)
Definition rip_add_api (nexthop : list Z) (metric distance : Z) : zapi_ipv4 :=
  let message := SET_FLAG (SET_FLAG 0 ZAPI_MESSAGE_NEXTHOP) ZAPI_MESSAGE_METRIC in
  let with_distance := negb (distance =? 0) && negb (distance =? ZEBRA_RIP_DISTANCE_DEFAULT) in
  ZapiIpv4 ZEBRA_ROUTE_RIP 0 (if with_distance then SET_FLAG message ZAPI_MESSAGE_DISTANCE else message)
    1 [nexthop] 0 [] (if with_distance then distance else 0) metric.

Definition rip_delete_api (nexthop : list Z) (metric : Z) : zapi_ipv4 :=
  ZapiIpv4 ZEBRA_ROUTE_RIP 0 (SET_FLAG (SET_FLAG 0 ZAPI_MESSAGE_NEXTHOP) ZAPI_MESSAGE_METRIC)
    1 [nexthop] 0 [] 0 metric.

(** The message for an entry of ripd's log of calls; [redist] is
    [zclient->redist[ZEBRA_ROUTE_RIP]].  [None] when nothing is sent. *)
Definition rip_zebra_ipv4 (redist : bool) (m : zmessage) : ST stream (option (list Z)) :=
  if redist then
    match m with
    | zebra_add p nexthop metric distance =>
        bs ← zapi_ipv4_add p (rip_add_api nexthop metric distance); mret (Some bs)
    | zebra_delete p nexthop metric =>
        bs ← zapi_ipv4_delete p (rip_delete_api nexthop metric); mret (Some bs)
    end
  else mret None.

(** * zebra to ripd *)

(** What rip_zebra_read_ipv4 reads: the type, the prefix, the interface index and the
    nexthop. *)
Definition rip_zebra_read : ST stream (Z * prefix * Z * list Z) :=
  type ← stream_getc;
  flags ← stream_getc;
  message ← stream_getc;
  p ← get_prefix_ipv4;
  nexthop ← (if CHECK_FLAG message ZAPI_MESSAGE_NEXTHOP then
               nexthop_num ← stream_getc; stream_get_ipv4
             else mret (replicate 4 0));
  ifindex ← (if CHECK_FLAG message ZAPI_MESSAGE_IFINDEX then
               ifindex_num ← stream_getc; stream_getl
             else mret 0);
  distance ← (if CHECK_FLAG message ZAPI_MESSAGE_DISTANCE then stream_getc else mret 0);
  metric ← (if CHECK_FLAG message ZAPI_MESSAGE_METRIC then stream_getl else mret 0);
  mret (type, p, ifindex, nexthop).

Definition rip_zebra_read_ipv4 (command : Z) (s : stream) : ST ripd unit := λ z,
  '(type, p, ifindex, nexthop, _) ← rip_zebra_read s;
  if command =? ZEBRA_IPV4_ROUTE_ADD
  then rip_redistribute_add type RIP_ROUTE_REDISTRIBUTE p ifindex (Some nexthop) z
  else rip_redistribute_delete type RIP_ROUTE_REDISTRIBUTE p ifindex z.

(** * What ripd sends *)

Lemma rip_add_api_ok nexthop metric distance :
  ipv4_ok nexthop → is_u32 metric → is_u8 distance → zapi_ok (rip_add_api nexthop metric distance).
Proof.
  intros Hn Hm Hd. unfold rip_add_api. split; cbn; try done.
  - destruct (negb (distance =? 0) && negb (distance =? ZEBRA_RIP_DISTANCE_DEFAULT)); done.
  - by apply Forall_singleton.
  - by destruct (negb (distance =? 0) && negb (distance =? ZEBRA_RIP_DISTANCE_DEFAULT)).
Qed.

Lemma rip_delete_api_ok nexthop metric :
  ipv4_ok nexthop → is_u32 metric → zapi_ok (rip_delete_api nexthop metric).
Proof. intros Hn Hm. unfold rip_delete_api. split; cbn; try done. by apply Forall_singleton. Qed.

(** zebra installs the route of ripd with the default distance when ripd sends none. *)
Lemma rip_route_distance nexthop metric distance :
  let api := rip_add_api nexthop metric distance in
  let dist := if CHECK_FLAG (za_message api) ZAPI_MESSAGE_DISTANCE then za_distance api else 0 in
  default_distance (za_type api) (za_flags api) dist =
    Ok (if distance =? 0 then ZEBRA_RIP_DISTANCE_DEFAULT else distance).
Proof.
  cbv zeta. unfold rip_add_api. cbn [za_message za_distance za_type za_flags].
  destruct (Z.eqb_spec distance 0) as [->|H0]; [done|].
  destruct (Z.eqb_spec distance ZEBRA_RIP_DISTANCE_DEFAULT) as [->|H1]; [done|].
  cbn [negb andb]. change (CHECK_FLAG _ ZAPI_MESSAGE_DISTANCE) with true. cbv iota.
  unfold default_distance. by rewrite (proj2 (Z.eqb_neq _ _)) by done.
Qed.

(** * What zebra sends *)

(** The first nexthop in the forwarding table. *)
Fixpoint first_fib (nhs : list nexthop) : option nexthop :=
  match nhs with
  | [] => None
  | nh :: nhs => if CHECK_FLAG (nh_flags nh) NEXTHOP_FLAG_FIB then Some nh else first_fib nhs
  end.

Definition hop_bytes (gate : nexthop → bool) (nhs : list nexthop) : list Z :=
  match first_fib nhs with
  | Some nh => [1] ++ (if gate nh then nh_gate nh else replicate 4 0) ++ [1] ++ be32 (nh_ifindex nh)
  | None => []
  end.

Lemma writes_first_fib gate nhs :
  Forall (λ nh, ipv4_ok (nh_gate nh)) nhs → writes (put_first_fib gate nhs) (hop_bytes gate nhs).
Proof.
  unfold hop_bytes. induction 1 as [|nh nhs [Hb Hl] _ IH]; [apply writes_ret|]. cbn [put_first_fib first_fib].
  destruct (CHECK_FLAG (nh_flags nh) NEXTHOP_FLAG_FIB); [|done].
  apply writes_bind; [by apply writes_putc|]. intros _. apply writes_bind.
  { destruct (gate nh); apply writes_put_in_addr; try done. by apply bytes_ok_decide. }
  intros _. apply writes_bind; [by apply writes_putc|]. intros _.
  rewrite <- (app_nil_r (be32 _)). apply writes_bind; [apply writes_putl|]. intros _. apply writes_ret.
Qed.

Definition zsend_bytes (message : Z) (gate : nexthop → bool) (metric : bool) (p : prefix) (x : rib) : list Z :=
  [r_type x; r_flags x; message] ++ prefix_bytes p ++ hop_bytes gate (r_nexthops x) ++
  (if metric then be32 (r_metric x) else []).

Lemma writes_zsend command message gate metric p x :
  is_u8 command → is_u8 message → ipv4_prefix p → is_u8 (r_type x) → is_u8 (r_flags x) →
  Forall (λ nh, ipv4_ok (nh_gate nh)) (r_nexthops x) →
  writes (zsend_route command message gate metric p x) (command :: zsend_bytes message gate metric p x).
Proof.
  intros Hc Hm Hp Ht Hf Hn. unfold zsend_route, zsend_bytes.
  wstep command. wstep (r_type x). wstep (r_flags x). wstep message.
  apply writes_prefix; [done|]. apply writes_bind; [by apply writes_first_fib|]. intros _.
  apply writes_when. intros _. apply writes_putl.
Qed.

(** ripd reads the gateway and the interface of that nexthop. *)
Lemma reads_zsend message gate metric p x nh :
  ipv4_prefix p → ipv4_ok (nh_gate nh) → is_u32 (nh_ifindex nh) → is_u32 (r_metric x) →
  first_fib (r_nexthops x) = Some nh →
  CHECK_FLAG message ZAPI_MESSAGE_NEXTHOP = true → CHECK_FLAG message ZAPI_MESSAGE_IFINDEX = true →
  CHECK_FLAG message ZAPI_MESSAGE_DISTANCE = false → CHECK_FLAG message ZAPI_MESSAGE_METRIC = metric →
  reads rip_zebra_read (zsend_bytes message gate metric p x)
    (r_type x, sent_prefix p, nh_ifindex nh, if gate nh then nh_gate nh else replicate 4 0).
Proof.
  intros Hp Hg Hi Hme Hfib Hf1 Hf2 Hf3 Hf4. unfold rip_zebra_read, zsend_bytes, hop_bytes. rewrite Hfib.
  apply (reads_bind _ _ [r_type x] _ (r_type x)); [apply reads_getc|].
  apply (reads_bind _ _ [r_flags x] _ (r_flags x)); [apply reads_getc|].
  apply (reads_bind _ _ [message] _ message); [apply reads_getc|].
  apply (reads_bind _ _ _ _ (sent_prefix p)); [by apply reads_prefix|].
  rewrite Hf1, Hf2, Hf3, Hf4.
  set (a := if gate nh then nh_gate nh else replicate 4 0).
  assert (length a = 4%nat) as Ha by (unfold a; destruct (gate nh); [apply Hg|done]).
  rewrite (app_assoc [1] a), <- (app_assoc ([1] ++ a)).
  apply (reads_bind _ _ ([1] ++ a) _ a).
  { apply (reads_bind _ _ [1] _ 1); [apply reads_getc|]. by apply reads_get_ipv4. }
  apply (reads_bind _ _ ([1] ++ be32 (nh_ifindex nh)) _ (nh_ifindex nh)).
  { apply (reads_bind _ _ [1] _ 1); [apply reads_getc|]. by apply reads_getl. }
  apply (reads_bind _ _ [] _ 0); [apply reads_ret|].
  rewrite <- (app_nil_r (if metric then _ else _)).
  apply (reads_bind _ _ _ _ (if metric then r_metric x else 0)); [|apply reads_ret].
  apply reads_flag. intros _. by apply reads_getl.
Qed.

Lemma hop_bytes_ok gate nhs : Forall (λ nh, ipv4_ok (nh_gate nh)) nhs → bytes_ok (hop_bytes gate nhs).
Proof.
  intros Hn. unfold hop_bytes. destruct (first_fib nhs) as [nh|] eqn:Hfib; [|constructor].
  assert (ipv4_ok (nh_gate nh)) as [Hb _].
  { clear - Hn Hfib. induction Hn as [|y l Hy _ IH]; [done|]. cbn in Hfib.
    destruct (CHECK_FLAG _ _); [by simplify_eq|auto]. }
  constructor; [done|]. apply Forall_app. split; [destruct (gate nh); [done|by apply bytes_ok_decide]|].
  constructor; [done|apply be_bytes_ok32].
Qed.

(** The routes zebra redistributes: the members of the structure are as wide as the C
    types, and one nexthop is in the forwarding table. *)
Record sendable (p : prefix) (x : rib) (nh : nexthop) : Prop := Sendable {
  sb_prefix : ipv4_prefix p;
  sb_type : is_u8 (r_type x);
  sb_flags : is_u8 (r_flags x);
  sb_metric : is_u32 (r_metric x);
  sb_nexthops : Forall (λ nh, ipv4_ok (nh_gate nh) ∧ is_u32 (nh_ifindex nh)) (r_nexthops x);
  sb_fib : first_fib (r_nexthops x) = Some nh;
}.

Lemma first_fib_in nhs nh : first_fib nhs = Some nh → nh ∈ nhs.
Proof.
  induction nhs as [|y l IH]; [done|]. cbn. destruct (CHECK_FLAG _ _); [|set_solver].
  intros [= ->]. left.
Qed.

(** What zebra writes reaches the reader of ripd, in any pieces. *)
Lemma zsend_delivered command message gate metric p x nh obuf ibuf :
  sendable p x nh → is_u8 command → is_u8 message →
  CHECK_FLAG message ZAPI_MESSAGE_NEXTHOP = true → CHECK_FLAG message ZAPI_MESSAGE_IFINDEX = true →
  CHECK_FLAG message ZAPI_MESSAGE_DISTANCE = false → CHECK_FLAG message ZAPI_MESSAGE_METRIC = metric →
  stream_ok obuf → s_size obuf = ZEBRA_MAX_PACKET_SIZ →
  stream_ok ibuf → s_size ibuf = ZEBRA_MAX_PACKET_SIZ →
  ∃ msg obuf', in_message (zsend_route command message gate metric p x) obuf = Ok (msg, obuf') ∧
    ∀ header_chunks body_chunks,
      Forall (λ c, c ≠ []) header_chunks → Forall (λ c, c ≠ []) body_chunks →
      concat header_chunks ++ concat body_chunks = msg → length (concat header_chunks) = 3%nat →
      ∃ len ibuf' ibuf2, zclient_receive (Some <$> header_chunks) (Some <$> body_chunks) ibuf = Ok (Some (command, len), ibuf') ∧
        rip_zebra_read ibuf' =
          Ok ((r_type x, sent_prefix p, nh_ifindex nh, if gate nh then nh_gate nh else replicate 4 0), ibuf2).
Proof.
  intros Hsb Hc Hm F1 F2 F3 F4 Hob Hobs Hib Hibs. pose proof Hsb as [Hp Ht Hf Hme Hn Hfib].
  assert (Forall (λ nh, ipv4_ok (nh_gate nh)) (r_nexthops x)) as Hg 
    by (eapply Forall_impl; [exact Hn|]; by intros ? []).
  rewrite Forall_forall in Hn. destruct (Hn _ (first_fib_in _ _ Hfib)) as [Hgate Hif].
  set (body := zsend_bytes message gate metric p x).
  assert (Hlen : (0 < length body < 30)%nat).
  { unfold body, zsend_bytes, hop_bytes. rewrite Hfib, !length_app. destruct Hp as (_ & _ & Hpl & _).
    pose proof (psize_bound _ Hpl). unfold prefix_bytes. cbn [length]. rewrite length_take.
    pose proof (proj2 Hgate). destruct (gate nh), metric; rewrite ?length_replicate; cbn [length be32]; lia. }
  destruct (message_put (zsend_route command message gate metric p x) (command :: body) obuf)
    as (obuf' & Hrun & Hok & _); [by apply writes_zsend|done|rewrite ?Hobs; unfold ZEBRA_MAX_PACKET_SIZ; cbn [length]; lia..|].
  eexists _, obuf'. split; [exact Hrun|]. intros header_chunks body_chunks Hh Hb Hmsg H3.
  destruct (zclient_receive_run command body header_chunks body_chunks ibuf Hib Hibs)
    as (s1 & Hr1 & Hs1 & _ & rest & Hah).
  { split; try done; [|lia|unfold ZEBRA_MAX_PACKET_SIZ; lia|].
    - unfold body, zsend_bytes, bytes_ok. rewrite !Forall_app. destruct Hp as (_ & Hpb & Hpl & _). split_and!.
      + by repeat (constructor; [done|]).
      + constructor; [unfold is_u8; lia|by apply Forall_take].
      + by apply hop_bytes_ok.
      + destruct metric; [apply be_bytes_ok32|constructor].
    - rewrite Hmsg. unfold framed. f_equal. f_equal. cbn [length]. lia. }
  eexists _, s1, _. split; [exact Hr1|]. by eapply (reads_zsend message gate metric p x nh).
Qed.

(** C18: a route that zebra announces to ripd is redistributed by ripd as it is in the
    forwarding table, and one that zebra withdraws is withdrawn: the messages of
    zsend_ipv4_add_multipath and zsend_ipv4_delete_multipath, in whatever pieces they
    arrive, are read by zclient_read and rip_zebra_read_ipv4 as the type and the
    prefix of the route with the interface, and for an announcement the gateway, of
    its first nexthop in the forwarding table. *)
Theorem redistribution_reaches_rip p x nh obuf ibuf rip :
  sendable p x nh →
  stream_ok obuf → s_size obuf = ZEBRA_MAX_PACKET_SIZ →
  stream_ok ibuf → s_size ibuf = ZEBRA_MAX_PACKET_SIZ →
  ∀ announce : bool, ∃ msg obuf',
    (if announce then zsend_ipv4_add_multipath p x obuf else zsend_ipv4_delete_multipath p x obuf) = Ok (msg, obuf') ∧
    ∀ header_chunks body_chunks,
      Forall (λ c, c ≠ []) header_chunks → Forall (λ c, c ≠ []) body_chunks →
      concat header_chunks ++ concat body_chunks = msg → length (concat header_chunks) = 3%nat →
      ∃ command len ibuf',
        zclient_receive (Some <$> header_chunks) (Some <$> body_chunks) ibuf = Ok (Some (command, len), ibuf') ∧
        rip_zebra_read_ipv4 command ibuf' rip =
          if announce then
            rip_redistribute_add (r_type x) RIP_ROUTE_REDISTRIBUTE (sent_prefix p) (nh_ifindex nh)
              (Some (if bool_decide (nh_type nh = NEXTHOP_TYPE_IPV4) || bool_decide (nh_type nh = NEXTHOP_TYPE_IPV4_IFINDEX)
                     then nh_gate nh else replicate 4 0)) rip
          else rip_redistribute_delete (r_type x) RIP_ROUTE_REDISTRIBUTE (sent_prefix p) (nh_ifindex nh) rip.
Proof.
  intros Hsb Hob Hobs Hib Hibs [].
  - destruct (zsend_delivered ZEBRA_IPV4_ROUTE_ADD
      (Z.lor (Z.lor ZAPI_MESSAGE_NEXTHOP ZAPI_MESSAGE_IFINDEX) ZAPI_MESSAGE_METRIC)
      (λ nh, bool_decide (nh_type nh = NEXTHOP_TYPE_IPV4) || bool_decide (nh_type nh = NEXTHOP_TYPE_IPV4_IFINDEX))
      true p x nh obuf ibuf) as (msg & obuf' & Hrun & Hread); try done.
    exists msg, obuf'. split; [done|]. intros hc bc Hh Hb Hmsg H3.
    destruct (Hread hc bc Hh Hb Hmsg H3) as (len & ib & ib2 & Hr1 & Hr2).
    exists ZEBRA_IPV4_ROUTE_ADD, len, ib. split; [done|]. unfold rip_zebra_read_ipv4. by rewrite Hr2.
  - destruct (zsend_delivered ZEBRA_IPV4_ROUTE_DELETE (Z.lor ZAPI_MESSAGE_NEXTHOP ZAPI_MESSAGE_IFINDEX)
      (λ nh, bool_decide (nh_type nh = NEXTHOP_TYPE_IPV4))
      false p x nh obuf ibuf) as (msg & obuf' & Hrun & Hread); try done.
    exists msg, obuf'. split; [done|]. intros hc bc Hh Hb Hmsg H3.
    destruct (Hread hc bc Hh Hb Hmsg H3) as (len & ib & ib2 & Hr1 & Hr2).
    exists ZEBRA_IPV4_ROUTE_DELETE, len, ib. split; [done|]. unfold rip_zebra_read_ipv4. by rewrite Hr2.
Qed.

(** A route of zebra with two nexthops, the second in the forwarding table. *)
Definition ex_hop : nexthop :=
  set_nh_flags NEXTHOP_FLAG_FIB (set_nh_ifindex 3 (set_nh_gate [10; 0; 0; 5] (nexthop_new NEXTHOP_TYPE_IPV4))).
Definition ex_sent : rib :=
  Rib ZEBRA_ROUTE_CONNECT 0 0 0 7 0 2 1 [nexthop_new NEXTHOP_TYPE_IFINDEX; ex_hop].

Lemma ex_sendable : sendable (ex_ipv4 20 8) ex_sent ex_hop.
Proof.
  split; try done; [by apply ex_ipv4_prefix|].
  repeat (constructor; [split; [split; [by apply bytes_ok_decide|done]|done]|]). constructor.
Qed.

Lemma redistribution_reaches_rip_witness :
  ∃ msg obuf',
    zsend_ipv4_add_multipath (ex_ipv4 20 8) ex_sent (stream_new ZEBRA_MAX_PACKET_SIZ) = Ok (msg, obuf') ∧
    ∀ header_chunks body_chunks,
      Forall (λ c, c ≠ []) header_chunks → Forall (λ c, c ≠ []) body_chunks →
      concat header_chunks ++ concat body_chunks = msg → length (concat header_chunks) = 3%nat →
      ∃ command len ibuf',
        zclient_receive (Some <$> header_chunks) (Some <$> body_chunks) (stream_new ZEBRA_MAX_PACKET_SIZ) =
          Ok (Some (command, len), ibuf') ∧
        rip_zebra_read_ipv4 command ibuf' rip_start =
          rip_redistribute_add ZEBRA_ROUTE_CONNECT RIP_ROUTE_REDISTRIBUTE (sent_prefix (ex_ipv4 20 8)) 3
            (Some [10; 0; 0; 5]) rip_start.
Proof.
  destruct (redistribution_reaches_rip (ex_ipv4 20 8) ex_sent ex_hop (stream_new ZEBRA_MAX_PACKET_SIZ)
    (stream_new ZEBRA_MAX_PACKET_SIZ) rip_start ex_sendable (wt_ok _ waiting_new) eq_refl (wt_ok _ waiting_new) eq_refl
    true) as (msg & obuf' & Hrun & Hread).
  exists msg, obuf'. split; [exact Hrun|]. exact Hread.
Defined.
